(* ===== verification/_CoqProject ===== *)
-Q . S2P
Prelude.v
Effects.v
GoStrings.v
Words.v
Crypto.v
Rules.v
Urls.v
AccessModel.v
AccessCheck.v
AccessStore.v
Policy.v
AccessUsecases.v
StateMachines.v
RichAuthorization.v
TokenDomain.v
ActorChain.v
RefreshStore.v
RefreshUsecase.v
CodeStore.v
ExchangeCode.v
Device.v
Keyset.v
Quota.v
JobStore.v
Jobs.v
ApprovalStore.v
Approval.v
Consents.v
Introspect.v
ExchangeToken.v
Resilience.v
Doubles.v
Jose.v
Quote.v
Guardrail.v
ResourceRules.v
ResourceAccess.v
IdJag.v
RedirectUri.v
Authorize.v
Netip.v
Authn.v
SignInPolicy.v
LoginThrottle.v
Sessions.v
SessionUsecases.v
ScimFilter.v
