(* ===== verification/Prelude.v ===== *)
(** * IdMagic: a verification of its authorization and token core

    IdMagic is an identity provider written in Go (under [backend/]).  This
    development verifies the parts that decide who may do what and who gets
    which token: the relation-based access control service, the authorization
    policy, the OAuth2 flows with the stores of their one-time credentials and
    human approvals, the resilience package and the SCIM filter language.
    Definitions keep the names of the code and follow it branch by branch;
    everything is executable, so that the examples and witnesses are runs.

    ** The program's parts and the files that model them

    - [shared/spec]: the vocabulary of all modules.  [Rules] models the
      validation rules (rules.go, length.go), [Policy] the policy engine
      (policy.go, grants.go, part of enums.go), [StateMachines] the transition
      tables of the flows (authorization_code_machine.go, device_code_machine.go,
      approval_request_machine.go).
    - [accesscontrol]: authorization models and relation tuples in the manner of
      Zanzibar.  [AccessModel] is the data and its validation (domain/model.go,
      tuple.go, consistency.go), [AccessCheck] the depth-first evaluator
      (domain/evaluator.go), [AccessStore] the store ports, as classes with laws,
      and the memory adapter (ports, db_memory), [AccessUsecases] the use cases
      (usecases) that put evaluator, store and policy together.
    - [oauth2]: [TokenDomain] the records of tokens, sender constraints and PKCE
      (token/domain, authorization/domain/pkce.go), [RefreshStore] and
      [RefreshUsecase] refresh tokens, their rotation and revocation
      (token/db_memory/refresh_tokens.go, token/usecases/refresh_tokens.go,
      revoke_token.go), [RichAuthorization] authorization details (RFC 9396),
      [CodeStore] authorization requests, codes and pushed requests with their
      memory stores, [ExchangeCode] the authorization code grant
      (token/usecases/exchange_code.go), [Device] the device grant (device/),
      [ApprovalStore] and [Approval] human approvals (approval/): the records,
      their memory store, backchannel authentication (CIBA) and the approval of
      an operation, with its matching and its claim.  [ActorChain] is actor claims
      and agent chains (domain/agent_chain.go, delegation_mode.go), [Consents] the
      consents of users and their delegations to agents (consent/), [Introspect]
      introspection and the revocation of issued tokens
      (token/usecases/introspect_token.go), [ExchangeToken] the token exchange
      (token/usecases/exchange_token.go) and [Guardrail] the limits of agents and
      the issuer that enforces them (domain/agent_guardrail.go,
      usecases/agent_guardrail.go).  [ResourceRules] is the registration of a
      resource server with its rules, limits and conditions (domain/
      mcp_resource_server.go, resource_access*.go, resource_tool.go) and
      [ResourceAccess] the decision whether a token may carry out one of its
      operations (token/usecases/evaluate_resource_access.go,
      resource_operations.go).  [IdJag] is the assertions of identity that an
      application carries to another one's authorization server, both hops
      (token/usecases/issue_id_jag.go, redeem_id_jag.go) with their policies.
      [RedirectUri] is which address a client may be answered at and what the
      prompts of a request ask for (authorization/domain/redirect_uri.go,
      authorization_request.go), [Authorize] the use cases of the authorization
      endpoint: a request, a pushed request and the completion of a login
      (authorization/usecases/authorize.go, push_authorization_request.go,
      complete_login.go).
    - [shared/security/tokens_jose]: [Jose] models the verification of DPoP
      proofs, client assertions and ID-JAGs (dpop_verifier.go,
      client_assertion_verifier.go, id_jag.go) and the record of identifiers that
      were used (oauth2/internal/db_memory/replay.go).
    - [tenancy], [shared/storage]: [Quota] models the quotas of a tenant
      (tenancy/internal/db_memory/quota_repository.go), [Keyset] the pages of the
      memory repositories (shared/storage/db_memory/keyset_page.go).
    - [jobs]: [JobStore] is the queue of background jobs: their life, lanes, retries
      and leases, with the memory repository (domain/job.go,
      internal/db_memory/repository.go).  [Jobs] is the use cases on it: enqueuing
      within the quota, the worker and the calls of administrators
      (internal/usecases/enqueue.go, runner.go, handler_registry.go, admin.go).
    - [signinpolicy]: [SignInPolicy] is the policies that decide how a user must have
      authenticated, and from where, to enter an application: their evaluation,
      validation, warning, use cases and repositories (domain/sign_in_policy.go,
      usecases/sign_in_policy.go, internal/db_memory/policies.go).
    - [authentication]: [Authn] is the vocabulary of methods and classes and the
      context of an authentication (domain/amr.go, acr.go,
      authentication_context.go), [LoginThrottle] the attempts by password: their
      limits, the buckets of failures, the policy of passwords and the operation
      (internal/usecases/password_authentication.go,
      internal/session/db_memory/login_attempt_throttle.go).  [Sessions] is the record
      of a login session, its memory store and the cookie, [SessionUsecases] their
      manager, listing and revocation (session/domain/login_session.go,
      internal/session/db_memory/sessions.go, internal/session/usecases).
    - [shared/resilience], [shared/ratelimit]: [Resilience] models the circuit
      breaker, the retry loop and the memory rate limiter.
    - [sourcing]: [ScimFilter] models the lexer, the parser and the evaluation of
      SCIM filters (internal/scim/domain/filter.go).

    [Prelude] (this file), [Effects], [GoStrings], [Quote] and [Crypto] model
    what the code uses of Go: errors, time, fixed-width integers; the effects of
    a use case; strings, UTF-8, base64; quoting; SHA-256 and hexadecimal.
    [Doubles] bounds the rounding of durations that become seconds in a double;
    [Netip] is what is used of addresses and prefixes of networks;
    [Words] has the laws of splitting a text into words and joining them again;
    [Urls] is what the code reads of a parsed URL, with the checks made of it.

    ** State and operations

    A component's state is a record or a finite map; an operation is a function
    from the state to its result and the new state.  Where two Go maps hold
    pointers to the same record (refresh tokens, device codes) or a store hands pointers out (sessions) the model has the
    heap and the maps of pointers.  A use case is a computation of [Effects]: it
    threads the store, collects the events handed to [emit] and ends in a value
    or an error; it is written against type classes for its ports, with the
    memory adapters as instances.  Repositories of other modules, the signer and
    the sources of randomness are functions or arguments.  The clock is an
    argument: [Time] counts nanoseconds from Go's zero time.

    Concurrency is the interleaving of atomic store operations, as every method
    of a memory store holds the store's lock for its whole body: a step relation
    on configurations for refresh tokens, codes and approvals, and use cases cut at
    their store calls where another request may run in between.

    ** What the theorems show

    - Access control.  Validation accepts exactly the well-formed models, whose
      references all resolve, and always terminates; the evaluator decides exactly the reachability of the subject
      within the depth bound, and a denial that does not mention the bound is
      definitive; the store implements sets of tuples per tenant with versions;
      on every store that the administrative operations can build, [CheckAccess]
      permits exactly when the chains and scopes are there, and never on doubt;
      consistency tokens give read-your-writes; listings are exact.
    - Policy.  The engine permits exactly when every rule of a defined action
      holds, and no administrative action is permitted without an active
      administrator.
    - Refresh tokens.  Under every interleaving a token is redeemed once, a
      family has one live token, one lineage and one deadline; a refresh checks
      tenant, client, user, lifetime and proof of possession; reuse and
      revocation reach the whole family and nothing else.
    - The authorization endpoint.  Exactly the registered addresses are accepted,
      and their loopback variants; a request gives at most one code under every
      interleaving; the tokens of an exchanged code are for the client, the user,
      the scopes and the resource of the request that was accepted.
    - Authorization codes.  Codes and pushed requests are used once under every
      interleaving, whatever expires between; a successful exchange has checked
      everything the protocol asks, and its tokens and what it leaves in every store
      are named; a replay revokes all that came out of the code.
    - Device codes.  A code is exchanged once over any sequence of complete use
      cases: after a successful exchange every later one is refused, whatever
      comes between; polls are answered by the interval.
    - Approvals.  Under every interleaving a request is decided once by its user
      and exchanged once; a decision, an exchange and the claim of an operation
      change exactly what they must; an approved operation goes to one execution.
    - Consents and quotas.  The use of a quota is exactly what was counted, through
      changes of its limit, measures and recounts, and stays within its limits; that of the consents counts exactly the granted rows;
      following the cursors of a listing shows every row once.
    - Introspection.  A token stands exactly when nothing revokes it: not the
      denylist, its user, any agent of its chain, nor the user's delegation to
      each of them; withdrawing a delegation reaches every token that is out.
    - Token exchange.  An exchanged token never widens what was presented, names
      the actor, keeps the agents of the chain and has the user's delegation to
      each of them; a grant of rebinding works once, and refusals before the
      signature keep it.
    - Guardrails.  A signed token exceeded nothing that a layer of any involved
      agent denies, neither in what it asks for nor in the rate, has the approval of
      its owner where a layer asks for it, and lives no longer than any layer allows; refusals say
      nothing of the limits; counting comes last, once, and bounds the tokens of an
      agent in a window.
    - Proofs.  A proof of possession is accepted once; a client assertion at most
      twice.
    - Identity across applications.  What an issued assertion and a redeemed one
      have been checked for; an assertion is redeemed once, to the last second of
      its validity.
    - Resource access.  A valid registration names every operation once.  An
      access is permitted only when the operation, its target, the relations, the
      actors and the details allow it, each said on its own terms, and consumes
      exactly the proof, the right, the counts and the grant that it needs; what is not permitted spends
      neither an approval nor a grant; an operation without a rule is answered
      alike whatever the token and the relations are; an approval permits the
      accesses of one operation key; the token exchange can claim the grant that is
      made, until it expires and once;
      counters do not meet.
    - Jobs.  The repository implements a machine of one job and its lease: only the
      holder, in time, reports, and an end is final; claims take the oldest ready
      jobs; a deduplication key has one unfinished job; delays of retries double.
      An execution ends its job, or puts it back, and frees the slot exactly when it
      ends it; the counter of active jobs is that of the unfinished ones and of those
      that administrators canceled; the pages of a listing show each job once.
    - Sign-in policies.  A policy allows exactly when every enabled rule is met, and a
      client exactly from one of the networks; what administrators store is well formed and
      read until it is replaced or deleted, and nothing else changes it; without
      the warning an application's policy lets in nobody whom a default of one rule
      keeps out.
    - Passwords.  How many passwords can be tried for an account, or from an address,
      in a stretch of time; an unknown name and a wrong password look the
      same, and behind a limit everything does.
    - Sessions.  What a session tells is what created and completed it; one that has
      ended stays so, and one that waits for a factor waits until then; the counter
      of the quota covers the sessions that nobody has revoked.
    - Resilience.  No interval of the length of a window sees more than twice the
      allowed requests; a breaker trips at the first prefix of outcomes that has
      the failure rate, refuses while open and recovers after its cooldown.
    - SCIM filters.  The parser always returns, accepts typed filters only, and
      parses back what is written from a well-formed expression.
    - Details and bindings.  Down-scoping is inclusion of authority; an exchange
      never loosens a sender constraint.

    Some theorems and lemmas state behaviour that the code does not intend:
    [RefreshUsecase.rotated_token_refused] (a rotation loses the tenant),
    [ExchangeCode.concurrent_exchange_unreported] (the loser of a race revokes
    nothing), [Device.stale_approval_reopens] (an unconditional write makes an
    exchanged device code exchangeable again),
    [Consents.client_deletion_frees_twice] and [Consents.purge_keeps_slots] (two
    deletions that miscount the quota of consents),
    [ExchangeToken.signer_refusal_loses_grant] (a refusal of the guardrail uses up
    a grant of rebinding), [Jose.client_assertion_replayed] (the record of an
    assertion ends before the assertion does),
    [RedirectUri.login_prompt_overlooked] (a prompt that asks for login and consent
    renews no login), [Jobs.active_jobs_counted] (a job that an administrator
    cancels keeps its slot of the quota),
    [SignInPolicy.postponed_enforcement_unwarned] and
    [SignInPolicy.later_rules_unwarned] (two weaker policies without the warning),
    [LoginThrottle.cross_tenant_lockout] (failures in one tenant lock users of another
    out), [SessionUsecases.expired_sessions_keep_slots],
    [SessionUsecases.logout_keeps_slot] and
    [SessionUsecases.refused_creation_keeps_slot] (slots of the quota of sessions that
    are never freed), [SessionUsecases.pending_sessions_survive] (the revocation of all
    sessions leaves pending ones), [SessionUsecases.revocation_lost] (a completion
    overwrites a revocation in the memory store) and [ScimFilter.three_groups_refused].

    ** Fuel and bounds

    The cycle search of [AccessModel] has as fuel the number of relation pairs
    plus one, and [Validate] is proved to return on every model; the evaluator's
    recursion is on the remaining depth, as in the code.  The SCIM parser's fuel
    is five steps for each rune or token that is left, and is proved to suffice
    and to leave the result alone when there is more.  SHA-256 recurses on the
    blocks.  Integers that can overflow are wrapped at 64 bits ([wrap64]), and
    durations saturate as [time.Sub] does.

    ** What is not modelled

    The PostgreSQL adapters, HTTP handlers, the front end and start-up code are
    input and output; signing, SAML and WS-Federation cryptography are
    libraries to this core; the remaining modules (identity management,
    provisioning, audit and others) are listed as components without
    definitions.  JSON decoding and encoding, the primitives of RSA and of the
    elliptic curve, [url.Parse], [strings.EqualFold] and [strings.ToLower], the parsing of
    addresses and of dates, the table of printable runes and CEL expressions are
    parameters of the definitions that use them.  The loop of goroutines that calls
    the worker of jobs, the order of two passwords tried at the same time and the
    change of passwords are left out. *)

From stdpp Require Import base strings list gmap sorting.
From Stdlib Require Import ZArith Lia.

Declare Scope go_scope.
Delimit Scope go_scope with go.

(** Go's [==] on comparable values, and the integer comparisons of the code. *)
Notation "x =? y" := (bool_decide (x = y)) (at level 70) : go_scope.
Notation "x <>? y" := (negb (bool_decide (x = y))) (at level 70) : go_scope.
Notation "x <? y" := (Z.ltb x y) (at level 70) : go_scope.
Notation "x <=? y" := (Z.leb x y) (at level 70) : go_scope.

(** ** Results: a Go pair [(value, error)] whose value is used only when the
    error is nil. *)

Inductive result (E A : Type) : Type :=
| Ok (a : A)
| Err (e : E).
Arguments Ok {E A} a.
Arguments Err {E A} e.

#[export] Instance result_eq_dec `{EqDecision E, EqDecision A} :
  EqDecision (result E A).
Proof. solve_decision. Defined.

Definition res_bind {E A B} (r : result E A) (k : A -> result E B) : result E B :=
  match r with
  | Ok a => k a
  | Err e => Err e
  end.

Definition res_ok {E A} (r : result E A) : bool :=
  match r with Ok _ => true | Err _ => false end.

Notation "'let?' x ':=' c 'in' k" := (res_bind c (fun x => k))
  (at level 10, x pattern, c at level 100, k at level 200) : go_scope.

(** [if cond { return err }] followed by the rest of the body. *)
Notation "'reject' b 'with' e 'in' k" := (if b then Err e else k)
  (at level 10, b at level 100, e at level 100, k at level 200) : go_scope.

Lemma Ok_inj {E A} (a b : A) : @Ok E A a = Ok b -> a = b.
Proof. by intros [= ->]. Qed.

Lemma res_bind_Ok {E A B} (r : result E A) (k : A -> result E B) b :
  res_bind r k = Ok b <-> exists a, r = Ok a /\ k a = Ok b.
Proof. destruct r; simpl; naive_solver. Qed.

(** The loops [for _, x := range xs { if err := f(x); err != nil { return err } }]. *)
Fixpoint for_each {E A} (f : A -> result E unit) (l : list A) : result E unit :=
  match l with
  | [] => Ok tt
  | x :: l' => res_bind (f x) (fun _ => for_each f l')
  end.

Lemma for_each_Ok {E A} (f : A -> result E unit) l :
  for_each f l = Ok tt <-> Forall (fun x => f x = Ok tt) l.
Proof.
  induction l as [|x l IH]; simpl; [by split|].
  rewrite Forall_cons, res_bind_Ok, <- IH. split.
  - intros ([] & Hx & Hl). auto.
  - intros [Hx Hl]. exists tt. auto.
Qed.

(** ** Go's [slices] package on lists. *)

(** [slices.Contains]. *)
Definition contains `{EqDecision A} (l : list A) (x : A) : bool :=
  existsb (fun y => bool_decide (y = x)) l.

Lemma contains_true `{EqDecision A} (l : list A) x : contains l x = true <-> x ∈ l.
Proof.
  unfold contains. rewrite existsb_exists. setoid_rewrite bool_decide_eq_true.
  setoid_rewrite <- list_elem_of_In. naive_solver.
Qed.

Lemma contains_false `{EqDecision A} (l : list A) x : contains l x = false <-> x ∉ l.
Proof. rewrite <- contains_true. destruct (contains l x); naive_solver. Qed.

Definition is_some {A} (o : option A) : bool := match o with Some _ => true | None => false end.

Lemma is_some_true {A} (o : option A) : is_some o = true <-> is_Some o.
Proof. destruct o; simpl; split; naive_solver. Qed.

(** A nil slice and an empty slice differ only where the code tests for nil;
    there the model uses [option (list A)]. *)

(** ** Instants and durations.

    A [time.Time] is its offset from the zero [Time] in nanoseconds, so that
    [IsZero] is equality with 0; a [time.Duration] is a 64-bit count of
    nanoseconds, and [Time.Sub] saturates at its ends. *)

Definition Time := Z.
Definition Duration := Z.
Definition Second : Duration := 1000000000%Z.
Definition max_int64 : Z := 9223372036854775807%Z.
Definition min_int64 : Z := (-9223372036854775808)%Z.

Definition IsZero (t : Time) : bool := Z.eqb t 0.
Definition Before (t u : Time) : bool := Z.ltb t u.
Definition After (t u : Time) : bool := Z.ltb u t.
Definition Sub (t u : Time) : Duration := Z.max min_int64 (Z.min max_int64 (t - u)).
Definition Add (t : Time) (d : Duration) : Time := (t + d)%Z.

(** [Time.Unix]: seconds since 1970. *)
Definition Unix (t : Time) : Z := (t / Second - 62135596800)%Z.

(** Two's-complement wrap-around of a 64-bit signed integer. *)
Definition wrap64 (z : Z) : Z :=
  ((z + 9223372036854775808) mod 18446744073709551616 - 9223372036854775808)%Z.

Lemma wrap64_id z : (min_int64 <= z <= max_int64)%Z -> wrap64 z = z.
Proof.
  unfold wrap64, min_int64, max_int64. intros H. rewrite Z.mod_small by lia. lia.
Qed.

Lemma wrap64_range z : (min_int64 <= wrap64 z <= max_int64)%Z.
Proof.
  unfold wrap64, min_int64, max_int64.
  pose proof (Z.mod_pos_bound (z + 9223372036854775808) 18446744073709551616). lia.
Qed.

(** ** Formatted errors.

    [fmt.Errorf("%w: ...", sentinel, args...)] is kept as the sentinel, the
    format string and its arguments: nothing in the code looks inside the text. *)

Record errorf (K : Type) : Type := Errorf {
  sentinel : K;
  format : string;
  args : list string;
}.
Arguments Errorf {K} sentinel format args.
Arguments sentinel {K} e.
Arguments format {K} e.
Arguments args {K} e.

#[export] Instance errorf_eq_dec `{EqDecision K} : EqDecision (errorf K).
Proof. solve_decision. Defined.

(** ** Counting the rows of a map *)

Definition one (b : bool) : Z := if b then 1%Z else 0%Z.

Lemma one_range b : (0 <= one b <= 1)%Z.
Proof. destruct b; simpl; lia. Qed.

Section counting.
Context {A : Type} (P : A -> bool).

Definition count_of (m : gmap string A) : Z := Z.of_nat (size (filter (fun e : string * A => P e.2 = true) m)).
Definition holds_at (m : gmap string A) (key : string) : bool := match m !! key with Some a => P a | None => false end.

Lemma filter_holds m key : is_Some (filter (fun e : string * A => P e.2 = true) m !! key) <-> holds_at m key = true.
Proof.
  unfold holds_at. split.
  - intros [a [Hm Hl]%map_lookup_filter_Some]. by rewrite Hm.
  - destruct (m !! key) as [a|] eqn:Hm; [|done]. intros Hl. exists a. by apply map_lookup_filter_Some.
Qed.

Lemma count_of_insert m key a : count_of (<[key := a]> m) = (count_of m - one (holds_at m key) + one (P a))%Z.
Proof.
  unfold count_of. pose proof (filter_holds m key) as Hl. set (f := filter _ m) in *. destruct (P a) eqn:Ha.
  - rewrite map_filter_insert_True by done. fold f. rewrite map_size_insert.
    destruct (holds_at m key), (f !! key) as [x|]; simpl; try lia.
    + destruct (proj2 Hl eq_refl); done.
    + by assert (false = true) by (apply Hl; by exists x).
  - rewrite map_filter_insert_False by (simpl; by rewrite Ha). rewrite map_filter_delete. fold f. rewrite map_size_delete.
    destruct (holds_at m key), (f !! key) as [x|] eqn:Hf; simpl; try lia.
    + assert (0 < size f)%nat; [|lia]. apply Nat.neq_0_lt_0. intros Hz%map_size_empty_inv. by rewrite Hz, lookup_empty in Hf.
    + destruct (proj2 Hl eq_refl); done.
    + by assert (false = true) by (apply Hl; by exists x).
Qed.

(** The count is of the keys that hold. *)
Lemma count_of_ext m m' : (forall key, holds_at m key = holds_at m' key) -> count_of m = count_of m'.
Proof.
  intros Heq. unfold count_of. f_equal. rewrite <- !size_dom. f_equal. apply set_eq. intros key.
  rewrite !elem_of_dom, !filter_holds. by rewrite Heq.
Qed.

Lemma count_of_mono m m' : (forall key, holds_at m' key = true -> holds_at m key = true) -> (count_of m' <= count_of m)%Z.
Proof.
  intros Hle. unfold count_of. apply inj_le. rewrite <- !size_dom. apply subseteq_size. intros key. rewrite !elem_of_dom, !filter_holds. apply Hle.
Qed.

Lemma count_of_pos m key : holds_at m key = true -> (1 <= count_of m)%Z.
Proof.
  intros [a Ha]%filter_holds. unfold count_of. assert (0 < size (filter (fun e : string * A => P e.2 = true) m))%nat; [|lia].
  apply Nat.neq_0_lt_0. intros Hz%map_size_empty_inv. by rewrite Hz, lookup_empty in Ha.
Qed.
End counting.

(** ** Tactics and hints shared by the component files. *)

Create HintDb idmagic.
Create Rewrite HintDb go_bool.
#[export] Hint Rewrite @bool_decide_eq_true @bool_decide_eq_false @andb_true_iff
  @orb_true_iff @negb_true_iff @andb_false_iff @orb_false_iff @negb_false_iff
  @contains_true @contains_false Z.ltb_lt Z.ltb_ge Z.leb_le Z.leb_gt Z.eqb_eq Z.eqb_neq
  : go_bool.

(** Read boolean tests of the code as propositions. *)
Ltac go_bool := autorewrite with go_bool in *.

(** Case on every [if] and [match] of a hypothesis that equates a result. *)
Ltac res_cases H :=
  repeat match type of H with
  | context [if ?b then _ else _] => destruct b eqn:?; try discriminate H
  | res_bind ?r _ = _ => destruct r eqn:?; simpl in H; try discriminate H
  | context [match ?x with _ => _ end] => destruct x eqn:?; try discriminate H
  end.
