(* ===== verification/Effects.v ===== *)
(** * The effects of a use case

    A use case of the Go code threads a store through its calls, hands domain
    events to [emit] and returns an error or a value.  [eff S W F A] is such a
    computation: from a store it computes a result, the changed store and the
    events in the order of their emission.  An error keeps the changes and the
    events made before it, as the Go code does. *)

From Stdlib Require Import String.
From stdpp Require Import base strings list.
From S2P Require Import Prelude.

Local Open Scope string_scope.
Local Open Scope go_scope.

Definition eff (S W F A : Type) : Type := S -> result F A * S * list W.

Definition eff_ret {S W F A} (a : A) : eff S W F A := fun s => (Ok a, s, []).
Definition eff_fail {S W F A} (e : F) : eff S W F A := fun s => (Err e, s, []).

Definition eff_bind {S W F A B} (m : eff S W F A) (k : A -> eff S W F B) : eff S W F B := fun s =>
  match m s with
  | (Ok a, s1, w1) => let '(r, s2, w2) := k a s1 in (r, s2, (w1 ++ w2)%list)
  | (Err e, s1, w1) => (Err e, s1, w1)
  end.

Definition emit {S W F} (w : W) : eff S W F unit := fun s => (Ok tt, s, [w]).

(** A pure computation that may fail. *)
Definition lift {S W F A} (r : result F A) : eff S W F A := fun s => (r, s, []).

(** A call of a store, whose error is passed on through [f]. *)
Definition call {S W E F A} (f : E -> F) (op : S -> result E A * S) : eff S W F A := fun s =>
  let '(r, s') := op s in
  (match r with Ok a => Ok a | Err e => Err (f e) end, s', []).

(** A call whose result is dropped: [_, _ = store.Op(...)]. *)
Definition ignore {S W E F A} (op : S -> result E A * S) : eff S W F (option A) := fun s =>
  let '(r, s') := op s in
  (Ok (match r with Ok a => Some a | Err _ => None end), s', []).

Notation "'let!' x ':=' m 'in' k" := (eff_bind m (fun x => k))
  (at level 10, x pattern, m at level 100, k at level 200) : go_scope.
Notation "'do!' m 'in' k" := (eff_bind m (fun _ => k))
  (at level 10, m at level 100, k at level 200) : go_scope.

(** [if cond { return err }] in a computation. *)
Notation "'refuse' b 'with' e 'in' k" := (if b then eff_fail e else k)
  (at level 10, b at level 100, e at level 100, k at level 200) : go_scope.

Fixpoint eff_for_each {S W F A} (f : A -> eff S W F unit) (l : list A) : eff S W F unit :=
  match l with
  | [] => eff_ret tt
  | x :: l' => do! f x in eff_for_each f l'
  end.

Section lemmas.
Context {S W F : Type}.

Lemma eff_bind_ret {A B} (a : A) (k : A -> eff S W F B) s : eff_bind (eff_ret a) k s = k a s.
Proof. unfold eff_bind, eff_ret. by destruct (k a s) as [[r s'] w]. Qed.

(** Runs of a sequence that returns. *)
Lemma eff_bind_Ok {A B} (m : eff S W F A) (k : A -> eff S W F B) s b s' w :
  eff_bind m k s = (Ok b, s', w) <->
  exists a s1 w1 w2, m s = (Ok a, s1, w1) /\ k a s1 = (Ok b, s', w2) /\ w = (w1 ++ w2)%list.
Proof.
  unfold eff_bind. destruct (m s) as [[[a|e] s1] w1].
  - destruct (k a s1) as [[r s2] w2] eqn:Hk. split.
    + intros [= -> -> <-]. by exists a, s1, w1, w2.
    + intros (a' & s1' & w1' & w2' & [= <- <- <-] & Hk' & ->). congruence.
  - split; [done|]. intros (a' & s1' & w1' & w2' & [=] & _).
Qed.

Lemma eff_bind_Err {A B} (m : eff S W F A) (k : A -> eff S W F B) s e s' w :
  eff_bind m k s = (Err e, s', w) <->
  m s = (Err e, s', w) \/
  exists a s1 w1 w2, m s = (Ok a, s1, w1) /\ k a s1 = (Err e, s', w2) /\ w = (w1 ++ w2)%list.
Proof.
  unfold eff_bind. destruct (m s) as [[[a|e'] s1] w1].
  - destruct (k a s1) as [[r s2] w2] eqn:Hk. split.
    + intros [= -> -> <-]. right. by exists a, s1, w1, w2.
    + intros [[=]|(a' & s1' & w1' & w2' & [= <- <- <-] & Hk' & ->)]. congruence.
  - split; [intros [= -> -> ->]; by left|].
    intros [[= -> -> ->]|(a' & s1' & w1' & w2' & [=] & _)]. done.
Qed.

(** One step of a sequence, by the run of its first computation. *)
Lemma eff_bind_run {A B} (m : eff S W F A) (k : A -> eff S W F B) s a s1 w1 :
  m s = (Ok a, s1, w1) -> eff_bind m k s = let '(r, s2, w2) := k a s1 in (r, s2, (w1 ++ w2)%list).
Proof. intros Hm. unfold eff_bind. by rewrite Hm. Qed.

Lemma eff_bind_pure {A B} (m : eff S W F A) (k : A -> eff S W F B) s a s1 :
  m s = (Ok a, s1, []) -> eff_bind m k s = k a s1.
Proof. intros Hm. unfold eff_bind. rewrite Hm. by destruct (k a s1) as [[r s2] w2]. Qed.

Lemma eff_bind_fails {A B} (m : eff S W F A) (k : A -> eff S W F B) s e s1 w1 :
  m s = (Err e, s1, w1) -> eff_bind m k s = (Err e, s1, w1).
Proof. intros Hm. unfold eff_bind. by rewrite Hm. Qed.

(** A loop that only emits. *)
Lemma eff_for_each_emit {A} (f : A -> W) l (s : S) :
  eff_for_each (fun x => emit (F := F) (f x)) l s = (Ok tt, s, map f l).
Proof.
  induction l as [|x l IH]; [done|].
  change (eff_bind (emit (F := F) (f x)) (fun _ => eff_for_each (fun x => emit (f x)) l) s
          = (Ok tt, s, f x :: map f l)).
  apply eff_bind_Ok. by exists tt, s, [f x], (map f l).
Qed.

(** A property of stores that every step keeps, the whole keeps. *)
Definition keeps (P : S -> Prop) {A} (m : eff S W F A) : Prop := forall s, P s -> P (m s).1.2.

Lemma keeps_bind (P : S -> Prop) {A B} (m : eff S W F A) (k : A -> eff S W F B) :
  keeps P m -> (forall a, keeps P (k a)) -> keeps P (eff_bind m k).
Proof.
  intros Hm Hk s Hs. specialize (Hm s Hs). unfold eff_bind.
  destruct (m s) as [[[a|e] s1] w1]; [|done]. simpl in Hm. specialize (Hk a s1 Hm).
  by destruct (k a s1) as [[r s2] w2].
Qed.

Lemma keeps_pure (P : S -> Prop) {A} (m : eff S W F A) : (forall s, (m s).1.2 = s) -> keeps P m.
Proof. intros Hm s Hs. by rewrite Hm. Qed.

Lemma keeps_ret P {A} (a : A) : keeps P (eff_ret a).
Proof. by apply keeps_pure. Qed.
Lemma keeps_fail P {A} e : keeps P (eff_fail (A := A) e).
Proof. by apply keeps_pure. Qed.
Lemma keeps_emit P w : keeps P (emit w).
Proof. by apply keeps_pure. Qed.
Lemma keeps_lift P {A} (r : result F A) : keeps P (lift r).
Proof. by apply keeps_pure. Qed.
Lemma keeps_call P {E A} (f : E -> F) (op : S -> result E A * S) :
  (forall s, P s -> P (op s).2) -> keeps P (call f op).
Proof. intros Hop s Hs. unfold call. specialize (Hop s Hs). by destruct (op s). Qed.
Lemma keeps_ignore P {E A} (op : S -> result E A * S) :
  (forall s, P s -> P (op s).2) -> keeps P (ignore op).
Proof. intros Hop s Hs. unfold ignore. specialize (Hop s Hs). by destruct (op s). Qed.
Lemma keeps_if P {A} (b : bool) (m1 m2 : eff S W F A) : keeps P m1 -> keeps P m2 -> keeps P (if b then m1 else m2).
Proof. by destruct b. Qed.
Lemma keeps_for_each P {A} (f : A -> eff S W F unit) l : (forall x, keeps P (f x)) -> keeps P (eff_for_each f l).
Proof. intros Hf. induction l; simpl; [apply keeps_ret|]. apply keeps_bind; auto. Qed.
End lemmas.

#[export] Hint Resolve keeps_ret keeps_fail keeps_emit keeps_lift keeps_if : idmagic.

(** A computation that does not change the store and emits only when it fails. *)
Definition reads_only {S W F A} (m : eff S W F A) : Prop := forall s r s' w, m s = (r, s', w) ->
  s' = s /\ match r with Ok _ => w = [] | Err _ => True end.

Section reads_only.
Context {S W F : Type}.

Lemma reads_only_ret {A} (a : A) : reads_only (S := S) (W := W) (F := F) (eff_ret a).
Proof. intros s r s' w. unfold eff_ret. by intros [= <- <- <-]. Qed.
Lemma reads_only_fail {A} (e : F) : reads_only (S := S) (W := W) (A := A) (eff_fail e).
Proof. intros s r s' w. unfold eff_fail. by intros [= <- <- <-]. Qed.
Lemma reads_only_report {A} w0 (e : F) : reads_only (S := S) (W := W) (A := A) (eff_bind (emit w0) (fun _ => eff_fail e)).
Proof. intros s r s' w. unfold eff_bind, emit, eff_fail. by intros [= <- <- <-]. Qed.
Lemma reads_only_lift {A} (r : result F A) : reads_only (S := S) (W := W) (lift r).
Proof. intros s x s' w. unfold lift. intros [= <- <- <-]. by destruct r. Qed.
Lemma reads_only_bind {A B} (m : eff S W F A) (k : A -> eff S W F B) :
  reads_only m -> (forall a, reads_only (k a)) -> reads_only (eff_bind m k).
Proof.
  intros Hm Hk s b s' w. unfold eff_bind. destruct (m s) as [[[a|e] s1] w1] eqn:H1.
  - destruct (Hm _ _ _ _ H1) as [-> ->]. destruct (k a s) as [[r s2] w2] eqn:H2. intros [= <- <- <-].
    exact (Hk a _ _ _ _ H2).
  - intros [= <- <- <-]. by destruct (Hm _ _ _ _ H1) as [-> _].
Qed.
End reads_only.

(** Go through a computation step by step; what is left are the store calls. *)
Ltac keeps_steps :=
  repeat match goal with
  | |- keeps _ (eff_bind _ _) => apply keeps_bind; [|intros ?]
  | |- keeps _ (eff_ret _) => apply keeps_ret
  | |- keeps _ (eff_fail _) => apply keeps_fail
  | |- keeps _ (emit _) => apply keeps_emit
  | |- keeps _ (lift _) => apply keeps_lift
  | |- keeps _ (call _ _) => apply keeps_call
  | |- keeps _ (ignore _) => apply keeps_ignore
  | |- keeps _ (if ?b then _ else _) => destruct b eqn:?
  | |- keeps _ (match ?x with _ => _ end) => destruct x eqn:?
  | |- keeps _ (eff_for_each _ _) => apply keeps_for_each; intros ?
  end.
