(* ===== verification/GoStrings.v ===== *)
(** * Go's string functions on byte strings

    A Go [string] is a [string] of bytes.  This file writes out the functions
    of [strings], [unicode/utf8], [strconv] and [encoding/base64] that the
    modelled code calls, with the lemmas their callers need: separators that
    make a concatenation injective, and the round trips of the decimal and the
    base64url encodings. *)

From Stdlib Require Import Ascii String.
From stdpp Require Import base strings list.
From Stdlib Require Import ZArith NArith Lia DecimalString DecimalZ DecimalPos.
From S2P Require Import Prelude.

Local Open Scope string_scope.

(** ** Bytes *)

Fixpoint byte_in (c : ascii) (s : string) : bool :=
  match s with
  | EmptyString => false
  | String d s' => bool_decide (d = c) || byte_in c s'
  end.

(** [strings.ContainsAny] for a set of ASCII characters. *)
Definition ContainsAny (s chars : string) : bool :=
  existsb (fun c => byte_in c s) (String.list_ascii_of_string chars).

(** [strings.HasPrefix]. *)
Definition HasPrefix (s prefix : string) : bool := String.prefix prefix s.

(** [strings.HasSuffix] and [strings.TrimSuffix]. *)
Fixpoint HasSuffix (s suffix : string) : bool :=
  bool_decide (s = suffix) ||
  match s with
  | EmptyString => false
  | String _ s' => HasSuffix s' suffix
  end.

Fixpoint TrimSuffix (s suffix : string) : string :=
  if bool_decide (s = suffix) then ""
  else match s with
  | EmptyString => ""
  | String c s' => String c (TrimSuffix s' suffix)
  end.

(** [strings.CutPrefix]. *)
Fixpoint CutPrefix (s prefix : string) : option string :=
  match prefix with
  | EmptyString => Some s
  | String p prefix' =>
      match s with
      | String c s' => if bool_decide (c = p) then CutPrefix s' prefix' else None
      | EmptyString => None
      end
  end.

(** [strings.Contains]. *)
Fixpoint Contains (s sub : string) : bool :=
  String.prefix sub s ||
  match s with
  | EmptyString => false
  | String _ s' => Contains s' sub
  end.

(** [strings.Cut] at a one-byte separator: [None] when it does not occur. *)
Fixpoint cut (s : string) (sep : ascii) : option (string * string) :=
  match s with
  | EmptyString => None
  | String c s' =>
      if bool_decide (c = sep) then Some ("", s')
      else match cut s' sep with
           | Some (a, b) => Some (String c a, b)
           | None => None
           end
  end.

(** [strings.Split] at a one-byte separator. *)
Fixpoint Split (s : string) (sep : ascii) : list string :=
  match s with
  | EmptyString => [""]
  | String c s' =>
      if bool_decide (c = sep) then "" :: Split s' sep
      else match Split s' sep with
           | part :: parts => String c part :: parts
           | [] => [String c ""]
           end
  end.

(** [strings.Join]. *)
Fixpoint Join (l : list string) (sep : string) : string :=
  match l with
  | [] => ""
  | [s] => s
  | s :: l' => s ++ sep ++ Join l' sep
  end.

Lemma byte_in_app c a b : byte_in c (a ++ b) = byte_in c a || byte_in c b.
Proof. induction a as [|d a IH]; [done|]. simpl. rewrite IH. by destruct (bool_decide _). Qed.

Lemma cut_app a sep b : byte_in sep a = false -> cut (a ++ String sep b) sep = Some (a, b).
Proof.
  induction a as [|c a IH]; simpl.
  - intros _. by rewrite bool_decide_true.
  - rewrite orb_false_iff. intros [Hc Ha]. by rewrite Hc, IH.
Qed.

Lemma cut_Some s sep a b : cut s sep = Some (a, b) <-> s = a ++ String sep b /\ byte_in sep a = false.
Proof.
  split; [|intros [-> Ha]; by apply cut_app]. revert a. induction s as [|c s IH]; intros a; simpl; [done|].
  destruct (bool_decide (c = sep)) eqn:Hc; [intros [= <- <-]; by apply bool_decide_eq_true in Hc as ->|].
  destruct (cut s sep) as [[a' b']|]; [|done]. intros [= <- <-]. destruct (IH a' eq_refl) as [-> Ha]. simpl. by rewrite Hc.
Qed.

Lemma cut_None s sep : cut s sep = None <-> byte_in sep s = false.
Proof.
  induction s as [|c s IH]; simpl; [done|]. destruct (bool_decide (c = sep)); [done|]. simpl. rewrite <- IH.
  by destruct (cut s sep) as [[]|].
Qed.

Lemma HasSuffix_true s suffix : HasSuffix s suffix = true <-> exists p, s = p ++ suffix.
Proof.
  induction s as [|c s IH]; simpl; rewrite orb_true_iff, bool_decide_eq_true.
  - split; [intros [<-|]; [by exists ""|done]|]. intros [[|] Hp]; [by left|done].
  - rewrite IH. split; [intros [<-|[p ->]]; [by exists ""|by exists (String c p)]|].
    intros [[|d p] Hp]; [by left|right; exists p; by injection Hp].
Qed.

Lemma TrimSuffix_app p suffix : TrimSuffix (p ++ suffix) suffix = p.
Proof.
  induction p as [|c p IH]; [destruct suffix; [done|]; simpl; by rewrite bool_decide_true|].
  simpl. rewrite IH, bool_decide_false; [done|].
  intros Heq. apply (f_equal String.length) in Heq. simpl in Heq.
  assert (Hl : forall a b : string, String.length (a ++ b) = (String.length a + String.length b)%nat) by (intros a b; induction a as [|x a IHa]; [done|]; simpl; by rewrite IHa).
  rewrite Hl in Heq. lia.
Qed.

(** A separator that does not occur in the left parts makes a concatenation
    injective; this is what the composite map keys of the code rely on. *)
Lemma app_sep_inj a1 a2 sep b1 b2 :
  byte_in sep a1 = false -> byte_in sep a2 = false ->
  a1 ++ String sep b1 = a2 ++ String sep b2 -> a1 = a2 /\ b1 = b2.
Proof.
  intros H1 H2 Heq. apply (f_equal (fun s => cut s sep)) in Heq.
  rewrite !cut_app in Heq by done. by inversion Heq.
Qed.

Lemma string_app_cons c (a b : string) : String c a ++ b = String c (a ++ b).
Proof. done. Qed.

Lemma HasPrefix_app p s : HasPrefix (p ++ s) p = true.
Proof.
  unfold HasPrefix. induction p as [|c p IH]; [by destruct s|].
  rewrite string_app_cons. simpl. by destruct ascii_dec.
Qed.

Lemma string_app_assoc (a b c : string) : (a ++ b) ++ c = a ++ (b ++ c).
Proof. induction a as [|x a IH]; [done|]. by rewrite !string_app_cons, IH. Qed.

(** ** UTF-8 *)

Definition bytes_of (s : string) : list N := map N_of_ascii (String.list_ascii_of_string s).
Definition string_of_bytes (l : list N) : string :=
  String.string_of_list_ascii (map ascii_of_N l).

Definition in_range (lo hi b : N) : bool := ((lo <=? b) && (b <=? hi))%N.

(** The decoding of [utf8.DecodeRuneInString]: an invalid or truncated
    sequence yields the rune U+FFFD and consumes one byte.  Each rune is kept
    with the bytes it was read from. *)
Definition rune_error : N := 65533.

Fixpoint decode_runes (l : list N) : list (N * list N) :=
  match l with
  | [] => []
  | b0 :: r0 =>
      let invalid (_ : unit) := (rune_error, [b0]) :: decode_runes r0 in
      if (b0 <? 128)%N then (b0, [b0]) :: decode_runes r0
      else if in_range 194 223 b0 then
        match r0 with
        | b1 :: r1 =>
            if in_range 128 191 b1
            then ((b0 mod 32 * 64 + b1 mod 64)%N, [b0; b1]) :: decode_runes r1
            else invalid tt
        | [] => invalid tt
        end
      else if in_range 224 239 b0 then
        match r0 with
        | b1 :: b2 :: r2 =>
            let lo := (if b0 =? 224 then 160 else 128)%N in
            let hi := (if b0 =? 237 then 159 else 191)%N in
            if in_range lo hi b1 && in_range 128 191 b2
            then ((b0 mod 16 * 4096 + b1 mod 64 * 64 + b2 mod 64)%N, [b0; b1; b2]) :: decode_runes r2
            else invalid tt
        | _ => invalid tt
        end
      else if in_range 240 244 b0 then
        match r0 with
        | b1 :: b2 :: b3 :: r3 =>
            let lo := (if b0 =? 240 then 144 else 128)%N in
            let hi := (if b0 =? 244 then 143 else 191)%N in
            if in_range lo hi b1 && in_range 128 191 b2 && in_range 128 191 b3
            then ((b0 mod 8 * 262144 + b1 mod 64 * 4096 + b2 mod 64 * 64 + b3 mod 64)%N,
                  [b0; b1; b2; b3]) :: decode_runes r3
            else invalid tt
        | _ => invalid tt
        end
      else invalid tt
  end.

(** [utf8.RuneCountInString] and [len]. *)
Definition RuneCountInString (s : string) : Z := Z.of_nat (length (decode_runes (bytes_of s))).
Definition len (s : string) : Z := Z.of_nat (String.length s).

(** [unicode.IsSpace]. *)
Definition IsSpace (r : N) : bool :=
  in_range 9 13 r || (r =? 32)%N || (r =? 133)%N || (r =? 160)%N || (r =? 5760)%N ||
  in_range 8192 8202 r || (r =? 8232)%N || (r =? 8233)%N || (r =? 8239)%N ||
  (r =? 8287)%N || (r =? 12288)%N.

(** [strings.Fields]: the maximal runs of non-space runes. *)
Fixpoint fields_go (cur : list N) (rs : list (N * list N)) : list (list N) :=
  match rs with
  | [] => match cur with [] => [] | _ => [cur] end
  | (r, bs) :: rs' =>
      if IsSpace r then match cur with [] => fields_go [] rs' | _ => cur :: fields_go [] rs' end
      else fields_go (cur ++ bs)%list rs'
  end.

Definition Fields (s : string) : list string :=
  map string_of_bytes (fields_go [] (decode_runes (bytes_of s))).

(** [strings.TrimSpace]: without the white space at both ends. *)
Fixpoint drop_spaces (rs : list (N * list N)) : list (N * list N) :=
  match rs with
  | (r, bs) :: rs' => if IsSpace r then drop_spaces rs' else rs
  | [] => []
  end.

Definition TrimSpace (s : string) : string :=
  string_of_bytes (concat (map snd (rev (drop_spaces (rev (drop_spaces (decode_runes (bytes_of s)))))))).

(** [unicode.IsControl]. *)
Definition IsControl (r : N) : bool := in_range 0 31 r || in_range 127 159 r.

Example trim_example : TrimSpace "  a b	 " = "a b" /\ TrimSpace "  " = "".
Proof. vm_compute. done. Qed.

Example fields_example : Fields "  openid  profile " = ["openid"; "profile"].
Proof. reflexivity. Qed.

Example rune_count_example : RuneCountInString "日本" = 2%Z.
Proof. reflexivity. Qed.

Lemma bytes_of_app a b : bytes_of (a ++ b) = (bytes_of a ++ bytes_of b)%list.
Proof. unfold bytes_of. induction a as [|c a IH]; [done|]. rewrite string_app_cons. cbn. f_equal. exact IH. Qed.

Lemma bytes_of_string_of_bytes l :
  Forall (fun b => (b < 256)%N) l -> bytes_of (string_of_bytes l) = l.
Proof.
  unfold bytes_of, string_of_bytes. rewrite String.list_ascii_of_string_of_list_ascii, map_map.
  intros Hl. induction Hl as [|b l Hb Hl IH]; cbn; [done|].
  by rewrite N_ascii_embedding, IH.
Qed.

Lemma string_of_bytes_of_string s : string_of_bytes (bytes_of s) = s.
Proof.
  unfold bytes_of, string_of_bytes. rewrite map_map.
  rewrite (map_ext _ (fun c => c)) by apply ascii_N_embedding.
  rewrite map_id. apply String.string_of_list_ascii_of_string.
Qed.

Lemma bytes_of_lt s : Forall (fun b => (b < 256)%N) (bytes_of s).
Proof.
  unfold bytes_of. apply Forall_forall. intros b Hb.
  apply list_elem_of_fmap in Hb as (c & -> & _). apply N_ascii_bounded.
Qed.

(** ** Decimal integers *)

(** [strconv.FormatInt(z, 10)]. *)
Definition FormatInt (z : Z) : string := NilZero.string_of_int (Z.to_int z).

(** [strconv.ParseInt(s, 10, 64)]: an optional sign, at least one digit, and a
    value in the range of [int64]. *)
Definition ParseInt (s : string) : option Z :=
  let v := match s with
           | String c r =>
               if Ascii.eqb c "+" then option_map Z.of_uint (NilZero.uint_of_string r)
               else option_map Z.of_int (NilZero.int_of_string s)
           | EmptyString => None
           end in
  match v with
  | Some z => if ((min_int64 <=? z) && (z <=? max_int64))%Z then Some z else None
  | None => None
  end.

Lemma to_int_not_nil z : Z.to_int z <> Decimal.Pos Decimal.Nil /\ Z.to_int z <> Decimal.Neg Decimal.Nil.
Proof.
  destruct z as [|p|p]; cbn; split; try done; intros H; inversion H as [H'];
    by apply (Unsigned.to_uint_nonnil p) in H'.
Qed.

Lemma FormatInt_head z : exists c r, FormatInt z = String c r /\ c <> "+"%char.
Proof.
  unfold FormatInt. destruct (to_int_not_nil z) as [H1 H2].
  destruct (Z.to_int z) as [[]|d]; try done; eexists _, _; by split.
Qed.

Lemma ParseInt_FormatInt z :
  (min_int64 <= z <= max_int64)%Z -> ParseInt (FormatInt z) = Some z.
Proof.
  intros Hz. unfold ParseInt.
  assert (Hv : option_map Z.of_int (NilZero.int_of_string (FormatInt z)) = Some z).
  { unfold FormatInt. destruct (to_int_not_nil z) as [H1 H2].
    rewrite NilZero.isi by done. simpl. by rewrite DecimalZ.of_to. }
  assert (Hr : ((min_int64 <=? z) && (z <=? max_int64))%Z = true).
  { apply andb_true_iff. rewrite !Z.leb_le. lia. }
  destruct (FormatInt_head z) as (c & r & Hc & Hp). rewrite Hc in Hv |- *.
  apply Ascii.eqb_neq in Hp. by rewrite Hp, Hv, Hr.
Qed.

(** ** Unpadded base64url: [base64.RawURLEncoding] *)

Definition base64_alphabet : string :=
  "ABCDEFGHIJKLMNOPQRSTUVWXYZabcdefghijklmnopqrstuvwxyz0123456789-_".

Definition b64_char (v : N) : ascii :=
  match String.get (N.to_nat v) base64_alphabet with Some c => c | None => "A"%char end.

(** The value of a character of the alphabet. *)
Fixpoint index_of (c : ascii) (s : string) : option N :=
  match s with
  | EmptyString => None
  | String d s' => if Ascii.eqb d c then Some 0%N else option_map N.succ (index_of c s')
  end.

Definition b64_value (c : ascii) : option N := index_of c base64_alphabet.

Fixpoint b64_encode_bytes (l : list N) : list N :=
  match l with
  | [] => []
  | [a] => [a / 4; a mod 4 * 16]%N
  | [a; b] => [a / 4; a mod 4 * 16 + b / 16; b mod 16 * 4]%N
  | a :: b :: c :: l' =>
      ((a / 4) :: (a mod 4 * 16 + b / 16) :: (b mod 16 * 4 + c / 64) :: (c mod 64)
       :: b64_encode_bytes l')%N
  end.

Fixpoint b64_decode_values (l : list N) : option (list N) :=
  match l with
  | [] => Some []
  | [_] => None
  | [a; b] => Some [(a * 4 + b / 16) mod 256]%N
  | [a; b; c] => Some [(a * 4 + b / 16) mod 256; (b * 16 + c / 4) mod 256]%N
  | a :: b :: c :: d :: l' =>
      match b64_decode_values l' with
      | Some r => Some ((a * 4 + b / 16) mod 256 :: (b * 16 + c / 4) mod 256
                        :: (c * 64 + d) mod 256 :: r)%N
      | None => None
      end
  end.

Definition EncodeToString (s : string) : string :=
  String.string_of_list_ascii (map b64_char (b64_encode_bytes (bytes_of s))).

(** [DecodeString]: line breaks are skipped, any other character outside the
    alphabet is an error, and the surplus low bits of the last character are
    ignored (the encoding is not [Strict]). *)
Definition DecodeString (s : string) : option string :=
  let cs := filter (fun c => bool_decide (c <> "010"%char) && bool_decide (c <> "013"%char) = true)
                   (String.list_ascii_of_string s) in
  match mapM b64_value cs with
  | Some vs => option_map string_of_bytes (b64_decode_values vs)
  | None => None
  end.

Definition b64_char_ok (v : N) : bool :=
  bool_decide (b64_value (b64_char v) = Some v) &&
  bool_decide (b64_char v <> "010"%char) && bool_decide (b64_char v <> "013"%char).

Lemma b64_char_spec v :
  (v < 64)%N ->
  b64_value (b64_char v) = Some v /\ b64_char v <> "010"%char /\ b64_char v <> "013"%char.
Proof.
  intros Hv.
  assert (Hall : forallb b64_char_ok (map N.of_nat (seq 0 64)) = true) by (vm_compute; reflexivity).
  rewrite forallb_forall in Hall. specialize (Hall v).
  unfold b64_char_ok in Hall. rewrite !andb_true_iff, !bool_decide_eq_true in Hall.
  destruct Hall as [[H1 H2] H3]; [|done].
  apply in_map_iff. exists (N.to_nat v). split; [lia|]. apply in_seq. lia.
Qed.

Lemma b64_bytes_ind (P : list N -> Prop) :
  P [] -> (forall a, P [a]) -> (forall a b, P [a; b]) ->
  (forall a b c l, P l -> P (a :: b :: c :: l)) -> forall l, P l.
Proof.
  intros H0 H1 H2 H3. fix IH 1. intros [|a [|b [|c l]]]; [done|apply H1|apply H2|].
  apply H3, IH.
Qed.

Ltac N_bytes := zify; Z.to_euclidean_division_equations; lia.

Lemma b64_encode_lt64 l :
  Forall (fun b => (b < 256)%N) l -> Forall (fun v => (v < 64)%N) (b64_encode_bytes l).
Proof.
  induction l as [|a|a b|a b c l IH] using b64_bytes_ind; simpl b64_encode_bytes;
    rewrite ?Forall_cons, ?Forall_nil.
  - done.
  - intros [Ha _]. split_and!; [N_bytes..|done].
  - intros (Ha & Hb & _). split_and!; [N_bytes..|done].
  - intros (Ha & Hb & Hc & Hl). split_and!; [N_bytes..|by apply IH].
Qed.

Lemma b64_decode_encode l :
  Forall (fun b => (b < 256)%N) l -> b64_decode_values (b64_encode_bytes l) = Some l.
Proof.
  induction l as [|a|a b|a b c l IH] using b64_bytes_ind; rewrite ?Forall_cons; simpl.
  - done.
  - intros [Ha _]. do 2 f_equal. N_bytes.
  - intros (Ha & Hb & _). repeat f_equal; N_bytes.
  - intros (Ha & Hb & Hc & Hl). rewrite IH by done. repeat f_equal; N_bytes.
Qed.

Lemma b64_chars_decode vs :
  Forall (fun v => (v < 64)%N) vs ->
  mapM b64_value
    (filter (fun c => bool_decide (c <> "010"%char) && bool_decide (c <> "013"%char) = true)
       (map b64_char vs)) = Some vs.
Proof.
  induction 1 as [|v vs Hv Hvs IH]; [done|].
  destruct (b64_char_spec v Hv) as (H1 & H2 & H3). simpl map.
  rewrite filter_cons_True by (rewrite !bool_decide_true by done; done).
  simpl. rewrite H1. simpl. by rewrite IH.
Qed.

(** Decoding an encoding returns the encoded bytes. *)
Lemma DecodeString_EncodeToString s : DecodeString (EncodeToString s) = Some s.
Proof.
  unfold DecodeString, EncodeToString.
  rewrite String.list_ascii_of_string_of_list_ascii.
  rewrite b64_chars_decode by apply b64_encode_lt64, bytes_of_lt.
  rewrite b64_decode_encode by apply bytes_of_lt. simpl.
  by rewrite string_of_bytes_of_string.
Qed.
