(* ===== verification/Words.v ===== *)
(** * Lists of words in a text

    A list of scopes is stored as its words joined by spaces and read back with
    [strings.Fields].  For words that [Fields] produced the round trip is exact,
    invalid UTF-8 included: a rune boundary in front of a byte that continues no
    sequence is one whatever stands before it. *)

From Stdlib Require Import Ascii String NArith Lia.
From stdpp Require Import base strings list.
From S2P Require Import Prelude GoStrings.

Local Open Scope string_scope.
Local Open Scope go_scope.

(** ** Decoding is local *)

(** A byte that continues a sequence. *)
Definition continues (b : N) : bool := in_range 128 191 b.

(** A text that starts a rune of its own. *)
Definition boundary (t : list N) : Prop := match t with [] => True | b :: _ => continues b = false end.

Lemma continues_range lo hi b : (128 <= lo)%N -> (hi <= 191)%N -> continues b = false -> in_range lo hi b = false.
Proof. unfold continues, in_range. rewrite !andb_false_iff, !N.leb_gt. lia. Qed.

Lemma decode_app g : forall t, boundary t -> decode_runes (g ++ t) = (decode_runes g ++ decode_runes t)%list.
Proof.
  induction g as [g IH] using (induction_ltof1 _ (@length N)). unfold ltof in IH. intros t Ht.
  destruct g as [|b0 r0]; [done|]. cbn [app decode_runes].
  assert (IH0 : decode_runes (r0 ++ t) = (decode_runes r0 ++ decode_runes t)%list) by (apply IH; [simpl; lia|done]).
  destruct (b0 <? 128)%N; [by rewrite IH0|]. destruct (in_range 194 223 b0).
  { destruct r0 as [|b1 r1]; cbn [app] in *.
    - destruct t as [|c t]; [done|]. unfold boundary, continues in Ht. by rewrite Ht.
    - destruct (in_range 128 191 b1); [|by rewrite IH0]. rewrite (IH r1) by (simpl; lia || done). done. }
  destruct (in_range 224 239 b0).
  { set (lo := (if b0 =? 224 then 160 else 128)%N). set (hi := (if b0 =? 237 then 159 else 191)%N).
    assert (Hr : forall b, continues b = false -> in_range lo hi b = false)
      by (intros b; apply continues_range; unfold lo, hi; [by destruct (b0 =? 224)%N|by destruct (b0 =? 237)%N]).
    destruct r0 as [|b1 [|b2 r2]]; cbn [app] in *.
    - destruct t as [|c [|c' t]]; [done|done|]. by rewrite (Hr c Ht).
    - destruct t as [|c t]; [by rewrite app_nil_r|]. unfold boundary, continues in Ht. rewrite Ht, andb_false_r. by rewrite IH0.
    - destruct (in_range lo hi b1 && in_range 128 191 b2)%bool; [|by rewrite IH0]. rewrite (IH r2) by (simpl; lia || done). done. }
  destruct (in_range 240 244 b0); [|by rewrite IH0].
  set (lo := (if b0 =? 240 then 144 else 128)%N). set (hi := (if b0 =? 244 then 143 else 191)%N).
  assert (Hr : forall b, continues b = false -> in_range lo hi b = false)
    by (intros b; apply continues_range; unfold lo, hi; [by destruct (b0 =? 240)%N|by destruct (b0 =? 244)%N]).
  destruct r0 as [|b1 [|b2 [|b3 r3]]]; cbn [app] in *.
  - destruct t as [|c [|c' [|c'' t]]]; [done..|]. by rewrite (Hr c Ht).
  - destruct t as [|c [|c' t]]; [by rewrite app_nil_r|by rewrite IH0|]. unfold boundary, continues in Ht.
    rewrite Ht, andb_false_r. by rewrite IH0.
  - destruct t as [|c t]; [by rewrite app_nil_r|]. unfold boundary, continues in Ht. rewrite Ht, andb_false_r. by rewrite IH0.
  - destruct (in_range lo hi b1 && in_range 128 191 b2 && in_range 128 191 b3)%bool; [|by rewrite IH0].
    rewrite (IH r3) by (simpl; lia || done). done.
Qed.

(** The runes of a text with the bytes that they were read from. *)
Definition runes_bytes (rs : list (N * list N)) : list N := concat (map snd rs).

(** The first rune of a text: its bytes start it, and the rest is decoded alone. *)
Lemma decode_first l r bs rs : decode_runes l = (r, bs) :: rs ->
  exists l', l = (bs ++ l')%list /\ decode_runes l' = rs /\ bs <> [] /\ (IsSpace r = true -> boundary bs).
Proof.
  assert (Hspace : forall b, (b <? 128)%N = true -> continues b = false).
  { intros b Hb. apply N.ltb_lt in Hb. unfold continues, in_range. apply andb_false_iff. left. apply N.leb_gt. lia. }
  assert (Hlead : forall lo hi b, (192 <= lo)%N -> in_range lo hi b = true -> continues b = false).
  { intros lo hi b Hlo Hb. unfold continues, in_range in *. apply andb_true_iff in Hb as [Hb _]. apply N.leb_le in Hb.
    apply andb_false_iff. right. apply N.leb_gt. lia. }
  destruct l as [|b0 r0]; [done|]. cbn [decode_runes]. destruct (b0 <? 128)%N eqn:H0.
  { intros [= <- <- <-]. exists r0. split_and!; [done|done|done|]. intros _. by apply Hspace. }
  assert (Herr : forall rs', (rune_error, [b0]) :: decode_runes r0 = (r, bs) :: rs' -> rs' = rs ->
    exists l', b0 :: r0 = (bs ++ l')%list /\ decode_runes l' = rs /\ bs <> [] /\ (IsSpace r = true -> boundary bs)).
  { intros rs' [= <- <- <-] <-. exists r0. split_and!; [done..|]. vm_compute. done. }
  destruct (in_range 194 223 b0) eqn:H2.
  { destruct r0 as [|b1 r1]; [by intros ?; eapply Herr|]. destruct (in_range 128 191 b1); [|by intros ?; eapply Herr].
    intros [= <- <- <-]. exists r1. split_and!; [done..|]. intros _. by apply (Hlead 194%N 223%N). }
  destruct (in_range 224 239 b0) eqn:H3.
  { destruct r0 as [|b1 [|b2 r2]]; [by intros ?; eapply Herr..|]. destruct (_ && _)%bool; [|by intros ?; eapply Herr].
    intros [= <- <- <-]. exists r2. split_and!; [done..|]. intros _. by apply (Hlead 224%N 239%N). }
  destruct (in_range 240 244 b0) eqn:H4; [|by intros ?; eapply Herr].
  destruct r0 as [|b1 [|b2 [|b3 r3]]]; [by intros ?; eapply Herr..|]. destruct (_ && _)%bool; [|by intros ?; eapply Herr].
  intros [= <- <- <-]. exists r3. split_and!; [done..|]. intros _. by apply (Hlead 240%N 244%N).
Qed.

(** A list of runes that some text decodes to. *)
Definition decoded (rs : list (N * list N)) : Prop := decode_runes (runes_bytes rs) = rs.

Lemma decode_decoded l : decoded (decode_runes l) /\ runes_bytes (decode_runes l) = l.
Proof.
  unfold decoded. enough (H : runes_bytes (decode_runes l) = l) by by rewrite H.
  induction l as [l IH] using (induction_ltof1 _ (@length N)). unfold ltof in IH.
  destruct (decode_runes l) as [|[r bs] rs] eqn:Hl.
  - destruct l as [|b l]; [done|]. exfalso. revert Hl. cbn [decode_runes].
    repeat (case_match; try done).
  - apply decode_first in Hl as (l' & -> & <- & Hne & _). unfold runes_bytes. cbn [map concat snd]. f_equal. apply IH.
    destruct bs; [done|]. rewrite length_app. simpl. lia.
Qed.

Lemma decoded_tail p rs : decoded (p :: rs) -> decoded rs.
Proof.
  unfold decoded. destruct p as [r bs]. intros H. pose proof H as H'. apply decode_first in H' as (l' & Hl & Hd & _).
  unfold runes_bytes in *. cbn [map concat snd] in *. apply app_inv_head in Hl. by rewrite Hl.
Qed.

Lemma decoded_suffix rs1 rs2 : decoded (rs1 ++ rs2) -> decoded rs2.
Proof. induction rs1 as [|p rs1 IH]; [done|]. intros H%decoded_tail. by apply IH. Qed.

Lemma decoded_prefix rs1 rs2 : decoded (rs1 ++ rs2) -> boundary (runes_bytes rs2) -> decoded rs1.
Proof.
  intros H Hb. pose proof (decoded_suffix _ _ H) as H2. unfold decoded, runes_bytes in *. rewrite map_app, concat_app in H.
  rewrite decode_app in H by done. rewrite H2 in H. by apply app_inv_tail in H.
Qed.

Lemma decoded_space r bs rs : decoded ((r, bs) :: rs) -> IsSpace r = true -> boundary (runes_bytes ((r, bs) :: rs)).
Proof.
  intros H Hs. apply decode_first in H as (l' & _ & _ & Hne & Hb). unfold runes_bytes. cbn [map concat snd].
  specialize (Hb Hs). destruct bs; done.
Qed.

(** ** Words *)

(** A run of runes that are no space, as its bytes. *)
Definition word (w : list N) : Prop := w <> [] /\ Forall (fun p => IsSpace p.1 = false) (decode_runes w).

Lemma runes_bytes_app a b : runes_bytes (a ++ b) = (runes_bytes a ++ runes_bytes b)%list.
Proof. unfold runes_bytes. by rewrite map_app, concat_app. Qed.

Lemma fields_go_words rs : forall run, decoded (run ++ rs) -> Forall (fun p => IsSpace p.1 = false) run ->
  Forall word (fields_go (runes_bytes run) rs).
Proof.
  assert (Hword : forall run, decoded run -> Forall (fun p => IsSpace p.1 = false) run -> runes_bytes run <> [] -> word (runes_bytes run)).
  { intros run Hd Hs Hne. split; [done|]. by rewrite Hd. }
  induction rs as [|[r bs] rs IH]; intros run Hd Hs.
  - rewrite app_nil_r in Hd. cbn [fields_go]. destruct (runes_bytes run) eqn:Hr; [constructor|]. constructor; [|constructor].
    rewrite <- Hr. apply Hword; [done..|]. by rewrite Hr.
  - cbn [fields_go]. destruct (IsSpace r) eqn:Hr.
    + assert (Hrun : decoded run) by (eapply decoded_prefix; [exact Hd|]; eapply decoded_space; [by eapply decoded_suffix|done]).
      assert (Htail : Forall word (fields_go [] rs)).
      { apply (IH []); [|constructor]. eapply decoded_tail, decoded_suffix, Hd. }
      destruct (runes_bytes run) eqn:Hb; [done|]. constructor; [|done]. rewrite <- Hb. apply Hword; [done..|]. by rewrite Hb.
    + replace (runes_bytes run ++ bs)%list with (runes_bytes (run ++ [(r, bs)])).
      * apply IH; [by rewrite <- app_assoc|]. apply Forall_app. split; [done|]. by repeat constructor.
      * rewrite runes_bytes_app. unfold runes_bytes at 2. cbn. by rewrite app_nil_r.
Qed.

Lemma fields_go_run run : forall cur rs, Forall (fun p => IsSpace p.1 = false) run ->
  fields_go cur (run ++ rs) = fields_go (cur ++ runes_bytes run) rs.
Proof.
  induction run as [|[r bs] run IH]; intros cur rs Hs; [by rewrite app_nil_r|]. apply Forall_cons in Hs as [Hr Hs].
  cbn [app fields_go]. simpl in Hr. rewrite Hr. rewrite IH by done. unfold runes_bytes. cbn [map concat snd]. by rewrite app_assoc.
Qed.

(** The words of words joined by spaces. *)
Lemma fields_join_bytes ws : Forall word ws -> forall w, word w ->
  fields_go [] (decode_runes (w ++ concat (map (fun v => 32%N :: v) ws))) = w :: ws.
Proof.
  intros Hws. induction Hws as [|v ws Hv Hws IH]; intros w [Hne Hw].
  - cbn [map concat]. rewrite app_nil_r. rewrite <- (app_nil_r (decode_runes w)). rewrite fields_go_run by done.
    cbn [app]. rewrite (proj2 (decode_decoded w)). cbn [fields_go]. by destruct w.
  - cbn [map concat]. rewrite decode_app by done. rewrite fields_go_run by done. cbn [app]. rewrite (proj2 (decode_decoded w)).
    assert (decode_runes (32%N :: v ++ concat (map (fun v0 => 32%N :: v0) ws)) =
            (32%N, [32%N]) :: decode_runes (v ++ concat (map (fun v0 => 32%N :: v0) ws))) as -> by done.
    cbn [fields_go]. rewrite IH by done. by destruct w.
Qed.

(** A word as a string. *)
Definition is_word (w : string) : Prop := word (bytes_of w).

Lemma bytes_of_Join w ws : bytes_of (Join (w :: ws) " ") = (bytes_of w ++ concat (map (fun v => 32%N :: v) (map bytes_of ws)))%list.
Proof.
  revert w. induction ws as [|v ws IH]; intros w; [by rewrite app_nil_r|].
  change (Join (w :: v :: ws) " ") with (w ++ " " ++ Join (v :: ws) " "). rewrite !bytes_of_app, IH. done.
Qed.

Lemma Fields_words s : Forall is_word (Fields s).
Proof.
  unfold Fields. apply Forall_map, List.Forall_forall. intros w Hw.
  pose proof (fields_go_words (decode_runes (bytes_of s)) [] (proj1 (decode_decoded _)) (Forall_nil_2 _)) as H.
  change (runes_bytes []) with (@nil N) in H. rewrite List.Forall_forall in H. specialize (H w Hw). unfold is_word.
  rewrite bytes_of_string_of_bytes; [done|].
  assert (Hb : forall rs cur, Forall (fun p => Forall (fun b => (b < 256)%N) p.2) rs -> Forall (fun b => (b < 256)%N) cur ->
    Forall (Forall (fun b => (b < 256)%N)) (fields_go cur rs)).
  { induction rs as [|[r bs] rs IH]; intros cur Hrs Hcur; cbn [fields_go].
    - destruct cur; [constructor|]. constructor; [done|constructor].
    - apply Forall_cons in Hrs as [Hbs Hrs]. destruct (IsSpace r).
      + destruct cur; [by apply IH; [|constructor]|]. constructor; [done|]. by apply IH; [|constructor].
      + apply IH; [done|]. by apply Forall_app. }
  specialize (Hb (decode_runes (bytes_of s)) []).
  enough (Hrs : Forall (fun p => Forall (fun b => (b < 256)%N) p.2) (decode_runes (bytes_of s))).
  { specialize (Hb Hrs ltac:(constructor)). rewrite List.Forall_forall in Hb. by apply Hb. }
  pose proof (bytes_of_lt s) as Hl. rewrite <- (proj2 (decode_decoded (bytes_of s))) in Hl.
  clear -Hl. induction (decode_runes (bytes_of s)) as [|[r bs] rs IH]; [constructor|]. unfold runes_bytes in Hl.
  cbn [map concat snd] in Hl. apply Forall_app in Hl as [H1 H2]. constructor; [done|by apply IH].
Qed.

(** Words that are joined by spaces are read back. *)
Lemma Fields_Join ws : Forall is_word ws -> Fields (Join ws " ") = ws.
Proof.
  intros Hws. destruct ws as [|w ws]; [done|]. apply Forall_cons in Hws as [Hw Hws]. unfold Fields.
  rewrite bytes_of_Join, fields_join_bytes; [|by apply Forall_map|done]. cbn [map]. rewrite string_of_bytes_of_string. f_equal.
  rewrite List.map_map. erewrite List.map_ext; [apply List.map_id|]. intros v. apply string_of_bytes_of_string.
Qed.

Lemma Fields_Join_Fields s : Fields (Join (Fields s) " ") = Fields s.
Proof. apply Fields_Join, Fields_words. Qed.
