(* ===== verification/Crypto.v ===== *)
(** * Digests: SHA-256 and its hexadecimal form

    The standard library's [crypto/sha256] and [encoding/hex], which the code
    uses for the S256 challenge of PKCE and for the digest of a resource
    identifier in the audit log.  The function is written out from FIPS 180-4
    over lists of bytes so that it evaluates; the vectors of the standard and of
    RFC 7636 check it.  No property of the development assumes that it is hard
    to invert. *)

From Stdlib Require Import Ascii String NArith Lia.
From stdpp Require Import base strings list.
From S2P Require Import Prelude GoStrings.

Local Open Scope N_scope.

Definition mask32 : N := 4294967295.
Definition add32 (a b : N) : N := N.land (a + b) mask32.
Definition rotr (n x : N) : N :=
  N.lor (N.shiftr x n) (N.land (N.shiftl x (32 - n)) mask32).
Definition not32 (x : N) : N := N.lxor x mask32.

Definition Ch (x y z : N) : N := N.lxor (N.land x y) (N.land (not32 x) z).
Definition Maj (x y z : N) : N := N.lxor (N.lxor (N.land x y) (N.land x z)) (N.land y z).
Definition big_sigma0 (x : N) : N := N.lxor (N.lxor (rotr 2 x) (rotr 13 x)) (rotr 22 x).
Definition big_sigma1 (x : N) : N := N.lxor (N.lxor (rotr 6 x) (rotr 11 x)) (rotr 25 x).
Definition small_sigma0 (x : N) : N := N.lxor (N.lxor (rotr 7 x) (rotr 18 x)) (N.shiftr x 3).
Definition small_sigma1 (x : N) : N := N.lxor (N.lxor (rotr 17 x) (rotr 19 x)) (N.shiftr x 10).

Definition round_constants : list N :=
  [1116352408; 1899447441; 3049323471; 3921009573; 961987163; 1508970993;
   2453635748; 2870763221; 3624381080; 310598401; 607225278; 1426881987;
   1925078388; 2162078206; 2614888103; 3248222580; 3835390401; 4022224774;
   264347078; 604807628; 770255983; 1249150122; 1555081692; 1996064986;
   2554220882; 2821834349; 2952996808; 3210313671; 3336571891; 3584528711;
   113926993; 338241895; 666307205; 773529912; 1294757372; 1396182291;
   1695183700; 1986661051; 2177026350; 2456956037; 2730485921; 2820302411;
   3259730800; 3345764771; 3516065817; 3600352804; 4094571909; 275423344;
   430227734; 506948616; 659060556; 883997877; 958139571; 1322822218;
   1537002063; 1747873779; 1955562222; 2024104815; 2227730452; 2361852424;
   2428436474; 2756734187; 3204031479; 3329325298].

Definition initial_hash : list N :=
  [1779033703; 3144134277; 1013904242; 2773480762; 1359893119; 2600822924;
   528734635; 1541459225].

(** The message schedule: the last sixteen words, newest first. *)
Fixpoint schedule (n : nat) (recent : list N) : list N :=
  match n with
  | O => []
  | S n' =>
      let w := add32 (add32 (small_sigma1 (nth 1 recent 0)) (nth 6 recent 0))
                     (add32 (small_sigma0 (nth 14 recent 0)) (nth 15 recent 0)) in
      w :: schedule n' (w :: firstn 15 recent)
  end.

Fixpoint rounds (kw : list (N * N)) (s : list N) : list N :=
  match kw, s with
  | (k, w) :: kw', [a; b; c; d; e; f; g; h] =>
      let t1 := add32 (add32 (add32 h (big_sigma1 e)) (add32 (Ch e f g) k)) w in
      let t2 := add32 (big_sigma0 a) (Maj a b c) in
      rounds kw' [add32 t1 t2; a; b; c; add32 d t1; e; f; g]
  | _, _ => s
  end.

Definition compress (s block : list N) : list N :=
  let ws := (block ++ schedule 48 (rev block))%list in
  zip_with add32 s (rounds (combine round_constants ws) s).

(** Big-endian words of four bytes. *)
Fixpoint words_of (l : list N) : list N :=
  match l with
  | a :: b :: c :: d :: l' => (a * 16777216 + b * 65536 + c * 256 + d) :: words_of l'
  | _ => []
  end.

Definition bytes_of_word (w : N) : list N :=
  [N.shiftr w 24 mod 256; N.shiftr w 16 mod 256; N.shiftr w 8 mod 256; w mod 256].

Definition pad (l : list N) : list N :=
  let n := length l in
  let zeros := ((119 - n mod 64) mod 64)%nat in
  let bits := 8 * N.of_nat n in
  (l ++ 128 :: repeat 0 zeros ++ bytes_of_word (N.shiftr bits 32) ++ bytes_of_word (N.land bits mask32))%list.

(** One compression per sixteen words; the fuel is the number of words. *)
Fixpoint digest (fuel : nat) (ws s : list N) : list N :=
  match fuel with
  | O => s
  | S fuel' =>
      match ws with
      | [] => s
      | _ => digest fuel' (skipn 16 ws) (compress s (firstn 16 ws))
      end
  end.

(** [sha256.Sum256]. *)
Definition Sum256 (l : list N) : list N :=
  let ws := words_of (pad l) in
  flat_map bytes_of_word (digest (length ws) ws initial_hash).

Definition sha256_string (s : string) : string := string_of_bytes (Sum256 (bytes_of s)).

(** [hex.EncodeToString]. *)
Definition hex_digit (n : N) : ascii := ascii_of_N (if n <? 10 then 48 + n else 87 + n).
Definition hex_EncodeToString (l : list N) : string :=
  String.string_of_list_ascii (flat_map (fun b => [hex_digit (b / 16); hex_digit (b mod 16)]) l).

Local Open Scope string_scope.

Example sha256_empty : hex_EncodeToString (Sum256 (bytes_of "")) =
  "e3b0c44298fc1c149afbf4c8996fb92427ae41e4649b934ca495991b7852b855".
Proof. vm_compute. reflexivity. Qed.

Example sha256_two_blocks :
  hex_EncodeToString (Sum256 (bytes_of "abcdbcdecdefdefgefghfghighijhijkijkljklmklmnlmnomnopnopq")) =
  "248d6a61d20638b8e5c026930c3e6039a33ce45964ff2167f6ecedd419db06c1".
Proof. vm_compute. reflexivity. Qed.

(** The verifier and the challenge of RFC 7636, appendix B. *)
Example sha256_rfc7636 :
  EncodeToString (sha256_string "dBjftJeZ4CVP-mB92K27uhbUJU1p1r_wW1gFWFOEjXk") =
  "E9Melhoa2OwvFrEMTJguCHaoeK1t8URWbuGJSstw-cM".
Proof. vm_compute. reflexivity. Qed.
