(* ===== verification/Rules.v ===== *)
(** * Validation rules

    [backend/shared/spec/rules.go] and the checks of [length.go]: rules are
    lists of checks with messages, a record is validated by collecting the
    violations of its fields, and [All] renders them as one error.  [URL] and
    [Email], which wrap the standard library's parsers of URLs and addresses,
    are left out. *)

From Stdlib Require Import Ascii String ZArith Lia.
From stdpp Require Import base strings list sorting.
From S2P Require Import Prelude GoStrings.

Local Open Scope string_scope.
Local Open Scope go_scope.

Record issue := { path : string; message : string; is_length : bool }.
Definition Issues := list issue.

#[export] Instance issue_eq_dec : EqDecision issue.
Proof. solve_decision. Defined.

Record check (T : Type) := { holds : T -> bool; chk_message : string; chk_length : bool }.
Arguments holds {T} c.
Arguments chk_message {T} c.
Arguments chk_length {T} c.

Definition Rule (T : Type) := list (check T).

Definition newRule {T} (h : T -> bool) (m : string) : Rule T :=
  [ {| holds := h; chk_message := m; chk_length := false |} ].

Definition WithMessage {T} (r : Rule T) (m : string) : Rule T :=
  map (fun c => {| holds := holds c; chk_message := m; chk_length := chk_length c |}) r.

Definition Must {T} (h : T -> bool) (m : string) : Rule T := newRule h m.

(** [fmt.Sprintf("%v", options)] of a slice of strings. *)
Definition OneOf (options : list string) : Rule string :=
  newRule (contains options) ("string must be one of [" ++ Join options " " ++ "]").

Definition GreaterThan (minimum : Z) : Rule Z :=
  newRule (fun v => minimum <? v) ("number must be greater than " ++ FormatInt minimum).

Definition AtLeast (minimum : Z) : Rule Z :=
  newRule (fun v => minimum <=? v) ("number must be greater than or equal to " ++ FormatInt minimum).

Definition Chars (minimum maximum : Z) : Rule string :=
  ((if 0 <? minimum then
     [ {| holds := fun v => minimum <=? RuneCountInString v;
          chk_message := "must be at least " ++ FormatInt minimum ++ " characters"; chk_length := true |} ]
   else []) ++
   [ {| holds := fun v => RuneCountInString v <=? maximum;
        chk_message := "must be at most " ++ FormatInt maximum ++ " characters"; chk_length := true |} ])%list.

Definition CharsAtMost (maximum : Z) : Rule string := Chars 0 maximum.

Definition KeyString (maxChars maxBytes : Z) : Rule string :=
  (Chars 0 maxChars ++
   [ {| holds := fun v => len v <=? maxBytes;
        chk_message := "must be at most " ++ FormatInt maxBytes ++ " bytes"; chk_length := true |} ])%list.

(** The canonical form of a version 4 UUID: lower-case hexadecimal digits, the
    hyphens at their places, version 4 and the RFC 9562 variant; it is what
    [uuid.Parse] followed by the comparison with [parsed.String()] accepts. *)
Definition is_lower_hex (c : ascii) : bool :=
  in_range 48 57 (N_of_ascii c) || in_range 97 102 (N_of_ascii c).

Fixpoint uuid_chars (i : nat) (s : list ascii) : bool :=
  match s with
  | [] => i =? 36%nat
  | c :: s' =>
      (if contains [8; 13; 18; 23]%nat i then c =? "-"%char
       else if i =? 14%nat then c =? "4"%char
       else if i =? 19%nat then contains ["8"; "9"; "a"; "b"]%char c
       else is_lower_hex c) && uuid_chars (S i) s'
  end.

Definition is_uuid (s : string) : bool := uuid_chars 0 (String.list_ascii_of_string s).

Definition UUID : Rule string := newRule is_uuid "must be a valid UUID".

(** ** Applying rules *)

Definition apply_check {T} (field : string) (value : T) (c : check T) : Issues :=
  if holds c value then []
  else [ {| path := field; message := chk_message c; is_length := chk_length c |} ].

Definition apply {T} (field : string) (value : T) (rules : list (Rule T)) : Issues :=
  flat_map (flat_map (apply_check field value)) rules.

(** The zero value of a type. *)
Class Zero (T : Type) := zero : T.
#[export] Instance zero_string : Zero string := "".
#[export] Instance zero_Z : Zero Z := 0%Z.

Definition Required {T} `{EqDecision T, Zero T} (field : string) (value : T) (rules : list (Rule T)) : Issues :=
  if value =? zero then [ {| path := field; message := "is required"; is_length := false |} ]
  else apply field value rules.

Definition Optional {T} `{EqDecision T, Zero T} (field : string) (value : T) (rules : list (Rule T)) : Issues :=
  if value =? zero then [] else apply field value rules.

Definition OptionalPtr {T} `{EqDecision T, Zero T} (field : string) (value : option T)
    (rules : list (Rule T)) : Issues :=
  match value with None => [] | Some v => Optional field v rules end.

Definition NonEmpty {T} (field : string) (values : list T) : Issues :=
  match values with
  | [] => [ {| path := field; message := "is required"; is_length := false |} ]
  | _ => []
  end.

Definition indexed (field : string) (i : nat) : string :=
  field ++ "[" ++ FormatInt (Z.of_nat i) ++ "]".

Definition Each {T} `{EqDecision T, Zero T} (field : string) (values : list T)
    (rules : list (Rule T)) : Issues :=
  concat (imap (fun i v => Optional (indexed field i) v rules) values).

Definition Nested (field : string) (issues : Issues) : Issues :=
  map (fun found =>
    {| path := if path found <>? "" then field ++ "." ++ path found else field;
       message := message found; is_length := is_length found |}) issues.

Definition EachWith {T} (field : string) (values : list T) (validate : T -> Issues) : Issues :=
  concat (imap (fun i v => Nested (indexed field i) (validate v)) values).

Definition Condition (h : bool) (m : string) : Issues :=
  if h then [] else [ {| path := ""; message := m; is_length := false |} ].

(** An error of [All] and of the [Check] functions: its text and whether it is
    a [*LengthError]. *)
Record rule_error := { error_text : string; length_error : bool }.

#[export] Instance rule_error_eq_dec : EqDecision rule_error.
Proof. solve_decision. Defined.

(** [unicode.IsUpper], [unicode.IsLower] and [unicode.ToLower] on ASCII: the
    names are those of Go fields. *)
Definition IsUpper (c : ascii) : bool := in_range 65 90 (N_of_ascii c).
Definition IsLower (c : ascii) : bool := in_range 97 122 (N_of_ascii c).
Definition ToLower (c : ascii) : ascii := if IsUpper c then ascii_of_N (N_of_ascii c + 32) else c.

(** The loop of [snakeCase], with the character before the current one. *)
Fixpoint snake_chars (prev : option ascii) (s : list ascii) : list ascii :=
  match s with
  | [] => []
  | r :: s' =>
      let prevIsLower := match prev with Some p => negb (IsUpper p) && (p <>? "_"%char) | None => false end in
      let endsAcronym :=
        match prev, s' with Some p, n :: _ => IsUpper p && IsLower n | _, _ => false end in
      ((if IsUpper r && (prevIsLower || endsAcronym) then ["_"%char] else []) ++
       ToLower r :: snake_chars (Some r) s')%list
  end.

Definition snakeCase (name : string) : string :=
  String.string_of_list_ascii (snake_chars None (String.list_ascii_of_string name)).

Definition issue_text (found : issue) : string :=
  if path found <>? "" then snakeCase (path found) ++ ": " ++ message found else message found.

Definition All (groups : list Issues) : result rule_error unit :=
  let found := concat groups in
  match map issue_text found with
  | [] => Ok tt
  | messages => Err {| error_text := Join (merge_sort String.le messages) "; ";
                       length_error := existsb is_length found |}
  end.

(** *** Limits checked outside a rule ([length.go]) *)

Definition CheckMaxChars (field value : string) (maximum : Z) : result rule_error unit :=
  let actual := RuneCountInString value in
  if actual <=? maximum then Ok tt
  else Err {| error_text := field ++ ": must be at most " ++ FormatInt maximum ++ " characters, got " ++ FormatInt actual;
              length_error := true |}.

Definition CheckMaxBytes (field value : string) (maximum : Z) : result rule_error unit :=
  let actual := len value in
  if actual <=? maximum then Ok tt
  else Err {| error_text := field ++ ": must be at most " ++ FormatInt maximum ++ " bytes, got " ++ FormatInt actual;
              length_error := true |}.

Definition CheckKeyString (field value : string) (maxChars maxBytes : Z) : result rule_error unit :=
  let? _ := CheckMaxChars field value maxChars in
  CheckMaxBytes field value maxBytes.

(** ** What passing a rule means *)

Lemma All_Ok groups : All groups = Ok tt <-> Forall (fun g => g = []) groups.
Proof.
  unfold All. induction groups as [|g groups IH]; simpl; [by split|].
  rewrite Forall_cons, <- IH. destruct g; simpl; [|naive_solver].
  destruct (concat groups); simpl; naive_solver.
Qed.

Lemma apply_nil {T} field (v : T) rules :
  apply field v rules = [] <-> Forall (Forall (fun c => holds c v = true)) rules.
Proof.
  unfold apply, apply_check. induction rules as [|r rules IH]; simpl; [by split|].
  rewrite Forall_cons, <- IH. split.
  - intros H. apply app_eq_nil in H as [Hr ->]. split; [|done]. clear IH.
    induction r as [|c r IHr]; [constructor|]. simpl in Hr. apply app_eq_nil in Hr as [Hc Hr].
    constructor; [by destruct (holds c v)|by apply IHr].
  - intros [Hr ->]. rewrite app_nil_r. induction Hr as [|c r Hc Hr IHr]; [done|]. simpl. by rewrite Hc.
Qed.

Lemma Required_nil {T} `{EqDecision T, Zero T} field (v : T) rules :
  Required field v rules = [] <-> v <> zero /\ apply field v rules = [].
Proof. unfold Required. destruct (bool_decide _) eqn:Hb; go_bool; naive_solver. Qed.

Example snakeCase_example : snakeCase "PreferredUsername" = "preferred_username" /\
  snakeCase "OIDCScope" = "oidc_scope" /\ snakeCase "UserID" = "user_id".
Proof. vm_compute. done. Qed.

Example uuid_example : is_uuid "00000000-0000-4000-8000-000000000000" = true /\
  is_uuid "00000000-0000-4000-8000-00000000000A" = false /\
  is_uuid "00000000-0000-1000-8000-000000000000" = false.
Proof. vm_compute. done. Qed.
