(* ===== verification/Urls.v ===== *)
(** * Addresses

    What the code reads of [net/url]: a parsed address is a record, [url.Parse] is
    a parameter of the definitions that use it, and [Hostname] and [Port] are
    written out from the standard library, which computes them from the host.
    The validators of [shared/spec/rules.go], of resource identifiers
    ([oauth2/domain]) and of logout addresses ([oauth2/internal/client/domain])
    are here. *)

From Stdlib Require Import Ascii String ZArith Lia.
From stdpp Require Import base strings list.
From S2P Require Import Prelude GoStrings Rules.

Local Open Scope string_scope.
Local Open Scope go_scope.

(** [User] is the userinfo as it is written; [Opaque] is not empty for addresses
    like [mailto:a@b]. *)
Record URL := {
  url_Scheme : string;
  url_Opaque : string;
  url_User : option string;
  url_Host : string;
  url_Path : string;
  url_Fragment : string;
}.

(** [strings.LastIndexByte] with both sides of the byte. *)
Fixpoint cut_last (s : string) (sep : ascii) : option (string * string) :=
  match s with
  | EmptyString => None
  | String c s' =>
      match cut_last s' sep with
      | Some (a, b) => Some (String c a, b)
      | None => if bool_decide (c = sep) then Some ("", s') else None
      end
  end.

Definition is_digit (c : ascii) : bool := in_range 48 57 (N_of_ascii c).
Definition all_digits (s : string) : bool := forallb is_digit (String.list_ascii_of_string s).

(** [splitHostPort] of net/url. *)
Definition splitHostPort (hostPort : string) : string * string :=
  let '(host, port) := match cut_last hostPort ":" with
                       | Some (h, p) => if all_digits p then (h, p) else (hostPort, "")
                       | None => (hostPort, "")
                       end in
  (match host with
   | String "[" rest => if HasSuffix host "]" then TrimSuffix rest "]" else host
   | _ => host
   end, port).

Definition Hostname (u : URL) : string := (splitHostPort (url_Host u)).1.
Definition Port (u : URL) : string := (splitHostPort (url_Host u)).2.

Section validators.
Context (url_Parse : string -> option URL).

Definition IsURL (value : string) : bool :=
  match url_Parse value with Some parsed => (url_Scheme parsed <>? "") && (url_Host parsed <>? "") | None => false end.

(** The rule [spec.URL()]. *)
Definition URL_rule : Rule string := newRule IsURL "must be a valid URL".

Definition isAbsoluteURIWithoutFragment (value : string) : bool :=
  match url_Parse value with
  | None => false
  | Some parsed => (url_Scheme parsed <>? "") && (url_Fragment parsed =? "")
  end.

Definition isAbsoluteHTTPSURI (value : string) : bool :=
  match url_Parse value with
  | None => false
  | Some parsed => (url_Scheme parsed =? "https") && (url_Host parsed <>? "") && (url_Fragment parsed =? "")
  end.

Definition ValidateLogoutURI (raw : string) : bool :=
  match url_Parse raw with
  | None => false
  | Some parsed =>
      (url_Scheme parsed =? "https") && (url_Host parsed <>? "") && negb (is_some (url_User parsed)) && (url_Fragment parsed =? "")
  end.
End validators.

Example split_loopback : splitHostPort "[::1]:8080" = ("::1", "8080").
Proof. reflexivity. Qed.
Example split_plain : splitHostPort "127.0.0.1" = ("127.0.0.1", "").
Proof. reflexivity. Qed.
