(* ===== verification/AccessModel.v ===== *)
(** * Access control: authorization models and relation tuples

    [backend/accesscontrol/internal/domain]: [model.go], [tuple.go],
    [mcp_operation.go] and [consistency.go].  A tenant publishes a model, a
    list of resource types whose relations are unions of rewrites; the model
    and every tuple are validated when they are written.  The file states
    which models are accepted (exactly those whose references all resolve and
    whose computed-userset graph is acyclic) and that consistency tokens are
    accepted exactly in the form they are issued. *)

From Stdlib Require Import Ascii String ZArith Lia.
From stdpp Require Import base strings list gmap relations.
From S2P Require Import Prelude GoStrings.

Local Open Scope string_scope.
Local Open Scope go_scope.

(** ** Data *)

Definition RelationRewriteKind := string.
Definition RewriteDirect : RelationRewriteKind := "direct".
Definition RewriteComputedUserset : RelationRewriteKind := "computed_userset".
Definition RewriteTupleToUserset : RelationRewriteKind := "tuple_to_userset".

Record RelationRewrite := {
  Kind : RelationRewriteKind;
  ComputedRelation : string;
  TuplesetRelation : string;
  DirectSubjectTypes : list string;
}.

Record RelationDefinition := {
  rel_Name : string;
  Rewrites : list RelationRewrite;
}.

Record ResourceTypeDefinition := {
  type_Name : string;
  Relations : list RelationDefinition;
}.

Record AuthorizationModel := {
  model_ID : string;
  model_TenantID : string;
  Version : Z;
  ResourceTypes : list ResourceTypeDefinition;
  model_CreatedAt : Time;
}.

Record ObjectRef := { obj_Type : string; obj_ID : string }.
Record SubjectRef := { sub_Type : string; sub_ID : string; sub_Relation : string }.
Record RelationTuple := {
  tup_Resource : ObjectRef;
  tup_Relation : string;
  tup_Subject : SubjectRef;
}.

#[export] Instance RelationRewrite_eq_dec : EqDecision RelationRewrite.
Proof. solve_decision. Defined.
#[export] Instance RelationDefinition_eq_dec : EqDecision RelationDefinition.
Proof. solve_decision. Defined.
#[export] Instance ResourceTypeDefinition_eq_dec : EqDecision ResourceTypeDefinition.
Proof. solve_decision. Defined.
#[export] Instance AuthorizationModel_eq_dec : EqDecision AuthorizationModel.
Proof. solve_decision. Defined.
#[export] Instance ObjectRef_eq_dec : EqDecision ObjectRef.
Proof. solve_decision. Defined.
#[export] Instance SubjectRef_eq_dec : EqDecision SubjectRef.
Proof. solve_decision. Defined.
#[export] Instance RelationTuple_eq_dec : EqDecision RelationTuple.
Proof. solve_decision. Defined.

(** The sentinel errors of [errors.go]. *)
Inductive access_sentinel :=
| ErrModelInvalid | ErrModelNotFound | ErrTupleInvalid | ErrConsistencyNotSatisfied.

#[export] Instance access_sentinel_eq_dec : EqDecision access_sentinel.
Proof. solve_decision. Defined.

Definition access_error := errorf access_sentinel.

(** ** References *)

Definition Wildcard : string := "*".

(** [nameRe]: [^[a-z][a-z0-9_]*$]. *)
Definition is_lower (c : ascii) : bool := in_range 97 122 (N_of_ascii c).
Definition is_digit (c : ascii) : bool := in_range 48 57 (N_of_ascii c).

Definition nameRe (s : string) : bool :=
  match String.list_ascii_of_string s with
  | [] => false
  | c :: cs => is_lower c && forallb (fun d => is_lower d || is_digit d || (d =? "_"%char)) cs
  end.

Definition ObjectRef_String (o : ObjectRef) : string := obj_Type o ++ ":" ++ obj_ID o.

Definition SubjectRef_String (s : SubjectRef) : string :=
  if sub_Relation s =? "" then sub_Type s ++ ":" ++ sub_ID s
  else sub_Type s ++ ":" ++ sub_ID s ++ "#" ++ sub_Relation s.

Definition Object (s : SubjectRef) : ObjectRef :=
  {| obj_Type := sub_Type s; obj_ID := sub_ID s |}.

(** [SubjectRef.form]: [user], [group#member] or [user:*]. *)
Definition form (s : SubjectRef) : string :=
  if sub_Relation s <>? "" then sub_Type s ++ "#" ++ sub_Relation s
  else if sub_ID s =? Wildcard then sub_Type s ++ ":" ++ Wildcard
  else sub_Type s.

Definition RelationTuple_String (t : RelationTuple) : string :=
  ObjectRef_String (tup_Resource t) ++ "#" ++ tup_Relation t ++ "@" ++
  SubjectRef_String (tup_Subject t).

Definition Key (t : RelationTuple) : string := RelationTuple_String t.

Definition LengthExternalID : Z := 256.

(** [validateIdentifier]. *)
Definition validateIdentifier (label value : string) : result access_error unit :=
  reject (value =? "") with
    Errorf ErrTupleInvalid "%w: %s must not be empty" [label] in
  reject (LengthExternalID <? RuneCountInString value) with
    Errorf ErrTupleInvalid "%w: %s exceeds %d characters" [label; FormatInt LengthExternalID] in
  reject (ContainsAny value ":#") with
    Errorf ErrTupleInvalid "%w: %s must not contain ':' or '#'" [label] in
  Ok tt.

(** [RelationTuple.Validate]: the format only. *)
Definition RelationTuple_Validate (t : RelationTuple) : result access_error unit :=
  reject (negb (nameRe (obj_Type (tup_Resource t)))) with
    Errorf ErrTupleInvalid "%w: resource type %q" [obj_Type (tup_Resource t)] in
  reject (negb (nameRe (tup_Relation t))) with
    Errorf ErrTupleInvalid "%w: relation %q" [tup_Relation t] in
  reject (negb (nameRe (sub_Type (tup_Subject t)))) with
    Errorf ErrTupleInvalid "%w: subject type %q" [sub_Type (tup_Subject t)] in
  reject ((sub_Relation (tup_Subject t) <>? "") && negb (nameRe (sub_Relation (tup_Subject t)))) with
    Errorf ErrTupleInvalid "%w: subject relation %q" [sub_Relation (tup_Subject t)] in
  let? _ := validateIdentifier "resource id" (obj_ID (tup_Resource t)) in
  let? _ := validateIdentifier "subject id" (sub_ID (tup_Subject t)) in
  reject ((sub_ID (tup_Subject t) =? Wildcard) && (sub_Relation (tup_Subject t) <>? "")) with
    Errorf ErrTupleInvalid "%w: wildcard subject must not carry a relation" [] in
  reject (obj_ID (tup_Resource t) =? Wildcard) with
    Errorf ErrTupleInvalid "%w: resource id must not be a wildcard" [] in
  Ok tt.

(** ** Lookups in a model *)

Definition resourceType (m : AuthorizationModel) (name : string) : option ResourceTypeDefinition :=
  List.find (fun t => type_Name t =? name) (ResourceTypes m).

Definition relation (m : AuthorizationModel) (typeName rel : string) : option RelationDefinition :=
  match resourceType m typeName with
  | Some t => List.find (fun r => rel_Name r =? rel) (Relations t)
  | None => None
  end.

(** ** Validation of a model *)

(** The first pass of [Validate]: names are well formed and not repeated. *)
Fixpoint check_relation_names (t : ResourceTypeDefinition) (seen : gset string)
    (rs : list RelationDefinition) : result access_error unit :=
  match rs with
  | [] => Ok tt
  | r :: rs' =>
      reject (negb (nameRe (rel_Name r))) with
        Errorf ErrModelInvalid "%w: relation %q on %q" [rel_Name r; type_Name t] in
      reject (bool_decide (rel_Name r ∈ seen)) with
        Errorf ErrModelInvalid "%w: duplicate relation %q on %q" [rel_Name r; type_Name t] in
      check_relation_names t ({[rel_Name r]} ∪ seen) rs'
  end.

Fixpoint check_type_names (seen : gset string) (ts : list ResourceTypeDefinition) :
    result access_error unit :=
  match ts with
  | [] => Ok tt
  | t :: ts' =>
      reject (negb (nameRe (type_Name t))) with
        Errorf ErrModelInvalid "%w: resource type %q" [type_Name t] in
      reject (bool_decide (type_Name t ∈ seen)) with
        Errorf ErrModelInvalid "%w: duplicate resource type %q" [type_Name t] in
      let? _ := check_relation_names t ∅ (Relations t) in
      check_type_names ({[type_Name t]} ∪ seen) ts'
  end.

(** [validateSubjectForm]. *)
Definition validateSubjectForm (m : AuthorizationModel) (t : ResourceTypeDefinition)
    (r : RelationDefinition) (f : string) : result access_error unit :=
  let invalid := Errorf ErrModelInvalid "%w: direct subject type %q on %s#%s"
                   [f; type_Name t; rel_Name r] in
  if HasSuffix f (":" ++ Wildcard) then
    if is_some (resourceType m (TrimSuffix f (":" ++ Wildcard))) then Ok tt else Err invalid
  else match cut f "#" with
  | Some (typeName, rel) =>
      if is_some (relation m typeName rel) then Ok tt else Err invalid
  | None => if is_some (resourceType m f) then Ok tt else Err invalid
  end.

(** [tuplesetTargetTypes]: the plain object types a tupleset relation accepts. *)
Definition add_target (out : list string) (f : string) : list string :=
  if byte_in "#" f || HasSuffix f (":" ++ Wildcard) then out
  else if contains out f then out else (out ++ [f])%list.

Definition tuplesetTargetTypes (tupleset : RelationDefinition) : list string :=
  fold_left (fun out rw =>
      if Kind rw <>? RewriteDirect then out else fold_left add_target (DirectSubjectTypes rw) out)
    (Rewrites tupleset) [].

(** One iteration of the loop of [validateRelation]. *)
Definition validate_rewrite (m : AuthorizationModel) (t : ResourceTypeDefinition)
    (r : RelationDefinition) (rw : RelationRewrite) : result access_error unit :=
  let tn := type_Name t in
  let rn := rel_Name r in
  if Kind rw =? RewriteDirect then
    reject ((ComputedRelation rw <>? "") || (TuplesetRelation rw <>? "")) with
      Errorf ErrModelInvalid "%w: direct rewrite on %s#%s must not name a relation" [tn; rn] in
    reject (length (DirectSubjectTypes rw) =? 0%nat) with
      Errorf ErrModelInvalid "%w: direct rewrite on %s#%s declares no subject type" [tn; rn] in
    for_each (validateSubjectForm m t r) (DirectSubjectTypes rw)
  else if Kind rw =? RewriteComputedUserset then
    reject ((TuplesetRelation rw <>? "") || negb (length (DirectSubjectTypes rw) =? 0%nat)) with
      Errorf ErrModelInvalid "%w: computed_userset on %s#%s takes only computed_relation" [tn; rn] in
    reject (negb (is_some (relation m tn (ComputedRelation rw)))) with
      Errorf ErrModelInvalid "%w: computed_userset on %s#%s references unknown relation %q"
        [tn; rn; ComputedRelation rw] in
    reject (ComputedRelation rw =? rn) with
      Errorf ErrModelInvalid "%w: computed_userset on %s#%s references itself" [tn; rn] in
    Ok tt
  else if Kind rw =? RewriteTupleToUserset then
    reject (negb (length (DirectSubjectTypes rw) =? 0%nat)) with
      Errorf ErrModelInvalid "%w: tuple_to_userset on %s#%s must not declare subject types" [tn; rn] in
    match relation m tn (TuplesetRelation rw) with
    | None => Err (Errorf ErrModelInvalid
        "%w: tuple_to_userset on %s#%s references unknown tupleset relation %q"
        [tn; rn; TuplesetRelation rw])
    | Some tupleset =>
        let targets := tuplesetTargetTypes tupleset in
        reject (length targets =? 0%nat) with
          Errorf ErrModelInvalid "%w: tupleset relation %s#%s must accept plain object subjects"
            [tn; TuplesetRelation rw] in
        reject (negb (existsb (fun target => is_some (relation m target (ComputedRelation rw))) targets)) with
          Errorf ErrModelInvalid
            "%w: tuple_to_userset on %s#%s references relation %q that no tupleset target declares"
            [tn; rn; ComputedRelation rw] in
        Ok tt
    end
  else Err (Errorf ErrModelInvalid "%w: unknown rewrite kind %q on %s#%s" [Kind rw; tn; rn]).

Definition validateRelation (m : AuthorizationModel) (t : ResourceTypeDefinition)
    (r : RelationDefinition) : result access_error unit :=
  reject (length (Rewrites r) =? 0%nat) with
    Errorf ErrModelInvalid "%w: relation %s#%s declares no rewrite" [type_Name t; rel_Name r] in
  for_each (validate_rewrite m t r) (Rewrites r).

(** ** Cycles of [computed_userset]: a three-colour depth-first search.

    [state] maps a relation key to [visiting] or [done_]; [None] is "out of
    fuel", which [walk_fuel] never reaches (see [walk_terminates]). *)

Definition visiting : Z := 1.
Definition done_ : Z := 2.

Definition relation_key (typeName rel : string) : string := typeName ++ "#" ++ rel.

Definition cycle_error (key : string) : access_error :=
  Errorf ErrModelInvalid "%w: computed_userset cycle through %s" [key].

Definition walk_result := option (result access_error (gmap string Z)).

(** The loop of [walk] over the rewrites of a relation. *)
Fixpoint walk_rewrites (walk : string -> string -> gmap string Z -> walk_result)
    (typeName : string) (rws : list RelationRewrite) (state : gmap string Z) : walk_result :=
  match rws with
  | [] => Some (Ok state)
  | rw :: rws' =>
      if Kind rw <>? RewriteComputedUserset then walk_rewrites walk typeName rws' state
      else match walk typeName (ComputedRelation rw) state with
           | Some (Ok state') => walk_rewrites walk typeName rws' state'
           | other => other
           end
  end.

Fixpoint walk (m : AuthorizationModel) (fuel : nat) (typeName rel : string)
    (state : gmap string Z) : walk_result :=
  match fuel with
  | O => None
  | S fuel' =>
      let key := relation_key typeName rel in
      if default 0%Z (state !! key) =? done_ then Some (Ok state)
      else if default 0%Z (state !! key) =? visiting then Some (Err (cycle_error key))
      else
        let state1 := <[key := visiting]> state in
        match match relation m typeName rel with
              | Some def => walk_rewrites (walk m fuel') typeName (Rewrites def) state1
              | None => Some (Ok state1)
              end with
        | Some (Ok state2) => Some (Ok (<[key := done_]> state2))
        | other => other
        end
  end.

(** The pairs the two outer loops of [validateNoComputedCycle] start from. *)
Definition relation_pairs (m : AuthorizationModel) : list (string * string) :=
  flat_map (fun t => map (fun r => (type_Name t, rel_Name r)) (Relations t)) (ResourceTypes m).

Definition walk_fuel (m : AuthorizationModel) : nat := S (S (length (relation_pairs m))).

Fixpoint walk_all (m : AuthorizationModel) (ps : list (string * string)) (state : gmap string Z) :
    walk_result :=
  match ps with
  | [] => Some (Ok state)
  | (t, r) :: ps' =>
      match walk m (walk_fuel m) t r state with
      | Some (Ok state') => walk_all m ps' state'
      | other => other
      end
  end.

Definition validateNoComputedCycle (m : AuthorizationModel) : option (result access_error unit) :=
  match walk_all m (relation_pairs m) ∅ with
  | Some (Ok _) => Some (Ok tt)
  | Some (Err e) => Some (Err e)
  | None => None
  end.

(** [AuthorizationModel.Validate]. *)
Definition Validate (m : AuthorizationModel) : option (result access_error unit) :=
  if length (ResourceTypes m) =? 0%nat then
    Some (Err (Errorf ErrModelInvalid "%w: at least one resource type is required" []))
  else match check_type_names ∅ (ResourceTypes m) with
  | Err e => Some (Err e)
  | Ok _ =>
      match for_each (fun t => for_each (validateRelation m t) (Relations t)) (ResourceTypes m) with
      | Err e => Some (Err e)
      | Ok _ => validateNoComputedCycle m
      end
  end.

(** [ValidateTuple]: a tuple conforms to the model. *)
Definition ValidateTuple (m : AuthorizationModel) (t : RelationTuple) : result access_error unit :=
  let? _ := RelationTuple_Validate t in
  match relation m (obj_Type (tup_Resource t)) (tup_Relation t) with
  | None => Err (Errorf ErrTupleInvalid "%w: %s#%s is not declared"
                   [obj_Type (tup_Resource t); tup_Relation t])
  | Some def =>
      reject (negb (is_some (resourceType m (sub_Type (tup_Subject t))))) with
        Errorf ErrTupleInvalid "%w: subject type %q is not declared" [sub_Type (tup_Subject t)] in
      reject ((sub_Relation (tup_Subject t) <>? "") &&
              negb (is_some (relation m (sub_Type (tup_Subject t)) (sub_Relation (tup_Subject t))))) with
        Errorf ErrTupleInvalid "%w: subject set %s is not declared" [SubjectRef_String (tup_Subject t)] in
      if existsb (fun rw => (Kind rw =? RewriteDirect) &&
                            contains (DirectSubjectTypes rw) (form (tup_Subject t))) (Rewrites def)
      then Ok tt
      else Err (Errorf ErrTupleInvalid "%w: %s#%s does not accept subject form %q"
                  [obj_Type (tup_Resource t); tup_Relation t; form (tup_Subject t)])
  end.

(** ** The built-in model of MCP operations ([mcp_operation.go]) *)

Definition ResourceTypeMcpOperation : string := "idmagic_mcp_operation".
Definition RelationMcpInvoke : string := "invoke".
Definition RelationMcpInvokeAnyTarget : string := "invoke_any_target".

Definition user_or_agent : RelationRewrite :=
  {| Kind := RewriteDirect; ComputedRelation := ""; TuplesetRelation := "";
     DirectSubjectTypes := ["user"; "agent"] |}.

Definition McpOperationModel (tenantID : string) : AuthorizationModel :=
  {| model_ID := ResourceTypeMcpOperation; model_TenantID := tenantID; Version := 1;
     ResourceTypes :=
       [ {| type_Name := "user"; Relations := [] |};
         {| type_Name := "agent"; Relations := [] |};
         {| type_Name := ResourceTypeMcpOperation;
            Relations :=
              [ {| rel_Name := RelationMcpInvoke; Rewrites := [user_or_agent] |};
                {| rel_Name := RelationMcpInvokeAnyTarget; Rewrites := [user_or_agent] |} ] |} ];
     model_CreatedAt := 0%Z |}.

(** ** Consistency tokens ([consistency.go]) *)

Definition EncodeConsistencyToken (tenantID : string) (version : Z) : string :=
  EncodeToString (tenantID ++ ":" ++ FormatInt version).

Definition DecodeConsistencyToken (token tenantID : string) : result access_error Z :=
  match DecodeString token with
  | None => Err (Errorf ErrConsistencyNotSatisfied "%w: malformed token" [])
  | Some raw =>
      match cut raw ":" with
      | None => Err (Errorf ErrConsistencyNotSatisfied "%w: token was not issued for this tenant" [])
      | Some (issuedTenant, rawVersion) =>
          reject (issuedTenant <>? tenantID) with
            Errorf ErrConsistencyNotSatisfied "%w: token was not issued for this tenant" [] in
          match ParseInt rawVersion with
          | None => Err (Errorf ErrConsistencyNotSatisfied "%w: malformed version" [])
          | Some version =>
              reject (EncodeConsistencyToken tenantID version <>? token) with
                Errorf ErrConsistencyNotSatisfied "%w: malformed token" [] in
              Ok version
          end
      end
  end.

Example mcp_model_valid : Validate (McpOperationModel "t") = Some (Ok tt).
Proof. vm_compute. reflexivity. Qed.

Example token_example :
  EncodeConsistencyToken "acme" 42 = "YWNtZTo0Mg" /\
  DecodeConsistencyToken "YWNtZTo0Mg" "acme" = Ok 42%Z /\
  res_ok (DecodeConsistencyToken "YWNtZTo0Mh" "acme") = false.
Proof. vm_compute. done. Qed.

(** ** Lemmas on lookups and keys *)

Lemma relation_Some m t r def :
  relation m t r = Some def -> rel_Name def = r /\ (t, r) ∈ relation_pairs m.
Proof.
  unfold relation, resourceType. destruct (List.find _ (ResourceTypes m)) as [td|] eqn:Ht; [|done].
  intros Hr. apply find_some in Ht as [Htin Htn]. apply find_some in Hr as [Hrin Hrn].
  go_bool. split; [done|]. unfold relation_pairs.
  apply list_elem_of_In, in_flat_map. exists td. split; [done|].
  apply in_map_iff. exists def. by subst.
Qed.

Lemma relation_key_inj t1 r1 t2 r2 :
  byte_in "#" t1 = false -> byte_in "#" t2 = false ->
  relation_key t1 r1 = relation_key t2 r2 -> t1 = t2 /\ r1 = r2.
Proof. unfold relation_key. intros H1 H2. by apply app_sep_inj. Qed.

Lemma name_char_no_byte (c d : ascii) :
  (is_lower d || is_digit d || (d =? "_"%char)) = true ->
  (is_lower c || is_digit c || (c =? "_"%char)) = false -> (d =? c) = false.
Proof. intros Hd Hc. apply bool_decide_eq_false. intros ->. congruence. Qed.

(** A valid name contains none of the separators [:], [#], [@] and [*]. *)
Lemma nameRe_no_byte c s :
  (is_lower c || is_digit c || (c =? "_"%char)) = false -> nameRe s = true -> byte_in c s = false.
Proof.
  intros Hc. unfold nameRe. destruct s as [|d s]; [done|]. simpl. rewrite andb_true_iff.
  intros [Hd Hs]. apply orb_false_iff. split.
  - apply name_char_no_byte; [|done]. by rewrite Hd.
  - clear Hd d. induction s as [|d s IH]; [done|]. simpl in *. rewrite andb_true_iff in Hs.
    destruct Hs as [Hd Hs]. apply orb_false_iff. split; [by apply name_char_no_byte|]. by apply IH.
Qed.

Lemma ParseInt_range s z : ParseInt s = Some z -> (min_int64 <= z <= max_int64)%Z.
Proof.
  unfold ParseInt. destruct (match s with EmptyString => _ | _ => _ end) as [v|]; [|done].
  destruct ((min_int64 <=? v) && (v <=? max_int64))%Z eqn:E; [|done].
  intros [= <-]. go_bool. lia.
Qed.

Lemma EncodeConsistencyToken_raw tenantID v :
  DecodeString (EncodeConsistencyToken tenantID v) = Some (tenantID ++ ":" ++ FormatInt v).
Proof. apply DecodeString_EncodeToString. Qed.

(** ** Termination of the cycle search *)

Definition coloured (st : gmap string Z) (k : string) : bool :=
  (default 0%Z (st !! k) =? done_) || (default 0%Z (st !! k) =? visiting).

Definition declared (m : AuthorizationModel) : gset string :=
  list_to_set (map (fun p => relation_key p.1 p.2) (relation_pairs m)).

Lemma size_list_to_set_bound (l : list string) :
  size (list_to_set l : gset string) <= length l.
Proof.
  induction l as [|x l IH]; [apply Nat.eq_le_incl, size_empty|].
  rewrite list_to_set_cons, size_union_alt, size_singleton.
  pose proof (subseteq_size (list_to_set l ∖ {[x]}) (list_to_set l : gset string)
                (subseteq_difference_l _ _ _ (reflexivity _))). simpl. lia.
Qed.

Definition pending (m : AuthorizationModel) (st : gmap string Z) : gset string :=
  filter (fun k => coloured st k = false) (declared m).

Lemma coloured_insert st k c :
  c = visiting \/ c = done_ -> forall k', coloured st k' = true -> coloured (<[k:=c]> st) k' = true.
Proof.
  intros Hc k'. unfold coloured. destruct (decide (k = k')) as [->|Hne].
  - rewrite lookup_insert_eq. by destruct Hc as [-> | ->].
  - by rewrite lookup_insert_ne.
Qed.

Lemma coloured_insert_eq st k c :
  c = visiting \/ c = done_ -> coloured (<[k:=c]> st) k = true.
Proof. unfold coloured. rewrite lookup_insert_eq. by intros [-> | ->]. Qed.

Lemma pending_mono m st st' :
  (forall k, coloured st k = true -> coloured st' k = true) ->
  size (pending m st') <= size (pending m st).
Proof.
  intros H. apply subseteq_size. intros k. unfold pending. rewrite !elem_of_filter.
  intros [Hk Hd]. split; [|done]. destruct (coloured st k) eqn:E; [|done].
  rewrite (H k E) in Hk. done.
Qed.

Lemma pending_lt m st st' k :
  (forall k, coloured st k = true -> coloured st' k = true) ->
  coloured st k = false -> coloured st' k = true -> k ∈ declared m ->
  size (pending m st') < size (pending m st).
Proof.
  intros H Hk Hk' Hd. apply subset_size. split.
  - intros j. unfold pending. rewrite !elem_of_filter.
    intros [Hj Hjd]. split; [|done]. destruct (coloured st j) eqn:E; [|done].
    by rewrite (H j E) in Hj.
  - intros Hsub. specialize (Hsub k). unfold pending in Hsub. rewrite !elem_of_filter in Hsub.
    destruct (Hsub (conj Hk Hd)) as [? _]. congruence.
Qed.

(** What a call of [walk] (or of its loop) preserves and when it has fuel. *)
Definition walk_progress (m : AuthorizationModel) (st : gmap string Z) (res : walk_result) : Prop :=
  match res with
  | None => False
  | Some (Err _) => True
  | Some (Ok st') => forall k, coloured st k = true -> coloured st' k = true
  end.

Lemma walk_rewrites_progress m w typeName rws : forall st,
  (forall r st0, size (pending m st0) <= size (pending m st) ->
     walk_progress m st0 (w typeName r st0)) ->
  walk_progress m st (walk_rewrites w typeName rws st).
Proof.
  induction rws as [|rw rws IH]; intros st Hw; simpl; [done|].
  destruct (Kind rw <>? RewriteComputedUserset); [by apply IH|].
  pose proof (Hw (ComputedRelation rw) st (le_n _)) as Hp.
  destruct (w typeName (ComputedRelation rw) st) as [[st'|]|]; simpl in Hp |- *; [|done..].
  pose proof (pending_mono m _ _ Hp) as Hle.
  assert (Hn : walk_progress m st' (walk_rewrites w typeName rws st')).
  { apply IH. intros r st0 H0. apply Hw. lia. }
  destruct (walk_rewrites w typeName rws st') as [[st''|]|]; simpl in *; auto.
Qed.

Lemma walk_terminates m fuel : forall typeName rel st,
  size (pending m st) < fuel -> walk_progress m st (walk m fuel typeName rel st).
Proof.
  induction fuel as [|fuel IH]; intros typeName rel st Hf; [lia|]. simpl.
  set (key := relation_key typeName rel).
  destruct (default 0%Z (st !! key) =? done_) eqn:Ed; [by intros k Hk|].
  destruct (default 0%Z (st !! key) =? visiting) eqn:Ev; [exact I|].
  assert (Hnc : coloured st key = false) by (unfold coloured; by rewrite Ed, Ev).
  set (st1 := <[key:=visiting]> st).
  assert (H1 : forall k, coloured st k = true -> coloured st1 k = true)
    by (apply coloured_insert; auto).
  assert (H2 : forall s, (forall k, coloured st1 k = true -> coloured s k = true) ->
     forall k, coloured st k = true -> coloured (<[key:=done_]> s) k = true).
  { intros s Hs k Hk. apply coloured_insert; auto. }
  destruct (relation m typeName rel) as [def|] eqn:Hrel; [|intros k Hk; by apply (H2 st1)].
  assert (Hp : walk_progress m st1 (walk_rewrites (walk m fuel) typeName (Rewrites def) st1)).
  { apply walk_rewrites_progress. intros r st0 Hle. apply IH.
    assert (Hlt : size (pending m st1) < size (pending m st)); [|lia].
    apply pending_lt with key; auto; [apply coloured_insert_eq; auto|].
    apply relation_Some in Hrel as [_ Hin]. unfold declared.
    apply elem_of_list_to_set, list_elem_of_fmap. by exists (typeName, rel). }
  destruct (walk_rewrites _ _ _ _) as [[st2|]|]; simpl in *; auto.
Qed.

Lemma pending_bound m st : size (pending m st) < walk_fuel m.
Proof.
  unfold walk_fuel. apply Nat.le_lt_trans with (size (declared m)).
  - apply subseteq_size. unfold pending. intros k. rewrite elem_of_filter. tauto.
  - unfold declared. apply Nat.lt_succ_r.
    pose proof (size_list_to_set_bound (map (fun p => relation_key p.1 p.2) (relation_pairs m))) as H.
    rewrite length_map in H. lia.
Qed.

(** ** What the cycle search decides *)

Definition computed_edge (m : AuthorizationModel) (t : string) (r r' : string) : Prop :=
  exists def rw, relation m t r = Some def /\ rw ∈ Rewrites def /\
    Kind rw = RewriteComputedUserset /\ ComputedRelation rw = r'.

(** A relation from which every chain of [computed_userset] ends. *)
Definition grounded (m : AuthorizationModel) (t r : string) : Prop :=
  Acc (fun r' r => computed_edge m t r r') r.

Lemma grounded_acyclic m t r : grounded m t r -> ~ tc (computed_edge m t) r r.
Proof.
  induction 1 as [r _ IH]. intros Hc. inversion Hc as [? ? He|? r' ? He Ht]; subst.
  - by apply (IH r).
  - apply (IH r' He). eapply tc_r; eauto.
Qed.

(** The colours at a call on [(t, r)]: relations being visited reach [r], and
    finished ones are grounded. *)
Definition visiting_reach (m : AuthorizationModel) (t r : string) (st : gmap string Z) : Prop :=
  forall r0, st !! relation_key t r0 = Some visiting -> tc (computed_edge m t) r0 r.

Definition done_grounded (m : AuthorizationModel) (st : gmap string Z) : Prop :=
  forall t r, byte_in "#" t = false -> st !! relation_key t r = Some done_ -> grounded m t r.

Definition same_visiting (st st' : gmap string Z) : Prop :=
  forall k, st !! k = Some visiting <-> st' !! k = Some visiting.

Definition walk_sound (m : AuthorizationModel) (t : string) (good : Prop) (st : gmap string Z)
    (res : walk_result) : Prop :=
  match res with
  | None => True
  | Some (Err _) => exists r0, tc (computed_edge m t) r0 r0
  | Some (Ok st') => good /\ done_grounded m st' /\ same_visiting st st'
  end.

Lemma walk_rewrites_sound m t r w rws : forall st,
  (forall r' st0, computed_edge m t r r' -> visiting_reach m t r' st0 -> done_grounded m st0 ->
     walk_sound m t (grounded m t r') st0 (w t r' st0)) ->
  (forall rw, rw ∈ rws -> Kind rw = RewriteComputedUserset ->
     computed_edge m t r (ComputedRelation rw)) ->
  (forall r0, st !! relation_key t r0 = Some visiting -> rtc (computed_edge m t) r0 r) ->
  done_grounded m st ->
  walk_sound m t
    (forall rw, rw ∈ rws -> Kind rw = RewriteComputedUserset -> grounded m t (ComputedRelation rw))
    st (walk_rewrites w t rws st).
Proof.
  induction rws as [|rw rws IH]; intros st Hw Hedge Hvis Hdone.
  { simpl. split; [intros rw Hin; by apply elem_of_nil in Hin|]. split; [done|]. by intros k. }
  simpl. destruct (Kind rw <>? RewriteComputedUserset) eqn:Hk.
  - go_bool. pose proof (IH st Hw) as H. destruct (walk_rewrites w t rws st) as [[st'|]|]; simpl in *.
    + destruct H as (Hg & Hd & Hs); auto.
      { intros rw' Hin. apply Hedge. by right. }
      split_and!; auto. intros rw' [->|Hin]%elem_of_cons; [done|]. by apply Hg.
    + apply H; auto. intros rw' Hin. apply Hedge. by right.
    + done.
  - go_bool.
    assert (He : computed_edge m t r (ComputedRelation rw)) by (apply Hedge; [by left|done]).
    assert (Hv : visiting_reach m t (ComputedRelation rw) st).
    { intros r0 Hr0. eapply tc_rtc_l; [by apply Hvis|]. by apply tc_once. }
    pose proof (Hw _ st He Hv Hdone) as H1.
    destruct (w t (ComputedRelation rw) st) as [[st1|]|]; simpl in H1 |- *; [|done..].
    destruct H1 as (Hg1 & Hd1 & Hs1).
    pose proof (IH st1 Hw) as H2.
    destruct (walk_rewrites w t rws st1) as [[st2|]|]; simpl in *.
    + destruct H2 as (Hg & Hd & Hs); auto.
      { intros rw' Hin. apply Hedge. by right. }
      { intros r0 Hr0. apply Hvis, Hs1, Hr0. }
      split_and!; auto.
      * intros rw' [->|Hin]%elem_of_cons; [done|]. by apply Hg.
      * intros k. by rewrite (Hs1 k), (Hs k).
    + apply H2; auto.
      { intros rw' Hin. apply Hedge. by right. }
      { intros r0 Hr0. apply Hvis, Hs1, Hr0. }
    + done.
Qed.

Lemma colour_eq (st : gmap string Z) k c :
  c = visiting \/ c = done_ -> (default 0%Z (st !! k) =? c) = true -> st !! k = Some c.
Proof. intros Hc. go_bool. destruct (st !! k); simpl; [congruence|]. by destruct Hc as [-> | ->]. Qed.

Lemma done_grounded_insert m t r st c :
  byte_in "#" t = false -> c = visiting \/ (c = done_ /\ grounded m t r) ->
  done_grounded m st -> done_grounded m (<[relation_key t r := c]> st).
Proof.
  intros Ht Hc Hd t' r' Ht'. destruct (decide (relation_key t r = relation_key t' r')) as [E|E].
  - rewrite E, lookup_insert_eq. apply relation_key_inj in E as [<- <-]; [|done..].
    destruct Hc as [-> | [-> Hg]]; [done|]. by intros _.
  - rewrite lookup_insert_ne by done. by apply Hd.
Qed.

Lemma walk_correct m fuel : forall t r st,
  byte_in "#" t = false -> visiting_reach m t r st -> done_grounded m st ->
  walk_sound m t (grounded m t r) st (walk m fuel t r st).
Proof.
  induction fuel as [|fuel IH]; intros t r st Ht Hvis Hdone; [exact I|]. simpl.
  destruct (default 0%Z _ =? done_) eqn:Ed.
  { apply colour_eq in Ed; [|auto]. simpl. split; [by apply Hdone|]. split; [done|]. by intros k. }
  destruct (default 0%Z _ =? visiting) eqn:Ev.
  { apply colour_eq in Ev; [|auto]. exists r. by apply Hvis. }
  set (key := relation_key t r) in *. set (st1 := <[key:=visiting]> st).
  assert (Hnv : st !! key <> Some visiting) by (intros E; rewrite E in Ev; go_bool; done).
  assert (Hfin : forall st2, grounded m t r -> done_grounded m st2 -> same_visiting st1 st2 ->
    walk_sound m t (grounded m t r) st (Some (Ok (<[key:=done_]> st2)))).
  { intros st2 Hg Hd Hs. simpl. split_and!; [done| |].
    - apply done_grounded_insert; auto.
    - intros k. specialize (Hs k). unfold st1 in Hs. destruct (decide (key = k)) as [<-|Hk].
      + rewrite lookup_insert_eq. by split.
      + by rewrite lookup_insert_ne in Hs |- * by done. }
  destruct (relation m t r) as [def|] eqn:Hrel.
  - assert (Hw : walk_sound m t
      (forall rw, rw ∈ Rewrites def -> Kind rw = RewriteComputedUserset -> grounded m t (ComputedRelation rw))
      st1 (walk_rewrites (walk m fuel) t (Rewrites def) st1)).
    { apply walk_rewrites_sound with (r := r).
      - intros r' st0 _ Hv Hd. by apply IH.
      - intros rw Hin Hk. by exists def, rw.
      - intros r0. unfold st1. destruct (decide (key = relation_key t r0)) as [E|E].
        + apply relation_key_inj in E as [_ <-]; [|done..]. intros _. constructor.
        + rewrite lookup_insert_ne by done. intros Hr0. by apply tc_rtc, Hvis.
      - apply done_grounded_insert; auto. }
    destruct (walk_rewrites _ _ _ _) as [[st2|]|]; [|done..].
    destruct Hw as (Hg & Hd & Hs). apply Hfin; auto.
    constructor. intros r' (def' & rw & Hdef & Hin & Hk & <-).
    rewrite Hrel in Hdef. injection Hdef as <-. by apply Hg.
  - apply Hfin; [|by apply done_grounded_insert; auto|by intros k].
    constructor. intros r' (def' & rw & Hdef & _). congruence.
Qed.

Lemma walk_all_correct m ps : forall st,
  Forall (fun p => byte_in "#" p.1 = false) ps ->
  (forall k, st !! k <> Some visiting) -> done_grounded m st ->
  match walk_all m ps st with
  | None => False
  | Some (Err _) => exists t r, tc (computed_edge m t) r r
  | Some (Ok _) => Forall (fun p => grounded m p.1 p.2) ps
  end.
Proof.
  induction ps as [|[t r] ps IH]; intros st Hps Hv Hd; cbn [walk_all]; [done|].
  apply Forall_cons in Hps as [Ht Hps].
  assert (Hc : walk_sound m t (grounded m t r) st (walk m (walk_fuel m) t r st)).
  { apply walk_correct; auto. intros r0 Hr0. by destruct (Hv _ Hr0). }
  pose proof (walk_terminates m (walk_fuel m) t r st (pending_bound m st)) as Hp.
  destruct (walk m (walk_fuel m) t r st) as [[st1|]|]; simpl in Hc, Hp |- *; [|destruct Hc as [r0 ?]; by exists t, r0|done].
  destruct Hc as (Hg & Hd1 & Hs1).
  specialize (IH st1 Hps). destruct (walk_all m ps st1) as [[]|].
  - constructor; [done|]. apply IH; auto. intros k Hk. by apply Hs1, Hv in Hk.
  - apply IH; auto. intros k Hk. by apply Hs1, Hv in Hk.
  - apply IH; auto. intros k Hk. by apply Hs1, Hv in Hk.
Qed.

Lemma relation_pairs_names m :
  Forall (fun t => byte_in "#" (type_Name t) = false) (ResourceTypes m) ->
  Forall (fun p => byte_in "#" p.1 = false) (relation_pairs m).
Proof.
  rewrite !Forall_forall. intros H [t r] Hin. unfold relation_pairs in Hin.
  apply list_elem_of_In, in_flat_map in Hin as (td & Htd & Hin).
  apply in_map_iff in Hin as (rd & [= <- <-] & _). by apply H, list_elem_of_In.
Qed.

Lemma validateNoComputedCycle_spec m :
  Forall (fun t => byte_in "#" (type_Name t) = false) (ResourceTypes m) ->
  exists res, validateNoComputedCycle m = Some res /\
    (res = Ok tt <-> forall t r, ~ tc (computed_edge m t) r r).
Proof.
  intros Hm. unfold validateNoComputedCycle.
  pose proof (walk_all_correct m (relation_pairs m) ∅ (relation_pairs_names m Hm)) as H.
  destruct (walk_all m (relation_pairs m) ∅) as [[st|e]|].
  - exists (Ok tt). split; [done|]. split; [|done]. intros _ t r Hc.
    assert (Hg : Forall (fun p => grounded m p.1 p.2) (relation_pairs m)).
    { apply H; [intros k; by rewrite lookup_empty|]. intros t' r' _. by rewrite lookup_empty. }
    rewrite Forall_forall in Hg.
    assert (Hin : (t, r) ∈ relation_pairs m).
    { assert (exists r', computed_edge m t r r') as (r' & def & rw & Hdef & _)
        by (inversion Hc; eauto). by apply relation_Some in Hdef as [_ ?]. }
    by apply (grounded_acyclic m t r (Hg (t, r) Hin)).
  - exists (Err e). split; [done|]. split; [done|]. intros Hno.
    destruct H as (t & r & Hc); [intros k; by rewrite lookup_empty| |by destruct (Hno t r)].
    intros t' r' _. by rewrite lookup_empty.
  - destruct H; [intros k; by rewrite lookup_empty|]. intros t' r' _. by rewrite lookup_empty.
Qed.

(** ** What an accepted model guarantees *)

(** The name of an object type itself: no subject set and no wildcard. *)
Definition plain (f : string) : Prop := byte_in "#" f = false /\ ~ exists name, f = name ++ ":*".

Definition declares_type (m : AuthorizationModel) (name : string) : Prop := name ∈ map type_Name (ResourceTypes m).

(** What a subject form names is declared: the type of [type:*], the relation of
    [type#relation], the type of a plain form. *)
Definition subject_resolves (m : AuthorizationModel) (f : string) : Prop :=
  (exists name, f = name ++ ":*" /\ declares_type m name) \/
  ((~ exists name, f = name ++ ":*") /\ exists name rel, f = name ++ String "#" rel /\ byte_in "#" name = false /\ is_Some (relation m name rel)) \/
  (plain f /\ declares_type m f).

(** Every type and relation a rewrite of the relation [rel] of the type [t] names
    exists where the evaluator will look it up, and it names nothing that its kind
    does not use. *)
Definition rewrite_resolves (m : AuthorizationModel) (t rel : string) (rw : RelationRewrite) : Prop :=
  (Kind rw = RewriteDirect /\ ComputedRelation rw = "" /\ TuplesetRelation rw = "" /\ DirectSubjectTypes rw <> [] /\
     Forall (subject_resolves m) (DirectSubjectTypes rw)) \/
  (Kind rw = RewriteComputedUserset /\ TuplesetRelation rw = "" /\ DirectSubjectTypes rw = [] /\
     is_Some (relation m t (ComputedRelation rw)) /\ ComputedRelation rw <> rel) \/
  (Kind rw = RewriteTupleToUserset /\ DirectSubjectTypes rw = [] /\ exists tupleset direct target,
     relation m t (TuplesetRelation rw) = Some tupleset /\ direct ∈ Rewrites tupleset /\ Kind direct = RewriteDirect /\
     target ∈ DirectSubjectTypes direct /\ plain target /\ is_Some (relation m target (ComputedRelation rw))).

Record well_formed (m : AuthorizationModel) : Prop := {
  wf_some : ResourceTypes m <> [];
  wf_types : NoDup (map type_Name (ResourceTypes m));
  wf_names : forall t, t ∈ ResourceTypes m ->
    nameRe (type_Name t) = true /\ NoDup (map rel_Name (Relations t)) /\
    Forall (fun r => nameRe (rel_Name r) = true) (Relations t);
  wf_rewrites : forall t r, t ∈ ResourceTypes m -> r ∈ Relations t ->
    Rewrites r <> [] /\ Forall (rewrite_resolves m (type_Name t) (rel_Name r)) (Rewrites r);
  wf_acyclic : forall t r, ~ tc (computed_edge m t) r r;
}.

Lemma resourceType_declared m name : is_some (resourceType m name) = true <-> declares_type m name.
Proof.
  rewrite is_some_true. unfold resourceType, declares_type. split.
  - intros [t Ht]. apply find_some in Ht as [Hin Hn]. go_bool. apply list_elem_of_fmap. exists t. split; [done|by apply list_elem_of_In].
  - intros (t & -> & Hin)%list_elem_of_fmap. destruct (List.find _ _) as [|] eqn:Hf; [by eexists|].
    apply find_none with (x := t) in Hf; [|by apply list_elem_of_In]. go_bool. done.
Qed.

Lemma wild_true f : HasSuffix f (":" ++ Wildcard) = true <-> exists name, f = name ++ ":*".
Proof. apply HasSuffix_true. Qed.

Lemma validateSubjectForm_iff m t r f : validateSubjectForm m t r f = Ok tt <-> subject_resolves m f.
Proof.
  assert (Hok : forall b (e : access_error), (if b : bool then Ok tt else Err e) = Ok tt <-> b = true) by (intros [] e; done).
  unfold validateSubjectForm, subject_resolves, plain. rewrite <- wild_true. destruct (HasSuffix f (":" ++ Wildcard)) eqn:Hw.
  - apply wild_true in Hw as [name ->]. rewrite Hok. change (":" ++ Wildcard) with ":*". rewrite TrimSuffix_app, resourceType_declared. split.
    + intros Hd. left. by exists name.
    + intros [(name' & Heq & Hd)|[[[] _]|[[_ []] _]]]; [|done..].
      apply (f_equal (fun s => TrimSuffix s ":*")) in Heq. rewrite !TrimSuffix_app in Heq. by subst.
  - assert (Hno : ~ exists name, f = name ++ ":*") by (rewrite <- wild_true, Hw; done).
    destruct (cut f "#") as [[name rel]|] eqn:Hc; rewrite Hok.
    + apply cut_Some in Hc as [-> Hn]. rewrite is_some_true. split.
      * intros Hr. right; left. split; [done|]. by exists name, rel.
      * intros [(? & Heq & _)|[(_ & name' & rel' & Heq & Hn' & Hr)|[[Hb _] _]]].
        -- destruct Hno. by eexists.
        -- by apply app_sep_inj in Heq as [-> ->].
        -- rewrite byte_in_app in Hb. simpl in Hb. by rewrite orb_true_r in Hb.
    + apply cut_None in Hc. rewrite resourceType_declared. split; [intros Hd; right; right; by split_and!|].
      intros [(? & Heq & _)|[(_ & name' & rel' & -> & _)|[_ Hd]]]; [destruct Hno; by eexists| |done].
      rewrite byte_in_app in Hc. simpl in Hc. by rewrite orb_true_r in Hc.
Qed.

(** The target types of a tupleset are the plain forms of its direct rewrites. *)
Lemma add_target_in out f x : x ∈ add_target out f <-> x ∈ out \/ (x = f /\ plain f).
Proof.
  unfold add_target, plain. rewrite <- wild_true. destruct (byte_in "#" f); simpl; [naive_solver|].
  destruct (HasSuffix f _); [naive_solver|]. destruct (contains out f) eqn:Hc.
  - apply contains_true in Hc. naive_solver.
  - rewrite elem_of_app, list_elem_of_singleton. naive_solver.
Qed.

Lemma targets_in tupleset x : x ∈ tuplesetTargetTypes tupleset <->
  exists direct, direct ∈ Rewrites tupleset /\ Kind direct = RewriteDirect /\ x ∈ DirectSubjectTypes direct /\ plain x.
Proof.
  assert (Hin : forall l out, x ∈ fold_left add_target l out <-> x ∈ out \/ (x ∈ l /\ plain x)).
  { induction l as [|f l IH]; intros out; simpl; [set_solver|]. rewrite IH, add_target_in, elem_of_cons. naive_solver. }
  unfold tuplesetTargetTypes. set (step := fun out rw => _).
  assert (Hall : forall l out, x ∈ fold_left step l out <-> x ∈ out \/ exists direct, direct ∈ l /\ Kind direct = RewriteDirect /\ x ∈ DirectSubjectTypes direct /\ plain x).
  { induction l as [|rw l IH]; intros out; simpl; [set_solver|]. rewrite IH. setoid_rewrite elem_of_cons. unfold step at 1.
    destruct (Kind rw <>? RewriteDirect) eqn:Hk; go_bool; [naive_solver|]. rewrite Hin. naive_solver. }
  rewrite Hall. set_solver.
Qed.

Lemma check_relation_names_Ok t rs : forall seen,
  check_relation_names t seen rs = Ok tt ->
  Forall (fun r => nameRe (rel_Name r) = true) rs /\ NoDup (map rel_Name rs) /\
  (forall r, r ∈ rs -> rel_Name r ∉ seen).
Proof.
  induction rs as [|r rs IH]; intros seen H; simpl in *.
  { split_and!; [done|constructor|intros r Hr; by apply elem_of_nil in Hr]. }
  destruct (negb (nameRe (rel_Name r))) eqn:E1; [done|].
  destruct (bool_decide _) eqn:E2; [done|]. go_bool.
  destruct (IH _ H) as (Hn & Hd & Hs). split_and!.
  - by constructor.
  - constructor; [|done]. intros Hin. apply list_elem_of_fmap in Hin as (r' & Heq & Hr').
    apply (Hs r' Hr'). rewrite Heq. set_solver.
  - intros r' [->|Hr']%elem_of_cons; [done|]. specialize (Hs r' Hr'). set_solver.
Qed.

Lemma check_type_names_Ok ts : forall seen,
  check_type_names seen ts = Ok tt ->
  NoDup (map type_Name ts) /\ (forall t, t ∈ ts -> type_Name t ∉ seen) /\
  (forall t, t ∈ ts -> nameRe (type_Name t) = true /\ NoDup (map rel_Name (Relations t)) /\
     Forall (fun r => nameRe (rel_Name r) = true) (Relations t)).
Proof.
  induction ts as [|t ts IH]; intros seen H; simpl in *.
  { split_and!; [constructor|intros t Ht; by apply elem_of_nil in Ht..]. }
  destruct (negb (nameRe (type_Name t))) eqn:E1; [done|].
  destruct (bool_decide _) eqn:E2; [done|]. go_bool.
  apply res_bind_Ok in H as ([] & Hr & H). apply check_relation_names_Ok in Hr as (Hn & Hd & _).
  destruct (IH _ H) as (Hd' & Hs' & Hall). split_and!.
  - constructor; [|done]. intros Hin. apply list_elem_of_fmap in Hin as (t' & Heq & Ht').
    apply (Hs' t' Ht'). rewrite Heq. set_solver.
  - intros t' [->|Ht']%elem_of_cons; [done|]. specialize (Hs' t' Ht'). set_solver.
  - intros t' [->|Ht']%elem_of_cons; auto.
Qed.

Lemma validate_rewrite_iff m t r rw :
  validate_rewrite m t r rw = Ok tt <-> rewrite_resolves m (type_Name t) (rel_Name r) rw.
Proof.
  unfold validate_rewrite, rewrite_resolves.
  assert (Hlen : forall l : list string, (length l =? 0%nat) = true <-> l = []) by (intros []; by rewrite bool_decide_eq_true).
  destruct (Kind rw =? RewriteDirect) eqn:K1; [|destruct (Kind rw =? RewriteComputedUserset) eqn:K2]; [| |destruct (Kind rw =? RewriteTupleToUserset) eqn:K3].
  - apply bool_decide_eq_true in K1. rewrite K1. split; [|intros [(_ & -> & -> & Hne & Hall)|[[? _]|[? _]]]; [|done..]].
    + destruct ((ComputedRelation rw <>? "") || (TuplesetRelation rw <>? "")) eqn:E; [done|]. go_bool. destruct E as [E1 E2].
      destruct (length (DirectSubjectTypes rw) =? 0%nat) eqn:E3; [done|]. rewrite for_each_Ok. intros Hall. left. split_and!; [done..| |].
      * intros Hnil. rewrite Hnil in E3. done.
      * eapply Forall_impl; [exact Hall|]. intros f. apply validateSubjectForm_iff.
    + destruct (length (DirectSubjectTypes rw) =? 0%nat) eqn:E3; [by apply Hlen in E3|]. simpl. rewrite for_each_Ok.
      eapply Forall_impl; [exact Hall|]. intros f. apply validateSubjectForm_iff.
  - apply bool_decide_eq_true in K2. rewrite K2. split; [|intros [[? _]|[(_ & -> & -> & Hr & Hne)|[? _]]]; [done| |done]].
    + destruct (_ || _) eqn:E; [done|]. apply orb_false_iff in E as [E1 E2]. apply negb_false_iff, Hlen in E2. go_bool.
      destruct (is_some _) eqn:E3; [|done]. destruct (ComputedRelation rw =? rel_Name r) eqn:E4; [done|]. intros _. right; left.
      go_bool. split_and!; [done..|by apply is_some_true|done].
    + apply is_some_true in Hr. simpl. rewrite Hr. by rewrite bool_decide_false.
  - apply bool_decide_eq_true in K3. rewrite K3. split; [|intros [[? _]|[[? _]|(_ & -> & tupleset & direct & target & -> & Hdir & Hk & Htg & Hpl & Hr)]]; [done..|]].
    + destruct (length (DirectSubjectTypes rw) =? 0%nat) eqn:E1; [|done]. apply Hlen in E1.
      destruct (relation m (type_Name t) (TuplesetRelation rw)) as [tupleset|] eqn:Hts; [|done]. simpl.
      destruct (length (tuplesetTargetTypes tupleset) =? 0%nat); [done|]. destruct (existsb _ _) eqn:He; [|done]. intros _.
      apply existsb_exists in He as (target & Hin & Hd). apply list_elem_of_In, targets_in in Hin as (direct & Hdir & Hk & Htg & Hpl).
      right; right. split_and!; [done..|]. exists tupleset, direct, target. split_and!; [done..|by apply is_some_true].
    + assert (Hin : target ∈ tuplesetTargetTypes tupleset) by (apply targets_in; by exists direct).
      simpl. destruct (length (tuplesetTargetTypes tupleset) =? 0%nat) eqn:E; [apply Hlen in E; rewrite E in Hin; by apply elem_of_nil in Hin|].
      replace (existsb _ _) with true; [done|]. symmetry. apply existsb_exists. exists target. split; [by apply list_elem_of_In|by apply is_some_true].
  - split; [done|]. go_bool. by intros [[? _]|[[? _]|[? _]]].
Qed.

Lemma validateRelation_iff m t r :
  validateRelation m t r = Ok tt <-> Rewrites r <> [] /\ Forall (rewrite_resolves m (type_Name t) (rel_Name r)) (Rewrites r).
Proof.
  unfold validateRelation. destruct (Rewrites r) as [|rw rws]; [by split; [|intros []]|]. change (length _ =? 0%nat) with false.
  cbn iota. rewrite for_each_Ok. split; [intros Hall; split; [done|]|intros [_ Hall]]; (eapply Forall_impl; [exact Hall|]; intros x; apply validate_rewrite_iff).
Qed.

Lemma check_relation_names_complete t rs : forall seen,
  Forall (fun r => nameRe (rel_Name r) = true) rs -> NoDup (map rel_Name rs) -> (forall r, r ∈ rs -> rel_Name r ∉ seen) ->
  check_relation_names t seen rs = Ok tt.
Proof.
  induction rs as [|r rs IH]; intros seen Hn Hd Hs; simpl; [done|].
  apply Forall_cons in Hn as [Hr Hn]. apply NoDup_cons in Hd as [Hni Hd]. rewrite Hr. simpl.
  rewrite bool_decide_false by (apply Hs; left). apply IH; [done..|].
  intros r' Hin. apply not_elem_of_union. split; [|apply Hs; by right]. intros Heq%elem_of_singleton. apply Hni. rewrite <- Heq.
  apply list_elem_of_fmap. by exists r'.
Qed.

Lemma check_type_names_complete ts : forall seen,
  NoDup (map type_Name ts) -> (forall t, t ∈ ts -> type_Name t ∉ seen) ->
  (forall t, t ∈ ts -> nameRe (type_Name t) = true /\ NoDup (map rel_Name (Relations t)) /\
     Forall (fun r => nameRe (rel_Name r) = true) (Relations t)) ->
  check_type_names seen ts = Ok tt.
Proof.
  induction ts as [|t ts IH]; intros seen Hd Hs Hall; simpl; [done|]. apply NoDup_cons in Hd as [Hni Hd].
  destruct (Hall t) as (Hn & Hrd & Hrn); [by left|]. rewrite Hn. simpl. rewrite bool_decide_false by (apply Hs; left).
  rewrite check_relation_names_complete by (done || (intros; apply not_elem_of_empty)). simpl.
  apply IH; [done| |intros t' Hin; apply Hall; by right].
  intros t' Hin. apply not_elem_of_union. split; [|apply Hs; by right]. intros Heq%elem_of_singleton. apply Hni. rewrite <- Heq.
  apply list_elem_of_fmap. by exists t'.
Qed.

Lemma wf_type_no_hash m t :
  well_formed m -> t ∈ ResourceTypes m -> byte_in "#" (type_Name t) = false.
Proof. intros Hwf Ht. by apply nameRe_no_byte; [|apply (wf_names m Hwf)]. Qed.

(** [well_formed] reads the resource types only. *)
Lemma well_formed_ext m1 m2 :
  ResourceTypes m1 = ResourceTypes m2 -> well_formed m1 -> well_formed m2.
Proof. destruct m1, m2. simpl. intros ->. intros []. by constructor. Qed.

Lemma Validate_wf m : Validate m = Some (Ok tt) -> well_formed m.
Proof.
  unfold Validate. destruct (length (ResourceTypes m) =? 0%nat) eqn:E; [done|].
  destruct (check_type_names ∅ (ResourceTypes m)) as [[]|] eqn:Hn; [|done].
  destruct (for_each _ (ResourceTypes m)) as [[]|] eqn:Hr; [|done]. intros Hc.
  apply check_type_names_Ok in Hn as (Hd & _ & Hall).
  rewrite for_each_Ok, Forall_forall in Hr. constructor; auto.
  - intros Hnil. by rewrite Hnil in E.
  - intros t r Ht Hin. specialize (Hr t Ht). rewrite for_each_Ok, Forall_forall in Hr.
    by apply validateRelation_iff, Hr.
  - destruct (validateNoComputedCycle_spec m) as (res & Hres & Hiff).
    + apply Forall_forall. intros t Ht. apply nameRe_no_byte; [done|]. by apply Hall.
    + rewrite Hres in Hc. injection Hc as ->. by apply Hiff.
Qed.

(** The computed-userset cycle search terminates within its fuel on every
    model whose type names contain no '#', and it accepts the model exactly
    when no type has a cycle of computed_userset rewrites. *)
Theorem validateNoComputedCycle_exact m :
  Forall (fun t => byte_in "#" (type_Name t) = false) (ResourceTypes m) ->
  exists res, validateNoComputedCycle m = Some res /\
    (res = Ok tt <-> forall t r, ~ tc (computed_edge m t) r r).
Proof. apply validateNoComputedCycle_spec. Qed.

(** C12. [Validate] accepts exactly the well-formed models: those with at least one
    type, whose type and relation names match the identifier pattern and are not
    repeated, where every relation has a rewrite and every rewrite names only types
    and relations that exist (those of its subject forms included), and where no
    chain of computed_userset rewrites loops. *)
Theorem Validate_sound m : Validate m = Some (Ok tt) <-> well_formed m.
Proof.
  split; [apply Validate_wf|]. intros [Hne Hd Hn Hr Hacyclic]. unfold Validate.
  destruct (ResourceTypes m) as [|t0 ts] eqn:Hts; [done|]. rewrite <- Hts in *. clear Hne.
  replace (length (ResourceTypes m) =? 0%nat) with false by (by rewrite Hts).
  rewrite check_type_names_complete by (done || (intros; apply not_elem_of_empty)).
  replace (for_each _ _) with (Ok (E := access_error) tt).
  - destruct (validateNoComputedCycle_spec m) as (res & -> & Hiff).
    + apply Forall_forall. intros t Ht. apply nameRe_no_byte; [done|]. by apply Hn.
    + f_equal. by apply Hiff.
  - symmetry. rewrite for_each_Ok, Forall_forall. intros t Ht. rewrite for_each_Ok, Forall_forall. intros r Hin.
    apply validateRelation_iff. by apply Hr.
Qed.

(** [Validate] always returns: no model makes the search of cycles run out
    of the fuel it is started with. *)
Theorem Validate_total m : exists res, Validate m = Some res.
Proof.
  unfold Validate. destruct (length _ =? 0%nat); [eauto|].
  destruct (check_type_names _ _) as [[]|] eqn:Hn; [|eauto].
  destruct (for_each _ _) as [[]|]; [|eauto].
  apply check_type_names_Ok in Hn as (_ & _ & Hall).
  destruct (validateNoComputedCycle_spec m) as (res & Hres & _); [|by exists res].
  apply Forall_forall. intros t Ht. apply nameRe_no_byte; [done|]. by apply Hall.
Qed.

(** The built-in model is well formed for every tenant. *)
Lemma McpOperationModel_wf tenantID : well_formed (McpOperationModel tenantID).
Proof. apply Validate_wf. vm_compute. reflexivity. Qed.

Lemma Validate_sound_witness : well_formed (McpOperationModel "t").
Proof. apply (proj1 (Validate_sound (McpOperationModel "t"))). vm_compute. reflexivity. Defined.

(** A model whose [viewer] and [editor] are defined by each other. *)
Definition cyclic_model : AuthorizationModel :=
  let computed name := {| Kind := RewriteComputedUserset; ComputedRelation := name;
                          TuplesetRelation := ""; DirectSubjectTypes := [] |} in
  {| model_ID := "m"; model_TenantID := "t"; Version := 1%Z; model_CreatedAt := 0%Z;
     ResourceTypes :=
       [ {| type_Name := "document"; Relations :=
             [ {| rel_Name := "viewer"; Rewrites := [computed "editor"] |};
               {| rel_Name := "editor"; Rewrites := [computed "viewer"] |} ] |} ] |}.

Lemma validateNoComputedCycle_exact_witness :
  validateNoComputedCycle cyclic_model = Some (Err (cycle_error "document#viewer")) /\
  exists res, validateNoComputedCycle cyclic_model = Some res /\
    (res = Ok tt <-> forall t r, ~ tc (computed_edge cyclic_model t) r r).
Proof.
  split; [vm_compute; reflexivity|]. apply (validateNoComputedCycle_exact cyclic_model).
  repeat constructor.
Defined.

(** ** Tuples *)

Lemma validateIdentifier_Ok label v :
  validateIdentifier label v = Ok tt ->
  v <> "" /\ byte_in ":" v = false /\ byte_in "#" v = false.
Proof.
  unfold validateIdentifier. destruct (v =? "") eqn:E; [done|].
  destruct (LengthExternalID <? _); [done|].
  destruct (ContainsAny v ":#") eqn:Ec; [done|]. intros _. go_bool.
  split; [done|]. unfold ContainsAny in Ec. simpl in Ec. rewrite !orb_false_iff in Ec. tauto.
Qed.

(** The parts of a validated tuple contain none of the separators of its key. *)
Record tuple_parts_ok (t : RelationTuple) : Prop := {
  tp_rtype : byte_in ":" (obj_Type (tup_Resource t)) = false;
  tp_rid : byte_in "#" (obj_ID (tup_Resource t)) = false;
  tp_rel : byte_in "@" (tup_Relation t) = false;
  tp_rel_hash : byte_in "#" (tup_Relation t) = false;
  tp_stype : byte_in ":" (sub_Type (tup_Subject t)) = false;
  tp_sid : byte_in "#" (sub_ID (tup_Subject t)) = false;
  tp_srel : byte_in "#" (sub_Relation (tup_Subject t)) = false;
}.

Lemma RelationTuple_Validate_Ok t : RelationTuple_Validate t = Ok tt -> tuple_parts_ok t.
Proof.
  unfold RelationTuple_Validate.
  destruct (nameRe (obj_Type _)) eqn:E1; [|done]. destruct (nameRe (tup_Relation t)) eqn:E2; [|done].
  destruct (nameRe (sub_Type _)) eqn:E3; [|done]. simpl.
  destruct ((_ <>? _) && _) eqn:E4; [done|]. intros H.
  apply res_bind_Ok in H as ([] & H1 & H). apply res_bind_Ok in H as ([] & H2 & _).
  apply validateIdentifier_Ok in H1 as (_ & _ & H1). apply validateIdentifier_Ok in H2 as (_ & _ & H2).
  constructor; try done; try by apply nameRe_no_byte.
  destruct (nameRe (sub_Relation (tup_Subject t))) eqn:E5; [by apply nameRe_no_byte|].
  simpl in E4. rewrite andb_true_r in E4. apply negb_false_iff, bool_decide_eq_true in E4. by rewrite E4.
Qed.

Lemma SubjectRef_String_inj s1 s2 :
  byte_in ":" (sub_Type s1) = false -> byte_in ":" (sub_Type s2) = false ->
  byte_in "#" (sub_ID s1) = false -> byte_in "#" (sub_ID s2) = false ->
  SubjectRef_String s1 = SubjectRef_String s2 -> s1 = s2.
Proof.
  destruct s1 as [t1 i1 r1], s2 as [t2 i2 r2]. unfold SubjectRef_String. simpl.
  intros Ht1 Ht2 Hi1 Hi2 H.
  assert (Hc : t1 = t2 /\ (if r1 =? "" then i1 else i1 ++ "#" ++ r1) = (if r2 =? "" then i2 else i2 ++ "#" ++ r2)).
  { destruct (r1 =? ""), (r2 =? ""); by apply app_sep_inj in H. }
  destruct Hc as [-> Hc]. destruct (r1 =? "") eqn:E1, (r2 =? "") eqn:E2; go_bool; subst.
  - done.
  - subst. rewrite byte_in_app in Hi1. simpl in Hi1. by rewrite orb_true_r in Hi1.
  - subst. rewrite byte_in_app in Hi2. simpl in Hi2. by rewrite orb_true_r in Hi2.
  - apply app_sep_inj in Hc as [-> ->]; done.
Qed.

Lemma Key_inj t1 t2 :
  RelationTuple_Validate t1 = Ok tt -> RelationTuple_Validate t2 = Ok tt ->
  Key t1 = Key t2 -> t1 = t2.
Proof.
  intros H1%RelationTuple_Validate_Ok H2%RelationTuple_Validate_Ok. destruct H1, H2.
  unfold Key, RelationTuple_String, ObjectRef_String. rewrite !string_app_assoc. intros H.
  apply app_sep_inj in H as [Ht H]; [|done..].
  apply app_sep_inj in H as [Hi H]; [|done..].
  apply app_sep_inj in H as [Hr H]; [|done..].
  apply SubjectRef_String_inj in H; [|done..].
  destruct t1 as [[] ? ?], t2 as [[] ? ?]; simpl in *. congruence.
Qed.

(** The key of a relation tuple identifies it: two tuples that pass
    [Validate] and have the same key are the same tuple, so the memory store's
    map and the duplicate check of a write never confuse two of them. *)
Theorem Key_injective t1 t2 :
  RelationTuple_Validate t1 = Ok tt -> RelationTuple_Validate t2 = Ok tt ->
  Key t1 = Key t2 -> t1 = t2.
Proof. apply Key_inj. Qed.

Definition example_tuple : RelationTuple :=
  {| tup_Resource := {| obj_Type := "document"; obj_ID := "readme" |};
     tup_Relation := "viewer";
     tup_Subject := {| sub_Type := "group"; sub_ID := "eng"; sub_Relation := "member" |} |}.

Lemma Key_injective_witness : Key example_tuple = "document:readme#viewer@group:eng#member" /\
  example_tuple = example_tuple.
Proof.
  split; [vm_compute; reflexivity|].
  apply (Key_injective example_tuple example_tuple); vm_compute; reflexivity.
Defined.

Lemma Decode_token_error token tenantID e :
  DecodeConsistencyToken token tenantID = Err e -> sentinel e = ErrConsistencyNotSatisfied.
Proof.
  unfold DecodeConsistencyToken. intros H. res_cases H; by injection H as <-.
Qed.

Lemma Decode_token_iff tenantID token v :
  byte_in ":" tenantID = false ->
  DecodeConsistencyToken token tenantID = Ok v <->
  (min_int64 <= v <= max_int64)%Z /\ token = EncodeConsistencyToken tenantID v.
Proof.
  intros Ht. split.
  - unfold DecodeConsistencyToken. destruct (DecodeString token) as [raw|]; [|done].
    destruct (cut raw ":") as [[tn rv]|]; [|done].
    destruct (tn <>? tenantID); [done|].
    destruct (ParseInt rv) as [v'|] eqn:Hp; [|done].
    destruct (_ <>? token) eqn:He; [done|]. intros [= ->]. go_bool.
    split; [by apply ParseInt_range in Hp|done].
  - intros [Hv ->]. unfold DecodeConsistencyToken. rewrite EncodeConsistencyToken_raw.
    change (tenantID ++ ":" ++ FormatInt v) with (tenantID ++ String ":" (FormatInt v)).
    rewrite cut_app by done.
    rewrite bool_decide_true by done. simpl.
    rewrite ParseInt_FormatInt by done. by rewrite bool_decide_true.
Qed.

(** Consistency tokens are not malleable and do not cross tenants: for a
    tenant whose identifier contains no ':' (they are UUIDs), a token decodes
    to a version exactly when it is the string [EncodeConsistencyToken] issues
    for that tenant and that 64-bit version. *)
Theorem DecodeConsistencyToken_iff tenantID token v :
  byte_in ":" tenantID = false ->
  DecodeConsistencyToken token tenantID = Ok v <->
  (min_int64 <= v <= max_int64)%Z /\ token = EncodeConsistencyToken tenantID v.
Proof. apply Decode_token_iff. Qed.

Lemma DecodeConsistencyToken_iff_witness :
  DecodeConsistencyToken (EncodeConsistencyToken "acme" 7) "acme" = Ok 7%Z.
Proof.
  apply (DecodeConsistencyToken_iff "acme" (EncodeConsistencyToken "acme" 7) 7); [reflexivity|].
  unfold min_int64, max_int64. split; [lia|reflexivity].
Defined.
