(* ===== verification/AccessCheck.v ===== *)
(** * Access control: the relation evaluator

    [backend/accesscontrol/internal/domain/evaluator.go].  [Check] searches the
    graph of relation tuples, depth first and with a bound on the depth, for a
    way in which a subject has a relation to a resource.  The search is
    translated as the Go code runs it: the mutable [evaluation] record is
    threaded through every call, the three loops stop at the first success, a
    failing store stops everything.

    The specification is declarative.  [grants] says that a chain of relation
    nodes leads from a node to a direct hit; it knows nothing of visiting sets
    or of depth.  The theorems relate the two: the search permits exactly the
    nodes with a chain no longer than the bound, reports such a chain, and a
    denial that does not blame the depth is a proof that no chain of any length
    exists. *)

From Stdlib Require Import Ascii String ZArith Lia.
From stdpp Require Import base strings list gmap relations sorting.
From S2P Require Import Prelude GoStrings AccessModel.

Local Open Scope string_scope.
Local Open Scope go_scope.

(** ** The store the evaluator reads *)

(** [TupleReader]: [E] is the type of the errors of the store. *)
Class TupleReader (R E : Type) := {
  ListSubjects : R -> string -> ObjectRef -> string -> result E (list SubjectRef);
}.

Definition DefaultMaxDepth : Z := 8.

Definition ReasonNoRelationPath : string := "no_relation_path".
Definition ReasonUnknownRelation : string := "unknown_relation".
Definition ReasonDepthExceeded : string := "evaluation_depth_exceeded".
Definition ReasonCycleDetected : string := "relation_cycle_detected".
Definition ReasonSubjectFormDenied : string := "subject_form_not_declared".

Record CheckOptions := { MaxDepth : Z }.

Record Decision := {
  Permitted : bool;
  Path : list string;
  Reasons : list string;
}.

(** The fields of [evaluation] that change during a search; [found] is [None]
    while the slice is nil. *)
Record evaluation := {
  ev_visiting : gset string;
  ev_path : list string;
  ev_found : option (list string);
  ev_reasons : gset string;
}.

Section evaluator.
Context {R E : Type} `{TupleReader R E}.
Context (model : AuthorizationModel) (reader : R) (tenantID : string) (subject : SubjectRef).

(** A step of the evaluator: it fails with an error of the store, or returns a
    truth value and the changed record. *)
Definition eval := evaluation -> result E (bool * evaluation).

Definition addReason (reason : string) (e : evaluation) : evaluation :=
  {| ev_visiting := ev_visiting e; ev_path := ev_path e; ev_found := ev_found e;
     ev_reasons := {[reason]} ∪ ev_reasons e |}.

(** [return false] after recording a reason. *)
Definition deny (reason : string) : eval := fun e => Ok (false, addReason reason e).

(** The loops of the evaluator: [for _, x := range xs], returning at the first
    error and at the first success; a [continue] is a step that returns false. *)
Fixpoint any_of {A} (f : A -> eval) (l : list A) : eval := fun e =>
  match l with
  | [] => Ok (false, e)
  | x :: l' =>
      match f x e with
      | Err err => Err err
      | Ok (true, e') => Ok (true, e')
      | Ok (false, e') => any_of f l' e'
      end
  end.

(** [visiting[key] = struct{}{}] and [path = append(path, label)]. *)
Definition enter (key label : string) (e : evaluation) : evaluation :=
  {| ev_visiting := {[key]} ∪ ev_visiting e; ev_path := (ev_path e ++ [label])%list;
     ev_found := ev_found e; ev_reasons := ev_reasons e |}.

(** The deferred function of [check]. *)
Definition leave (key : string) (e : evaluation) : evaluation :=
  {| ev_visiting := ev_visiting e ∖ {[key]}; ev_path := removelast (ev_path e);
     ev_found := ev_found e; ev_reasons := ev_reasons e |}.

(** [if e.found == nil { e.found = slices.Clone(e.path) }]. *)
Definition set_found (e : evaluation) : evaluation :=
  {| ev_visiting := ev_visiting e; ev_path := ev_path e;
     ev_found := match ev_found e with None => Some (ev_path e) | Some p => Some p end;
     ev_reasons := ev_reasons e |}.

Definition check_key (resource : ObjectRef) (rel : string) : string :=
  ObjectRef_String resource ++ "#" ++ rel.

Definition check_label (resource : ObjectRef) (rel : string) : string :=
  obj_Type resource ++ "#" ++ rel.

(** The body of the loop of [applyDirect]; [check] is the recursive call one
    level deeper. *)
Definition direct_subject (check : ObjectRef -> string -> eval) (rw : RelationRewrite)
    (s : SubjectRef) : eval :=
  if negb (contains (DirectSubjectTypes rw) (form s)) then deny ReasonSubjectFormDenied
  else if sub_Relation s <>? "" then check (Object s) (sub_Relation s)
  else if sub_Type s <>? sub_Type subject then fun e => Ok (false, e)
  else fun e => Ok ((sub_ID s =? Wildcard) || (sub_ID s =? sub_ID subject), e).

Definition applyDirect (check : ObjectRef -> string -> eval) (resource : ObjectRef)
    (rel : string) (rw : RelationRewrite) : eval := fun e =>
  match ListSubjects reader tenantID resource rel with
  | Err err => Err err
  | Ok subjects => any_of (direct_subject check rw) subjects e
  end.

Definition tupleset_parent (check : ObjectRef -> string -> eval) (rw : RelationRewrite)
    (parent : SubjectRef) : eval :=
  if (sub_Relation parent <>? "") || (sub_ID parent =? Wildcard) then fun e => Ok (false, e)
  else check (Object parent) (ComputedRelation rw).

Definition applyTupleToUserset (check : ObjectRef -> string -> eval) (resource : ObjectRef)
    (rw : RelationRewrite) : eval := fun e =>
  match ListSubjects reader tenantID resource (TuplesetRelation rw) with
  | Err err => Err err
  | Ok parents => any_of (tupleset_parent check rw) parents e
  end.

Definition applyRewrite (check : ObjectRef -> string -> eval) (resource : ObjectRef)
    (rel : string) (rw : RelationRewrite) : eval :=
  if Kind rw =? RewriteDirect then applyDirect check resource rel rw
  else if Kind rw =? RewriteComputedUserset then check resource (ComputedRelation rw)
  else if Kind rw =? RewriteTupleToUserset then applyTupleToUserset check resource rw
  else deny ReasonUnknownRelation.

(** [evaluation.check]; [rem] is [maxDepth - depth], so [rem = 0] is
    [depth >= maxDepth] and the recursive calls at [depth + 1] have [rem - 1]. *)
Fixpoint check (rem : nat) (resource : ObjectRef) (rel : string) : eval := fun e =>
  match rem with
  | O => deny ReasonDepthExceeded e
  | S rem' =>
      let key := check_key resource rel in
      if bool_decide (key ∈ ev_visiting e) then deny ReasonCycleDetected e
      else match relation model (obj_Type resource) rel with
      | None => deny ReasonUnknownRelation e
      | Some def =>
          match any_of (applyRewrite (check rem') resource rel) (Rewrites def)
                  (enter key (check_label resource rel) e) with
          | Err err => Err err
          | Ok (true, e') => Ok (true, leave key (set_found e'))
          | Ok (false, e') => Ok (false, leave key e')
          end
      end
  end.

Definition collectedReasons (e : evaluation) : list string :=
  if bool_decide (ev_reasons e = ∅) then [ReasonNoRelationPath]
  else merge_sort String.le (elements (ev_reasons e)).

Definition max_depth (opts : CheckOptions) : Z :=
  if MaxDepth opts <=? 0 then DefaultMaxDepth else MaxDepth opts.

(** [AuthorizationModel.Check]; the model and the subject are the section's. *)
Definition Check (resource : ObjectRef) (rel : string) (opts : CheckOptions) : result E Decision :=
  let ev := {| ev_visiting := ∅; ev_path := []; ev_found := None; ev_reasons := ∅ |} in
  match check (Z.to_nat (max_depth opts)) resource rel ev with
  | Err err => Err err
  | Ok (true, ev') => Ok {| Permitted := true; Path := default [] (ev_found ev'); Reasons := [] |}
  | Ok (false, ev') => Ok {| Permitted := false; Path := []; Reasons := collectedReasons ev' |}
  end.

(** ** The declarative specification *)

(** A relation of an object, written [document:readme#viewer]. *)
Definition node : Type := ObjectRef * string.

(** One rewrite of a node leads to another node. *)
Inductive step_by (n : node) (rw : RelationRewrite) : node -> Prop :=
| step_computed :
    Kind rw = RewriteComputedUserset -> step_by n rw (n.1, ComputedRelation rw)
| step_userset subjects s :
    Kind rw = RewriteDirect ->
    ListSubjects reader tenantID n.1 n.2 = Ok subjects -> s ∈ subjects ->
    form s ∈ DirectSubjectTypes rw -> sub_Relation s <> "" ->
    step_by n rw (Object s, sub_Relation s)
| step_tupleset parents p :
    Kind rw = RewriteTupleToUserset ->
    ListSubjects reader tenantID n.1 (TuplesetRelation rw) = Ok parents -> p ∈ parents ->
    sub_Relation p = "" -> sub_ID p <> Wildcard ->
    step_by n rw (Object p, ComputedRelation rw).

(** A stored tuple names the subject itself, or every subject of its type. *)
Definition hit_by (n : node) (rw : RelationRewrite) : Prop :=
  Kind rw = RewriteDirect /\ exists subjects s,
    ListSubjects reader tenantID n.1 n.2 = Ok subjects /\ s ∈ subjects /\
    form s ∈ DirectSubjectTypes rw /\ sub_Relation s = "" /\
    sub_Type s = sub_Type subject /\ (sub_ID s = Wildcard \/ sub_ID s = sub_ID subject).

Definition rewrite_of (n : node) (rw : RelationRewrite) : Prop :=
  exists def, relation model (obj_Type n.1) n.2 = Some def /\ rw ∈ Rewrites def.

(** [grants n p]: the chain [p] of nodes starts at [n] and ends in a hit. *)
Inductive grants : node -> list node -> Prop :=
| grants_hit n rw : rewrite_of n rw -> hit_by n rw -> grants n [n]
| grants_step n rw n' p :
    rewrite_of n rw -> step_by n rw n' -> grants n' p -> grants n (n :: p).

Definition label (n : node) : string := check_label n.1 n.2.
Definition key_of (n : node) : string := check_key n.1 n.2.

(** ** Chains *)

Lemma grants_head n p : grants n p -> exists q, p = n :: q.
Proof. intros []; eauto. Qed.

Lemma grants_nonempty n p : grants n p -> (1 <= length p)%nat.
Proof. intros (q & ->)%grants_head. simpl. lia. Qed.

(** The rest of a chain: what one rewrite of [n] has to provide. *)
Definition rest_by (n : node) (rw : RelationRewrite) (p : list node) : Prop :=
  (hit_by n rw /\ p = []) \/ (exists n', step_by n rw n' /\ grants n' p).

Lemma grants_iff n p :
  grants n p <-> exists rw q, rewrite_of n rw /\ rest_by n rw q /\ p = n :: q.
Proof.
  split.
  - intros [n' rw Hrw Hh|n' rw m q Hrw Hs Hg].
    + exists rw, []. split_and!; [done| |done]. by left.
    + exists rw, q. split_and!; [done| |done]. right. eauto.
  - intros (rw & q & Hrw & [[Hh ->]|(n' & Hs & Hg)] & ->).
    + by eapply grants_hit.
    + by eapply grants_step.
Qed.

Lemma grants_suffix n p : grants n p -> forall x, x ∈ p ->
  exists q, grants x q /\ q `suffix_of` p.
Proof.
  intros Hg. induction Hg as [n rw Hrw Hh|n rw n' p Hrw Hs Hg IH]; intros x Hx.
  - apply list_elem_of_singleton in Hx as ->. exists [n]. split; [by eapply grants_hit|done].
  - apply elem_of_cons in Hx as [->|Hx].
    + exists (n :: p). split; [by eapply grants_step|done].
    + destruct (IH x Hx) as (q & Hq & Hsuf). exists q. split; [done|]. by apply suffix_cons_r.
Qed.

(** Loops in a chain can be cut out. *)
Lemma grants_simple n p : grants n p ->
  exists q, grants n q /\ NoDup q /\ (length q <= length p)%nat /\ q ⊆ p.
Proof.
  intros Hg. induction Hg as [n rw Hrw Hh|n rw n' p Hrw Hs Hg (q & Hq & Hnd & Hlen & Hsub)].
  - exists [n]. split_and!; [by eapply grants_hit|apply NoDup_singleton|simpl; lia|done].
  - destruct (decide (n ∈ q)) as [Hin|Hin].
    + destruct (grants_suffix n' q Hq n Hin) as (q' & Hq' & Hsuf). exists q'. split_and!.
      * done.
      * destruct Hsuf as [k ->]. by apply NoDup_app in Hnd as (_ & _ & ?).
      * apply suffix_length in Hsuf. simpl. lia.
      * destruct Hsuf as [k ->]. intros y Hy. apply elem_of_cons. right. apply Hsub, elem_of_app. by right.
    + exists (n :: q). split_and!; [by eapply grants_step|by constructor|simpl; lia|].
      intros y [->|Hy]%elem_of_cons; apply elem_of_cons; [by left|right; by apply Hsub].
Qed.

(** ** What a step of the search establishes *)

(** [read_fails err]: some read of the store failed with [err]. *)
Definition read_fails (err : E) : Prop := exists o r, ListSubjects reader tenantID o r = Err err.

Definition found_after (e : evaluation) (p : list node) : option (list string) :=
  match p with [] => None | _ => Some (ev_path e ++ map label p)%list end.

(** The outcome of a step started in [e] that looks for one of the chains [G]
    with at most [rem] nodes. *)
Definition outcome (rem : nat) (G : list node -> Prop) (e : evaluation)
    (res : result E (bool * evaluation)) : Prop :=
  match res with
  | Err err => read_fails err
  | Ok (true, e') =>
      ev_visiting e' = ev_visiting e /\ ev_path e' = ev_path e /\
      exists p, G p /\ (length p <= rem)%nat /\ ev_found e' = found_after e p
  | Ok (false, e') =>
      ev_visiting e' = ev_visiting e /\ ev_path e' = ev_path e /\ ev_found e' = None /\
      ev_reasons e ⊆ ev_reasons e' /\
      forall p, G p -> NoDup (map key_of p) ->
        Forall (fun n => key_of n ∉ ev_visiting e) p ->
        (length p <= rem)%nat \/ ReasonDepthExceeded ∉ ev_reasons e' -> False
  end.

Lemma outcome_equiv rem (G G' : list node -> Prop) e res :
  (forall p, G p <-> G' p) -> outcome rem G e res -> outcome rem G' e res.
Proof.
  unfold outcome. intros HG. destruct res as [[[] e']|err]; [| |done].
  - intros (Hv & Hp & p & Hg & Hl & Hf). split_and!; [done..|]. exists p. by rewrite <- HG.
  - intros (Hv & Hp & Hf & Hr & Hno). split_and!; [done..|]. intros p. rewrite <- HG. apply Hno.
Qed.

Lemma outcome_false rem (G : list node -> Prop) e :
  ev_found e = None -> (forall p, ~ G p) -> outcome rem G e (Ok (false, e)).
Proof. intros Hf HG. split_and!; [done..|]. intros p Hp. by destruct (HG p). Qed.

Lemma outcome_deny rem (G : list node -> Prop) reason e :
  ev_found e = None -> (forall p, ~ G p) -> outcome rem G e (deny reason e).
Proof.
  intros Hf HG. split_and!; simpl; [done..|set_solver|]. intros p Hp. by destruct (HG p).
Qed.

(** A loop looks for a chain of any of its items. *)
Lemma any_of_outcome {A} rem (G : A -> list node -> Prop) (f : A -> eval) l e :
  ev_found e = None ->
  (forall x e', x ∈ l -> ev_found e' = None -> outcome rem (G x) e' (f x e')) ->
  outcome rem (fun p => exists x, x ∈ l /\ G x p) e (any_of f l e).
Proof.
  intros Hf. revert e Hf. induction l as [|x l IH]; intros e Hf Hx; cbn [any_of].
  { apply outcome_false; [done|]. intros p (x & Hin & _). by apply elem_of_nil in Hin. }
  pose proof (Hx x e ltac:(left) Hf) as H0. destruct (f x e) as [[[] e']|err]; [| |done].
  - destruct H0 as (Hv & Hp & p & Hg & Hl & Hfd). split_and!; [done..|].
    exists p. split_and!; [|done..]. exists x. split; [left|done].
  - destruct H0 as (Hv & Hp & Hf' & Hr & Hno).
    specialize (IH e' Hf' (fun y e0 Hy => Hx y e0 ltac:(by right))).
    destruct (any_of f l e') as [[[] e'']|err]; [| |done]; cbn [outcome] in *.
    + destruct IH as (Hv' & Hp' & p & (y & Hy & Hg) & Hl & Hfd). split_and!; [congruence..|].
      exists p. split_and!; [exists y; by split; [right|]|done|].
      rewrite Hfd. unfold found_after. by rewrite Hp.
    + destruct IH as (Hv' & Hp' & Hf'' & Hr' & Hno'). split_and!; [congruence..|set_solver|].
      intros p (y & [->|Hy]%elem_of_cons & Hg) Hnd Hav Hcase.
      * apply (Hno p Hg Hnd Hav). destruct Hcase; [by left|right; set_solver].
      * apply (Hno' p); [by exists y|done|by rewrite Hv|done].
Qed.

(** ** The search *)

Section step.
(** The recursive call, one level deeper. *)
Context (rem : nat) (chk : ObjectRef -> string -> eval).
Context (chk_outcome : forall o r e, ev_found e = None ->
  outcome rem (grants (o, r)) e (chk o r e)).

Lemma applyDirect_outcome n rw e :
  Kind rw = RewriteDirect -> ev_found e = None ->
  outcome rem (rest_by n rw) e (applyDirect chk n.1 n.2 rw e).
Proof using chk_outcome.
  intros HK Hf. unfold applyDirect.
  destruct (ListSubjects reader tenantID n.1 n.2) as [subjects|err] eqn:Hls; [|by exists n.1, n.2].
  set (G s p := form s ∈ DirectSubjectTypes rw /\
    if decide (sub_Relation s = "") then p = [] /\ sub_Type s = sub_Type subject /\
         (sub_ID s = Wildcard \/ sub_ID s = sub_ID subject)
    else grants (Object s, sub_Relation s) p).
  eapply outcome_equiv; [|apply (any_of_outcome rem G); [done|]].
  - intros p. unfold G, rest_by. split.
    + intros (s & Hs & Hform & Hcase). destruct (decide _) as [Hr|Hr].
      * destruct Hcase as (-> & Ht & Hid). left. split; [|done]. split; [done|].
        by exists subjects, s.
      * right. eexists. split; [by eapply step_userset|done].
    + intros [[(_ & ss & s & Hss & Hs & Hform & Hr & Ht & Hid) ->]|(n' & Hst & Hg)].
      * rewrite Hls in Hss. injection Hss as <-. exists s. rewrite decide_True by done. by split_and!.
      * inversion Hst as [?|ss s ? Hss Hs Hform Hr|]; subst; try (rewrite HK in *; done).
        rewrite Hls in Hss. injection Hss as <-. exists s. rewrite decide_False by done. by split_and!.
  - intros s e' Hs Hf'. unfold direct_subject, G.
    destruct (contains _ _) eqn:Hc; go_bool; simpl.
    2:{ apply outcome_deny; [done|]. by intros p [? _]. }
    destruct (decide (sub_Relation s = "")) as [Hr|Hr].
    + rewrite bool_decide_true by done. simpl.
      destruct (bool_decide (sub_Type s = sub_Type subject)) eqn:Ht; go_bool; simpl.
      2:{ apply outcome_false; [done|]. by intros p (_ & _ & ? & _). }
      destruct ((sub_ID s =? Wildcard) || (sub_ID s =? sub_ID subject)) eqn:Hid; go_bool.
      * split_and!; [done..|]. exists []. split_and!; [done..|simpl; lia|done].
      * apply outcome_false; [done|]. intros p (_ & _ & _ & [?|?]); tauto.
    + rewrite bool_decide_false by done. simpl.
      eapply outcome_equiv; [|by apply chk_outcome]. intros p. tauto.
Qed.

Lemma applyTupleToUserset_outcome n rw e :
  Kind rw = RewriteTupleToUserset -> ev_found e = None ->
  outcome rem (rest_by n rw) e (applyTupleToUserset chk n.1 rw e).
Proof using chk_outcome.
  intros HK Hf. unfold applyTupleToUserset.
  destruct (ListSubjects reader tenantID n.1 (TuplesetRelation rw)) as [parents|err] eqn:Hls;
    [|by exists n.1, (TuplesetRelation rw)].
  set (G s p := sub_Relation s = "" /\ sub_ID s <> Wildcard /\ grants (Object s, ComputedRelation rw) p).
  eapply outcome_equiv; [|apply (any_of_outcome rem G); [done|]].
  - intros p. unfold G, rest_by. split.
    + intros (s & Hs & Hr & Hid & Hg). right. eexists. split; [by eapply step_tupleset|done].
    + intros [[(HK' & _) _]|(n' & Hst & Hg)]; [by rewrite HK in HK'|].
      inversion Hst as [?|?|ps s ? Hps Hs Hr Hid]; subst; try (rewrite HK in *; done).
      rewrite Hls in Hps. injection Hps as <-. by exists s.
  - intros s e' Hs Hf'. unfold tupleset_parent, G.
    destruct ((sub_Relation s <>? "") || (sub_ID s =? Wildcard)) eqn:Hc; go_bool.
    + apply outcome_false; [done|]. intros p (? & ? & _). tauto.
    + eapply outcome_equiv; [|by apply chk_outcome]. intros p. tauto.
Qed.

Lemma applyRewrite_outcome n rw e :
  ev_found e = None -> outcome rem (rest_by n rw) e (applyRewrite chk n.1 n.2 rw e).
Proof using chk_outcome.
  intros Hf. unfold applyRewrite.
  destruct (Kind rw =? RewriteDirect) eqn:K1; go_bool; [by apply applyDirect_outcome|].
  destruct (Kind rw =? RewriteComputedUserset) eqn:K2; go_bool.
  { eapply outcome_equiv; [|by apply chk_outcome]. intros p. unfold rest_by. split.
    - intros Hg. right. eexists. split; [by apply step_computed|done].
    - intros [[[HK _] _]|(n' & Hst & Hg)]; [by rewrite K2 in HK|].
      inversion Hst; subst; try done; rewrite K2 in *; done. }
  destruct (Kind rw =? RewriteTupleToUserset) eqn:K3; go_bool; [by apply applyTupleToUserset_outcome|].
  apply outcome_deny; [done|]. intros p [[[HK _] _]|(n' & Hst & Hg)]; [done|]. inversion Hst; done.
Qed.

End step.

Lemma label_n o r : label (o, r) = check_label o r.
Proof. done. Qed.

Lemma check_outcome rem : forall o r e, ev_found e = None ->
  outcome rem (grants (o, r)) e (check rem o r e).
Proof.
  induction rem as [|rem IH]; intros o r e Hf; cbn [check].
  { split_and!; simpl; [done..|set_solver|]. intros p Hg _ _ [Hl|Hr]; [|set_solver].
    apply grants_nonempty in Hg. lia. }
  destruct (bool_decide _) eqn:Hv; go_bool.
  { split_and!; simpl; [done..|set_solver|]. intros p Hg _ Hav _.
    apply grants_head in Hg as (q & ->). by inversion Hav. }
  destruct (relation model (obj_Type o) r) as [def|] eqn:Hdef.
  2:{ apply outcome_deny; [done|]. intros p (rw & q & (d & Hd & _) & _)%grants_iff. simpl in Hd. congruence. }
  set (e1 := enter _ _ e).
  assert (Hany : outcome rem (fun p => exists rw, rw ∈ Rewrites def /\ rest_by (o, r) rw p) e1
                   (any_of (applyRewrite (check rem) o r) (Rewrites def) e1)).
  { apply any_of_outcome; [done|]. intros rw e' _ Hf'. by apply (applyRewrite_outcome rem _ IH (o, r)). }
  assert (Hg : forall p, grants (o, r) p <-> exists q, p = (o, r) :: q /\ exists rw, rw ∈ Rewrites def /\ rest_by (o, r) rw q).
  { intros p. rewrite grants_iff. unfold rewrite_of. simpl. rewrite Hdef. naive_solver. }
  assert (Hset : ev_visiting e1 ∖ {[check_key o r]} = ev_visiting e) by (simpl; set_solver).
  assert (Hrm : removelast (ev_path e1) = ev_path e) by (simpl; apply removelast_last).
  destruct (any_of _ _ e1) as [[[] e']|err]; [| |done]; cbn [outcome] in *.
  - destruct Hany as (Hv' & Hp & p & HG & Hl & Hfd). simpl. rewrite Hv', Hp. split_and!; [done..|].
    exists ((o, r) :: p). split_and!; [apply Hg; eauto|simpl; lia|].
    rewrite Hfd. unfold found_after. destruct p as [|n p]; simpl; rewrite ?Hp; [done|].
    by rewrite <- app_assoc.
  - destruct Hany as (Hv' & Hp & Hf' & Hr & Hno). simpl. rewrite Hv', Hp. split_and!; [done..|].
    intros p (q & -> & HG)%Hg Hnd Hav Hcase. cbn [map] in Hnd.
    apply NoDup_cons in Hnd as [Hk Hnd]. apply Forall_cons in Hav as [Hav1 Hav].
    apply (Hno q HG Hnd); [|by destruct Hcase as [Hl|?]; [left; simpl in Hl; lia|right]].
    rewrite Forall_forall in *. intros n Hn. simpl. apply not_elem_of_union. split; [|by apply Hav].
    apply not_elem_of_singleton. intros Heq. apply Hk. apply list_elem_of_fmap. exists n. by split.
Qed.

(** ** Keys *)

(** No object identifier that the store returns contains the separator '#';
    [RelationTuple.Validate] refuses such tuples. *)
Definition reader_ok : Prop := forall o r subjects s,
  ListSubjects reader tenantID o r = Ok subjects -> s ∈ subjects -> byte_in "#" (sub_ID s) = false.

(** The nodes whose keys are unambiguous. *)
Definition node_ok (n : node) : Prop :=
  byte_in ":" (obj_Type n.1) = false /\ byte_in "#" (obj_ID n.1) = false.

Lemma key_of_inj n1 n2 : node_ok n1 -> node_ok n2 -> key_of n1 = key_of n2 -> n1 = n2.
Proof.
  destruct n1 as [[t1 i1] r1], n2 as [[t2 i2] r2]. unfold node_ok, key_of, check_key, ObjectRef_String.
  simpl. intros [Ht1 Hi1] [Ht2 Hi2]. rewrite !string_app_assoc. intros Heq.
  apply app_sep_inj in Heq as [-> Heq]; [|done..]. by apply app_sep_inj in Heq as [-> ->].
Qed.

Lemma relation_type_ok t r def :
  well_formed model -> relation model t r = Some def -> byte_in ":" t = false.
Proof.
  intros Hwf Hr. unfold relation, resourceType in Hr.
  destruct (List.find _ (ResourceTypes model)) as [td|] eqn:Ht; [|done].
  apply find_some in Ht as [Hin Hn]. apply bool_decide_eq_true in Hn as <-.
  apply list_elem_of_In in Hin. apply nameRe_no_byte; [done|]. by apply (wf_names model Hwf).
Qed.

Lemma grants_nodes_ok n p :
  well_formed model -> reader_ok -> grants n p -> byte_in "#" (obj_ID n.1) = false ->
  Forall node_ok p.
Proof.
  intros Hwf Hrd Hg. induction Hg as [n rw Hrw Hh|n rw n' p Hrw Hs Hg IH]; intros Hid;
    (constructor; [destruct Hrw as (def & Hdef & _); split; [by eapply relation_type_ok|done]|]).
  { done. }
  apply IH. destruct Hs as [HK|subjects s HK Hls Hin|parents s HK Hls Hin]; simpl; eauto.
Qed.

Lemma grants_simple_keys n p :
  well_formed model -> reader_ok -> grants n p -> byte_in "#" (obj_ID n.1) = false ->
  exists q, grants n q /\ NoDup (map key_of q) /\ (length q <= length p)%nat.
Proof.
  intros Hwf Hrd Hg Hid. destruct (grants_simple n p Hg) as (q & Hq & Hnd & Hlen & _).
  exists q. split_and!; [done| |done].
  apply (NoDup_fmap_2_strong key_of); [|done].
  pose proof (grants_nodes_ok n q Hwf Hrd Hq Hid) as Hok. rewrite Forall_forall in Hok.
  intros x y Hx Hy. apply key_of_inj; auto.
Qed.

(** ** The search against the specification *)

Lemma max_depth_pos opts : (0 < max_depth opts)%Z.
Proof. unfold max_depth. destruct (MaxDepth opts <=? 0)%go eqn:Hm; [done|]. apply Z.leb_gt in Hm. lia. Qed.

Lemma depth_reason e :
  ReasonDepthExceeded ∉ collectedReasons e -> ReasonDepthExceeded ∉ ev_reasons e.
Proof.
  unfold collectedReasons. destruct (bool_decide _) eqn:Hb; go_bool; [set_solver|].
  by rewrite merge_sort_Permutation, elem_of_elements.
Qed.

(** What [Check] returns, read off [check_outcome]. *)
Lemma Check_outcome o r opts :
  match Check o r opts with
  | Err err => read_fails err
  | Ok d =>
      if Permitted d
      then exists p, grants (o, r) p /\ (Z.of_nat (length p) <= max_depth opts)%Z /\ Path d = map label p
      else Reasons d <> [] /\ forall p, grants (o, r) p -> NoDup (map key_of p) ->
        (Z.of_nat (length p) <= max_depth opts)%Z \/ ReasonDepthExceeded ∉ Reasons d -> False
  end.
Proof.
  unfold Check. pose proof (max_depth_pos opts).
  set (e0 := {| ev_visiting := ∅; ev_path := []; ev_found := None; ev_reasons := ∅ |}).
  pose proof (check_outcome (Z.to_nat (max_depth opts)) o r e0 eq_refl) as Ho.
  destruct (check _ o r e0) as [[[] e']|err]; [| |done]; simpl in *.
  - destruct Ho as (_ & _ & p & Hg & Hl & Hf). exists p. split_and!; [done|lia|].
    rewrite Hf. by apply grants_head in Hg as (q & ->).
  - destruct Ho as (_ & _ & _ & _ & Hno). split.
    { unfold collectedReasons. destruct (bool_decide _) eqn:Hb; go_bool; [done|].
      intros Hnil. pose proof (merge_sort_Permutation String.le (elements (ev_reasons e'))) as Hp.
      rewrite Hnil in Hp. apply Permutation_nil_l in Hp.
      by apply Hb, leibniz_equiv, elements_empty_inv. }
    intros p Hg Hnd Hcase. apply (Hno p Hg Hnd).
    + apply Forall_forall. intros n _. apply not_elem_of_empty.
    + destruct Hcase as [?|?%depth_reason]; [left; lia|by right].
Qed.

(** A decision permits exactly when the specification has a chain short enough. *)
Lemma Check_permitted_iff o r opts d :
  well_formed model -> reader_ok -> byte_in "#" (obj_ID o) = false -> Check o r opts = Ok d ->
  Permitted d = true <-> exists p, grants (o, r) p /\ (Z.of_nat (length p) <= max_depth opts)%Z.
Proof.
  intros Hwf Hrd Hid Hc. pose proof (Check_outcome o r opts) as Ho. rewrite Hc in Ho.
  destruct (Permitted d).
  - destruct Ho as (p & Hg & Hl & _). split; [eauto|done].
  - split; [done|]. intros (p & Hg & Hl). exfalso.
    destruct (grants_simple_keys (o, r) p Hwf Hrd Hg Hid) as (q & Hq & Hnd & Hlq).
    apply (proj2 Ho q Hq Hnd). left. lia.
Qed.

(** C1. The search decides the specification: when the store can be read and
    holds validated tuples, [Check] on a well-formed model returns a decision,
    and it permits exactly when a chain of relations of at most the maximal
    depth connects the resource's relation to the subject. *)
Theorem Check_decides o r opts :
  well_formed model -> reader_ok -> byte_in "#" (obj_ID o) = false ->
  (forall o' r', res_ok (ListSubjects reader tenantID o' r') = true) ->
  exists d, Check o r opts = Ok d /\
    (Permitted d = true <->
     exists p, grants (o, r) p /\ (Z.of_nat (length p) <= max_depth opts)%Z).
Proof.
  intros Hwf Hrd Hid Hok. destruct (Check o r opts) as [d|err] eqn:Hc.
  - exists d. split; [done|]. by apply Check_permitted_iff.
  - pose proof (Check_outcome o r opts) as Ho. rewrite Hc in Ho.
    destruct Ho as (o' & r' & He). specialize (Hok o' r'). by rewrite He in Hok.
Qed.

(** A permit is always justified, whatever the store contains: the path it
    reports lists the relations of an actual chain from the resource's relation
    to a tuple that names the subject or its whole type, no longer than the
    maximal depth. *)
Theorem Check_permit_justified o r opts d :
  Check o r opts = Ok d -> Permitted d = true ->
  exists p, grants (o, r) p /\ (Z.of_nat (length p) <= max_depth opts)%Z /\
    Path d = map label p.
Proof. intros Hc Hp. pose proof (Check_outcome o r opts) as Ho. by rewrite Hc, Hp in Ho. Qed.

(** A denial says why, and one whose reasons do not mention the depth limit is
    definitive: no chain of any length relates the subject to the resource, so
    raising the limit would not change the answer. *)
Theorem Check_denial_definitive o r opts d :
  well_formed model -> reader_ok -> byte_in "#" (obj_ID o) = false ->
  Check o r opts = Ok d -> Permitted d = false ->
  Reasons d <> [] /\ (ReasonDepthExceeded ∉ Reasons d -> forall p, ~ grants (o, r) p).
Proof.
  intros Hwf Hrd Hid Hc Hp. pose proof (Check_outcome o r opts) as Ho. rewrite Hc, Hp in Ho.
  destruct Ho as [Hr Hno]. split; [done|]. intros Hd p Hg.
  destruct (grants_simple_keys (o, r) p Hwf Hrd Hg Hid) as (q & Hq & Hnd & _).
  apply (Hno q Hq Hnd). by right.
Qed.

(** An error of [Check] is an error of the store and nothing else; the
    evaluator never turns a failed read into a decision's permit, since a
    permit needs a chain of successful reads ([Check_permit_justified]). *)
Theorem Check_error_from_store o r opts err : Check o r opts = Err err -> read_fails err.
Proof. intros Hc. pose proof (Check_outcome o r opts) as Ho. by rewrite Hc in Ho. Qed.

End evaluator.

(** ** Growing the store *)

Section monotone.
Context {R1 R2 E1 E2 : Type} `{TupleReader R1 E1} `{TupleReader R2 E2}.
Context (model : AuthorizationModel) (tenantID : string) (subject : SubjectRef).
Context (reader1 : R1) (reader2 : R2).

(** Every list the first store returns is part of the list of the second. *)
Definition reads_more : Prop := forall o r l1,
  ListSubjects reader1 tenantID o r = Ok l1 ->
  exists l2, ListSubjects reader2 tenantID o r = Ok l2 /\ l1 ⊆ l2.

Lemma step_by_more n rw n' :
  reads_more -> step_by reader1 tenantID n rw n' -> step_by reader2 tenantID n rw n'.
Proof.
  intros Hm [HK|subjects s HK Hls Hin Hf Hr|parents s HK Hls Hin Hr Hid].
  - by constructor.
  - destruct (Hm _ _ _ Hls) as (l2 & Hl2 & Hsub). eapply step_userset; eauto.
  - destruct (Hm _ _ _ Hls) as (l2 & Hl2 & Hsub). eapply step_tupleset; eauto.
Qed.

Lemma hit_by_more n rw :
  reads_more -> hit_by reader1 tenantID subject n rw -> hit_by reader2 tenantID subject n rw.
Proof.
  intros Hm (HK & subjects & s & Hls & Hin & Hrest). split; [done|].
  destruct (Hm _ _ _ Hls) as (l2 & Hl2 & Hsub). exists l2, s. eauto.
Qed.

Lemma grants_more n p :
  reads_more -> grants model reader1 tenantID subject n p -> grants model reader2 tenantID subject n p.
Proof.
  intros Hm Hg. induction Hg as [n rw Hrw Hh|n rw n' p Hrw Hs Hg IH].
  - eapply grants_hit; [done|by apply hit_by_more].
  - eapply grants_step; [done|by apply step_by_more|done].
Qed.

(** Writing tuples never takes access away, although the search order, the
    cycle cuts and the depth cuts all change: what [Check] permits on a store
    it permits on every store with more tuples. *)
Theorem Check_monotone o r opts d :
  well_formed model -> reader_ok reader2 tenantID -> byte_in "#" (obj_ID o) = false ->
  (forall o' r', res_ok (ListSubjects reader2 tenantID o' r') = true) ->
  reads_more ->
  Check model reader1 tenantID subject o r opts = Ok d -> Permitted d = true ->
  exists d', Check model reader2 tenantID subject o r opts = Ok d' /\ Permitted d' = true.
Proof.
  intros Hwf Hrd Hid Hok Hm Hc Hp.
  pose proof (Check_outcome model reader1 tenantID subject o r opts) as Ho. rewrite Hc, Hp in Ho.
  destruct Ho as (p & Hg & Hl & _).
  pose proof (Check_outcome model reader2 tenantID subject o r opts) as Ho2.
  destruct (Check model reader2 tenantID subject o r opts) as [d'|err].
  2:{ destruct Ho2 as (o' & r' & He). specialize (Hok o' r'). by rewrite He in Hok. }
  exists d'. split; [done|]. destruct (Permitted d') eqn:Hp'; [done|]. exfalso.
  destruct (grants_simple_keys model reader2 tenantID subject (o, r) p) as (q & Hq & Hnd & Hlq);
    [done..|by apply grants_more|done|].
  apply (proj2 Ho2 q Hq Hnd). left. lia.
Qed.

End monotone.

(** ** A concrete instance: documents in folders *)

(** A reader over a list of tuples, whose reads never fail. *)
#[export] Instance tuples_reader : TupleReader (list RelationTuple) access_error := {
  ListSubjects := fun ts _ o r => Ok (map tup_Subject
    (List.filter (fun t => (tup_Resource t =? o) && (tup_Relation t =? r)) ts));
}.

Lemma tuples_reader_ok ts tenantID :
  forallb (fun t => negb (byte_in "#" (sub_ID (tup_Subject t)))) ts = true ->
  reader_ok ts tenantID.
Proof.
  intros Hall o r subjects s [= <-] Hin. apply list_elem_of_fmap in Hin as (t & -> & Hin).
  apply list_elem_of_In, filter_In in Hin as [Hin _].
  rewrite forallb_forall in Hall. by apply negb_true_iff, Hall.
Qed.

Definition direct_rewrite (forms : list string) : RelationRewrite :=
  {| Kind := RewriteDirect; ComputedRelation := ""; TuplesetRelation := "";
     DirectSubjectTypes := forms |}.

Definition folder_model : AuthorizationModel :=
  {| model_ID := "m"; model_TenantID := "t"; Version := 1%Z; model_CreatedAt := 0%Z;
     ResourceTypes :=
       [ {| type_Name := "user"; Relations := [] |};
         {| type_Name := "group"; Relations :=
              [ {| rel_Name := "member"; Rewrites := [direct_rewrite ["user"; "group#member"]] |} ] |};
         {| type_Name := "folder"; Relations :=
              [ {| rel_Name := "viewer"; Rewrites := [direct_rewrite ["group#member"]] |} ] |};
         {| type_Name := "document"; Relations :=
              [ {| rel_Name := "parent"; Rewrites := [direct_rewrite ["folder"]] |};
                {| rel_Name := "viewer"; Rewrites :=
                     [ direct_rewrite ["user"];
                       {| Kind := RewriteTupleToUserset; ComputedRelation := "viewer";
                          TuplesetRelation := "parent"; DirectSubjectTypes := [] |} ] |} ] |} ] |}.

Definition tuple_of (rt ri rel st si sr : string) : RelationTuple :=
  {| tup_Resource := {| obj_Type := rt; obj_ID := ri |}; tup_Relation := rel;
     tup_Subject := {| sub_Type := st; sub_ID := si; sub_Relation := sr |} |}.

(** Two groups that contain each other, and alice in the second one. *)
Definition folder_tuples : list RelationTuple :=
  [ tuple_of "document" "readme" "parent" "folder" "docs" "";
    tuple_of "folder" "docs" "viewer" "group" "eng" "member";
    tuple_of "group" "eng" "member" "group" "core" "member";
    tuple_of "group" "core" "member" "group" "eng" "member";
    tuple_of "group" "core" "member" "user" "alice" "" ].

Definition alice : SubjectRef := {| sub_Type := "user"; sub_ID := "alice"; sub_Relation := "" |}.
Definition bob : SubjectRef := {| sub_Type := "user"; sub_ID := "bob"; sub_Relation := "" |}.
Definition readme : ObjectRef := {| obj_Type := "document"; obj_ID := "readme" |}.
Definition default_options : CheckOptions := {| MaxDepth := 0 |}.

Definition permit_of_alice : Decision :=
  {| Permitted := true; Reasons := [];
     Path := ["document#viewer"; "folder#viewer"; "group#member"; "group#member"] |}.
Definition denial_of_bob : Decision :=
  {| Permitted := false; Path := []; Reasons := [ReasonCycleDetected] |}.

Lemma folder_model_wf : well_formed folder_model.
Proof. apply Validate_wf. vm_compute. reflexivity. Qed.

Lemma Check_decides_witness :
  Check folder_model folder_tuples "t" alice readme "viewer" default_options = Ok permit_of_alice /\
  exists d, Check folder_model folder_tuples "t" alice readme "viewer" default_options = Ok d /\
    (Permitted d = true <-> exists p, grants folder_model folder_tuples "t" alice (readme, "viewer") p /\
       (Z.of_nat (length p) <= max_depth default_options)%Z).
Proof.
  split; [vm_compute; reflexivity|].
  apply (Check_decides folder_model folder_tuples "t" alice readme "viewer" default_options);
    [apply folder_model_wf|apply tuples_reader_ok; reflexivity|reflexivity|reflexivity].
Defined.

Lemma Check_permit_justified_witness :
  exists p, grants folder_model folder_tuples "t" alice (readme, "viewer") p /\
    (Z.of_nat (length p) <= max_depth default_options)%Z /\ Path permit_of_alice = map label p.
Proof.
  apply (Check_permit_justified folder_model folder_tuples "t" alice readme "viewer" default_options);
    vm_compute; reflexivity.
Defined.

Lemma Check_denial_definitive_witness :
  Check folder_model folder_tuples "t" bob readme "viewer" default_options = Ok denial_of_bob /\
  forall p, ~ grants folder_model folder_tuples "t" bob (readme, "viewer") p.
Proof.
  split; [vm_compute; reflexivity|].
  apply (Check_denial_definitive folder_model folder_tuples "t" bob readme "viewer" default_options denial_of_bob);
    [apply folder_model_wf|apply tuples_reader_ok; reflexivity|reflexivity|vm_compute; reflexivity
    |reflexivity|].
  intros Hin. apply elem_of_cons in Hin as [Hin|Hin]; [discriminate Hin|by apply elem_of_nil in Hin].
Defined.

(** A store that is down. *)
#[export] Instance failing_reader : TupleReader unit string := {
  ListSubjects := fun _ _ _ _ => Err "connection refused";
}.

Lemma Check_error_from_store_witness : read_fails tt "t" "connection refused".
Proof.
  apply (Check_error_from_store folder_model tt "t" alice readme "viewer" default_options).
  vm_compute. reflexivity.
Defined.

Lemma tuples_reader_more ts1 ts2 tenantID : ts1 ⊆ ts2 -> reads_more tenantID ts1 ts2.
Proof.
  intros Hsub o r l1 [= <-]. eexists. split; [reflexivity|].
  intros s (t & -> & Ht)%list_elem_of_fmap. apply list_elem_of_fmap. exists t. split; [done|].
  apply list_elem_of_In, filter_In in Ht as [Ht Hb]. apply list_elem_of_In, filter_In.
  split; [|done]. by apply list_elem_of_In, Hsub, list_elem_of_In.
Qed.

Definition more_tuples : list RelationTuple :=
  tuple_of "group" "core" "member" "user" "bob" "" :: folder_tuples.

Lemma Check_monotone_witness :
  exists d', Check folder_model more_tuples "t" alice readme "viewer" default_options = Ok d' /\
    Permitted d' = true.
Proof.
  apply (Check_monotone folder_model "t" alice folder_tuples more_tuples readme "viewer"
           default_options permit_of_alice);
    [apply folder_model_wf|apply tuples_reader_ok; reflexivity|reflexivity|reflexivity
    |apply tuples_reader_more; intros x Hx; by apply elem_of_cons; right
    |vm_compute; reflexivity|reflexivity].
Defined.
