(* ===== verification/AccessStore.v ===== *)
(** * Access control: the tuple and model store

    [backend/accesscontrol/internal/ports/repository.go] and the memory adapter
    [db_memory/repository.go].  The ports are classes: their operations, and the
    laws a client may rely on, stated over the set of tuples a tenant has.  The
    memory store (maps of maps, a version counter, append-only models) is an
    instance of the operations and of the laws, so every theorem about the
    clients holds of it. *)

From Stdlib Require Import Ascii String ZArith Lia.
From stdpp Require Import base strings list gmap sorting fin_map_dom.
From S2P Require Import Prelude GoStrings AccessModel AccessCheck.

Local Open Scope string_scope.
Local Open Scope go_scope.

#[export] Instance ObjectRef_countable : Countable ObjectRef.
Proof.
  apply (inj_countable' (fun o => (obj_Type o, obj_ID o))
           (fun p => {| obj_Type := p.1; obj_ID := p.2 |})). by intros [].
Defined.
#[export] Instance SubjectRef_countable : Countable SubjectRef.
Proof.
  apply (inj_countable' (fun s => (sub_Type s, sub_ID s, sub_Relation s))
           (fun p => {| sub_Type := p.1.1; sub_ID := p.1.2; sub_Relation := p.2 |})). by intros [].
Defined.
#[export] Instance RelationTuple_countable : Countable RelationTuple.
Proof.
  apply (inj_countable' (fun t => (tup_Resource t, tup_Relation t, tup_Subject t))
           (fun p => {| tup_Resource := p.1.1; tup_Relation := p.1.2; tup_Subject := p.2 |})). by intros [].
Defined.

(** ** The ports *)

Record RelationTupleFilter := {
  flt_ResourceType : string;
  flt_ResourceID : string;
  flt_Relation : string;
  flt_SubjectType : string;
  flt_SubjectID : string;
}.

Record TupleWrite := {
  Writes : list RelationTuple;
  Deletes : list RelationTuple;
  DeleteObjects : list ObjectRef;
}.

Record TupleWriteResult := {
  WrittenCount : Z;
  DeletedCount : Z;
  wr_Version : Z;
}.

Class RelationTupleRepository (R E : Type) `{!TupleReader R E} := {
  ListTuples : R -> string -> RelationTupleFilter -> Z -> result E (list RelationTuple);
  ListResourceIDs : R -> string -> string -> Z -> result E (list string);
  WriteTuples : R -> string -> TupleWrite -> result E (TupleWriteResult * R);
  TenantVersion : R -> string -> result E Z;
}.

Class AuthorizationModelRepository (R E : Type) := {
  Publish : R -> AuthorizationModel -> result E (AuthorizationModel * Z * R);
  Latest : R -> string -> result E (option AuthorizationModel);
  FindByVersion : R -> string -> Z -> result E (option AuthorizationModel);
}.

(** *** What the tuple port promises *)

Definition tuple_at (o : ObjectRef) (rel : string) (s : SubjectRef) : RelationTuple :=
  {| tup_Resource := o; tup_Relation := rel; tup_Subject := s |}.

(** [t.Resource == object || t.Subject.Object() == object]. *)
Definition touches (o : ObjectRef) (t : RelationTuple) : bool :=
  (tup_Resource t =? o) || (Object (tup_Subject t) =? o).

Definition survives (w : TupleWrite) (t : RelationTuple) : Prop :=
  t ∉ Deletes w /\ forallb (fun o => negb (touches o t)) (DeleteObjects w) = true.

#[export] Instance survives_dec w t : base.Decision (survives w t).
Proof. unfold survives. apply _. Defined.

(** The abstract effect of a write: deletes first, then writes. *)
Definition apply_write (w : TupleWrite) (X : gset RelationTuple) : gset RelationTuple :=
  filter (survives w) X ∪ list_to_set (Writes w).

Definition write_ok (w : TupleWrite) : Prop :=
  Forall (fun t => RelationTuple_Validate t = Ok tt) (Writes w) /\
  Forall (fun t => RelationTuple_Validate t = Ok tt) (Deletes w).

Class TupleRepositoryLaws (R E : Type) `{RelationTupleRepository R E} := {
  repo_ok : R -> Prop;
  contents : R -> string -> gset RelationTuple;
  contents_ok r tenant t :
    repo_ok r -> t ∈ contents r tenant -> RelationTuple_Validate t = Ok tt;
  ListSubjects_contents r tenant o rel l s :
    ListSubjects r tenant o rel = Ok l -> s ∈ l <-> tuple_at o rel s ∈ contents r tenant;
  WriteTuples_contents r tenant w res r' :
    repo_ok r -> write_ok w -> WriteTuples r tenant w = Ok (res, r') ->
    repo_ok r' /\ contents r' tenant = apply_write w (contents r tenant) /\
    forall tenant', tenant' <> tenant -> contents r' tenant' = contents r tenant';
  WriteTuples_version r tenant w res r' v :
    WriteTuples r tenant w = Ok (res, r') -> TenantVersion r tenant = Ok v ->
    wr_Version res = wrap64 (v + 1) /\ TenantVersion r' tenant = Ok (wrap64 (v + 1));
}.

(** Stores that keep the laws give the evaluator what it needs. *)
Lemma laws_reader_ok `{TupleRepositoryLaws R E} r tenant : repo_ok r -> reader_ok r tenant.
Proof.
  intros Hr o rel l s Hl Hs. apply (ListSubjects_contents r tenant o rel l s Hl) in Hs.
  apply (contents_ok r tenant) in Hs; [|done]. by apply RelationTuple_Validate_Ok in Hs as [].
Qed.

(** ** The memory store *)

Record Store := {
  tuples : gmap string (gmap string RelationTuple);
  models : gmap string (list AuthorizationModel);
  versions : gmap string Z;
}.

Definition NewStore : Store := {| tuples := ∅; models := ∅; versions := ∅ |}.

Definition tenant_tuples (s : Store) (tenantID : string) : gmap string RelationTuple :=
  default ∅ (tuples s !! tenantID).

Definition version_of (s : Store) (tenantID : string) : Z := default 0%Z (versions s !! tenantID).

Definition bumpVersion (s : Store) (tenantID : string) : Z * Store :=
  let v := wrap64 (version_of s tenantID + 1) in
  (v, {| tuples := tuples s; models := models s; versions := <[tenantID := v]> (versions s) |}).

(** [for _, t := range s.tuples[tenantID]]: in the order of the map; what is
    returned is sorted afterwards. *)
Definition range_tuples (s : Store) (tenantID : string) : list RelationTuple :=
  (map_to_list (tenant_tuples s tenantID)).*2.

Definition subject_le (a b : SubjectRef) : Prop :=
  String.le (SubjectRef_String a) (SubjectRef_String b).
Definition tuple_le (a b : RelationTuple) : Prop := String.le (Key a) (Key b).

#[export] Instance subject_le_dec : RelDecision subject_le.
Proof. intros a b. unfold subject_le. apply _. Defined.
#[export] Instance tuple_le_dec : RelDecision tuple_le.
Proof. intros a b. unfold tuple_le. apply _. Defined.

Definition mem_ListSubjects (s : Store) (tenantID : string) (resource : ObjectRef) (relation : string) :
    list SubjectRef :=
  merge_sort subject_le (map tup_Subject
    (List.filter (fun t => (tup_Resource t =? resource) && (tup_Relation t =? relation))
       (range_tuples s tenantID))).

Definition matchesFilter (t : RelationTuple) (f : RelationTupleFilter) : bool :=
  if (flt_ResourceType f <>? "") && (obj_Type (tup_Resource t) <>? flt_ResourceType f) then false
  else if (flt_ResourceID f <>? "") && (obj_ID (tup_Resource t) <>? flt_ResourceID f) then false
  else if (flt_Relation f <>? "") && (tup_Relation t <>? flt_Relation f) then false
  else if (flt_SubjectType f <>? "") && (sub_Type (tup_Subject t) <>? flt_SubjectType f) then false
  else if (flt_SubjectID f <>? "") && (sub_ID (tup_Subject t) <>? flt_SubjectID f) then false
  else true.

(** [if limit > 0 && len(out) > limit { out = out[:limit] }]. *)
Definition truncate {A} (limit : Z) (out : list A) : list A :=
  if (0 <? limit) && (limit <? Z.of_nat (length out)) then firstn (Z.to_nat limit) out else out.

Definition mem_List (s : Store) (tenantID : string) (f : RelationTupleFilter) (limit : Z) :
    list RelationTuple :=
  truncate limit (merge_sort tuple_le (List.filter (fun t => matchesFilter t f) (range_tuples s tenantID))).

(** The loop of [ListResourceIDs] with its [seen] set. *)
Fixpoint collect_ids (resourceType : string) (ts : list RelationTuple) (seen : gset string)
    (out : list string) : list string :=
  match ts with
  | [] => out
  | t :: ts' =>
      if obj_Type (tup_Resource t) <>? resourceType then collect_ids resourceType ts' seen out
      else if bool_decide (obj_ID (tup_Resource t) ∈ seen) then collect_ids resourceType ts' seen out
      else collect_ids resourceType ts' ({[obj_ID (tup_Resource t)]} ∪ seen)
             (out ++ [obj_ID (tup_Resource t)])%list
  end.

Definition mem_ListResourceIDs (s : Store) (tenantID resourceType : string) (limit : Z) : list string :=
  truncate limit (merge_sort String.le (collect_ids resourceType (range_tuples s tenantID) ∅ [])).

(** The three loops of [Write], over the tenant's map and a counter. *)
Definition delete_step (acc : gmap string RelationTuple * Z) (t : RelationTuple) :
    gmap string RelationTuple * Z :=
  match acc.1 !! Key t with
  | Some _ => (delete (Key t) acc.1, acc.2 + 1)%Z
  | None => acc
  end.

Definition delete_object_step (acc : gmap string RelationTuple * Z) (o : ObjectRef) :
    gmap string RelationTuple * Z :=
  (filter (fun kv => touches o kv.2 = false) acc.1,
   acc.2 + Z.of_nat (size (filter (fun kv : string * RelationTuple => touches o kv.2 = true) acc.1)))%Z.

Definition write_step (acc : gmap string RelationTuple * Z) (t : RelationTuple) :
    gmap string RelationTuple * Z :=
  (<[Key t := t]> acc.1, match acc.1 !! Key t with None => acc.2 + 1 | Some _ => acc.2 end)%Z.

Definition mem_Write (s : Store) (tenantID : string) (w : TupleWrite) : TupleWriteResult * Store :=
  let acc1 := fold_left delete_step (Deletes w) (tenant_tuples s tenantID, 0%Z) in
  let acc2 := fold_left delete_object_step (DeleteObjects w) acc1 in
  let acc3 := fold_left write_step (Writes w) (acc2.1, 0%Z) in
  let s1 := {| tuples := <[tenantID := acc3.1]> (tuples s); models := models s; versions := versions s |} in
  let '(v, s2) := bumpVersion s1 tenantID in
  ({| WrittenCount := acc3.2; DeletedCount := acc2.2; wr_Version := v |}, s2).

Definition mem_Version (s : Store) (tenantID : string) : Z := version_of s tenantID.

Definition model_versions (s : Store) (tenantID : string) : list AuthorizationModel :=
  default [] (models s !! tenantID).

(** [cloneModel] copies the model; the version is the number of models so far
    plus one, whatever the caller put there. *)
Definition mem_Publish (s : Store) (model : AuthorizationModel) : AuthorizationModel * Z * Store :=
  let stored := {| model_ID := model_ID model; model_TenantID := model_TenantID model;
                   Version := Z.of_nat (length (model_versions s (model_TenantID model))) + 1;
                   ResourceTypes := ResourceTypes model; model_CreatedAt := model_CreatedAt model |} in
  let s1 := {| tuples := tuples s;
               models := <[model_TenantID model := (model_versions s (model_TenantID model) ++ [stored])%list]>
                           (models s);
               versions := versions s |} in
  let '(v, s2) := bumpVersion s1 (model_TenantID model) in
  (stored, v, s2).

Definition mem_Latest (s : Store) (tenantID : string) : option AuthorizationModel :=
  last (model_versions s tenantID).

Definition mem_FindByVersion (s : Store) (tenantID : string) (version : Z) : option AuthorizationModel :=
  List.find (fun m => Version m =? version) (model_versions s tenantID).

(** The memory adapter never fails. *)
#[export] Instance Store_reader : TupleReader Store string := {
  ListSubjects s t o r := Ok (mem_ListSubjects s t o r);
}.
#[export] Instance Store_tuples : RelationTupleRepository Store string := {
  ListTuples s t f n := Ok (mem_List s t f n);
  ListResourceIDs s t ty n := Ok (mem_ListResourceIDs s t ty n);
  WriteTuples s t w := Ok (mem_Write s t w);
  TenantVersion s t := Ok (mem_Version s t);
}.
#[export] Instance Store_models : AuthorizationModelRepository Store string := {
  Publish s m := Ok (mem_Publish s m);
  Latest s t := Ok (mem_Latest s t);
  FindByVersion s t v := Ok (mem_FindByVersion s t v);
}.

(** ** The memory store keeps the laws *)

(** Every entry of a tenant's map is a validated tuple under its own key. *)
Definition good (m : gmap string RelationTuple) : Prop :=
  forall k t, m !! k = Some t -> k = Key t /\ RelationTuple_Validate t = Ok tt.

Definition img (m : gmap string RelationTuple) : gset RelationTuple := map_img m.

Lemma img_lookup m t :
  good m -> RelationTuple_Validate t = Ok tt -> t ∈ img m <-> m !! Key t = Some t.
Proof.
  intros Hg Ht. unfold img. rewrite elem_of_map_img. split; [|by eexists].
  intros (k & Hk). by destruct (Hg k t Hk) as [<- _].
Qed.

Lemma good_lookup m t t' :
  good m -> RelationTuple_Validate t = Ok tt -> m !! Key t = Some t' -> t' = t.
Proof. intros Hg Ht Hk. destruct (Hg _ _ Hk) as [Heq Ht']. symmetry. by apply Key_inj. Qed.

Lemma img_valid m t : good m -> t ∈ img m -> RelationTuple_Validate t = Ok tt.
Proof. intros Hg (k & Hk)%elem_of_map_img. by apply Hg in Hk as [_ ?]. Qed.

Lemma good_size m : good m -> size (img m) = size m.
Proof.
  intros Hg.
  assert (Hk : (map_to_list m).*1 = Key <$> (map_to_list m).*2).
  { rewrite <- list_fmap_compose. apply list_fmap_ext. intros i [k t] Hi. simpl.
    by apply list_elem_of_lookup_2, elem_of_map_to_list, Hg in Hi as [-> _]. }
  assert (Hnd : NoDup (map_to_list m).*2).
  { apply (NoDup_fmap_1 Key). rewrite <- Hk. apply NoDup_fst_map_to_list. }
  assert (img m = list_to_set (map_to_list m).*2) as ->.
  { apply set_eq. intros t. unfold img. rewrite elem_of_list_to_set, elem_of_map_img. split.
    - intros (k & Hk'). apply list_elem_of_fmap. exists (k, t). by rewrite elem_of_map_to_list.
    - intros ([k t'] & -> & Hin)%list_elem_of_fmap. exists k. by apply elem_of_map_to_list. }
  rewrite size_list_to_set by done. rewrite length_fmap. apply length_map_to_list.
Qed.

(** The three steps, on good maps. *)
Lemma delete_step_spec acc t :
  good acc.1 -> RelationTuple_Validate t = Ok tt ->
  let acc' := delete_step acc t in
  good acc'.1 /\ img acc'.1 = img acc.1 ∖ {[t]} /\
  (acc'.2 + Z.of_nat (size acc'.1) = acc.2 + Z.of_nat (size acc.1))%Z.
Proof.
  intros Hg Ht. unfold delete_step. destruct (acc.1 !! Key t) as [t'|] eqn:Hk; simpl.
  - pose proof (good_lookup _ _ _ Hg Ht Hk) as ->.
    assert (Hg' : good (delete (Key t) acc.1)).
    { intros k u Hu. apply lookup_delete_Some in Hu as [_ Hu]. by apply Hg. }
    split_and!; [done| |].
    + apply set_eq. intros u. rewrite elem_of_difference, elem_of_singleton. split.
      * intros Hu. pose proof (img_valid _ _ Hg' Hu) as Hv. apply img_lookup in Hu; [|done..].
        apply lookup_delete_Some in Hu as [Hne Hu]. split; [by apply img_lookup|]. by intros ->.
      * intros [Hu Hne]. pose proof (img_valid _ _ Hg Hu) as Hv. apply img_lookup in Hu; [|done..].
        apply img_lookup; [done..|]. apply lookup_delete_Some. split; [|done]. intros Heq.
        by apply Hne, Key_inj.
    + assert (size acc.1 <> 0)%nat.
      { intros He%map_size_empty_inv. rewrite He in Hk. by rewrite lookup_empty in Hk. }
      rewrite map_size_delete_Some by eauto. lia.
  - split_and!; [done| |done]. apply set_eq. intros u. rewrite elem_of_difference, elem_of_singleton.
    split; [|tauto]. intros Hu. split; [done|]. intros ->. apply img_lookup in Hu; [congruence|done..].
Qed.

Lemma delete_object_step_spec acc o :
  good acc.1 ->
  let acc' := delete_object_step acc o in
  good acc'.1 /\ img acc'.1 = filter (fun t => touches o t = false) (img acc.1) /\
  (acc'.2 + Z.of_nat (size acc'.1) = acc.2 + Z.of_nat (size acc.1))%Z.
Proof.
  intros Hg. unfold delete_object_step. simpl. split_and!.
  - intros k t [Hk _]%map_lookup_filter_Some. by apply Hg.
  - apply set_eq. intros t. unfold img. rewrite elem_of_filter, !elem_of_map_img.
    setoid_rewrite map_lookup_filter_Some. simpl. naive_solver.
  - set (P := fun kv : string * RelationTuple => touches o kv.2 = true).
    replace (filter (fun kv : string * RelationTuple => touches o kv.2 = false) acc.1)
      with (filter (fun kv => ~ P kv) acc.1).
    2:{ apply map_filter_ext. intros k t _. unfold P. simpl. by rewrite not_true_iff_false. }
    rewrite <- (map_filter_union_complement P acc.1) at 3.
    rewrite map_size_disj_union by apply map_disjoint_filter_complement. lia.
Qed.

Lemma write_step_spec acc t :
  good acc.1 -> RelationTuple_Validate t = Ok tt ->
  let acc' := write_step acc t in
  good acc'.1 /\ img acc'.1 = img acc.1 ∪ {[t]} /\
  (acc'.2 + Z.of_nat (size acc.1) = acc.2 + Z.of_nat (size acc'.1))%Z.
Proof.
  intros Hg Ht. unfold write_step. simpl.
  assert (Hg' : good (<[Key t := t]> acc.1)).
  { intros k u [[<- <-]|[_ Hu]]%lookup_insert_Some; [done|]. by apply Hg. }
  split_and!; [done| |].
  - apply set_eq. intros u. rewrite elem_of_union, elem_of_singleton. split.
    + intros Hu. pose proof (img_valid _ _ Hg' Hu) as Hv. apply img_lookup in Hu; [|done..].
      apply lookup_insert_Some in Hu as [[Heq ->]|[_ Hu]]; [by right|]. left. by apply img_lookup.
    + intros [Hu| ->].
      * pose proof (img_valid _ _ Hg Hu) as Hv. apply img_lookup in Hu; [|done..].
        apply img_lookup; [done..|]. destruct (decide (Key t = Key u)) as [He|He].
        -- apply Key_inj in He as ->; [|done..]. by rewrite lookup_insert_eq.
        -- by rewrite lookup_insert_ne.
      * apply img_lookup; [done..|]. by rewrite lookup_insert_eq.
  - destruct (acc.1 !! Key t) as [t'|] eqn:Hk.
    + rewrite map_size_insert_Some by eauto. lia.
    + rewrite map_size_insert_None by done. lia.
Qed.

Lemma deletes_spec l : forall acc,
  good acc.1 -> Forall (fun t => RelationTuple_Validate t = Ok tt) l ->
  let acc' := fold_left delete_step l acc in
  good acc'.1 /\ img acc'.1 = img acc.1 ∖ list_to_set l /\
  (acc'.2 + Z.of_nat (size acc'.1) = acc.2 + Z.of_nat (size acc.1))%Z.
Proof.
  induction l as [|t l IH]; intros acc Hg Hl; cbn [fold_left].
  { split_and!; [done|set_solver|done]. }
  apply Forall_cons in Hl as [Ht Hl].
  destruct (delete_step_spec acc t Hg Ht) as (Hg1 & Hi1 & Hs1).
  destruct (IH _ Hg1 Hl) as (Hg2 & Hi2 & Hs2). split_and!; [done|rewrite Hi2, Hi1; set_solver|lia].
Qed.

Lemma delete_objects_spec l : forall acc,
  good acc.1 ->
  let acc' := fold_left delete_object_step l acc in
  good acc'.1 /\
  img acc'.1 = filter (fun t => forallb (fun o => negb (touches o t)) l = true) (img acc.1) /\
  (acc'.2 + Z.of_nat (size acc'.1) = acc.2 + Z.of_nat (size acc.1))%Z.
Proof.
  induction l as [|o l IH]; intros acc Hg; cbn [fold_left].
  { split_and!; [done| |done]. apply set_eq. intros t. rewrite elem_of_filter. simpl. tauto. }
  destruct (delete_object_step_spec acc o Hg) as (Hg1 & Hi1 & Hs1).
  destruct (IH _ Hg1) as (Hg2 & Hi2 & Hs2). split_and!; [done| |lia].
  rewrite Hi2, Hi1. apply set_eq. intros t. rewrite !elem_of_filter. cbn [forallb].
  rewrite andb_true_iff, negb_true_iff. tauto.
Qed.

Lemma writes_spec l : forall acc,
  good acc.1 -> Forall (fun t => RelationTuple_Validate t = Ok tt) l ->
  let acc' := fold_left write_step l acc in
  good acc'.1 /\ img acc'.1 = img acc.1 ∪ list_to_set l /\
  (acc'.2 + Z.of_nat (size acc.1) = acc.2 + Z.of_nat (size acc'.1))%Z.
Proof.
  induction l as [|t l IH]; intros acc Hg Hl; cbn [fold_left].
  { split_and!; [done|set_solver|done]. }
  apply Forall_cons in Hl as [Ht Hl].
  destruct (write_step_spec acc t Hg Ht) as (Hg1 & Hi1 & Hs1).
  destruct (IH _ Hg1 Hl) as (Hg2 & Hi2 & Hs2). split_and!; [done|rewrite Hi2, Hi1; set_solver|lia].
Qed.

Definition store_ok (s : Store) : Prop := forall tenant, good (tenant_tuples s tenant).
Definition store_contents (s : Store) (tenant : string) : gset RelationTuple := img (tenant_tuples s tenant).

Lemma NewStore_ok : store_ok NewStore.
Proof. intros tenant k t Hk. unfold tenant_tuples in Hk. simpl in Hk. by rewrite !lookup_empty in Hk. Qed.

Lemma tenant_tuples_insert s tenant m tenant' :
  tenant_tuples {| tuples := <[tenant := m]> (tuples s); models := models s; versions := versions s |} tenant' =
  if decide (tenant' = tenant) then m else tenant_tuples s tenant'.
Proof.
  unfold tenant_tuples. simpl. destruct (decide _) as [->|Hne]; [by rewrite lookup_insert_eq|].
  by rewrite lookup_insert_ne.
Qed.

(** The whole [Write] on the memory store. *)
Lemma mem_Write_spec s tenant w :
  store_ok s -> write_ok w ->
  let '(res, s') := mem_Write s tenant w in
  store_ok s' /\
  store_contents s' tenant = apply_write w (store_contents s tenant) /\
  (forall tenant', tenant' <> tenant -> store_contents s' tenant' = store_contents s tenant') /\
  (Z.of_nat (size (store_contents s' tenant)) =
   Z.of_nat (size (store_contents s tenant)) - DeletedCount res + WrittenCount res)%Z.
Proof.
  intros Hok [Hw Hd].
  destruct (deletes_spec (Deletes w) (tenant_tuples s tenant, 0%Z) (Hok tenant) Hd) as (Hg1 & Hi1 & Hs1).
  set (acc1 := fold_left delete_step _ _) in *.
  destruct (delete_objects_spec (DeleteObjects w) acc1 Hg1) as (Hg2 & Hi2 & Hs2).
  set (acc2 := fold_left delete_object_step _ acc1) in *.
  destruct (writes_spec (Writes w) (acc2.1, 0%Z) Hg2 Hw) as (Hg3 & Hi3 & Hs3).
  set (acc3 := fold_left write_step _ _) in *.
  unfold mem_Write. fold acc1 acc2 acc3. unfold bumpVersion. simpl.
  assert (Ht : forall tenant', tenant_tuples
      {| tuples := <[tenant:=acc3.1]> (tuples s); models := models s;
         versions := <[tenant:=wrap64 (version_of s tenant + 1)]> (versions s) |} tenant' =
      if decide (tenant' = tenant) then acc3.1 else tenant_tuples s tenant').
  { intros tenant'. rewrite <- tenant_tuples_insert. done. }
  split_and!.
  - intros tenant'. rewrite Ht. destruct (decide _); [done|apply Hok].
  - unfold store_contents. rewrite Ht, decide_True by done. rewrite Hi3. simpl. rewrite Hi2, Hi1. simpl.
    unfold apply_write, survives. apply set_eq. intros t. set_solver.
  - intros tenant' Hne. unfold store_contents. by rewrite Ht, decide_False.
  - unfold store_contents. rewrite Ht, decide_True by done.
    rewrite good_size by done. rewrite good_size by apply Hok. simpl in *. lia.
Qed.

Lemma mem_ListSubjects_spec s tenant o rel sub :
  sub ∈ mem_ListSubjects s tenant o rel <-> tuple_at o rel sub ∈ store_contents s tenant.
Proof.
  unfold mem_ListSubjects, store_contents, img, range_tuples.
  rewrite merge_sort_Permutation, elem_of_map_img, list_elem_of_fmap. split.
  - intros (t & -> & Ht). apply list_elem_of_In, filter_In in Ht as [Ht Hb]. go_bool.
    destruct Hb as [<- <-]. apply list_elem_of_In, list_elem_of_fmap in Ht as ([k t'] & -> & Hin).
    exists k. apply elem_of_map_to_list in Hin. by destruct t'.
  - intros (k & Hk). exists (tuple_at o rel sub). split; [done|]. apply list_elem_of_In, filter_In.
    split; [|by rewrite !bool_decide_true]. apply list_elem_of_In, list_elem_of_fmap.
    exists (k, tuple_at o rel sub). by rewrite elem_of_map_to_list.
Qed.

#[refine, export] Instance Store_laws : TupleRepositoryLaws Store string := {
  repo_ok := store_ok;
  contents := store_contents;
}.
Proof.
  - intros s tenant t Hok Ht. by apply (img_valid _ _ (Hok tenant)).
  - intros s tenant o rel l sub [= <-]. apply mem_ListSubjects_spec.
  - intros s tenant w res s' Hok Hw Heq.
    change (@Ok string _ (mem_Write s tenant w) = Ok (res, s')) in Heq. apply Ok_inj in Heq.
    pose proof (mem_Write_spec s tenant w Hok Hw) as H. rewrite Heq in H. tauto.
  - intros s tenant w res s' v Heq [= <-].
    change (@Ok string _ (mem_Write s tenant w) = Ok (res, s')) in Heq. apply Ok_inj in Heq.
    unfold mem_Write, bumpVersion in Heq. injection Heq as <- <-. split; [done|].
    simpl. unfold mem_Version, version_of. simpl. by rewrite lookup_insert_eq.
Defined.

(** C10. [Write] on the memory store implements the abstract write: on a store of
    validated tuples, with validated writes and deletes, the tenant's tuples
    become exactly (old tuples, less the deletes and everything that touches a
    deleted object) plus the writes; no other tenant changes; the store stays
    valid; the counts are the exact change of the number of tuples; and the
    tenant's version grows by one (64-bit wrap-around), whatever was written. *)
Theorem Write_refines s tenant w :
  store_ok s -> write_ok w ->
  let '(res, s') := mem_Write s tenant w in
  (store_ok s' /\
   store_contents s' tenant = apply_write w (store_contents s tenant) /\
   (forall tenant', tenant' <> tenant ->
      store_contents s' tenant' = store_contents s tenant' /\ mem_Version s' tenant' = mem_Version s tenant')) /\
  (Z.of_nat (size (store_contents s' tenant)) =
   Z.of_nat (size (store_contents s tenant)) - DeletedCount res + WrittenCount res)%Z /\
  wr_Version res = mem_Version s' tenant /\ mem_Version s' tenant = wrap64 (mem_Version s tenant + 1).
Proof.
  intros Hok Hw. pose proof (mem_Write_spec s tenant w Hok Hw) as H.
  destruct (mem_Write s tenant w) as [res s'] eqn:Heq. destruct H as (Hok' & Hc & Hother & Hsize).
  unfold mem_Write, bumpVersion in Heq. injection Heq as <- <-. split_and!; try done.
  - intros tenant' Hne. split; [by apply Hother|]. unfold mem_Version, version_of. simpl.
    by rewrite lookup_insert_ne.
  - unfold mem_Version, version_of. simpl. by rewrite lookup_insert_eq.
  - unfold mem_Version, version_of. simpl. by rewrite lookup_insert_eq.
Qed.

(** ** Published models *)

(** The versions of a tenant's models are 1, 2, 3, ... *)
Definition models_ok (s : Store) : Prop := forall tenant i m,
  model_versions s tenant !! i = Some m -> Version m = (Z.of_nat i + 1)%Z.

Lemma find_by_version_Some s tenant v m :
  models_ok s -> mem_FindByVersion s tenant v = Some m <->
  model_versions s tenant !! Z.to_nat (v - 1) = Some m /\ (1 <= v)%Z.
Proof.
  intros Hok. unfold mem_FindByVersion. split.
  - intros Hf. apply find_some in Hf as [Hin Hv]. apply bool_decide_eq_true in Hv as <-.
    apply list_elem_of_In, list_elem_of_lookup in Hin as [i Hi]. pose proof (Hok _ _ _ Hi) as ->.
    split; [|lia]. by replace (Z.to_nat (Z.of_nat i + 1 - 1)) with i by lia.
  - intros [Hi Hv]. pose proof (Hok _ _ _ Hi) as Hm.
    destruct (List.find _ _) as [m'|] eqn:Hf.
    + apply find_some in Hf as [Hin Hv']. apply bool_decide_eq_true in Hv'.
      apply list_elem_of_In, list_elem_of_lookup in Hin as [j Hj]. pose proof (Hok _ _ _ Hj) as Hm'.
      assert (j = Z.to_nat (v - 1)) as -> by lia. congruence.
    + exfalso. apply list_elem_of_lookup_2, list_elem_of_In in Hi.
      pose proof (find_none _ _ Hf _ Hi) as Hn. apply bool_decide_eq_false in Hn. lia.
Qed.

Lemma model_versions_publish s m tenant :
  model_versions (mem_Publish s m).2 tenant =
  if decide (tenant = model_TenantID m) then (model_versions s tenant ++ [(mem_Publish s m).1.1])%list
  else model_versions s tenant.
Proof.
  unfold model_versions. simpl. destruct (decide _) as [->|Hne]; [by rewrite lookup_insert_eq|].
  by rewrite lookup_insert_ne.
Qed.

(** The history of models is append-only: publishing stores the model under the
    next version of its tenant, makes it the latest one, and leaves every
    version that could be looked up before, of every tenant, as it was. *)
Theorem Publish_append_only s m :
  models_ok s ->
  let '(stored, v, s') := mem_Publish s m in
  models_ok s' /\
  ResourceTypes stored = ResourceTypes m /\
  mem_FindByVersion s (model_TenantID m) (Version stored) = None /\
  mem_FindByVersion s' (model_TenantID m) (Version stored) = Some stored /\
  mem_Latest s' (model_TenantID m) = Some stored /\
  (forall tenant n m', mem_FindByVersion s tenant n = Some m' -> mem_FindByVersion s' tenant n = Some m').
Proof.
  intros Hok. pose proof (model_versions_publish s m) as Hmv.
  destruct (mem_Publish s m) as [[stored v] s'] eqn:Hp. simpl in Hmv.
  assert (Hv : Version stored = (Z.of_nat (length (model_versions s (model_TenantID m))) + 1)%Z
               /\ ResourceTypes stored = ResourceTypes m).
  { unfold mem_Publish, bumpVersion in Hp. by injection Hp as <- <- <-. }
  destruct Hv as [Hv Hrt]. clear Hp.
  assert (Hok' : models_ok s').
  { intros tenant i m'. rewrite Hmv. destruct (decide _) as [->|]; [|apply Hok].
    intros [Hi|[Hi Hm]]%lookup_app_Some; [by apply Hok in Hi|].
    apply list_lookup_singleton_Some in Hm as [Hz <-]. lia. }
  split_and!; [done|done| | | |].
  - destruct (mem_FindByVersion s _ _) as [m'|] eqn:Hf; [|done].
    apply find_by_version_Some in Hf as [Hf _]; [|done]. apply lookup_lt_Some in Hf. lia.
  - apply find_by_version_Some; [done|]. rewrite Hmv, decide_True by done. split; [|lia].
    rewrite lookup_app_r by lia. apply list_lookup_singleton_Some. split; [lia|done].
  - unfold mem_Latest. rewrite Hmv, decide_True by done. by rewrite last_snoc.
  - intros tenant n m' Hf. apply find_by_version_Some in Hf as [Hf Hn]; [|done].
    apply find_by_version_Some; [done|]. split; [|done]. rewrite Hmv.
    destruct (decide _); [|done]. by apply lookup_app_l_Some.
Qed.

(** ** Listing resources *)

Lemma collect_ids_spec ty ts : forall seen out,
  (forall x, x ∈ seen <-> x ∈ out) -> NoDup out ->
  NoDup (collect_ids ty ts seen out) /\
  forall x, x ∈ collect_ids ty ts seen out <->
    x ∈ out \/ exists t, t ∈ ts /\ tup_Resource t = {| obj_Type := ty; obj_ID := x |}.
Proof.
  induction ts as [|t ts IH]; intros seen out Hs Hnd; cbn [collect_ids].
  { split; [done|]. intros x. split; [by left|]. intros [?|(t & Ht & _)]; [done|by apply elem_of_nil in Ht]. }
  assert (Hskip : forall x, (exists u, u ∈ t :: ts /\ tup_Resource u = {| obj_Type := ty; obj_ID := x |}) <->
    tup_Resource t = {| obj_Type := ty; obj_ID := x |} \/
    exists u, u ∈ ts /\ tup_Resource u = {| obj_Type := ty; obj_ID := x |}).
  { intros x. setoid_rewrite elem_of_cons. naive_solver. }
  setoid_rewrite Hskip. clear Hskip. destruct (tup_Resource t) as [rt ri]. simpl.
  destruct (bool_decide (rt = ty)) eqn:Ht; go_bool; simpl.
  2:{ destruct (IH seen out Hs Hnd) as [Hn Hi]. split; [done|]. intros x. rewrite Hi. naive_solver. }
  subst rt. destruct (bool_decide (ri ∈ seen)) eqn:Hin; go_bool.
  - destruct (IH seen out Hs Hnd) as [Hn Hi]. split; [done|]. intros x. rewrite Hi.
    rewrite Hs in Hin. naive_solver.
  - rewrite Hs in Hin. destruct (IH ({[ri]} ∪ seen) (out ++ [ri])%list) as [Hn Hi].
    { intros x. rewrite elem_of_union, elem_of_singleton, elem_of_app, list_elem_of_singleton, Hs. tauto. }
    { apply NoDup_app. split_and!; [done| |apply NoDup_singleton].
      intros x Hx Hx'. apply list_elem_of_singleton in Hx' as ->. done. }
    split; [done|]. intros x. rewrite Hi, elem_of_app, list_elem_of_singleton. naive_solver.
Qed.

(** Without a limit, the identifiers of a type are listed once each, in order,
    and are exactly those of the tuples' resources. *)
Lemma mem_ListResourceIDs_spec s tenant ty :
  NoDup (mem_ListResourceIDs s tenant ty 0) /\
  Sorted String.le (mem_ListResourceIDs s tenant ty 0) /\
  forall x, x ∈ mem_ListResourceIDs s tenant ty 0 <->
    exists t, t ∈ store_contents s tenant /\ tup_Resource t = {| obj_Type := ty; obj_ID := x |}.
Proof.
  unfold mem_ListResourceIDs, truncate. simpl.
  destruct (collect_ids_spec ty (range_tuples s tenant) ∅ []) as [Hnd Hin];
    [set_solver|constructor|]. split_and!.
  - by rewrite merge_sort_Permutation.
  - apply Sorted_merge_sort. apply _.
  - intros x. rewrite merge_sort_Permutation, Hin. unfold store_contents, img, range_tuples.
    setoid_rewrite elem_of_map_img. split.
    + intros [H|(t & Ht & Hr)]; [by apply elem_of_nil in H|]. exists t. split; [|done].
      apply list_elem_of_fmap in Ht as ([k t'] & -> & Hk). exists k. by apply elem_of_map_to_list.
    + intros (t & (k & Hk) & Hr). right. exists t. split; [|done]. apply list_elem_of_fmap.
      exists (k, t). by rewrite elem_of_map_to_list.
Qed.

Lemma mem_ListResourceIDs_limit s tenant ty n :
  (0 < n)%Z -> mem_ListResourceIDs s tenant ty n =
  firstn (Z.to_nat n) (mem_ListResourceIDs s tenant ty 0).
Proof.
  intros Hn. unfold mem_ListResourceIDs, truncate. simpl. rewrite (proj2 (Z.ltb_lt 0 n)) by done. simpl.
  destruct (n <? _)%go eqn:Hl; [done|]. apply Z.ltb_ge in Hl.
  rewrite firstn_all2; [done|]. lia.
Qed.

(** ** Witnesses *)

Definition docs_write : TupleWrite :=
  {| Writes := folder_tuples; Deletes := []; DeleteObjects := [] |}.
Definition drop_core : TupleWrite :=
  {| Writes := []; Deletes := []; DeleteObjects := [ {| obj_Type := "group"; obj_ID := "core" |} ] |}.

Definition docs_store : Store := (mem_Write NewStore "t" docs_write).2.

Lemma docs_write_ok : write_ok docs_write.
Proof. split; [|constructor]. repeat (constructor; [vm_compute; reflexivity|]). constructor. Qed.

Lemma docs_store_ok : store_ok docs_store.
Proof. apply (mem_Write_spec NewStore "t" docs_write NewStore_ok docs_write_ok). Qed.

Lemma drop_core_ok : write_ok drop_core.
Proof. split; constructor. Qed.

Lemma Write_refines_witness :
  DeletedCount (mem_Write docs_store "t" drop_core).1 = 3%Z /\
  store_contents (mem_Write docs_store "t" drop_core).2 "t" =
    apply_write drop_core (store_contents docs_store "t").
Proof.
  split; [vm_compute; reflexivity|].
  exact (proj1 (proj2 (proj1 (Write_refines docs_store "t" drop_core docs_store_ok drop_core_ok)))).
Defined.

Lemma NewStore_models_ok : models_ok NewStore.
Proof. intros tenant i m Hi. unfold model_versions in Hi. simpl in Hi. by rewrite lookup_empty in Hi. Qed.

Lemma Publish_append_only_witness :
  Version (mem_Publish NewStore folder_model).1.1 = 1%Z /\
  mem_Latest (mem_Publish NewStore folder_model).2 "t" = Some (mem_Publish NewStore folder_model).1.1.
Proof.
  split; [reflexivity|].
  exact (proj1 (proj2 (proj2 (proj2 (proj2 (Publish_append_only NewStore folder_model NewStore_models_ok)))))).
Defined.
