(* ===== verification/Policy.v ===== *)
(** * The authorization policy: named rules per action

    [backend/shared/spec/policy.go], [grants.go], the enumerations of
    [enums.go] the policy reads and [kernel.DefaultTenantID].  Every request
    names an action; a table lists the rules of each action, a second table
    implements each rule as a predicate on the request, and [Evaluate] permits
    when no rule fails.  [time.Now], which [isExpired] falls back on, is the
    parameter [wallclock].

    Besides [Evaluate] itself the file proves facts of the tables that no
    compiler checks: every rule that an action names is implemented, every
    administrative action asks for an active, authenticated administrator, the
    capabilities of the console map to actions that exist. *)

From Stdlib Require Import Ascii String ZArith Lia.
From stdpp Require Import base strings list gmap.
From S2P Require Import Prelude GoStrings.

Local Open Scope string_scope.
Local Open Scope go_scope.

(** ** Enumerations: Go's typed strings *)

Definition ClientType := string.
Definition ClientPublic : ClientType := "public".
Definition ClientConfidential : ClientType := "confidential".

Definition GrantType := string.
Definition GrantAuthorizationCode : GrantType := "authorization_code".
Definition GrantRefreshToken : GrantType := "refresh_token".
Definition GrantClientCredentials : GrantType := "client_credentials".
Definition GrantDeviceCode : GrantType := "urn:ietf:params:oauth:grant-type:device_code".
Definition GrantTokenExchange : GrantType := "urn:ietf:params:oauth:grant-type:token-exchange".
Definition GrantCiba : GrantType := "urn:openid:params:grant-type:ciba".
Definition GrantJWTBearer : GrantType := "urn:ietf:params:oauth:grant-type:jwt-bearer".
Definition GrantJWTDPoP : GrantType := "urn:ietf:params:oauth:grant-type:jwt-dpop".

Definition ResponseType := string.
Definition ResponseTypeCode : ResponseType := "code".

Definition CodeChallengeMethod := string.
Definition CodeChallengeMethodS256 : CodeChallengeMethod := "S256".

Definition SenderConstraintType := string.
Definition SenderConstraintDPoP : SenderConstraintType := "dpop".
Definition SenderConstraintMTLS : SenderConstraintType := "mtls".

Definition GrantType_Valid (g : GrantType) : bool :=
  contains [GrantAuthorizationCode; GrantRefreshToken; GrantClientCredentials; GrantDeviceCode;
            GrantTokenExchange; GrantCiba; GrantJWTBearer; GrantJWTDPoP] g.
Definition CodeChallengeMethod_Valid (m : CodeChallengeMethod) : bool := m =? CodeChallengeMethodS256.

Definition DefaultTenantID : string := "00000000-0000-4000-8000-000000000000".

(** ** The grant matrix ([grants.go]) *)

Record GrantSpecEntry := {
  AllowedClientTypes : list ClientType;
  RequiresPKCE : bool;
  ResponseTypes : list ResponseType;
  GrantIssuesList : list string;
}.

Definition grantSpec : gmap GrantType GrantSpecEntry := list_to_map [
  (GrantAuthorizationCode,
    {| AllowedClientTypes := [ClientPublic; ClientConfidential]; RequiresPKCE := true;
       ResponseTypes := [ResponseTypeCode];
       GrantIssuesList := ["access_token"; "refresh_token"; "id_token"] |});
  (GrantRefreshToken,
    {| AllowedClientTypes := [ClientPublic; ClientConfidential]; RequiresPKCE := false;
       ResponseTypes := []; GrantIssuesList := ["access_token"; "refresh_token"] |});
  (GrantClientCredentials,
    {| AllowedClientTypes := [ClientConfidential]; RequiresPKCE := false;
       ResponseTypes := []; GrantIssuesList := ["access_token"] |});
  (GrantDeviceCode,
    {| AllowedClientTypes := [ClientPublic; ClientConfidential]; RequiresPKCE := false;
       ResponseTypes := []; GrantIssuesList := ["access_token"; "refresh_token"; "id_token"] |});
  (GrantCiba,
    {| AllowedClientTypes := [ClientConfidential]; RequiresPKCE := false;
       ResponseTypes := []; GrantIssuesList := ["access_token"; "id_token"] |}) ].

Definition GrantAllowsClientType (g : GrantType) (ct : ClientType) : bool :=
  match (grantSpec !! g : option GrantSpecEntry) with
  | Some s => contains (AllowedClientTypes s) ct
  | None => false
  end.

Definition GrantRequiresPKCE (g : GrantType) : bool :=
  match (grantSpec !! g : option GrantSpecEntry) with Some s => RequiresPKCE s | None => false end.

Definition GrantIssues (g : GrantType) (what : string) : bool :=
  match (grantSpec !! g : option GrantSpecEntry) with
  | Some s => contains (GrantIssuesList s) what
  | None => false
  end.

(** ** Requests *)

Record AuthZSubjectProps := {
  sp_ClientType : ClientType;
  sp_GrantTypes : list GrantType;
  sp_Scopes : list string;
  sp_RedirectURIs : list string;
  sp_RequirePAR : bool;
  sp_Fapi2SecurityProfile : bool;
  sp_Authenticated : bool;
  sp_Roles : list string;
  sp_TenantID : string;
  sp_DisabledAt : option Time;
}.

Record AuthZSubject := {
  subject_Type : string;
  subject_ID : string;
  subject_Properties : AuthZSubjectProps;
}.

Record AuthZSenderConstraint := { sc_Type : SenderConstraintType }.

Record AuthZResourceProps := {
  rp_IssuedToClientID : string;
  rp_RedirectURI : string;
  rp_CodeChallenge : string;
  rp_CodeChallengeMethod : string;
  rp_IssuedAt : Time;
  rp_ExpiresAt : Time;
  rp_Redeemed : bool;
  rp_Revoked : bool;
  rp_Rotated : bool;
  rp_AbsoluteExpiresAt : Time;
  rp_SenderConstraint : option AuthZSenderConstraint;
  rp_Scopes : list string;
  rp_Approved : bool;
  rp_TenantID : string;
}.

Record AuthZResource := {
  resource_Type : string;
  resource_ID : string;
  resource_Properties : AuthZResourceProps;
}.

Record AuthZActor := { actor_Type : string; actor_ID : string; actor_Active : bool }.

Record AuthZRelationshipFacts := {
  Evaluated : bool;
  SubjectPermitted : bool;
  ActorChainPermitted : bool;
  facts_ModelVersion : Z;
  facts_RelationPath : list string;
  DenyReasons : list string;
}.

Record AuthZProofOfPossession := { pop_Valid : bool; JKT : string; X5TS256 : string }.

Record AuthZContext := {
  ctx_CodeVerifier : string;
  ctx_RedirectURI : string;
  ProofOfPossession : option AuthZProofOfPossession;
  ParUsed : bool;
  ctx_Authenticated : bool;
  ctx_Now : Time;
  ctx_ActorUserID : string;
  ctx_SubjectUserID : string;
  ctx_Audience : string;
  DelegationDepth : Z;
  ActorChain : list AuthZActor;
  Relationship : option AuthZRelationshipFacts;
}.

Record AuthZRequest := {
  req_Subject : AuthZSubject;
  req_Action : string;
  req_Resource : AuthZResource;
  req_Context : AuthZContext;
}.

Record AuthZResponse := { Permit : bool; resp_Reasons : list string }.

#[export] Instance AuthZResponse_eq_dec : EqDecision AuthZResponse.
Proof. solve_decision. Defined.

(** The zero values of the composite types, as Go's literals leave them. *)
Definition zero_SubjectProps : AuthZSubjectProps :=
  {| sp_ClientType := ""; sp_GrantTypes := []; sp_Scopes := []; sp_RedirectURIs := [];
     sp_RequirePAR := false; sp_Fapi2SecurityProfile := false; sp_Authenticated := false;
     sp_Roles := []; sp_TenantID := ""; sp_DisabledAt := None |}.
Definition zero_ResourceProps : AuthZResourceProps :=
  {| rp_IssuedToClientID := ""; rp_RedirectURI := ""; rp_CodeChallenge := "";
     rp_CodeChallengeMethod := ""; rp_IssuedAt := 0%Z; rp_ExpiresAt := 0%Z; rp_Redeemed := false;
     rp_Revoked := false; rp_Rotated := false; rp_AbsoluteExpiresAt := 0%Z;
     rp_SenderConstraint := None; rp_Scopes := []; rp_Approved := false; rp_TenantID := "" |}.
Definition zero_Context : AuthZContext :=
  {| ctx_CodeVerifier := ""; ctx_RedirectURI := ""; ProofOfPossession := None; ParUsed := false;
     ctx_Authenticated := false; ctx_Now := 0%Z; ctx_ActorUserID := ""; ctx_SubjectUserID := "";
     ctx_Audience := ""; DelegationDepth := 0%Z; ActorChain := []; Relationship := None |}.

(** ** Actions *)

Definition ActionTokenGrantAuthorizationCode : string := "token:grant_authorization_code".
Definition ActionTokenGrantRefresh : string := "token:grant_refresh".
Definition ActionTokenGrantClientCredentials : string := "token:grant_client_credentials".
Definition ActionTokenGrantDeviceCode : string := "token:grant_device_code".
Definition ActionTokenGrantTokenExchange : string := "token:grant_token_exchange".
Definition ActionTokenIntrospect : string := "token:introspect".
Definition ActionTokenRevoke : string := "token:revoke".
Definition ActionUserInfoRead : string := "userinfo:read".
Definition ActionAuthorizeInitiate : string := "authorize:initiate".
Definition ActionAdminUserRead : string := "admin:user_read".
Definition ActionAdminUserCreate : string := "admin:user_create".
Definition ActionAdminUserImport : string := "admin:user_import".
Definition ActionAdminUserUpdate : string := "admin:user_update".
Definition ActionAdminUserDelete : string := "admin:user_delete".
Definition ActionAdminUserRestore : string := "admin:user_restore".
Definition ActionAdminUserPurge : string := "admin:user_purge".
Definition ActionAdminOAuth2ClientsManage : string := "admin:clients_manage".
Definition ActionAdminConsentsManage : string := "admin:consents_manage".
Definition ActionAdminTenantsManage : string := "admin:tenants_manage".
Definition ActionAdminSettingsRead : string := "admin:settings_read".
Definition ActionAdminSettingsUpdate : string := "admin:settings_update".
Definition ActionAdminAuditEventsRead : string := "admin:audit_events_read".
Definition ActionAdminKeysRead : string := "admin:keys_read".
Definition ActionTenantKeysRotate : string := "admin:keys_rotate".
Definition ActionTenantKeysDisable : string := "admin:keys_disable".
Definition ActionSystemKeyHealthRead : string := "admin:keys_health_read".
Definition ActionAdminGroupsRead : string := "admin:groups_read".
Definition ActionAdminGroupsWrite : string := "admin:groups_write".
Definition ActionAdminAgentsManage : string := "admin:agents_manage".
Definition ActionAdminAuthorizationDetailTypesManage : string := "admin:authorization_detail_types_manage".
Definition ActionAdminApplicationsManage : string := "admin:applications_manage".
Definition ActionAdminApplicationAssignmentsManage : string := "admin:application_assignments_manage".
Definition ActionAdminApplicationPoliciesManage : string := "admin:application_policies_manage".
Definition ActionAdminTenantDefaultSignInPolicyManage : string := "admin:tenant_default_sign_in_policy_manage".
Definition ActionAdminApplicationCategoriesManage : string := "admin:application_categories_manage".
Definition ActionAdminFederationTrustsManage : string := "admin:federation_trusts_manage".
Definition ActionMyApplicationsRead : string := "account:applications_read".
Definition ActionScimProvision : string := "scim:provision".
Definition ActionManageScimSettings : string := "admin:scim_settings_manage".
Definition ActionAdminBrandingUpdate : string := "admin:branding_update".
Definition ActionAdminAuthorizationModelManage : string := "admin:authorization_model_manage".
Definition ActionResourceAccess : string := "resource:access".

Definition actionNameMapping : gmap string string := list_to_map [
  ("TokenGrantAuthorizationCode", ActionTokenGrantAuthorizationCode);
  ("TokenGrantRefresh", ActionTokenGrantRefresh);
  ("TokenGrantClientCredentials", ActionTokenGrantClientCredentials);
  ("TokenGrantDeviceCode", ActionTokenGrantDeviceCode);
  ("TokenGrantTokenExchange", ActionTokenGrantTokenExchange);
  ("TokenIntrospect", ActionTokenIntrospect);
  ("TokenRevoke", ActionTokenRevoke);
  ("UserInfoRead", ActionUserInfoRead);
  ("AuthorizeInitiate", ActionAuthorizeInitiate);
  ("AdminUserRead", ActionAdminUserRead);
  ("AdminUserCreate", ActionAdminUserCreate);
  ("AdminUserImport", ActionAdminUserImport);
  ("AdminUserUpdate", ActionAdminUserUpdate);
  ("AdminUserDelete", ActionAdminUserDelete);
  ("AdminUserRestore", ActionAdminUserRestore);
  ("AdminUserPurge", ActionAdminUserPurge);
  ("AdminOAuth2ClientsManage", ActionAdminOAuth2ClientsManage);
  ("AdminConsentsManage", ActionAdminConsentsManage);
  ("AdminTenantsManage", ActionAdminTenantsManage);
  ("AdminSettingsRead", ActionAdminSettingsRead);
  ("AdminSettingsUpdate", ActionAdminSettingsUpdate);
  ("AdminAuditEventsRead", ActionAdminAuditEventsRead);
  ("AdminKeysRead", ActionAdminKeysRead);
  ("TenantKeysRotate", ActionTenantKeysRotate);
  ("TenantKeysDisable", ActionTenantKeysDisable);
  ("SystemKeyHealthRead", ActionSystemKeyHealthRead);
  ("AdminGroupsRead", ActionAdminGroupsRead);
  ("AdminGroupsWrite", ActionAdminGroupsWrite);
  ("AdminAgentsManage", ActionAdminAgentsManage);
  ("AdminAuthorizationDetailTypesManage", ActionAdminAuthorizationDetailTypesManage);
  ("AdminApplicationsManage", ActionAdminApplicationsManage);
  ("AdminApplicationAssignmentsManage", ActionAdminApplicationAssignmentsManage);
  ("AdminApplicationPoliciesManage", ActionAdminApplicationPoliciesManage);
  ("AdminTenantDefaultSignInPolicyManage", ActionAdminTenantDefaultSignInPolicyManage);
  ("AdminApplicationCategoriesManage", ActionAdminApplicationCategoriesManage);
  ("AdminFederationTrustsManage", ActionAdminFederationTrustsManage);
  ("MyApplicationsRead", ActionMyApplicationsRead);
  ("ScimProvision", ActionScimProvision);
  ("ManageScimSettings", ActionManageScimSettings);
  ("BrandingUpdate", ActionAdminBrandingUpdate);
  ("AdminAuthorizationModelManage", ActionAdminAuthorizationModelManage) ].

Definition ActionNameForCapability (capabilityName : string) : option string :=
  actionNameMapping !! capabilityName.

Definition actionRules : gmap string (list string) := list_to_map [
  (ActionTokenGrantAuthorizationCode,
    ["client_must_declare_grant"; "pkce_verification_passed"; "redirect_uri_exact_match";
     "code_not_redeemed"; "code_not_expired"]);
  (ActionTokenGrantRefresh,
    ["client_must_declare_grant"; "token_active"; "token_within_absolute_ttl";
     "sender_constraint_satisfied"]);
  (ActionTokenGrantClientCredentials, ["client_is_confidential"; "client_must_declare_grant"]);
  (ActionTokenGrantDeviceCode, ["device_code_approved"; "device_code_not_expired"]);
  (ActionTokenGrantTokenExchange,
    ["client_must_declare_grant"; "scope_subset_of_client_scope";
     "token_exchange_resource_present"]);
  (ActionTokenIntrospect, ["caller_is_authenticated_client"]);
  (ActionTokenRevoke, ["caller_owns_token"]);
  (ActionUserInfoRead, ["token_has_openid_scope"; "token_active"]);
  (ActionAuthorizeInitiate,
    ["client_registered"; "redirect_uri_registered"; "scope_subset_of_client_scope";
     "pkce_present"; "par_required_if_fapi"]);
  (ActionAdminUserRead, ["actor_is_admin"; "actor_is_active"; "actor_is_authenticated"]);
  (ActionAdminUserCreate, ["actor_is_admin"; "actor_is_active"; "actor_is_authenticated"]);
  (ActionAdminUserImport,
    ["actor_is_admin"; "actor_is_active"; "actor_is_authenticated";
     "actor_and_resource_share_tenant"]);
  (ActionAdminUserUpdate, ["actor_is_admin"; "actor_is_active"; "actor_is_authenticated"]);
  (ActionAdminUserDelete,
    ["actor_is_admin"; "actor_is_active"; "actor_is_authenticated";
     "actor_and_resource_share_tenant"]);
  (ActionAdminUserRestore,
    ["actor_is_admin"; "actor_is_active"; "actor_is_authenticated";
     "actor_and_resource_share_tenant"]);
  (ActionAdminUserPurge,
    ["actor_is_admin"; "actor_is_active"; "actor_is_authenticated";
     "actor_and_resource_share_tenant"]);
  (ActionAdminOAuth2ClientsManage,
    ["actor_is_admin"; "actor_is_active"; "actor_is_authenticated";
     "actor_and_resource_share_tenant"]);
  (ActionAdminConsentsManage,
    ["actor_is_admin"; "actor_is_active"; "actor_is_authenticated";
     "actor_and_resource_share_tenant"]);
  (ActionAdminTenantsManage,
    ["actor_is_system_admin"; "actor_is_control_plane_user"; "actor_is_active";
     "actor_is_authenticated"]);
  (ActionAdminSettingsRead,
    ["actor_is_admin_or_system_admin"; "actor_is_active"; "actor_is_authenticated";
     "actor_and_resource_share_tenant"]);
  (ActionAdminSettingsUpdate,
    ["actor_is_admin_or_system_admin"; "actor_is_active"; "actor_is_authenticated";
     "actor_and_resource_share_tenant"]);
  (ActionAdminAuditEventsRead,
    ["actor_is_admin_or_system_admin"; "actor_is_active"; "actor_is_authenticated"]);
  (ActionAdminKeysRead,
    ["actor_is_admin_or_system_admin"; "actor_is_active"; "actor_is_authenticated"]);
  (ActionTenantKeysRotate,
    ["actor_is_admin_or_system_admin"; "actor_is_active"; "actor_is_authenticated"]);
  (ActionTenantKeysDisable,
    ["actor_is_admin_or_system_admin"; "actor_is_active"; "actor_is_authenticated"]);
  (ActionSystemKeyHealthRead,
    ["actor_is_system_admin"; "actor_is_active"; "actor_is_authenticated"]);
  (ActionAdminGroupsRead,
    ["actor_is_admin"; "actor_is_active"; "actor_is_authenticated";
     "actor_and_resource_share_tenant"]);
  (ActionAdminGroupsWrite,
    ["actor_is_admin"; "actor_is_active"; "actor_is_authenticated";
     "actor_and_resource_share_tenant"]);
  (ActionAdminAgentsManage,
    ["actor_is_admin"; "actor_is_active"; "actor_is_authenticated";
     "actor_and_resource_share_tenant"]);
  (ActionAdminAuthorizationDetailTypesManage,
    ["actor_is_admin"; "actor_is_active"; "actor_is_authenticated";
     "actor_and_resource_share_tenant"]);
  (ActionAdminApplicationsManage,
    ["actor_is_admin"; "actor_is_active"; "actor_is_authenticated";
     "actor_and_resource_share_tenant"]);
  (ActionAdminApplicationAssignmentsManage,
    ["actor_is_admin"; "actor_is_active"; "actor_is_authenticated";
     "actor_and_resource_share_tenant"]);
  (ActionAdminApplicationPoliciesManage,
    ["actor_is_admin"; "actor_is_active"; "actor_is_authenticated";
     "actor_and_resource_share_tenant"]);
  (ActionAdminTenantDefaultSignInPolicyManage,
    ["actor_is_admin"; "actor_is_active"; "actor_is_authenticated";
     "actor_and_resource_share_tenant"]);
  (ActionAdminApplicationCategoriesManage,
    ["actor_is_admin"; "actor_is_active"; "actor_is_authenticated";
     "actor_and_resource_share_tenant"]);
  (ActionAdminFederationTrustsManage,
    ["actor_is_admin"; "actor_is_active"; "actor_is_authenticated";
     "actor_and_resource_share_tenant"]);
  (ActionMyApplicationsRead, ["actor_is_authenticated"; "actor_and_resource_share_tenant"]);
  (ActionScimProvision, []);
  (ActionManageScimSettings,
    ["actor_is_admin"; "actor_is_active"; "actor_is_authenticated";
     "actor_and_resource_share_tenant"]);
  (ActionAdminBrandingUpdate,
    ["actor_is_admin_or_system_admin"; "actor_is_active"; "actor_is_authenticated";
     "actor_and_resource_share_tenant"]);
  (ActionAdminAuthorizationModelManage,
    ["actor_is_admin"; "actor_is_active"; "actor_is_authenticated";
     "actor_and_resource_share_tenant"]);
  (ActionResourceAccess,
    ["relationship_facts_present"; "relationship_permits_subject"; "relationship_permits_actor_chain"; "actor_chain_principals_active";
     "scope_subset_of_client_scope"; "actor_and_resource_share_tenant"]) ].

Definition RulesForAction (action : string) : option (list string) := actionRules !! action.

(** ** The rules *)

Definition grantFromAction (a : string) : GrantType :=
  if a =? ActionTokenGrantAuthorizationCode then GrantAuthorizationCode
  else if a =? ActionTokenGrantRefresh then GrantRefreshToken
  else if a =? ActionTokenGrantClientCredentials then GrantClientCredentials
  else if a =? ActionTokenGrantDeviceCode then GrantDeviceCode
  else if a =? ActionTokenGrantTokenExchange then GrantTokenExchange
  else "".

Section evaluate.
(** [time.Now()] at the moment of the evaluation. *)
Context (wallclock : Time).

Definition isExpired (expiresAt now : Time) : bool :=
  if IsZero expiresAt then false
  else
    let now := if IsZero now then wallclock else now in
    negb (Before now expiresAt).

Definition is_user (r : AuthZRequest) : bool := subject_Type (req_Subject r) =? "User".

Definition relationship_is (p : AuthZRelationshipFacts -> bool) (r : AuthZRequest) : bool :=
  match Relationship (req_Context r) with Some f => p f | None => false end.

Definition ruleEvaluators : gmap string (AuthZRequest -> bool) := list_to_map [
  ("client_must_declare_grant", fun r =>
    let g := grantFromAction (req_Action r) in
    (g <>? "") && contains (sp_GrantTypes (subject_Properties (req_Subject r))) g);
  ("pkce_verification_passed", fun r =>
    (ctx_CodeVerifier (req_Context r) <>? "") &&
    (rp_CodeChallenge (resource_Properties (req_Resource r)) <>? ""));
  ("redirect_uri_exact_match", fun r =>
    (ctx_RedirectURI (req_Context r) <>? "") &&
    (rp_RedirectURI (resource_Properties (req_Resource r)) <>? "") &&
    (ctx_RedirectURI (req_Context r) =? rp_RedirectURI (resource_Properties (req_Resource r))));
  ("redirect_uri_registered", fun r =>
    contains (sp_RedirectURIs (subject_Properties (req_Subject r))) (ctx_RedirectURI (req_Context r)));
  ("code_not_redeemed", fun r => negb (rp_Redeemed (resource_Properties (req_Resource r))));
  ("code_not_expired", fun r =>
    negb (isExpired (rp_ExpiresAt (resource_Properties (req_Resource r))) (ctx_Now (req_Context r))));
  ("token_active", fun r =>
    negb (rp_Revoked (resource_Properties (req_Resource r))) &&
    negb (rp_Rotated (resource_Properties (req_Resource r))));
  ("token_within_absolute_ttl", fun r =>
    negb (isExpired (rp_AbsoluteExpiresAt (resource_Properties (req_Resource r))) (ctx_Now (req_Context r))));
  ("sender_constraint_satisfied", fun r =>
    match rp_SenderConstraint (resource_Properties (req_Resource r)) with
    | None => true
    | Some _ => match ProofOfPossession (req_Context r) with Some p => pop_Valid p | None => false end
    end);
  ("client_is_confidential", fun r =>
    sp_ClientType (subject_Properties (req_Subject r)) =? ClientConfidential);
  ("device_code_approved", fun r => rp_Approved (resource_Properties (req_Resource r)));
  ("device_code_not_expired", fun r =>
    negb (isExpired (rp_ExpiresAt (resource_Properties (req_Resource r))) (ctx_Now (req_Context r))));
  ("caller_is_authenticated_client", fun r =>
    (subject_Type (req_Subject r) =? "Client") && sp_Authenticated (subject_Properties (req_Subject r)));
  ("caller_owns_token", fun r =>
    subject_ID (req_Subject r) =? rp_IssuedToClientID (resource_Properties (req_Resource r)));
  ("token_has_openid_scope", fun r =>
    contains (rp_Scopes (resource_Properties (req_Resource r))) "openid");
  ("client_registered", fun r =>
    (subject_Type (req_Subject r) =? "Client") && (subject_ID (req_Subject r) <>? ""));
  ("scope_subset_of_client_scope", fun r =>
    forallb (contains (sp_Scopes (subject_Properties (req_Subject r))))
      (rp_Scopes (resource_Properties (req_Resource r))));
  ("token_exchange_resource_present", fun r =>
    (req_Action r =? ActionTokenGrantTokenExchange) && (resource_ID (req_Resource r) <>? "") &&
    (ctx_Audience (req_Context r) =? resource_ID (req_Resource r)));
  ("pkce_present", fun r => rp_CodeChallenge (resource_Properties (req_Resource r)) <>? "");
  ("par_required_if_fapi", fun r =>
    let required := sp_RequirePAR (subject_Properties (req_Subject r)) ||
                    sp_Fapi2SecurityProfile (subject_Properties (req_Subject r)) in
    negb required || ParUsed (req_Context r));
  ("actor_is_admin", fun r =>
    is_user r && contains (sp_Roles (subject_Properties (req_Subject r))) "admin");
  ("actor_is_system_admin", fun r =>
    is_user r && contains (sp_Roles (subject_Properties (req_Subject r))) "system_admin");
  ("actor_is_control_plane_user", fun r =>
    is_user r && (sp_TenantID (subject_Properties (req_Subject r)) =? DefaultTenantID));
  ("actor_is_active", fun r =>
    is_user r && (sp_DisabledAt (subject_Properties (req_Subject r)) =? None));
  ("actor_is_authenticated", fun r => is_user r && ctx_Authenticated (req_Context r));
  ("actor_and_resource_share_tenant", fun r =>
    is_user r && (sp_TenantID (subject_Properties (req_Subject r)) <>? "") &&
    (sp_TenantID (subject_Properties (req_Subject r)) =? rp_TenantID (resource_Properties (req_Resource r))));
  ("relationship_facts_present", relationship_is Evaluated);
  ("relationship_permits_subject", relationship_is SubjectPermitted);
  ("relationship_permits_actor_chain", relationship_is ActorChainPermitted);
  ("actor_chain_principals_active", fun r => forallb actor_Active (ActorChain (req_Context r)));
  ("actor_is_admin_or_system_admin", fun r =>
    if negb (is_user r) then false
    else contains (sp_Roles (subject_Properties (req_Subject r))) "admin" ||
         contains (sp_Roles (subject_Properties (req_Subject r))) "system_admin") ].

(** One iteration of the loop of [Evaluate]: the reasons a rule adds. *)
Definition rule_failure (req : AuthZRequest) (ruleID : string) : list string :=
  match (ruleEvaluators !! ruleID : option (AuthZRequest -> bool)) with
  | None => ["unimplemented rule: " ++ ruleID]
  | Some ev => if ev req then [] else [ruleID]
  end.

Definition Evaluate (req : AuthZRequest) : AuthZResponse :=
  match (actionRules !! req_Action req : option (list string)) with
  | None => {| Permit := false; resp_Reasons := ["undefined action: " ++ req_Action req] |}
  | Some rules =>
      let failed := flat_map (rule_failure req) rules in
      if (0 <? Z.of_nat (length failed))%go then {| Permit := false; resp_Reasons := failed |}
      else {| Permit := true; resp_Reasons := [] |}
  end.

End evaluate.

(** ** The tables *)

(** A decidable fact of every entry of a table. *)
Lemma table_forall {A} (f : string -> A -> bool) (m : gmap string A) k v :
  forallb (fun p => f p.1 p.2) (map_to_list m) = true -> m !! k = Some v -> f k v = true.
Proof.
  rewrite forallb_forall. intros H Hk%elem_of_map_to_list. apply (H (k, v)).
  by apply list_elem_of_In.
Qed.

(** Every rule that an action names has an implementation, so the branch
    "unimplemented rule" of [Evaluate] is dead. *)
Lemma action_rules_implemented w action rules ruleID :
  actionRules !! action = Some rules -> ruleID ∈ rules ->
  is_Some (ruleEvaluators w !! ruleID).
Proof.
  intros Ha Hin. apply is_some_true.
  assert (Hall : forallb (fun id => is_some (ruleEvaluators w !! id)) rules = true).
  { apply (table_forall (fun _ rs => forallb (fun id => is_some (ruleEvaluators w !! id)) rs)
             actionRules action rules); [|done]. vm_compute. reflexivity. }
  rewrite forallb_forall in Hall. by apply Hall, list_elem_of_In.
Qed.

Lemma flat_map_nil {A B} (f : A -> list B) l :
  flat_map f l = [] <-> Forall (fun x => f x = []) l.
Proof.
  induction l as [|x l IH]; simpl; [by split|].
  rewrite Forall_cons, <- IH. split; [intros H; by apply app_eq_nil in H|]. by intros [-> ->].
Qed.

(** The truth value of a rule, false for a name that is not implemented. *)
Definition rule_holds (w : Time) (req : AuthZRequest) (ruleID : string) : bool :=
  match (ruleEvaluators w !! ruleID : option (AuthZRequest -> bool)) with
  | Some ev => ev req
  | None => false
  end.

Lemma rule_failure_nil w req ruleID : rule_failure w req ruleID = [] <-> rule_holds w req ruleID = true.
Proof.
  unfold rule_failure, rule_holds.
  destruct (ruleEvaluators w !! ruleID : option (AuthZRequest -> bool)) as [ev|]; [|done]. by destruct (ev req).
Qed.

(** [Evaluate] on a defined action is the conjunction of its rules. *)
Lemma Evaluate_rules w req rules :
  actionRules !! req_Action req = Some rules ->
  Permit (Evaluate w req) = forallb (rule_holds w req) rules.
Proof.
  intros Hr. unfold Evaluate. rewrite Hr.
  destruct (forallb (rule_holds w req) rules) eqn:Hf.
  - rewrite (proj2 (flat_map_nil _ _)); [done|]. apply Forall_forall. intros id Hid.
    rewrite forallb_forall in Hf. by apply rule_failure_nil, Hf, list_elem_of_In.
  - destruct (flat_map _ rules) as [|id failed] eqn:Hm.
    + apply flat_map_nil in Hm. rewrite Forall_forall in Hm.
      assert (forallb (rule_holds w req) rules = true) as Ht; [|congruence].
      apply forallb_forall. intros id Hid. by apply rule_failure_nil, Hm, list_elem_of_In.
    + done.
Qed.

Lemma Evaluate_undefined w req :
  actionRules !! req_Action req = None -> Permit (Evaluate w req) = false.
Proof. intros Hr. unfold Evaluate. by rewrite Hr. Qed.

(** [Evaluate] permits exactly when the action is in the table and every rule
    the table lists for it is implemented and holds; it gives no reason
    exactly then, so a denial is never silent and a permit never carries
    denial reasons. *)
Theorem Evaluate_permit_iff w req :
  (Permit (Evaluate w req) = true <->
   exists rules, actionRules !! req_Action req = Some rules /\
     forall ruleID, ruleID ∈ rules ->
       exists ev, ruleEvaluators w !! ruleID = Some ev /\ ev req = true) /\
  (Permit (Evaluate w req) = true <-> resp_Reasons (Evaluate w req) = []).
Proof.
  destruct (actionRules !! req_Action req) as [rules|] eqn:Hr.
  2:{ unfold Evaluate. rewrite Hr. clear Hr. simpl. naive_solver. }
  split.
  - rewrite (Evaluate_rules w req rules Hr), forallb_forall. clear Hr. split.
    + intros Hall. exists rules. split; [reflexivity|]. intros id Hid.
      specialize (Hall id (proj1 (list_elem_of_In _ _) Hid)). unfold rule_holds in Hall.
      destruct (ruleEvaluators w !! id) as [ev|]; [by exists ev|done].
    + intros (rules' & [= <-] & Hall) id Hid. destruct (Hall id) as (ev & Hev & He);
        [by apply list_elem_of_In|]. unfold rule_holds. rewrite Hev. exact He.
  - unfold Evaluate. rewrite Hr. clear Hr. destruct (flat_map _ rules); simpl; naive_solver.
Qed.

(** The guard that every administrative action has. *)
Definition guarded_rules (action : string) (rules : list string) : bool :=
  negb (HasPrefix action "admin:") ||
  (contains rules "actor_is_active" && contains rules "actor_is_authenticated" &&
   (contains rules "actor_is_admin" || contains rules "actor_is_system_admin" ||
    contains rules "actor_is_admin_or_system_admin")).

Lemma actions_guarded action rules : actionRules !! action = Some rules -> guarded_rules action rules = true.
Proof. apply table_forall. vm_compute. reflexivity. Qed.

Lemma rule_holds_true w req rules ruleID :
  forallb (rule_holds w req) rules = true -> contains rules ruleID = true -> rule_holds w req ruleID = true.
Proof. rewrite forallb_forall, contains_true. intros H Hin. by apply H, list_elem_of_In. Qed.

(** No administrative action is ever permitted to anyone but an enabled,
    authenticated user with an administrator role: whatever the other rules of
    the action, a permit of an action named "admin:..." has these three. *)
Theorem admin_actions_guarded w req :
  HasPrefix (req_Action req) "admin:" = true -> Permit (Evaluate w req) = true ->
  subject_Type (req_Subject req) = "User" /\
  sp_DisabledAt (subject_Properties (req_Subject req)) = None /\
  ctx_Authenticated (req_Context req) = true /\
  ("admin" ∈ sp_Roles (subject_Properties (req_Subject req)) \/
   "system_admin" ∈ sp_Roles (subject_Properties (req_Subject req))).
Proof.
  intros Hp Hev. destruct (actionRules !! req_Action req) as [rules|] eqn:Hr;
    [|rewrite (Evaluate_undefined w req Hr) in Hev; clear Hr; done].
  rewrite (Evaluate_rules w req rules Hr) in Hev. apply actions_guarded in Hr. unfold guarded_rules in Hr.
  rewrite Hp in Hr. simpl in Hr. rewrite !andb_true_iff, !orb_true_iff in Hr.
  destruct Hr as [[Hac Hau] Hroles].
  pose proof (rule_holds_true _ _ _ _ Hev Hac) as Hac'.
  pose proof (rule_holds_true _ _ _ _ Hev Hau) as Hau'.
  unfold rule_holds in Hac', Hau'.
  change ((is_user req && (sp_DisabledAt (subject_Properties (req_Subject req)) =? None)) = true) in Hac'.
  change ((is_user req && ctx_Authenticated (req_Context req)) = true) in Hau'.
  unfold is_user in *. go_bool. destruct Hac', Hau'. split_and!; [done..|].
  destruct Hroles as [[Hr|Hr]|Hr];
    apply contains_true, (rule_holds_true _ _ _ _ Hev) in Hr; unfold rule_holds in Hr.
  - change ((is_user req && contains (sp_Roles (subject_Properties (req_Subject req))) "admin") = true) in Hr.
    go_bool. tauto.
  - change ((is_user req && contains (sp_Roles (subject_Properties (req_Subject req))) "system_admin") = true) in Hr.
    go_bool. tauto.
  - change ((if negb (is_user req) then false
             else contains (sp_Roles (subject_Properties (req_Subject req))) "admin" ||
                  contains (sp_Roles (subject_Properties (req_Subject req))) "system_admin") = true) in Hr.
    destruct (negb _); [done|]. go_bool. tauto.
Qed.

(** The capabilities of the administration console name actions that exist,
    and no two of them the same one. *)
Theorem capability_actions_defined c1 c2 a :
  ActionNameForCapability c1 = Some a ->
  is_Some (RulesForAction a) /\ (ActionNameForCapability c2 = Some a -> c1 = c2).
Proof.
  unfold ActionNameForCapability, RulesForAction. intros H1. split.
  - apply is_some_true. revert H1.
    apply (table_forall (fun _ b => is_some (actionRules !! b))). vm_compute. reflexivity.
  - intros H2. revert H1. apply elem_of_map_to_list in H2 as H2'. intros H1.
    assert (Hf : forallb (fun q => bool_decide (c1 = q.1) || negb (bool_decide (a = q.2)))
                   (map_to_list actionNameMapping) = true).
    { apply (table_forall (fun c b => forallb (fun q => bool_decide (c = q.1) || negb (bool_decide (b = q.2)))
               (map_to_list actionNameMapping)) actionNameMapping c1 a); [|done]. vm_compute. reflexivity. }
    rewrite forallb_forall in Hf. specialize (Hf (c2, a) (proj1 (list_elem_of_In _ _) H2')). simpl in Hf.
    go_bool. destruct Hf as [Hf|Hf]; [exact Hf|by destruct Hf].
Qed.

(** ** Actions *)

(** The rules of "resource:access", read off the tables. *)
Lemma Evaluate_resource_access w req :
  req_Action req = ActionResourceAccess ->
  (Permit (Evaluate w req) = true <->
   (exists f, Relationship (req_Context req) = Some f /\
      Evaluated f = true /\ SubjectPermitted f = true /\ ActorChainPermitted f = true) /\
   Forall (fun a => actor_Active a = true) (ActorChain (req_Context req)) /\
   (forall s, s ∈ rp_Scopes (resource_Properties (req_Resource req)) ->
      s ∈ sp_Scopes (subject_Properties (req_Subject req))) /\
   subject_Type (req_Subject req) = "User" /\
   sp_TenantID (subject_Properties (req_Subject req)) <> "" /\
   sp_TenantID (subject_Properties (req_Subject req)) = rp_TenantID (resource_Properties (req_Resource req))).
Proof.
  intros Ha.
  rewrite (Evaluate_rules w req ["relationship_facts_present"; "relationship_permits_subject";
    "relationship_permits_actor_chain"; "actor_chain_principals_active";
    "scope_subset_of_client_scope"; "actor_and_resource_share_tenant"])
    by (rewrite Ha; vm_compute; reflexivity).
  cbn [forallb].
  change (rule_holds w req "relationship_facts_present") with (relationship_is Evaluated req).
  change (rule_holds w req "relationship_permits_subject") with (relationship_is SubjectPermitted req).
  change (rule_holds w req "relationship_permits_actor_chain") with (relationship_is ActorChainPermitted req).
  change (rule_holds w req "actor_chain_principals_active") with (forallb actor_Active (ActorChain (req_Context req))).
  change (rule_holds w req "scope_subset_of_client_scope") with
    (forallb (contains (sp_Scopes (subject_Properties (req_Subject req))))
       (rp_Scopes (resource_Properties (req_Resource req)))).
  change (rule_holds w req "actor_and_resource_share_tenant") with
    (is_user req && (sp_TenantID (subject_Properties (req_Subject req)) <>? "") &&
     (sp_TenantID (subject_Properties (req_Subject req)) =? rp_TenantID (resource_Properties (req_Resource req)))).
  unfold relationship_is, is_user. go_bool. rewrite !forallb_forall.
  setoid_rewrite contains_true. setoid_rewrite <- list_elem_of_In. rewrite Forall_forall.
  destruct (Relationship (req_Context req)) as [f|]; naive_solver.
Qed.

(** The rules of "token:grant_refresh". *)
Lemma Evaluate_grant_refresh w req :
  req_Action req = ActionTokenGrantRefresh ->
  (Permit (Evaluate w req) = true <->
   GrantRefreshToken ∈ sp_GrantTypes (subject_Properties (req_Subject req)) /\
   rp_Revoked (resource_Properties (req_Resource req)) = false /\
   rp_Rotated (resource_Properties (req_Resource req)) = false /\
   isExpired w (rp_AbsoluteExpiresAt (resource_Properties (req_Resource req))) (ctx_Now (req_Context req)) = false /\
   (rp_SenderConstraint (resource_Properties (req_Resource req)) = None \/
    exists p, ProofOfPossession (req_Context req) = Some p /\ pop_Valid p = true)).
Proof.
  intros Ha.
  rewrite (Evaluate_rules w req ["client_must_declare_grant"; "token_active"; "token_within_absolute_ttl";
    "sender_constraint_satisfied"]) by (rewrite Ha; vm_compute; reflexivity).
  cbn [forallb].
  change (rule_holds w req "client_must_declare_grant") with
    ((grantFromAction (req_Action req) <>? "") &&
     contains (sp_GrantTypes (subject_Properties (req_Subject req))) (grantFromAction (req_Action req))).
  change (rule_holds w req "token_active") with
    (negb (rp_Revoked (resource_Properties (req_Resource req))) &&
     negb (rp_Rotated (resource_Properties (req_Resource req)))).
  change (rule_holds w req "token_within_absolute_ttl") with
    (negb (isExpired w (rp_AbsoluteExpiresAt (resource_Properties (req_Resource req))) (ctx_Now (req_Context req)))).
  change (rule_holds w req "sender_constraint_satisfied") with
    (match rp_SenderConstraint (resource_Properties (req_Resource req)) with
     | None => true
     | Some _ => match ProofOfPossession (req_Context req) with Some p => pop_Valid p | None => false end
     end).
  rewrite Ha. change (grantFromAction ActionTokenGrantRefresh) with GrantRefreshToken. go_bool.
  destruct (rp_SenderConstraint _); [|naive_solver].
  destruct (ProofOfPossession _); naive_solver.
Qed.

(** The rules of "token:grant_token_exchange". *)
Lemma Evaluate_grant_token_exchange w req :
  req_Action req = ActionTokenGrantTokenExchange ->
  (Permit (Evaluate w req) = true <->
   GrantTokenExchange ∈ sp_GrantTypes (subject_Properties (req_Subject req)) /\
   (forall sc, sc ∈ rp_Scopes (resource_Properties (req_Resource req)) -> sc ∈ sp_Scopes (subject_Properties (req_Subject req))) /\
   resource_ID (req_Resource req) <> "" /\ ctx_Audience (req_Context req) = resource_ID (req_Resource req)).
Proof.
  intros Ha.
  rewrite (Evaluate_rules w req ["client_must_declare_grant"; "scope_subset_of_client_scope"; "token_exchange_resource_present"])
    by (rewrite Ha; vm_compute; reflexivity).
  cbn [forallb].
  change (rule_holds w req "client_must_declare_grant") with
    ((grantFromAction (req_Action req) <>? "") &&
     contains (sp_GrantTypes (subject_Properties (req_Subject req))) (grantFromAction (req_Action req))).
  change (rule_holds w req "scope_subset_of_client_scope") with
    (forallb (contains (sp_Scopes (subject_Properties (req_Subject req)))) (rp_Scopes (resource_Properties (req_Resource req)))).
  change (rule_holds w req "token_exchange_resource_present") with
    ((req_Action req =? ActionTokenGrantTokenExchange) && (resource_ID (req_Resource req) <>? "") &&
     (ctx_Audience (req_Context req) =? resource_ID (req_Resource req))).
  rewrite Ha. change (grantFromAction ActionTokenGrantTokenExchange) with GrantTokenExchange. go_bool.
  rewrite forallb_forall. setoid_rewrite contains_true. setoid_rewrite <- list_elem_of_In. naive_solver.
Qed.

(** ** Witnesses *)

Definition admin_request (roles : list string) : AuthZRequest :=
  {| req_Subject := {| subject_Type := "User"; subject_ID := "u1"; subject_Properties :=
       {| sp_ClientType := ""; sp_GrantTypes := []; sp_Scopes := []; sp_RedirectURIs := [];
          sp_RequirePAR := false; sp_Fapi2SecurityProfile := false; sp_Authenticated := false;
          sp_Roles := roles; sp_TenantID := "acme"; sp_DisabledAt := None |} |};
     req_Action := ActionAdminUserRead;
     req_Resource := {| resource_Type := "User"; resource_ID := "u2";
                        resource_Properties := zero_ResourceProps |};
     req_Context := {| ctx_CodeVerifier := ""; ctx_RedirectURI := ""; ProofOfPossession := None;
       ParUsed := false; ctx_Authenticated := true; ctx_Now := 0%Z; ctx_ActorUserID := "";
       ctx_SubjectUserID := ""; ctx_Audience := ""; DelegationDepth := 0%Z; ActorChain := [];
       Relationship := None |} |}.

Lemma admin_actions_guarded_witness :
  Evaluate 0%Z (admin_request ["auditor"]) = {| Permit := false; resp_Reasons := ["actor_is_admin"] |} /\
  sp_DisabledAt (subject_Properties (req_Subject (admin_request ["admin"]))) = None.
Proof.
  split; [vm_compute; reflexivity|].
  apply (admin_actions_guarded 0%Z (admin_request ["admin"])); vm_compute; reflexivity.
Defined.

Lemma capability_actions_defined_witness :
  is_Some (RulesForAction ActionUserInfoRead).
Proof.
  apply (capability_actions_defined "UserInfoRead" "UserInfoRead" ActionUserInfoRead).
  vm_compute. reflexivity.
Defined.
