(* ===== verification/AccessUsecases.v ===== *)
(** * Access control: the use cases

    [backend/accesscontrol/internal/usecases]: [check_access.go],
    [check_relation.go], [admin_tuples.go], [admin_model.go] and [deps.go].
    The use cases are written against the classes of [AccessStore]; the
    authorizer and the resolver of principals are the functions a deployment
    passes in [Deps] (with nil as [None]).  A call returns its result and the
    events it hands to [emit], or an error; writes return the changed store.

    The theorems put the whole path together: what a permit means in terms of
    stored tuples, that every doubt ends in an error or a denial, that consistency
    tokens give read-your-writes, and that in every store that the
    administrative operations can build the answer of [CheckAccess] is the
    declarative one. *)

From Stdlib Require Import Ascii String ZArith Lia.
From stdpp Require Import base strings list gmap sorting.
From S2P Require Import Prelude GoStrings Crypto AccessModel AccessCheck AccessStore Policy.

Local Open Scope string_scope.
Local Open Scope go_scope.

(** ** Data *)

(** The errors of the use cases; [E] is the type of the errors of the store and
    of the authorizer. *)
Inductive usecase_error (E : Type) :=
| DomainError (e : access_error)
| ErrAuthorizerUnavailable (cause : option E)
| StoreError (e : E).
Arguments DomainError {E} e.
Arguments ErrAuthorizerUnavailable {E} cause.
Arguments StoreError {E} e.

(** An error of a port passed on. *)
Definition lift_store {E A} (r : result E A) : result (usecase_error E) A :=
  match r with Ok a => Ok a | Err e => Err (StoreError e) end.
Definition lift_domain {E A} (r : result access_error A) : result (usecase_error E) A :=
  match r with Ok a => Ok a | Err e => Err (DomainError e) end.

Lemma lift_store_Ok {E A} (r : result E A) a : lift_store r = Ok a <-> r = Ok a.
Proof. destruct r; simpl; split; congruence. Qed.
Lemma lift_domain_Ok {E A} (r : result access_error A) a :
  @lift_domain E A r = Ok a <-> r = Ok a.
Proof. destruct r; simpl; split; congruence. Qed.

Record Actor := { act_Type : string; act_ID : string }.

Record CheckAccessInput := {
  in_TenantID : string;
  in_Resource : ObjectRef;
  in_Relation : string;
  in_Subject : SubjectRef;
  in_ActorChain : list Actor;
  MinimumConsistency : string;
  GrantedScopes : list string;
  RequiredScopes : list string;
}.

Record CheckAccessResult := {
  res_Permitted : bool;
  res_ModelVersion : Z;
  res_Consistency : string;
  RelationPath : list string;
  res_Reasons : list string;
}.

Record ListAccessibleResourcesInput := {
  list_TenantID : string;
  list_ResourceType : string;
  list_Relation : string;
  list_Subject : SubjectRef;
  list_ActorChain : list Actor;
  list_MinimumConsistency : string;
  list_GrantedScopes : list string;
  list_RequiredScopes : list string;
}.

Record ListedResources := {
  ResourceIDs : list string;
  Truncated : bool;
  listed_ModelVersion : Z;
  listed_Consistency : string;
}.

Record TupleWriteOutcome := {
  out_WrittenCount : Z;
  out_DeletedCount : Z;
  out_Consistency : string;
}.

Record PublishedModel := { pub_Model : AuthorizationModel; pub_Consistency : string }.

Record RelationCheck := {
  rc_TenantID : string;
  rc_ResourceType : string;
  rc_ResourceID : string;
  rc_Relation : string;
  rc_Subject : Actor;
  rc_Actors : list Actor;
  rc_GrantedScopes : list string;
  rc_RequiredScopes : list string;
}.

Record RelationDecision := { rd_Permitted : bool; rd_Reasons : list string }.

(** The events of [domain/events.go]. *)
Inductive access_event :=
| AuthorizationModelPublished (at_ : Time) (tenantID modelID : string) (version resourceTypeCount : Z)
| RelationTupleWritten (at_ : Time) (tenantID : string) (writtenCount : Z) (consistency : string)
| RelationTupleDeleted (at_ : Time) (tenantID : string) (deletedCount : Z) (consistency : string)
| FgaCheckEvaluated (at_ : Time) (tenantID resourceType resourceIDDigest relation : string)
    (permitted : bool) (modelVersion : Z) (relationPath reasons : list string) (actorChainDepth : Z)
| FgaResourcesEnumerated (at_ : Time) (tenantID resourceType relation : string)
    (candidateCount permittedCount : Z) (truncated : bool) (modelVersion actorChainDepth : Z).

Definition DefaultMaxEnumeratedResources : Z := 500.
Definition reasonSubjectInactive : string := "subject_principal_inactive".
Definition reasonModelNotFound : string := "authorization_model_not_found".

(** [hex.EncodeToString(sha256.Sum256(...))[:16]]. *)
Definition ResourceIDDigest (tenantID : string) (resource : ObjectRef) : string :=
  String.substring 0 16 (hex_EncodeToString
    (Sum256 (bytes_of (tenantID ++ ":" ++ obj_Type resource ++ ":" ++ obj_ID resource)))).

Definition mergeReasons (base extra : list string) : list string :=
  fold_left (fun out reason => if contains out reason then out else (out ++ [reason])%list) extra base.

(** ** Dependencies *)

Section usecases.
Context {R M E : Type} `{RelationTupleRepository R E} `{AuthorizationModelRepository M E}.

Record Deps := {
  Tuples : R;
  Models : M;
  Principals : option (string -> string -> string -> result E bool);
  Authorizer : option (AuthZRequest -> result E AuthZResponse);
  deps_MaxDepth : Z;
  MaxEnumeratedResources : Z;
}.

(** No resolver, or one that fails, is "not active". *)
Definition resolvePrincipalActive (d : Deps) (tenantID principalType principalID : string) : bool :=
  match Principals d with
  | None => false
  | Some isPrincipalActive =>
      match isPrincipalActive tenantID principalType principalID with
      | Err _ => false
      | Ok active => active
      end
  end.

Definition loadModel (d : Deps) (tenantID : string) (version : Z) :
    result (usecase_error E) AuthorizationModel :=
  let? model := lift_store (if 0 <? version then FindByVersion (Models d) tenantID version
                            else Latest (Models d) tenantID) in
  match model with
  | None => Err (DomainError (Errorf ErrModelNotFound "%w for tenant" []))
  | Some m => Ok m
  end.

Definition modelForResource (d : Deps) (tenantID resourceType : string) :
    result (usecase_error E) AuthorizationModel :=
  if resourceType =? ResourceTypeMcpOperation then Ok (McpOperationModel tenantID)
  else loadModel d tenantID 0.

(** ** CheckAccess *)

Definition assertConsistency (d : Deps) (tenantID token : string) : result (usecase_error E) Z :=
  let? storeVersion := lift_store (TenantVersion (Tuples d) tenantID) in
  if token =? "" then Ok storeVersion
  else
    let? required := lift_domain (DecodeConsistencyToken token tenantID) in
    reject (storeVersion <? required) with
      DomainError (Errorf ErrConsistencyNotSatisfied "%w: store is at %d, %d required"
                     [FormatInt storeVersion; FormatInt required]) in
    Ok storeVersion.

Definition actor_subject (a : Actor) : SubjectRef :=
  {| sub_Type := act_Type a; sub_ID := act_ID a; sub_Relation := "" |}.

Definition model_check (d : Deps) (model : AuthorizationModel) (input : CheckAccessInput)
    (subject : SubjectRef) : result (usecase_error E) Decision :=
  lift_store (Check model (Tuples d) (in_TenantID input) subject (in_Resource input) (in_Relation input)
                {| MaxDepth := deps_MaxDepth d |}).

(** The loop of [relationshipFacts] over the actor chain. *)
Fixpoint actor_facts (d : Deps) (model : AuthorizationModel) (input : CheckAccessInput)
    (chain : list Actor) (facts : AuthZRelationshipFacts) (actors : list AuthZActor) :
    result (usecase_error E) (AuthZRelationshipFacts * list AuthZActor) :=
  match chain with
  | [] => Ok (facts, actors)
  | actor :: chain' =>
      let? decision := model_check d model input (actor_subject actor) in
      let facts :=
        if negb (Permitted decision) then
          {| Evaluated := Evaluated facts; SubjectPermitted := SubjectPermitted facts;
             ActorChainPermitted := false; facts_ModelVersion := facts_ModelVersion facts;
             facts_RelationPath := facts_RelationPath facts;
             DenyReasons := mergeReasons (DenyReasons facts) (Reasons decision) |}
        else facts in
      actor_facts d model input chain' facts
        (actors ++ [ {| actor_Type := act_Type actor; actor_ID := act_ID actor;
           actor_Active := resolvePrincipalActive d (in_TenantID input) (act_Type actor) (act_ID actor) |} ])%list
  end.

Definition relationshipFacts (d : Deps) (model : AuthorizationModel) (input : CheckAccessInput) :
    result (usecase_error E) (AuthZRelationshipFacts * list AuthZActor) :=
  let? subjectDecision := model_check d model input (in_Subject input) in
  actor_facts d model input (in_ActorChain input)
    {| Evaluated := true; SubjectPermitted := Permitted subjectDecision; ActorChainPermitted := true;
       facts_ModelVersion := Version model; facts_RelationPath := Path subjectDecision;
       DenyReasons := Reasons subjectDecision |} [].

(** The request that [checkAccess] sends to the authorizer. *)
Definition access_request (input : CheckAccessInput) (facts : AuthZRelationshipFacts)
    (actors : list AuthZActor) (now : Time) : AuthZRequest :=
  {| req_Subject := {| subject_Type := "User"; subject_ID := sub_ID (in_Subject input);
       subject_Properties :=
         {| sp_ClientType := ""; sp_GrantTypes := []; sp_Scopes := GrantedScopes input;
            sp_RedirectURIs := []; sp_RequirePAR := false; sp_Fapi2SecurityProfile := false;
            sp_Authenticated := false; sp_Roles := []; sp_TenantID := in_TenantID input;
            sp_DisabledAt := None |} |};
     req_Action := ActionResourceAccess;
     req_Resource := {| resource_Type := obj_Type (in_Resource input);
       resource_ID := obj_ID (in_Resource input);
       resource_Properties :=
         {| rp_IssuedToClientID := ""; rp_RedirectURI := ""; rp_CodeChallenge := "";
            rp_CodeChallengeMethod := ""; rp_IssuedAt := 0%Z; rp_ExpiresAt := 0%Z;
            rp_Redeemed := false; rp_Revoked := false; rp_Rotated := false;
            rp_AbsoluteExpiresAt := 0%Z; rp_SenderConstraint := None;
            rp_Scopes := RequiredScopes input; rp_Approved := false;
            rp_TenantID := in_TenantID input |} |};
     req_Context := {| ctx_CodeVerifier := ""; ctx_RedirectURI := ""; ProofOfPossession := None;
       ParUsed := false; ctx_Authenticated := false; ctx_Now := now; ctx_ActorUserID := "";
       ctx_SubjectUserID := ""; ctx_Audience := ""; DelegationDepth := 0%Z; ActorChain := actors;
       Relationship := Some facts |} |}.

(** [checkAccess]; with [audit] it emits one event. *)
Definition checkAccess (d : Deps) (input : CheckAccessInput) (now : Time) (audit : bool) :
    result (usecase_error E) (CheckAccessResult * list access_event) :=
  match Authorizer d with
  | None => Err (ErrAuthorizerUnavailable None)
  | Some authorize =>
      let? model := modelForResource d (in_TenantID input) (obj_Type (in_Resource input)) in
      let? storeVersion := assertConsistency d (in_TenantID input) (MinimumConsistency input) in
      let? p := relationshipFacts d model input in
      let '(facts, actors) := p in
      match authorize (access_request input facts actors now) with
      | Err e => Err (ErrAuthorizerUnavailable (Some e))
      | Ok response =>
          let result :=
            {| res_Permitted := Permit response; res_ModelVersion := Version model;
               res_Consistency := EncodeConsistencyToken (in_TenantID input) storeVersion;
               RelationPath := facts_RelationPath facts;
               res_Reasons := mergeReasons (resp_Reasons response) (DenyReasons facts) |} in
          Ok (result, if audit then
            [FgaCheckEvaluated now (in_TenantID input) (obj_Type (in_Resource input))
               (ResourceIDDigest (in_TenantID input) (in_Resource input)) (in_Relation input)
               (res_Permitted result) (Version model) (RelationPath result) (res_Reasons result)
               (Z.of_nat (length (in_ActorChain input)))] else [])
      end
  end.

Definition CheckAccess (d : Deps) (input : CheckAccessInput) (now : Time) :
    result (usecase_error E) (CheckAccessResult * list access_event) :=
  checkAccess d input now true.

(** ** CheckRelation *)

Definition is_model_not_found (e : usecase_error E) : bool :=
  match e with DomainError e => sentinel e =? ErrModelNotFound | _ => false end.

Definition relation_input (check : RelationCheck) : CheckAccessInput :=
  {| in_TenantID := rc_TenantID check;
     in_Resource := {| obj_Type := rc_ResourceType check; obj_ID := rc_ResourceID check |};
     in_Relation := rc_Relation check;
     in_Subject := actor_subject (rc_Subject check);
     in_ActorChain := rc_Actors check; MinimumConsistency := "";
     GrantedScopes := rc_GrantedScopes check; RequiredScopes := rc_RequiredScopes check |}.

(** [now] is [time.Now().UTC()]. *)
Definition CheckRelation (d : Deps) (check : RelationCheck) (now : Time) :
    result (usecase_error E) (RelationDecision * list access_event) :=
  if negb (resolvePrincipalActive d (rc_TenantID check) (act_Type (rc_Subject check)) (act_ID (rc_Subject check)))
  then Ok ({| rd_Permitted := false; rd_Reasons := [reasonSubjectInactive] |}, [])
  else match CheckAccess d (relation_input check) now with
  | Err e =>
      if is_model_not_found e then Ok ({| rd_Permitted := false; rd_Reasons := [reasonModelNotFound] |}, [])
      else Err e
  | Ok (result, events) =>
      Ok ({| rd_Permitted := res_Permitted result; rd_Reasons := res_Reasons result |}, events)
  end.

(** ** ListAccessibleResources *)

Definition resource_input (input : ListAccessibleResourcesInput) (id : string) : CheckAccessInput :=
  {| in_TenantID := list_TenantID input;
     in_Resource := {| obj_Type := list_ResourceType input; obj_ID := id |};
     in_Relation := list_Relation input; in_Subject := list_Subject input;
     in_ActorChain := list_ActorChain input; MinimumConsistency := list_MinimumConsistency input;
     GrantedScopes := list_GrantedScopes input; RequiredScopes := list_RequiredScopes input |}.

(** The loop over the candidates. *)
Fixpoint enumerate (d : Deps) (input : ListAccessibleResourcesInput) (now : Time)
    (candidates : list string) (out : ListedResources) : result (usecase_error E) ListedResources :=
  match candidates with
  | [] => Ok out
  | id :: rest =>
      let? r := checkAccess d (resource_input input id) now false in
      enumerate d input now rest
        {| ResourceIDs := if res_Permitted r.1 then (ResourceIDs out ++ [id])%list else ResourceIDs out;
           Truncated := Truncated out;
           listed_ModelVersion := res_ModelVersion r.1;
           listed_Consistency := res_Consistency r.1 |}
  end.

Definition enumeration_limit (d : Deps) : Z :=
  if MaxEnumeratedResources d <=? 0 then DefaultMaxEnumeratedResources else MaxEnumeratedResources d.

Definition ListAccessibleResources (d : Deps) (input : ListAccessibleResourcesInput) (now : Time) :
    result (usecase_error E) (ListedResources * list access_event) :=
  let limit := enumeration_limit d in
  let? found := lift_store (ListResourceIDs (Tuples d) (list_TenantID input) (list_ResourceType input)
                              (wrap64 (limit + 1))) in
  let truncated := limit <? Z.of_nat (length found) in
  let candidates := if truncated then firstn (Z.to_nat limit) found else found in
  let? out := enumerate d input now candidates
    {| ResourceIDs := []; Truncated := truncated; listed_ModelVersion := 0; listed_Consistency := "" |} in
  let? out :=
    if listed_Consistency out =? "" then
      let? version := lift_store (TenantVersion (Tuples d) (list_TenantID input)) in
      let? model := modelForResource d (list_TenantID input) (list_ResourceType input) in
      Ok {| ResourceIDs := ResourceIDs out; Truncated := Truncated out;
            listed_ModelVersion := Version model;
            listed_Consistency := EncodeConsistencyToken (list_TenantID input) version |}
    else Ok out in
  Ok (out, [FgaResourcesEnumerated now (list_TenantID input) (list_ResourceType input) (list_Relation input)
              (Z.of_nat (length candidates)) (Z.of_nat (length (ResourceIDs out))) (Truncated out)
              (listed_ModelVersion out) (Z.of_nat (length (list_ActorChain input)))]).

(** ** Writing tuples *)

Definition is_operation (resourceType : string) : bool := resourceType =? ResourceTypeMcpOperation.

Definition onlyOperations (w : TupleWrite) : bool :=
  (0 <? Z.of_nat (length (Writes w) + length (Deletes w) + length (DeleteObjects w))%nat) &&
  forallb (fun t => is_operation (obj_Type (tup_Resource t))) (Writes w ++ Deletes w)%list &&
  forallb (fun o => is_operation (obj_Type o)) (DeleteObjects w).

(** The three validation loops; the first collects the keys of the writes. *)
Definition tuple_model (model : AuthorizationModel) (tenantID : string) (t : RelationTuple) :
    AuthorizationModel :=
  if is_operation (obj_Type (tup_Resource t)) then McpOperationModel tenantID else model.

Fixpoint validate_writes (model : AuthorizationModel) (tenantID : string) (ts : list RelationTuple)
    (seen : gset string) : result access_error (gset string) :=
  match ts with
  | [] => Ok seen
  | t :: ts' =>
      let? _ := ValidateTuple (tuple_model model tenantID t) t in
      validate_writes model tenantID ts' ({[Key t]} ∪ seen)
  end.

Definition validate_delete (seen : gset string) (t : RelationTuple) : result access_error unit :=
  let? _ := RelationTuple_Validate t in
  reject (bool_decide (Key t ∈ seen)) with
    Errorf ErrTupleInvalid "%w: %s appears in both writes and deletes" [RelationTuple_String t] in
  Ok tt.

Definition validate_delete_object (o : ObjectRef) : result access_error unit :=
  reject ((obj_Type o =? "") || (obj_ID o =? "")) with
    Errorf ErrTupleInvalid "%w: delete_objects entries require a type and an id" [] in
  Ok tt.

Definition WriteRelationTuples (d : Deps) (tenantID : string) (write : TupleWrite) (now : Time) :
    result (usecase_error E) (TupleWriteOutcome * list access_event * R) :=
  let modelType := if onlyOperations write then ResourceTypeMcpOperation else "" in
  let? model := modelForResource d tenantID modelType in
  let? seen := lift_domain (validate_writes model tenantID (Writes write) ∅) in
  let? _ := lift_domain (for_each (validate_delete seen) (Deletes write)) in
  let? _ := lift_domain (for_each validate_delete_object (DeleteObjects write)) in
  let? p := lift_store (WriteTuples (Tuples d) tenantID write) in
  let '(res, tuples') := p in
  let consistency := EncodeConsistencyToken tenantID (wr_Version res) in
  Ok ({| out_WrittenCount := WrittenCount res; out_DeletedCount := DeletedCount res;
         out_Consistency := consistency |},
      ((if 0 <? WrittenCount res then [RelationTupleWritten now tenantID (WrittenCount res) consistency] else []) ++
       (if 0 <? DeletedCount res then [RelationTupleDeleted now tenantID (DeletedCount res) consistency] else []))%list,
      tuples').

Definition ListRelationTuples (d : Deps) (tenantID : string) (filter : RelationTupleFilter) (limit : Z) :
    result (usecase_error E) (list RelationTuple * string) :=
  let? ts := lift_store (ListTuples (Tuples d) tenantID filter limit) in
  let? version := lift_store (TenantVersion (Tuples d) tenantID) in
  Ok (ts, EncodeConsistencyToken tenantID version).

(** ** Models *)

(** [id] is the identifier [spec.NewUUIDv4] draws; that function never fails. *)
Definition PutAuthorizationModel (d : Deps) (tenantID : string)
    (resourceTypes : list ResourceTypeDefinition) (now : Time) (id : string) :
    result (usecase_error E) (PublishedModel * list access_event * M) :=
  if existsb (fun t => type_Name t =? ResourceTypeMcpOperation) resourceTypes then
    Err (DomainError (Errorf ErrModelInvalid "%w: reserved resource type" []))
  else
    let candidate := {| model_ID := id; model_TenantID := tenantID; Version := 0%Z;
                        ResourceTypes := resourceTypes; model_CreatedAt := now |} in
    (* [Validate] never runs out of fuel ([Validate_total]). *)
    let? _ := lift_domain (default (Err (Errorf ErrModelInvalid "" [])) (Validate candidate)) in
    let? p := lift_store (Publish (Models d) candidate) in
    let '(stored, version, models') := p in
    Ok ({| pub_Model := stored; pub_Consistency := EncodeConsistencyToken tenantID version |},
        [AuthorizationModelPublished now tenantID (model_ID stored) (Version stored)
           (Z.of_nat (length (ResourceTypes stored)))],
        models').

Definition GetAuthorizationModel (d : Deps) (tenantID : string) (version : Z) :
    result (usecase_error E) PublishedModel :=
  let? model := loadModel d tenantID version in
  let? storeVersion := lift_store (TenantVersion (Tuples d) tenantID) in
  Ok {| pub_Model := model; pub_Consistency := EncodeConsistencyToken tenantID storeVersion |}.

End usecases.

Arguments Deps : clear implicits.
Arguments Build_Deps {R M E}.

(** [authorization_local.Local]: the policy itself, which never fails. *)
Definition Local {E} (wallclock : Time) : AuthZRequest -> result E AuthZResponse :=
  fun req => Ok (Evaluate wallclock req).

(** ** What a permit means *)

Section theorems.
Context {R M E : Type} `{TupleRepositoryLaws R E} `{!AuthorizationModelRepository M E}.
Implicit Types (d : Deps R M E) (input : CheckAccessInput) (model : AuthorizationModel).

(** The subject has the relation: a chain of relations of at most the maximal
    depth leads from the resource to a tuple that names it. *)
Definition related d model input (s : SubjectRef) : Prop :=
  exists p, grants model (Tuples d) (in_TenantID input) s (in_Resource input, in_Relation input) p /\
    (Z.of_nat (length p) <= max_depth {| MaxDepth := deps_MaxDepth d |})%Z.

(** The condition of the composed decision. *)
Definition access_granted d model input : Prop :=
  related d model input (in_Subject input) /\
  (forall a, a ∈ in_ActorChain input ->
     related d model input (actor_subject a) /\
     resolvePrincipalActive d (in_TenantID input) (act_Type a) (act_ID a) = true) /\
  (forall s, s ∈ RequiredScopes input -> s ∈ GrantedScopes input) /\
  in_TenantID input <> "".

Lemma model_check_iff d model input s dec :
  well_formed model -> repo_ok (Tuples d) -> byte_in "#" (obj_ID (in_Resource input)) = false ->
  model_check d model input s = Ok dec -> Permitted dec = true <-> related d model input s.
Proof.
  intros Hwf Hr Hid Hc. unfold model_check in Hc. rewrite lift_store_Ok in Hc.
  eapply Check_permitted_iff; [exact Hwf|by apply laws_reader_ok|exact Hid|exact Hc].
Qed.

Lemma actor_facts_Ok d model input chain : forall facts actors facts' actors',
  actor_facts d model input chain facts actors = Ok (facts', actors') ->
  Evaluated facts' = Evaluated facts /\ SubjectPermitted facts' = SubjectPermitted facts /\
  (ActorChainPermitted facts' = true <->
     ActorChainPermitted facts = true /\
     forall a dec, a ∈ chain ->
       model_check d model input (actor_subject a) = Ok dec -> Permitted dec = true) /\
  (forall a, a ∈ chain -> exists dec, model_check d model input (actor_subject a) = Ok dec) /\
  actors' = (actors ++ map (fun a =>
     {| actor_Type := act_Type a; actor_ID := act_ID a;
        actor_Active := resolvePrincipalActive d (in_TenantID input) (act_Type a) (act_ID a) |}) chain)%list.
Proof.
  induction chain as [|a chain IH]; intros facts actors facts' actors' Hf; cbn [actor_facts] in Hf.
  { injection Hf as <- <-. rewrite app_nil_r. split_and!; [done..| | |done].
    - split; [|tauto]. intros Ha. split; [done|]. intros a dec Hin. by apply elem_of_nil in Hin.
    - intros a Hin. by apply elem_of_nil in Hin. }
  apply res_bind_Ok in Hf as (dec & Hd & Hf). apply IH in Hf as (He & Hs & Ha & Hall & ->). clear IH.
  split_and!.
  - rewrite He. by destruct (negb _).
  - rewrite Hs. by destruct (negb _).
  - rewrite Ha. setoid_rewrite elem_of_cons. destruct (Permitted dec) eqn:Hp; simpl.
    + split; intros [Hacc Hch]; (split; [done|]).
      * intros b dec' [->|Hb] Hd'; [congruence|eauto].
      * intros b dec' Hb. apply Hch. by right.
    + split; [by intros []|]. intros [_ Hch]. rewrite (Hch a dec) in Hp; [done|by left|done].
  - intros b [->|Hb]%elem_of_cons; eauto.
  - cbn [map]. by rewrite <- app_assoc.
Qed.

(** [checkAccess] with the local policy, when it returns. *)
Lemma checkAccess_Ok d w input now audit res evs :
  Authorizer d = Some (Local w) -> repo_ok (Tuples d) ->
  (forall m, Latest (Models d) (in_TenantID input) = Ok (Some m) -> well_formed m) ->
  byte_in "#" (obj_ID (in_Resource input)) = false ->
  checkAccess d input now audit = Ok (res, evs) ->
  exists model, modelForResource d (in_TenantID input) (obj_Type (in_Resource input)) = Ok model /\
    well_formed model /\ res_ModelVersion res = Version model /\
    (res_Permitted res = true <-> access_granted d model input).
Proof.
  intros Hauth Hrepo Hmodels Hid Hc. unfold checkAccess in Hc. rewrite Hauth in Hc.
  apply res_bind_Ok in Hc as (model & Hm & Hc). apply res_bind_Ok in Hc as (v & _ & Hc).
  apply res_bind_Ok in Hc as ([facts actors] & Hf & Hc). unfold Local in Hc.
  pose proof (Evaluate_resource_access w (access_request input facts actors now) eq_refl) as Hev.
  set (resp := Evaluate w (access_request input facts actors now)) in *. clearbody resp.
  injection Hc as <- _. exists model.
  assert (Hwf : well_formed model).
  { unfold modelForResource in Hm. destruct (_ =? ResourceTypeMcpOperation).
    - injection Hm as <-. apply McpOperationModel_wf.
    - unfold loadModel in Hm. apply res_bind_Ok in Hm as ([m|] & Hl & Hm); [|done].
      injection Hm as <-. exact (Hmodels _ (proj1 (lift_store_Ok _ _) Hl)). }
  split_and!; [done..|]. cbn [res_Permitted]. rewrite Hev. clear Hev. simpl.
  unfold relationshipFacts in Hf. apply res_bind_Ok in Hf as (dec & Hd & Hf).
  apply actor_facts_Ok in Hf as (He & Hs & Ha & Hall & ->). simpl in *.
  pose proof (model_check_iff d model input _ dec Hwf Hrepo Hid Hd) as Hsub.
  assert (Hactors : ActorChainPermitted facts = true <->
    forall a, a ∈ in_ActorChain input -> related d model input (actor_subject a)).
  { rewrite Ha. split.
    - intros [_ Hch] a Hin. destruct (Hall a Hin) as (dec' & Hd').
      apply (model_check_iff d model input _ dec' Hwf Hrepo Hid Hd'). eauto.
    - intros Hch. split; [done|]. intros a dec' Hin Hd'.
      apply (model_check_iff d model input _ dec' Hwf Hrepo Hid Hd'). auto. }
  unfold access_granted. rewrite <- Hsub, <- Hs, Forall_map, Forall_forall. simpl.
  split.
  - intros ((f & [= <-] & _ & Hsp & Hac) & Hact & Hsc & _ & Ht & _).
    rewrite Hactors in Hac. split_and!; [done| |done|done]. intros a Hin. split; [by apply Hac|by apply Hact].
  - intros (Hsp & Hch & Hsc & Ht). split_and!; try done.
    + exists facts. split_and!; [done|done|done|]. apply Hactors. intros a Hin. by apply Hch.
    + intros a Hin. by apply Hch.
Qed.

(** A relation check permits exactly when the subject's principal is active and
    [CheckAccess] permits; a tenant without a model is a denial, every other
    failure an error. *)
Theorem CheckRelation_permit_iff d check now dec evs :
  CheckRelation d check now = Ok (dec, evs) ->
  rd_Permitted dec = true <->
    resolvePrincipalActive d (rc_TenantID check) (act_Type (rc_Subject check)) (act_ID (rc_Subject check)) = true /\
    exists res, CheckAccess d (relation_input check) now = Ok (res, evs) /\ res_Permitted res = true.
Proof.
  unfold CheckRelation. destruct (resolvePrincipalActive _ _ _ _); simpl.
  - destruct (CheckAccess d (relation_input check) now) as [[res evs']|e].
    + intros [= <- <-]. simpl. split; [|by intros (_ & res' & [= <-] & ?)]. intros Hp. split; [done|]. by exists res.
    + destruct (is_model_not_found e); [|done]. intros [= <- <-]. simpl. split; [done|].
      by intros (_ & res' & ? & _).
  - intros [= <- <-]. simpl. split; [done|]. by intros [? _].
Qed.

(** Access is never granted on doubt: when [CheckAccess] returns a result, an
    authorizer was configured and answered, its answer is the result, the
    tenant's model was found, and the store had reached the consistency token
    that was presented. *)
Theorem CheckAccess_fail_closed d input now res evs :
  CheckAccess d input now = Ok (res, evs) ->
  exists authorize facts actors response model storeVersion,
    Authorizer d = Some authorize /\
    authorize (access_request input facts actors now) = Ok response /\
    res_Permitted res = Permit response /\
    Evaluated facts = true /\ length actors = length (in_ActorChain input) /\
    modelForResource d (in_TenantID input) (obj_Type (in_Resource input)) = Ok model /\
    assertConsistency d (in_TenantID input) (MinimumConsistency input) = Ok storeVersion /\
    length evs = 1%nat.
Proof.
  unfold CheckAccess, checkAccess. destruct (Authorizer d) as [authorize|]; [|done]. intros Hc.
  apply res_bind_Ok in Hc as (model & Hm & Hc). apply res_bind_Ok in Hc as (v & Hv & Hc).
  apply res_bind_Ok in Hc as ([facts actors] & Hf & Hc).
  destruct (authorize _) as [response|e] eqn:Ha; [|done]. injection Hc as <- <-.
  unfold relationshipFacts in Hf. apply res_bind_Ok in Hf as (dec & Hd & Hf).
  apply actor_facts_Ok in Hf as (He & _ & _ & _ & ->).
  eexists authorize, facts, _, response, model, v. split_and!; try done. simpl. by rewrite length_map.
Qed.

(** ** Consistency *)

Lemma assertConsistency_spec d tenantID token v :
  byte_in ":" tenantID = false -> TenantVersion (Tuples d) tenantID = Ok v -> token <> "" ->
  (exists required, (min_int64 <= required <= max_int64)%Z /\
     token = EncodeConsistencyToken tenantID required /\
     assertConsistency d tenantID token =
       if (v <? required)%go then Err (DomainError (Errorf ErrConsistencyNotSatisfied
           "%w: store is at %d, %d required" [FormatInt v; FormatInt required])) else Ok v) \/
  (forall required, (min_int64 <= required <= max_int64)%Z ->
     token <> EncodeConsistencyToken tenantID required) /\
   exists e, assertConsistency d tenantID token = Err (DomainError e).
Proof.
  intros Ht Hv Htok. unfold assertConsistency. rewrite Hv. cbn [lift_store res_bind].
  rewrite bool_decide_false by done.
  destruct (DecodeConsistencyToken token tenantID) as [required|e] eqn:Hd; cbn [lift_domain res_bind].
  - left. exists required. apply Decode_token_iff in Hd as [Hr ->]; [|done]. done.
  - right. split; [|by eexists]. intros required Hr ->.
    assert (DecodeConsistencyToken (EncodeConsistencyToken tenantID required) tenantID = Ok required) as Hd'
      by (by apply Decode_token_iff). congruence.
Qed.

(** A presented consistency token is satisfied exactly when it is one that was
    issued for this tenant and a version that the store has reached. *)
Theorem assertConsistency_iff d tenantID token v :
  byte_in ":" tenantID = false -> TenantVersion (Tuples d) tenantID = Ok v ->
  (assertConsistency d tenantID token = Ok v <->
   token = "" \/ exists required, (min_int64 <= required <= max_int64)%Z /\
     token = EncodeConsistencyToken tenantID required /\ (required <= v)%Z) /\
  (forall v', assertConsistency d tenantID token = Ok v' -> v' = v).
Proof.
  intros Ht Hv. destruct (decide (token = "")) as [->|Htok].
  { unfold assertConsistency. rewrite Hv. simpl. split; [naive_solver|]. by intros v' [= ->]. }
  destruct (assertConsistency_spec d tenantID token v Ht Hv Htok) as [(r & Hr & -> & ->)|[Hno (e & ->)]].
  - destruct (v <? r)%go eqn:Hlt; go_bool.
    + split; [|done]. split; [done|]. intros [?|(r' & Hr' & Heq & Hle)]; [done|].
      assert (r' = r) as ->; [|lia].
      assert (DecodeConsistencyToken (EncodeConsistencyToken tenantID r) tenantID = Ok r') as H1
        by (by apply Decode_token_iff).
      assert (DecodeConsistencyToken (EncodeConsistencyToken tenantID r) tenantID = Ok r) as H2
        by (by apply Decode_token_iff). congruence.
    + split; [|by intros v' [= ->]]. split; [|done]. intros _. right. by exists r.
  - split; [|done]. split; [done|]. intros [?|(r & Hr & -> & _)]; [done|]. by destruct (Hno r).
Qed.

(** ** Writing *)

Lemma validate_writes_Ok model tenantID ts : forall seen seen',
  validate_writes model tenantID ts seen = Ok seen' ->
  Forall (fun t => ValidateTuple (tuple_model model tenantID t) t = Ok tt) ts /\
  seen' = seen ∪ list_to_set (map Key ts).
Proof.
  induction ts as [|t ts IH]; intros seen seen' Hv; cbn [validate_writes] in Hv.
  { injection Hv as <-. split; [constructor|set_solver]. }
  apply res_bind_Ok in Hv as ([] & Ht & Hv). apply IH in Hv as [Hall ->]. split; [by constructor|set_solver].
Qed.

Lemma validate_delete_Ok seen t :
  validate_delete seen t = Ok tt <-> RelationTuple_Validate t = Ok tt /\ Key t ∉ seen.
Proof.
  unfold validate_delete. rewrite res_bind_Ok. split.
  - intros ([] & Ht & Hk). destruct (bool_decide _) eqn:Hb; [done|]. by apply bool_decide_eq_false in Hb.
  - intros [Ht Hk]. exists tt. split; [done|]. by rewrite bool_decide_false.
Qed.

Lemma ValidateTuple_Validate model t : ValidateTuple model t = Ok tt -> RelationTuple_Validate t = Ok tt.
Proof. unfold ValidateTuple. rewrite res_bind_Ok. by intros ([] & ? & _). Qed.

Lemma WriteRelationTuples_Ok d tenantID w now out evs r' :
  WriteRelationTuples d tenantID w now = Ok (out, evs, r') ->
  exists model res, WriteTuples (Tuples d) tenantID w = Ok (res, r') /\
    out_Consistency out = EncodeConsistencyToken tenantID (wr_Version res) /\
    modelForResource d tenantID (if onlyOperations w then ResourceTypeMcpOperation else "") = Ok model /\
    Forall (fun t => ValidateTuple (tuple_model model tenantID t) t = Ok tt) (Writes w) /\
    Forall (fun t => RelationTuple_Validate t = Ok tt) (Deletes w) /\
    Forall (fun t => Key t ∉ map Key (Writes w)) (Deletes w).
Proof.
  unfold WriteRelationTuples. intros Hw.
  apply res_bind_Ok in Hw as (model & Hm & Hw). apply res_bind_Ok in Hw as (seen & Hs & Hw).
  apply res_bind_Ok in Hw as ([] & Hd & Hw). apply res_bind_Ok in Hw as ([] & _ & Hw).
  apply res_bind_Ok in Hw as ([res r1] & Hr & Hw). injection Hw as <- _ <-.
  rewrite lift_domain_Ok in Hs. apply validate_writes_Ok in Hs as [Hall ->].
  rewrite lift_domain_Ok, for_each_Ok in Hd. rewrite lift_store_Ok in Hr.
  exists model, res. split_and!; [done|done|done|done| |].
  - eapply Forall_impl; [exact Hd|]. intros t Ht. by apply validate_delete_Ok in Ht as [? _].
  - eapply Forall_impl; [exact Hd|]. intros t Ht. apply validate_delete_Ok in Ht as [_ Ht]. set_solver.
Qed.

Lemma WriteRelationTuples_write_ok d tenantID w now out evs r' :
  WriteRelationTuples d tenantID w now = Ok (out, evs, r') -> write_ok w.
Proof.
  intros (model & res & _ & _ & _ & Hw & Hd & _)%WriteRelationTuples_Ok. split; [|done].
  eapply Forall_impl; [exact Hw|]. intros t Ht. by apply ValidateTuple_Validate in Ht.
Qed.

(** A write is all or nothing: when it succeeds, every written tuple conforms to
    the model that governs its resource type, no tuple is both written and
    deleted, and the tenant's tuples are exactly the abstract effect of the
    whole request; other tenants are untouched.  Otherwise it returns an error
    and no store. *)
Theorem WriteRelationTuples_atomic d tenantID w now out evs r' :
  repo_ok (Tuples d) ->
  WriteRelationTuples d tenantID w now = Ok (out, evs, r') ->
  repo_ok r' /\ contents r' tenantID = apply_write w (contents (Tuples d) tenantID) /\
  (forall t, t ∈ Writes w -> t ∈ contents r' tenantID /\ t ∉ Deletes w) /\
  (forall t, t ∈ Deletes w -> t ∉ contents r' tenantID) /\
  (forall tenant', tenant' <> tenantID -> contents r' tenant' = contents (Tuples d) tenant').
Proof.
  intros Hrepo Hw. pose proof (WriteRelationTuples_write_ok _ _ _ _ _ _ _ Hw) as Hok.
  apply WriteRelationTuples_Ok in Hw as (model & res & Hw & _ & _ & Hwr & Hd & Hdis).
  destruct (WriteTuples_contents _ _ _ _ _ Hrepo Hok Hw) as (Hr' & Hc & Hother).
  rewrite Forall_forall in Hdis.
  assert (Hdisj : forall t, t ∈ Writes w -> t ∉ Deletes w).
  { intros t Ht Hin. apply (Hdis t Hin). apply list_elem_of_fmap. by exists t. }
  split_and!; [done|done| | |done].
  - intros t Ht. split; [|auto]. rewrite Hc. unfold apply_write. set_solver.
  - intros t Ht. rewrite Hc. unfold apply_write. rewrite elem_of_union, elem_of_filter, elem_of_list_to_set.
    intros [[[Hn _] _]|Hin]; [done|by apply (Hdisj t)].
Qed.

(** Read your writes: the token that a write returns is satisfied by the store
    the write produced, and by another replica of the store exactly when that
    replica has reached the version of the write. *)
Theorem read_your_writes d tenantID w now out evs r' v (replica : Deps R M E) v0 :
  byte_in ":" tenantID = false ->
  TenantVersion (Tuples d) tenantID = Ok v -> (min_int64 <= v < max_int64)%Z ->
  WriteRelationTuples d tenantID w now = Ok (out, evs, r') ->
  TenantVersion (Tuples replica) tenantID = Ok v0 ->
  (Tuples replica = r' -> assertConsistency replica tenantID (out_Consistency out) = Ok v0) /\
  (res_ok (assertConsistency replica tenantID (out_Consistency out)) = true <-> (v + 1 <= v0)%Z).
Proof.
  intros Ht Hv Hrange Hw Hv0.
  apply WriteRelationTuples_Ok in Hw as (model & res & Hw & -> & _).
  destruct (WriteTuples_version _ _ _ _ _ _ Hw Hv) as [Hres Hv'].
  rewrite wrap64_id in Hres, Hv' by lia. rewrite Hres.
  assert (Htok : EncodeConsistencyToken tenantID (v + 1) <> "").
  { intros He. assert (DecodeConsistencyToken (EncodeConsistencyToken tenantID (v + 1)) tenantID = Ok (v + 1)%Z) as Hd
      by (apply Decode_token_iff; [done|split; [lia|done]]). rewrite He in Hd. discriminate Hd. }
  destruct (assertConsistency_spec replica tenantID _ v0 Ht Hv0 Htok) as [(r & Hr & Heq & Has)|[Hno _]].
  2:{ by destruct (Hno (v + 1)%Z); [lia|]. }
  assert (r = (v + 1)%Z) as ->.
  { assert (DecodeConsistencyToken (EncodeConsistencyToken tenantID r) tenantID = Ok r) as H1
      by (by apply Decode_token_iff).
    rewrite <- Heq in H1. apply Decode_token_iff in H1 as [_ H1]; [|done].
    assert (DecodeConsistencyToken (EncodeConsistencyToken tenantID (v + 1)) tenantID = Ok (v + 1)%Z) as H2
      by (apply Decode_token_iff; [done|split; [lia|done]]).
    assert (DecodeConsistencyToken (EncodeConsistencyToken tenantID r) tenantID = Ok r) as H3
      by (by apply Decode_token_iff). congruence. }
  rewrite Has. split.
  - intros <-. assert (v0 = (v + 1)%Z) as -> by congruence. rewrite (proj2 (Z.ltb_ge _ _)); [done|lia].
  - destruct (v0 <? v + 1)%go eqn:Hlt; go_bool; simpl; split; try done; lia.
Qed.

End theorems.

(** ** The memory deployment

    Both ports on one memory store and the local policy: the stores that the
    administrative operations can build, starting from the empty one. *)

Definition MemoryDeps := Deps Store Store string.

Inductive reachable : Store -> Prop :=
| reachable_new : reachable NewStore
| reachable_write (d : MemoryDeps) tenantID w now out evs s' :
    reachable (Tuples d) -> Models d = Tuples d ->
    WriteRelationTuples d tenantID w now = Ok (out, evs, s') -> reachable s'
| reachable_put (d : MemoryDeps) tenantID resourceTypes now id out evs s' :
    reachable (Tuples d) -> Models d = Tuples d ->
    PutAuthorizationModel d tenantID resourceTypes now id = Ok (out, evs, s') -> reachable s'.

Record store_invariant (s : Store) : Prop := {
  inv_tuples : store_ok s;
  inv_versions : models_ok s;
  inv_models : forall tenant m, m ∈ model_versions s tenant -> well_formed m;
}.

Lemma mem_Write_models s tenant w tenant' :
  model_versions (mem_Write s tenant w).2 tenant' = model_versions s tenant'.
Proof. done. Qed.

Lemma mem_Publish_tuples s m tenant : tenant_tuples (mem_Publish s m).2 tenant = tenant_tuples s tenant.
Proof. done. Qed.

Lemma mem_Publish_versions s m : models_ok s -> models_ok (mem_Publish s m).2.
Proof.
  intros Hok tenant i m'. rewrite model_versions_publish. destruct (decide _) as [->|]; [|apply Hok].
  intros [Hi|[Hi Hm]]%lookup_app_Some; [by apply Hok in Hi|].
  apply list_lookup_singleton_Some in Hm as [Hz <-]. simpl. lia.
Qed.

Lemma reachable_invariant s : reachable s -> store_invariant s.
Proof.
  induction 1 as [|d tenantID w now out evs s' Hr IH Hd Hw|d tenantID rts now id out evs s' Hr IH Hd Hp].
  - constructor; [apply NewStore_ok|apply NewStore_models_ok|].
    intros tenant m Hin. by apply elem_of_nil in Hin.
  - destruct IH as [Ht Hv Hm]. pose proof (WriteRelationTuples_write_ok _ _ _ _ _ _ _ Hw) as Hok.
    apply WriteRelationTuples_Ok in Hw as (_ & res & Hw & _).
    change (@Ok string _ (mem_Write (Tuples d) tenantID w) = Ok (res, s')) in Hw. apply Ok_inj in Hw.
    replace s' with (mem_Write (Tuples d) tenantID w).2 by (by rewrite Hw).
    pose proof (mem_Write_spec (Tuples d) tenantID w Ht Hok) as Hspec. rewrite Hw in Hspec.
    constructor; [rewrite Hw; by apply Hspec|exact Hv|exact Hm].
  - destruct IH as [Ht Hv Hm]. unfold PutAuthorizationModel in Hp.
    destruct (existsb _ rts); [done|]. set (cand := Build_AuthorizationModel _ _ _ _ _) in Hp.
    apply res_bind_Ok in Hp as ([] & Hval & Hp). apply res_bind_Ok in Hp as ([[stored v] s1] & Hpub & Hp).
    injection Hp as _ _ <-. rewrite lift_domain_Ok in Hval. rewrite lift_store_Ok in Hpub.
    change (@Ok string _ (mem_Publish (Models d) cand) = Ok (stored, v, s1)) in Hpub.
    apply Ok_inj in Hpub. rewrite Hd in Hpub.
    replace s1 with (mem_Publish (Tuples d) cand).2 by (by rewrite Hpub).
    constructor; [exact Ht|by apply mem_Publish_versions|].
    intros tenant m. rewrite model_versions_publish. destruct (decide _); [|apply Hm].
    intros [Hin|Hin]%elem_of_app; [by eapply Hm|]. apply list_elem_of_singleton in Hin as ->.
    eapply well_formed_ext; [|apply (Validate_wf cand)]; [done|].
    destruct (Validate cand) as [res|]; simpl in Hval; [by rewrite Hval|done].
Qed.

Lemma reachable_latest s tenant m :
  store_invariant s -> mem_Latest s tenant = Some m -> well_formed m.
Proof.
  intros Hinv Hl. apply (inv_models s Hinv tenant). unfold mem_Latest in Hl.
  rewrite last_lookup in Hl. by apply list_elem_of_lookup_2 in Hl.
Qed.

(** C2. The answer of the service, end to end: in every store that the
    administrative operations can build, with the local policy and whatever
    resolver of principals, a result of [CheckAccess] permits exactly when the
    subject is related to the resource by stored tuples under the tenant's
    latest model, every agent of the chain is related to it as well and active,
    and the token carries every required scope. *)
Theorem CheckAccess_decides (d : MemoryDeps) w input now res evs :
  reachable (Tuples d) -> Models d = Tuples d -> Authorizer d = Some (Local w) ->
  byte_in "#" (obj_ID (in_Resource input)) = false ->
  CheckAccess d input now = Ok (res, evs) ->
  exists model,
    modelForResource d (in_TenantID input) (obj_Type (in_Resource input)) = Ok model /\
    res_ModelVersion res = Version model /\
    (res_Permitted res = true <-> access_granted d model input).
Proof.
  intros Hr Hd Ha Hid Hc. apply reachable_invariant in Hr.
  destruct (checkAccess_Ok d w input now true res evs Ha) as (model & Hm & _ & Hv & Hiff);
    [exact (inv_tuples _ Hr)| |done|done|by exists model].
  intros m Hl. rewrite Hd in Hl. change (@Ok string _ (mem_Latest (Tuples d) (in_TenantID input)) = Ok (Some m)) in Hl.
  apply Ok_inj in Hl. by eapply reachable_latest.
Qed.

(** On the memory deployment the call fails only for want of a model or of
    consistency: the store, the policy and the search never fail. *)
Theorem CheckAccess_errors (d : MemoryDeps) w input now e :
  Authorizer d = Some (Local w) -> CheckAccess d input now = Err e ->
  (exists e', e = DomainError e' /\ sentinel e' = ErrModelNotFound /\
     mem_Latest (Models d) (in_TenantID input) = None) \/
  (exists e', e = DomainError e' /\ sentinel e' = ErrConsistencyNotSatisfied /\
     MinimumConsistency input <> "").
Proof.
  intros Ha Hc. unfold CheckAccess, checkAccess in Hc. rewrite Ha in Hc.
  destruct (modelForResource d _ _) as [model|e'] eqn:Hm; cbn [res_bind] in Hc.
  2:{ injection Hc as <-. left. unfold modelForResource in Hm. destruct (_ =? _); [done|].
      unfold loadModel in Hm. simpl in Hm. destruct (mem_Latest (Models d) (in_TenantID input)) as [m|] eqn:Hl;
        simpl in Hm; [done|]. injection Hm as <-. eexists. by split_and!. }
  destruct (assertConsistency d _ _) as [v|e'] eqn:Hv; cbn [res_bind] in Hc.
  2:{ injection Hc as <-. right. unfold assertConsistency in Hv. simpl in Hv.
      destruct (MinimumConsistency input =? "") eqn:He; [done|]. go_bool.
      destruct (DecodeConsistencyToken _ _) as [r|e''] eqn:Hdec; simpl in Hv.
      - destruct (_ <? r)%go; [|done]. injection Hv as <-. eexists. by split_and!.
      - injection Hv as <-. exists e''. split_and!; [done| |done]. by apply Decode_token_error in Hdec. }
  destruct (relationshipFacts d model input) as [[facts actors]|e'] eqn:Hf; cbn [res_bind] in Hc; [done|].
  exfalso. clear Hc. unfold relationshipFacts in Hf.
  assert (Hcheck : forall s, exists dec, model_check d model input s = Ok dec).
  { intros s. unfold model_check. pose proof (Check_outcome model (Tuples d) (in_TenantID input) s
      (in_Resource input) (in_Relation input) {| MaxDepth := deps_MaxDepth d |}) as Ho.
    destruct (Check _ _ _ _ _ _ _) as [dec|err]; [by exists dec|]. by destruct Ho as (? & ? & ?). }
  destruct (Hcheck (in_Subject input)) as (dec & Hdec). rewrite Hdec in Hf. cbn [res_bind] in Hf.
  revert Hf. generalize (@nil AuthZActor). generalize (Build_AuthZRelationshipFacts true (Permitted dec) true
    (Version model) (Path dec) (Reasons dec)).
  induction (in_ActorChain input) as [|a chain IH]; intros f l Hf; cbn [actor_facts] in Hf; [done|].
  destruct (Hcheck (actor_subject a)) as (dec' & Hdec'). rewrite Hdec' in Hf. cbn [res_bind] in Hf.
  by apply IH in Hf.
Qed.

(** ** Listing *)

(** The decision for one resource identifier. *)
Definition lists (d : MemoryDeps) (input : ListAccessibleResourcesInput) (now : Time) (id : string) : bool :=
  match checkAccess d (resource_input input id) now false with
  | Ok (res, _) => res_Permitted res
  | Err _ => false
  end.

Lemma enumerate_Ok (d : MemoryDeps) input now candidates : forall out out',
  enumerate d input now candidates out = Ok out' ->
  ResourceIDs out' = (ResourceIDs out ++ List.filter (lists d input now) candidates)%list /\
  Truncated out' = Truncated out.
Proof.
  induction candidates as [|id rest IH]; intros out out' He; cbn [enumerate] in He.
  { injection He as <-. by rewrite app_nil_r. }
  apply res_bind_Ok in He as ([res evs] & Hc & He). apply IH in He as [-> ->]. simpl. split; [|done].
  unfold lists at 2. rewrite Hc. destruct (res_Permitted res); [|done]. by rewrite <- app_assoc.
Qed.

(** C13. The listing is what its flag says: it returns, in order and once each, the
    resources that have a tuple and that [CheckAccess] permits, among the first
    [limit] of them; when it is not marked truncated these are all. *)
Theorem ListAccessibleResources_exact (d : MemoryDeps) input now out evs :
  (enumeration_limit d < max_int64)%Z ->
  ListAccessibleResources d input now = Ok (out, evs) ->
  let all := mem_ListResourceIDs (Tuples d) (list_TenantID input) (list_ResourceType input) 0 in
  ResourceIDs out = List.filter (lists d input now) (firstn (Z.to_nat (enumeration_limit d)) all) /\
  (Truncated out = true <-> (enumeration_limit d < Z.of_nat (length all))%Z) /\
  (Truncated out = false -> forall id, id ∈ ResourceIDs out <->
     (exists t, t ∈ store_contents (Tuples d) (list_TenantID input) /\
        tup_Resource t = {| obj_Type := list_ResourceType input; obj_ID := id |}) /\
     lists d input now id = true).
Proof.
  intros Hlim Hl all. assert (Hpos : (0 < enumeration_limit d)%Z).
  { unfold enumeration_limit. destruct (MaxEnumeratedResources d <=? 0)%go eqn:Hm; [done|]. go_bool. lia. }
  unfold ListAccessibleResources in Hl. apply res_bind_Ok in Hl as (found & Hf & Hl).
  assert (Hw : wrap64 (enumeration_limit d + 1) = (enumeration_limit d + 1)%Z).
  { apply wrap64_id. unfold min_int64, max_int64 in *. lia. }
  rewrite Hw in Hf. rewrite lift_store_Ok in Hf.
  change (@Ok string _ (mem_ListResourceIDs (Tuples d) (list_TenantID input) (list_ResourceType input)
            (enumeration_limit d + 1)) = Ok found) in Hf. apply Ok_inj in Hf.
  rewrite mem_ListResourceIDs_limit in Hf by lia. fold all in Hf.
  apply res_bind_Ok in Hl as (out1 & He & Hl). apply enumerate_Ok in He as [Hids Htr].
  apply res_bind_Ok in Hl as (out2 & Ho & Hl). injection Hl as <- _.
  assert (Ho2 : ResourceIDs out2 = ResourceIDs out1 /\ Truncated out2 = Truncated out1).
  { destruct (listed_Consistency out1 =? ""); [|by injection Ho as <-].
    apply res_bind_Ok in Ho as (v & _ & Ho). apply res_bind_Ok in Ho as (m & _ & Ho). by injection Ho as <-. }
  destruct Ho2 as [-> ->]. rewrite Htr. simpl in *.
  assert (Hlen : (enumeration_limit d <? Z.of_nat (length found))%go = true <->
                 (enumeration_limit d < Z.of_nat (length all))%Z).
  { rewrite Z.ltb_lt, <- Hf, length_firstn. lia. }
  assert (Hcand : (if (enumeration_limit d <? Z.of_nat (length found))%go
                   then firstn (Z.to_nat (enumeration_limit d)) found else found) =
                  firstn (Z.to_nat (enumeration_limit d)) all).
  { destruct (_ <? _)%go eqn:Hb.
    - rewrite <- Hf, firstn_firstn. f_equal. lia.
    - assert (length all <= Z.to_nat (enumeration_limit d))%nat.
      { apply Nat.nlt_ge. intros Hgt. assert (false = true) as Hx; [apply Hlen; lia|done]. }
      rewrite <- Hf. rewrite !firstn_all2; [done|lia|lia]. }
  rewrite Hids, Hcand. simpl. split_and!; [done|done|].
  intros Hfalse id. assert (Hshort : (length all <= Z.to_nat (enumeration_limit d))%nat).
  { apply Nat.nlt_ge. intros Hgt. rewrite (proj2 Hlen) in Hfalse; [done|lia]. }
  rewrite firstn_all2 by done. rewrite list_elem_of_In, filter_In, <- list_elem_of_In.
  unfold all. by rewrite (proj2 (proj2 (mem_ListResourceIDs_spec _ _ _)) id).
Qed.

(** ** Witnesses *)

(** Every principal but "mallory" is active. *)
Definition example_principals : option (string -> string -> string -> result string bool) :=
  Some (fun _ _ id => if id =? "mallory" then Err "no such principal" else Ok true).

Definition example_deps (s : Store) : MemoryDeps :=
  {| Tuples := s; Models := s; Principals := example_principals; Authorizer := Some (Local 0%Z);
     deps_MaxDepth := 0; MaxEnumeratedResources := 0 |}.

(** A store after publishing the folder model and writing the folder tuples. *)
Definition example_store : Store :=
  let s1 := match PutAuthorizationModel (example_deps NewStore) "t" (ResourceTypes folder_model) 1%Z "m" with
            | Ok (_, _, s) => s | Err _ => NewStore end in
  match WriteRelationTuples (example_deps s1) "t" docs_write 2%Z with
  | Ok (_, _, s) => s | Err _ => NewStore end.

Lemma example_store_reachable : reachable example_store.
Proof.
  unfold example_store.
  destruct (PutAuthorizationModel (example_deps NewStore) "t" (ResourceTypes folder_model) 1%Z "m")
    as [[[out evs] s1]|e] eqn:Hp; [|vm_compute in Hp; discriminate Hp].
  pose proof (reachable_put (example_deps NewStore) "t" _ 1%Z "m" out evs s1 reachable_new eq_refl Hp) as H1.
  destruct (WriteRelationTuples (example_deps s1) "t" docs_write 2%Z) as [[[out' evs'] s2]|e] eqn:Hw;
    [|apply reachable_new].
  exact (reachable_write (example_deps s1) "t" docs_write 2%Z out' evs' s2 H1 eq_refl Hw).
Qed.

Definition alice_through (chain : list Actor) : CheckAccessInput :=
  {| in_TenantID := "t"; in_Resource := readme; in_Relation := "viewer"; in_Subject := alice;
     in_ActorChain := chain; MinimumConsistency := EncodeConsistencyToken "t" 2;
     GrantedScopes := ["documents:read"]; RequiredScopes := ["documents:read"] |}.

Definition outcome_of (chain : list Actor) : result (usecase_error string) (bool * list string) :=
  match CheckAccess (example_deps example_store) (alice_through chain) 3%Z with
  | Ok (res, _) => Ok (res_Permitted res, res_Reasons res)
  | Err e => Err e
  end.

(** Alice reads the document herself; an agent that has no relation of its own
    does not read it for her. *)
Example access_examples :
  outcome_of [] = Ok (true, []) /\
  outcome_of [ {| act_Type := "user"; act_ID := "bob" |} ] =
    Ok (false, ["relationship_permits_actor_chain"; "relation_cycle_detected"]).
Proof. vm_compute. done. Qed.

Lemma CheckAccess_decides_witness :
  exists res evs, CheckAccess (example_deps example_store) (alice_through []) 3%Z = Ok (res, evs) /\
  res_Permitted res = true /\
  exists model,
    modelForResource (example_deps example_store) "t" "document" = Ok model /\
    res_ModelVersion res = Version model /\
    (res_Permitted res = true <-> access_granted (example_deps example_store) model (alice_through [])).
Proof.
  eexists _, _. split; [vm_compute; reflexivity|]. split; [reflexivity|].
  eapply (CheckAccess_decides (example_deps example_store) 0%Z (alice_through []) 3%Z);
    [exact example_store_reachable|reflexivity|reflexivity|reflexivity|vm_compute; reflexivity].
Defined.

Lemma CheckAccess_errors_witness :
  exists e, CheckAccess (example_deps NewStore) (alice_through []) 3%Z = Err e /\
  ((exists e', e = DomainError e' /\ sentinel e' = ErrModelNotFound /\ mem_Latest NewStore "t" = None) \/
   (exists e', e = DomainError e' /\ sentinel e' = ErrConsistencyNotSatisfied /\
      MinimumConsistency (alice_through []) <> "")).
Proof.
  eexists. split; [vm_compute; reflexivity|].
  apply (CheckAccess_errors (example_deps NewStore) 0%Z (alice_through []) 3%Z);
    [reflexivity|vm_compute; reflexivity].
Defined.

Lemma CheckAccess_fail_closed_witness :
  exists res evs, CheckAccess (example_deps example_store) (alice_through []) 3%Z = Ok (res, evs) /\
  length evs = 1%nat.
Proof.
  eexists _, _. split; [vm_compute; reflexivity|].
  edestruct (CheckAccess_fail_closed (example_deps example_store) (alice_through []) 3%Z)
    as (? & ? & ? & ? & ? & ? & _ & _ & _ & _ & _ & _ & _ & Hl); [vm_compute; reflexivity|exact Hl].
Defined.

Definition alice_check (subject : string) : RelationCheck :=
  {| rc_TenantID := "t"; rc_ResourceType := "document"; rc_ResourceID := "readme"; rc_Relation := "viewer";
     rc_Subject := {| act_Type := "user"; act_ID := subject |}; rc_Actors := [];
     rc_GrantedScopes := []; rc_RequiredScopes := [] |}.

Lemma CheckRelation_permit_iff_witness :
  exists dec evs, CheckRelation (example_deps example_store) (alice_check "alice") 3%Z = Ok (dec, evs) /\
  (rd_Permitted dec = true <->
   resolvePrincipalActive (example_deps example_store) "t" "user" "alice" = true /\
   exists res, CheckAccess (example_deps example_store) (relation_input (alice_check "alice")) 3%Z = Ok (res, evs) /\
     res_Permitted res = true).
Proof.
  eexists _, _. split; [vm_compute; reflexivity|].
  eapply (CheckRelation_permit_iff (example_deps example_store) (alice_check "alice") 3%Z);
    vm_compute; reflexivity.
Defined.

Lemma assertConsistency_iff_witness :
  assertConsistency (example_deps example_store) "t" (EncodeConsistencyToken "t" 2) = Ok 2%Z.
Proof.
  apply (assertConsistency_iff (example_deps example_store) "t" (EncodeConsistencyToken "t" 2) 2%Z);
    [reflexivity|vm_compute; reflexivity|].
  right. exists 2%Z. unfold min_int64, max_int64. split; [lia|]. split; [reflexivity|lia].
Defined.

Lemma WriteRelationTuples_atomic_witness :
  exists out evs s', WriteRelationTuples (example_deps example_store) "t" drop_core 4%Z = Ok (out, evs, s') /\
  out_DeletedCount out = 3%Z /\
  contents s' "t" = apply_write drop_core (contents example_store "t").
Proof.
  eexists _, _, _. split; [vm_compute; reflexivity|]. split; [reflexivity|].
  eapply (WriteRelationTuples_atomic (example_deps example_store) "t" drop_core 4%Z);
    [exact (inv_tuples _ (reachable_invariant _ example_store_reachable))|vm_compute; reflexivity].
Defined.

Lemma read_your_writes_witness :
  exists out evs s', WriteRelationTuples (example_deps example_store) "t" drop_core 4%Z = Ok (out, evs, s') /\
  assertConsistency (example_deps s') "t" (out_Consistency out) = Ok 3%Z.
Proof.
  eexists _, _, _. split; [vm_compute; reflexivity|].
  eapply (read_your_writes (example_deps example_store) "t" drop_core 4%Z _ _ _ 2%Z (example_deps _) 3%Z);
    [reflexivity|vm_compute; reflexivity|unfold min_int64, max_int64; lia|vm_compute; reflexivity
    |vm_compute; reflexivity|reflexivity].
Defined.

Definition list_documents : ListAccessibleResourcesInput :=
  {| list_TenantID := "t"; list_ResourceType := "document"; list_Relation := "viewer"; list_Subject := alice;
     list_ActorChain := []; list_MinimumConsistency := ""; list_GrantedScopes := []; list_RequiredScopes := [] |}.

Lemma ListAccessibleResources_exact_witness :
  exists out evs, ListAccessibleResources (example_deps example_store) list_documents 5%Z = Ok (out, evs) /\
  ResourceIDs out = ["readme"] /\
  (Truncated out = true <->
   (enumeration_limit (example_deps example_store) <
    Z.of_nat (length (mem_ListResourceIDs example_store "t" "document" 0)))%Z).
Proof.
  eexists _, _. split; [vm_compute; reflexivity|]. split; [reflexivity|].
  eapply (ListAccessibleResources_exact (example_deps example_store) list_documents 5%Z);
    [reflexivity|vm_compute; reflexivity].
Defined.
