(* ===== verification/StateMachines.v ===== *)
(** * The state machines of the OAuth2 flows

    [backend/shared/spec/authorization_code_machine.go],
    [device_code_machine.go], [approval_request_machine.go] and the states in
    [enums.go].  Each machine is a transition table that a loop searches; the
    stores and use cases call the three [Transition] functions before they
    write a new state.

    The theorem is about whole histories: which sequences of events can turn a
    fresh flow into tokens.  It does not follow a single transition but every
    run, and with it terminal states are final and every run is finite. *)

From Stdlib Require Import String ZArith Lia.
From stdpp Require Import base strings list sets.
From S2P Require Import Prelude.

Local Open Scope string_scope.
Local Open Scope go_scope.

(** ** A transition table *)

Record transition := { From : string; Event : string; To : string }.

(** The loop of the [Transition] functions.  The text of the error, which only
    the logs show, keeps its format and arguments. *)
Fixpoint search (table : list transition) (from event : string) : option string :=
  match table with
  | [] => None
  | t :: table' => if (From t =? from) && (Event t =? event) then Some (To t) else search table' from event
  end.

Definition transition_error := errorf string.

Definition lookup_transition (table : list transition) (from event : string) : result transition_error string :=
  match search table from event with
  | Some to => Ok to
  | None => Err (Errorf "" "no transition from %q on event %q" [from; event])
  end.

(** ** The authorization code flow *)

Definition AuthorizationCodeFlowState := string.
Definition AuthFlowReceived : AuthorizationCodeFlowState := "received".
Definition AuthFlowAuthenticationPending : AuthorizationCodeFlowState := "authentication_pending".
Definition AuthFlowAuthenticated : AuthorizationCodeFlowState := "authenticated".
Definition AuthFlowConsentPending : AuthorizationCodeFlowState := "consent_pending".
Definition AuthFlowConsented : AuthorizationCodeFlowState := "consented".
Definition AuthFlowCodeIssued : AuthorizationCodeFlowState := "code_issued".
Definition AuthFlowExchanged : AuthorizationCodeFlowState := "exchanged".
Definition AuthFlowRejected : AuthorizationCodeFlowState := "rejected".
Definition AuthFlowExpired : AuthorizationCodeFlowState := "expired".

Definition AuthorizationCodeFlowState_Valid (s : AuthorizationCodeFlowState) : bool :=
  contains [AuthFlowReceived; AuthFlowAuthenticationPending; AuthFlowAuthenticated; AuthFlowConsentPending;
            AuthFlowConsented; AuthFlowCodeIssued; AuthFlowExchanged; AuthFlowRejected; AuthFlowExpired] s.

Definition AuthorizationCodeFlowEvent := string.
Definition EventStartAuthorization : AuthorizationCodeFlowEvent := "StartAuthorization".
Definition EventStartAuthentication : AuthorizationCodeFlowEvent := "StartAuthentication".
Definition EventAuthenticateUser : AuthorizationCodeFlowEvent := "AuthenticateUser".
Definition EventRequestConsent : AuthorizationCodeFlowEvent := "RequestConsent".
Definition EventGrantConsent : AuthorizationCodeFlowEvent := "GrantConsent".
Definition EventIssueCode : AuthorizationCodeFlowEvent := "IssueCode".
Definition EventRedeemCode : AuthorizationCodeFlowEvent := "RedeemCode".
Definition EventRejectAuthorization : AuthorizationCodeFlowEvent := "RejectAuthorization".
Definition EventExpireRequest : AuthorizationCodeFlowEvent := "ExpireRequest".

Definition authCodeFlowTransitions : list transition :=
  [ {| From := AuthFlowReceived; Event := EventStartAuthentication; To := AuthFlowAuthenticationPending |};
    {| From := AuthFlowAuthenticationPending; Event := EventAuthenticateUser; To := AuthFlowAuthenticated |};
    {| From := AuthFlowAuthenticated; Event := EventRequestConsent; To := AuthFlowConsentPending |};
    {| From := AuthFlowConsentPending; Event := EventGrantConsent; To := AuthFlowConsented |};
    {| From := AuthFlowAuthenticated; Event := EventIssueCode; To := AuthFlowCodeIssued |};
    {| From := AuthFlowConsented; Event := EventIssueCode; To := AuthFlowCodeIssued |};
    {| From := AuthFlowCodeIssued; Event := EventRedeemCode; To := AuthFlowExchanged |};
    {| From := AuthFlowReceived; Event := EventRejectAuthorization; To := AuthFlowRejected |};
    {| From := AuthFlowAuthenticationPending; Event := EventRejectAuthorization; To := AuthFlowRejected |};
    {| From := AuthFlowConsentPending; Event := EventRejectAuthorization; To := AuthFlowRejected |};
    {| From := AuthFlowReceived; Event := EventExpireRequest; To := AuthFlowExpired |};
    {| From := AuthFlowAuthenticationPending; Event := EventExpireRequest; To := AuthFlowExpired |};
    {| From := AuthFlowConsentPending; Event := EventExpireRequest; To := AuthFlowExpired |};
    {| From := AuthFlowCodeIssued; Event := EventExpireRequest; To := AuthFlowExpired |} ].

Definition TransitionAuthorizationCodeFlow : string -> string -> result transition_error string :=
  lookup_transition authCodeFlowTransitions.

Definition IsAuthorizationCodeFlowTerminal (s : AuthorizationCodeFlowState) : bool :=
  contains [AuthFlowExchanged; AuthFlowRejected; AuthFlowExpired] s.

(** ** The authorization code record *)

Definition AuthorizationCodeRecordState := string.
Definition AuthCodeRecordIssued : AuthorizationCodeRecordState := "issued".
Definition AuthCodeRecordRedeemed : AuthorizationCodeRecordState := "redeemed".
Definition AuthCodeRecordExpired : AuthorizationCodeRecordState := "expired".

Definition AuthorizationCodeRecordState_Valid (s : AuthorizationCodeRecordState) : bool :=
  contains [AuthCodeRecordIssued; AuthCodeRecordRedeemed; AuthCodeRecordExpired] s.

Definition AuthorizationCodeRecordEvent := string.
Definition RecordEventRedeem : AuthorizationCodeRecordEvent := "RedeemCode".
Definition RecordEventExpire : AuthorizationCodeRecordEvent := "ExpireCode".

Definition authCodeRecordTransitions : list transition :=
  [ {| From := AuthCodeRecordIssued; Event := RecordEventRedeem; To := AuthCodeRecordRedeemed |};
    {| From := AuthCodeRecordIssued; Event := RecordEventExpire; To := AuthCodeRecordExpired |} ].

Definition TransitionAuthorizationCodeRecord : string -> string -> result transition_error string :=
  lookup_transition authCodeRecordTransitions.

Definition IsAuthorizationCodeRecordTerminal (s : AuthorizationCodeRecordState) : bool :=
  contains [AuthCodeRecordRedeemed; AuthCodeRecordExpired] s.

(** ** The device code flow *)

Definition DeviceCodeFlowState := string.
Definition DeviceFlowIssued : DeviceCodeFlowState := "issued".
Definition DeviceFlowUserCodeEntered : DeviceCodeFlowState := "user_code_entered".
Definition DeviceFlowApproved : DeviceCodeFlowState := "approved".
Definition DeviceFlowDenied : DeviceCodeFlowState := "denied".
Definition DeviceFlowExchanged : DeviceCodeFlowState := "exchanged".
Definition DeviceFlowExpired : DeviceCodeFlowState := "expired".

Definition DeviceCodeFlowState_Valid (s : DeviceCodeFlowState) : bool :=
  contains [DeviceFlowIssued; DeviceFlowUserCodeEntered; DeviceFlowApproved; DeviceFlowDenied;
            DeviceFlowExchanged; DeviceFlowExpired] s.

Definition DeviceCodeFlowEvent := string.
Definition DeviceEventEnterUserCode : DeviceCodeFlowEvent := "EnterUserCode".
Definition DeviceEventApprove : DeviceCodeFlowEvent := "Approve".
Definition DeviceEventDeny : DeviceCodeFlowEvent := "Deny".
Definition DeviceEventExchange : DeviceCodeFlowEvent := "Exchange".
Definition DeviceEventExpire : DeviceCodeFlowEvent := "Expire".

Definition deviceCodeFlowTransitions : list transition :=
  [ {| From := DeviceFlowIssued; Event := DeviceEventEnterUserCode; To := DeviceFlowUserCodeEntered |};
    {| From := DeviceFlowUserCodeEntered; Event := DeviceEventApprove; To := DeviceFlowApproved |};
    {| From := DeviceFlowUserCodeEntered; Event := DeviceEventDeny; To := DeviceFlowDenied |};
    {| From := DeviceFlowApproved; Event := DeviceEventExchange; To := DeviceFlowExchanged |};
    {| From := DeviceFlowIssued; Event := DeviceEventExpire; To := DeviceFlowExpired |};
    {| From := DeviceFlowUserCodeEntered; Event := DeviceEventExpire; To := DeviceFlowExpired |};
    {| From := DeviceFlowApproved; Event := DeviceEventExpire; To := DeviceFlowExpired |} ].

Definition TransitionDeviceCodeFlow : string -> string -> result transition_error string :=
  lookup_transition deviceCodeFlowTransitions.

Definition IsDeviceCodeFlowTerminal (s : DeviceCodeFlowState) : bool :=
  contains [DeviceFlowDenied; DeviceFlowExchanged; DeviceFlowExpired] s.

Record DeviceCodePolling := { DefaultIntervalSeconds : Z; SlowDownIncrementSeconds : Z }.
Definition DefaultDeviceCodePolling : DeviceCodePolling :=
  {| DefaultIntervalSeconds := 5; SlowDownIncrementSeconds := 5 |}.

(** ** Approval requests *)

Definition ApprovalRequestState := string.
Definition ApprovalPending : ApprovalRequestState := "pending".
Definition ApprovalApproved : ApprovalRequestState := "approved".
Definition ApprovalDenied : ApprovalRequestState := "denied".
Definition ApprovalExpired : ApprovalRequestState := "expired".
Definition ApprovalConsumed : ApprovalRequestState := "consumed".

Definition ApprovalRequestState_Valid (s : ApprovalRequestState) : bool :=
  contains [ApprovalPending; ApprovalApproved; ApprovalDenied; ApprovalExpired; ApprovalConsumed] s.

Definition ApprovalRequestEvent := string.
Definition ApprovalEventApprove : ApprovalRequestEvent := "Approve".
Definition ApprovalEventDeny : ApprovalRequestEvent := "Deny".
Definition ApprovalEventConsume : ApprovalRequestEvent := "Consume".
Definition ApprovalEventExpire : ApprovalRequestEvent := "Expire".

Definition approvalRequestTransitions : list transition :=
  [ {| From := ApprovalPending; Event := ApprovalEventApprove; To := ApprovalApproved |};
    {| From := ApprovalPending; Event := ApprovalEventDeny; To := ApprovalDenied |};
    {| From := ApprovalPending; Event := ApprovalEventExpire; To := ApprovalExpired |};
    {| From := ApprovalApproved; Event := ApprovalEventConsume; To := ApprovalConsumed |};
    {| From := ApprovalApproved; Event := ApprovalEventExpire; To := ApprovalExpired |} ].

Definition TransitionApprovalRequest : string -> string -> result transition_error string :=
  lookup_transition approvalRequestTransitions.

Definition IsApprovalRequestTerminal (s : ApprovalRequestState) : bool :=
  contains [ApprovalDenied; ApprovalExpired; ApprovalConsumed] s.

(** ** Runs *)

(** The state after a sequence of events, when every one of them is allowed. *)
Fixpoint run_events (step : string -> string -> result transition_error string) (s : string)
    (events : list string) : option string :=
  match events with
  | [] => Some s
  | e :: events' => match step s e with Ok s' => run_events step s' events' | Err _ => None end
  end.

(** All runs of a table from a state, up to a number of events, with their ends. *)
Fixpoint runs_from (table : list transition) (fuel : nat) (s : string) : list (list string * string) :=
  ([], s) ::
  match fuel with
  | O => []
  | S fuel' =>
      flat_map (fun t => if From t =? s then map (fun r => (Event t :: r.1, r.2)) (runs_from table fuel' (To t)) else [])
        table
  end.

Lemma search_in table from event to :
  search table from event = Some to -> {| From := from; Event := event; To := to |} ∈ table.
Proof.
  induction table as [|[f e t] table IH]; simpl; [done|].
  destruct (_ && _) eqn:Hb; [|right; auto]. go_bool. destruct Hb as [<- <-]. intros [= <-]. left.
Qed.

(** The enumeration is complete: when it does not grow any more, it has every run. *)
Lemma runs_complete table n s events s' :
  run_events (lookup_transition table) s events = Some s' -> length events <= n ->
  (events, s') ∈ runs_from table n s.
Proof.
  revert s events. induction n as [|n IH]; intros s events Hrun Hlen.
  - destruct events; simpl in *; [|lia]. injection Hrun as <-. left.
  - destruct events as [|e events]; [simpl in *; injection Hrun as <-; left|].
    right. cbn in Hrun. unfold lookup_transition in Hrun.
    destruct (search table s e) as [t|] eqn:Ht; [|done]. apply search_in in Ht.
    apply list_elem_of_In, in_flat_map. eexists. split; [by apply list_elem_of_In|]. simpl.
    rewrite bool_decide_true by done. apply list_elem_of_In, list_elem_of_fmap. exists (events, s'). split; [done|].
    apply IH; [exact Hrun|]. simpl in Hlen. lia.
Qed.

Lemma run_events_app step s e1 e2 s' :
  run_events step s (e1 ++ e2) = Some s' ->
  exists s1, run_events step s e1 = Some s1 /\ run_events step s1 e2 = Some s'.
Proof.
  revert s. induction e1 as [|e e1 IH]; intros s; simpl; [by exists s|].
  destruct (step s e); [apply IH|done].
Qed.

(** No run is longer than [n] when the enumeration finds none of length [n + 1]. *)
Lemma runs_bounded table n s events s' :
  Forall (fun r => length r.1 <= n) (runs_from table (S n) s) ->
  run_events (lookup_transition table) s events = Some s' -> length events <= n.
Proof.
  intros Hall Hrun. destruct (decide (length events <= n)) as [|Hlen]; [done|exfalso].
  rewrite <- (take_drop (S n) events) in Hrun. apply run_events_app in Hrun as (s1 & Hrun & _).
  apply (runs_complete table (S n)) in Hrun; [|rewrite length_take; lia].
  rewrite Forall_forall in Hall. apply Hall in Hrun. simpl in Hrun. rewrite length_take in Hrun. lia.
Qed.

Lemma runs_exact table n s :
  forallb (fun r => length r.1 <=? n)%nat (runs_from table (S n) s) = true ->
  forall events s', run_events (lookup_transition table) s events = Some s' ->
  (events, s') ∈ runs_from table (S n) s.
Proof.
  intros Hb events s' Hrun. apply runs_complete; [done|]. enough (length events <= n) by lia.
  eapply runs_bounded; [|done].
  apply Forall_forall. intros r Hr. apply (proj1 (forallb_forall _ _)) with (x := r) in Hb; [|by apply list_elem_of_In].
  by apply Nat.leb_le in Hb.
Qed.

(** The runs that end in a given state. *)
Lemma runs_to table n s goal :
  forallb (fun r => length r.1 <=? n)%nat (runs_from table (S n) s) = true ->
  forall events, run_events (lookup_transition table) s events = Some goal ->
  events ∈ (List.filter (fun r => r.2 =? goal) (runs_from table (S n) s)).*1.
Proof.
  intros Hb events Hrun. apply (runs_exact _ _ _ Hb) in Hrun. apply list_elem_of_fmap. exists (events, goal).
  split; [done|]. apply list_elem_of_In, filter_In. split; [by apply list_elem_of_In|]. by apply bool_decide_true.
Qed.

(** A state without transitions. *)
Definition stuck (table : list transition) (s : string) : bool :=
  negb (existsb (fun t => From t =? s) table).

Lemma stuck_spec table s : stuck table s = true <-> forall e, search table s e = None.
Proof.
  unfold stuck. rewrite negb_true_iff. split.
  - intros Hs e. destruct (search table s e) as [t|] eqn:Ht; [|done]. apply search_in in Ht.
    apply not_true_iff_false in Hs. exfalso. apply Hs, existsb_exists. eexists.
    split; [by apply list_elem_of_In|]. by apply bool_decide_true.
  - intros Hs. apply not_true_iff_false. intros He. apply existsb_exists in He as ([f e t] & Hin & Hf).
    simpl in Hf. go_bool. subst f. specialize (Hs e). apply list_elem_of_In in Hin. revert Hs.
    clear -Hin. induction table as [|[f' e' t'] table IH]; simpl; [by apply elem_of_nil in Hin|].
    destruct (_ && _) eqn:Hb; [done|]. apply elem_of_cons in Hin as [[= <- <- <-]|Hin]; [|auto].
    by rewrite !bool_decide_true in Hb.
Qed.

(** The machines, each with its start and its predicate of final states. *)
Definition machines : list (list transition * string * (string -> bool)) :=
  [ (authCodeFlowTransitions, AuthFlowReceived, IsAuthorizationCodeFlowTerminal);
    (authCodeRecordTransitions, AuthCodeRecordIssued, IsAuthorizationCodeRecordTerminal);
    (deviceCodeFlowTransitions, DeviceFlowIssued, IsDeviceCodeFlowTerminal);
    (approvalRequestTransitions, ApprovalPending, IsApprovalRequestTerminal) ].

Lemma machine_runs table start final events s :
  forallb (fun r => length r.1 <=? 6)%nat (runs_from table 7 start) = true ->
  forallb (fun r => Bool.eqb (final r.2) (stuck table r.2)) (runs_from table 7 start) = true ->
  run_events (lookup_transition table) start events = Some s ->
  (length events <= 6)%nat /\ (final s = true <-> forall e, is_some (search table s e) = false).
Proof.
  intros Hlen Hfin Hrun. apply (runs_exact _ 6 _ Hlen) in Hrun.
  apply list_elem_of_In in Hrun. rewrite forallb_forall in Hlen, Hfin.
  specialize (Hlen _ Hrun). specialize (Hfin _ Hrun). simpl in Hlen, Hfin. apply Nat.leb_le in Hlen.
  split; [done|]. apply Bool.eqb_prop in Hfin. rewrite Hfin, stuck_spec.
  split; intros Hs e; specialize (Hs e); by destruct (search table s e).
Qed.

(** Tokens come out of a flow in one way only.  An authorization request is
    exchanged exactly by authentication, at most one round of consent, the issue
    of the code and one redemption, in that order; a device code exactly by the
    entry of its user code, one approval and one exchange; an approval request
    is consumed exactly by one approval and one consumption.  No other sequence
    of events, of any length, gets there.  Every run of every machine has at most
    six events, and the states it can reach that the code calls terminal are
    exactly those that no event leaves. *)
Theorem flows_succeed_in_order events :
  (run_events TransitionAuthorizationCodeFlow AuthFlowReceived events = Some AuthFlowExchanged <->
     events = [EventStartAuthentication; EventAuthenticateUser; EventIssueCode; EventRedeemCode] \/
     events = [EventStartAuthentication; EventAuthenticateUser; EventRequestConsent; EventGrantConsent;
               EventIssueCode; EventRedeemCode]) /\
  (run_events TransitionDeviceCodeFlow DeviceFlowIssued events = Some DeviceFlowExchanged <->
     events = [DeviceEventEnterUserCode; DeviceEventApprove; DeviceEventExchange]) /\
  (run_events TransitionApprovalRequest ApprovalPending events = Some ApprovalConsumed <->
     events = [ApprovalEventApprove; ApprovalEventConsume]) /\
  Forall (fun '(table, start, final) =>
    forall s, run_events (lookup_transition table) start events = Some s ->
      (length events <= 6)%nat /\ (final s = true <-> forall e, is_some (search table s e) = false)) machines.
Proof.
  split_and!.
  - split; [|by intros [-> | ->]]. intros Hrun. apply (runs_to _ 6) in Hrun; [|reflexivity].
    vm_compute in Hrun. set_solver.
  - split; [|by intros ->]. intros Hrun. apply (runs_to _ 6) in Hrun; [|reflexivity].
    vm_compute in Hrun. set_solver.
  - split; [|by intros ->]. intros Hrun. apply (runs_to _ 6) in Hrun; [|reflexivity].
    vm_compute in Hrun. set_solver.
  - repeat (apply Forall_cons_2; [intros s; apply machine_runs; reflexivity|]). apply Forall_nil_2.
Qed.
