(* ===== verification/RichAuthorization.v ===== *)
(** * OAuth2: rich authorization requests

    [backend/oauth2/internal/authorization/domain/authorization_details.go] and
    [authorization_detail_type.go], with [AuthorizationDetail] of
    [shared/spec/oauth2.go]: the validation of a detail against its registered
    type and the comparison that decides whether a request stays within what was
    granted.

    A detail's free fields hold JSON values; floating point numbers are IEEE 754
    values ([spec_float]), compared as Go compares them.  The theorems say that
    the comparison is a preorder on valid details and that a detail it accepts
    carries no authority that the granted details do not carry. *)

From Stdlib Require Import String ZArith Lia.
From Stdlib Require Import Floats.SpecFloat.
From stdpp Require Import base strings list gmap sets.
From S2P Require Import Prelude GoStrings Rules.

Local Open Scope string_scope.
Local Open Scope go_scope.

(** ** Data *)

(** The dynamic types that the code distinguishes in a value of type [any];
    [VOther] is a value of any other type. *)
Inductive field_value :=
| VNil
| VString (s : string)
| VStrings (l : list string)
| VSlice (l : list field_value)
| VFloat64 (f : spec_float)
| VFloat32 (f : spec_float)
| VInt (z : Z)
| VInt64 (z : Z)
| VOther.

Record AuthorizationDetail := {
  detail_Type : string;
  Locations : list string;
  Actions : list string;
  Datatypes : list string;
  Identifier : string;
  Privileges : list string;
  detail_Fields : gmap string field_value;
}.

Definition AuthorizationDetailFieldSemantics := string.
Definition DetailFieldSet : AuthorizationDetailFieldSemantics := "set".
Definition DetailFieldAtMost : AuthorizationDetailFieldSemantics := "at_most".
Definition DetailFieldEnum : AuthorizationDetailFieldSemantics := "enum".
Definition DetailFieldExact : AuthorizationDetailFieldSemantics := "exact".

Definition Semantics_Valid (s : AuthorizationDetailFieldSemantics) : bool :=
  contains [DetailFieldSet; DetailFieldAtMost; DetailFieldEnum; DetailFieldExact] s.

Definition AuthorizationDetailTypeState := string.
Definition DetailTypeEnabled : AuthorizationDetailTypeState := "Enabled".
Definition DetailTypeDisabled : AuthorizationDetailTypeState := "Disabled".

Definition TypeState_Valid (s : AuthorizationDetailTypeState) : bool :=
  contains [DetailTypeEnabled; DetailTypeDisabled] s.

Record AuthorizationDetailFieldRule := {
  rule_Name : string;
  rule_Semantics : AuthorizationDetailFieldSemantics;
  rule_Required : bool;
  rule_Allowed : list string;
}.

Record AuthorizationDetailType := {
  type_TenantID : string;
  type_Type : string;
  type_Description : string;
  type_Rules : list AuthorizationDetailFieldRule;
  type_DisplayTemplate : string;
  type_State : AuthorizationDetailTypeState;
  type_CreatedAt : Time;
  type_UpdatedAt : Time;
}.

Definition AuthorizationDetailType_Validate (t : AuthorizationDetailType) : result rule_error unit :=
  All [ Required "TenantID" (type_TenantID t) []; Required "Type" (type_Type t) [];
        Required "DisplayTemplate" (type_DisplayTemplate t) [];
        Required "State" (type_State t) [Must TypeState_Valid "authorization detail type state is not in enum"];
        Nested "Schema" (NonEmpty "Rules" (type_Rules t) ++
          EachWith "Rules" (type_Rules t) (fun rule =>
            Required "Name" (rule_Name rule) [] ++
            Required "Semantics" (rule_Semantics rule)
              [Must Semantics_Valid "authorization detail field semantics is not in enum"]))%list;
        Required "CreatedAt" (type_CreatedAt t) []; Required "UpdatedAt" (type_UpdatedAt t) [] ].

(** ** The fields of a detail *)

Definition standardArrayFields : list (string * (AuthorizationDetail -> list string)) :=
  [ ("locations", Locations); ("actions", Actions); ("datatypes", Datatypes); ("privileges", Privileges) ].

Definition standard (name : string) : option (AuthorizationDetail -> list string) :=
  snd <$> find (fun e => fst e =? name) standardArrayFields.

(** [strings.TrimSpace(s) == ""]: nothing but white space. *)
Definition blank (s : string) : bool := match Fields s with [] => true | _ => false end.

Definition presentFieldNames (d : AuthorizationDetail) : gset string :=
  list_to_set (fst <$> List.filter (fun e => match snd e d with [] => false | _ => true end) standardArrayFields) ∪
  (if blank (Identifier d) then ∅ else {["identifier"]}) ∪
  dom (detail_Fields d).

(** The loop over a [[]any]: every element has to be a string. *)
Fixpoint slice_strings (l : list field_value) : option (list string) :=
  match l with
  | [] => Some []
  | VString s :: l' => cons s <$> slice_strings l'
  | _ :: _ => None
  end.

(** Go's pair with [ok] = false is [None]: no caller uses the values then. *)
Definition nonempty (l : list string) : option (list string) :=
  match l with [] => None | _ => Some l end.

Definition fieldStrings (d : AuthorizationDetail) (name : string) : option (list string) :=
  match standard name with
  | Some get => nonempty (get d)
  | None =>
      if name =? "identifier" then (if blank (Identifier d) then None else Some [Identifier d])
      else match detail_Fields d !! name with
      | Some (VString s) => Some [s]
      | Some (VStrings l) => nonempty l
      | Some (VSlice l) => slice_strings l ≫= nonempty
      | _ => None
      end
  end.

(** [float64(v)] of an integer: the nearest double. *)
Definition float64_of_int (z : Z) : spec_float := binary_normalize 53 1024 z 0 false.

Definition fieldNumber (d : AuthorizationDetail) (name : string) : option spec_float :=
  match detail_Fields d !! name with
  | Some (VFloat64 f) | Some (VFloat32 f) => Some f
  | Some (VInt z) | Some (VInt64 z) => Some (float64_of_int z)
  | _ => None
  end.

(** ** Validation *)

Definition detail_error := errorf string.

Definition validateFieldValue (d : AuthorizationDetail) (rule : AuthorizationDetailFieldRule) (typeName : string) :
    result detail_error unit :=
  let name := rule_Name rule in
  if (rule_Semantics rule =? DetailFieldSet) || (rule_Semantics rule =? DetailFieldEnum) then
    match fieldStrings d name with
    | None => Err (Errorf "" "authorization detail field %q must be a string or string array" [name])
    | Some values =>
        reject (rule_Semantics rule =? DetailFieldEnum) && negb (length values =? 1)%nat with
          Errorf "" "authorization detail field %q must be a single value" [name] in
        match rule_Allowed rule with
        | [] => Ok tt
        | allowed => for_each (fun v =>
            reject negb (contains allowed v) with
              Errorf "" "authorization detail field %q value %q is not allowed by type %q" [name; v; typeName] in
            Ok tt) values
        end
    end
  else if rule_Semantics rule =? DetailFieldAtMost then
    match fieldNumber d name with
    | None => Err (Errorf "" "authorization detail field %q must be a number" [name])
    | Some _ => Ok tt
    end
  else if rule_Semantics rule =? DetailFieldExact then
    match fieldStrings d name with
    | None => Err (Errorf "" "authorization detail field %q must be a scalar value" [name])
    | Some _ => Ok tt
    end
  else Err (Errorf "" "authorization detail field %q has unknown semantics %q" [name; rule_Semantics rule]).

(** The bodies of the two loops of [ValidateAgainstType]. *)
Definition check_governed (t : AuthorizationDetailType) (name : string) : result detail_error unit :=
  reject negb (contains (rule_Name <$> type_Rules t) name) with
    Errorf "" "authorization detail field %q is not allowed by type %q" [name; type_Type t] in
  Ok tt.

Definition check_rule (d : AuthorizationDetail) (t : AuthorizationDetailType) (present : gset string)
    (rule : AuthorizationDetailFieldRule) : result detail_error unit :=
  let isPresent := bool_decide (rule_Name rule ∈ present) in
  reject rule_Required rule && negb isPresent with
    Errorf "" "authorization detail field %q is required by type %q" [rule_Name rule; type_Type t] in
  if negb isPresent then Ok tt else validateFieldValue d rule (type_Type t).

(** The code ranges over the map of present names in no order, so which of
    several ungoverned names an error reports is not determined; the model
    takes the first in the order of [elements]. *)
Definition ValidateAgainstType (d : AuthorizationDetail) (t : AuthorizationDetailType) : result detail_error unit :=
  reject detail_Type d =? "" with Errorf "" "authorization detail type is required" [] in
  reject detail_Type d <>? type_Type t with
    Errorf "" "authorization detail type %q does not match registered type %q" [detail_Type d; type_Type t] in
  reject type_State t <>? DetailTypeEnabled with
    Errorf "" "authorization detail type %q is not enabled" [type_Type t] in
  let present := presentFieldNames d in
  let? _ := for_each (check_governed t) (elements present) in
  for_each (check_rule d t present) (type_Rules t).

(** ** Subsets *)

Definition detailFieldSubset (requested granted : AuthorizationDetail) (rule : AuthorizationDetailFieldRule) : bool :=
  let name := rule_Name rule in
  if (rule_Semantics rule =? DetailFieldSet) || (rule_Semantics rule =? DetailFieldEnum) then
    match fieldStrings requested name, fieldStrings granted name with
    | None, _ => true
    | Some _, None => false
    | Some reqValues, Some grantValues => forallb (contains grantValues) reqValues
    end
  else if rule_Semantics rule =? DetailFieldAtMost then
    match fieldNumber requested name, fieldNumber granted name with
    | None, _ => true
    | Some _, None => false
    | Some reqNum, Some grantNum => SFleb reqNum grantNum
    end
  else if rule_Semantics rule =? DetailFieldExact then
    match fieldStrings requested name, fieldStrings granted name with
    | None, _ => true
    | Some _, None => false
    | Some reqValues, Some grantValues => reqValues =? grantValues
    end
  else false.

Definition detailSubsetOf (requested granted : AuthorizationDetail) (t : AuthorizationDetailType) : bool :=
  if (detail_Type requested <>? detail_Type granted) || (detail_Type requested <>? type_Type t) then false
  else forallb (detailFieldSubset requested granted) (type_Rules t).

Definition DetailsSubsetOf (requested granted : list AuthorizationDetail)
    (types : gmap string AuthorizationDetailType) : result detail_error unit :=
  for_each (fun req =>
    match types !! detail_Type req with
    | None => Err (Errorf "" "authorization detail type %q is not registered" [detail_Type req])
    | Some t =>
        let covered := existsb (fun grant =>
          (detail_Type grant =? detail_Type req) && detailSubsetOf req grant t) granted in
        reject negb covered with
          Errorf "" "requested authorization detail of type %q exceeds the consented grant" [detail_Type req] in
        Ok tt
    end) requested.

Definition DetailTypes (details : list AuthorizationDetail) : list string :=
  fold_left (fun out d =>
    if (detail_Type d =? "") || contains out (detail_Type d) then out
    else (out ++ [detail_Type d])%list) details [].

(** ** Comparing floating point numbers *)

Definition finite_le (m1 : positive) (e1 : Z) (m2 : positive) (e2 : Z) : Prop :=
  (e1 < e2)%Z \/ (e1 = e2 /\ (m1 <= m2)%positive).

Lemma SFleb_finite s m1 e1 m2 e2 :
  SFleb (S754_finite s m1 e1) (S754_finite s m2 e2) = true <->
  if s then finite_le m2 e2 m1 e1 else finite_le m1 e1 m2 e2.
Proof.
  unfold SFleb, SFcompare, finite_le.
  destruct s; destruct (Z.compare_spec e1 e2) as [He|He|He];
    change (PosDef.Pos.compare_cont Eq m1 m2) with (m1 ?= m2)%positive;
    try destruct (Pos.compare_spec m1 m2) as [Hm|Hm|Hm]; simpl; split; intros; try done; lia.
Qed.

Lemma SFleb_trans f g h : SFleb f g = true -> SFleb g h = true -> SFleb f h = true.
Proof.
  destruct f as [|[]| |[] m1 e1], g as [|[]| |[] m2 e2], h as [|[]| |[] m3 e3]; try done;
    rewrite ?SFleb_finite; unfold finite_le; try lia.
Qed.

(** ** Authority *)

(** What a detail allows, field by field: a value of a set or an enumeration, a
    number up to its limit, an opaque value. *)
Inductive authority :=
| MayUse (name value : string)
| UpTo (name : string) (number : spec_float)
| Exactly (name : string) (values : list string).

Definition governs (t : AuthorizationDetailType) (name : string) (semantics : list string) : Prop :=
  exists rule, rule ∈ type_Rules t /\ rule_Name rule = name /\ rule_Semantics rule ∈ semantics.

Definition carries (t : AuthorizationDetailType) (d : AuthorizationDetail) (a : authority) : Prop :=
  match a with
  | MayUse name v =>
      governs t name [DetailFieldSet; DetailFieldEnum] /\ exists l, fieldStrings d name = Some l /\ v ∈ l
  | UpTo name n =>
      governs t name [DetailFieldAtMost] /\ exists m, fieldNumber d name = Some m /\ SFleb n m = true
  | Exactly name values => governs t name [DetailFieldExact] /\ fieldStrings d name = Some values
  end.

(** No limit of the detail is NaN; a number read from JSON never is. *)
Definition numbers_ordered (d : AuthorizationDetail) : Prop :=
  forall name f, fieldNumber d name = Some f -> SFleb f f = true.

Lemma fieldStrings_nonempty d name l : fieldStrings d name = Some l -> l <> [].
Proof.
  unfold fieldStrings, nonempty. intros H.
  destruct (standard name) as [get|]; [by destruct (get d); simplify_eq|].
  destruct (name =? "identifier"); [by destruct (blank _); simplify_eq|].
  destruct (detail_Fields d !! name) as [v|]; [|done]. destruct v as [| | l'|l'| | | | |]; simplify_eq; try done.
  - by destruct l'; simplify_eq.
  - destruct (slice_strings l') as [[|]|]; simplify_eq/=; done.
Qed.

Lemma Semantics_cases s :
  Semantics_Valid s = true ->
  s ∈ [DetailFieldSet; DetailFieldEnum] \/ s = DetailFieldAtMost \/ s = DetailFieldExact.
Proof. unfold Semantics_Valid. intros H. apply contains_true in H. set_solver. Qed.

Lemma set_semantics s :
  (s =? DetailFieldSet) || (s =? DetailFieldEnum) = bool_decide (s ∈ [DetailFieldSet; DetailFieldEnum]).
Proof. apply eq_true_iff_eq. rewrite orb_true_iff, !bool_decide_eq_true. set_solver. Qed.

(** One field: the requested authority of the rule is within the granted one. *)
Lemma detailFieldSubset_spec r g rule t :
  rule ∈ type_Rules t -> Semantics_Valid (rule_Semantics rule) = true -> numbers_ordered r ->
  detailFieldSubset r g rule = true <->
  forall a, match a with MayUse n _ => n = rule_Name rule /\ rule_Semantics rule ∈ [DetailFieldSet; DetailFieldEnum]
            | UpTo n _ => n = rule_Name rule /\ rule_Semantics rule = DetailFieldAtMost
            | Exactly n _ => n = rule_Name rule /\ rule_Semantics rule = DetailFieldExact end ->
            carries t r a -> carries t g a.
Proof.
  intros Hin Hs Hnum. unfold detailFieldSubset. rewrite set_semantics.
  apply Semantics_cases in Hs as [Hs|[Hs|Hs]].
  - rewrite bool_decide_true by done. assert (Hg : governs t (rule_Name rule) [DetailFieldSet; DetailFieldEnum]) by (by exists rule).
    assert (Hd : forall s', s' ∈ [DetailFieldSet; DetailFieldEnum] -> s' <> DetailFieldAtMost /\ s' <> DetailFieldExact) by (intros s'; set_solver).
    destruct (Hd _ Hs) as [H1 H2]. destruct (fieldStrings r (rule_Name rule)) as [l|] eqn:Hr.
    + destruct (fieldStrings g (rule_Name rule)) as [l'|] eqn:Hl'.
      * rewrite forallb_forall. split.
        -- intros Hsub [n v|n v|n v] [-> ?]; [|done..]. intros [_ (l0 & Hl0 & Hv)]. simplify_eq. split; [done|].
           exists l'. split; [done|]. apply contains_true, Hsub. by apply list_elem_of_In.
        -- intros Hall v Hv. apply list_elem_of_In in Hv. apply contains_true.
           destruct (Hall (MayUse (rule_Name rule) v)) as [_ (l0 & Hl0 & Hv0)]; [done|split; [done|by exists l]|]. congruence.
      * split; [done|]. intros Hall. destruct l as [|v l]; [by apply fieldStrings_nonempty in Hr|].
        destruct (Hall (MayUse (rule_Name rule) v)) as [_ (l0 & Hl0 & _)]; [done|split; [done|]|congruence].
        exists (v :: l). split; [done|left].
    + split; [|done]. intros _ [n v|n v|n v] [-> ?]; [|done..]. intros [_ (l0 & Hl0 & _)]. congruence.
  - rewrite Hs. rewrite bool_decide_false by (by vm_compute; set_solver). rewrite bool_decide_true by done.
    assert (Hg : governs t (rule_Name rule) [DetailFieldAtMost]) by (exists rule; set_solver).
    destruct (fieldNumber r (rule_Name rule)) as [f|] eqn:Hr.
    + destruct (fieldNumber g (rule_Name rule)) as [f'|] eqn:Hf'.
      * split.
        -- intros Hle [n v|n v|n v] [-> ?]; [set_solver| |done]. intros [_ (m & Hm & Hn)]. simplify_eq.
           split; [done|]. exists f'. split; [done|]. by eapply SFleb_trans.
        -- intros Hall. destruct (Hall (UpTo (rule_Name rule) f)) as [_ (m & Hm & Hn)]; [done| |congruence].
           split; [done|]. exists f. split; [done|]. by eapply Hnum.
      * split; [done|]. intros Hall. destruct (Hall (UpTo (rule_Name rule) f)) as [_ (m & Hm & Hn)]; [done| |congruence].
        split; [done|]. exists f. split; [done|]. by eapply Hnum.
    + split; [|done]. intros _ [n v|n v|n v] [-> ?]; [set_solver| |done]. intros [_ (m & Hm & _)]. congruence.
  - rewrite Hs. rewrite bool_decide_false by (by vm_compute; set_solver).
    rewrite (bool_decide_false (DetailFieldExact = DetailFieldAtMost)) by done. rewrite bool_decide_true by done.
    assert (Hg : governs t (rule_Name rule) [DetailFieldExact]) by (exists rule; set_solver).
    destruct (fieldStrings r (rule_Name rule)) as [l|] eqn:Hr.
    + destruct (fieldStrings g (rule_Name rule)) as [l'|] eqn:Hl'.
      * rewrite bool_decide_eq_true. split.
        -- intros -> [n v|n v|n v] [-> ?]; [set_solver|done|]. intros [_ Hv]. split; [done|congruence].
        -- intros Hall. destruct (Hall (Exactly (rule_Name rule) l)) as [_ Hl]; [done|by split|congruence].
      * split; [done|]. intros Hall. destruct (Hall (Exactly (rule_Name rule) l)) as [_ Hl]; [done|by split|congruence].
    + split; [|done]. intros _ [n v|n v|n v] [-> ?]; [set_solver|done|]. intros [_ Hv]. congruence.
Qed.

Lemma detailSubsetOf_spec r g t :
  Forall (fun rule => Semantics_Valid (rule_Semantics rule) = true) (type_Rules t) -> numbers_ordered r ->
  detailSubsetOf r g t = true <->
  detail_Type r = detail_Type g /\ detail_Type r = type_Type t /\ forall a, carries t r a -> carries t g a.
Proof.
  intros Hs Hnum. rewrite Forall_forall in Hs. unfold detailSubsetOf.
  destruct (_ || _) eqn:Ht; go_bool.
  { split; [done|]. intros (H1 & H2 & _). by destruct Ht as [Ht|Ht]; destruct Ht. }
  destruct Ht as [Ht1 Ht2]. rewrite forallb_forall. split.
  - intros Hall. split_and!; [done..|]. intros a Ha.
    assert (Hrule : forall rule, rule ∈ type_Rules t -> detailFieldSubset r g rule = true).
    { intros rule Hrule. by apply Hall, list_elem_of_In. }
    destruct a as [n v|n v|n v]; pose proof Ha as [(rule & Hin & <- & Hsem) _]; specialize (Hrule _ Hin);
      rewrite detailFieldSubset_spec in Hrule by (try apply Hs; done); apply Hrule; simpl; try done; set_solver.
  - intros (_ & _ & Hall) rule Hin. apply list_elem_of_In in Hin.
    rewrite detailFieldSubset_spec by (try apply Hs; done). intros a _. apply Hall.
Qed.

(** The types that the code passes: each under its own name, with the semantics
    that registration accepts. *)
Definition types_ok (types : gmap string AuthorizationDetailType) : Prop :=
  forall ty t, types !! ty = Some t ->
    type_Type t = ty /\ Forall (fun rule => Semantics_Valid (rule_Semantics rule) = true) (type_Rules t).

(** C7. Down-scoping is exactly the inclusion of authority: a request is within the
    grant if and only if every requested detail has a registered type and a
    granted detail of that type carries all the authority, value by value and
    limit by limit, that the requested one carries.  Authority is never put
    together from several grants. *)
Theorem DetailsSubsetOf_exact requested granted types :
  types_ok types -> Forall numbers_ordered requested ->
  DetailsSubsetOf requested granted types = Ok tt <->
  forall r, r ∈ requested ->
    exists t g, types !! detail_Type r = Some t /\ g ∈ granted /\ detail_Type g = detail_Type r /\
      forall a, carries t r a -> carries t g a.
Proof.
  intros Hty Hnum. unfold DetailsSubsetOf. rewrite for_each_Ok, Forall_forall. rewrite Forall_forall in Hnum.
  split; intros Hall r Hr; specialize (Hall r Hr); specialize (Hnum r Hr).
  - destruct (types !! detail_Type r) as [t|] eqn:Ht; [|done]. destruct (Hty _ _ Ht) as [Hn Hs].
    destruct (existsb _ granted) eqn:He; [|done]. apply existsb_exists in He as (g & Hg & Hb).
    go_bool. destruct Hb as [Htg Hsub]. apply detailSubsetOf_spec in Hsub as (_ & _ & Hc); [|done..].
    exists t, g. split_and!; [done|by apply list_elem_of_In|done|done].
  - destruct Hall as (t & g & Ht & Hg & Htg & Hc). rewrite Ht. destruct (Hty _ _ Ht) as [Hn Hs].
    replace (existsb _ granted) with true; [done|]. symmetry. apply existsb_exists. exists g.
    split; [by apply list_elem_of_In|]. rewrite bool_decide_true by done. simpl.
    apply detailSubsetOf_spec; [done..|]. split_and!; [done|by rewrite Hn|done].
Qed.

(** ** What validation guarantees *)

Lemma elem_of_presentFieldNames d name :
  name ∈ presentFieldNames d <->
  match standard name with
  | Some get => get d <> [] \/ name ∈ dom (detail_Fields d)
  | None => (name = "identifier" /\ blank (Identifier d) = false) \/ name ∈ dom (detail_Fields d)
  end.
Proof.
  unfold presentFieldNames. rewrite !elem_of_union, elem_of_list_to_set, list_elem_of_fmap.
  assert (Hstd : (exists e, name = fst e /\ e ∈ List.filter (fun e => match snd e d with [] => false | _ => true end) standardArrayFields)
    <-> exists get, standard name = Some get /\ get d <> []).
  { unfold standard. cbn [standardArrayFields find fst snd]. split.
    - intros (e & -> & He). apply list_elem_of_In, filter_In in He as [He Hp].
      simpl in He. destruct He as [<-|[<-|[<-|[<-|[]]]]]; simpl in *; eexists; (split; [reflexivity|]);
        intros Hn; by rewrite Hn in Hp.
    - intros (get & Hf & Hg). repeat (destruct (bool_decide _) eqn:Hb in Hf;
        [go_bool; subst; injection Hf as <-; eexists (_, _); (split; [reflexivity|]);
         apply list_elem_of_In, filter_In; (split; [simpl; tauto|]); cbn [snd];
         cbn in Hg |- *; revert Hg; match goal with |- ?l <> _ -> _ => destruct l; congruence end|clear Hb]). discriminate Hf. }
  rewrite Hstd. destruct (standard name) as [get|] eqn:Hn.
  - assert (name <> "identifier") by (intros ->; done).
    destruct (blank (Identifier d)); set_solver.
  - destruct (blank (Identifier d)) eqn:Hb; set_solver.
Qed.

(** A value of a governed field is of the kind its rule asks for. *)
Definition value_conforms (d : AuthorizationDetail) (rule : AuthorizationDetailFieldRule) : Prop :=
  let name := rule_Name rule in
  (rule_Semantics rule ∈ [DetailFieldSet; DetailFieldEnum] /\
     exists l, fieldStrings d name = Some l /\ (rule_Semantics rule = DetailFieldEnum -> exists v, l = [v]) /\
       (rule_Allowed rule <> [] -> forall v, v ∈ l -> v ∈ rule_Allowed rule)) \/
  (rule_Semantics rule = DetailFieldAtMost /\ exists f, fieldNumber d name = Some f) \/
  (rule_Semantics rule = DetailFieldExact /\ exists l, fieldStrings d name = Some l).

Lemma validateFieldValue_spec d rule ty :
  validateFieldValue d rule ty = Ok tt <-> value_conforms d rule.
Proof.
  unfold validateFieldValue, value_conforms. rewrite set_semantics.
  assert (Hne : forall s, s ∈ [DetailFieldSet; DetailFieldEnum] -> s <> DetailFieldAtMost /\ s <> DetailFieldExact)
    by (intros s; set_solver).
  destruct (bool_decide (_ ∈ _)) eqn:Hs; go_bool.
  - destruct (Hne _ Hs) as [H1 H2]. destruct (fieldStrings d (rule_Name rule)) as [l|] eqn:Hl; [|naive_solver].
    destruct (_ && _) eqn:He.
    + go_bool. destruct He as [He Hlen]. apply Nat.eqb_neq in Hlen.
      split; [done|]. intros [[_ (l' & [= <-] & Hv & _)]|[[? _]|[? _]]]; [|done..].
      destruct (Hv He) as [v ->]. done.
    + assert (Henum : rule_Semantics rule = DetailFieldEnum -> exists v, l = [v]).
      { intros Hen. rewrite Hen, bool_decide_true in He by done. simpl in He. apply negb_false_iff, Nat.eqb_eq in He.
        destruct l as [|v [|]]; try done. by exists v. }
      destruct (rule_Allowed rule) as [|a al]; [naive_solver|]. rewrite for_each_Ok, Forall_forall. split.
      * intros Hall. left. split; [done|]. exists l. split_and!; [done..|]. intros _ v Hv.
        specialize (Hall v Hv). destruct (contains (a :: al) v) eqn:Hc; [|done]. by apply contains_true.
      * intros [[_ (l' & [= <-] & _ & Hv)]|[[? _]|[? _]]]; [|done..]. intros v Hin.
        specialize (Hv ltac:(done) v Hin). apply contains_true in Hv. by rewrite Hv.
  - destruct (bool_decide (_ = DetailFieldAtMost)) eqn:Ha; go_bool.
    + destruct (fieldNumber d (rule_Name rule)) as [f|]; [naive_solver|].
      split; [done|]. intros [[? _]|[[_ (? & ?)]|[He _]]]; [done|done|]. by rewrite He in Ha.
    + destruct (bool_decide (_ = DetailFieldExact)) eqn:Hx; go_bool; [|naive_solver].
      destruct (fieldStrings d (rule_Name rule)); naive_solver.
Qed.

Lemma check_governed_Ok t name :
  check_governed t name = Ok tt <-> exists rule, rule ∈ type_Rules t /\ rule_Name rule = name.
Proof.
  unfold check_governed. destruct (contains _ name) eqn:Hc; simpl.
  - split; [|done]. intros _. apply contains_true, list_elem_of_fmap in Hc as (rule & -> & Hr). by exists rule.
  - split; [done|]. intros (rule & Hr & <-). apply not_true_iff_false in Hc. exfalso. apply Hc.
    apply contains_true, list_elem_of_fmap. by exists rule.
Qed.

Lemma check_rule_Ok d t present rule :
  check_rule d t present rule = Ok tt <->
  (rule_Required rule = true -> rule_Name rule ∈ present) /\ (rule_Name rule ∈ present -> value_conforms d rule).
Proof.
  rewrite <- (validateFieldValue_spec d rule (type_Type t)). unfold check_rule.
  destruct (rule_Required rule), (bool_decide (rule_Name rule ∈ _)) eqn:Hb; go_bool; simpl; naive_solver.
Qed.

(** Validation is fail-closed: a detail is accepted if and only if it names the
    type, the type is enabled, every field present in the detail (a registered
    one or a free one) is governed by a rule, every required field is present,
    and every present field has a value of the kind its rule prescribes, within
    the allowed values. *)
Theorem ValidateAgainstType_exact d t :
  ValidateAgainstType d t = Ok tt <->
  detail_Type d <> "" /\ detail_Type d = type_Type t /\ type_State t = DetailTypeEnabled /\
  (forall name, name ∈ presentFieldNames d -> exists rule, rule ∈ type_Rules t /\ rule_Name rule = name) /\
  (forall rule, rule ∈ type_Rules t ->
     (rule_Required rule = true -> rule_Name rule ∈ presentFieldNames d) /\
     (rule_Name rule ∈ presentFieldNames d -> value_conforms d rule)).
Proof.
  unfold ValidateAgainstType. destruct (detail_Type d =? "") eqn:H1; go_bool; [naive_solver|].
  destruct (detail_Type d <>? type_Type t) eqn:H2; go_bool; [naive_solver|].
  destruct (type_State t <>? DetailTypeEnabled) eqn:H3; go_bool; [naive_solver|].
  setoid_rewrite <- check_governed_Ok. setoid_rewrite <- check_rule_Ok.
  rewrite res_bind_Ok. split.
  - intros ([] & Ha & Hb). apply for_each_Ok in Ha, Hb. rewrite Forall_forall in Ha. rewrite Forall_forall in Hb.
    split_and!; [done..| |exact Hb]. intros name Hn. by apply Ha, elem_of_elements.
  - intros (_ & _ & _ & Ha & Hb). exists tt. split; apply for_each_Ok, Forall_forall; [|done].
    intros name Hn. by apply Ha, elem_of_elements.
Qed.

(** ** Witness: a payment within its limit *)

Definition payment_type : AuthorizationDetailType :=
  {| type_TenantID := "acme"; type_Type := "payment"; type_Description := "";
     type_Rules :=
       [ {| rule_Name := "actions"; rule_Semantics := DetailFieldSet; rule_Required := true; rule_Allowed := ["read"; "pay"] |};
         {| rule_Name := "amount"; rule_Semantics := DetailFieldAtMost; rule_Required := false; rule_Allowed := [] |} ];
     type_DisplayTemplate := "pay"; type_State := DetailTypeEnabled; type_CreatedAt := 1%Z; type_UpdatedAt := 1%Z |}.

Definition payment (actions : list string) (amount : Z) : AuthorizationDetail :=
  {| detail_Type := "payment"; Locations := []; Actions := actions; Datatypes := []; Identifier := "";
     Privileges := []; detail_Fields := {["amount" := VInt amount]} |}.

Example payment_valid :
  ValidateAgainstType (payment ["pay"] 100) payment_type = Ok tt /\
  ValidateAgainstType (payment ["refund"] 100) payment_type <> Ok tt /\
  DetailsSubsetOf [payment ["pay"] 101] [payment ["pay"] 100; payment ["read"] 200] {["payment" := payment_type]} <> Ok tt.
Proof. vm_compute. split_and!; done. Qed.

Lemma payment_ordered actions amount :
  SFleb (float64_of_int amount) (float64_of_int amount) = true -> numbers_ordered (payment actions amount).
Proof.
  intros Hle name f. unfold fieldNumber. simpl. destruct (decide (name = "amount")) as [->|Hne].
  - rewrite lookup_singleton_eq. by intros [= <-].
  - by rewrite lookup_singleton_ne.
Qed.

Lemma DetailsSubsetOf_exact_witness :
  DetailsSubsetOf [payment ["pay"] 99] [payment ["read"; "pay"] 100] {["payment" := payment_type]} = Ok tt /\
  forall r, r ∈ [payment ["pay"] 99] ->
    exists t g, ({["payment" := payment_type]} : gmap string AuthorizationDetailType) !! detail_Type r = Some t /\
      g ∈ [payment ["read"; "pay"] 100] /\ detail_Type g = detail_Type r /\ forall a, carries t r a -> carries t g a.
Proof.
  assert (Hok : types_ok {["payment" := payment_type]}).
  { intros ty t Ht. apply lookup_singleton_Some in Ht as [<- <-]. split; [done|]. repeat constructor. }
  split; [vm_compute; reflexivity|].
  apply (DetailsSubsetOf_exact [payment ["pay"] 99] [payment ["read"; "pay"] 100] {["payment" := payment_type]} Hok).
  - constructor; [|constructor]. apply payment_ordered. vm_compute. reflexivity.
  - vm_compute. reflexivity.
Defined.
