(* ===== verification/TokenDomain.v ===== *)
(** * OAuth2: tokens, sender constraints and refresh token records

    [backend/oauth2/internal/token/domain] ([token.go], [refresh_token.go],
    [exchange_binding.go]), [internal/authorization/domain/pkce.go] and
    [internal/usecases] ([oauth_error.go], [events.go]).  What the generator of
    random bytes and of UUIDs returns is an argument. *)

From Stdlib Require Import Ascii String ZArith Lia.
From stdpp Require Import base strings list.
From S2P Require Import Prelude Effects GoStrings Crypto Rules Policy.

Local Open Scope string_scope.
Local Open Scope go_scope.

(** ** Errors of the OAuth2 use cases

    An [*OAuthError] is a protocol error; the other constructors are an error
    of [Validate] and an error of a dependency passed on. *)

Inductive failure (E : Type) : Type :=
| OAuthError (code description : string)
| InvalidRecord (e : rule_error)
| PortError (e : E).
Arguments OAuthError {E} code description.
Arguments InvalidRecord {E} e.
Arguments PortError {E} e.

#[export] Instance failure_eq_dec `{EqDecision E} : EqDecision (failure E).
Proof. solve_decision. Defined.

Definition NewOAuthError {E} (code description : string) : failure E := OAuthError code description.

Definition errorCode {E} (e : failure E) : string :=
  match e with OAuthError c _ => c | _ => "server_error" end.

Definition lift_port {E A} (r : result E A) : result (failure E) A :=
  match r with Ok a => Ok a | Err e => Err (PortError e) end.

Definition lift_rules {E A} (r : result rule_error A) : result (failure E) A :=
  match r with Ok a => Ok a | Err e => Err (InvalidRecord e) end.

(** ** Sender constraints *)

Record SenderConstraint := {
  sender_Type : SenderConstraintType;
  sender_JKT : string;
  sender_X5TS256 : string;
}.

#[export] Instance SenderConstraint_eq_dec : EqDecision SenderConstraint.
Proof. solve_decision. Defined.

Definition PresentationTokenType (sc : option SenderConstraint) : string :=
  match sc with
  | Some c => if sender_Type c =? SenderConstraintDPoP then "DPoP" else "Bearer"
  | None => "Bearer"
  end.

Definition senderConstraintTag (sc : option SenderConstraint) : string :=
  match sc with None => "none" | Some c => sender_Type c end.

Definition authZSenderConstraint (sc : option SenderConstraint) : option AuthZSenderConstraint :=
  match sc with None => None | Some c => Some {| sc_Type := sender_Type c |} end.

Definition dpop (jkt : string) : SenderConstraint :=
  {| sender_Type := SenderConstraintDPoP; sender_JKT := jkt; sender_X5TS256 := "" |}.
Definition mtls (x5t : string) : SenderConstraint :=
  {| sender_Type := SenderConstraintMTLS; sender_JKT := ""; sender_X5TS256 := x5t |}.

(** ** The binding of an exchanged token ([exchange_binding.go]) *)

Record ExchangeProof := { proof_JKT : string; proof_X5TS256 : string }.

(** Go's second result false is [None]. *)
Definition DecideExchangeBinding (subject : option SenderConstraint) (proof : ExchangeProof) :
    option (option SenderConstraint) :=
  match subject with
  | None =>
      if proof_JKT proof <>? "" then Some (Some (dpop (proof_JKT proof)))
      else if proof_X5TS256 proof <>? "" then Some (Some (mtls (proof_X5TS256 proof)))
      else Some None
  | Some s =>
      if sender_Type s =? SenderConstraintDPoP then
        if (sender_JKT s <>? "") && (sender_JKT s =? proof_JKT proof)
        then Some (Some (dpop (sender_JKT s))) else None
      else if sender_Type s =? SenderConstraintMTLS then
        if (sender_X5TS256 s <>? "") && (sender_X5TS256 s =? proof_X5TS256 proof)
        then Some (Some (mtls (sender_X5TS256 s))) else None
      else None
  end.

Definition ReboundExchangeBinding (proof : ExchangeProof) : option SenderConstraint :=
  if proof_JKT proof <>? "" then Some (dpop (proof_JKT proof))
  else if proof_X5TS256 proof <>? "" then Some (mtls (proof_X5TS256 proof))
  else None.

(** The key that a constraint binds to. *)
Definition bound_key (s : SenderConstraint) : string :=
  if sender_Type s =? SenderConstraintDPoP then sender_JKT s
  else if sender_Type s =? SenderConstraintMTLS then sender_X5TS256 s else "".

Definition proves (proof : ExchangeProof) (s : SenderConstraint) : Prop :=
  bound_key s <> "" /\
  ((sender_Type s = SenderConstraintDPoP /\ proof_JKT proof = sender_JKT s) \/
   (sender_Type s = SenderConstraintMTLS /\ proof_X5TS256 proof = sender_X5TS256 s)).

(** Exchanging a token never loosens its binding: a constrained token is
    exchanged only with a proof of the very key it is bound to, by the same
    method, and the issued token is bound to that key; an unconstrained one is
    bound to whatever key was proved.  Nothing is ever bound to an empty key. *)
Theorem DecideExchangeBinding_keeps_key subject proof issued :
  DecideExchangeBinding subject proof = Some issued ->
  (forall s, subject = Some s -> proves proof s /\
     exists s', issued = Some s' /\ sender_Type s' = sender_Type s /\ bound_key s' = bound_key s) /\
  (forall s', issued = Some s' -> proves proof s') /\
  (subject = None -> issued = None -> proof_JKT proof = "" /\ proof_X5TS256 proof = "").
Proof.
  unfold DecideExchangeBinding, proves, bound_key. destruct subject as [[ty jkt x5t]|]; simpl.
  - destruct (bool_decide (ty = SenderConstraintDPoP)) eqn:E1; go_bool.
    + destruct (_ && _) eqn:E2; [|done]. go_bool. destruct E2 as [Hne ->]. intros [= <-]. subst ty.
      split_and!; [|naive_solver|done]. intros s [= <-]. simpl. split; [naive_solver|].
      eexists. split; [done|]. done.
    + destruct (bool_decide (ty = SenderConstraintMTLS)) eqn:E2; go_bool; [|done].
      destruct (_ && _) eqn:E3; [|done]. go_bool. destruct E3 as [Hne ->]. intros [= <-]. subst ty.
      split_and!; [|naive_solver|done]. intros s [= <-]. simpl. split; [naive_solver|].
      eexists. split; [done|]. done.
  - destruct (bool_decide (proof_JKT proof = "")) eqn:E1; go_bool; simpl.
    + destruct (bool_decide (proof_X5TS256 proof = "")) eqn:E2; go_bool; simpl; intros [= <-].
      * split_and!; [done|done|naive_solver].
      * split_and!; [done| |done]. intros s' [= <-]. simpl. split; [done|]. by right.
    + intros [= <-]. split_and!; [done| |done]. intros s' [= <-]. simpl. split; [done|]. by left.
Qed.

Lemma DecideExchangeBinding_keeps_key_witness :
  DecideExchangeBinding (Some (dpop "k1")) {| proof_JKT := "k2"; proof_X5TS256 := "" |} = None /\
  proves {| proof_JKT := "k1"; proof_X5TS256 := "" |} (dpop "k1").
Proof.
  split; [reflexivity|].
  apply (DecideExchangeBinding_keeps_key (Some (dpop "k1")) {| proof_JKT := "k1"; proof_X5TS256 := "" |}
           (Some (dpop "k1"))); reflexivity.
Defined.

(** ** PKCE *)

(** [VerifyPKCES256]: BASE64URL(SHA256(verifier)) = challenge. *)
Definition VerifyPKCES256 (verifier challenge : string) : bool :=
  EncodeToString (sha256_string verifier) =? challenge.

(** ** Refresh token records *)

Definition refreshTokenBytes : Z := 48.
Definition Hour : Duration := (3600 * Second)%Z.
Definition refreshTokenTTL : Duration := (14 * 24 * Hour)%Z.
Definition refreshTokenAbsoluteTTL : Duration := (30 * 24 * Hour)%Z.

Record RefreshTokenRecord := {
  rt_ID : string;
  rt_TenantID : string;
  rt_Hash : string;
  rt_FamilyID : string;
  rt_ParentID : option string;
  rt_ClientID : string;
  rt_UserID : string;
  rt_Scopes : list string;
  rt_IssuedAt : Time;
  rt_ExpiresAt : Time;
  rt_AbsoluteExpiresAt : Time;
  rt_Revoked : bool;
  rt_Rotated : bool;
  rt_SenderConstraint : option SenderConstraint;
  rt_Sid : option string;
  rt_Resource : option string;
}.

#[export] Instance RefreshTokenRecord_eq_dec : EqDecision RefreshTokenRecord.
Proof. solve_decision. Defined.

Definition RefreshTokenRecord_Validate (r : RefreshTokenRecord) : result rule_error unit :=
  All [ Required "ID" (rt_ID r) [UUID]; Required "Hash" (rt_Hash r) [];
        Required "FamilyID" (rt_FamilyID r) [UUID]; Required "ClientID" (rt_ClientID r) [];
        Required "UserID" (rt_UserID r) []; Required "IssuedAt" (rt_IssuedAt r) [];
        Required "ExpiresAt" (rt_ExpiresAt r) []; Required "AbsoluteExpiresAt" (rt_AbsoluteExpiresAt r) [] ].

Record GeneratedRefreshToken := { gen_Token : string; gen_Record : RefreshTokenRecord }.

Definition HashRefreshToken (token : string) : string :=
  hex_EncodeToString (Sum256 (bytes_of token)).

Definition ExchangeScopes (grants : list GrantType) (scopes : list string) : list string * bool :=
  if negb (contains grants GrantRefreshToken) then
    (List.filter (fun scope => scope <>? "offline_access") scopes, false)
  else (scopes, contains scopes "offline_access").

(** What the sources of randomness return: the bytes of the token and the
    UUIDs drawn. *)
Record draws := { random_bytes : list N; uuid1 : string; uuid2 : string }.

Section generate.
Context {E : Type}.

(** [GenerateInitialRefreshToken]; [random] is an error of the entropy source,
    or what was drawn. *)
Definition GenerateInitialRefreshToken (clientID sub : string) (scopes : list string)
    (sc : option SenderConstraint) (sid resource : option string) (now : Time)
    (random : result E draws) : result (failure E) GeneratedRefreshToken :=
  let? d := lift_port random in
  let token := EncodeToString (string_of_bytes (random_bytes d)) in
  let rec_ :=
    {| rt_ID := uuid1 d; rt_TenantID := ""; rt_Hash := HashRefreshToken token; rt_FamilyID := uuid2 d;
       rt_ParentID := None; rt_ClientID := clientID; rt_UserID := sub; rt_Scopes := scopes;
       rt_IssuedAt := now; rt_ExpiresAt := Add now refreshTokenTTL;
       rt_AbsoluteExpiresAt := Add now refreshTokenAbsoluteTTL; rt_Revoked := false; rt_Rotated := false;
       rt_SenderConstraint := sc; rt_Sid := sid; rt_Resource := resource |} in
  let? _ := lift_rules (RefreshTokenRecord_Validate rec_) in
  Ok {| gen_Token := token; gen_Record := rec_ |}.

(** [RotateRefreshToken]: the tenant is not among the fields that are copied. *)
Definition RotateRefreshToken (parent : RefreshTokenRecord) (now : Time) (random : result E draws) :
    result (failure E) GeneratedRefreshToken :=
  let? d := lift_port random in
  let token := EncodeToString (string_of_bytes (random_bytes d)) in
  let expires := Add now refreshTokenTTL in
  let expires := if After expires (rt_AbsoluteExpiresAt parent) then rt_AbsoluteExpiresAt parent else expires in
  let rec_ :=
    {| rt_ID := uuid1 d; rt_TenantID := ""; rt_Hash := HashRefreshToken token;
       rt_FamilyID := rt_FamilyID parent; rt_ParentID := Some (rt_ID parent);
       rt_ClientID := rt_ClientID parent; rt_UserID := rt_UserID parent; rt_Scopes := rt_Scopes parent;
       rt_IssuedAt := now; rt_ExpiresAt := expires; rt_AbsoluteExpiresAt := rt_AbsoluteExpiresAt parent;
       rt_Revoked := false; rt_Rotated := false; rt_SenderConstraint := rt_SenderConstraint parent;
       rt_Sid := rt_Sid parent; rt_Resource := rt_Resource parent |} in
  let? _ := lift_rules (RefreshTokenRecord_Validate rec_) in
  Ok {| gen_Token := token; gen_Record := rec_ |}.
End generate.

Definition IsRefreshTokenReplay (r : RefreshTokenRecord) : bool := rt_Rotated r || rt_Revoked r.
Definition IsRefreshTokenAbsoluteExpired (r : RefreshTokenRecord) (now : Time) : bool :=
  negb (Before now (rt_AbsoluteExpiresAt r)).

(** ** What a rotation hands on *)

(** The fields that stay the same in a whole family. *)
Definition lineage (r : RefreshTokenRecord) :=
  (rt_FamilyID r, rt_ClientID r, rt_UserID r, rt_Scopes r, rt_AbsoluteExpiresAt r,
   rt_SenderConstraint r, (rt_Sid r, rt_Resource r)).

Lemma RotateRefreshToken_Ok {E} parent now (random : result E draws) g :
  RotateRefreshToken parent now random = Ok g ->
  let r := gen_Record g in
  lineage r = lineage parent /\ rt_ParentID r = Some (rt_ID parent) /\ rt_TenantID r = "" /\
  rt_Rotated r = false /\ rt_Revoked r = false /\ rt_Hash r = HashRefreshToken (gen_Token g) /\
  rt_IssuedAt r = now /\ (rt_ExpiresAt r <= rt_AbsoluteExpiresAt r)%Z /\ is_uuid (rt_ID r) = true.
Proof.
  unfold RotateRefreshToken. intros H. apply res_bind_Ok in H as (d & _ & H).
  apply res_bind_Ok in H as ([] & Hv & H). injection H as <-. cbn [gen_Record gen_Token].
  set (rec_ := Build_RefreshTokenRecord _ _ _ _ _ _ _ _ _ _ _ _ _ _ _ _) in *.
  split_and!; try done.
  - subst rec_. simpl. unfold After. destruct (Z.ltb_spec (rt_AbsoluteExpiresAt parent) (Add now refreshTokenTTL)); lia.
  - destruct (RefreshTokenRecord_Validate rec_) as [[]|] eqn:Hr; [|done]. clear Hv.
    unfold RefreshTokenRecord_Validate in Hr. apply All_Ok in Hr. apply Forall_cons in Hr as [Hr _].
    apply Required_nil in Hr as [_ Hr]. apply apply_nil in Hr.
    apply Forall_cons in Hr as [Hr _]. by apply Forall_cons in Hr as [Hr _].
Qed.

(** Refresh tokens are issued, and "offline_access" granted, only to a client
    that may use the refresh grant; the granted scopes are among those asked
    for and differ from them by "offline_access" at most. *)
Lemma ExchangeScopes_spec grants scopes granted refresh :
  ExchangeScopes grants scopes = (granted, refresh) ->
  (refresh = true <-> GrantRefreshToken ∈ grants /\ "offline_access" ∈ scopes) /\
  ("offline_access" ∈ granted -> GrantRefreshToken ∈ grants) /\
  (forall s, s ∈ granted <-> s ∈ scopes /\ (s = "offline_access" -> GrantRefreshToken ∈ grants)).
Proof.
  unfold ExchangeScopes. destruct (contains grants GrantRefreshToken) eqn:Hg; go_bool; intros [= <- <-].
  - rewrite contains_true. naive_solver.
  - assert (Hf : forall s, s ∈ List.filter (fun scope => scope <>? "offline_access") scopes <->
      s ∈ scopes /\ s <> "offline_access").
    { intros s. rewrite list_elem_of_In, filter_In, <- list_elem_of_In, negb_true_iff, bool_decide_eq_false. done. }
    setoid_rewrite Hf. naive_solver.
Qed.
