(* ===== verification/ActorChain.v ===== *)
(** * OAuth2: actor claims, agent chains and delegation modes

    [backend/oauth2/domain/agent_chain.go], [delegation_mode.go], and the
    counting of actors by the token exchange and by the agent guardrail.

    An actor claim is a JSON object ([map[string]any]).  The code reads its
    members [sub], when it is a string, and [act], when it is an object; the
    other members, and members of these names with other types, are kept as
    their JSON text. *)

From Stdlib Require Import String ZArith Lia.
From stdpp Require Import base strings list.
From S2P Require Import Prelude.

Local Open Scope string_scope.
Local Open Scope go_scope.

(** ** Data *)

Inductive act_claim := ActClaim (sub : option string) (act : option act_claim) (others : list (string * string)).

(** Induction along the chain. *)
Lemma act_claim_chain_ind (P : act_claim -> Prop) :
  (forall s others, P (ActClaim s None others)) ->
  (forall s n others, P n -> P (ActClaim s (Some n) others)) -> forall a, P a.
Proof.
  intros Hnone Hsome. fix IH 1. intros [s [n|] others]; [|apply Hnone]. apply Hsome, IH.
Defined.

Definition act_sub (a : act_claim) : string := let '(ActClaim sub _ _) := a in default "" sub.
Definition act_act (a : act_claim) : option act_claim := let '(ActClaim _ act _) := a in act.
Definition act_len (a : act_claim) : nat :=
  let '(ActClaim sub act others) := a in
  ((if is_some sub then 1 else 0) + (if is_some act then 1 else 0) + length others)%nat.

(** [{"sub": sub}], with the nested claim when there is one. *)
Definition actor (sub : string) (act : option act_claim) : act_claim := ActClaim (Some sub) act [].

Definition PrincipalTypeAgent : string := "agent".

Definition DelegationMode := string.
Definition DelegationModeDirect : DelegationMode := "direct".
Definition DelegationModeAutonomous : DelegationMode := "autonomous".
Definition DelegationModeOnBehalfOf : DelegationMode := "on_behalf_of".

Record DelegationSubject := {
  ds_Sub : string;
  ds_ClientID : string;
  ds_PrincipalType : string;
  ds_Act : option act_claim;
}.

(** ** Depth *)

Fixpoint claim_depth (a : act_claim) : Z :=
  match a with
  | ActClaim _ (Some nested) _ => 1 + claim_depth nested
  | ActClaim _ None _ => 1
  end%Z.

(** No claim is a nil map. *)
Definition actDepth (act : option act_claim) : Z :=
  match act with Some a => claim_depth a | None => 0%Z end.

Definition guardrailActDepth (act : option act_claim) : Z :=
  match act with Some a => claim_depth a | None => 0%Z end.

(** ** Chains of identifiers *)

(** The identifiers seen are those collected. *)
Definition add_distinct (merged : list string) (id : string) : list string :=
  if (id =? "") || contains merged id then merged else (merged ++ [id])%list.

Definition MergeAgentChain (groups : list (list string)) : list string :=
  fold_left (fun merged group => fold_left add_distinct group merged) groups [].

(** ** Modes *)

Definition maxActChainScan : nat := 64.

Fixpoint delegates_from (depth : nat) (a : act_claim) (sub : string) : bool :=
  match a with
  | ActClaim s nested _ =>
      if (maxActChainScan <=? depth)%nat then true
      else if (default "" s <>? "") && (default "" s <>? sub) then true
      else match nested with
      | None => false
      | Some n => delegates_from (S depth) n sub
      end
  end.

Definition actChainDelegates (act : option act_claim) (sub : string) : bool :=
  match act with Some a => delegates_from 0 a sub | None => false end.

Definition DeriveDelegationMode (d : DelegationSubject) : DelegationMode :=
  if actChainDelegates (ds_Act d) (ds_Sub d) then DelegationModeOnBehalfOf
  else if (ds_PrincipalType d =? PrincipalTypeAgent) || (ds_Sub d =? "") || (ds_Sub d =? ds_ClientID d) then
    DelegationModeAutonomous
  else DelegationModeDirect.

(** The actors of at most [room] levels, from the outside. *)
Fixpoint actors (room : nat) (a : act_claim) : list string :=
  match room with
  | O => []
  | S room =>
      match a with
      | ActClaim s nested _ => default "" s :: match nested with Some n => actors room n | None => [] end
      end
  end.

Definition chain_actors (act : option act_claim) : list string :=
  match act with Some a => actors maxActChainScan a | None => [] end.

Definition ActorChainParticipants (act : option act_claim) (sub : string) : list string :=
  fold_left add_distinct (chain_actors act ++ [sub])%list [].

(** ** Merging keeps every identifier once *)

Lemma add_distinct_elem merged id x :
  x ∈ add_distinct merged id <-> x ∈ merged \/ (x = id /\ id <> "").
Proof.
  unfold add_distinct. destruct (decide (id = "")) as [-> |Hne].
  - rewrite bool_decide_true by done. simpl. naive_solver.
  - rewrite bool_decide_false by done. simpl. destruct (contains merged id) eqn:Hc.
    + apply contains_true in Hc. naive_solver.
    + rewrite elem_of_app, list_elem_of_singleton. naive_solver.
Qed.

Lemma add_distinct_NoDup merged id : NoDup merged -> NoDup (add_distinct merged id).
Proof.
  intros Hm. unfold add_distinct. destruct (_ || _) eqn:Hc; [done|]. apply orb_false_iff in Hc as [_ Hc].
  apply contains_false in Hc. apply NoDup_app. split; [done|]. split; [|by apply NoDup_singleton].
  intros x Hx ->%list_elem_of_singleton. done.
Qed.

Lemma add_all l : forall merged,
  (NoDup merged -> NoDup (fold_left add_distinct l merged)) /\
  (forall x, x ∈ fold_left add_distinct l merged <-> x ∈ merged \/ (x ∈ l /\ x <> "")).
Proof.
  induction l as [|id l IH]; intros merged; simpl.
  - split; [done|]. intros x. rewrite elem_of_nil. naive_solver.
  - destruct (IH (add_distinct merged id)) as [Hn He]. split.
    + intros Hm. by apply Hn, add_distinct_NoDup.
    + intros x. rewrite He, add_distinct_elem, elem_of_cons. naive_solver.
Qed.

Lemma merge_all groups : forall merged,
  fold_left (fun merged group => fold_left add_distinct group merged) groups merged
  = fold_left add_distinct (concat groups) merged.
Proof. induction groups as [|g groups IH]; intros merged; simpl; [done|]. by rewrite IH, fold_left_app. Qed.

(** What was collected stays in front. *)
Lemma add_all_prefix l : forall merged, merged `prefix_of` fold_left add_distinct l merged.
Proof.
  induction l as [|id l IH]; intros merged; simpl; [done|]. etrans; [|apply IH].
  unfold add_distinct. destruct (_ || _); [done|]. by apply prefix_app_r.
Qed.

Lemma MergeAgentChain_elem groups x : x ∈ MergeAgentChain groups <-> x <> "" /\ exists g, g ∈ groups /\ x ∈ g.
Proof.
  unfold MergeAgentChain. rewrite merge_all, (proj2 (add_all _ [])), elem_of_nil, list_elem_of_In, in_concat.
  setoid_rewrite <- list_elem_of_In. naive_solver.
Qed.

Lemma MergeAgentChain_NoDup groups : NoDup (MergeAgentChain groups).
Proof. unfold MergeAgentChain. rewrite merge_all. apply add_all. constructor. Qed.

(** ** What a mode says *)

(** An actor other than the subject. *)
Definition foreign (sub a : string) : Prop := a <> "" /\ a <> sub.

Lemma claim_depth_pos a : (0 < claim_depth a)%Z.
Proof. induction a as [s others|s n others IH] using act_claim_chain_ind; cbn [claim_depth]; lia. Qed.

Lemma delegates_from_spec sub a : forall depth room, (depth + room = maxActChainScan)%nat ->
  delegates_from depth a sub = true <->
  Exists (foreign sub) (actors room a) \/ (Z.of_nat room < claim_depth a)%Z.
Proof.
  induction a as [s others|s n others IH] using act_claim_chain_ind; intros depth room Hd; cbn [delegates_from].
  all: destruct room as [|room];
    [rewrite (proj2 (Nat.leb_le _ _)) by lia; split; [intros _; right; cbn [claim_depth]; try pose proof (claim_depth_pos n); lia|done]|].
  all: rewrite (proj2 (Nat.leb_gt _ _)) by lia; cbn [actors claim_depth]; rewrite Exists_cons; unfold foreign at 1;
    destruct ((default "" s <>? "") && (default "" s <>? sub)) eqn:Hf;
    [apply andb_true_iff in Hf as [H1 H2]; go_bool; naive_solver|];
    assert (~ (default "" s <> "" /\ default "" s <> sub)) as Hno by (apply andb_false_iff in Hf; go_bool; naive_solver).
  - rewrite Exists_nil. split; [done|]. intros [[Hx|[]]|Hl]; [done|lia].
  - rewrite (IH (S depth) room) by lia. rewrite Nat2Z.inj_succ. split.
    + intros [He|Hl]; [left; by right|right; lia].
    + intros [[Hx|He]|Hl]; [done|by left|right; lia].
Qed.

(** The delegation mode: a token acts on behalf of its subject exactly when
    some actor of its chain is another, or the chain is longer than the scan; it
    is autonomous when no one else acts and the subject is an agent, the client
    itself or nobody; and direct otherwise. *)
Theorem DeriveDelegationMode_exact d :
  let delegated := Exists (foreign (ds_Sub d)) (chain_actors (ds_Act d)) \/
                   (Z.of_nat maxActChainScan < actDepth (ds_Act d))%Z in
  let machine := ds_PrincipalType d = PrincipalTypeAgent \/ ds_Sub d = "" \/ ds_Sub d = ds_ClientID d in
  (DeriveDelegationMode d = DelegationModeOnBehalfOf <-> delegated) /\
  (DeriveDelegationMode d = DelegationModeAutonomous <-> ~ delegated /\ machine) /\
  (DeriveDelegationMode d = DelegationModeDirect <-> ~ delegated /\ ~ machine).
Proof.
  assert (Hdel : actChainDelegates (ds_Act d) (ds_Sub d) = true <->
    Exists (foreign (ds_Sub d)) (chain_actors (ds_Act d)) \/ (Z.of_nat maxActChainScan < actDepth (ds_Act d))%Z).
  { destruct (ds_Act d) as [a|]; simpl.
    - by apply (delegates_from_spec (ds_Sub d) a 0 maxActChainScan).
    - rewrite Exists_nil. split; [done|]. intros [[]|Hl]. unfold maxActChainScan in Hl. lia. }
  intros delegated machine. fold delegated in Hdel.
  assert (Hm : ((ds_PrincipalType d =? PrincipalTypeAgent) || (ds_Sub d =? "") || (ds_Sub d =? ds_ClientID d)) = true <-> machine).
  { rewrite !orb_true_iff, !bool_decide_eq_true. unfold machine. tauto. }
  unfold DeriveDelegationMode. destruct (actChainDelegates _ _).
  - assert delegated by tauto. split_and!; split; intros Hx; try done; tauto.
  - assert (~ delegated) by (intros Hx; by apply Hdel in Hx). destruct (_ || _ || _).
    + assert machine by tauto. split_and!; split; intros Hx; try done; tauto.
    + assert (~ machine) by (intros Hx; by apply Hm in Hx). split_and!; split; intros Hx; try done; tauto.
Qed.

(** The participants are the actors and the subject, each once. *)
Lemma ActorChainParticipants_spec act sub :
  NoDup (ActorChainParticipants act sub) /\
  forall x, x ∈ ActorChainParticipants act sub <-> x <> "" /\ (x ∈ chain_actors act \/ x = sub).
Proof.
  unfold ActorChainParticipants. split; [apply add_all; constructor|]. intros x.
  rewrite (proj2 (add_all _ [])), elem_of_nil, elem_of_app, list_elem_of_singleton. naive_solver.
Qed.

(** ** A chain that grew by one actor *)

Lemma actDepth_actor sub act : actDepth (Some (actor sub act)) = (1 + actDepth act)%Z.
Proof. by destruct act. Qed.

Lemma actDepth_nonneg act : (0 <= actDepth act)%Z.
Proof. destruct act as [a|]; simpl; [pose proof (claim_depth_pos a)|]; lia. Qed.
