(* ===== verification/RefreshStore.v ===== *)
(** * OAuth2: the refresh token store

    [backend/oauth2/internal/token/db_memory/refresh_tokens.go].  Two maps,
    by hash and by identifier, point to the same records, which [Rotate] and the
    revocations change in place; the model keeps the heap of records and the
    two maps of pointers, so that the aliasing is part of what is verified.

    The abstract state is a map from identifiers to records.  Under the store's
    invariant every operation is a simple operation of that map, and families
    keep the discipline of rotation under every interleaving of operations:
    at most one live token, the same lineage, at most one successful rotation
    of each token. *)

From Stdlib Require Import Ascii String ZArith Lia.
From stdpp Require Import base strings list gmap sorting fin_maps relations.
From S2P Require Import Prelude Effects GoStrings Rules Policy TokenDomain.

Local Open Scope string_scope.
Local Open Scope go_scope.

(** [sharedmem.DefaultScope(&rec.TenantID, kernel.DefaultTenantID)]. *)
Definition DefaultScope (scope fallback : string) : string :=
  if scope =? "" then fallback else scope.

Record RefreshTokenStore := {
  heap : gmap nat RefreshTokenRecord;
  next_ptr : nat;
  byHash : gmap string nat;
  byID : gmap string nat;
}.

Definition NewRefreshTokenStore : RefreshTokenStore :=
  {| heap := ∅; next_ptr := 0; byHash := ∅; byID := ∅ |}.

(** The record with its tenant filled in. *)
Definition with_default_tenant (r : RefreshTokenRecord) : RefreshTokenRecord :=
  {| rt_ID := rt_ID r; rt_TenantID := DefaultScope (rt_TenantID r) DefaultTenantID;
     rt_Hash := rt_Hash r; rt_FamilyID := rt_FamilyID r; rt_ParentID := rt_ParentID r;
     rt_ClientID := rt_ClientID r; rt_UserID := rt_UserID r; rt_Scopes := rt_Scopes r;
     rt_IssuedAt := rt_IssuedAt r; rt_ExpiresAt := rt_ExpiresAt r;
     rt_AbsoluteExpiresAt := rt_AbsoluteExpiresAt r; rt_Revoked := rt_Revoked r;
     rt_Rotated := rt_Rotated r; rt_SenderConstraint := rt_SenderConstraint r;
     rt_Sid := rt_Sid r; rt_Resource := rt_Resource r |}.

Definition set_flags (rotated revoked : bool) (r : RefreshTokenRecord) : RefreshTokenRecord :=
  {| rt_ID := rt_ID r; rt_TenantID := rt_TenantID r; rt_Hash := rt_Hash r; rt_FamilyID := rt_FamilyID r;
     rt_ParentID := rt_ParentID r; rt_ClientID := rt_ClientID r; rt_UserID := rt_UserID r;
     rt_Scopes := rt_Scopes r; rt_IssuedAt := rt_IssuedAt r; rt_ExpiresAt := rt_ExpiresAt r;
     rt_AbsoluteExpiresAt := rt_AbsoluteExpiresAt r; rt_Revoked := revoked; rt_Rotated := rotated;
     rt_SenderConstraint := rt_SenderConstraint r; rt_Sid := rt_Sid r; rt_Resource := rt_Resource r |}.

(** [rec.TenantID = tenantID], which the issuing use cases do before [Save]. *)
Definition set_tenant (tenantID : string) (r : RefreshTokenRecord) : RefreshTokenRecord :=
  {| rt_ID := rt_ID r; rt_TenantID := tenantID; rt_Hash := rt_Hash r; rt_FamilyID := rt_FamilyID r;
     rt_ParentID := rt_ParentID r; rt_ClientID := rt_ClientID r; rt_UserID := rt_UserID r;
     rt_Scopes := rt_Scopes r; rt_IssuedAt := rt_IssuedAt r; rt_ExpiresAt := rt_ExpiresAt r;
     rt_AbsoluteExpiresAt := rt_AbsoluteExpiresAt r; rt_Revoked := rt_Revoked r;
     rt_Rotated := rt_Rotated r; rt_SenderConstraint := rt_SenderConstraint r;
     rt_Sid := rt_Sid r; rt_Resource := rt_Resource r |}.

(** [rec.Rotated = true] and [rec.Revoked = true]. *)
Definition mark_rotated (r : RefreshTokenRecord) : RefreshTokenRecord := set_flags true (rt_Revoked r) r.
Definition mark_revoked (r : RefreshTokenRecord) : RefreshTokenRecord := set_flags (rt_Rotated r) true r.

(** A new record stored under both keys. *)
Definition store_record (r : RefreshTokenRecord) (s : RefreshTokenStore) : RefreshTokenStore :=
  {| heap := <[next_ptr s := r]> (heap s); next_ptr := S (next_ptr s);
     byHash := <[rt_Hash r := next_ptr s]> (byHash s); byID := <[rt_ID r := next_ptr s]> (byID s) |}.

(** A write through a pointer. *)
Definition set_heap (p : nat) (r : RefreshTokenRecord) (s : RefreshTokenStore) : RefreshTokenStore :=
  {| heap := <[p := r]> (heap s); next_ptr := next_ptr s; byHash := byHash s; byID := byID s |}.

Definition FindByHash (hash : string) (s : RefreshTokenStore) : option RefreshTokenRecord :=
  byHash s !! hash ≫= fun p => heap s !! p.

Definition Save (r : RefreshTokenRecord) (s : RefreshTokenStore) : RefreshTokenStore :=
  store_record (with_default_tenant r) s.

(** [Rotate] compares and sets under the lock: it returns nil when the parent
    was rotated or revoked before. *)
Definition Rotate (parentID : string) (newRec : RefreshTokenRecord) (s : RefreshTokenStore) :
    result string (option RefreshTokenRecord) * RefreshTokenStore :=
  match byID s !! parentID ≫= fun p => (fun r => (p, r)) <$> heap s !! p with
  | None => (Err "parent refresh token not found", s)
  | Some (p, parent) =>
      if rt_Rotated parent || rt_Revoked parent then (Ok None, s)
      else
        let stored := with_default_tenant newRec in
        (Ok (Some stored), store_record stored (set_heap p (mark_rotated parent) s))
  end.

(** The loop [for _, rec := range s.byID] of the two revocations: records are
    changed through their pointers. *)
Definition revoke_step (cond : RefreshTokenRecord -> bool) (acc : RefreshTokenStore * list string)
    (entry : string * nat) : RefreshTokenStore * list string :=
  match heap acc.1 !! entry.2 with
  | Some r => if cond r then (set_heap entry.2 (mark_revoked r) acc.1, (acc.2 ++ [rt_ID r])%list) else acc
  | None => acc
  end.

Definition revoke_all (cond : RefreshTokenRecord -> bool) (s : RefreshTokenStore) :
    RefreshTokenStore * list string :=
  fold_left (revoke_step cond) (map_to_list (byID s)) (s, []).

Definition RevokeFamily (familyID : string) (s : RefreshTokenStore) : list string * RefreshTokenStore :=
  let '(s', ids) := revoke_all (fun r => (rt_FamilyID r =? familyID) && negb (rt_Revoked r)) s in
  (merge_sort String.le ids, s').

Definition RevokeBySid (sid : string) (s : RefreshTokenStore) : RefreshTokenStore :=
  (revoke_all (fun r => match rt_Sid r with Some x => x =? sid | None => false end) s).1.

(** The two deletion loops remove the entry of the map they range over and the
    entry of the other map that the record names. *)
Definition DeleteForClient (tenantID clientID : string) (s : RefreshTokenStore) : RefreshTokenStore :=
  fold_left (fun s '(hash, p) =>
    match heap s !! p with
    | Some r =>
        if (rt_ClientID r =? clientID) && (rt_TenantID r =? tenantID) then
          {| heap := heap s; next_ptr := next_ptr s; byHash := delete hash (byHash s);
             byID := delete (rt_ID r) (byID s) |}
        else s
    | None => s
    end) (map_to_list (byHash s)) s.

Definition DeleteAllForSub (sub : string) (s : RefreshTokenStore) : RefreshTokenStore :=
  fold_left (fun s '(id, p) =>
    match heap s !! p with
    | Some r =>
        if rt_UserID r =? sub then
          {| heap := heap s; next_ptr := next_ptr s; byHash := delete (rt_Hash r) (byHash s);
             byID := delete id (byID s) |}
        else s
    | None => s
    end) (map_to_list (byID s)) s.

(** ** The invariant and the abstract state *)

Record refresh_wf (s : RefreshTokenStore) : Prop := {
  wf_hash : forall h p, byHash s !! h = Some p ->
    exists r, heap s !! p = Some r /\ rt_Hash r = h /\ byID s !! rt_ID r = Some p;
  wf_id : forall i p, byID s !! i = Some p ->
    exists r, heap s !! p = Some r /\ rt_ID r = i /\ byHash s !! rt_Hash r = Some p;
  wf_next : forall p r, heap s !! p = Some r -> (p < next_ptr s)%nat;
}.

(** The record of an identifier, through its pointer. *)
Definition records (s : RefreshTokenStore) : gmap string RefreshTokenRecord :=
  omap (fun p => heap s !! p) (byID s).

Lemma records_lookup s i : records s !! i = byID s !! i ≫= fun p => heap s !! p.
Proof. unfold records. by rewrite lookup_omap. Qed.

Lemma records_Some s i r :
  refresh_wf s -> records s !! i = Some r <-> rt_ID r = i /\ exists p, byID s !! i = Some p /\ heap s !! p = Some r.
Proof.
  intros Hwf. rewrite records_lookup. split.
  - intros (p & Hp & Hr)%bind_Some. split; [|by exists p].
    destruct (wf_id s Hwf i p Hp) as (r' & Hr' & Hi & _). congruence.
  - intros [_ (p & Hp & Hr)]. by rewrite Hp.
Qed.

(** Both maps reach the same records. *)
Lemma FindByHash_records s h r :
  refresh_wf s -> FindByHash h s = Some r <-> records s !! rt_ID r = Some r /\ rt_Hash r = h.
Proof.
  intros Hwf. unfold FindByHash. split.
  - intros (p & Hp & Hr)%bind_Some. destruct (wf_hash s Hwf h p Hp) as (r' & Hr' & Hh & Hi).
    assert (r' = r) as -> by congruence. split; [|done]. apply records_Some; [done|]. split; [done|]. by exists p.
  - intros [Hr <-]. apply records_Some in Hr as [_ (p & Hp & Hr)]; [|done].
    destruct (wf_id s Hwf _ p Hp) as (r' & Hr' & _ & Hh). assert (r' = r) as -> by congruence.
    by rewrite Hh.
Qed.

Definition hash_free (h : string) (s : RefreshTokenStore) : Prop := byHash s !! h = None.
Definition id_free (i : string) (s : RefreshTokenStore) : Prop := byID s !! i = None.

Lemma NewRefreshTokenStore_wf : refresh_wf NewRefreshTokenStore.
Proof. constructor; simpl; intros *; rewrite lookup_empty; done. Qed.

(** ** The operations on the abstract state *)

Lemma store_record_wf r s :
  refresh_wf s -> id_free (rt_ID r) s -> hash_free (rt_Hash r) s -> refresh_wf (store_record r s).
Proof.
  intros Hwf Hi Hh. unfold id_free, hash_free in *. constructor; simpl.
  - intros h p [[<- <-]|[Hne Hp]]%lookup_insert_Some.
    + exists r. by rewrite !lookup_insert_eq.
    + destruct (wf_hash s Hwf h p Hp) as (r' & Hr' & <- & Hid). exists r'.
      pose proof (wf_next s Hwf p r' Hr'). rewrite lookup_insert_ne by lia. split_and!; [done..|].
      rewrite lookup_insert_ne; [done|]. intros Heq. congruence.
  - intros i p [[<- <-]|[Hne Hp]]%lookup_insert_Some.
    + exists r. by rewrite !lookup_insert_eq.
    + destruct (wf_id s Hwf i p Hp) as (r' & Hr' & <- & Hhash). exists r'.
      pose proof (wf_next s Hwf p r' Hr'). rewrite lookup_insert_ne by lia. split_and!; [done..|].
      rewrite lookup_insert_ne; [done|]. intros Heq. congruence.
  - intros p r' [[<- _]|[_ Hp]]%lookup_insert_Some; [lia|]. apply (wf_next s Hwf) in Hp. lia.
Qed.

Lemma store_record_records r s :
  refresh_wf s -> id_free (rt_ID r) s -> records (store_record r s) = <[rt_ID r := r]> (records s).
Proof.
  intros Hwf Hi. apply map_eq. intros i. rewrite records_lookup. simpl.
  destruct (decide (i = rt_ID r)) as [->|Hne].
  - by rewrite !lookup_insert_eq; simpl; rewrite lookup_insert_eq.
  - rewrite !lookup_insert_ne by done. rewrite records_lookup.
    destruct (byID s !! i) as [p|] eqn:Hp; simpl; [|done].
    destruct (wf_id s Hwf i p Hp) as (r' & Hr' & _). pose proof (wf_next s Hwf p r' Hr').
    by rewrite lookup_insert_ne by lia.
Qed.

(** A write through a pointer that keeps the keys. *)
Lemma set_heap_wf p r r' s :
  refresh_wf s -> heap s !! p = Some r -> rt_ID r' = rt_ID r -> rt_Hash r' = rt_Hash r ->
  refresh_wf (set_heap p r' s).
Proof.
  intros Hwf Hp Hid Hh. constructor; simpl.
  - intros h q Hq. destruct (wf_hash s Hwf h q Hq) as (x & Hx & Hxh & Hxi).
    destruct (decide (q = p)) as [->|Hne].
    + exists r'. rewrite lookup_insert_eq. assert (x = r) as -> by congruence. by rewrite Hid, Hh.
    + exists x. by rewrite lookup_insert_ne.
  - intros i q Hq. destruct (wf_id s Hwf i q Hq) as (x & Hx & Hxi & Hxh).
    destruct (decide (q = p)) as [->|Hne].
    + exists r'. rewrite lookup_insert_eq. assert (x = r) as -> by congruence. by rewrite Hid, Hh.
    + exists x. by rewrite lookup_insert_ne.
  - intros q x [[<- _]|[_ Hq]]%lookup_insert_Some; [by eapply wf_next|by eapply wf_next].
Qed.

Lemma set_heap_records p r r' s :
  refresh_wf s -> heap s !! p = Some r -> byID s !! rt_ID r = Some p ->
  records (set_heap p r' s) = <[rt_ID r := r']> (records s).
Proof.
  intros Hwf Hp Hid. apply map_eq. intros i. rewrite records_lookup. simpl.
  destruct (decide (i = rt_ID r)) as [->|Hne].
  - rewrite lookup_insert_eq, Hid. simpl. by rewrite lookup_insert_eq.
  - rewrite lookup_insert_ne by done. rewrite records_lookup.
    destruct (byID s !! i) as [q|] eqn:Hq; simpl; [|done].
    rewrite lookup_insert_ne; [done|]. intros <-.
    destruct (wf_id s Hwf i p Hq) as (x & Hx & <- & _). congruence.
Qed.

Lemma records_ID s i r : refresh_wf s -> records s !! i = Some r -> rt_ID r = i.
Proof. intros Hwf Hr. by apply records_Some in Hr as [? _]. Qed.

(** *** Rotation *)

Lemma Rotate_spec pid n s :
  refresh_wf s -> id_free (rt_ID n) s -> hash_free (rt_Hash n) s ->
  let '(res, s') := Rotate pid n s in
  refresh_wf s' /\
  match records s !! pid with
  | None => res = Err "parent refresh token not found" /\ s' = s
  | Some parent =>
      if IsRefreshTokenReplay parent then res = Ok None /\ s' = s
      else res = Ok (Some (with_default_tenant n)) /\
           records s' = <[rt_ID n := with_default_tenant n]> (<[pid := mark_rotated parent]> (records s))
  end.
Proof.
  intros Hwf Hi Hh. unfold Rotate. rewrite records_lookup.
  destruct (byID s !! pid) as [p|] eqn:Hp; simpl; [|done].
  destruct (wf_id s Hwf pid p Hp) as (r & Hr & Hid & Hrh). rewrite Hr. simpl.
  unfold IsRefreshTokenReplay. destruct (rt_Rotated r || rt_Revoked r); [done|].
  assert (Hwf1 : refresh_wf (set_heap p (mark_rotated r) s)) by (by eapply set_heap_wf).
  assert (Hrec1 : records (set_heap p (mark_rotated r) s) = <[pid := mark_rotated r]> (records s)).
  { rewrite <- Hid. apply set_heap_records; [done..|]. by rewrite Hid. }
  split_and!; [by apply store_record_wf|done|].
  rewrite store_record_records; [|done|done]. by rewrite Hrec1.
Qed.

(** *** Revocation *)

Definition revoked_if (cond : RefreshTokenRecord -> bool) (r : RefreshTokenRecord) : RefreshTokenRecord :=
  if cond r then mark_revoked r else r.

Lemma revoked_if_ID cond r : rt_ID (revoked_if cond r) = rt_ID r.
Proof. unfold revoked_if. by destruct (cond r). Qed.

Lemma revoke_loop cond l : forall s ids,
  refresh_wf s -> NoDup l.*1 -> (forall i p, (i, p) ∈ l -> byID s !! i = Some p) ->
  let '(s', ids') := fold_left (revoke_step cond) l (s, ids) in
  refresh_wf s' /\ byID s' = byID s /\ byHash s' = byHash s /\
  (forall i, records s' !! i =
     if bool_decide (i ∈ l.*1) then revoked_if cond <$> records s !! i else records s !! i) /\
  (forall i, i ∈ ids' <-> i ∈ ids \/ (i ∈ l.*1 /\ exists r, records s !! i = Some r /\ cond r = true)).
Proof.
  induction l as [|[i p] l IH]; intros s ids Hwf Hnd Hin; cbn [fold_left].
  { split_and!; [done..| |].
    - intros j. rewrite bool_decide_false; [done|]. simpl. apply not_elem_of_nil.
    - intros j. split; [by left|]. intros [?|[Hj _]]; [done|]. by apply elem_of_nil in Hj. }
  simpl in Hnd. apply NoDup_cons in Hnd as [Hi Hnd].
  assert (Hp : byID s !! i = Some p) by (apply Hin; left).
  destruct (wf_id s Hwf i p Hp) as (r & Hr & Hid & Hrh).
  assert (Hri : records s !! i = Some r) by (rewrite records_lookup, Hp; done).
  unfold revoke_step at 2. cbn [fst snd]. rewrite Hr. destruct (cond r) eqn:Hc.
  - set (s1 := set_heap p (mark_revoked r) s).
    assert (Hwf1 : refresh_wf s1) by (by eapply set_heap_wf).
    assert (Hrec1 : records s1 = <[i := mark_revoked r]> (records s)).
    { rewrite <- Hid. apply set_heap_records; [done..|]. by rewrite Hid. }
    specialize (IH s1 (ids ++ [rt_ID r])%list Hwf1 Hnd (fun j q Hjq => Hin j q ltac:(by right))).
    destruct (fold_left _ l _) as [s' ids']. destruct IH as (Hw & Hb & Hh & Hrecs & Hids). split_and!; [done..| |].
    + intros j. rewrite Hrecs, Hrec1. simpl. destruct (decide (j = i)) as [->|Hne].
      * rewrite lookup_insert_eq, (bool_decide_false (i ∈ l.*1)) by done.
        rewrite bool_decide_true by left. rewrite Hri. simpl. unfold revoked_if. by rewrite Hc.
      * rewrite lookup_insert_ne by done. repeat case_bool_decide; set_solver.
    + intros j. rewrite Hids, Hrec1. simpl. rewrite elem_of_app, list_elem_of_singleton, elem_of_cons, Hid.
      split.
      * intros [[?| ->]|[Hj (x & Hx & Hcx)]]; [by left|right; split; [by left|eauto]|].
        right. split; [by right|]. exists x. split; [|done].
        rewrite lookup_insert_ne in Hx; [done|]. by intros ->.
      * intros [?|[[->|Hj] (x & Hx & Hcx)]]; [by left; left|by left; right|].
        right. split; [done|]. exists x. rewrite lookup_insert_ne; [done|]. by intros ->.
  - specialize (IH s ids Hwf Hnd (fun j q Hjq => Hin j q ltac:(by right))).
    destruct (fold_left _ l _) as [s' ids']. destruct IH as (Hw & Hb & Hh & Hrecs & Hids). split_and!; [done..| |].
    + intros j. rewrite Hrecs. simpl. destruct (decide (j = i)) as [->|Hne].
      * rewrite (bool_decide_false (i ∈ l.*1)) by done. rewrite bool_decide_true by left.
        rewrite Hri. simpl. unfold revoked_if. by rewrite Hc.
      * repeat case_bool_decide; set_solver.
    + intros j. rewrite Hids. simpl. rewrite elem_of_cons. split; [naive_solver|].
      intros [?|[[->|Hj] (x & Hx & Hcx)]]; [by left| |by right; eauto]. congruence.
Qed.

Lemma revoke_all_spec cond s :
  refresh_wf s ->
  let '(s', ids) := revoke_all cond s in
  refresh_wf s' /\ byID s' = byID s /\ byHash s' = byHash s /\
  records s' = revoked_if cond <$> records s /\
  forall i, i ∈ ids <-> exists r, records s !! i = Some r /\ cond r = true.
Proof.
  intros Hwf. unfold revoke_all.
  pose proof (revoke_loop cond (map_to_list (byID s)) s [] Hwf (NoDup_fst_map_to_list (byID s))) as H.
  destruct (fold_left _ _ _) as [s' ids]. destruct H as (Hw & Hb & Hh & Hrecs & Hids).
  { intros i p. by rewrite elem_of_map_to_list. }
  assert (Hdom : forall i, i ∈ (map_to_list (byID s)).*1 <-> is_Some (byID s !! i)).
  { intros i. rewrite list_elem_of_fmap. split.
    - intros ([j p] & -> & Hin). apply elem_of_map_to_list in Hin. by exists p.
    - intros [p Hp]. exists (i, p). by rewrite elem_of_map_to_list. }
  split_and!; [done..| |].
  - apply map_eq. intros i. rewrite Hrecs, lookup_fmap. destruct (bool_decide _) eqn:Hd; [done|].
    apply bool_decide_eq_false in Hd. rewrite Hdom in Hd. rewrite records_lookup.
    destruct (byID s !! i); [by destruct Hd|done].
  - intros i. rewrite Hids, Hdom. split; [intros [Hn|[_ ?]]; [by apply elem_of_nil in Hn|done]|].
    intros (r & Hr & Hc). right. split; [|by exists r]. rewrite records_lookup in Hr.
    by destruct (byID s !! i).
Qed.

Lemma RevokeFamily_spec f s :
  refresh_wf s ->
  let '(ids, s') := RevokeFamily f s in
  refresh_wf s' /\ byID s' = byID s /\ byHash s' = byHash s /\
  records s' = revoked_if (fun r => (rt_FamilyID r =? f) && negb (rt_Revoked r)) <$> records s /\
  forall i, i ∈ ids <-> exists r, records s !! i = Some r /\ rt_FamilyID r = f /\ rt_Revoked r = false.
Proof.
  intros Hwf. unfold RevokeFamily.
  pose proof (revoke_all_spec (fun r => (rt_FamilyID r =? f) && negb (rt_Revoked r)) s Hwf) as H.
  destruct (revoke_all _ s) as [s' ids]. destruct H as (Hw & Hb & Hh & Hrecs & Hids).
  split_and!; [done..|]. intros i. rewrite merge_sort_Permutation, Hids.
  split; intros (r & Hr & Hc); exists r; go_bool; naive_solver.
Qed.

(** Revocation through a cancelled session. *)
Lemma RevokeBySid_spec sid s :
  refresh_wf s ->
  refresh_wf (RevokeBySid sid s) /\ byID (RevokeBySid sid s) = byID s /\ byHash (RevokeBySid sid s) = byHash s /\
  records (RevokeBySid sid s) =
    revoked_if (fun r => match rt_Sid r with Some x => x =? sid | None => false end) <$> records s.
Proof.
  intros Hwf. unfold RevokeBySid.
  pose proof (revoke_all_spec (fun r => match rt_Sid r with Some x => x =? sid | None => false end) s Hwf) as H.
  destruct (revoke_all _ s) as [s' ids]. simpl. tauto.
Qed.

(** *** Deletion *)

(** Both deletion loops remove the records of a condition from both maps. *)
Definition drop_record (cond : RefreshTokenRecord -> bool) (s : RefreshTokenStore) (r : RefreshTokenRecord) :
    RefreshTokenStore :=
  if cond r then {| heap := heap s; next_ptr := next_ptr s; byHash := delete (rt_Hash r) (byHash s);
                    byID := delete (rt_ID r) (byID s) |} else s.

(** [s] is what is left of [s0] after some deletions. *)
Record part_of (s0 s : RefreshTokenStore) : Prop := {
  part_wf : refresh_wf s;
  part_heap : heap s = heap s0;
  part_ids : byID s ⊆ byID s0;
}.

Lemma drop_record_part cond s0 s r :
  refresh_wf s0 -> part_of s0 s -> records s0 !! rt_ID r = Some r ->
  part_of s0 (drop_record cond s r) /\
  records (drop_record cond s r) = if cond r then delete (rt_ID r) (records s) else records s.
Proof.
  intros Hwf0 [Hwf Hheap Hids] Hr0. unfold drop_record. destruct (cond r); [|done].
  apply records_Some in Hr0 as [_ (p0 & Hp0 & Hr0)]; [|done].
  assert (Hkeys : forall p r', byID s !! rt_ID r' = Some p -> heap s !! p = Some r' ->
                    rt_ID r' = rt_ID r \/ rt_Hash r' = rt_Hash r -> r' = r).
  { intros p r' Hid Hr' [Heq|Heq].
    - rewrite Heq in Hid. apply (lookup_weaken _ _ _ _ Hid) in Hids. congruence.
    - pose proof (lookup_weaken _ _ _ _ Hid Hids) as Hid0. rewrite Hheap in Hr'.
      destruct (wf_id s0 Hwf0 _ _ Hid0) as (x & Hx & _ & Hhx).
      destruct (wf_id s0 Hwf0 _ _ Hp0) as (y & Hy & _ & Hhy). congruence. }
  split; [constructor; simpl; [constructor; simpl|done|]|].
  - intros h p [Hne Hp]%lookup_delete_Some. destruct (wf_hash s Hwf h p Hp) as (r' & Hr' & <- & Hid).
    exists r'. split_and!; [done..|]. rewrite lookup_delete_ne; [done|]. intros Heq.
    apply Hne. f_equal. symmetry. by eapply Hkeys; [| |left].
  - intros i p [Hne Hp]%lookup_delete_Some. destruct (wf_id s Hwf i p Hp) as (r' & Hr' & <- & Hh).
    exists r'. split_and!; [done..|]. rewrite lookup_delete_ne; [done|]. intros Heq.
    apply Hne. f_equal. symmetry. by eapply Hkeys; [| |right].
  - intros p r' Hp. simpl in *. by eapply (wf_next s Hwf).
  - etransitivity; [apply delete_subseteq|done].
  - apply map_eq. intros i. rewrite records_lookup. simpl. destruct (decide (i = rt_ID r)) as [->|Hne].
    + by rewrite !lookup_delete_eq.
    + rewrite !lookup_delete_ne by done. by rewrite records_lookup.
Qed.

Lemma drop_records_part cond s0 rs : forall s,
  refresh_wf s0 -> part_of s0 s -> Forall (fun r => records s0 !! rt_ID r = Some r) rs ->
  part_of s0 (fold_left (drop_record cond) rs s) /\
  forall i, records (fold_left (drop_record cond) rs s) !! i =
    if existsb (fun r => cond r && (rt_ID r =? i)) rs then None else records s !! i.
Proof.
  induction rs as [|r rs IH]; intros s Hwf0 Hp Hrs; cbn [fold_left existsb]; [done|].
  apply Forall_cons in Hrs as [Hr Hrs]. destruct (drop_record_part cond s0 s r Hwf0 Hp Hr) as [Hp1 Hrec1].
  destruct (IH _ Hwf0 Hp1 Hrs) as [Hp2 Hrec2]. split; [done|]. intros i. rewrite Hrec2, Hrec1.
  destruct (existsb _ rs); [by rewrite orb_true_r|]. rewrite orb_false_r.
  destruct (cond r); simpl; [|done]. case_bool_decide as Heq.
  - subst i. by rewrite lookup_delete_eq.
  - by rewrite lookup_delete_ne.
Qed.

Lemma part_of_refl s : refresh_wf s -> part_of s s.
Proof. by constructor. Qed.

(** Dropping a list of records that holds every record of the store. *)
Lemma drop_all cond s rs :
  refresh_wf s -> (forall r, r ∈ rs <-> records s !! rt_ID r = Some r) ->
  refresh_wf (fold_left (drop_record cond) rs s) /\
  records (fold_left (drop_record cond) rs s) = filter (fun kv => cond kv.2 = false) (records s).
Proof.
  intros Hwf Hall. destruct (drop_records_part cond s rs s Hwf (part_of_refl s Hwf)) as [[Hw _ _] Hrec].
  { apply Forall_forall. intros r. apply Hall. }
  split; [done|]. apply map_eq. intros i. rewrite Hrec.
  destruct (existsb _ rs) eqn:He.
  - apply existsb_exists in He as (r & Hin & Hc). apply list_elem_of_In, Hall in Hin. go_bool.
    destruct Hc as [Hc <-]. symmetry. apply map_lookup_filter_None_2. right. intros r' Hr' Hf. simpl in Hf. congruence.
  - destruct (records s !! i) as [r|] eqn:Hr; [|symmetry; apply map_lookup_filter_None_2; by left].
    symmetry. apply map_lookup_filter_Some_2; [done|]. simpl. destruct (cond r) eqn:Hc; [|done].
    pose proof (records_ID s i r Hwf Hr) as <-.
    assert (existsb (fun r' => cond r' && (rt_ID r' =? rt_ID r)) rs = true) as Hx; [|congruence].
    apply existsb_exists. exists r. split; [by apply list_elem_of_In, Hall|]. by rewrite Hc, bool_decide_true.
Qed.

Lemma drop_record_heap cond s r : heap (drop_record cond s r) = heap s.
Proof. unfold drop_record. by destruct (cond r). Qed.

(** A loop over a map of pointers whose steps drop the record pointed to. *)
Lemma drop_loop cond (step : RefreshTokenStore -> string * nat -> RefreshTokenStore) s0 l :
  (forall t k p r, (k, p) ∈ l -> heap t = heap s0 -> heap s0 !! p = Some r ->
     step t (k, p) = drop_record cond t r) ->
  (forall k p, (k, p) ∈ l -> is_Some (heap s0 !! p)) ->
  forall t, heap t = heap s0 ->
  fold_left step l t = fold_left (drop_record cond) (omap (fun q => heap s0 !! q.2) l) t.
Proof.
  intros Hstep Hsome. induction l as [|[k p] l IH]; intros t Ht; [done|].
  destruct (Hsome k p ltac:(left)) as [r Hr]. cbn [fold_left].
  rewrite (Hstep t k p r ltac:(left) Ht Hr).
  assert (omap (fun q : string * nat => heap s0 !! q.2) ((k, p) :: l) =
          r :: omap (fun q : string * nat => heap s0 !! q.2) l) as -> by (simpl; by rewrite Hr).
  cbn [fold_left]. apply IH; [|by intros; eapply Hsome; right|by rewrite drop_record_heap].
  intros t' k' p' r' Hin. apply Hstep. by right.
Qed.

Lemma DeleteAllForSub_spec sub s :
  refresh_wf s ->
  refresh_wf (DeleteAllForSub sub s) /\
  records (DeleteAllForSub sub s) = filter (fun kv => (rt_UserID kv.2 =? sub) = false) (records s).
Proof.
  intros Hwf. set (rs := omap (fun q : string * nat => heap s !! q.2) (map_to_list (byID s))).
  assert (Heq : DeleteAllForSub sub s = fold_left (drop_record (fun r => rt_UserID r =? sub)) rs s).
  { unfold DeleteAllForSub, rs. apply drop_loop; [| |done].
    - intros t k p r Hin Ht Hr. apply elem_of_map_to_list in Hin.
      destruct (wf_id s Hwf k p Hin) as (r' & Hr' & <- & _). assert (r' = r) as -> by congruence.
      assert (Htr : heap t !! p = Some r) by congruence. by rewrite Htr.
    - intros k p Hin. apply elem_of_map_to_list in Hin. destruct (wf_id s Hwf k p Hin) as (r' & Hr' & _). eauto. }
  rewrite Heq. apply drop_all; [done|]. intros r. unfold rs. rewrite list_elem_of_omap. split.
  - intros ([i p] & Hin & Hr). apply elem_of_map_to_list in Hin. simpl in Hr.
    destruct (wf_id s Hwf i p Hin) as (r' & Hr' & Hi & _). apply records_Some; [done|]. split; [done|].
    exists p. split; [|done]. congruence.
  - intros Hr. apply records_Some in Hr as [_ (p & Hp & Hr)]; [|done]. exists (rt_ID r, p).
    by rewrite elem_of_map_to_list.
Qed.

Lemma DeleteForClient_spec tenant client s :
  refresh_wf s ->
  refresh_wf (DeleteForClient tenant client s) /\
  records (DeleteForClient tenant client s) =
    filter (fun kv => (rt_ClientID kv.2 =? client) && (rt_TenantID kv.2 =? tenant) = false) (records s).
Proof.
  intros Hwf. set (rs := omap (fun q : string * nat => heap s !! q.2) (map_to_list (byHash s))).
  assert (Heq : DeleteForClient tenant client s =
    fold_left (drop_record (fun r => (rt_ClientID r =? client) && (rt_TenantID r =? tenant))) rs s).
  { unfold DeleteForClient, rs. apply drop_loop; [| |done].
    - intros t k p r Hin Ht Hr. apply elem_of_map_to_list in Hin.
      destruct (wf_hash s Hwf k p Hin) as (r' & Hr' & <- & _). assert (r' = r) as -> by congruence.
      assert (Htr : heap t !! p = Some r) by congruence. by rewrite Htr.
    - intros k p Hin. apply elem_of_map_to_list in Hin. destruct (wf_hash s Hwf k p Hin) as (r' & Hr' & _). eauto. }
  rewrite Heq. apply (drop_all (fun r => (rt_ClientID r =? client) && (rt_TenantID r =? tenant))); [done|].
  intros r. unfold rs. rewrite list_elem_of_omap. split.
  - intros ([h p] & Hin & Hr). apply elem_of_map_to_list in Hin. simpl in Hr.
    destruct (wf_hash s Hwf h p Hin) as (r' & Hr' & Hh & Hi). assert (r' = r) as -> by congruence.
    apply records_Some; [done|]. split; [done|]. by exists p.
  - intros Hr. apply records_Some in Hr as [_ (p & Hp & Hr)]; [|done].
    destruct (wf_id s Hwf _ p Hp) as (r' & Hr' & _ & Hh). assert (r' = r) as -> by congruence.
    exists (rt_Hash r, p). by rewrite elem_of_map_to_list.
Qed.

(** ** Families under every interleaving

    The atomic steps that concurrent calls make on the store: a code exchange
    saves a new family; a refresh reads a record, and later rotates the record
    it read, however stale; revocations and deletions happen at any time.  The
    identifiers, hashes and family identifiers drawn are new (they are random);
    [seen] are the records that were read, [redeemed] the identifiers whose
    rotation succeeded, in the order of the successes. *)

Record config := {
  store : RefreshTokenStore;
  used_ids : gset string;
  used_hashes : gset string;
  used_families : gset string;
  seen : list RefreshTokenRecord;
  redeemed : list string;
}.

Definition init_config : config :=
  {| store := NewRefreshTokenStore; used_ids := ∅; used_hashes := ∅; used_families := ∅;
     seen := []; redeemed := [] |}.

Definition fresh (c : config) (r : RefreshTokenRecord) : Prop :=
  rt_ID r ∉ used_ids c /\ rt_Hash r ∉ used_hashes c.

Definition with_store (s : RefreshTokenStore) (c : config) : config :=
  {| store := s; used_ids := used_ids c; used_hashes := used_hashes c;
     used_families := used_families c; seen := seen c; redeemed := redeemed c |}.

Definition rotated_config (pid : string) (r : RefreshTokenRecord)
    (out : result string (option RefreshTokenRecord)) (s : RefreshTokenStore) (c : config) : config :=
  {| store := s; used_ids := {[rt_ID r]} ∪ used_ids c; used_hashes := {[rt_Hash r]} ∪ used_hashes c;
     used_families := used_families c; seen := seen c;
     redeemed := match out with Ok (Some _) => (redeemed c ++ [pid])%list | _ => redeemed c end |}.

Inductive refresh_step (c : config) : config -> Prop :=
| step_issue clientID sub scopes sc sid resource now (random : result unit draws) tenant g :
    GenerateInitialRefreshToken clientID sub scopes sc sid resource now random = Ok g ->
    fresh c (gen_Record g) -> rt_FamilyID (gen_Record g) ∉ used_families c ->
    refresh_step c
      {| store := Save (set_tenant tenant (gen_Record g)) (store c);
         used_ids := {[rt_ID (gen_Record g)]} ∪ used_ids c;
         used_hashes := {[rt_Hash (gen_Record g)]} ∪ used_hashes c;
         used_families := {[rt_FamilyID (gen_Record g)]} ∪ used_families c;
         seen := seen c; redeemed := redeemed c |}
| step_read hash r :
    FindByHash hash (store c) = Some r ->
    refresh_step c {| store := store c; used_ids := used_ids c; used_hashes := used_hashes c;
      used_families := used_families c; seen := r :: seen c; redeemed := redeemed c |}
| step_rotate parent now (random : result unit draws) g out s' :
    parent ∈ seen c -> RotateRefreshToken parent now random = Ok g -> fresh c (gen_Record g) ->
    Rotate (rt_ID parent) (gen_Record g) (store c) = (out, s') ->
    refresh_step c (rotated_config (rt_ID parent) (gen_Record g) out s' c)
| step_revoke_family f : refresh_step c (with_store (RevokeFamily f (store c)).2 c)
| step_revoke_sid sid : refresh_step c (with_store (RevokeBySid sid (store c)) c)
| step_delete_client tenant client :
    refresh_step c (with_store (DeleteForClient tenant client (store c)) c)
| step_delete_sub sub : refresh_step c (with_store (DeleteAllForSub sub (store c)) c).

Definition live (r : RefreshTokenRecord) : bool := negb (IsRefreshTokenReplay r).

(** The discipline of rotation, on the abstract state. *)
Record families_ok (m : gmap string RefreshTokenRecord) : Prop := {
  one_live : forall i j r1 r2, m !! i = Some r1 -> m !! j = Some r2 ->
    rt_FamilyID r1 = rt_FamilyID r2 -> live r1 = true -> live r2 = true -> i = j;
  one_lineage : forall i j r1 r2, m !! i = Some r1 -> m !! j = Some r2 ->
    rt_FamilyID r1 = rt_FamilyID r2 -> lineage r1 = lineage r2;
  absolute_bound : forall i r, m !! i = Some r -> (rt_ExpiresAt r <= rt_AbsoluteExpiresAt r)%Z;
}.

Record config_ok (c : config) : Prop := {
  ok_wf : refresh_wf (store c);
  ok_families : families_ok (records (store c));
  ok_used : forall i r, records (store c) !! i = Some r ->
    i ∈ used_ids c /\ rt_Hash r ∈ used_hashes c /\ rt_FamilyID r ∈ used_families c;
  ok_seen : forall r, r ∈ seen c -> rt_ID r ∈ used_ids c /\
    forall cur, records (store c) !! rt_ID r = Some cur -> lineage cur = lineage r;
  ok_redeemed : NoDup (redeemed c) /\ forall pid, pid ∈ redeemed c -> pid ∈ used_ids c /\
    forall cur, records (store c) !! pid = Some cur -> rt_Rotated cur = true;
}.

(** Nothing that identifies a record or its lineage changes, and flags are only
    ever set: what revocations, deletions and rotations do to old records. *)
Definition aged (m m' : gmap string RefreshTokenRecord) : Prop := forall i r', m' !! i = Some r' ->
  exists r, m !! i = Some r /\ lineage r' = lineage r /\ rt_Hash r' = rt_Hash r /\
    rt_ExpiresAt r' = rt_ExpiresAt r /\
    (rt_Rotated r = true -> rt_Rotated r' = true) /\ (rt_Revoked r = true -> rt_Revoked r' = true).

Lemma lineage_family r1 r2 : lineage r1 = lineage r2 -> rt_FamilyID r1 = rt_FamilyID r2.
Proof. unfold lineage. congruence. Qed.

Lemma lineage_absolute r1 r2 : lineage r1 = lineage r2 -> rt_AbsoluteExpiresAt r1 = rt_AbsoluteExpiresAt r2.
Proof. unfold lineage. congruence. Qed.

Lemma live_aged r r' :
  (rt_Rotated r = true -> rt_Rotated r' = true) -> (rt_Revoked r = true -> rt_Revoked r' = true) ->
  live r' = true -> live r = true.
Proof.
  unfold live, IsRefreshTokenReplay. intros H1 H2.
  destruct (rt_Rotated r); [by rewrite H1|]. destruct (rt_Revoked r); [rewrite H2, orb_true_r; done|done].
Qed.

Lemma families_aged m m' : families_ok m -> aged m m' -> families_ok m'.
Proof.
  intros [Hl Hn Hb] Ha. constructor.
  - intros i j r1' r2' H1 H2 Hf L1 L2.
    destruct (Ha _ _ H1) as (r1 & E1 & Q1 & _ & _ & R1 & V1), (Ha _ _ H2) as (r2 & E2 & Q2 & _ & _ & R2 & V2).
    apply (Hl i j r1 r2); [done|done| |by eapply live_aged|by eapply live_aged].
    apply lineage_family in Q1, Q2. congruence.
  - intros i j r1' r2' H1 H2 Hf.
    destruct (Ha _ _ H1) as (r1 & E1 & Q1 & _), (Ha _ _ H2) as (r2 & E2 & Q2 & _).
    rewrite Q1, Q2. apply (Hn i j); [done|done|]. apply lineage_family in Q1, Q2. congruence.
  - intros i r' H1. destruct (Ha _ _ H1) as (r & E1 & Q & _ & -> & _).
    apply lineage_absolute in Q as ->. by eapply Hb.
Qed.

(** A step that only ages records keeps the invariant. *)
Lemma config_aged c s :
  config_ok c -> refresh_wf s -> aged (records (store c)) (records s) -> config_ok (with_store s c).
Proof.
  intros [Hwf Hfam Hused Hseen Hred] Hwf' Ha. constructor; simpl.
  - done.
  - by eapply families_aged.
  - intros i r' Hr'. destruct (Ha _ _ Hr') as (r & Hr & Hq & -> & _).
    apply lineage_family in Hq as ->. by apply Hused.
  - intros r Hr. destruct (Hseen r Hr) as [Hid Hcur]. split; [done|]. intros cur Hc.
    destruct (Ha _ _ Hc) as (r0 & Hr0 & -> & _). by apply Hcur.
  - destruct Hred as [Hnd Hred]. split; [done|]. intros pid Hp. destruct (Hred pid Hp) as [Hid Hcur].
    split; [done|]. intros cur Hc. destruct (Ha _ _ Hc) as (r0 & Hr0 & _ & _ & _ & Hrot & _). eauto.
Qed.

Lemma aged_refl m : aged m m.
Proof. intros i r Hr. exists r. by split_and!. Qed.

Lemma aged_revoked cond m : aged m (revoked_if cond <$> m).
Proof.
  intros i r' Hr'. rewrite lookup_fmap in Hr'. apply fmap_Some in Hr' as (r & Hr & ->). exists r.
  unfold revoked_if. by destruct (cond r).
Qed.

Lemma aged_filter (P : string * RefreshTokenRecord -> Prop) `{!forall x, base.Decision (P x)} m :
  aged m (filter P m).
Proof. intros i r [Hr _]%map_lookup_filter_Some. exists r. by split_and!. Qed.

Lemma fresh_free c r : config_ok c -> fresh c r -> id_free (rt_ID r) (store c) /\ hash_free (rt_Hash r) (store c).
Proof.
  intros Hok [Hi Hh]. pose proof (ok_wf c Hok) as Hwf. split; unfold id_free, hash_free.
  - destruct (byID (store c) !! rt_ID r) as [p|] eqn:Hp; [|done]. exfalso.
    destruct (wf_id _ Hwf _ _ Hp) as (x & Hx & Hid & _). apply Hi.
    apply (ok_used c Hok _ x). apply records_Some; [done|]. split; [done|]. by exists p.
  - destruct (byHash (store c) !! rt_Hash r) as [p|] eqn:Hp; [|done]. exfalso.
    destruct (wf_hash _ Hwf _ _ Hp) as (x & Hx & Hxh & Hid). apply Hh.
    rewrite <- Hxh. apply (ok_used c Hok (rt_ID x) x). apply records_Some; [done|]. split; [done|]. by exists p.
Qed.

(** Adding a record to a disciplined state: a new family, or a successor in a
    family none of whose records is live. *)
Lemma families_insert m n :
  families_ok m -> m !! rt_ID n = None -> (rt_ExpiresAt n <= rt_AbsoluteExpiresAt n)%Z ->
  (forall i r, m !! i = Some r -> rt_FamilyID r = rt_FamilyID n -> lineage r = lineage n /\ live r = false) ->
  families_ok (<[rt_ID n := n]> m).
Proof.
  intros [Hl Hn Hb] Hfree Hexp Hfam. constructor.
  - intros i j r1 r2 [[<- <-]|[Hi H1]]%lookup_insert_Some [[<- <-]|[Hj H2]]%lookup_insert_Some Hf L1 L2.
    + done.
    + destruct (Hfam j r2 H2) as [_ ?]; congruence.
    + destruct (Hfam i r1 H1) as [_ ?]; congruence.
    + by eapply Hl.
  - intros i j r1 r2 [[<- <-]|[Hi H1]]%lookup_insert_Some [[<- <-]|[Hj H2]]%lookup_insert_Some Hf.
    + done.
    + symmetry. by apply (Hfam j r2 H2).
    + by apply (Hfam i r1 H1).
    + by eapply Hn.
  - intros i r [[<- <-]|[_ H1]]%lookup_insert_Some; [done|by eapply Hb].
Qed.

Lemma GenerateInitialRefreshToken_Ok {E} clientID sub scopes sc sid resource now (random : result E draws) g :
  GenerateInitialRefreshToken clientID sub scopes sc sid resource now random = Ok g ->
  let r := gen_Record g in
  live r = true /\ (rt_ExpiresAt r <= rt_AbsoluteExpiresAt r)%Z /\ rt_Hash r = HashRefreshToken (gen_Token g) /\
  rt_ClientID r = clientID /\ rt_UserID r = sub /\ rt_Scopes r = scopes /\
  rt_AbsoluteExpiresAt r = Add now refreshTokenAbsoluteTTL.
Proof.
  unfold GenerateInitialRefreshToken. intros H. apply res_bind_Ok in H as (d & _ & H).
  apply res_bind_Ok in H as ([] & _ & H). injection H as <-. cbn.
  split_and!; try done. unfold Add, refreshTokenTTL, refreshTokenAbsoluteTTL, Hour, Second. lia.
Qed.

Lemma issue_ok c clientID sub scopes sc sid resource now (random : result unit draws) tenant g :
  config_ok c ->
  GenerateInitialRefreshToken clientID sub scopes sc sid resource now random = Ok g ->
  fresh c (gen_Record g) -> rt_FamilyID (gen_Record g) ∉ used_families c ->
  config_ok
    {| store := Save (set_tenant tenant (gen_Record g)) (store c);
       used_ids := {[rt_ID (gen_Record g)]} ∪ used_ids c;
       used_hashes := {[rt_Hash (gen_Record g)]} ∪ used_hashes c;
       used_families := {[rt_FamilyID (gen_Record g)]} ∪ used_families c;
       seen := seen c; redeemed := redeemed c |}.
Proof.
  intros Hok Hgen Hfresh Hfam. destruct (GenerateInitialRefreshToken_Ok _ _ _ _ _ _ _ _ _ Hgen) as (_ & Hexp & _).
  destruct (fresh_free _ _ Hok Hfresh) as [Hi Hh]. destruct Hfresh as [Hfi Hfh].
  set (n := with_default_tenant (set_tenant tenant (gen_Record g))).
  assert (Hrec : records (Save (set_tenant tenant (gen_Record g)) (store c)) =
                 <[rt_ID n := n]> (records (store c))) by (by apply store_record_records; [apply Hok|]).
  assert (Hfree : records (store c) !! rt_ID n = None) by (rewrite records_lookup; simpl; by rewrite Hi).
  destruct Hok as [Hwf Hfams Hused Hseen Hred]. constructor; simpl.
  - by apply store_record_wf.
  - rewrite Hrec. apply families_insert; [done|done|done|]. intros i r Hr Hf. exfalso. apply Hfam.
    rewrite <- (Hf : _ = rt_FamilyID (gen_Record g)). by apply (Hused i r).
  - rewrite Hrec. intros i r [[<- <-]|[_ Hr]]%lookup_insert_Some; simpl; [set_solver|].
    apply Hused in Hr. set_solver.
  - rewrite Hrec. intros r Hr. destruct (Hseen r Hr) as [Hid Hcur]. split; [set_solver|].
    intros cur [[Heq _]|[_ Hc]]%lookup_insert_Some; [|by apply Hcur]. exfalso. apply Hfi.
    by rewrite (Heq : rt_ID (gen_Record g) = rt_ID r).
  - destruct Hred as [Hnd Hred]. split; [done|]. intros pid Hp. destruct (Hred pid Hp) as [Hid Hcur].
    split; [set_solver|]. rewrite Hrec.
    intros cur [[Heq _]|[_ Hc]]%lookup_insert_Some; [|by apply Hcur]. exfalso. apply Hfi.
    by rewrite (Heq : rt_ID (gen_Record g) = pid).
Qed.

Lemma rotate_ok c parent now (random : result unit draws) g out s' :
  config_ok c -> parent ∈ seen c -> RotateRefreshToken parent now random = Ok g -> fresh c (gen_Record g) ->
  Rotate (rt_ID parent) (gen_Record g) (store c) = (out, s') ->
  config_ok (rotated_config (rt_ID parent) (gen_Record g) out s' c).
Proof.
  intros Hok Hin Hgen Hfresh Hrot. destruct (RotateRefreshToken_Ok _ _ _ _ Hgen) as (Hlin & _ & _ & _ & _ & _ & _ & Hexp & _).
  destruct (fresh_free _ _ Hok Hfresh) as [Hi Hh]. destruct Hfresh as [Hfi Hfh].
  destruct (ok_seen c Hok parent Hin) as [Hpid Hcurp].
  pose proof (Rotate_spec (rt_ID parent) (gen_Record g) (store c) (ok_wf c Hok) Hi Hh) as Hspec.
  rewrite Hrot in Hspec. destruct Hspec as [Hwf' Hspec].
  assert (Hsame : (out = Err "parent refresh token not found" \/ out = Ok None) -> s' = store c ->
            config_ok (rotated_config (rt_ID parent) (gen_Record g) out s' c)).
  { intros Hout ->. destruct Hok as [Hwf Hfams Hused Hseen Hred].
    constructor; simpl; [done|done| | |].
    - intros i r Hr. apply Hused in Hr. set_solver.
    - intros r Hr. destruct (Hseen r Hr). split; [set_solver|done].
    - replace (match out with Ok (Some _) => _ | _ => redeemed c end) with (redeemed c) by (by destruct Hout as [-> | ->]).
      destruct Hred as [Hnd Hred]. split; [done|]. intros pid Hp. destruct (Hred pid Hp). split; [set_solver|done]. }
  destruct (records (store c) !! rt_ID parent) as [cur|] eqn:Hcur; [|destruct Hspec; auto].
  destruct (IsRefreshTokenReplay cur) eqn:Hrep; [destruct Hspec; auto|].
  destruct Hspec as [-> Hrec]. clear Hsame. set (n := with_default_tenant (gen_Record g)) in *.
  assert (Hlive : live cur = true) by (unfold live; by rewrite Hrep).
  specialize (Hcurp cur eq_refl).
  assert (Hfree : records (store c) !! rt_ID n = None) by (rewrite records_lookup; simpl; by rewrite Hi).
  set (m1 := <[rt_ID parent := mark_rotated cur]> (records (store c))) in *.
  assert (Haged : aged (records (store c)) m1).
  { intros i r' [[<- <-]|[_ Hr]]%lookup_insert_Some; [by exists cur|]. exists r'. by split_and!. }
  destruct Hok as [Hwf Hfams Hused Hseen Hred].
  assert (Hne : rt_ID n <> rt_ID parent) by (intros He; rewrite He in Hfree; congruence).
  assert (Hold : forall i r, records s' !! i = Some r -> i <> rt_ID n -> m1 !! i = Some r).
  { intros i r. rewrite Hrec. intros [[<- _]|[_ Hr]]%lookup_insert_Some Hi'; done. }
  constructor; simpl.
  - done.
  - rewrite Hrec. apply (families_insert m1 n); [by eapply families_aged| |exact Hexp|].
    + by unfold m1; rewrite lookup_insert_ne.
    + intros i r Hr Hf. assert (Hfn : rt_FamilyID n = rt_FamilyID cur).
      { apply lineage_family. transitivity (lineage parent); [exact Hlin|by rewrite Hcurp]. }
      apply lookup_insert_Some in Hr as [[<- <-]|[Hi' Hr]].
      * split; [|done]. transitivity (lineage cur); [done|]. rewrite Hcurp. symmetry. exact Hlin.
      * split.
        -- rewrite (one_lineage _ Hfams i (rt_ID parent) r cur Hr Hcur) by congruence.
           rewrite Hcurp. symmetry. exact Hlin.
        -- destruct (live r) eqn:Hlr; [|done]. exfalso. apply Hi'. symmetry.
           apply (one_live _ Hfams i (rt_ID parent) r cur); congruence.
  - intros i r Hr. destruct (decide (i = rt_ID n)) as [->|Hi'].
    + rewrite Hrec, lookup_insert_eq in Hr. injection Hr as <-. split_and!; [set_solver..|].
      destruct (Hused _ _ Hcur) as (_ & _ & Hfu).
      enough (rt_FamilyID n = rt_FamilyID cur) as -> by done.
      apply lineage_family. transitivity (lineage parent); [exact Hlin|by rewrite Hcurp].
    + apply Hold in Hr; [|done]. destruct (Haged _ _ Hr) as (r0 & Hr0 & Hq & -> & _).
      apply lineage_family in Hq as ->. apply Hused in Hr0. set_solver.
  - intros r Hr. destruct (Hseen r Hr) as [Hid Hc]. split; [set_solver|]. intros cur' Hcur'.
    destruct (decide (rt_ID r = rt_ID n)) as [He|Hi']; [exfalso; apply Hfi; by rewrite <- (He : _ = rt_ID (gen_Record g))|].
    apply Hold in Hcur'; [|done]. destruct (Haged _ _ Hcur') as (r0 & Hr0 & -> & _). by apply Hc.
  - destruct Hred as [Hnd Hred]. split.
    + apply NoDup_app. split_and!; [done| |apply NoDup_singleton]. intros x Hx Hx'.
      apply list_elem_of_singleton in Hx' as ->. destruct (Hred _ Hx) as [_ Hr].
      specialize (Hr cur Hcur). unfold live, IsRefreshTokenReplay in Hlive. by rewrite Hr in Hlive.
    + intros pid Hp. assert (Hu : pid ∈ used_ids c).
      { apply elem_of_app in Hp as [Hp|Hp]; [by apply Hred|]. by apply list_elem_of_singleton in Hp as ->. }
      split; [set_solver|]. intros cur' Hcur'.
      destruct (decide (pid = rt_ID n)) as [He|Hi']; [exfalso; apply Hfi; by rewrite <- (He : _ = rt_ID (gen_Record g))|].
      apply Hold in Hcur'; [|done]. apply lookup_insert_Some in Hcur' as [[<- <-]|[Hne' Hcur']]; [done|].
      apply elem_of_app in Hp as [Hp|Hp]; [by apply (Hred pid)|]. by apply list_elem_of_singleton in Hp as ->.
Qed.

Lemma init_config_ok : config_ok init_config.
Proof.
  constructor; simpl.
  - apply NewRefreshTokenStore_wf.
  - constructor; intros *; unfold records; simpl; rewrite omap_empty, lookup_empty; done.
  - intros i r. unfold records. simpl. by rewrite omap_empty, lookup_empty.
  - intros r Hr. by apply elem_of_nil in Hr.
  - split; [constructor|]. intros pid Hp. by apply elem_of_nil in Hp.
Qed.

Lemma refresh_step_ok c c' : config_ok c -> refresh_step c c' -> config_ok c'.
Proof.
  intros Hok Hstep. pose proof (ok_wf c Hok) as Hwf.
  destruct Hstep as [? ? ? ? ? ? ? ? ? ? ? ? ?|hash r Hf|? ? ? ? ? ? ? ? ? ?|f|sid|tenant client|sub].
  - by eapply issue_ok.
  - apply FindByHash_records in Hf as [Hr _]; [|done]. destruct Hok as [_ Hfams Hused Hseen Hred].
    constructor; simpl; [done..| |done]. intros x [->|Hx]%elem_of_cons; [|by apply Hseen]. split.
    + by apply (Hused (rt_ID r) r).
    + intros cur Hc. congruence.
  - by eapply rotate_ok.
  - pose proof (RevokeFamily_spec f (store c) Hwf) as Hs. destruct (RevokeFamily f (store c)) as [ids s'].
    destruct Hs as (Hw & _ & _ & Hrec & _). apply config_aged; [done|done|]. simpl. rewrite Hrec. apply aged_revoked.
  - destruct (RevokeBySid_spec sid (store c) Hwf) as (Hw & _ & _ & Hrec).
    apply config_aged; [done|done|]. rewrite Hrec. apply aged_revoked.
  - destruct (DeleteForClient_spec tenant client (store c) Hwf) as [Hw Hrec].
    apply config_aged; [done|done|]. rewrite Hrec. apply aged_filter.
  - destruct (DeleteAllForSub_spec sub (store c) Hwf) as [Hw Hrec].
    apply config_aged; [done|done|]. rewrite Hrec. apply aged_filter.
Qed.

(** C3. Rotation is safe under concurrency: however the atomic steps of any number
    of exchanges, refreshes (which may rotate records read long before),
    revocations and deletions interleave, every refresh token is redeemed at
    most once, every family has at most one live token, all tokens of a family
    have the same client, user, scopes, resource, sender constraint, session and
    absolute deadline, and no token outlives that deadline. *)
Theorem refresh_rotation_safe c :
  rtc refresh_step init_config c ->
  NoDup (redeemed c) /\ families_ok (records (store c)) /\ refresh_wf (store c).
Proof.
  intros Hsteps. assert (Hok : config_ok c).
  { revert Hsteps. generalize init_config_ok. generalize init_config as c0. intros c0 Hc0 Hsteps.
    induction Hsteps as [|c0 c1 c2 Hstep _ IH]; [done|]. by eapply IH, refresh_step_ok. }
  split_and!; apply Hok.
Qed.

(** ** A witness: two refreshes race with the same token *)

Definition uuid_of (digit : string) : string := "00000000-0000-4000-8000-00000000000" ++ digit.

Definition draws_of (b : N) (id family : string) : draws :=
  {| random_bytes := repeat b 48; uuid1 := uuid_of id; uuid2 := uuid_of family |}.

Definition token_of_draws (d : draws) : string := EncodeToString (string_of_bytes (random_bytes d)).

Definition first_record : RefreshTokenRecord :=
  {| rt_ID := uuid_of "1"; rt_TenantID := ""; rt_Hash := HashRefreshToken (token_of_draws (draws_of 1 "1" "f"));
     rt_FamilyID := uuid_of "f"; rt_ParentID := None; rt_ClientID := "client"; rt_UserID := "user";
     rt_Scopes := ["openid"; "offline_access"]; rt_IssuedAt := 1; rt_ExpiresAt := 1 + refreshTokenTTL;
     rt_AbsoluteExpiresAt := 1 + refreshTokenAbsoluteTTL; rt_Revoked := false; rt_Rotated := false;
     rt_SenderConstraint := None; rt_Sid := None; rt_Resource := None |}%Z.

Definition stored_first : RefreshTokenRecord := with_default_tenant (set_tenant "acme" first_record).

(** The successor of the first record, as the draws of [b] and [id] make it. *)
Definition successor (b : N) (id : string) : RefreshTokenRecord :=
  {| rt_ID := uuid_of id; rt_TenantID := ""; rt_Hash := HashRefreshToken (token_of_draws (draws_of b id "e"));
     rt_FamilyID := uuid_of "f"; rt_ParentID := Some (uuid_of "1"); rt_ClientID := "client"; rt_UserID := "user";
     rt_Scopes := ["openid"; "offline_access"]; rt_IssuedAt := 2; rt_ExpiresAt := 2 + refreshTokenTTL;
     rt_AbsoluteExpiresAt := 1 + refreshTokenAbsoluteTTL; rt_Revoked := false; rt_Rotated := false;
     rt_SenderConstraint := None; rt_Sid := None; rt_Resource := None |}%Z.

Lemma generates_first :
  GenerateInitialRefreshToken (E := unit) "client" "user" ["openid"; "offline_access"] None None None 1%Z
    (Ok (draws_of 1 "1" "f")) =
  Ok {| gen_Token := token_of_draws (draws_of 1 "1" "f"); gen_Record := first_record |}.
Proof. vm_compute. reflexivity. Qed.

Lemma rotates_first b id : b ∈ [2%N; 3%N] -> id ∈ ["2"; "3"] ->
  RotateRefreshToken (E := unit) stored_first 2%Z (Ok (draws_of b id "e")) =
  Ok {| gen_Token := token_of_draws (draws_of b id "e"); gen_Record := successor b id |}.
Proof.
  intros Hb Hid. repeat (apply elem_of_cons in Hb as [->|Hb]; [|try by apply elem_of_nil in Hb]);
  repeat (apply elem_of_cons in Hid as [->|Hid]; [|try by apply elem_of_nil in Hid]);
  vm_compute; reflexivity.
Qed.

Definition issued_config : config :=
  {| store := Save (set_tenant "acme" first_record) NewRefreshTokenStore;
     used_ids := {[rt_ID first_record]} ∪ ∅; used_hashes := {[rt_Hash first_record]} ∪ ∅;
     used_families := {[rt_FamilyID first_record]} ∪ ∅; seen := []; redeemed := [] |}.

Definition read_config : config :=
  {| store := store issued_config; used_ids := used_ids issued_config;
     used_hashes := used_hashes issued_config; used_families := used_families issued_config;
     seen := [stored_first]; redeemed := [] |}.

Definition rotate_in (b : N) (id : string) (c : config) : config :=
  rotated_config (uuid_of "1") (successor b id) (Rotate (uuid_of "1") (successor b id) (store c)).1
    (Rotate (uuid_of "1") (successor b id) (store c)).2 c.

Definition raced_config : config := rotate_in 3 "3" (rotate_in 2 "2" read_config).

Lemma not_in_by_compute (x : string) (X : gset string) : bool_decide (x ∈ X) = false -> x ∉ X.
Proof. apply bool_decide_eq_false. Qed.

Lemma rotate_in_step b id c :
  b ∈ [2%N; 3%N] -> id ∈ ["2"; "3"] -> stored_first ∈ seen c -> fresh c (successor b id) ->
  refresh_step c (rotate_in b id c).
Proof.
  intros Hb Hid Hs Hf. unfold rotate_in.
  apply (step_rotate c stored_first 2%Z (Ok (draws_of b id "e"))
    {| gen_Token := token_of_draws (draws_of b id "e"); gen_Record := successor b id |});
    [done|by apply rotates_first|done|by destruct (Rotate _ _ _)].
Qed.

Lemma raced_reachable : rtc refresh_step init_config raced_config.
Proof.
  eapply rtc_l.
  { apply (step_issue init_config "client" "user" ["openid"; "offline_access"] None None None 1%Z
      (Ok (draws_of 1 "1" "f")) "acme" {| gen_Token := token_of_draws (draws_of 1 "1" "f"); gen_Record := first_record |});
      [apply generates_first|split; apply not_in_by_compute; vm_compute; reflexivity
      |apply not_in_by_compute; vm_compute; reflexivity]. }
  eapply rtc_l.
  { apply (step_read issued_config (rt_Hash first_record) stored_first). vm_compute. reflexivity. }
  eapply rtc_l; [apply (rotate_in_step 2 "2" read_config)|].
  1-3: set_solver.
  { split; apply not_in_by_compute; vm_compute; reflexivity. }
  apply rtc_once. apply (rotate_in_step 3 "3" (rotate_in 2 "2" read_config)); [set_solver| | |].
  - set_solver.
  - set_solver.
  - split; apply not_in_by_compute; vm_compute; reflexivity.
Qed.

Lemma refresh_rotation_safe_witness :
  redeemed raced_config = [uuid_of "1"] /\ NoDup (redeemed raced_config).
Proof.
  split; [vm_compute; reflexivity|]. exact (proj1 (refresh_rotation_safe raced_config raced_reachable)).
Defined.
