(* ===== verification/RefreshUsecase.v ===== *)
(** * OAuth2: refreshing and revoking tokens

    [backend/oauth2/internal/token/usecases/refresh_tokens.go] and
    [revoke_token.go].  The use cases are written against the port of the
    refresh token store; repositories of other modules, the signer and its
    guard are functions in [RefreshDeps].

    The theorems are about the memory store: what a successful refresh has
    checked and changed, that presenting a used token revokes its family, that
    revocation by the owner reaches the whole family.  One more states
    behaviour that the code does not intend: the tenant of a record is lost by
    a rotation. *)

From Stdlib Require Import Ascii String ZArith Lia.
From stdpp Require Import base strings list gmap sorting.
From S2P Require Import Prelude Effects GoStrings Rules Policy TokenDomain ActorChain RichAuthorization RefreshStore.

Local Open Scope string_scope.
Local Open Scope go_scope.

(** ** Ports *)

(** [ports.RefreshTokenStore], as the token use cases call it. *)
Class RefreshTokenPort (S E : Type) := {
  find_by_hash : string -> S -> result E (option RefreshTokenRecord) * S;
  save_refresh : RefreshTokenRecord -> S -> result E unit * S;
  rotate_refresh : string -> RefreshTokenRecord -> S -> result E (option RefreshTokenRecord) * S;
  revoke_family : string -> S -> result E (list string) * S;
  revoke_by_sid : string -> S -> result E unit * S;
}.

#[export] Instance memory_refresh_port : RefreshTokenPort RefreshTokenStore string := {
  find_by_hash h s := (Ok (FindByHash h s), s);
  save_refresh r s := (Ok tt, Save r s);
  rotate_refresh p r s := Rotate p r s;
  revoke_family f s := let '(ids, s') := RevokeFamily f s in (Ok ids, s');
  revoke_by_sid sid s := (Ok tt, RevokeBySid sid s);
}.

(** What the flows read of a client and of a user. *)
Class ClientView (C : Type) := {
  client_ClientID : C -> string;
  client_GrantTypes : C -> list GrantType;
}.
Class UserView (U : Type) := {
  user_ID : U -> string;
  user_TenantID : U -> string;
  user_IsActive : U -> bool;
}.

(** [UserRevocationEpoch.Supersedes]. *)
Definition Supersedes (epoch issuedAt : Time) : bool := Before issuedAt epoch.

(** The input of the signer. *)
Record AccessTokenInput (C : Type) := {
  at_Client : C;
  at_Sub : string;
  at_Scopes : list string;
  at_SenderConstraint : option SenderConstraint;
  at_AuthTime : Z;
  at_AMR : list string;
  at_ACR : string;
  at_AgentID : string;
  at_AgentChain : list string;
  at_ApprovalRequestID : string;
  at_Audiences : list string;
  at_AuthorizationDetails : list AuthorizationDetail;
  at_ExpiresAt : Z;
  at_Managed : bool;
  at_Act : option act_claim;
}.
Arguments at_Sub {C} a.
Arguments at_Scopes {C} a.
Arguments at_SenderConstraint {C} a.

Inductive oauth_event :=
| RefreshTokenReuseDetected (at_ : Time) (tenantID familyID tokenID clientID userID : string)
| TokenRevoked (at_ : Time) (tenantID tokenType tokenID reason : string)
| RefreshTokenRotated (at_ : Time) (tenantID oldTokenID newTokenID familyID : string)
| RefreshTokenIssued (at_ : Time) (tenantID tokenID familyID clientID userID : string)
| AccessTokenIssued (at_ : Time) (tenantID jti clientID userID : string) (scopes : list string)
    (senderConstraint : string)
| ResourceScopedTokenIssued (at_ : Time) (tenantID clientID resource : string) (scopes : list string)
| AuthorizationCodeRedeemed (at_ : Time) (tenantID clientID userID : string)
| ResourceAudienceRejected (at_ : Time) (tenantID clientID reason : string)
| DeviceAuthorizationRequested (at_ : Time) (tenantID clientID : string) (scopes : list string)
| DeviceAuthorizationApproved (at_ : Time) (tenantID clientID userID : string)
| DeviceAuthorizationDenied (at_ : Time) (tenantID clientID userID : string).

Record RefreshInput := {
  ri_ClientID : string;
  ri_RefreshToken : string;
  ri_ProofJKT : string;
  ri_ProofX5TS256 : string;
}.

Record RefreshResult := {
  rr_AccessToken : string;
  rr_RefreshToken : string;
  rr_TokenType : string;
  rr_ExpiresIn : Z;
  rr_Scope : string;
}.

(** ** RefreshTokens *)

Section usecase.
Context {S E C U : Type} `{RefreshTokenPort S E} `{ClientView C} `{UserView U}.

Record RefreshDeps := {
  ClientRepo : string -> string -> result E (option C);
  UserRepo : string -> result E (option U);
  UserEpochs : option (string -> string -> result E (option Time));
  SignAccessToken : AccessTokenInput C -> result (failure E) (string * string);
  Precheck : option (AccessTokenInput C -> result (failure E) unit);
  AccessTokenTTLSeconds : Z;
  RefreshAuthorizer : option (AuthZRequest -> result E AuthZResponse);
  clock : Time;
}.

Definition flow := eff S oauth_event (failure E).

(** [revokeFamilyAndNotify]. *)
Definition revokeFamilyAndNotify (familyID tenantID : string) (now : Time) : flow unit :=
  let! revoked := ignore (revoke_family familyID) in
  eff_for_each (fun tokenID => emit (TokenRevoked now tenantID "refresh_token" tokenID "reuse_detected"))
    (default [] revoked).

(** The request that [evaluateRefreshPolicy] builds. *)
Definition refresh_request (client : C) (record : RefreshTokenRecord) (in_ : RefreshInput) (now : Time) :
    AuthZRequest :=
  let pop :=
    match rt_SenderConstraint record with
    | None => None
    | Some sc =>
        let valid :=
          if sender_Type sc =? SenderConstraintDPoP then sender_JKT sc =? ri_ProofJKT in_
          else if sender_Type sc =? SenderConstraintMTLS then sender_X5TS256 sc =? ri_ProofX5TS256 in_
          else false in
        Some {| pop_Valid := valid; JKT := ""; X5TS256 := "" |}
    end in
  {| req_Subject := {| subject_Type := "Client"; subject_ID := client_ClientID client;
       subject_Properties :=
         {| sp_ClientType := ""; sp_GrantTypes := client_GrantTypes client; sp_Scopes := [];
            sp_RedirectURIs := []; sp_RequirePAR := false; sp_Fapi2SecurityProfile := false;
            sp_Authenticated := false; sp_Roles := []; sp_TenantID := ""; sp_DisabledAt := None |} |};
     req_Action := ActionTokenGrantRefresh;
     req_Resource := {| resource_Type := "RefreshToken"; resource_ID := "";
       resource_Properties :=
         {| rp_IssuedToClientID := ""; rp_RedirectURI := ""; rp_CodeChallenge := "";
            rp_CodeChallengeMethod := ""; rp_IssuedAt := 0%Z; rp_ExpiresAt := 0%Z; rp_Redeemed := false;
            rp_Revoked := rt_Revoked record; rp_Rotated := rt_Rotated record;
            rp_AbsoluteExpiresAt := rt_AbsoluteExpiresAt record;
            rp_SenderConstraint := authZSenderConstraint (rt_SenderConstraint record);
            rp_Scopes := []; rp_Approved := false; rp_TenantID := "" |} |};
     req_Context := {| ctx_CodeVerifier := ""; ctx_RedirectURI := ""; ProofOfPossession := pop;
       ParUsed := false; ctx_Authenticated := false; ctx_Now := now; ctx_ActorUserID := "";
       ctx_SubjectUserID := ""; ctx_Audience := ""; DelegationDepth := 0%Z; ActorChain := [];
       Relationship := None |} |}.

Definition evaluateRefreshPolicy (d : RefreshDeps) (client : C) (record : RefreshTokenRecord)
    (in_ : RefreshInput) (now : Time) : result E AuthZResponse :=
  match RefreshAuthorizer d with
  | None => Ok (Evaluate (clock d) (refresh_request client record in_ now))
  | Some authorize => authorize (refresh_request client record in_ now)
  end.

Definition audiences_of (resource : option string) : list string :=
  match resource with Some r => [r] | None => [] end.

Definition token_input (client : C) (record : RefreshTokenRecord) (audiences : list string)
    (sc : option SenderConstraint) (authTime : Z) : AccessTokenInput C :=
  {| at_Client := client; at_Sub := rt_UserID record; at_Scopes := rt_Scopes record;
     at_SenderConstraint := sc; at_AuthTime := authTime; at_AMR := []; at_ACR := "";
     at_AgentID := ""; at_AgentChain := []; at_ApprovalRequestID := ""; at_Audiences := audiences;
     at_AuthorizationDetails := []; at_ExpiresAt := 0; at_Managed := false; at_Act := None |}.

(** The checks on the user of the record, which revoke the family of a user
    that is gone, disabled or revoked. *)
Definition check_user (d : RefreshDeps) (tenantID : string) (record : RefreshTokenRecord) : flow unit :=
  let! user := lift (lift_port (UserRepo d (rt_UserID record))) in
  match user with
  | None =>
      do! ignore (revoke_family (rt_FamilyID record)) in
      eff_fail (NewOAuthError "invalid_grant" "user is unavailable")
  | Some user =>
      refuse (user_TenantID user <>? tenantID) with
        NewOAuthError "invalid_grant" "The refresh token is invalid." in
      if negb (user_IsActive user) then
        do! ignore (revoke_family (rt_FamilyID record)) in
        eff_fail (NewOAuthError "invalid_grant" "user is disabled")
      else match UserEpochs d with
      | None => eff_ret tt
      | Some findByUser =>
          let! epoch := lift (lift_port (findByUser tenantID (rt_UserID record))) in
          match epoch with
          | Some epoch =>
              if Supersedes epoch (rt_IssuedAt record) then
                do! ignore (revoke_family (rt_FamilyID record)) in
                eff_fail (NewOAuthError "invalid_grant" "The refresh token was revoked.")
              else eff_ret tt
          | None => eff_ret tt
          end
      end
  end.

(** The checks on the presented record, up to its absolute lifetime. *)
Definition check_record (tenantID : string) (client : C) (record : RefreshTokenRecord) (now : Time) : flow unit :=
  refuse (rt_TenantID record <>? tenantID) with
    NewOAuthError "invalid_grant" "The refresh token is invalid." in
  if rt_ClientID record <>? client_ClientID client then
    do! ignore (revoke_family (rt_FamilyID record)) in
    do! emit (RefreshTokenReuseDetected now tenantID (rt_FamilyID record) (rt_ID record)
                (client_ClientID client) (rt_UserID record)) in
    eff_fail (NewOAuthError "invalid_grant" "The refresh token owner does not match.")
  else if IsRefreshTokenReplay record then
    do! revokeFamilyAndNotify (rt_FamilyID record) tenantID now in
    do! emit (RefreshTokenReuseDetected now tenantID (rt_FamilyID record) (rt_ID record)
                (client_ClientID client) (rt_UserID record)) in
    eff_fail (NewOAuthError "invalid_grant" "The refresh token has already been used.")
  else
    refuse (IsRefreshTokenAbsoluteExpired record now) with
      NewOAuthError "invalid_grant" "The refresh token has exceeded its absolute lifetime." in
    eff_ret tt.

(** The policy and the issuance guard. *)
Definition check_policy (d : RefreshDeps) (client : C) (record : RefreshTokenRecord) (in_ : RefreshInput)
    (now : Time) : flow unit :=
  let! decision := lift (lift_port (evaluateRefreshPolicy d client record in_ now)) in
  refuse (negb (Permit decision)) with
    NewOAuthError "invalid_grant" ("Refresh was rejected: " ++ Join (resp_Reasons decision) ", ") in
  match Precheck d with
  | None => eff_ret tt
  | Some precheck =>
      lift (precheck (token_input client record (audiences_of (rt_Resource record)) None 0%Z))
  end.

(** The rotation of the record and what follows it. *)
Definition rotate_and_sign (d : RefreshDeps) (tenantID : string) (client : C) (record : RefreshTokenRecord)
    (now : Time) (random : result E draws) : flow RefreshResult :=
  let! newTok := lift (RotateRefreshToken record now random) in
  let! rotated := call PortError (rotate_refresh (rt_ID record) (gen_Record newTok)) in
  match rotated with
  | None =>
      do! ignore (revoke_family (rt_FamilyID record)) in
      eff_fail (NewOAuthError "invalid_grant" "The refresh token was invalidated by a concurrent refresh.")
  | Some _ =>
      do! emit (RefreshTokenRotated now tenantID (rt_ID record) (rt_ID (gen_Record newTok)) (rt_FamilyID record)) in
      let! signed := lift (SignAccessToken d
        (token_input client record (audiences_of (rt_Resource (gen_Record newTok)))
           (rt_SenderConstraint record) (Unix now))) in
      do! emit (AccessTokenIssued now tenantID signed.2 (client_ClientID client) (rt_UserID record)
                  (rt_Scopes record) (senderConstraintTag (rt_SenderConstraint record))) in
      do! match rt_Resource (gen_Record newTok) with
          | Some r => emit (ResourceScopedTokenIssued now tenantID (client_ClientID client) r (rt_Scopes record))
          | None => eff_ret tt
          end in
      eff_ret {| rr_AccessToken := signed.1; rr_RefreshToken := gen_Token newTok;
                 rr_TokenType := PresentationTokenType (rt_SenderConstraint record);
                 rr_ExpiresIn := AccessTokenTTLSeconds d; rr_Scope := Join (rt_Scopes record) " " |}
  end.

Definition RefreshTokens (d : RefreshDeps) (tenantID : string) (in_ : RefreshInput) (now : Time)
    (random : result E draws) : flow RefreshResult :=
  let now := if IsZero now then clock d else now in
  let! client := lift (lift_port (ClientRepo d tenantID (ri_ClientID in_))) in
  match client with
  | None => eff_fail (NewOAuthError "invalid_client" "Client authentication failed.")
  | Some client =>
      let! record := call PortError (find_by_hash (HashRefreshToken (ri_RefreshToken in_))) in
      match record with
      | None => eff_fail (NewOAuthError "invalid_grant" "The refresh token is invalid.")
      | Some record =>
          do! check_record tenantID client record now in
          do! check_user d tenantID record in
          do! check_policy d client record in_ now in
          rotate_and_sign d tenantID client record now random
      end
  end.

(** ** RevokeToken *)

Record AccessTokenStatus := {
  ats_Active : bool;
  ats_JTI : string;
  ats_ClientID : string;
  ats_Managed : bool;
  ats_Exp : Z;
}.

(** What [revokeAccessToken] calls: the introspector, the denylist and the
    revoker of managed tokens, each [None] when it is not configured. *)
Record RevokeDeps := {
  Introspector : option (string -> result E AccessTokenStatus);
  AccessTokenDenylist : option (string -> Z -> result E unit);
  ManagedTokenRevoker : option (string -> string -> Time -> result E unit);
  revoke_clock : Time;
}.

Definition revokeAccessToken (d : RevokeDeps) (tenantID clientID token : string) (now : Time) : flow unit :=
  match Introspector d, AccessTokenDenylist d with
  | Some introspect, Some deny =>
      match introspect token with
      | Err _ => eff_ret tt
      | Ok st =>
          if negb (ats_Active st) || (ats_JTI st =? "") || (ats_ClientID st <>? clientID) then eff_ret tt
          else
            do! match ManagedTokenRevoker d with
                | Some revoke => if ats_Managed st then lift (lift_port (revoke tenantID (ats_JTI st) now)) else eff_ret tt
                | None => eff_ret tt
                end in
            do! lift (lift_port (deny (ats_JTI st) (ats_Exp st))) in
            emit (TokenRevoked now tenantID "access_token" (ats_JTI st) "client_initiated")
      end
  | _, _ => eff_ret tt
  end.

Definition RevokeToken (d : RevokeDeps) (tenantID clientID token : string) (now : Time) : flow unit :=
  let now := if IsZero now then revoke_clock d else now in
  let! record := call PortError (find_by_hash (HashRefreshToken token)) in
  match record with
  | None => revokeAccessToken d tenantID clientID token now
  | Some r =>
      if (rt_TenantID r <>? tenantID) || (rt_ClientID r <>? clientID) then eff_ret tt
      else
        let! revokedIDs := call PortError (revoke_family (rt_FamilyID r)) in
        eff_for_each (fun tokenID =>
          emit (TokenRevoked now (rt_TenantID r) "refresh_token" tokenID "client_initiated")) revokedIDs
  end.

Definition RevokeTokensBySid (sid : string) : flow unit :=
  if sid =? "" then eff_ret tt else call PortError (revoke_by_sid sid).

End usecase.

Arguments RefreshDeps : clear implicits.
Arguments RevokeDeps : clear implicits.

(** ** On the memory store *)

Section memory.
Context {C U : Type} `{ClientView C} `{UserView U}.
Notation Deps := (RefreshDeps string C U).
Implicit Types (d : Deps) (s : RefreshTokenStore).

(** The user of the record may still refresh it. *)
Definition user_ok d (tenantID : string) (r : RefreshTokenRecord) : Prop :=
  exists u, UserRepo d (rt_UserID r) = Ok (Some u) /\ user_TenantID u = tenantID /\ user_IsActive u = true /\
    forall find epoch, UserEpochs d = Some find -> find tenantID (rt_UserID r) = Ok (Some epoch) ->
      Supersedes epoch (rt_IssuedAt r) = false.

(** The proof of possession that the record asks for was made. *)
Definition possession_ok (in_ : RefreshInput) (r : RefreshTokenRecord) : Prop :=
  match rt_SenderConstraint r with
  | None => True
  | Some sc =>
      (sender_Type sc = SenderConstraintDPoP /\ sender_JKT sc = ri_ProofJKT in_) \/
      (sender_Type sc = SenderConstraintMTLS /\ sender_X5TS256 sc = ri_ProofX5TS256 in_)
  end.

Lemma revoke_notify_run f tenant now s :
  revokeFamilyAndNotify (S := RefreshTokenStore) (E := string) f tenant now s =
  (Ok tt, (RevokeFamily f s).2,
   map (fun tokenID => TokenRevoked now tenant "refresh_token" tokenID "reuse_detected") (RevokeFamily f s).1).
Proof.
  unfold revokeFamilyAndNotify, ignore, eff_bind. simpl. destruct (RevokeFamily f s) as [ids s']. simpl.
  by rewrite eff_for_each_emit.
Qed.

Lemma check_record_Ok tenantID (client : C) r now s s' w :
  check_record (S := RefreshTokenStore) (E := string) tenantID client r now s = (Ok tt, s', w) ->
  s' = s /\ w = [] /\ rt_TenantID r = tenantID /\ rt_ClientID r = client_ClientID client /\ live r = true /\
  (now < rt_AbsoluteExpiresAt r)%Z.
Proof.
  unfold check_record. destruct (rt_TenantID r <>? tenantID) eqn:Ht; [done|].
  destruct (rt_ClientID r <>? client_ClientID client) eqn:Hc.
  { intros Hb. apply eff_bind_Ok in Hb as (? & ? & ? & ? & _ & Hb & _).
    by apply eff_bind_Ok in Hb as (? & ? & ? & ? & _ & Hb & _). }
  destruct (IsRefreshTokenReplay r) eqn:Hr.
  { intros Hb. apply eff_bind_Ok in Hb as (? & ? & ? & ? & _ & Hb & _).
    by apply eff_bind_Ok in Hb as (? & ? & ? & ? & _ & Hb & _). }
  destruct (IsRefreshTokenAbsoluteExpired r now) eqn:He; [done|]. intros [= <- <-]. go_bool.
  unfold IsRefreshTokenAbsoluteExpired, Before in He. go_bool. unfold live. by rewrite Hr.
Qed.

Lemma check_user_Ok d tenantID r s s' w :
  check_user (S := RefreshTokenStore) d tenantID r s = (Ok tt, s', w) ->
  s' = s /\ w = [] /\ user_ok d tenantID r.
Proof.
  unfold check_user, user_ok. intros Hb.
  apply eff_bind_Ok in Hb as (user & s1 & w1 & w2 & Hu & Hb & ->). injection Hu as Hu <- <-.
  destruct (UserRepo d (rt_UserID r)) as [ou|] eqn:Hrepo; [|done]. injection Hu as ->.
  destruct user as [u|].
  2:{ by apply eff_bind_Ok in Hb as (? & ? & ? & ? & _ & Hb & _). }
  destruct (user_TenantID u <>? tenantID) eqn:Ht; [done|].
  destruct (negb (user_IsActive u)) eqn:Ha.
  { by apply eff_bind_Ok in Hb as (? & ? & ? & ? & _ & Hb & _). }
  go_bool. destruct (UserEpochs d) as [find|].
  2:{ injection Hb as <- <-. split_and!; [done..|]. exists u. by split_and!. }
  apply eff_bind_Ok in Hb as (epoch & s2 & w3 & w4 & He & Hb & ->). injection He as He <- <-.
  destruct (find tenantID (rt_UserID r)) as [oe|] eqn:Hf; [|done]. injection He as ->.
  destruct epoch as [e|].
  - destruct (Supersedes e (rt_IssuedAt r)) eqn:Hs.
    { by apply eff_bind_Ok in Hb as (? & ? & ? & ? & _ & Hb & _). }
    injection Hb as <- <-. split_and!; [done..|]. exists u. split_and!; [done..|]. naive_solver congruence.
  - injection Hb as <- <-. split_and!; [done..|]. exists u. split_and!; [done..|]. naive_solver congruence.
Qed.

Lemma check_policy_Ok d (client : C) r in_ now s s' w :
  check_policy (S := RefreshTokenStore) d client r in_ now s = (Ok tt, s', w) ->
  s' = s /\ w = [] /\
  (RefreshAuthorizer d = None -> GrantRefreshToken ∈ client_GrantTypes client /\ possession_ok in_ r).
Proof.
  unfold check_policy. intros Hb.
  apply eff_bind_Ok in Hb as (decision & s1 & w1 & w2 & Hp & Hb & ->). injection Hp as Hp <- <-.
  destruct (negb (Permit decision)) eqn:Hd; [done|]. apply negb_false_iff in Hd.
  assert (Hs : s' = s /\ w2 = []) by (unfold lift, eff_ret in Hb; destruct (Precheck d); split; congruence).
  destruct Hs as [-> ->]. split_and!; [done..|]. intros Hnone. unfold evaluateRefreshPolicy in Hp.
  rewrite Hnone in Hp. cbn [lift_port] in Hp.
  pose proof (Evaluate_grant_refresh (clock d) (refresh_request client r in_ now) eq_refl) as Hev.
  set (resp := Evaluate (clock d) (refresh_request client r in_ now)) in *. clearbody resp.
  injection Hp as <-. apply Hev in Hd as (Hg & _ & _ & _ & Hsc). split; [exact Hg|].
  unfold possession_ok, refresh_request in *. simpl in Hsc. destruct (rt_SenderConstraint r) as [sc|]; [|done].
  simpl in Hsc. destruct Hsc as [?|(p & [= <-] & Hv)]; [done|]. simpl in Hv.
  destruct (sender_Type sc =? SenderConstraintDPoP) eqn:E1; go_bool; [by left|].
  destruct (sender_Type sc =? SenderConstraintMTLS) eqn:E2; go_bool; [by right|done].
Qed.

(** A refresh succeeds only for a live token of the same tenant and client,
    before its absolute deadline, for an active user who has not been revoked
    since, with the proof of possession the token is bound to; and it does one
    thing to the store: the presented record is rotated and its successor, of
    the same lineage, is stored under the hash of the token that is returned. *)
Theorem RefreshTokens_success d tenantID in_ now random s out s' w :
  refresh_wf s -> RefreshAuthorizer d = None ->
  (forall parent g, RotateRefreshToken parent (if IsZero now then clock d else now) random = Ok g ->
     id_free (rt_ID (gen_Record g)) s /\ hash_free (rt_Hash (gen_Record g)) s) ->
  RefreshTokens d tenantID in_ now random s = (Ok out, s', w) ->
  exists client r g,
    ClientRepo d tenantID (ri_ClientID in_) = Ok (Some client) /\
    FindByHash (HashRefreshToken (ri_RefreshToken in_)) s = Some r /\
    rt_TenantID r = tenantID /\ rt_ClientID r = client_ClientID client /\ live r = true /\
    ((if IsZero now then clock d else now) < rt_AbsoluteExpiresAt r)%Z /\
    user_ok d tenantID r /\ GrantRefreshToken ∈ client_GrantTypes client /\ possession_ok in_ r /\
    refresh_wf s' /\ lineage (gen_Record g) = lineage r /\
    rr_RefreshToken out = gen_Token g /\ rt_Hash (gen_Record g) = HashRefreshToken (gen_Token g) /\
    rr_Scope out = Join (rt_Scopes r) " " /\
    records s' = <[rt_ID (gen_Record g) := with_default_tenant (gen_Record g)]>
                   (<[rt_ID r := mark_rotated r]> (records s)).
Proof.
  intros Hwf Hauth Hfresh Hrun. unfold RefreshTokens in Hrun. set (now' := if IsZero now then clock d else now) in *.
  apply eff_bind_Ok in Hrun as (oc & s1 & w1 & w2 & Hc & Hrun & ->). injection Hc as Hc <- <-.
  destruct (ClientRepo d tenantID (ri_ClientID in_)) as [oc'|] eqn:Hrepo; [|done]. injection Hc as ->.
  destruct oc as [client|]; [|done].
  apply eff_bind_Ok in Hrun as (orec & s1 & w1 & w3 & Hf & Hrun & ->). injection Hf as Hf <- <-.
  destruct orec as [r|]; [|done].
  apply eff_bind_Ok in Hrun as ([] & s1 & w1 & w4 & Hr & Hrun & ->).
  apply check_record_Ok in Hr as (-> & -> & Ht & Hcl & Hl & Hexp).
  apply eff_bind_Ok in Hrun as ([] & s1 & w1 & w5 & Hu & Hrun & ->).
  apply check_user_Ok in Hu as (-> & -> & Huser).
  apply eff_bind_Ok in Hrun as ([] & s1 & w1 & w6 & Hp & Hrun & ->).
  apply check_policy_Ok in Hp as (-> & -> & Hpol). destruct (Hpol Hauth) as [Hgrant Hposs].
  unfold rotate_and_sign in Hrun.
  apply eff_bind_Ok in Hrun as (g & s1 & w1 & w7 & Hg & Hrun & ->). injection Hg as Hg <- <-.
  destruct (Hfresh _ _ Hg) as [Hi Hh].
  apply eff_bind_Ok in Hrun as (orot & s1 & w1 & w8 & Hrot & Hrun & ->).
  pose proof (Rotate_spec (rt_ID r) (gen_Record g) s Hwf Hi Hh) as Hspec.
  unfold call in Hrot. simpl in Hrot. destruct (Rotate (rt_ID r) (gen_Record g) s) as [res s2] eqn:HR.
  apply FindByHash_records in Hf as Hrec; [|done]. destruct Hrec as [Hrec _]. rewrite Hrec in Hspec.
  unfold live in Hl. apply negb_true_iff in Hl. rewrite Hl in Hspec. destruct Hspec as (Hwf2 & -> & Hrecs).
  injection Hrot as <- <- <-.
  apply eff_bind_Ok in Hrun as ([] & s3 & w9 & w10 & He & Hrun & ->). injection He as <- <-.
  apply eff_bind_Ok in Hrun as (signed & s3 & w9 & w11 & He & Hrun & ->). injection He as He <- <-.
  apply eff_bind_Ok in Hrun as ([] & s3 & w9 & w12 & He' & Hrun & ->). injection He' as <- <-.
  apply eff_bind_Ok in Hrun as ([] & s3 & w9 & w13 & He' & Hrun & ->).
  assert (s3 = s2) as -> by (by destruct (rt_Resource (gen_Record g)); injection He' as <- _).
  injection Hrun as <- <- <-.
  destruct (RotateRefreshToken_Ok _ _ _ _ Hg) as (Hlin & _ & _ & _ & _ & Hhash & _).
  exists client, r, g. split_and!; try done. unfold live. by rewrite Hl.
Qed.

(** C6. Presenting a token that was used or revoked before revokes its whole
    family: the answer is invalid_grant, every token of the family is revoked
    in the new store, no other family changes, the reuse is reported, and no
    access token is issued. *)
Theorem RefreshTokens_replay_revokes_family d tenantID in_ now random s client r :
  refresh_wf s -> ClientRepo d tenantID (ri_ClientID in_) = Ok (Some client) ->
  FindByHash (HashRefreshToken (ri_RefreshToken in_)) s = Some r ->
  rt_TenantID r = tenantID -> rt_ClientID r = client_ClientID client -> live r = false ->
  exists s' w,
    RefreshTokens d tenantID in_ now random s =
      (Err (NewOAuthError "invalid_grant" "The refresh token has already been used."), s', w) /\
    refresh_wf s' /\
    (forall i r', records s' !! i = Some r' -> rt_FamilyID r' = rt_FamilyID r -> rt_Revoked r' = true) /\
    (forall i r', records s !! i = Some r' -> rt_FamilyID r' <> rt_FamilyID r -> records s' !! i = Some r') /\
    (exists at_, RefreshTokenReuseDetected at_ tenantID (rt_FamilyID r) (rt_ID r)
                   (client_ClientID client) (rt_UserID r) ∈ w) /\
    (forall i r', records s !! i = Some r' -> rt_FamilyID r' = rt_FamilyID r -> rt_Revoked r' = false ->
       exists at_, TokenRevoked at_ tenantID "refresh_token" i "reuse_detected" ∈ w).
Proof.
  intros Hwf Hc Hf Ht Hcl Hl. unfold RefreshTokens. set (now' := if IsZero now then clock d else now).
  erewrite eff_bind_pure by (unfold lift; rewrite Hc; reflexivity). cbn iota beta.
  erewrite eff_bind_pure by (unfold call; cbn; rewrite Hf; reflexivity). cbn iota beta.
  pose proof (RevokeFamily_spec (rt_FamilyID r) s Hwf) as Hspec.
  pose proof (revoke_notify_run (rt_FamilyID r) tenantID now' s) as Hrevoke.
  destruct (RevokeFamily (rt_FamilyID r) s) as [ids s']. destruct Hspec as (Hw & _ & _ & Hrecs & Hids).
  unfold live in Hl. apply negb_false_iff in Hl. eexists s', _. split.
  { apply eff_bind_fails. unfold check_record. rewrite (bool_decide_true _ Ht), (bool_decide_true _ Hcl), Hl. cbn [negb].
    erewrite eff_bind_run by exact Hrevoke. erewrite eff_bind_run by reflexivity. reflexivity. }
  cbn [fst snd]. split_and!; [done| | | |].
  - intros i r' Hr' Hfam. rewrite Hrecs, lookup_fmap in Hr'. apply fmap_Some in Hr' as (r0 & Hr0 & ->).
    revert Hfam. unfold revoked_if. destruct (rt_Revoked r0) eqn:Hrev.
    + simpl. by rewrite andb_false_r.
    + rewrite andb_true_r. destruct (bool_decide (rt_FamilyID r0 = rt_FamilyID r)) eqn:Hb; [done|].
      intros ?. go_bool. done.
  - intros i r' Hr' Hne. rewrite Hrecs, lookup_fmap, Hr'. simpl. unfold revoked_if.
    by rewrite bool_decide_false.
  - exists now'. set_solver.
  - intros i r' Hr' Hfam Hrev. exists now'. apply elem_of_app. left.
    apply list_elem_of_fmap. exists i. split; [done|]. apply Hids. by exists r'.
Qed.

(** The owner's revocation reaches the whole family and nobody else's: with a
    token of another tenant or client it changes nothing. *)
Theorem RevokeToken_family (rd : RevokeDeps string) tenantID clientID token now s r :
  refresh_wf s -> FindByHash (HashRefreshToken token) s = Some r ->
  exists s' w, RevokeToken rd tenantID clientID token now s = (Ok tt, s', w) /\ refresh_wf s' /\
    if bool_decide (rt_TenantID r = tenantID /\ rt_ClientID r = clientID)
    then forall i, records s' !! i = revoked_if (fun x => rt_FamilyID x =? rt_FamilyID r) <$> records s !! i
    else s' = s /\ w = [].
Proof.
  intros Hwf Hf. unfold RevokeToken. erewrite eff_bind_pure by (unfold call; cbn; rewrite Hf; reflexivity). cbn iota beta.
  destruct ((rt_TenantID r <>? tenantID) || (rt_ClientID r <>? clientID)) eqn:Hown.
  - exists s, []. split_and!; [done|done|]. rewrite bool_decide_false; [done|]. intros [<- <-].
    go_bool. by destruct Hown.
  - go_bool. destruct Hown as [Ht Hc]. rewrite bool_decide_true by done.
    pose proof (RevokeFamily_spec (rt_FamilyID r) s Hwf) as Hspec.
    destruct (RevokeFamily (rt_FamilyID r) s) as [ids s'] eqn:Hrev. destruct Hspec as (Hw & _ & _ & Hrecs & _).
    erewrite eff_bind_run by (unfold call; cbn; rewrite Hrev; reflexivity).
    rewrite eff_for_each_emit. eexists s', _. split_and!; [done|done|].
    intros i. rewrite Hrecs, lookup_fmap. destruct (records s !! i) as [x|]; [|done]. simpl. f_equal.
    unfold revoked_if. destruct (rt_FamilyID x =? rt_FamilyID r); [|done]. simpl.
    destruct (rt_Revoked x) eqn:Hx; [|done]. simpl. unfold mark_revoked, set_flags. destruct x; simpl in *. by rewrite Hx.
Qed.

(** A code bug, as a theorem: a rotation loses the tenant.  The successor is
    stored in the default tenant, so in every other tenant the refresh token
    that a successful refresh has just returned is refused at its first use. *)
Theorem rotated_token_refused d d' tenantID in_ in' now now' random random' s out s' w :
  refresh_wf s -> RefreshAuthorizer d = None ->
  (forall parent g, RotateRefreshToken parent (if IsZero now then clock d else now) random = Ok g ->
     id_free (rt_ID (gen_Record g)) s /\ hash_free (rt_Hash (gen_Record g)) s) ->
  tenantID <> DefaultTenantID ->
  RefreshTokens d tenantID in_ now random s = (Ok out, s', w) ->
  ri_RefreshToken in' = rr_RefreshToken out ->
  forall client, ClientRepo d' tenantID (ri_ClientID in') = Ok (Some client) ->
  RefreshTokens d' tenantID in' now' random' s' =
    (Err (NewOAuthError "invalid_grant" "The refresh token is invalid."), s', []).
Proof.
  intros Hwf Hauth Hfresh Hne Hrun Htok client Hc. unfold RefreshTokens in Hrun.
  set (nw := if IsZero now then clock d else now) in *.
  apply eff_bind_Ok in Hrun as (oc & s1 & w1 & w2 & Hc1 & Hrun & ->). injection Hc1 as Hc1 <- <-.
  destruct oc as [cl|]; [|done].
  apply eff_bind_Ok in Hrun as (orec & s1 & w1 & w3 & Hf & Hrun & ->). injection Hf as Hf <- <-.
  destruct orec as [r|]; [|done].
  apply eff_bind_Ok in Hrun as ([] & s1 & w1 & w4 & Hr & Hrun & ->).
  apply check_record_Ok in Hr as (-> & -> & _ & _ & Hl & _).
  apply eff_bind_Ok in Hrun as ([] & s1 & w1 & w5 & Hu & Hrun & ->). apply check_user_Ok in Hu as (-> & -> & _).
  apply eff_bind_Ok in Hrun as ([] & s1 & w1 & w6 & Hp & Hrun & ->). apply check_policy_Ok in Hp as (-> & -> & _).
  unfold rotate_and_sign in Hrun.
  apply eff_bind_Ok in Hrun as (g & s1 & w1 & w7 & Hg & Hrun & ->). injection Hg as Hg <- <-.
  destruct (Hfresh _ _ Hg) as [Hi Hh].
  apply eff_bind_Ok in Hrun as (orot & s1 & w1 & w8 & Hrot & Hrun & ->).
  pose proof (Rotate_spec (rt_ID r) (gen_Record g) s Hwf Hi Hh) as Hspec.
  unfold call in Hrot. simpl in Hrot. destruct (Rotate (rt_ID r) (gen_Record g) s) as [res s2] eqn:HR.
  apply FindByHash_records in Hf as Hrec; [|done]. destruct Hrec as [Hrec _]. rewrite Hrec in Hspec.
  unfold live in Hl. apply negb_true_iff in Hl. rewrite Hl in Hspec. destruct Hspec as (Hwf2 & -> & Hrecs).
  injection Hrot as <- <- <-.
  apply eff_bind_Ok in Hrun as ([] & s3 & w9 & w10 & He & Hrun & ->). injection He as <- <-.
  apply eff_bind_Ok in Hrun as (signed & s3 & w9 & w11 & He & Hrun & ->). injection He as He <- <-.
  apply eff_bind_Ok in Hrun as ([] & s3 & w9 & w12 & He' & Hrun & ->). injection He' as <- <-.
  apply eff_bind_Ok in Hrun as ([] & s3 & w9 & w13 & He' & Hrun & ->).
  assert (s3 = s2) as -> by (by destruct (rt_Resource (gen_Record g)); injection He' as <- _).
  injection Hrun as <- <- <-. simpl in Htok.
  destruct (RotateRefreshToken_Ok _ _ _ _ Hg) as (_ & _ & Hten & _ & _ & Hhash & _).
  assert (Hfound : FindByHash (HashRefreshToken (ri_RefreshToken in')) s2 = Some (with_default_tenant (gen_Record g))).
  { apply FindByHash_records; [done|]. rewrite Htok, <- Hhash. split; [|done]. rewrite Hrecs. simpl. by rewrite lookup_insert_eq. }
  unfold RefreshTokens. erewrite eff_bind_pure by (unfold lift; rewrite Hc; reflexivity). cbn iota beta.
  erewrite eff_bind_pure by (unfold call; cbn; rewrite Hfound; reflexivity). cbn iota beta.
  apply eff_bind_fails. unfold check_record. rewrite bool_decide_false; [done|].
  simpl. rewrite Hten. unfold DefaultScope. simpl. congruence.
Qed.
End memory.

(** ** Witnesses: a first refresh, a replay and a revocation *)

#[local] Instance demo_client : ClientView string := {| client_ClientID c := c; client_GrantTypes _ := [GrantRefreshToken] |}.
#[local] Instance demo_user : UserView string := {| user_ID u := u; user_TenantID _ := "acme"; user_IsActive _ := true |}.

Definition demo_deps : RefreshDeps string string string :=
  {| ClientRepo _ c := Ok (Some c); UserRepo u := Ok (Some u); UserEpochs := None;
     SignAccessToken inp := Ok ("signed." ++ at_Sub inp, "jti"); Precheck := None;
     AccessTokenTTLSeconds := 300; RefreshAuthorizer := None; clock := 2%Z |}.

Definition demo_input (token : string) : RefreshInput :=
  {| ri_ClientID := "client"; ri_RefreshToken := token; ri_ProofJKT := ""; ri_ProofX5TS256 := "" |}.

Definition demo_first : RefreshTokenStore := store issued_config.
Definition demo_token : string := token_of_draws (draws_of 1 "1" "f").
Definition demo_refresh := RefreshTokens demo_deps "acme" (demo_input demo_token) 2%Z (Ok (draws_of 2 "2" "e")) demo_first.
Definition demo_output : RefreshResult :=
  {| rr_AccessToken := "signed.user"; rr_RefreshToken := token_of_draws (draws_of 2 "2" "e");
     rr_TokenType := "Bearer"; rr_ExpiresIn := 300; rr_Scope := "openid offline_access" |}.

Lemma demo_first_wf : refresh_wf demo_first.
Proof. apply store_record_wf; [apply NewRefreshTokenStore_wf|reflexivity|reflexivity]. Qed.

Lemma demo_refresh_run :
  RefreshTokens demo_deps "acme" (demo_input demo_token) 2%Z (Ok (draws_of 2 "2" "e")) demo_first = (Ok demo_output, demo_refresh.1.2, demo_refresh.2).
Proof. vm_compute. reflexivity. Qed.

(** The identifier and the hash of a successor are those of the draws. *)
Lemma successor_keys {E} parent now dr g :
  RotateRefreshToken (E := E) parent now (Ok dr) = Ok g ->
  rt_ID (gen_Record g) = uuid1 dr /\ rt_Hash (gen_Record g) = HashRefreshToken (token_of_draws dr).
Proof.
  unfold RotateRefreshToken. intros Hg. apply res_bind_Ok in Hg as (dr' & Heq & Hg). apply Ok_inj in Heq as <-.
  apply res_bind_Ok in Hg as ([] & _ & Hg). by apply Ok_inj in Hg as <-.
Qed.

Lemma demo_free dr : dr = draws_of 2 "2" "e" ->
  id_free (uuid1 dr) demo_first /\ hash_free (HashRefreshToken (token_of_draws dr)) demo_first.
Proof. intros ->. split; vm_compute; reflexivity. Qed.

Lemma demo_fresh now parent g :
  RotateRefreshToken (E := string) parent now (Ok (draws_of 2 "2" "e")) = Ok g ->
  id_free (rt_ID (gen_Record g)) demo_first /\ hash_free (rt_Hash (gen_Record g)) demo_first.
Proof.
  destruct (demo_free _ eq_refl) as [Hi Hh]. revert Hi Hh. generalize (draws_of 2 "2" "e") as dr.
  intros dr Hi Hh Hg. apply successor_keys in Hg as [-> ->]. by split.
Qed.

Lemma RefreshTokens_success_witness :
  demo_refresh.1.1 = Ok demo_output /\
  exists r g, records demo_refresh.1.2 =
    <[rt_ID (gen_Record g) := with_default_tenant (gen_Record g)]> (<[rt_ID r := mark_rotated r]> (records demo_first)).
Proof.
  split; [vm_compute; reflexivity|].
  destruct (RefreshTokens_success demo_deps "acme" (demo_input demo_token) 2%Z (Ok (draws_of 2 "2" "e")) demo_first
    demo_output demo_refresh.1.2 demo_refresh.2 demo_first_wf eq_refl (demo_fresh _) demo_refresh_run)
    as (client & r & g & _ & _ & _ & _ & _ & _ & _ & _ & _ & _ & _ & _ & _ & _ & Hrec).
  exists r, g. exact Hrec.
Defined.

Definition demo_second : RefreshTokenStore := demo_refresh.1.2.

Lemma demo_second_wf : refresh_wf demo_second.
Proof.
  destruct (Rotate_spec (uuid_of "1") (successor 2 "2") demo_first demo_first_wf) as [Hwf _];
    [vm_compute; reflexivity|vm_compute; reflexivity|].
  enough (demo_second = (Rotate (uuid_of "1") (successor 2 "2") demo_first).2) as -> by exact Hwf.
  vm_compute. reflexivity.
Qed.

(** The token that the first refresh consumed is presented again. *)
Lemma RefreshTokens_replay_revokes_family_witness :
  exists s' w,
    RefreshTokens demo_deps "acme" (demo_input demo_token) 2%Z (Ok (draws_of 3 "3" "e")) demo_second =
      (Err (NewOAuthError "invalid_grant" "The refresh token has already been used."), s', w) /\
    forall i r', records s' !! i = Some r' -> rt_FamilyID r' = uuid_of "f" -> rt_Revoked r' = true.
Proof.
  destruct (RefreshTokens_replay_revokes_family demo_deps "acme" (demo_input demo_token) 2%Z
    (Ok (draws_of 3 "3" "e")) demo_second "client" (mark_rotated stored_first) demo_second_wf eq_refl)
    as (s' & w & Hrun & _ & Hrev & _); [vm_compute; reflexivity..|].
  exists s', w. exact (conj Hrun Hrev).
Defined.

Definition demo_revoke : RevokeDeps string :=
  {| Introspector := None; AccessTokenDenylist := None; ManagedTokenRevoker := None; revoke_clock := 3%Z |}.

Lemma RevokeToken_family_witness :
  exists s' w, RevokeToken demo_revoke "acme" "client" demo_token 3%Z demo_second = (Ok tt, s', w) /\
    records s' !! uuid_of "2" = Some (mark_revoked (with_default_tenant (successor 2 "2"))).
Proof.
  destruct (RevokeToken_family demo_revoke "acme" "client" demo_token 3%Z demo_second (mark_rotated stored_first)
    demo_second_wf) as (s' & w & Hrun & _ & Hrec); [vm_compute; reflexivity|].
  exists s', w. split; [exact Hrun|]. rewrite bool_decide_true in Hrec by (split; vm_compute; reflexivity).
  rewrite Hrec. vm_compute. reflexivity.
Defined.

(** The token that the first refresh returned is refused in its own tenant. *)
Lemma rotated_token_refused_witness :
  exists s' w, RefreshTokens demo_deps "acme" (demo_input demo_token) 2%Z (Ok (draws_of 2 "2" "e")) demo_first = (Ok demo_output, s', w) /\
    RefreshTokens demo_deps "acme" (demo_input (rr_RefreshToken demo_output)) 3%Z (Ok (draws_of 3 "3" "e")) s' =
    (Err (NewOAuthError "invalid_grant" "The refresh token is invalid."), s', []).
Proof.
  exists demo_refresh.1.2, demo_refresh.2. split; [exact demo_refresh_run|].
  refine (rotated_token_refused demo_deps demo_deps "acme" (demo_input demo_token)
    (demo_input (rr_RefreshToken demo_output)) 2%Z 3%Z (Ok (draws_of 2 "2" "e")) (Ok (draws_of 3 "3" "e"))
    demo_first demo_output demo_refresh.1.2 demo_refresh.2 demo_first_wf eq_refl (demo_fresh _) _
    demo_refresh_run eq_refl "client" eq_refl).
  intros Heq. apply (f_equal String.length) in Heq. vm_compute in Heq. discriminate Heq.
Defined.
