(* ===== verification/CodeStore.v ===== *)
(** * OAuth2: authorization requests and codes

    The records of [backend/oauth2/internal/authorization/domain/token.go] and
    the memory stores of [authorization/db_memory] (authorization_codes.go,
    authorization_requests.go, par.go) and of [logout/db_memory] (the client
    sessions).  Every store method holds the store's lock for its whole body, so
    a method is one atomic step.

    The theorems: under any interleaving of the atomic steps of any number of
    exchanges, a code is redeemed at most once, and an expired code never; an
    authorization request moves only along its state machine; a pushed request
    is consumed at most once. *)

From Stdlib Require Import Ascii String ZArith Lia.
From stdpp Require Import base strings list gmap sets relations.
From S2P Require Import Prelude Effects GoStrings Crypto Policy TokenDomain StateMachines RichAuthorization RefreshStore.

Local Open Scope string_scope.
Local Open Scope go_scope.

(** ** Records *)

Record AuthorizationRequest := {
  ar_ID : string;
  ar_TenantID : string;
  ar_State : AuthorizationCodeFlowState;
  ar_ClientID : string;
  ar_RedirectURI : string;
  ar_RedirectURIOmitted : bool;
  ar_ResponseType : ResponseType;
  ar_Scope : string;
  ar_StateParam : option string;
  ar_Nonce : option string;
  ar_CodeChallenge : string;
  ar_CodeChallengeMethod : CodeChallengeMethod;
  ar_Prompt : option string;
  ar_MaxAge : option Z;
  ar_ParRequestURI : option string;
  ar_UserID : option string;
  ar_AuthTime : option Z;
  ar_AMR : list string;
  ar_ACR : option string;
  ar_ACRValues : option string;
  ar_Sid : option string;
  ar_AuthorizationDetails : list AuthorizationDetail;
  ar_Resource : option string;
  ar_CreatedAt : Time;
  ar_ExpiresAt : Time;
}.

Record AuthorizationCodeRecord := {
  code_Code : string;
  code_TenantID : string;
  code_AuthorizationRequestID : string;
  code_ClientID : string;
  code_UserID : string;
  code_Scopes : list string;
  code_RedirectURI : string;
  code_RedirectURIOmitted : bool;
  code_CodeChallenge : string;
  code_CodeChallengeMethod : CodeChallengeMethod;
  code_Nonce : option string;
  code_AuthTime : Z;
  code_AMR : list string;
  code_ACR : option string;
  code_Sid : option string;
  code_AuthorizationDetails : list AuthorizationDetail;
  code_Resource : option string;
  code_State : AuthorizationCodeRecordState;
  code_IssuedAt : Time;
  code_ExpiresAt : Time;
  code_RedeemedAt : option Time;
  code_IssuedFamilyID : option string;
}.

Record PARRecord := {
  par_RequestURI : string;
  par_TenantID : string;
  par_ClientID : string;
  par_Parameters : gmap string string;
  par_IssuedAt : Time;
  par_ExpiresAt : Time;
  par_Used : bool;
}.

Record ClientSession := {
  cs_TenantID : string;
  cs_Sid : string;
  cs_ClientID : string;
  cs_FirstIssuedAt : Time;
  cs_LastIssuedAt : Time;
}.

(** Assignments to the fields that the stores write. *)
Definition code_with (tenant state : string) (redeemedAt : option Time) (family : option string)
    (c : AuthorizationCodeRecord) : AuthorizationCodeRecord :=
  {| code_Code := code_Code c; code_TenantID := tenant;
     code_AuthorizationRequestID := code_AuthorizationRequestID c; code_ClientID := code_ClientID c;
     code_UserID := code_UserID c; code_Scopes := code_Scopes c; code_RedirectURI := code_RedirectURI c;
     code_RedirectURIOmitted := code_RedirectURIOmitted c; code_CodeChallenge := code_CodeChallenge c;
     code_CodeChallengeMethod := code_CodeChallengeMethod c; code_Nonce := code_Nonce c;
     code_AuthTime := code_AuthTime c; code_AMR := code_AMR c; code_ACR := code_ACR c; code_Sid := code_Sid c;
     code_AuthorizationDetails := code_AuthorizationDetails c; code_Resource := code_Resource c;
     code_State := state; code_IssuedAt := code_IssuedAt c; code_ExpiresAt := code_ExpiresAt c;
     code_RedeemedAt := redeemedAt; code_IssuedFamilyID := family |}.

Definition request_with (tenant state : string) (user : option string) (authTime : option Z) (amr : list string)
    (acr sid : option string) (r : AuthorizationRequest) : AuthorizationRequest :=
  {| ar_ID := ar_ID r; ar_TenantID := tenant; ar_State := state; ar_ClientID := ar_ClientID r;
     ar_RedirectURI := ar_RedirectURI r; ar_RedirectURIOmitted := ar_RedirectURIOmitted r;
     ar_ResponseType := ar_ResponseType r; ar_Scope := ar_Scope r; ar_StateParam := ar_StateParam r;
     ar_Nonce := ar_Nonce r; ar_CodeChallenge := ar_CodeChallenge r;
     ar_CodeChallengeMethod := ar_CodeChallengeMethod r; ar_Prompt := ar_Prompt r; ar_MaxAge := ar_MaxAge r;
     ar_ParRequestURI := ar_ParRequestURI r; ar_UserID := user; ar_AuthTime := authTime; ar_AMR := amr;
     ar_ACR := acr; ar_ACRValues := ar_ACRValues r; ar_Sid := sid;
     ar_AuthorizationDetails := ar_AuthorizationDetails r; ar_Resource := ar_Resource r;
     ar_CreatedAt := ar_CreatedAt r; ar_ExpiresAt := ar_ExpiresAt r |}.

(** ** The store of codes

    [Find] and [Redeem] return copies, so the map of values is the state. *)

Definition AuthorizationCodeStore := gmap string AuthorizationCodeRecord.
Definition NewAuthorizationCodeStore : AuthorizationCodeStore := ∅.

Inductive store_error :=
| TransitionError (e : transition_error)
| NotFound (format : string) (id : string)
| InvalidTransition (from to : string) (e : transition_error).

#[export] Instance store_error_eq_dec : EqDecision store_error.
Proof. solve_decision. Defined.

Definition lift_transition (r : result transition_error string) : result store_error string :=
  match r with Ok s => Ok s | Err e => Err (TransitionError e) end.

Definition code_Save (code : AuthorizationCodeRecord) (s : AuthorizationCodeStore) : AuthorizationCodeStore :=
  <[code_Code code := code_with (DefaultScope (code_TenantID code) DefaultTenantID) (code_State code)
      (code_RedeemedAt code) (code_IssuedFamilyID code) code]> s.

Definition code_Find (code : string) (s : AuthorizationCodeStore) : option AuthorizationCodeRecord := s !! code.

Definition Redeem (code : string) (now : Time) (s : AuthorizationCodeStore) :
    result store_error (option AuthorizationCodeRecord) * AuthorizationCodeStore :=
  match s !! code with
  | None => (Ok None, s)
  | Some rec =>
      if code_State rec <>? AuthCodeRecordIssued then (Ok None, s)
      else match lift_transition (TransitionAuthorizationCodeRecord (code_State rec) RecordEventRedeem) with
      | Err e => (Err e, s)
      | Ok next =>
          let rec := code_with (code_TenantID rec) next (Some now) (code_IssuedFamilyID rec) rec in
          (Ok (Some rec), <[code := rec]> s)
      end
  end.

Definition MarkExpired (code : string) (s : AuthorizationCodeStore) :
    result store_error (option AuthorizationCodeRecord) * AuthorizationCodeStore :=
  match s !! code with
  | None => (Ok None, s)
  | Some rec =>
      if code_State rec <>? AuthCodeRecordIssued then (Ok None, s)
      else match lift_transition (TransitionAuthorizationCodeRecord (code_State rec) RecordEventExpire) with
      | Err e => (Err e, s)
      | Ok next =>
          let rec := code_with (code_TenantID rec) next (code_RedeemedAt rec) (code_IssuedFamilyID rec) rec in
          (Ok (Some rec), <[code := rec]> s)
      end
  end.

Definition LinkFamily (code familyID : string) (s : AuthorizationCodeStore) :
    result store_error unit * AuthorizationCodeStore :=
  match s !! code with
  | None => (Err (NotFound "code not found" ""), s)
  | Some rec =>
      (Ok tt, <[code := code_with (code_TenantID rec) (code_State rec) (code_RedeemedAt rec) (Some familyID) rec]> s)
  end.

(** ** The store of authorization requests

    [Save] keeps the pointer of the caller and [Find] returns it; no use case
    writes to a request except through this store, so the map of values is the
    state here too. *)

Definition AuthorizationRequestStore := gmap string AuthorizationRequest.

Definition request_Save (req : AuthorizationRequest) (s : AuthorizationRequestStore) : AuthorizationRequestStore :=
  <[ar_ID req := request_with (DefaultScope (ar_TenantID req) DefaultTenantID) (ar_State req) (ar_UserID req)
      (ar_AuthTime req) (ar_AMR req) (ar_ACR req) (ar_Sid req) req]> s.

Definition request_Find (id : string) (s : AuthorizationRequestStore) : option AuthorizationRequest := s !! id.

Definition eventForTargetState (to : AuthorizationCodeFlowState) : AuthorizationCodeFlowEvent :=
  if to =? AuthFlowAuthenticationPending then EventStartAuthentication
  else if to =? AuthFlowAuthenticated then EventAuthenticateUser
  else if to =? AuthFlowConsentPending then EventRequestConsent
  else if to =? AuthFlowConsented then EventGrantConsent
  else if to =? AuthFlowCodeIssued then EventIssueCode
  else if to =? AuthFlowExchanged then EventRedeemCode
  else if to =? AuthFlowRejected then EventRejectAuthorization
  else if to =? AuthFlowExpired then EventExpireRequest
  else "unknown".

Definition UpdateState (id : string) (state : AuthorizationCodeFlowState) (s : AuthorizationRequestStore) :
    result store_error unit * AuthorizationRequestStore :=
  match s !! id with
  | None => (Err (NotFound "authorization request %q not found" id), s)
  | Some req =>
      match TransitionAuthorizationCodeFlow (ar_State req) (eventForTargetState state) with
      | Err e => (Err (InvalidTransition (ar_State req) state e), s)
      | Ok next =>
          (Ok tt, <[id := request_with (ar_TenantID req) next (ar_UserID req) (ar_AuthTime req) (ar_AMR req)
                      (ar_ACR req) (ar_Sid req) req]> s)
      end
  end.

Definition AttachAuthentication (id sub : string) (authTime : Z) (amr : list string) (acr sid : string)
    (s : AuthorizationRequestStore) : result store_error unit * AuthorizationRequestStore :=
  match s !! id with
  | None => (Err (NotFound "authorization request %q not found" id), s)
  | Some req =>
      (Ok tt, <[id := request_with (ar_TenantID req) (ar_State req) (Some sub) (Some authTime) amr (Some acr)
                  (if sid <>? "" then Some sid else ar_Sid req) req]> s)
  end.

(** ** Pushed requests; the clock of [Consume] is an argument *)

Definition PARStore := gmap string PARRecord.

Definition par_with (tenant : string) (used : bool) (r : PARRecord) : PARRecord :=
  {| par_RequestURI := par_RequestURI r; par_TenantID := tenant; par_ClientID := par_ClientID r;
     par_Parameters := par_Parameters r; par_IssuedAt := par_IssuedAt r; par_ExpiresAt := par_ExpiresAt r;
     par_Used := used |}.

Definition par_Save (r : PARRecord) (s : PARStore) : PARStore :=
  <[par_RequestURI r := par_with (DefaultScope (par_TenantID r) DefaultTenantID) (par_Used r) r]> s.

Definition par_Find (requestURI : string) (s : PARStore) : option PARRecord := s !! requestURI.

Definition Consume (requestURI : string) (clock : Time) (s : PARStore) : option PARRecord * PARStore :=
  match s !! requestURI with
  | None => (None, s)
  | Some rec =>
      if par_Used rec || After clock (par_ExpiresAt rec) then (None, s)
      else let rec := par_with (par_TenantID rec) true rec in (Some rec, <[requestURI := rec]> s)
  end.

(** ** Client sessions, keyed by their three names joined with NUL *)

Definition ClientSessionStore := gmap string ClientSession.

Definition NUL : string := String (ascii_of_nat 0) "".

Definition session_key (session : ClientSession) : string :=
  cs_TenantID session ++ NUL ++ cs_Sid session ++ NUL ++ cs_ClientID session.

Definition Upsert (session : ClientSession) (s : ClientSessionStore) : ClientSessionStore :=
  let key := session_key session in
  let first := match s !! key with Some existing => cs_FirstIssuedAt existing | None => cs_FirstIssuedAt session end in
  <[key := {| cs_TenantID := cs_TenantID session; cs_Sid := cs_Sid session; cs_ClientID := cs_ClientID session;
              cs_FirstIssuedAt := first; cs_LastIssuedAt := cs_LastIssuedAt session |}]> s.

Definition DeleteForClient_sessions (tenantID clientID : string) (s : ClientSessionStore) : ClientSessionStore :=
  filter (fun kv => ~ (cs_ClientID kv.2 = clientID /\ cs_TenantID kv.2 = tenantID)) s.

(** ** Single use under interleavings

    A configuration is the two stores with the codes and request URIs ever
    stored and the histories: the codes that were redeemed, those that were marked
    as expired, and the request URIs that were consumed, with the time. *)

Record code_config := {
  codes : AuthorizationCodeStore;
  pars : PARStore;
  issued : gset string;
  pushed : gset string;
  code_log : list string;
  expired_log : list string;
  par_log : list (string * Time);
}.

Definition code_init : code_config :=
  {| codes := ∅; pars := ∅; issued := ∅; pushed := ∅; code_log := []; expired_log := []; par_log := [] |}.

(** What an operation that returns a record adds to a history. *)
Definition logged {E A B} (r : result E (option A)) (x : B) (log : list B) : list B :=
  match r with Ok (Some _) => (log ++ [x])%list | _ => log end.

(** Codes and request URIs are fresh draws of 32 random bytes; a family is
    linked by the exchange whose redemption succeeded. *)
Inductive code_step (c : code_config) : code_config -> Prop :=
| step_save rec :
    code_Code rec ∉ issued c -> code_State rec = AuthCodeRecordIssued -> code_IssuedFamilyID rec = None ->
    code_step c {| codes := code_Save rec (codes c); pars := pars c; issued := {[code_Code rec]} ∪ issued c;
                   pushed := pushed c; code_log := code_log c; expired_log := expired_log c; par_log := par_log c |}
| step_redeem code now :
    code_step c {| codes := (Redeem code now (codes c)).2; pars := pars c; issued := issued c; pushed := pushed c;
                   code_log := logged (Redeem code now (codes c)).1 code (code_log c); expired_log := expired_log c; par_log := par_log c |}
| step_expire code :
    code_step c {| codes := (MarkExpired code (codes c)).2; pars := pars c; issued := issued c; pushed := pushed c;
                   code_log := code_log c; expired_log := logged (MarkExpired code (codes c)).1 code (expired_log c); par_log := par_log c |}
| step_link code family :
    code ∈ code_log c ->
    code_step c {| codes := (LinkFamily code family (codes c)).2; pars := pars c; issued := issued c; pushed := pushed c;
                   code_log := code_log c; expired_log := expired_log c; par_log := par_log c |}
| step_push rec :
    par_RequestURI rec ∉ pushed c -> par_Used rec = false ->
    code_step c {| codes := codes c; pars := par_Save rec (pars c); issued := issued c; pushed := {[par_RequestURI rec]} ∪ pushed c;
                   code_log := code_log c; expired_log := expired_log c; par_log := par_log c |}
| step_consume uri clock :
    code_step c {| codes := codes c; pars := (Consume uri clock (pars c)).2; issued := issued c; pushed := pushed c;
                   code_log := code_log c; expired_log := expired_log c;
                   par_log := logged (E := unit) (Ok (Consume uri clock (pars c)).1) (uri, clock) (par_log c) |}.

Record codes_ok (s : AuthorizationCodeStore) (issued : gset string) (log : list string) : Prop := {
  ok_codes : forall code rec, s !! code = Some rec ->
    code ∈ issued /\ (code ∈ log <-> code_State rec = AuthCodeRecordRedeemed) /\
    (is_some (code_IssuedFamilyID rec) = true -> code_State rec = AuthCodeRecordRedeemed);
  ok_log : NoDup log /\ forall code, code ∈ log -> is_Some (s !! code);
}.

(** Where a code that was stored stands: its record agrees with the histories. *)
Definition code_stands (log expired : list string) (code : string) (rec : AuthorizationCodeRecord) : Prop :=
  (code ∈ log /\ code ∉ expired /\ code_State rec = AuthCodeRecordRedeemed) \/
  (code ∉ log /\ code ∈ expired /\ code_State rec = AuthCodeRecordExpired) \/
  (code ∉ log /\ code ∉ expired /\ code_State rec = AuthCodeRecordIssued).

Record codes_stand (s : AuthorizationCodeStore) (issued : gset string) (log expired : list string) : Prop := {
  stand_codes : forall code, code ∈ issued -> exists rec, s !! code = Some rec /\ code_stands log expired code rec;
  stand_issued : (forall code, code ∈ log -> code ∈ issued) /\ (forall code, code ∈ expired -> code ∈ issued);
  stand_expired : NoDup expired;
}.

Record pars_ok (s : PARStore) (pushed : gset string) (log : list (string * Time)) : Prop := {
  ok_pars : forall uri rec, s !! uri = Some rec -> uri ∈ pushed /\ (uri ∈ log.*1 <-> par_Used rec = true);
  ok_par_log : NoDup log.*1 /\ forall uri clock, (uri, clock) ∈ log -> exists rec, s !! uri = Some rec /\ (clock <= par_ExpiresAt rec)%Z;
}.

Definition code_ok (c : code_config) : Prop :=
  codes_ok (codes c) (issued c) (code_log c) /\ codes_stand (codes c) (issued c) (code_log c) (expired_log c) /\ pars_ok (pars c) (pushed c) (par_log c).

Lemma Redeem_cases code now s :
  Redeem code now s = (Ok None, s) \/
  exists rec, s !! code = Some rec /\ code_State rec = AuthCodeRecordIssued /\
    Redeem code now s =
      (Ok (Some (code_with (code_TenantID rec) AuthCodeRecordRedeemed (Some now) (code_IssuedFamilyID rec) rec)),
       <[code := code_with (code_TenantID rec) AuthCodeRecordRedeemed (Some now) (code_IssuedFamilyID rec) rec]> s).
Proof.
  unfold Redeem. destruct (s !! code) as [rec|]; [|by left].
  destruct (code_State rec <>? AuthCodeRecordIssued) eqn:Hs; go_bool; [by left|].
  right. exists rec. by rewrite Hs.
Qed.

Lemma MarkExpired_cases code s :
  MarkExpired code s = (Ok None, s) \/
  exists rec, s !! code = Some rec /\ code_State rec = AuthCodeRecordIssued /\
    MarkExpired code s =
      (Ok (Some (code_with (code_TenantID rec) AuthCodeRecordExpired (code_RedeemedAt rec) (code_IssuedFamilyID rec) rec)),
       <[code := code_with (code_TenantID rec) AuthCodeRecordExpired (code_RedeemedAt rec) (code_IssuedFamilyID rec) rec]> s).
Proof.
  unfold MarkExpired. destruct (s !! code) as [rec|]; [|by left].
  destruct (code_State rec <>? AuthCodeRecordIssued) eqn:Hs; go_bool; [by left|].
  right. exists rec. by rewrite Hs.
Qed.

Lemma Consume_cases uri clock s :
  Consume uri clock s = (None, s) \/
  exists rec, s !! uri = Some rec /\ par_Used rec = false /\ (clock <= par_ExpiresAt rec)%Z /\
    Consume uri clock s = (Some (par_with (par_TenantID rec) true rec), <[uri := par_with (par_TenantID rec) true rec]> s).
Proof.
  unfold Consume. destruct (s !! uri) as [rec|]; [|by left].
  destruct (par_Used rec || After clock (par_ExpiresAt rec)) eqn:Hu; [by left|]. go_bool.
  right. exists rec. destruct Hu as [Hu Ha]. split_and!; [done|done| |done]. unfold After in Ha. lia.
Qed.

Lemma nodup_snoc (l : list string) x : NoDup l -> x ∉ l -> NoDup (l ++ [x]).
Proof.
  intros Hl Hx. apply NoDup_app. split_and!; [done| |apply NoDup_singleton].
  intros y Hy Hy'. apply list_elem_of_singleton in Hy' as ->. done.
Qed.

Lemma insert_is_Some {A} (s : gmap string A) (i : string) x j :
  is_Some (s !! j) -> is_Some (<[i := x]> s !! j).
Proof. intros Hj. apply lookup_insert_is_Some. destruct (decide (i = j)); [by left|by right]. Qed.

(** Rewriting one code keeps the invariant when its history agrees. *)
Lemma codes_ok_insert s issued log code rec rec' :
  codes_ok s issued log -> s !! code = Some rec ->
  (code ∈ log <-> code_State rec' = AuthCodeRecordRedeemed) ->
  (is_some (code_IssuedFamilyID rec') = true -> code_State rec' = AuthCodeRecordRedeemed) ->
  codes_ok (<[code := rec']> s) issued log.
Proof.
  intros [Hc [Hnd Hl]] Hr Hlog Hfam. constructor.
  - intros code' r [[<- <-]|[_ Hr']]%lookup_insert_Some; [|by apply Hc].
    destruct (Hc _ _ Hr) as (Hi & _). by split_and!.
  - split; [done|]. intros code' Hin. by apply insert_is_Some, Hl.
Qed.

Lemma codes_ok_save s issued log rec :
  codes_ok s issued log -> code_Code rec ∉ issued -> code_State rec = AuthCodeRecordIssued ->
  code_IssuedFamilyID rec = None -> codes_ok (code_Save rec s) ({[code_Code rec]} ∪ issued) log.
Proof.
  intros [Hc [Hnd Hl]] Hf Hs Hfam. unfold code_Save. constructor.
  - intros code r [[<- <-]|[_ Hr]]%lookup_insert_Some.
    + simpl. rewrite Hs, Hfam. split_and!; [set_solver| |done]. split; [|done]. intros Hin.
      destruct (Hl _ Hin) as [r Hr]. by apply Hc in Hr as [Hr _].
    + destruct (Hc _ _ Hr) as (? & ? & ?). split_and!; [set_solver|done..].
  - split; [done|]. intros code Hin. by apply insert_is_Some, Hl.
Qed.

Lemma codes_ok_redeem s issued log code now :
  codes_ok s issued log ->
  codes_ok (Redeem code now s).2 issued (logged (Redeem code now s).1 code log).
Proof.
  intros Hok. destruct (Redeem_cases code now s) as [-> |(rec & Hr & Hs & ->)]; simpl; [done|].
  destruct Hok as [Hc [Hnd Hl]]. destruct (Hc _ _ Hr) as (Hi & Hlog & Hf). constructor.
  - intros code' rec' [[<- <-]|[Hne Hr']]%lookup_insert_Some; simpl; [split_and!; [done|set_solver|done]|].
    destruct (Hc _ _ Hr') as (Hi' & Hlog' & Hf'). split_and!; [done| |done].
    rewrite <- Hlog', elem_of_app, list_elem_of_singleton. naive_solver.
  - split; [apply nodup_snoc; [done|]; by rewrite Hlog, Hs|].
    intros code' [Hin|Hin%list_elem_of_singleton]%elem_of_app; [by apply insert_is_Some, Hl|].
    subst. eexists. apply lookup_insert_eq.
Qed.

Lemma codes_ok_expire s issued log code :
  codes_ok s issued log -> codes_ok (MarkExpired code s).2 issued log.
Proof.
  intros Hok. destruct (MarkExpired_cases code s) as [-> |(rec & Hr & Hs & ->)]; simpl; [done|].
  destruct Hok as [Hc Hl] eqn:Heq. destruct (Hc _ _ Hr) as (Hi & Hlog & Hf). rewrite Hs in Hlog, Hf.
  eapply codes_ok_insert; [exact Hok|done| |]; simpl; [by rewrite Hlog|]. intros Hx. by apply Hf in Hx.
Qed.

Lemma codes_ok_link s issued log code family :
  codes_ok s issued log -> code ∈ log -> codes_ok (LinkFamily code family s).2 issued log.
Proof.
  intros Hok Hin. unfold LinkFamily. destruct (s !! code) as [rec|] eqn:Hr; simpl; [|done].
  destruct (ok_codes _ _ _ Hok _ _ Hr) as (_ & Hlog & _).
  eapply codes_ok_insert; [exact Hok|done|done|]. intros _. by apply Hlog.
Qed.

(** *** Where the codes stand *)

Lemma stand_insert (s : gmap string AuthorizationCodeRecord) issued log expired log' expired' code rec' :
  codes_stand s issued log expired -> code ∈ issued -> code_stands log' expired' code rec' ->
  (forall x, x <> code -> (x ∈ log' <-> x ∈ log) /\ (x ∈ expired' <-> x ∈ expired)) -> NoDup expired' ->
  codes_stand (<[code := rec']> s) issued log' expired'.
Proof.
  intros [Hs [Hl He] Hnd] Hi Hc Hother Hnd'. constructor; [| |done].
  - intros x Hx. destruct (decide (x = code)) as [->|Hne]; [exists rec'; split; [apply lookup_insert_eq|done]|].
    destruct (Hs x Hx) as (rec & Hr & Hst). exists rec. split; [etransitivity; [by apply lookup_insert_ne|done]|].
    destruct (Hother x Hne) as [Ho1 Ho2]. unfold code_stands in *. by rewrite Ho1, Ho2.
  - split; intros x Hx; destruct (decide (x = code)) as [->|Hne]; try done; [apply Hl|apply He]; by apply (Hother x Hne).
Qed.

Lemma stand_save (s : gmap string AuthorizationCodeRecord) issued log expired rec : codes_stand s issued log expired -> code_Code rec ∉ issued -> code_State rec = AuthCodeRecordIssued ->
  codes_stand (code_Save rec s) ({[code_Code rec]} ∪ issued) log expired.
Proof.
  intros [Hs [Hl He] Hnd] Hf Hst. unfold code_Save. constructor; [|set_solver|done]. intros x [->%elem_of_singleton|Hx]%elem_of_union.
  - eexists. split; [apply lookup_insert_eq|]. right. right. split_and!; [naive_solver|naive_solver|done].
  - destruct (Hs x Hx) as (r & Hr & Hstand). exists r. split; [|done]. etransitivity; [apply lookup_insert_ne; set_solver|done].
Qed.

Lemma stand_redeem s issued log expired code now : codes_ok s issued log -> codes_stand s issued log expired ->
  codes_stand (Redeem code now s).2 issued (logged (Redeem code now s).1 code log) expired.
Proof.
  intros Hok Hst. destruct (Redeem_cases code now s) as [-> |(rec & Hr & Hs & ->)]; [done|]. cbn [fst snd logged].
  destruct (ok_codes _ _ _ Hok _ _ Hr) as (Hi & _). destruct (stand_codes _ _ _ _ Hst code Hi) as (rec' & Hr' & Hstand). simplify_eq.
  eapply stand_insert; [exact Hst|done| | |apply Hst].
  - left. split_and!; [set_solver| |done]. unfold code_stands in Hstand. rewrite Hs in Hstand. naive_solver.
  - intros x Hne. by rewrite elem_of_app, list_elem_of_singleton; naive_solver.
Qed.

Lemma stand_expire s issued log expired code : codes_ok s issued log -> codes_stand s issued log expired ->
  codes_stand (MarkExpired code s).2 issued log (logged (MarkExpired code s).1 code expired).
Proof.
  intros Hok Hst. destruct (MarkExpired_cases code s) as [-> |(rec & Hr & Hs & ->)]; [done|]. cbn [fst snd logged].
  destruct (ok_codes _ _ _ Hok _ _ Hr) as (Hi & _). destruct (stand_codes _ _ _ _ Hst code Hi) as (rec' & Hr' & Hstand). simplify_eq.
  unfold code_stands in Hstand. rewrite Hs in Hstand. assert (Hnot : code ∉ log /\ code ∉ expired) by naive_solver.
  eapply stand_insert; [exact Hst|done| | |apply nodup_snoc; [apply Hst|apply Hnot]].
  - right. left. split_and!; [apply Hnot|set_solver|done].
  - intros x Hne. by rewrite elem_of_app, list_elem_of_singleton; naive_solver.
Qed.

Lemma stand_link s issued log expired code family : codes_ok s issued log -> codes_stand s issued log expired ->
  codes_stand (LinkFamily code family s).2 issued log expired.
Proof.
  intros Hok Hst. unfold LinkFamily. destruct (s !! code) as [rec|] eqn:Hr; [|done]. cbn [snd].
  destruct (ok_codes _ _ _ Hok _ _ Hr) as (Hi & _). destruct (stand_codes _ _ _ _ Hst code Hi) as (rec' & Hr' & Hstand). simplify_eq.
  by eapply stand_insert; [exact Hst|done|exact Hstand|done|apply Hst].
Qed.

Lemma pars_ok_push (s : gmap string PARRecord) pushed log rec :
  pars_ok s pushed log -> par_RequestURI rec ∉ pushed -> par_Used rec = false ->
  pars_ok (par_Save rec s) ({[par_RequestURI rec]} ∪ pushed) log.
Proof.
  intros [Hp [Hnd Hl]] Hf Hu. unfold par_Save.
  assert (Hnew : forall clock, (par_RequestURI rec, clock) ∉ log) by (intros clock Hin; destruct (Hl _ _ Hin) as (r & Hr & _); by apply Hp in Hr as [Hr _]).
  constructor.
  - intros uri r [[<- <-]|[_ Hr]]%lookup_insert_Some.
    + simpl. rewrite Hu. split; [set_solver|]. split; [|done]. intros ([u clock] & Heq & Hin)%list_elem_of_fmap. simpl in Heq. subst u. by apply Hnew in Hin.
    + destruct (Hp _ _ Hr) as (? & ?). split; [set_solver|done].
  - split; [done|]. intros uri clock Hin. destruct (Hl _ _ Hin) as (r & Hr & Ht). exists r. split; [|done]. etransitivity; [apply lookup_insert_ne|done]. intros <-. by apply Hnew in Hin.
Qed.

Lemma pars_ok_consume (s : gmap string PARRecord) pushed log uri clock :
  pars_ok s pushed log ->
  pars_ok (Consume uri clock s).2 pushed (logged (E := unit) (Ok (Consume uri clock s).1) (uri, clock) log).
Proof.
  intros Hok. destruct (Consume_cases uri clock s) as [-> |(rec & Hr & Hu & Ht & ->)]; simpl; [done|].
  destruct Hok as [Hp [Hnd Hl]]. destruct (Hp _ _ Hr) as (Hi & Hlog). constructor.
  - intros uri' rec' [[<- <-]|[Hne Hr']]%lookup_insert_Some; rewrite fmap_app; simpl; [split; [done|set_solver]|].
    destruct (Hp _ _ Hr') as (Hi' & Hlog'). split; [done|]. rewrite <- Hlog', elem_of_app, list_elem_of_singleton. naive_solver.
  - split; [rewrite fmap_app; apply nodup_snoc; [done|]; by rewrite Hlog, Hu|].
    intros uri' clock' [Hin|[= -> ->]%list_elem_of_singleton]%elem_of_app; [|eexists; split; [apply lookup_insert_eq|done]].
    destruct (Hl _ _ Hin) as (r & Hr' & Ht'). destruct (decide (uri = uri')) as [->|Hne]; [|exists r; split; [etransitivity; [by apply lookup_insert_ne|done]|done]].
    simplify_eq. eexists. split; [apply lookup_insert_eq|done].
Qed.

Lemma code_step_ok c c' : code_ok c -> code_step c c' -> code_ok c'.
Proof.
  intros (Hc & Hst & Hp) Hstep. destruct Hstep; split_and!; simpl;
    eauto using codes_ok_save, codes_ok_redeem, codes_ok_expire, codes_ok_link, pars_ok_push, pars_ok_consume, stand_save, stand_redeem, stand_expire, stand_link.
Qed.

Lemma code_init_ok : code_ok code_init.
Proof.
  split_and!; constructor; simpl; try (intros x r Hx; exfalso; exact (lookup_empty_Some _ _ Hx)).
  - split; [constructor|]. intros x Hx. by apply elem_of_nil in Hx.
  - intros x Hx. by apply elem_of_empty in Hx.
  - split; intros x Hx; by apply elem_of_nil in Hx.
  - constructor.
  - split; [constructor|]. intros x clock Hx. by apply elem_of_nil in Hx.
Qed.

(** C5. A code is used once.  However the atomic steps of any number of
    authorizations, exchanges and expirations interleave, every code is redeemed at
    most once and marked as expired at most once, and never both; a code that is in
    neither history is redeemed by the next redemption, at its time; a family of
    refresh tokens hangs only on a redeemed code; and every pushed authorization
    request is consumed at most once, no later than it expires. *)
Theorem codes_single_use c :
  rtc code_step code_init c ->
  NoDup (code_log c ++ expired_log c) /\
  (forall code now, code ∈ issued c ->
     match (Redeem code now (codes c)).1 with
     | Ok (Some rec) => code ∉ code_log c /\ code ∉ expired_log c /\ code_RedeemedAt rec = Some now
     | _ => code ∈ code_log c \/ code ∈ expired_log c
     end) /\
  (forall code rec, codes c !! code = Some rec ->
     (code ∈ code_log c <-> code_State rec = AuthCodeRecordRedeemed) /\
     (code ∈ expired_log c <-> code_State rec = AuthCodeRecordExpired) /\
     (is_some (code_IssuedFamilyID rec) = true -> code ∈ code_log c)) /\
  NoDup (par_log c).*1 /\
  (forall uri clock, (uri, clock) ∈ par_log c -> exists rec, pars c !! uri = Some rec /\ par_Used rec = true /\ (clock <= par_ExpiresAt rec)%Z).
Proof.
  intros Hsteps. assert (Hok : code_ok c).
  { revert Hsteps. generalize code_init_ok. generalize code_init as c0. intros c0 Hc0 Hsteps.
    induction Hsteps as [|c0 c1 c2 Hstep _ IH]; [done|]. by eapply IH, code_step_ok. }
  destruct Hok as ([Hc [Hnd _]] & [Hs [Hl He] Hnde] & [Hp [Hpnd Hpl]]). split_and!; [|intros code now Hi|intros code rec Hr|done|intros uri clock Hin].
  - apply NoDup_app. split_and!; [done| |done]. intros code Hin Hin'. destruct (Hs code (Hl _ Hin)) as (rec & _ & Hst). unfold code_stands in Hst. naive_solver.
  - destruct (Hs code Hi) as (rec & Hr & Hst). destruct (Redeem_cases code now (codes c)) as [Hno|(rec' & Hr' & Hs' & ->)]; simplify_eq.
    + rewrite Hno. cbn [fst]. destruct Hst as [(? & _)|[(_ & ? & _)|(_ & _ & Hst)]]; [by left|by right|].
      unfold Redeem in Hno. rewrite Hr, Hst in Hno. cbn in Hno. discriminate Hno.
    + cbn. unfold code_stands in Hst. rewrite Hs' in Hst. naive_solver.
  - destruct (Hc _ _ Hr) as (Hi & Hlog & Hf). split_and!; [done| |intros Hx; by apply Hlog, Hf]. destruct (Hs code Hi) as (rec' & Hr' & Hst). simplify_eq.
    unfold code_stands in Hst. split; [naive_solver|]. intros Hst'. rewrite Hst' in Hst. naive_solver.
  - destruct (Hpl _ _ Hin) as (rec & Hr & Ht). exists rec. split_and!; [done| |done]. apply (Hp _ _ Hr), list_elem_of_fmap. by exists (uri, clock).
Qed.

(** ** Witness: two exchanges race for one code *)

Definition demo_code : AuthorizationCodeRecord :=
  {| code_Code := "code"; code_TenantID := "acme"; code_AuthorizationRequestID := "request"; code_ClientID := "client";
     code_UserID := "user"; code_Scopes := ["openid"; "offline_access"]; code_RedirectURI := "https://app.example/cb";
     code_RedirectURIOmitted := false; code_CodeChallenge := EncodeToString (sha256_string "verifier");
     code_CodeChallengeMethod := CodeChallengeMethodS256; code_Nonce := None; code_AuthTime := 0%Z; code_AMR := [];
     code_ACR := None; code_Sid := Some "sid"; code_AuthorizationDetails := []; code_Resource := None;
     code_State := AuthCodeRecordIssued; code_IssuedAt := 1%Z; code_ExpiresAt := (1 + 60 * Second)%Z;
     code_RedeemedAt := None; code_IssuedFamilyID := None |}.

Definition demo_codes : AuthorizationCodeStore := code_Save demo_code ∅.

Definition saved_config : code_config :=
  {| codes := demo_codes; pars := ∅; issued := {["code"]} ∪ ∅; pushed := ∅; code_log := []; expired_log := []; par_log := [] |}.

Definition redeem_in (now : Time) (c : code_config) : code_config :=
  {| codes := (Redeem "code" now (codes c)).2; pars := pars c; issued := issued c; pushed := pushed c;
     code_log := logged (Redeem "code" now (codes c)).1 "code" (code_log c); expired_log := expired_log c; par_log := par_log c |}.

Definition expire_in (c : code_config) : code_config :=
  {| codes := (MarkExpired "code" (codes c)).2; pars := pars c; issued := issued c; pushed := pushed c; code_log := code_log c;
     expired_log := logged (MarkExpired "code" (codes c)).1 "code" (expired_log c); par_log := par_log c |}.

(** The second exchange and a late expiration find the code redeemed. *)
Lemma codes_single_use_witness :
  let c := expire_in (redeem_in 3%Z (redeem_in 2%Z saved_config)) in
  code_log c = ["code"] /\ expired_log c = [] /\ NoDup (code_log c ++ expired_log c).
Proof.
  cbv zeta. split; [vm_compute; reflexivity|]. split; [vm_compute; reflexivity|]. apply codes_single_use.
  eapply rtc_l; [apply (step_save code_init demo_code); [set_solver|reflexivity..]|].
  eapply rtc_l; [apply (step_redeem saved_config "code" 2%Z)|].
  eapply rtc_l; [apply (step_redeem (redeem_in 2%Z saved_config) "code" 3%Z)|].
  apply rtc_once. apply (step_expire (redeem_in 3%Z (redeem_in 2%Z saved_config)) "code").
Defined.
