(* ===== verification/ExchangeCode.v ===== *)
(** * OAuth2: exchanging an authorization code

    [backend/oauth2/internal/token/usecases/exchange_code.go], over the ports of
    the stores that it calls and, for the theorems, over the memory stores
    together.  [ExchangeCodeForToken] is its checks followed by its commit: the
    code is read and checked first, and only then redeemed in the store, so the
    commit may run on a store that others changed since the read.

    The theorems: what a successful exchange has checked and changed; that
    presenting a redeemed code again revokes every token that came out of it;
    and that the loser of two concurrent exchanges, against the requirement
    REQ-OAUTH2-015, revokes and reports nothing. *)

From Stdlib Require Import Ascii String ZArith Lia.
From stdpp Require Import base strings list gmap.
From S2P Require Import Prelude Effects GoStrings Crypto Rules Policy TokenDomain ActorChain StateMachines RichAuthorization.
From S2P Require Import RefreshStore RefreshUsecase CodeStore.

Local Open Scope string_scope.
Local Open Scope go_scope.

(** ** Ports *)

Class AuthorizationCodePort (S E : Type) := {
  find_code : string -> S -> result E (option AuthorizationCodeRecord) * S;
  redeem_code : string -> Time -> S -> result E (option AuthorizationCodeRecord) * S;
  mark_expired : string -> S -> result E (option AuthorizationCodeRecord) * S;
  link_family : string -> string -> S -> result E unit * S;
}.
Class AuthorizationRequestPort (S E : Type) := {
  update_state : string -> AuthorizationCodeFlowState -> S -> result E unit * S;
}.
Class ClientSessionPort (S E : Type) := {
  upsert_session : ClientSession -> S -> result E unit * S;
}.

Record ExchangeCodeInput := {
  ei_ClientID : string;
  ei_Code : string;
  ei_CodeVerifier : string;
  ei_RedirectURI : string;
  ei_DpopJKT : string;
  ei_MTLSX5TS256 : string;
  ei_Resource : list string;
}.

Record ExchangeCodeOutput := {
  eo_AccessToken : string;
  eo_IDToken : string;
  eo_RefreshToken : string;
  eo_TokenType : string;
  eo_ExpiresIn : Z;
  eo_Scope : string;
}.

(** The input of the ID token's signer; the resolver of attribute definitions
    and the claim policy are the signer's own. *)
Record IDTokenInput (C U : Type) := {
  idt_Client : C;
  idt_User : U;
  idt_Scopes : list string;
  idt_Nonce : option string;
  idt_AuthTime : Z;
  idt_AMR : list string;
  idt_ACR : string;
  idt_Sid : string;
  idt_AtHashFor : string;
}.

Definition optionalValue (value : option string) : string := default "" value.

Definition nonEmpty (values : list string) : list string := List.filter (fun v => negb (blank v)) values.

(** ** The use case *)

Section usecase.
Context {S E C U : Type} `{AuthorizationCodePort S E} `{AuthorizationRequestPort S E}
  `{ClientSessionPort S E} `{RefreshTokenPort S E} `{ClientView C} `{UserView U}.
Notation flow := (eff S oauth_event (failure E)).

(** The three stores that may be missing have a flag. *)
Record ExchangeCodeDeps := {
  ex_ClientRepo : string -> string -> result E (option C);
  ex_UserRepo : string -> result E (option U);
  has_RequestStore : bool;
  has_RefreshStore : bool;
  has_ClientSessionStore : bool;
  ex_SignAccessToken : AccessTokenInput C -> result (failure E) (string * string);
  ex_SignIDToken : IDTokenInput C U -> result (failure E) string;
  ex_AccessTokenTTLSeconds : Z;
}.

Definition revokeReplayedFamily (d : ExchangeCodeDeps) (rec : AuthorizationCodeRecord) (now : Time)
    (tenantID : string) : flow unit :=
  match code_IssuedFamilyID rec with
  | Some family =>
      if negb (has_RefreshStore d) then eff_ret tt
      else
        do! revokeFamilyAndNotify family tenantID now in
        emit (RefreshTokenReuseDetected now tenantID family "" (code_ClientID rec) (code_UserID rec))
  | None => eff_ret tt
  end.

(** [requested := nonEmpty(in.Resource); len(requested) > 0] and the test of it. *)
Definition resource_mismatch (rec : AuthorizationCodeRecord) (requested : list string) : bool :=
  match requested with
  | [] => false
  | [r] => match code_Resource rec with Some bound => r <>? bound | None => true end
  | _ => true
  end.

(** The checks on the code that was read. *)
Definition check_code (d : ExchangeCodeDeps) (tenantID : string) (in_ : ExchangeCodeInput) (now : Time)
    (rec : AuthorizationCodeRecord) : flow unit :=
  refuse (code_TenantID rec <>? tenantID) with
    NewOAuthError "invalid_grant" "The authorization code is invalid." in
  if (code_State rec <>? AuthCodeRecordIssued) || negb (Before now (code_ExpiresAt rec)) then
    do! (if code_State rec =? AuthCodeRecordIssued then
           do! ignore (mark_expired (ei_Code in_)) in eff_ret tt
         else eff_ret tt) in
    do! revokeReplayedFamily d rec now tenantID in
    eff_fail (NewOAuthError "invalid_grant" "The authorization code has been used or has expired.")
  else
    refuse (code_ClientID rec <>? ei_ClientID in_) with
      NewOAuthError "invalid_grant" "The authorization code is not bound to the client." in
    refuse ((ei_RedirectURI in_ =? "") && negb (code_RedirectURIOmitted rec)) with
      NewOAuthError "invalid_request" "redirect_uri is required because the authorization request included it" in
    refuse ((ei_RedirectURI in_ <>? "") && (code_RedirectURI rec <>? ei_RedirectURI in_)) with
      NewOAuthError "invalid_grant" "The redirect_uri does not match." in
    refuse (negb (VerifyPKCES256 (ei_CodeVerifier in_) (code_CodeChallenge rec))) with
      NewOAuthError "invalid_grant" "PKCE verification failed" in
    if resource_mismatch rec (nonEmpty (ei_Resource in_)) then
      do! emit (ResourceAudienceRejected now tenantID (ei_ClientID in_) "invalid_target") in
      eff_fail (NewOAuthError "invalid_target" "token request resource does not match authorization request")
    else eff_ret tt.

(** Everything before the redemption. *)
Definition exchange_checks (d : ExchangeCodeDeps) (tenantID : string) (in_ : ExchangeCodeInput) (now : Time) :
    flow (AuthorizationCodeRecord * C * U) :=
  refuse (ei_Code in_ =? "") with NewOAuthError "invalid_request" "code is required" in
  refuse (ei_CodeVerifier in_ =? "") with NewOAuthError "invalid_request" "code_verifier is required" in
  let! rec := call PortError (find_code (ei_Code in_)) in
  match rec with
  | None => eff_fail (NewOAuthError "invalid_grant" "The authorization code is invalid.")
  | Some rec =>
      do! check_code d tenantID in_ now rec in
      let! client := lift (lift_port (ex_ClientRepo d tenantID (ei_ClientID in_))) in
      match client with
      | None => eff_fail (NewOAuthError "invalid_client" "unknown client_id")
      | Some client =>
          let! user := lift (lift_port (ex_UserRepo d (code_UserID rec))) in
          match user with
          | None => eff_fail (NewOAuthError "invalid_grant" "user is unavailable")
          | Some user =>
              refuse (user_TenantID user <>? tenantID) with
                NewOAuthError "invalid_grant" "The authorization code is invalid." in
              refuse (negb (user_IsActive user)) with NewOAuthError "invalid_grant" "user is disabled" in
              eff_ret (rec, client, user)
          end
      end
  end.

Definition sender_of (in_ : ExchangeCodeInput) : option SenderConstraint :=
  if ei_DpopJKT in_ <>? "" then Some (dpop (ei_DpopJKT in_))
  else if ei_MTLSX5TS256 in_ <>? "" then Some (mtls (ei_MTLSX5TS256 in_))
  else None.

(** The refresh token of the exchange, stored and linked to the code. *)
Definition issue_refresh (tenantID : string) (client : C) (user : U) (rec : AuthorizationCodeRecord)
    (scopes : list string) (sc : option SenderConstraint) (now : Time) (random : result E draws) : flow string :=
  let! gen := lift (GenerateInitialRefreshToken (client_ClientID client) (user_ID user) scopes sc
                      (code_Sid rec) (code_Resource rec) now random) in
  let r := set_tenant tenantID (gen_Record gen) in
  do! call PortError (save_refresh r) in
  do! emit (RefreshTokenIssued now tenantID (rt_ID r) (rt_FamilyID r) (client_ClientID client) (user_ID user)) in
  do! call PortError (link_family (code_Code rec) (rt_FamilyID r)) in
  eff_ret (gen_Token gen).

Definition access_input (client : C) (user : U) (rec : AuthorizationCodeRecord) (scopes : list string)
    (sc : option SenderConstraint) : AccessTokenInput C :=
  {| at_Client := client; at_Sub := user_ID user; at_Scopes := scopes; at_SenderConstraint := sc;
     at_AuthTime := code_AuthTime rec; at_AMR := code_AMR rec; at_ACR := optionalValue (code_ACR rec);
     at_AgentID := ""; at_AgentChain := []; at_ApprovalRequestID := "";
     at_Audiences := audiences_of (code_Resource rec); at_AuthorizationDetails := code_AuthorizationDetails rec;
     at_ExpiresAt := 0; at_Managed := false; at_Act := None |}.

Definition id_input (client : C) (user : U) (rec : AuthorizationCodeRecord) (scopes : list string)
    (access : string) : IDTokenInput C U :=
  {| idt_Client := client; idt_User := user; idt_Scopes := scopes; idt_Nonce := code_Nonce rec;
     idt_AuthTime := code_AuthTime rec; idt_AMR := code_AMR rec; idt_ACR := optionalValue (code_ACR rec);
     idt_Sid := optionalValue (code_Sid rec); idt_AtHashFor := access |}.

(** The signatures and their events. *)
Definition sign_tokens (d : ExchangeCodeDeps) (tenantID : string) (client : C) (user : U)
    (rec : AuthorizationCodeRecord) (scopes : list string) (sc : option SenderConstraint) (now : Time) :
    flow (string * string) :=
  let! signed := lift (ex_SignAccessToken d (access_input client user rec scopes sc)) in
  do! emit (AccessTokenIssued now tenantID signed.2 (client_ClientID client) (user_ID user) scopes (senderConstraintTag sc)) in
  do! emit (AuthorizationCodeRedeemed now tenantID (client_ClientID client) (user_ID user)) in
  do! match code_Resource rec with
      | Some r => emit (ResourceScopedTokenIssued now tenantID (client_ClientID client) r scopes)
      | None => eff_ret tt
      end in
  let! idToken := (if contains scopes "openid"
                   then lift (ex_SignIDToken d (id_input client user rec scopes signed.1)) else eff_ret "") in
  eff_ret (signed.1, idToken).

(** The bookkeeping after the tokens: the state of the request, whose error is
    dropped, and the session of the client. *)
Definition record_exchange (d : ExchangeCodeDeps) (tenantID : string) (client : C) (rec : AuthorizationCodeRecord)
    (now : Time) : flow unit :=
  do! (if has_RequestStore d then
         do! ignore (update_state (code_AuthorizationRequestID rec) AuthFlowExchanged) in eff_ret tt
       else eff_ret tt) in
  match code_Sid rec with
  | Some sid =>
      if has_ClientSessionStore d && (sid <>? "") then
        call PortError (upsert_session
          {| cs_TenantID := tenantID; cs_Sid := sid; cs_ClientID := client_ClientID client;
             cs_FirstIssuedAt := now; cs_LastIssuedAt := now |})
      else eff_ret tt
  | None => eff_ret tt
  end.

(** From the redemption on. *)
Definition exchange_commit (d : ExchangeCodeDeps) (tenantID : string) (in_ : ExchangeCodeInput) (now : Time)
    (random : result E draws) (checked : AuthorizationCodeRecord * C * U) : flow ExchangeCodeOutput :=
  let '(rec, client, user) := checked in
  let! redeemed := call PortError (redeem_code (ei_Code in_) now) in
  match redeemed with
  | None =>
      do! revokeReplayedFamily d rec now tenantID in
      eff_fail (NewOAuthError "invalid_grant" "The authorization code was used by a concurrent request.")
  | Some rec =>
      let '(scopes, issueRefresh) := ExchangeScopes (client_GrantTypes client) (code_Scopes rec) in
      let sc := sender_of in_ in
      let! signed := sign_tokens d tenantID client user rec scopes sc now in
      let! refreshToken := (if has_RefreshStore d && issueRefresh
                            then issue_refresh tenantID client user rec scopes sc now random else eff_ret "") in
      do! record_exchange d tenantID client rec now in
      eff_ret {| eo_AccessToken := signed.1; eo_IDToken := signed.2; eo_RefreshToken := refreshToken;
                 eo_TokenType := PresentationTokenType sc; eo_ExpiresIn := ex_AccessTokenTTLSeconds d;
                 eo_Scope := Join scopes " " |}
  end.

(** [now] is [time.Now().UTC()]. *)
Definition ExchangeCodeForToken (d : ExchangeCodeDeps) (tenantID : string) (in_ : ExchangeCodeInput) (now : Time)
    (random : result E draws) : flow ExchangeCodeOutput :=
  let! checked := exchange_checks d tenantID in_ now in
  exchange_commit d tenantID in_ now random checked.
End usecase.

Arguments ExchangeCodeDeps : clear implicits.

(** ** The memory stores together *)

Record OAuthStore := {
  st_codes : AuthorizationCodeStore;
  st_requests : AuthorizationRequestStore;
  st_refresh : RefreshTokenStore;
  st_sessions : ClientSessionStore;
}.

Inductive memory_error := CodeError (e : store_error) | RefreshError (e : string).

Definition on_codes {A} (op : AuthorizationCodeStore -> result store_error A * AuthorizationCodeStore)
    (s : OAuthStore) : result memory_error A * OAuthStore :=
  let '(r, c) := op (st_codes s) in
  (match r with Ok a => Ok a | Err e => Err (CodeError e) end,
   {| st_codes := c; st_requests := st_requests s; st_refresh := st_refresh s; st_sessions := st_sessions s |}).

Definition on_requests {A} (op : AuthorizationRequestStore -> result store_error A * AuthorizationRequestStore)
    (s : OAuthStore) : result memory_error A * OAuthStore :=
  let '(r, q) := op (st_requests s) in
  (match r with Ok a => Ok a | Err e => Err (CodeError e) end,
   {| st_codes := st_codes s; st_requests := q; st_refresh := st_refresh s; st_sessions := st_sessions s |}).

Definition on_refresh {A} (op : RefreshTokenStore -> result string A * RefreshTokenStore)
    (s : OAuthStore) : result memory_error A * OAuthStore :=
  let '(r, t) := op (st_refresh s) in
  (match r with Ok a => Ok a | Err e => Err (RefreshError e) end,
   {| st_codes := st_codes s; st_requests := st_requests s; st_refresh := t; st_sessions := st_sessions s |}).

#[export] Instance memory_code_port : AuthorizationCodePort OAuthStore memory_error := {
  find_code c := on_codes (fun s => (Ok (code_Find c s), s));
  redeem_code c now := on_codes (Redeem c now);
  mark_expired c := on_codes (MarkExpired c);
  link_family c f := on_codes (LinkFamily c f);
}.
#[export] Instance memory_request_port : AuthorizationRequestPort OAuthStore memory_error := {
  update_state id st := on_requests (UpdateState id st);
}.
#[export] Instance memory_session_port : ClientSessionPort OAuthStore memory_error := {
  upsert_session cs s :=
    (Ok tt, {| st_codes := st_codes s; st_requests := st_requests s; st_refresh := st_refresh s;
               st_sessions := Upsert cs (st_sessions s) |});
}.
#[export] Instance memory_oauth_refresh_port : RefreshTokenPort OAuthStore memory_error := {
  find_by_hash h := on_refresh (find_by_hash h);
  save_refresh r := on_refresh (save_refresh r);
  rotate_refresh p r := on_refresh (rotate_refresh p r);
  revoke_family f := on_refresh (revoke_family f);
  revoke_by_sid sid := on_refresh (revoke_by_sid sid);
}.

(** ** Theorems *)

Section memory.
Context {C U : Type} `{ClientView C} `{UserView U}.
Notation Deps := (ExchangeCodeDeps memory_error C U).
Implicit Types (d : Deps) (s : OAuthStore).

Definition with_refresh (t : RefreshTokenStore) (s : OAuthStore) : OAuthStore :=
  {| st_codes := st_codes s; st_requests := st_requests s; st_refresh := t; st_sessions := st_sessions s |}.

(** A code whose family is known: the family is revoked and the reuse reported. *)
Lemma revokeReplayedFamily_run d rec now tenant s family :
  has_RefreshStore d = true -> code_IssuedFamilyID rec = Some family ->
  revokeReplayedFamily d rec now tenant s =
  (Ok tt, with_refresh (RevokeFamily family (st_refresh s)).2 s,
   (map (fun tokenID => TokenRevoked now tenant "refresh_token" tokenID "reuse_detected")
      (RevokeFamily family (st_refresh s)).1 ++
    [RefreshTokenReuseDetected now tenant family "" (code_ClientID rec) (code_UserID rec)])%list).
Proof.
  intros Hhas Hf. unfold revokeReplayedFamily, revokeFamilyAndNotify. rewrite Hf, Hhas. cbn [negb].
  unfold ignore, eff_bind. simpl. unfold on_refresh. simpl.
  destruct (RevokeFamily family (st_refresh s)) as [ids t]. simpl.
  rewrite (eff_for_each_emit (fun tokenID => TokenRevoked now tenant "refresh_token" tokenID "reuse_detected") ids). done.
Qed.

(** The conditions under which a code may be exchanged. *)
Record exchangeable (tenantID : string) (in_ : ExchangeCodeInput) (now : Time) (rec : AuthorizationCodeRecord) : Prop := {
  ex_tenant : code_TenantID rec = tenantID;
  ex_issued : code_State rec = AuthCodeRecordIssued;
  ex_fresh : (now < code_ExpiresAt rec)%Z;
  ex_client : code_ClientID rec = ei_ClientID in_;
  ex_redirect : code_RedirectURI rec = ei_RedirectURI in_ \/
    (ei_RedirectURI in_ = "" /\ code_RedirectURIOmitted rec = true);
  ex_pkce : EncodeToString (sha256_string (ei_CodeVerifier in_)) = code_CodeChallenge rec;
  ex_resource : nonEmpty (ei_Resource in_) = [] \/ exists r, nonEmpty (ei_Resource in_) = [r] /\ code_Resource rec = Some r;
}.

Lemma resource_mismatch_false rec l :
  resource_mismatch rec l = false <-> l = [] \/ exists r, l = [r] /\ code_Resource rec = Some r.
Proof.
  unfold resource_mismatch. destruct l as [|r [|r' l]]; [naive_solver| |naive_solver].
  destruct (code_Resource rec) as [b|]; [|naive_solver].
  destruct (r <>? b) eqn:Hb; go_bool; [naive_solver|]. subst. split; [|done]. intros _. right. by exists b.
Qed.

Lemma check_code_Ok d tenantID in_ now rec s s' w :
  check_code d tenantID in_ now rec s = (Ok tt, s', w) -> s' = s /\ w = [] /\ exchangeable tenantID in_ now rec.
Proof.
  unfold check_code. destruct (code_TenantID rec <>? tenantID) eqn:Ht; [done|].
  destruct ((code_State rec <>? AuthCodeRecordIssued) || negb (Before now (code_ExpiresAt rec))) eqn:Hs.
  { intros Hb. apply eff_bind_Ok in Hb as (? & ? & ? & ? & _ & Hb & _).
    by apply eff_bind_Ok in Hb as (? & ? & ? & ? & _ & Hb & _). }
  destruct (code_ClientID rec <>? ei_ClientID in_) eqn:Hc; [done|].
  destruct ((ei_RedirectURI in_ =? "") && negb (code_RedirectURIOmitted rec)) eqn:Hr1; [done|].
  destruct ((ei_RedirectURI in_ <>? "") && (code_RedirectURI rec <>? ei_RedirectURI in_)) eqn:Hr2; [done|].
  destruct (negb (VerifyPKCES256 _ _)) eqn:Hp; [done|].
  destruct (resource_mismatch _ _) eqn:Hres.
  { intros Hb. by apply eff_bind_Ok in Hb as (? & ? & ? & ? & _ & Hb & _). }
  intros [= <- <-]. split_and!; [done..|]. apply resource_mismatch_false in Hres.
  unfold Before in Hs. go_bool. destruct Hs as [Hs Hx]. unfold VerifyPKCES256 in Hp. go_bool.
  constructor; try done. destruct (decide (ei_RedirectURI in_ = "")) as [He|Hne].
  - right. split; [done|]. by destruct Hr1.
  - left. by destruct Hr2.
Qed.

Lemma exchange_checks_Ok d tenantID in_ now s rec client user s' w :
  exchange_checks d tenantID in_ now s = (Ok (rec, client, user), s', w) ->
  s' = s /\ w = [] /\ ei_CodeVerifier in_ <> "" /\ st_codes s !! ei_Code in_ = Some rec /\
  exchangeable tenantID in_ now rec /\
  ex_ClientRepo d tenantID (ei_ClientID in_) = Ok (Some client) /\
  ex_UserRepo d (code_UserID rec) = Ok (Some user) /\ user_TenantID user = tenantID /\ user_IsActive user = true.
Proof.
  unfold exchange_checks. destruct (ei_Code in_ =? "") eqn:Hc; [done|].
  destruct (ei_CodeVerifier in_ =? "") eqn:Hv; [done|]. intros Hrun.
  apply eff_bind_Ok in Hrun as (orec & s1 & w1 & w2 & Hf & Hrun & ->).
  assert (Hs : s1 = s /\ w1 = [] /\ orec = st_codes s !! ei_Code in_) by (by destruct s; injection Hf as <- <- <-).
  destruct Hs as (-> & -> & Horec). destruct orec as [rec'|]; [|done].
  apply eff_bind_Ok in Hrun as ([] & s1 & w1 & w3 & Hk & Hrun & ->). apply check_code_Ok in Hk as (-> & -> & Hex).
  apply eff_bind_Ok in Hrun as (oc & s1 & w1 & w4 & Hcl & Hrun & ->). injection Hcl as Hcl <- <-.
  destruct (ex_ClientRepo d tenantID (ei_ClientID in_)) as [oc'|] eqn:Hrepo; [|done]. injection Hcl as ->.
  destruct oc as [cl|]; [|done].
  apply eff_bind_Ok in Hrun as (ou & s1 & w1 & w5 & Hu & Hrun & ->). injection Hu as Hu <- <-.
  destruct (ex_UserRepo d (code_UserID rec')) as [ou'|] eqn:Hurepo; [|done]. injection Hu as ->.
  destruct ou as [u|]; [|done].
  destruct (user_TenantID u <>? tenantID) eqn:Ht; [done|]. destruct (negb (user_IsActive u)) eqn:Ha; [done|].
  injection Hrun as <- <- <- <- <-. go_bool. by split_and!.
Qed.

(** The code after a successful exchange. *)
Definition redeemed_code (now : Time) (family : option string) (rec : AuthorizationCodeRecord) : AuthorizationCodeRecord :=
  code_with (code_TenantID rec) AuthCodeRecordRedeemed (Some now) family rec.

Lemma sign_tokens_Ok d tenantID client user rec scopes sc now s out s' w :
  sign_tokens (S := OAuthStore) d tenantID client user rec scopes sc now s = (Ok out, s', w) ->
  s' = s /\ (exists jti, ex_SignAccessToken d (access_input client user rec scopes sc) = Ok (out.1, jti)) /\
  if contains scopes "openid" then ex_SignIDToken d (id_input client user rec scopes out.1) = Ok out.2 else out.2 = "".
Proof.
  unfold sign_tokens. intros Hrun.
  apply eff_bind_Ok in Hrun as ([acc jti] & s1 & w1 & w2 & Hs & Hrun & ->). injection Hs as Hs <- <-.
  apply eff_bind_Ok in Hrun as ([] & s1 & w1 & w3 & He & Hrun & ->). injection He as <- <-.
  apply eff_bind_Ok in Hrun as ([] & s1 & w1 & w4 & He & Hrun & ->). injection He as <- <-.
  apply eff_bind_Ok in Hrun as ([] & s1 & w1 & w5 & He & Hrun & ->).
  assert (s1 = s) as -> by (by destruct (code_Resource rec); injection He as <- _).
  apply eff_bind_Ok in Hrun as (idt & s1 & w6 & w7 & Hi & Hrun & ->).
  assert (s1 = s) as -> by (destruct (contains scopes "openid"); unfold lift, eff_ret in Hi; congruence).
  injection Hrun as <- <- <-. split; [done|]. split; [by exists jti|].
  destruct (contains scopes "openid"); unfold lift, eff_ret in Hi; cbn [fst snd] in *; congruence.
Qed.

(** The requests after the exchange of a code: the one that it came from, if its
    code had just been issued, is exchanged. *)
Definition requests_exchanged (rec : AuthorizationCodeRecord) (q : AuthorizationRequestStore) : AuthorizationRequestStore :=
  match (q : gmap string AuthorizationRequest) !! code_AuthorizationRequestID rec with
  | Some req =>
      if bool_decide (ar_State req = AuthFlowCodeIssued) then
        <[code_AuthorizationRequestID rec := request_with (ar_TenantID req) AuthFlowExchanged (ar_UserID req) (ar_AuthTime req)
            (ar_AMR req) (ar_ACR req) (ar_Sid req) req]> q
      else q
  | None => q
  end.

(** The client sessions after it: the session of the client in the browser session
    of the code was last issued a token now, and first when it was before. *)
Definition sessions_touched (tenantID : string) (client : C) (sid : string) (now : Time) (t : ClientSessionStore) : ClientSessionStore :=
  let key := tenantID ++ NUL ++ sid ++ NUL ++ client_ClientID client in
  <[key := {| cs_TenantID := tenantID; cs_Sid := sid; cs_ClientID := client_ClientID client;
              cs_FirstIssuedAt := default now (cs_FirstIssuedAt <$> (t : gmap string ClientSession) !! key); cs_LastIssuedAt := now |}]> t.

Lemma UpdateState_exchanged rec q : (UpdateState (code_AuthorizationRequestID rec) AuthFlowExchanged q).2 = requests_exchanged rec q.
Proof.
  unfold UpdateState, requests_exchanged. destruct (_ !! _) as [req|]; [|done].
  unfold TransitionAuthorizationCodeFlow, lookup_transition. change (eventForTargetState AuthFlowExchanged) with EventRedeemCode.
  destruct (bool_decide _) eqn:Hs; [apply bool_decide_eq_true in Hs; by rewrite Hs|].
  destruct (search _ _ _) as [t|] eqn:Ht; [|done]. exfalso. apply bool_decide_eq_false in Hs. apply search_in in Ht.
  unfold authCodeFlowTransitions in Ht.
  repeat (apply elem_of_cons in Ht as [Ht|Ht]; [first [discriminate Ht|injection Ht as Hf Ht; by apply Hs]|]). by apply elem_of_nil in Ht.
Qed.

Lemma record_exchange_Ok d tenantID (client : C) rec now s s' w :
  record_exchange d tenantID client rec now s = (Ok tt, s', w) ->
  st_codes s' = st_codes s /\ st_refresh s' = st_refresh s /\
  st_requests s' = (if has_RequestStore d then requests_exchanged rec (st_requests s) else st_requests s) /\
  st_sessions s' = match code_Sid rec with
    | Some sid => if has_ClientSessionStore d && (sid <>? "") then sessions_touched tenantID client sid now (st_sessions s) else st_sessions s
    | None => st_sessions s
    end.
Proof.
  unfold record_exchange. intros Hrun. apply eff_bind_Ok in Hrun as ([] & s1 & w1 & w2 & Hu & Hrun & ->).
  assert (Hs : st_codes s1 = st_codes s /\ st_refresh s1 = st_refresh s /\ st_sessions s1 = st_sessions s /\
    st_requests s1 = (if has_RequestStore d then requests_exchanged rec (st_requests s) else st_requests s)).
  { destruct (has_RequestStore d); [|by injection Hu as <- _].
    apply eff_bind_Ok in Hu as (o & s2 & w3 & w4 & Hi & Hu & _). injection Hu as <- _.
    unfold ignore in Hi. simpl in Hi. unfold on_requests in Hi. rewrite <- UpdateState_exchanged.
    destruct (UpdateState _ _ _) as [r q]. by injection Hi as _ <- _. }
  destruct Hs as (<- & <- & <- & <-). destruct (code_Sid rec) as [sid|]; [|by injection Hrun as <- _].
  destruct (has_ClientSessionStore d && (sid <>? "")); [|by injection Hrun as <- _].
  injection Hrun as <- _. split_and!; try done. cbn [st_sessions]. unfold Upsert, sessions_touched, session_key. cbn [cs_TenantID cs_Sid cs_ClientID cs_FirstIssuedAt].
  f_equal. f_equal. by destruct (_ !! _).
Qed.

(** What was drawn is new to the refresh token store. *)
Definition draws_fresh (random : result memory_error draws) s : Prop :=
  forall dr, random = Ok dr ->
    id_free (uuid1 dr) (st_refresh s) /\ hash_free (HashRefreshToken (token_of_draws dr)) (st_refresh s).

Lemma generated_keys {E} clientID sub scopes sc sid resource now dr g :
  GenerateInitialRefreshToken (E := E) clientID sub scopes sc sid resource now (Ok dr) = Ok g ->
  rt_ID (gen_Record g) = uuid1 dr /\ rt_Hash (gen_Record g) = HashRefreshToken (token_of_draws dr).
Proof.
  unfold GenerateInitialRefreshToken. intros Hg. apply res_bind_Ok in Hg as (dr' & Heq & Hg). apply Ok_inj in Heq as <-.
  apply res_bind_Ok in Hg as ([] & _ & Hg). by apply Ok_inj in Hg as <-.
Qed.

(** The stored record of a refresh token. *)
Definition stored_record (tenantID : string) (g : GeneratedRefreshToken) : RefreshTokenRecord :=
  with_default_tenant (set_tenant tenantID (gen_Record g)).

Lemma issue_refresh_Ok tenantID (client : C) (user : U) rec scopes sc now random s tok s' w :
  refresh_wf (st_refresh s) -> draws_fresh random s -> st_codes s !! code_Code rec = Some rec ->
  issue_refresh tenantID client user rec scopes sc now random s = (Ok tok, s', w) ->
  exists g,
    GenerateInitialRefreshToken (client_ClientID client) (user_ID user) scopes sc (code_Sid rec)
      (code_Resource rec) now random = Ok g /\
    tok = gen_Token g /\ refresh_wf (st_refresh s') /\
    records (st_refresh s') = <[rt_ID (gen_Record g) := stored_record tenantID g]> (records (st_refresh s)) /\
    st_codes s' = <[code_Code rec := code_with (code_TenantID rec) (code_State rec) (code_RedeemedAt rec)
                      (Some (rt_FamilyID (gen_Record g))) rec]> (st_codes s) /\
    st_requests s' = st_requests s /\ st_sessions s' = st_sessions s.
Proof.
  intros Hwf Hfresh Hcode Hrun. unfold issue_refresh in Hrun.
  apply eff_bind_Ok in Hrun as (g & s1 & w1 & w2 & Hg & Hrun & ->). injection Hg as Hg <- <-.
  apply eff_bind_Ok in Hrun as ([] & s1 & w1 & w3 & Hs & Hrun & ->). injection Hs as <- <-.
  apply eff_bind_Ok in Hrun as ([] & s1 & w1 & w4 & He & Hrun & ->). injection He as <- <-.
  apply eff_bind_Ok in Hrun as ([] & s1 & w1 & w5 & Hl & Hrun & ->). injection Hrun as <- <- <-.
  unfold call in Hl. simpl in Hl. unfold on_codes, LinkFamily in Hl. simpl in Hl. rewrite Hcode in Hl.
  injection Hl as <- <-. simpl.
  destruct random as [dr|e] eqn:Hr; [|done]. destruct (Hfresh dr eq_refl) as [Hi Hh].
  destruct (generated_keys _ _ _ _ _ _ _ _ _ Hg) as [Hid Hhash]. rewrite <- Hid in Hi. rewrite <- Hhash in Hh.
  exists g. split_and!; [done|done|by apply (store_record_wf (stored_record tenantID g))|by apply (store_record_records (stored_record tenantID g))|done..].
Qed.

(** What a successful exchange did to the stores, from the redemption on. *)
Lemma exchange_commit_Ok d tenantID in_ now random rec client user s out s' w :
  refresh_wf (st_refresh s) -> draws_fresh random s ->
  st_codes s !! ei_Code in_ = Some rec -> code_Code rec = ei_Code in_ ->
  exchange_commit d tenantID in_ now random (rec, client, user) s = (Ok out, s', w) ->
  let scopes := (ExchangeScopes (client_GrantTypes client) (code_Scopes rec)).1 in
  eo_Scope out = Join scopes " " /\
  (exists jti, ex_SignAccessToken d (access_input client user rec scopes (sender_of in_)) = Ok (eo_AccessToken out, jti)) /\
  (if contains scopes "openid" then ex_SignIDToken d (id_input client user rec scopes (eo_AccessToken out)) = Ok (eo_IDToken out) else eo_IDToken out = "") /\
  st_requests s' = (if has_RequestStore d then requests_exchanged rec (st_requests s) else st_requests s) /\
  st_sessions s' = match code_Sid rec with
    | Some sid => if has_ClientSessionStore d && (sid <>? "") then sessions_touched tenantID client sid now (st_sessions s) else st_sessions s
    | None => st_sessions s
    end /\
  if has_RefreshStore d && (ExchangeScopes (client_GrantTypes client) (code_Scopes rec)).2
  then exists g,
    GenerateInitialRefreshToken (client_ClientID client) (user_ID user) scopes (sender_of in_) (code_Sid rec)
      (code_Resource rec) now random = Ok g /\
    eo_RefreshToken out = gen_Token g /\ refresh_wf (st_refresh s') /\
    records (st_refresh s') = <[rt_ID (gen_Record g) := stored_record tenantID g]> (records (st_refresh s)) /\
    st_codes s' = <[ei_Code in_ := redeemed_code now (Some (rt_FamilyID (gen_Record g))) rec]> (st_codes s)
  else eo_RefreshToken out = "" /\ st_refresh s' = st_refresh s /\
    st_codes s' = <[ei_Code in_ := redeemed_code now (code_IssuedFamilyID rec) rec]> (st_codes s).
Proof.
  intros Hwf Hfresh Hcode Hkey Hrun. unfold exchange_commit in Hrun.
  apply eff_bind_Ok in Hrun as (ored & s1 & w1 & w2 & Hred & Hrun & ->).
  unfold call in Hred. simpl in Hred. unfold on_codes in Hred.
  destruct (Redeem_cases (ei_Code in_) now (st_codes s)) as [Hn|(rec0 & Hr0 & Hs0 & Hred')].
  { rewrite Hn in Hred. injection Hred as <- <- <-. by apply eff_bind_Ok in Hrun as (? & ? & ? & ? & _ & Hrun & _). }
  assert (rec0 = rec) as -> by congruence. rewrite Hred' in Hred. injection Hred as <- <- <-.
  fold (redeemed_code now (code_IssuedFamilyID rec) rec) in Hrun. set (rec' := redeemed_code now _ rec) in *.
  change (code_Scopes rec') with (code_Scopes rec) in Hrun.
  destruct (ExchangeScopes (client_GrantTypes client) (code_Scopes rec)) as [scopes issue]. cbn [fst snd].
  apply eff_bind_Ok in Hrun as (signed & s1 & w1 & w3 & Hsign & Hrun & ->).
  apply sign_tokens_Ok in Hsign as (-> & Hsign & Hid).
  apply eff_bind_Ok in Hrun as (tok & s2 & w4 & w5 & Hissue & Hrun & ->).
  apply eff_bind_Ok in Hrun as ([] & s3 & w6 & w7 & Hbook & Hrun & ->).
  apply record_exchange_Ok in Hbook as (Hc3 & Hr3 & Hq3 & Ht3). injection Hrun as <- <- <-. simpl.
  assert (Hrest : st_requests s2 = st_requests s /\ st_sessions s2 = st_sessions s).
  { destruct (has_RefreshStore d && issue); [|by injection Hissue as _ <- _].
    apply issue_refresh_Ok in Hissue as (? & _ & _ & _ & _ & _ & Hq & Ht); [done..|].
    change (code_Code rec') with (code_Code rec). rewrite Hkey. apply lookup_insert_eq. }
  destruct Hrest as [Hq2 Ht2]. rewrite Hq2 in Hq3. rewrite Ht2 in Ht3.
  split; [done|]. split; [exact Hsign|]. split; [exact Hid|]. split; [exact Hq3|]. split; [exact Ht3|].
  destruct (has_RefreshStore d && issue).
  - apply issue_refresh_Ok in Hissue as (g & Hg & -> & Hwf' & Hrec' & Hcodes' & _); [|done|done|].
    + exists g. rewrite Hr3, Hc3. split_and!; [exact Hg|done|done|done|]. rewrite Hcodes'.
      change (code_Code rec') with (code_Code rec). rewrite Hkey. simpl. etrans; [apply insert_insert_eq|done].
    + change (code_Code rec') with (code_Code rec). rewrite Hkey. apply lookup_insert_eq.
  - injection Hissue as <- <- <-. by rewrite Hr3, Hc3.
Qed.

(** The stored codes are filed under their own values. *)
Definition codes_keyed s : Prop := forall code rec, st_codes s !! code = Some rec -> code_Code rec = code.

(** The whole exchange, when it succeeds. *)
Lemma exchange_Ok d tenantID in_ now random s out s' w :
  refresh_wf (st_refresh s) -> draws_fresh random s -> codes_keyed s ->
  ExchangeCodeForToken d tenantID in_ now random s = (Ok out, s', w) ->
  exists rec client user,
    st_codes s !! ei_Code in_ = Some rec /\ exchangeable tenantID in_ now rec /\
    ex_ClientRepo d tenantID (ei_ClientID in_) = Ok (Some client) /\
    ex_UserRepo d (code_UserID rec) = Ok (Some user) /\ user_TenantID user = tenantID /\ user_IsActive user = true /\
    let scopes := (ExchangeScopes (client_GrantTypes client) (code_Scopes rec)).1 in
    eo_Scope out = Join scopes " " /\
    (exists jti, ex_SignAccessToken d (access_input client user rec scopes (sender_of in_)) = Ok (eo_AccessToken out, jti)) /\
    (if contains scopes "openid" then ex_SignIDToken d (id_input client user rec scopes (eo_AccessToken out)) = Ok (eo_IDToken out) else eo_IDToken out = "") /\
    st_requests s' = (if has_RequestStore d then requests_exchanged rec (st_requests s) else st_requests s) /\
    st_sessions s' = match code_Sid rec with
      | Some sid => if has_ClientSessionStore d && (sid <>? "") then sessions_touched tenantID client sid now (st_sessions s) else st_sessions s
      | None => st_sessions s
      end /\
    if has_RefreshStore d && (ExchangeScopes (client_GrantTypes client) (code_Scopes rec)).2
    then exists g,
      GenerateInitialRefreshToken (client_ClientID client) (user_ID user) scopes (sender_of in_) (code_Sid rec)
        (code_Resource rec) now random = Ok g /\
      eo_RefreshToken out = gen_Token g /\ refresh_wf (st_refresh s') /\
      records (st_refresh s') = <[rt_ID (gen_Record g) := stored_record tenantID g]> (records (st_refresh s)) /\
      st_codes s' = <[ei_Code in_ := redeemed_code now (Some (rt_FamilyID (gen_Record g))) rec]> (st_codes s)
    else eo_RefreshToken out = "" /\ st_refresh s' = st_refresh s /\
      st_codes s' = <[ei_Code in_ := redeemed_code now (code_IssuedFamilyID rec) rec]> (st_codes s).
Proof.
  intros Hwf Hfresh Hkeyed Hrun. unfold ExchangeCodeForToken in Hrun.
  apply eff_bind_Ok in Hrun as ([[rec client] user] & s1 & w1 & w2 & Hk & Hrun & ->).
  apply exchange_checks_Ok in Hk as (-> & -> & Hv & Hcode & Hex & Hcl & Hu & Hut & Hua).
  apply exchange_commit_Ok in Hrun as (Hscope & Hsign & Hid & Hq & Ht & Hissue); [|done..|by apply Hkeyed].
  exists rec, client, user. by split_and!.
Qed.

Lemma generated_fields {E} clientID sub scopes sc sid resource now (random : result E draws) g :
  GenerateInitialRefreshToken clientID sub scopes sc sid resource now random = Ok g ->
  let r := gen_Record g in
  rt_Sid r = sid /\ rt_Resource r = resource /\ rt_SenderConstraint r = sc.
Proof.
  unfold GenerateInitialRefreshToken. intros Hg. apply res_bind_Ok in Hg as (d & _ & Hg).
  by apply res_bind_Ok in Hg as ([] & _ & [= <-]).
Qed.

(** The scopes and the refresh token that a client gets. *)
Lemma ExchangeScopes_granted grants scopes :
  (ExchangeScopes grants scopes).1 = (if decide (GrantRefreshToken ∈ grants) then scopes else filter (fun x => x <> "offline_access") scopes) /\
  ((ExchangeScopes grants scopes).2 = true <-> GrantRefreshToken ∈ grants /\ "offline_access" ∈ scopes).
Proof.
  destruct (ExchangeScopes grants scopes) as [granted refresh] eqn:Hx. split; [|exact (proj1 (ExchangeScopes_spec _ _ _ _ Hx))].
  cbn [fst]. unfold ExchangeScopes in Hx. destruct (contains grants GrantRefreshToken) eqn:Hg; simpl in Hx; injection Hx as <- _.
  - rewrite decide_True; [done|by apply contains_true].
  - rewrite decide_False; [|by intros Hin%contains_true; rewrite Hin in Hg]. induction scopes as [|x l IH]; [done|].
    rewrite filter_cons. simpl. destruct (decide (x = "offline_access")) as [->|Hne].
    + rewrite decide_False by (by intros []). exact IH.
    + rewrite bool_decide_false, decide_True by done. simpl. by rewrite IH.
Qed.

(** Everything a successful exchange leaves behind.  The scopes are those of the
    code, less offline_access for a client without the refresh token grant; the
    tokens are signed for them and for the user, the resource, the details and the
    key; the code is redeemed and the request it came from is exchanged; the
    session of the client is touched; and, exactly when the client may have a
    refresh token and the scopes ask for one, a live one is stored and its family
    is linked to the code.  Nothing else in the four stores changes. *)
Record exchanged d (tenantID : string) (in_ : ExchangeCodeInput) (now : Time) (rec : AuthorizationCodeRecord) (client : C) (user : U)
    (out : ExchangeCodeOutput) (scopes : list string) (token : option RefreshTokenRecord) s s' : Prop := {
  exd_granted : scopes = if decide (GrantRefreshToken ∈ client_GrantTypes client) then code_Scopes rec
                             else filter (fun x => x <> "offline_access") (code_Scopes rec);
  exd_Scope : eo_Scope out = Join scopes " ";
  exd_access : exists input jti, ex_SignAccessToken d input = Ok (eo_AccessToken out, jti) /\
    at_Client _ input = client /\ at_Sub input = user_ID user /\ at_Scopes input = scopes /\ at_SenderConstraint input = sender_of in_ /\
    at_Audiences _ input = match code_Resource rec with Some r => [r] | None => [] end /\ at_AuthorizationDetails _ input = code_AuthorizationDetails rec;
  exd_id : if decide ("openid" ∈ scopes)
           then exists input, ex_SignIDToken d input = Ok (eo_IDToken out) /\ idt_Client _ _ input = client /\ idt_User _ _ input = user /\
                  idt_Scopes _ _ input = scopes /\ idt_Nonce _ _ input = code_Nonce rec /\ idt_AtHashFor _ _ input = eo_AccessToken out
           else eo_IDToken out = "";
  exd_requests : st_requests s' = if has_RequestStore d then requests_exchanged rec (st_requests s) else st_requests s;
  exd_sessions : st_sessions s' =
    match code_Sid rec with
    | Some sid => if has_ClientSessionStore d && negb (bool_decide (sid = "")) then sessions_touched tenantID client sid now (st_sessions s) else st_sessions s
    | None => st_sessions s
    end;
  exd_codes : st_codes s' = <[ei_Code in_ := redeemed_code now (match token with Some r => Some (rt_FamilyID r) | None => code_IssuedFamilyID rec end) rec]> (st_codes s);
  exd_asked : is_Some token <-> has_RefreshStore d = true /\ GrantRefreshToken ∈ client_GrantTypes client /\ "offline_access" ∈ code_Scopes rec;
  exd_refresh : match token with
    | Some r => records (st_refresh s') = <[rt_ID r := r]> (records (st_refresh s)) /\ rt_Hash r = HashRefreshToken (eo_RefreshToken out) /\
        rt_ClientID r = client_ClientID client /\ rt_UserID r = user_ID user /\ rt_Scopes r = scopes /\ rt_Sid r = code_Sid rec /\
        rt_Resource r = code_Resource rec /\ rt_SenderConstraint r = sender_of in_ /\ rt_TenantID r = DefaultScope tenantID DefaultTenantID /\
        rt_Revoked r = false /\ rt_Rotated r = false
    | None => eo_RefreshToken out = "" /\ st_refresh s' = st_refresh s
    end;
}.

(** C11. A successful exchange presented a code of this tenant, issued, unexpired and
    unredeemed, bound to this client, with the redirect URI of the authorization
    request (or none if it had none), a verifier whose hash is the challenge and
    no resource but the bound one, for an active user of the tenant; and it did
    exactly what [exchanged] says to the tokens and to the four stores. *)
Theorem ExchangeCode_success d tenantID in_ now random s out s' w :
  refresh_wf (st_refresh s) -> draws_fresh random s -> codes_keyed s ->
  ExchangeCodeForToken d tenantID in_ now random s = (Ok out, s', w) ->
  exists rec client user,
    st_codes s !! ei_Code in_ = Some rec /\ exchangeable tenantID in_ now rec /\
    ex_ClientRepo d tenantID (ei_ClientID in_) = Ok (Some client) /\
    ex_UserRepo d (code_UserID rec) = Ok (Some user) /\ user_TenantID user = tenantID /\ user_IsActive user = true /\
    exists scopes token, exchanged d tenantID in_ now rec client user out scopes token s s'.
Proof.
  intros Hwf Hfresh Hkeyed Hrun.
  destruct (exchange_Ok _ _ _ _ _ _ _ _ _ Hwf Hfresh Hkeyed Hrun)
    as (rec & client & user & Hcode & Hex & Hcl & Hu & Hut & Hua & Hscope & [jti Hsign] & Hid & Hq & Ht & Hissue).
  exists rec, client, user. split_and!; try done.
  destruct (ExchangeScopes_granted (client_GrantTypes client) (code_Scopes rec)) as [Hgranted Hoff].
  set (scopes := (ExchangeScopes _ _).1) in *.
  exists scopes. destruct (has_RefreshStore d && _) eqn:Hb.
  - destruct Hissue as (g & Hgen & Htok & _ & Hrecs & Hcodes). exists (Some (stored_record tenantID g)).
    destruct (GenerateInitialRefreshToken_Ok _ _ _ _ _ _ _ _ _ Hgen) as (Hlive & _ & Hhash & Hrc & Hru & Hrs & _).
    destruct (generated_fields _ _ _ _ _ _ _ _ _ Hgen) as (Hsid & Hres & Hsc).
    unfold live, IsRefreshTokenReplay in Hlive. apply negb_true_iff, orb_false_iff in Hlive as [Hrot Hrev].
    apply andb_true_iff in Hb as [Hhas Hb]. constructor; try done; [by eexists _, jti| | |].
    + destruct (contains scopes "openid") eqn:Ho.
      * rewrite decide_True by (by apply contains_true). by eexists.
      * by rewrite decide_False by (by intros Hin%contains_true; rewrite Hin in Ho).
    + split; [|by eexists]. intros _. split; [done|]. by apply Hoff.
    + rewrite Htok. by split_and!.
  - exists None. destruct Hissue as (Htok & Hrefresh & Hcodes). constructor; try done; [by eexists _, jti| |].
    + destruct (contains scopes "openid") eqn:Ho.
      * rewrite decide_True by (by apply contains_true). by eexists.
      * by rewrite decide_False by (by intros Hin%contains_true; rewrite Hin in Ho).
    + split; [by intros []|]. intros (Hhas & Hwants). apply Hoff in Hwants. by rewrite Hhas, Hwants in Hb.
Qed.

Lemma check_code_replayed d tenantID in_ now rec s family :
  code_TenantID rec = tenantID -> code_State rec = AuthCodeRecordRedeemed ->
  has_RefreshStore d = true -> code_IssuedFamilyID rec = Some family ->
  check_code d tenantID in_ now rec s =
  (Err (NewOAuthError "invalid_grant" "The authorization code has been used or has expired."),
   with_refresh (RevokeFamily family (st_refresh s)).2 s,
   (map (fun tokenID => TokenRevoked now tenantID "refresh_token" tokenID "reuse_detected")
      (RevokeFamily family (st_refresh s)).1 ++
    [RefreshTokenReuseDetected now tenantID family "" (code_ClientID rec) (code_UserID rec)])%list).
Proof.
  intros Hten Hst Hhas Hfam. unfold check_code. rewrite (bool_decide_true _ Hten), Hst.
  change (AuthCodeRecordRedeemed <>? AuthCodeRecordIssued) with true.
  change (AuthCodeRecordRedeemed =? AuthCodeRecordIssued) with false. cbn [negb orb]. cbn iota.
  erewrite eff_bind_pure by reflexivity. erewrite eff_bind_run by (by apply revokeReplayedFamily_run).
  unfold eff_fail. by rewrite app_nil_r.
Qed.

(** C4. Presenting a redeemed code again revokes everything that came out of it:
    after a successful exchange that issued a refresh token, a later exchange
    with the same code, by whomever and whatever happened to the tokens in
    between, is refused with invalid_grant, leaves every token of the family
    revoked and every other token as it was, and reports the reuse. *)
Theorem ExchangeCode_replay_revokes d d2 tenantID in_ in2 now now2 random random2 s out s' w s2 :
  refresh_wf (st_refresh s) -> draws_fresh random s -> codes_keyed s ->
  ExchangeCodeForToken d tenantID in_ now random s = (Ok out, s', w) ->
  eo_RefreshToken out <> "" ->
  ei_Code in2 = ei_Code in_ -> ei_CodeVerifier in2 <> "" -> has_RefreshStore d2 = true ->
  refresh_wf (st_refresh s2) -> st_codes s2 !! ei_Code in_ = st_codes s' !! ei_Code in_ ->
  exists r s3 w3,
    records (st_refresh s') !! rt_ID r = Some r /\ rt_Hash r = HashRefreshToken (eo_RefreshToken out) /\
    ExchangeCodeForToken d2 tenantID in2 now2 random2 s2 =
      (Err (NewOAuthError "invalid_grant" "The authorization code has been used or has expired."), s3, w3) /\
    (forall i x, records (st_refresh s3) !! i = Some x -> rt_FamilyID x = rt_FamilyID r -> rt_Revoked x = true) /\
    (forall i x, records (st_refresh s2) !! i = Some x -> rt_FamilyID x <> rt_FamilyID r ->
       records (st_refresh s3) !! i = Some x) /\
    (exists client user, RefreshTokenReuseDetected now2 tenantID (rt_FamilyID r) "" client user ∈ w3).
Proof.
  intros Hwf Hfresh Hkeyed Hrun Htok Hsame Hv2 Hhas2 Hwf2 Hcode2.
  destruct (exchange_Ok _ _ _ _ _ _ _ _ _ Hwf Hfresh Hkeyed Hrun)
    as (rec & client & user & Hcode & Hex & _ & _ & _ & _ & _ & _ & _ & _ & _ & Hissue).
  destruct (has_RefreshStore d && _); [|by destruct Hissue as [? _]].
  destruct Hissue as (g & Hgen & Htok' & Hwf' & Hrecs & Hcodes). set (r := stored_record tenantID g).
  assert (Hr2 : st_codes s2 !! ei_Code in2 = Some (redeemed_code now (Some (rt_FamilyID r)) rec)).
  { rewrite Hsame, Hcode2, Hcodes. apply lookup_insert_eq. }
  pose proof (RevokeFamily_spec (rt_FamilyID r) (st_refresh s2) Hwf2) as Hspec.
  assert (Hcheck : check_code d2 tenantID in2 now2 (redeemed_code now (Some (rt_FamilyID r)) rec) s2 = _)
    by (apply check_code_replayed; [apply Hex|reflexivity|exact Hhas2|reflexivity]).
  destruct (RevokeFamily (rt_FamilyID r) (st_refresh s2)) as [ids t]. destruct Hspec as (Hw & _ & _ & Hfam & _).
  exists r. eexists _, _. split; [rewrite Hrecs; apply lookup_insert_eq|].
  split. { destruct (GenerateInitialRefreshToken_Ok _ _ _ _ _ _ _ _ _ Hgen) as (_ & _ & Hh & _). by rewrite Htok'. }
  split.
  { unfold ExchangeCodeForToken. apply eff_bind_fails. unfold exchange_checks.
    rewrite (bool_decide_false (ei_CodeVerifier in2 = "")) by done.
    destruct (ei_Code in2 =? "") eqn:He.
    { exfalso. go_bool. unfold exchange_checks in Hrun. rewrite Hsame in He. revert Hrun.
      unfold ExchangeCodeForToken, eff_bind, exchange_checks. by rewrite bool_decide_true. }
    erewrite eff_bind_pure by (unfold call; simpl; unfold on_codes, code_Find; rewrite Hr2; by destruct s2).
    cbn iota beta. apply eff_bind_fails. exact Hcheck. }
  simpl. split_and!.
  - intros i x Hx Hfx. rewrite Hfam, lookup_fmap in Hx. apply fmap_Some in Hx as (x0 & Hx0 & ->).
    revert Hfx. unfold revoked_if. destruct (rt_Revoked x0) eqn:Hrev; [by rewrite andb_false_r|].
    rewrite andb_true_r. destruct (bool_decide _) eqn:Hb; [done|]. go_bool. intros ?. done.
  - intros i x Hx Hne. rewrite Hfam, lookup_fmap, Hx. simpl. unfold revoked_if. by rewrite bool_decide_false.
  - exists (code_ClientID rec), (code_UserID rec). apply elem_of_app. right. left.
Qed.

(** A code bug, as a theorem.  REQ-OAUTH2-015 asks that the loser of two
    concurrent exchanges revoke the family of the code and report the reuse.
    The code revokes the family named in the record that it read before the
    redemption, and a record that passed the checks names none: whenever the
    commit finds the code redeemed by another exchange, it answers invalid_grant
    and neither revokes nor reports anything. *)
Theorem concurrent_exchange_unreported d tenantID in_ now now' random s0 s0' w0 rec client user s rec' issued log :
  codes_ok (st_codes s0) issued log ->
  exchange_checks d tenantID in_ now s0 = (Ok (rec, client, user), s0', w0) ->
  st_codes s !! ei_Code in_ = Some rec' -> code_State rec' = AuthCodeRecordRedeemed ->
  exchange_commit d tenantID in_ now' random (rec, client, user) s =
    (Err (NewOAuthError "invalid_grant" "The authorization code was used by a concurrent request."), s, []).
Proof.
  intros Hok Hk Hrec' Hst. apply exchange_checks_Ok in Hk as (_ & _ & _ & Hcode & Hex & _).
  assert (Hfam : code_IssuedFamilyID rec = None).
  { destruct (ok_codes _ _ _ Hok _ _ Hcode) as (_ & _ & Hf). destruct Hex as [_ Hi _ _ _ _ _].
    destruct (code_IssuedFamilyID rec); [|done]. by rewrite Hf in Hi. }
  unfold exchange_commit. erewrite eff_bind_pure.
  2:{ unfold call. simpl. unfold on_codes, Redeem. rewrite Hrec', Hst. by destruct s. }
  cbn iota beta. unfold revokeReplayedFamily. rewrite Hfam. by erewrite eff_bind_pure.
Qed.
End memory.

(** ** Witnesses: an exchange, its replay, and a race *)

#[local] Instance demo_client : ClientView string :=
  {| client_ClientID c := c; client_GrantTypes _ := [GrantAuthorizationCode; GrantRefreshToken] |}.
#[local] Instance demo_user : UserView string := {| user_ID u := u; user_TenantID _ := "acme"; user_IsActive _ := true |}.

Definition demo_exchange_deps : ExchangeCodeDeps memory_error string string :=
  {| ex_ClientRepo _ c := Ok (Some c); ex_UserRepo u := Ok (Some u); has_RequestStore := true;
     has_RefreshStore := true; has_ClientSessionStore := true;
     ex_SignAccessToken inp := Ok ("access." ++ at_Sub inp, "jti");
     ex_SignIDToken inp := Ok ("id." ++ idt_AtHashFor _ _ inp); ex_AccessTokenTTLSeconds := 300 |}.

Definition demo_exchange_input : ExchangeCodeInput :=
  {| ei_ClientID := "client"; ei_Code := "code"; ei_CodeVerifier := "verifier";
     ei_RedirectURI := "https://app.example/cb"; ei_DpopJKT := ""; ei_MTLSX5TS256 := ""; ei_Resource := [] |}.

(** The request that the code came from. *)
Definition demo_flow : AuthorizationRequest :=
  {| ar_ID := "request"; ar_TenantID := "acme"; ar_State := AuthFlowCodeIssued; ar_ClientID := "client";
     ar_RedirectURI := "https://app.example/cb"; ar_RedirectURIOmitted := false; ar_ResponseType := "code";
     ar_Scope := "openid offline_access"; ar_StateParam := None; ar_Nonce := None;
     ar_CodeChallenge := EncodeToString (sha256_string "verifier"); ar_CodeChallengeMethod := CodeChallengeMethodS256;
     ar_Prompt := None; ar_MaxAge := None; ar_ParRequestURI := None; ar_UserID := Some "user"; ar_AuthTime := Some 0%Z; ar_AMR := [];
     ar_ACR := None; ar_ACRValues := None; ar_Sid := Some "sid"; ar_AuthorizationDetails := []; ar_Resource := None;
     ar_CreatedAt := 0%Z; ar_ExpiresAt := 600%Z |}.

Definition demo_oauth : OAuthStore :=
  {| st_codes := demo_codes; st_requests := {["request" := demo_flow]}; st_refresh := NewRefreshTokenStore; st_sessions := ∅ |}.

Definition demo_draws : result memory_error draws := Ok (draws_of 1 "1" "f").

Definition demo_exchange := ExchangeCodeForToken demo_exchange_deps "acme" demo_exchange_input 2%Z demo_draws demo_oauth.

Definition demo_exchange_output : ExchangeCodeOutput :=
  {| eo_AccessToken := "access.user"; eo_IDToken := "id.access.user";
     eo_RefreshToken := token_of_draws (draws_of 1 "1" "f"); eo_TokenType := "Bearer"; eo_ExpiresIn := 300;
     eo_Scope := "openid offline_access" |}.

Lemma demo_exchange_run :
  ExchangeCodeForToken demo_exchange_deps "acme" demo_exchange_input 2%Z demo_draws demo_oauth =
  (Ok demo_exchange_output, demo_exchange.1.2, demo_exchange.2).
Proof. vm_compute. reflexivity. Qed.

Lemma demo_draws_fresh : draws_fresh demo_draws demo_oauth.
Proof. intros dr _. split; reflexivity. Qed.

Lemma demo_keyed : codes_keyed demo_oauth.
Proof. intros code rec Hr. unfold demo_oauth, demo_codes, code_Save in Hr. simpl in Hr. by apply lookup_insert_Some in Hr as [[<- <-]|[_ ?%lookup_empty_Some]]. Qed.

Lemma ExchangeCode_success_witness :
  demo_exchange.1.1 = Ok demo_exchange_output /\
  (exists family, st_codes demo_exchange.1.2 = <["code" := redeemed_code 2%Z family demo_code]> demo_codes) /\
  ar_State <$> st_requests demo_exchange.1.2 !! "request" = Some AuthFlowExchanged /\
  cs_LastIssuedAt <$> st_sessions demo_exchange.1.2 !! ("acme" ++ NUL ++ "sid" ++ NUL ++ "client") = Some 2%Z.
Proof.
  split; [vm_compute; reflexivity|].
  destruct (ExchangeCode_success demo_exchange_deps "acme" demo_exchange_input 2%Z demo_draws demo_oauth
    demo_exchange_output demo_exchange.1.2 demo_exchange.2 NewRefreshTokenStore_wf demo_draws_fresh demo_keyed
    demo_exchange_run) as (rec & client & user & Hrec & _ & Hclient & _ & _ & _ & scopes & token & Hex).
  vm_compute in Hrec. injection Hrec as <-. injection Hclient as <-.
  destruct Hex as [_ _ _ _ Hq Ht Hc _ _]. rewrite Hc, Hq, Ht. split; [by eexists|]. split; vm_compute; reflexivity.
Defined.

Definition demo_after : OAuthStore := demo_exchange.1.2.

(** The one record that the exchange stored. *)
Definition demo_issued : RefreshTokenRecord := default first_record (heap (st_refresh demo_after) !! 0%nat).

Lemma demo_after_wf : refresh_wf (st_refresh demo_after).
Proof.
  enough (st_refresh demo_after = store_record demo_issued NewRefreshTokenStore) as ->.
  - apply store_record_wf; [apply NewRefreshTokenStore_wf|reflexivity|reflexivity].
  - vm_compute. reflexivity.
Qed.

Lemma ExchangeCode_replay_revokes_witness :
  exists r s3 w3,
    ExchangeCodeForToken demo_exchange_deps "acme" demo_exchange_input 3%Z demo_draws demo_after =
      (Err (NewOAuthError "invalid_grant" "The authorization code has been used or has expired."), s3, w3) /\
    forall i x, records (st_refresh s3) !! i = Some x -> rt_FamilyID x = rt_FamilyID r -> rt_Revoked x = true.
Proof.
  destruct (ExchangeCode_replay_revokes demo_exchange_deps demo_exchange_deps "acme" demo_exchange_input
    demo_exchange_input 2%Z 3%Z demo_draws demo_draws demo_oauth demo_exchange_output demo_exchange.1.2 demo_exchange.2
    demo_after NewRefreshTokenStore_wf demo_draws_fresh demo_keyed demo_exchange_run ltac:(by vm_compute) eq_refl
    ltac:(by vm_compute) eq_refl demo_after_wf eq_refl) as (r & s3 & w3 & _ & _ & Hrun & Hrev & _).
  exists r, s3, w3. exact (conj Hrun Hrev).
Defined.

Lemma demo_codes_ok : codes_ok (st_codes demo_oauth) ({["code"]} ∪ ∅) [].
Proof. apply (codes_ok_save ∅ ∅ [] demo_code); [apply code_init_ok|set_solver|reflexivity..]. Qed.

Lemma concurrent_exchange_unreported_witness :
  exchange_commit demo_exchange_deps "acme" demo_exchange_input 3%Z demo_draws
    (code_with "acme" AuthCodeRecordIssued None None demo_code, "client", "user") demo_after =
  (Err (NewOAuthError "invalid_grant" "The authorization code was used by a concurrent request."), demo_after, []).
Proof.
  refine (concurrent_exchange_unreported demo_exchange_deps "acme" demo_exchange_input 2%Z 3%Z demo_draws demo_oauth
    demo_oauth [] _ "client" "user" demo_after (redeemed_code 2%Z (Some (uuid_of "f")) demo_code) _ _ demo_codes_ok _ _ _);
    vm_compute; reflexivity.
Defined.
