(* ===== verification/Device.v ===== *)
(** * OAuth2: the device authorization grant

    [backend/oauth2/internal/device]: the domain (device_authorization.go,
    model.go), the memory store (db_memory/device_codes.go) and the use cases
    (usecases/device_flow.go), with [ResolveResourceIndicator] of
    [internal/usecases/resource_indicator.go].

    As in the refresh token store two maps point to the same records; [Exchange]
    changes a record in place, while [Update] replaces it by a copy of what the
    caller read and changed.  The use cases that end in an [Update] are therefore
    split into what they do up to the write and the write itself.

    The theorems: what a successful exchange has checked, and that
    over any sequence of complete use cases a device code is exchanged at most once; what a poll does to the record; and
    that, because the write is not conditional, a second submission of an
    approval that was read before the exchange makes the code exchangeable
    again. *)

From Stdlib Require Import Ascii String ZArith Lia.
From stdpp Require Import base strings list gmap.
From S2P Require Import Prelude Effects GoStrings Crypto Rules Policy TokenDomain ActorChain StateMachines RichAuthorization.
From S2P Require Import RefreshStore RefreshUsecase CodeStore ExchangeCode.

Local Open Scope string_scope.
Local Open Scope go_scope.

(** ** Domain *)

Definition userCodeCharset : string := "BCDFGHJKLMNPQRSTVWXZ".
Definition userCodeLength : nat := 8.
Definition DeviceCodeTTL : Duration := (600 * Second)%Z.

Record DeviceAuthorization := {
  da_DeviceCodeHash : string;
  da_TenantID : string;
  da_UserCode : string;
  da_ClientID : string;
  da_Scopes : list string;
  da_State : DeviceCodeFlowState;
  da_UserID : option string;
  da_AuthTime : option Z;
  da_IntervalSeconds : Z;
  da_LastPolledAt : option Time;
  da_IssuedFamilyID : option string;
  da_IssuedAt : Time;
  da_ExpiresAt : Time;
}.

#[export] Instance DeviceAuthorization_eq_dec : EqDecision DeviceAuthorization.
Proof. solve_decision. Defined.

Definition DeviceAuthorization_Validate (d : DeviceAuthorization) : result rule_error unit :=
  All [ Required "DeviceCodeHash" (da_DeviceCodeHash d) []; Required "UserCode" (da_UserCode d) [];
        Required "ClientID" (da_ClientID d) [];
        Required "State" (da_State d) [Must DeviceCodeFlowState_Valid "state is not in enum"];
        Required "IntervalSeconds" (da_IntervalSeconds d) [GreaterThan 0];
        Required "IssuedAt" (da_IssuedAt d) []; Required "ExpiresAt" (da_ExpiresAt d) [] ].

(** Assignments to the fields that change. *)
Definition da_with (tenant state : string) (user : option string) (authTime : option Z) (interval : Z)
    (polled : option Time) (family : option string) (d : DeviceAuthorization) : DeviceAuthorization :=
  {| da_DeviceCodeHash := da_DeviceCodeHash d; da_TenantID := tenant; da_UserCode := da_UserCode d;
     da_ClientID := da_ClientID d; da_Scopes := da_Scopes d; da_State := state; da_UserID := user;
     da_AuthTime := authTime; da_IntervalSeconds := interval; da_LastPolledAt := polled;
     da_IssuedFamilyID := family; da_IssuedAt := da_IssuedAt d; da_ExpiresAt := da_ExpiresAt d |}.

Definition da_set_state (state : string) (d : DeviceAuthorization) : DeviceAuthorization :=
  da_with (da_TenantID d) state (da_UserID d) (da_AuthTime d) (da_IntervalSeconds d) (da_LastPolledAt d)
    (da_IssuedFamilyID d) d.

Definition HashDeviceCode (deviceCode : string) : string := hex_EncodeToString (Sum256 (bytes_of deviceCode)).

(** The entropy source is given by what it returns: the bytes read, the indices
    drawn below the size of the character set. *)
Definition GenerateDeviceCode {E} (random : result E (list N)) : result (failure E) string :=
  let? b := lift_port random in Ok (EncodeToString (string_of_bytes b)).

Definition GenerateUserCode {E} (random : result E (list nat)) : result (failure E) string :=
  let? ns := lift_port random in
  let s := String.string_of_list_ascii (map (fun n => default Ascii.zero (String.get n userCodeCharset)) ns) in
  Ok (String.substring 0 4 s ++ "-" ++ String.substring 4 (String.length s - 4) s).

(** [unicode.ToUpper] as far as its results are ASCII: besides the ASCII
    letters only U+0131 and U+017F have an ASCII upper case. *)
Definition upper_rune (r : N) : N :=
  if in_range 97 122 r then (r - 32)%N
  else if (r =? 305)%N then 73%N else if (r =? 383)%N then 83%N else r.

Definition NormalizeUserCode (input : string) : string :=
  string_of_bytes (List.filter (fun r => in_range 65 90 r || in_range 48 57 r)
    (map (fun e => upper_rune (fst e)) (decode_runes (bytes_of input)))).

Definition IsDeviceExpired (rec : DeviceAuthorization) (now : Time) : bool :=
  if da_State rec =? DeviceFlowExpired then true else negb (Before now (da_ExpiresAt rec)).

(** ** The memory store *)

Record DeviceCodeStore := {
  dheap : gmap nat DeviceAuthorization;
  dnext : nat;
  dbyHash : gmap string nat;
  dbyUserCode : gmap string nat;
}.

Definition NewDeviceCodeStore : DeviceCodeStore :=
  {| dheap := ∅; dnext := 0; dbyHash := ∅; dbyUserCode := ∅ |}.

(** [Save] and [Update] have the same body. *)
Definition device_Update (rec : DeviceAuthorization) (s : DeviceCodeStore) : DeviceCodeStore :=
  let stored := da_with (DefaultScope (da_TenantID rec) DefaultTenantID) (da_State rec) (da_UserID rec)
    (da_AuthTime rec) (da_IntervalSeconds rec) (da_LastPolledAt rec) (da_IssuedFamilyID rec) rec in
  {| dheap := <[dnext s := stored]> (dheap s); dnext := S (dnext s);
     dbyHash := <[da_DeviceCodeHash stored := dnext s]> (dbyHash s);
     dbyUserCode := <[da_UserCode stored := dnext s]> (dbyUserCode s) |}.
Definition device_Save : DeviceAuthorization -> DeviceCodeStore -> DeviceCodeStore := device_Update.

Definition FindByDeviceCodeHash (hash : string) (s : DeviceCodeStore) : option DeviceAuthorization :=
  dbyHash s !! hash ≫= fun p => dheap s !! p.
Definition FindByUserCode (userCode : string) (s : DeviceCodeStore) : option DeviceAuthorization :=
  dbyUserCode s !! userCode ≫= fun p => dheap s !! p.

Definition device_Exchange (hash : string) (s : DeviceCodeStore) :
    result transition_error (option DeviceAuthorization) * DeviceCodeStore :=
  match dbyHash s !! hash ≫= fun p => pair p <$> dheap s !! p with
  | None => (Ok None, s)
  | Some (p, rec) =>
      if da_State rec <>? DeviceFlowApproved then (Ok None, s)
      else match TransitionDeviceCodeFlow (da_State rec) DeviceEventExchange with
      | Err e => (Err e, s)
      | Ok next =>
          let rec := da_set_state next rec in
          (Ok (Some rec), {| dheap := <[p := rec]> (dheap s); dnext := dnext s;
                             dbyHash := dbyHash s; dbyUserCode := dbyUserCode s |})
      end
  end.

Definition device_DeleteAllForSub (sub : string) (s : DeviceCodeStore) : DeviceCodeStore :=
  fold_left (fun s '(hash, p) =>
    match dheap s !! p with
    | Some rec =>
        match da_UserID rec with
        | Some u => if u =? sub then
              {| dheap := dheap s; dnext := dnext s; dbyHash := delete hash (dbyHash s);
                 dbyUserCode := delete (da_UserCode rec) (dbyUserCode s) |} else s
        | None => s
        end
    | None => s
    end) (map_to_list (dbyHash s)) s.

(** ** Resource indicators *)

Record McpResourceServer := { mcp_Resource : string; mcp_Scopes : list string; mcp_State : string }.
Definition McpResourceServerActive : string := "Active".
Definition mcp_IsActive (m : McpResourceServer) : bool := mcp_State m =? McpResourceServerActive.

(** [nonEmpty] of resource_indicator.go, which unlike the one of the token use
    cases keeps values of blanks. *)
Definition indicator_values (values : list string) : list string := List.filter (fun v => v <>? "") values.

Section usecase.
Context {S E C U : Type} `{ClientView C} `{UserView U}.

(** A missing repository is [None]. *)
Definition ResolveResourceIndicator (repo : option (string -> string -> result E (option McpResourceServer)))
    (tenantID : string) (resources requestedScopes : list string) :
    result (failure E) (option McpResourceServer) :=
  match indicator_values resources with
  | [] => Ok None
  | [resource] =>
      match repo with
      | None => Err (NewOAuthError "invalid_target" "The resource is not registered.")
      | Some findByResource =>
          let? mcp := lift_port (findByResource tenantID resource) in
          match mcp with
          | None => Err (NewOAuthError "invalid_target" "The resource is not registered or is disabled.")
          | Some mcp =>
              reject negb (mcp_IsActive mcp) with
                NewOAuthError "invalid_target" "The resource is not registered or is disabled." in
              reject negb (forallb (contains (mcp_Scopes mcp)) requestedScopes) with
                NewOAuthError "invalid_scope" "request exceeds allowed scope of the resource" in
              Ok (Some mcp)
          end
      end
  | _ => Err (NewOAuthError "invalid_target" "only one resource can be specified (1 token = 1 resource)")
  end.
End usecase.

(** ** Ports and inputs *)

Class DeviceCodePort (S E : Type) := {
  save_device : DeviceAuthorization -> S -> result E unit * S;
  find_device : string -> S -> result E (option DeviceAuthorization) * S;
  find_user_code : string -> S -> result E (option DeviceAuthorization) * S;
  update_device : DeviceAuthorization -> S -> result E unit * S;
  exchange_device : string -> S -> result E (option DeviceAuthorization) * S;
}.

(** What the device authorization endpoint reads of a client besides. *)
Class ClientPolicyView (C : Type) := {
  client_ClientType : C -> ClientType;
  client_Scope : C -> string;
}.

Record DeviceAuthorizationInput := { di_ClientID : string; di_Scope : string }.

Record DeviceAuthorizationResponse := {
  dr_DeviceCode : string;
  dr_UserCode : string;
  dr_VerificationURI : string;
  dr_VerificationURIComplete : string;
  dr_ExpiresIn : Z;
  dr_Interval : Z;
}.

Record ExchangeDeviceCodeInput := {
  xi_ClientID : string;
  xi_DeviceCode : string;
  xi_ProofJKT : string;
  xi_ProofX5TS256 : string;
  xi_Resource : list string;
}.

Record ExchangeDeviceCodeResult := {
  xr_AccessToken : string;
  xr_RefreshToken : string;
  xr_IDToken : string;
  xr_TokenType : string;
  xr_ExpiresIn : Z;
  xr_Scope : string;
}.

Section flows.
Context {S E C U : Type} `{DeviceCodePort S E} `{RefreshTokenPort S E} `{ClientView C} `{!ClientPolicyView C} `{UserView U}.
Notation flow := (eff S oauth_event (failure E)).

Record DeviceDeps := {
  dd_ClientRepo : string -> string -> result E (option C);
  dd_UserRepo : string -> result E (option U);
  dd_McpResourceServerRepo : option (string -> string -> result E (option McpResourceServer));
  dd_SignAccessToken : AccessTokenInput C -> result (failure E) (string * string);
  dd_SignIDToken : IDTokenInput C U -> result (failure E) string;
  dd_AccessTokenTTLSeconds : Z;
  BaseVerification : string;
  dd_clock : Time;
}.

Definition the_time (d : DeviceDeps) (now : Time) : Time := if IsZero now then dd_clock d else now.

Definition scopes_or_openid (scope : string) : list string :=
  match Fields scope with [] => ["openid"] | scopes => scopes end.

(** [RequestDeviceAuthorization]. *)
Definition RequestDeviceAuthorization (d : DeviceDeps) (tenantID : string) (in_ : DeviceAuthorizationInput)
    (now : Time) (random1 : result E (list N)) (random2 : result E (list nat)) : flow DeviceAuthorizationResponse :=
  let now := the_time d now in
  let! client := lift (lift_port (dd_ClientRepo d tenantID (di_ClientID in_))) in
  match client with
  | None => eff_fail (NewOAuthError "invalid_client" "unknown client_id")
  | Some client =>
      refuse (negb (GrantAllowsClientType GrantDeviceCode (client_ClientType client)) ||
              negb (contains (client_GrantTypes client) GrantDeviceCode)) with
        NewOAuthError "unauthorized_client" "device_code grant not allowed" in
      let! deviceCode := lift (GenerateDeviceCode random1) in
      let! userCode := lift (GenerateUserCode random2) in
      let scopes := scopes_or_openid (di_Scope in_) in
      refuse (negb (forallb (contains (Fields (client_Scope client))) scopes)) with
        NewOAuthError "invalid_scope" "contains undeclared scope" in
      let rec_ :=
        {| da_DeviceCodeHash := HashDeviceCode deviceCode; da_TenantID := tenantID;
           da_UserCode := NormalizeUserCode userCode; da_ClientID := client_ClientID client; da_Scopes := scopes;
           da_State := DeviceFlowIssued; da_UserID := None; da_AuthTime := None; da_IntervalSeconds := 5;
           da_LastPolledAt := None; da_IssuedFamilyID := None; da_IssuedAt := now;
           da_ExpiresAt := Add now DeviceCodeTTL |} in
      do! lift (lift_rules (DeviceAuthorization_Validate rec_)) in
      do! call PortError (save_device rec_) in
      do! emit (DeviceAuthorizationRequested now tenantID (client_ClientID client) scopes) in
      eff_ret {| dr_DeviceCode := deviceCode; dr_UserCode := userCode; dr_VerificationURI := BaseVerification d;
                 dr_VerificationURIComplete := BaseVerification d ++ "?user_code=" ++ userCode;
                 dr_ExpiresIn := 600; dr_Interval := 5 |}
  end.

(** ** The user's decision *)

(** [spec.TransitionDeviceCodeFlow] whose error becomes [invalid_request]; its
    text is the description. *)
Definition decide_transition (state event : string) : result (failure E) string :=
  match TransitionDeviceCodeFlow state event with
  | Ok next => Ok next
  | Err e => Err (NewOAuthError "invalid_request" (format e))
  end.

(** What [ApproveUserCode] and [DenyUserCode] read and check: the record with
    the entry of its user code recorded. *)
Definition read_user_code (d : DeviceDeps) (tenantID userCode : string) (now : Time) : flow DeviceAuthorization :=
  let! rec := call PortError (find_user_code (NormalizeUserCode userCode)) in
  match rec with
  | None => eff_fail (NewOAuthError "invalid_request" "unknown user_code")
  | Some rec =>
      refuse (da_TenantID rec <>? tenantID) with NewOAuthError "invalid_request" "unknown user_code" in
      refuse (IsDeviceExpired rec now) with NewOAuthError "expired_token" "user_code expired" in
      if da_State rec =? DeviceFlowIssued then
        let! next := lift (decide_transition (da_State rec) DeviceEventEnterUserCode) in
        eff_ret (da_set_state next rec)
      else eff_ret rec
  end.

Definition approve_read (d : DeviceDeps) (tenantID userCode sub : string) (now : Time) : flow DeviceAuthorization :=
  let! rec := read_user_code d tenantID userCode now in
  let! approved := lift (decide_transition (da_State rec) DeviceEventApprove) in
  eff_ret (da_with (da_TenantID rec) approved (Some sub) (Some (Unix now)) (da_IntervalSeconds rec)
             (da_LastPolledAt rec) (da_IssuedFamilyID rec) rec).

Definition approve_write (sub : string) (now : Time) (rec : DeviceAuthorization) : flow unit :=
  do! call PortError (update_device rec) in
  emit (DeviceAuthorizationApproved now (da_TenantID rec) (da_ClientID rec) sub).

Definition ApproveUserCode (d : DeviceDeps) (tenantID userCode sub : string) (now : Time) : flow unit :=
  let now := the_time d now in
  let! rec := approve_read d tenantID userCode sub now in
  approve_write sub now rec.

Definition deny_write (sub : string) (now : Time) (rec : DeviceAuthorization) : flow unit :=
  do! call PortError (update_device rec) in
  emit (DeviceAuthorizationDenied now (da_TenantID rec) (da_ClientID rec) sub).

Definition DenyUserCode (d : DeviceDeps) (tenantID userCode sub : string) (now : Time) : flow unit :=
  let now := the_time d now in
  let! rec := read_user_code d tenantID userCode now in
  let! denied := lift (decide_transition (da_State rec) DeviceEventDeny) in
  deny_write sub now (da_set_state denied rec).

(** ** The device's poll and exchange *)

(** The record of a poll that came too early. *)
Definition too_early (rec : DeviceAuthorization) (now : Time) : bool :=
  match da_LastPolledAt rec with
  | Some last => Sub now last <? wrap64 (da_IntervalSeconds rec * Second)
  | None => false
  end.

Definition polled (rec : DeviceAuthorization) (interval : Z) (now : Time) : DeviceAuthorization :=
  da_with (da_TenantID rec) (da_State rec) (da_UserID rec) (da_AuthTime rec) interval (Some now)
    (da_IssuedFamilyID rec) rec.

(** The pending branch: the poll is written down and refused. *)
Definition poll_pending (rec : DeviceAuthorization) (now : Time) : flow ExchangeDeviceCodeResult :=
  if too_early rec now then
    do! call PortError (update_device
      (polled rec (wrap64 (da_IntervalSeconds rec + SlowDownIncrementSeconds DefaultDeviceCodePolling)) now)) in
    eff_fail (NewOAuthError "slow_down" "polling interval is too short")
  else
    do! call PortError (update_device (polled rec (da_IntervalSeconds rec) now)) in
    eff_fail (NewOAuthError "authorization_pending" "authorization pending").

Definition device_sender (in_ : ExchangeDeviceCodeInput) : option SenderConstraint :=
  if xi_ProofJKT in_ <>? "" then Some (dpop (xi_ProofJKT in_))
  else if xi_ProofX5TS256 in_ <>? "" then Some (mtls (xi_ProofX5TS256 in_))
  else None.

(** A nil dereference, which panics in Go. *)
Definition deref {A} (p : option A) : result (failure E) A :=
  match p with Some a => Ok a | None => Err (NewOAuthError "panic" "nil pointer dereference") end.

Definition device_access_input (client : C) (user : U) (scopes : list string) (sc : option SenderConstraint)
    (authTime : Z) (resource : option string) : AccessTokenInput C :=
  {| at_Client := client; at_Sub := user_ID user; at_Scopes := scopes; at_SenderConstraint := sc;
     at_AuthTime := authTime; at_AMR := []; at_ACR := ""; at_AgentID := ""; at_AgentChain := [];
     at_ApprovalRequestID := ""; at_Audiences := audiences_of resource; at_AuthorizationDetails := [];
     at_ExpiresAt := 0; at_Managed := false; at_Act := None |}.

Definition device_id_input (client : C) (user : U) (scopes : list string) (authTime : Z) (access : string) :
    IDTokenInput C U :=
  {| idt_Client := client; idt_User := user; idt_Scopes := scopes; idt_Nonce := None; idt_AuthTime := authTime;
     idt_AMR := []; idt_ACR := ""; idt_Sid := ""; idt_AtHashFor := access |}.

(** The refresh token of the exchange; the error of the last update is dropped. *)
Definition device_refresh (tenantID : string) (client : C) (user : U) (rec : DeviceAuthorization)
    (scopes : list string) (sc : option SenderConstraint) (resource : option string) (now : Time)
    (random : result E draws) : flow string :=
  let! gen := lift (GenerateInitialRefreshToken (client_ClientID client) (user_ID user) scopes sc None resource now random) in
  let r := set_tenant tenantID (gen_Record gen) in
  do! call PortError (save_refresh r) in
  do! emit (RefreshTokenIssued now tenantID (rt_ID r) (rt_FamilyID r) (client_ClientID client) (user_ID user)) in
  do! ignore (update_device (da_with (da_TenantID rec) (da_State rec) (da_UserID rec) (da_AuthTime rec)
                (da_IntervalSeconds rec) (da_LastPolledAt rec) (Some (rt_FamilyID r)) rec)) in
  eff_ret (gen_Token gen).

(** The signatures, in the order of the code. *)
Definition device_tokens (d : DeviceDeps) (tenantID : string) (in_ : ExchangeDeviceCodeInput) (client : C) (user : U)
    (rec : DeviceAuthorization) (now : Time) (random : result E draws) : flow ExchangeDeviceCodeResult :=
  let '(scopes, issueRefresh) := ExchangeScopes (client_GrantTypes client) (da_Scopes rec) in
  let sc := device_sender in_ in
  let! mcp := lift (ResolveResourceIndicator (dd_McpResourceServerRepo d) tenantID (xi_Resource in_) (da_Scopes rec)) in
  let resource := mcp_Resource <$> mcp in
  let! authTime := lift (deref (da_AuthTime rec)) in
  let! signed := lift (dd_SignAccessToken d (device_access_input client user scopes sc authTime resource)) in
  do! match resource with
      | Some r => emit (ResourceScopedTokenIssued now tenantID (client_ClientID client) r scopes)
      | None => eff_ret tt
      end in
  do! emit (AccessTokenIssued now tenantID signed.2 (client_ClientID client) (user_ID user) scopes (senderConstraintTag sc)) in
  let! idTok := lift (dd_SignIDToken d (device_id_input client user scopes authTime signed.1)) in
  let! refreshToken := (if issueRefresh then device_refresh tenantID client user rec scopes sc resource now random
                        else eff_ret "") in
  eff_ret {| xr_AccessToken := signed.1; xr_RefreshToken := refreshToken; xr_IDToken := idTok;
             xr_TokenType := PresentationTokenType sc; xr_ExpiresIn := dd_AccessTokenTTLSeconds d;
             xr_Scope := Join scopes " " |}.

(** From the atomic exchange on. *)
Definition device_commit (d : DeviceDeps) (tenantID : string) (in_ : ExchangeDeviceCodeInput) (now : Time)
    (random : result E draws) : flow ExchangeDeviceCodeResult :=
  let! exchanged := call PortError (exchange_device (HashDeviceCode (xi_DeviceCode in_))) in
  match exchanged with
  | None => eff_fail (NewOAuthError "invalid_grant" "device_code has been exchanged by a concurrent request")
  | Some rec =>
      let! client := lift (lift_port (dd_ClientRepo d tenantID (xi_ClientID in_))) in
      match client, da_UserID rec with
      | Some client, Some sub =>
          let! user := lift (lift_port (dd_UserRepo d sub)) in
          match user with
          | None => eff_fail (NewOAuthError "invalid_grant" "user is unavailable")
          | Some user =>
              refuse (user_TenantID user <>? tenantID) with NewOAuthError "invalid_grant" "unknown device_code" in
              refuse (negb (user_IsActive user)) with NewOAuthError "invalid_grant" "user is disabled" in
              device_tokens d tenantID in_ client user rec now random
          end
      | _, _ => eff_fail (NewOAuthError "server_error" "client or sub missing")
      end
  end.

Definition ExchangeDeviceCode (d : DeviceDeps) (tenantID : string) (in_ : ExchangeDeviceCodeInput) (now : Time)
    (random : result E draws) : flow ExchangeDeviceCodeResult :=
  let now := the_time d now in
  let! rec := call PortError (find_device (HashDeviceCode (xi_DeviceCode in_))) in
  match rec with
  | None => eff_fail (NewOAuthError "invalid_grant" "unknown device_code")
  | Some rec =>
      refuse (da_TenantID rec <>? tenantID) with NewOAuthError "invalid_grant" "unknown device_code" in
      refuse (da_ClientID rec <>? xi_ClientID in_) with
        NewOAuthError "invalid_grant" "device_code is not bound to the client" in
      refuse (IsDeviceExpired rec now) with NewOAuthError "expired_token" "The device_code has expired." in
      if (da_State rec =? DeviceFlowIssued) || (da_State rec =? DeviceFlowUserCodeEntered) then poll_pending rec now
      else
        refuse (da_State rec =? DeviceFlowDenied) with NewOAuthError "access_denied" "user denied" in
        refuse (da_State rec =? DeviceFlowExchanged) with
          NewOAuthError "invalid_grant" "device_code has already been exchanged" in
        refuse (da_State rec <>? DeviceFlowApproved) with
          NewOAuthError "invalid_grant" ("invalid device_code state: " ++ da_State rec) in
        device_commit d tenantID in_ now random
  end.
End flows.

Arguments DeviceDeps : clear implicits.

(** ** The memory stores together *)

Record DeviceStores := { ds_devices : DeviceCodeStore; ds_refresh : RefreshTokenStore }.

Definition on_devices {A} (op : DeviceCodeStore -> result transition_error A * DeviceCodeStore) (s : DeviceStores) :
    result memory_error A * DeviceStores :=
  let '(r, t) := op (ds_devices s) in
  (match r with Ok a => Ok a | Err e => Err (CodeError (TransitionError e)) end,
   {| ds_devices := t; ds_refresh := ds_refresh s |}).

Definition on_device_refresh {A} (op : RefreshTokenStore -> result string A * RefreshTokenStore) (s : DeviceStores) :
    result memory_error A * DeviceStores :=
  let '(r, t) := op (ds_refresh s) in
  (match r with Ok a => Ok a | Err e => Err (RefreshError e) end,
   {| ds_devices := ds_devices s; ds_refresh := t |}).

#[export] Instance memory_device_port : DeviceCodePort DeviceStores memory_error := {
  save_device r := on_devices (fun s => (Ok tt, device_Save r s));
  find_device h := on_devices (fun s => (Ok (FindByDeviceCodeHash h s), s));
  find_user_code u := on_devices (fun s => (Ok (FindByUserCode u s), s));
  update_device r := on_devices (fun s => (Ok tt, device_Update r s));
  exchange_device h := on_devices (device_Exchange h);
}.
#[export] Instance memory_device_refresh_port : RefreshTokenPort DeviceStores memory_error := {
  find_by_hash h := on_device_refresh (find_by_hash h);
  save_refresh r := on_device_refresh (save_refresh r);
  rotate_refresh p r := on_device_refresh (rotate_refresh p r);
  revoke_family f := on_device_refresh (revoke_family f);
  revoke_by_sid sid := on_device_refresh (revoke_by_sid sid);
}.

(** ** Theorems *)

Section memory.
Context {C U : Type} `{ClientView C} `{!ClientPolicyView C} `{UserView U}.
Notation Deps := (DeviceDeps memory_error C U).
Implicit Types (d : Deps) (s : DeviceStores).

Definition device_of (hash : string) s : option DeviceAuthorization := FindByDeviceCodeHash hash (ds_devices s).

(** The records are filed under their own hash. *)
Definition devices_keyed s : Prop := forall hash rec, device_of hash s = Some rec -> da_DeviceCodeHash rec = hash.

Definition stored_device (rec : DeviceAuthorization) : DeviceAuthorization :=
  da_with (DefaultScope (da_TenantID rec) DefaultTenantID) (da_State rec) (da_UserID rec) (da_AuthTime rec)
    (da_IntervalSeconds rec) (da_LastPolledAt rec) (da_IssuedFamilyID rec) rec.

Lemma device_Update_find rec t : FindByDeviceCodeHash (da_DeviceCodeHash rec) (device_Update rec t) = Some (stored_device rec).
Proof. unfold FindByDeviceCodeHash, device_Update. simpl. rewrite lookup_insert_eq. simpl. by rewrite lookup_insert_eq. Qed.

Lemma device_Exchange_cases hash t :
  device_Exchange hash t = (Ok None, t) \/
  exists rec t', FindByDeviceCodeHash hash t = Some rec /\ da_State rec = DeviceFlowApproved /\
    device_Exchange hash t = (Ok (Some (da_set_state DeviceFlowExchanged rec)), t') /\
    FindByDeviceCodeHash hash t' = Some (da_set_state DeviceFlowExchanged rec).
Proof.
  unfold device_Exchange, FindByDeviceCodeHash. destruct (dbyHash t !! hash) as [p|] eqn:Hp; simpl; [|by left].
  destruct (dheap t !! p) as [rec|] eqn:Hr; simpl; [|by left].
  destruct (da_State rec <>? DeviceFlowApproved) eqn:Hs; go_bool; [by left|]. right.
  eexists rec, _. rewrite Hs. split_and!; [done|done|reflexivity|]. simpl. rewrite Hp. simpl. by rewrite lookup_insert_eq.
Qed.

(** A record that is exchanged is refused by every later exchange. *)
Lemma exchanged_refused d tenantID in_ now random s rec :
  device_of (HashDeviceCode (xi_DeviceCode in_)) s = Some rec -> da_State rec = DeviceFlowExchanged ->
  exists e, ExchangeDeviceCode d tenantID in_ now random s = (Err e, s, []).
Proof.
  intros Hf Hs. unfold ExchangeDeviceCode.
  erewrite eff_bind_pure by (unfold call; simpl; unfold on_devices; fold (device_of (HashDeviceCode (xi_DeviceCode in_)) s); rewrite Hf; by destruct s).
  cbn iota beta. destruct (da_TenantID rec <>? tenantID); [by eexists|].
  destruct (da_ClientID rec <>? xi_ClientID in_); [by eexists|].
  destruct (IsDeviceExpired rec _); [by eexists|]. rewrite Hs. by eexists.
Qed.

(** What is left of the record after the tokens are made. *)
Lemma device_tokens_state d tenantID in_ client user rec now random s out s' w :
  device_of (da_DeviceCodeHash rec) s = Some rec ->
  device_tokens (S := DeviceStores) d tenantID in_ client user rec now random s = (Ok out, s', w) ->
  exists rec', device_of (da_DeviceCodeHash rec) s' = Some rec' /\ da_State rec' = da_State rec.
Proof.
  intros Hf Hrun. unfold device_tokens in Hrun.
  destruct (ExchangeScopes (client_GrantTypes client) (da_Scopes rec)) as [scopes issue].
  apply eff_bind_Ok in Hrun as (mcp & s1 & w1 & w2 & Hm & Hrun & ->). injection Hm as _ <- _.
  apply eff_bind_Ok in Hrun as (authTime & s1 & w3 & w4 & Ha & Hrun & ->). injection Ha as _ <- _.
  apply eff_bind_Ok in Hrun as (signed & s1 & w5 & w6 & Hg & Hrun & ->). injection Hg as _ <- _.
  apply eff_bind_Ok in Hrun as ([] & s1 & w7 & w8 & He & Hrun & ->).
  assert (s1 = s) as -> by (destruct (mcp_Resource <$> mcp); unfold emit, eff_ret in He; congruence).
  apply eff_bind_Ok in Hrun as ([] & s1 & w9 & w10 & He' & Hrun & ->). injection He' as <- _.
  apply eff_bind_Ok in Hrun as (idt & s1 & w11 & w12 & Hi & Hrun & ->). injection Hi as _ <- _.
  apply eff_bind_Ok in Hrun as (tok & s1 & w13 & w14 & Hr & Hrun & ->). injection Hrun as _ <- _.
  destruct issue; [|injection Hr as _ <- _; by exists rec].
  apply eff_bind_Ok in Hr as (gen & s2 & w15 & w16 & Hgen & Hr & _). injection Hgen as _ <- _.
  apply eff_bind_Ok in Hr as ([] & s2 & w17 & w18 & Hsave & Hr & _). injection Hsave as <- _.
  apply eff_bind_Ok in Hr as ([] & s2 & w19 & w20 & Hem & Hr & _). injection Hem as <- _.
  apply eff_bind_Ok in Hr as (o & s2 & w21 & w22 & Hup & Hr & _). injection Hr as _ <- _.
  injection Hup as _ <- _. eexists. unfold device_of. simpl. split.
  - match goal with |- FindByDeviceCodeHash _ (device_Update ?r _) = _ => exact (device_Update_find r _) end.
  - done.
Qed.

(** The stores after a poll of a waiting code. *)
Definition after_poll (rec : DeviceAuthorization) (now : Time) s : DeviceStores :=
  {| ds_devices := device_Update (polled rec (if too_early rec now then wrap64 (da_IntervalSeconds rec + 5)
                                               else da_IntervalSeconds rec) now) (ds_devices s);
     ds_refresh := ds_refresh s |}.

Lemma poll_pending_run rec now s :
  poll_pending rec now s =
  (Err (if too_early rec now then NewOAuthError "slow_down" "polling interval is too short"
        else NewOAuthError "authorization_pending" "authorization pending"), after_poll rec now s, []).
Proof.
  unfold poll_pending, after_poll. destruct (too_early rec now); (erewrite eff_bind_pure by reflexivity); reflexivity.
Qed.

(** *** The store across whole use cases

    Each hash and each user code points to a record of its own, and a user code only
    to the present record of its device. *)
Record devices_coherent (t : DeviceCodeStore) : Prop := {
  coh_hash : forall h p, dbyHash t !! h = Some p -> (p < dnext t)%nat /\ exists rec, dheap t !! p = Some rec /\ da_DeviceCodeHash rec = h;
  coh_user : forall u p, dbyUserCode t !! u = Some p -> exists rec, dheap t !! p = Some rec /\ da_UserCode rec = u /\ dbyHash t !! da_DeviceCodeHash rec = Some p;
}.

Lemma find_shape h t rec : devices_coherent t -> FindByDeviceCodeHash h t = Some rec ->
  exists p, dbyHash t !! h = Some p /\ dheap t !! p = Some rec /\ da_DeviceCodeHash rec = h /\ (p < dnext t)%nat.
Proof.
  intros Hc (p & Hp & Hr)%bind_Some. destruct (coh_hash _ Hc h p Hp) as (Hlt & rec' & Hr' & Hh). simplify_eq. by exists p.
Qed.

Lemma find_user_shape u t rec : devices_coherent t -> FindByUserCode u t = Some rec ->
  FindByDeviceCodeHash (da_DeviceCodeHash rec) t = Some rec /\ da_UserCode rec = u.
Proof.
  intros Hc (p & Hp & Hr)%bind_Some. destruct (coh_user _ Hc u p Hp) as (rec' & Hr' & Hu & Hh). simplify_eq. split; [|done].
  unfold FindByDeviceCodeHash. by rewrite Hh.
Qed.

(** Writing a record is coherent when the device is new, or has this user code. *)
Lemma Update_coherent r t : devices_coherent t ->
  (forall rec, FindByDeviceCodeHash (da_DeviceCodeHash r) t = Some rec -> da_UserCode rec = da_UserCode r) ->
  devices_coherent (device_Update r t) /\ forall h', h' <> da_DeviceCodeHash r -> FindByDeviceCodeHash h' (device_Update r t) = FindByDeviceCodeHash h' t.
Proof.
  intros Hc Hu. unfold device_Update, FindByDeviceCodeHash. cbn [dheap dnext dbyHash dbyUserCode].
  set (r' := da_with _ _ _ _ _ _ _ r). change (da_DeviceCodeHash r') with (da_DeviceCodeHash r). change (da_UserCode r') with (da_UserCode r).
  assert (Hlt : forall h p, dbyHash t !! h = Some p -> p <> dnext t) by (intros h p Hp; destruct (coh_hash _ Hc h p Hp); lia).
  split; [constructor; cbn [dheap dnext dbyHash dbyUserCode]|].
  - intros h p [[<- <-]|[Hne Hp]]%lookup_insert_Some; [split; [lia|exists r'; split; [apply lookup_insert_eq|done]]|].
    destruct (coh_hash _ Hc h p Hp) as (Hp' & rec & Hr & Hh). split; [lia|]. exists rec. rewrite lookup_insert_ne by (by apply not_eq_sym, (Hlt h)). done.
  - intros u p [[<- <-]|[Hne Hp]]%lookup_insert_Some; [exists r'; split_and!; [apply lookup_insert_eq|done|apply lookup_insert_eq]|].
    destruct (coh_user _ Hc u p Hp) as (rec & Hr & Huc & Hh). exists rec. rewrite lookup_insert_ne by (by apply not_eq_sym, (Hlt (da_DeviceCodeHash rec))).
    split_and!; [done|done|]. rewrite lookup_insert_ne; [done|]. intros Heq. apply Hne. rewrite <- Huc. symmetry. apply Hu. unfold FindByDeviceCodeHash.
    rewrite Heq, Hh. exact Hr.
  - intros h' Hne. rewrite lookup_insert_ne by done. destruct (dbyHash t !! h') as [p|] eqn:Hp; [|done]. simpl. by rewrite lookup_insert_ne by (by apply not_eq_sym, (Hlt h')).
Qed.

(** The exchange touches the record of its own device only. *)
Lemma Exchange_coherent h t : devices_coherent t ->
  devices_coherent (device_Exchange h t).2 /\
  forall h', h' <> h -> FindByDeviceCodeHash h' (device_Exchange h t).2 = FindByDeviceCodeHash h' t.
Proof.
  intros Hc. unfold device_Exchange. destruct (dbyHash t !! h) as [p|] eqn:Hp; [|done]. simpl.
  destruct (dheap t !! p) as [rec|] eqn:Hr; [|done]. simpl. destruct (da_State rec <>? DeviceFlowApproved); [done|].
  destruct (TransitionDeviceCodeFlow (da_State rec) DeviceEventExchange) as [next|]; [|done]. cbn [snd].
  set (rec' := da_set_state next rec). assert (Hkey : da_DeviceCodeHash rec = h) by (destruct (coh_hash _ Hc h p Hp) as (_ & x & Hx & Hh); by simplify_eq).
  split; [constructor; cbn [dheap dnext dbyHash dbyUserCode]|].
  - intros h' q Hq. destruct (coh_hash _ Hc h' q Hq) as (Hlt & x & Hx & Hh). split; [done|]. destruct (decide (q = p)) as [->|Hne].
    + exists rec'. split; [apply lookup_insert_eq|]. simplify_eq. done.
    + exists x. by rewrite lookup_insert_ne.
  - intros u q Hq. destruct (coh_user _ Hc u q Hq) as (x & Hx & Hu & Hh). destruct (decide (q = p)) as [->|Hne].
    + exists rec'. simplify_eq. split_and!; [apply lookup_insert_eq|done|done].
    + exists x. by rewrite lookup_insert_ne.
  - intros h' Hne. unfold FindByDeviceCodeHash. cbn [dheap dbyHash]. destruct (dbyHash t !! h') as [q|] eqn:Hq; [|done]. simpl.
    rewrite lookup_insert_ne; [done|]. intros <-. destruct (coh_hash _ Hc h' p Hq) as (_ & x & Hx & Hh). simplify_eq.
Qed.

(** Deleting the devices of a user leaves the records of the others alone. *)
Lemma DeleteAll_coherent sub t : devices_coherent t ->
  devices_coherent (device_DeleteAllForSub sub t) /\
  forall h rec, FindByDeviceCodeHash h (device_DeleteAllForSub sub t) = Some rec -> FindByDeviceCodeHash h t = Some rec.
Proof.
  unfold device_DeleteAllForSub.
  assert (Hl : forall h p, (h, p) ∈ map_to_list (dbyHash t) -> forall q, dbyHash t !! h = Some q -> q = p)
    by (intros h p Hin q Hq; apply elem_of_map_to_list in Hin; congruence).
  revert Hl. generalize (map_to_list (dbyHash t)) as l. intros l. revert t.
  induction l as [|[h p] l IH]; intros t Hl Hc; [done|]. cbn [fold_left].
  assert (Hl' : forall h p, (h, p) ∈ l -> forall q, dbyHash t !! h = Some q -> q = p) by (intros h' p' Hin; apply Hl; by right).
  destruct (dheap t !! p) as [rec|] eqn:Hr; [|by apply IH]. destruct (da_UserID rec) as [u|]; [|by apply IH]. destruct (u =? sub); [|by apply IH].
  match goal with |- devices_coherent (fold_left _ _ ?t1) /\ _ => set (t' := t1) end.
  destruct (IH t') as [Hc' Hf].
  - intros h' p' Hin q. unfold t'. cbn [dbyHash]. intros [_ Hq]%lookup_delete_Some. by apply (Hl' h' p').
  - constructor; unfold t'; cbn [dheap dnext dbyHash dbyUserCode].
    + intros h' q [_ Hq]%lookup_delete_Some. by apply (coh_hash _ Hc).
    + intros u' q [Hne Hq]%lookup_delete_Some. destruct (coh_user _ Hc u' q Hq) as (x & Hx & Hu & Hh). exists x. split_and!; [done..|].
      rewrite lookup_delete_ne; [done|]. intros ->. assert (q = p) as -> by (apply (Hl (da_DeviceCodeHash x) p); [by left|done]). simplify_eq.
  - split; [done|]. intros h' x Hx. apply Hf in Hx. unfold FindByDeviceCodeHash in *. apply bind_Some in Hx as (q & Hq & Hx). unfold t' in Hq, Hx. cbn [dbyHash dheap] in Hq, Hx.
    apply lookup_delete_Some in Hq as [_ Hq]. by rewrite Hq.
Qed.

(** A store whose devices of [X], if it still has them, are exchanged. *)
Definition used_up (X : string -> Prop) s : Prop :=
  devices_coherent (ds_devices s) /\ forall h rec, X h -> device_of h s = Some rec -> da_State rec = DeviceFlowExchanged.

(** What a write of a record has to respect. *)
Definition may_write (X : string -> Prop) (r : DeviceAuthorization) s : Prop :=
  (forall rec, device_of (da_DeviceCodeHash r) s = Some rec -> da_UserCode rec = da_UserCode r) /\
  (X (da_DeviceCodeHash r) -> da_State r = DeviceFlowExchanged).

Lemma used_up_write X r s : used_up X s -> may_write X r s -> used_up X (update_device r s).2.
Proof.
  intros [Hc Hx] [Hu Hst]. destruct (Update_coherent r (ds_devices s) Hc Hu) as [Hc' Ho]. split; [exact Hc'|].
  intros h rec Hxh Hrec. destruct (decide (h = da_DeviceCodeHash r)) as [->|Hne].
  - unfold device_of in Hrec. simpl in Hrec. rewrite device_Update_find in Hrec. injection Hrec as <-. by apply Hst.
  - apply (Hx h); [done|]. unfold device_of in *. simpl in Hrec. by rewrite Ho in Hrec.
Qed.

Lemma may_write_found X h s rec r : used_up X s -> device_of h s = Some rec -> da_State rec <> DeviceFlowExchanged ->
  da_DeviceCodeHash r = da_DeviceCodeHash rec -> da_UserCode r = da_UserCode rec -> may_write X r s.
Proof.
  intros [Hc Hx] Hf Hst Hh Hu. destruct (find_shape _ _ _ Hc Hf) as (p & _ & _ & Hk & _). split.
  - intros rec'. rewrite Hh, Hk, Hf. by intros [= <-].
  - rewrite Hh, Hk. intros HX. by destruct (Hst (Hx h rec HX Hf)).
Qed.

(** *** The use cases keep what is used up *)

(** A step that leaves the store alone, and the rest after it. *)
Lemma still_bind {A B} (P : DeviceStores -> Prop) (m : eff DeviceStores oauth_event (failure memory_error) A) (k : A -> eff DeviceStores oauth_event (failure memory_error) B) s :
  P s -> (m s).1.2 = s -> (forall a, (m s).1.1 = Ok a -> P (k a s).1.2) -> P (eff_bind m k s).1.2.
Proof.
  intros Hs Hm Hk. unfold eff_bind. destruct (m s) as [[[a|e] s1] w1]; cbn in Hm, Hk; subst s1; [|done].
  specialize (Hk a eq_refl). by destruct (k a s) as [[r s2] w2].
Qed.

Lemma call_update {A} (P : DeviceStores -> Prop) r (k : unit -> eff DeviceStores oauth_event (failure memory_error) A) s :
  P (update_device r s).2 -> (forall s1, s1 = (update_device r s).2 -> P s1 -> P (k tt s1).1.2) -> P (eff_bind (call PortError (update_device r)) k s).1.2.
Proof.
  intros Hu Hk. set (s1 := (update_device r s).2) in *. rewrite (eff_bind_pure (call PortError (update_device r)) k s tt s1) by reflexivity. by apply Hk.
Qed.

Lemma request_keeps X d tenantID in_ now random1 random2 s :
  (forall code, GenerateDeviceCode (E := memory_error) random1 = Ok code -> ~ X (HashDeviceCode code) /\ device_of (HashDeviceCode code) s = None) ->
  used_up X s -> used_up X (RequestDeviceAuthorization d tenantID in_ now random1 random2 s).1.2.
Proof.
  intros Hfresh Hs. unfold RequestDeviceAuthorization.
  apply still_bind; [done|reflexivity|]. intros [client|] _; [|done]. cbn beta iota.
  destruct (negb _ || negb _); [done|]. apply still_bind; [done|reflexivity|]. intros code Hcode.
  apply still_bind; [done|reflexivity|]. intros ucode _. destruct (negb _); [done|]. apply still_bind; [done|reflexivity|]. intros [] _.
  destruct (Hfresh code Hcode) as [HX Hnone].
  apply (call_update (used_up X)); [|intros s1 _ Hs1; by apply still_bind].
  apply used_up_write; [done|]. split; cbn [da_DeviceCodeHash]; [|done]. intros rec. by rewrite Hnone.
Qed.

(** What a decision read: the current record, whose state is at most one step on. *)
Lemma read_user_code_spec X d tenantID userCode now s : used_up X s ->
  (read_user_code d tenantID userCode now s).1.2 = s /\
  forall rec, (read_user_code d tenantID userCode now s).1.1 = Ok rec ->
    exists old, device_of (da_DeviceCodeHash rec) s = Some old /\ da_DeviceCodeHash rec = da_DeviceCodeHash old /\ da_UserCode rec = da_UserCode old /\
      (da_State old = DeviceFlowExchanged -> da_State rec = DeviceFlowExchanged).
Proof.
  intros [Hc _]. unfold read_user_code.
  erewrite eff_bind_pure by (unfold call; simpl; unfold on_devices; by destruct s).
  destruct (FindByUserCode (NormalizeUserCode userCode) (ds_devices s)) as [old|] eqn:Hf; [|done].
  destruct (find_user_shape _ _ _ Hc Hf) as [Hold _]. destruct (da_TenantID old <>? tenantID); [done|].
  destruct (IsDeviceExpired old now); [done|]. destruct (da_State old =? DeviceFlowIssued) eqn:Hst.
  - unfold eff_bind, lift. destruct (decide_transition _ _) as [next|e]; [|done]. split; [done|]. intros rec [= <-]. exists old.
    split_and!; [exact Hold|done..|]. go_bool. intros Heq. rewrite Hst in Heq. discriminate Heq.
  - split; [done|]. intros rec [= <-]. by exists old.
Qed.

Lemma no_way_back event e : decide_transition (E := memory_error) DeviceFlowExchanged event = e -> exists f, e = Err f.
Proof.
  intros <-. unfold decide_transition, TransitionDeviceCodeFlow, lookup_transition.
  destruct (search deviceCodeFlowTransitions DeviceFlowExchanged event) as [t|] eqn:Hs; [|by eexists].
  exfalso. apply search_in in Hs. unfold deviceCodeFlowTransitions in Hs.
  repeat (apply elem_of_cons in Hs as [Hs|Hs]; [discriminate Hs|]). by apply elem_of_nil in Hs.
Qed.

(** The write of a decision on a record that was read from this store. *)
Lemma decision_keeps X rec old state event state' (w : oauth_event) (sub : option string) authTime s :
  used_up X s -> device_of (da_DeviceCodeHash rec) s = Some old -> da_DeviceCodeHash rec = da_DeviceCodeHash old -> da_UserCode rec = da_UserCode old ->
  (da_State old = DeviceFlowExchanged -> da_State rec = DeviceFlowExchanged) ->
  decide_transition (E := memory_error) (da_State rec) event = Ok state ->
  used_up X ((do! call (PortError (E := memory_error)) (update_device (da_with (da_TenantID rec) state' sub authTime (da_IntervalSeconds rec)
             (da_LastPolledAt rec) (da_IssuedFamilyID rec) rec)) in emit w) s).1.2.
Proof.
  intros Hs Hold Hh Hu Hst Hd. apply (call_update (used_up X)); [|intros s1 _ Hs1; exact Hs1].
  apply used_up_write; [done|]. apply (may_write_found X (da_DeviceCodeHash rec) s old); [done..| |done|done].
  intros Hx. rewrite (Hst Hx) in Hd. by apply no_way_back in Hd as [].
Qed.

Lemma approve_keeps X d tenantID userCode sub now s : used_up X s -> used_up X (ApproveUserCode d tenantID userCode sub now s).1.2.
Proof.
  intros Hs. unfold ApproveUserCode, approve_read. destruct (read_user_code_spec X d tenantID userCode (the_time d now) s Hs) as [Hread Hrec].
  destruct (read_user_code d tenantID userCode (the_time d now) s) as [[[rec|e] s1] w1] eqn:Hrun; cbn in Hread, Hrec; subst s1.
  2:{ unfold eff_bind. by rewrite Hrun. }
  destruct (Hrec rec eq_refl) as (old & Hold & Hh & Hu & Hst). unfold eff_bind at 1, eff_bind at 1. rewrite Hrun. unfold eff_bind at 1, lift.
  destruct (decide_transition (da_State rec) DeviceEventApprove) as [state|e] eqn:Hd; [|exact Hs]. cbn beta iota.
  unfold approve_write. cbn [eff_ret].
  pose proof (decision_keeps X rec old state _ state (DeviceAuthorizationApproved (the_time d now) (da_TenantID rec) (da_ClientID rec) sub)
    (Some sub) (Some (Unix (the_time d now))) s Hs Hold Hh Hu Hst Hd) as Hkeep.
  exact Hkeep.
Qed.

Lemma deny_keeps X d tenantID userCode sub now s : used_up X s -> used_up X (DenyUserCode d tenantID userCode sub now s).1.2.
Proof.
  intros Hs. unfold DenyUserCode. destruct (read_user_code_spec X d tenantID userCode (the_time d now) s Hs) as [Hread Hrec].
  apply still_bind; [done|exact Hread|]. intros rec Hok. destruct (Hrec rec Hok) as (old & Hold & Hh & Hu & Hst).
  apply still_bind; [done|reflexivity|]. intros state Hd. cbn in Hd.
  exact (decision_keeps X rec old state _ state (DeviceAuthorizationDenied (the_time d now) (da_TenantID rec) (da_ClientID rec) sub)
    (da_UserID rec) (da_AuthTime rec) s Hs Hold Hh Hu Hst Hd).
Qed.

(** The device that was exchanged is the only one whose record the tokens change. *)
Definition current X (rec : DeviceAuthorization) s : Prop :=
  used_up X s /\ exists cur, device_of (da_DeviceCodeHash rec) s = Some cur /\ da_UserCode cur = da_UserCode rec.

Lemma device_tokens_keeps X d tenantID in_ client user rec now random : da_State rec = DeviceFlowExchanged ->
  keeps (current X rec) (device_tokens (S := DeviceStores) d tenantID in_ client user rec now random).
Proof.
  intros Hst. unfold device_tokens. destruct (ExchangeScopes _ _) as [scopes issue]. unfold device_refresh. keeps_steps.
  - intros s Hs. exact Hs.
  - match goal with |- forall s, _ -> current X rec (update_device ?r s).2 => set (r' := r) end.
    intros s [Hs (cur & Hcur & Huc)]. split.
    + apply used_up_write; [done|]. split; [|done]. intros x Hx. change (device_of (da_DeviceCodeHash rec) s = Some x) in Hx. rewrite Hcur in Hx. by injection Hx as <-.
    + exists (stored_device r'). split; [exact (device_Update_find r' (ds_devices s))|done].
Qed.

Lemma exchange_keeps X d tenantID in_ now random s : used_up X s ->
  used_up X (ExchangeDeviceCode d tenantID in_ now random s).1.2.
Proof.
  intros Hs. unfold ExchangeDeviceCode. set (hash := HashDeviceCode (xi_DeviceCode in_)).
  apply still_bind; [done|by destruct s|]. intros [rec|] Hrec; [|done]. cbn beta iota.
  assert (Hf : device_of hash s = Some rec) by (injection Hrec as Hrec; exact Hrec).
  destruct (da_TenantID rec <>? tenantID); [done|]. destruct (da_ClientID rec <>? xi_ClientID in_); [done|].
  destruct (IsDeviceExpired rec _); [done|]. destruct ((da_State rec =? DeviceFlowIssued) || _) eqn:Hpend.
  { rewrite poll_pending_run. apply (used_up_write X _ s Hs), (may_write_found X hash s rec); [done..| |done|done].
    intros Hx. rewrite Hx in Hpend. discriminate Hpend. }
  destruct (da_State rec =? DeviceFlowDenied); [done|]. destruct (da_State rec =? DeviceFlowExchanged); [done|].
  destruct (da_State rec <>? DeviceFlowApproved); [done|]. unfold device_commit. fold hash.
  destruct Hs as [Hc HX]. destruct (Exchange_coherent hash (ds_devices s) Hc) as [Hc' Ho].
  destruct (device_Exchange_cases hash (ds_devices s)) as [Hn|(rec0 & t' & Hr0 & Hst & Hx & Hf')].
  - erewrite eff_bind_pure by (unfold call; simpl; unfold on_devices; rewrite Hn; reflexivity). by destruct s.
  - rewrite Hx in Hc', Ho. cbn [snd] in Hc', Ho.
    erewrite eff_bind_pure by (unfold call; simpl; unfold on_devices; rewrite Hx; reflexivity). cbn beta iota.
    set (s1 := Build_DeviceStores t' (ds_refresh s)). set (rec1 := da_set_state DeviceFlowExchanged rec0) in *.
    assert (Hkey : da_DeviceCodeHash rec1 = hash) by (destruct (find_shape _ _ _ Hc Hr0) as (p & _ & _ & Hk & _); exact Hk).
    assert (Hcur : current X rec1 s1).
    { split; [split; [exact Hc'|]|exists rec1; by rewrite Hkey].
      intros h x HXh Hx1. destruct (decide (h = hash)) as [->|Hne].
      - unfold device_of, s1 in Hx1. cbn [ds_devices] in Hx1. rewrite Hf' in Hx1. by injection Hx1 as <-.
      - apply (HX h); [done|]. unfold device_of, s1 in Hx1. cbn [ds_devices] in Hx1. by rewrite Ho in Hx1. }
    match goal with |- used_up X (?m s1).1.2 => enough (Hk : keeps (current X rec1) m) by exact (proj1 (Hk s1 Hcur)) end.
    keeps_steps; by apply device_tokens_keeps.
Qed.

(** What an exchange that succeeds found, and what it leaves. *)
Lemma exchange_success d tenantID in_ now random s out s' w :
  devices_keyed s ->
  ExchangeDeviceCode d tenantID in_ now random s = (Ok out, s', w) ->
  (exists rec sub user,
     device_of (HashDeviceCode (xi_DeviceCode in_)) s = Some rec /\ da_State rec = DeviceFlowApproved /\
     da_TenantID rec = tenantID /\ da_ClientID rec = xi_ClientID in_ /\ (the_time d now < da_ExpiresAt rec)%Z /\
     da_UserID rec = Some sub /\ dd_UserRepo d sub = Ok (Some user) /\ user_TenantID user = tenantID /\
     user_IsActive user = true) /\
  exists rec', device_of (HashDeviceCode (xi_DeviceCode in_)) s' = Some rec' /\ da_State rec' = DeviceFlowExchanged.
Proof.
  intros Hkeyed Hrun. unfold ExchangeDeviceCode in Hrun. set (hash := HashDeviceCode (xi_DeviceCode in_)) in *.
  apply eff_bind_Ok in Hrun as (orec & s1 & w1 & w2 & Hf & Hrun & ->).
  assert (Hs : s1 = s /\ w1 = [] /\ orec = device_of hash s) by (by destruct s; injection Hf as <- <- <-).
  destruct Hs as (-> & -> & Horec). destruct orec as [rec|]; [|done]. symmetry in Horec.
  destruct (da_TenantID rec <>? tenantID) eqn:Ht; [done|].
  destruct (da_ClientID rec <>? xi_ClientID in_) eqn:Hc; [done|].
  destruct (IsDeviceExpired rec (the_time d now)) eqn:He; [done|].
  destruct ((da_State rec =? DeviceFlowIssued) || _).
  { unfold poll_pending in Hrun. destruct (too_early _ _);
      by apply eff_bind_Ok in Hrun as (? & ? & ? & ? & _ & Hrun & _). }
  destruct (da_State rec =? DeviceFlowDenied); [done|]. destruct (da_State rec =? DeviceFlowExchanged); [done|].
  destruct (da_State rec <>? DeviceFlowApproved) eqn:Hst; [done|]. go_bool.
  unfold device_commit in Hrun. fold hash in Hrun.
  apply eff_bind_Ok in Hrun as (oex & s2 & w3 & w4 & Hx & Hrun & ->).
  unfold call in Hx. simpl in Hx. unfold on_devices in Hx.
  destruct (device_Exchange_cases hash (ds_devices s)) as [Hn|(rec0 & t' & Hr0 & _ & Hx' & Hf')].
  { rewrite Hn in Hx. injection Hx as <- <- <-. done. }
  rewrite Hx' in Hx. injection Hx as <- <- <-. assert (rec0 = rec) as -> by (unfold device_of in Horec; congruence).
  apply eff_bind_Ok in Hrun as (oc & s3 & w5 & w6 & Hcl & Hrun & ->). injection Hcl as Hcl <- <-.
  destruct oc as [client|]; [|done]. simpl in Hrun. destruct (da_UserID rec) as [sub|] eqn:Hsub; [|done].
  apply eff_bind_Ok in Hrun as (ou & s3 & w5 & w7 & Hu & Hrun & ->). injection Hu as Hu <- <-.
  destruct (dd_UserRepo d sub) as [ou'|] eqn:Hrepo; [|done]. injection Hu as ->. destruct ou as [user|]; [|done].
  destruct (user_TenantID user <>? tenantID) eqn:Hut; [done|]. destruct (negb (user_IsActive user)) eqn:Hua; [done|].
  go_bool. assert (Hkey : da_DeviceCodeHash (da_set_state DeviceFlowExchanged rec) = hash) by (by apply (Hkeyed hash rec)).
  apply device_tokens_state in Hrun as (rec' & Hrec' & Hst'); [|rewrite Hkey; exact Hf']. rewrite Hkey in Hrec'.
  split; [|by exists rec']. exists rec, sub, user. unfold IsDeviceExpired, Before in He.
  rewrite bool_decide_false in He by (rewrite Hst; done). go_bool. by split_and!.
Qed.

(** A device that is unknown is refused. *)
Lemma unknown_refused d tenantID in_ now random s :
  device_of (HashDeviceCode (xi_DeviceCode in_)) s = None ->
  exists e, ExchangeDeviceCode d tenantID in_ now random s = (Err e, s, []).
Proof.
  intros Hf. unfold ExchangeDeviceCode. eexists.
  erewrite eff_bind_pure by (unfold call; simpl; unfold on_devices; fold (device_of (HashDeviceCode (xi_DeviceCode in_)) s); rewrite Hf; by destruct s).
  reflexivity.
Qed.

(** *** Everything that changes the devices

    The complete use cases, with any configuration, tenant, input and time, the
    deletion of a user, and whatever else happens to the refresh tokens.  A request
    draws a device code that is not filed and is none of the hashes of [X]. *)
Inductive device_step (X : string -> Prop) : DeviceStores -> DeviceStores -> Prop :=
| step_request d tenantID in_ now random1 random2 s :
    (forall code, GenerateDeviceCode (E := memory_error) random1 = Ok code -> ~ X (HashDeviceCode code) /\ device_of (HashDeviceCode code) s = None) ->
    device_step X s (RequestDeviceAuthorization d tenantID in_ now random1 random2 s).1.2
| step_approve d tenantID userCode sub now s : device_step X s (ApproveUserCode d tenantID userCode sub now s).1.2
| step_deny d tenantID userCode sub now s : device_step X s (DenyUserCode d tenantID userCode sub now s).1.2
| step_exchange d tenantID in_ now random s : device_step X s (ExchangeDeviceCode d tenantID in_ now random s).1.2
| step_delete_user sub s : device_step X s {| ds_devices := device_DeleteAllForSub sub (ds_devices s); ds_refresh := ds_refresh s |}
| step_refresh tokens s : device_step X s {| ds_devices := ds_devices s; ds_refresh := tokens |}.

Lemma device_step_keeps X s s' : device_step X s s' -> used_up X s -> used_up X s'.
Proof.
  intros Hstep Hs. destruct Hstep.
  - by apply request_keeps.
  - by apply approve_keeps.
  - by apply deny_keeps.
  - by apply exchange_keeps.
  - destruct Hs as [Hc Hx]. destruct (DeleteAll_coherent sub (ds_devices s) Hc) as [Hc' Hf]. split; [exact Hc'|].
    intros h rec HX Hrec. apply (Hx h); [done|]. by apply Hf.
  - exact Hs.
Qed.

Lemma device_steps_keep X s s' : rtc (device_step X) s s' -> used_up X s -> used_up X s'.
Proof. induction 1; [done|]. eauto using device_step_keeps. Qed.

Lemma used_up_empty X tokens : used_up X {| ds_devices := NewDeviceCodeStore; ds_refresh := tokens |}.
Proof. split; [by constructor|done]. Qed.

(** C8. However the stores came about from an empty one, a successful exchange
    presented the code of a device of this tenant and client that the user had
    approved, before it expired, for an active user of the tenant; and the code is
    then used up: after any further requests, approvals, denials, exchanges and
    deletions, every exchange of it, by whomever and whenever, is refused, changes
    nothing and emits nothing.  Approvals and denials are complete here: one that
    read the record before the exchange and writes after it is the bug of
    [stale_approval_reopens]. *)
Theorem ExchangeDeviceCode_once tokens d tenantID in_ now random s out s' w :
  rtc (device_step (fun _ => False)) {| ds_devices := NewDeviceCodeStore; ds_refresh := tokens |} s ->
  ExchangeDeviceCode d tenantID in_ now random s = (Ok out, s', w) ->
  (exists rec sub user,
     device_of (HashDeviceCode (xi_DeviceCode in_)) s = Some rec /\ da_State rec = DeviceFlowApproved /\
     da_TenantID rec = tenantID /\ da_ClientID rec = xi_ClientID in_ /\ (the_time d now < da_ExpiresAt rec)%Z /\
     da_UserID rec = Some sub /\ dd_UserRepo d sub = Ok (Some user) /\ user_TenantID user = tenantID /\
     user_IsActive user = true) /\
  forall s2, rtc (device_step (eq (HashDeviceCode (xi_DeviceCode in_)))) s' s2 ->
    forall d2 tenant2 in2 now2 random2, xi_DeviceCode in2 = xi_DeviceCode in_ ->
      exists e, ExchangeDeviceCode d2 tenant2 in2 now2 random2 s2 = (Err e, s2, []).
Proof.
  intros Hreach Hrun. pose proof (device_steps_keep _ _ _ Hreach (used_up_empty _ _)) as Hs.
  assert (Hkeyed : devices_keyed s) by (intros h rec (p & _ & _ & Hk & _)%(find_shape _ _ _ (proj1 Hs)); exact Hk).
  destruct (exchange_success d tenantID in_ now random s out s' w Hkeyed Hrun) as [Hfirst (rec' & Hrec' & Hst')]. split; [exact Hfirst|].
  pose proof (exchange_keeps _ d tenantID in_ now random s Hs) as [Hc' _]. rewrite Hrun in Hc'. cbn [fst snd] in Hc'.
  intros s2 Hlater d2 tenant2 in2 now2 random2 Heq. apply device_steps_keep in Hlater as [_ Hx].
  2:{ split; [exact Hc'|]. intros h rec <- Hrec. rewrite Hrec' in Hrec. by injection Hrec as <-. }
  destruct (device_of (HashDeviceCode (xi_DeviceCode in2)) s2) as [rec|] eqn:Hrec; [|by apply unknown_refused].
  eapply exchanged_refused; [exact Hrec|]. by apply (Hx (HashDeviceCode (xi_DeviceCode in2)) rec); [rewrite Heq|].
Qed.

(** Polling a code that waits for the user is refused, as slow_down when it comes
    before the interval has passed since the last poll and as
    authorization_pending otherwise; the record stores the time of the poll,
    and a poll that came too early lengthens the interval by five seconds. *)
Theorem device_poll d tenantID in_ now random s rec :
  device_of (HashDeviceCode (xi_DeviceCode in_)) s = Some rec -> devices_keyed s ->
  da_TenantID rec = tenantID -> tenantID <> "" -> da_ClientID rec = xi_ClientID in_ ->
  da_State rec ∈ [DeviceFlowIssued; DeviceFlowUserCodeEntered] -> (the_time d now < da_ExpiresAt rec)%Z ->
  (0 < da_IntervalSeconds rec < 1000000)%Z ->
  exists early s', 
    (early = true <-> exists last, da_LastPolledAt rec = Some last /\
       (the_time d now - last < da_IntervalSeconds rec * Second)%Z) /\
    ExchangeDeviceCode d tenantID in_ now random s =
      (Err (if early then NewOAuthError "slow_down" "polling interval is too short"
            else NewOAuthError "authorization_pending" "authorization pending"), s', []) /\
    device_of (HashDeviceCode (xi_DeviceCode in_)) s' =
      Some (polled rec (if early then da_IntervalSeconds rec + 5 else da_IntervalSeconds rec)%Z (the_time d now)).
Proof.
  intros Hf Hkeyed Ht Hne Hc Hst Hexp Hint. set (hash := HashDeviceCode (xi_DeviceCode in_)) in *.
  exists (too_early rec (the_time d now)), (after_poll rec (the_time d now) s). split; [|split].
  - unfold too_early. destruct (da_LastPolledAt rec) as [last|]; [|naive_solver].
    rewrite Z.ltb_lt. unfold Sub, wrap64, Second, max_int64, min_int64 in *.
    rewrite Z.mod_small by lia. split; [|naive_solver lia].
    intros Hlt. exists last. split; [done|]. lia.
  - unfold ExchangeDeviceCode. fold hash.
    erewrite eff_bind_pure by (unfold call; simpl; unfold on_devices; fold (device_of hash s); rewrite Hf; by destruct s).
    cbn iota beta. rewrite (bool_decide_true _ Ht), (bool_decide_true _ Hc). cbn [negb].
    replace (IsDeviceExpired rec (the_time d now)) with false.
    2:{ symmetry. unfold IsDeviceExpired, Before. rewrite bool_decide_false; [go_bool; lia|].
        intros Heq. rewrite Heq in Hst. by repeat (apply elem_of_cons in Hst as [?|Hst]; [done|]); apply elem_of_nil in Hst. }
    replace ((da_State rec =? DeviceFlowIssued) || (da_State rec =? DeviceFlowUserCodeEntered)) with true.
    2:{ symmetry. apply orb_true_iff. rewrite !bool_decide_eq_true. set_solver. }
    apply poll_pending_run.
  - pose proof (Hkeyed _ _ Hf) as Hk. rewrite <- Hk. unfold device_of, after_poll. cbn [ds_devices].
    etrans; [apply (device_Update_find (polled rec _ _))|]. f_equal. unfold stored_device, polled, DefaultScope, da_with. simpl.
    rewrite (bool_decide_false (da_TenantID rec = "")) by (by rewrite Ht).
    f_equal. destruct (too_early rec (the_time d now)); [|done]. unfold wrap64. rewrite Z.mod_small by lia. lia.
Qed.

Lemma decide_approve state next : decide_transition (E := memory_error) state DeviceEventApprove = Ok next -> next = DeviceFlowApproved.
Proof.
  unfold decide_transition, TransitionDeviceCodeFlow, lookup_transition.
  destruct (search deviceCodeFlowTransitions state DeviceEventApprove) as [t|] eqn:Hs; [|done]. intros [= <-].
  apply search_in in Hs. unfold deviceCodeFlowTransitions in Hs.
  repeat (apply elem_of_cons in Hs as [Hs|Hs]; [by injection Hs|]). by apply elem_of_nil in Hs.
Qed.

(** A code bug, as a theorem.  An approval reads the record and later writes a
    copy back without looking again.  So an approval that was submitted twice,
    the first time completed and followed by the exchange, opens the exchanged
    code again when its second write arrives: whatever the store holds by then,
    the write succeeds and the next exchange of the code succeeds too. *)
Theorem stale_approval_reopens d tenantID userCode sub now s r s0 w0 s2 used :
  approve_read d tenantID userCode sub now s = (Ok r, s0, w0) ->
  device_of (da_DeviceCodeHash r) s2 = Some used -> da_State used = DeviceFlowExchanged ->
  exists s3 w3 again,
    approve_write sub now r s2 = (Ok tt, s3, w3) /\
    (device_Exchange (da_DeviceCodeHash r) (ds_devices s3)).1 = Ok (Some again) /\
    da_ClientID again = da_ClientID r /\ da_UserID again = Some sub.
Proof.
  intros Hread Hused Hst. unfold approve_read in Hread.
  apply eff_bind_Ok in Hread as (rec & s1 & w1 & w2 & _ & Hread & ->).
  apply eff_bind_Ok in Hread as (appr & s3 & w3 & w4 & Hd & Hread & ->). injection Hd as Hd <- <-.
  apply decide_approve in Hd as ->. injection Hread as <- <- <-.
  set (r := da_with _ _ _ _ _ _ _ rec) in *.
  eexists _, _, (da_set_state DeviceFlowExchanged (stored_device r)). split; [reflexivity|]. split; [|done].
  destruct (device_Exchange_cases (da_DeviceCodeHash r) (device_Update r (ds_devices s2))) as [Hn|(rec0 & t' & Hr0 & _ & Hx & _)].
  - exfalso. unfold device_Exchange in Hn. pose proof (device_Update_find r (ds_devices s2)) as Hf.
    unfold FindByDeviceCodeHash in Hf. apply bind_Some in Hf as (p & Hp & Hq). rewrite Hp in Hn. simpl in Hn.
    simpl in Hq. rewrite Hq in Hn. done.
  - cbn [ds_devices]. rewrite Hx. rewrite device_Update_find in Hr0. by injection Hr0 as <-.
Qed.
End memory.

(** ** Witnesses: a device, its user, and a double submission *)

#[local] Instance demo_client : ClientView string :=
  {| client_ClientID c := c; client_GrantTypes _ := [GrantDeviceCode; GrantRefreshToken] |}.
#[local] Instance demo_policy : ClientPolicyView string :=
  {| client_ClientType _ := ClientPublic; client_Scope _ := "openid profile" |}.
#[local] Instance demo_user : UserView string := {| user_ID u := u; user_TenantID _ := "acme"; user_IsActive _ := true |}.

Definition demo_device_deps : DeviceDeps memory_error string string :=
  {| dd_ClientRepo _ c := Ok (Some c); dd_UserRepo u := Ok (Some u); dd_McpResourceServerRepo := None;
     dd_SignAccessToken inp := Ok ("access." ++ at_Sub inp, "jti"); dd_SignIDToken _ := Ok "id";
     dd_AccessTokenTTLSeconds := 300; BaseVerification := "https://idp/device"; dd_clock := 1%Z |}.

Definition demo_empty : DeviceStores := {| ds_devices := NewDeviceCodeStore; ds_refresh := NewRefreshTokenStore |}.

Definition demo_no_draws : result memory_error draws := Ok (draws_of 1 "1" "f").

(** The device asks for a code. *)
Definition demo_request :=
  RequestDeviceAuthorization demo_device_deps "acme" {| di_ClientID := "tv"; di_Scope := "openid profile" |} 1%Z
    (Ok (repeat 7%N 32)) (Ok [0; 1; 2; 3; 4; 5; 6; 7]%nat) demo_empty.
Definition demo_issued_store : DeviceStores := demo_request.1.2.

Definition demo_device_input : ExchangeDeviceCodeInput :=
  {| xi_ClientID := "tv"; xi_DeviceCode := EncodeToString (string_of_bytes (repeat 7%N 32)); xi_ProofJKT := "";
     xi_ProofX5TS256 := ""; xi_Resource := [] |}.

(** The user approves and the device exchanges. *)
Definition demo_approved : DeviceStores := (ApproveUserCode demo_device_deps "acme" "bcdf ghjk" "alice" 2%Z demo_issued_store).1.2.
Definition demo_device_run := ExchangeDeviceCode demo_device_deps "acme" demo_device_input 3%Z demo_no_draws demo_approved.

Definition demo_device_output : ExchangeDeviceCodeResult :=
  {| xr_AccessToken := "access.alice"; xr_RefreshToken := ""; xr_IDToken := "id"; xr_TokenType := "Bearer";
     xr_ExpiresIn := 300; xr_Scope := "openid profile" |}.

Definition demo_hash : string := HashDeviceCode (xi_DeviceCode demo_device_input).

(** The stores with one device, whatever its record. *)
Lemma one_device_keyed (s : DeviceStores) p rec :
  dbyHash (ds_devices s) = {[da_DeviceCodeHash rec := p]} -> dheap (ds_devices s) !! p = Some rec -> devices_keyed s.
Proof.
  intros Hh Hp hash rec'. unfold device_of, FindByDeviceCodeHash. rewrite Hh. intros (q & Hq & Hr)%bind_Some.
  apply lookup_singleton_Some in Hq as [<- <-]. congruence.
Qed.

Definition device_at (p : nat) (s : DeviceStores) : DeviceAuthorization :=
  default (da_with "" "" None None 0 None None
    {| da_DeviceCodeHash := ""; da_TenantID := ""; da_UserCode := ""; da_ClientID := ""; da_Scopes := []; da_State := "";
       da_UserID := None; da_AuthTime := None; da_IntervalSeconds := 0; da_LastPolledAt := None;
       da_IssuedFamilyID := None; da_IssuedAt := 0%Z; da_ExpiresAt := 0%Z |}) (dheap (ds_devices s) !! p).

Lemma demo_approved_keyed : devices_keyed demo_approved.
Proof. apply (one_device_keyed demo_approved 1%nat (device_at 1 demo_approved)); vm_compute; reflexivity. Qed.

Lemma demo_issued_keyed : devices_keyed demo_issued_store.
Proof. apply (one_device_keyed demo_issued_store 0%nat (device_at 0 demo_issued_store)); vm_compute; reflexivity. Qed.

Lemma demo_device_runs :
  ExchangeDeviceCode demo_device_deps "acme" demo_device_input 3%Z demo_no_draws demo_approved =
  (Ok demo_device_output, demo_device_run.1.2, demo_device_run.2).
Proof. vm_compute. reflexivity. Qed.

(** The request of the device and the approval of the user. *)
Lemma demo_approved_reached :
  rtc (device_step (C := string) (U := string) (fun _ => False)) demo_empty demo_approved.
Proof.
  eapply rtc_l; [|apply rtc_once; exact (step_approve (fun _ => False) demo_device_deps "acme" "bcdf ghjk" "alice" 2%Z demo_issued_store)].
  apply step_request. intros code _. split; [by intros []|]. reflexivity.
Qed.

(** Afterwards the user denies the code and approves it once more. *)
Definition demo_denied : DeviceStores := (DenyUserCode demo_device_deps "acme" "BCDFGHJK" "alice" 4%Z demo_device_run.1.2).1.2.
Definition demo_again : DeviceStores := (ApproveUserCode demo_device_deps "acme" "BCDFGHJK" "alice" 5%Z demo_denied).1.2.

Lemma demo_second_thoughts X (s : DeviceStores) :
  rtc (device_step (C := string) (U := string) X) s
    (ApproveUserCode demo_device_deps "acme" "BCDFGHJK" "alice" 5%Z (DenyUserCode demo_device_deps "acme" "BCDFGHJK" "alice" 4%Z s).1.2).1.2.
Proof. eapply rtc_l; [apply step_deny|]. apply rtc_once, step_approve. Qed.

Lemma ExchangeDeviceCode_once_witness :
  demo_device_run.1.1 = Ok demo_device_output /\
  exists e, ExchangeDeviceCode demo_device_deps "acme" demo_device_input 6%Z demo_no_draws demo_again =
    (Err e, demo_again, []).
Proof.
  split; [vm_compute; reflexivity|].
  apply (proj2 (ExchangeDeviceCode_once NewRefreshTokenStore demo_device_deps "acme" demo_device_input 3%Z demo_no_draws demo_approved demo_device_output
    demo_device_run.1.2 demo_device_run.2 demo_approved_reached demo_device_runs) demo_again (demo_second_thoughts _ demo_device_run.1.2)). reflexivity.
Defined.

Lemma device_poll_witness :
  exists (early : bool) s',
    ExchangeDeviceCode demo_device_deps "acme" demo_device_input 2%Z demo_no_draws demo_issued_store =
      (Err (if early then NewOAuthError "slow_down" "polling interval is too short"
            else NewOAuthError "authorization_pending" "authorization pending"), s', []).
Proof.
  destruct (device_poll demo_device_deps "acme" demo_device_input 2%Z demo_no_draws demo_issued_store
    (device_at 0 demo_issued_store)) as (early & s' & _ & Hrun & _).
  - vm_compute. reflexivity.
  - exact demo_issued_keyed.
  - vm_compute. reflexivity.
  - discriminate.
  - vm_compute. reflexivity.
  - apply (bool_decide_unpack _). vm_compute. exact I.
  - vm_compute. reflexivity.
  - vm_compute. split; reflexivity.
  - exists early, s'. exact Hrun.
Defined.

(** The second submission read the record before the first one wrote. *)
Definition demo_stale : DeviceAuthorization :=
  da_with "acme" DeviceFlowApproved (Some "alice") (Some (Unix 2%Z)) 5 None None (device_at 0 demo_issued_store).

Lemma stale_approval_reopens_witness :
  demo_device_run.1.1 = Ok demo_device_output /\
  exists s3 w3 again,
    approve_write "alice" 2%Z demo_stale demo_device_run.1.2 = (Ok tt, s3, w3) /\
    (device_Exchange demo_hash (ds_devices s3)).1 = Ok (Some again) /\ da_UserID again = Some "alice".
Proof.
  split; [vm_compute; reflexivity|].
  destruct (stale_approval_reopens demo_device_deps "acme" "bcdf ghjk" "alice" 2%Z demo_issued_store demo_stale
    demo_issued_store [] demo_device_run.1.2 (device_at 1 demo_device_run.1.2))
    as (s3 & w3 & again & Hw & Hx & _ & Hu); [vm_compute; reflexivity..|].
  exists s3, w3, again. split; [exact Hw|]. split; [|exact Hu].
  enough (demo_hash = da_DeviceCodeHash demo_stale) as -> by exact Hx. vm_compute. reflexivity.
Defined.
