(* ===== verification/Keyset.v ===== *)
(** * Shared storage: keyset pages

    [backend/shared/storage/db_memory]: the pagination that every memory
    repository shares.  [slices.SortFunc] may order items of equal keys as it
    likes; the theorems are about distinct keys, as those of a map are. *)

From Stdlib Require Import Ascii String ZArith Lia.
From stdpp Require Import base strings list sorting.
From S2P Require Import Prelude.

Local Open Scope string_scope.
Local Open Scope go_scope.

Definition DefaultScope (scope fallback : string) : string := if scope =? "" then fallback else scope.
Definition ScopedKey (scope id fallback : string) : string := DefaultScope scope fallback ++ "|" ++ id.

Section pages.
Context {T : Type} (key : T -> string * string) (desc : bool).

Definition cmpKey (k1 k2 : string * string) : comparison :=
  let c := match String.compare k1.1 k2.1 with Eq => String.compare k1.2 k2.2 | c => c end in
  if desc then CompOpp c else c.

Definition key_le (a b : T) : Prop := cmpKey (key a) (key b) <> Gt.
#[export] Instance key_le_dec : RelDecision key_le.
Proof. intros a b. unfold key_le. destruct (cmpKey _ _); [left|left|right]; congruence. Defined.

(** [slices.BinarySearchFunc] on a sorted slice: the first item that is not
    before the target, and whether it is the target. *)
Fixpoint search (k : string * string) (l : list T) : nat * bool :=
  match l with
  | [] => (0, false)
  | x :: l' => match cmpKey (key x) k with
               | Lt => let '(idx, found) := search k l' in (S idx, found)
               | Eq => (0, true)
               | Gt => (0, false)
               end
  end.

Definition is_start (k : string * string) : bool := (k.1 =? "") && (k.2 =? "").

Definition KeysetPage (items : list T) (after : string * string) (limit : nat) : list T :=
  let items := merge_sort key_le items in
  let items := if negb (is_start after)
               then let '(idx, found) := search after items in drop (if found then S idx else idx) items
               else items in
  if (0 <? limit)%nat then take limit items else items.

Definition KeysetPageBefore (items : list T) (before : string * string) (limit : nat) : list T :=
  let items := merge_sort key_le items in
  let items := if negb (is_start before) then take (search before items).1 items else items in
  if (0 <? limit)%nat && (limit <? length items)%nat then drop (length items - limit) items else items.

(** A client that follows the pages: it asks for the page after the last item
    it has seen, until a page is empty. *)
Fixpoint follow (fuel : nat) (items : list T) (after : string * string) (limit : nat) : list T :=
  match fuel with
  | O => []
  | S fuel =>
      match KeysetPage items after limit with
      | [] => []
      | page => page ++ follow fuel items (List.last (map key page) after) limit
      end
  end%list.

(** ** The order of keys *)

Lemma compare_refl s : String.compare s s = Eq.
Proof. pose proof (String.compare_antisym s s) as H. by destruct (String.compare s s). Qed.

Lemma cmpKey_refl k : cmpKey k k = Eq.
Proof. unfold cmpKey. rewrite !compare_refl. by destruct desc. Qed.

Lemma cmpKey_Eq k1 k2 : cmpKey k1 k2 = Eq -> k1 = k2.
Proof.
  unfold cmpKey. destruct k1 as [p1 i1], k2 as [p2 i2]. simpl.
  destruct (String.compare p1 p2) eqn:Hp; [|by destruct desc..]. apply String.compare_eq_iff in Hp as ->.
  destruct (String.compare i1 i2) eqn:Hi; [|by destruct desc..]. by apply String.compare_eq_iff in Hi as ->.
Qed.

Lemma cmpKey_antisym k1 k2 : cmpKey k1 k2 = CompOpp (cmpKey k2 k1).
Proof.
  unfold cmpKey. rewrite (String.compare_antisym k1.1 k2.1), (String.compare_antisym k1.2 k2.2).
  by destruct (String.compare k2.1 k1.1), (String.compare k2.2 k1.2), desc.
Qed.

Lemma String_le_compare s t : String.le s t <-> String.compare s t <> Gt.
Proof. unfold String.le, String.leb. by destruct (String.compare s t). Qed.

Lemma compare_Lt_le s t : String.compare s t = Lt <-> String.le s t /\ s <> t.
Proof.
  rewrite String_le_compare. split.
  - intros H. rewrite H. split; [done|]. intros ->. by rewrite compare_refl in H.
  - intros [H Hne]. destruct (String.compare s t) eqn:Hc; [|done|done]. by apply String.compare_eq_iff in Hc.
Qed.

Lemma compare_trans s t u : String.compare s t = Lt -> String.compare t u = Lt -> String.compare s u = Lt.
Proof.
  rewrite !compare_Lt_le. intros [H1 N1] [H2 N2]. split; [by etrans|]. intros ->. apply N1. by apply (anti_symm String.le).
Qed.

Definition lex (k1 k2 : string * string) : comparison :=
  match String.compare k1.1 k2.1 with Eq => String.compare k1.2 k2.2 | c => c end.

Lemma lex_trans k1 k2 k3 : lex k1 k2 = Lt -> lex k2 k3 = Lt -> lex k1 k3 = Lt.
Proof.
  unfold lex. destruct (String.compare k1.1 k2.1) eqn:H1; [|intros _|done].
  - apply String.compare_eq_iff in H1. rewrite H1. intros Ha. destruct (String.compare k2.1 k3.1); [|done|done].
    by apply compare_trans.
  - destruct (String.compare k2.1 k3.1) eqn:H2; [|intros _|done].
    + apply String.compare_eq_iff in H2. rewrite <- H2, H1. done.
    + by rewrite (compare_trans _ _ _ H1 H2).
Qed.

Lemma cmpKey_trans k1 k2 k3 : cmpKey k1 k2 = Lt -> cmpKey k2 k3 = Lt -> cmpKey k1 k3 = Lt.
Proof.
  pose proof (lex_trans k1 k2 k3) as Hup. pose proof (lex_trans k3 k2 k1) as Hdown.
  assert (Ha : forall a b, lex a b = CompOpp (lex b a)).
  { intros a b. unfold lex. rewrite (String.compare_antisym a.1 b.1), (String.compare_antisym a.2 b.2).
    by destruct (String.compare b.1 a.1), (String.compare b.2 a.2). }
  unfold cmpKey. fold (lex k1 k2) (lex k2 k3) (lex k1 k3). destruct desc; [|done].
  rewrite <- !Ha. auto.
Qed.

Definition before (a b : T) : Prop := cmpKey (key a) (key b) = Lt.

#[export] Instance before_trans : Transitive before.
Proof. intros a b c. apply cmpKey_trans. Qed.

#[export] Instance key_le_trans : Transitive key_le.
Proof.
  intros a b c. unfold key_le. destruct (cmpKey (key a) (key b)) eqn:Hab; [|intros _|done].
  - by apply cmpKey_Eq in Hab as ->.
  - destruct (cmpKey (key b) (key c)) eqn:Hbc; [| |done].
    + apply cmpKey_Eq in Hbc as <-. intros _. by rewrite Hab.
    + by rewrite (cmpKey_trans _ _ _ Hab Hbc).
Qed.

#[export] Instance key_le_total : Total key_le.
Proof.
  intros a b. unfold key_le. rewrite (cmpKey_antisym (key b) (key a)). destruct (cmpKey (key a) (key b)); auto.
Qed.

(** Of distinct keys the sorted items are strictly ordered. *)
Lemma sorted_items items : NoDup (map key items) ->
  StronglySorted before (merge_sort key_le items) /\ NoDup (map key (merge_sort key_le items)).
Proof.
  intros Hn. assert (Hn' : NoDup (map key (merge_sort key_le items))) by (by rewrite merge_sort_Permutation).
  split; [|done]. pose proof (StronglySorted_merge_sort key_le items) as Hs. revert Hn'.
  induction Hs as [|x l Hs IH Hx]; [by constructor|]. cbn [map]. rewrite NoDup_cons. intros [Hni Hn']. constructor; [by apply IH|].
  apply Forall_forall. intros y Hy. rewrite Forall_forall in Hx. specialize (Hx y Hy). unfold key_le in Hx. unfold before.
  destruct (cmpKey (key x) (key y)) eqn:Hc; [|done|done]. apply cmpKey_Eq in Hc. destruct Hni. rewrite Hc.
  by apply list_elem_of_fmap_2.
Qed.

(** ** Pages *)

Lemma search_at xs y ys : StronglySorted before (xs ++ y :: ys)%list -> search (key y) (xs ++ y :: ys)%list = (length xs, true).
Proof.
  induction xs as [|x xs IH]; simpl; intros Hs.
  - by rewrite cmpKey_refl.
  - apply StronglySorted_inv in Hs as [Hs Hx]. rewrite Forall_app, Forall_cons in Hx. destruct Hx as (_ & Hx & _).
    unfold before in Hx. by rewrite Hx, IH.
Qed.

Definition page_of (limit : nat) (l : list T) : list T := if (0 <? limit)%nat then take limit l else l.

Lemma KeysetPage_first items limit : KeysetPage items ("", "") limit = page_of limit (merge_sort key_le items).
Proof. done. Qed.

(** The page after an item is what follows it. *)
Lemma KeysetPage_after items xs y ys limit :
  NoDup (map key items) -> key y <> ("", "") -> merge_sort key_le items = (xs ++ y :: ys)%list ->
  KeysetPage items (key y) limit = page_of limit ys.
Proof.
  intros Hn Hy Hs. destruct (sorted_items items Hn) as [Hss _]. unfold KeysetPage. rewrite Hs in *.
  replace (is_start (key y)) with false.
  - cbn [negb]. rewrite search_at by done. change (xs ++ y :: ys)%list with (xs ++ [y] ++ ys)%list.
    rewrite app_assoc, drop_app_length'; [done|]. rewrite length_app. simpl. lia.
  - symmetry. unfold is_start. destruct (key y) as [p i]. simpl. apply andb_false_iff. rewrite !bool_decide_eq_false.
    destruct (decide (p = "")); [right; congruence|by left].
Qed.

Lemma follow_sorted items limit (Hn : NoDup (map key items)) (Hl : 0 < limit) (Hstart : ("", "") ∉ map key items) ys :
  forall fuel xs after, length ys < fuel -> merge_sort key_le items = (xs ++ ys)%list ->
  after = List.last (map key xs) ("", "") -> follow fuel items after limit = ys.
Proof.
  intros fuel. revert ys. induction fuel as [|fuel IH]; intros ys xs after Hf Hs ->; [lia|]. cbn [follow].
  assert (Hpage : KeysetPage items (List.last (map key xs) ("", "")) limit = take limit ys).
  { assert (Hpo : forall l, page_of limit l = take limit l)
      by (intros l; unfold page_of; by replace (0 <? limit)%nat with true by (symmetry; apply Nat.ltb_lt; lia)).
    destruct xs as [|x xs _] using rev_ind; [by rewrite KeysetPage_first, Hs, Hpo|].
    rewrite map_app. cbn [map]. rewrite List.last_last, <- Hpo. eapply KeysetPage_after; [done| |by rewrite Hs, <- app_assoc].
    intros Hx. apply Hstart. rewrite <- Hx. apply list_elem_of_fmap_2. rewrite <- (merge_sort_Permutation key_le items), Hs.
    rewrite elem_of_app. left. rewrite elem_of_app, list_elem_of_singleton. by right. }
  rewrite Hpage. destruct ys as [|y ys]; [by rewrite take_nil|]. destruct limit as [|limit]; [lia|].
  set (page := take (S limit) (y :: ys)).
  trans (page ++ follow fuel items (List.last (map key page) (List.last (map key xs) ("", ""))) (S limit))%list; [reflexivity|].
  rewrite (IH (drop (S limit) (y :: ys)) (xs ++ page)%list); [by apply take_drop| | |].
  - rewrite length_drop. simpl in *. lia.
  - unfold page. by rewrite <- app_assoc, (take_drop (S limit) (y :: ys)).
  - rewrite map_app. unfold page. cbn [take map]. generalize (map key (take limit ys)) as l, (key y) as k. intros l k.
    destruct l as [|z l _] using rev_ind; [by rewrite List.last_last|].
    change (k :: l ++ [z])%list with ((k :: l) ++ [z])%list. by rewrite app_assoc, !List.last_last.
Qed.

(** Following the pages from the start shows every item once, in the order
    of the keys, whatever the size of the pages. *)
Theorem pages_cover items limit fuel :
  NoDup (map key items) -> 0 < limit -> ("", "") ∉ map key items -> length items < fuel ->
  follow fuel items ("", "") limit = merge_sort key_le items /\
  Permutation (follow fuel items ("", "") limit) items /\
  StronglySorted before (follow fuel items ("", "") limit).
Proof.
  intros Hn Hl Hs Hf. rewrite (follow_sorted items limit Hn Hl Hs (merge_sort key_le items) fuel []); [|by rewrite merge_sort_Permutation|done|done].
  split_and!; [done|apply merge_sort_Permutation|by apply sorted_items].
Qed.

(** The page before the first item of a page is the one that led to it. *)
Lemma KeysetPageBefore_page items xs page y ys limit :
  NoDup (map key items) -> key y <> ("", "") -> length page = limit -> 0 < limit ->
  merge_sort key_le items = (xs ++ page ++ y :: ys)%list ->
  KeysetPageBefore items (key y) limit = page.
Proof.
  intros Hn Hy Hlen Hl Hs. destruct (sorted_items items Hn) as [Hss _]. unfold KeysetPageBefore. rewrite Hs in *.
  replace (is_start (key y)) with false.
  - cbn [negb]. rewrite app_assoc in *. rewrite search_at by done. cbn [fst]. rewrite take_app_length.
    replace (0 <? limit)%nat with true by (symmetry; apply Nat.ltb_lt; lia). cbn [andb]. rewrite length_app, Hlen.
    destruct (limit <? length xs + limit)%nat eqn:Hlt.
    + replace (length xs + limit - limit)%nat with (length xs) by lia. by rewrite drop_app_length.
    + apply Nat.ltb_ge in Hlt. assert (xs = []) as -> by (apply nil_length_inv; lia). done.
  - symmetry. unfold is_start. destruct (key y) as [p i]. simpl. apply andb_false_iff. rewrite !bool_decide_eq_false.
    destruct (decide (p = "")); [right; congruence|by left].
Qed.
End pages.

(** ** Example *)

Definition sample_items : list (string * string) := [("charlie", "3"); ("alpha", "1"); ("bravo", "2"); ("alpha", "0")].

Lemma pages_cover_witness :
  follow (fun x => x) false 5 sample_items ("", "") 3 = [("alpha", "0"); ("alpha", "1"); ("bravo", "2"); ("charlie", "3")].
Proof.
  rewrite (proj1 (pages_cover (fun x => x) false sample_items 3 5
    ltac:(by apply (bool_decide_unpack _); vm_compute) ltac:(lia) ltac:(by apply (bool_decide_unpack _); vm_compute) ltac:(simpl; lia))).
  vm_compute. reflexivity.
Defined.

(** ** Scoped keys *)

(** Tenants as they are: identifiers without the separator. *)
Definition plain (tenantID : string) : Prop := tenantID <> "" /\ ~ In "|"%char (list_ascii_of_string tenantID).

Lemma bar_inj a b x y : ~ In "|"%char (list_ascii_of_string a) -> ~ In "|"%char (list_ascii_of_string b) ->
  a ++ "|" ++ x = b ++ "|" ++ y -> a = b /\ x = y.
Proof.
  revert b. induction a as [|c a IH]; intros [|d b] Ha Hb; simpl in *.
  - intros Heq. by injection Heq.
  - intros [= <- _]. destruct Hb. by left.
  - intros [= -> _]. destruct Ha. by left.
  - intros [= <- Heq]. destruct (IH b) as [-> ->]; [| |done|done]; [intros Hin; apply Ha; by right|intros Hin; apply Hb; by right].
Qed.

Lemma ScopedKey_inj t1 t2 x y d : plain t1 -> plain t2 -> ScopedKey t1 x d = ScopedKey t2 y d -> t1 = t2 /\ x = y.
Proof.
  intros [H1 N1] [H2 N2]. unfold ScopedKey, DefaultScope. rewrite !bool_decide_false by done. by apply bar_inj.
Qed.

Lemma ScopedKey_tenant t1 t2 x y d : plain t1 -> plain t2 -> ScopedKey t1 x d = ScopedKey t2 y d -> t1 = t2.
Proof. intros H1 H2 H. by destruct (ScopedKey_inj _ _ _ _ _ H1 H2 H). Qed.
