(* ===== verification/Quota.v ===== *)
(** * Tenancy: quotas and usage counters

    [backend/tenancy/internal/db_memory/quota_repository.go] with the limits of
    [tenancy/domain/tenancy.go] and [soft_quota.go].

    The eleven fields of [TenantQuota] and of [TenantUsage] are the entries of a
    map by resource name: the switches of the code assign to each name the field
    of that name.  A field that is absent is a nil pointer of a quota and the
    zero of a usage.  [GetQuota] hands out the stored pointer; the model returns
    its value. *)

From Stdlib Require Import String ZArith Lia.
From stdpp Require Import base strings list gmap.
From S2P Require Import Prelude GoStrings.

Local Open Scope string_scope.
Local Open Scope go_scope.

(** ** Resources and limits *)

Definition ResourceUsers : string := "users".
Definition ResourceGroups : string := "groups".
Definition ResourceAgents : string := "agents".
Definition ResourceApplications : string := "applications".
Definition ResourceOAuth2Clients : string := "oauth2_clients".
Definition ResourceActiveSessions : string := "active_sessions".
Definition ResourceConsents : string := "consents".
Definition ResourceActiveJobs : string := "active_jobs".
Definition ResourceSsfStreams : string := "ssf_streams".
Definition ResourceAuditEventsRetained : string := "audit_events_retained".
Definition ResourceExportArtifactsBytes : string := "export_artifacts_bytes".

Definition DefaultTenantQuota : gmap string Z := list_to_map [
  (ResourceUsers, 10000%Z);
  (ResourceGroups, 1000%Z);
  (ResourceAgents, 100%Z);
  (ResourceApplications, 50%Z);
  (ResourceOAuth2Clients, 100%Z);
  (ResourceActiveSessions, 50000%Z);
  (ResourceConsents, 10000%Z);
  (ResourceActiveJobs, 10%Z);
  (ResourceSsfStreams, 20%Z);
  (ResourceAuditEventsRetained, 1000000%Z);
  (ResourceExportArtifactsBytes, 1073741824%Z) ].

(** The cases of the switches. *)
Definition known_resource (resource : string) : bool := is_some (DefaultTenantQuota !! resource).

Definition TenantQuota := gmap string Z.
Definition TenantUsage := gmap string Z.

Definition HasNegativeLimit (q : TenantQuota) : bool :=
  existsb (fun e => e.2 <? 0) (map_to_list (filter (fun e => known_resource e.1 = true) q)).

Definition resourceOverride (q : TenantQuota) (resource : string) : option Z :=
  if known_resource resource then q !! resource else None.

Definition EffectiveLimit (q : TenantQuota) (resource : string) : Z :=
  match resourceOverride q resource with
  | Some override => override
  | None => default 0%Z (DefaultTenantQuota !! resource)
  end.

Definition IsSoftQuota (resource : string) : bool :=
  (resource =? ResourceAuditEventsRetained) || (resource =? ResourceExportArtifactsBytes).

Record SoftQuotaUsage := { su_AuditEventsRetained : Z; su_ExportArtifactsBytes : Z }.

Definition ExceededResources (u : SoftQuotaUsage) (quota : TenantQuota) : list string :=
  ((if EffectiveLimit quota ResourceAuditEventsRetained <? su_AuditEventsRetained u then [ResourceAuditEventsRetained] else []) ++
   (if EffectiveLimit quota ResourceExportArtifactsBytes <? su_ExportArtifactsBytes u then [ResourceExportArtifactsBytes] else []))%list.

Inductive quota_error :=
| QuotaExceededError (tenantID resource : string)
| QuotaError (format : string) (args : list string).

Definition SoftQuotaUsage_Validate (u : SoftQuotaUsage) : result quota_error unit :=
  reject (su_AuditEventsRetained u <? 0) || (su_ExportArtifactsBytes u <? 0) with
    QuotaError "soft quota: negative usage" [] in
  Ok tt.

(** ** The repository *)

Record QuotaRepository := {
  quotas : gmap string TenantQuota;
  usages : gmap string TenantUsage;
}.

Definition NewQuotaRepository : QuotaRepository := {| quotas := ∅; usages := ∅ |}.

Definition usage_of (r : QuotaRepository) (tenantID : string) : TenantUsage := default ∅ (usages r !! tenantID).
Definition quota_of (r : QuotaRepository) (tenantID : string) : TenantQuota := default ∅ (quotas r !! tenantID).
Definition used (r : QuotaRepository) (tenantID resource : string) : Z := default 0%Z (usage_of r tenantID !! resource).
Definition limit_of (r : QuotaRepository) (tenantID resource : string) : Z := EffectiveLimit (quota_of r tenantID) resource.

Definition with_usage (r : QuotaRepository) (tenantID : string) (u : TenantUsage) : QuotaRepository :=
  {| quotas := quotas r; usages := <[tenantID := u]> (usages r) |}.

(** A first use creates the record of the tenant, also when it is refused. *)
Definition CheckAndIncrement (tenantID resource : string) (delta : Z) (r : QuotaRepository) :
    result quota_error unit * QuotaRepository :=
  if IsSoftQuota resource && (delta <? 0) then (Err (QuotaError "soft quota: negative increment" []), r)
  else
    let usage := usage_of r tenantID in
    let r := with_usage r tenantID usage in
    if negb (known_resource resource) then (Err (QuotaError "unknown resource: %s" [resource]), r)
    else
      let currentUsage := default 0%Z (usage !! resource) in
      let currentQuota := EffectiveLimit (quota_of r tenantID) resource in
      if IsSoftQuota resource && (wrap64 (max_int64 - currentUsage) <? delta) then
        (Err (QuotaError "soft quota: usage overflow" []), r)
      else if negb (IsSoftQuota resource) && (currentQuota <? wrap64 (currentUsage + delta)) then
        (Err (QuotaExceededError tenantID resource), r)
      else (Ok tt, with_usage r tenantID (<[resource := wrap64 (currentUsage + delta)]> usage)).

Definition decrementValue (val delta : Z) : Z :=
  let val := wrap64 (val - delta) in if val <? 0 then 0%Z else val.

Definition Decrement (tenantID resource : string) (delta : Z) (r : QuotaRepository) :
    result quota_error unit * QuotaRepository :=
  if IsSoftQuota resource && (delta <? 0) then (Err (QuotaError "soft quota: negative decrement" []), r)
  else match usages r !! tenantID with
  | None => (Ok tt, r)
  | Some usage =>
      if negb (known_resource resource) then (Err (QuotaError "unknown resource: %s" [resource]), r)
      else (Ok tt, with_usage r tenantID (<[resource := decrementValue (default 0%Z (usage !! resource)) delta]> usage))
  end.

Definition SetQuota (tenantID : string) (quota : TenantQuota) (r : QuotaRepository) : QuotaRepository :=
  {| quotas := <[tenantID := quota]> (quotas r); usages := usages r |}.

Definition SetSoftUsage (tenantID : string) (measured : SoftQuotaUsage) (r : QuotaRepository) :
    result quota_error unit * QuotaRepository :=
  match SoftQuotaUsage_Validate measured with
  | Err e => (Err e, r)
  | Ok _ =>
      (Ok tt, with_usage r tenantID
        (<[ResourceExportArtifactsBytes := su_ExportArtifactsBytes measured]>
          (<[ResourceAuditEventsRetained := su_AuditEventsRetained measured]> (usage_of r tenantID))))
  end.

(** [count] is what the callback returns. *)
Definition RecountUsage (tenantID resource : string) (count : result quota_error Z) (r : QuotaRepository) :
    result quota_error Z * QuotaRepository :=
  if resource <>? ResourceUsers then (Err (QuotaError "usage recount is not supported for %s" [resource]), r)
  else match count with
  | Err e => (Err e, r)
  | Ok counted =>
      if counted <? 0 then (Err (QuotaError "usage recount: negative count %d" [FormatInt counted]), r)
      else (Ok (used r tenantID ResourceUsers),
            with_usage r tenantID (<[ResourceUsers := counted]> (usage_of r tenantID)))
  end.

Definition GetQuota (r : QuotaRepository) (tenantID : string) : TenantQuota := quota_of r tenantID.
Definition GetUsage (r : QuotaRepository) (tenantID : string) : TenantUsage := usage_of r tenantID.

(** ** Effects on the counters *)

(** ** The port *)

(** [exceeded] is [errors.AsType[*QuotaExceededError]], the resource of it. *)
Class QuotaPort (S E : Type) := {
  check_quota : string -> string -> Z -> S -> result E unit * S;
  free_quota : string -> string -> Z -> S -> result E unit * S;
  exceeded : E -> option string;
}.

Lemma used_with_usage r tenantID u t resource :
  used (with_usage r tenantID u) t resource = if decide (t = tenantID) then default 0%Z (u !! resource) else used r t resource.
Proof.
  unfold used, usage_of, with_usage. simpl. destruct (decide (t = tenantID)) as [-> |Hne].
  - by rewrite lookup_insert_eq.
  - by rewrite lookup_insert_ne.
Qed.

Lemma used_same r tenantID t resource : used (with_usage r tenantID (usage_of r tenantID)) t resource = used r t resource.
Proof. rewrite used_with_usage. by destruct (decide (t = tenantID)) as [-> |]. Qed.

Lemma used_insert r tenantID res v t resource :
  used (with_usage r tenantID (<[res := v]> (usage_of r tenantID))) t resource
  = if decide (t = tenantID /\ resource = res) then v else used r t resource.
Proof.
  rewrite used_with_usage. destruct (decide (t = tenantID)) as [-> |Hne].
  - destruct (decide (resource = res)) as [-> |Hr].
    + rewrite decide_True by done. exact (f_equal (default 0%Z) (lookup_insert_eq _ _ _)).
    + rewrite decide_False by naive_solver. exact (f_equal (default 0%Z) (lookup_insert_ne _ _ _ _ (not_eq_sym Hr))).
  - by rewrite decide_False by naive_solver.
Qed.

Lemma used_insert_again r tenantID res v t resource :
  used (with_usage (with_usage r tenantID (usage_of r tenantID)) tenantID (<[res := v]> (usage_of r tenantID))) t resource
  = if decide (t = tenantID /\ resource = res) then v else used r t resource.
Proof.
  rewrite <- used_insert. rewrite !used_with_usage. by destruct (decide (t = tenantID)).
Qed.

(** A call changes no counter but its own, and no limit. *)
Lemma CheckAndIncrement_frame tenantID resource delta r :
  let r' := (CheckAndIncrement tenantID resource delta r).2 in
  quotas r' = quotas r /\ forall t q, ~ (t = tenantID /\ q = resource) -> used r' t q = used r t q.
Proof.
  unfold CheckAndIncrement. destruct (_ && _); [done|]. destruct (negb _); [split; [done|]; intros; apply used_same|].
  destruct (_ && _); [split; [done|]; intros; apply used_same|]. destruct (_ && _); [split; [done|]; intros; apply used_same|].
  split; [done|]. intros t q Hne. cbn [snd]. rewrite used_insert_again. by rewrite decide_False.
Qed.

Lemma Decrement_frame tenantID resource delta r :
  let r' := (Decrement tenantID resource delta r).2 in
  quotas r' = quotas r /\ forall t q, ~ (t = tenantID /\ q = resource) -> used r' t q = used r t q.
Proof.
  unfold Decrement. destruct (_ && _); [done|]. destruct (usages r !! tenantID) as [usage|] eqn:Ht; [|done].
  destruct (negb _); [done|]. split; [done|]. intros t q Hne. cbn [snd].
  replace usage with (usage_of r tenantID) by (unfold usage_of; by rewrite Ht). rewrite used_insert. by rewrite decide_False.
Qed.

(** The size of increments and counters that do not overflow. *)
Definition small (z : Z) : Prop := (0 <= z < 4611686018427387904)%Z.

Lemma decrementValue_small v delta : (0 <= v <= max_int64)%Z -> (0 <= delta <= max_int64)%Z ->
  decrementValue v delta = Z.max 0 (v - delta).
Proof.
  unfold decrementValue, max_int64. intros Hv Hd. rewrite wrap64_id by (unfold min_int64, max_int64; lia).
  destruct (v - delta <? 0) eqn:Hl; lia.
Qed.

(** An increment is accepted exactly when it stays within the limit, and adds
    to the one counter; a refused one changes no counter. *)
Lemma CheckAndIncrement_hard tenantID resource delta r :
  known_resource resource = true -> IsSoftQuota resource = false -> small (used r tenantID resource) -> small delta ->
  let '(res, r') := CheckAndIncrement tenantID resource delta r in
  quotas r' = quotas r /\
  match res with
  | Ok _ => (used r tenantID resource + delta <= limit_of r tenantID resource)%Z /\
      forall t q, used r' t q = if decide (t = tenantID /\ q = resource) then (used r tenantID resource + delta)%Z else used r t q
  | Err e => e = QuotaExceededError tenantID resource /\
      (limit_of r tenantID resource < used r tenantID resource + delta)%Z /\ forall t q, used r' t q = used r t q
  end.
Proof.
  intros Hk Hs Hu Hd. unfold CheckAndIncrement. rewrite Hk, Hs. cbn [andb negb].
  assert (Hw : wrap64 (used r tenantID resource + delta) = (used r tenantID resource + delta)%Z)
    by (unfold small in *; apply wrap64_id; unfold min_int64, max_int64; lia).
  unfold used at 1 in Hw. rewrite Hw. change (default 0%Z (usage_of r tenantID !! resource)) with (used r tenantID resource).
  change (EffectiveLimit _ resource) with (limit_of r tenantID resource).
  destruct (limit_of r tenantID resource <? used r tenantID resource + delta) eqn:Hl.
  - split; [done|]. split_and!; [done|lia|]. intros t q. apply used_same.
  - split; [done|]. split; [lia|]. intros t q. apply used_insert_again.
Qed.

Lemma Decrement_hard tenantID resource delta r :
  known_resource resource = true -> IsSoftQuota resource = false -> small (used r tenantID resource) -> small delta ->
  let '(res, r') := Decrement tenantID resource delta r in
  res = Ok tt /\ quotas r' = quotas r /\
  forall t q, used r' t q = if decide (t = tenantID /\ q = resource) then Z.max 0 (used r tenantID resource - delta) else used r t q.
Proof.
  intros Hk Hs Hu Hd. unfold Decrement. rewrite Hk, Hs. cbn [andb negb].
  destruct (usages r !! tenantID) as [usage|] eqn:Ht.
  - assert (Hus : usage_of r tenantID = usage) by (unfold usage_of; by rewrite Ht).
    split_and!; [done..|]. intros t q. rewrite <- Hus, used_insert.
    change (default 0%Z (usage_of r tenantID !! resource)) with (used r tenantID resource).
    rewrite decrementValue_small; [done|unfold small, max_int64 in *; lia..].
  - split_and!; [done..|]. intros t q. destruct (decide _) as [[-> ->]|]; [|done].
    assert (Hz : used r tenantID resource = 0%Z) by (unfold used, usage_of; by rewrite Ht). rewrite Hz.
    unfold small in Hd. lia.
Qed.

(** A recount changes the counter of the users only. *)
Lemma RecountUsage_used tenantID resource count r :
  let r' := (RecountUsage tenantID resource count r).2 in
  quotas r' = quotas r /\
  forall t q, used r' t q = match count with
    | Ok n => if decide (t = tenantID /\ q = resource /\ resource = ResourceUsers /\ (0 <= n)%Z) then n else used r t q
    | Err _ => used r t q
    end.
Proof.
  unfold RecountUsage. destruct (resource <>? ResourceUsers) eqn:Hr; go_bool.
  { split; [done|]. intros t q. destruct count; [|done]. rewrite decide_False; [done|]. by intros (_ & _ & ? & _). }
  destruct count as [n|e]; [|done]. destruct (n <? 0) eqn:Hn; cbn [snd].
  - split; [done|]. intros t q. rewrite decide_False; [done|]. intros (_ & _ & _ & ?). lia.
  - split; [done|]. intros t q. rewrite used_insert, Hr. destruct (decide (t = tenantID /\ q = ResourceUsers)) as [[-> ->]|Hne].
    + rewrite decide_True; [done|]. split_and!; [done..|lia].
    + rewrite decide_False; [done|]. intros (? & ? & _). by destruct Hne.
Qed.

(** ** Sequences of calls *)

(** Everything that writes to the repository. *)
Inductive quota_call :=
| Increment (tenantID resource : string) (delta : Z)
| Free (tenantID resource : string) (delta : Z)
| Limit (tenantID : string) (quota : TenantQuota)
| Measure (tenantID : string) (measured : SoftQuotaUsage)
| Recount (tenantID resource : string) (count : result quota_error Z).

Definition quota_step (c : quota_call) (r : QuotaRepository) : QuotaRepository :=
  match c with
  | Increment t res d => (CheckAndIncrement t res d r).2
  | Free t res d => (Decrement t res d r).2
  | Limit t q => SetQuota t q r
  | Measure t m => (SetSoftUsage t m r).2
  | Recount t res count => (RecountUsage t res count r).2
  end.

Definition quota_run (calls : list quota_call) (r : QuotaRepository) : QuotaRepository :=
  fold_left (fun r c => quota_step c r) calls r.

Definition small_call (c : quota_call) : Prop :=
  match c with
  | Increment _ _ d | Free _ _ d => small d
  | Limit _ q => forall res l, q !! res = Some l -> small l
  | Measure _ _ => True
  | Recount _ _ count => forall n, count = Ok n -> (0 <= n)%Z -> small n
  end.

Definition limits_small (r : QuotaRepository) : Prop := forall t res, small (limit_of r t res).

Lemma default_limits_small resource : small (default 0%Z (DefaultTenantQuota !! resource)).
Proof.
  assert (Hall : map_Forall (fun _ l => 0 <= l < 4611686018427387904)%Z DefaultTenantQuota)
    by (apply (bool_decide_unpack _); vm_compute; done).
  destruct (DefaultTenantQuota !! resource) as [l|] eqn:Hl; [exact (Hall _ _ Hl)|]. unfold small. simpl. lia.
Qed.

Lemma limit_small r t res : (forall q l, quotas r !! t = Some q -> q !! res = Some l -> small l) -> small (limit_of r t res).
Proof.
  intros Hq. unfold limit_of, EffectiveLimit, resourceOverride, quota_of. destruct (known_resource res); [|apply default_limits_small].
  destruct (quotas r !! t) as [q|]; simpl; [|apply default_limits_small].
  destruct (q !! res) as [l|] eqn:Hl; [by eapply Hq|apply default_limits_small].
Qed.

(** A repository whose overrides and hard counters are in range. *)
Record quota_ok (r : QuotaRepository) : Prop := {
  limits_ok : forall t q res l, quotas r !! t = Some q -> q !! res = Some l -> small l;
  usage_ok : forall t res, IsSoftQuota res = false -> known_resource res = true -> small (used r t res);
}.

Lemma quota_step_ok c r : quota_ok r -> small_call c -> quota_ok (quota_step c r).
Proof.
  intros [Hl Hu] Hc. destruct c as [tenantID resource delta|tenantID resource delta|tenantID quota|tenantID m|tenantID resource count]; simpl in *.
  - destruct (CheckAndIncrement_frame tenantID resource delta r) as [Hq Hf]. split; [by rewrite Hq|].
    intros t res Hs Hk. destruct (decide (t = tenantID /\ res = resource)) as [[-> ->]|]; [|rewrite Hf by done; auto].
    pose proof (CheckAndIncrement_hard tenantID resource delta r Hk Hs (Hu _ _ Hs Hk) Hc) as Hspec.
    pose proof (limit_small r tenantID resource (fun q l => Hl tenantID q resource l)). specialize (Hu tenantID resource Hs Hk).
    destruct (CheckAndIncrement tenantID resource delta r) as [[[]|e] r']; simpl in *; destruct Hspec as [_ Hspec].
    + destruct Hspec as [Hle ->]. rewrite decide_True by done. unfold small in *. lia.
    + destruct Hspec as (_ & _ & ->). done.
  - destruct (Decrement_frame tenantID resource delta r) as [Hq Hf]. split; [by rewrite Hq|].
    intros t res Hs Hk. destruct (decide (t = tenantID /\ res = resource)) as [[-> ->]|]; [|rewrite Hf by done; auto].
    pose proof (Decrement_hard tenantID resource delta r Hk Hs (Hu _ _ Hs Hk) Hc) as Hspec. specialize (Hu tenantID resource Hs Hk).
    destruct (Decrement tenantID resource delta r) as [res r']; simpl in *. destruct Hspec as (_ & _ & ->).
    rewrite decide_True by done. unfold small in *. lia.
  - split; [|exact Hu]. intros t q res l Hq. destruct (decide (t = tenantID)) as [-> |Hne].
    + simpl in Hq. rewrite lookup_insert_eq in Hq. injection Hq as <-. by apply Hc.
    + simpl in Hq. rewrite lookup_insert_ne in Hq by done. by eapply Hl.
  - unfold SetSoftUsage. destruct (SoftQuotaUsage_Validate m); [|done]. split; [done|]. intros t res Hs Hk. cbn [snd].
    rewrite used_with_usage. destruct (decide (t = tenantID)) as [-> |]; [|auto].
    unfold IsSoftQuota in Hs. apply orb_false_iff in Hs as [H1 H2]. go_bool.
    specialize (Hu tenantID res). unfold used in Hu.
    replace (_ !! res) with (usage_of r tenantID !! res); [apply Hu; [|done]; unfold IsSoftQuota; by rewrite !bool_decide_false|].
    symmetry. etrans; [apply lookup_insert_ne; congruence|]. apply lookup_insert_ne; congruence.
  - destruct (RecountUsage_used tenantID resource count r) as [Hq Hf]. split; [by rewrite Hq|]. intros t res Hs Hk. rewrite Hf.
    destruct count as [n|]; [|auto]. destruct (decide _) as [(_ & _ & _ & Hn)|]; [by apply Hc|auto].
Qed.

Lemma quota_run_ok calls r : quota_ok r -> Forall small_call calls -> quota_ok (quota_run calls r).
Proof.
  intros Hr Hc. revert r Hr. induction Hc as [|c calls Hc Hcs IH]; intros r Hr; simpl; [done|]. by apply IH, quota_step_ok.
Qed.

Definition hits (t res tenantID resource : string) : bool := (t =? tenantID) && (res =? resource).

Lemma hits_true t res tenantID resource : hits t res tenantID resource = true -> t = tenantID /\ res = resource.
Proof. unfold hits. intros H. apply andb_true_iff in H as [H1 H2]. by go_bool. Qed.
Lemma hits_refl t res : hits t res t res = true.
Proof. unfold hits. by rewrite !bool_decide_true. Qed.

(** What the calls mean for one hard counter: its limit and its count. *)
Definition counted (tenantID resource : string) (k : Z * Z) (c : quota_call) : Z * Z :=
  let '(limit, count) := k in
  match c with
  | Increment t res d => if hits t res tenantID resource && (count + d <=? limit) then (limit, (count + d)%Z) else k
  | Free t res d => if hits t res tenantID resource then (limit, Z.max 0 (count - d)) else k
  | Limit t q =>
      if t =? tenantID then (match q !! resource with Some l => l | None => default 0%Z (DefaultTenantQuota !! resource) end, count) else k
  | Measure _ _ => k
  | Recount t res (Ok n) => if hits t res tenantID resource && (res =? ResourceUsers) && (0 <=? n) then (limit, n) else k
  | Recount _ _ (Err _) => k
  end.

(** One call on a hard counter. *)
Lemma quota_step_counted c r tenantID resource :
  quota_ok r -> small_call c -> known_resource resource = true -> IsSoftQuota resource = false ->
  (limit_of (quota_step c r) tenantID resource, used (quota_step c r) tenantID resource)
  = counted tenantID resource (limit_of r tenantID resource, used r tenantID resource) c.
Proof.
  intros [Hl Hu] Hc Hk Hs. pose proof (Hu tenantID resource Hs Hk) as Hur. unfold limit_of, quota_of.
  destruct c as [t res d|t res d|t q|t m|t res count]; simpl in *.
  - destruct (CheckAndIncrement_frame t res d r) as [-> Hf]. fold (quota_of r tenantID). fold (limit_of r tenantID resource).
    destruct (hits t res tenantID resource) eqn:Hm; cbn [andb].
    + apply hits_true in Hm as [-> ->]. pose proof (CheckAndIncrement_hard tenantID resource d r Hk Hs Hur Hc) as Hspec.
      destruct (CheckAndIncrement tenantID resource d r) as [[[]|e] r']; simpl in *; destruct Hspec as [_ Hspec].
      * destruct Hspec as [Hle Hused]. rewrite Hused, decide_True by done. by replace (_ <=? _) with true by lia.
      * destruct Hspec as (_ & Hlt & ->). by replace (_ <=? _) with false by lia.
    + rewrite Hf; [done|]. intros [-> ->]. by rewrite hits_refl in Hm.
  - destruct (Decrement_frame t res d r) as [-> Hf]. fold (quota_of r tenantID). fold (limit_of r tenantID resource).
    destruct (hits t res tenantID resource) eqn:Hm.
    + apply hits_true in Hm as [-> ->]. pose proof (Decrement_hard tenantID resource d r Hk Hs Hur Hc) as Hspec.
      destruct (Decrement tenantID resource d r) as [res r']; simpl in *. destruct Hspec as (_ & _ & Hused).
      by rewrite Hused, decide_True by done.
    + rewrite Hf; [done|]. intros [-> ->]. by rewrite hits_refl in Hm.
  - change (used (SetQuota t q r) tenantID resource) with (used r tenantID resource).
    destruct (t =? tenantID) eqn:Ht; go_bool; [|by rewrite lookup_insert_ne]. subst t. rewrite lookup_insert_eq. simpl.
    unfold EffectiveLimit, resourceOverride. by rewrite Hk.
  - replace (used (SetSoftUsage t m r).2 tenantID resource) with (used r tenantID resource); [unfold SetSoftUsage; by destruct (SoftQuotaUsage_Validate m)|].
    unfold SetSoftUsage. destruct (SoftQuotaUsage_Validate m); [|done]. cbn [snd]. rewrite used_with_usage.
    destruct (decide (tenantID = t)) as [-> |]; [|done]. unfold IsSoftQuota in Hs. apply orb_false_iff in Hs as [H1 H2]. go_bool.
    unfold used. f_equal. symmetry. etrans; [apply lookup_insert_ne; congruence|]. apply lookup_insert_ne; congruence.
  - destruct (RecountUsage_used t res count r) as [-> ->]. destruct count as [n|]; [|done].
    destruct (hits t res tenantID resource) eqn:Hm; cbn [andb].
    + apply hits_true in Hm as [-> ->]. destruct (resource =? ResourceUsers) eqn:Hr; go_bool; cbn [andb].
      * destruct (0 <=? n) eqn:Hn; [by rewrite decide_True by (split_and!; [done..|lia])|].
        rewrite decide_False; [done|]. intros (_ & _ & _ & ?). lia.
      * rewrite decide_False; [done|]. by intros (_ & _ & ? & _).
    + rewrite decide_False; [done|]. intros (-> & -> & _). by rewrite hits_refl in Hm.
Qed.

(** The limits and the recounts of a call on this counter stay below [top]. *)
Definition call_within (tenantID resource : string) (top : Z) (c : quota_call) : Prop :=
  match c with
  | Limit t q => t = tenantID -> (match q !! resource with Some l => l | None => default 0%Z (DefaultTenantQuota !! resource) end <= top)%Z
  | Recount t res (Ok n) => t = tenantID -> res = resource -> (n <= top)%Z
  | _ => True
  end.

Lemma counted_within tenantID resource top c k :
  (0 <= k.2 <= top)%Z -> (k.1 <= top)%Z -> small_call c -> call_within tenantID resource top c ->
  (0 <= (counted tenantID resource k c).2 <= top)%Z /\ ((counted tenantID resource k c).1 <= top)%Z.
Proof.
  intros Hn Hl Hc Hw. destruct k as [l n]. cbn [fst snd] in *. destruct c as [t res d|t res d|t q|t m|t res [c|e]]; cbn [counted small_call call_within] in *; try done.
  - destruct (hits t res tenantID resource); cbn [andb]; [|done]. destruct (n + d <=? l) eqn:Hle; [|done]. cbn [fst snd]. unfold small in Hc. lia.
  - destruct (hits t res tenantID resource); [|done]. cbn [fst snd]. unfold small in Hc. lia.
  - destruct (t =? tenantID) eqn:Ht; go_bool; [|done]. cbn [fst snd]. by split; [|apply Hw].
  - destruct (hits t res tenantID resource) eqn:Hm; cbn [andb]; [|done]. apply hits_true in Hm as [-> ->].
    destruct (resource =? ResourceUsers); cbn [andb]; [|done]. destruct (0 <=? c) eqn:H0; [|done]. cbn [fst snd]. split; [|done]. split; [lia|by apply Hw].
Qed.

(** C17. A hard counter counts.  Under every sequence of increments, decrements,
    settings of quotas, measurements and recounts, of any tenants and resources, the
    limit in force and the counter are exactly what [counted] says: an increment is
    added when it stays within the limit of that moment and refused as exceeding the
    quota otherwise, a decrement is taken off and stops at zero, a recount of the
    users replaces the counter, and nothing else changes it.  So the counter is
    never negative and never passes the highest of its first value, the limits that
    were in force and the recounts. *)
Theorem hard_quota_bound calls r tenantID resource :
  quota_ok r -> Forall small_call calls -> known_resource resource = true -> IsSoftQuota resource = false ->
  let r' := quota_run calls r in
  let '(limit, count) := fold_left (counted tenantID resource) calls (limit_of r tenantID resource, used r tenantID resource) in
  limit_of r' tenantID resource = limit /\ used r' tenantID resource = count /\
  (forall d, small d -> (CheckAndIncrement tenantID resource d r').1 =
     if count + d <=? limit then Ok tt else Err (QuotaExceededError tenantID resource)) /\
  (0 <= count)%Z /\
  forall top, (used r tenantID resource <= top)%Z -> (limit_of r tenantID resource <= top)%Z ->
    Forall (call_within tenantID resource top) calls -> (count <= top)%Z.
Proof.
  intros Hok Hsmall Hk Hs. cbv zeta.
  assert (Hrun : (limit_of (quota_run calls r) tenantID resource, used (quota_run calls r) tenantID resource) =
    fold_left (counted tenantID resource) calls (limit_of r tenantID resource, used r tenantID resource)).
  { revert r Hok. induction Hsmall as [|c calls Hc Hcs IH]; intros r Hok; [done|].
    change (quota_run (c :: calls) r) with (quota_run calls (quota_step c r)). cbn [fold_left]. rewrite <- quota_step_counted by done.
    by apply IH, quota_step_ok. }
  rewrite <- Hrun. pose proof (quota_run_ok calls r Hok Hsmall) as Hok'. pose proof (usage_ok _ Hok' tenantID resource Hs Hk) as Hu'.
  split_and!; [done..| |exact (proj1 Hu')|].
  - intros d Hd. pose proof (CheckAndIncrement_hard tenantID resource d _ Hk Hs Hu' Hd) as Hspec.
    destruct (CheckAndIncrement tenantID resource d (quota_run calls r)) as [[[]|e] r2]; destruct Hspec as [_ Hspec]; cbn [fst].
    + destruct Hspec as [Hle _]. by replace (_ <=? _) with true by lia.
    + destruct Hspec as (-> & Hlt & _). by replace (_ <=? _) with false by lia.
  - intros top Hu0 Hl0 Hw. apply (f_equal snd) in Hrun. cbn [snd] in Hrun. rewrite Hrun.
    pose proof (usage_ok _ Hok tenantID resource Hs Hk) as Hpos. unfold small in Hpos. clear Hrun Hok Hok' Hu'.
    enough (Hk' : forall k, (0 <= k.2 <= top)%Z -> (k.1 <= top)%Z -> (0 <= (fold_left (counted tenantID resource) calls k).2 <= top)%Z)
      by (apply (Hk' (_, _)); cbn [fst snd]; lia).
    clear Hu0 Hl0 Hpos. induction Hsmall as [|c calls Hc Hcs IH]; intros k Hn Hl; [done|]. apply Forall_cons in Hw as [Hwc Hw]. cbn [fold_left].
    destruct (counted_within tenantID resource top c k Hn Hl Hc Hwc). by apply IH.
Qed.

(** ** Witness *)

Definition demo_calls : list quota_call :=
  [Increment "acme" ResourceUsers 6; Limit "acme" {[ResourceUsers := 10%Z]}; Increment "acme" ResourceUsers 6; Free "acme" ResourceUsers 2;
   Increment "other" ResourceUsers 9; Increment "acme" ResourceUsers 6; Recount "acme" ResourceUsers (Ok 8%Z);
   Increment "acme" ResourceUsers 2].

Lemma quota_ok_new : quota_ok NewQuotaRepository.
Proof.
  split; [done|]. intros t res _ _. replace (used NewQuotaRepository t res) with 0%Z; [unfold small; lia|].
  unfold used, usage_of, NewQuotaRepository. simpl. by rewrite lookup_empty.
Qed.

Lemma demo_calls_small : Forall small_call demo_calls.
Proof.
  unfold demo_calls. rewrite !Forall_cons. split_and!; try (unfold small_call, small; lia); [|intros n [= <-] _; unfold small; lia|by apply Forall_nil].
  intros res l Hl. apply lookup_singleton_Some in Hl as [_ <-]. unfold small. lia.
Qed.

Lemma hard_quota_bound_witness :
  used (quota_run demo_calls NewQuotaRepository) "acme" ResourceUsers = 10%Z /\
  (CheckAndIncrement "acme" ResourceUsers 1 (quota_run demo_calls NewQuotaRepository)).1 = Err (QuotaExceededError "acme" ResourceUsers).
Proof.
  pose proof (hard_quota_bound demo_calls NewQuotaRepository "acme" ResourceUsers quota_ok_new) as H.
  destruct (fold_left _ _ _) as [l n] eqn:Hk. vm_compute in Hk. injection Hk as <- <-.
  destruct H as (_ & Hu & Hnext & _ & _); [|reflexivity..|].
  - exact demo_calls_small.
  - split; [exact Hu|]. apply (Hnext 1%Z). unfold small. lia.
Defined.
