(* ===== verification/JobStore.v ===== *)
(** * Jobs: the queue of jobs and its leases

    [backend/jobs/domain/job.go] (kinds, lanes, the life of a job and the delay of
    a retry), the repository's inputs and errors of [ports/repository.go] and the
    memory repository ([internal/db_memory/repository.go]).  A job is a value: the
    repository copies what it returns.  Where Go iterates over the map of jobs the
    order of the keys is an argument, and with it which of equal jobs comes first.

    The specification is a machine of one job and its lease.  The theorems: the
    repository implements that machine under every sequence of calls, with whatever
    clocks; a claim takes the oldest jobs that are ready; a deduplication key has one
    unfinished job; the delay of a retry doubles up to its bound. *)

From Stdlib Require Import Ascii String ZArith Lia.
From stdpp Require Import base strings list gmap sorting.
From S2P Require Import Prelude StateMachines.

Local Open Scope string_scope.
Local Open Scope go_scope.

(** ** Kinds, lanes and states *)

Definition JobStatus := string.
Definition StatusQueued : JobStatus := "queued".
Definition StatusRunning : JobStatus := "running".
Definition StatusSucceeded : JobStatus := "succeeded".
Definition StatusFailed : JobStatus := "failed".
Definition StatusCanceled : JobStatus := "canceled".

Definition JobStatus_Valid (s : JobStatus) : bool :=
  contains [StatusQueued; StatusRunning; StatusSucceeded; StatusFailed; StatusCanceled] s.

Definition JobKind := string.
Definition ExecutionLane := string.
Definition LaneLatencySensitive : ExecutionLane := "latency_sensitive".
Definition LaneDefault : ExecutionLane := "default".
Definition LaneBulk : ExecutionLane := "bulk".
Definition ExecutionLane_Valid (l : ExecutionLane) : bool := contains [LaneLatencySensitive; LaneDefault; LaneBulk] l.

(** The registrations; a panic is an error with its text. *)
Definition kind_lanes := gmap JobKind ExecutionLane.

Definition RegisterKind (kind : JobKind) (lane : ExecutionLane) (m : kind_lanes) : result (errorf string) kind_lanes :=
  if kind =? "" then Ok m
  else if negb (ExecutionLane_Valid lane) then
    Err (Errorf "" "jobs: cannot register JobKind %q with invalid ExecutionLane %q" [kind; lane])
  else match m !! kind with
       | None => Ok (<[kind := lane]> m)
       | Some existing =>
           if existing <>? lane then
             Err (Errorf "" "jobs: JobKind %q already registered with ExecutionLane %q, cannot re-register with %q" [kind; existing; lane])
           else Ok m
       end.

Definition builtin_kinds : list (JobKind * ExecutionLane) :=
  [("noop_echo", LaneDefault); ("user_import_preview", LaneBulk); ("user_import_apply", LaneBulk);
   ("group_import_preview", LaneBulk); ("group_import_apply", LaneBulk);
   ("group_membership_import_preview", LaneBulk); ("group_membership_import_apply", LaneBulk);
   ("dynamic_group_reconcile", LaneBulk); ("data_key_reencryption", LaneBulk)].

(** What [init] registers. *)
Fixpoint register_kinds (l : list (JobKind * ExecutionLane)) (m : kind_lanes) : result (errorf string) kind_lanes :=
  match l with
  | [] => Ok m
  | (kind, lane) :: l => let? m := RegisterKind kind lane m in register_kinds l m
  end.

Definition LaneFor (m : kind_lanes) (kind : JobKind) : option ExecutionLane := m !! kind.
Definition JobKind_Valid (m : kind_lanes) (kind : JobKind) : bool := is_some (LaneFor m kind).

Definition JobLifecycleEvent := string.
Definition EventClaim : JobLifecycleEvent := "Claim".
Definition EventComplete : JobLifecycleEvent := "Complete".
Definition EventFail : JobLifecycleEvent := "Fail".
Definition EventRetry : JobLifecycleEvent := "Retry".
Definition EventCancel : JobLifecycleEvent := "Cancel".

Definition jobTransitions : list transition :=
  [ {| From := StatusQueued; Event := EventClaim; To := StatusRunning |};
    {| From := StatusRunning; Event := EventComplete; To := StatusSucceeded |};
    {| From := StatusRunning; Event := EventFail; To := StatusFailed |};
    {| From := StatusRunning; Event := EventRetry; To := StatusQueued |};
    {| From := StatusQueued; Event := EventCancel; To := StatusCanceled |};
    {| From := StatusRunning; Event := EventCancel; To := StatusCanceled |} ].

Definition TransitionJobLifecycle : string -> string -> result transition_error string := lookup_transition jobTransitions.

Definition IsJobLifecycleTerminal (s : JobStatus) : bool := contains [StatusSucceeded; StatusFailed; StatusCanceled] s.

(** ** The delay of a retry *)

Definition DefaultBackoffBase : Duration := (30 * Second)%Z.
Definition DefaultBackoffCap : Duration := (30 * 60 * Second)%Z.
Definition DefaultMaxAttempts : Z := 5.

(** The loop, [n] rounds of it. *)
Fixpoint grow_delay (n : nat) (delay maxBackoff : Duration) : Duration :=
  match n with
  | O => delay
  | S n => if maxBackoff <=? delay then maxBackoff else grow_delay n (wrap64 (delay * 2)) maxBackoff
  end.

Definition NextRetryRunAt (now : Time) (attempts : Z) (base maxBackoff : Duration) : Time :=
  let attempts := if attempts <? 1 then 1%Z else attempts in
  let delay := grow_delay (Z.to_nat (attempts - 1)) base maxBackoff in
  Add now (if maxBackoff <? delay then maxBackoff else delay).

(** ** Jobs *)

Record JobProgress := { jp_Percent : option Z; jp_Message : option string; jp_UpdatedAt : Time }.

Record Job := {
  job_ID : string;
  job_TenantID : string;
  job_Kind : JobKind;
  job_Lane : ExecutionLane;
  job_Status : JobStatus;
  job_Params : string;
  job_Result : string;
  job_Error : option string;
  job_Attempts : Z;
  job_MaxAttempts : Z;
  job_DedupKey : option string;
  job_Progress : option JobProgress;
  job_LeaseOwner : option string;
  job_LeaseExpiresAt : option Time;
  job_RunAt : Time;
  job_CreatedAt : Time;
  job_UpdatedAt : Time;
}.

(** Assignments to the fields that the repository changes. *)
Definition job_with (status result : string) (err : option string) (attempts : Z) (lease : option (string * Time))
    (runAt updated : Time) (j : Job) : Job :=
  {| job_ID := job_ID j; job_TenantID := job_TenantID j; job_Kind := job_Kind j; job_Lane := job_Lane j;
     job_Status := status; job_Params := job_Params j; job_Result := result; job_Error := err;
     job_Attempts := attempts; job_MaxAttempts := job_MaxAttempts j; job_DedupKey := job_DedupKey j;
     job_Progress := job_Progress j; job_LeaseOwner := fst <$> lease; job_LeaseExpiresAt := snd <$> lease;
     job_RunAt := runAt; job_CreatedAt := job_CreatedAt j; job_UpdatedAt := updated |}.

Record EnqueueInput := {
  en_TenantID : string;
  en_Kind : JobKind;
  en_Lane : ExecutionLane;
  en_Params : string;
  en_DedupKey : option string;
  en_MaxAttempts : Z;
  en_RunAt : Time;
  en_Now : Time;
}.

Record FailOutcome := { fo_NextStatus : JobStatus; fo_RunAt : Time; fo_Error : string }.

Record AdminJobFilter := {
  af_TenantID : string;
  af_AllTenants : bool;
  af_Statuses : list JobStatus;
  af_Kinds : list JobKind;
  af_Lane : ExecutionLane;
  af_Limit : Z;
  af_BeforeCreatedAt : Time;
  af_BeforeID : string;
}.

Record LaneDepth := { ld_Queued : Z; ld_Running : Z }.

Inductive job_error :=
| ErrJobNotFound
| ErrJobLeaseLost
| ErrJobAlreadyTerminal
| ErrAdminJobFilterUnscoped
| JobTransitionError (e : transition_error)
| JobRandomError.

(** ** The memory repository *)

Notation JobRepository := (gmap string Job).
Definition NewJobRepository : JobRepository := ∅.

(** The jobs in the order of an iteration. *)
Definition rows (order : list string) (s : JobRepository) : list Job := omap (fun id => s !! id) order.

Definition same_dedup (input : EnqueueInput) (key : string) (j : Job) : bool :=
  (job_TenantID j =? en_TenantID input) && negb (IsJobLifecycleTerminal (job_Status j)) &&
  match job_DedupKey j with Some k => k =? key | None => false end.

Definition new_job (id : string) (input : EnqueueInput) (now runAt : Time) : Job :=
  {| job_ID := id; job_TenantID := en_TenantID input; job_Kind := en_Kind input; job_Lane := en_Lane input;
     job_Status := StatusQueued; job_Params := en_Params input; job_Result := ""; job_Error := None;
     job_Attempts := 0; job_MaxAttempts := en_MaxAttempts input; job_DedupKey := en_DedupKey input;
     job_Progress := None; job_LeaseOwner := None; job_LeaseExpiresAt := None;
     job_RunAt := runAt; job_CreatedAt := now; job_UpdatedAt := now |}.

(** [id] is drawn and [clock] read where the input has no time. *)
Definition Enqueue_job (input : EnqueueInput) (order : list string) (id : option string) (clock : Time) (s : JobRepository) :
    result job_error (Job * bool) * JobRepository :=
  match (match en_DedupKey input with
         | Some key => List.find (same_dedup input key) (rows order s)
         | None => None
         end) with
  | Some j => (Ok (j, false), s)
  | None =>
      match id with
      | None => (Err JobRandomError, s)
      | Some id =>
          let now := if IsZero (en_Now input) then clock else en_Now input in
          let runAt := if IsZero (en_RunAt input) then now else en_RunAt input in
          let job := new_job id input now runAt in
          (Ok (job, true), <[job_ID job := job]> s)
      end
  end.

(** The cases of the switch. *)
Definition claimable (lane : ExecutionLane) (now : Time) (j : Job) : bool :=
  (job_Lane j =? lane) &&
  (((job_Status j =? StatusQueued) && negb (After (job_RunAt j) now)) ||
   ((job_Status j =? StatusRunning) && match job_LeaseExpiresAt j with Some u => Before u now | None => false end)).

Definition runs_before (a b : Job) : Prop := (job_RunAt a <= job_RunAt b)%Z.
#[export] Instance runs_before_dec : RelDecision runs_before.
Proof. intros a b. unfold runs_before. apply _. Defined.

(** One job of the claim; a queued job always has the transition. *)
Definition claim_job (workerID : string) (leaseDuration : Duration) (now : Time) (j : Job) : option Job :=
  let taken status :=
    Some (job_with status (job_Result j) (job_Error j) (wrap64 (job_Attempts j + 1))
            (Some (workerID, Add now leaseDuration)) (job_RunAt j) now j) in
  if job_Status j =? StatusQueued then
    match TransitionJobLifecycle (job_Status j) EventClaim with
    | Err _ => None
    | Ok next => taken next
    end
  else taken (job_Status j).

Definition claim_candidates (lane : ExecutionLane) (batchSize : Z) (now : Time) (order : list string) (s : JobRepository) : list Job :=
  take (Z.to_nat batchSize) (merge_sort runs_before (List.filter (claimable lane now) (rows order s))).

Definition store_jobs (l : list Job) (s : JobRepository) : JobRepository :=
  foldl (fun s j => <[job_ID j := j]> s) s l.

Definition ClaimBatch (workerID : string) (lane : ExecutionLane) (batchSize : Z) (leaseDuration : Duration) (now : Time)
    (order : list string) (s : JobRepository) : result job_error (list Job) * JobRepository :=
  if batchSize <=? 0 then (Ok [], s)
  else
    let claimed := omap (claim_job workerID leaseDuration now) (claim_candidates lane batchSize now order s) in
    (Ok claimed, store_jobs claimed s).

Definition leaseHeld (j : Job) (workerID : string) (now : Time) : bool :=
  (job_Status j =? StatusRunning) &&
  match job_LeaseOwner j with Some w => w =? workerID | None => false end &&
  match job_LeaseExpiresAt j with Some u => negb (Before u now) | None => false end.

Definition Heartbeat (jobID workerID : string) (leaseDuration : Duration) (now : Time) (s : JobRepository) :
    result job_error Time * JobRepository :=
  match s !! jobID with
  | None => (Err ErrJobNotFound, s)
  | Some j =>
      if negb (leaseHeld j workerID now) then (Err ErrJobLeaseLost, s)
      else
        let expiry := Add now leaseDuration in
        (Ok expiry, <[jobID := job_with (job_Status j) (job_Result j) (job_Error j) (job_Attempts j)
                                 ((., expiry) <$> job_LeaseOwner j) (job_RunAt j) now j]> s)
  end.

Definition Complete (jobID workerID result : string) (now : Time) (s : JobRepository) : Prelude.result job_error Job * JobRepository :=
  match s !! jobID with
  | None => (Err ErrJobNotFound, s)
  | Some j =>
      if negb (leaseHeld j workerID now) then (Err ErrJobLeaseLost, s)
      else match TransitionJobLifecycle (job_Status j) EventComplete with
           | Err _ => (Err ErrJobLeaseLost, s)
           | Ok next =>
               let j := job_with next result (job_Error j) (job_Attempts j) None (job_RunAt j) now j in
               (Ok j, <[jobID := j]> s)
           end
  end.

Definition Fail_job (jobID workerID : string) (outcome : FailOutcome) (now : Time) (s : JobRepository) :
    result job_error Job * JobRepository :=
  match s !! jobID with
  | None => (Err ErrJobNotFound, s)
  | Some j =>
      if negb (leaseHeld j workerID now) then (Err ErrJobLeaseLost, s)
      else
        let event := if fo_NextStatus outcome =? StatusQueued then EventRetry else EventFail in
        match TransitionJobLifecycle (job_Status j) event with
        | Err e => (Err (JobTransitionError e), s)
        | Ok next =>
            let runAt := if next =? StatusQueued then fo_RunAt outcome else job_RunAt j in
            let j := job_with next (job_Result j) (Some (fo_Error outcome)) (job_Attempts j) None runAt now j in
            (Ok j, <[jobID := j]> s)
        end
  end.

Definition Cancel (jobID : string) (now : Time) (s : JobRepository) : result job_error Job * JobRepository :=
  match s !! jobID with
  | None => (Err ErrJobNotFound, s)
  | Some j =>
      if IsJobLifecycleTerminal (job_Status j) then (Err ErrJobAlreadyTerminal, s)
      else match TransitionJobLifecycle (job_Status j) EventCancel with
           | Err e => (Err (JobTransitionError e), s)
           | Ok next =>
               let j := job_with next (job_Result j) (job_Error j) (job_Attempts j) None (job_RunAt j) now j in
               (Ok j, <[jobID := j]> s)
           end
  end.

Definition Get_job (jobID : string) (s : JobRepository) : result job_error Job :=
  match s !! jobID with None => Err ErrJobNotFound | Some j => Ok j end.

(** The map of the depths, whose order Go leaves open. *)
Definition count_lane (d : gmap ExecutionLane LaneDepth) (j : Job) : gmap ExecutionLane LaneDepth :=
  let at_ := default {| ld_Queued := 0; ld_Running := 0 |} (d !! job_Lane j) in
  if job_Status j =? StatusQueued then <[job_Lane j := {| ld_Queued := wrap64 (ld_Queued at_ + 1); ld_Running := ld_Running at_ |}]> d
  else if job_Status j =? StatusRunning then <[job_Lane j := {| ld_Queued := ld_Queued at_; ld_Running := wrap64 (ld_Running at_ + 1) |}]> d
  else d.

Definition LaneDepths (order : list string) (s : JobRepository) : gmap ExecutionLane LaneDepth := foldl count_lane ∅ (rows order s).

(** ** Listings *)

Definition at_most (limit : Z) {A} (l : list A) : list A := if 0 <? limit then take (Z.to_nat limit) l else l.

Definition created_after (a b : Job) : Prop := (job_CreatedAt b <= job_CreatedAt a)%Z.
#[export] Instance created_after_dec : RelDecision created_after.
Proof. intros a b. unfold created_after. apply _. Defined.

Definition ListByTenantAndKinds (tenantID : string) (kinds : list JobKind) (limit : Z) (order : list string) (s : JobRepository) : list Job :=
  at_most limit (merge_sort created_after
    (List.filter (fun j => (job_TenantID j =? tenantID) && contains kinds (job_Kind j)) (rows order s))).

Definition afterKeyset (j : Job) (beforeCreatedAt : Time) (beforeID : string) : bool :=
  if IsZero beforeCreatedAt && (beforeID =? "") then true
  else if Before (job_CreatedAt j) beforeCreatedAt then true
  else (job_CreatedAt j =? beforeCreatedAt) &&
       match String.compare (job_ID j) beforeID with Lt => true | _ => false end.

Definition newest_first (a b : Job) : Prop :=
  (job_CreatedAt b < job_CreatedAt a)%Z \/ job_CreatedAt a = job_CreatedAt b /\ String.compare (job_ID b) (job_ID a) <> Gt.
#[export] Instance newest_first_dec : RelDecision newest_first.
Proof. intros a b. unfold newest_first. apply _. Defined.

(** The continues of the loop. *)
Definition admin_selects (filter : AdminJobFilter) (j : Job) : bool :=
  negb (negb (af_AllTenants filter) && (job_TenantID j <>? af_TenantID filter)) &&
  match af_Statuses filter with [] => true | l => contains l (job_Status j) end &&
  match af_Kinds filter with [] => true | l => contains l (job_Kind j) end &&
  negb ((af_Lane filter <>? "") && (job_Lane j <>? af_Lane filter)) &&
  afterKeyset j (af_BeforeCreatedAt filter) (af_BeforeID filter).

Definition ListForAdmin (filter : AdminJobFilter) (order : list string) (s : JobRepository) : result job_error (list Job) :=
  if (af_TenantID filter =? "") && negb (af_AllTenants filter) then Err ErrAdminJobFilterUnscoped
  else Ok (at_most (af_Limit filter) (merge_sort newest_first (List.filter (admin_selects filter) (rows order s)))).

(** ** The specification: a job and its lease *)

Inductive lease_state :=
| Waiting (attempts : Z) (ready : Time)
| Leased (worker : string) (until : Time) (attempts : Z)
| Ended (status : JobStatus).

Inductive lease_event :=
| Claimed (worker : string) (until now : Time)
| Beaten (worker : string) (until now : Time)
| Completed (worker : string) (now : Time)
| Retried (worker : string) (ready now : Time)
| Buried (worker : string) (now : Time)
| Canceled.

(** A lease is taken when the job is ready or the lease before it has run out, and
    only its holder, in time, may extend it or report. *)
Definition lease_step (e : lease_event) (st : lease_state) : option lease_state :=
  let holds w now w0 u0 := (w0 =? w) && (now <=? u0) in
  match e, st with
  | Claimed w u now, Waiting n ready => if ready <=? now then Some (Leased w u (wrap64 (n + 1))) else None
  | Claimed w u now, Leased _ u0 n => if u0 <? now then Some (Leased w u (wrap64 (n + 1))) else None
  | Beaten w u now, Leased w0 u0 n => if holds w now w0 u0 then Some (Leased w u n) else None
  | Completed w now, Leased w0 u0 _ => if holds w now w0 u0 then Some (Ended StatusSucceeded) else None
  | Retried w ready now, Leased w0 u0 n => if holds w now w0 u0 then Some (Waiting n ready) else None
  | Buried w now, Leased w0 u0 _ => if holds w now w0 u0 then Some (Ended StatusFailed) else None
  | Canceled, (Waiting _ _ | Leased _ _ _) => Some (Ended StatusCanceled)
  | _, _ => None
  end.

Fixpoint lease_run (l : list lease_event) (st : lease_state) : option lease_state :=
  match l with
  | [] => Some st
  | e :: l => match lease_step e st with Some st => lease_run l st | None => None end
  end.

Lemma lease_run_app l1 l2 st : lease_run (l1 ++ l2)%list st = match lease_run l1 st with Some st' => lease_run l2 st' | None => None end.
Proof. revert st. induction l1 as [|e l1 IH]; intros st; simpl; [done|]. destruct (lease_step e st); [apply IH|done]. Qed.

(** What a record is in the machine. *)
Definition lease_of (j : Job) : lease_state :=
  if job_Status j =? StatusQueued then Waiting (job_Attempts j) (job_RunAt j)
  else match job_LeaseOwner j, job_LeaseExpiresAt j with
       | Some w, Some u => Leased w u (job_Attempts j)
       | _, _ => Ended (job_Status j)
       end.

(** ** The invariant of the repository *)

Definition unfinished (j : Job) : Prop := IsJobLifecycleTerminal (job_Status j) = false.

(** A running job is leased, no other is. *)
Inductive job_shape (j : Job) : Prop :=
| shape_queued : job_Status j = StatusQueued -> job_LeaseOwner j = None -> job_LeaseExpiresAt j = None -> job_shape j
| shape_running w u : job_Status j = StatusRunning -> job_LeaseOwner j = Some w -> job_LeaseExpiresAt j = Some u -> job_shape j
| shape_ended : IsJobLifecycleTerminal (job_Status j) = true -> job_LeaseOwner j = None -> job_LeaseExpiresAt j = None -> job_shape j.

Record jobs_ok (s : JobRepository) : Prop := {
  ok_key : forall id j, s !! id = Some j -> job_ID j = id;
  ok_shape : forall id j, s !! id = Some j -> job_shape j;
  ok_dedup : forall id1 id2 j1 j2 key, s !! id1 = Some j1 -> s !! id2 = Some j2 -> unfinished j1 -> unfinished j2 ->
    job_TenantID j1 = job_TenantID j2 -> job_DedupKey j1 = Some key -> job_DedupKey j2 = Some key -> id1 = id2;
}.

(** An order of iteration names every key once. *)
Definition iterates (order : list string) (s : gmap string Job) : Prop := NoDup order /\ forall id, id ∈ order <-> is_Some (s !! id).

Lemma rows_elem order (s : gmap string Job) j : iterates order s -> (forall id x, s !! id = Some x -> job_ID x = id) ->
  j ∈ rows order s <-> s !! job_ID j = Some j.
Proof.
  intros [_ Hin] Hk. unfold rows. rewrite list_elem_of_omap. split.
  - intros (id & _ & Hj). by rewrite (Hk _ _ Hj).
  - intros Hj. exists (job_ID j). split; [by apply Hin|done].
Qed.

Lemma rows_NoDup order (s : gmap string Job) : iterates order s -> (forall id x, s !! id = Some x -> job_ID x = id) -> NoDup (map job_ID (rows order s)).
Proof.
  intros [Hn _] Hk. clear -Hn Hk. induction order as [|id order IH]; [constructor|].
  assert (Hc : rows (id :: order) s = match s !! id with Some j => j :: rows order s | None => rows order s end) by done.
  apply NoDup_cons in Hn as [Hid Hn]. rewrite Hc. destruct (s !! id) as [j|] eqn:Hj; [|by apply IH]. cbn. constructor; [|by apply IH].
  intros Hin. apply list_elem_of_In, in_map_iff in Hin as (j' & Hj' & Hin). apply list_elem_of_In, list_elem_of_omap in Hin as (id' & Hid' & Hx).
  apply Hid. rewrite <- (Hk _ _ Hj), <- Hj', (Hk _ _ Hx). done.
Qed.

(** A change of one job that leaves what identifies it. *)
Definition same_job (j j' : Job) : Prop :=
  exists status result err attempts lease runAt updated, j' = job_with status result err attempts lease runAt updated j.

Lemma same_job_with status result err attempts lease runAt updated j :
  same_job j (job_with status result err attempts lease runAt updated j).
Proof. by do 7 eexists. Qed.

Lemma same_job_ID j j' : same_job j j' -> job_ID j' = job_ID j.
Proof. by intros (? & ? & ? & ? & ? & ? & ? & ->). Qed.

(** What every call but [Enqueue] does to each job. *)
Definition moved (o o' : option Job) : Prop :=
  o' = o \/ exists j j', o = Some j /\ o' = Some j' /\ same_job j j' /\ job_shape j' /\ unfinished j.

Lemma jobs_ok_moved (s s' : gmap string Job) : jobs_ok s -> (forall id, moved (s !! id) (s' !! id)) -> jobs_ok s'.
Proof.
  intros [Hk Hs Hd] Hm.
  assert (Hold : forall i x, s' !! i = Some x -> exists y, s !! i = Some y /\ job_ID x = job_ID y /\ job_TenantID x = job_TenantID y /\
    job_DedupKey x = job_DedupKey y /\ (unfinished x -> unfinished y) /\ job_shape x).
  { intros i x Hx. destruct (Hm i) as [Heq|(j & j' & Hj & Hj' & (st & r & e & a & l & ra & up & ->) & Hsh & Hu)].
    - rewrite Heq in Hx. exists x. split_and!; try done. by eapply Hs.
    - rewrite Hx in Hj'. injection Hj' as ->. by exists j. }
  split.
  - intros i x (y & Hy & -> & _)%Hold. by apply Hk.
  - intros i x (y & Hy & ? & ? & ? & ? & ?)%Hold. done.
  - intros i1 i2 x1 x2 key (y1 & H1 & _ & T1 & D1 & F1 & _)%Hold (y2 & H2 & _ & T2 & D2 & F2 & _)%Hold U1 U2 Ht K1 K2.
    apply (Hd i1 i2 y1 y2 key); [done..|by apply F1|by apply F2|congruence|congruence|congruence].
Qed.

(** ** Every call is a step of the machine *)

(** A call that asks for one event of one job is granted exactly when the machine
    has the step, and then changes that job alone; otherwise it changes nothing. *)
Definition implements (id : string) (e : lease_event) {A} (s : JobRepository) (out : result job_error A * JobRepository) : Prop :=
  match s !! id with
  | Some j =>
      match lease_step e (lease_of j) with
      | Some st => res_ok out.1 = true /\ exists j', out.2 = <[id := j']> s /\ same_job j j' /\ job_shape j' /\ lease_of j' = st
      | None => res_ok out.1 = false /\ out.2 = s
      end
  | None => res_ok out.1 = false /\ out.2 = s
  end.

Lemma lease_running j w u : job_Status j = StatusRunning -> job_LeaseOwner j = Some w -> job_LeaseExpiresAt j = Some u ->
  lease_of j = Leased w u (job_Attempts j).
Proof. intros Hs Ho He. unfold lease_of. by rewrite Hs, Ho, He. Qed.

Lemma lease_unleased j : job_LeaseOwner j = None -> job_Status j <> StatusQueued -> lease_of j = Ended (job_Status j).
Proof. intros Ho Hq. unfold lease_of. by rewrite bool_decide_false, Ho. Qed.

(** What the checks of the lease say of a record. *)
Lemma leaseHeld_shape j workerID now : job_shape j ->
  leaseHeld j workerID now = match lease_of j with Leased w u _ => (w =? workerID) && (now <=? u) | _ => false end.
Proof.
  unfold leaseHeld. intros [Hs Ho He|w u Hs Ho He|Hs Ho He].
  - unfold lease_of. by rewrite Hs.
  - rewrite (lease_running j w u) by done. rewrite Hs, Ho, He. unfold Before. cbn [andb]. f_equal. destruct (Z.leb_spec now u); destruct (Z.ltb_spec u now); try done; lia.
  - assert (Hr : job_Status j <> StatusRunning) by (intros Hr; rewrite Hr in Hs; done).
    assert (Hq : job_Status j <> StatusQueued) by (intros Hr'; rewrite Hr' in Hs; done).
    rewrite bool_decide_false by done. by rewrite lease_unleased.
Qed.

Lemma held_lease j workerID now : job_shape j -> leaseHeld j workerID now = true ->
  exists u, job_Status j = StatusRunning /\ job_LeaseOwner j = Some workerID /\ job_LeaseExpiresAt j = Some u /\
    lease_of j = Leased workerID u (job_Attempts j) /\ (now <=? u) = true.
Proof.
  intros Hshape Hh. rewrite leaseHeld_shape in Hh by done. unfold lease_of in Hh |- *. destruct Hshape as [Hs Ho He|w u Hs Ho He|Hs Ho He].
  - by rewrite Hs in Hh.
  - rewrite Hs, Ho, He in Hh |- *. cbn in Hh. apply andb_true_iff in Hh as [Hw Hu]. apply bool_decide_eq_true in Hw. subst w. by exists u.
  - rewrite Ho in Hh. by destruct (job_Status j =? StatusQueued).
Qed.

Lemma ended_shape status result err attempts runAt updated j : IsJobLifecycleTerminal status = true ->
  job_shape (job_with status result err attempts None runAt updated j) /\
  lease_of (job_with status result err attempts None runAt updated j) = Ended status.
Proof.
  intros Ht. split; [by apply shape_ended|]. apply lease_unleased; [done|]. simpl. intros ->. done.
Qed.

Section calls.
Context (s : JobRepository) (Hok : jobs_ok s).

(** The calls that the holder of the lease makes. *)
Lemma holder_implements {A} id workerID now e (missing refused : result job_error A * JobRepository)
    (granted : Job -> result job_error A * JobRepository) :
  res_ok missing.1 = false -> missing.2 = s -> res_ok refused.1 = false -> refused.2 = s ->
  (forall w u n, lease_step e (Leased w u n) <> None <-> (w =? workerID) && (now <=? u) = true) ->
  (forall n r, lease_step e (Waiting n r) = None) ->
  (forall j u, s !! id = Some j -> job_Status j = StatusRunning -> job_LeaseOwner j = Some workerID -> job_LeaseExpiresAt j = Some u ->
     (now <=? u) = true ->
     res_ok (granted j).1 = true /\ exists j', (granted j).2 = <[id := j']> s /\ same_job j j' /\ job_shape j' /\
       lease_step e (Leased workerID u (job_Attempts j)) = Some (lease_of j')) ->
  implements id e s
    match s !! id with
    | None => missing
    | Some j => if negb (leaseHeld j workerID now) then refused else granted j
    end.
Proof.
  intros Hm1 Hm2 Hr1 Hr2 Hl Hw Hg. unfold implements. destruct (s !! id) as [j|] eqn:Hj; [|done].
  pose proof (ok_shape _ Hok _ _ Hj) as Hshape. destruct (leaseHeld j workerID now) eqn:Hh; cbn [negb].
  - apply held_lease in Hh as (u & Hst & Ho & He & Hlease & Hu); [|done].
    destruct (Hg j u) as (H1 & j' & H2 & H3 & H4 & H5); [done..|]. rewrite Hlease, H5. split; [done|]. by exists j'.
  - rewrite leaseHeld_shape in Hh by done. assert (lease_step e (lease_of j) = None) as ->; [|done].
    destruct (lease_of j) as [n r|w u n|st]; [apply Hw| |by destruct e].
    destruct (lease_step e (Leased w u n)) eqn:He; [|done]. assert (lease_step e (Leased w u n) <> None) as Hne by congruence.
    apply Hl in Hne. congruence.
Qed.

Lemma Heartbeat_implements id workerID d now : implements id (Beaten workerID (Add now d) now) s (Heartbeat id workerID d now s).
Proof.
  apply (holder_implements id workerID now).
  1-4: done.
  { intros w u n. simpl. by destruct ((w =? workerID) && (now <=? u)). }
  { done. }
  intros j u Hj Hs Ho He Hu. simpl. split; [done|]. eexists. split; [done|]. split; [apply same_job_with|]. rewrite Ho, Hs. simpl. split.
  - by eapply shape_running.
  - rewrite bool_decide_true by done. by rewrite Hu.
Qed.

Lemma Complete_implements id workerID result now : implements id (Completed workerID now) s (Complete id workerID result now s).
Proof.
  apply (holder_implements id workerID now).
  1-4: done.
  { intros w u n. simpl. by destruct ((w =? workerID) && (now <=? u)). }
  { done. }
  intros j u Hj Hs Ho He Hu. rewrite Hs. cbn [fst snd TransitionJobLifecycle lookup_transition search jobTransitions].
  split; [done|]. eexists. split; [reflexivity|]. split; [apply same_job_with|].
  destruct (ended_shape StatusSucceeded result (job_Error j) (job_Attempts j) (job_RunAt j) now j) as [Hsh Hl]; [done|].
  split; [exact Hsh|]. simpl. rewrite bool_decide_true by done. rewrite Hu. simpl. by rewrite <- Hl.
Qed.

Definition fail_event (workerID : string) (outcome : FailOutcome) (now : Time) : lease_event :=
  if fo_NextStatus outcome =? StatusQueued then Retried workerID (fo_RunAt outcome) now else Buried workerID now.

Lemma Fail_implements id workerID outcome now : implements id (fail_event workerID outcome now) s (Fail_job id workerID outcome now s).
Proof.
  unfold fail_event, Fail_job. apply (holder_implements id workerID now).
  1-4: done.
  { intros w u n. destruct (fo_NextStatus outcome =? StatusQueued); simpl; by destruct ((w =? workerID) && (now <=? u)). }
  { intros n r. by destruct (fo_NextStatus outcome =? StatusQueued). }
  intros j u Hj Hs Ho He Hu. rewrite Hs. destruct (fo_NextStatus outcome =? StatusQueued);
    cbn [fst snd TransitionJobLifecycle lookup_transition search jobTransitions].
  - split; [done|]. eexists. split; [reflexivity|]. split; [apply same_job_with|]. split; [by apply shape_queued|].
    simpl. rewrite bool_decide_true by done. by rewrite Hu.
  - split; [done|]. eexists. split; [reflexivity|]. split; [apply same_job_with|].
    destruct (ended_shape StatusFailed (job_Result j) (Some (fo_Error outcome)) (job_Attempts j) (job_RunAt j) now j) as [Hsh Hl]; [done|].
    split; [exact Hsh|]. simpl. rewrite bool_decide_true by done. rewrite Hu. simpl. by rewrite <- Hl.
Qed.

Lemma Cancel_implements id now : implements id Canceled s (Cancel id now s).
Proof.
  unfold implements, Cancel. destruct (s !! id) as [j|] eqn:Hj; [|done]. pose proof (ok_shape _ Hok _ _ Hj) as Hshape.
  assert (Hgo : forall next, next = StatusCanceled -> 
    exists j', <[id := job_with next (job_Result j) (job_Error j) (job_Attempts j) None (job_RunAt j) now j]> s = <[id := j']> s /\
      same_job j j' /\ job_shape j' /\ lease_of j' = Ended StatusCanceled).
  { intros next ->. eexists. split; [reflexivity|]. split; [apply same_job_with|]. by apply ended_shape. }
  destruct Hshape as [Hs Ho He|w u Hs Ho He|Hs Ho He].
  - unfold lease_of. rewrite Hs. simpl. split; [done|by apply Hgo].
  - rewrite (lease_running j w u), Hs by done. simpl. split; [done|by apply Hgo].
  - rewrite Hs. rewrite lease_unleased; [done|done|]. intros Hq. by rewrite Hq in Hs.
Qed.
End calls.

Lemma step_unfinished e j st : job_shape j -> lease_step e (lease_of j) = Some st -> unfinished j.
Proof.
  intros [Hs Ho He|w u Hs Ho He|Hs Ho He] Hstep; [by unfold unfinished; rewrite Hs..|].
  rewrite lease_unleased in Hstep; [by destruct e|done|]. intros Hq. by rewrite Hq in Hs.
Qed.

Lemma implements_moved {A} id e s (out : result job_error A * JobRepository) : jobs_ok s -> implements id e s out ->
  forall i, moved (s !! i) (out.2 !! i).
Proof.
  unfold implements. intros Hok Hi i. destruct (s !! id) as [j|] eqn:Hj; [|destruct Hi as [_ ->]; by left].
  destruct (lease_step e (lease_of j)) as [st|] eqn:Hs; [|destruct Hi as [_ ->]; by left].
  destruct Hi as (_ & j' & -> & Hsame & Hshape & _). destruct (decide (i = id)) as [->|Hne].
  - right. exists j, j'. split_and!; [done|apply (lookup_insert_eq (M := gmap string))|done..|].
    eapply step_unfinished; [|done]. by eapply ok_shape.
  - left. by apply (lookup_insert_ne (M := gmap string)).
Qed.

(** *** Claims *)

Section claims.
Context (workerID : string) (lane : ExecutionLane) (d : Duration) (now : Time).
Notation claimed_by := (Claimed workerID (Add now d) now).

Lemma is_Some_if {A} (b : bool) (x : A) : is_Some (if b then Some x else None) <-> b = true.
Proof. destruct b; split; [done|by eexists|by intros [? ?]|done]. Qed.

Lemma claimable_step j : job_shape j -> claimable lane now j = true <-> job_Lane j = lane /\ is_Some (lease_step claimed_by (lease_of j)).
Proof.
  unfold claimable. intros Hsh. rewrite andb_true_iff, bool_decide_eq_true.
  enough (Hs : (job_Status j =? StatusQueued) && negb (After (job_RunAt j) now) ||
     (job_Status j =? StatusRunning) && match job_LeaseExpiresAt j with Some u => Before u now | None => false end = true <->
     is_Some (lease_step claimed_by (lease_of j))) by tauto.
  destruct Hsh as [Hs Ho He|w u Hs Ho He|Hs Ho He].
  - unfold lease_of. rewrite Hs. cbn. unfold After. rewrite orb_false_r.
    assert (Hcase : negb (now <? job_RunAt j) = (job_RunAt j <=? now)).
    { destruct (Z.ltb_spec now (job_RunAt j)); destruct (Z.leb_spec (job_RunAt j) now); try done; lia. }
    rewrite Hcase. symmetry. apply is_Some_if.
  - rewrite (lease_running j w u), Hs, He by done. cbn. symmetry. apply is_Some_if.
  - assert (Hr : job_Status j <> StatusRunning) by (intros Hr; rewrite Hr in Hs; done).
    assert (Hq : job_Status j <> StatusQueued) by (intros Hr'; rewrite Hr' in Hs; done).
    rewrite lease_unleased by done. rewrite !bool_decide_false by done. simpl. split; [done|]. by intros [? ?].
Qed.

(** A claimed job runs its next attempt under a new lease. *)
Definition taken_job (j : Job) : Job :=
  job_with StatusRunning (job_Result j) (job_Error j) (wrap64 (job_Attempts j + 1)) (Some (workerID, Add now d)) (job_RunAt j) now j.

Lemma claim_job_taken j : job_shape j -> claimable lane now j = true ->
  claim_job workerID d now j = Some (taken_job j) /\ lease_step claimed_by (lease_of j) = Some (lease_of (taken_job j)).
Proof.
  intros Hsh Hc. apply claimable_step in Hc as [_ [st Hst]]; [|done]. unfold claim_job, taken_job.
  destruct Hsh as [Hs Ho He|w u Hs Ho He|Hs Ho He].
  - rewrite Hs. split; [done|]. revert Hst. unfold lease_of. rewrite Hs. simpl. by destruct (job_RunAt j <=? now).
  - rewrite (lease_running j w u) in Hst |- * by done. rewrite Hs. split; [done|]. revert Hst. simpl. by destruct (u <? now).
  - rewrite lease_unleased in Hst; [done|done|]. intros Hq. by rewrite Hq in Hs.
Qed.

Lemma taken_shape j : job_shape (taken_job j).
Proof. by eapply shape_running. Qed.
End claims.

Lemma store_jobs_lookup l : forall (s : gmap string Job), NoDup (map job_ID l) ->
  (forall j, j ∈ l -> store_jobs l s !! job_ID j = Some j) /\ (forall id, id ∉ map job_ID l -> store_jobs l s !! id = s !! id).
Proof.
  induction l as [|x l IH]; intros s Hn; [split; [intros j Hj; by apply not_elem_of_nil in Hj|done]|].
  cbn [map] in Hn. apply NoDup_cons in Hn as [Hx Hn]. destruct (IH (<[job_ID x := x]> s) Hn) as [H1 H2]. split.
  - intros j [->|Hj]%elem_of_cons; [|by apply H1]. change (store_jobs (x :: l) s) with (store_jobs l (<[job_ID x := x]> s)).
    rewrite H2 by done. apply lookup_insert_eq.
  - intros id [Hne Hid]%not_elem_of_cons. change (store_jobs (x :: l) s) with (store_jobs l (<[job_ID x := x]> s)).
    rewrite H2 by done. by apply lookup_insert_ne.
Qed.

(** The jobs that a claim takes: the ones that are ready, the oldest first. *)
Lemma candidates_spec lane batchSize now order (s : JobRepository) : jobs_ok s -> iterates order s ->
  let l := claim_candidates lane batchSize now order s in
  NoDup (map job_ID l) /\ (forall j, j ∈ l -> s !! job_ID j = Some j /\ claimable lane now j = true) /\
  (forall id j, s !! id = Some j -> claimable lane now j = true -> j ∈ l \/
     length l = Z.to_nat batchSize /\ forall x, x ∈ l -> (job_RunAt x <= job_RunAt j)%Z).
Proof.
  intros Hok Hit. unfold claim_candidates. set (ready := List.filter (claimable lane now) (rows order s)).
  assert (Hel : forall j, j ∈ ready <-> s !! job_ID j = Some j /\ claimable lane now j = true).
  { intros j. unfold ready. rewrite list_elem_of_In, filter_In, <- list_elem_of_In.
    rewrite (rows_elem order s j Hit (ok_key _ Hok)). done. }
  assert (Hp : merge_sort runs_before ready ≡ₚ ready) by apply merge_sort_Permutation.
  assert (Hnd : NoDup (map job_ID (merge_sort runs_before ready))).
  { rewrite Hp. unfold ready. pose proof (rows_NoDup order s Hit (ok_key _ Hok)) as Hn. revert Hn. generalize (rows order s).
    intros l. induction l as [|x l IH]; simpl; [done|]. intros [Hx Hn]%NoDup_cons. destruct (claimable lane now x); [|by apply IH].
    simpl. constructor; [|by apply IH]. intros Hin. apply Hx. apply list_elem_of_In, in_map_iff in Hin as (y & <- & [Hy _]%filter_In).
    by apply list_elem_of_In, in_map. }
  assert (Hsort : StronglySorted runs_before (merge_sort runs_before ready)).
  { apply StronglySorted_merge_sort; [intros a b c; unfold runs_before; lia|intros a b; unfold runs_before; lia]. }
  set (m := merge_sort runs_before ready) in *. set (n := Z.to_nat batchSize).
  assert (Hsplit : m = (take n m ++ drop n m)%list) by by rewrite take_drop. split_and!.
  - rewrite Hsplit, map_app in Hnd. by apply NoDup_app in Hnd as [? _].
  - intros j Hj. apply Hel. rewrite <- Hp, Hsplit. apply elem_of_app. by left.
  - intros id j Hj Hc. assert (Hin : j ∈ m). { rewrite Hp. apply Hel. split; [|done]. by rewrite (ok_key _ Hok _ _ Hj). }
    rewrite Hsplit in Hin. apply elem_of_app in Hin as [Hin|Hin]; [by left|]. right. split.
    + rewrite length_take. assert (n < length m); [|lia]. destruct (decide (n < length m)) as [|Hge]; [done|].
      rewrite drop_ge in Hin by lia. by apply not_elem_of_nil in Hin.
    + intros x Hx. rewrite Hsplit in Hsort. exact (StronglySorted_app_1_elem_of runs_before _ _ x j Hsort Hx Hin).
Qed.

Lemma omap_total {A B} (f : A -> option B) (g : A -> B) l : (forall x, x ∈ l -> f x = Some (g x)) -> omap f l = map g l.
Proof.
  induction l as [|x l IH]; intros Hf; [done|]. change (omap f (x :: l)) with (match f x with Some y => y :: omap f l | None => omap f l end).
  rewrite Hf by by left. simpl. f_equal. apply IH. intros y Hy. apply Hf. by right.
Qed.

Lemma ClaimBatch_run workerID lane batchSize d now order (s : JobRepository) : jobs_ok s -> iterates order s -> (0 < batchSize)%Z ->
  let l := claim_candidates lane batchSize now order s in
  ClaimBatch workerID lane batchSize d now order s =
    (Ok (map (taken_job workerID d now) l), store_jobs (map (taken_job workerID d now) l) s) /\
  (forall j, j ∈ l -> store_jobs (map (taken_job workerID d now) l) s !! job_ID j = Some (taken_job workerID d now j)) /\
  (forall id, id ∉ map job_ID l -> store_jobs (map (taken_job workerID d now) l) s !! id = s !! id).
Proof.
  intros Hok Hit Hb l. destruct (candidates_spec lane batchSize now order s Hok Hit) as (Hn & Hin & _). fold l in Hn, Hin.
  assert (Hids : map job_ID (map (taken_job workerID d now) l) = map job_ID l) by by rewrite map_map.
  destruct (store_jobs_lookup (map (taken_job workerID d now) l) s) as [H1 H2]; [by rewrite Hids|]. split_and!.
  - unfold ClaimBatch. destruct (Z.leb_spec batchSize 0); [lia|]. fold l. rewrite (omap_total _ (taken_job workerID d now)); [done|].
    intros j Hj. destruct (Hin j Hj) as [Hs Hc]. eapply claim_job_taken; [by eapply ok_shape|done].
  - intros j Hj. apply (H1 (taken_job workerID d now j)). by apply list_elem_of_fmap_2.
  - intros id Hid. apply H2. by rewrite Hids.
Qed.

(** *** New jobs *)

Lemma Enqueue_cases input order id clock (s : gmap string Job) : jobs_ok s -> iterates order s ->
  (exists j key, Enqueue_job input order id clock s = (Ok (j, false), s) /\ s !! job_ID j = Some j /\ unfinished j /\
     en_DedupKey input = Some key /\ job_DedupKey j = Some key /\ job_TenantID j = en_TenantID input) \/
  (forall j key, en_DedupKey input = Some key -> s !! job_ID j = Some j -> unfinished j -> job_TenantID j = en_TenantID input ->
     job_DedupKey j <> Some key) /\
  (id = None /\ Enqueue_job input order id clock s = (Err JobRandomError, s) \/
   exists i now runAt, id = Some i /\ Enqueue_job input order id clock s =
     (Ok (new_job i input now runAt, true), <[i := new_job i input now runAt]> s)).
Proof.
  intros Hok Hit. unfold Enqueue_job. destruct (match en_DedupKey input with Some key => _ | None => _ end) as [j|] eqn:Hf.
  - left. destruct (en_DedupKey input) as [key|] eqn:Hkey; [|done]. apply find_some in Hf as [Hin Hs].
    apply list_elem_of_In, (rows_elem order s j Hit (ok_key _ Hok)) in Hin. unfold same_dedup in Hs.
    apply andb_true_iff in Hs as [[Ht Hu]%andb_true_iff Hd]. apply bool_decide_eq_true in Ht. apply negb_true_iff in Hu.
    destruct (job_DedupKey j) as [k|] eqn:Hk; [|done]. apply bool_decide_eq_true in Hd. subst k. by exists j, key.
  - right. split.
    + intros j key Hkey Hj Hu Ht Hd. rewrite Hkey in Hf. 
      assert (Hn : same_dedup input key j = false) by by apply (find_none _ _ Hf), list_elem_of_In, (rows_elem order s j Hit (ok_key _ Hok)).
      unfold same_dedup in Hn. unfold unfinished in Hu. rewrite Ht, Hu, Hd in Hn. by rewrite !bool_decide_true in Hn.
    + destruct id as [i|]; [right|by left]. by do 3 eexists.
Qed.

Lemma new_job_shape i input now runAt : job_shape (new_job i input now runAt).
Proof. by apply shape_queued. Qed.

Lemma Enqueue_ok input order id clock (s : gmap string Job) : jobs_ok s -> iterates order s -> (forall i, id = Some i -> s !! i = None) ->
  jobs_ok (Enqueue_job input order id clock s).2.
Proof.
  intros Hok Hit Hfresh. destruct (Enqueue_cases input order id clock s Hok Hit) as [(j & key & -> & _)|[Hnone [[_ ->]|(i & now & runAt & Hi & ->)]]]; [done..|].
  cbn [snd]. specialize (Hfresh i Hi). set (n := new_job i input now runAt). destruct Hok as [Hk Hs Hd].
  assert (Hcl : forall i2 x2 key, s !! i2 = Some x2 -> unfinished x2 -> job_TenantID n = job_TenantID x2 -> job_DedupKey n = Some key ->
    job_DedupKey x2 = Some key -> False).
  { intros i2 x2 key H2 U2 Ht K1 K2. apply (Hnone x2 key); [done| |done|done|done]. by rewrite (Hk _ _ H2). }
  split.
  - intros id' j [[<- <-]|[_ Hj]]%(lookup_insert_Some (M := gmap string)); [done|by apply Hk].
  - intros id' j [[<- <-]|[_ Hj]]%(lookup_insert_Some (M := gmap string)); [apply new_job_shape|by eapply Hs].
  - intros i1 i2 x1 x2 key [[<- <-]|[N1 H1]]%(lookup_insert_Some (M := gmap string)) [[<- <-]|[N2 H2]]%(lookup_insert_Some (M := gmap string)) U1 U2 Ht K1 K2.
    + done.
    + exfalso. by eapply Hcl.
    + exfalso. by eapply (Hcl i1 x1 key).
    + by apply (Hd i1 i2 x1 x2 key).
Qed.

(** ** Sequences of calls *)

Inductive job_call :=
| Enqueues (input : EnqueueInput) (order : list string) (id : option string) (clock : Time)
| Claims (workerID : string) (lane : ExecutionLane) (batchSize : Z) (d : Duration) (now : Time) (order : list string)
| Beats (id workerID : string) (d : Duration) (now : Time)
| Completes (id workerID result : string) (now : Time)
| Fails (id workerID : string) (outcome : FailOutcome) (now : Time)
| Cancels (id : string) (now : Time).

(** Whether a call succeeds, and the repository after it. *)
Definition job_serve (c : job_call) (s : JobRepository) : bool * JobRepository :=
  match c with
  | Enqueues input order id clock => let '(r, s') := Enqueue_job input order id clock s in (res_ok r, s')
  | Claims w lane n d now order => let '(r, s') := ClaimBatch w lane n d now order s in (res_ok r, s')
  | Beats id w d now => let '(r, s') := Heartbeat id w d now s in (res_ok r, s')
  | Completes id w result now => let '(r, s') := Complete id w result now s in (res_ok r, s')
  | Fails id w outcome now => let '(r, s') := Fail_job id w outcome now s in (res_ok r, s')
  | Cancels id now => let '(r, s') := Cancel id now s in (res_ok r, s')
  end.

(** The one job and event that a call asks for. *)
Definition requested (c : job_call) : option (string * lease_event) :=
  match c with
  | Enqueues _ _ _ _ | Claims _ _ _ _ _ _ => None
  | Beats id w d now => Some (id, Beaten w (Add now d) now)
  | Completes id w _ now => Some (id, Completed w now)
  | Fails id w outcome now => Some (id, fail_event w outcome now)
  | Cancels id _ => Some (id, Canceled)
  end.

(** The event that a call made happen to a job. *)
Definition accepted (c : job_call) (s : JobRepository) (id : string) : option lease_event :=
  match c with
  | Enqueues _ _ _ _ => None
  | Claims w lane n d now order =>
      if (0 <? n) && contains (map job_ID (claim_candidates lane n now order s)) id then Some (Claimed w (Add now d) now) else None
  | _ => match requested c with
         | Some (i, e) => if (i =? id) && (job_serve c s).1 then Some e else None
         | None => None
         end
  end.

(** The arguments that the program gives: an order of iteration, and an identifier that is new. *)
Definition admissible (c : job_call) (s : JobRepository) : Prop :=
  match c with
  | Enqueues _ order id _ => iterates order s /\ forall i, id = Some i -> (s : gmap string Job) !! i = None
  | Claims _ _ _ _ _ order => iterates order s
  | _ => True
  end.

Definition job_apply (c : job_call) (s : JobRepository) : JobRepository := (job_serve c s).2.

Fixpoint job_run (l : list job_call) (s : JobRepository) : JobRepository :=
  match l with [] => s | c :: l => job_run l (job_apply c s) end.

Fixpoint admissible_run (l : list job_call) (s : JobRepository) : Prop :=
  match l with [] => True | c :: l => admissible c s /\ admissible_run l (job_apply c s) end.

Fixpoint history (id : string) (l : list job_call) (s : JobRepository) : list lease_event :=
  match l with
  | [] => []
  | c :: l => (match accepted c s id with Some e => [e] | None => [] end ++ history id l (job_apply c s))%list
  end.

Lemma requested_implements c id e s : jobs_ok s -> requested c = Some (id, e) ->
  match s !! id with
  | Some j =>
      match lease_step e (lease_of j) with
      | Some st => (job_serve c s).1 = true /\ exists j', (job_serve c s).2 = <[id := j']> s /\ same_job j j' /\ job_shape j' /\ lease_of j' = st
      | None => (job_serve c s).1 = false /\ (job_serve c s).2 = s
      end
  | None => (job_serve c s).1 = false /\ (job_serve c s).2 = s
  end.
Proof.
  intros Hok Hreq. destruct c as [| |i w d now|i w r now|i w o now|i now]; try done; injection Hreq as <- <-; simpl.
  - pose proof (Heartbeat_implements s Hok i w d now) as H. unfold implements in H. destruct (Heartbeat i w d now s). exact H.
  - pose proof (Complete_implements s Hok i w r now) as H. unfold implements in H. destruct (Complete i w r now s). exact H.
  - pose proof (Fail_implements s Hok i w o now) as H. unfold implements in H. destruct (Fail_job i w o now s). exact H.
  - pose proof (Cancel_implements s Hok i now) as H. unfold implements in H. destruct (Cancel i now s). exact H.
Qed.

(** A new job waits for its first attempt. *)
Definition appears (o o' : option Job) : Prop := o = None /\ exists j, o' = Some j /\ lease_of j = Waiting 0 (job_RunAt j).

(** The step of one job under a call. *)
Definition follows (c : job_call) (s : JobRepository) (id : string) : Prop :=
  match accepted c s id with
  | Some e => exists j j', s !! id = Some j /\ job_apply c s !! id = Some j' /\ lease_step e (lease_of j) = Some (lease_of j') /\ same_job j j'
  | None => job_apply c s !! id = s !! id \/ appears (s !! id) (job_apply c s !! id)
  end.

Lemma requested_follows c i e s : jobs_ok s -> requested c = Some (i, e) -> jobs_ok (job_apply c s) /\ forall id, follows c s id.
Proof.
  intros Hok Hreq. pose proof (requested_implements c i e s Hok Hreq) as Hc.
  assert (Hacc : forall id, accepted c s id = if (i =? id) && (job_serve c s).1 then Some e else None).
  { intros id. destruct c; try done; cbn in Hreq |- *; by injection Hreq as <- <-. }
  unfold follows, job_apply. destruct (s !! i) as [j|] eqn:Hj.
  2:{ destruct Hc as [H1 ->]. split; [done|]. intros id. rewrite Hacc, H1, andb_false_r. by left. }
  destruct (lease_step e (lease_of j)) as [st|] eqn:Hst.
  2:{ destruct Hc as [H1 ->]. split; [done|]. intros id. rewrite Hacc, H1, andb_false_r. by left. }
  destruct Hc as (H1 & j' & -> & Hsame & Hshape & Hl). split.
  - assert (Hi : implements i e s (Ok tt : result job_error unit, <[i := j']> s)).
    { unfold implements. rewrite Hj, Hst. split; [done|]. by exists j'. }
    apply (jobs_ok_moved s); [done|]. intros id. exact (implements_moved i e s _ Hok Hi id).
  - intros id. rewrite Hacc, H1, andb_true_r. destruct (bool_decide_reflect (i = id)) as [<-|Hne].
    + exists j, j'. split_and!; [done|apply (lookup_insert_eq (M := gmap string))|congruence|done].
    + left. by apply (lookup_insert_ne (M := gmap string)).
Qed.

Lemma claims_follow w lane n d now order s : jobs_ok s -> iterates order s ->
  jobs_ok (job_apply (Claims w lane n d now order) s) /\ forall id, follows (Claims w lane n d now order) s id.
Proof.
  intros Hok Hit. unfold follows, job_apply. cbn [job_serve accepted]. destruct (Z.ltb_spec 0 n) as [Hn|Hn].
  2:{ unfold ClaimBatch. destruct (Z.leb_spec n 0); [|lia]. split; [done|]. intros id. by left. }
  destruct (ClaimBatch_run w lane n d now order s Hok Hit Hn) as (-> & Htaken & Hother). cbn [snd].
  destruct (candidates_spec lane n now order s Hok Hit) as (_ & Hin & _). set (l := claim_candidates lane n now order s) in *.
  assert (Hstep : forall id, id ∈ map job_ID l -> exists j, s !! id = Some j /\ job_shape j /\
    lease_step (Claimed w (Add now d) now) (lease_of j) = Some (lease_of (taken_job w d now j)) /\
    store_jobs (map (taken_job w d now) l) s !! id = Some (taken_job w d now j)).
  { intros id (j & -> & Hj)%list_elem_of_fmap. destruct (Hin j Hj) as [Hs Hc]. exists j. pose proof (ok_shape _ Hok _ _ Hs) as Hsh.
    split_and!; [done|done|by eapply claim_job_taken|by apply Htaken]. }
  split.
  - apply (jobs_ok_moved s); [done|]. intros id. destruct (decide (id ∈ map job_ID l)) as [Hid|Hid]; [|left; by apply Hother].
    destruct (Hstep id Hid) as (j & Hs & Hsh & Hls & Hs'). right. exists j, (taken_job w d now j).
    split_and!; [done|done|apply same_job_with|apply taken_shape|by eapply step_unfinished].
  - intros id. cbn [andb]. destruct (contains (map job_ID l) id) eqn:Hid.
    + apply contains_true in Hid. destruct (Hstep id Hid) as (j & Hs & Hsh & Hls & Hs').
      exists j, (taken_job w d now j). split_and!; [done|done|done|apply same_job_with].
    + apply contains_false in Hid. left. by apply Hother.
Qed.

Lemma enqueues_follow input order id clock s : jobs_ok s -> admissible (Enqueues input order id clock) s ->
  jobs_ok (job_apply (Enqueues input order id clock) s) /\ forall i, follows (Enqueues input order id clock) s i.
Proof.
  intros Hok [Hit Hfresh]. unfold follows, job_apply. cbn [job_serve accepted].
  pose proof (Enqueue_ok input order id clock s Hok Hit Hfresh) as Hok'.
  destruct (Enqueue_cases input order id clock s Hok Hit) as [(j & key & Heq & _)|[_ [[_ Heq]|(i' & now & runAt & Hi & Heq)]]];
    rewrite Heq in Hok' |- *; (split; [done|]); intros i; cbn [snd].
  - by left.
  - by left.
  - destruct (decide (i = i')) as [->|Hne].
    + right. split; [by apply Hfresh|]. exists (new_job i' input now runAt). split; [apply (lookup_insert_eq (M := gmap string))|done].
    + left. by apply (lookup_insert_ne (M := gmap string)).
Qed.

Lemma call_follows c s : jobs_ok s -> admissible c s -> jobs_ok (job_apply c s) /\ forall id, follows c s id.
Proof.
  intros Hok Hc. destruct (requested c) as [[i e]|] eqn:Hr; [by eapply requested_follows|].
  destruct c; try done; [by apply enqueues_follow|by apply claims_follow].
Qed.

Lemma jobs_ok_empty : jobs_ok NewJobRepository.
Proof. by split. Qed.

Lemma job_run_ok l : forall s, jobs_ok s -> admissible_run l s -> jobs_ok (job_run l s).
Proof. induction l as [|c l IH]; intros s Hok Hl; [done|]. destruct Hl as [Hc Hl]. apply IH; [by apply call_follows|done]. Qed.

(** The history of a job leads from its state to its state. *)
Lemma history_runs id l : forall s, jobs_ok s -> admissible_run l s ->
  match s !! id, job_run l s !! id with
  | Some j, Some j' => lease_run (history id l s) (lease_of j) = Some (lease_of j')
  | Some _, None => False
  | None, Some j' => exists ready, lease_run (history id l s) (Waiting 0 ready) = Some (lease_of j')
  | None, None => history id l s = []
  end.
Proof.
  induction l as [|c l IH]; intros s Hok Hl.
  { cbn. by destruct (s !! id). }
  destruct Hl as [Hc Hl]. destruct (call_follows c s Hok Hc) as [Hok' Hf]. specialize (IH _ Hok' Hl). specialize (Hf id).
  unfold follows in Hf. cbn [job_run history]. destruct (accepted c s id) as [e|].
  - destruct Hf as (j & j1 & Hj & Hj1 & Hstep & _). rewrite Hj. rewrite Hj1 in IH. cbn [app lease_run].
    destruct (job_run l (job_apply c s) !! id) as [j'|]; [|done]. by rewrite Hstep.
  - cbn [app]. destruct Hf as [Heq|(Hn & j1 & Hj1 & Hw)].
    + by rewrite Heq in IH.
    + rewrite Hn. rewrite Hj1, Hw in IH. destruct (job_run l (job_apply c s) !! id) as [j'|]; [|done]. by eexists.
Qed.

(** ** Theorems *)

(** C30. The repository implements the lease machine: under every sequence of calls, by
    any workers and at any readings of the clock, what was granted on a job is a run
    of its machine that ends in the job's record.  A call of a lease holder or a
    cancellation is granted exactly when the machine has the step, and one that is
    refused changes nothing. *)
Theorem job_store_refines l id : admissible_run l NewJobRepository ->
  let s := job_run l NewJobRepository in
  match s !! id with
  | Some j => exists ready, lease_run (history id l NewJobRepository) (Waiting 0 ready) = Some (lease_of j)
  | None => history id l NewJobRepository = []
  end /\
  forall c e, requested c = Some (id, e) ->
    ((job_serve c s).1 = true <-> exists j st, s !! id = Some j /\ lease_step e (lease_of j) = Some st) /\
    ((job_serve c s).1 = false -> job_apply c s = s).
Proof.
  intros Hl s. split.
  - pose proof (history_runs id l NewJobRepository jobs_ok_empty Hl) as Hh. fold s in Hh.
    unfold NewJobRepository in Hh at 1. rewrite lookup_empty in Hh. by destruct (s !! id).
  - intros c e Hreq. pose proof (requested_implements c id e s (job_run_ok l _ jobs_ok_empty Hl) Hreq) as Hc.
    unfold job_apply. destruct (s !! id) as [j|]; [|destruct Hc as [-> ->]; split; [split; [done|by intros (? & ? & ? & ?)]|done]].
    destruct (lease_step e (lease_of j)) as [st|] eqn:Hst.
    + destruct Hc as [-> _]. split; [|done]. split; [|done]. intros _. by exists j, st.
    + destruct Hc as [-> ->]. split; [|done]. split; [done|]. intros (j' & st & [= <-] & Hst'). congruence.
Qed.

(** A claim takes the jobs of its lane that are ready, the oldest first, as many as
    it asked for: each of them runs its next attempt under a lease of the worker, a
    ready job that is left behind is no older than any that was taken, and the other
    jobs are as they were. *)
Theorem claim_oldest l workerID lane batchSize d now order : admissible_run l NewJobRepository ->
  let s := job_run l NewJobRepository in
  iterates order s -> (0 < batchSize)%Z ->
  exists taken, let '(r, s') := ClaimBatch workerID lane batchSize d now order s in
    r = Ok (map (taken_job workerID d now) taken) /\ NoDup (map job_ID taken) /\ (Z.of_nat (length taken) <= batchSize)%Z /\
    (forall j, j ∈ taken -> s !! job_ID j = Some j /\ claimable lane now j = true /\ s' !! job_ID j = Some (taken_job workerID d now j)) /\
    (forall id j, s !! id = Some j -> claimable lane now j = true -> j ∈ taken \/
       Z.of_nat (length taken) = batchSize /\ forall x, x ∈ taken -> (job_RunAt x <= job_RunAt j)%Z) /\
    (forall id, id ∉ map job_ID taken -> s' !! id = s !! id).
Proof.
  intros Hl s Hit Hb. pose proof (job_run_ok l _ jobs_ok_empty Hl) as Hok. fold s in Hok.
  destruct (ClaimBatch_run workerID lane batchSize d now order s Hok Hit Hb) as (-> & Htaken & Hother).
  destruct (candidates_spec lane batchSize now order s Hok Hit) as (Hn & Hin & Hold).
  exists (claim_candidates lane batchSize now order s). split_and!; [done|done| |intros j Hj; split_and!; [by apply Hin..|by apply Htaken]| |done].
  - unfold claim_candidates. rewrite length_take. lia.
  - intros id j Hj Hc. destruct (Hold id j Hj Hc) as [|[Hlen ?]]; [by left|right]. split; [lia|done].
Qed.

(** Under every sequence of calls a tenant has at most one unfinished job with a
    deduplication key, and an enqueuing with the key of an unfinished job returns that
    job and creates none. *)
Theorem dedup_once l tenantID key j : admissible_run l NewJobRepository ->
  let s := job_run l NewJobRepository in
  s !! job_ID j = Some j -> unfinished j -> job_TenantID j = tenantID -> job_DedupKey j = Some key ->
  (forall id j', s !! id = Some j' -> unfinished j' -> job_TenantID j' = tenantID -> job_DedupKey j' = Some key -> id = job_ID j) /\
  forall input order id clock, iterates order s -> en_TenantID input = tenantID -> en_DedupKey input = Some key ->
    Enqueue_job input order id clock s = (Ok (j, false), s).
Proof.
  intros Hl s Hj Hu Ht Hk. pose proof (job_run_ok l _ jobs_ok_empty Hl) as Hok. fold s in Hok.
  assert (Hone : forall id j', s !! id = Some j' -> unfinished j' -> job_TenantID j' = tenantID -> job_DedupKey j' = Some key -> id = job_ID j).
  { intros id j' Hj' Hu' Ht' Hk'. apply (ok_dedup _ Hok id (job_ID j) j' j key); congruence. }
  split; [done|]. intros input order id clock Hit Hit' Hkey.
  destruct (Enqueue_cases input order id clock s Hok Hit) as [(j' & key' & -> & Hj' & Hu' & Hkey' & Hk' & Ht')|[Hnone _]].
  - assert (job_ID j' = job_ID j) as Hid by (apply (Hone _ j'); congruence). rewrite Hid, Hj in Hj'. by injection Hj' as <-.
  - exfalso. apply (Hnone j key); congruence.
Qed.

(** *** The delay of a retry *)

Lemma grow_delay_exact n : forall delay maxBackoff, (0 < delay)%Z -> (0 < maxBackoff <= 2 ^ 62)%Z ->
  Z.min maxBackoff (grow_delay n delay maxBackoff) = Z.min maxBackoff (delay * 2 ^ Z.of_nat n).
Proof.
  induction n as [|n IH]; intros delay maxBackoff Hd Hm; cbn [grow_delay].
  - by rewrite Z.mul_1_r.
  - rewrite Nat2Z.inj_succ, Z.pow_succ_r by lia. assert (0 < 2 ^ Z.of_nat n)%Z by (apply Z.pow_pos_nonneg; lia).
    destruct (Z.leb_spec maxBackoff delay) as [Hle|Hlt]; [nia|]. rewrite wrap64_id by (unfold min_int64, max_int64; lia).
    rewrite IH by lia. f_equal. lia.
Qed.

(** The delay of a retry is the base doubled with every attempt that was made,
    up to its bound, and never overflows. *)
Theorem NextRetryRunAt_exact now attempts base maxBackoff : (0 < base)%Z -> (0 < maxBackoff <= 2 ^ 62)%Z ->
  NextRetryRunAt now attempts base maxBackoff = (now + Z.min maxBackoff (base * 2 ^ Z.max 0 (attempts - 1)))%Z.
Proof.
  intros Hb Hm. unfold NextRetryRunAt, Add. set (n := if attempts <? 1 then 1%Z else attempts).
  assert (Hn : Z.of_nat (Z.to_nat (n - 1)) = Z.max 0 (attempts - 1)) by (unfold n; destruct (Z.ltb_spec attempts 1); lia).
  rewrite <- Hn, <- grow_delay_exact by done. f_equal. destruct (Z.ltb_spec maxBackoff (grow_delay (Z.to_nat (n - 1)) base maxBackoff)); lia.
Qed.

(** ** A run *)

Definition echo (tenantID : string) (runAt : Time) : EnqueueInput :=
  {| en_TenantID := tenantID; en_Kind := "noop_echo"; en_Lane := LaneDefault; en_Params := "{}"; en_DedupKey := Some "once";
     en_MaxAttempts := 2%Z; en_RunAt := runAt; en_Now := 100%Z |}.

(** A worker loses its lease to another one, which fails once and then succeeds. *)
Definition demo_jobs : list job_call :=
  [Enqueues (echo "acme" 0%Z) [] (Some "j1") 0%Z;
   Claims "w1" LaneDefault 4%Z 50%Z 110%Z ["j1"];
   Claims "w2" LaneDefault 4%Z 50%Z 120%Z ["j1"];
   Claims "w2" LaneDefault 4%Z 50%Z 200%Z ["j1"];
   Completes "j1" "w1" "late" 201%Z;
   Fails "j1" "w2" {| fo_NextStatus := StatusQueued; fo_RunAt := 300%Z; fo_Error := "e" |} 210%Z;
   Enqueues (echo "acme" 0%Z) ["j1"] (Some "j2") 0%Z;
   Enqueues (echo "other" 0%Z) ["j1"] (Some "j3") 0%Z].

Example demo_jobs_history : history "j1" demo_jobs NewJobRepository =
  [Claimed "w1" 160 110; Claimed "w2" 250 200; Retried "w2" 300 210]%Z.
Proof. by vm_compute. Qed.

Lemma iterates_by_compute order (s : gmap string Job) :
  bool_decide (NoDup order) && forallb (fun id => is_some (s !! id)) order && forallb (fun e => contains order e.1) (map_to_list s) = true ->
  iterates order s.
Proof.
  intros [[Hn Hi]%andb_true_iff Ho]%andb_true_iff. apply bool_decide_eq_true in Hn. rewrite forallb_forall in Hi, Ho. split; [done|].
  intros id. split.
  - intros Hid. by apply is_some_true, Hi, list_elem_of_In.
  - intros [j Hj]. apply contains_true, (Ho (id, j)), list_elem_of_In, elem_of_map_to_list, Hj.
Qed.

Lemma demo_jobs_admissible : admissible_run demo_jobs NewJobRepository.
Proof.
  repeat (split; [first [split; [by apply iterates_by_compute; vm_compute|by intros i [= <-]; vm_compute]
                        |by apply iterates_by_compute; vm_compute|exact I]|]). exact I.
Qed.

Definition demo_store : JobRepository := Eval vm_compute in job_run demo_jobs NewJobRepository.

Lemma demo_store_run : job_run demo_jobs NewJobRepository = demo_store.
Proof. by vm_compute. Qed.

Lemma job_store_refines_witness :
  (exists ready, lease_run (history "j1" demo_jobs NewJobRepository) (Waiting 0 ready) = Some (Waiting 2%Z 300%Z)) /\
  (job_serve (Completes "j1" "w2" "again" 220%Z) demo_store).1 = false.
Proof.
  destruct (job_store_refines demo_jobs "j1" demo_jobs_admissible) as [H1 H2]. rewrite demo_store_run in H1, H2. split.
  - exact H1.
  - destruct (H2 (Completes "j1" "w2" "again" 220%Z) (Completed "w2" 220%Z) eq_refl) as [H3 _].
    destruct (job_serve _ _).1; [|done]. destruct H3 as [H3 _]. destruct (H3 eq_refl) as (j & st & Hj & Hst).
    vm_compute in Hj. injection Hj as <-. by vm_compute in Hst.
Defined.

Lemma claim_oldest_witness : exists taken, (ClaimBatch "w3" LaneDefault 1%Z 50%Z 400%Z ["j1"; "j3"] demo_store).1 = Ok (map (taken_job "w3" 50%Z 400%Z) taken) /\
  map job_ID taken = ["j3"].
Proof.
  destruct (claim_oldest demo_jobs "w3" LaneDefault 1%Z 50%Z 400%Z ["j1"; "j3"] demo_jobs_admissible) as (taken & H).
  - rewrite demo_store_run. by apply iterates_by_compute; vm_compute.
  - done.
  - rewrite demo_store_run in H. exists taken.
    assert (Hids : match (ClaimBatch "w3" LaneDefault 1%Z 50%Z 400%Z ["j1"; "j3"] demo_store).1 with Ok l => map job_ID l | Err _ => [] end = ["j3"])
      by by vm_compute.
    destruct (ClaimBatch _ _ _ _ _ _ _) as [r s']. destruct H as (-> & _). split; [done|]. cbn [fst] in Hids. by rewrite map_map in Hids.
Defined.

Definition demo_job1 : Job := Eval vm_compute in default (new_job "" (echo "" 0%Z) 0%Z 0%Z) (demo_store !! "j1").

Lemma dedup_once_witness : demo_store !! "j1" = Some demo_job1 /\
  Enqueue_job (echo "acme" 500%Z) ["j3"; "j1"] (Some "j9") 0%Z demo_store = (Ok (demo_job1, false), demo_store).
Proof.
  split; [by vm_compute|]. destruct (dedup_once demo_jobs "acme" "once" demo_job1 demo_jobs_admissible) as [_ H].
  1-4: by vm_compute.
  rewrite demo_store_run in H. apply H; [by apply iterates_by_compute; vm_compute|done|done].
Defined.

Lemma NextRetryRunAt_exact_witness :
  NextRetryRunAt 0%Z 4 DefaultBackoffBase DefaultBackoffCap = (240 * Second)%Z /\
  NextRetryRunAt 0%Z 1000 DefaultBackoffBase DefaultBackoffCap = (1800 * Second)%Z.
Proof. split; rewrite NextRetryRunAt_exact; try done; by vm_compute. Defined.
