(* ===== verification/Jobs.v ===== *)
(** * Jobs: enqueuing, workers and administration

    [backend/jobs/internal/usecases]: [Enqueue] (enqueue.go) checks the tenant's
    quota of active jobs, the runner (runner.go) polls, executes and reports, and the
    administrative use cases (admin.go) list and cancel.  They are computations over
    the ports of jobs and quotas; what they record in the metrics is an output beside
    the events.  A handler is code of another module, a function of the tenant that
    its context is fixed to and of the job.  Logging is left out, and so is the
    scheduling of goroutines: a poll, a heartbeat and the end of an execution are
    operations of their own.

    The theorems: what the end of an execution does on every branch; the counter of
    active jobs, which an administrator's cancellation does not give back; that an
    administrator's calls stay in the tenant; and that following the cursors lists
    every job once. *)

From Stdlib Require Import Ascii String ZArith Lia.
From stdpp Require Import base strings list gmap sorting.
From S2P Require Import Prelude Effects GoStrings StateMachines Keyset Quota JobStore.

Local Open Scope string_scope.
Local Open Scope go_scope.

(** ** Ports, events and errors *)

Class JobPort (S E : Type) := {
  enqueue_job : EnqueueInput -> S -> result E (Job * bool) * S;
  claim_batch : string -> ExecutionLane -> Z -> Duration -> Time -> S -> result E (list Job) * S;
  heartbeat_job : string -> string -> Duration -> Time -> S -> result E Time * S;
  complete_job : string -> string -> string -> Time -> S -> result E Job * S;
  fail_job : string -> string -> FailOutcome -> Time -> S -> result E Job * S;
  cancel_job : string -> Time -> S -> result E Job * S;
  get_job : string -> S -> result E Job * S;
  list_for_admin : AdminJobFilter -> S -> result E (list Job) * S;
  job_not_found : E;
  unscoped_filter : E;
  is_lease_lost : E -> bool;
}.

(** Events, and what the metrics record. *)
Inductive job_event :=
| JobEnqueued (at_ : Time) (jobID tenantID : string) (kind : JobKind)
| JobStarted (at_ : Time) (jobID tenantID workerID : string) (attempt : Z)
| JobSucceeded (at_ : Time) (jobID tenantID : string)
| JobFailed (at_ : Time) (jobID tenantID : string) (attempt : Z) (terminal : bool) (error : string)
| JobRetried (at_ : Time) (jobID tenantID : string) (attempt : Z) (nextRunAt : Time)
| JobCanceled (at_ : Time) (jobID tenantID : string)
| ActiveJobsExceeded (at_ : Time) (tenantID resource : string) (hardLimit : bool)
| RecordJobClaimLatency (lane : ExecutionLane) (latency : Duration)
| RecordJobDuration (lane : ExecutionLane) (outcome : string) (elapsed : Duration)
| RecordJobOutcome (lane : ExecutionLane) (outcome : string)
| RecordJobRetry (lane : ExecutionLane).

Inductive job_failure (E Q : Type) :=
| JobPortError (e : E)
| JobQuotaError (e : Q)
| ErrJobCursorMismatch
| JobText (e : errorf string).
Arguments JobPortError {E Q} e.
Arguments JobQuotaError {E Q} e.
Arguments ErrJobCursorMismatch {E Q}.
Arguments JobText {E Q} e.

(** ** Handlers *)

Definition ErrHandlerNotRegistered : string := "jobs: no handler registered for job kind".

Definition Handler := string -> Job -> result string string.
Notation HandlerRegistry := (gmap string Handler).

(** The panic is an error. *)
Definition Register (kinds : kind_lanes) (kind : JobKind) (h : Handler) (r : HandlerRegistry) : result (errorf string) HandlerRegistry :=
  if negb (JobKind_Valid kinds kind) then Err (Errorf "" "jobs: cannot register handler for unknown JobKind %q" [kind])
  else Ok (<[kind := h]> r).

Definition Lookup (r : HandlerRegistry) (kind : JobKind) : result string Handler :=
  match r !! kind with None => Err ErrHandlerNotRegistered | Some h => Ok h end.

Definition NoopEchoHandler : Handler := fun _ job => Ok (job_Params job).

Record RunnerConfig := {
  WorkerID : string;
  rc_Lane : ExecutionLane;
  PollInterval : Duration;
  Concurrency : Z;
  LeaseDuration : Duration;
  BackoffBase : Duration;
  BackoffCap : Duration;
}.

Definition withDefaults (c : RunnerConfig) : RunnerConfig :=
  let or_default v d := if v <=? 0 then d else v in
  {| WorkerID := WorkerID c; rc_Lane := rc_Lane c; PollInterval := or_default (PollInterval c) (2 * Second)%Z;
     Concurrency := or_default (Concurrency c) 4%Z; LeaseDuration := or_default (LeaseDuration c) (5 * 60 * Second)%Z;
     BackoffBase := or_default (BackoffBase c) DefaultBackoffBase; BackoffCap := or_default (BackoffCap c) DefaultBackoffCap |}.

(** The panic is an error. *)
Definition NewRunner (cfg : RunnerConfig) : result (errorf string) RunnerConfig :=
  if negb (ExecutionLane_Valid (rc_Lane cfg)) then Err (Errorf "" "jobs: cannot start Runner with invalid ExecutionLane %q" [rc_Lane cfg])
  else Ok (withDefaults cfg).

(** The interval of the heartbeats. *)
Definition heartbeat_interval (cfg : RunnerConfig) : Duration :=
  let interval := Z.quot (LeaseDuration cfg) 3 in if interval <=? 0 then Second else interval.

Inductive heartbeat_answer := Heartbeat_goes_on | Heartbeat_ends | Heartbeat_abandons.

Section usecases.
Context {S E Q : Type} `{JobPort S E} `{QuotaPort S Q}.
Notation flow := (eff S job_event (job_failure E Q)).

(** The flag is a quota repository that is not nil. *)
Context (has_QuotaRepo : bool).

(** *** Enqueuing *)

(** The check of the quota; a job that exceeds it is canceled. *)
Definition check_active_jobs (tenantID : string) (job : Job) (now : Time) : flow unit := fun s =>
  match check_quota tenantID ResourceActiveJobs 1 s with
  | (Ok _, s) => (Ok tt, s, [])
  | (Err e, s) =>
      match exceeded e with
      | Some resource => (Err (JobQuotaError e), (cancel_job (job_ID job) now s).2, [ActiveJobsExceeded now tenantID resource true])
      | None => (Err (JobQuotaError e), s, [])
      end
  end.

(** The input as it is stored. *)
Definition completed_input (input : EnqueueInput) (lane : ExecutionLane) (now : Time) : EnqueueInput :=
  {| en_TenantID := en_TenantID input; en_Kind := en_Kind input; en_Lane := lane; en_Params := en_Params input;
     en_DedupKey := en_DedupKey input;
     en_MaxAttempts := if en_MaxAttempts input <=? 0 then DefaultMaxAttempts else en_MaxAttempts input;
     en_RunAt := if IsZero (en_RunAt input) then now else en_RunAt input; en_Now := now |}.

Definition Enqueue (kinds : kind_lanes) (input : EnqueueInput) (now clock : Time) : flow Job :=
  match LaneFor kinds (en_Kind input) with
  | None => eff_fail (JobText (Errorf "" "jobs: invalid job kind %q" [en_Kind input]))
  | Some lane =>
      let now := if IsZero now then clock else now in
      let input := completed_input input lane now in
      let! (job, created) := call JobPortError (enqueue_job input) in
      if negb created then eff_ret job
      else
        do! (if has_QuotaRepo then check_active_jobs (en_TenantID input) job now else eff_ret tt) in
        do! emit (JobEnqueued now (job_ID job) (job_TenantID job) (job_Kind job)) in
        eff_ret job
  end.

(** *** The runner *)

Definition decrementActiveJobsQuota (tenantID : string) : flow unit :=
  if has_QuotaRepo then (let! _ := ignore (free_quota tenantID ResourceActiveJobs 1) in eff_ret tt) else eff_ret tt.

Definition start_job (cfg : RunnerConfig) (now : Time) (job : Job) : flow unit :=
  do! emit (JobStarted now (job_ID job) (job_TenantID job) (WorkerID cfg) (job_Attempts job)) in
  let latency := Sub now (job_RunAt job) in
  if 0 <? latency then emit (RecordJobClaimLatency (rc_Lane cfg) latency) else eff_ret tt.

(** The jobs whose execution a poll starts, with [busy] executions running. *)
Definition poll (cfg : RunnerConfig) (busy : Z) (now : Time) : flow (list Job) :=
  let available := (Concurrency cfg - busy)%Z in
  if available <=? 0 then eff_ret []
  else
    let! claimed := ignore (claim_batch (WorkerID cfg) (rc_Lane cfg) available (LeaseDuration cfg) now) in
    match claimed with
    | None => eff_ret []
    | Some claimed => do! eff_for_each (start_job cfg now) claimed in eff_ret claimed
    end.

(** One beat of the loop: whether it goes on, and whether the handler is abandoned. *)
Definition heartbeat_beat (cfg : RunnerConfig) (job : Job) (now : Time) : flow heartbeat_answer := fun s =>
  let '(r, s) := heartbeat_job (job_ID job) (WorkerID cfg) (LeaseDuration cfg) now s in
  (Ok match r with
      | Ok _ => Heartbeat_goes_on
      | Err e => if is_lease_lost e then Heartbeat_abandons else Heartbeat_ends
      end, s, []).

Definition complete (cfg : RunnerConfig) (job : Job) (result : string) (now : Time) : flow unit :=
  let! updated := ignore (complete_job (job_ID job) (WorkerID cfg) result now) in
  match updated with
  | None => eff_ret tt
  | Some updated =>
      do! decrementActiveJobsQuota (job_TenantID updated) in
      do! emit (JobSucceeded now (job_ID updated) (job_TenantID updated)) in
      emit (RecordJobOutcome (rc_Lane cfg) "succeeded")
  end.

(** What the failure of an attempt comes to. *)
Definition fail_outcome (cfg : RunnerConfig) (job : Job) (handlerErr : string) (now : Time) : FailOutcome :=
  if job_MaxAttempts job <=? job_Attempts job then {| fo_NextStatus := StatusFailed; fo_RunAt := 0%Z; fo_Error := handlerErr |}
  else {| fo_NextStatus := StatusQueued; fo_RunAt := NextRetryRunAt now (job_Attempts job) (BackoffBase cfg) (BackoffCap cfg);
          fo_Error := handlerErr |}.

Definition fail (cfg : RunnerConfig) (job : Job) (handlerErr : string) (now : Time) : flow unit :=
  let terminal := job_MaxAttempts job <=? job_Attempts job in
  let outcome := fail_outcome cfg job handlerErr now in
  let! updated := ignore (fail_job (job_ID job) (WorkerID cfg) outcome now) in
  match updated with
  | None => eff_ret tt
  | Some updated =>
      do! (if terminal then decrementActiveJobsQuota (job_TenantID updated) else eff_ret tt) in
      do! emit (JobFailed now (job_ID updated) (job_TenantID updated) (job_Attempts job) terminal handlerErr) in
      if negb terminal then
        do! emit (JobRetried now (job_ID updated) (job_TenantID updated) (job_Attempts job) (fo_RunAt outcome)) in
        emit (RecordJobRetry (rc_Lane cfg))
      else emit (RecordJobOutcome (rc_Lane cfg) "failed")
  end.

(** The readings of the clock are in their order; [lost] is that a heartbeat found
    the lease lost before the handler returned. *)
Definition execute (cfg : RunnerConfig) (handlers : HandlerRegistry) (job : Job) (lost : bool) (startedAt endedAt now : Time) : flow unit :=
  match Lookup handlers (job_Kind job) with
  | Err e => fail cfg job e startedAt
  | Ok handler =>
      let handled := handler (job_TenantID job) job in
      let elapsed := Sub endedAt startedAt in
      if lost then eff_ret tt
      else match handled with
           | Err e =>
               do! emit (RecordJobDuration (rc_Lane cfg) "failed" elapsed) in
               fail cfg job e now
           | Ok result =>
               do! emit (RecordJobDuration (rc_Lane cfg) "succeeded" elapsed) in
               complete cfg job result now
           end
  end.

(** *** Administration *)

Record TenantScope := { ts_TenantID : string; ts_AllTenants : bool }.

Definition scope_valid (sc : TenantScope) : bool := ts_AllTenants sc || (ts_TenantID sc <>? "").
Definition includes (sc : TenantScope) (job : Job) : bool := ts_AllTenants sc || (job_TenantID job =? ts_TenantID sc).

Record ListJobsInput := {
  lj_Scope : TenantScope;
  lj_Statuses : list JobStatus;
  lj_Kinds : list JobKind;
  lj_Lane : ExecutionLane;
  lj_Limit : Z;
  lj_Cursor : string;
}.

Record JobPage := { page_Jobs : list Job; page_NextCursor : string }.

Definition defaultAdminJobLimit : Z := 50.
Definition maxAdminJobLimit : Z := 200.

Record jobCursor := { jc_CreatedAt : Time; jc_ID : string; jc_Fingerprint : string }.

(** [time.Format] and [time.Parse] for RFC 3339 with nanoseconds. *)
Context (Format : Time -> string) (Parse : string -> option Time).

Definition encodeJobCursor (c : jobCursor) : string :=
  EncodeToString (Join [Format (jc_CreatedAt c); jc_ID c; jc_Fingerprint c] "|").

Definition decodeJobCursor (s : string) : option jobCursor :=
  match DecodeString s with
  | None => None
  | Some raw =>
      match Split raw "|" with
      | [createdAt; id; fingerprint] =>
          match Parse createdAt with
          | None => None
          | Some t => Some {| jc_CreatedAt := t; jc_ID := id; jc_Fingerprint := fingerprint |}
          end
      | _ => None
      end
  end.

Definition jobFilterFingerprint (in_ : ListJobsInput) : string :=
  ts_TenantID (lj_Scope in_) ++ "/" ++ (if ts_AllTenants (lj_Scope in_) then "true" else "false") ++ "/" ++
  Join (lj_Statuses in_) "," ++ "/" ++ Join (lj_Kinds in_) "," ++ "/" ++ lj_Lane in_.

Definition page_limit (limit : Z) : Z :=
  let limit := if limit <=? 0 then defaultAdminJobLimit else limit in
  if maxAdminJobLimit <? limit then maxAdminJobLimit else limit.

Definition admin_filter (in_ : ListJobsInput) (createdAt : Time) (id : string) : AdminJobFilter :=
  {| af_TenantID := ts_TenantID (lj_Scope in_); af_AllTenants := ts_AllTenants (lj_Scope in_); af_Statuses := lj_Statuses in_;
     af_Kinds := lj_Kinds in_; af_Lane := lj_Lane in_; af_Limit := page_limit (lj_Limit in_) + 1;
     af_BeforeCreatedAt := createdAt; af_BeforeID := id |}.

(** Where the page starts. *)
Definition page_anchor (in_ : ListJobsInput) : result (job_failure E Q) (Time * string) :=
  if lj_Cursor in_ =? "" then Ok (0%Z, "")
  else match decodeJobCursor (lj_Cursor in_) with
       | None => Err ErrJobCursorMismatch
       | Some anchor =>
           if jc_Fingerprint anchor <>? jobFilterFingerprint in_ then Err ErrJobCursorMismatch
           else Ok (jc_CreatedAt anchor, jc_ID anchor)
       end.

Definition job_page (in_ : ListJobsInput) (jobs : list Job) : JobPage :=
  let limit := page_limit (lj_Limit in_) in
  if limit <? Z.of_nat (length jobs) then
    let page := take (Z.to_nat limit) jobs in
    {| page_Jobs := page;
       page_NextCursor := match last page with
                          | Some j => encodeJobCursor {| jc_CreatedAt := job_CreatedAt j; jc_ID := job_ID j; jc_Fingerprint := jobFilterFingerprint in_ |}
                          | None => ""
                          end |}
  else {| page_Jobs := jobs; page_NextCursor := "" |}.

Definition ListJobsForAdmin (in_ : ListJobsInput) : flow JobPage :=
  refuse negb (scope_valid (lj_Scope in_)) with JobPortError unscoped_filter in
  let! (createdAt, id) := lift (page_anchor in_) in
  let! jobs := call JobPortError (list_for_admin (admin_filter in_ createdAt id)) in
  eff_ret (job_page in_ jobs).

Definition GetJobForAdmin (jobID : string) (sc : TenantScope) : flow Job :=
  refuse negb (scope_valid sc) with JobPortError unscoped_filter in
  let! job := call JobPortError (get_job jobID) in
  refuse negb (includes sc job) with JobPortError job_not_found in
  eff_ret job.

Definition CancelJobForAdmin (jobID : string) (sc : TenantScope) (now : Time) : flow Job :=
  do! GetJobForAdmin jobID sc in
  let! canceled := call JobPortError (cancel_job jobID now) in
  do! emit (JobCanceled now (job_ID canceled) (job_TenantID canceled)) in
  eff_ret canceled.
End usecases.

(** ** The memory stores *)

Record JobsState := { js_jobs : JobRepository; js_quota : QuotaRepository }.

Definition on_jobs {E A} (op : JobRepository -> result E A * JobRepository) (s : JobsState) : result E A * JobsState :=
  let '(r, m) := op (js_jobs s) in (r, {| js_jobs := m; js_quota := js_quota s |}).

Definition on_job_quota {A} (op : QuotaRepository -> result quota_error A * QuotaRepository) (s : JobsState) : result quota_error A * JobsState :=
  let '(r, q) := op (js_quota s) in (r, {| js_jobs := js_jobs s; js_quota := q |}).

(** The order of iterations, the identifier that is drawn and the reading of the
    clock of one call. *)
Definition memory_job_port (order : list string) (id : option string) (clock : Time) : JobPort JobsState job_error := {|
  enqueue_job input := on_jobs (Enqueue_job input order id clock);
  claim_batch w lane n d now := on_jobs (ClaimBatch w lane n d now order);
  heartbeat_job jobID w d now := on_jobs (Heartbeat jobID w d now);
  complete_job jobID w result now := on_jobs (Complete jobID w result now);
  fail_job jobID w outcome now := on_jobs (Fail_job jobID w outcome now);
  cancel_job jobID now := on_jobs (Cancel jobID now);
  get_job jobID := on_jobs (fun s => (Get_job jobID s, s));
  list_for_admin filter := on_jobs (fun s => (ListForAdmin filter order s, s));
  job_not_found := ErrJobNotFound;
  unscoped_filter := ErrAdminJobFilterUnscoped;
  is_lease_lost e := match e with ErrJobLeaseLost => true | _ => false end;
|}.

#[export] Instance memory_job_quota : QuotaPort JobsState quota_error := {
  check_quota t res d := on_job_quota (CheckAndIncrement t res d);
  free_quota t res d := on_job_quota (Decrement t res d);
  exceeded e := match e with QuotaExceededError _ res => Some res | QuotaError _ _ => None end;
}.

(** ** Executions *)

Section executions.
Context (has_QuotaRepo : bool) (order : list string) (id : option string) (clock : Time).
#[local] Instance executions_port : JobPort JobsState job_error := memory_job_port order id clock.
Notation flow := (eff JobsState job_event (job_failure job_error quota_error)).
Notation execute_job := (execute (S := JobsState) (E := job_error) (Q := quota_error) has_QuotaRepo).

Definition freed_quota (tenantID : string) (q : QuotaRepository) : QuotaRepository :=
  if has_QuotaRepo then (Decrement tenantID ResourceActiveJobs 1 q).2 else q.

Lemma decrement_run tenantID s :
  (decrementActiveJobsQuota has_QuotaRepo tenantID : flow unit) s
  = (Ok tt, {| js_jobs := js_jobs s; js_quota := freed_quota tenantID (js_quota s) |}, []).
Proof.
  unfold decrementActiveJobsQuota, freed_quota. destruct has_QuotaRepo; [|by destruct s].
  unfold eff_bind, ignore. simpl. unfold on_job_quota.
  by destruct (Decrement tenantID ResourceActiveJobs 1 (js_quota s)) as [r q].
Qed.

(** The lease of the worker is alive. *)
Definition holds_lease (w : string) (now : Time) (j : Job) : Prop :=
  exists u, lease_of j = Leased w u (job_Attempts j) /\ (now <= u)%Z.

Lemma holds_leaseHeld w now j : job_shape j -> leaseHeld j w now = true <-> holds_lease w now j.
Proof.
  intros Hsh. split.
  - intros (u & _ & _ & _ & Hl & Hu)%held_lease; [|done]. exists u. split; [done|]. by apply Z.leb_le.
  - intros (u & Hl & Hu). rewrite leaseHeld_shape, Hl, bool_decide_true by done. by apply Z.leb_le in Hu as ->.
Qed.

Lemma held_running w now j : job_shape j -> leaseHeld j w now = true -> job_Status j = StatusRunning.
Proof. by intros Hsh (u & Hs & _)%held_lease. Qed.

(** The reports of an attempt that ended. *)
Definition succeeded (result : string) (now : Time) (j : Job) : Job :=
  job_with StatusSucceeded result (job_Error j) (job_Attempts j) None (job_RunAt j) now j.
Definition dead_lettered (error : string) (now : Time) (j : Job) : Job :=
  job_with StatusFailed (job_Result j) (Some error) (job_Attempts j) None (job_RunAt j) now j.
Definition retried (error : string) (runAt now : Time) (j : Job) : Job :=
  job_with StatusQueued (job_Result j) (Some error) (job_Attempts j) None runAt now j.

Definition put_job (j : Job) (s : JobsState) : JobsState := {| js_jobs := <[job_ID j := j]> (js_jobs s); js_quota := js_quota s |}.
Definition free_slot (tenantID : string) (s : JobsState) : JobsState := {| js_jobs := js_jobs s; js_quota := freed_quota tenantID (js_quota s) |}.

Lemma complete_run cfg job result now s : jobs_ok (js_jobs s) ->
  (complete has_QuotaRepo cfg job result now : flow unit) s =
  match js_jobs s !! job_ID job with
  | Some j =>
      if leaseHeld j (WorkerID cfg) now then
        (Ok tt, free_slot (job_TenantID j) (put_job (succeeded result now j) s),
         [JobSucceeded now (job_ID j) (job_TenantID j); RecordJobOutcome (rc_Lane cfg) "succeeded"])
      else (Ok tt, s, [])
  | None => (Ok tt, s, [])
  end.
Proof.
  intros Hok. unfold complete, eff_bind at 1, ignore. cbn [complete_job executions_port memory_job_port]. unfold on_jobs, Complete.
  destruct (js_jobs s !! job_ID job) as [j|] eqn:Hj; [|by destruct s]. destruct (leaseHeld j (WorkerID cfg) now) eqn:Hh; [|by destruct s].
  rewrite (held_running _ _ _ (ok_shape _ Hok _ _ Hj) Hh). cbn [negb].
  assert (TransitionJobLifecycle StatusRunning EventComplete = Ok StatusSucceeded) as -> by done. cbn [fst snd].
  rewrite <- (ok_key _ Hok _ _ Hj). unfold eff_bind. cbn [job_TenantID job_with]. by rewrite decrement_run.
Qed.

Lemma fail_run cfg job e now s : jobs_ok (js_jobs s) ->
  (fail has_QuotaRepo cfg job e now : flow unit) s =
  match js_jobs s !! job_ID job with
  | Some j =>
      if leaseHeld j (WorkerID cfg) now then
        if job_MaxAttempts job <=? job_Attempts job then
          (Ok tt, free_slot (job_TenantID j) (put_job (dead_lettered e now j) s),
           [JobFailed now (job_ID j) (job_TenantID j) (job_Attempts job) true e; RecordJobOutcome (rc_Lane cfg) "failed"])
        else
          let runAt := NextRetryRunAt now (job_Attempts job) (BackoffBase cfg) (BackoffCap cfg) in
          (Ok tt, put_job (retried e runAt now j) s,
           [JobFailed now (job_ID j) (job_TenantID j) (job_Attempts job) false e;
            JobRetried now (job_ID j) (job_TenantID j) (job_Attempts job) runAt; RecordJobRetry (rc_Lane cfg)])
      else (Ok tt, s, [])
  | None => (Ok tt, s, [])
  end.
Proof.
  intros Hok. unfold fail, fail_outcome, eff_bind at 1, ignore. cbn [fail_job executions_port memory_job_port]. unfold on_jobs, Fail_job.
  destruct (js_jobs s !! job_ID job) as [j|] eqn:Hj; [|by destruct s]. destruct (leaseHeld j (WorkerID cfg) now) eqn:Hh; [|by destruct s].
  rewrite (held_running _ _ _ (ok_shape _ Hok _ _ Hj) Hh). rewrite <- (ok_key _ Hok _ _ Hj).
  destruct (job_MaxAttempts job <=? job_Attempts job); cbv zeta; cbn [negb fo_NextStatus fo_RunAt fo_Error].
  - change (TransitionJobLifecycle StatusRunning _) with (@Ok transition_error string StatusFailed).
    unfold eff_bind. cbn [job_TenantID job_with]. by rewrite decrement_run.
  - change (TransitionJobLifecycle StatusRunning _) with (@Ok transition_error string StatusQueued).
    done.
Qed.

(** The end of an execution, on every branch.  Without the lease, or when a
    heartbeat found it lost, nothing changes.  With it, a result ends the job and
    frees its slot; an error ends it when the attempts are used up, and otherwise
    puts it back to wait, keeping its slot; the events say which. *)
Theorem execution_outcome cfg handlers job handler lost startedAt endedAt now s :
  jobs_ok (js_jobs s) -> Lookup handlers (job_Kind job) = Ok handler ->
  let '(r, s', w) := execute_job cfg handlers job lost startedAt endedAt now s in
  let elapsed := Sub endedAt startedAt in
  r = Ok tt /\
  (lost = true \/ (forall j, js_jobs s !! job_ID job = Some j -> ~ holds_lease (WorkerID cfg) now j) ->
     s' = s /\ forall e, e ∈ w -> exists outcome, e = RecordJobDuration (rc_Lane cfg) outcome elapsed) /\
  (forall j, lost = false -> js_jobs s !! job_ID job = Some j -> holds_lease (WorkerID cfg) now j ->
     match handler (job_TenantID job) job with
     | Ok result =>
         s' = free_slot (job_TenantID j) (put_job (succeeded result now j) s) /\
         w = [RecordJobDuration (rc_Lane cfg) "succeeded" elapsed; JobSucceeded now (job_ID j) (job_TenantID j);
              RecordJobOutcome (rc_Lane cfg) "succeeded"]
     | Err e =>
         if job_MaxAttempts job <=? job_Attempts job then
           s' = free_slot (job_TenantID j) (put_job (dead_lettered e now j) s) /\
           w = [RecordJobDuration (rc_Lane cfg) "failed" elapsed;
                JobFailed now (job_ID j) (job_TenantID j) (job_Attempts job) true e; RecordJobOutcome (rc_Lane cfg) "failed"]
         else
           let runAt := NextRetryRunAt now (job_Attempts job) (BackoffBase cfg) (BackoffCap cfg) in
           s' = put_job (retried e runAt now j) s /\
           w = [RecordJobDuration (rc_Lane cfg) "failed" elapsed;
                JobFailed now (job_ID j) (job_TenantID j) (job_Attempts job) false e;
                JobRetried now (job_ID j) (job_TenantID j) (job_Attempts job) runAt; RecordJobRetry (rc_Lane cfg)]
     end).
Proof.
  intros Hok Hh. unfold execute. rewrite Hh. destruct lost.
  { split; [done|]. split; [|done]. intros _. split; [done|]. intros e He. by apply not_elem_of_nil in He. }
  assert (Hcase : (exists j, js_jobs s !! job_ID job = Some j /\ leaseHeld j (WorkerID cfg) now = true) \/
    (forall j, js_jobs s !! job_ID job = Some j -> leaseHeld j (WorkerID cfg) now = false)).
  { destruct (js_jobs s !! job_ID job) as [j|]; [|by right]. destruct (leaseHeld j (WorkerID cfg) now) eqn:Hl; [left; by exists j|].
    right. by intros j' [= <-]. }
  destruct (handler (job_TenantID job) job) as [result|e].
  - rewrite (eff_bind_run _ _ _ tt s [RecordJobDuration (rc_Lane cfg) "succeeded" (Sub endedAt startedAt)] eq_refl), complete_run by done.
    destruct Hcase as [(j & Hj & Hl)|Hn].
    + rewrite Hj, Hl. split; [done|]. apply holds_leaseHeld in Hl; [|by eapply ok_shape]. split; [intros [?|Hno]; [done|by destruct (Hno j)]|].
      by intros j' _ [= <-] _.
    + destruct (js_jobs s !! job_ID job) as [j|] eqn:Hj; [rewrite Hn by done|]; (split; [done|]); (split; [|intros j' _ [= <-] Hl]).
      * intros _. split; [done|]. intros e He. apply list_elem_of_singleton in He as ->. by eexists.
      * apply holds_leaseHeld in Hl; [|by eapply ok_shape]. by rewrite Hn in Hl.
      * intros _. split; [done|]. intros e He. apply list_elem_of_singleton in He as ->. by eexists.
  - rewrite (eff_bind_run _ _ _ tt s [RecordJobDuration (rc_Lane cfg) "failed" (Sub endedAt startedAt)] eq_refl), fail_run by done.
    destruct Hcase as [(j & Hj & Hl)|Hn].
    + rewrite Hj, Hl. apply holds_leaseHeld in Hl; [|by eapply ok_shape].
      destruct (job_MaxAttempts job <=? job_Attempts job); (split; [done|]); (split; [intros [?|Hno]; [done|by destruct (Hno j)]|]); by intros j' _ [= <-] _.
    + destruct (js_jobs s !! job_ID job) as [j|] eqn:Hj; [rewrite Hn by done|]; (split; [done|]); (split; [|intros j' _ [= <-] Hl]).
      * intros _. split; [done|]. intros e' He. apply list_elem_of_singleton in He as ->. by eexists.
      * apply holds_leaseHeld in Hl; [|by eapply ok_shape]. by rewrite Hn in Hl.
      * intros _. split; [done|]. intros e' He. apply list_elem_of_singleton in He as ->. by eexists.
Qed.
End executions.

(** ** The counter of active jobs *)

Definition live (tenantID : string) (j : Job) : bool := (job_TenantID j =? tenantID) && negb (IsJobLifecycleTerminal (job_Status j)).

Definition ends (e : lease_event) : bool := match e with Completed _ _ | Buried _ _ | Canceled => true | _ => false end.

Lemma shape_terminal j : job_shape j -> IsJobLifecycleTerminal (job_Status j) = match lease_of j with Ended _ => true | _ => false end.
Proof.
  intros [Hs Ho He|w u Hs Ho He|Hs Ho He].
  - unfold lease_of. by rewrite Hs.
  - rewrite (lease_running j w u) by done. by rewrite Hs.
  - rewrite lease_unleased, Hs; [done|done|]. intros Hq. by rewrite Hq in Hs.
Qed.

(** The end of a job takes one from the count of its tenant, no other event does. *)
Lemma count_implements {A} t id e (s : JobRepository) (out : result job_error A * JobRepository) j : jobs_ok s -> implements id e s out ->
  s !! id = Some j ->
  count_of (live t) out.2 = (count_of (live t) s - one (res_ok out.1 && ends e && bool_decide (job_TenantID j = t)))%Z.
Proof.
  unfold implements. intros Hok Hi Hj. rewrite Hj in Hi. pose proof (ok_shape _ Hok _ _ Hj) as Hsh.
  destruct (lease_step e (lease_of j)) as [st|] eqn:Hst; [|destruct Hi as [-> ->]; simpl; lia].
  destruct Hi as (-> & j' & -> & (st' & r & er & a & l & ra & up & ->) & Hsh' & Hl).
  rewrite count_of_insert. unfold holds_at, live at 2 3. rewrite Hj.
  pose proof (step_unfinished _ _ _ Hsh Hst) as Hu. unfold unfinished in Hu. rewrite Hu, (shape_terminal _ Hsh'), Hl. cbn [job_TenantID job_with andb].
  assert (match st with Ended _ => true | _ => false end = ends e) as ->.
  { destruct e; simpl in Hst; destruct (lease_of j); simpl in Hst; try done; try (by injection Hst as <-);
      destruct (_ && _) in Hst || destruct (_ <=? _) in Hst || destruct (_ <? _) in Hst; try done; by injection Hst as <-. }
  destruct (job_TenantID j =? t), (ends e); simpl; lia.
Qed.

Section counting.
Context (kinds : kind_lanes).
Notation flow := (eff JobsState job_event (job_failure job_error quota_error)).

(** The use cases that change the stores, with the choices that a call makes. *)
Inductive jobs_use :=
| Use_enqueue (input : EnqueueInput) (now clock : Time) (order : list string) (id : option string)
| Use_poll (cfg : RunnerConfig) (busy : Z) (now : Time) (order : list string)
| Use_beat (cfg : RunnerConfig) (job : Job) (now : Time)
| Use_execute (cfg : RunnerConfig) (handlers : HandlerRegistry) (job : Job) (lost : bool) (startedAt endedAt now : Time)
| Use_cancel (jobID : string) (sc : TenantScope) (now : Time).

Definition anyone : JobPort JobsState job_error := memory_job_port [] None 0%Z.

Definition use_apply (u : jobs_use) (s : JobsState) : JobsState :=
  match u with
  | Use_enqueue input now clock order id =>
      (@Enqueue _ _ quota_error (memory_job_port order id clock) _ true kinds input now clock s).1.2
  | Use_poll cfg busy now order => (@poll _ _ quota_error (memory_job_port order None 0%Z) cfg busy now s).1.2
  | Use_beat cfg job now => (@heartbeat_beat _ _ quota_error anyone cfg job now s).1.2
  | Use_execute cfg handlers job lost startedAt endedAt now =>
      (@execute _ _ quota_error anyone _ true cfg handlers job lost startedAt endedAt now s).1.2
  | Use_cancel jobID sc now => (@CancelJobForAdmin _ _ quota_error anyone jobID sc now s).1.2
  end.

(** The cancellation of a job of the tenant. *)
Definition cancels (t : string) (u : jobs_use) (s : JobsState) : Z :=
  match u with
  | Use_cancel jobID sc now =>
      match (@CancelJobForAdmin _ _ quota_error anyone jobID sc now s).1.1 with
      | Ok job => one (job_TenantID job =? t)
      | Err _ => 0%Z
      end
  | _ => 0%Z
  end.

Definition use_admissible (u : jobs_use) (s : JobsState) : Prop :=
  match u with
  | Use_enqueue _ _ _ order id => iterates order (js_jobs s) /\ forall i, id = Some i -> js_jobs s !! i = None
  | Use_poll _ _ _ order => iterates order (js_jobs s)
  | _ => True
  end.

Fixpoint uses_run (l : list jobs_use) (s : JobsState) : JobsState :=
  match l with [] => s | u :: l => uses_run l (use_apply u s) end.

Fixpoint uses_admissible (l : list jobs_use) (s : JobsState) : Prop :=
  match l with [] => True | u :: l => use_admissible u s /\ uses_admissible l (use_apply u s) end.

Fixpoint canceled (t : string) (l : list jobs_use) (s : JobsState) : Z :=
  match l with [] => 0%Z | u :: l => (cancels t u s + canceled t l (use_apply u s))%Z end.

(** The slots that were given away for good are [leaked]. *)
Record jobs_counted (leaked : string -> Z) (s : JobsState) : Prop := {
  jc_jobs : jobs_ok (js_jobs s);
  jc_quota : quota_ok (js_quota s);
  jc_leaked : forall t, (0 <= leaked t)%Z;
  jc_count : forall t, used (js_quota s) t ResourceActiveJobs = (count_of (live t) (js_jobs s) + leaked t)%Z;
  jc_limit : forall t, (used (js_quota s) t ResourceActiveJobs <= Z.max 0 (limit_of (js_quota s) t ResourceActiveJobs))%Z;
}.

Lemma active_small s leaked t : jobs_counted leaked s -> small (used (js_quota s) t ResourceActiveJobs).
Proof. intros Hs. by apply (usage_ok _ (jc_quota _ _ Hs)). Qed.

(** The jobs changed, and no count did. *)
Lemma counted_jobs leaked s m : jobs_counted leaked s -> jobs_ok m -> (forall t, count_of (live t) m = count_of (live t) (js_jobs s)) ->
  jobs_counted leaked {| js_jobs := m; js_quota := js_quota s |}.
Proof. intros [H1 H2 H3 H4 H5] Hm Hc. split; [done..| |done]. intros t. by rewrite Hc. Qed.

(** A job of the tenant ends and its slot is freed. *)
Lemma counted_freed leaked s t m : jobs_counted leaked s -> jobs_ok m -> (1 <= count_of (live t) (js_jobs s))%Z ->
  (forall t', count_of (live t') m = (count_of (live t') (js_jobs s) - one (bool_decide (t = t')))%Z) ->
  jobs_counted leaked {| js_jobs := m; js_quota := (Decrement t ResourceActiveJobs 1 (js_quota s)).2 |}.
Proof.
  intros Hs Hm Hpos Hc. pose proof (active_small s leaked t Hs) as Hsm.
  pose proof (quota_step_ok (Free t ResourceActiveJobs 1) (js_quota s) (jc_quota _ _ Hs)) as Hq. cbn [quota_step small_call] in Hq.
  pose proof (Decrement_hard t ResourceActiveJobs 1 (js_quota s) eq_refl eq_refl Hsm) as Hd.
  destruct (Decrement t ResourceActiveJobs 1 (js_quota s)) as [r q]. cbn [snd] in Hq |- *.
  destruct Hd as (_ & Hquotas & Hused); [done|]. destruct Hs as [H1 H2 H3 H4 H5].
  assert (Hu : forall t', used q t' ResourceActiveJobs = (used (js_quota s) t' ResourceActiveJobs - one (bool_decide (t = t')))%Z).
  { intros t'. rewrite Hused. specialize (H3 t). specialize (H4 t). destruct (decide _) as [[-> _]|Hne].
    - rewrite bool_decide_true by done. unfold one. lia.
    - rewrite bool_decide_false by (intros ->; by apply Hne). unfold one. lia. }
  split; [done|by apply Hq|done| |]; cbn [js_jobs js_quota]; intros t'; rewrite Hu.
  - rewrite Hc, H4. lia.
  - unfold limit_of, quota_of. rewrite Hquotas. specialize (H5 t'). unfold limit_of, quota_of in H5. destruct (t =? t'); unfold one; lia.
Qed.

Lemma count_live_pos t m id j : m !! id = Some j -> unfinished j -> job_TenantID j = t -> (1 <= count_of (live t) m)%Z.
Proof.
  intros Hj Hu Ht. apply (count_of_pos _ _ id). unfold holds_at, live. rewrite Hj, bool_decide_true by done. by rewrite Hu.
Qed.

(** *** The use cases *)

Lemma enqueue_counted leaked s input now clock order id : jobs_counted leaked s ->
  use_admissible (Use_enqueue input now clock order id) s -> jobs_counted leaked (use_apply (Use_enqueue input now clock order id) s).
Proof.
  intros Hs [Hit Hfresh]. cbn [use_apply]. unfold Enqueue. destruct (LaneFor kinds (en_Kind input)) as [lane|]; [|done].
  set (n := if IsZero now then clock else now). set (inp := completed_input input lane n).
  pose proof (jc_jobs _ _ Hs) as Hok. pose proof (Enqueue_ok inp order id clock _ Hok Hit Hfresh) as Hok'.
  unfold eff_bind at 1, call. cbn [enqueue_job memory_job_port]. unfold on_jobs at 1.
  destruct (Enqueue_cases inp order id clock _ Hok Hit) as [(j & key & -> & _)|[_ [[_ ->]|(i & now' & runAt & Hi & Heq)]]]; [by destruct s..|].
  rewrite Heq in Hok' |- *. cbn [snd negb] in Hok' |- *. set (j := new_job i inp now' runAt) in *.
  assert (Hnone : js_jobs s !! i = None) by by apply Hfresh.
  assert (Hcount : forall t, count_of (live t) (<[i := j]> (js_jobs s)) = (count_of (live t) (js_jobs s) + one (bool_decide (en_TenantID input = t)))%Z).
  { intros t. rewrite count_of_insert. unfold holds_at. rewrite Hnone. unfold live at 2. cbn. destruct (en_TenantID input =? t); simpl; lia. }
  unfold eff_bind at 1, check_active_jobs. cbn [check_quota memory_job_quota]. unfold on_job_quota. cbn [js_quota js_jobs].
  change (en_TenantID inp) with (en_TenantID input).
  pose proof (active_small s leaked (en_TenantID input) Hs) as Hsm.
  pose proof (CheckAndIncrement_hard (en_TenantID input) ResourceActiveJobs 1 (js_quota s) eq_refl eq_refl Hsm) as Hq.
  pose proof (quota_step_ok (Increment (en_TenantID input) ResourceActiveJobs 1) (js_quota s) (jc_quota _ _ Hs)) as Hqok. cbn [quota_step small_call] in Hqok.
  destruct (CheckAndIncrement (en_TenantID input) ResourceActiveJobs 1 (js_quota s)) as [[[]|e] q]; cbn [snd] in Hqok; destruct Hq as [Hquotas Hq]; [done| |done|].
  - destruct Hq as [Hle Hused]. destruct Hs as [H1 H2 H3 H4 H5].
    change (jobs_counted leaked {| js_jobs := <[i := j]> (js_jobs s); js_quota := q |}).
    assert (Hu : forall t, used q t ResourceActiveJobs = (used (js_quota s) t ResourceActiveJobs + one (bool_decide (en_TenantID input = t)))%Z).
    { intros t. rewrite Hused. destruct (decide _) as [[-> _]|Hne].
      - rewrite bool_decide_true by done. unfold one. lia.
      - rewrite bool_decide_false by (intros <-; by apply Hne). unfold one. lia. }
    split; cbn [js_jobs js_quota]; [exact Hok'|by apply Hqok|exact H3| |]; intros t; rewrite Hu.
    + rewrite Hcount, H4. lia.
    + unfold limit_of, quota_of in Hle, H5 |- *. rewrite Hquotas. specialize (H5 t). destruct (bool_decide_reflect (en_TenantID input = t)) as [<-|]; unfold one; lia.
  - destruct Hq as (-> & _ & Hused). cbn [exceeded memory_job_quota cancel_job memory_job_port]. unfold on_jobs. cbn [js_jobs js_quota fst snd].
    change (job_ID j) with i.
    pose proof (Cancel_implements _ Hok' i n) as Hi'. pose proof (lookup_insert_eq (M := gmap string) (js_jobs s) i j) as Hj.
    pose proof (requested_follows (Cancels i n) i Canceled _ Hok' eq_refl) as [Hok2 _]. unfold job_apply in Hok2. cbn [job_serve] in Hok2.
    assert (Hc : forall t, count_of (live t) (Cancel i n (<[i := j]> (js_jobs s))).2 = count_of (live t) (js_jobs s)).
    { intros t. rewrite (count_implements t i Canceled _ _ j Hok' Hi' Hj), Hcount. unfold implements in Hi'. rewrite Hj in Hi'.
      destruct Hi' as [-> _]. cbn. destruct (en_TenantID input =? t); simpl; lia. }
    destruct (Cancel i n (<[i := j]> (js_jobs s))) as [r m]. cbn [snd] in Hc, Hok2 |- *.
    destruct Hs as [H1 H2 H3 H4 H5]. change (jobs_counted leaked {| js_jobs := m; js_quota := q |}).
    split; cbn [js_jobs js_quota]; [done|by apply Hqok|done| |]; intros t; rewrite Hused.
    + by rewrite Hc, H4.
    + unfold limit_of, quota_of. rewrite Hquotas. apply H5.
Qed.

Lemma eff_for_each_state {A} (f : A -> flow unit) l s : (forall x, exists w, f x s = (Ok tt, s, w)) ->
  exists w, eff_for_each f l s = (Ok tt, s, w).
Proof.
  intros Hf. induction l as [|x l [w IH]]; [by eexists|]. destruct (Hf x) as [w0 Hx]. eexists. cbn [eff_for_each].
  by rewrite (eff_bind_run _ _ _ _ _ _ Hx), IH.
Qed.

Lemma poll_counted leaked s cfg busy now order : jobs_counted leaked s -> iterates order (js_jobs s) ->
  jobs_counted leaked (use_apply (Use_poll cfg busy now order) s).
Proof.
  intros Hs Hit. cbn [use_apply]. unfold poll. destruct (Z.leb_spec (Concurrency cfg - busy) 0) as [|Hn]; [done|].
  unfold eff_bind at 1, ignore. cbn [claim_batch memory_job_port]. unfold on_jobs. pose proof (jc_jobs _ _ Hs) as Hok.
  set (n := (Concurrency cfg - busy)%Z) in *.
  destruct (claims_follow (WorkerID cfg) (rc_Lane cfg) n (LeaseDuration cfg) now order (js_jobs s) Hok Hit) as [Hok' _].
  unfold job_apply in Hok'. cbn [job_serve] in Hok'.
  destruct (ClaimBatch_run (WorkerID cfg) (rc_Lane cfg) n (LeaseDuration cfg) now order (js_jobs s) Hok Hit Hn) as (Heq & Htaken & Hother).
  destruct (candidates_spec (rc_Lane cfg) n now order (js_jobs s) Hok Hit) as (_ & Hin & _).
  rewrite Heq in Hok' |- *. cbn [snd] in Hok'. set (l := claim_candidates _ _ _ _ _) in *. set (m := store_jobs _ _) in *.
  set (s1 := {| js_jobs := m; js_quota := js_quota s |}).
  assert (Hw : exists w, (eff_for_each (start_job (S := JobsState) (E := job_error) (Q := quota_error) cfg now) (map (taken_job (WorkerID cfg) (LeaseDuration cfg) now) l) : flow unit) s1 = (Ok tt, s1, w)).
  { apply eff_for_each_state. intros x. unfold start_job, eff_bind, emit, eff_ret. destruct (0 <? _); by eexists. }
  destruct Hw as [w Hw]. unfold eff_bind. rewrite Hw. cbn [fst snd eff_ret]. apply counted_jobs; [done..|].
  intros t. symmetry. apply count_of_ext. intros key. unfold holds_at. destruct (decide (key ∈ map job_ID l)) as [Hk|Hk]; [|by rewrite Hother].
  apply list_elem_of_fmap in Hk as (j & -> & Hj). destruct (Hin j Hj) as [Hl Hc]. rewrite Hl, Htaken by done.
  pose proof (ok_shape _ Hok _ _ Hl) as Hsh. apply (claimable_step (WorkerID cfg) _ (LeaseDuration cfg)) in Hc as [_ [st Hst]]; [|done].
  pose proof (step_unfinished _ _ _ Hsh Hst) as Hu. unfold unfinished in Hu. unfold live. by rewrite Hu.
Qed.

(** A report or a heartbeat of the holder. *)
Lemma implements_counted {A} leaked s id e (out : result job_error A * JobRepository) : jobs_counted leaked s -> ends e = false ->
  implements id e (js_jobs s) out -> jobs_counted leaked {| js_jobs := out.2; js_quota := js_quota s |}.
Proof.
  intros Hs He Hi. pose proof (jc_jobs _ _ Hs) as Hok.
  assert (Hok' : jobs_ok out.2) by (apply (jobs_ok_moved (js_jobs s)); [done|]; by eapply implements_moved).
  apply counted_jobs; [done..|]. intros t. destruct (js_jobs s !! id) as [j|] eqn:Hj.
  - rewrite (count_implements t id e _ _ j Hok Hi Hj), He, andb_false_r. simpl. lia.
  - unfold implements in Hi. rewrite Hj in Hi. by destruct Hi as [_ ->].
Qed.

Lemma beat_counted leaked s cfg job now : jobs_counted leaked s -> jobs_counted leaked (use_apply (Use_beat cfg job now) s).
Proof.
  intros Hs. cbn [use_apply]. unfold heartbeat_beat. cbn [heartbeat_job anyone memory_job_port]. unfold on_jobs.
  pose proof (Heartbeat_implements _ (jc_jobs _ _ Hs) (job_ID job) (WorkerID cfg) (LeaseDuration cfg) now) as Hi.
  pose proof (implements_counted _ s _ (Beaten _ _ _) _ Hs eq_refl Hi) as Hc. by destruct (Heartbeat _ _ _ _ _) as [r m].
Qed.

(** The record that a report leaves is in the count or not as its state says. *)
Lemma put_ok s j j' : jobs_ok (js_jobs s) -> js_jobs s !! job_ID j = Some j -> unfinished j -> same_job j j' -> job_shape j' -> jobs_ok (js_jobs (put_job j' s)).
Proof.
  intros Hok Hj Hu Hsame Hsh. unfold put_job. cbn [js_jobs]. rewrite (same_job_ID _ _ Hsame). apply (jobs_ok_moved (js_jobs s)); [done|].
  intros id. destruct (decide (id = job_ID j)) as [->|Hne].
  - right. exists j, j'. rewrite lookup_insert_eq. done.
  - left. by rewrite lookup_insert_ne.
Qed.

Lemma put_count t s j j' : js_jobs s !! job_ID j = Some j -> same_job j j' -> unfinished j ->
  count_of (live t) (js_jobs (put_job j' s)) =
  (count_of (live t) (js_jobs s) - one (bool_decide (job_TenantID j = t) && IsJobLifecycleTerminal (job_Status j')))%Z.
Proof.
  intros Hj Hsame Hu. unfold put_job. cbn [js_jobs]. rewrite (same_job_ID _ _ Hsame), count_of_insert. unfold holds_at. rewrite Hj.
  destruct Hsame as (st & r & e & a & l & ra & up & ->). unfold unfinished in Hu. unfold live at 2 3. cbn [job_with job_TenantID job_Status]. rewrite Hu.
  destruct (job_TenantID j =? t), (IsJobLifecycleTerminal st); simpl; lia.
Qed.

Section reports.
Context (leaked : string -> Z) (s : JobsState) (Hs : jobs_counted leaked s) (j : Job).
Context (Hj : js_jobs s !! job_ID j = Some j) (Hu : unfinished j).

Lemma ended_counted j' : same_job j j' -> job_shape j' -> IsJobLifecycleTerminal (job_Status j') = true ->
  jobs_counted leaked (free_slot true (job_TenantID j) (put_job j' s)).
Proof.
  intros Hsame Hsh Ht. apply (counted_freed leaked s); [done|by apply (put_ok s j); try apply (jc_jobs _ _ Hs)|by eapply count_live_pos|].
  intros t. rewrite (put_count t s j) by done. by rewrite Ht, andb_true_r.
Qed.

Lemma waiting_counted j' : same_job j j' -> job_shape j' -> IsJobLifecycleTerminal (job_Status j') = false -> jobs_counted leaked (put_job j' s).
Proof.
  intros Hsame Hsh Ht. apply (counted_jobs leaked s); [done|by apply (put_ok s j); try apply (jc_jobs _ _ Hs)|].
  intros t. pose proof (put_count t s j j' Hj Hsame Hu) as Hp. rewrite Ht, andb_false_r in Hp. cbn [put_job js_jobs one] in Hp. lia.
Qed.
End reports.

Lemma held_unfinished j w now : job_shape j -> leaseHeld j w now = true -> unfinished j.
Proof. intros Hsh Hh. unfold unfinished. by rewrite (held_running _ _ _ Hsh Hh). Qed.

Lemma fail_counted leaked s cfg job e now : jobs_counted leaked s ->
  jobs_counted leaked ((fail (S := JobsState) (E := job_error) (Q := quota_error) (H := anyone) true cfg job e now) s).1.2.
Proof.
  intros Hs. pose proof (jc_jobs _ _ Hs) as Hok. rewrite (fail_run true [] None 0%Z) by done.
  destruct (js_jobs s !! job_ID job) as [j|] eqn:Hj; [|done]. destruct (leaseHeld j (WorkerID cfg) now) eqn:Hh; [|done].
  pose proof (ok_shape _ Hok _ _ Hj) as Hsh. pose proof (held_unfinished _ _ _ Hsh Hh) as Hu. rewrite <- (ok_key _ Hok _ _ Hj) in Hj.
  destruct (job_MaxAttempts job <=? job_Attempts job); cbn [fst snd].
  - apply ended_counted; [done..|apply same_job_with|by apply shape_ended|done].
  - apply (waiting_counted _ _ Hs j); [done..|apply same_job_with|by apply shape_queued|done].
Qed.

Lemma complete_counted leaked s cfg job result now : jobs_counted leaked s ->
  jobs_counted leaked ((complete (S := JobsState) (E := job_error) (Q := quota_error) (H := anyone) true cfg job result now) s).1.2.
Proof.
  intros Hs. pose proof (jc_jobs _ _ Hs) as Hok. rewrite (complete_run true [] None 0%Z) by done.
  destruct (js_jobs s !! job_ID job) as [j|] eqn:Hj; [|done]. destruct (leaseHeld j (WorkerID cfg) now) eqn:Hh; [|done].
  pose proof (ok_shape _ Hok _ _ Hj) as Hsh. pose proof (held_unfinished _ _ _ Hsh Hh) as Hu. rewrite <- (ok_key _ Hok _ _ Hj) in Hj.
  apply ended_counted; [done..|apply same_job_with|by apply shape_ended|done].
Qed.

Lemma execute_counted leaked s cfg handlers job lost startedAt endedAt now : jobs_counted leaked s ->
  jobs_counted leaked (use_apply (Use_execute cfg handlers job lost startedAt endedAt now) s).
Proof.
  intros Hs. cbn [use_apply]. unfold execute. destruct (Lookup handlers (job_Kind job)) as [h|e]; [|by apply fail_counted].
  destruct lost; [done|]. destruct (h (job_TenantID job) job) as [result|e].
  - rewrite (eff_bind_run _ _ _ tt s _ eq_refl). pose proof (complete_counted leaked s cfg job result now Hs) as Hc.
    by destruct (complete _ _ _ _ _ _) as [[r s'] w].
  - rewrite (eff_bind_run _ _ _ tt s _ eq_refl). pose proof (fail_counted leaked s cfg job e now Hs) as Hc.
    by destruct (fail _ _ _ _ _ _) as [[r s'] w].
Qed.

(** *** Cancellations *)

Lemma GetJobForAdmin_run jobID sc s :
  (GetJobForAdmin (S := JobsState) (E := job_error) (Q := quota_error) (H := anyone) jobID sc) s =
  (if scope_valid sc then
     match js_jobs s !! jobID with
     | Some j => if includes sc j then Ok j else Err (JobPortError ErrJobNotFound)
     | None => Err (JobPortError ErrJobNotFound)
     end
   else Err (JobPortError ErrAdminJobFilterUnscoped), s, []).
Proof.
  unfold GetJobForAdmin. destruct (scope_valid sc); [|done]. cbn [negb]. unfold eff_bind, call. cbn [get_job anyone memory_job_port].
  unfold on_jobs, Get_job. destruct s as [jobs quota]. cbn [js_jobs]. destruct (jobs !! jobID) as [j|]; [|done]. by destruct (includes sc j).
Qed.

(** What a cancellation does: the job of the scope, when it is not finished, and nothing else. *)
Lemma CancelJobForAdmin_cases jobID sc now s : jobs_ok (js_jobs s) ->
  let out := (CancelJobForAdmin (S := JobsState) (E := job_error) (Q := quota_error) (H := anyone) jobID sc now) s in
  (exists e, out = (Err e, s, [])) \/
  exists j, js_jobs s !! jobID = Some j /\ includes sc j = true /\ scope_valid sc = true /\ unfinished j /\ implements jobID Canceled (js_jobs s) (Cancel jobID now (js_jobs s)) /\
    exists j', Cancel jobID now (js_jobs s) = (Ok j', <[jobID := j']> (js_jobs s)) /\ same_job j j' /\
      out = (Ok j', {| js_jobs := <[jobID := j']> (js_jobs s); js_quota := js_quota s |}, [JobCanceled now (job_ID j) (job_TenantID j)]).
Proof.
  intros Hok. cbv zeta. unfold CancelJobForAdmin, eff_bind. rewrite GetJobForAdmin_run.
  destruct (scope_valid sc); [|left; by eexists]. destruct (js_jobs s !! jobID) as [j|] eqn:Hj; [|left; by eexists].
  destruct (includes sc j) eqn:Hin; [|left; by eexists].
  pose proof (Cancel_implements _ Hok jobID now) as Hi. pose proof Hi as Hi'. unfold implements in Hi. rewrite Hj in Hi.
  unfold call. cbn [cancel_job anyone memory_job_port]. unfold on_jobs.
  pose proof (ok_shape _ Hok _ _ Hj) as Hsh.
  destruct (lease_step Canceled (lease_of j)) as [st|] eqn:Hst.
  - right. exists j. split_and!; [done..|by eapply step_unfinished|done|]. unfold Cancel in Hi |- *. rewrite Hj in Hi |- *.
    destruct (IsJobLifecycleTerminal (job_Status j)); [by destruct Hi|]. destruct (TransitionJobLifecycle _ _) as [next|]; [|by destruct Hi].
    eexists. split; [reflexivity|]. split; [apply same_job_with|]. done.
  - destruct Hi as [H1 H2]. destruct (Cancel jobID now (js_jobs s)) as [[j'|e] m]; [done|]. cbn [snd] in H2. subst m. left. exists (JobPortError e). by destruct s.
Qed.

Lemma cancel_counted leaked s jobID sc now : jobs_counted leaked s ->
  jobs_counted (fun t => (leaked t + cancels t (Use_cancel jobID sc now) s)%Z) (use_apply (Use_cancel jobID sc now) s).
Proof.
  intros Hs. pose proof (jc_jobs _ _ Hs) as Hok. cbn [use_apply cancels].
  destruct (CancelJobForAdmin_cases jobID sc now s Hok) as [[e ->]|(j & Hj & _ & _ & Hu & Hi & j' & Hc & Hsame & ->)]; cbn [fst snd].
  - destruct Hs as [H1 H2 H3 H4 H5]. split; try done; intros t; [specialize (H3 t)|rewrite H4]; lia.
  - assert (Hcount : forall t, count_of (live t) (<[jobID := j']> (js_jobs s)) = (count_of (live t) (js_jobs s) - one (bool_decide (job_TenantID j = t)))%Z).
    { intros t. pose proof (count_implements t jobID Canceled _ _ j Hok Hi Hj) as H. rewrite Hc in H. exact H. }
    assert (Ht : job_TenantID j' = job_TenantID j) by (by destruct Hsame as (? & ? & ? & ? & ? & ? & ? & ->)).
    assert (Hok' : jobs_ok (<[jobID := j']> (js_jobs s))).
    { apply (jobs_ok_moved (js_jobs s)); [done|]. pose proof (implements_moved _ _ _ _ Hok Hi) as Hm. by rewrite Hc in Hm. }
    rewrite Ht. destruct Hs as [H1 H2 H3 H4 H5]. split; cbn [js_jobs js_quota]; [done|done| | |done]; intros t.
    + specialize (H3 t). unfold one. destruct (bool_decide _); lia.
    + rewrite Hcount, H4. lia.
Qed.

Lemma use_counted leaked u s : jobs_counted leaked s -> use_admissible u s ->
  jobs_counted (fun t => (leaked t + cancels t u s)%Z) (use_apply u s).
Proof.
  intros Hs Hu. assert (Hsame : forall s', jobs_counted leaked s' -> jobs_counted (fun t => (leaked t + 0)%Z) s').
  { intros s' [H1 H2 H3 H4 H5]. split; try done; intros t; [specialize (H3 t)|rewrite H4]; lia. }
  destruct u; [apply Hsame; by apply enqueue_counted|apply Hsame; by apply poll_counted|apply Hsame; by apply beat_counted|
    apply Hsame; by apply execute_counted|by apply cancel_counted].
Qed.

Lemma uses_counted l : forall leaked s, jobs_counted leaked s -> uses_admissible l s ->
  jobs_counted (fun t => (leaked t + canceled t l s)%Z) (uses_run l s).
Proof.
  induction l as [|u l IH]; intros leaked s Hs Hl.
  - destruct Hs as [H1 H2 H3 H4 H5]. split; try done; intros t; cbn; [specialize (H3 t)|rewrite H4]; lia.
  - destruct Hl as [Hu Hl]. cbn [uses_run canceled]. destruct (IH _ _ (use_counted leaked u s Hs Hu) Hl) as [H1 H2 H3 H4 H5].
    split; try done; intros t; [specialize (H3 t)|rewrite H4]; lia.
Qed.

Definition no_jobs (limits : gmap string TenantQuota) : JobsState :=
  {| js_jobs := NewJobRepository; js_quota := {| quotas := limits; usages := ∅ |} |}.

Lemma no_jobs_counted limits : (forall t q res l, limits !! t = Some q -> q !! res = Some l -> small l) -> jobs_counted (fun _ => 0%Z) (no_jobs limits).
Proof.
  intros Hl. assert (Hz : forall t res, used {| quotas := limits; usages := ∅ |} t res = 0%Z) by done.
  split; cbn [no_jobs js_jobs js_quota]; [apply jobs_ok_empty| |done|done|].
  - split; [done|]. intros t res _ _. rewrite Hz. unfold small. lia.
  - intros t. rewrite Hz. lia.
Qed.

(** C31. Whatever jobs are enqueued, claimed, executed and canceled: the counter of a
    tenant's active jobs is the number of its unfinished jobs plus the number of its
    jobs that administrators have canceled, and never passes the limit.  So a
    cancellation takes its slot for good, and once as many jobs were canceled as the
    limit allows, the tenant's new jobs are refused though none is unfinished. *)
Theorem active_jobs_counted l limits tenantID :
  (forall t q res n, limits !! t = Some q -> q !! res = Some n -> small n) -> uses_admissible l (no_jobs limits) ->
  let s := uses_run l (no_jobs limits) in
  used (js_quota s) tenantID ResourceActiveJobs = (count_of (live tenantID) (js_jobs s) + canceled tenantID l (no_jobs limits))%Z /\
  (used (js_quota s) tenantID ResourceActiveJobs <= Z.max 0 (limit_of (js_quota s) tenantID ResourceActiveJobs))%Z /\
  ((limit_of (js_quota s) tenantID ResourceActiveJobs <= canceled tenantID l (no_jobs limits))%Z ->
   forall input now clock order i out,
     @Enqueue _ _ quota_error (memory_job_port order (Some i) clock) _ true kinds input now clock s = out -> en_TenantID input = tenantID ->
     is_Some (LaneFor kinds (en_Kind input)) -> en_DedupKey input = None ->
     out.1.1 = Err (JobQuotaError (QuotaExceededError tenantID ResourceActiveJobs))).
Proof.
  intros Hlim Hl s. pose proof (uses_counted l _ _ (no_jobs_counted limits Hlim) Hl) as Hs. fold s in Hs.
  split; [|split]; [by rewrite (jc_count _ _ Hs)|apply (jc_limit _ _ Hs)|]. intros Hcan input now clock order i out <- Ht [lane Hlane] Hkey.
  unfold Enqueue. rewrite Hlane. set (n := if IsZero now then clock else now). unfold eff_bind at 1, call. cbn [enqueue_job memory_job_port].
  unfold on_jobs at 1, Enqueue_job. cbn [en_DedupKey completed_input]. rewrite Hkey. cbn [negb]. unfold eff_bind at 1, check_active_jobs.
  cbn [check_quota memory_job_quota en_TenantID completed_input]. unfold on_job_quota. cbn [js_quota js_jobs]. rewrite Ht.
  pose proof (CheckAndIncrement_hard tenantID ResourceActiveJobs 1 (js_quota s) eq_refl eq_refl (active_small _ _ tenantID Hs)) as Hq.
  destruct (CheckAndIncrement tenantID ResourceActiveJobs 1 (js_quota s)) as [[[]|e] q]; destruct Hq as [_ Hq]; [done| |done|].
  - exfalso. destruct Hq as [Hle _]. pose proof (jc_count _ _ Hs tenantID) as Hc. unfold count_of in Hc. lia.
  - destruct Hq as (-> & _). done.
Qed.
End counting.

(** ** Administration *)

Lemma Split_cut a sep rest : byte_in sep a = false -> Split (a ++ String sep rest) sep = a :: Split rest sep.
Proof.
  induction a as [|c a IH]; simpl; [by rewrite bool_decide_true|]. intros [Hc Ha]%orb_false_iff. apply bool_decide_eq_false in Hc.
  rewrite bool_decide_false, IH by congruence. done.
Qed.

Lemma Split_whole a sep : byte_in sep a = false -> Split a sep = [a].
Proof.
  induction a as [|c a IH]; simpl; [done|]. intros [Hc Ha]%orb_false_iff. apply bool_decide_eq_false in Hc.
  rewrite bool_decide_false, IH by congruence. done.
Qed.

Section listing.
Context (order : list string) (id : option string) (clock : Time) (Format : Time -> string) (Parse : string -> option Time).
#[local] Instance listing_port : JobPort JobsState job_error := memory_job_port order id clock.
Notation flow := (eff JobsState job_event (job_failure job_error quota_error)).

(** A time reads back from its text, and the text has no bar. *)
Context (Hformat : forall t, Parse (Format t) = Some t /\ byte_in "|" (Format t) = false).

Lemma cursor_round_trip c : byte_in "|" (jc_ID c) = false -> byte_in "|" (jc_Fingerprint c) = false ->
  decodeJobCursor Parse (encodeJobCursor Format c) = Some c /\ encodeJobCursor Format c <> "".
Proof.
  intros Hid Hf. destruct (Hformat (jc_CreatedAt c)) as [Hp Hn].
  set (raw := Join [Format (jc_CreatedAt c); jc_ID c; jc_Fingerprint c] "|").
  assert (Hraw : raw = Format (jc_CreatedAt c) ++ String "|" (jc_ID c ++ String "|" (jc_Fingerprint c))) by done.
  assert (Hsplit : Split raw "|" = [Format (jc_CreatedAt c); jc_ID c; jc_Fingerprint c]).
  { rewrite Hraw, !Split_cut by done. by rewrite Split_whole. }
  unfold decodeJobCursor, encodeJobCursor. fold raw. split.
  - rewrite DecodeString_EncodeToString, Hsplit, Hp. by destruct c.
  - intros He. pose proof (DecodeString_EncodeToString raw) as Hd. rewrite He in Hd. injection Hd as Hd. rewrite <- Hd in Hsplit. done.
Qed.

(** The pages from a cursor on. *)
Definition at_cursor (in_ : ListJobsInput) (cursor : string) : ListJobsInput :=
  {| lj_Scope := lj_Scope in_; lj_Statuses := lj_Statuses in_; lj_Kinds := lj_Kinds in_; lj_Lane := lj_Lane in_; lj_Limit := lj_Limit in_;
     lj_Cursor := cursor |}.

Fixpoint follow_pages (fuel : nat) (in_ : ListJobsInput) (s : JobsState) : list Job :=
  match fuel with
  | O => []
  | S fuel =>
      match ((ListJobsForAdmin (Q := quota_error) Format Parse in_ : flow JobPage) s).1.1 with
      | Err _ => []
      | Ok page => (page_Jobs page ++ if page_NextCursor page =? "" then [] else follow_pages fuel (at_cursor in_ (page_NextCursor page)) s)%list
      end
  end.

(** The jobs that the listing is of, the newest first. *)
Definition listed (in_ : ListJobsInput) (s : JobRepository) : list Job :=
  merge_sort newest_first (List.filter (admin_selects (admin_filter in_ 0%Z "")) (rows order s)).

#[local] Instance newest_first_trans : Transitive newest_first.
Proof.
  intros a b c. unfold newest_first. intros [?|[H1 H2]] [?|[H3 H4]]; [left; lia..|]. right. split; [congruence|].
  rewrite <- Keyset.String_le_compare in *. unfold String.le in *. by etransitivity.
Qed.

#[local] Instance newest_first_total : Total newest_first.
Proof.
  intros a b. unfold newest_first. destruct (Z.lt_trichotomy (job_CreatedAt a) (job_CreatedAt b)) as [?|[Heq|?]]; [right; by left| |left; by left].
  pose proof (String.compare_antisym (job_ID a) (job_ID b)) as Ha.
  destruct (String.compare (job_ID b) (job_ID a)) eqn:Hc; [left|left|right]; right; (split; [done|]); rewrite ?Hc, ?Ha; done.
Qed.

(** The anchor splits the order. *)
Lemma after_anchor a b : newest_first a b -> job_ID a <> job_ID b -> job_ID b <> "" ->
  afterKeyset b (job_CreatedAt a) (job_ID a) = true /\ afterKeyset a (job_CreatedAt b) (job_ID b) = false.
Proof.
  intros Hab Hne Hb. unfold afterKeyset, Before. rewrite (bool_decide_false (job_ID b = "")), andb_false_r by done. cbn [negb].
  destruct Hab as [Hlt|[Heq Hc]].
  - split.
    + apply Z.ltb_lt in Hlt as ->. by destruct (_ && _).
    + destruct (Z.ltb_spec (job_CreatedAt a) (job_CreatedAt b)); [lia|]. rewrite bool_decide_false by lia. done.
  - rewrite Heq, Z.ltb_irrefl, (bool_decide_true (job_CreatedAt b = job_CreatedAt b)) by done. cbn [andb]. split.
    + destruct (_ && _); [done|]. destruct (String.compare (job_ID b) (job_ID a)) eqn:Hcmp; [|done|congruence].
      apply String.compare_eq_iff in Hcmp. congruence.
    + rewrite String.compare_antisym. destruct (String.compare (job_ID b) (job_ID a)); done.
Qed.

Lemma at_anchor a : job_ID a <> "" -> afterKeyset a (job_CreatedAt a) (job_ID a) = false.
Proof.
  intros Ha. unfold afterKeyset, Before. rewrite (bool_decide_false (job_ID a = "")), andb_false_r by done.
  by rewrite Z.ltb_irrefl, (bool_decide_true (job_CreatedAt a = job_CreatedAt a)), Keyset.compare_refl.
Qed.

Lemma filter_none (f : Job -> bool) l : (forall x, x ∈ l -> f x = false) -> List.filter f l = [].
Proof. induction l as [|x l IH]; [done|]. intros H. cbn [List.filter]. rewrite H by by left. apply IH. intros j Hj. apply H. by right. Qed.

Lemma filter_all (f : Job -> bool) l : (forall x, x ∈ l -> f x = true) -> List.filter f l = l.
Proof. induction l as [|x l IH]; [done|]. intros H. cbn [List.filter]. rewrite H by by left. f_equal. apply IH. intros j Hj. apply H. by right. Qed.

Section pages.
Context (in_ : ListJobsInput) (s : JobsState).
Context (Hok : jobs_ok (js_jobs s)) (Hit : iterates order (js_jobs s)) (Hscope : scope_valid (lj_Scope in_) = true).
Context (Hids : forall i j, js_jobs s !! i = Some j -> i <> "" /\ byte_in "|" i = false) (Hbar : byte_in "|" (jobFilterFingerprint in_) = false).
Notation L := (listed in_ (js_jobs s)).

Lemma listed_elem j : j ∈ L <-> js_jobs s !! job_ID j = Some j /\ admin_selects (admin_filter in_ 0%Z "") j = true.
Proof.
  unfold listed. rewrite merge_sort_Permutation, list_elem_of_In, filter_In, <- list_elem_of_In. by rewrite (rows_elem order _ j Hit (ok_key _ Hok)).
Qed.

Lemma listed_NoDup : NoDup (map job_ID L).
Proof.
  unfold listed. rewrite merge_sort_Permutation. pose proof (rows_NoDup order _ Hit (ok_key _ Hok)) as Hn. revert Hn. generalize (rows order (js_jobs s)).
  intros l. induction l as [|x l IH]; simpl; [done|]. intros [Hx Hn]%NoDup_cons. destruct (admin_selects _ x); [|by apply IH].
  simpl. constructor; [|by apply IH]. intros Hin. apply Hx. apply list_elem_of_In, in_map_iff in Hin as (y & <- & [Hy _]%filter_In).
  by apply list_elem_of_In, in_map.
Qed.

Lemma listed_sorted : StronglySorted newest_first L.
Proof. apply StronglySorted_merge_sort; apply _. Qed.

Lemma selects_anchor t i j : admin_selects (admin_filter in_ t i) j = admin_selects (admin_filter in_ 0%Z "") j && afterKeyset j t i.
Proof. unfold admin_selects. cbn [admin_filter af_AllTenants af_TenantID af_Statuses af_Kinds af_Lane af_BeforeCreatedAt af_BeforeID]. by rewrite andb_true_r. Qed.

(** After the anchor of a listed job come the jobs behind it. *)
Lemma list_suffix xs y ys : L = (xs ++ y :: ys)%list ->
  merge_sort newest_first (List.filter (admin_selects (admin_filter in_ (job_CreatedAt y) (job_ID y))) (rows order (js_jobs s))) = ys.
Proof.
  intros HL. pose proof listed_sorted as Hsort. pose proof listed_NoDup as Hnd. rewrite HL in Hsort, Hnd.
  assert (Hin : forall j, j ∈ (xs ++ y :: ys)%list -> job_ID j <> "").
  { intros j Hj. rewrite <- HL in Hj. apply listed_elem in Hj as [Hj _]. by apply (Hids _ _ Hj). }
  set (ak := fun j => afterKeyset j (job_CreatedAt y) (job_ID y)).
  assert (Hp : List.filter (admin_selects (admin_filter in_ (job_CreatedAt y) (job_ID y))) (rows order (js_jobs s)) ≡ₚ List.filter ak L).
  { unfold listed. assert (Heq : List.filter (admin_selects (admin_filter in_ (job_CreatedAt y) (job_ID y))) (rows order (js_jobs s))
      = List.filter ak (List.filter (admin_selects (admin_filter in_ 0%Z "")) (rows order (js_jobs s)))).
    { generalize (rows order (js_jobs s)). intros l. induction l as [|x l IH]; [done|]. cbn [List.filter]. rewrite selects_anchor, IH. fold (ak x).
      destruct (admin_selects (admin_filter in_ 0%Z "") x); simpl; [by destruct (ak x)|done]. }
    rewrite Heq. generalize (List.filter (admin_selects (admin_filter in_ 0%Z "")) (rows order (js_jobs s))). intros l.
    assert (Hl : merge_sort newest_first l ≡ₚ l) by apply merge_sort_Permutation. revert Hl. generalize (merge_sort newest_first l). intros l' Hl.
    induction Hl as [|x l1 l2 _ IH|x1 x2 l1|l1 l2 l3 _ IH1 _ IH2]; simpl; [done|by destruct (ak x); [constructor|]|
      destruct (ak x1), (ak x2); try constructor; done|by rewrite IH2]. }
  assert (Hys : List.filter ak (xs ++ y :: ys)%list = ys).
  { rewrite map_app in Hnd. cbn [map] in Hnd. apply NoDup_app in Hnd as (_ & Hdis & Hny). apply NoDup_cons in Hny as [Hy _].
    rewrite List.filter_app. cbn [List.filter]. assert (Hyn : job_ID y <> "") by (apply Hin, elem_of_app; right; by left).
    unfold ak at 2. rewrite (at_anchor y Hyn).
    rewrite (filter_none ak xs), (filter_all ak ys); [done| |].
    - intros x Hx. apply after_anchor; [|intros He|].
      + apply StronglySorted_app_1_r in Hsort. inversion Hsort as [|? ? ? Hfor]; subst. rewrite Forall_forall in Hfor. by apply Hfor.
      + apply Hy. rewrite He. by apply list_elem_of_fmap_2.
      + apply Hin, elem_of_app. right. by right.
    - intros x Hx. apply after_anchor; [|intros He|done].
      + apply (StronglySorted_app_1_elem_of newest_first _ _ x y Hsort Hx). by left.
      + apply (Hdis (job_ID x)); [by apply list_elem_of_fmap_2|rewrite He; by left]. }
  rewrite HL, Hys in Hp. assert (Hs2 : StronglySorted newest_first ys) by (apply StronglySorted_app_1_r in Hsort; by inversion Hsort).
  apply (StronglySorted_unique_strong newest_first).
  - intros x1 x2 H1 H2 R12 R21. destruct (decide (job_ID x1 = job_ID x2)) as [He|Hne].
    + rewrite merge_sort_Permutation, Hp in H1.
      assert (E1 : js_jobs s !! job_ID x1 = Some x1) by (apply listed_elem; rewrite HL; apply elem_of_app; right; by right).
      assert (E2 : js_jobs s !! job_ID x2 = Some x2) by (apply listed_elem; rewrite HL; apply elem_of_app; right; by right).
      rewrite He in E1. congruence.
    + assert (Hb : job_ID x2 <> "") by (apply Hin, elem_of_app; right; by right).
      rewrite merge_sort_Permutation, Hp in H1. assert (Ha : job_ID x1 <> "") by (apply Hin, elem_of_app; right; by right).
      destruct (after_anchor x1 x2 R12 Hne Hb) as [Hf _]. destruct (after_anchor x2 x1 R21 (not_eq_sym Hne) Ha) as [_ Hf']. congruence.
  - apply StronglySorted_merge_sort; apply _.
  - done.
  - by rewrite merge_sort_Permutation.
Qed.

(** The call from an anchor: the first of the jobs behind it. *)
Notation behind t i := (merge_sort newest_first (List.filter (admin_selects (admin_filter in_ t i)) (rows order (js_jobs s)))).
Notation limit := (Z.to_nat (page_limit (lj_Limit in_))).

Lemma page_limit_bounds l : (1 <= page_limit l <= maxAdminJobLimit)%Z.
Proof.
  unfold page_limit, maxAdminJobLimit, defaultAdminJobLimit. destruct (Z.leb_spec l 0); [by vm_compute|].
  destruct (Z.ltb_spec 200 l); lia.
Qed.

Lemma page_from c t i : page_anchor (E := job_error) (Q := quota_error) Parse (at_cursor in_ c) = Ok (t, i) ->
  ((ListJobsForAdmin (Q := quota_error) Format Parse (at_cursor in_ c) : flow JobPage) s).1.1
  = Ok (job_page Format in_ (take (S limit) (behind t i))).
Proof.
  intros Ha. unfold ListJobsForAdmin. cbn [lj_Scope at_cursor]. rewrite Hscope, Ha.
  unfold list_for_admin, listing_port, memory_job_port, call, on_jobs, ListForAdmin. cbn.
  assert (Hu : bool_decide (ts_TenantID (lj_Scope in_) = "") && negb (ts_AllTenants (lj_Scope in_)) = false).
  { revert Hscope. unfold scope_valid. destruct (ts_AllTenants _); [by rewrite andb_false_r|]. simpl. by intros ->%negb_true_iff. }
  rewrite Hu. cbn. unfold at_most. cbn. pose proof (page_limit_bounds (lj_Limit in_)) as Hl.
  destruct (Z.ltb_spec 0 (page_limit (lj_Limit in_) + 1)); [|lia].
  replace (Z.to_nat (page_limit (lj_Limit in_) + 1)) with (S limit) by lia. done.
Qed.

Lemma next_anchor y c : y ∈ L -> c = encodeJobCursor Format {| jc_CreatedAt := job_CreatedAt y; jc_ID := job_ID y; jc_Fingerprint := jobFilterFingerprint in_ |} ->
  c <> "" /\ page_anchor (E := job_error) (Q := quota_error) Parse (at_cursor in_ c) = Ok (job_CreatedAt y, job_ID y).
Proof.
  intros Hy ->. apply listed_elem in Hy as [Hy _]. destruct (cursor_round_trip {| jc_CreatedAt := job_CreatedAt y; jc_ID := job_ID y;
    jc_Fingerprint := jobFilterFingerprint in_ |}) as [Hd Hn]; [by apply (Hids _ _ Hy)|done|].
  split; [done|]. unfold page_anchor. cbn [at_cursor lj_Cursor]. rewrite bool_decide_false by done. rewrite Hd. cbn [jc_Fingerprint].
  change (jobFilterFingerprint (at_cursor in_ _)) with (jobFilterFingerprint in_). by rewrite bool_decide_true.
Qed.

Lemma pages_from fuel : forall c t i xs rest, page_anchor (E := job_error) (Q := quota_error) Parse (at_cursor in_ c) = Ok (t, i) ->
  behind t i = rest -> L = (xs ++ rest)%list -> length rest < fuel -> follow_pages fuel (at_cursor in_ c) s = rest.
Proof.
  induction fuel as [|fuel IH]; intros c t i xs rest Ha Hb HL Hf; [lia|]. cbn [follow_pages]. rewrite (page_from c t i Ha), Hb.
  pose proof (page_limit_bounds (lj_Limit in_)) as Hl. unfold job_page. rewrite length_take.
  destruct (Z.ltb_spec (page_limit (lj_Limit in_)) (Z.of_nat (S limit `min` length rest))) as [Hlong|Hshort].
  - rewrite take_take, Nat.min_l by lia. cbn [page_Jobs page_NextCursor].
    destruct (last (take limit rest)) as [y|] eqn:Hlast; cycle 1.
    { apply last_None in Hlast. apply (f_equal length) in Hlast. rewrite length_take in Hlast. simpl in Hlast. lia. }
    apply last_Some in Hlast as [init Hinit].
    assert (Hrest : rest = (init ++ y :: drop limit rest)%list) by (rewrite <- (take_drop limit rest) at 1; by rewrite Hinit, <- app_assoc).
    assert (HL' : L = ((xs ++ init) ++ y :: drop limit rest)%list) by (rewrite HL, Hrest at 1; by rewrite <- app_assoc).
    destruct (next_anchor y _ ltac:(rewrite HL'; apply elem_of_app; right; by left) eq_refl) as [Hn Hnext].
    rewrite bool_decide_false by done. change (at_cursor (at_cursor in_ c)) with (at_cursor in_).
    rewrite (IH _ _ _ ((xs ++ init) ++ [y])%list (drop limit rest) Hnext).
    + apply take_drop.
    + exact (list_suffix _ _ _ HL').
    + rewrite HL'. by rewrite <- (app_assoc (xs ++ init)%list).
    + rewrite length_drop. lia.
  - cbn [page_Jobs page_NextCursor]. rewrite bool_decide_true by done. rewrite take_ge by lia. apply app_nil_r.
Qed.

Lemma optional_filter {A} (D : EqDecision A) (l : list A) x :
  match l with [] => true | y :: l' => contains (y :: l') x end = true <-> l = [] \/ x ∈ l.
Proof. destruct l as [|y l]; [split; [by left|done]|]. rewrite contains_true. split; [by right|by intros [?|?]]. Qed.

Lemma selects_exact j : admin_selects (admin_filter in_ 0%Z "") j = true <->
  includes (lj_Scope in_) j = true /\
  (lj_Statuses in_ = [] \/ job_Status j ∈ lj_Statuses in_) /\ (lj_Kinds in_ = [] \/ job_Kind j ∈ lj_Kinds in_) /\
  (lj_Lane in_ = "" \/ job_Lane j = lj_Lane in_).
Proof.
  unfold admin_selects, includes. cbn [admin_filter af_AllTenants af_TenantID af_Statuses af_Kinds af_Lane af_BeforeCreatedAt af_BeforeID].
  change (afterKeyset j 0%Z "") with true. rewrite andb_true_r, !andb_true_iff, !optional_filter.
  assert (Hlane : negb (negb (bool_decide (lj_Lane in_ = "")) && negb (bool_decide (job_Lane j = lj_Lane in_))) = true <->
    (lj_Lane in_ = "" \/ job_Lane j = lj_Lane in_)); [|rewrite Hlane, !Corelib.Init.Logic.and_assoc; by destruct (ts_AllTenants (lj_Scope in_)), (bool_decide (job_TenantID j = _))].
  destruct (decide (lj_Lane in_ = "")) as [He|He]; [rewrite (bool_decide_true (_ = "")) by done; simpl; by split; [left|]|].
  rewrite (bool_decide_false (_ = "")) by done. simpl. rewrite negb_involutive, bool_decide_eq_true. split; [by right|by intros [?|?]].
Qed.

(** Administrators read every job of their scope exactly once by following
    the cursors: the pages together are the jobs that the tenant's scope
    includes and the filters select, the newest first, and no other tenant's. *)
Theorem admin_listing_complete : lj_Cursor in_ = "" -> forall fuel, length L < fuel ->
  follow_pages fuel in_ s = L /\ NoDup (map job_ID L) /\ StronglySorted newest_first L /\
  (forall j, j ∈ L <-> js_jobs s !! job_ID j = Some j /\ includes (lj_Scope in_) j = true /\
     (lj_Statuses in_ = [] \/ job_Status j ∈ lj_Statuses in_) /\ (lj_Kinds in_ = [] \/ job_Kind j ∈ lj_Kinds in_) /\
     (lj_Lane in_ = "" \/ job_Lane j = lj_Lane in_)).
Proof.
  intros Hc fuel Hf. split_and!; [|apply listed_NoDup|apply listed_sorted|].
  - replace in_ with (at_cursor in_ "") at 1 by (rewrite <- Hc; by destruct in_). by apply (pages_from fuel "" 0%Z "" []).
  - intros j. rewrite listed_elem, selects_exact. done.
Qed.
End pages.
End listing.

(** ** Examples *)

Definition demo_kinds : kind_lanes := {["echo" := LaneDefault]}.
Definition demo_limits : gmap string TenantQuota := {["acme" := {[ResourceActiveJobs := 1%Z]}]}.
Definition echo_input : EnqueueInput :=
  {| en_TenantID := "acme"; en_Kind := "echo"; en_Lane := ""; en_Params := "hello"; en_DedupKey := None; en_MaxAttempts := 2%Z;
     en_RunAt := 0%Z; en_Now := 0%Z |}.
Definition in_acme : TenantScope := {| ts_TenantID := "acme"; ts_AllTenants := false |}.
Definition demo_worker : RunnerConfig :=
  withDefaults {| WorkerID := "w1"; rc_Lane := LaneDefault; PollInterval := 0%Z; Concurrency := 0%Z; LeaseDuration := 0%Z;
    BackoffBase := 0%Z; BackoffCap := 0%Z |}.

(** The only job of a tenant is canceled, and its slot is gone. *)
Definition demo_uses : list jobs_use :=
  [Use_enqueue echo_input 100%Z 100%Z [] (Some "j1"); Use_cancel "j1" in_acme 200%Z].

Lemma active_jobs_counted_witness :
  canceled demo_kinds "acme" demo_uses (no_jobs demo_limits) = 1%Z /\ count_of (live "acme") (js_jobs (uses_run demo_kinds demo_uses (no_jobs demo_limits))) = 0%Z /\
  (@Enqueue _ _ quota_error (memory_job_port ["j1"] (Some "j2") 300%Z) _ true demo_kinds echo_input 300%Z 300%Z
    (uses_run demo_kinds demo_uses (no_jobs demo_limits))).1.1 = Err (JobQuotaError (QuotaExceededError "acme" ResourceActiveJobs)).
Proof.
  split; [by vm_compute|]. split; [by vm_compute|].
  destruct (active_jobs_counted demo_kinds demo_uses demo_limits "acme") as (_ & _ & H).
  - intros t q res n Hq Hn. unfold demo_limits in Hq. apply lookup_singleton_Some in Hq as [_ <-].
    apply lookup_singleton_Some in Hn as [_ <-]. by vm_compute.
  - split; [|by split]. split; [by apply iterates_by_compute; vm_compute|]. by intros i [= <-].
  - eapply H; [by vm_compute|done|done| |done]. by exists LaneDefault.
Defined.

(** The job runs at a worker. *)
Definition demo_polls : list jobs_use := [Use_enqueue echo_input 100%Z 100%Z [] (Some "j1"); Use_poll demo_worker 0%Z 110%Z ["j1"]].
Definition demo_running : JobsState := uses_run demo_kinds demo_polls (no_jobs demo_limits).
Definition demo_job : Job := Eval vm_compute in default (new_job "" echo_input 0%Z 0%Z) (js_jobs demo_running !! "j1").

Lemma demo_running_ok : jobs_ok (js_jobs demo_running).
Proof.
  apply (jc_jobs _ _ (uses_counted demo_kinds demo_polls (fun _ => 0%Z) (no_jobs demo_limits)
    (no_jobs_counted demo_limits ltac:(intros t q res n Hq Hn; unfold demo_limits in Hq; apply lookup_singleton_Some in Hq as [_ <-];
      apply lookup_singleton_Some in Hn as [_ <-]; by vm_compute))
    ltac:(split; [split; [by apply iterates_by_compute; vm_compute|by intros i [= <-]]|split; [by apply iterates_by_compute; vm_compute|done]]))).
Qed.

Lemma execution_outcome_witness : job_Status demo_job = StatusRunning /\
  let out := @execute _ _ quota_error (memory_job_port [] None 0%Z) _ true demo_worker {["echo" := NoopEchoHandler]} demo_job false
    120%Z 130%Z 130%Z demo_running in
  out.1.2 = free_slot true "acme" (put_job (succeeded "hello" 130%Z demo_job) demo_running) /\
  out.2 = [RecordJobDuration LaneDefault "succeeded" 10%Z; JobSucceeded 130%Z "j1" "acme"; RecordJobOutcome LaneDefault "succeeded"].
Proof.
  split; [done|].
  pose proof (execution_outcome true [] None 0%Z demo_worker {["echo" := NoopEchoHandler]} demo_job NoopEchoHandler false 120%Z 130%Z 130%Z
    demo_running demo_running_ok eq_refl) as H.
  destruct (execute _ _ _ _ _ _ _ _ _) as [[r s'] w]. destruct H as (_ & _ & H).
  apply (H demo_job); [done|by vm_compute|]. exists (110 + 300 * Second)%Z. by split.
Defined.

(** A text of times: a sign and so many strokes. *)
Fixpoint strokes (n : nat) : string := match n with O => "" | S n => String "1" (strokes n) end.
Definition tally (t : Time) : string := String (if (t <? 0)%Z then "-" else "+") (strokes (Z.abs_nat t)).
Definition untally (s : string) : option Time :=
  match s with
  | String c rest => let n := Z.of_nat (String.length rest) in Some (if bool_decide (c = "-"%char) then (- n)%Z else n)
  | EmptyString => None
  end.

Lemma tally_reads t : untally (tally t) = Some t /\ byte_in "|" (tally t) = false.
Proof.
  assert (Hl : forall n, String.length (strokes n) = n) by (intros n; induction n; simpl; congruence).
  assert (Hb : forall n, byte_in "|" (strokes n) = false) by (intros n; induction n; simpl; [done|done]).
  unfold tally, untally. split.
  - rewrite Hl. f_equal. destruct (Z.ltb_spec t 0); simpl; lia.
  - cbn [byte_in]. rewrite Hb. by destruct (t <? 0)%Z.
Qed.

(** Two jobs of the tenant and one of another, read one by one. *)
Definition demo_limits2 : gmap string TenantQuota :=
  {["acme" := {[ResourceActiveJobs := 5%Z]}; "other" := {[ResourceActiveJobs := 5%Z]}]}.
Definition input_of (tenantID : string) : EnqueueInput :=
  {| en_TenantID := tenantID; en_Kind := "echo"; en_Lane := ""; en_Params := ""; en_DedupKey := None; en_MaxAttempts := 2%Z;
     en_RunAt := 0%Z; en_Now := 0%Z |}.
Definition demo_three : list jobs_use :=
  [Use_enqueue (input_of "acme") 10%Z 10%Z [] (Some "j1"); Use_enqueue (input_of "other") 11%Z 11%Z ["j1"] (Some "j2");
   Use_enqueue (input_of "acme") 12%Z 12%Z ["j2"; "j1"] (Some "j3")].
Definition demo_listing : ListJobsInput :=
  {| lj_Scope := in_acme; lj_Statuses := []; lj_Kinds := []; lj_Lane := ""; lj_Limit := 1%Z; lj_Cursor := "" |}.
Definition three_jobs : JobsState := uses_run demo_kinds demo_three (no_jobs demo_limits2).

Example demo_pages :
  map job_ID (follow_pages ["j2"; "j3"; "j1"] None 0%Z tally untally 3 demo_listing three_jobs) = ["j3"; "j1"].
Proof. by vm_compute. Qed.

Lemma admin_listing_complete_witness :
  follow_pages ["j2"; "j3"; "j1"] None 0%Z tally untally 3 demo_listing three_jobs = listed ["j2"; "j3"; "j1"] demo_listing (js_jobs three_jobs) /\
  (forall j, j ∈ listed ["j2"; "j3"; "j1"] demo_listing (js_jobs three_jobs) -> job_TenantID j = "acme").
Proof.
  destruct (admin_listing_complete ["j2"; "j3"; "j1"] None 0%Z tally untally tally_reads demo_listing three_jobs) with (fuel := 3) as (H1 & _ & _ & H4).
  - apply (jc_jobs _ _ (uses_counted demo_kinds demo_three (fun _ => 0%Z) (no_jobs demo_limits2)
      (no_jobs_counted demo_limits2 ltac:(intros t q res n Hq Hn; unfold demo_limits2 in Hq;
        apply lookup_insert_Some in Hq as [[_ <-]|[_ [_ <-]%lookup_singleton_Some]];
        apply lookup_singleton_Some in Hn as [_ <-]; by vm_compute))
      ltac:(repeat (split; [split; [by apply iterates_by_compute; vm_compute|by intros i [= <-]; vm_compute]|]); done))).
  - by apply iterates_by_compute; vm_compute.
  - done.
  - intros i j Hj. assert (Hin : i ∈ ["j2"; "j3"; "j1"]).
    { apply (proj2 (iterates_by_compute ["j2"; "j3"; "j1"] (js_jobs three_jobs) ltac:(by vm_compute))). by exists j. }
    by repeat (apply elem_of_cons in Hin as [->|Hin]; [done|]); apply not_elem_of_nil in Hin.
  - by vm_compute.
  - done.
  - by vm_compute.
  - split; [exact H1|]. intros j Hj. apply H4 in Hj as (_ & Hin & _). by apply bool_decide_eq_true in Hin.
Defined.
