(* ===== verification/ApprovalStore.v ===== *)
(** * OAuth2: approval requests and their store

    [backend/oauth2/internal/approval]: the request that waits for a human
    decision (domain/approval_request.go), the comparison of an approval with
    the operation about to be executed (domain/approved_operation.go) and the
    memory store (db_memory/approval_requests.go).

    The store's two maps, by identifier and by digest of the secret, point to
    the same record, so the model has a heap and two maps of pointers.  Every
    method holds the lock for its whole body and is one atomic step.

    The theorems: under every interleaving the history of a request is one of
    those of its life cycle (decided by its own user before the deadline, then
    consumed once by the holder of its secret, then used under one key), and
    the request executed is the request approved; and an operation matches
    an approval exactly when one approved detail names it. *)

From Stdlib Require Import Ascii String ZArith Lia.
From stdpp Require Import base strings list gmap sorting.
From S2P Require Import Prelude GoStrings Crypto Rules Policy TokenDomain StateMachines RichAuthorization RefreshStore.

Local Open Scope string_scope.
Local Open Scope go_scope.

(** ** Domain *)

Definition DefaultTTL : Duration := (300 * Second)%Z.
Definition MaxTTL : Duration := (600 * Second)%Z.
(** [spec.LengthHandle]. *)
Definition MaxBindingMessageLength : Z := 64.

(** The right to execute: the digest of server and operation key that hold it. *)
Record ApprovalUse := { KeyHash : string; ClaimedAt : Time }.

Record ApprovalRequest := {
  ap_ID : string;
  ap_TenantID : string;
  ap_ClientID : string;
  ap_AgentID : option string;
  ap_UserID : string;
  ap_Scopes : list string;
  ap_AuthorizationDetails : list AuthorizationDetail;
  ap_BindingMessage : option string;
  ap_State : ApprovalRequestState;
  ap_AuthReqIDHash : string;
  ap_IntervalSeconds : Z;
  ap_LastPolledAt : option Time;
  ap_RequestedAt : Time;
  ap_ExpiresAt : Time;
  ap_DecidedAt : option Time;
  ap_ConsumedAt : option Time;
  ap_Use : option ApprovalUse;
}.

Definition ApprovalRequest_Validate (a : ApprovalRequest) : result rule_error unit :=
  All [ Required "ID" (ap_ID a) [UUID]; Required "ClientID" (ap_ClientID a) [];
        Required "UserID" (ap_UserID a) []; Required "AuthReqIDHash" (ap_AuthReqIDHash a) [];
        OptionalPtr "BindingMessage" (ap_BindingMessage a) [CharsAtMost MaxBindingMessageLength];
        Required "State" (ap_State a) [Must ApprovalRequestState_Valid "state is not in enum"];
        Required "IntervalSeconds" (ap_IntervalSeconds a) [GreaterThan 0];
        Required "RequestedAt" (ap_RequestedAt a) []; Required "ExpiresAt" (ap_ExpiresAt a) [] ].

(** Assignments to the fields that the store changes. *)
Definition ap_with (tenant state : string) (interval : Z) (polled decided consumed : option Time)
    (use : option ApprovalUse) (a : ApprovalRequest) : ApprovalRequest :=
  {| ap_ID := ap_ID a; ap_TenantID := tenant; ap_ClientID := ap_ClientID a; ap_AgentID := ap_AgentID a;
     ap_UserID := ap_UserID a; ap_Scopes := ap_Scopes a; ap_AuthorizationDetails := ap_AuthorizationDetails a;
     ap_BindingMessage := ap_BindingMessage a; ap_State := state; ap_AuthReqIDHash := ap_AuthReqIDHash a;
     ap_IntervalSeconds := interval; ap_LastPolledAt := polled; ap_RequestedAt := ap_RequestedAt a;
     ap_ExpiresAt := ap_ExpiresAt a; ap_DecidedAt := decided; ap_ConsumedAt := consumed; ap_Use := use |}.

(** The source of randomness is given by what it returns. *)
Definition GenerateAuthReqID {E} (random : result E (list N)) : result E string :=
  let? b := random in Ok (EncodeToString (string_of_bytes b)).

Definition HashAuthReqID (authReqID : string) : string := hex_EncodeToString (Sum256 (bytes_of authReqID)).

Definition ResolveTTL (requestedExpirySeconds : option Z) : Duration :=
  match requestedExpirySeconds with None => DefaultTTL | Some n => wrap64 (n * Second) end.

Definition IsExpired (rec : ApprovalRequest) (now : Time) : bool :=
  if ap_State rec =? ApprovalExpired then true else negb (Before now (ap_ExpiresAt rec)).

Definition IsPollTooFast (rec : ApprovalRequest) (now : Time) : bool :=
  match ap_LastPolledAt rec with
  | None => false
  | Some last => Sub now last <? wrap64 (ap_IntervalSeconds rec * Second)
  end.

(** ** The approved operation *)

Record OperationBinding := {
  DetailType : string;
  Location : string;
  Action : string;
  op_Identifier : string;
}.

Inductive ApprovedOperationMatch :=
| ApprovedOperationMatched
| ApprovedOperationMismatched
| ApprovedOperationExpired.

Definition HashOperationKey (resourceServerClientID operationKey : string) : string :=
  hex_EncodeToString (Sum256 (bytes_of
    (FormatInt (len resourceServerClientID) ++ ":" ++ resourceServerClientID ++ operationKey))).

Section matching.
(** [DigestOperationFields]: SHA-256 of the JSON encoding of the fields, with
    an error for values that have none. *)
Context (DigestOperationFields : gmap string field_value -> option string).

(** The condition of the loop that does not [continue]. *)
Definition names_operation (detail : AuthorizationDetail) (actual : OperationBinding) : bool :=
  negb ((detail_Type detail <>? DetailType actual) || (Identifier detail =? "") ||
        (Identifier detail <>? op_Identifier actual) || negb (contains (Locations detail) (Location actual)) ||
        negb (contains (Actions detail) (Action actual))).

Fixpoint match_details (details : list AuthorizationDetail) (actual : OperationBinding) (digest : string) :
    ApprovedOperationMatch :=
  match details with
  | [] => ApprovedOperationMismatched
  | detail :: details' =>
      if negb (names_operation detail actual) then match_details details' actual digest
      else match DigestOperationFields (detail_Fields detail) with
      | Some approved => if approved =? digest then ApprovedOperationMatched else match_details details' actual digest
      | None => match_details details' actual digest
      end
  end.

Definition MatchApprovedOperation (rec : ApprovalRequest) (actual : OperationBinding) (digest : string) (now : Time) :
    ApprovedOperationMatch :=
  if negb (Before now (ap_ExpiresAt rec)) then ApprovedOperationExpired
  else match_details (ap_AuthorizationDetails rec) actual digest.
End matching.

(** ** The memory store *)

Record ApprovalRequestStore := {
  aheap : gmap nat ApprovalRequest;
  anext : nat;
  abyID : gmap string nat;
  abyHash : gmap string nat;
}.

Definition NewApprovalRequestStore : ApprovalRequestStore :=
  {| aheap := ∅; anext := 0; abyID := ∅; abyHash := ∅ |}.

Definition by_id (id : string) (s : ApprovalRequestStore) : option (nat * ApprovalRequest) :=
  abyID s !! id ≫= fun p => pair p <$> aheap s !! p.
Definition by_hash (hash : string) (s : ApprovalRequestStore) : option (nat * ApprovalRequest) :=
  abyHash s !! hash ≫= fun p => pair p <$> aheap s !! p.

(** An assignment through a pointer. *)
Definition set_at (p : nat) (rec : ApprovalRequest) (s : ApprovalRequestStore) : ApprovalRequestStore :=
  {| aheap := <[p := rec]> (aheap s); anext := anext s; abyID := abyID s; abyHash := abyHash s |}.

(** What [put] stores; [tenantID] is the tenant of the context. *)
Definition stored_request (tenantID : string) (rec : ApprovalRequest) : ApprovalRequest :=
  ap_with (DefaultScope tenantID DefaultTenantID) (ap_State rec) (ap_IntervalSeconds rec) (ap_LastPolledAt rec)
    (ap_DecidedAt rec) (ap_ConsumedAt rec) (ap_Use rec) rec.

Definition put (tenantID : string) (rec : ApprovalRequest) (s : ApprovalRequestStore) : ApprovalRequestStore :=
  let stored := stored_request tenantID rec in
  {| aheap := <[anext s := stored]> (aheap s); anext := S (anext s);
     abyID := <[ap_ID stored := anext s]> (abyID s);
     abyHash := <[ap_AuthReqIDHash stored := anext s]> (abyHash s) |}.
Definition approval_Save : string -> ApprovalRequest -> ApprovalRequestStore -> ApprovalRequestStore := put.

Definition approval_FindByID (tenantID id : string) (s : ApprovalRequestStore) : option ApprovalRequest :=
  match by_id id s with
  | None => None
  | Some (_, rec) => if ap_TenantID rec <>? tenantID then None else Some rec
  end.

Definition FindByAuthReqIDHash (tenantID hash : string) (s : ApprovalRequestStore) : option ApprovalRequest :=
  match by_hash hash s with
  | None => None
  | Some (_, rec) => if ap_TenantID rec <>? tenantID then None else Some rec
  end.

Definition requested_before (a b : ApprovalRequest) : Prop := (ap_RequestedAt a <= ap_RequestedAt b)%Z.
#[export] Instance requested_before_dec a b : Decision (requested_before a b) := Z_le_dec _ _.

(** [clock] is the [time.Now()] of the method.  The order of requests made at
    the same instant, which Go leaves open, is that of [map_to_list]. *)
Definition ListPendingForUser (tenantID userID : string) (clock : Time) (s : ApprovalRequestStore) : list ApprovalRequest :=
  merge_sort requested_before (List.filter (fun rec =>
      negb ((ap_TenantID rec <>? tenantID) || (ap_UserID rec <>? userID) || (ap_State rec <>? ApprovalPending) ||
            negb (Before clock (ap_ExpiresAt rec))))
    (omap (fun e => aheap s !! snd e) (map_to_list (abyID s)))).

Definition Decide (tenantID id userID : string) (event : ApprovalRequestEvent) (now : Time) (s : ApprovalRequestStore) :
    result transition_error (option ApprovalRequest) * ApprovalRequestStore :=
  match by_id id s with
  | None => (Ok None, s)
  | Some (p, rec) =>
      if (ap_TenantID rec <>? tenantID) || (ap_UserID rec <>? userID) || (ap_State rec <>? ApprovalPending) ||
         negb (Before now (ap_ExpiresAt rec)) then (Ok None, s)
      else match TransitionApprovalRequest (ap_State rec) event with
      | Err e => (Err e, s)
      | Ok next =>
          let rec := ap_with (ap_TenantID rec) next (ap_IntervalSeconds rec) (ap_LastPolledAt rec) (Some now)
                       (ap_ConsumedAt rec) (ap_Use rec) rec in
          (Ok (Some rec), set_at p rec s)
      end
  end.

(** The record after a poll of a pending request, and whether it came too early. *)
Definition polled_request (rec : ApprovalRequest) (now : Time) : ApprovalRequest :=
  let interval := if IsPollTooFast rec now
                  then wrap64 (ap_IntervalSeconds rec + SlowDownIncrementSeconds DefaultDeviceCodePolling)
                  else ap_IntervalSeconds rec in
  ap_with (ap_TenantID rec) (ap_State rec) interval (Some now) (ap_DecidedAt rec) (ap_ConsumedAt rec) (ap_Use rec) rec.

Definition RecordPoll (tenantID hash : string) (now : Time) (s : ApprovalRequestStore) :
    option ApprovalRequest * bool * ApprovalRequestStore :=
  match by_hash hash s with
  | None => (None, false, s)
  | Some (p, rec) =>
      if ap_TenantID rec <>? tenantID then (None, false, s)
      else
        let tooFast := (ap_State rec =? ApprovalPending) && IsPollTooFast rec now in
        if ap_State rec =? ApprovalPending
        then (Some (polled_request rec now), tooFast, set_at p (polled_request rec now) s)
        else (Some rec, tooFast, s)
  end.

Definition Expire (tenantID hash : string) (now : Time) (s : ApprovalRequestStore) :
    result transition_error (option ApprovalRequest) * ApprovalRequestStore :=
  match by_hash hash s with
  | None => (Ok None, s)
  | Some (p, rec) =>
      if (ap_TenantID rec <>? tenantID) ||
         ((ap_State rec <>? ApprovalPending) && (ap_State rec <>? ApprovalApproved)) ||
         Before now (ap_ExpiresAt rec) then (Ok None, s)
      else match TransitionApprovalRequest (ap_State rec) ApprovalEventExpire with
      | Err e => (Err e, s)
      | Ok next =>
          let rec := ap_with (ap_TenantID rec) next (ap_IntervalSeconds rec) (ap_LastPolledAt rec) (ap_DecidedAt rec)
                       (ap_ConsumedAt rec) (ap_Use rec) rec in
          (Ok (Some rec), set_at p rec s)
      end
  end.

Definition approval_Consume (tenantID hash : string) (now : Time) (s : ApprovalRequestStore) :
    result transition_error (option ApprovalRequest) * ApprovalRequestStore :=
  match by_hash hash s with
  | None => (Ok None, s)
  | Some (p, rec) =>
      if (ap_TenantID rec <>? tenantID) || (ap_State rec <>? ApprovalApproved) ||
         negb (Before now (ap_ExpiresAt rec)) then (Ok None, s)
      else match TransitionApprovalRequest (ap_State rec) ApprovalEventConsume with
      | Err e => (Err e, s)
      | Ok next =>
          let rec := ap_with (ap_TenantID rec) next (ap_IntervalSeconds rec) (ap_LastPolledAt rec) (ap_DecidedAt rec)
                       (Some now) (ap_Use rec) rec in
          (Ok (Some rec), set_at p rec s)
      end
  end.

Definition ClaimUse (tenantID id : string) (use : ApprovalUse) (now : Time) (s : ApprovalRequestStore) :
    option ApprovalRequest * bool * ApprovalRequestStore :=
  match by_id id s with
  | None => (None, false, s)
  | Some (p, rec) =>
      if (ap_TenantID rec <>? tenantID) || (ap_State rec <>? ApprovalConsumed) ||
         negb (Before now (ap_ExpiresAt rec)) then (None, false, s)
      else match ap_Use rec with
      | Some _ => (Some rec, false, s)
      | None =>
          let rec := ap_with (ap_TenantID rec) (ap_State rec) (ap_IntervalSeconds rec) (ap_LastPolledAt rec)
                       (ap_DecidedAt rec) (ap_ConsumedAt rec) (Some use) rec in
          (Some rec, true, set_at p rec s)
      end
  end.

Definition approval_DeleteAllForSub (tenantID sub : string) (s : ApprovalRequestStore) : ApprovalRequestStore :=
  fold_left (fun s '(id, p) =>
    match aheap s !! p with
    | Some rec =>
        if (ap_TenantID rec =? tenantID) && (ap_UserID rec =? sub) then
          {| aheap := aheap s; anext := anext s; abyID := delete id (abyID s);
             abyHash := delete (ap_AuthReqIDHash rec) (abyHash s) |}
        else s
    | None => s
    end) (map_to_list (abyID s)) s.

(** ** Life cycles under interleavings

    The configuration is the store with two ghosts: the requests as they were
    saved, in the order of their saving, and the log of what the operations
    report to have done. *)

Inductive act :=
| Decided (userID : string) (approve : bool)
| Expired
| Consumed (hash : string)
| Claimed (use : ApprovalUse).

Record entry := { on_request : string; did : act; at_time : Time }.

Record approval_config := {
  requests : ApprovalRequestStore;
  saved : list ApprovalRequest;
  deeds : list entry;
}.

Definition approval_init : approval_config :=
  {| requests := NewApprovalRequestStore; saved := []; deeds := [] |}.

Inductive approval_op :=
| OpSave (tenantID : string) (rec : ApprovalRequest)
| OpDecide (tenantID id userID : string) (approve : bool) (now : Time)
| OpPoll (tenantID hash : string) (now : Time)
| OpExpire (tenantID hash : string) (now : Time)
| OpConsume (tenantID hash : string) (now : Time)
| OpClaim (tenantID id : string) (use : ApprovalUse) (now : Time)
| OpDelete (tenantID sub : string).

Definition decision_event (approve : bool) : ApprovalRequestEvent :=
  if approve then ApprovalEventApprove else ApprovalEventDeny.

Definition deed {E} (r : result E (option ApprovalRequest)) (a : act) (now : Time) : list entry :=
  match r with
  | Ok (Some rec) => [ {| on_request := ap_ID rec; did := a; at_time := now |} ]
  | _ => []
  end.

Definition exec (op : approval_op) (c : approval_config) : approval_config :=
  let s := requests c in
  match op with
  | OpSave tenantID rec =>
      {| requests := approval_Save tenantID rec s; saved := (saved c ++ [stored_request tenantID rec])%list;
         deeds := deeds c |}
  | OpDecide tenantID id userID approve now =>
      let '(r, s') := Decide tenantID id userID (decision_event approve) now s in
      {| requests := s'; saved := saved c; deeds := (deeds c ++ deed r (Decided userID approve) now)%list |}
  | OpPoll tenantID hash now =>
      {| requests := (RecordPoll tenantID hash now s).2; saved := saved c; deeds := deeds c |}
  | OpExpire tenantID hash now =>
      let '(r, s') := Expire tenantID hash now s in
      {| requests := s'; saved := saved c; deeds := (deeds c ++ deed r Expired now)%list |}
  | OpConsume tenantID hash now =>
      let '(r, s') := approval_Consume tenantID hash now s in
      {| requests := s'; saved := saved c; deeds := (deeds c ++ deed r (Consumed hash) now)%list |}
  | OpClaim tenantID id use now =>
      let '(r, recorded, s') := ClaimUse tenantID id use now s in
      {| requests := s'; saved := saved c;
         deeds := (deeds c ++ if recorded then deed (E := unit) (Ok r) (Claimed use) now else [])%list |}
  | OpDelete tenantID sub =>
      {| requests := approval_DeleteAllForSub tenantID sub s; saved := saved c; deeds := deeds c |}
  end.

(** Identifiers and secrets are fresh draws, so their digests are distinct; a
    request is saved as [StartApproval] makes it. *)
Definition allowed (c : approval_config) (op : approval_op) : Prop :=
  match op with
  | OpSave _ rec =>
      ap_ID rec ∉ map ap_ID (saved c) /\ ap_AuthReqIDHash rec ∉ map ap_AuthReqIDHash (saved c) /\
      ap_State rec = ApprovalPending /\ ap_Use rec = None
  | _ => True
  end.

Inductive approval_step (c : approval_config) : approval_config -> Prop :=
| approval_does op : allowed c op -> approval_step c (exec op c).

(** What the log says about one request. *)
Definition history (id : string) (log : list entry) : list (act * Time) :=
  omap (fun e => if on_request e =? id then Some (did e, at_time e) else None) log.

(** The life cycles: the history that leads to each state of a request. *)
Inductive life (r : ApprovalRequest) : list (act * Time) -> Prop :=
| life_pending : ap_State r = ApprovalPending -> ap_Use r = None -> life r []
| life_approved t :
    ap_State r = ApprovalApproved -> ap_Use r = None -> (t < ap_ExpiresAt r)%Z ->
    life r [(Decided (ap_UserID r) true, t)]
| life_denied t :
    ap_State r = ApprovalDenied -> ap_Use r = None -> (t < ap_ExpiresAt r)%Z ->
    life r [(Decided (ap_UserID r) false, t)]
| life_lapsed t :
    ap_State r = ApprovalExpired -> ap_Use r = None -> (ap_ExpiresAt r <= t)%Z -> life r [(Expired, t)]
| life_unused t t' :
    ap_State r = ApprovalExpired -> ap_Use r = None -> (t < ap_ExpiresAt r)%Z -> (ap_ExpiresAt r <= t')%Z ->
    life r [(Decided (ap_UserID r) true, t); (Expired, t')]
| life_consumed t t' :
    ap_State r = ApprovalConsumed -> ap_Use r = None -> (t < ap_ExpiresAt r)%Z -> (t' < ap_ExpiresAt r)%Z ->
    life r [(Decided (ap_UserID r) true, t); (Consumed (ap_AuthReqIDHash r), t')]
| life_used t t' t'' use :
    ap_State r = ApprovalConsumed -> ap_Use r = Some use ->
    (t < ap_ExpiresAt r)%Z -> (t' < ap_ExpiresAt r)%Z -> (t'' < ap_ExpiresAt r)%Z ->
    life r [(Decided (ap_UserID r) true, t); (Consumed (ap_AuthReqIDHash r), t'); (Claimed use, t'')].

(** [r] is [r0] but for the fields that the store changes: what was asked, of
    whom and for whom stays as it was when the request was saved. *)
Definition same_request (r0 r : ApprovalRequest) : Prop :=
  exists state interval polled decided consumed use,
    r = ap_with (ap_TenantID r0) state interval polled decided consumed use r0.

Lemma same_request_ID r0 r : same_request r0 r -> ap_ID r = ap_ID r0 /\ ap_AuthReqIDHash r = ap_AuthReqIDHash r0.
Proof. by intros (? & ? & ? & ? & ? & ? & ->). Qed.

Lemma same_request_with r0 r state interval polled decided consumed use :
  same_request r0 r -> same_request r0 (ap_with (ap_TenantID r) state interval polled decided consumed use r).
Proof. intros (? & ? & ? & ? & ? & ? & ->). by do 6 eexists. Qed.

Record approvals_ok (c : approval_config) : Prop := {
  ok_next : anext (requests c) = length (saved c);
  ok_heap : forall p r, aheap (requests c) !! p = Some r ->
    exists r0, saved c !! p = Some r0 /\ same_request r0 r;
  ok_life : forall p r, aheap (requests c) !! p = Some r -> life r (history (ap_ID r) (deeds c));
  ok_hash : forall h p, abyHash (requests c) !! h = Some p ->
    exists r, aheap (requests c) !! p = Some r /\ ap_AuthReqIDHash r = h;
  ok_ids : NoDup (map ap_ID (saved c));
  ok_deeds : forall e, e ∈ deeds c -> on_request e ∈ map ap_ID (saved c);
}.

Lemma history_app id l1 l2 : history id (l1 ++ l2) = (history id l1 ++ history id l2)%list.
Proof. apply omap_app. Qed.

Lemma history_other id e : on_request e <> id -> history id [e] = [].
Proof. intros He. unfold history. simpl. by rewrite bool_decide_false. Qed.

Lemma history_fresh id log : (forall e, e ∈ log -> on_request e <> id) -> history id log = [].
Proof.
  intros Hl. induction log as [|e log IH]; [done|]. change (e :: log) with ([e] ++ log)%list.
  rewrite history_app, IH by set_solver. rewrite history_other by set_solver. done.
Qed.

Lemma life_eq r r' h : life r h -> ap_State r' = ap_State r -> ap_Use r' = ap_Use r ->
  ap_ExpiresAt r' = ap_ExpiresAt r -> ap_UserID r' = ap_UserID r -> ap_AuthReqIDHash r' = ap_AuthReqIDHash r -> life r' h.
Proof.
  intros Hl Hs Hu He Hi Hh. inversion Hl; subst; rewrite <- ?Hi, <- ?Hh;
    econstructor; by rewrite ?Hs, ?Hu, ?He.
Qed.

(** An assignment to one record, with what the log says of it. *)
Lemma ok_set_at c p r r' es :
  approvals_ok c -> aheap (requests c) !! p = Some r ->
  (forall r0, same_request r0 r -> same_request r0 r') ->
  (forall e, e ∈ es -> on_request e = ap_ID r) ->
  (life r (history (ap_ID r) (deeds c)) -> life r' (history (ap_ID r) (deeds c ++ es))) ->
  approvals_ok {| requests := set_at p r' (requests c); saved := saved c; deeds := (deeds c ++ es)%list |}.
Proof.
  intros [Hn Hh Hl Hx Hi Hd] Hp Hsame Hes Hlife. destruct (Hh _ _ Hp) as (r0 & Hr0 & Hs0).
  assert (Hid : ap_ID r' = ap_ID r /\ ap_AuthReqIDHash r' = ap_AuthReqIDHash r).
  { destruct (same_request_ID _ _ Hs0), (same_request_ID _ _ (Hsame _ Hs0)). split; congruence. }
  destruct Hid as [Hid Hhash]. constructor; simpl.
  - done.
  - intros q rq [[<- <-]|[Hne Hq]]%lookup_insert_Some; [by exists r0; eauto|by apply Hh].
  - intros q rq [[<- <-]|[Hne Hq]]%lookup_insert_Some; [rewrite Hid; by apply Hlife, (Hl p)|].
    rewrite history_app, (history_fresh _ es), app_nil_r; [by apply (Hl q)|].
    intros e He%Hes Heq. apply Hne. destruct (Hh _ _ Hq) as (rq0 & Hrq0 & Hsq).
    apply (NoDup_lookup _ _ _ (ap_ID r0) Hi); rewrite list_lookup_fmap; [by rewrite Hr0|].
    rewrite Hrq0. simpl. f_equal. apply same_request_ID in Hs0 as [Hs0 _]. apply same_request_ID in Hsq as [Hsq _]. congruence.
  - intros h q Hq. destruct (Hx _ _ Hq) as (rq & Hrq & Hh').
    destruct (decide (p = q)) as [<-|Hne]; [|exists rq; by rewrite lookup_insert_ne].
    exists r'. rewrite lookup_insert_eq. split; [done|]. rewrite Hhash. congruence.
  - done.
  - intros e [He|He]%elem_of_app; [by apply Hd|]. rewrite (Hes _ He).
    apply same_request_ID in Hs0 as [-> _]. apply list_elem_of_fmap. exists r0. split; [done|].
    by eapply list_elem_of_lookup_2.
Qed.

(** ** What each operation does *)

Lemma by_id_Some id s p r : by_id id s = Some (p, r) <-> abyID s !! id = Some p /\ aheap s !! p = Some r.
Proof.
  unfold by_id. destruct (abyID s !! id) as [q|] eqn:Hq; simpl; [|naive_solver].
  destruct (aheap s !! q) eqn:Hr; simpl; naive_solver congruence.
Qed.

Lemma by_hash_Some h s p r : by_hash h s = Some (p, r) <-> abyHash s !! h = Some p /\ aheap s !! p = Some r.
Proof.
  unfold by_hash. destruct (abyHash s !! h) as [q|] eqn:Hq; simpl; [|naive_solver].
  destruct (aheap s !! q) eqn:Hr; simpl; naive_solver congruence.
Qed.

Definition decided_request (approve : bool) (now : Time) (r : ApprovalRequest) : ApprovalRequest :=
  ap_with (ap_TenantID r) (if approve then ApprovalApproved else ApprovalDenied) (ap_IntervalSeconds r)
    (ap_LastPolledAt r) (Some now) (ap_ConsumedAt r) (ap_Use r) r.

Definition consumed_request (now : Time) (r : ApprovalRequest) : ApprovalRequest :=
  ap_with (ap_TenantID r) ApprovalConsumed (ap_IntervalSeconds r) (ap_LastPolledAt r) (ap_DecidedAt r) (Some now)
    (ap_Use r) r.

Definition expired_request (r : ApprovalRequest) : ApprovalRequest :=
  ap_with (ap_TenantID r) ApprovalExpired (ap_IntervalSeconds r) (ap_LastPolledAt r) (ap_DecidedAt r) (ap_ConsumedAt r)
    (ap_Use r) r.

Definition used_request (use : ApprovalUse) (r : ApprovalRequest) : ApprovalRequest :=
  ap_with (ap_TenantID r) (ap_State r) (ap_IntervalSeconds r) (ap_LastPolledAt r) (ap_DecidedAt r) (ap_ConsumedAt r)
    (Some use) r.

Lemma Decide_cases tenantID id userID approve now s :
  (Decide tenantID id userID (decision_event approve) now s = (Ok None, s) /\
   forall p r, by_id id s = Some (p, r) ->
     ~ (ap_TenantID r = tenantID /\ ap_UserID r = userID /\ ap_State r = ApprovalPending /\ (now < ap_ExpiresAt r)%Z)) \/
  exists p r, by_id id s = Some (p, r) /\ ap_TenantID r = tenantID /\ ap_UserID r = userID /\
    ap_State r = ApprovalPending /\ (now < ap_ExpiresAt r)%Z /\
    Decide tenantID id userID (decision_event approve) now s =
      (Ok (Some (decided_request approve now r)), set_at p (decided_request approve now r) s).
Proof.
  unfold Decide. destruct (by_id id s) as [[p r]|]; [|by left].
  destruct (_ || negb (Before now (ap_ExpiresAt r))) eqn:Hb; unfold Before in Hb; go_bool.
  - left. split; [done|]. intros p' r' [= <- <-]. naive_solver lia.
  - right. exists p, r. destruct Hb as [[[Ht Hu] Hs] Hn]. split_and!; [done..|].
    rewrite Hs. by destruct approve.
Qed.

Lemma Expire_cases tenantID h now s :
  Expire tenantID h now s = (Ok None, s) \/
  exists p r, by_hash h s = Some (p, r) /\ ap_TenantID r = tenantID /\
    (ap_State r = ApprovalPending \/ ap_State r = ApprovalApproved) /\ (ap_ExpiresAt r <= now)%Z /\
    Expire tenantID h now s = (Ok (Some (expired_request r)), set_at p (expired_request r) s).
Proof.
  unfold Expire. destruct (by_hash h s) as [[p r]|]; [|by left].
  destruct (_ || Before now (ap_ExpiresAt r)) eqn:Hb; [by left|]. unfold Before in Hb. go_bool.
  right. exists p, r. destruct Hb as [[Ht Hs] Hn]. split_and!; [done..|].
  by destruct Hs as [-> | ->].
Qed.

Lemma approval_Consume_cases tenantID h now s :
  (approval_Consume tenantID h now s = (Ok None, s) /\
   forall p r, by_hash h s = Some (p, r) ->
     ~ (ap_TenantID r = tenantID /\ ap_State r = ApprovalApproved /\ (now < ap_ExpiresAt r)%Z)) \/
  exists p r, by_hash h s = Some (p, r) /\ ap_TenantID r = tenantID /\ ap_State r = ApprovalApproved /\
    (now < ap_ExpiresAt r)%Z /\
    approval_Consume tenantID h now s = (Ok (Some (consumed_request now r)), set_at p (consumed_request now r) s).
Proof.
  unfold approval_Consume. destruct (by_hash h s) as [[p r]|]; [|by left].
  destruct (_ || negb (Before now (ap_ExpiresAt r))) eqn:Hb; unfold Before in Hb; go_bool.
  - left. split; [done|]. intros p' r' [= <- <-]. naive_solver lia.
  - right. exists p, r. destruct Hb as [[Ht Hs] Hn]. split_and!; [done..|]. by rewrite Hs.
Qed.

Lemma ClaimUse_cases tenantID id use now s :
  (exists o, ClaimUse tenantID id use now s = (o, false, s) /\
     forall r, o = Some r -> is_Some (ap_Use r) /\ exists p, by_id id s = Some (p, r) /\ ap_TenantID r = tenantID /\
       ap_State r = ApprovalConsumed /\ (now < ap_ExpiresAt r)%Z) \/
  exists p r, by_id id s = Some (p, r) /\ ap_TenantID r = tenantID /\ ap_State r = ApprovalConsumed /\
    (now < ap_ExpiresAt r)%Z /\ ap_Use r = None /\
    ClaimUse tenantID id use now s = (Some (used_request use r), true, set_at p (used_request use r) s).
Proof.
  unfold ClaimUse. destruct (by_id id s) as [[p r]|] eqn:Hf; [|left; by eexists].
  destruct (_ || negb (Before now (ap_ExpiresAt r))) eqn:Hb; [left; by eexists|]. unfold Before in Hb. go_bool.
  destruct Hb as [[Ht Hs] Hn]. destruct (ap_Use r) as [u|] eqn:Hu.
  - left. eexists. split; [done|]. intros r' [= <-]. split; [done|]. by exists p.
  - right. exists p, r. by split_and!.
Qed.

Lemma RecordPoll_cases tenantID h now s :
  (RecordPoll tenantID h now s).2 = s \/
  exists p r, by_hash h s = Some (p, r) /\ ap_TenantID r = tenantID /\ ap_State r = ApprovalPending /\
    RecordPoll tenantID h now s = (Some (polled_request r now), IsPollTooFast r now, set_at p (polled_request r now) s).
Proof.
  unfold RecordPoll. destruct (by_hash h s) as [[p r]|]; [|by left].
  destruct (ap_TenantID r <>? tenantID) eqn:Ht; [by left|].
  destruct (ap_State r =? ApprovalPending) eqn:Hs; [|by left]. go_bool. right. by exists p, r.
Qed.

Lemma Delete_heap tenantID sub s :
  aheap (approval_DeleteAllForSub tenantID sub s) = aheap s /\
  anext (approval_DeleteAllForSub tenantID sub s) = anext s /\
  (forall h p, abyHash (approval_DeleteAllForSub tenantID sub s) !! h = Some p -> abyHash s !! h = Some p).
Proof.
  unfold approval_DeleteAllForSub. generalize (map_to_list (abyID s)). intros l. revert s.
  induction l as [|[id p] l IH]; intros s; [done|]. simpl.
  match goal with |- context [fold_left _ l ?s1] => destruct (IH s1) as (H1 & H2 & H3);
    assert (Hs : aheap s1 = aheap s /\ anext s1 = anext s /\
      (forall h q, abyHash s1 !! h = Some q -> abyHash s !! h = Some q)) end.
  { destruct (aheap s !! p) as [r|]; [|done]. destruct (_ && _); [|done]. split_and!; [done..|].
    intros h q Hq. simpl in Hq. by apply lookup_delete_Some in Hq as [_ Hq]. }
  destruct Hs as (E1 & E2 & E3). split_and!; [congruence..|]. intros h q Hq. apply E3, H3, Hq.
Qed.

Lemma deeds_nil c s : {| requests := s; saved := saved c; deeds := (deeds c ++ [])%list |} =
  {| requests := s; saved := saved c; deeds := deeds c |}.
Proof. by rewrite app_nil_r. Qed.

Lemma config_eta c : {| requests := requests c; saved := saved c; deeds := deeds c |} = c.
Proof. by destruct c. Qed.

Lemma ok_save c tenantID rec :
  approvals_ok c -> allowed c (OpSave tenantID rec) -> approvals_ok (exec (OpSave tenantID rec) c).
Proof.
  intros [Hn Hh Hl Hx Hi Hd] (Hid & Hhash & Hst & Huse). constructor; simpl.
  - rewrite length_app. simpl. lia.
  - rewrite Hn. intros p r [[<- <-]|[Hne Hp]]%lookup_insert_Some.
    + exists (stored_request tenantID rec). split; [by apply list_lookup_middle|]. by do 6 eexists.
    + destruct (Hh _ _ Hp) as (r0 & Hr0 & Hs). exists r0. split; [|done]. by apply lookup_app_l_Some.
  - rewrite Hn. intros p r [[<- <-]|[Hne Hp]]%lookup_insert_Some; [|by apply (Hl p)].
    rewrite history_fresh; [by apply life_pending|]. intros e He Heq. apply Hid. simpl in Heq. rewrite <- Heq. by apply Hd.
  - intros h p [[<- <-]|[Hne Hp]]%lookup_insert_Some; [eexists; split; [apply lookup_insert_eq|done]|].
    destruct (Hx _ _ Hp) as (r & Hr & Hrh). exists r. split; [|done].
    rewrite lookup_insert_ne; [done|]. intros <-. destruct (Hh _ _ Hr) as (r0 & Hr0 & _).
    apply lookup_lt_Some in Hr0. lia.
  - rewrite map_app. apply NoDup_app. split_and!; [done| |apply NoDup_singleton].
    intros x Hx' Hx''%list_elem_of_singleton. subst. done.
  - intros e He%Hd. rewrite map_app. by apply elem_of_app; left.
Qed.

(** The state of a request tells its history. *)
Lemma life_pending_inv r h : life r h -> ap_State r = ApprovalPending -> h = [] /\ ap_Use r = None.
Proof. intros Hl Hs. destruct Hl as [Hr|t Hr|t Hr|t Hr|t t' Hr|t t' Hr|t t' t'' u Hr]; rewrite Hs in Hr; done. Qed.

Lemma life_approved_inv r h : life r h -> ap_State r = ApprovalApproved ->
  exists t, h = [(Decided (ap_UserID r) true, t)] /\ ap_Use r = None /\ (t < ap_ExpiresAt r)%Z.
Proof. intros Hl Hs. destruct Hl as [Hr|t Hr|t Hr|t Hr|t t' Hr|t t' Hr|t t' t'' u Hr]; rewrite Hs in Hr; eauto; done. Qed.

Lemma life_consumed_inv r h : life r h -> ap_State r = ApprovalConsumed -> ap_Use r = None ->
  exists t t', h = [(Decided (ap_UserID r) true, t); (Consumed (ap_AuthReqIDHash r), t')] /\
    (t < ap_ExpiresAt r)%Z /\ (t' < ap_ExpiresAt r)%Z.
Proof.
  intros Hl Hs Hu. destruct Hl as [Hr|t Hr|t Hr|t Hr|t t' Hr|t t' Hr|t t' t'' u Hr]; rewrite Hs in Hr; try done; eauto.
  congruence.
Qed.

(** A request is decided, expired, consumed or used: its life goes on. *)
Lemma life_decide r h approve now :
  life r h -> ap_State r = ApprovalPending -> (now < ap_ExpiresAt r)%Z ->
  life (decided_request approve now r) (h ++ [(Decided (ap_UserID r) approve, now)]).
Proof.
  intros Hl Hs Hlt. destruct (life_pending_inv _ _ Hl Hs) as [-> Hu].
  destruct approve; [by apply (life_approved (decided_request true now r))|].
  by apply (life_denied (decided_request false now r)).
Qed.

Lemma life_expire r h now :
  life r h -> ap_State r = ApprovalPending \/ ap_State r = ApprovalApproved -> (ap_ExpiresAt r <= now)%Z ->
  life (expired_request r) (h ++ [(Expired, now)]).
Proof.
  intros Hl [Hs|Hs] Hle.
  - destruct (life_pending_inv _ _ Hl Hs) as [-> Hu]. by apply (life_lapsed (expired_request r)).
  - destruct (life_approved_inv _ _ Hl Hs) as (t & -> & Hu & Ht). by apply (life_unused (expired_request r)).
Qed.

Lemma life_consume r h now :
  life r h -> ap_State r = ApprovalApproved -> (now < ap_ExpiresAt r)%Z ->
  life (consumed_request now r) (h ++ [(Consumed (ap_AuthReqIDHash r), now)]).
Proof.
  intros Hl Hs Hlt. destruct (life_approved_inv _ _ Hl Hs) as (t & -> & Hu & Ht).
  by apply (life_consumed (consumed_request now r)).
Qed.

Lemma life_use r h use now :
  life r h -> ap_State r = ApprovalConsumed -> ap_Use r = None -> (now < ap_ExpiresAt r)%Z ->
  life (used_request use r) (h ++ [(Claimed use, now)]).
Proof.
  intros Hl Hs Hu Hlt. destruct (life_consumed_inv _ _ Hl Hs Hu) as (t & t' & -> & Ht & Ht').
  by apply (life_used (used_request use r)).
Qed.

(** The log grows by an entry about the record. *)
Lemma history_snoc id log a now :
  history id (log ++ [ {| on_request := id; did := a; at_time := now |} ]) = (history id log ++ [(a, now)])%list.
Proof. rewrite history_app. unfold history at 2. simpl. by rewrite bool_decide_true. Qed.

Lemma approval_step_ok c c' : approvals_ok c -> approval_step c c' -> approvals_ok c'.
Proof.
  intros Hok [op Hop]. pose proof Hok as [_ _ _ Hhash _ _]. destruct op; simpl.
  - by apply ok_save.
  - destruct (Decide_cases tenantID id userID approve now (requests c))
      as [[-> _]|(p & r & Hf & Ht & <- & Hs & Hlt & ->)]; simpl; [by rewrite deeds_nil, config_eta|].
    apply by_id_Some in Hf as [_ Hp]. eapply ok_set_at; [done|done| |set_solver|].
    + intros r0 (? & ? & ? & ? & ? & ? & ->). by do 6 eexists.
    + intros Hl. rewrite history_snoc. by apply life_decide.
  - destruct (RecordPoll_cases tenantID hash now (requests c)) as [-> |(p & r & Hf & Ht & Hs & ->)]; simpl;
      [by rewrite config_eta|]. apply by_hash_Some in Hf as [_ Hp].
    rewrite <- deeds_nil. eapply ok_set_at; [done|done| |set_solver|].
    + intros r0 (? & ? & ? & ? & ? & ? & ->). by do 6 eexists.
    + rewrite app_nil_r. intros Hl. by apply (life_eq r).
  - destruct (Expire_cases tenantID hash now (requests c)) as [-> |(p & r & Hf & Ht & Hs & Hle & ->)]; simpl;
      [by rewrite deeds_nil, config_eta|]. apply by_hash_Some in Hf as [_ Hp].
    eapply ok_set_at; [done|done| |set_solver|].
    + intros r0 (? & ? & ? & ? & ? & ? & ->). by do 6 eexists.
    + intros Hl. rewrite history_snoc. by apply life_expire.
  - destruct (approval_Consume_cases tenantID hash now (requests c)) as [[-> _]|(p & r & Hf & Ht & Hs & Hlt & ->)]; simpl;
      [by rewrite deeds_nil, config_eta|]. apply by_hash_Some in Hf as [Hh Hp].
    eapply ok_set_at; [done|done| |set_solver|].
    + intros r0 (? & ? & ? & ? & ? & ? & ->). by do 6 eexists.
    + destruct (Hhash _ _ Hh) as (r' & Hr' & <-). assert (r' = r) as -> by congruence.
      intros Hl. rewrite history_snoc. by apply life_consume.
  - destruct (ClaimUse_cases tenantID id use now (requests c))
      as [(o & -> & _)|(p & r & Hf & Ht & Hs & Hlt & Hu & ->)]; simpl; [by rewrite deeds_nil, config_eta|].
    apply by_id_Some in Hf as [_ Hp]. eapply ok_set_at; [done|done| |set_solver|].
    + intros r0 (? & ? & ? & ? & ? & ? & ->). by do 6 eexists.
    + intros Hl. rewrite history_snoc. by apply life_use.
  - destruct (Delete_heap tenantID sub (requests c)) as (E1 & E2 & E3). destruct Hok. constructor; simpl; rewrite ?E1, ?E2; eauto.
Qed.

Lemma approval_init_ok : approvals_ok approval_init.
Proof.
  constructor; simpl; try done; try (by constructor); try (intros ?? Hx; exfalso; exact (lookup_empty_Some _ _ Hx)).
  intros e He. by apply elem_of_nil in He.
Qed.

Lemma approval_reachable_ok c : rtc approval_step approval_init c -> approvals_ok c.
Proof.
  intros Hsteps. revert Hsteps. generalize approval_init_ok. generalize approval_init as c0. intros c0 Hc0 Hsteps.
  induction Hsteps as [|c0 c1 c2 Hstep _ IH]; [done|]. by eapply IH, approval_step_ok.
Qed.

(** C9. However the atomic operations of any number of clients, users and
    resource servers interleave, the history of every request is one of its
    life cycles: it is decided once, by the user it was made for and before its
    deadline; after an approval it is consumed at most once, by a holder of its
    secret; after that it is used at most once, under one operation key; and
    throughout it is the request that was saved: the scopes, details, client,
    agent, user and deadline never change. *)
Theorem approvals_live_once c p r :
  rtc approval_step approval_init c -> aheap (requests c) !! p = Some r ->
  life r (history (ap_ID r) (deeds c)) /\ exists r0, saved c !! p = Some r0 /\ same_request r0 r.
Proof. intros [Hn Hh Hl Hx Hi Hd]%approval_reachable_ok Hp. split; [by apply (Hl p)|by apply Hh]. Qed.

(** The comparison with the actual operation succeeds exactly when the
    approval has not expired and one approved detail has the type, names the
    target, the location and the action and has the digest of the actual
    parameters; an approval without a target approves nothing. *)
Theorem MatchApprovedOperation_exact digest_of rec actual digest now :
  MatchApprovedOperation digest_of rec actual digest now = ApprovedOperationMatched <->
  (now < ap_ExpiresAt rec)%Z /\
  exists d, d ∈ ap_AuthorizationDetails rec /\ detail_Type d = DetailType actual /\
    Identifier d = op_Identifier actual /\ op_Identifier actual <> "" /\ Location actual ∈ Locations d /\
    Action actual ∈ Actions d /\ digest_of (detail_Fields d) = Some digest.
Proof.
  unfold MatchApprovedOperation, Before. destruct (Z.ltb_spec now (ap_ExpiresAt rec)) as [Hlt|Hge]; simpl; [|split; [done|lia]].
  assert (Hnames : forall d, names_operation d actual = true <->
    detail_Type d = DetailType actual /\ Identifier d = op_Identifier actual /\ op_Identifier actual <> "" /\
    Location actual ∈ Locations d /\ Action actual ∈ Actions d).
  { intros d. unfold names_operation. go_bool. naive_solver congruence. }
  trans (exists d, d ∈ ap_AuthorizationDetails rec /\ names_operation d actual = true /\ digest_of (detail_Fields d) = Some digest).
  2:{ setoid_rewrite Hnames. naive_solver. }
  clear Hlt. induction (ap_AuthorizationDetails rec) as [|d ds IH]; simpl; [set_solver|].
  assert (Hcons : forall Q, (exists x, x ∈ d :: ds /\ Q x) <-> Q d \/ exists x, x ∈ ds /\ Q x).
  { intros Q. setoid_rewrite elem_of_cons. naive_solver. }
  rewrite (Hcons (fun x => names_operation x actual = true /\ digest_of (detail_Fields x) = Some digest)), <- IH.
  destruct (names_operation d actual); simpl; [|naive_solver].
  destruct (digest_of (detail_Fields d)) as [a|]; [|naive_solver].
  destruct (a =? digest) eqn:Ha; go_bool; naive_solver.
Qed.

(** ** Witness: two consumers and two resource servers race *)

Definition demo_detail : AuthorizationDetail :=
  {| detail_Type := "payment"; Locations := ["https://bank.example"]; Actions := ["pay"]; Datatypes := [];
     Identifier := "account-1"; Privileges := []; detail_Fields := ∅ |}.

Definition demo_approval : ApprovalRequest :=
  {| ap_ID := "id"; ap_TenantID := "acme"; ap_ClientID := "client"; ap_AgentID := Some "agent"; ap_UserID := "alice";
     ap_Scopes := ["openid"]; ap_AuthorizationDetails := [demo_detail]; ap_BindingMessage := None;
     ap_State := ApprovalPending; ap_AuthReqIDHash := "hash"; ap_IntervalSeconds := 5; ap_LastPolledAt := None;
     ap_RequestedAt := 1%Z; ap_ExpiresAt := Add 1%Z DefaultTTL; ap_DecidedAt := None; ap_ConsumedAt := None;
     ap_Use := None |}.

Definition demo_key (k : string) : ApprovalUse := {| KeyHash := k; ClaimedAt := 6%Z |}.

Definition demo_ops : list approval_op :=
  [ OpSave "acme" demo_approval; OpPoll "acme" "hash" 2%Z; OpDecide "acme" "id" "mallory" true 3%Z;
    OpDecide "acme" "id" "alice" true 3%Z; OpDecide "acme" "id" "alice" false 3%Z; OpConsume "acme" "hash" 4%Z;
    OpConsume "acme" "hash" 5%Z; OpClaim "acme" "id" (demo_key "k1") 6%Z; OpClaim "acme" "id" (demo_key "k2") 6%Z ].

Definition run_ops (ops : list approval_op) (c : approval_config) : approval_config := fold_left (fun c op => exec op c) ops c.
Fixpoint all_allowed (ops : list approval_op) (c : approval_config) : Prop :=
  match ops with [] => True | op :: ops' => allowed c op /\ all_allowed ops' (exec op c) end.

Lemma run_ops_reachable ops c : all_allowed ops c -> rtc approval_step c (run_ops ops c).
Proof.
  revert c. induction ops as [|op ops IH]; intros c; [constructor|]. intros [Hop Hops].
  eapply rtc_l; [by apply approval_does|]. by apply IH.
Qed.

Definition demo_config : approval_config := run_ops demo_ops approval_init.

Definition demo_used : ApprovalRequest :=
  ap_with "acme" ApprovalConsumed 5 (Some 2%Z) (Some 3%Z) (Some 4%Z) (Some (demo_key "k1")) demo_approval.

Lemma approvals_live_once_witness :
  life demo_used (history "id" (deeds demo_config)) /\
  history "id" (deeds demo_config) =
    [(Decided "alice" true, 3%Z); (Consumed "hash", 4%Z); (Claimed (demo_key "k1"), 6%Z)].
Proof.
  split; [|vm_compute; reflexivity].
  refine (proj1 (approvals_live_once demo_config 0%nat demo_used _ _)); [|vm_compute; reflexivity].
  apply run_ops_reachable. simpl. split_and!; try exact I; try reflexivity; apply not_elem_of_nil.
Defined.
