(* ===== verification/Approval.v ===== *)
(** * OAuth2: the approval flow (CIBA) and the approved operation

    [backend/oauth2/internal/approval/usecases/approval_flow.go], with
    [ParseAuthorizationDetails] and [ValidateAuthorizationDetails]
    (internal/usecases/authorization_details.go), [ResolveIssuableAgent] and
    [AgentOwnerIsActive] (internal/usecases/agent_issuance.go), and the two
    functions by which the resource access evaluation uses an approval
    (token/usecases/evaluate_resource_access.go).

    The theorems: what a started approval has checked and stores; a decision
    succeeds exactly for the owner of a pending request; a successful exchange
    has checked everything, signs exactly what was approved and uses the
    request up; and the right to execute goes to one operation key. *)

From Stdlib Require Import Ascii String ZArith Lia.
From stdpp Require Import base strings list gmap sorting.
From S2P Require Import Prelude Effects GoStrings Crypto Rules Policy TokenDomain ActorChain StateMachines RichAuthorization.
From S2P Require Import RefreshStore RefreshUsecase CodeStore ExchangeCode Device ApprovalStore.

Local Open Scope string_scope.
Local Open Scope go_scope.

(** ** Agents *)

Definition AgentStatus := string.
Definition AgentStatusActive : AgentStatus := "active".

Record Agent := {
  agent_ID : string;
  agent_TenantID : string;
  agent_Name : string;
  agent_Description : option string;
  agent_Kind : string;
  agent_OwnerUserID : string;
  agent_Status : AgentStatus;
  agent_CreatedAt : Time;
  agent_UpdatedAt : Time;
  agent_DisabledAt : option Time;
  agent_KilledAt : option Time;
}.

Definition agent_IsActive (a : Agent) : bool :=
  (agent_Status a =? AgentStatusActive) && negb (is_some (agent_DisabledAt a)) && negb (is_some (agent_KilledAt a)).

Section agents.
Context {E U : Type} `{UserView U}.

(** A missing repository is [None]. *)
Definition AgentOwnerIsActive (tenantID : string) (userRepo : option (string -> result E (option U)))
    (agent : option Agent) : result (failure E) bool :=
  match userRepo, agent with
  | Some findBySub, Some agent =>
      let? owner := lift_port (findBySub (agent_OwnerUserID agent)) in
      Ok (match owner with Some o => (user_TenantID o =? tenantID) && user_IsActive o | None => false end)
  | _, _ => Ok true
  end.

Definition ResolveIssuableAgent (tenantID : string) (agentRepo : option (string -> string -> result E (option Agent)))
    (userRepo : option (string -> result E (option U))) (clientID : string) : result (failure E) (option Agent) :=
  match agentRepo with
  | None => Ok None
  | Some findByClientID =>
      let? agent := lift_port (findByClientID tenantID clientID) in
      match agent with
      | None => Ok None
      | Some agent =>
          reject negb (agent_IsActive agent) with NewOAuthError "invalid_client" "agent is disabled or killed" in
          let? active := AgentOwnerIsActive tenantID userRepo (Some agent) in
          reject negb active with NewOAuthError "invalid_client" "agent owner is offboarded" in
          Ok (Some agent)
      end
  end.
End agents.

(** ** Authorization details of a request *)

Definition errInvalidAuthorizationDetails : string := "invalid_authorization_details".

(** [unmarshal] is [json.Unmarshal] into a slice of details. *)
Definition ParseAuthorizationDetails {E} (unmarshal : string -> option (list AuthorizationDetail)) (raw : string) :
    result (failure E) (list AuthorizationDetail) :=
  if TrimSpace raw =? "" then Ok []
  else match unmarshal raw with
  | None => Err (NewOAuthError errInvalidAuthorizationDetails "invalid JSON in authorization_details")
  | Some [] => Err (NewOAuthError errInvalidAuthorizationDetails "authorization_details is empty")
  | Some details => Ok details
  end.

(** The description of the last error is the text of the error of the type. *)
Definition ValidateAuthorizationDetails {E}
    (repo : option (string -> string -> result E (option AuthorizationDetailType))) (tenantID : string)
    (details : list AuthorizationDetail) : result (failure E) unit :=
  match details, repo with
  | [], _ => Ok tt
  | _, None => Err (NewOAuthError errInvalidAuthorizationDetails "authorization_details is not accepted.")
  | _, Some findByType => for_each (fun d =>
      reject detail_Type d =? "" with
        NewOAuthError errInvalidAuthorizationDetails "type is required in authorization_details" in
      let? t := lift_port (findByType tenantID (detail_Type d)) in
      match t with
      | None => Err (NewOAuthError errInvalidAuthorizationDetails
                       ("Unregistered authorization_details type: " ++ detail_Type d))
      | Some t =>
          match ValidateAgainstType d t with
          | Err e => Err (NewOAuthError errInvalidAuthorizationDetails (format e))
          | Ok _ => Ok tt
          end
      end) details
  end.

(** ** Ports, events and inputs *)

(** [ports.ApprovalRequestStore]; the first argument is the tenant of the
    context. *)
Class ApprovalPort (S E : Type) := {
  save_approval : string -> ApprovalRequest -> S -> result E unit * S;
  find_approval : string -> string -> S -> result E (option ApprovalRequest) * S;
  find_approval_hash : string -> string -> S -> result E (option ApprovalRequest) * S;
  poll_approval : string -> string -> Time -> S -> result E (option ApprovalRequest * bool) * S;
  expire_approval : string -> string -> Time -> S -> result E (option ApprovalRequest) * S;
  decide_approval : string -> string -> string -> ApprovalRequestEvent -> Time -> S ->
    result E (option ApprovalRequest) * S;
  consume_approval : string -> string -> Time -> S -> result E (option ApprovalRequest) * S;
  claim_approval : string -> string -> ApprovalUse -> Time -> S -> result E (option ApprovalRequest * bool) * S;
}.

#[export] Instance memory_approval_port : ApprovalPort ApprovalRequestStore transition_error := {
  save_approval t r s := (Ok tt, approval_Save t r s);
  find_approval t id s := (Ok (approval_FindByID t id s), s);
  find_approval_hash t h s := (Ok (FindByAuthReqIDHash t h s), s);
  poll_approval t h now s := let '(r, early, s') := RecordPoll t h now s in (Ok (r, early), s');
  expire_approval := Expire;
  decide_approval := Decide;
  consume_approval := approval_Consume;
  claim_approval t id use now s := let '(r, recorded, s') := ClaimUse t id use now s in (Ok (r, recorded), s');
}.

(** What the flow reads of a client and of a user besides. *)
Class ClientNameView (C : Type) := { client_ClientName : C -> option string }.
Class UserContactView (U : Type) := {
  user_Email : U -> option string;
  user_LocaleAttribute : U -> string;
  user_DisplayName : U -> string;
}.

Record Notification := {
  n_TenantID : string;
  n_To : string;
  n_RecipientLocale : string;
  n_Vars : list (string * string);
}.

(** The events handed to [Emit] and, in their order among them, the
    notifications handed to the notifier. *)
Inductive approval_event :=
| BackchannelAuthRequested (at_ : Time) (tenantID approvalRequestID clientID agentID userID : string)
    (scopes : list string)
| BackchannelAuthApproved (at_ : Time) (tenantID approvalRequestID clientID agentID userID : string)
| BackchannelAuthDenied (at_ : Time) (tenantID approvalRequestID clientID userID : string)
| BackchannelAuthExpired (at_ : Time) (tenantID approvalRequestID clientID userID : string)
| ApprovedTokenIssued (at_ : Time) (tenantID jti clientID userID : string) (scopes : list string)
    (senderConstraint agentID : string)
| Notify (n : Notification).

Record StartApprovalInput := {
  sa_ClientID : string;
  sa_LoginHint : string;
  sa_IDTokenHint : string;
  sa_Scope : string;
  sa_AuthorizationDetailsRaw : string;
  sa_BindingMessage : string;
  sa_RequestedExpiry : option Z;
}.

Record StartApprovalResult := { sr_AuthReqID : string; sr_ExpiresIn : Z; sr_Interval : Z }.

Record IDTokenHintClaims := {
  hint_Subject : string;
  hint_Audience : string;
  hint_Audiences : list string;
  hint_Sid : string;
  hint_ExpiresAt : Z;
}.

Record ExchangeApprovalInput := {
  ea_ClientID : string;
  ea_AuthReqID : string;
  ea_ProofJKT : string;
  ea_ProofX5TS256 : string;
}.

Record ExchangeApprovalResult := {
  er_AccessToken : string;
  er_IDToken : string;
  er_TokenType : string;
  er_ExpiresIn : Z;
  er_Scope : string;
}.

Definition ValidateStartApprovalInput {E} (in_ : StartApprovalInput) : result (failure E) unit :=
  let hints := ((if TrimSpace (sa_LoginHint in_) <>? "" then 1 else 0) +
                (if TrimSpace (sa_IDTokenHint in_) <>? "" then 1 else 0))%nat in
  reject hints <>? 1%nat with NewOAuthError "invalid_request" "exactly one user hint is required" in
  let scopes := Fields (sa_Scope in_) in
  reject (scopes =? []) || negb (contains scopes "openid") with
    NewOAuthError "invalid_scope" "scope must contain openid" in
  reject (MaxBindingMessageLength <? RuneCountInString (sa_BindingMessage in_)) ||
         existsb (fun e => IsControl (fst e)) (decode_runes (bytes_of (sa_BindingMessage in_))) with
    NewOAuthError "invalid_binding_message" "binding_message is not suitable for display" in
  reject match sa_RequestedExpiry in_ with
         | Some n => (n <=? 0) || (Z.quot MaxTTL Second <? n)
         | None => false
         end with
    NewOAuthError "invalid_request" "requested_expiry must be between 1 and 600 seconds" in
  Ok tt.

Definition hintAudienceContains (claims : IDTokenHintClaims) (clientID : string) : bool :=
  match hint_Audiences claims with
  | [] => hint_Audience claims =? clientID
  | audiences => contains audiences clientID
  end.

Definition optionalString (value : string) : option string := if value =? "" then None else Some value.
Definition deref_string (value : option string) : string := default "" value.

(** ** The use cases *)

Section flows.
Context {S E C U : Type} `{ApprovalPort S E} `{ClientView C} `{!ClientPolicyView C} `{!ClientNameView C}
  `{UserView U} `{!UserContactView U}.
Notation flow := (eff S approval_event (failure E)).

(** A repository or notifier that may be missing is optional; [sa_clock] is
    [time.Now()]. *)
Record StartApprovalDeps := {
  sa_ClientRepo : string -> string -> result E (option C);
  sa_FindBySub : string -> result E (option U);
  sa_FindByUsername : string -> string -> result E (option U);
  sa_FindByEmail : string -> string -> result E (option U);
  sa_AgentRepo : option (string -> string -> result E (option Agent));
  sa_HintVerifier : option (string -> result E (option IDTokenHintClaims));
  sa_AuthzDetailTypeRepo : option (string -> string -> result E (option AuthorizationDetailType));
  sa_unmarshal : string -> option (list AuthorizationDetail);
  sa_Notifier : bool;
  sa_ApprovalURL : string;
  sa_clock : Time;
}.

Definition valid_hint (claims : option IDTokenHintClaims) (clientID : string) (now : Time) : option IDTokenHintClaims :=
  match claims with
  | Some c => if hintAudienceContains c clientID && (hint_Subject c <>? "") && (Unix now <? hint_ExpiresAt c)
              then Some c else None
  | None => None
  end.

(** Which user the hint names, before its tenant and status are looked at. *)
Definition hinted_user (d : StartApprovalDeps) (tenantID : string) (in_ : StartApprovalInput) (clientID : string)
    (now : Time) : result (failure E) (option U) :=
  if sa_IDTokenHint in_ <>? "" then
    match sa_HintVerifier d with
    | None => Err (NewOAuthError "unknown_user_id" "user could not be resolved")
    | Some verify =>
        let claims := match verify (sa_IDTokenHint in_) with Ok c => c | Err _ => None end in
        match valid_hint claims clientID now with
        | Some c => lift_port (sa_FindBySub d (hint_Subject c))
        | None => Ok None
        end
    end
  else
    let hint := TrimSpace (sa_LoginHint in_) in
    let? user := lift_port (sa_FindByUsername d tenantID hint) in
    match user with
    | Some user => Ok (Some user)
    | None => lift_port (sa_FindByEmail d tenantID hint)
    end.

Definition resolveApprovalUser (d : StartApprovalDeps) (tenantID : string) (in_ : StartApprovalInput) (clientID : string)
    (now : Time) : result (failure E) U :=
  let? user := hinted_user d tenantID in_ clientID now in
  match user with
  | Some user =>
      reject (user_TenantID user <>? tenantID) || negb (user_IsActive user) with
        NewOAuthError "unknown_user_id" "user could not be resolved" in
      Ok user
  | None => Err (NewOAuthError "unknown_user_id" "user could not be resolved")
  end.

Definition or_dash (s : string) : string := if s =? "" then "—" else s.

Definition notifyApproval (d : StartApprovalDeps) (client : C) (user : U) (agentName binding : string)
    (ttl : Duration) : flow unit :=
  match user_Email user with
  | Some email =>
      if negb (sa_Notifier d) || (TrimSpace email =? "") then eff_ret tt
      else
        let clientName := match client_ClientName client with
                          | Some name => if TrimSpace name <>? "" then name else client_ClientID client
                          | None => client_ClientID client
                          end in
        emit (Notify {| n_TenantID := user_TenantID user; n_To := email;
                        n_RecipientLocale := user_LocaleAttribute user;
                        n_Vars := [ ("approval_url", sa_ApprovalURL d); ("client_name", clientName);
                                    ("agent_name", or_dash agentName); ("binding_message", or_dash binding);
                                    ("expires_in_minutes", FormatInt (Z.quot ttl (60 * Second)));
                                    ("user_display_name", user_DisplayName user) ] |})
  | None => eff_ret tt
  end.

Definition resolve_start_client (d : StartApprovalDeps) (tenantID : string) (in_ : StartApprovalInput) : result (failure E) C :=
  let? client := lift_port (sa_ClientRepo d tenantID (sa_ClientID in_)) in
  match client with
  | None => Err (NewOAuthError "invalid_client" "unknown client")
  | Some client =>
      reject (client_ClientType client <>? ClientConfidential) || negb (contains (client_GrantTypes client) GrantCiba) with
        NewOAuthError "unauthorized_client" "ciba grant is not allowed" in
      reject negb (forallb (contains (Fields (client_Scope client))) (Fields (sa_Scope in_))) with
        NewOAuthError "invalid_scope" "scope is not declared by the client" in
      Ok client
  end.

Definition start_details (d : StartApprovalDeps) (tenantID : string) (in_ : StartApprovalInput) :
    result (failure E) (list AuthorizationDetail) :=
  let? details := ParseAuthorizationDetails (sa_unmarshal d) (sa_AuthorizationDetailsRaw in_) in
  let? _ := ValidateAuthorizationDetails (sa_AuthzDetailTypeRepo d) tenantID details in
  Ok details.

(** The record; [id] is the identifier drawn and [secret] the auth_req_id. *)
Definition new_request (tenantID : string) (in_ : StartApprovalInput) (client : C) (user : U) (agent : option Agent)
    (details : list AuthorizationDetail) (id secret : string) (now : Time) : ApprovalRequest :=
  {| ap_ID := id; ap_TenantID := tenantID; ap_ClientID := client_ClientID client; ap_AgentID := agent_ID <$> agent;
     ap_UserID := user_ID user; ap_Scopes := Fields (sa_Scope in_); ap_AuthorizationDetails := details;
     ap_BindingMessage := optionalString (sa_BindingMessage in_); ap_State := ApprovalPending;
     ap_AuthReqIDHash := HashAuthReqID secret;
     ap_IntervalSeconds := DefaultIntervalSeconds DefaultDeviceCodePolling; ap_LastPolledAt := None;
     ap_RequestedAt := now; ap_ExpiresAt := Add now (ResolveTTL (sa_RequestedExpiry in_)); ap_DecidedAt := None;
     ap_ConsumedAt := None; ap_Use := None |}.

(** [id] and [random] are what the sources of randomness return. *)
Definition StartApproval (d : StartApprovalDeps) (tenantID : string) (in_ : StartApprovalInput) (now : Time)
    (id : result E string) (random : result E (list N)) : flow StartApprovalResult :=
  do! lift (ValidateStartApprovalInput in_) in
  let now := if IsZero now then sa_clock d else now in
  let! client := lift (resolve_start_client d tenantID in_) in
  let! details := lift (start_details d tenantID in_) in
  let! user := lift (resolveApprovalUser d tenantID in_ (client_ClientID client) now) in
  let! agent := lift (ResolveIssuableAgent tenantID (sa_AgentRepo d) (Some (sa_FindBySub d)) (client_ClientID client)) in
  let! id := lift (lift_port id) in
  let! authReqID := lift (lift_port (GenerateAuthReqID random)) in
  let ttl := ResolveTTL (sa_RequestedExpiry in_) in
  let rec_ := new_request tenantID in_ client user agent details id authReqID now in
  do! lift (lift_rules (ApprovalRequest_Validate rec_)) in
  do! call PortError (save_approval tenantID rec_) in
  do! emit (BackchannelAuthRequested now tenantID (ap_ID rec_) (ap_ClientID rec_) (deref_string (ap_AgentID rec_))
              (ap_UserID rec_) (ap_Scopes rec_)) in
  do! notifyApproval d client user (match agent with Some a => agent_Name a | None => "" end) (sa_BindingMessage in_) ttl in
  eff_ret {| sr_AuthReqID := authReqID; sr_ExpiresIn := Z.quot ttl Second;
             sr_Interval := DefaultIntervalSeconds DefaultDeviceCodePolling |}.

(** *** The decision *)

Definition DecideApproval (tenantID userID id : string) (approve : bool) (now : Time) : flow unit :=
  let! rec := call PortError (find_approval tenantID id) in
  match rec with
  | None => eff_fail (NewOAuthError "access_denied" "approval request is not owned by the user")
  | Some rec =>
      refuse (ap_UserID rec <>? userID) with
        NewOAuthError "access_denied" "approval request is not owned by the user" in
      refuse (IsExpired rec now || (ap_State rec <>? ApprovalPending)) with
        NewOAuthError "invalid_request" "approval request is no longer pending" in
      let event := if approve then ApprovalEventApprove else ApprovalEventDeny in
      let! decided := call PortError (decide_approval tenantID id userID event now) in
      match decided with
      | None => eff_fail (NewOAuthError "invalid_request" "approval request was already decided")
      | Some decided =>
          emit (if approve
                then BackchannelAuthApproved now (ap_TenantID decided) (ap_ID decided) (ap_ClientID decided)
                       (deref_string (ap_AgentID decided)) userID
                else BackchannelAuthDenied now (ap_TenantID decided) (ap_ID decided) (ap_ClientID decided) userID)
      end
  end.

(** *** The exchange *)

Record ExchangeApprovalDeps := {
  ea_ClientRepo : string -> string -> result E (option C);
  ea_FindBySub : string -> result E (option U);
  ea_AgentRepo : option (string -> string -> result E (option Agent));
  ea_SignAccessToken : AccessTokenInput C -> result (failure E) (string * string);
  ea_SignIDToken : IDTokenInput C U -> result (failure E) string;
  ea_AccessTokenTTLSeconds : Z;
  ea_ResourceServers : option (string -> string -> result E (option McpResourceServer));
  ea_clock : Time;
}.

(** The refusals by state that both switches have in common. *)
Definition refused_state {A} (state : ApprovalRequestState) (otherwise : flow A) : flow A :=
  if state =? ApprovalDenied then eff_fail (NewOAuthError "access_denied" "the user denied the request")
  else if state =? ApprovalConsumed then eff_fail (NewOAuthError "invalid_grant" "auth_req_id has already been consumed")
  else if state =? ApprovalExpired then eff_fail (NewOAuthError "expired_token" "auth_req_id has expired")
  else otherwise.

(** The first switch: the record as it is, or as a poll left it. *)
Definition polled_record (tenantID hash : string) (rec : ApprovalRequest) (now : Time) : flow ApprovalRequest :=
  if ap_State rec =? ApprovalPending then
    let! poll := call PortError (poll_approval tenantID hash now) in
    match poll with
    | (None, _) => eff_fail (NewOAuthError "invalid_grant" "unknown auth_req_id")
    | (Some polled, tooFast) =>
        if ap_State polled <>? ApprovalPending then eff_ret polled
        else
          refuse tooFast with NewOAuthError "slow_down" "polling interval is too short" in
          eff_fail (NewOAuthError "authorization_pending" "authorization is pending")
    end
  else refused_state (ap_State rec) (eff_ret rec).

Definition check_agent (d : ExchangeApprovalDeps) (tenantID : string) (rec : ApprovalRequest) : result (failure E) unit :=
  match ap_AgentID rec with
  | None => Ok tt
  | Some agentID =>
      match ea_AgentRepo d with
      | None => Err (NewOAuthError "invalid_grant" "agent status cannot be verified")
      | Some findByID =>
          let? agent := lift_port (findByID tenantID agentID) in
          match agent with
          | Some agent =>
              reject negb (agent_IsActive agent) with NewOAuthError "invalid_grant" "agent is disabled or killed" in
              let? ownerActive := AgentOwnerIsActive tenantID (Some (ea_FindBySub d)) (Some agent) in
              reject negb ownerActive with NewOAuthError "invalid_grant" "agent owner is offboarded" in
              Ok tt
          | None => Err (NewOAuthError "invalid_grant" "agent is disabled or killed")
          end
      end
  end.

(** The loop over the locations of the details. *)
Fixpoint add_audiences (findByResource : string -> result E (option McpResourceServer)) (locations audiences : list string) :
    result (failure E) (list string) :=
  match locations with
  | [] => Ok audiences
  | location :: locations' =>
      if contains audiences location then add_audiences findByResource locations' audiences
      else
        let? server := lift_port (findByResource location) in
        add_audiences findByResource locations'
          (match server with
           | Some server => if mcp_IsActive server then (audiences ++ [location])%list else audiences
           | None => audiences
           end)
  end.

Definition approvedAudiences (d : ExchangeApprovalDeps) (tenantID : string) (rec : ApprovalRequest) :
    result (failure E) (list string) :=
  match ea_ResourceServers d with
  | None => Ok []
  | Some findByResource =>
      add_audiences (findByResource tenantID) (flat_map Locations (ap_AuthorizationDetails rec)) []
  end.

Definition approval_sender (in_ : ExchangeApprovalInput) : option SenderConstraint :=
  if ea_ProofJKT in_ <>? "" then Some (dpop (ea_ProofJKT in_))
  else if ea_ProofX5TS256 in_ <>? "" then Some (mtls (ea_ProofX5TS256 in_))
  else None.

Definition decided_time (rec : ApprovalRequest) (now : Time) : Z :=
  match ap_DecidedAt rec with Some t => Unix t | None => Unix now end.

Definition approval_access_input (client : C) (user : U) (rec : ApprovalRequest) (sc : option SenderConstraint)
    (audiences : list string) (now : Time) : AccessTokenInput C :=
  {| at_Client := client; at_Sub := user_ID user; at_Scopes := ap_Scopes rec; at_SenderConstraint := sc;
     at_AuthTime := decided_time rec now; at_AMR := []; at_ACR := ""; at_AgentID := deref_string (ap_AgentID rec);
     at_AgentChain := []; at_ApprovalRequestID := ap_ID rec; at_Audiences := audiences;
     at_AuthorizationDetails := ap_AuthorizationDetails rec; at_ExpiresAt := 0; at_Managed := false; at_Act := None |}.

(** The checks on the client, the user and the agent before the request is used up. *)
Definition approval_checks (d : ExchangeApprovalDeps) (tenantID : string) (in_ : ExchangeApprovalInput)
    (rec : ApprovalRequest) : result (failure E) (C * U * list string) :=
  let? client := lift_port (ea_ClientRepo d tenantID (ea_ClientID in_)) in
  match client with
  | None => Err (NewOAuthError "invalid_grant" "client is unavailable")
  | Some client =>
      let? user := lift_port (ea_FindBySub d (ap_UserID rec)) in
      match user with
      | None => Err (NewOAuthError "invalid_grant" "user is unavailable")
      | Some user =>
          reject negb (user_IsActive user) || (user_TenantID user <>? tenantID) with
            NewOAuthError "invalid_grant" "user is unavailable" in
          let? _ := check_agent d tenantID rec in
          let? audiences := approvedAudiences d tenantID rec in
          Ok (client, user, audiences)
      end
  end.

(** From [Consume] on. *)
Definition approval_commit (d : ExchangeApprovalDeps) (tenantID : string) (in_ : ExchangeApprovalInput) (now : Time)
    (checked : C * U * list string) : flow ExchangeApprovalResult :=
  let '(client, user, audiences) := checked in
  let! consumed := call PortError (consume_approval tenantID (HashAuthReqID (ea_AuthReqID in_)) now) in
  match consumed with
  | None => eff_fail (NewOAuthError "invalid_grant" "auth_req_id was consumed concurrently")
  | Some consumed =>
      let sc := approval_sender in_ in
      let! signed := lift (ea_SignAccessToken d (approval_access_input client user consumed sc audiences now)) in
      let! idToken := lift (ea_SignIDToken d
        (device_id_input client user (ap_Scopes consumed) (decided_time consumed now) signed.1)) in
      do! emit (ApprovedTokenIssued now (ap_TenantID consumed) signed.2 (client_ClientID client) (user_ID user)
                  (ap_Scopes consumed) (senderConstraintTag sc) (deref_string (ap_AgentID consumed))) in
      eff_ret {| er_AccessToken := signed.1; er_IDToken := idToken; er_TokenType := PresentationTokenType sc;
                 er_ExpiresIn := ea_AccessTokenTTLSeconds d; er_Scope := Join (ap_Scopes consumed) " " |}
  end.

Definition ExchangeApproval (d : ExchangeApprovalDeps) (tenantID : string) (in_ : ExchangeApprovalInput) (now : Time) :
    flow ExchangeApprovalResult :=
  refuse (TrimSpace (ea_AuthReqID in_) =? "") with NewOAuthError "invalid_request" "auth_req_id is required" in
  let now := if IsZero now then ea_clock d else now in
  let hash := HashAuthReqID (ea_AuthReqID in_) in
  let! rec := call PortError (find_approval_hash tenantID hash) in
  match rec with
  | None => eff_fail (NewOAuthError "invalid_grant" "unknown auth_req_id")
  | Some rec =>
      refuse (ap_ClientID rec <>? ea_ClientID in_) with NewOAuthError "invalid_grant" "unknown auth_req_id" in
      if IsExpired rec now then
        let! expired := call PortError (expire_approval tenantID hash now) in
        do! match expired with
            | Some _ => emit (BackchannelAuthExpired now (ap_TenantID rec) (ap_ID rec) (ap_ClientID rec) (ap_UserID rec))
            | None => eff_ret tt
            end in
        eff_fail (NewOAuthError "expired_token" "auth_req_id has expired")
      else
        let! rec := polled_record tenantID hash rec now in
        if ap_State rec <>? ApprovalApproved then
          refused_state (ap_State rec) (eff_fail (NewOAuthError "invalid_grant" "approval request is not approved"))
        else
          let! checked := lift (approval_checks d tenantID in_ rec) in
          approval_commit d tenantID in_ now checked
  end.
End flows.

Arguments StartApprovalDeps : clear implicits.
Arguments ExchangeApprovalDeps : clear implicits.

(** ** The approved operation at the resource server *)

Definition ReasonApprovalRequired : string := "approval_required".
Definition ReasonApprovedOperationMismatch : string := "approved_operation_mismatch".
Definition ReasonApprovalExpired : string := "approval_expired".
Definition ReasonApprovalAlreadyUsed : string := "approval_already_used".

(** The claims of the introspected token and the fields of the request that
    the two functions read. *)
Record TokenView := { tv_ApprovalRequestID : string; tv_Sub : string; tv_ClientID : string }.

Record OperationRequest := {
  or_ClientID : string;
  or_ResourceID : string;
  or_Relation : string;
  or_OperationKey : string;
  or_OperationParameters : string;
}.

Record matchedApproval := { requestID : string; digest : string; keyHash : string }.

Record ApprovedOperationUse := { use_ApprovalRequestID : string; OperationDigest : string; Replayed : bool }.

(** A Go triple of a value, a reason and an error: the value or the reason. *)
Inductive allowance (A : Type) := Allowed (a : A) | Denied (reason : string).
Arguments Allowed {A} a.
Arguments Denied {A} reason.

Inductive operation_error (E : Type) := ErrResourceAccessNotConfigured | AccessPortError (e : E).
Arguments ErrResourceAccessNotConfigured {E}.
Arguments AccessPortError {E} e.

Section operations.
Context {S E : Type} `{ApprovalPort S E}.
(** [CanonicalizeOperationParameters] and [DigestOperationFields]. *)
Context (Canonicalize : string -> option string) (DigestOperationFields : gmap string field_value -> option string).
Notation access := (eff S unit (operation_error E)).

Definition matchApprovedOperation (has_approvals : bool) (tenantID resource detailType : string) (token : TokenView)
    (in_ : OperationRequest) (now : Time) : access (allowance matchedApproval) :=
  if negb has_approvals then eff_fail ErrResourceAccessNotConfigured
  else if tv_ApprovalRequestID token =? "" then eff_ret (Denied ReasonApprovalRequired)
  else
    let! rec := call AccessPortError (find_approval tenantID (tv_ApprovalRequestID token)) in
    match rec with
    | None => eff_ret (Denied ReasonApprovalExpired)
    | Some rec =>
        if (ap_UserID rec <>? tv_Sub token) || (ap_ClientID rec <>? tv_ClientID token)
        then eff_ret (Denied ReasonApprovalExpired)
        else match Canonicalize (or_OperationParameters in_) with
        | None => eff_ret (Denied ReasonApprovedOperationMismatch)
        | Some digest =>
            match MatchApprovedOperation DigestOperationFields rec
                    {| DetailType := detailType; Location := resource; Action := or_Relation in_;
                       op_Identifier := or_ResourceID in_ |} digest now with
            | ApprovedOperationExpired => eff_ret (Denied ReasonApprovalExpired)
            | ApprovedOperationMismatched => eff_ret (Denied ReasonApprovedOperationMismatch)
            | ApprovedOperationMatched =>
                let keyHash := HashOperationKey (or_ClientID in_) (or_OperationKey in_) in
                if match ap_Use rec with Some use => KeyHash use <>? keyHash | None => false end
                then eff_ret (Denied ReasonApprovalAlreadyUsed)
                else eff_ret (Allowed {| requestID := ap_ID rec; digest := digest; keyHash := keyHash |})
            end
        end
    end.

Definition claimApprovedOperation (tenantID : string) (approval : matchedApproval) (now : Time) :
    access (allowance ApprovedOperationUse) :=
  let! claim := call AccessPortError
    (claim_approval tenantID (requestID approval) {| KeyHash := keyHash approval; ClaimedAt := now |} now) in
  let '(claimed, recorded) := claim in
  match claimed ≫= ap_Use with
  | None => eff_ret (Denied ReasonApprovalExpired)
  | Some use =>
      if KeyHash use <>? keyHash approval then eff_ret (Denied ReasonApprovalAlreadyUsed)
      else eff_ret (Allowed {| use_ApprovalRequestID := requestID approval; OperationDigest := digest approval;
                               Replayed := negb recorded |})
  end.
End operations.

(** ** Theorems: the decision *)

Section memory.
Context {C U : Type} `{ClientView C} `{!ClientPolicyView C} `{!ClientNameView C} `{UserView U} `{!UserContactView U}.
Implicit Types (s : ApprovalRequestStore).

Lemma call_ok {W F A} (f : transition_error -> F) (op : ApprovalRequestStore -> result transition_error A * ApprovalRequestStore) s a s' :
  op s = (Ok a, s') -> call (W := W) f op s = (Ok a, s', []).
Proof. intros Hop. unfold call. by rewrite Hop. Qed.

Lemma FindByID_Some tenantID id s r :
  approval_FindByID tenantID id s = Some r <-> exists p, by_id id s = Some (p, r) /\ ap_TenantID r = tenantID.
Proof.
  unfold approval_FindByID. destruct (by_id id s) as [[p r']|]; [|naive_solver].
  destruct (ap_TenantID r' <>? tenantID) eqn:Ht; go_bool; naive_solver congruence.
Qed.

Lemma FindByHash_Some tenantID h s r :
  FindByAuthReqIDHash tenantID h s = Some r <-> exists p, by_hash h s = Some (p, r) /\ ap_TenantID r = tenantID.
Proof.
  unfold FindByAuthReqIDHash. destruct (by_hash h s) as [[p r']|]; [|naive_solver].
  destruct (ap_TenantID r' <>? tenantID) eqn:Ht; go_bool; naive_solver congruence.
Qed.

Definition decision_notice (approve : bool) (now : Time) (r : ApprovalRequest) : approval_event :=
  if approve
  then BackchannelAuthApproved now (ap_TenantID r) (ap_ID r) (ap_ClientID r) (deref_string (ap_AgentID r)) (ap_UserID r)
  else BackchannelAuthDenied now (ap_TenantID r) (ap_ID r) (ap_ClientID r) (ap_UserID r).

(** A request that its user may still decide. *)
Definition decidable_by (tenantID userID : string) (now : Time) (r : ApprovalRequest) : Prop :=
  ap_TenantID r = tenantID /\ ap_UserID r = userID /\ ap_State r = ApprovalPending /\ (now < ap_ExpiresAt r)%Z.

Lemma IsExpired_false r now : IsExpired r now = false <-> ap_State r <> ApprovalExpired /\ (now < ap_ExpiresAt r)%Z.
Proof.
  unfold IsExpired, Before. destruct (ap_State r =? ApprovalExpired) eqn:Hs; go_bool; naive_solver lia.
Qed.

Lemma DecideApproval_run tenantID userID id approve now s p r :
  by_id id s = Some (p, r) -> decidable_by tenantID userID now r ->
  DecideApproval (E := transition_error) tenantID userID id approve now s =
    (Ok tt, set_at p (decided_request approve now r) s, [decision_notice approve now r]).
Proof.
  intros Hf (Ht & Hu & Hs & Hlt). unfold DecideApproval.
  erewrite eff_bind_pure.
  2:{ apply call_ok. simpl. rewrite (proj2 (FindByID_Some tenantID id s r)); [done|]. by exists p. }
  cbn iota. rewrite (bool_decide_true _ Hu), (bool_decide_true _ Hs), (proj2 (IsExpired_false r now)); [|by rewrite Hs].
  cbn [negb orb]. destruct (Decide_cases tenantID id userID approve now s)
    as [[_ Hno]|(p' & r' & Hf' & _ & _ & _ & _ & Hd)]; [exfalso; by apply (Hno p r)|].
  assert (p' = p /\ r' = r) as [-> ->] by (rewrite Hf in Hf'; by injection Hf' as -> ->).
  erewrite eff_bind_pure by (apply call_ok; exact Hd). cbn iota.
  subst userID. by destruct approve.
Qed.

(** A decision is recorded exactly when the caller is the user of a request
    of the tenant that is pending and has not passed its deadline; then it
    changes the state of this one request, notes the time and announces the
    decision, and in every other case nothing changes and nothing is announced. *)
Theorem DecideApproval_exact tenantID userID id approve now s :
  (exists p r, by_id id s = Some (p, r) /\ decidable_by tenantID userID now r /\
     DecideApproval (E := transition_error) tenantID userID id approve now s =
       (Ok tt, set_at p (decided_request approve now r) s, [decision_notice approve now r])) \/
  ((forall p r, by_id id s = Some (p, r) -> ~ decidable_by tenantID userID now r) /\
   exists code text, code ∈ ["access_denied"; "invalid_request"] /\
     DecideApproval (E := transition_error) tenantID userID id approve now s = (Err (NewOAuthError code text), s, [])).
Proof.
  destruct (by_id id s) as [[p r]|] eqn:Hf.
  2:{ right. split; [done|]. do 2 eexists. split; [by left|]. unfold DecideApproval.
      erewrite eff_bind_pure by (apply call_ok; simpl; unfold approval_FindByID; by rewrite Hf). done. }
  destruct (decide (ap_TenantID r = tenantID)) as [Ht|Ht].
  2:{ right. split; [intros p' r' [= <- <-] (Hx & _); done|]. do 2 eexists. split; [by left|].
      unfold DecideApproval. erewrite eff_bind_pure.
      2:{ apply call_ok. simpl. unfold approval_FindByID. rewrite Hf, bool_decide_false by done. done. }
      done. }
  assert (Hrun : DecideApproval (E := transition_error) tenantID userID id approve now s =
    (if ap_UserID r <>? userID then eff_fail (NewOAuthError "access_denied" "approval request is not owned by the user")
     else if IsExpired r now || (ap_State r <>? ApprovalPending)
     then eff_fail (NewOAuthError "invalid_request" "approval request is no longer pending")
     else DecideApproval tenantID userID id approve now) s).
  { unfold DecideApproval. erewrite eff_bind_pure at 1.
    2:{ apply call_ok. simpl. rewrite (proj2 (FindByID_Some tenantID id s r)); [done|]. by exists p. }
    cbn iota. destruct (ap_UserID r <>? userID) eqn:E1; [done|]. destruct (IsExpired r now || _) eqn:E2; [done|].
    symmetry. erewrite eff_bind_pure.
    2:{ apply call_ok. simpl. rewrite (proj2 (FindByID_Some tenantID id s r)); [done|]. by exists p. }
    cbn iota. by rewrite E1, E2. }
  destruct (ap_UserID r <>? userID) eqn:E1.
  { right. go_bool. split; [intros p' r' [= <- <-] (_ & Hx & _); done|]. do 2 eexists. split; [by left|]. exact Hrun. }
  destruct (IsExpired r now || _) eqn:E2.
  { right. split; [|do 2 eexists; split; [by right; left|exact Hrun]].
    intros p' r' [= <- <-] (_ & _ & Hx & Hlt). rewrite (proj2 (IsExpired_false r now)), Hx in E2; [done|by rewrite Hx]. }
  left. exists p, r. assert (Hd : decidable_by tenantID userID now r).
  { go_bool. destruct E2 as [E2 Hs]. apply IsExpired_false in E2 as [_ Hlt]. done. }
  split_and!; [done..|]. by apply DecideApproval_run.
Qed.

(** ** Theorems: the exchange *)

Lemma add_audiences_sound {E} (find : string -> result E (option McpResourceServer)) locations audiences out x :
  add_audiences find locations audiences = Ok out -> x ∈ out ->
  x ∈ audiences \/ (x ∈ locations /\ exists server, find x = Ok (Some server) /\ mcp_IsActive server = true).
Proof.
  revert audiences. induction locations as [|l ls IH]; intros audiences; simpl; [intros [= ->]; by left|].
  destruct (contains audiences l); [intros Ha Hx; destruct (IH _ Ha Hx) as [|(? & ?)]; [by left|right; set_solver]|].
  intros (server & Hs & Ha)%res_bind_Ok Hx. destruct (find l) as [srv|] eqn:Hf; [|done]. injection Hs as ->.
  destruct (IH _ Ha Hx) as [Hin|(? & ?)]; [|right; set_solver].
  destruct server as [server|]; [|by left]. destruct (mcp_IsActive server) eqn:Hact; [|by left].
  apply elem_of_app in Hin as [Hin|Hin%list_elem_of_singleton]; [by left|]. subst x. right. split; [set_solver|eauto].
Qed.

(** The agent of the request and its owner may act. *)
Definition agent_ok {E} (d : ExchangeApprovalDeps E C U) (tenantID agentID : string) : Prop :=
  exists findByID agent owner,
    ea_AgentRepo d = Some findByID /\ findByID tenantID agentID = Ok (Some agent) /\ agent_IsActive agent = true /\
    ea_FindBySub d (agent_OwnerUserID agent) = Ok (Some owner) /\ user_TenantID owner = tenantID /\
    user_IsActive owner = true.

Lemma check_agent_Ok {E} (d : ExchangeApprovalDeps E C U) tenantID rec :
  check_agent d tenantID rec = Ok tt -> forall agentID, ap_AgentID rec = Some agentID -> agent_ok d tenantID agentID.
Proof.
  unfold check_agent. intros Hc agentID Ha. rewrite Ha in Hc. destruct (ea_AgentRepo d) as [find|] eqn:Hf; [|done].
  apply res_bind_Ok in Hc as (agent & Hg & Hc). destruct (find tenantID agentID) as [og|] eqn:Hfa; [|done]. injection Hg as ->.
  destruct agent as [agent|]; [|done]. destruct (agent_IsActive agent) eqn:Hact; [|done]. cbn [negb] in Hc.
  apply res_bind_Ok in Hc as (b & Hb & Hc). destruct b; [|done].
  unfold AgentOwnerIsActive in Hb. apply res_bind_Ok in Hb as (owner & Ho & Hb).
  destruct (ea_FindBySub d (agent_OwnerUserID agent)) as [oo|] eqn:Hfo; [|done]. injection Ho as ->.
  destruct owner as [owner|]; [|done]. injection Hb as Hb. go_bool. destruct Hb as [Ht Hua].
  by exists find, agent, owner.
Qed.

Lemma approval_checks_Ok {E} (d : ExchangeApprovalDeps E C U) tenantID in_ rec client user audiences :
  approval_checks d tenantID in_ rec = Ok (client, user, audiences) ->
  ea_ClientRepo d tenantID (ea_ClientID in_) = Ok (Some client) /\
  ea_FindBySub d (ap_UserID rec) = Ok (Some user) /\ user_IsActive user = true /\ user_TenantID user = tenantID /\
  (forall agentID, ap_AgentID rec = Some agentID -> agent_ok d tenantID agentID) /\
  forall x, x ∈ audiences -> exists detail find server,
    detail ∈ ap_AuthorizationDetails rec /\ x ∈ Locations detail /\ ea_ResourceServers d = Some find /\
    find tenantID x = Ok (Some server) /\ mcp_IsActive server = true.
Proof.
  unfold approval_checks. intros (oc & Hc & Hr)%res_bind_Ok.
  destruct (ea_ClientRepo d tenantID (ea_ClientID in_)) as [oc'|]; [|done]. injection Hc as ->.
  destruct oc as [c|]; [|done]. apply res_bind_Ok in Hr as (ou & Hu & Hr).
  destruct (ea_FindBySub d (ap_UserID rec)) as [ou'|]; [|done]. injection Hu as ->. destruct ou as [u|]; [|done].
  destruct (negb (user_IsActive u) || _) eqn:Hb; [done|]. go_bool. destruct Hb as [Hact Ht].
  apply res_bind_Ok in Hr as ([] & Hag & Hr). apply res_bind_Ok in Hr as (aud & Haud & Hr).
  injection Hr as -> -> ->. split_and!; [done..|by apply (check_agent_Ok d)|]. intros x Hx.
  unfold approvedAudiences in Haud. destruct (ea_ResourceServers d) as [find|]; [|injection Haud as <-; by apply elem_of_nil in Hx].
  destruct (add_audiences_sound _ _ _ _ _ Haud Hx) as [Hn|(Hl & server & Hf & Hs)]; [by apply elem_of_nil in Hn|].
  apply list_elem_of_In, in_flat_map in Hl as (detail & Hd & Hl). exists detail, find, server.
  by rewrite !list_elem_of_In.
Qed.

Notation flow := (eff ApprovalRequestStore approval_event (failure transition_error)).

Lemma refused_state_Ok {A} state (m : flow A) s out s' w :
  refused_state state m s = (Ok out, s', w) -> m s = (Ok out, s', w).
Proof. unfold refused_state. by repeat destruct (bool_decide _). Qed.

(** In the memory store a poll never makes a pending request ready. *)
Lemma polled_record_Ok tenantID hash r now s r' s' w :
  FindByAuthReqIDHash tenantID hash s = Some r ->
  polled_record tenantID hash r now s = (Ok r', s', w) -> r' = r /\ s' = s /\ w = [].
Proof.
  intros Hf. unfold polled_record. destruct (ap_State r =? ApprovalPending) eqn:Hs.
  - intros (poll & s1 & w1 & w2 & Hp & Hr & ->)%eff_bind_Ok. exfalso. go_bool.
    apply FindByHash_Some in Hf as (p & Hf & Ht). unfold call in Hp. simpl in Hp. unfold RecordPoll in Hp.
    rewrite Hf, (bool_decide_true _ Ht), (bool_decide_true _ Hs) in Hp. injection Hp as <- _ _.
    simpl in Hr. rewrite (bool_decide_true _ Hs) in Hr. cbn [negb] in Hr. by destruct (IsPollTooFast r now).
  - intros Hr%refused_state_Ok. by injection Hr as <- <- <-.
Qed.

Definition exchange_time {E} (d : ExchangeApprovalDeps E C U) (now : Time) : Time := if IsZero now then ea_clock d else now.

(** A request that is consumed is refused ever after. *)
Lemma consumed_refused (d : ExchangeApprovalDeps transition_error C U) tenantID in_ now s p r :
  by_hash (HashAuthReqID (ea_AuthReqID in_)) s = Some (p, r) -> ap_State r = ApprovalConsumed ->
  exists e, ExchangeApproval d tenantID in_ now s = (Err e, s, []).
Proof.
  intros Hf Hs. unfold ExchangeApproval. destruct (TrimSpace (ea_AuthReqID in_) =? ""); [by eexists|].
  erewrite eff_bind_pure by (apply call_ok; simpl; unfold FindByAuthReqIDHash; rewrite Hf; reflexivity).
  destruct (ap_TenantID r <>? tenantID) eqn:Ht; [by eexists|]. cbn iota.
  destruct (ap_ClientID r <>? ea_ClientID in_); [by eexists|]. fold (exchange_time d now).
  destruct (IsExpired r (exchange_time d now)).
  - erewrite eff_bind_pure.
    2:{ apply call_ok. simpl. unfold Expire. rewrite Hf, Hs. simpl. rewrite orb_true_r. reflexivity. }
    by eexists.
  - exists (NewOAuthError "invalid_grant" "auth_req_id has already been consumed").
    unfold polled_record. rewrite Hs. reflexivity.
Qed.

Lemma set_at_by_hash h p r r' s : by_hash h s = Some (p, r) -> by_hash h (set_at p r' s) = Some (p, r').
Proof. rewrite !by_hash_Some. simpl. intros [Hh Hp]. split; [done|]. apply lookup_insert_eq. Qed.

(** What a commit that returns has done. *)
Lemma approval_commit_Ok (d : ExchangeApprovalDeps transition_error C U) tenantID in_ now client user audiences s out s' w p r :
  by_hash (HashAuthReqID (ea_AuthReqID in_)) s = Some (p, r) ->
  approval_commit d tenantID in_ now (client, user, audiences) s = (Ok out, s', w) ->
  exists signed,
    ap_State r = ApprovalApproved /\ (now < ap_ExpiresAt r)%Z /\
    ea_SignAccessToken d (approval_access_input client user r (approval_sender in_) audiences now) = Ok signed /\
    er_AccessToken out = signed.1 /\ er_Scope out = Join (ap_Scopes r) " " /\
    s' = set_at p (consumed_request now r) s /\
    w = [ApprovedTokenIssued now (ap_TenantID r) signed.2 (client_ClientID client) (user_ID user) (ap_Scopes r)
           (senderConstraintTag (approval_sender in_)) (deref_string (ap_AgentID r))].
Proof.
  intros Hf Hrun. unfold approval_commit in Hrun.
  apply eff_bind_Ok in Hrun as (oc & s1 & w1 & w2 & Hc & Hrun & ->). unfold call in Hc. simpl in Hc.
  destruct (approval_Consume_cases tenantID (HashAuthReqID (ea_AuthReqID in_)) now s)
    as [[Hn _]|(p' & r' & Hf' & _ & Hs & Hlt & Hx)]; [rewrite Hn in Hc; by injection Hc as <- _ _|].
  assert (p' = p /\ r' = r) as [-> ->] by (rewrite Hf in Hf'; by injection Hf' as -> ->).
  rewrite Hx in Hc. injection Hc as <- <- <-.
  apply eff_bind_Ok in Hrun as (signed & s1 & w3 & w4 & Hg & Hrun & ->). injection Hg as Hg <- <-.
  apply eff_bind_Ok in Hrun as (idt & s1 & w5 & w6 & Hi & Hrun & ->). injection Hi as _ <- <-.
  apply eff_bind_Ok in Hrun as ([] & s1 & w7 & w8 & He & Hrun & ->). injection He as <- <-.
  injection Hrun as <- <- <-. exists signed. by split_and!.
Qed.

(** A successful exchange presented the secret of a request of this tenant
    and client that its user had approved, before the deadline; the user, the
    agent that asked and the agent's owner are still active in the tenant; the
    access token is signed for exactly the approved scopes and details, under
    the identifier of the request, for audiences that are approved locations of
    active resource servers.  It uses the request up: nothing else changes, and
    every later exchange of the secret is refused and changes nothing. *)
Theorem ExchangeApproval_success (d : ExchangeApprovalDeps transition_error C U) tenantID in_ now s out s' w :
  ExchangeApproval d tenantID in_ now s = (Ok out, s', w) ->
  exists p r client user audiences signed,
    by_hash (HashAuthReqID (ea_AuthReqID in_)) s = Some (p, r) /\ ap_TenantID r = tenantID /\
    ap_ClientID r = ea_ClientID in_ /\ ea_ClientRepo d tenantID (ea_ClientID in_) = Ok (Some client) /\ ap_State r = ApprovalApproved /\ (exchange_time d now < ap_ExpiresAt r)%Z /\
    ea_FindBySub d (ap_UserID r) = Ok (Some user) /\ user_IsActive user = true /\ user_TenantID user = tenantID /\
    (forall agentID, ap_AgentID r = Some agentID -> agent_ok d tenantID agentID) /\
    (forall x, x ∈ audiences -> exists detail find server,
       detail ∈ ap_AuthorizationDetails r /\ x ∈ Locations detail /\ ea_ResourceServers d = Some find /\
       find tenantID x = Ok (Some server) /\ mcp_IsActive server = true) /\
    ea_SignAccessToken d (approval_access_input client user r (approval_sender in_) audiences (exchange_time d now)) = Ok signed /\
    er_AccessToken out = signed.1 /\ er_Scope out = Join (ap_Scopes r) " " /\
    s' = set_at p (consumed_request (exchange_time d now) r) s /\
    forall d2 tenant2 in2 now2, ea_AuthReqID in2 = ea_AuthReqID in_ ->
      exists e, ExchangeApproval d2 tenant2 in2 now2 s' = (Err e, s', []).
Proof.
  intros Hrun. unfold ExchangeApproval in Hrun. fold (exchange_time d now) in Hrun.
  set (hash := HashAuthReqID (ea_AuthReqID in_)) in *. set (t := exchange_time d now) in *.
  destruct (TrimSpace (ea_AuthReqID in_) =? ""); [done|].
  apply eff_bind_Ok in Hrun as (orec & s1 & w1 & w2 & Hf & Hrun & ->).
  unfold call in Hf. simpl in Hf. injection Hf as Hf <- <-.
  destruct orec as [r|]; [|done]. destruct (ap_ClientID r <>? ea_ClientID in_) eqn:Hcl; [done|].
  destruct (IsExpired r t) eqn:He.
  { apply eff_bind_Ok in Hrun as (? & ? & ? & ? & _ & Hrun & _). by apply eff_bind_Ok in Hrun as (? & ? & ? & ? & _ & Hrun & _). }
  apply eff_bind_Ok in Hrun as (r' & s1 & w3 & w4 & Hp & Hrun & ->).
  apply (polled_record_Ok _ _ _ _ _ _ _ _ Hf) in Hp as (-> & -> & ->).
  destruct (ap_State r <>? ApprovalApproved) eqn:Hst; [by apply refused_state_Ok in Hrun|].
  apply eff_bind_Ok in Hrun as ([[client user] audiences] & s1 & w5 & w6 & Hc & Hrun & ->).
  injection Hc as Hc <- <-. apply approval_checks_Ok in Hc as (Hclient & Huser & Hact & Hut & Hag & Haud).
  apply FindByHash_Some in Hf as (p & Hf & Ht). go_bool.
  destruct (approval_commit_Ok _ _ _ _ _ _ _ _ _ _ _ _ _ Hf Hrun) as (signed & Hs & Hlt & Hsig & Ha & Hsc & -> & ->).
  exists p, r, client, user, audiences, signed. split_and!; [done..|]. intros d2 tenant2 in2 now2 Heq.
  apply (consumed_refused _ _ _ _ _ p (consumed_request t r)); [|done]. rewrite Heq. by eapply set_at_by_hash.
Qed.

(** ** Theorems: the start *)

Lemma ParseAuthorizationDetails_Ok {E} unmarshal raw details :
  ParseAuthorizationDetails (E := E) unmarshal raw = Ok details ->
  details = [] \/ unmarshal raw = Some details.
Proof.
  unfold ParseAuthorizationDetails. destruct (TrimSpace raw =? ""); [intros [= <-]; by left|].
  destruct (unmarshal raw) as [[|x l]|]; [done| |done]. intros [= <-]. by right.
Qed.

Lemma ValidateAuthorizationDetails_Ok {E} (repo : option (string -> string -> result E (option AuthorizationDetailType)))
    tenantID details :
  ValidateAuthorizationDetails repo tenantID details = Ok tt -> forall x, x ∈ details ->
  exists find ty, repo = Some find /\ find tenantID (detail_Type x) = Ok (Some ty) /\ ValidateAgainstType x ty = Ok tt.
Proof.
  intros Hv x Hx. unfold ValidateAuthorizationDetails in Hv. destruct details as [|x0 l]; [by apply elem_of_nil in Hx|].
  destruct repo as [find|]; [|done]. apply for_each_Ok in Hv. rewrite Forall_forall in Hv. specialize (Hv x Hx).
  destruct (detail_Type x =? ""); [done|]. apply res_bind_Ok in Hv as (ot & Ht & Hv).
  destruct (find tenantID (detail_Type x)) as [ot'|] eqn:Hf; [|done]. injection Ht as ->. destruct ot as [ty|]; [|done].
  exists find, ty. destruct (ValidateAgainstType x ty) as [[]|]; done.
Qed.

Lemma resolveApprovalUser_Ok {E} (d : StartApprovalDeps E C U) tenantID in_ clientID now user :
  resolveApprovalUser d tenantID in_ clientID now = Ok user ->
  hinted_user d tenantID in_ clientID now = Ok (Some user) /\ user_TenantID user = tenantID /\ user_IsActive user = true.
Proof.
  unfold resolveApprovalUser. intros (ou & -> & Hr)%res_bind_Ok. destruct ou as [u|]; [|done].
  destruct ((user_TenantID u <>? tenantID) || _) eqn:Hb; [done|]. injection Hr as ->. go_bool. naive_solver.
Qed.

Lemma resolve_start_client_Ok {E} (d : StartApprovalDeps E C U) tenantID in_ client :
  resolve_start_client d tenantID in_ = Ok client ->
  sa_ClientRepo d tenantID (sa_ClientID in_) = Ok (Some client) /\ client_ClientType client = ClientConfidential /\
  GrantCiba ∈ client_GrantTypes client /\ Fields (sa_Scope in_) ⊆ Fields (client_Scope client).
Proof.
  unfold resolve_start_client. intros (oc & Hc & Hr)%res_bind_Ok.
  destruct (sa_ClientRepo d tenantID (sa_ClientID in_)) as [oc'|]; [|done]. injection Hc as ->.
  destruct oc as [c|]; [|done]. destruct ((client_ClientType c <>? ClientConfidential) || _) eqn:H1; [done|].
  destruct (negb (forallb _ _)) eqn:H2; [done|]. injection Hr as ->. go_bool. destruct H1 as [Ht Hg].
  split_and!; [done..|]. intros x Hx. rewrite forallb_forall in H2. apply contains_true, H2. by apply list_elem_of_In.
Qed.

Lemma ValidateStartApprovalInput_Ok {E} in_ :
  ValidateStartApprovalInput (E := E) in_ = Ok tt ->
  "openid" ∈ Fields (sa_Scope in_) /\
  (1 <= Z.quot (ResolveTTL (sa_RequestedExpiry in_)) Second <= 600)%Z /\
  (ResolveTTL (sa_RequestedExpiry in_) = Z.quot (ResolveTTL (sa_RequestedExpiry in_)) Second * Second)%Z.
Proof.
  unfold ValidateStartApprovalInput. destruct (bool_decide _); [|done]. cbn [negb].
  destruct (_ || negb (contains _ _)) eqn:Hs; [done|]. destruct (_ || existsb _ _); [done|].
  destruct (match sa_RequestedExpiry in_ with Some n => _ | None => _ end) eqn:He; [done|]. intros _. go_bool.
  split; [naive_solver|]. unfold ResolveTTL, DefaultTTL, MaxTTL, Second in *.
  destruct (sa_RequestedExpiry in_) as [n|]; [|split; [by compute|done]].
  change (Z.quot (600 * 1000000000) 1000000000) with 600%Z in He. go_bool.
  rewrite wrap64_id by (unfold min_int64, max_int64; lia). rewrite Z.quot_mul by done. lia.
Qed.

Definition start_time {E} (d : StartApprovalDeps E C U) (now : Time) : Time := if IsZero now then sa_clock d else now.

(** Sending the notification changes no store and cannot fail. *)
Lemma notifyApproval_run (d : StartApprovalDeps transition_error C U) client user agentName binding ttl s :
  exists w, notifyApproval d client user agentName binding ttl s = (Ok tt, s, w).
Proof. unfold notifyApproval. destruct (user_Email user); [|by eexists]. destruct (_ || _); by eexists. Qed.

(** A start that fails has not come to the store. *)
Lemma StartApproval_fails (d : StartApprovalDeps transition_error C U) tenantID in_ now id random s e s' w :
  StartApproval d tenantID in_ now id random s = (Err e, s', w) -> s' = s /\ w = [].
Proof.
  intros Hrun. unfold StartApproval in Hrun.
  repeat (apply eff_bind_Err in Hrun as [Hrun|(? & ? & ? & ? & Hm & Hrun & ->)];
    [try (by injection Hrun as _ <- <-)|try injection Hm as _ <- <-]); try done.
  exfalso. match type of Hrun with notifyApproval ?d ?c ?u ?a ?b ?ttl ?s0 = _ =>
    destruct (notifyApproval_run d c u a b ttl s0) as [wn Hn]; rewrite Hn in Hrun end. done.
Qed.

(** A started approval has checked that the client is confidential, may use
    the grant and has declared the scopes; that the details conform to their
    registered types; that the user the hint names and the agent of the client
    are active in the tenant.  It stores one pending request for that user, to
    be found under the digest of the secret that it returns, with a lifetime of
    one to six hundred seconds; the secret itself is not stored.  A call that
    fails stores nothing and announces nothing. *)
Theorem StartApproval_stores (d : StartApprovalDeps transition_error C U) tenantID in_ now id random s r s' w :
  StartApproval d tenantID in_ now id random s = (r, s', w) ->
  match r with
  | Err _ => s' = s /\ w = []
  | Ok out => exists client details user agent uuid,
      let req := new_request tenantID in_ client user agent details uuid (sr_AuthReqID out) (start_time d now) in
      sa_ClientRepo d tenantID (sa_ClientID in_) = Ok (Some client) /\ client_ClientType client = ClientConfidential /\
      GrantCiba ∈ client_GrantTypes client /\ Fields (sa_Scope in_) ⊆ Fields (client_Scope client) /\
      "openid" ∈ Fields (sa_Scope in_) /\
      (forall x, x ∈ details -> exists find ty, sa_AuthzDetailTypeRepo d = Some find /\
         find tenantID (detail_Type x) = Ok (Some ty) /\ ValidateAgainstType x ty = Ok tt) /\
      hinted_user d tenantID in_ (client_ClientID client) (start_time d now) = Ok (Some user) /\
      user_TenantID user = tenantID /\ user_IsActive user = true /\
      ResolveIssuableAgent tenantID (sa_AgentRepo d) (Some (sa_FindBySub d)) (client_ClientID client) = Ok agent /\
      (1 <= sr_ExpiresIn out <= 600)%Z /\ ap_ExpiresAt req = (start_time d now + sr_ExpiresIn out * Second)%Z /\
      s' = approval_Save tenantID req s /\
      (tenantID <> "" -> FindByAuthReqIDHash tenantID (HashAuthReqID (sr_AuthReqID out)) s' = Some (stored_request tenantID req))
  end.
Proof.
  intros Hrun. unfold StartApproval in Hrun. fold (start_time d now) in Hrun. set (t := start_time d now) in *.
  destruct r as [out|e].
  - apply eff_bind_Ok in Hrun as ([] & s1 & w1 & w2 & Hv & Hrun & ->). injection Hv as Hv <- <-.
    apply ValidateStartApprovalInput_Ok in Hv as (Hopen & Hexp & Hsec).
    apply eff_bind_Ok in Hrun as (client & s1 & w3 & w4 & Hc & Hrun & ->). injection Hc as Hc <- <-.
    apply resolve_start_client_Ok in Hc as (Hc1 & Hc2 & Hc3 & Hc4).
    apply eff_bind_Ok in Hrun as (details & s1 & w5 & w6 & Hd & Hrun & ->). injection Hd as Hd <- <-.
    apply res_bind_Ok in Hd as (details' & _ & Hd). apply res_bind_Ok in Hd as ([] & Hd & Hd'). injection Hd' as ->.
    apply eff_bind_Ok in Hrun as (user & s1 & w7 & w8 & Hu & Hrun & ->). injection Hu as Hu <- <-.
    apply resolveApprovalUser_Ok in Hu as (Hu1 & Hu2 & Hu3).
    apply eff_bind_Ok in Hrun as (agent & s1 & w9 & w10 & Ha & Hrun & ->). injection Ha as Ha <- <-.
    apply eff_bind_Ok in Hrun as (uuid & s1 & w11 & w12 & Hid & Hrun & ->). injection Hid as _ <- <-.
    apply eff_bind_Ok in Hrun as (secret & s1 & w13 & w14 & Hsecret & Hrun & ->). injection Hsecret as _ <- <-.
    apply eff_bind_Ok in Hrun as ([] & s1 & w15 & w16 & Hval & Hrun & ->). injection Hval as _ <- <-.
    apply eff_bind_Ok in Hrun as ([] & s1 & w17 & w18 & Hsave & Hrun & ->). injection Hsave as <- <-.
    apply eff_bind_Ok in Hrun as ([] & s1 & w19 & w20 & Hem & Hrun & ->). injection Hem as <- <-.
    apply eff_bind_Ok in Hrun as ([] & s1 & w21 & w22 & Hn & Hrun & ->).
    match type of Hn with notifyApproval ?d ?c ?u ?a ?b ?ttl ?s0 = _ =>
      destruct (notifyApproval_run d c u a b ttl s0) as [wn Hn']; rewrite Hn' in Hn end.
    injection Hn as <- <-. injection Hrun as <- <- <-. simpl.
    exists client, details, user, agent, uuid. split_and!; try done; try lia.
    + by apply ValidateAuthorizationDetails_Ok.
    + unfold Add. lia.
    + intros Hne. unfold FindByAuthReqIDHash, by_hash, approval_Save, put. simpl. rewrite lookup_insert_eq. simpl.
      rewrite lookup_insert_eq. simpl. unfold DefaultScope. rewrite (bool_decide_false _ Hne), bool_decide_true; done.
  - by apply StartApproval_fails in Hrun.
Qed.

(** ** Theorems: the right to execute *)

Notation access := (eff ApprovalRequestStore unit (operation_error transition_error)).

Lemma claim_call tenantID a now s o recorded s' :
  ClaimUse tenantID (requestID a) {| KeyHash := keyHash a; ClaimedAt := now |} now s = (o, recorded, s') ->
  claimApprovedOperation (E := transition_error) tenantID a now s =
    (match o ≫= ap_Use with
     | None => Ok (Denied ReasonApprovalExpired)
     | Some use =>
         if KeyHash use <>? keyHash a then Ok (Denied ReasonApprovalAlreadyUsed)
         else Ok (Allowed {| use_ApprovalRequestID := requestID a; OperationDigest := digest a;
                             Replayed := negb recorded |})
     end, s', []).
Proof.
  intros Hc. unfold claimApprovedOperation. erewrite eff_bind_pure by (unfold call; simpl; rewrite Hc; reflexivity).
  destruct o as [r|]; simpl; [|done]. destruct (ap_Use r) as [u|]; [|done]. by destruct (KeyHash u <>? keyHash a).
Qed.

(** Once a key holds the right, another key is denied. *)
Lemma claim_held tenantID b now s p r use :
  by_id (requestID b) s = Some (p, r) -> ap_Use r = Some use -> KeyHash use <> keyHash b ->
  exists reason, claimApprovedOperation (E := transition_error) tenantID b now s = (Ok (Denied reason), s, []).
Proof.
  intros Hf Hu Hk. destruct (ClaimUse_cases tenantID (requestID b) {| KeyHash := keyHash b; ClaimedAt := now |} now s)
    as [(o & Hc & Ho)|(p' & r' & Hf' & _ & _ & _ & Hu' & _)].
  - rewrite (claim_call _ _ _ _ _ _ _ Hc). destruct o as [r'|]; [|by eexists].
    destruct (Ho r' eq_refl) as (_ & p' & Hf' & _). assert (r' = r) as -> by congruence. simpl. rewrite Hu, bool_decide_false by done.
    by eexists.
  - rewrite Hf in Hf'. injection Hf' as <- <-. congruence.
Qed.

(** The right to execute an approved operation goes to one operation key.
    A claim is allowed only on a consumed, unexpired request of the tenant, and
    then either it takes a right that nobody held or it repeats, marked as
    replayed and without a change, the claim of the same key; after it every
    claim under another key, by whatever tenant and at whatever time, is denied
    and changes nothing. *)
Theorem claim_exclusive tenantID a now s u s1 w :
  claimApprovedOperation (E := transition_error) tenantID a now s = (Ok (Allowed u), s1, w) ->
  (exists p r, by_id (requestID a) s = Some (p, r) /\ ap_TenantID r = tenantID /\ ap_State r = ApprovalConsumed /\
     (now < ap_ExpiresAt r)%Z /\
     ((ap_Use r = None /\ Replayed u = false /\
       s1 = set_at p (used_request {| KeyHash := keyHash a; ClaimedAt := now |} r) s) \/
      (exists use, ap_Use r = Some use /\ KeyHash use = keyHash a /\ Replayed u = true /\ s1 = s))) /\
  forall tenant2 b now2, requestID b = requestID a -> keyHash b <> keyHash a ->
    exists reason, claimApprovedOperation (E := transition_error) tenant2 b now2 s1 = (Ok (Denied reason), s1, []).
Proof.
  intros Hrun. destruct (ClaimUse_cases tenantID (requestID a) {| KeyHash := keyHash a; ClaimedAt := now |} now s)
    as [(o & Hc & Ho)|(p & r & Hf & Ht & Hs & Hlt & Hu & Hc)]; rewrite (claim_call _ _ _ _ _ _ _ Hc) in Hrun.
  - destruct o as [r|]; [|done]. destruct (Ho r eq_refl) as ([use Hu] & p & Hf & Ht & Hs & Hlt). simpl in Hrun. rewrite Hu in Hrun.
    destruct (KeyHash use <>? keyHash a) eqn:Hk; [done|]. injection Hrun as <- <- <-. go_bool.
    split.
    + exists p, r. naive_solver.
    + intros tenant2 b now2 Hid Hne. eapply claim_held; [by rewrite Hid|exact Hu|congruence].
  - simpl in Hrun. rewrite bool_decide_true in Hrun by done. injection Hrun as <- <- <-. split.
    + exists p, r. split_and!; [done..|]. by left.
    + intros tenant2 b now2 Hid Hne. set (use := {| KeyHash := keyHash a; ClaimedAt := now |}).
      apply (claim_held _ _ _ _ p (used_request use r) use); [|done|by simpl; congruence].
      rewrite Hid. apply by_id_Some in Hf as [Hi Hp]. apply by_id_Some. split; [done|apply lookup_insert_eq].
Qed.
End memory.

(** ** Witnesses: an agent asks, its user approves, the agent pays *)

#[local] Instance demo_approval_client : ClientView string :=
  {| client_ClientID c := c; client_GrantTypes _ := [GrantCiba] |}.
#[local] Instance demo_approval_policy : ClientPolicyView string :=
  {| client_ClientType _ := ClientConfidential; client_Scope _ := "openid payments" |}.
#[local] Instance demo_approval_name : ClientNameView string := {| client_ClientName _ := Some "Assistant" |}.
#[local] Instance demo_approval_user : UserView string :=
  {| user_ID u := u; user_TenantID _ := "acme"; user_IsActive _ := true |}.
#[local] Instance demo_approval_contact : UserContactView string :=
  {| user_Email u := Some (u ++ "@example.org"); user_LocaleAttribute _ := "en"; user_DisplayName u := u |}.

Definition demo_agent : Agent :=
  {| agent_ID := "agent"; agent_TenantID := "acme"; agent_Name := "Payer"; agent_Description := None;
     agent_Kind := "supervised"; agent_OwnerUserID := "bob"; agent_Status := AgentStatusActive; agent_CreatedAt := 1%Z;
     agent_UpdatedAt := 1%Z; agent_DisabledAt := None; agent_KilledAt := None |}.

Definition demo_detail_type : AuthorizationDetailType :=
  {| type_TenantID := "acme"; type_Type := "payment"; type_Description := "";
     type_Rules := map (fun n => {| rule_Name := n; rule_Semantics := DetailFieldSet; rule_Required := true; rule_Allowed := [] |})
                     ["locations"; "actions"; "identifier"];
     type_DisplayTemplate := "pay"; type_State := DetailTypeEnabled; type_CreatedAt := 1%Z; type_UpdatedAt := 1%Z |}.

Definition demo_start_deps : StartApprovalDeps transition_error string string :=
  {| sa_ClientRepo _ c := Ok (Some c); sa_FindBySub u := Ok (Some u); sa_FindByUsername _ u := Ok (Some u);
     sa_FindByEmail _ _ := Ok None; sa_AgentRepo := Some (fun _ _ => Ok (Some demo_agent)); sa_HintVerifier := None;
     sa_AuthzDetailTypeRepo := Some (fun _ _ => Ok (Some demo_detail_type)); sa_unmarshal _ := Some [demo_detail];
     sa_Notifier := true; sa_ApprovalURL := "https://idp/approvals"; sa_clock := 1%Z |}.

Definition demo_start_input : StartApprovalInput :=
  {| sa_ClientID := "client"; sa_LoginHint := " alice "; sa_IDTokenHint := ""; sa_Scope := "openid payments";
     sa_AuthorizationDetailsRaw := "[...]"; sa_BindingMessage := "invoice 7"; sa_RequestedExpiry := Some 120%Z |}.

Definition demo_uuid : string := "00000000-0000-4000-8000-000000000000".

Definition demo_start :=
  StartApproval demo_start_deps "acme" demo_start_input 1%Z (Ok demo_uuid) (Ok (repeat 7%N 32)) NewApprovalRequestStore.
Definition demo_secret : string := EncodeToString (string_of_bytes (repeat 7%N 32)).
Definition demo_started : ApprovalRequestStore := demo_start.1.2.
Definition demo_start_out : StartApprovalResult := {| sr_AuthReqID := demo_secret; sr_ExpiresIn := 120; sr_Interval := 5 |}.

Lemma demo_start_runs :
  StartApproval demo_start_deps "acme" demo_start_input 1%Z (Ok demo_uuid) (Ok (repeat 7%N 32)) NewApprovalRequestStore =
  (Ok demo_start_out, demo_started, demo_start.2).
Proof. vm_compute. reflexivity. Qed.

Lemma StartApproval_stores_witness :
  exists client details user agent uuid,
    demo_started = approval_Save "acme" (new_request "acme" demo_start_input client user agent details uuid demo_secret 1%Z)
      NewApprovalRequestStore /\ user_TenantID user = "acme".
Proof.
  destruct (StartApproval_stores demo_start_deps "acme" demo_start_input 1%Z (Ok demo_uuid) (Ok (repeat 7%N 32))
    NewApprovalRequestStore (Ok demo_start_out) demo_started demo_start.2 demo_start_runs)
    as (client & details & user & agent & uuid & _ & _ & _ & _ & _ & _ & _ & Ht & _ & _ & _ & _ & Hs & _).
  exists client, details, user, agent, uuid. split; [exact Hs|exact Ht].
Defined.

Definition demo_decided : ApprovalRequestStore :=
  (DecideApproval (E := transition_error) "acme" "alice" demo_uuid true 2%Z demo_started).1.2.

Definition demo_ciba_deps : ExchangeApprovalDeps transition_error string string :=
  {| ea_ClientRepo _ c := Ok (Some c); ea_FindBySub u := Ok (Some u); ea_AgentRepo := Some (fun _ _ => Ok (Some demo_agent));
     ea_SignAccessToken inp := Ok (Join (at_Audiences _ inp) "," ++ "/" ++ at_Sub inp, "jti"); ea_SignIDToken _ := Ok "id";
     ea_AccessTokenTTLSeconds := 300;
     ea_ResourceServers := Some (fun _ r => Ok (Some {| mcp_Resource := r; mcp_Scopes := []; mcp_State := McpResourceServerActive |}));
     ea_clock := 1%Z |}.

Definition demo_ciba_input : ExchangeApprovalInput :=
  {| ea_ClientID := "client"; ea_AuthReqID := demo_secret; ea_ProofJKT := "jkt"; ea_ProofX5TS256 := "" |}.

Definition demo_ciba := ExchangeApproval demo_ciba_deps "acme" demo_ciba_input 3%Z demo_decided.
Definition demo_exchanged : ApprovalRequestStore := demo_ciba.1.2.
Definition demo_ciba_out : ExchangeApprovalResult :=
  {| er_AccessToken := "https://bank.example/alice"; er_IDToken := "id"; er_TokenType := "DPoP"; er_ExpiresIn := 300;
     er_Scope := "openid payments" |}.

Lemma demo_ciba_runs :
  ExchangeApproval demo_ciba_deps "acme" demo_ciba_input 3%Z demo_decided =
  (Ok demo_ciba_out, demo_exchanged, demo_ciba.2).
Proof. vm_compute. reflexivity. Qed.

Lemma ExchangeApproval_success_witness :
  demo_ciba.1.1 = Ok demo_ciba_out /\
  exists e, ExchangeApproval demo_ciba_deps "acme" demo_ciba_input 4%Z demo_exchanged = (Err e, demo_exchanged, []).
Proof.
  split; [vm_compute; reflexivity|].
  destruct (ExchangeApproval_success demo_ciba_deps "acme" demo_ciba_input 3%Z demo_decided demo_ciba_out
    demo_exchanged demo_ciba.2 demo_ciba_runs)
    as (p & r & client & user & audiences & signed & _ & _ & _ & _ & _ & _ & _ & _ & _ & _ & _ & _ & _ & _ & _ & Hafter).
  apply Hafter. reflexivity.
Defined.

(** Two servers try to execute the payment. *)
Definition demo_claim (key : string) : matchedApproval := {| requestID := demo_uuid; digest := "digest"; keyHash := key |}.
Definition demo_claimed := claimApprovedOperation (E := transition_error) "acme" (demo_claim "key1") 4%Z demo_exchanged.
Definition demo_right : ApprovedOperationUse :=
  {| use_ApprovalRequestID := demo_uuid; OperationDigest := "digest"; Replayed := false |}.

Lemma demo_claim_runs :
  claimApprovedOperation (E := transition_error) "acme" (demo_claim "key1") 4%Z demo_exchanged =
  (Ok (Allowed demo_right), demo_claimed.1.2, demo_claimed.2).
Proof. vm_compute. reflexivity. Qed.

Lemma claim_exclusive_witness :
  demo_claimed.1.1 = Ok (Allowed demo_right) /\
  exists reason, claimApprovedOperation (E := transition_error) "acme" (demo_claim "key2") 5%Z demo_claimed.1.2 =
    (Ok (Denied reason), demo_claimed.1.2, []).
Proof.
  split; [vm_compute; reflexivity|].
  apply (claim_exclusive "acme" (demo_claim "key1") 4%Z demo_exchanged demo_right demo_claimed.1.2 demo_claimed.2
    demo_claim_runs); [reflexivity|discriminate].
Defined.
