(* ===== verification/Consents.v ===== *)
(** * OAuth2: consents and delegations to agents

    [backend/oauth2/internal/consent]: the record (domain/consent.go), the memory
    repository (db_memory/consents.go) and the use cases of administrators,
    users and delegations (usecases), with the recording of a consent by
    [handleConsentAPI] (internal/handlers_http/authorize_consent.go) and the two
    deletions that reach the rows from outside: of a client
    (application/internal/db_memory/deletion.go) and of a user
    ([cascadeDeleteForSub], idmanagement/internal/user/usecases/admin_users.go).

    A row is owned by its map alone: the code copies on every read and write, so
    the maps of pointers are maps of records.  The clock of a revocation is an
    argument.

    The theorems: along any sequence of grants and revocations the tenant's
    counter is the number of its granted rows, within the limit; and the two
    deletions do not keep that: one frees slots that are already free, the other
    frees none. *)

From Stdlib Require Import Ascii String ZArith Lia.
From stdpp Require Import base strings list gmap sorting.
From S2P Require Import Prelude Effects GoStrings Rules Policy TokenDomain RichAuthorization Keyset Quota Approval.

Local Open Scope string_scope.
Local Open Scope go_scope.

(** ** The record *)

Definition ConsentState := string.
Definition ConsentGranted : ConsentState := "granted".
Definition ConsentRevoked : ConsentState := "revoked".
Definition ConsentExpired : ConsentState := "expired".

Definition ConsentState_Valid (s : ConsentState) : bool := contains [ConsentGranted; ConsentRevoked; ConsentExpired] s.

Record Consent := {
  con_UserID : string;
  con_ClientID : string;
  con_AgentID : string;
  con_Scopes : list string;
  con_State : ConsentState;
  con_GrantedAt : Time;
  con_ExpiresAt : Time;
  con_RevokedAt : option Time;
  con_LastUsedAt : option Time;
  con_AuthorizationDetails : list AuthorizationDetail;
}.

Definition PermitsDelegation (c : Consent) (scopes : list string) (now : Time) : bool :=
  if (con_State c <>? ConsentGranted) || negb (Before now (con_ExpiresAt c)) then false
  else forallb (contains (con_Scopes c)) scopes.

(** ** The memory repository *)

Record memConsent := { mc_Consent : Consent; mc_TenantID : string }.

Record ConsentRepository := {
  consents : gmap string memConsent;
  delegations : gmap string memConsent;
}.

Definition NewConsentRepository : ConsentRepository := {| consents := ∅; delegations := ∅ |}.

Definition consentKey (tenantID sub clientID : string) : string :=
  ScopedKey tenantID (sub ++ "|" ++ clientID) DefaultTenantID.

Definition rows (m : gmap string memConsent) : list memConsent := map snd (map_to_list m).

Definition DeleteForClient (r : ConsentRepository) (tenantID clientID : string) : nat * ConsentRepository :=
  let doomed := filter (fun e : string * memConsent =>
    mc_TenantID e.2 = tenantID /\ con_ClientID (mc_Consent e.2) = clientID) (consents r) in
  (size doomed, {| consents := consents r ∖ doomed; delegations := delegations r |}).

Definition consent_Find (r : ConsentRepository) (tenantID sub clientID : string) : option Consent :=
  mc_Consent <$> consents r !! consentKey tenantID sub clientID.

Definition consent_key (c : Consent) : string * string := (con_UserID c, con_ClientID c).
Definition delegation_key (c : Consent) : string * string := (con_UserID c, con_AgentID c).

Definition tenant_rows (m : gmap string memConsent) (tenantID : string) : list Consent :=
  map mc_Consent (List.filter (fun mc => mc_TenantID mc =? tenantID) (rows m)).

Definition consent_FindAll (r : ConsentRepository) (tenantID : string) : list Consent :=
  merge_sort (key_le consent_key false) (tenant_rows (consents r) tenantID).

Definition consent_ListPage (r : ConsentRepository) (tenantID afterUserID afterClientID : string) (limit : nat) : list Consent :=
  KeysetPage consent_key false (tenant_rows (consents r) tenantID) (afterUserID, afterClientID) limit.

Definition consent_ListPageBefore (r : ConsentRepository) (tenantID beforeUserID beforeClientID : string) (limit : nat) :
    list Consent :=
  KeysetPageBefore consent_key false (tenant_rows (consents r) tenantID) (beforeUserID, beforeClientID) limit.

Definition consent_Save (tenantID : string) (c : Consent) (r : ConsentRepository) : ConsentRepository :=
  {| consents := <[consentKey tenantID (con_UserID c) (con_ClientID c) := {| mc_Consent := c; mc_TenantID := tenantID |}]> (consents r);
     delegations := delegations r |}.

Definition revoked_row (now : Time) (mc : memConsent) : memConsent :=
  let c := mc_Consent mc in
  {| mc_Consent := {| con_UserID := con_UserID c; con_ClientID := con_ClientID c; con_AgentID := con_AgentID c;
       con_Scopes := con_Scopes c; con_State := ConsentRevoked; con_GrantedAt := con_GrantedAt c;
       con_ExpiresAt := con_ExpiresAt c; con_RevokedAt := Some now; con_LastUsedAt := con_LastUsedAt c;
       con_AuthorizationDetails := con_AuthorizationDetails c |};
     mc_TenantID := mc_TenantID mc |}.

Definition consent_Revoke (tenantID sub clientID : string) (now : Time) (r : ConsentRepository) : ConsentRepository :=
  let key := consentKey tenantID sub clientID in
  match consents r !! key with
  | None => r
  | Some mc => {| consents := <[key := revoked_row now mc]> (consents r); delegations := delegations r |}
  end.

Definition consent_DeleteAllForSub (sub : string) (r : ConsentRepository) : ConsentRepository :=
  {| consents := filter (fun e : string * memConsent => con_UserID (mc_Consent e.2) <> sub) (consents r);
     delegations := filter (fun e : string * memConsent => con_UserID (mc_Consent e.2) <> sub) (delegations r) |}.

Definition FindAgentDelegation (r : ConsentRepository) (tenantID sub agentID : string) : option Consent :=
  mc_Consent <$> delegations r !! consentKey tenantID sub agentID.

Definition agent_le (a b : Consent) : Prop := String.le (con_AgentID a) (con_AgentID b).
#[export] Instance agent_le_dec : RelDecision agent_le.
Proof. intros a b. unfold agent_le. apply _. Defined.

Definition ListAgentDelegations (r : ConsentRepository) (tenantID sub : string) : list Consent :=
  merge_sort agent_le (map mc_Consent (List.filter (fun mc =>
    (mc_TenantID mc =? tenantID) && (con_UserID (mc_Consent mc) =? sub)) (rows (delegations r)))).

Definition ListAgentDelegationPage (r : ConsentRepository) (tenantID afterUserID afterAgentID : string) (limit : nat) : list Consent :=
  KeysetPage delegation_key false (tenant_rows (delegations r) tenantID) (afterUserID, afterAgentID) limit.

Definition ListAgentDelegationPageBefore (r : ConsentRepository) (tenantID beforeUserID beforeAgentID : string) (limit : nat) :
    list Consent :=
  KeysetPageBefore delegation_key false (tenant_rows (delegations r) tenantID) (beforeUserID, beforeAgentID) limit.

Definition with_last_used (at_ : option Time) (c : Consent) : Consent :=
  {| con_UserID := con_UserID c; con_ClientID := con_ClientID c; con_AgentID := con_AgentID c;
     con_Scopes := con_Scopes c; con_State := con_State c; con_GrantedAt := con_GrantedAt c;
     con_ExpiresAt := con_ExpiresAt c; con_RevokedAt := con_RevokedAt c; con_LastUsedAt := at_;
     con_AuthorizationDetails := con_AuthorizationDetails c |}.

Definition regranted (c : Consent) (existing : option memConsent) : Consent :=
  {| con_UserID := con_UserID c; con_ClientID := con_ClientID c; con_AgentID := con_AgentID c;
     con_Scopes := con_Scopes c; con_State := ConsentGranted; con_GrantedAt := con_GrantedAt c;
     con_ExpiresAt := con_ExpiresAt c; con_RevokedAt := None;
     con_LastUsedAt := match existing with Some e => con_LastUsedAt (mc_Consent e) | None => None end;
     con_AuthorizationDetails := con_AuthorizationDetails c |}.

Definition SaveAgentDelegation (tenantID : string) (c : Consent) (r : ConsentRepository) : ConsentRepository :=
  let key := consentKey tenantID (con_UserID c) (con_AgentID c) in
  {| consents := consents r;
     delegations := <[key := {| mc_Consent := regranted c (delegations r !! key); mc_TenantID := tenantID |}]> (delegations r) |}.

Definition mem_RevokeAgentDelegation (tenantID sub agentID : string) (now : Time) (r : ConsentRepository) : ConsentRepository :=
  let key := consentKey tenantID sub agentID in
  match delegations r !! key with
  | None => r
  | Some mc =>
      if is_some (con_RevokedAt (mc_Consent mc)) then r
      else {| consents := consents r; delegations := <[key := revoked_row now mc]> (delegations r) |}
  end.

Definition TouchAgentDelegation (tenantID sub agentID : string) (at_ : Time) (r : ConsentRepository) : ConsentRepository :=
  let key := consentKey tenantID sub agentID in
  match delegations r !! key with
  | None => r
  | Some mc =>
      {| consents := consents r;
         delegations := <[key := {| mc_Consent := with_last_used (Some at_) (mc_Consent mc); mc_TenantID := mc_TenantID mc |}]>
                          (delegations r) |}
  end.

(** ** Ports *)

Class ConsentPort (S E : Type) := {
  find_consent : string -> string -> string -> S -> result E (option Consent) * S;
  find_all_consents : string -> S -> result E (list Consent) * S;
  save_consent : string -> Consent -> S -> result E unit * S;
  revoke_consent : string -> string -> string -> Time -> S -> result E unit * S;
  find_delegation : string -> string -> string -> S -> result E (option Consent) * S;
  list_delegations : string -> string -> S -> result E (list Consent) * S;
  save_delegation : string -> Consent -> S -> result E unit * S;
  revoke_delegation : string -> string -> string -> Time -> S -> result E unit * S;
  touch_delegation : string -> string -> string -> Time -> S -> result E unit * S;
}.

(** ** Events and errors *)

Inductive consent_event :=
| AgentDelegationGranted (at_ : Time) (tenantID userID agentID : string) (scopes : list string) (expiresAt : Time)
| AgentDelegationRevoked (at_ : Time) (tenantID userID agentID : string)
| ConsentGrantedEvent (at_ : Time) (tenantID userID clientID : string) (scopes : list string)
| ConsentRevokedEvent (at_ : Time) (tenantID actorUserID userID clientID : string)
| AuthorizationDetailsConsented (at_ : Time) (tenantID userID clientID : string) (detailTypes : list string)
| QuotaExceeded (at_ : Time) (tenantID resource : string) (hardLimit : bool).

Inductive consent_failure (E : Type) :=
| ErrConsentNotFound
| ErrDelegationAgentNotFound
| ErrInvalidDelegationGrant
| ConsentPortError (e : E).
Arguments ErrConsentNotFound {E}.
Arguments ErrDelegationAgentNotFound {E}.
Arguments ErrInvalidDelegationGrant {E}.
Arguments ConsentPortError {E} e.

(** ** The use cases *)

Definition MaxAgentDelegationLifetime : Duration := (365 * 24 * Hour)%Z.

Record AgentDelegationGrant := {
  ag_Sub : string;
  ag_AgentID : string;
  ag_Scopes : list string;
  ag_ExpiresAt : option Time;
}.

Definition normalizeDelegationScopes (scopes : list string) : list string :=
  fold_left (fun out scope =>
    let scope := TrimSpace scope in
    if (scope <>? "") && negb (contains out scope) then (out ++ [scope])%list else out) scopes [].

Definition shouldConsumeConsentQuota (existing : option Consent) : bool :=
  match existing with None => true | Some c => con_State c =? ConsentRevoked end.

Section usecases.
Context {S E : Type} `{ConsentPort S E} `{QuotaPort S E}.
Notation flow := (eff S consent_event (consent_failure E)).

(** The check of the quota, whose excess is reported. *)
Definition consume_slot (tenantID : string) (now : Time) : flow unit := fun s =>
  match check_quota tenantID ResourceConsents 1 s with
  | (Ok _, s') => (Ok tt, s', [])
  | (Err e, s') =>
      (Err (ConsentPortError e), s',
       match exceeded e with Some resource => [QuotaExceeded now tenantID resource true] | None => [] end)
  end.

Section deps.
(** The flag is a quota repository that is not nil; [agents] is [FindByID], and
    [clock] is [time.Now()]. *)
Context (has_QuotaRepo : bool) (agents : option (string -> string -> result E (option Agent))) (clock : Time).

Definition delegation_record (in_ : AgentDelegationGrant) (scopes : list string) (now expiresAt : Time) : Consent :=
  {| con_UserID := ag_Sub in_; con_ClientID := ""; con_AgentID := ag_AgentID in_; con_Scopes := scopes;
     con_State := ConsentGranted; con_GrantedAt := now; con_ExpiresAt := expiresAt; con_RevokedAt := None;
     con_LastUsedAt := None; con_AuthorizationDetails := [] |}.

Definition GrantAgentDelegation (tenantID : string) (in_ : AgentDelegationGrant) (now : Time) : flow Consent :=
  let scopes := normalizeDelegationScopes (ag_Scopes in_) in
  let latest := Add now MaxAgentDelegationLifetime in
  let expiresAt := default latest (ag_ExpiresAt in_) in
  refuse (scopes =? []) || negb (After expiresAt now) || After expiresAt latest with ErrInvalidDelegationGrant in
  match agents with
  | None => eff_fail ErrDelegationAgentNotFound
  | Some findByID =>
      let! agent := lift (match findByID tenantID (ag_AgentID in_) with Ok a => Ok a | Err e => Err (ConsentPortError e) end) in
      refuse (match agent with Some a => negb (agent_IsActive a) | None => true end) with ErrDelegationAgentNotFound in
      let! existing := call ConsentPortError (find_delegation tenantID (ag_Sub in_) (ag_AgentID in_)) in
      do! (if has_QuotaRepo && shouldConsumeConsentQuota existing then consume_slot tenantID now else eff_ret tt) in
      let grant := delegation_record in_ scopes now expiresAt in
      do! call ConsentPortError (save_delegation tenantID grant) in
      do! emit (AgentDelegationGranted now tenantID (ag_Sub in_) (ag_AgentID in_) scopes expiresAt) in
      eff_ret grant
  end.

Definition ListGrantedAgentDelegations (tenantID sub : string) (now : Time) : flow (list Consent) :=
  let! all := call ConsentPortError (list_delegations tenantID sub) in
  eff_ret (List.filter (fun grant => negb ((con_State grant <>? ConsentGranted) || negb (Before now (con_ExpiresAt grant)))) all).

(** The slot of a row that was granted is freed. *)
Definition release_slot (tenantID : string) (row : Consent) : flow unit :=
  if has_QuotaRepo && (con_State row =? ConsentGranted) then call ConsentPortError (free_quota tenantID ResourceConsents 1)
  else eff_ret tt.

Definition RevokeAgentDelegation (tenantID sub agentID : string) (now : Time) : flow unit :=
  let! grant := call ConsentPortError (find_delegation tenantID sub agentID) in
  match grant with
  | None => eff_fail ErrConsentNotFound
  | Some grant =>
      do! call ConsentPortError (revoke_delegation tenantID sub agentID clock) in
      do! release_slot tenantID grant in
      emit (AgentDelegationRevoked now tenantID sub agentID)
  end.

Definition GetConsent (tenantID sub clientID : string) : flow Consent :=
  let! consent := call ConsentPortError (find_consent tenantID sub clientID) in
  match consent with
  | None => eff_fail ErrConsentNotFound
  | Some consent => eff_ret consent
  end.

Definition adminNow (now : Time) : Time := if IsZero now then clock else now.

Definition RevokeConsent (tenantID actorUserID sub clientID : string) (now : Time) : flow unit :=
  let! consent := GetConsent tenantID sub clientID in
  do! call ConsentPortError (revoke_consent tenantID sub clientID clock) in
  do! release_slot tenantID consent in
  emit (ConsentRevokedEvent (adminNow now) tenantID actorUserID sub clientID).

Definition ListConsentsForSub (tenantID sub : string) : flow (list Consent) :=
  let! all := call ConsentPortError (find_all_consents tenantID) in
  eff_ret (List.filter (fun consent => (con_UserID consent =? sub) && (con_State consent =? ConsentGranted)) all).

Definition consent_record (userID clientID : string) (scopes : list string) (details : list AuthorizationDetail) (now : Time) :
    Consent :=
  {| con_UserID := userID; con_ClientID := clientID; con_AgentID := ""; con_Scopes := scopes;
     con_State := ConsentGranted; con_GrantedAt := now; con_ExpiresAt := Add now (365 * 24 * Hour)%Z;
     con_RevokedAt := None; con_LastUsedAt := None; con_AuthorizationDetails := details |}.

(** What [handleConsentAPI] does with the repository once the user allowed a
    request; [now] is [time.Now()]. *)
Definition record_consent (tenantID userID clientID scope : string) (details : list AuthorizationDetail) (now : Time) :
    flow unit :=
  let scopes := Fields scope in
  do! (if has_QuotaRepo then
         let! existing := call ConsentPortError (find_consent tenantID userID clientID) in
         if shouldConsumeConsentQuota existing then consume_slot tenantID now else eff_ret tt
       else eff_ret tt) in
  do! call ConsentPortError (save_consent tenantID (consent_record userID clientID scopes details now)) in
  do! emit (ConsentGrantedEvent now tenantID userID clientID scopes) in
  match details with
  | [] => eff_ret tt
  | _ => emit (AuthorizationDetailsConsented now tenantID userID clientID (DetailTypes details))
  end.
End deps.
End usecases.

(** ** The memory repositories together *)

Record ConsentStore := { st_consents : ConsentRepository; st_quota : QuotaRepository }.

Definition on_consents {A E} (op : ConsentRepository -> A * ConsentRepository) (s : ConsentStore) : result E A * ConsentStore :=
  let '(a, r) := op (st_consents s) in (Ok a, {| st_consents := r; st_quota := st_quota s |}).

Definition on_quota {A} (op : QuotaRepository -> result quota_error A * QuotaRepository) (s : ConsentStore) :
    result quota_error A * ConsentStore :=
  let '(a, r) := op (st_quota s) in (a, {| st_consents := st_consents s; st_quota := r |}).

#[export] Instance memory_consent_port : ConsentPort ConsentStore quota_error := {
  find_consent t sub c := on_consents (fun r => (consent_Find r t sub c, r));
  find_all_consents t := on_consents (fun r => (consent_FindAll r t, r));
  save_consent t c := on_consents (fun r => (tt, consent_Save t c r));
  revoke_consent t sub c now := on_consents (fun r => (tt, consent_Revoke t sub c now r));
  find_delegation t sub a := on_consents (fun r => (FindAgentDelegation r t sub a, r));
  list_delegations t sub := on_consents (fun r => (ListAgentDelegations r t sub, r));
  save_delegation t c := on_consents (fun r => (tt, SaveAgentDelegation t c r));
  revoke_delegation t sub a now := on_consents (fun r => (tt, mem_RevokeAgentDelegation t sub a now r));
  touch_delegation t sub a at_ := on_consents (fun r => (tt, TouchAgentDelegation t sub a at_ r));
}.

#[export] Instance memory_quota_port : QuotaPort ConsentStore quota_error := {
  check_quota t res d := on_quota (CheckAndIncrement t res d);
  free_quota t res d := on_quota (Decrement t res d);
  exceeded e := match e with QuotaExceededError _ res => Some res | QuotaError _ _ => None end;
}.

(** The deletion of a client's consents and the slots it frees, in the deletion
    of an application. *)
Definition delete_client_consents (tenantID clientID : string) (s : ConsentStore) : ConsentStore :=
  let '(n, r) := DeleteForClient (st_consents s) tenantID clientID in
  {| st_consents := r;
     st_quota := if (0 <? n)%nat then (Decrement tenantID ResourceConsents (Z.of_nat n) (st_quota s)).2 else st_quota s |}.

(** The first step of the purge of a user. *)
Definition purge_consents (sub : string) (s : ConsentStore) : ConsentStore :=
  {| st_consents := consent_DeleteAllForSub sub (st_consents s); st_quota := st_quota s |}.

(** ** Counting the granted rows *)

Definition live (tenantID : string) (mc : memConsent) : bool :=
  (mc_TenantID mc =? tenantID) && (con_State (mc_Consent mc) =? ConsentGranted).

Notation count_live tenantID := (count_of (live tenantID)).
Notation live_at tenantID := (holds_at (live tenantID)).

(** ** The invariant *)

Definition table (d : bool) (r : ConsentRepository) : gmap string memConsent := if d then delegations r else consents r.

Definition row_ok (key : string) (mc : memConsent) : Prop :=
  plain (mc_TenantID mc) /\ (exists id, key = ScopedKey (mc_TenantID mc) id DefaultTenantID) /\
  (con_State (mc_Consent mc) = ConsentGranted \/ con_State (mc_Consent mc) = ConsentRevoked) /\
  (con_State (mc_Consent mc) = ConsentGranted -> con_RevokedAt (mc_Consent mc) = None).

Definition granted_rows (tenantID : string) (r : ConsentRepository) : Z :=
  (count_live tenantID (consents r) + count_live tenantID (delegations r))%Z.

Record consents_ok (s : ConsentStore) : Prop := {
  ok_rows : forall d key mc, table d (st_consents s) !! key = Some mc -> row_ok key mc;
  ok_quota : quota_ok (st_quota s);
  ok_count : forall t, plain t -> used (st_quota s) t ResourceConsents = granted_rows t (st_consents s);
}.

Definition with_row (d : bool) (key : string) (mc : memConsent) (r : ConsentRepository) : ConsentRepository :=
  if d then {| consents := consents r; delegations := <[key := mc]> (delegations r) |}
  else {| consents := <[key := mc]> (consents r); delegations := delegations r |}.

Lemma granted_rows_with_row tenantID d key mc r :
  granted_rows tenantID (with_row d key mc r)
  = (granted_rows tenantID r - one (live_at tenantID (table d r) key) + one (live tenantID mc))%Z.
Proof. unfold granted_rows. destruct d; simpl; rewrite count_of_insert; lia. Qed.

(** A row is written for the tenant, and the counter follows it. *)
Lemma consents_ok_row s d t id mc quota' (key := ScopedKey t id DefaultTenantID) :
  consents_ok s -> plain t -> mc_TenantID mc = t -> row_ok key mc -> quota_ok quota' ->
  (forall t', used quota' t' ResourceConsents =
     if decide (t' = t) then (used (st_quota s) t ResourceConsents - one (live_at t (table d (st_consents s)) key) + one (live t mc))%Z
     else used (st_quota s) t' ResourceConsents) ->
  consents_ok {| st_consents := with_row d key mc (st_consents s); st_quota := quota' |}.
Proof.
  intros [Hrows Hq Hc] Ht Htm Hmc Hq' Hu. split; simpl.
  - intros d' key' mc' Hm. destruct d, d'; simpl in Hm; try (by eapply (Hrows true)); try (by eapply (Hrows false));
      (destruct (decide (key' = key)) as [-> |Hne]; [rewrite lookup_insert_eq in Hm; injection Hm as <-; exact Hmc|];
       rewrite lookup_insert_ne in Hm by done; first [by eapply (Hrows true)|by eapply (Hrows false)]).
  - done.
  - intros t' Ht'. rewrite Hu, granted_rows_with_row. destruct (decide (t' = t)) as [-> |Hne].
    + rewrite Hc by done. lia.
    + rewrite Hc by done. assert (live t' mc = false) as ->.
      { unfold live. rewrite Htm, bool_decide_false by congruence. done. }
      assert (live_at t' (table d (st_consents s)) key = false) as ->; [|simpl; lia].
      unfold live_at. destruct (table d (st_consents s) !! key) as [old|] eqn:Hold; [|done].
      destruct (Hrows d key old Hold) as (Hp & [id' Hid] & _). unfold live. apply andb_false_iff. left.
      apply bool_decide_eq_false. intros <-. apply Hne. symmetry. by eapply (ScopedKey_tenant t _ id id').
Qed.

(** ** Steps *)

(** What a step on a good store gives: a good store with the same limits, where
    no counter grew past its limit. *)
Definition good (s s' : ConsentStore) : Prop :=
  consents_ok s' /\ quotas (st_quota s') = quotas (st_quota s) /\
  forall t, (used (st_quota s') t ResourceConsents
             <= Z.max (used (st_quota s) t ResourceConsents) (limit_of (st_quota s) t ResourceConsents))%Z.

Lemma good_refl s : consents_ok s -> good s s.
Proof. intros Hs. split_and!; [done|done|]. intros t. lia. Qed.

Lemma small_one : small 1%Z.
Proof. done. Qed.

Lemma consents_small s t : consents_ok s -> small (used (st_quota s) t ResourceConsents).
Proof. intros Hs. by apply (usage_ok _ (ok_quota s Hs)). Qed.

Lemma good_refused s t e q' : consents_ok s -> CheckAndIncrement t ResourceConsents 1 (st_quota s) = (Err e, q') ->
  good s {| st_consents := st_consents s; st_quota := q' |}.
Proof.
  intros Hs Hc. pose proof (CheckAndIncrement_hard t ResourceConsents 1 (st_quota s) eq_refl eq_refl (consents_small s t Hs) small_one) as Hspec.
  pose proof (quota_step_ok (Increment t ResourceConsents 1) _ (ok_quota s Hs) small_one) as Hok. simpl in Hok.
  rewrite Hc in Hspec, Hok. destruct Hspec as (Hq & _ & _ & Hu). split_and!; simpl.
  - destruct Hs as [Hr _ Hcount]. split; [exact Hr|exact Hok|]. intros t' Ht'. simpl. rewrite Hu. by apply Hcount.
  - exact Hq.
  - intros t'. rewrite Hu. lia.
Qed.

(** A granted row is written; a slot is taken when there was none. *)
Lemma good_granted s d t id mc q' (key := ScopedKey t id DefaultTenantID) :
  consents_ok s -> plain t -> mc_TenantID mc = t -> row_ok key mc -> con_State (mc_Consent mc) = ConsentGranted ->
  (if live_at t (table d (st_consents s)) key then q' = st_quota s
   else CheckAndIncrement t ResourceConsents 1 (st_quota s) = (Ok tt, q')) ->
  good s {| st_consents := with_row d key mc (st_consents s); st_quota := q' |}.
Proof.
  intros Hs Ht Hm Hrow Hg Hslot. assert (Hlive : live t mc = true) by (unfold live; by rewrite Hm, Hg, !bool_decide_true).
  destruct (live_at t (table d (st_consents s)) key) eqn:Hat.
  - subst q'. split_and!; [|done|intros t'; simpl; lia].
    apply (consents_ok_row s d t id mc); [done..|apply Hs|]. intros t'. fold key. rewrite Hat, Hlive. simpl.
    destruct (decide (t' = t)) as [-> |]; lia.
  - pose proof (CheckAndIncrement_hard t ResourceConsents 1 (st_quota s) eq_refl eq_refl (consents_small s t Hs) small_one) as Hspec.
    pose proof (quota_step_ok (Increment t ResourceConsents 1) _ (ok_quota s Hs) small_one) as Hok. simpl in Hok.
    rewrite Hslot in Hspec, Hok. destruct Hspec as (Hq & Hle & Hu).
    assert (Hu' : forall t', used q' t' ResourceConsents = if decide (t' = t) then (used (st_quota s) t ResourceConsents + 1)%Z
                             else used (st_quota s) t' ResourceConsents).
    { intros t'. rewrite Hu. destruct (decide (t' = t)) as [-> |Hne]; [by rewrite decide_True|by rewrite decide_False by naive_solver]. }
    split_and!; [|done|].
    + apply (consents_ok_row s d t id mc); [done..|]. intros t'. fold key. rewrite Hat, Hlive, Hu'. simpl. destruct (decide (t' = t)); lia.
    + intros t'. simpl. rewrite Hu'. destruct (decide (t' = t)) as [-> |]; lia.
Qed.

(** A row is revoked; its slot is freed when it was granted. *)
Lemma good_revoked s d t id mc now (key := ScopedKey t id DefaultTenantID) :
  consents_ok s -> plain t -> table d (st_consents s) !! key = Some mc ->
  good s {| st_consents := with_row d key (revoked_row now mc) (st_consents s);
            st_quota := if con_State (mc_Consent mc) =? ConsentGranted
                        then (Decrement t ResourceConsents 1 (st_quota s)).2 else st_quota s |}.
Proof.
  intros Hs Ht Hmc. destruct (ok_rows s Hs d key mc Hmc) as (Hp & [id' Hid] & _ & _).
  assert (Htm : mc_TenantID mc = t) by (symmetry; by eapply (ScopedKey_tenant t _ id id')).
  assert (Hrow : row_ok key (revoked_row now mc)).
  { split_and!; simpl; [done|by exists id'|by right|done]. }
  assert (Hat : live_at t (table d (st_consents s)) key = (con_State (mc_Consent mc) =? ConsentGranted)).
  { unfold live_at. rewrite Hmc. unfold live. by rewrite Htm, bool_decide_true. }
  assert (Hdead : live t (revoked_row now mc) = false) by (unfold live; simpl; by rewrite andb_false_r).
  pose proof (Decrement_hard t ResourceConsents 1 (st_quota s) eq_refl eq_refl (consents_small s t Hs) small_one) as Hspec.
  pose proof (quota_step_ok (Free t ResourceConsents 1) _ (ok_quota s Hs) small_one) as Hok. simpl in Hok.
  destruct (con_State (mc_Consent mc) =? ConsentGranted) eqn:Hg.
  - destruct (Decrement t ResourceConsents 1 (st_quota s)) as [res q']. simpl in Hok |- *. destruct Hspec as (_ & Hq & Hu).
    assert (Hpos : (1 <= used (st_quota s) t ResourceConsents)%Z).
    { rewrite (ok_count s Hs t Ht). unfold granted_rows. pose proof (count_of_insert (live t) (table d (st_consents s)) key (revoked_row now mc)) as Hc.
      rewrite Hat, Hdead in Hc. simpl in Hc. unfold count_live in *. destruct d; simpl in *; lia. }
    assert (Hu' : forall t', used q' t' ResourceConsents = if decide (t' = t) then (used (st_quota s) t ResourceConsents - 1)%Z
                             else used (st_quota s) t' ResourceConsents).
    { intros t'. rewrite Hu. destruct (decide (t' = t)) as [-> |Hne]; [rewrite decide_True by done; lia|by rewrite decide_False by naive_solver]. }
    split_and!; [|done|].
    + apply (consents_ok_row s d t id); [done..|]. intros t'. fold key. rewrite Hat, Hdead, Hu'. simpl. destruct (decide (t' = t)); lia.
    + intros t'. simpl. rewrite Hu'. destruct (decide (t' = t)) as [-> |]; lia.
  - split_and!; [|done|intros t'; simpl; lia].
    apply (consents_ok_row s d t id); [done..|apply Hs|]. intros t'. fold key. rewrite Hat, Hdead. simpl.
    destruct (decide (t' = t)) as [-> |]; lia.
Qed.

(** The use cases read the row that they write. *)
Lemma should_consume s d t id (key := ScopedKey t id DefaultTenantID) : consents_ok s -> plain t ->
  shouldConsumeConsentQuota (mc_Consent <$> table d (st_consents s) !! key) = negb (live_at t (table d (st_consents s)) key).
Proof.
  intros Hs Ht. unfold live_at. destruct (table d (st_consents s) !! key) as [mc|] eqn:Hm; simpl; [|done].
  destruct (ok_rows s Hs d key mc Hm) as (Hp & [id' Hid] & Hst & _).
  unfold live. rewrite (bool_decide_true (mc_TenantID mc = t)) by (symmetry; by eapply (ScopedKey_tenant t _ id id')).
  by destruct Hst as [-> | ->].
Qed.

(** ** Sequences of calls *)

Inductive consent_call :=
| Allow (tenantID userID clientID scope : string) (details : list AuthorizationDetail) (now : Time)
| Withdraw (tenantID actorUserID sub clientID : string) (now clock : Time)
| Delegate (tenantID : string) (agents : option (string -> string -> result quota_error (option Agent)))
    (in_ : AgentDelegationGrant) (now : Time)
| Undelegate (tenantID sub agentID : string) (now clock : Time).

Definition consent_step (c : consent_call) (s : ConsentStore) : ConsentStore :=
  match c with
  | Allow t u cl sc ds now => (record_consent true t u cl sc ds now s).1.2
  | Withdraw t a u cl now clock => (RevokeConsent true clock t a u cl now s).1.2
  | Delegate t agents in_ now => (GrantAgentDelegation true agents t in_ now s).1.2
  | Undelegate t u a now clock => (RevokeAgentDelegation true clock t u a now s).1.2
  end.

Definition consent_run (calls : list consent_call) (s : ConsentStore) : ConsentStore :=
  fold_left (fun s c => consent_step c s) calls s.

Definition call_tenant (c : consent_call) : string :=
  match c with Allow t _ _ _ _ _ | Withdraw t _ _ _ _ _ | Delegate t _ _ _ | Undelegate t _ _ _ _ => t end.

Lemma same_store s : {| st_consents := st_consents s; st_quota := st_quota s |} = s.
Proof. by destruct s. Qed.

(** Taking a slot and writing the row, as both grants do. *)
Lemma grant_good s d t id mc now (key := ScopedKey t id DefaultTenantID) :
  consents_ok s -> plain t -> mc_TenantID mc = t -> row_ok key mc -> con_State (mc_Consent mc) = ConsentGranted ->
  let existing := mc_Consent <$> table d (st_consents s) !! key in
  match (if shouldConsumeConsentQuota existing then consume_slot t now else eff_ret tt) s with
  | (Ok _, s1, _) => good s {| st_consents := with_row d key mc (st_consents s1); st_quota := st_quota s1 |} /\
                     st_consents s1 = st_consents s
  | (Err _, s1, _) => good s s1
  end.
Proof.
  intros Hs Ht Hm Hrow Hg existing. unfold existing, key. rewrite (should_consume s d t id) by done. fold key.
  destruct (live_at t (table d (st_consents s)) key) eqn:Hat; simpl.
  - split; [|done]. apply (good_granted s d t id mc); [done..|]. fold key. by rewrite Hat.
  - unfold consume_slot. cbn [check_quota memory_quota_port]. unfold on_quota.
    destruct (CheckAndIncrement t ResourceConsents 1 (st_quota s)) as [[[]|e] q'] eqn:Hc.
    + split; [|done]. apply (good_granted s d t id mc); [done..|]. fold key. by rewrite Hat.
    + by eapply good_refused.
Qed.

Lemma record_consent_good s t u cl sc ds now : consents_ok s -> plain t ->
  good s (record_consent true t u cl sc ds now s).1.2.
Proof.
  intros Hs Ht. set (c := consent_record u cl (Fields sc) ds now).
  pose proof (grant_good s false t (u ++ "|" ++ cl) {| mc_Consent := c; mc_TenantID := t |} now Hs Ht eq_refl) as Hgood.
  cbv zeta in Hgood. unfold record_consent. set (m := fun existing => if shouldConsumeConsentQuota existing then _ else _).
  assert (Hbind : eff_bind (call ConsentPortError (find_consent t u cl)) m s
    = (if shouldConsumeConsentQuota (mc_Consent <$> table false (st_consents s) !! consentKey t u cl)
       then consume_slot t now else eff_ret tt) s).
  { rewrite (eff_bind_pure _ _ s (consent_Find (st_consents s) t u cl) s); [done|].
    unfold call. simpl. unfold on_consents. by rewrite same_store. }
  change (ScopedKey t (u ++ "|" ++ cl) DefaultTenantID) with (consentKey t u cl) in Hgood.
  destruct ((if shouldConsumeConsentQuota _ then consume_slot t now else eff_ret tt) s) as [[[[]|e] s1] w1] eqn:Hslot.
  - rewrite (eff_bind_run _ _ _ tt s1 w1) by (by rewrite Hbind).
    destruct Hgood as [Hg Hsame]; [|done|].
    { split_and!; [done|by eexists|by left|done]. }
    destruct ds; exact Hg.
  - rewrite (eff_bind_fails _ _ _ e s1 w1) by (by rewrite Hbind). apply Hgood; [|done].
    split_and!; [done|by eexists|by left|done].
Qed.

Lemma GrantAgentDelegation_good s agents t in_ now : consents_ok s -> plain t ->
  good s (GrantAgentDelegation true agents t in_ now s).1.2.
Proof.
  intros Hs Ht. unfold GrantAgentDelegation. destruct (_ || _ || _); [by apply good_refl|].
  destruct agents as [findByID|]; [|by apply good_refl].
  destruct (findByID t (ag_AgentID in_)) as [agent|e]; [|by apply good_refl].
  rewrite (eff_bind_pure _ _ s agent s) by done.
  destruct (match agent with Some a => negb (agent_IsActive a) | None => true end); [by apply good_refl|].
  set (key := consentKey t (ag_Sub in_) (ag_AgentID in_)).
  rewrite (eff_bind_pure _ _ s (mc_Consent <$> table true (st_consents s) !! key) s)
    by (unfold call; simpl; unfold on_consents; by rewrite same_store).
  set (g := delegation_record in_ _ now _). cbn [andb].
  pose proof (grant_good s true t (ag_Sub in_ ++ "|" ++ ag_AgentID in_)
    {| mc_Consent := regranted g (delegations (st_consents s) !! key); mc_TenantID := t |} now Hs Ht eq_refl) as Hgood.
  change (ScopedKey t (ag_Sub in_ ++ "|" ++ ag_AgentID in_) DefaultTenantID) with key in Hgood. cbv zeta in Hgood.
  destruct ((if shouldConsumeConsentQuota _ then consume_slot t now else eff_ret tt) s) as [[[[]|e] s1] w1] eqn:Hslot.
  - rewrite (eff_bind_run _ _ _ tt s1 w1) by done.
    destruct Hgood as [Hg Hsame]; [|done|].
    { split_and!; [done|by eexists|by left|done]. }
    cbn. rewrite Hsame in *. exact Hg.
  - rewrite (eff_bind_fails _ _ _ e s1 w1) by done. apply Hgood; [|done].
    split_and!; [done|by eexists|by left|done].
Qed.

Lemma release_good s d t id mc now (key := ScopedKey t id DefaultTenantID) :
  consents_ok s -> plain t -> table d (st_consents s) !! key = Some mc ->
  exists s', release_slot true t (mc_Consent mc)
               {| st_consents := with_row d key (revoked_row now mc) (st_consents s); st_quota := st_quota s |}
             = (Ok tt, s', []) /\ good s s'.
Proof.
  intros Hs Ht Hm. pose proof (good_revoked s d t id mc now Hs Ht Hm) as Hgood. fold key in Hgood.
  unfold release_slot. cbn [andb]. destruct (con_State (mc_Consent mc) =? ConsentGranted).
  - pose proof (Decrement_hard t ResourceConsents 1 (st_quota s) eq_refl eq_refl (consents_small s t Hs) small_one) as Hspec.
    unfold call. simpl. unfold on_quota. simpl. destruct (Decrement t ResourceConsents 1 (st_quota s)) as [res q'].
    destruct Hspec as [-> _]. by eexists.
  - by eexists.
Qed.

Lemma RevokeConsent_good s clock t a u cl now : consents_ok s -> plain t -> good s (RevokeConsent true clock t a u cl now s).1.2.
Proof.
  intros Hs Ht. unfold RevokeConsent, GetConsent. set (key := consentKey t u cl).
  assert (Hfind : call (W := consent_event) ConsentPortError (find_consent t u cl) s = (Ok (mc_Consent <$> consents (st_consents s) !! key), s, []))
    by (unfold call; simpl; unfold on_consents; by rewrite same_store).
  destruct (consents (st_consents s) !! key) as [mc|] eqn:Hm.
  - rewrite (eff_bind_pure _ _ s (mc_Consent mc) s) by (by rewrite (eff_bind_pure _ _ _ _ _ Hfind)).
    destruct (release_good s false t (u ++ "|" ++ cl) mc clock Hs Ht Hm) as (s' & Hrel & Hgood).
    erewrite eff_bind_pure by (unfold call; simpl; unfold on_consents, consent_Revoke; fold key; by rewrite Hm).
    rewrite (eff_bind_pure _ _ _ _ _ Hrel). exact Hgood.
  - erewrite eff_bind_fails by (by rewrite (eff_bind_pure _ _ _ _ _ Hfind)). by apply good_refl.
Qed.

Lemma RevokeAgentDelegation_good s clock t u a now : consents_ok s -> plain t ->
  good s (RevokeAgentDelegation true clock t u a now s).1.2.
Proof.
  intros Hs Ht. unfold RevokeAgentDelegation. set (key := consentKey t u a).
  assert (Hfind : call (W := consent_event) ConsentPortError (find_delegation t u a) s = (Ok (mc_Consent <$> delegations (st_consents s) !! key), s, []))
    by (unfold call; simpl; unfold on_consents; by rewrite same_store).
  rewrite (eff_bind_pure _ _ _ _ _ Hfind).
  destruct (delegations (st_consents s) !! key) as [mc|] eqn:Hm; cbn [fmap option_fmap option_map]; [|by apply good_refl].
  destruct (ok_rows s Hs true key mc Hm) as (_ & _ & _ & Hrev).
  destruct (is_some (con_RevokedAt (mc_Consent mc))) eqn:Hr.
  - erewrite eff_bind_pure by (unfold call; simpl; unfold on_consents, mem_RevokeAgentDelegation; fold key; by rewrite Hm, Hr).
    assert (Hst : con_State (mc_Consent mc) <> ConsentGranted) by (intros Hg; by rewrite (Hrev Hg) in Hr).
    unfold release_slot. rewrite bool_decide_false by done. simpl. rewrite same_store. by apply good_refl.
  - destruct (release_good s true t (u ++ "|" ++ a) mc clock Hs Ht Hm) as (s' & Hrel & Hgood).
    erewrite eff_bind_pure by (unfold call; simpl; unfold on_consents, mem_RevokeAgentDelegation; fold key; by rewrite Hm, Hr).
    rewrite (eff_bind_pure _ _ _ _ _ Hrel). exact Hgood.
Qed.

Lemma consent_step_good c s : consents_ok s -> plain (call_tenant c) -> good s (consent_step c s).
Proof.
  destruct c; simpl; intros Hs Ht; [by apply record_consent_good|by apply RevokeConsent_good|
    by apply GrantAgentDelegation_good|by apply RevokeAgentDelegation_good].
Qed.

(** C18. The quota of consents is exact: after any sequence of the four use cases
    that write rows through the quota (consents allowed and revoked, delegations to
    agents granted and revoked), the counter of a tenant is the number of its granted
    rows, which never grew past the larger of its first number and the limit. *)
Theorem consents_counted calls s tenantID :
  consents_ok s -> Forall (fun c => plain (call_tenant c)) calls -> plain tenantID ->
  let s' := consent_run calls s in
  used (st_quota s') tenantID ResourceConsents = granted_rows tenantID (st_consents s') /\
  (granted_rows tenantID (st_consents s')
   <= Z.max (granted_rows tenantID (st_consents s)) (limit_of (st_quota s) tenantID ResourceConsents))%Z.
Proof.
  intros Hs Hc Ht. assert (Hgood : good s (consent_run calls s)).
  { revert s Hs. induction Hc as [|c calls Hc Hcs IH]; intros s Hs; [by apply good_refl|].
    destruct (consent_step_good c s Hs Hc) as (H1 & H2 & H3). change (consent_run (c :: calls) s) with (consent_run calls (consent_step c s)).
    destruct (IH _ H1) as (H1' & H2' & H3'). split_and!; [done|by rewrite H2'|]. intros t. specialize (H3 t). specialize (H3' t).
    assert (Hlim : limit_of (st_quota (consent_step c s)) t ResourceConsents = limit_of (st_quota s) t ResourceConsents)
      by (unfold limit_of, quota_of; by rewrite H2).
    lia. }
  destruct Hgood as (Hok & _ & Hle). intros s'. split; [by apply (ok_count _ Hok)|].
  rewrite <- (ok_count _ Hok) by done. rewrite <- (ok_count s Hs) by done. apply Hle.
Qed.

(** ** The deletions *)

(** The consents of a client that was deleted are decremented whatever their
    state: a revoked one, whose slot was freed when it was revoked, is freed
    again, so that the counter no longer covers the rows that are left. *)
Lemma client_deletion_frees_twice :
  let s := consent_run [Allow "acme" "alice" "portal" "openid" [] 1%Z; Allow "acme" "alice" "wiki" "openid" [] 2%Z;
                        Withdraw "acme" "alice" "alice" "portal" 3%Z 3%Z]
             {| st_consents := NewConsentRepository; st_quota := NewQuotaRepository |} in
  let s' := delete_client_consents "acme" "portal" s in
  used (st_quota s) "acme" ResourceConsents = 1%Z /\ granted_rows "acme" (st_consents s) = 1%Z /\
  used (st_quota s') "acme" ResourceConsents = 0%Z /\ granted_rows "acme" (st_consents s') = 1%Z.
Proof. vm_compute. split_and!; reflexivity. Qed.

(** The consents of a user that is purged leave their slots taken. *)
Lemma purge_keeps_slots :
  let s := consent_run [Allow "acme" "alice" "portal" "openid" [] 1%Z]
             {| st_consents := NewConsentRepository; st_quota := NewQuotaRepository |} in
  let s' := purge_consents "alice" s in
  used (st_quota s) "acme" ResourceConsents = 1%Z /\
  used (st_quota s') "acme" ResourceConsents = 1%Z /\ granted_rows "acme" (st_consents s') = 0%Z.
Proof. vm_compute. split_and!; reflexivity. Qed.

(** ** Witness *)

Definition empty_consents : ConsentStore := {| st_consents := NewConsentRepository; st_quota := NewQuotaRepository |}.

Lemma empty_consents_ok : consents_ok empty_consents.
Proof.
  split; [|exact quota_ok_new|].
  - intros [] key mc; simpl; by rewrite lookup_empty.
  - intros t _. unfold used, usage_of, granted_rows, count_live. simpl. by rewrite lookup_empty.
Qed.

Definition demo_consent_calls : list consent_call :=
  [Allow "acme" "alice" "portal" "openid" [] 1%Z; Allow "acme" "alice" "portal" "openid email" [] 2%Z;
   Allow "acme" "bob" "portal" "openid" [] 3%Z; Withdraw "acme" "bob" "bob" "portal" 4%Z 4%Z;
   Withdraw "acme" "bob" "bob" "portal" 5%Z 5%Z].

Lemma acme_plain : plain "acme".
Proof. split; [done|]. simpl. intuition discriminate. Qed.

Lemma consents_counted_witness :
  granted_rows "acme" (st_consents (consent_run demo_consent_calls empty_consents)) = 1%Z /\
  used (st_quota (consent_run demo_consent_calls empty_consents)) "acme" ResourceConsents
  = granted_rows "acme" (st_consents (consent_run demo_consent_calls empty_consents)).
Proof.
  split; [vm_compute; reflexivity|].
  apply (consents_counted demo_consent_calls empty_consents "acme" empty_consents_ok
    ltac:(repeat constructor; apply acme_plain) acme_plain).
Defined.
