(* ===== verification/Introspect.v ===== *)
(** * OAuth2: introspection and revocation of issued tokens

    [backend/oauth2/internal/token/usecases/introspect_token.go] (RFC 7662) and
    the memory denylist (token/db_memory/access_token_denylist.go).  The
    repositories are only read, so that they are functions; one that is missing
    is [None].  [time.Now()] is an argument.

    The theorems: a token is revoked exactly when one of the conditions of the
    code holds; the hint of the request orders the search and does not decide
    it; and a delegation that its user withdrew makes every token of the agent
    for this user inactive, also after it is granted again. *)

From Stdlib Require Import Ascii String ZArith Lia.
From stdpp Require Import base strings list gmap.
From S2P Require Import Prelude Effects GoStrings Crypto Rules Policy TokenDomain ActorChain RichAuthorization.
From S2P Require Import RefreshStore RefreshUsecase Keyset Quota Approval Consents.

Local Open Scope string_scope.
Local Open Scope go_scope.

(** ** Data *)

(** [ports.IntrospectionResult]. *)
Record IntrospectionResult := {
  ir_Active : bool;
  ir_JTI : string;
  ir_ClientID : string;
  ir_Sub : string;
  ir_Scope : string;
  ir_Exp : Z;
  ir_Iat : Z;
  ir_Managed : bool;
  ir_SenderConstraint : option SenderConstraint;
  ir_Aud : list string;
  ir_Act : option act_claim;
  ir_MayAct : option act_claim;
  ir_AuthorizationDetails : list AuthorizationDetail;
  ir_PrincipalType : string;
  ir_AgentID : string;
  ir_AgentChain : list string;
  ir_ApprovalRequestID : string;
}.

(** [&IntrospectionResult{Active: active}]. *)
Definition zero_introspection (active : bool) : IntrospectionResult :=
  {| ir_Active := active; ir_JTI := ""; ir_ClientID := ""; ir_Sub := ""; ir_Scope := ""; ir_Exp := 0%Z; ir_Iat := 0%Z;
     ir_Managed := false; ir_SenderConstraint := None; ir_Aud := []; ir_Act := None; ir_MayAct := None;
     ir_AuthorizationDetails := []; ir_PrincipalType := ""; ir_AgentID := ""; ir_AgentChain := [];
     ir_ApprovalRequestID := "" |}.

Record IntrospectInput := { ii_Token : string; ii_TokenTypeHint : string }.

Record IntrospectionResponse := {
  resp_Active : bool;
  resp_Scope : string;
  resp_ClientID : string;
  resp_Sub : string;
  resp_Aud : list string;
  resp_TokenType : string;
  resp_Exp : Z;
  resp_Iat : Z;
  resp_JTI : string;
  resp_CNF : option (gmap string string);
  resp_Act : option act_claim;
  resp_AuthorizationDetails : list AuthorizationDetail;
  resp_DelegationMode : DelegationMode;
}.

Definition inactive_response : IntrospectionResponse :=
  {| resp_Active := false; resp_Scope := ""; resp_ClientID := ""; resp_Sub := ""; resp_Aud := []; resp_TokenType := "";
     resp_Exp := 0%Z; resp_Iat := 0%Z; resp_JTI := ""; resp_CNF := None; resp_Act := None;
     resp_AuthorizationDetails := []; resp_DelegationMode := "" |}.

(** [agentports.AgentRepository], the two searches that the code uses. *)
Record AgentRepository (E : Type) := {
  agent_FindByID : string -> string -> result E (option Agent);
  agent_FindByClientID : string -> string -> result E (option Agent);
}.
Arguments agent_FindByID {E} a.
Arguments agent_FindByClientID {E} a.

(** The port's error, or the nil dereference when an introspector returns
    neither a result nor an error. *)
Inductive introspect_failure (E : Type) := IntrospectPort (e : E) | NilDereference.
Arguments IntrospectPort {E} e.
Arguments NilDereference {E}.

(** ** The memory denylist *)

Definition AccessTokenDenylist := gmap string Time.

Definition denylist_Add (jti : string) (expiresAt : Time) (d : AccessTokenDenylist) : AccessTokenDenylist := <[jti := expiresAt]> d.

Definition denylist_IsRevoked (jti : string) (clock : Time) (d : AccessTokenDenylist) : bool * AccessTokenDenylist :=
  match d !! jti with
  | Some expiresAt => if After clock expiresAt then (false, delete jti d) else (true, d)
  | None => (false, d)
  end.

(** [time.Unix(sec, 0)] and [Time.Truncate(time.Second)]. *)
Definition from_unix (sec : Z) : Time := ((sec + 62135596800) * Second)%Z.
Definition truncate_second (t : Time) : Time := (t - t mod Second)%Z.

(** ** The use case *)

Section usecase.
Context {E C U : Type} `{UserView U}.

Record IntrospectDeps := {
  id_Introspector : string -> result E (option IntrospectionResult);
  id_RefreshStore : string -> result E (option RefreshTokenRecord);
  id_Denylist : option (string -> result E bool);
  id_AgentRepo : option (AgentRepository E);
  id_RevocationEpochs : option (string -> string -> result E (option Time));
  id_Consents : option (string -> string -> string -> result E (option Consent));
  id_Clients : option (string -> string -> result E (option C));
  id_Users : option (string -> result E (option U));
  id_UserEpochs : option (string -> string -> result E (option Time));
}.

Definition isUserSubject (clients : option (string -> string -> result E (option C))) (tenantID sub : string) : result E bool :=
  if sub =? "" then Ok false
  else match clients with
  | None => Ok true
  | Some findByID => let? client := findByID tenantID sub in Ok (negb (is_some client))
  end.

Definition epochSupersedes (d : IntrospectDeps) (tenantID agentID : string) (issuedAt : Time) : result E bool :=
  match id_RevocationEpochs d with
  | None => Ok false
  | Some findByAgent =>
      let? epoch := findByAgent tenantID agentID in
      Ok (match epoch with Some e => Supersedes e issuedAt | None => false end)
  end.

Definition userRevoked (d : IntrospectDeps) (tenantID sub : string) (issuedAt : Time) : result E bool :=
  match id_Users d, id_Clients d with
  | Some findBySub, Some _ =>
      let? isUser := isUserSubject (id_Clients d) tenantID sub in
      if negb isUser then Ok false
      else
        let? user := findBySub sub in
        match user with
        | None => Ok true
        | Some user =>
            if (user_TenantID user <>? tenantID) || negb (user_IsActive user) then Ok true
            else match id_UserEpochs d with
            | None => Ok false
            | Some findByUser =>
                let? epoch := findByUser tenantID sub in
                Ok (match epoch with Some e => Supersedes e issuedAt | None => false end)
            end
        end
  | _, _ => Ok false
  end.

(** A loop that returns at the first item found. *)
Fixpoint any_of {A} (f : A -> result E bool) (l : list A) : result E bool :=
  match l with
  | [] => Ok false
  | x :: l' => let? found := f x in if found then Ok true else any_of f l'
  end.

Definition grant_withdrawn (grant : option Consent) (scopes : list string) (clock issuedAt : Time) : bool :=
  match grant with
  | None => true
  | Some g => negb (PermitsDelegation g scopes clock) || Before issuedAt (truncate_second (con_GrantedAt g))
  end.

Definition delegationWithdrawn (d : IntrospectDeps) (tenantID : string) (clock : Time) (r : IntrospectionResult) (issuedAt : Time) :
    result E bool :=
  let agents := MergeAgentChain [[ir_AgentID r]; ir_AgentChain r] in
  if match ir_Act r with Some a => (act_len a =? 0)%nat | None => true end || (agents =? []) then Ok false
  else
    let? user := isUserSubject (id_Clients d) tenantID (ir_Sub r) in
    if negb user then Ok false
    else match id_Consents d with
    | None => Ok true
    | Some find =>
        any_of (fun agentID =>
          let? grant := find tenantID (ir_Sub r) agentID in
          Ok (grant_withdrawn grant (Fields (ir_Scope r)) clock issuedAt)) agents
    end.

Definition agent_stopped (d : IntrospectDeps) (repo : AgentRepository E) (tenantID : string) (issuedAt : Time) (agentID : string) :
    result E bool :=
  let? agent := agent_FindByID repo tenantID agentID in
  match agent with
  | None => Ok true
  | Some agent => if negb (agent_IsActive agent) then Ok true else epochSupersedes d tenantID agentID issuedAt
  end.

(** The part of [AccessTokenIsRevoked] that is about agents. *)
Definition agents_revoked (d : IntrospectDeps) (repo : AgentRepository E) (tenantID : string) (clock : Time)
    (r : IntrospectionResult) (issuedAt : Time) : result E bool :=
  let? stopped := any_of (agent_stopped d repo tenantID issuedAt) (MergeAgentChain [[ir_AgentID r]; ir_AgentChain r]) in
  if stopped then Ok true
  else
    let? withdrawn := delegationWithdrawn d tenantID clock r issuedAt in
    if withdrawn then Ok true
    else if ir_ClientID r =? "" then Ok false
    else
      let? bound := agent_FindByClientID repo tenantID (ir_ClientID r) in
      match bound with
      | None => Ok false
      | Some bound => epochSupersedes d tenantID (agent_ID bound) issuedAt
      end.

Definition AccessTokenIsRevoked (d : IntrospectDeps) (tenantID : string) (clock : Time) (r : option IntrospectionResult) :
    result E bool :=
  match r with
  | None => Ok false
  | Some r =>
      if negb (ir_Active r) then Ok false
      else
        let? denied := (if ir_JTI r <>? "" then
                          match id_Denylist d with Some isRevoked => isRevoked (ir_JTI r) | None => Ok false end
                        else Ok false) in
        if denied then Ok true
        else
          let issuedAt := from_unix (ir_Iat r) in
          let? revoked := userRevoked d tenantID (ir_Sub r) issuedAt in
          if revoked then Ok true
          else match id_AgentRepo d with
          | None => Ok false
          | Some repo => agents_revoked d repo tenantID clock r issuedAt
          end
  end.

(** [RevocationCheckingIntrospector.IntrospectAccessToken]. *)
Definition revocation_checking (d : IntrospectDeps) (tenantID : string) (clock : Time) (token : string) :
    result E (option IntrospectionResult) :=
  let? r := id_Introspector d token in
  match r with
  | None => Ok None
  | Some r' =>
      if negb (ir_Active r') then Ok (Some r')
      else
        let? revoked := AccessTokenIsRevoked d tenantID clock (Some r') in
        Ok (Some (if revoked then zero_introspection false else r'))
  end.

Definition cnf_of (sc : option SenderConstraint) : option (gmap string string) :=
  (fun c =>
     let m := if sender_JKT c <>? "" then <["jkt" := sender_JKT c]> ∅ else ∅ in
     if sender_X5TS256 c <>? "" then <["x5t#S256" := sender_X5TS256 c]> m else m) <$> sc.

(** [None] when the store has no record of the token. *)
Definition introspectRefreshToken (d : IntrospectDeps) (tenantID token : string) (now : Time) :
    result (introspect_failure E) (option IntrospectionResponse) :=
  match id_RefreshStore d (HashRefreshToken token) with
  | Err e => Err (IntrospectPort e)
  | Ok None => Ok None
  | Ok (Some rec) =>
      if rt_TenantID rec <>? tenantID then Ok (Some inactive_response)
      else if negb (negb (rt_Revoked rec) && negb (rt_Rotated rec) && Before now (rt_AbsoluteExpiresAt rec)) then
        Ok (Some inactive_response)
      else
        Ok (Some {| resp_Active := true; resp_Scope := Join (rt_Scopes rec) " "; resp_ClientID := rt_ClientID rec;
              resp_Sub := rt_UserID rec; resp_Aud := []; resp_TokenType := ""; resp_Exp := Unix (rt_ExpiresAt rec);
              resp_Iat := Unix (rt_IssuedAt rec); resp_JTI := rt_ID rec; resp_CNF := cnf_of (rt_SenderConstraint rec);
              resp_Act := None; resp_AuthorizationDetails := [];
              resp_DelegationMode := DeriveDelegationMode {| ds_Sub := rt_UserID rec; ds_ClientID := rt_ClientID rec;
                ds_PrincipalType := ""; ds_Act := None |} |})
  end.

Definition access_response (r : IntrospectionResult) : IntrospectionResponse :=
  {| resp_Active := ir_Active r; resp_Scope := ir_Scope r; resp_ClientID := ir_ClientID r; resp_Sub := ir_Sub r;
     resp_Aud := ir_Aud r; resp_TokenType := if ir_Active r then PresentationTokenType (ir_SenderConstraint r) else "";
     resp_Exp := ir_Exp r; resp_Iat := ir_Iat r; resp_JTI := ir_JTI r; resp_CNF := cnf_of (ir_SenderConstraint r);
     resp_Act := ir_Act r; resp_AuthorizationDetails := ir_AuthorizationDetails r;
     resp_DelegationMode :=
       if ir_Active r then DeriveDelegationMode {| ds_Sub := ir_Sub r; ds_ClientID := ir_ClientID r;
                             ds_PrincipalType := ir_PrincipalType r; ds_Act := ir_Act r |}
       else "" |}.

Definition introspectAccessToken (d : IntrospectDeps) (tenantID : string) (clock : Time) (token : string) :
    result (introspect_failure E) IntrospectionResponse :=
  match id_Introspector d token with
  | Err e => Err (IntrospectPort e)
  | Ok r =>
      match AccessTokenIsRevoked d tenantID clock r with
      | Err e => Err (IntrospectPort e)
      | Ok true => Ok inactive_response
      | Ok false => match r with Some r => Ok (access_response r) | None => Err NilDereference end
      end
  end.

(** [now] is the argument when it is not zero. *)
Definition IntrospectToken (d : IntrospectDeps) (tenantID : string) (clock : Time) (in_ : IntrospectInput) (now : Time) :
    result (introspect_failure E) IntrospectionResponse :=
  let now := if IsZero now then clock else now in
  if ii_TokenTypeHint in_ =? "access_token" then
    let? resp := introspectAccessToken d tenantID clock (ii_Token in_) in
    if resp_Active resp then Ok resp
    else
      let? refresh := introspectRefreshToken d tenantID (ii_Token in_) now in
      Ok (match refresh with Some refresh => refresh | None => resp end)
  else
    let? refresh := introspectRefreshToken d tenantID (ii_Token in_) now in
    match refresh with
    | Some refresh => Ok refresh
    | None => introspectAccessToken d tenantID clock (ii_Token in_)
    end.
End usecase.

Arguments IntrospectDeps : clear implicits.

(** ** When a token stands *)

Section spec.
Context {E C U : Type} `{UserView U} (d : IntrospectDeps E C U) (tenantID : string) (clock : Time) (r : IntrospectionResult).

Definition issued : Time := from_unix (ir_Iat r).
Definition chain : list string := MergeAgentChain [[ir_AgentID r]; ir_AgentChain r].

Definition not_superseded (epoch : option Time) : Prop := match epoch with Some e => (e <= issued)%Z | None => True end.

Definition epoch_ok (agentID : string) : Prop :=
  match id_RevocationEpochs d with
  | None => True
  | Some find => exists epoch, find tenantID agentID = Ok epoch /\ not_superseded epoch
  end.

Definition denylist_ok : Prop :=
  ir_JTI r = "" \/ match id_Denylist d with None => True | Some isRevoked => isRevoked (ir_JTI r) = Ok false end.

(** The subject is a client or nobody. *)
Definition no_user (find : string -> string -> result E (option C)) : Prop :=
  ir_Sub r = "" \/ exists c, find tenantID (ir_Sub r) = Ok (Some c).

Definition user_ok : Prop :=
  match id_Users d, id_Clients d with
  | Some findBySub, Some findClient =>
      no_user findClient \/
      (ir_Sub r <> "" /\ findClient tenantID (ir_Sub r) = Ok None /\
       exists user, findBySub (ir_Sub r) = Ok (Some user) /\ user_TenantID user = tenantID /\ user_IsActive user = true /\
         match id_UserEpochs d with
         | None => True
         | Some find => exists epoch, find tenantID (ir_Sub r) = Ok epoch /\ not_superseded epoch
         end)
  | _, _ => True
  end.

Definition agent_ok (repo : AgentRepository E) (agentID : string) : Prop :=
  exists agent, agent_FindByID repo tenantID agentID = Ok (Some agent) /\ agent_IsActive agent = true /\ epoch_ok agentID.

(** The user's grant allows what the token carries, since before it was issued. *)
Definition grant_ok (g : Consent) : Prop :=
  con_State g = ConsentGranted /\ (clock < con_ExpiresAt g)%Z /\ (forall sc, sc ∈ Fields (ir_Scope r) -> sc ∈ con_Scopes g) /\
  (truncate_second (con_GrantedAt g) <= issued)%Z.

Definition delegates : Prop := (exists a, ir_Act r = Some a /\ act_len a <> 0%nat) /\ chain <> [].

Definition delegation_ok : Prop :=
  ~ delegates \/
  match id_Clients d with Some find => no_user find | None => ir_Sub r = "" end \/
  (match id_Clients d with Some find => find tenantID (ir_Sub r) = Ok None | None => True end /\
   exists find, id_Consents d = Some find /\
     forall agentID, agentID ∈ chain -> exists g, find tenantID (ir_Sub r) agentID = Ok (Some g) /\ grant_ok g).

Definition bound_ok (repo : AgentRepository E) : Prop :=
  ir_ClientID r = "" \/ agent_FindByClientID repo tenantID (ir_ClientID r) = Ok None \/
  exists agent, agent_FindByClientID repo tenantID (ir_ClientID r) = Ok (Some agent) /\ epoch_ok (agent_ID agent).

Definition agents_ok : Prop :=
  match id_AgentRepo d with
  | None => True
  | Some repo => (forall agentID, agentID ∈ chain -> agent_ok repo agentID) /\ delegation_ok /\ bound_ok repo
  end.

Definition stands : Prop := denylist_ok /\ user_ok /\ agents_ok.

(** *** Each check *)

Lemma any_of_false {A} (f : A -> result E bool) l : any_of f l = Ok false <-> forall x, x ∈ l -> f x = Ok false.
Proof.
  induction l as [|x l IH]; simpl.
  - split; [intros _ x Hx; by apply elem_of_nil in Hx|done].
  - rewrite res_bind_Ok. split.
    + intros ([] & Hx & Hl); [done|]. intros y [-> |Hy]%elem_of_cons; [done|]. by apply IH.
    + intros Hall. exists false. split; [apply Hall; left|]. apply IH. intros y Hy. apply Hall. by right.
Qed.

Lemma epoch_match_false (epoch : option Time) :
  match epoch with Some e => Supersedes e issued | None => false end = false <-> not_superseded epoch.
Proof. unfold not_superseded, Supersedes, Before. destruct epoch; [|done]. by rewrite Z.ltb_ge. Qed.

Lemma epochSupersedes_false agentID : epochSupersedes d tenantID agentID issued = Ok false <-> epoch_ok agentID.
Proof.
  unfold epochSupersedes, epoch_ok. destruct (id_RevocationEpochs d) as [find|]; [|done].
  rewrite res_bind_Ok. setoid_rewrite <- epoch_match_false. split; intros (e & He & Hs); exists e; split; [done|congruence|done|congruence].
Qed.

Lemma agent_stopped_false repo agentID : agent_stopped d repo tenantID issued agentID = Ok false <-> agent_ok repo agentID.
Proof.
  unfold agent_stopped, agent_ok. rewrite res_bind_Ok. split.
  - intros ([agent|] & Hf & Ha); [|done]. exists agent. destruct (agent_IsActive agent); [|done].
    split_and!; [done|done|]. by apply epochSupersedes_false.
  - intros (agent & Hf & Ha & He). exists (Some agent). split; [done|]. rewrite Ha. by apply epochSupersedes_false.
Qed.

Lemma isUserSubject_false (clients : option (string -> string -> result E (option C))) : isUserSubject clients tenantID (ir_Sub r) = Ok false <->
  match clients with Some find => no_user find | None => ir_Sub r = "" end.
Proof.
  unfold isUserSubject, no_user. destruct (decide (ir_Sub r = "")) as [-> |Hne].
  - rewrite bool_decide_true by done. destruct clients; split; auto.
  - rewrite bool_decide_false by done. destruct clients as [find|]; [|split; [done|naive_solver]].
    rewrite res_bind_Ok. split.
    + intros ([c|] & Hf & Hb); [|done]. right. by exists c.
    + intros [?|[c Hf]]; [done|]. by exists (Some c).
Qed.

Lemma isUserSubject_true (clients : option (string -> string -> result E (option C))) : isUserSubject clients tenantID (ir_Sub r) = Ok true <->
  ir_Sub r <> "" /\ match clients with Some find => find tenantID (ir_Sub r) = Ok None | None => True end.
Proof.
  unfold isUserSubject. destruct (decide (ir_Sub r = "")) as [-> |Hne].
  - rewrite bool_decide_true by done. split; [done|naive_solver].
  - rewrite bool_decide_false by done. destruct clients as [find|]; [|by split].
    rewrite res_bind_Ok. split.
    + intros ([c|] & Hf & Hb); [done|]. by split.
    + intros [_ Hf]. by exists None.
Qed.

Lemma userRevoked_false : userRevoked d tenantID (ir_Sub r) issued = Ok false <-> user_ok.
Proof.
  unfold userRevoked, user_ok. destruct (id_Users d) as [findBySub|]; [|done]. destruct (id_Clients d) as [findClient|] eqn:Hc; [|done].
  rewrite res_bind_Ok. split.
  - intros ([] & Hu & Hrest); simpl in Hrest.
    + right. apply isUserSubject_true in Hu as [Hne Hf]. split_and!; [done|done|].
      apply res_bind_Ok in Hrest as ([user|] & Hu & Hrest); [|done]. exists user.
      destruct ((user_TenantID user <>? tenantID) || negb (user_IsActive user)) eqn:Hbad; [done|].
      apply orb_false_iff in Hbad as [H1 H2]. go_bool. split_and!; [done|done|done|].
      destruct (id_UserEpochs d) as [find|]; [|done]. apply res_bind_Ok in Hrest as (e & He & Hs). exists e.
      split; [done|]. apply epoch_match_false. congruence.
    + left. by apply isUserSubject_false in Hu.
  - intros [Hn|(Hne & Hf & user & Hu & Ht & Ha & He)].
    + exists false. split; [by apply isUserSubject_false|done].
    + exists true. split; [by apply isUserSubject_true|]. simpl. rewrite Hu. simpl. rewrite Ht, Ha, bool_decide_true by done. simpl.
      destruct (id_UserEpochs d) as [find|]; [|done]. destruct He as (e & -> & He). simpl. f_equal. by apply epoch_match_false.
Qed.

Lemma grant_withdrawn_false g : grant_withdrawn (Some g) (Fields (ir_Scope r)) clock issued = false <-> grant_ok g.
Proof.
  unfold grant_withdrawn, grant_ok, PermitsDelegation, Before. rewrite orb_false_iff, negb_false_iff, Z.ltb_ge.
  destruct (con_State g <>? ConsentGranted) eqn:Hs; simpl; go_bool.
  - split; [naive_solver|]. intros (? & _). done.
  - destruct (clock <? con_ExpiresAt g) eqn:Hx; simpl.
    + rewrite forallb_forall. setoid_rewrite contains_true. setoid_rewrite <- list_elem_of_In. split; intros Hall; split_and!; try tauto; lia.
    + split; [naive_solver|]. intros (_ & ? & _). lia.
Qed.

Lemma delegationWithdrawn_false : delegationWithdrawn d tenantID clock r issued = Ok false <-> delegation_ok.
Proof.
  unfold delegationWithdrawn, delegation_ok. fold chain.
  destruct (match ir_Act r with Some a => (act_len a =? 0)%nat | None => true end || (chain =? [])) eqn:Hd.
  - split; [|done]. intros _. left. intros [(a & Ha & Hl) Hc]. rewrite Ha in Hd. apply orb_true_iff in Hd as [Hd|Hd].
    + by apply Nat.eqb_eq in Hd.
    + by go_bool.
  - apply orb_false_iff in Hd as [Ha Hc]. go_bool. assert (Hdel : delegates).
    { split; [|done]. destruct (ir_Act r) as [a|]; [|done]. exists a. split; [done|]. by apply Nat.eqb_neq. }
    rewrite res_bind_Ok. split.
    + intros ([] & Hu & Hrest); simpl in Hrest.
      * right; right. apply isUserSubject_true in Hu as [Hne Hf]. split; [done|].
        destruct (id_Consents d) as [find|]; [|done]. exists find. split; [done|]. intros agentID Hin.
        rewrite any_of_false in Hrest. specialize (Hrest agentID Hin). apply res_bind_Ok in Hrest as ([g|] & Hg & Hw); [|done].
        exists g. split; [done|]. apply grant_withdrawn_false. congruence.
      * right; left. by apply isUserSubject_false in Hu.
    + intros [Hn|[Hn|(Hf & find & Hc' & Hall)]]; [done| |].
      * exists false. split; [by apply isUserSubject_false|done].
      * destruct (decide (ir_Sub r = "")) as [He|Hne].
        -- exists false. split; [|done]. apply isUserSubject_false. destruct (id_Clients d); [by left|done].
        -- exists true. split; [by apply isUserSubject_true|]. simpl. rewrite Hc'. apply any_of_false. intros agentID Hin.
           destruct (Hall agentID Hin) as (g & -> & Hg). simpl. f_equal. by apply grant_withdrawn_false.
Qed.

Lemma agents_revoked_false repo :
  agents_revoked d repo tenantID clock r issued = Ok false <->
  (forall agentID, agentID ∈ chain -> agent_ok repo agentID) /\ delegation_ok /\ bound_ok repo.
Proof.
  unfold agents_revoked. fold chain. setoid_rewrite <- agent_stopped_false. rewrite <- any_of_false, <- delegationWithdrawn_false.
  rewrite res_bind_Ok. unfold bound_ok. setoid_rewrite <- epochSupersedes_false. split.
  - intros ([] & Ha & Hrest); [done|]. apply res_bind_Ok in Hrest as ([] & Hw & Hrest); [done|]. split_and!; [done|done|].
    destruct (ir_ClientID r =? "") eqn:Hc; go_bool; [by left|]. right.
    apply res_bind_Ok in Hrest as ([agent|] & Hf & Hrest); [right; by exists agent|by left].
  - intros (Ha & Hw & Hb). exists false. split; [done|]. rewrite Hw. simpl. destruct (decide (ir_ClientID r = "")) as [-> |Hne]; [done|].
    rewrite bool_decide_false by done. destruct Hb as [?|[-> |(agent & -> & He)]]; [done|done|exact He].
Qed.

(** Revocation, exactly and on the safe side: a token whose signature and
    lifetime are good is not revoked if and only if every read succeeded and
    every condition holds - it is not denylisted, its user is active and not
    past an epoch, every agent of its chain exists, is active and not past an
    epoch, the user's grant to every one of them still covers it since before it
    was issued, and the agent bound to its client is not past an epoch. *)
Theorem AccessTokenIsRevoked_exact :
  AccessTokenIsRevoked d tenantID clock (Some r) = Ok false <-> ir_Active r = false \/ (ir_Active r = true /\ stands).
Proof.
  unfold AccessTokenIsRevoked, stands. destruct (ir_Active r) eqn:Hact; simpl; [|split; auto].
  fold issued. assert (Hden : (if ir_JTI r <>? "" then match id_Denylist d with Some isRevoked => isRevoked (ir_JTI r) | None => Ok false end
      else Ok false) = Ok false <-> denylist_ok).
  { unfold denylist_ok. destruct (decide (ir_JTI r = "")) as [Hj|Hne].
    - rewrite bool_decide_true by done. simpl. split; [by left|done].
    - rewrite bool_decide_false by done. simpl. destruct (id_Denylist d); [|split; [by right|done]].
      split; [by right|]. by intros [?|?]. }
  rewrite <- Hden, <- userRevoked_false, res_bind_Ok. unfold agents_ok. split.
  - intros ([] & Hd & Hrest); [done|]. apply res_bind_Ok in Hrest as ([] & Hu & Hrest); [done|]. right. split_and!; [done|done|done|].
    destruct (id_AgentRepo d) as [repo|]; [|done]. by apply agents_revoked_false.
  - intros [?|(_ & Hd & Hu & Ha)]; [done|]. exists false. split; [done|]. rewrite Hu. simpl.
    destruct (id_AgentRepo d) as [repo|]; [|done]. by apply agents_revoked_false.
Qed.
End spec.

(** The hint only orders the search: when both kinds of token can be looked
    up and the string is not both a stored refresh token and an active access
    token, every hint gives the same answer, the refresh token's if there is
    one. *)
Theorem IntrospectToken_hint {E C U} `{UserView U} (d : IntrospectDeps E C U) tenantID clock in_ now refresh access :
  introspectRefreshToken d tenantID (ii_Token in_) (if IsZero now then clock else now) = Ok refresh ->
  introspectAccessToken d tenantID clock (ii_Token in_) = Ok access ->
  (is_Some refresh -> resp_Active access = false) ->
  IntrospectToken d tenantID clock in_ now = Ok (default access refresh).
Proof.
  intros Hr Ha Hex. unfold IntrospectToken. rewrite Hr, Ha. simpl. destruct (ii_TokenTypeHint in_ =? "access_token"); [|by destruct refresh].
  destruct refresh as [x|]; simpl; [|by destruct (resp_Active access)]. by rewrite Hex.
Qed.

(** ** A withdrawn delegation *)

(** The consents that introspection reads are those of the memory repository. *)
Definition reads_consents {E C U} (d : IntrospectDeps E C U) (s : ConsentRepository) : Prop :=
  id_Consents d = Some (fun t sub a => Ok (FindAgentDelegation s t sub a)).

Lemma delegation_not_ok {E C U} (d : IntrospectDeps E C U) tenantID clock r s agentID :
  reads_consents d s -> delegates r -> agentID ∈ chain r -> ir_Sub r <> "" ->
  match id_Clients d with Some find => find tenantID (ir_Sub r) = Ok None | None => True end ->
  (forall g, FindAgentDelegation s tenantID (ir_Sub r) agentID = Some g -> ~ grant_ok clock r g) ->
  ~ delegation_ok d tenantID clock r.
Proof.
  intros Hs Hdel Hin Hsub Hc Hg [Hn|[Hn|(_ & find & Hf & Hall)]]; [done| |].
  - destruct (id_Clients d) as [f|]; [|done]. destruct Hn as [?|[c Hn]]; [done|congruence].
  - rewrite Hs in Hf. injection Hf as <-. destruct (Hall agentID Hin) as (g & Hfind & Hok). injection Hfind as Hfind. by eapply Hg.
Qed.

(** What the repository holds after a revocation, and after a new grant. *)
Lemma revoked_grant s clock tenantID sub agentID now w s' : consents_ok s -> 
  RevokeAgentDelegation true clock tenantID sub agentID now s = (Ok tt, s', w) ->
  forall g, FindAgentDelegation (st_consents s') tenantID sub agentID = Some g -> con_State g = ConsentRevoked.
Proof.
  intros Hs Hrun g Hg. unfold RevokeAgentDelegation in Hrun. set (key := consentKey tenantID sub agentID) in *.
  rewrite (eff_bind_pure _ _ s (mc_Consent <$> delegations (st_consents s) !! key) s) in Hrun
    by (unfold call; simpl; unfold on_consents; by rewrite same_store).
  destruct (delegations (st_consents s) !! key) as [mc|] eqn:Hm; cbn [fmap option_fmap option_map] in Hrun; [|done].
  destruct (ok_rows s Hs true key mc Hm) as (_ & _ & Hst & Hrev).
  set (r1 := mem_RevokeAgentDelegation tenantID sub agentID clock (st_consents s)).
  rewrite (eff_bind_pure _ _ _ tt {| st_consents := r1; st_quota := st_quota s |}) in Hrun by done.
  apply eff_bind_Ok in Hrun as ([] & s1 & w1 & w2 & Hrel & Hemit & _).
  assert (Hsame : st_consents s1 = r1).
  { unfold release_slot in Hrel. destruct (true && _); [|unfold eff_ret in Hrel; by simplify_eq].
    unfold call in Hrel. simpl in Hrel. unfold on_quota in Hrel. simpl in Hrel.
    destruct (Decrement _ _ _ _) as [[[]|e] q]; by simplify_eq. }
  assert (s1 = s') as -> by (unfold emit in Hemit; congruence). unfold FindAgentDelegation in Hg. rewrite Hsame in Hg. fold key in Hg.
  unfold r1, mem_RevokeAgentDelegation in Hg. fold key in Hg. rewrite Hm in Hg.
  destruct (is_some (con_RevokedAt (mc_Consent mc))) eqn:Hr.
  - rewrite Hm in Hg. injection Hg as <-. destruct Hst as [Hgr|]; [|done]. by rewrite (Hrev Hgr) in Hr.
  - simpl in Hg. rewrite lookup_insert_eq in Hg. by injection Hg as <-.
Qed.

(** C19. Withdrawing a delegation takes effect on the tokens that are out: once
    the user revoked the grant to an agent, every token that this agent's chain
    carries for the user is revoked, and granting again does not bring back the
    tokens issued before the second of the new grant. *)
Theorem withdrawal_reaches_tokens {E C U} `{UserView U} (d : IntrospectDeps E C U) (s s' : ConsentStore) tenantID agentID clock
    (now at_ : Time) w (r : IntrospectionResult) (repo : AgentRepository E) :
  consents_ok s -> RevokeAgentDelegation true at_ tenantID (ir_Sub r) agentID now s = (Ok tt, s', w) ->
  ir_Active r = true -> id_AgentRepo d = Some repo -> delegates r -> agentID ∈ chain r -> ir_Sub r <> "" ->
  match id_Clients d with Some find => find tenantID (ir_Sub r) = Ok None | None => True end ->
  (reads_consents d (st_consents s') -> AccessTokenIsRevoked d tenantID clock (Some r) <> Ok false) /\
  (forall agents in_ regranted_at s2 c w2,
     GrantAgentDelegation true agents tenantID in_ regranted_at s' = (Ok c, s2, w2) -> ag_Sub in_ = ir_Sub r -> ag_AgentID in_ = agentID ->
     (issued r < truncate_second regranted_at)%Z ->
     reads_consents d (st_consents s2) -> AccessTokenIsRevoked d tenantID clock (Some r) <> Ok false).
Proof.
  intros Hs Hrun Hact Hrepo Hdel Hin Hsub Hcl.
  assert (Hno : forall s0, reads_consents d s0 ->
    (forall g, FindAgentDelegation s0 tenantID (ir_Sub r) agentID = Some g -> ~ grant_ok clock r g) ->
    AccessTokenIsRevoked d tenantID clock (Some r) <> Ok false).
  { intros s0 Hr Hg Hf. apply AccessTokenIsRevoked_exact in Hf as [?|[_ (_ & _ & Hag)]]; [congruence|].
    unfold agents_ok in Hag. rewrite Hrepo in Hag. destruct Hag as (_ & Hdo & _). revert Hdo. by apply (delegation_not_ok d _ _ _ s0 agentID). }
  split.
  - intros Hr. apply (Hno (st_consents s')); [done|]. intros g Hg (Hst & _).
    rewrite (revoked_grant s at_ tenantID (ir_Sub r) agentID now w s' Hs Hrun g Hg) in Hst. done.
  - intros agents in_ t s2 c w2 Hgrant Hs1 Ha1 Hlt Hr. apply (Hno (st_consents s2)); [done|]. intros g Hg (_ & _ & _ & Hle).
    enough (con_GrantedAt g = t) as Heq by (rewrite Heq in Hle; lia).
    unfold GrantAgentDelegation in Hgrant. destruct (_ || _ || _); [done|]. destruct agents as [findByID|]; [|done].
    apply eff_bind_Ok in Hgrant as (a & sa & ? & ? & Hlift & Hgrant & _). destruct (match a with Some _ => _ | None => true end); [done|].
    apply eff_bind_Ok in Hgrant as (ex & sb & ? & ? & _ & Hgrant & _).
    apply eff_bind_Ok in Hgrant as ([] & sc & ? & ? & _ & Hgrant & _).
    apply eff_bind_Ok in Hgrant as ([] & sd & ? & ? & Hsave & Hgrant & _).
    apply eff_bind_Ok in Hgrant as ([] & se & ? & ? & Hemit & Hgrant & _).
    unfold eff_ret in Hgrant. unfold emit in Hemit. unfold call in Hsave. simpl in Hsave. simplify_eq.
    unfold FindAgentDelegation in Hg. simpl in Hg. rewrite Hs1, lookup_insert_eq in Hg. by injection Hg as <-.
Qed.

(** ** Witnesses *)

#[local] Instance demo_introspect_user : UserView string :=
  {| user_ID u := u; user_TenantID _ := "acme"; user_IsActive _ := true |}.

Definition demo_token_at : Time := from_unix 1000.

Definition demo_delegated : ConsentStore :=
  (GrantAgentDelegation true (Some (fun _ _ => Ok (Some demo_agent))) "acme"
     {| ag_Sub := "alice"; ag_AgentID := "bot"; ag_Scopes := ["mail"]; ag_ExpiresAt := None |} demo_token_at empty_consents).1.2.

Definition demo_undelegated : result (consent_failure quota_error) unit * ConsentStore * list consent_event :=
  RevokeAgentDelegation true (from_unix 1005) "acme" "alice" "bot" (from_unix 1005) demo_delegated.

Definition demo_token : IntrospectionResult :=
  {| ir_Active := true; ir_JTI := "jti"; ir_ClientID := "gateway"; ir_Sub := "alice"; ir_Scope := "mail"; ir_Exp := 2000%Z;
     ir_Iat := 1001%Z; ir_Managed := false; ir_SenderConstraint := None; ir_Aud := ["https://mail"];
     ir_Act := Some (actor "gateway" None); ir_MayAct := None; ir_AuthorizationDetails := []; ir_PrincipalType := "";
     ir_AgentID := ""; ir_AgentChain := ["bot"]; ir_ApprovalRequestID := "" |}.

Definition demo_repo : AgentRepository quota_error :=
  {| agent_FindByID _ _ := Ok (Some demo_agent); agent_FindByClientID _ _ := Ok None |}.

Definition demo_introspect (s : ConsentStore) : IntrospectDeps quota_error string string :=
  {| id_Introspector _ := Ok (Some demo_token); id_RefreshStore _ := Ok None; id_Denylist := None; id_AgentRepo := Some demo_repo;
     id_RevocationEpochs := None; id_Consents := Some (fun t sub a => Ok (FindAgentDelegation (st_consents s) t sub a));
     id_Clients := Some (fun _ _ => Ok None); id_Users := None; id_UserEpochs := None |}.

Lemma demo_delegated_ok : consents_ok demo_delegated.
Proof. apply GrantAgentDelegation_good; [apply empty_consents_ok|apply acme_plain]. Qed.

Lemma demo_undelegated_run : demo_undelegated = (Ok tt, demo_undelegated.1.2, demo_undelegated.2).
Proof. vm_compute. reflexivity. Qed.

(** Before the withdrawal the token stands, after it does not. *)
Lemma withdrawal_reaches_tokens_witness :
  AccessTokenIsRevoked (demo_introspect demo_delegated) "acme" (from_unix 1010) (Some demo_token) = Ok false /\
  AccessTokenIsRevoked (demo_introspect demo_undelegated.1.2) "acme" (from_unix 1010) (Some demo_token) <> Ok false.
Proof.
  split; [vm_compute; reflexivity|].
  refine (proj1 (withdrawal_reaches_tokens (demo_introspect demo_undelegated.1.2) demo_delegated demo_undelegated.1.2 "acme" "bot"
    (from_unix 1010) (from_unix 1005) (from_unix 1005) demo_undelegated.2 demo_token demo_repo demo_delegated_ok demo_undelegated_run
    eq_refl eq_refl _ _ _ eq_refl) eq_refl).
  - split; [by exists (actor "gateway" None)|done].
  - by apply (bool_decide_unpack _).
  - done.
Defined.

Lemma IntrospectToken_hint_witness :
  IntrospectToken (demo_introspect demo_delegated) "acme" (from_unix 1010) {| ii_Token := "t"; ii_TokenTypeHint := "access_token" |} 0%Z
  = Ok (access_response demo_token).
Proof.
  apply (IntrospectToken_hint (demo_introspect demo_delegated) "acme" (from_unix 1010)
    {| ii_Token := "t"; ii_TokenTypeHint := "access_token" |} 0%Z None (access_response demo_token));
    [reflexivity|vm_compute; reflexivity|intros [? [=]]].
Defined.
