(* ===== verification/ExchangeToken.v ===== *)
(** * OAuth2: the token exchange

    [backend/oauth2/internal/token/usecases/exchange_token.go] (RFC 8693) with the
    agents of [internal/usecases/agent_issuance.go], the one-time grant of a
    rebinding ([domain/token_exchange_grant.go] and its memory store,
    [internal/db_memory/replay.go]) and the depth limit of the tenant
    ([internal/policy_tenancy/delegation_policy.go], [tenancy/domain]).

    [ExchangeToken] is its checks in the order of the code, the claim of the
    grant, and the issue; a refusal of [reject] reports itself.  The signer, the
    introspection, the verifier of workload tokens and the repositories that are
    only read are functions; the grants and the delegations are the store.

    The theorems: a successful exchange never widens what the subject token
    allows and always names the actor; a grant of rebinding is claimed once; a
    request that is refused before the signature leaves the grants as they were,
    and one that the signer refuses does not. *)

From Stdlib Require Import Ascii String ZArith Lia.
From stdpp Require Import base strings list gmap.
From S2P Require Import Prelude Effects GoStrings Crypto Rules Policy TokenDomain ActorChain RichAuthorization.
From S2P Require Import RefreshStore RefreshUsecase ExchangeCode Device Keyset Quota Approval Consents Introspect.

Local Open Scope string_scope.
Local Open Scope go_scope.

(** ** The grant of a rebinding *)

Definition TokenExchangeGrantTTL : Duration := (60 * Second)%Z.

Record TokenExchangeGrant := {
  tg_ClientID : string;
  tg_SubjectTokenID : string;
  tg_Resource : string;
  tg_ExpiresAt : Time;
}.

Definition HashTokenExchangeGrant (grant : string) : string := hex_EncodeToString (Sum256 (bytes_of grant)).

(** The entries: a tenant and a grant by the hash. *)
Definition TokenExchangeGrantStore := gmap string (string * TokenExchangeGrant).

Definition grant_Save (tenantID grantHash : string) (grant : TokenExchangeGrant) (s : TokenExchangeGrantStore) :
    TokenExchangeGrantStore := <[grantHash := (tenantID, grant)]> s.

Definition grant_Claim (tenantID grantHash : string) (grant : TokenExchangeGrant) (now : Time) (s : TokenExchangeGrantStore) :
    bool * TokenExchangeGrantStore :=
  match s !! grantHash with
  | None => (false, s)
  | Some (tenant, saved) =>
      if (tenant <>? tenantID) || negb (After (tg_ExpiresAt saved) now) || (tg_ClientID saved <>? tg_ClientID grant) ||
         (tg_SubjectTokenID saved <>? tg_SubjectTokenID grant) || (tg_Resource saved <>? tg_Resource grant)
      then (false, s)
      else (true, delete grantHash s)
  end.

Class GrantPort (S E : Type) := {
  claim_grant : string -> string -> TokenExchangeGrant -> Time -> S -> result E bool * S;
}.

(** ** Limits *)

Definition DefaultMaxDelegationDepth : Z := 3.

(** [Tenant.EffectiveMaxDelegationDepth]. *)
Definition EffectiveMaxDelegationDepth (override : option Z) : Z :=
  match override with
  | Some n => if 0 <? n then n else DefaultMaxDelegationDepth
  | None => DefaultMaxDelegationDepth
  end.

(** [DelegationPolicyResolver.MaxDelegationDepth]; the tenant is its override. *)
Inductive policy_error (E : Type) := ErrTenantNotResolved | TenantPort (e : E).
Arguments ErrTenantNotResolved {E}.
Arguments TenantPort {E} e.

Definition MaxDelegationDepth {E} (tenants : option (string -> result E (option (option Z)))) (tenantID : string) :
    result (policy_error E) Z :=
  match tenants with
  | None => Err ErrTenantNotResolved
  | Some findByID =>
      match findByID tenantID with
      | Err e => Err (TenantPort e)
      | Ok None => Err ErrTenantNotResolved
      | Ok (Some override) => Ok (EffectiveMaxDelegationDepth override)
      end
  end.

Definition resolveMaxDelegationDepth {E} (resolver : option (string -> result E Z)) (tenantID : string) : result E Z :=
  match resolver with
  | None => Ok DefaultMaxDelegationDepth
  | Some maxDepth =>
      let? resolved := maxDepth tenantID in
      Ok (if (resolved <? 1) || (DefaultMaxDelegationDepth <? resolved) then DefaultMaxDelegationDepth else resolved)
  end.

(** ** Inputs, outputs and events *)

Definition tokenTypeAccessTokenURN : string := "urn:ietf:params:oauth:token-type:access_token".
Definition tokenTypeJWTURN : string := "urn:ietf:params:oauth:token-type:jwt".

Record ExchangeTokenInput := {
  xi_ClientID : string;
  xi_SubjectToken : string;
  xi_SubjectTokenType : string;
  xi_ActorToken : string;
  xi_ActorTokenType : string;
  xi_Resource : list string;
  xi_Audience : list string;
  xi_Scope : string;
  xi_RequestedTokenType : string;
  xi_ProofJKT : string;
  xi_ProofX5TS256 : string;
  xi_AuthorizationDetails : list AuthorizationDetail;
  xi_TokenExchangeGrant : string;
}.

Record ExchangeTokenResult := {
  xr_AccessToken : string;
  xr_IssuedTokenType : string;
  xr_TokenType : string;
  xr_ExpiresIn : Z;
  xr_Scope : string;
  xr_AuthorizationDetails : list AuthorizationDetail;
}.

Record WorkloadIdentityGrant := {
  wg_AgentID : string;
  wg_ClientID : string;
  wg_TrustBundleID : string;
  wg_BindingID : string;
}.

Inductive exchange_event :=
| TokenExchangeRejected (at_ : Time) (tenantID actorUserID reason : string)
| ExchangedTokenIssued (at_ : Time) (tenantID jti clientID userID : string) (scopes : list string)
    (senderConstraint agentID : string)
| TokenExchanged (at_ : Time) (tenantID actorUserID subjectUserID audience : string) (delegationDepth maxDelegationDepth : Z)
    (mode : DelegationMode) (agentID : string) (actorChain : list string) (senderConstraintRebound : bool)
| WorkloadTokenExchanged (at_ : Time) (tenantID trustBundleID bindingID agentID audience : string)
| AgentApprovalRequired (at_ : Time) (tenantID agentID clientID kind grantType : string).

(** What the exchange reads of a client besides. *)
Class ClientTenantView (C : Type) := { client_TenantID : C -> string }.

(** ** Agents that need an approval *)

Definition AgentKindAutonomous : string := "autonomous".

Definition AgentRequiresHumanApproval (agent : option Agent) : bool :=
  match agent with Some a => agent_Kind a <>? AgentKindAutonomous | None => false end.

Section usecase.
Context {S E C : Type} `{ConsentPort S E} `{GrantPort S E} `{ClientView C} `{!ClientPolicyView C} `{!ClientTenantView C}.
Notation flow := (eff S exchange_event (failure E)).

(** A repository or resolver that is missing is [None] or a flag that is off;
    [xd_clock] is [time.Now()] and [xd_detail_error] the text of an error. *)
Record ExchangeTokenDeps := {
  xd_ClientRepo : string -> string -> result E (option C);
  xd_Introspect : string -> result E (option IntrospectionResult);
  xd_SignAccessToken : AccessTokenInput C -> result (failure E) (string * string);
  xd_AccessTokenTTLSeconds : Z;
  xd_Authorizer : option (AuthZRequest -> result E AuthZResponse);
  xd_AuthzDetailTypeRepo : option (string -> string -> result E (option AuthorizationDetailType));
  xd_McpResourceServerRepo : option (string -> string -> result E (option McpResourceServer));
  xd_AgentRepo : option (AgentRepository E);
  xd_has_Consents : bool;
  xd_WorkloadVerifier : option (string -> string -> Time -> result E WorkloadIdentityGrant);
  xd_DelegationPolicy : option (string -> result E Z);
  xd_has_Grants : bool;
  xd_clock : Time;
  xd_detail_error : failure E -> string;
}.

Definition RejectAgentIssuanceWithoutApproval (tenantID : string) (agent : option Agent) (clientID grantType : string) (now : Time) :
    flow unit :=
  match agent with
  | Some a =>
      if negb (AgentRequiresHumanApproval (Some a)) then eff_ret tt
      else
        do! emit (AgentApprovalRequired now tenantID (agent_ID a) clientID (agent_Kind a) grantType) in
        eff_fail (NewOAuthError "unauthorized_client" "supervised agent requires human approval")
  | None => eff_ret tt
  end.

(** The handler of an error, which sees the changes made before it. *)
Definition eff_catch {A} (m : flow A) (h : failure E -> flow A) : flow A := fun s =>
  match m s with
  | (Err e, s1, w1) => let '(r, s2, w2) := h e s1 in (r, s2, (w1 ++ w2)%list)
  | ok => ok
  end.

Section request.
Context (d : ExchangeTokenDeps) (tenantID : string) (in_ : ExchangeTokenInput) (now : Time).

(** [reject]. *)
Definition rejecting {A} (actorUserID code description : string) : flow A :=
  do! emit (TokenExchangeRejected now tenantID actorUserID code) in
  eff_fail (NewOAuthError code description).

Definition rejected {A} (actorUserID : string) (e : failure E) : flow A :=
  do! emit (TokenExchangeRejected now tenantID actorUserID (errorCode e)) in eff_fail e.

Notation "'reject_if' b 'by' actor 'with' code ',' text 'in' k" := (if b then rejecting actor code text else k)
  (at level 10, b at level 100, actor at level 9, code at level 9, text at level 9, k at level 200).

Definition rebinding : bool := xi_TokenExchangeGrant in_ <>? "".

(** The nil dereference of a resolver that returns neither a server nor an
    error, which it does only for a list without a value. *)
Definition nil_server {A} : flow A := eff_fail (NewOAuthError "panic" "nil resource server").

(** The target of the exchange. *)
Definition exchange_target : flow McpResourceServer :=
  reject_if negb (nonEmpty (xi_Audience in_) =? []) by "" with
    "invalid_target", "audience is not supported; specify the target with resource" in
  reject_if nonEmpty (xi_Resource in_) =? [] by "" with "invalid_request", "resource parameter is required" in
  match ResolveResourceIndicator (xd_McpResourceServerRepo d) tenantID (xi_Resource in_) [] with
  | Err (OAuthError code text) => rejecting "" code text
  | Err e => eff_fail e
  | Ok None => nil_server
  | Ok (Some mcp) =>
      reject_if (xi_RequestedTokenType in_ <>? "") && (xi_RequestedTokenType in_ <>? tokenTypeAccessTokenURN) by "" with
        "invalid_request", "unsupported requested_token_type" in
      reject_if rebinding && ((xi_ActorToken in_ <>? "") || (xi_SubjectTokenType in_ =? tokenTypeJWTURN)) by "" with
        "invalid_request", "token_exchange_grant cannot be combined with actor_token or a workload subject_token" in
      reject_if xi_SubjectToken in_ =? "" by "" with "invalid_request", "subject_token is required" in
      eff_ret mcp
  end.

Definition workload_subject (client : C) : IntrospectionResult :=
  {| ir_Active := true; ir_JTI := ""; ir_ClientID := ""; ir_Sub := client_ClientID client; ir_Scope := client_Scope client;
     ir_Exp := 0%Z; ir_Iat := 0%Z; ir_Managed := false; ir_SenderConstraint := None; ir_Aud := []; ir_Act := None;
     ir_MayAct := None; ir_AuthorizationDetails := []; ir_PrincipalType := ""; ir_AgentID := ""; ir_AgentChain := [];
     ir_ApprovalRequestID := "" |}.

Definition exchange_subject : flow (IntrospectionResult * option WorkloadIdentityGrant) :=
  let ty := xi_SubjectTokenType in_ in
  if (ty =? "") || (ty =? tokenTypeAccessTokenURN) then
    let! subject := lift (lift_port (xd_Introspect d (xi_SubjectToken in_))) in
    match subject with
    | Some subject =>
        reject_if negb (ir_Active subject) by "" with "invalid_grant", "The subject_token is invalid or expired." in
        eff_ret (subject, None)
    | None => rejecting "" "invalid_grant" "The subject_token is invalid or expired."
    end
  else if ty =? tokenTypeJWTURN then
    match xd_WorkloadVerifier d with
    | None => rejecting "" "invalid_request" "unsupported subject_token_type"
    | Some verify =>
        match verify tenantID (xi_SubjectToken in_) now with
        | Err _ => rejecting "" "invalid_grant" "The subject_token is invalid or expired."
        | Ok grant =>
            let! client := lift (lift_port (xd_ClientRepo d tenantID (wg_ClientID grant))) in
            match client with
            | None => rejecting "" "invalid_grant" "workload identity is not bound to a usable client"
            | Some client => eff_ret (workload_subject client, Some grant)
            end
        end
    end
  else rejecting "" "invalid_request" "unsupported subject_token_type".

(** The current actor and the agents of its token. *)
Definition exchange_actor : flow (string * list string) :=
  let! actor := (if xi_ActorToken in_ <>? "" then
      reject_if (xi_ActorTokenType in_ <>? "") && (xi_ActorTokenType in_ <>? tokenTypeAccessTokenURN) by "" with
        "invalid_request", "unsupported actor_token_type" in
      let! actor := lift (lift_port (xd_Introspect d (xi_ActorToken in_))) in
      match actor with
      | Some actor =>
          reject_if negb (ir_Active actor) by "" with "invalid_grant", "actor_token is invalid or revoked" in
          eff_ret (ir_Sub actor, MergeAgentChain [[ir_AgentID actor]; ir_AgentChain actor])
      | None => rejecting "" "invalid_grant" "actor_token is invalid or revoked"
      end
    else eff_ret (xi_ClientID in_, [])) in
  reject_if actor.1 =? "" by "" with "invalid_request", "The current actor cannot be determined." in
  eff_ret actor.

(** [check] of [rejectSupervisedAgents]; it returns the agents seen. *)
Definition check_agent_kind (seen : list string) (agent : option Agent) (clientID : string) : flow (list string) :=
  match agent with
  | None => eff_ret seen
  | Some a =>
      if contains seen (agent_ID a) then eff_ret seen
      else
        do! RejectAgentIssuanceWithoutApproval tenantID (Some a) clientID GrantTokenExchange now in
        eff_ret (agent_ID a :: seen)
  end.

Definition unresolved : failure E := NewOAuthError "invalid_request" "The agent kind could not be resolved.".

Definition check_agent_id (repo : AgentRepository E) (seen : list string) (agentID clientID : string) : flow (list string) :=
  if agentID =? "" then eff_ret seen
  else match agent_FindByID repo tenantID agentID with
  | Err _ => eff_fail unresolved
  | Ok agent => check_agent_kind seen agent clientID
  end.

Definition rejectSupervisedAgents (subject : IntrospectionResult) (workloadGrant : option WorkloadIdentityGrant) : flow string :=
  match xd_AgentRepo d with
  | None => eff_ret ""
  | Some repo =>
      let! seen := match workloadGrant with
                   | Some g => check_agent_id repo [] (wg_AgentID g) (wg_ClientID g)
                   | None => eff_ret []
                   end in
      let! seen := check_agent_id repo seen (ir_AgentID subject) (ir_ClientID subject) in
      let named := match workloadGrant with Some g => wg_AgentID g | None => "" end in
      match agent_FindByClientID repo tenantID (xi_ClientID in_) with
      | Err _ => eff_fail unresolved
      | Ok acting =>
          do! check_agent_kind seen acting (xi_ClientID in_) in
          eff_ret (if named =? "" then match acting with Some a => agent_ID a | None => "" end else named)
      end
  end.

(** The claim that the token carries. *)
Definition exchange_act (currentActorSub : string) (subject : IntrospectionResult) : act_claim :=
  actor currentActorSub
    match ir_Act subject with
    | Some act => Some act
    | None =>
        if rebinding && (ir_ClientID subject <>? "") && (ir_ClientID subject <>? ir_Sub subject)
        then Some (actor (ir_ClientID subject) None) else None
    end.

(** [may_act] and the depth: the claim and the limit that was applied. *)
Definition exchange_chain (currentActorSub : string) (subject : IntrospectionResult) : flow (act_claim * Z) :=
  reject_if match ir_MayAct subject with
            | Some m => (act_sub m =? "") || (act_sub m <>? currentActorSub)
            | None => false
            end by currentActorSub with
    "invalid_grant", "current actor is not allowed by may_act" in
  let act := exchange_act currentActorSub subject in
  match resolveMaxDelegationDepth (xd_DelegationPolicy d) tenantID with
  | Err _ => rejecting currentActorSub "invalid_request" "The delegation policy could not be resolved."
  | Ok maxDepth =>
      reject_if maxDepth <? actDepth (Some act) by currentActorSub with
        "invalid_request", "The delegation depth exceeds the limit." in
      eff_ret (act, maxDepth)
  end.

Definition exchange_scopes (currentActorSub : string) (subject : IntrospectionResult) (mcp : McpResourceServer) : flow (list string) :=
  let subjectScopes := Fields (ir_Scope subject) in
  let requested := Fields (xi_Scope in_) in
  reject_if negb (requested =? []) && negb (forallb (contains subjectScopes) requested) by currentActorSub with
    "invalid_scope", "The requested scope exceeds the subject_token scope." in
  let grantedScopes := if requested =? [] then subjectScopes else requested in
  reject_if negb (forallb (contains (mcp_Scopes mcp)) grantedScopes) by currentActorSub with
    "invalid_scope", "request exceeds allowed scope of the resource" in
  reject_if existsb (fun scope => HasPrefix scope "account:") grantedScopes &&
            ((ir_Sub subject =? "") || (ir_Sub subject =? ir_ClientID subject)) by currentActorSub with
    "invalid_scope", "account scope requires user subject" in
  eff_ret grantedScopes.

Definition LoadAuthorizationDetailTypes (repo : option (string -> string -> result E (option AuthorizationDetailType)))
    (details : list AuthorizationDetail) : result (failure E) (gmap string AuthorizationDetailType) :=
  match repo with
  | None => Ok ∅
  | Some findByType =>
      fold_left (fun acc (dt : AuthorizationDetail) =>
        let? out := acc in
        match (out !! detail_Type dt : option AuthorizationDetailType) with
        | Some _ => Ok out
        | None =>
            let? t := lift_port (findByType tenantID (detail_Type dt)) in
            Ok (match t with Some t => <[detail_Type dt := t]> out | None => out end)
        end) details (Ok ∅)
  end.

Definition exchange_details (currentActorSub : string) (subject : IntrospectionResult) : flow (list AuthorizationDetail) :=
  match xi_AuthorizationDetails in_ with
  | [] => eff_ret (ir_AuthorizationDetails subject)
  | requested =>
      match ValidateAuthorizationDetails (xd_AuthzDetailTypeRepo d) tenantID requested with
      | Err e => rejecting currentActorSub "invalid_authorization_details" (xd_detail_error d e)
      | Ok _ =>
          let! types := lift (LoadAuthorizationDetailTypes (xd_AuthzDetailTypeRepo d) requested) in
          match DetailsSubsetOf requested (ir_AuthorizationDetails subject) types with
          | Err _ => rejecting currentActorSub "invalid_authorization_details" "request exceeds authorization_details of subject_token"
          | Ok _ => eff_ret requested
          end
      end
  end.

Definition exchange_request (client : C) (actorUserID subjectUserID resource : string) (scopes : list string) (depth : Z) :
    AuthZRequest :=
  {| req_Subject := {| subject_Type := "Client"; subject_ID := client_ClientID client;
       subject_Properties :=
         {| sp_ClientType := client_ClientType client; sp_GrantTypes := client_GrantTypes client;
            sp_Scopes := Fields (client_Scope client); sp_RedirectURIs := []; sp_RequirePAR := false;
            sp_Fapi2SecurityProfile := false; sp_Authenticated := false; sp_Roles := [];
            sp_TenantID := client_TenantID client; sp_DisabledAt := None |} |};
     req_Action := ActionTokenGrantTokenExchange;
     req_Resource := {| resource_Type := "TokenExchange"; resource_ID := resource;
       resource_Properties :=
         {| rp_IssuedToClientID := ""; rp_RedirectURI := ""; rp_CodeChallenge := ""; rp_CodeChallengeMethod := "";
            rp_IssuedAt := 0%Z; rp_ExpiresAt := 0%Z; rp_Redeemed := false; rp_Revoked := false; rp_Rotated := false;
            rp_AbsoluteExpiresAt := 0%Z; rp_SenderConstraint := None; rp_Scopes := scopes; rp_Approved := false;
            rp_TenantID := client_TenantID client |} |};
     req_Context := {| ctx_CodeVerifier := ""; ctx_RedirectURI := ""; ProofOfPossession := None; ParUsed := false;
       ctx_Authenticated := false; ctx_Now := now; ctx_ActorUserID := actorUserID; ctx_SubjectUserID := subjectUserID;
       ctx_Audience := resource; DelegationDepth := depth; ActorChain := []; Relationship := None |} |}.

Definition evaluateTokenExchangePolicy (client : C) (actorUserID subjectUserID resource : string) (scopes : list string) (depth : Z) :
    result E AuthZResponse :=
  let req := exchange_request client actorUserID subjectUserID resource scopes depth in
  match xd_Authorizer d with
  | None => Ok (Evaluate (xd_clock d) req)
  | Some authorize => authorize req
  end.

(** The client and the decision of the policy. *)
Definition exchange_client (currentActorSub : string) (subject : IntrospectionResult) (resource : string) (scopes : list string)
    (depth : Z) : flow C :=
  let! client := lift (lift_port (xd_ClientRepo d tenantID (xi_ClientID in_))) in
  match client with
  | None => rejecting currentActorSub "invalid_client" "unknown client_id"
  | Some client =>
      let! decision := lift (lift_port (evaluateTokenExchangePolicy client currentActorSub (ir_Sub subject) resource scopes depth)) in
      reject_if negb (Permit decision) by currentActorSub with
        "invalid_grant", ("Token exchange was rejected: " ++ Join (resp_Reasons decision) ", ") in
      eff_ret client
  end.

Definition exchange_proof : ExchangeProof := {| proof_JKT := xi_ProofJKT in_; proof_X5TS256 := xi_ProofX5TS256 in_ |}.

Definition exchange_binding (subject : IntrospectionResult) : option (option SenderConstraint) :=
  if rebinding then match ReboundExchangeBinding exchange_proof with Some sc => Some (Some sc) | None => None end
  else DecideExchangeBinding (ir_SenderConstraint subject) exchange_proof.

(** The loop of [delegationsPermit]. *)
Fixpoint grants_permit (sub : string) (agents scopes : list string) : flow bool :=
  match agents with
  | [] => eff_ret true
  | agentID :: agents =>
      let! grant := call PortError (find_delegation tenantID sub agentID) in
      match grant with
      | None => eff_ret false
      | Some grant => if PermitsDelegation grant scopes now then grants_permit sub agents scopes else eff_ret false
      end
  end.

Definition delegationsPermit (sub : string) (agents scopes : list string) : flow bool :=
  match agents with
  | [] => eff_ret true
  | _ => if negb (xd_has_Consents d) then eff_ret false else grants_permit sub agents scopes
  end.

(** The agents that act for the user, whose grants the user gave. *)
Definition exchange_delegation (currentActorSub : string) (subject : IntrospectionResult) (is_workload : bool)
    (actorAgents : list string) (actingAgentID : string) (scopes : list string) : flow (list string) :=
  let agents := MergeAgentChain [[ir_AgentID subject]; ir_AgentChain subject; actorAgents; [actingAgentID]] in
  let! delegatingAgents := (if negb is_workload && negb (agents =? []) then
      let! user := lift (lift_port (isUserSubject (Some (xd_ClientRepo d)) tenantID (ir_Sub subject))) in
      eff_ret (if user then agents else [])
    else eff_ret []) in
  let! granted := delegationsPermit (ir_Sub subject) delegatingAgents scopes in
  reject_if negb granted by currentActorSub with "invalid_grant", "The user has not granted delegation to the agent." in
  eff_ret delegatingAgents.

Definition claimTokenExchangeGrant (subjectTokenID resource : string) : flow bool :=
  if negb (xd_has_Grants d) || (subjectTokenID =? "") then eff_ret false
  else call PortError (claim_grant tenantID (HashTokenExchangeGrant (xi_TokenExchangeGrant in_))
         {| tg_ClientID := xi_ClientID in_; tg_SubjectTokenID := subjectTokenID; tg_Resource := resource; tg_ExpiresAt := 0%Z |} now).

(** The lifetime: the absolute end, 0 when it is the issuer's, and the seconds. *)
Definition exchange_claim (currentActorSub : string) (subject : IntrospectionResult) (resource : string) : flow (Z * Z) :=
  if negb rebinding then eff_ret (0%Z, xd_AccessTokenTTLSeconds d)
  else
    let! claimed := claimTokenExchangeGrant (ir_JTI subject) resource in
    reject_if negb claimed by currentActorSub with "invalid_grant", "The token_exchange_grant is invalid or expired." in
    let expiresAt := Z.min (Unix (Add now TokenExchangeGrantTTL)) (ir_Exp subject) in
    eff_ret (expiresAt, (expiresAt - Unix now)%Z).

Definition issued_agent (subject : IntrospectionResult) (workloadGrant : option WorkloadIdentityGrant) : string :=
  if rebinding && (ir_PrincipalType subject =? PrincipalTypeAgent) then ir_AgentID subject
  else match workloadGrant with Some g => wg_AgentID g | None => "" end.

Definition exchange_input (client : C) (subject : IntrospectionResult) (scopes : list string) (sc : option SenderConstraint)
    (resource : string) (act : act_claim) (details : list AuthorizationDetail) (agentID : string) (agentChain : list string)
    (expiresAt : Z) : AccessTokenInput C :=
  {| at_Client := client; at_Sub := ir_Sub subject; at_Scopes := scopes; at_SenderConstraint := sc; at_AuthTime := Unix now;
     at_AMR := []; at_ACR := ""; at_AgentID := agentID; at_AgentChain := agentChain; at_ApprovalRequestID := "";
     at_Audiences := [resource]; at_AuthorizationDetails := details; at_ExpiresAt := expiresAt; at_Managed := false;
     at_Act := Some act |}.

Definition record_issue (client : C) (currentActorSub : string) (subject : IntrospectionResult)
    (workloadGrant : option WorkloadIdentityGrant) (actingAgentID resource jti : string) (scopes : list string)
    (sc : option SenderConstraint) (act : act_claim) (maxDepth : Z) (agentID : string) : flow unit :=
  do! emit (ExchangedTokenIssued now tenantID jti (client_ClientID client) (ir_Sub subject) scopes (senderConstraintTag sc)
              actingAgentID) in
  do! emit (TokenExchanged now tenantID currentActorSub (ir_Sub subject) resource (actDepth (Some act)) maxDepth
              (DeriveDelegationMode {| ds_Sub := ir_Sub subject; ds_ClientID := client_ClientID client;
                 ds_PrincipalType := if agentID <>? "" then PrincipalTypeAgent else ""; ds_Act := Some act |})
              actingAgentID (ActorChainParticipants (Some act) (ir_Sub subject)) rebinding) in
  match workloadGrant with
  | Some g => emit (WorkloadTokenExchanged now tenantID (wg_TrustBundleID g) (wg_BindingID g) (wg_AgentID g) resource)
  | None => eff_ret tt
  end.

(** From the claim of the grant on. *)
Definition exchange_issue (client : C) (currentActorSub : string) (subject : IntrospectionResult)
    (workloadGrant : option WorkloadIdentityGrant) (actorAgents : list string) (actingAgentID resource : string)
    (scopes : list string) (sc : option SenderConstraint) (act : act_claim) (maxDepth : Z)
    (details : list AuthorizationDetail) (delegatingAgents : list string) : flow ExchangeTokenResult :=
  let! lifetime := exchange_claim currentActorSub subject resource in
  let agentID := issued_agent subject workloadGrant in
  let agentChain := MergeAgentChain [[ir_AgentID subject]; ir_AgentChain subject; actorAgents; [agentID]] in
  let! signed := lift (xd_SignAccessToken d (exchange_input client subject scopes sc resource act details agentID agentChain lifetime.1)) in
  do! eff_for_each (fun agent => call PortError (touch_delegation tenantID (ir_Sub subject) agent now)) delegatingAgents in
  do! record_issue client currentActorSub subject workloadGrant actingAgentID resource signed.2 scopes sc act maxDepth agentID in
  eff_ret {| xr_AccessToken := signed.1; xr_IssuedTokenType := tokenTypeAccessTokenURN; xr_TokenType := PresentationTokenType sc;
             xr_ExpiresIn := lifetime.2; xr_Scope := Join scopes " "; xr_AuthorizationDetails := details |}.

(** [now] is the argument, or [time.Now()] when it is zero. *)
Definition ExchangeToken : flow ExchangeTokenResult :=
  let! mcp := exchange_target in
  let resource := mcp_Resource mcp in
  let! (subject, workloadGrant) := exchange_subject in
  let! (currentActorSub, actorAgents) := exchange_actor in
  let! actingAgentID := eff_catch (rejectSupervisedAgents subject workloadGrant) (rejected currentActorSub) in
  let! (act, maxDepth) := exchange_chain currentActorSub subject in
  let! scopes := exchange_scopes currentActorSub subject mcp in
  let! details := exchange_details currentActorSub subject in
  let! client := exchange_client currentActorSub subject resource scopes (actDepth (Some act)) in
  match exchange_binding subject with
  | None => rejecting currentActorSub "invalid_grant" "The proof does not match the key bound to the subject_token."
  | Some sc =>
      let! delegatingAgents := exchange_delegation currentActorSub subject (is_some workloadGrant) actorAgents actingAgentID scopes in
      exchange_issue client currentActorSub subject workloadGrant actorAgents actingAgentID resource scopes sc act maxDepth details
        delegatingAgents
  end.
End request.
End usecase.

Arguments ExchangeTokenDeps : clear implicits.
Arguments at_Client {C} a.
Arguments at_Scopes {C} a.
Arguments at_Audiences {C} a.
Arguments at_SenderConstraint {C} a.
Arguments at_AuthorizationDetails {C} a.
Arguments at_ExpiresAt {C} a.
Arguments at_AgentChain {C} a.
Arguments at_Act {C} a.

(** ** The memory stores together *)

Record ExchangeStore := { xs_consents : ConsentRepository; xs_grants : TokenExchangeGrantStore }.

Definition on_delegations {A E} (op : ConsentRepository -> A * ConsentRepository) (s : ExchangeStore) : result E A * ExchangeStore :=
  let '(a, r) := op (xs_consents s) in (Ok a, {| xs_consents := r; xs_grants := xs_grants s |}).

#[export] Instance exchange_consents {E} : ConsentPort ExchangeStore E := {
  find_consent t sub c := on_delegations (fun r => (consent_Find r t sub c, r));
  find_all_consents t := on_delegations (fun r => (consent_FindAll r t, r));
  save_consent t c := on_delegations (fun r => (tt, consent_Save t c r));
  revoke_consent t sub c now := on_delegations (fun r => (tt, consent_Revoke t sub c now r));
  find_delegation t sub a := on_delegations (fun r => (FindAgentDelegation r t sub a, r));
  list_delegations t sub := on_delegations (fun r => (ListAgentDelegations r t sub, r));
  save_delegation t c := on_delegations (fun r => (tt, SaveAgentDelegation t c r));
  revoke_delegation t sub a now := on_delegations (fun r => (tt, mem_RevokeAgentDelegation t sub a now r));
  touch_delegation t sub a at_ := on_delegations (fun r => (tt, TouchAgentDelegation t sub a at_ r));
}.

#[export] Instance exchange_grants {E} : GrantPort ExchangeStore E := {
  claim_grant t h g now s :=
    let '(claimed, grants) := grant_Claim t h g now (xs_grants s) in
    (Ok claimed, {| xs_consents := xs_consents s; xs_grants := grants |});
}.

(** ** Stages that succeed *)

Section proofs.
Context {E C : Type} `{ClientView C} `{!ClientPolicyView C} `{!ClientTenantView C}.
Context (d : ExchangeTokenDeps E C) (tenantID : string) (in_ : ExchangeTokenInput) (now : Time).
Notation flow := (eff ExchangeStore exchange_event (failure E)).

Lemma rejecting_Ok {A} actor code text s (a : A) s' w :
  rejecting (S := ExchangeStore) (E := E) tenantID now actor code text s = (Ok a, s', w) -> False.
Proof. done. Qed.

Ltac accepted Hrun Hc :=
  match type of Hrun with
  | (if ?b then _ else _) _ = _ => destruct b eqn:Hc; [by apply rejecting_Ok in Hrun|]
  end.

(** Every stage before the claim of the grant only reads. *)
Lemma find_delegation_reads sub agentID :
  reads_only (S := ExchangeStore) (W := exchange_event) (F := failure E) (call PortError (find_delegation tenantID sub agentID)).
Proof. intros [cs gs] a s' w. unfold call. simpl. by intros [= <- <- <-]. Qed.

Ltac stage := repeat first
  [ apply reads_only_ret | apply reads_only_fail | apply reads_only_lift | apply reads_only_report | apply find_delegation_reads
  | (apply reads_only_bind; [|intros ?])
  | match goal with
    | |- reads_only (if ?b then _ else _) => destruct b
    | |- reads_only (match ?x with _ => _ end) => destruct x
    | |- reads_only (let '(_, _) := ?x in _) => destruct x
    end ].

Lemma exchange_target_reads : reads_only (S := ExchangeStore) (exchange_target d tenantID in_ now).
Proof. unfold exchange_target, nil_server. stage. Qed.

Lemma exchange_subject_reads : reads_only (S := ExchangeStore) (exchange_subject d tenantID in_ now).
Proof. unfold exchange_subject. stage. Qed.

Lemma exchange_actor_reads : reads_only (S := ExchangeStore) (exchange_actor d tenantID in_ now).
Proof. unfold exchange_actor. stage. Qed.

Lemma check_kind_reads seen agent clientID :
  reads_only (S := ExchangeStore) (F := failure E) (check_agent_kind tenantID now seen agent clientID).
Proof. unfold check_agent_kind, RejectAgentIssuanceWithoutApproval. stage. Qed.

Lemma check_id_reads (repo : AgentRepository E) seen agentID clientID :
  reads_only (S := ExchangeStore) (check_agent_id tenantID now repo seen agentID clientID).
Proof. unfold check_agent_id. stage. apply check_kind_reads. Qed.

Lemma supervised_reads subject wg actor :
  reads_only (S := ExchangeStore)
    (eff_catch (rejectSupervisedAgents d tenantID in_ now subject wg) (rejected tenantID now actor)).
Proof.
  assert (reads_only (S := ExchangeStore) (rejectSupervisedAgents d tenantID in_ now subject wg)) as Hr.
  { unfold rejectSupervisedAgents. stage; first [apply check_id_reads|apply check_kind_reads]. }
  intros s a s' w. unfold eff_catch. destruct (rejectSupervisedAgents _ _ _ _ _ _ s) as [[[x|e] s1] w1] eqn:Hm;
    destruct (Hr _ _ _ _ Hm) as [-> Hw].
  - intros [= <- <- <-]. by rewrite Hw.
  - unfold rejected, eff_bind, emit, eff_fail. by intros [= <- <- <-].
Qed.

Lemma exchange_chain_reads actor subject : reads_only (S := ExchangeStore) (exchange_chain d tenantID in_ now actor subject).
Proof. unfold exchange_chain. stage. Qed.

Lemma exchange_scopes_reads actor subject mcp :
  reads_only (S := ExchangeStore) (F := failure E) (exchange_scopes tenantID in_ now actor subject mcp).
Proof. unfold exchange_scopes. stage. Qed.

Lemma exchange_details_reads actor subject : reads_only (S := ExchangeStore) (exchange_details d tenantID in_ now actor subject).
Proof. unfold exchange_details. stage. Qed.

Lemma exchange_client_reads actor subject resource scopes depth :
  reads_only (S := ExchangeStore) (exchange_client d tenantID in_ now actor subject resource scopes depth).
Proof. unfold exchange_client. stage. Qed.

Lemma grants_permit_reads sub agents scopes :
  reads_only (S := ExchangeStore) (W := exchange_event) (F := failure E) (grants_permit tenantID now sub agents scopes).
Proof. induction agents as [|a agents IH]; cbn [grants_permit]; stage. apply IH. Qed.

Lemma exchange_delegation_reads actor subject is_workload agents acting scopes :
  reads_only (S := ExchangeStore) (exchange_delegation d tenantID now actor subject is_workload agents acting scopes).
Proof. unfold exchange_delegation, delegationsPermit. stage. apply grants_permit_reads. Qed.

(** A successful exchange went through every stage, and only its issue could
    change the store. *)
Record exchange_run (s : ExchangeStore) (r : ExchangeTokenResult) (s' : ExchangeStore) (w : list exchange_event) := {
  run_mcp : McpResourceServer;
  run_subject : IntrospectionResult;
  run_workload : option WorkloadIdentityGrant;
  run_actor : string;
  run_actorAgents : list string;
  run_acting : string;
  run_act : act_claim;
  run_maxDepth : Z;
  run_scopes : list string;
  run_details : list AuthorizationDetail;
  run_client : C;
  run_binding : option SenderConstraint;
  run_delegating : list string;
  run_target_ok : exchange_target d tenantID in_ now s = (Ok run_mcp, s, []);
  run_subject_ok : exchange_subject d tenantID in_ now s = (Ok (run_subject, run_workload), s, []);
  run_actor_ok : exchange_actor d tenantID in_ now s = (Ok (run_actor, run_actorAgents), s, []);
  run_kinds_ok : rejectSupervisedAgents d tenantID in_ now run_subject run_workload s = (Ok run_acting, s, []);
  run_chain_ok : exchange_chain d tenantID in_ now run_actor run_subject s = (Ok (run_act, run_maxDepth), s, []);
  run_scopes_ok : exchange_scopes (E := E) tenantID in_ now run_actor run_subject run_mcp s = (Ok run_scopes, s, []);
  run_details_ok : exchange_details d tenantID in_ now run_actor run_subject s = (Ok run_details, s, []);
  run_client_ok : exchange_client d tenantID in_ now run_actor run_subject (mcp_Resource run_mcp) run_scopes
    (actDepth (Some run_act)) s = (Ok run_client, s, []);
  run_binding_ok : exchange_binding in_ run_subject = Some run_binding;
  run_delegation_ok : exchange_delegation d tenantID now run_actor run_subject (is_some run_workload) run_actorAgents run_acting
    run_scopes s = (Ok run_delegating, s, []);
  run_issue_ok : exchange_issue d tenantID in_ now run_client run_actor run_subject run_workload run_actorAgents run_acting
    (mcp_Resource run_mcp) run_scopes run_binding run_act run_maxDepth run_details run_delegating s = (Ok r, s', w);
}.

Lemma ExchangeToken_runs s r s' w : ExchangeToken d tenantID in_ now s = (Ok r, s', w) -> inhabited (exchange_run s r s' w).
Proof.
  unfold ExchangeToken. intros Hrun.
  apply eff_bind_Ok in Hrun as (mcp & s1 & w1 & w2 & H1 & Hrun & ->). destruct (exchange_target_reads _ _ _ _ H1) as [-> ->].
  apply eff_bind_Ok in Hrun as ([subject wg] & s1 & w1 & w3 & H2 & Hrun & ->). destruct (exchange_subject_reads _ _ _ _ H2) as [-> ->].
  apply eff_bind_Ok in Hrun as ([actor agents] & s1 & w1 & w4 & H3 & Hrun & ->). destruct (exchange_actor_reads _ _ _ _ H3) as [-> ->].
  apply eff_bind_Ok in Hrun as (acting & s1 & w1 & w5 & H4 & Hrun & ->). destruct (supervised_reads _ _ _ _ _ _ _ H4) as [-> ->].
  apply eff_bind_Ok in Hrun as ([act depth] & s1 & w1 & w6 & H5 & Hrun & ->). destruct (exchange_chain_reads _ _ _ _ _ _ H5) as [-> ->].
  apply eff_bind_Ok in Hrun as (scopes & s1 & w1 & w7 & H6 & Hrun & ->). destruct (exchange_scopes_reads _ _ _ _ _ _ _ H6) as [-> ->].
  apply eff_bind_Ok in Hrun as (details & s1 & w1 & w8 & H7 & Hrun & ->). destruct (exchange_details_reads _ _ _ _ _ _ H7) as [-> ->].
  apply eff_bind_Ok in Hrun as (client & s1 & w1 & w9 & H8 & Hrun & ->). destruct (exchange_client_reads _ _ _ _ _ _ _ _ _ H8) as [-> ->].
  destruct (exchange_binding in_ subject) as [sc|] eqn:H9; [|done].
  apply eff_bind_Ok in Hrun as (delegating & s1 & w1 & w10 & H10 & Hrun & ->).
  destruct (exchange_delegation_reads _ _ _ _ _ _ _ _ _ _ H10) as [-> ->].
  assert (Hk : rejectSupervisedAgents d tenantID in_ now subject wg s = (Ok acting, s, [])).
  { revert H4. unfold eff_catch. by destruct (rejectSupervisedAgents _ _ _ _ _ _ s) as [[[x|e] s1] w1]. }
  constructor. by econstructor.
Qed.

(** ** What each stage established *)

Ltac ran H := unfold eff_ret in H; simplify_eq.

Lemma exchange_target_Ok (s : ExchangeStore) mcp s' w : exchange_target d tenantID in_ now s = (Ok mcp, s', w) ->
  nonEmpty (xi_Audience in_) = [] /\
  ResolveResourceIndicator (xd_McpResourceServerRepo d) tenantID (xi_Resource in_) [] = Ok (Some mcp) /\
  (rebinding in_ = true -> xi_ActorToken in_ = "" /\ xi_SubjectTokenType in_ <> tokenTypeJWTURN).
Proof.
  unfold exchange_target. intros Hrun. accepted Hrun Ha. accepted Hrun Hr.
  destruct (ResolveResourceIndicator _ _ _ _) as [[m|]|[code text|e|e]] eqn:Hres; [|done|done|done|done].
  accepted Hrun Ht. accepted Hrun Hb. accepted Hrun Hst. ran Hrun.
  go_bool. split_and!; [done|done|]. intros Hreb. rewrite Hreb in Hb. naive_solver.
Qed.

(** Where a subject comes from: an active token of this server, or a workload
    that is bound to a client. *)
Definition presented (subject : IntrospectionResult) (wg : option WorkloadIdentityGrant) : Prop :=
  match wg with
  | None => xd_Introspect d (xi_SubjectToken in_) = Ok (Some subject) /\ ir_Active subject = true
  | Some g => xi_SubjectTokenType in_ = tokenTypeJWTURN /\
      (exists verify, xd_WorkloadVerifier d = Some verify /\ verify tenantID (xi_SubjectToken in_) now = Ok g) /\
      exists client, xd_ClientRepo d tenantID (wg_ClientID g) = Ok (Some client) /\ subject = workload_subject client
  end.

Lemma exchange_subject_Ok (s : ExchangeStore) subject wg s' w :
  exchange_subject d tenantID in_ now s = (Ok (subject, wg), s', w) -> presented subject wg.
Proof.
  unfold exchange_subject. destruct (_ || _).
  - intros (r & s1 & w1 & w2 & Hl & Hrun & ->)%eff_bind_Ok. unfold lift in Hl.
    destruct (xd_Introspect d (xi_SubjectToken in_)) as [x|e] eqn:Hi; [|done]. simpl in Hl. simplify_eq.
    destruct r as [x|]; [|done]. accepted Hrun Ha. ran Hrun. go_bool. done.
  - destruct (xi_SubjectTokenType in_ =? tokenTypeJWTURN) eqn:Hty; [|done].
    destruct (xd_WorkloadVerifier d) as [verify|] eqn:Hv; [|done].
    destruct (verify _ _ _) as [g|e] eqn:Hg; [|done]. intros (r & s1 & w1 & w2 & Hl & Hrun & ->)%eff_bind_Ok. unfold lift in Hl.
    destruct (xd_ClientRepo d tenantID (wg_ClientID g)) as [x|e] eqn:Hi; [|done]. simpl in Hl. simplify_eq.
    destruct r as [x|]; [|done]. ran Hrun. go_bool. split_and!; [done|by exists verify|by exists x].
Qed.

(** Who acts: the client, or the subject of an active actor token. *)
Definition acts (actor : string) (agents : list string) : Prop :=
  actor <> "" /\
  ((xi_ActorToken in_ = "" /\ actor = xi_ClientID in_ /\ agents = []) \/
   exists token, xd_Introspect d (xi_ActorToken in_) = Ok (Some token) /\ ir_Active token = true /\
     actor = ir_Sub token /\ agents = MergeAgentChain [[ir_AgentID token]; ir_AgentChain token]).

Lemma exchange_actor_Ok (s : ExchangeStore) actor agents s' w :
  exchange_actor d tenantID in_ now s = (Ok (actor, agents), s', w) -> acts actor agents.
Proof.
  unfold exchange_actor. intros ([a l] & s1 & w1 & w2 & Ha & Hrun & ->)%eff_bind_Ok. accepted Hrun Hne.
  ran Hrun. simpl in Hne. destruct (xi_ActorToken in_ <>? "") eqn:Htok.
  - accepted Ha Hty. apply eff_bind_Ok in Ha as (r & s2 & w2 & w3 & Hl & Ha & ->). unfold lift in Hl.
    destruct (xd_Introspect d (xi_ActorToken in_)) as [x|e] eqn:Hi; [|done]. simpl in Hl. simplify_eq.
    destruct r as [x|]; [|done]. accepted Ha Hact. ran Ha. go_bool. split; [done|]. right. by exists x.
  - ran Ha. go_bool. split; [done|]. by left.
Qed.

Lemma resolveMaxDelegationDepth_bound resolver maxDepth :
  resolveMaxDelegationDepth (E := E) resolver tenantID = Ok maxDepth -> (1 <= maxDepth <= DefaultMaxDelegationDepth)%Z.
Proof.
  unfold resolveMaxDelegationDepth, DefaultMaxDelegationDepth. destruct resolver as [f|]; [|intros [= <-]; lia].
  destruct (f tenantID) as [n|e]; simpl; [|done]. destruct (_ || _) eqn:Hc; intros [= <-]; [lia|].
  apply orb_false_iff in Hc as [H1 H2]. go_bool. lia.
Qed.

Lemma exchange_chain_Ok (s : ExchangeStore) actor subject act maxDepth s' w :
  exchange_chain d tenantID in_ now actor subject s = (Ok (act, maxDepth), s', w) ->
  act = exchange_act in_ actor subject /\ resolveMaxDelegationDepth (xd_DelegationPolicy d) tenantID = Ok maxDepth /\
  (forall m, ir_MayAct subject = Some m -> act_sub m = actor) /\
  (actDepth (Some act) <= maxDepth <= DefaultMaxDelegationDepth)%Z.
Proof.
  unfold exchange_chain. intros Hrun. accepted Hrun Hm.
  destruct (resolveMaxDelegationDepth _ _) as [n|e] eqn:Hr; [|done]. accepted Hrun Hd. ran Hrun.
  pose proof (resolveMaxDelegationDepth_bound _ _ Hr). go_bool. split_and!; [done|done| |lia|lia].
  intros m Hmay. rewrite Hmay in Hm. apply orb_false_iff in Hm as [_ Hm]. by go_bool.
Qed.

Lemma exchange_scopes_Ok (s : ExchangeStore) actor subject mcp scopes s' w :
  exchange_scopes (E := E) tenantID in_ now actor subject mcp s = (Ok scopes, s', w) ->
  (forall sc, sc ∈ scopes -> sc ∈ Fields (ir_Scope subject) /\ sc ∈ mcp_Scopes mcp) /\
  (Fields (xi_Scope in_) <> [] -> scopes = Fields (xi_Scope in_)).
Proof.
  unfold exchange_scopes. intros Hrun. accepted Hrun Hsub. accepted Hrun Hmcp. accepted Hrun Hacc. ran Hrun.
  apply negb_false_iff in Hmcp. rewrite forallb_forall in Hmcp.
  split; [|intros Hne; by rewrite bool_decide_false].
  intros sc Hin. split; [|by apply contains_true, Hmcp, list_elem_of_In].
  destruct (Fields (xi_Scope in_) =? []) eqn:He; [done|]. simpl in Hsub. apply negb_false_iff in Hsub. rewrite forallb_forall in Hsub.
  by apply contains_true, Hsub, list_elem_of_In.
Qed.

(** What is granted of the details: all of them, or a request within them. *)
Definition details_within (details granted : list AuthorizationDetail) : Prop :=
  details = granted \/
  exists types, LoadAuthorizationDetailTypes tenantID (xd_AuthzDetailTypeRepo d) details = Ok types /\
    ValidateAuthorizationDetails (xd_AuthzDetailTypeRepo d) tenantID details = Ok tt /\
    DetailsSubsetOf details granted types = Ok tt.

Lemma exchange_details_Ok (s : ExchangeStore) actor subject details s' w :
  exchange_details d tenantID in_ now actor subject s = (Ok details, s', w) ->
  details_within details (ir_AuthorizationDetails subject).
Proof.
  unfold exchange_details. destruct (xi_AuthorizationDetails in_) as [|x l]; [intros Hrun; ran Hrun; by left|].
  destruct (ValidateAuthorizationDetails _ _ _) as [[]|e] eqn:Hv; [|done].
  intros (types & s1 & w1 & w2 & Hl & Hrun & ->)%eff_bind_Ok. unfold lift in Hl. injection Hl as Hl <- <-.
  destruct (DetailsSubsetOf _ _ _) as [[]|e] eqn:Hs; [|done]. ran Hrun. right. by exists types.
Qed.

Lemma exchange_client_Ok (s : ExchangeStore) actor subject resource scopes depth client s' w :
  exchange_client d tenantID in_ now actor subject resource scopes depth s = (Ok client, s', w) ->
  xd_ClientRepo d tenantID (xi_ClientID in_) = Ok (Some client) /\
  (xd_Authorizer d = None -> GrantTokenExchange ∈ client_GrantTypes client /\
     forall sc, sc ∈ scopes -> sc ∈ Fields (client_Scope client)).
Proof.
  unfold exchange_client. intros (r & s1 & w1 & w2 & Hl & Hrun & ->)%eff_bind_Ok. unfold lift in Hl.
  destruct (xd_ClientRepo d tenantID (xi_ClientID in_)) as [x|e] eqn:Hi; [|done]. simpl in Hl. simplify_eq.
  destruct r as [x|]; [|done]. apply eff_bind_Ok in Hrun as (dec & s2 & w3 & w4 & Hl & Hrun & ->). unfold lift in Hl.
  destruct (evaluateTokenExchangePolicy _ _ _ _ _ _ _ _) as [y|e] eqn:Hy; [|done]. simpl in Hl. simplify_eq.
  accepted Hrun Hp. ran Hrun. split; [done|]. intros Hnone. unfold evaluateTokenExchangePolicy in Hy. rewrite Hnone in Hy.
  apply Ok_inj in Hy. subst dec. apply negb_false_iff in Hp. apply Evaluate_grant_token_exchange in Hp as (Hg & Hsc & _); [|done]. done.
Qed.

(** The user's grant to an agent, as the stores hold it. *)
Definition delegated (s : ExchangeStore) (sub agentID : string) (scopes : list string) : Prop :=
  exists g, FindAgentDelegation (xs_consents s) tenantID sub agentID = Some g /\ PermitsDelegation g scopes now = true.

Lemma find_delegation_run (s : ExchangeStore) sub agentID :
  call (W := exchange_event) (F := failure E) PortError (find_delegation tenantID sub agentID) s
  = (Ok (FindAgentDelegation (xs_consents s) tenantID sub agentID), s, []).
Proof. by destruct s. Qed.

Lemma grants_permit_Ok sub scopes agents (s : ExchangeStore) s' w :
  grants_permit (E := E) tenantID now sub agents scopes s = (Ok true, s', w) ->
  forall a, a ∈ agents -> delegated s sub a scopes.
Proof.
  revert s' w. induction agents as [|x agents IH]; intros s' w Hrun a Ha; [by apply not_elem_of_nil in Ha|].
  cbn [grants_permit] in Hrun. rewrite (eff_bind_pure _ _ s _ s (find_delegation_run s sub x)) in Hrun.
  destruct (FindAgentDelegation _ _ _ _) as [g|] eqn:Hg; [|ran Hrun; done].
  destruct (PermitsDelegation g scopes now) eqn:Hp; [|ran Hrun; done].
  apply elem_of_cons in Ha as [-> |Ha]; [by exists g|]. by apply (IH s' w).
Qed.

(** The agents that act in an exchange. *)
Definition acting_agents (subject : IntrospectionResult) (actorAgents : list string) (acting : string) : list string :=
  MergeAgentChain [[ir_AgentID subject]; ir_AgentChain subject; actorAgents; [acting]].

Lemma exchange_delegation_Ok (s : ExchangeStore) actor subject is_workload actorAgents acting scopes delegating s' w :
  exchange_delegation d tenantID now actor subject is_workload actorAgents acting scopes s = (Ok delegating, s', w) ->
  (forall a, a ∈ delegating -> delegated s (ir_Sub subject) a scopes) /\
  (is_workload = false -> isUserSubject (Some (xd_ClientRepo d)) tenantID (ir_Sub subject) = Ok true ->
   delegating = acting_agents subject actorAgents acting).
Proof.
  unfold exchange_delegation. fold (acting_agents subject actorAgents acting).
  intros (delegs & s1 & w1 & w2 & H1 & Hrun & ->)%eff_bind_Ok.
  assert (s1 = s /\ (is_workload = false -> isUserSubject (Some (xd_ClientRepo d)) tenantID (ir_Sub subject) = Ok true ->
    delegs = acting_agents subject actorAgents acting)) as [-> Hd].
  { destruct (negb is_workload && _) eqn:Hc.
    - apply eff_bind_Ok in H1 as (user & s2 & w3 & w4 & Hl & H1 & ->). unfold lift in Hl.
      injection Hl as Hu <- <-. unfold eff_ret in H1. injection H1 as <- <- <-. split; [done|]. intros _ Hu'. rewrite Hu' in Hu. simpl in Hu. by injection Hu as <-.
    - ran H1. split; [done|]. intros -> _. simpl in Hc. apply negb_false_iff in Hc. by go_bool. }
  apply eff_bind_Ok in Hrun as (granted & s3 & w3 & w4 & Hg & Hrun & ->). accepted Hrun Hok. ran Hrun.
  apply negb_false_iff in Hok as ->. split; [|done]. unfold delegationsPermit in Hg.
  destruct delegating as [|x l]; [intros a Ha; by apply not_elem_of_nil in Ha|].
  destruct (negb (xd_has_Consents d)); [ran Hg; done|]. by apply (grants_permit_Ok _ _ _ _ _ _ Hg).
Qed.

(** A grant that a request may claim. *)
Definition claimable (s : ExchangeStore) (subject : IntrospectionResult) (resource : string) : Prop :=
  exists g, xs_grants s !! HashTokenExchangeGrant (xi_TokenExchangeGrant in_) = Some (tenantID, g) /\
    (now < tg_ExpiresAt g)%Z /\ tg_ClientID g = xi_ClientID in_ /\ tg_SubjectTokenID g = ir_JTI subject /\
    tg_Resource g = resource /\ ir_JTI subject <> "".

Lemma grant_Claim_spec tenant hash grant (grants : TokenExchangeGrantStore) :
  (exists g, grants !! hash = Some (tenant, g) /\ (now < tg_ExpiresAt g)%Z /\ tg_ClientID g = tg_ClientID grant /\
     tg_SubjectTokenID g = tg_SubjectTokenID grant /\ tg_Resource g = tg_Resource grant /\
     grant_Claim tenant hash grant now grants = (true, delete hash grants)) \/
  grant_Claim tenant hash grant now grants = (false, grants).
Proof.
  unfold grant_Claim. destruct (grants !! hash) as [[t g]|] eqn:Hg; [|by right].
  destruct (_ || _) eqn:Hc; [by right|]. left. exists g. rewrite !orb_false_iff in Hc.
  destruct Hc as [[[[H1 H2] H3] H4] H5]. apply negb_false_iff in H2. unfold After in H2. go_bool.
  subst t. split_and!; [done|lia|done..].
Qed.

(** The store after the claim. *)
Definition after_claim (s : ExchangeStore) : ExchangeStore :=
  if rebinding in_
  then {| xs_consents := xs_consents s; xs_grants := delete (HashTokenExchangeGrant (xi_TokenExchangeGrant in_)) (xs_grants s) |}
  else s.

Lemma exchange_claim_cases actor subject resource (s : ExchangeStore) :
  (exists w, exchange_claim d tenantID in_ now actor subject resource s =
     (Err (NewOAuthError "invalid_grant" "The token_exchange_grant is invalid or expired."), s, w) /\ rebinding in_ = true) \/
  exists lifetime, exchange_claim d tenantID in_ now actor subject resource s = (Ok lifetime, after_claim s, []) /\
    (rebinding in_ = true -> claimable s subject resource /\
       lifetime.1 = Z.min (Unix (Add now TokenExchangeGrantTTL)) (ir_Exp subject) /\ lifetime.2 = (lifetime.1 - Unix now)%Z) /\
    (rebinding in_ = false -> lifetime = (0%Z, xd_AccessTokenTTLSeconds d)).
Proof.
  unfold exchange_claim, after_claim, claimable. destruct (rebinding in_) eqn:Hr; simpl; [|right; by eexists].
  unfold claimTokenExchangeGrant. destruct (negb (xd_has_Grants d) || (ir_JTI subject =? "")) eqn:Hc; [left; by eexists|].
  apply orb_false_iff in Hc as [_ Hj]. go_bool.
  destruct (grant_Claim_spec tenantID (HashTokenExchangeGrant (xi_TokenExchangeGrant in_))
    {| tg_ClientID := xi_ClientID in_; tg_SubjectTokenID := ir_JTI subject; tg_Resource := resource; tg_ExpiresAt := 0%Z |} (xs_grants s))
    as [(g & Hg & He & H1 & H2 & H3 & Hrun)|Hrun].
  - right. eexists. split; [|split; [intros _|intros [=]]].
    + rewrite (eff_bind_pure _ _ s true {| xs_consents := xs_consents s;
        xs_grants := delete (HashTokenExchangeGrant (xi_TokenExchangeGrant in_)) (xs_grants s) |}); [reflexivity|].
      unfold call. simpl. by rewrite Hrun.
    + split; [|done]. by exists g.
  - left. eexists. split; [|done]. rewrite (eff_bind_pure _ _ s false s); [reflexivity|].
    unfold call. simpl. rewrite Hrun. by destruct s.
Qed.

Lemma touches_run sub agents (s : ExchangeStore) : exists cs,
  eff_for_each (fun agent => call (W := exchange_event) (F := failure E) PortError (touch_delegation tenantID sub agent now)) agents s
  = (Ok tt, {| xs_consents := cs; xs_grants := xs_grants s |}, []).
Proof.
  revert s. induction agents as [|a agents IH]; intros s; [by exists (xs_consents s); destruct s|].
  cbn [eff_for_each]. destruct (IH {| xs_consents := TouchAgentDelegation tenantID sub a now (xs_consents s); xs_grants := xs_grants s |})
    as [cs Hcs]. exists cs. erewrite eff_bind_pure; [exact Hcs|]. done.
Qed.

Lemma record_issue_run client actor subject wg acting resource jti scopes sc act maxDepth agentID (s : ExchangeStore) : exists w,
  record_issue (E := E) (C := C) tenantID in_ now client actor subject wg acting resource jti scopes sc act maxDepth agentID s = (Ok tt, s, w).
Proof. destruct wg; by eexists. Qed.

(** What the issuer is asked to sign. *)
Definition asked (client : C) (subject : IntrospectionResult) (wg : option WorkloadIdentityGrant) (actorAgents : list string)
    (resource : string) (scopes : list string) (sc : option SenderConstraint) (act : act_claim) (details : list AuthorizationDetail)
    (expiresAt : Z) : AccessTokenInput C :=
  let agentID := issued_agent in_ subject wg in
  exchange_input now client subject scopes sc resource act details agentID
    (MergeAgentChain [[ir_AgentID subject]; ir_AgentChain subject; actorAgents; [agentID]]) expiresAt.

(** The ways an issue ends: no grant, no signature, or a token. *)
Lemma exchange_issue_cases client actor subject wg actorAgents acting resource scopes sc act maxDepth details delegating
    (s : ExchangeStore) r s' w :
  exchange_issue d tenantID in_ now client actor subject wg actorAgents acting resource scopes sc act maxDepth details delegating s
    = (r, s', w) ->
  (rebinding in_ = true /\ s' = s /\ exists e, r = Err e) \/
  exists lifetime, (rebinding in_ = true -> claimable s subject resource /\
       lifetime.1 = Z.min (Unix (Add now TokenExchangeGrantTTL)) (ir_Exp subject) /\ lifetime.2 = (lifetime.1 - Unix now)%Z) /\
    (rebinding in_ = false -> lifetime = (0%Z, xd_AccessTokenTTLSeconds d)) /\
    match xd_SignAccessToken d (asked client subject wg actorAgents resource scopes sc act details lifetime.1) with
    | Err e => r = Err e /\ s' = after_claim s
    | Ok (token, jti) => xs_grants s' = xs_grants (after_claim s) /\
        r = Ok {| xr_AccessToken := token; xr_IssuedTokenType := tokenTypeAccessTokenURN; xr_TokenType := PresentationTokenType sc;
                  xr_ExpiresIn := lifetime.2; xr_Scope := Join scopes " "; xr_AuthorizationDetails := details |}
    end.
Proof.
  unfold exchange_issue. destruct (exchange_claim_cases actor subject resource s) as [(w0 & Hc & Hr)|(lifetime & Hc & H1 & H2)].
  - rewrite (eff_bind_fails _ _ _ _ _ _ Hc). intros [= <- <- <-]. left. split_and!; [done|done|by eexists].
  - rewrite (eff_bind_pure _ _ _ _ _ Hc). intros Hrun. right. exists lifetime. split_and!; [done|done|]. revert Hrun.
    unfold asked. destruct (xd_SignAccessToken _ _) as [[token jti]|e].
    + rewrite (eff_bind_pure (lift _) _ _ (token, jti) (after_claim s)) by done.
      destruct (touches_run (ir_Sub subject) delegating (after_claim s)) as [cs Hcs]. rewrite (eff_bind_pure _ _ _ _ _ Hcs).
      edestruct record_issue_run as [w1 Hw]. rewrite (eff_bind_run _ _ _ _ _ _ Hw). unfold eff_ret. by intros [= <- <- _].
    + rewrite (eff_bind_fails (lift _) _ _ e (after_claim s) []) by done. by intros [= <- <- _].
Qed.

(** ** What an exchange gives *)

Lemma ReboundExchangeBinding_proves proof sc : ReboundExchangeBinding proof = Some sc -> proves proof sc.
Proof.
  unfold ReboundExchangeBinding, proves, bound_key. destruct (proof_JKT proof <>? "") eqn:E1; go_bool.
  - intros [= <-]. simpl. split; [done|]. by left.
  - destruct (proof_X5TS256 proof <>? "") eqn:E2; go_bool; [|done]. intros [= <-]. simpl. split; [done|]. by right.
Qed.

Lemma run_signed s r s' w (x : exchange_run s r s' w) : exists lifetime jti,
  (rebinding in_ = true -> claimable s (run_subject _ _ _ _ x) (mcp_Resource (run_mcp _ _ _ _ x)) /\
     lifetime.1 = Z.min (Unix (Add now TokenExchangeGrantTTL)) (ir_Exp (run_subject _ _ _ _ x))) /\
  (rebinding in_ = false -> lifetime = (0%Z, xd_AccessTokenTTLSeconds d)) /\
  xd_SignAccessToken d (asked (run_client _ _ _ _ x) (run_subject _ _ _ _ x) (run_workload _ _ _ _ x) (run_actorAgents _ _ _ _ x)
    (mcp_Resource (run_mcp _ _ _ _ x)) (run_scopes _ _ _ _ x) (run_binding _ _ _ _ x) (run_act _ _ _ _ x) (run_details _ _ _ _ x)
    lifetime.1) = Ok (xr_AccessToken r, jti) /\
  xs_grants s' = xs_grants (after_claim s) /\ xr_ExpiresIn r = lifetime.2.
Proof.
  destruct (exchange_issue_cases _ _ _ _ _ _ _ _ _ _ _ _ _ _ _ _ _ (run_issue_ok _ _ _ _ x))
    as [(_ & _ & e & [=])|(lifetime & H1 & H2 & H3)].
  destruct (xd_SignAccessToken _ _) as [[token jti]|e] eqn:Hs; destruct H3 as [H3 H4]; [|done].
  apply Ok_inj in H4. assert (xr_AccessToken r = token /\ xr_ExpiresIn r = lifetime.2) as [-> ->] by by rewrite H4.
  exists lifetime, jti. split_and!; [|done|done|done|done]. intros Hr. destruct (H1 Hr) as (? & ? & _). done.
Qed.

(** C20. An exchange never widens what was presented: the issued token is for the
    same subject and for the one registered resource that was named, every scope
    is one of the subject token, of the resource and of the client, the
    authorization details are those of the subject token or within them, and a
    bound subject token is exchanged only with a proof of its key, which binds the
    new token.  With a grant of rebinding the new token is bound to the key that
    was proved and ends no later than the subject token. *)
Theorem exchange_never_widens (s : ExchangeStore) r s' w : ExchangeToken d tenantID in_ now s = (Ok r, s', w) ->
  exists subject wg mcp client (issued : AccessTokenInput C) jti,
    presented subject wg /\
    xd_ClientRepo d tenantID (xi_ClientID in_) = Ok (Some client) /\
    ResolveResourceIndicator (xd_McpResourceServerRepo d) tenantID (xi_Resource in_) [] = Ok (Some mcp) /\
    xd_SignAccessToken d issued = Ok (xr_AccessToken r, jti) /\
    at_Client issued = client /\ at_Sub issued = ir_Sub subject /\ at_Audiences issued = [mcp_Resource mcp] /\
    (forall sc, sc ∈ at_Scopes issued -> sc ∈ Fields (ir_Scope subject) /\ sc ∈ mcp_Scopes mcp /\
       (xd_Authorizer d = None -> sc ∈ Fields (client_Scope client))) /\
    details_within (at_AuthorizationDetails issued) (ir_AuthorizationDetails subject) /\
    (forall sc, at_SenderConstraint issued = Some sc -> proves (exchange_proof in_) sc) /\
    (rebinding in_ = false -> forall sc, ir_SenderConstraint subject = Some sc -> exists sc',
       at_SenderConstraint issued = Some sc' /\ sender_Type sc' = sender_Type sc /\ bound_key sc' = bound_key sc) /\
    (rebinding in_ = true -> at_SenderConstraint issued <> None /\ (at_ExpiresAt issued <= ir_Exp subject)%Z).
Proof.
  intros Hrun. destruct (ExchangeToken_runs _ _ _ _ Hrun) as [x]. destruct (run_signed _ _ _ _ x) as (lifetime & jti & Hc & _ & Hs & _).
  destruct x as [mcp subject wg actor agents acting act depth scopes details client sc dels Ht Hsu Ha Hk Hch Hsc Hd Hcl Hb Hdel Hi].
  simpl in *. eexists subject, wg, mcp, client, _, jti.
  split_and!; [by apply exchange_subject_Ok in Hsu|by apply exchange_client_Ok in Hcl as [? _]|by apply exchange_target_Ok in Ht as (_ & ? & _)|exact Hs|..];
    [done|done|done|..]; cbn [asked exchange_input at_Scopes at_AuthorizationDetails at_SenderConstraint at_ExpiresAt].
  - intros x Hx. apply exchange_scopes_Ok in Hsc as [Hsc _]. destruct (Hsc x Hx) as [H1 H2]. split_and!; [done|done|].
    intros Hnone. apply exchange_client_Ok in Hcl as [_ Hcl]. by apply Hcl.
  - by apply exchange_details_Ok in Hd.
  - intros b ->. revert Hb. unfold exchange_binding. destruct (rebinding in_).
    + destruct (ReboundExchangeBinding _) eqn:Hre; [|done]. intros [= ->]. by apply ReboundExchangeBinding_proves.
    + intros Hb. by apply DecideExchangeBinding_keeps_key in Hb as (_ & Hp & _); apply Hp.
  - unfold exchange_binding in Hb. intros Hr b Hsub. rewrite Hr in Hb.
    apply DecideExchangeBinding_keeps_key in Hb as (Hk2 & _ & _). by destruct (Hk2 b Hsub) as [_ Hx].
  - intros Hr. destruct (Hc Hr) as [_ ->]. split; [|lia]. unfold exchange_binding in Hb. rewrite Hr in Hb.
    destruct (ReboundExchangeBinding _); by simplify_eq.
Qed.

(** An exchanged token always names who acts: the actor is the client or the
    subject of an active actor token, it stands outside the chain of the subject
    token, the chain stays within the limit of the tenant and of the product,
    [may_act] is obeyed, no agent of either token is lost, and when the subject is
    a user, every agent of the chain holds a grant of this user that permits the
    scopes now. *)
Theorem exchange_attributes (s : ExchangeStore) r s' w : ExchangeToken d tenantID in_ now s = (Ok r, s', w) ->
  exists subject wg actor actorAgents act maxDepth (issued : AccessTokenInput C) jti,
    presented subject wg /\ acts actor actorAgents /\
    xd_SignAccessToken d issued = Ok (xr_AccessToken r, jti) /\
    at_Act issued = Some act /\ act_sub act = actor /\ actor <> "" /\
    (forall inner, ir_Act subject = Some inner -> act_act act = Some inner) /\
    resolveMaxDelegationDepth (xd_DelegationPolicy d) tenantID = Ok maxDepth /\
    (actDepth (Some act) <= maxDepth <= DefaultMaxDelegationDepth)%Z /\
    (forall m, ir_MayAct subject = Some m -> act_sub m = actor) /\
    NoDup (at_AgentChain issued) /\
    (forall a, a <> "" -> a = ir_AgentID subject \/ a ∈ ir_AgentChain subject \/ a ∈ actorAgents -> a ∈ at_AgentChain issued) /\
    (wg = None -> isUserSubject (Some (xd_ClientRepo d)) tenantID (ir_Sub subject) = Ok true ->
     forall a, a ∈ at_AgentChain issued -> delegated s (ir_Sub subject) a (at_Scopes issued)).
Proof.
  intros Hrun. destruct (ExchangeToken_runs _ _ _ _ Hrun) as [x]. destruct (run_signed _ _ _ _ x) as (lifetime & jti & _ & _ & Hs & _).
  destruct x as [mcp subject wg actor agents acting act depth scopes details client sc dels Ht Hsu Ha Hk Hch Hsc Hd Hcl Hb Hdel Hi].
  simpl in *. apply exchange_chain_Ok in Hch as (-> & Hdepth & Hmay & Hle). pose proof (exchange_actor_Ok _ _ _ _ _ Ha) as Hacts.
  eexists subject, wg, actor, agents, _, depth, _, jti.
  split_and!; [by apply exchange_subject_Ok in Hsu|done|exact Hs|..]; [done|done|by destruct Hacts| |done|apply Hle|apply Hle|done|..];
    cbn [asked exchange_input at_AgentChain at_Scopes].
  - intros inner Hin. unfold exchange_act. by rewrite Hin.
  - apply MergeAgentChain_NoDup.
  - intros a Hne Hin. apply MergeAgentChain_elem. split; [done|]. destruct Hin as [-> |[Hin|Hin]].
    + exists [ir_AgentID subject]. split; [by left|by left].
    + exists (ir_AgentChain subject). split; [by right; left|done].
    + exists agents. split; [by do 2 right; left|done].
  - intros -> Hu a Hin. apply exchange_delegation_Ok in Hdel as [Hdel Heq]. apply Hdel. rewrite Heq by done.
    apply MergeAgentChain_elem. apply MergeAgentChain_elem in Hin as (Hne & g & Hg & Hin). split; [done|].
    rewrite !elem_of_cons in Hg. destruct Hg as [-> |[-> |[-> |[-> |Hg%not_elem_of_nil]]]]; [| | |..|done].
    + exists [ir_AgentID subject]. split; [by left|done].
    + exists (ir_AgentChain subject). split; [by right; left|done].
    + exists agents. split; [by do 2 right; left|done].
    + exists [ir_AgentID subject]. split; [by left|]. apply list_elem_of_singleton in Hin. revert Hin. unfold issued_agent.
      destruct (rebinding in_ && _); intros ->; [by left|done].
Qed.

(** A repository of agents: one record for an identifier. *)
Definition finds (repo : AgentRepository E) (a : Agent) : Prop :=
  (exists id, agent_FindByID repo tenantID id = Ok (Some a)) \/ exists c, agent_FindByClientID repo tenantID c = Ok (Some a).

Definition coherent (repo : AgentRepository E) : Prop :=
  forall a b, finds repo a -> finds repo b -> agent_ID a = agent_ID b -> agent_Kind a = agent_Kind b.

(** The agents seen are autonomous. *)
Definition vetted (repo : AgentRepository E) (seen : list string) : Prop :=
  forall id, id ∈ seen -> exists a, finds repo a /\ agent_ID a = id /\ agent_Kind a = AgentKindAutonomous.

Lemma check_kind_Ok repo seen agent clientID (s : ExchangeStore) seen' s' w : coherent repo -> vetted repo seen ->
  (forall a, agent = Some a -> finds repo a) ->
  check_agent_kind (E := E) tenantID now seen agent clientID s = (Ok seen', s', w) ->
  vetted repo seen' /\ forall a, agent = Some a -> agent_Kind a = AgentKindAutonomous.
Proof.
  intros Hco Hv Hf. unfold check_agent_kind. destruct agent as [a|]; [|intros Hr; by ran Hr].
  specialize (Hf a eq_refl). destruct (contains seen (agent_ID a)) eqn:Hc.
  - intros Hr. ran Hr. split; [done|]. intros ? [= <-]. apply contains_true, Hv in Hc as (b & Hb & Hid & Hk).
    rewrite <- Hk. by apply Hco.
  - intros ([] & s1 & w1 & w2 & Hr & Hrun & _)%eff_bind_Ok. ran Hrun. unfold RejectAgentIssuanceWithoutApproval in Hr.
    destruct (negb (AgentRequiresHumanApproval (Some a))) eqn:Hk; [|done]. unfold AgentRequiresHumanApproval in Hk.
    assert (agent_Kind a = AgentKindAutonomous) by by go_bool. split; [|by intros ? [= <-]].
    intros id [-> |Hid]%elem_of_cons; [by exists a|by apply Hv].
Qed.

Lemma check_id_Ok repo seen agentID clientID (s : ExchangeStore) seen' s' w : coherent repo -> vetted repo seen ->
  check_agent_id tenantID now repo seen agentID clientID s = (Ok seen', s', w) ->
  vetted repo seen' /\ forall a, agentID <> "" -> agent_FindByID repo tenantID agentID = Ok (Some a) -> agent_Kind a = AgentKindAutonomous.
Proof.
  intros Hco Hv. unfold check_agent_id. destruct (agentID =? "") eqn:He; go_bool; [intros Hr; by ran Hr|].
  destruct (agent_FindByID repo tenantID agentID) as [agent|e] eqn:Hf; [|done]. intros Hr.
  apply (check_kind_Ok repo) in Hr as [H1 H2]; [|done|done|intros a ->; left; by exists agentID].
  split; [done|]. intros a _ [= ->]. by apply H2.
Qed.

(** A token of an agent that a human must approve is never the product of an
    exchange: the agent of the workload, the agent that holds the subject token and
    the agent of the client are all autonomous, when they exist. *)
Theorem exchange_autonomous_only (s : ExchangeStore) r s' w (repo : AgentRepository E) :
  ExchangeToken d tenantID in_ now s = (Ok r, s', w) -> xd_AgentRepo d = Some repo -> coherent repo ->
  exists subject wg, presented subject wg /\
    (forall a, agent_FindByClientID repo tenantID (xi_ClientID in_) = Ok (Some a) -> agent_Kind a = AgentKindAutonomous) /\
    (forall a, ir_AgentID subject <> "" -> agent_FindByID repo tenantID (ir_AgentID subject) = Ok (Some a) ->
       agent_Kind a = AgentKindAutonomous) /\
    (forall g a, wg = Some g -> wg_AgentID g <> "" -> agent_FindByID repo tenantID (wg_AgentID g) = Ok (Some a) ->
       agent_Kind a = AgentKindAutonomous).
Proof.
  intros Hrun Hrepo Hco. destruct (ExchangeToken_runs _ _ _ _ Hrun) as [x].
  destruct x as [mcp subject wg actor agents acting act depth scopes details client sc dels Ht Hsu Ha Hk _ _ _ _ _ _ _].
  apply exchange_subject_Ok in Hsu. exists subject, wg. split; [done|].
  unfold rejectSupervisedAgents in Hk. rewrite Hrepo in Hk.
  apply eff_bind_Ok in Hk as (seen1 & s1 & w1 & w2 & H1 & Hk & _). apply eff_bind_Ok in Hk as (seen2 & s2 & w3 & w4 & H2 & Hk & _).
  assert (vetted repo []) as Hv0 by (intros id Hid; by apply not_elem_of_nil in Hid).
  assert (vetted repo seen1 /\ forall g a, wg = Some g -> wg_AgentID g <> "" ->
    agent_FindByID repo tenantID (wg_AgentID g) = Ok (Some a) -> agent_Kind a = AgentKindAutonomous) as [Hv1 Hwg].
  { destruct wg as [g|]; [|ran H1; done]. apply check_id_Ok in H1 as [Hv1 Hg]; [|done|done].
    split; [done|]. intros g' a [= <-]. apply Hg. }
  apply check_id_Ok in H2 as [Hv2 Hsubj]; [|done|done].
  destruct (agent_FindByClientID repo tenantID (xi_ClientID in_)) as [acting'|e] eqn:Hc; [|done].
  apply eff_bind_Ok in Hk as (seen3 & s3 & w5 & w6 & H3 & Hk & _).
  apply (check_kind_Ok repo) in H3 as [_ Hact]; [|done|done|intros a ->; right; by exists (xi_ClientID in_)].
  split_and!; [|done|done]. intros a [= ->]. by apply Hact.
Qed.

(** What a successful exchange with a grant claimed. *)
Lemma success_claims (s : ExchangeStore) r s' w : ExchangeToken d tenantID in_ now s = (Ok r, s', w) -> rebinding in_ = true ->
  (exists subject mcp, presented subject None /\
     ResolveResourceIndicator (xd_McpResourceServerRepo d) tenantID (xi_Resource in_) [] = Ok (Some mcp) /\
     claimable s subject (mcp_Resource mcp)) /\
  xs_grants s' = delete (HashTokenExchangeGrant (xi_TokenExchangeGrant in_)) (xs_grants s).
Proof.
  intros Hrun Hr. destruct (ExchangeToken_runs _ _ _ _ Hrun) as [x].
  destruct (run_signed _ _ _ _ x) as (lifetime & jti & Hc & _ & _ & Hg & _).
  destruct x as [mcp subject wg actor agents acting act depth scopes details client sc dels Ht Hsu Ha Hk Hch Hsc Hd Hcl Hb Hdel Hi].
  simpl in *. destruct (Hc Hr) as [Hclaim _]. unfold after_claim in Hg. rewrite Hr in Hg. split; [|done].
  apply exchange_target_Ok in Ht as (_ & Hres & Hreb). apply exchange_subject_Ok in Hsu.
  destruct wg as [g|]; [|by exists subject, mcp]. destruct Hsu as [Hty _]. by destruct (Hreb Hr).
Qed.
End proofs.

(** A grant of rebinding works once, and only as it was given: a successful
    exchange with it claimed the grant of this tenant, client, subject token and
    resource before its end, and from then on no exchange with the same grant
    succeeds, whatever else it presents. *)
Theorem grant_works_once {E C} `{ClientView C} `{!ClientPolicyView C} `{!ClientTenantView C} (d : ExchangeTokenDeps E C) tenantID in_ now
    (s : ExchangeStore) r s' w :
  ExchangeToken d tenantID in_ now s = (Ok r, s', w) -> xi_TokenExchangeGrant in_ <> "" ->
  (exists subject mcp, presented d tenantID in_ now subject None /\
     ResolveResourceIndicator (xd_McpResourceServerRepo d) tenantID (xi_Resource in_) [] = Ok (Some mcp) /\
     claimable tenantID in_ now s subject (mcp_Resource mcp)) /\
  (forall (d2 : ExchangeTokenDeps E C) tenant2 in2 now2 r2 s2 w2, xi_TokenExchangeGrant in2 = xi_TokenExchangeGrant in_ ->
     ExchangeToken d2 tenant2 in2 now2 s' <> (Ok r2, s2, w2)).
Proof.
  intros Hrun Hne. assert (Hr : rebinding in_ = true) by (unfold rebinding; by rewrite bool_decide_false).
  destruct (success_claims _ _ _ _ _ _ _ _ Hrun Hr) as [Hclaim Hg]. split; [done|].
  intros d2 tenant2 in2 now2 r2 s2 w2 Heq Hrun2.
  assert (Hr2 : rebinding in2 = true) by (unfold rebinding; rewrite Heq; by rewrite bool_decide_false).
  destruct (success_claims _ _ _ _ _ _ _ _ Hrun2 Hr2) as [(subject & mcp & _ & _ & g & Hlook & _) _].
  rewrite Heq, Hg in Hlook. revert Hlook. unfold TokenExchangeGrantStore in *. by rewrite lookup_delete_eq.
Qed.

(** A request that is refused keeps its grant, and everything else in the
    stores, with one exception: when the signer refuses, the grant that was
    claimed for it is gone. *)
Theorem refusal_keeps_grant {E C} `{ClientView C} `{!ClientPolicyView C} `{!ClientTenantView C} (d : ExchangeTokenDeps E C) tenantID in_ now
    (s : ExchangeStore) e s' w :
  ExchangeToken d tenantID in_ now s = (Err e, s', w) ->
  s' = s \/
  (exists issued, xd_SignAccessToken d issued = Err e) /\ rebinding in_ = true /\
    s' = {| xs_consents := xs_consents s; xs_grants := delete (HashTokenExchangeGrant (xi_TokenExchangeGrant in_)) (xs_grants s) |}.
Proof.
  unfold ExchangeToken. intros Hrun.
  apply eff_bind_Err in Hrun as [H1|(mcp & s1 & w1 & w2 & H1 & Hrun & ->)]; destruct (exchange_target_reads _ _ _ _ _ _ _ _ H1) as [-> Hw];
    [by left|clear Hw].
  apply eff_bind_Err in Hrun as [H2|([subject wg] & s1 & w3 & w4 & H2 & Hrun & ->)];
    destruct (exchange_subject_reads _ _ _ _ _ _ _ _ H2) as [-> Hw]; [by left|clear Hw].
  apply eff_bind_Err in Hrun as [H3|([actor agents] & s1 & w5 & w6 & H3 & Hrun & ->)];
    destruct (exchange_actor_reads _ _ _ _ _ _ _ _ H3) as [-> Hw]; [by left|clear Hw].
  apply eff_bind_Err in Hrun as [H4|(acting & s1 & w7 & w8 & H4 & Hrun & ->)];
    destruct (supervised_reads _ _ _ _ _ _ _ _ _ _ _ H4) as [-> Hw]; [by left|clear Hw].
  apply eff_bind_Err in Hrun as [H5|([act depth] & s1 & w9 & w10 & H5 & Hrun & ->)];
    destruct (exchange_chain_reads _ _ _ _ _ _ _ _ _ _ H5) as [-> Hw]; [by left|clear Hw].
  apply eff_bind_Err in Hrun as [H6|(scopes & s1 & w11 & w12 & H6 & Hrun & ->)];
    destruct (exchange_scopes_reads _ _ _ _ _ _ _ _ _ _ H6) as [-> Hw]; [by left|clear Hw].
  apply eff_bind_Err in Hrun as [H7|(details & s1 & w13 & w14 & H7 & Hrun & ->)];
    destruct (exchange_details_reads _ _ _ _ _ _ _ _ _ _ H7) as [-> Hw]; [by left|clear Hw].
  apply eff_bind_Err in Hrun as [H8|(client & s1 & w15 & w16 & H8 & Hrun & ->)];
    destruct (exchange_client_reads _ _ _ _ _ _ _ _ _ _ _ _ _ H8) as [-> Hw]; [by left|clear Hw].
  destruct (exchange_binding in_ subject) as [sc|] eqn:H9; [|revert Hrun; intros [= <- <- <-]; by left].
  apply eff_bind_Err in Hrun as [H10|(delegating & s1 & w17 & w18 & H10 & Hrun & ->)];
    destruct (exchange_delegation_reads _ _ _ _ _ _ _ _ _ _ _ _ _ H10) as [-> Hw]; [by left|clear Hw].
  apply exchange_issue_cases in Hrun as [(_ & -> & _)|(lifetime & _ & _ & Hs)]; [by left|].
  destruct (xd_SignAccessToken _ _) as [[token jti]|e'] eqn:Hsign; destruct Hs as [H11 H12]; [done|].
  subst s'. unfold after_claim. destruct (rebinding in_) eqn:Hr; [|by left]. right. injection H11 as <-.
  split_and!; [by eexists|done|done].
Qed.

(** ** Witnesses: a gateway that rebinds the token of an agent *)

#[local] Instance demo_exchange_client : ClientView string :=
  {| client_ClientID c := c; client_GrantTypes _ := [GrantTokenExchange] |}.
#[local] Instance demo_exchange_policy : ClientPolicyView string :=
  {| client_ClientType _ := ClientConfidential; client_Scope _ := "mail calendar" |}.
#[local] Instance demo_exchange_tenant : ClientTenantView string := {| client_TenantID _ := "acme" |}.

Definition demo_bot : Agent :=
  {| agent_ID := "bot"; agent_TenantID := "acme"; agent_Name := "Bot"; agent_Description := None;
     agent_Kind := AgentKindAutonomous; agent_OwnerUserID := "bob"; agent_Status := AgentStatusActive; agent_CreatedAt := 1%Z;
     agent_UpdatedAt := 1%Z; agent_DisabledAt := None; agent_KilledAt := None |}.

Definition demo_agents : AgentRepository string :=
  {| agent_FindByID _ id := Ok (if id =? "bot" then Some demo_bot else None); agent_FindByClientID _ _ := Ok None |}.

(** Alice's token, held by an application for the agent, and bound to its key. *)
Definition demo_subject : IntrospectionResult :=
  {| ir_Active := true; ir_JTI := "jti-1"; ir_ClientID := "app"; ir_Sub := "alice"; ir_Scope := "mail calendar"; ir_Exp := 2000%Z;
     ir_Iat := 900%Z; ir_Managed := false; ir_SenderConstraint := Some (dpop "k1"); ir_Aud := ["https://gw"]; ir_Act := None;
     ir_MayAct := None; ir_AuthorizationDetails := []; ir_PrincipalType := PrincipalTypeAgent; ir_AgentID := "bot";
     ir_AgentChain := []; ir_ApprovalRequestID := "" |}.

Definition demo_exchange_at : Time := from_unix 1000.

Definition demo_exchange_deps (sign : AccessTokenInput string -> result (failure string) (string * string)) :
    ExchangeTokenDeps string string :=
  {| xd_ClientRepo _ c := Ok (if c =? "alice" then None else Some c); xd_Introspect _ := Ok (Some demo_subject);
     xd_SignAccessToken := sign; xd_AccessTokenTTLSeconds := 300; xd_Authorizer := None; xd_AuthzDetailTypeRepo := None;
     xd_McpResourceServerRepo := Some (fun _ r =>
       Ok (Some {| mcp_Resource := r; mcp_Scopes := ["mail"; "files"]; mcp_State := McpResourceServerActive |}));
     xd_AgentRepo := Some demo_agents; xd_has_Consents := true; xd_WorkloadVerifier := None; xd_DelegationPolicy := None;
     xd_has_Grants := true; xd_clock := demo_exchange_at; xd_detail_error _ := "" |}.

Definition signs : AccessTokenInput string -> result (failure string) (string * string) := fun inp => Ok ("for." ++ at_Sub inp, "jti-2").
Definition refuses : AccessTokenInput string -> result (failure string) (string * string) :=
  fun _ => Err (NewOAuthError "access_denied" "The agent guardrail rejected the issuance.").

Definition demo_exchange_input (scope grant key : string) : ExchangeTokenInput :=
  {| xi_ClientID := "gateway"; xi_SubjectToken := "t"; xi_SubjectTokenType := ""; xi_ActorToken := ""; xi_ActorTokenType := "";
     xi_Resource := ["https://mail"]; xi_Audience := []; xi_Scope := scope; xi_RequestedTokenType := ""; xi_ProofJKT := key;
     xi_ProofX5TS256 := ""; xi_AuthorizationDetails := []; xi_TokenExchangeGrant := grant |}.

Definition demo_grants : TokenExchangeGrantStore :=
  grant_Save "acme" (HashTokenExchangeGrant "g")
    {| tg_ClientID := "gateway"; tg_SubjectTokenID := "jti-1"; tg_Resource := "https://mail";
       tg_ExpiresAt := Add demo_exchange_at TokenExchangeGrantTTL |} ∅.

Definition demo_exchange_store : ExchangeStore :=
  {| xs_consents := SaveAgentDelegation "acme"
       {| con_UserID := "alice"; con_ClientID := ""; con_AgentID := "bot"; con_Scopes := ["mail"]; con_State := ConsentGranted;
          con_GrantedAt := 1%Z; con_ExpiresAt := from_unix 5000; con_RevokedAt := None; con_LastUsedAt := None;
          con_AuthorizationDetails := [] |} NewConsentRepository;
     xs_grants := demo_grants |}.

Definition demo_exchange (sign : AccessTokenInput string -> result (failure string) (string * string)) (scope grant key : string) :=
  ExchangeToken (demo_exchange_deps sign) "acme" (demo_exchange_input scope grant key) demo_exchange_at demo_exchange_store.

Definition demo_exchange_result : ExchangeTokenResult :=
  {| xr_AccessToken := "for.alice"; xr_IssuedTokenType := tokenTypeAccessTokenURN; xr_TokenType := "DPoP"; xr_ExpiresIn := 60;
     xr_Scope := "mail"; xr_AuthorizationDetails := [] |}.

Definition rebound := demo_exchange signs "mail" "g" "k2".
Definition unbound := demo_exchange signs "mail" "" "k2".
Definition unsigned := demo_exchange refuses "mail" "g" "k2".

Lemma rebound_run : rebound = (Ok demo_exchange_result, rebound.1.2, rebound.2).
Proof. vm_compute. reflexivity. Qed.

(** Without the grant the key that is not the token's is refused. *)
Lemma unbound_run : unbound =
  (Err (NewOAuthError "invalid_grant" "The proof does not match the key bound to the subject_token."), unbound.1.2, unbound.2).
Proof. vm_compute. reflexivity. Qed.

Lemma exchange_never_widens_witness :
  Ok "mail" = Ok (E := string) (xr_Scope demo_exchange_result) /\
  exists subject wg mcp client (issued : AccessTokenInput string) jti,
    presented (demo_exchange_deps signs) "acme" (demo_exchange_input "mail" "g" "k2") demo_exchange_at subject wg /\
    xd_ClientRepo (demo_exchange_deps signs) "acme" "gateway" = Ok (Some client) /\
    ResolveResourceIndicator (xd_McpResourceServerRepo (demo_exchange_deps signs)) "acme" ["https://mail"] [] = Ok (Some mcp) /\
    xd_SignAccessToken (demo_exchange_deps signs) issued = Ok ("for.alice", jti) /\ at_Client issued = client.
Proof.
  split; [reflexivity|].
  destruct (exchange_never_widens (demo_exchange_deps signs) "acme" (demo_exchange_input "mail" "g" "k2") demo_exchange_at
    demo_exchange_store demo_exchange_result rebound.1.2 rebound.2 rebound_run)
    as (subject & wg & mcp & client & issued & jti & H1 & H2 & H3 & H4 & H5 & _).
  exists subject, wg, mcp, client, issued, jti. split_and!; [exact H1|exact H2|exact H3|exact H4|exact H5].
Defined.

(** The gateway acts, and the agent stays in the chain with alice's grant. *)
Lemma exchange_attributes_witness : exists (issued : AccessTokenInput string) act jti,
  xd_SignAccessToken (demo_exchange_deps signs) issued = Ok ("for.alice", jti) /\ at_Act issued = Some act /\ act_sub act <> "".
Proof.
  destruct (exchange_attributes (demo_exchange_deps signs) "acme" (demo_exchange_input "mail" "g" "k2") demo_exchange_at
    demo_exchange_store demo_exchange_result rebound.1.2 rebound.2 rebound_run)
    as (subject & wg & actor & agents & act & depth & issued & jti & _ & _ & H3 & H4 & H5 & H6 & _).
  exists issued, act, jti. split_and!; [exact H3|exact H4|]. rewrite H5. exact H6.
Defined.

Lemma demo_agents_coherent : coherent "acme" demo_agents.
Proof.
  intros a b [[i Ha]|[c1 [=]]] [[j Hb]|[c2 [=]]] _. revert Ha Hb. simpl.
  repeat case_bool_decide; congruence.
Qed.

Lemma exchange_autonomous_only_witness : exists subject wg,
  presented (demo_exchange_deps signs) "acme" (demo_exchange_input "mail" "g" "k2") demo_exchange_at subject wg.
Proof.
  destruct (exchange_autonomous_only (demo_exchange_deps signs) "acme" (demo_exchange_input "mail" "g" "k2") demo_exchange_at
    demo_exchange_store demo_exchange_result rebound.1.2 rebound.2 demo_agents rebound_run eq_refl demo_agents_coherent)
    as (subject & wg & H & _).
  exists subject, wg. exact H.
Defined.

(** The gateway's second try does not get the token of the first. *)
Lemma grant_works_once_witness :
  ExchangeToken (demo_exchange_deps signs) "acme" (demo_exchange_input "mail" "g" "k2") demo_exchange_at demo_exchange_store
    = (Ok demo_exchange_result, rebound.1.2, rebound.2) /\
  ExchangeToken (demo_exchange_deps signs) "acme" (demo_exchange_input "mail" "g" "k2") demo_exchange_at rebound.1.2
    <> (Ok demo_exchange_result, rebound.1.2, rebound.2).
Proof.
  split; [exact rebound_run|].
  refine (proj2 (grant_works_once (demo_exchange_deps signs) "acme" (demo_exchange_input "mail" "g" "k2")
    demo_exchange_at demo_exchange_store demo_exchange_result rebound.1.2 rebound.2 rebound_run _) (demo_exchange_deps signs) "acme"
    (demo_exchange_input "mail" "g" "k2") demo_exchange_at demo_exchange_result rebound.1.2 rebound.2 eq_refl).
  discriminate.
Defined.

Lemma refusal_keeps_grant_witness :
  unbound.1.2 = demo_exchange_store \/
  (exists issued, xd_SignAccessToken (demo_exchange_deps signs) issued =
     Err (NewOAuthError "invalid_grant" "The proof does not match the key bound to the subject_token.")) /\
  rebinding (demo_exchange_input "mail" "" "k2") = true /\
  unbound.1.2 = {| xs_consents := xs_consents demo_exchange_store;
                   xs_grants := delete (HashTokenExchangeGrant "") (xs_grants demo_exchange_store) |}.
Proof.
  exact (refusal_keeps_grant (demo_exchange_deps signs) "acme" (demo_exchange_input "mail" "" "k2") demo_exchange_at
    demo_exchange_store _ unbound.1.2 unbound.2 unbound_run).
Defined.

(** A divergence, as a lemma.  The code claims the grant as the last decision, so
    that a request that is refused for another reason keeps it.  The guardrail of
    the agent decides later, in the signer, and its refusal loses the grant: the
    same request with a signer that agrees no longer succeeds. *)
Lemma signer_refusal_loses_grant :
  unsigned.1.1 = Err (NewOAuthError "access_denied" "The agent guardrail rejected the issuance.") /\
  xs_grants demo_exchange_store !! HashTokenExchangeGrant "g" <> None /\
  xs_grants unsigned.1.2 !! HashTokenExchangeGrant "g" = None /\
  (ExchangeToken (demo_exchange_deps signs) "acme" (demo_exchange_input "mail" "g" "k2") demo_exchange_at unsigned.1.2).1.1 =
    Err (NewOAuthError "invalid_grant" "The token_exchange_grant is invalid or expired.").
Proof. split_and!; vm_compute; done. Qed.
