(* ===== verification/Resilience.v ===== *)
(** * Shared: rate limiter, circuit breaker and retries

    [backend/shared/ratelimit/db_memory/rate_limiter.go] with the types of
    [ports/rate_limiter.go], and [backend/shared/resilience/circuitbreaker.go].

    Both keep a small state behind a mutex and read the clock once per call, so
    an execution is a sequence of calls with their times.  Counters have the
    width of the code: [int] is 64 bits and [uint32] 32 bits; failure rates
    and seconds are IEEE 754 doubles ([spec_float]).

    The theorems: no interval of the length of a window sees more than twice
    the allowed requests of one key; an open breaker refuses until it expires,
    and it recovers; a retry makes at most five attempts. *)

From Stdlib Require Import Ascii String ZArith Lia.
From Stdlib Require Import Floats.SpecFloat.
From stdpp Require Import base strings list gmap sorting.
From S2P Require Import Prelude GoStrings RichAuthorization.

Local Open Scope string_scope.
Local Open Scope go_scope.

(** ** The rate limiter *)

Record RateLimitResult := { rl_Allowed : bool; RetryAfterSeconds : Z }.
Record RateLimitPolicyConfig := { MaxRequests : Z; WindowSeconds : Z }.

Record counter := { count : Z; expiresAt : Time }.

Record RateLimiter := {
  rl_configs : gmap string RateLimitPolicyConfig;
  rl_counters : gmap string counter;
}.

Definition NewRateLimiter (configs : gmap string RateLimitPolicyConfig) : RateLimiter :=
  {| rl_configs := configs; rl_counters := ∅ |}.

(** [Duration.Seconds]: whole seconds plus the rest divided by 1e9, in doubles;
    and [int(math.Ceil(x))] of a double in the range of [int]. *)
Definition SecondsOf (d : Duration) : spec_float :=
  SFadd 53 1024 (float64_of_int (Z.quot d Second))
    (SFdiv 53 1024 (float64_of_int (Z.rem d Second)) (float64_of_int Second)).

Definition ceil_int (f : spec_float) : Z :=
  match f with
  | S754_finite sign m e =>
      let z := if sign then Z.neg m else Z.pos m in
      match e with
      | Zneg k => - ((- z) / 2 ^ Z.pos k)
      | _ => z * 2 ^ e
      end
  | _ => 0
  end%Z.

Example ceil_example : ceil_int (SecondsOf 1500000000%Z) = 2%Z /\ ceil_int (SecondsOf (3 * Second)%Z) = 3%Z.
Proof. vm_compute. done. Qed.

(** [int(x)] of a double in the range of [int]: the part before the point. *)
Definition trunc_int (f : spec_float) : Z :=
  match f with
  | S754_finite sign m e =>
      let z := match e with Zneg k => Z.pos m / 2 ^ Z.pos k | _ => Z.pos m * 2 ^ e end in
      if sign then - z else z
  | _ => 0
  end%Z.

(** The counter after a request at [now]. *)
Definition tick (config : RateLimitPolicyConfig) (c : option counter) (now : Time) : counter :=
  let fresh := {| count := 1; expiresAt := Add now (wrap64 (WindowSeconds config * Second)) |} in
  match c with
  | Some c => if negb (Before now (expiresAt c)) then fresh
              else {| count := wrap64 (count c + 1); expiresAt := expiresAt c |}
  | None => fresh
  end.

Definition verdict (config : RateLimitPolicyConfig) (c : counter) (now : Time) : RateLimitResult :=
  if MaxRequests config <? count c
  then {| rl_Allowed := false; RetryAfterSeconds := ceil_int (SecondsOf (Sub (expiresAt c) now)) |}
  else {| rl_Allowed := true; RetryAfterSeconds := 0 |}.

Definition AllowWithin (policyID key : string) (config : RateLimitPolicyConfig) (now : Time) (l : RateLimiter) :
    RateLimitResult * RateLimiter :=
  let counterKey := policyID ++ ":" ++ key in
  let c := tick config (rl_counters l !! counterKey) now in
  (verdict config c now, {| rl_configs := rl_configs l; rl_counters := <[counterKey := c]> (rl_counters l) |}).

Definition Allow (policyID key : string) (now : Time) (l : RateLimiter) :
    result (errorf string) RateLimitResult * RateLimiter :=
  match rl_configs l !! policyID with
  | None => (Err (Errorf "" "ratelimit: unknown policy %q" [policyID]), l)
  | Some config => let '(r, l') := AllowWithin policyID key config now l in (Ok r, l')
  end.

(** ** The circuit breaker *)

Definition State := string.
Definition StateClosed : State := "closed".
Definition StateOpen : State := "open".
Definition StateHalfOpen : State := "half-open".

Record Settings := {
  set_Name : string;
  set_FailureThreshold : spec_float;
  set_Cooldown : Duration;
  set_MinRequests : Z;
}.

Record counts := { Requests : Z; Failures : Z }.
Definition no_counts : counts := {| Requests := 0; Failures := 0 |}.

(** The gauge of the state is left out: it is only written. *)
Record CircuitBreaker := {
  cb_name : string;
  failureThreshold : spec_float;
  cooldown : Duration;
  minRequests : Z;
  cb_state : State;
  cb_expiry : Time;
  cb_counts : counts;
}.

Definition half : spec_float := binary_normalize 53 1024 1 (-1) false.
Definition one : spec_float := float64_of_int 1.

Definition NewCircuitBreaker (settings : Settings) : CircuitBreaker :=
  let minReqs := if Z.eqb (set_MinRequests settings) 0 then 5%Z else set_MinRequests settings in
  let cooldown := if Z.eqb (set_Cooldown settings) 0 then (15 * Second)%Z else set_Cooldown settings in
  let t := set_FailureThreshold settings in
  let threshold := if SFleb t (S754_zero false) || SFltb one t then half else t in
  {| cb_name := set_Name settings; failureThreshold := threshold; cooldown := cooldown; minRequests := minReqs;
     cb_state := StateClosed; cb_expiry := 0%Z; cb_counts := no_counts |}.

Definition with_counts (n : counts) (cb : CircuitBreaker) : CircuitBreaker :=
  {| cb_name := cb_name cb; failureThreshold := failureThreshold cb; cooldown := cooldown cb;
     minRequests := minRequests cb; cb_state := cb_state cb; cb_expiry := cb_expiry cb; cb_counts := n |}.

Definition setState (state : State) (expiry : Time) (cb : CircuitBreaker) : CircuitBreaker :=
  if cb_state cb =? state then cb
  else {| cb_name := cb_name cb; failureThreshold := failureThreshold cb; cooldown := cooldown cb;
          minRequests := minRequests cb; cb_state := state; cb_expiry := expiry; cb_counts := no_counts |}.

Definition currentState (now : Time) (cb : CircuitBreaker) : CircuitBreaker :=
  if (cb_state cb =? StateOpen) && After now (cb_expiry cb) then setState StateHalfOpen 0%Z cb else cb.

(** True when the request is admitted; [now] is [time.Now()]. *)
Definition beforeRequest (now : Time) (cb : CircuitBreaker) : bool * CircuitBreaker :=
  let cb := currentState now cb in
  (cb_state cb <>? StateOpen, cb).

Definition uint32 (z : Z) : Z := (z mod 4294967296)%Z.

Definition rate_reached (cb : CircuitBreaker) (n : counts) : bool :=
  SFleb (failureThreshold cb) (SFdiv 53 1024 (float64_of_int (Failures n)) (float64_of_int (Requests n))).

Definition count_outcome (success : bool) (n : counts) : counts :=
  {| Requests := uint32 (Requests n + 1); Failures := if success then Failures n else uint32 (Failures n + 1) |}.

Definition afterRequest (success : bool) (now : Time) (cb : CircuitBreaker) : CircuitBreaker :=
  let cb := currentState now cb in
  let state := cb_state cb in
  let n := count_outcome success (cb_counts cb) in
  let cb := with_counts n cb in
  if state =? StateClosed then
    if (minRequests cb <=? Requests n) && rate_reached cb n
    then setState StateOpen (Add now (cooldown cb)) cb else cb
  else if state =? StateHalfOpen then
    if negb success then setState StateOpen (Add now (cooldown cb)) cb else setState StateClosed 0%Z cb
  else cb.

(** [BeginRequest] gives a completion that acts once: the flag of its [Once]
    is part of the state of the caller. *)
Definition BeginRequest (now : Time) (cb : CircuitBreaker) : result string bool * CircuitBreaker :=
  let '(admitted, cb) := beforeRequest now cb in
  (if admitted then Ok false else Err "circuit breaker is open", cb).

Definition complete (done : bool) (success : bool) (now : Time) (cb : CircuitBreaker) : bool * CircuitBreaker :=
  if done then (true, cb) else (true, afterRequest success now cb).

(** [Execute]: [run] is the outcome of the operation, [None] for a panic, which
    is counted as a failure and goes on; [later] is the time at its end. *)
Inductive outcome (E : Type) := Returned (r : result E unit) | Refused | Panicked.
Arguments Returned {E} r.
Arguments Refused {E}.
Arguments Panicked {E}.

Definition Execute {E} (run : option (result E unit)) (now later : Time) (cb : CircuitBreaker) : outcome E * CircuitBreaker :=
  match BeginRequest now cb with
  | (Err _, cb) => (Refused, cb)
  | (Ok d, cb) =>
      match run with
      | None => (Panicked, (complete d false later cb).2)
      | Some r => (Returned r, (complete d (res_ok r) later cb).2)
      end
  end.

(** ** Retries

    [ops] are the outcomes of the successive calls, each with what [ctx.Err]
    says after it and whether the context is done before the backoff ends.
    The result comes with the number of calls and the delays waited.  Doubling
    a duration of at most five seconds is exact in doubles. *)

Definition maxAttempts : nat := 5.
Definition maxBackoff : Duration := (5 * Second)%Z.

Record attempt (E : Type) := { at_result : result E unit; ctx_err : bool; ctx_done : option E }.
Arguments at_result {E} a.
Arguments ctx_err {E} a.
Arguments ctx_done {E} a.

Fixpoint retry {E} (fuel : nat) (ops : nat -> attempt E) (number : nat) (backoff : Duration) :
    option (result E unit) * nat * list Duration :=
  match fuel with
  | O => (None, O, [])
  | S fuel' =>
      let a := ops number in
      match at_result a with
      | Ok _ => (Some (Ok tt), 1%nat, [])
      | Err e =>
          if (number =? maxAttempts)%nat || ctx_err a then (Some (Err e), 1%nat, [])
          else match ctx_done a with
          | Some e' => (Some (Err e'), 1%nat, [])
          | None =>
              let '(r, n, waits) := retry fuel' ops (S number) (Z.min (backoff * 2) maxBackoff) in
              (r, S n, backoff :: waits)
          end
      end
  end.

Definition RetryWithBackoff {E} (ops : nat -> attempt E) : option (result E unit) * nat * list Duration :=
  retry maxAttempts ops 1 (Second / 2)%Z.

(** ** The bound of the rate limiter

    The calls for one counter: their times and, beside them, the verdicts. *)

Fixpoint run_calls (config : RateLimitPolicyConfig) (c : option counter) (times : list Time) : list (Time * bool) :=
  match times with
  | [] => []
  | now :: times' =>
      let c' := tick config c now in
      (now, rl_Allowed (verdict config c' now)) :: run_calls config (Some c') times'
  end.

(** How many requests of an interval were allowed. *)
Definition allowed_in (t d : Z) (calls : list (Time * bool)) : Z :=
  Z.of_nat (length (List.filter (fun call => snd call && (t <=? fst call) && (fst call <? t + d)%Z) calls)).

Lemma allowed_in_cons t d now b calls :
  allowed_in t d ((now, b) :: calls) =
  ((if b && (t <=? now) && (now <? t + d)%Z then 1 else 0) + allowed_in t d calls)%Z.
Proof. unfold allowed_in. simpl. destruct (b && (t <=? now) && (now <? t + d)%Z); simpl; lia. Qed.

Section window.
Context (config : RateLimitPolicyConfig) (t d : Z).
Hypothesis Hd : d = (WindowSeconds config * Second)%Z.
Hypothesis Hwindow : (0 < WindowSeconds config <= 9000000000)%Z.
Hypothesis Hmax : (0 <= MaxRequests config)%Z.

(** What the counter says of the [n] requests allowed in the interval so far:
    a window that began before the interval by its length has none, one that
    reaches into it at most its own, one that began inside at most those of
    one window before besides its own. *)
Definition window_inv (c : option counter) (n : Z) (now : Time) : Prop :=
  match c with
  | None => n = 0%Z
  | Some c =>
      let start := (expiresAt c - d)%Z in
      let own := Z.min (count c) (MaxRequests config) in
      (start <= now /\ 1 <= count c /\ 0 <= n /\
       (start <= t - d -> n = 0) /\
       (t - d < start < t -> n <= own) /\
       (t <= start < t + d -> n <= MaxRequests config + own) /\
       (t + d <= start -> n <= 2 * MaxRequests config))%Z
  end.

(** One request. *)
Lemma window_step c n now now' :
  window_inv c n now -> (now <= now')%Z -> (match c with Some c => count c | None => 0 end < max_int64)%Z ->
  window_inv (Some (tick config c now'))
    (n + if rl_Allowed (verdict config (tick config c now') now') && (t <=? now') && (now' <? t + d)%Z then 1 else 0)%Z
    now'.
Proof using Hd Hwindow Hmax.
  intros Hinv Hle Hcount.
  assert (Hw : wrap64 (WindowSeconds config * Second) = d).
  { rewrite Hd. apply wrap64_id. unfold min_int64, max_int64, Second. lia. }
  assert (Hdpos : (0 < d)%Z) by (rewrite Hd; unfold Second; lia).
  assert (Hfresh : tick config None now' = {| count := 1; expiresAt := (now' + d)%Z |}).
  { simpl. by rewrite Hw. }
  unfold verdict. destruct c as [c|].
  - simpl in Hinv. destruct Hinv as (Hs & Hc & Hn & H1 & H2 & H3 & H4).
    simpl tick. unfold Before. destruct (Z.ltb_spec now' (expiresAt c)) as [Hlt|Hge]; cbn [negb].
    + rewrite wrap64_id by (unfold min_int64, max_int64 in *; lia). unfold window_inv. cbn [count expiresAt].
      destruct (Z.ltb_spec (MaxRequests config) (count c + 1)); cbn [rl_Allowed andb];
        destruct (Z.leb_spec t now'); cbn [andb]; destruct (Z.ltb_spec now' (t + d)%Z); lia.
    + simpl in Hfresh. rewrite Hfresh. unfold window_inv. cbn [count expiresAt].
      destruct (Z.ltb_spec (MaxRequests config) 1); cbn [rl_Allowed andb];
        destruct (Z.leb_spec t now'); cbn [andb]; destruct (Z.ltb_spec now' (t + d)%Z); lia.
  - simpl in Hinv. subst n. rewrite Hfresh. unfold window_inv. cbn [count expiresAt].
    destruct (Z.ltb_spec (MaxRequests config) 1); cbn [rl_Allowed andb];
      destruct (Z.leb_spec t now'); cbn [andb]; destruct (Z.ltb_spec now' (t + d)%Z); lia.
Qed.

Lemma window_bound c n now : window_inv c n now -> (n <= 2 * MaxRequests config)%Z.
Proof using Hmax. destruct c as [c|]; simpl; lia. Qed.

Lemma tick_count c now : (0 <= match c with Some c => count c | None => 0 end < max_int64)%Z ->
  (1 <= count (tick config c now) <= match c with Some c => count c | None => 0 end + 1)%Z.
Proof using.
  intros Hc. destruct c as [c|]; simpl; [|lia]. destruct (negb (Before now (expiresAt c))); simpl; [lia|].
  rewrite wrap64_id; unfold min_int64, max_int64 in *; lia.
Qed.

Lemma window_run times : forall c n now,
  window_inv c n now -> Sorted Z.le (now :: times) ->
  (0 <= match c with Some c => count c | None => 0 end)%Z ->
  (match c with Some c => count c | None => 0 end + Z.of_nat (length times) < max_int64)%Z ->
  (n + allowed_in t d (run_calls config c times) <= 2 * MaxRequests config)%Z.
Proof using Hd Hwindow Hmax.
  induction times as [|now' times IH]; intros c n now Hinv Hsort H0 Hlen.
  - unfold allowed_in. simpl. apply window_bound in Hinv. lia.
  - apply Sorted_inv in Hsort as [Hsort Hle]. apply HdRel_inv in Hle. simpl length in Hlen. simpl run_calls.
    rewrite allowed_in_cons, Z.add_assoc.
    pose proof (tick_count c now' ltac:(lia)). eapply (IH (Some (tick config c now'))); [|exact Hsort|lia|lia].
    apply (window_step _ _ now); [done..|lia].
Qed.
End window.

Lemma run_calls_bound config times t :
  (0 < WindowSeconds config <= 9000000000)%Z -> (0 <= MaxRequests config)%Z -> Sorted Z.le times ->
  (Z.of_nat (length times) < max_int64)%Z ->
  (allowed_in t (WindowSeconds config * Second) (run_calls config None times) <= 2 * MaxRequests config)%Z.
Proof.
  intros Hw Hm Hsort Hlen. destruct times as [|now times]; [unfold allowed_in; simpl; lia|].
  rewrite <- (Z.add_0_l (allowed_in _ _ _)).
  apply (window_run config t _ eq_refl Hw Hm (now :: times) None 0 now); [done| |done|exact Hlen].
  constructor; [done|by constructor].
Qed.

(** A sequence of calls of [Allow], and the answers to those of one key. *)
Record rl_call := { rl_policy : string; rl_key : string; rl_now : Time }.

Definition is_call (policyID key : string) (c : rl_call) : bool := (rl_policy c =? policyID) && (rl_key c =? key).

Fixpoint answers (policyID key : string) (l : RateLimiter) (calls : list rl_call) : list (Time * bool) :=
  match calls with
  | [] => []
  | c :: calls' =>
      let '(r, l') := Allow (rl_policy c) (rl_key c) (rl_now c) l in
      let rest := answers policyID key l' calls' in
      if is_call policyID key c
      then (rl_now c, match r with Ok v => rl_Allowed v | Err _ => false end) :: rest else rest
  end.

(** The answers to one key are those of its counter alone, as policies have no
    colon in their names. *)
Lemma answers_run policyID key config calls : forall l,
  rl_configs l !! policyID = Some config -> byte_in ":" policyID = false ->
  Forall (fun c => byte_in ":" (rl_policy c) = false) calls ->
  answers policyID key l calls =
  run_calls config (rl_counters l !! (policyID ++ ":" ++ key)) (map rl_now (List.filter (is_call policyID key) calls)).
Proof.
  induction calls as [|c calls IH]; intros l Hc Hp Hall; [done|].
  apply Forall_cons in Hall as [Hcp Hall]. simpl. unfold Allow.
  destruct (is_call policyID key c) eqn:His; unfold is_call in His; go_bool.
  - destruct His as [-> ->]. rewrite Hc. unfold AllowWithin. simpl. f_equal. rewrite IH by done. simpl.
    by rewrite lookup_insert_eq.
  - destruct (rl_configs l !! rl_policy c) as [config'|]; [|by apply IH].
    unfold AllowWithin. rewrite IH by done. simpl. rewrite lookup_insert_ne; [done|].
    intros Heq. apply app_sep_inj in Heq as [H1 H2]; [|done..]. naive_solver.
Qed.

(** However the requests of all keys arrive, no interval as long as a
    policy's window sees more than twice its number of requests of one key
    granted (the counter is a fixed window: at most one full budget at the end
    of a window and one at the beginning of the next), provided the clock does
    not run backwards and the requests are fewer than a 64-bit counter holds. *)
Theorem rate_limit_bound configs policyID key config calls t :
  configs !! policyID = Some config -> Forall (fun c => byte_in ":" (rl_policy c) = false) calls ->
  byte_in ":" policyID = false ->
  (0 < WindowSeconds config <= 9000000000)%Z -> (0 <= MaxRequests config)%Z ->
  Sorted Z.le (map rl_now (List.filter (is_call policyID key) calls)) -> (Z.of_nat (length calls) < max_int64)%Z ->
  (allowed_in t (WindowSeconds config * Second) (answers policyID key (NewRateLimiter configs) calls)
   <= 2 * MaxRequests config)%Z.
Proof.
  intros Hc Hall Hp Hw Hm Hsort Hlen. rewrite (answers_run _ _ config) by done. simpl.
  rewrite (lookup_empty (policyID ++ ":" ++ key)). apply run_calls_bound; [done..|].
  rewrite length_map. pose proof (List.filter_length_le (is_call policyID key) calls). lia.
Qed.

(** Two budgets can meet: the bound is reached. *)
Definition demo_calls : list rl_call :=
  map (fun s => {| rl_policy := "token"; rl_key := "k"; rl_now := (s * Second)%Z |}) [1; 58; 59; 61; 62; 63]%Z.
Definition demo_configs : gmap string RateLimitPolicyConfig :=
  {["token" := {| MaxRequests := 2; WindowSeconds := 60 |}]}.

Lemma rate_limit_bound_witness :
  answers "token" "k" (NewRateLimiter demo_configs) demo_calls =
    [(1 * Second, true); (58 * Second, true); (59 * Second, false); (61 * Second, true); (62 * Second, true); (63 * Second, false)]%Z /\
  (allowed_in (10 * Second) (60 * Second) (answers "token" "k" (NewRateLimiter demo_configs) demo_calls) <= 4)%Z.
Proof.
  split; [vm_compute; reflexivity|].
  apply (rate_limit_bound demo_configs "token" "k" {| MaxRequests := 2; WindowSeconds := 60 |} demo_calls (10 * Second)%Z).
  - reflexivity.
  - repeat constructor.
  - reflexivity.
  - simpl. lia.
  - simpl. lia.
  - apply (bool_decide_unpack _). vm_compute. exact I.
  - vm_compute. reflexivity.
Defined.

(** ** The life of the circuit breaker

    Requests begin and complete in any order; every call reads the clock. *)

Inductive breaker_event :=
| Begin (now : Time)
| Complete (success : bool) (now : Time).

Definition event_time (e : breaker_event) : Time := match e with Begin now | Complete _ now => now end.

Definition breaker_step (e : breaker_event) (cb : CircuitBreaker) : option bool * CircuitBreaker :=
  match e with
  | Begin now => let '(b, cb) := beforeRequest now cb in (Some b, cb)
  | Complete success now => (None, afterRequest success now cb)
  end.

(** The admissions of a run and the breaker after it. *)
Fixpoint breaker_run (events : list breaker_event) (cb : CircuitBreaker) : list bool * CircuitBreaker :=
  match events with
  | [] => ([], cb)
  | e :: events' =>
      let '(b, cb) := breaker_step e cb in
      let '(bs, cb) := breaker_run events' cb in
      (match b with Some b => b :: bs | None => bs end, cb)
  end.

Lemma currentState_open now cb : cb_state cb = StateOpen -> (now <= cb_expiry cb)%Z -> currentState now cb = cb.
Proof.
  intros Hs Hle. unfold currentState, After. rewrite (bool_decide_true _ Hs). by destruct (Z.ltb_spec (cb_expiry cb) now); [lia|].
Qed.

Lemma currentState_expired now cb : cb_state cb = StateOpen -> (cb_expiry cb < now)%Z ->
  cb_state (currentState now cb) = StateHalfOpen /\ cb_counts (currentState now cb) = no_counts /\
  cooldown (currentState now cb) = cooldown cb.
Proof.
  intros Hs Hlt. unfold currentState, After, setState. rewrite (bool_decide_true _ Hs).
  destruct (Z.ltb_spec (cb_expiry cb) now); [|lia]. rewrite Hs. done.
Qed.

Lemma currentState_other now cb : cb_state cb <> StateOpen -> currentState now cb = cb.
Proof. intros Hs. unfold currentState. by rewrite bool_decide_false. Qed.

(** Completions that come in while the breaker is open only count. *)
Lemma afterRequest_open success now cb : cb_state cb = StateOpen -> (now <= cb_expiry cb)%Z ->
  afterRequest success now cb = with_counts (count_outcome success (cb_counts cb)) cb.
Proof. intros Hs Hle. unfold afterRequest. rewrite currentState_open by done. by rewrite Hs. Qed.

(** An open breaker stays open until its cooldown has passed: however
    begins and late completions interleave up to that time, every request is
    refused, and neither successes nor failures change the state or move the
    deadline. *)
Theorem breaker_open_refuses events cb :
  cb_state cb = StateOpen -> Forall (fun e => (event_time e <= cb_expiry cb)%Z) events ->
  Forall (fun admitted => admitted = false) (breaker_run events cb).1 /\
  cb_state (breaker_run events cb).2 = StateOpen /\ cb_expiry (breaker_run events cb).2 = cb_expiry cb.
Proof.
  revert cb. induction events as [|e events IH]; intros cb Hs Hall; [by split_and!|].
  apply Forall_cons in Hall as [He Hall]. destruct e as [now|success now]; cbn [breaker_run breaker_step event_time] in *.
  - unfold beforeRequest. rewrite currentState_open by done. rewrite (bool_decide_true _ Hs).
    destruct (IH cb Hs Hall) as (H1 & H2 & H3). destruct (breaker_run events cb) as [bs cb']. simpl in *. by repeat constructor.
  - rewrite afterRequest_open by done.
    destruct (IH (with_counts (count_outcome success (cb_counts cb)) cb) Hs Hall) as (H1 & H2 & H3).
    by destruct (breaker_run events _) as [bs cb'].
Qed.

(** The breaker recovers.  Once the cooldown of an open breaker has passed
    a request is admitted; a breaker that is not open admits at once.  If the
    admitted request succeeds the breaker, unless it was closed anyway, closes
    with its counts cleared; if it fails the breaker is open for another
    cooldown from then on. *)
Theorem breaker_recovers cb now later :
  cb_state cb ∈ [StateClosed; StateOpen; StateHalfOpen] -> (cb_state cb = StateOpen -> (cb_expiry cb < now)%Z) ->
  exists cb1, beforeRequest now cb = (true, cb1) /\
    (cb_state cb <> StateClosed ->
       cb_state (afterRequest true later cb1) = StateClosed /\ cb_counts (afterRequest true later cb1) = no_counts /\
       cb_state (afterRequest false later cb1) = StateOpen /\
       cb_expiry (afterRequest false later cb1) = (later + cooldown cb)%Z).
Proof.
  intros Hst Hexp. unfold beforeRequest. exists (currentState now cb).
  assert (Hhalf : cb_state cb <> StateClosed ->
    cb_state (currentState now cb) = StateHalfOpen /\ cooldown (currentState now cb) = cooldown cb).
  { intros Hne. destruct (decide (cb_state cb = StateOpen)) as [Ho|Ho].
    - destruct (currentState_expired now cb Ho (Hexp Ho)) as (? & _ & ?). done.
    - rewrite currentState_other by done. set_solver. }
  split.
  - f_equal. apply negb_true_iff, bool_decide_false. destruct (decide (cb_state cb = StateClosed)) as [Hc|Hc].
    + rewrite currentState_other; rewrite Hc; done.
    + destruct (Hhalf Hc) as [-> _]. done.
  - intros Hne. destruct (Hhalf Hne) as [Hh Hcd]. unfold afterRequest. rewrite currentState_other by (by rewrite Hh).
    rewrite Hh. unfold setState. simpl. rewrite Hh. simpl. by rewrite Hcd.
Qed.

(** The completions of a closed breaker: their outcomes and times. *)
Definition completions (cb : CircuitBreaker) (l : list (bool * Time)) : CircuitBreaker :=
  fold_left (fun cb c => afterRequest c.1 c.2 cb) l cb.

Definition failed (l : list (bool * Time)) : Z := Z.of_nat (length (List.filter (fun c => negb c.1) l)).

(** The test of a trip after the outcomes [l] of a breaker that was fresh. *)
Definition trips (cb : CircuitBreaker) (l : list (bool * Time)) : bool :=
  (minRequests cb <=? Z.of_nat (length l)) && rate_reached cb {| Requests := Z.of_nat (length l); Failures := failed l |}.

Lemma failed_snoc l b now : failed (l ++ [(b, now)]) = (failed l + if b then 0 else 1)%Z.
Proof. unfold failed. rewrite List.filter_app, length_app. destruct b; simpl; lia. Qed.

Lemma failed_le l : (0 <= failed l <= Z.of_nat (length l))%Z.
Proof. unfold failed. pose proof (List.filter_length_le (fun c : bool * Time => negb c.1) l). lia. Qed.

(** One more outcome of a closed breaker. *)
Lemma afterRequest_closed cb l b now :
  cb_state cb = StateClosed -> (Z.of_nat (length l) + 1 < 4294967296)%Z ->
  let l' := (l ++ [(b, now)])%list in
  let counted := with_counts {| Requests := Z.of_nat (length l'); Failures := failed l' |} cb in
  afterRequest b now (with_counts {| Requests := Z.of_nat (length l); Failures := failed l |} cb) =
  if trips cb l' then setState StateOpen (Add now (cooldown cb)) counted else counted.
Proof.
  intros Hs Hlen l' counted. pose proof (failed_le l).
  assert (Hn : count_outcome b {| Requests := Z.of_nat (length l); Failures := failed l |} =
    {| Requests := Z.of_nat (length l'); Failures := failed l' |}).
  { subst l'. unfold count_outcome, uint32. simpl. rewrite failed_snoc, length_app. simpl.
    destruct b; f_equal; rewrite ?Z.mod_small; lia. }
  unfold afterRequest. rewrite currentState_other by (simpl; by rewrite Hs). cbn [cb_state cb_counts with_counts].
  rewrite Hs, Hn. reflexivity.
Qed.

Lemma completions_closed cb l :
  cb_state cb = StateClosed -> cb_counts cb = no_counts -> (Z.of_nat (length l) < 4294967296)%Z ->
  (forall p, p `prefix_of` l -> p <> [] -> trips cb p = false) ->
  completions cb l = with_counts {| Requests := Z.of_nat (length l); Failures := failed l |} cb.
Proof.
  intros Hs Hc. induction l as [|[b now] l IH] using rev_ind; intros Hlen Hno; [by destruct cb; simpl in *; subst|].
  unfold completions. rewrite fold_left_app. fold (completions cb l). rewrite length_app in Hlen. simpl in Hlen.
  rewrite IH; [|lia|intros p Hp; apply Hno; by apply prefix_app_r]. simpl fold_left. cbn [fst snd].
  rewrite afterRequest_closed by (done || lia). rewrite Hno; [done|done|by destruct l].
Qed.

(** A closed breaker with cleared counts stays closed as long as no prefix
    of the outcomes since then has both the minimum of requests and the failure
    rate, and opens, for one cooldown, at the first that has: the counters are
    exact below 2^32 outcomes. *)
Theorem breaker_trips_first cb l b now :
  cb_state cb = StateClosed -> cb_counts cb = no_counts -> (Z.of_nat (length l) + 1 < 4294967296)%Z ->
  (forall p, p `prefix_of` l -> p <> [] -> trips cb p = false) ->
  cb_state (completions cb l) = StateClosed /\
  cb_counts (completions cb l) = {| Requests := Z.of_nat (length l); Failures := failed l |} /\
  let cb' := completions cb (l ++ [(b, now)]) in
  if trips cb (l ++ [(b, now)])
  then cb_state cb' = StateOpen /\ cb_expiry cb' = (now + cooldown cb)%Z /\ cb_counts cb' = no_counts
  else cb_state cb' = StateClosed.
Proof.
  intros Hs Hc Hlen Hno. rewrite (completions_closed cb l) by (auto; lia). split_and!; [done..|].
  cbv zeta. unfold completions. rewrite fold_left_app. fold (completions cb l). rewrite (completions_closed cb l) by (auto; lia).
  simpl fold_left. cbn [fst snd]. rewrite afterRequest_closed by (done || lia).
  destruct (trips cb (l ++ [(b, now)])); [|done]. unfold setState. simpl. rewrite Hs. done.
Qed.

(** The delays between the calls. *)
Fixpoint delays (k : nat) (backoff : Duration) : list Duration :=
  match k with O => [] | S k' => backoff :: delays k' (Z.min (backoff * 2) maxBackoff) end.

Lemma retry_spec {E} (ops : nat -> attempt E) fuel : forall number backoff,
  (number + fuel = 6)%nat -> (1 <= fuel)%nat ->
  exists r k, retry fuel ops number backoff = (Some r, S k, delays k backoff) /\ (S k <= fuel)%nat /\
    (forall i, (number <= i < number + k)%nat ->
       exists e, at_result (ops i) = Err e /\ ctx_err (ops i) = false /\ ctx_done (ops i) = None) /\
    match r with
    | Ok _ => at_result (ops (number + k)%nat) = Ok tt
    | Err e => exists e0, at_result (ops (number + k)%nat) = Err e0 /\
        ((e = e0 /\ ((number + k = 5)%nat \/ ctx_err (ops (number + k)%nat) = true)) \/
         ctx_done (ops (number + k)%nat) = Some e)
    end.
Proof.
  induction fuel as [|fuel IH]; intros number backoff Hsum Hf; [lia|]. simpl.
  destruct (at_result (ops number)) as [[]|e] eqn:Hr.
  { exists (Ok tt), O. rewrite Nat.add_0_r. split_and!; [done|lia|lia|done]. }
  destruct ((number =? maxAttempts)%nat || ctx_err (ops number)) eqn:Hb.
  { exists (Err e), O. rewrite Nat.add_0_r. split_and!; [done|lia|lia|]. exists e. split; [done|]. left. split; [done|].
    apply orb_true_iff in Hb as [Hb|Hb]; [left; by apply Nat.eqb_eq in Hb|by right]. }
  destruct (ctx_done (ops number)) as [e'|] eqn:Hd.
  { exists (Err e'), O. rewrite Nat.add_0_r. split_and!; [done|lia|lia|]. exists e. split; [done|by right]. }
  apply orb_false_iff in Hb as [Hb Hce]. apply Nat.eqb_neq in Hb. unfold maxAttempts in Hb.
  destruct (IH (S number) (Z.min (backoff * 2) maxBackoff)) as (r & k & Hrun & Hk & Hall & Hlast); [lia..|].
  rewrite Hrun. exists r, (S k). replace (number + S k)%nat with (S number + k)%nat by lia.
  split_and!; [done|lia| |done]. intros i Hi. destruct (decide (i = number)) as [->|]; [by exists e|]. apply Hall. lia.
Qed.

(** A retried operation is called at most five times, with delays of half a
    second, one, two and four seconds in between; it ends at the first success,
    or with the error of the last call, the fifth or one after which the context
    has an error, or with the context's error when that is done in a delay. *)
Theorem RetryWithBackoff_bounded {E} (ops : nat -> attempt E) :
  exists r k, RetryWithBackoff ops = (Some r, S k, take k [Second / 2; Second; 2 * Second; 4 * Second]%Z) /\ (k < 5)%nat /\
    (forall i, (1 <= i <= k)%nat ->
       exists e, at_result (ops i) = Err e /\ ctx_err (ops i) = false /\ ctx_done (ops i) = None) /\
    match r with
    | Ok _ => at_result (ops (S k)) = Ok tt
    | Err e => exists e0, at_result (ops (S k)) = Err e0 /\
        ((e = e0 /\ (S k = 5%nat \/ ctx_err (ops (S k)) = true)) \/ ctx_done (ops (S k)) = Some e)
    end.
Proof.
  destruct (retry_spec ops 5 1 (Second / 2)%Z) as (r & k & Hrun & Hk & Hall & Hlast); [lia..|].
  exists r, k. unfold RetryWithBackoff, maxAttempts. rewrite Hrun. split_and!; [|lia|intros i Hi; apply Hall; lia|done].
  do 2 f_equal. do 5 (destruct k as [|k]; [reflexivity|]). lia.
Qed.

(** ** Witnesses *)

Definition demo_breaker : CircuitBreaker :=
  NewCircuitBreaker {| set_Name := "db"; set_FailureThreshold := half; set_Cooldown := 0%Z; set_MinRequests := 0 |}.

(** Three failures among five requests. *)
Definition demo_outcomes : list (bool * Time) := [(true, 1); (false, 2); (true, 3); (false, 4)]%Z.
Definition demo_tripped : CircuitBreaker := completions demo_breaker (demo_outcomes ++ [(false, 5%Z)]).

Lemma prefix_cases {A} (P : list A -> Prop) (l : list A) :
  Forall P (map (fun n => take n l) (seq 0 (S (length l)))) -> forall p, p `prefix_of` l -> P p.
Proof.
  intros Hall p Hp. rewrite Forall_forall in Hall. apply Hall. apply list_elem_of_fmap. exists (length p).
  destruct Hp as [q ->]. split; [by rewrite take_app_length|]. apply elem_of_seq. rewrite length_app. lia.
Qed.

Lemma demo_no_trip p : p `prefix_of` demo_outcomes -> p <> [] -> trips demo_breaker p = false.
Proof.
  intros Hp. pattern p. revert p Hp. apply prefix_cases.
  repeat constructor; first [by intros []|intros _; vm_compute; reflexivity].
Qed.

Lemma breaker_trips_first_witness :
  cb_state demo_tripped = StateOpen /\ cb_expiry demo_tripped = (5 + 15 * Second)%Z.
Proof.
  pose proof (breaker_trips_first demo_breaker demo_outcomes false 5%Z eq_refl eq_refl ltac:(reflexivity) demo_no_trip)
    as (_ & _ & Htrip).
  replace (trips demo_breaker (demo_outcomes ++ [(false, 5%Z)])) with true in Htrip by (vm_compute; reflexivity).
  destruct Htrip as (Hs & He & _). split; [exact Hs|exact He].
Defined.

Lemma breaker_open_refuses_witness :
  Forall (fun admitted => admitted = false)
    (breaker_run [Begin (6 * Second)%Z; Complete true (7 * Second)%Z; Begin (8 * Second)%Z] demo_tripped).1.
Proof.
  apply (breaker_open_refuses [Begin (6 * Second)%Z; Complete true (7 * Second)%Z; Begin (8 * Second)%Z] demo_tripped);
    [vm_compute; reflexivity|]. repeat constructor; vm_compute; discriminate.
Defined.

Lemma breaker_recovers_witness :
  exists cb1, beforeRequest (20 * Second)%Z demo_tripped = (true, cb1) /\
    cb_state (afterRequest true (21 * Second)%Z cb1) = StateClosed.
Proof.
  destruct (breaker_recovers demo_tripped (20 * Second)%Z (21 * Second)%Z) as (cb1 & Hb & Hafter).
  - vm_compute. apply list_elem_of_further, list_elem_of_here.
  - intros _. vm_compute. reflexivity.
  - exists cb1. split; [exact Hb|]. apply Hafter. vm_compute. discriminate.
Defined.
