(* ===== verification/Doubles.v ===== *)
(** * Seconds of a duration, as a whole number

    [Duration.Seconds] adds two doubles, and the code takes the whole part of the
    sum.  [trunc_SecondsOf]: for a duration of at most twelve days the rounding
    of the operations never loses a whole second, and adds few. *)

From Stdlib Require Import ZArith Lia Floats.SpecFloat.
From stdpp Require Import base tactics numbers.
From S2P Require Import Prelude RichAuthorization Resilience.

Local Open Scope Z_scope.

(** [n] is at most [m * 2 ^ e]. *)
Definition below (n m e : Z) : Prop := if 0 <=? e then n <= m * 2 ^ e else n * 2 ^ (- e) <= m.

Definition at_least (n : Z) (f : spec_float) : Prop :=
  match f with
  | S754_zero _ => n <= 0
  | S754_finite false m e => below n (Z.pos m) e
  | _ => False
  end.

(** A double that is not negative and below [2 ^ (k + 1)]. *)
Definition modest (k : Z) (f : spec_float) : Prop :=
  match f with
  | S754_zero _ => True
  | S754_finite false m e => Z.log2 (Z.pos m) + e <= k /\ Z.log2 (Z.pos m) <= 53
  | _ => False
  end.

Lemma Zdigits2_log2 m : 0 < m -> Zdigits2 m = Z.log2 m + 1.
Proof.
  destruct m as [|p|p]; [lia| |lia]. intros _. cbn [Zdigits2]. induction p as [p IH|p IH|]; cbn [digits2_pos]; [..|done].
  - rewrite Pos2Z.inj_succ, IH, Pos2Z.inj_xI, Z.log2_succ_double by lia. lia.
  - rewrite Pos2Z.inj_succ, IH, Pos2Z.inj_xO, Z.log2_double by lia. lia.
Qed.

Lemma iter_shr_1 p : forall r, 0 <= shr_m r -> shr_m (SpecFloat.iter_pos shr_1 p r) = shr_m r / 2 ^ Z.pos p.
Proof.
  assert (H1 : forall r, 0 <= shr_m r -> shr_m (shr_1 r) = shr_m r / 2).
  { intros [m a b] Hm. rewrite <- Z.div2_div. simpl in *. by destruct m as [|[q|q|]|q]. }
  induction p as [p IH|p IH|]; intros r Hr; cbn [SpecFloat.iter_pos].
  - assert (Ha : 0 <= shr_m (shr_1 r)) by (rewrite H1 by done; by apply Z.div_pos).
    assert (Hb : 0 <= shr_m (SpecFloat.iter_pos shr_1 p (shr_1 r))) by (rewrite IH by done; apply Z.div_pos; lia).
    rewrite !IH, H1 by done. rewrite !Z.div_div by lia.
    replace (2 ^ Z.pos p~1) with (2 * 2 ^ Z.pos p * 2 ^ Z.pos p); [f_equal; ring|].
    replace (Z.pos p~1) with (1 + Z.pos p + Z.pos p) by lia. rewrite !Z.pow_add_r by lia. lia.
  - assert (Hb : 0 <= shr_m (SpecFloat.iter_pos shr_1 p r)) by (rewrite IH by done; apply Z.div_pos; lia).
    rewrite !IH by done. rewrite Z.div_div by lia. replace (2 ^ Z.pos p~0) with (2 ^ Z.pos p * 2 ^ Z.pos p); [f_equal; ring|].
    replace (Z.pos p~0) with (Z.pos p + Z.pos p) by lia. by rewrite Z.pow_add_r by lia.
  - by apply H1.
Qed.

(** A shift down to the precision of doubles keeps every whole number below. *)
Lemma shr_fexp_below n m e l : 0 <= m -> 0 <= n < 2 ^ 53 -> below n m e ->
  let r := shr_fexp 53 1024 m e l in
  0 <= shr_m r.1 /\ below n (shr_m r.1) r.2.
Proof.
  intros Hm Hn Hb. unfold shr_fexp. destruct (fexp 53 1024 (Zdigits2 m + e) - e) as [|p|p] eqn:Hk.
  all: assert (Hstart : shr_m (shr_record_of_loc m l) = m) by (by destruct l as [|[]]); simpl.
  1, 3: by rewrite Hstart.
  rewrite iter_shr_1, Hstart by lia. split; [apply Z.div_pos; lia|]. unfold below in *.
  assert (Hpos : 0 < 2 ^ Z.pos p) by lia.
  destruct (0 <=? e + Z.pos p) eqn:He'; [apply Z.leb_le in He'|apply Z.leb_gt in He'].
  - assert (Hm0 : 0 < m).
    { destruct (Z.eq_dec m 0) as [->|]; [|lia]. exfalso. unfold fexp, emin in Hk. simpl Zdigits2 in Hk. lia. }
    rewrite (Zdigits2_log2 m Hm0) in Hk. assert (Hp : Z.pos p = Z.log2 m + 1 - 53) by (unfold fexp, emin in Hk; lia).
    assert (H52 : 2 ^ 52 <= m / 2 ^ Z.pos p).
    { apply Z.div_le_lower_bound; [lia|]. rewrite <- Z.pow_add_r by lia. apply Z.log2_le_pow2; lia. }
    destruct (Z.eq_dec (e + Z.pos p) 0) as [E0|E0].
    + rewrite E0. change (2 ^ 0) with 1. rewrite Z.mul_1_r. apply Z.div_le_lower_bound; [lia|].
      destruct (0 <=? e) eqn:He; [apply Z.leb_le in He; lia|]. replace (- e) with (Z.pos p) in Hb by lia. lia.
    + assert (2 ^ 1 <= 2 ^ (e + Z.pos p)) by (apply Z.pow_le_mono_r; lia). nia.
  - destruct (0 <=? e) eqn:He; [apply Z.leb_le in He; lia|]. apply Z.leb_gt in He. apply Z.div_le_lower_bound; [lia|].
    replace (- e) with (Z.pos p + - (e + Z.pos p)) in Hb by lia. rewrite Z.pow_add_r in Hb by lia. lia.
Qed.

Lemma shr_fexp_modest k m e l : 0 <= m -> -1000 <= k -> e <= k -> Z.log2 m + e <= k ->
  let r := shr_fexp 53 1024 m e l in
  0 <= shr_m r.1 /\ Z.log2 (shr_m r.1) <= 52 /\ r.2 <= k /\ Z.log2 (shr_m r.1) + r.2 <= k.
Proof.
  intros Hm Hk He Hl. unfold shr_fexp.
  assert (Hd : Zdigits2 m <= Z.log2 m + 1 /\ (m = 0 \/ Zdigits2 m = Z.log2 m + 1)).
  { destruct (Z.eq_dec m 0) as [->|]; [simpl; lia|]. rewrite Zdigits2_log2 by lia. lia. }
  assert (Hl0 : 0 <= Z.log2 m) by apply Z.log2_nonneg.
  assert (Hz : m = 0 -> Z.log2 m = 0) by (by intros ->).
  destruct (fexp 53 1024 (Zdigits2 m + e) - e) as [|p|p] eqn:Hf.
  all: assert (Hstart : shr_m (shr_record_of_loc m l) = m) by (by destruct l as [|[]]); simpl; rewrite ?iter_shr_1, Hstart by lia;
    unfold fexp, emin in Hf.
  1, 3: lia.
  assert (Hq : Z.log2 (m / 2 ^ Z.pos p) <= Z.max 0 (Z.log2 m - Z.pos p)).
  { rewrite <- Z.shiftr_div_pow2 by lia. destruct (Z.eq_dec m 0) as [->|]; [rewrite Z.shiftr_0_l; simpl; lia|]. rewrite Z.log2_shiftr; lia. }
  split; [apply Z.div_pos; lia|]. lia.
Qed.


Lemma below_mono n m m' e : below n m e -> m <= m' -> below n m' e.
Proof. unfold below. destruct (0 <=? e) eqn:He; [apply Z.leb_le in He|lia]. intros H Hm. assert (0 < 2 ^ e) by lia. nia. Qed.

Lemma binary_round_aux_spec k m e l : 0 <= m -> -1000 <= k <= 900 -> e <= k -> Z.log2 m + e <= k ->
  let f := binary_round_aux 53 1024 false m e l in
  modest (k + 1) f /\ forall n, 0 <= n < 2 ^ 53 -> below n m e -> at_least n f.
Proof.
  intros Hm Hk He Hl. unfold binary_round_aux.
  destruct (shr_fexp_modest k m e l) as (A1 & A2 & A3 & A4); [lia..|].
  pose proof (fun n => shr_fexp_below n m e l Hm) as B. destruct (shr_fexp 53 1024 m e l) as [r1 e1]. simpl in *.
  set (m2 := round_nearest_even (shr_m r1) (loc_of_shr_record r1)).
  assert (Hr : shr_m r1 <= m2 <= shr_m r1 + 1).
  { unfold m2, round_nearest_even. destruct (loc_of_shr_record r1) as [|[]]; [lia|destruct (Z.even _); lia|lia|lia]. }
  assert (Hl2 : Z.log2 m2 <= Z.log2 (shr_m r1) + 1).
  { etransitivity; [apply Z.log2_le_mono, Hr|pose proof (Z.log2_succ_le (shr_m r1)); unfold Z.succ in *; lia]. }
  destruct (shr_fexp_modest (k + 1) m2 e1 loc_Exact) as (C1 & C2 & C3 & C4); [lia..|].
  pose proof (fun n => shr_fexp_below n m2 e1 loc_Exact ltac:(lia)) as D. destruct (shr_fexp 53 1024 m2 e1 loc_Exact) as [r2 e2]. simpl in *.
  assert (Hmain : forall n, 0 <= n < 2 ^ 53 -> below n m e -> below n (shr_m r2) e2).
  { intros n Hn Hb. destruct (B n Hn Hb) as [_ Hb1]. apply D; [done|]. eapply below_mono; [exact Hb1|lia]. }
  destruct (shr_m r2) as [|p|p]; [|change (1024 - 53) with 971; destruct (Z.leb_spec e2 971); [|lia]|lia].
  - split; [done|]. intros n Hn Hb. specialize (Hmain n Hn Hb). unfold below in Hmain. simpl. destruct (0 <=? e2) eqn:He2; [lia|].
    apply Z.leb_gt in He2. assert (0 < 2 ^ (- e2)) by lia. nia.
  - cbn [modest at_least]. split; [split; lia|done].
Qed.

Lemma shl_align_value m e e' : e' <= e -> exists m', shl_align m e e' = (m', e') /\ Z.pos m' = Z.pos m * 2 ^ (e - e').
Proof.
  intros He. unfold shl_align. destruct (e' - e) as [|d|d] eqn:Hd; [|lia|].
  - exists m. replace e' with e by lia. rewrite Z.sub_diag. split; [done|lia].
  - exists (Pos.iter xO m d). split; [done|]. replace (e - e') with (Z.pos d) by lia. clear.
    induction d as [|d IH] using Pos.peano_ind; [simpl; lia|].
    rewrite Pos.iter_succ, Pos2Z.inj_xO, IH, Pos2Z.inj_succ, Z.pow_succ_r by lia. lia.
Qed.

Lemma below_scale n m e e' : e' <= e -> below n m e -> below n (m * 2 ^ (e - e')) e'.
Proof.
  unfold below. intros He. destruct (Z.leb_spec 0 e), (Z.leb_spec 0 e'); try lia; intros H1.
  - rewrite <- Z.mul_assoc, <- Z.pow_add_r by lia. by replace (e - e' + e') with e by lia.
  - replace (e - e') with (e + - e') by lia. rewrite Z.pow_add_r by lia. assert (0 < 2 ^ (- e')) by lia. nia.
  - replace (- e') with (- e + (e - e')) by lia. rewrite Z.pow_add_r by lia. assert (0 < 2 ^ (e - e')) by lia. nia.
Qed.

(** Rounding a positive number. *)
Lemma binary_round_spec k m e : -1000 <= k <= 900 -> e <= k -> Z.log2 (Z.pos m) + e <= k ->
  let f := binary_round 53 1024 false m e in
  modest (k + 1) f /\ forall n, 0 <= n < 2 ^ 53 -> below n (Z.pos m) e -> at_least n f.
Proof.
  intros Hk He Hl. unfold binary_round. set (e' := fexp 53 1024 _).
  destruct (Z.le_gt_cases e' e) as [Hle|Hgt].
  - destruct (shl_align_value m e e' Hle) as (m' & -> & Hm').
    assert (Hlog : Z.log2 (Z.pos m') = Z.log2 (Z.pos m) + (e - e')) by (rewrite Hm', Z.log2_mul_pow2; lia).
    destruct (binary_round_aux_spec k (Z.pos m') e' loc_Exact) as [H1 H2]; [lia..|]. split; [done|].
    intros n Hn Hb. apply H2; [done|]. rewrite Hm'. by apply below_scale.
  - assert (Hs : shl_align m e e' = (m, e)) by (unfold shl_align; destruct (e' - e) eqn:?; [done..|lia]). rewrite Hs.
    by apply binary_round_aux_spec.
Qed.

(** Adding something that is not negative. *)
Lemma SFadd_spec k a b : 0 <= k <= 800 -> modest k a -> modest k b ->
  modest (k + 2) (SFadd 53 1024 a b) /\ forall n, 0 <= n < 2 ^ 53 -> at_least n a -> at_least n (SFadd 53 1024 a b).
Proof.
  intros Hk Ha Hb. destruct a as [sa|sa| |[] ma ea]; try done.
  - destruct b as [sb|sb| |[] mb eb]; try done.
    + simpl. split; [by destruct sa, sb|]. intros n Hn Hat. by destruct sa, sb.
    + cbn [modest SFadd] in *. split; [lia|]. intros n Hn Hat. cbn [at_least] in *. assert (n = 0) as -> by lia.
      unfold below. destruct (0 <=? eb) eqn:He; [apply Z.leb_le in He; assert (0 < 2 ^ eb) by lia; nia|lia].
  - destruct b as [sb|sb| |[] mb eb]; try done.
    { cbn [modest SFadd] in *. split; [lia|]. intros n Hn Hat. exact Hat. }
    cbn [modest] in Ha, Hb. unfold SFadd. set (ez := Z.min ea eb).
    assert (Hez1 : ez <= ea) by lia. assert (Hez2 : ez <= eb) by lia. clearbody ez.
    destruct (shl_align_value ma ea ez) as (ma' & -> & Hma); [lia|]. destruct (shl_align_value mb eb ez) as (mb' & -> & Hmb); [lia|].
    cbn [fst cond_Zopp]. change (Z.pos ma' + Z.pos mb') with (Z.pos (ma' + mb')). cbn [binary_normalize].
    assert (Hla : Z.log2 (Z.pos ma') + ez <= k) by (rewrite Hma, Z.log2_mul_pow2; lia).
    assert (Hlb : Z.log2 (Z.pos mb') + ez <= k) by (rewrite Hmb, Z.log2_mul_pow2; lia).
    assert (Hlog : Z.log2 (Z.pos (ma' + mb')) + ez <= k + 1).
    { change (Z.pos (ma' + mb')) with (Z.pos ma' + Z.pos mb').
      assert (Hle : Z.pos ma' + Z.pos mb' <= 2 * Z.max (Z.pos ma') (Z.pos mb')) by lia. apply Z.log2_le_mono in Hle.
      rewrite Z.log2_double in Hle by lia. destruct (Z.max_spec (Z.pos ma') (Z.pos mb')) as [[_ Hm]|[_ Hm]]; rewrite Hm in Hle; lia. }
    pose proof (Z.log2_nonneg (Z.pos ma')).
    destruct (binary_round_spec (k + 1) (ma' + mb') ez) as [H1 H2]; [lia..|]. replace (k + 1 + 1) with (k + 2) in H1 by lia.
    split; [done|]. intros n Hn Hat. apply H2; [done|]. cbn [at_least] in Hat.
    eapply below_mono; [apply (below_scale n (Z.pos ma) ea ez); [lia|done]|]. rewrite <- Hma. lia.
Qed.

Lemma float64_of_int_spec k z : 0 <= k <= 52 -> 0 <= z < 2 ^ (k + 1) -> modest (k + 1) (float64_of_int z) /\ at_least z (float64_of_int z).
Proof.
  intros Hk Hz. unfold float64_of_int. destruct z as [|p|p]; [done| |lia]. cbn [binary_normalize].
  assert (Hl : Z.log2 (Z.pos p) < k + 1) by (apply Z.log2_lt_pow2; lia).
  destruct (binary_round_spec k p 0) as [H1 H2]; [lia..|]. split; [done|]. apply H2.
  - split; [lia|]. assert (2 ^ (k + 1) <= 2 ^ 53) by (apply Z.pow_le_mono_r; lia). lia.
  - unfold below. simpl. lia.
Qed.

Lemma log2_div_le a b : 0 <= a -> 0 < b -> Z.log2 (a / b) <= Z.max 0 (Z.log2 a - Z.log2 b).
Proof.
  intros Ha Hb. destruct (Z.log2_spec b Hb) as [Hlow _]. assert (Hl : 0 <= Z.log2 b) by apply Z.log2_nonneg.
  assert (Hp : 0 < 2 ^ Z.log2 b) by lia.
  etransitivity; [apply Z.log2_le_mono, (Z.div_le_compat_l a (2 ^ Z.log2 b) b); lia|].
  rewrite <- Z.shiftr_div_pow2 by done. destruct (Z.eq_dec a 0) as [->|]; [rewrite Z.shiftr_0_l; simpl; lia|]. rewrite Z.log2_shiftr; lia.
Qed.

(** A quotient, by the sizes of its parts. *)
Lemma SFdiv_modest k m1 e1 m2 e2 : 0 <= k <= 800 ->
  (Z.log2 (Z.pos m1) + e1) - (Z.log2 (Z.pos m2) + e2) <= k ->
  modest (k + 1) (SFdiv 53 1024 (S754_finite false m1 e1) (S754_finite false m2 e2)).
Proof.
  intros Hk Hl. cbn [SFdiv xorb]. unfold SFdiv_core_binary. rewrite !Zdigits2_log2 by lia.
  set (e' := Z.min _ (e1 - e2)). assert (He' : e' <= e1 - e2) by lia.
  assert (He2 : e' <= k) by (unfold e', fexp, emin; lia). clearbody e'.
  set (m' := match e1 - e2 - e' with Zpos _ => _ | Z0 => _ | Zneg _ => _ end).
  assert (Hm' : m' = Z.pos m1 * 2 ^ (e1 - e2 - e')).
  { unfold m'. destruct (e1 - e2 - e') as [|p|p] eqn:Hs; [lia| |lia]. rewrite Z.shiftl_mul_pow2 by lia. done. }
  clearbody m'.
  assert (Hq : (Z.div_eucl m' (Z.pos m2)).1 = m' / Z.pos m2) by (unfold Z.div; by destruct (Z.div_eucl m' (Z.pos m2))).
  destruct (Z.div_eucl m' (Z.pos m2)) as [q r]. simpl in Hq. subst q.
  assert (Hpos : 0 < 2 ^ (e1 - e2 - e')) by lia.
  assert (Hm0 : 0 <= m') by nia.
  pose proof (log2_div_le m' (Z.pos m2) Hm0 ltac:(lia)) as Hlog.
  assert (Hlm : Z.log2 m' = Z.log2 (Z.pos m1) + (e1 - e2 - e')) by (rewrite Hm', Z.log2_mul_pow2; lia).
  destruct (binary_round_aux_spec k (m' / Z.pos m2) e' (new_location (Z.pos m2) r)) as [H _]; [apply Z.div_pos; lia|lia..|done].
Qed.

Lemma modest_weaken k k' f : modest k f -> k <= k' -> modest k' f.
Proof. destruct f as [s|s| |[] m e]; try done. unfold modest. lia. Qed.

Lemma at_least_trunc n f : at_least n f -> n <= trunc_int f.
Proof.
  destruct f as [s|s| |[] m e]; try done. unfold at_least, below, trunc_int.
  destruct e as [|p|p]; [done..|]. cbn [Z.leb Z.compare Z.opp]. change (- Z.neg p) with (Z.pos p). intros H.
  assert (0 < 2 ^ Z.pos p) by lia. apply Z.div_le_lower_bound; lia.
Qed.

Lemma modest_trunc k f : 0 <= k -> modest k f -> trunc_int f < 2 ^ (k + 1).
Proof.
  intros Hk. assert (Hp : 0 < 2 ^ (k + 1)) by lia. destruct f as [s|s| |[] m e]; try done. unfold modest, trunc_int. intros [H1 H2].
  assert (Hm : Z.pos m < 2 ^ (Z.log2 (Z.pos m) + 1)) by (apply Z.log2_spec; lia). pose proof (Z.log2_nonneg (Z.pos m)) as Hl.
  destruct e as [|p|p].
  - rewrite Z.mul_1_r. eapply Z.lt_le_trans; [exact Hm|]. apply Z.pow_le_mono_r; lia.
  - eapply Z.lt_le_trans; [apply Z.mul_lt_mono_pos_r; [lia|exact Hm]|]. rewrite <- Z.pow_add_r by lia. apply Z.pow_le_mono_r; lia.
  - apply Z.div_lt_upper_bound; [lia|]. rewrite <- Z.pow_add_r by lia. eapply Z.lt_le_trans; [exact Hm|]. apply Z.pow_le_mono_r; lia.
Qed.

(** The whole seconds of a duration are not lost, and few are added. *)
Lemma trunc_SecondsOf d : 0 <= d < 2 ^ 20 * Second -> d / Second <= trunc_int (SecondsOf d) < 2 ^ 23.
Proof.
  intros Hd. assert (Hs : 0 < Second) by (unfold Second; lia). rewrite <- Z.quot_div_nonneg by lia.
  assert (Hq : 0 <= Z.quot d Second < 2 ^ 20).
  { rewrite Z.quot_div_nonneg by lia. split; [apply Z.div_pos; lia|apply Z.div_lt_upper_bound; lia]. }
  assert (Hr : 0 <= Z.rem d Second < 2 ^ 30).
  { pose proof (Z.rem_bound_pos d Second ltac:(lia) Hs). unfold Second in *. lia. }
  destruct (float64_of_int_spec 19 _ ltac:(lia) Hq) as [Hm Ha]. destruct (float64_of_int_spec 29 _ ltac:(lia) Hr) as [Hmr _].
  assert (Hb : modest 20 (SFdiv 53 1024 (float64_of_int (Z.rem d Second)) (float64_of_int Second))).
  { assert (Hsec : exists m2 e2, float64_of_int Second = S754_finite false m2 e2 /\ Z.log2 (Z.pos m2) + e2 = 29) by (vm_compute; by eexists _, _).
    destruct Hsec as (m2 & e2 & -> & He2). destruct (float64_of_int (Z.rem d Second)) as [s|s| |[] m e]; try done.
    destruct Hmr as [H1 H2]. apply (modest_weaken 2); [|lia]. apply (SFdiv_modest 1); lia. }
  destruct (SFadd_spec 20 _ _ ltac:(lia) Hm Hb) as [H1 H2]. fold (SecondsOf d) in H1, H2. split.
  - apply at_least_trunc, H2; [lia|done].
  - by apply (modest_trunc 22) in H1.
Qed.
