(* ===== verification/Jose.v ===== *)
(** * Verification of JWTs and the memory of their identifiers

    [backend/shared/security/tokens_jose]: proofs of possession
    ([dpop_verifier.go], RFC 9449), client assertions
    ([client_assertion_verifier.go], RFC 7523), assertions of identity
    ([id_jag.go]); and the memory store of the identifiers that were seen
    ([oauth2/internal/db_memory/replay.go]).

    The decoder and encoder of JSON and the primitives of RSA and ECDSA are the
    fields of [Library].  A verifier checks everything that the token itself says
    and records its [jti] last.

    The theorems: a proof of possession is accepted at most once, because the
    window of its record exceeds the time in which it is valid; a client
    assertion is accepted at most twice, and a lemma shows that twice happens,
    because there the window is too short; and what an accepted assertion of
    identity satisfies. *)

From Stdlib Require Import Ascii String ZArith Lia SpecFloat.
From stdpp Require Import base strings list gmap sorting.
From S2P Require Import Prelude Effects GoStrings Crypto Rules RichAuthorization Resilience.

Local Open Scope string_scope.
Local Open Scope go_scope.

(** ** JSON values *)

(** A decoded [any]; the members of an object are those of a Go map, each key
    once. *)
Inductive json :=
| JNull
| JBool (b : bool)
| JNumber (f : spec_float)
| JString (s : string)
| JArray (l : list json)
| JObject (m : list (string * json)).

Definition json_object := list (string * json).

Fixpoint member (o : json_object) (k : string) : option json :=
  match o with
  | [] => None
  | (k', v) :: o' => if k' =? k then Some v else member o' k
  end.

(** [s, _ := o[k].(string)] and the other assertions of types. *)
Definition as_string (v : option json) : option string := match v with Some (JString s) => Some s | _ => None end.
Definition string_member (o : json_object) (k : string) : string := default "" (as_string (member o k)).
Definition number_member (o : json_object) (k : string) : option spec_float :=
  match member o k with Some (JNumber f) => Some f | _ => None end.

(** ** The library *)

Inductive PublicKey := RSAPublicKey (n : N) (e : Z) | ECPublicKey (point : string).

Record Library := {
  (** [json.Unmarshal] into a map, which is nil after [null]. *)
  Unmarshal : string -> option (option json_object);
  Marshal : json -> string;
  (** [int64(f)] of a number out of the range, which Go leaves open. *)
  convert : spec_float -> Z;
  ParseUncompressedPublicKey : string -> bool;
  VerifyPSS : N -> Z -> list N -> string -> bool;
  VerifyPKCS1v15 : N -> Z -> list N -> string -> bool;
  ecdsa_Verify : string -> list N -> N -> N -> bool;
}.

Definition int64_of (lib : Library) (f : spec_float) : Z :=
  let z := trunc_int f in
  if (min_int64 <=? z) && (z <=? max_int64) then z else wrap64 (convert lib f).

Lemma int64_of_range lib f : (min_int64 <= int64_of lib f <= max_int64)%Z.
Proof.
  unfold int64_of. destruct (_ && _)%bool eqn:Hb; [go_bool; lia|apply wrap64_range].
Qed.

(** [Time.Unix] and [time.Unix(sec, 0)], whose count of seconds wraps. *)
Definition unixToInternal : Z := 62135596800.
Definition Unix (t : Time) : Z := (t / Second - unixToInternal)%Z.
Definition unix_time (sec : Z) : Time := (wrap64 (sec + unixToInternal) * Second)%Z.

(** ** The identifiers that were seen *)

Class ReplayPort (S E : Type) := { record_if_new : string -> Z -> Time -> S -> result E bool * S }.

(** The time until which an identifier is kept. *)
Definition replayStore := gmap string Time.

(** [clock] is [time.Now()]. *)
Definition recordIfNew (clock : Time) (jti : string) (windowSeconds : Z) (now : Time) (s : replayStore) : bool * replayStore :=
  let now := if IsZero now then clock else now in
  let live := filter (fun e => Before now e.2 = true) s in
  match live !! jti with
  | Some _ => (false, live)
  | None => (true, <[jti := Add now (wrap64 (windowSeconds * Second))]> live)
  end.

(** The clock is only read for a zero [now], which no caller passes. *)
#[export] Instance memory_replay_port {E} : ReplayPort replayStore E := {
  record_if_new jti w now s := let '(fresh, s') := recordIfNew now jti w now s in (Ok fresh, s');
}.

(** ** Errors *)

Inductive jose_error (E : Type) :=
| Invalid (e : errorf string)
| JosePort (e : E)
| ErrDPoPReplayStoreUnavailable (e : E).
Arguments Invalid {E} e.
Arguments JosePort {E} e.
Arguments ErrDPoPReplayStoreUnavailable {E} e.

Definition invalid {E} (text : string) : jose_error E := Invalid (Errorf "" text []).

Definition or_invalid {E A} (o : option A) (text : string) : result (jose_error E) A :=
  match o with Some a => Ok a | None => Err (invalid text) end.

(** ** Keys and signatures *)

Section keys.
Context (lib : Library).

(** [new(big.Int).SetBytes]. *)
Definition big_of_bytes (s : string) : N := fold_left (fun n b => n * 256 + b)%N (bytes_of s) 0%N.

(** The loop over the bytes of the exponent, in 64-bit integers. *)
Definition exponent_of_bytes (s : string) : Z :=
  fold_left (fun e b => Z.lor (wrap64 (Z.shiftl e 8)) (Z.of_N b)) (bytes_of s) 0%Z.

Definition publicKeyFromJWK (jwk : json_object) : option PublicKey :=
  let kty := string_member jwk "kty" in
  if kty =? "RSA" then
    match DecodeString (string_member jwk "n"), DecodeString (string_member jwk "e") with
    | Some n, Some e => Some (RSAPublicKey (big_of_bytes n) (exponent_of_bytes e))
    | _, _ => None
    end
  else if kty =? "EC" then
    if string_member jwk "crv" <>? "P-256" then None
    else match DecodeString (string_member jwk "x"), DecodeString (string_member jwk "y") with
    | Some x, Some y =>
        if negb (Z.eqb (len x) 32) || negb (Z.eqb (len y) 32) then None
        else let point := String "004" (x ++ y) in
             if ParseUncompressedPublicKey lib point then Some (ECPublicKey point) else None
    | _, _ => None
    end
  else None.

(** [json.Marshal] writes the members of a map by key. *)
Definition jwkThumbprint (jwk : json_object) : option string :=
  let kty := string_member jwk "kty" in
  let required := if kty =? "RSA" then Some ["e"; "kty"; "n"] else if kty =? "EC" then Some ["crv"; "kty"; "x"; "y"] else None in
  match required ≫= mapM (fun key => (fun v => (key, v)) <$> member jwk key) with
  | Some canonical => Some (EncodeToString (sha256_string (Marshal lib (JObject canonical))))
  | None => None
  end.

Definition verifyJWTSignature (header payload signature alg : string) (pub : PublicKey) : bool :=
  match DecodeString signature with
  | None => false
  | Some sig =>
      let digest := Sum256 (bytes_of (header ++ "." ++ payload)) in
      if alg =? "PS256" then match pub with RSAPublicKey n e => VerifyPSS lib n e digest sig | ECPublicKey _ => false end
      else if alg =? "RS256" then match pub with RSAPublicKey n e => VerifyPKCS1v15 lib n e digest sig | ECPublicKey _ => false end
      else if alg =? "ES256" then
        match pub with
        | ECPublicKey point =>
            if negb (Z.eqb (len sig) 64) then false
            else ecdsa_Verify lib point digest (big_of_bytes (String.substring 0 32 sig)) (big_of_bytes (String.substring 32 32 sig))
        | RSAPublicKey _ _ => false
        end
      else false
  end.

Definition pickJWK (jwks : list json_object) (kid : string) : option PublicKey :=
  if kid =? "" then match jwks with [jwk] => publicKeyFromJWK jwk | _ => None end
  else match List.find (fun jwk => string_member jwk "kid" =? kid) jwks with
       | Some jwk => publicKeyFromJWK jwk
       | None => None
       end.

(** A segment of a JWT; a nil map has no members. *)
Definition segment {E} (s decode_text parse_text : string) : result (jose_error E) json_object :=
  let? raw := or_invalid (DecodeString s) decode_text in
  let? object := or_invalid (Unmarshal lib raw) parse_text in
  Ok (default [] object).

(** ** Proofs of possession *)

Definition dpopClockSkewPastSeconds : Z := 60.
Definition dpopClockSkewFutureSeconds : Z := 5.
Definition dpopJTIReplayWindowSeconds : Z := 600.
Definition LengthProtocolMessageID : Z := 256.
Definition BytesProtocolMessageID : Z := 256.

Record DPoPResult := { dpop_JKT : string }.

Definition AccessTokenHash (accessToken : string) : string := EncodeToString (sha256_string accessToken).

(** The claims, after the signature. *)
Definition dpop_claims {E} (payload : json_object) (expectedHTM expectedHTU accessToken : string) (now : Time) :
    result (jose_error E) string :=
  let htm := string_member payload "htm" in
  reject htm <>? expectedHTM with Invalid (Errorf "" "dpop: htm mismatch (got %q, want %q)" [htm; expectedHTM]) in
  let htu := string_member payload "htu" in
  reject (htu =? "") || (htu <>? expectedHTU) with
    Invalid (Errorf "" "dpop: htu mismatch (got %q, want %q)" [htu; expectedHTU]) in
  let ath := string_member payload "ath" in
  reject (accessToken <>? "") && (ath =? "") with invalid "dpop: ath required" in
  reject (accessToken <>? "") && (ath <>? AccessTokenHash accessToken) with invalid "dpop: ath mismatch" in
  let iat := match number_member payload "iat" with Some f => int64_of lib f | None => 0%Z end in
  let skew := wrap64 (Unix now - iat) in
  reject (dpopClockSkewPastSeconds <? skew) || (skew <? - dpopClockSkewFutureSeconds) with
    invalid "dpop: iat outside clock skew" in
  let jti := string_member payload "jti" in
  reject jti =? "" with invalid "dpop: jti required" in
  match CheckKeyString "jti" jti LengthProtocolMessageID BytesProtocolMessageID with
  | Err e => Err (invalid ("dpop: " ++ error_text e))
  | Ok _ => Ok jti
  end.

(** Everything before the record: the identifier of the proof and its key. *)
Definition dpop_checks {E} (dpopHeader expectedHTM expectedHTU accessToken : string) (now : Time) :
    result (jose_error E) (string * json_object) :=
  match Split dpopHeader "." with
  | [h; p; sig] =>
      let? header := segment h "dpop: decode header: %w" "dpop: parse header: %w" in
      reject string_member header "typ" <>? "dpop+jwt" with invalid "dpop: typ must be dpop+jwt" in
      let alg := string_member header "alg" in
      reject (alg <>? "PS256") && (alg <>? "ES256") with invalid "dpop: alg must be PS256 or ES256" in
      match member header "jwk" with
      | Some (JObject jwk) =>
          let? pub := or_invalid (publicKeyFromJWK jwk) "dpop: import jwk: %w" in
          reject negb (verifyJWTSignature h p sig alg pub) with invalid "dpop: signature: %w" in
          let? payload := segment p "dpop: decode payload: %w" "dpop: parse payload: %w" in
          let? jti := dpop_claims payload expectedHTM expectedHTU accessToken now in
          Ok (jti, jwk)
      | _ => Err (invalid "dpop: jwk header required")
      end
  | _ => Err (invalid "dpop: malformed proof")
  end.

Section verifiers.
Context {S E : Type} `{ReplayPort S E}.
Notation verify := (eff S unit (jose_error E)).

Definition verifyDPoP (dpopHeader expectedHTM expectedHTU accessToken : string) (now : Time) : verify DPoPResult :=
  let! proof := lift (dpop_checks dpopHeader expectedHTM expectedHTU accessToken now) in
  let '(jti, jwk) := proof in
  let! isNew := call ErrDPoPReplayStoreUnavailable (record_if_new jti dpopJTIReplayWindowSeconds now) in
  if negb isNew then eff_fail (invalid "dpop: jti replay detected")
  else
    let! jkt := lift (or_invalid (jwkThumbprint jwk) "jwk unsupported kty for thumbprint: %q") in
    eff_ret {| dpop_JKT := jkt |}.

(** A missing proof is no error: DPoP is not used. *)
Definition VerifyDPoPForToken (dpopHeader expectedHTM expectedHTU : string) (now : Time) : verify (option DPoPResult) :=
  if dpopHeader =? "" then eff_ret None
  else let! r := verifyDPoP dpopHeader expectedHTM expectedHTU "" now in eff_ret (Some r).

Definition VerifyDPoPForResource (dpopHeader expectedHTM expectedHTU accessToken : string) (now : Time) : verify (option DPoPResult) :=
  if dpopHeader =? "" then eff_fail (invalid "dpop: proof required")
  else if accessToken =? "" then eff_fail (invalid "dpop: access token required")
  else let! r := verifyDPoP dpopHeader expectedHTM expectedHTU accessToken now in eff_ret (Some r).

(** ** Client assertions *)

Definition clientAssertionMaxLifetimeSeconds : Z := 300.
Definition clientAssertionClockSkewSeconds : Z := 60.

Record ClientAssertionResult := { ca_ClientID : string }.

Definition UnverifiedClientAssertionSubject (assertion : string) : result (jose_error E) string :=
  match Split assertion "." with
  | [_; p; _] =>
      let? payload := segment p "client_assertion: malformed JWT" "client_assertion: malformed JWT" in
      match as_string (member payload "sub") with
      | Some sub => if sub =? "" then Err (invalid "client_assertion: sub required") else Ok sub
      | None => Err (invalid "client_assertion: sub required")
      end
  | _ => Err (invalid "client_assertion: malformed JWT")
  end.

Definition verifyAudience (aud : option json) (expected : list string) : bool :=
  match aud with
  | Some (JString v) => contains expected v
  | Some (JArray l) => existsb (fun s => match s with JString v => contains expected v | _ => false end) l
  | _ => false
  end.

Definition assertion_claims (payload : json_object) (expectedClientID : string) (expectedAudiences : list string) (now : Time) :
    result (jose_error E) string :=
  let iss := string_member payload "iss" in
  reject (iss =? "") || (iss <>? string_member payload "sub") with invalid "client_assertion: iss must equal sub" in
  reject iss <>? expectedClientID with invalid "client_assertion: iss does not match client_id" in
  reject negb (verifyAudience (member payload "aud") expectedAudiences) with invalid "client_assertion: aud mismatch" in
  match number_member payload "exp" with
  | None => Err (invalid "client_assertion: exp required")
  | Some exp =>
      let exp := int64_of lib exp in
      reject wrap64 (exp + clientAssertionClockSkewSeconds) <? Unix now with invalid "client_assertion: expired" in
      reject clientAssertionMaxLifetimeSeconds + clientAssertionClockSkewSeconds <? wrap64 (exp - Unix now) with
        invalid "client_assertion: lifetime too long" in
      reject match number_member payload "nbf" with
             | Some nbf => wrap64 (Unix now + clientAssertionClockSkewSeconds) <? int64_of lib nbf
             | None => false
             end with invalid "client_assertion: not yet valid" in
      let jti := string_member payload "jti" in
      reject jti =? "" with invalid "client_assertion: jti required" in
      match CheckKeyString "jti" jti LengthProtocolMessageID BytesProtocolMessageID with
      | Err e => Err (invalid ("client_assertion: " ++ error_text e))
      | Ok _ => Ok jti
      end
  end.

(** Everything before the record: the identifier. *)
Definition assertion_checks (assertion expectedClientID : string) (expectedAudiences : list string)
    (keysFn : string -> result E (list json_object)) (now : Time) : result (jose_error E) string :=
  match Split assertion "." with
  | [h; p; sig] =>
      let? header := segment h "%w" "%w" in
      let alg := string_member header "alg" in
      reject (alg <>? "PS256") && (alg <>? "ES256") with Invalid (Errorf "" "client_assertion: alg %q not allowed" [alg]) in
      let? payload := segment p "%w" "%w" in
      let? jti := assertion_claims payload expectedClientID expectedAudiences now in
      match keysFn (string_member payload "iss") with
      | Err _ => Err (invalid "client_assertion: load jwks: %w")
      | Ok jwks =>
          let? pub := or_invalid (pickJWK jwks (string_member header "kid")) "kid required when JWKS has multiple keys" in
          reject negb (verifyJWTSignature h p sig alg pub) with invalid "client_assertion: signature: %w" in
          Ok jti
      end
  | _ => Err (invalid "client_assertion: malformed JWT")
  end.

(** The client that was accepted is the one expected. *)
Definition VerifyClientAssertion (has_replay : bool) (assertion expectedClientID : string) (expectedAudiences : list string)
    (keysFn : string -> result E (list json_object)) (now : Time) : verify ClientAssertionResult :=
  let! jti := lift (assertion_checks assertion expectedClientID expectedAudiences keysFn now) in
  if negb has_replay then eff_fail (invalid "client_assertion: replay store is not configured")
  else
    let! isNew := call JosePort (record_if_new jti (clientAssertionMaxLifetimeSeconds + clientAssertionClockSkewSeconds) now) in
    if negb isNew then eff_fail (invalid "client_assertion: jti replay detected")
    else eff_ret {| ca_ClientID := expectedClientID |}.
End verifiers.
End keys.

(** ** Assertions of identity *)

Definition IDJAGType : string := "oauth-id-jag+jwt".
Definition IDJAGClockSkew : Duration := (60 * Second)%Z.
Definition IDJAGMaxLifetime : Duration := (600 * Second)%Z.

Record IDJAGConfirmation := { cnf_JKT : string; cnf_X5TS256 : string; cnf_Other : bool }.

Record IDJAGClaims := {
  jc_Issuer : string;
  jc_Subject : string;
  jc_ClientID : string;
  jc_JTI : string;
  jc_IssuedAt : Time;
  jc_ExpiresAt : Time;
  jc_Resources : list string;
  jc_Scope : string;
  (** The empty text is no claim. *)
  jc_AuthorizationDetails : string;
  jc_HasActor : bool;
  jc_AuthTime : Z;
  jc_AMR : list string;
  jc_ACR : string;
  jc_Confirmation : option IDJAGConfirmation;
}.

Section id_jag.
Context (lib : Library) {E : Type}.

(** [ErrIDJAGInvalid] with its reason. *)
Definition ErrIDJAGInvalid (reason : string) : jose_error E := Invalid (Errorf "id-jag: invalid" "%w: %s" [reason]).

Definition UnverifiedIDJAGIssuer (token : string) : option string :=
  match Split token "." with
  | [_; p; _] =>
      match DecodeString p ≫= Unmarshal lib with
      | Some payload =>
          match as_string (member (default [] payload) "iss") with
          | Some iss => if iss =? "" then None else Some iss
          | None => None
          end
      | None => None
      end
  | _ => None
  end.

Definition jwkAllowsAlg (jwks : list json_object) (kid alg : string) : bool :=
  forallb (fun jwk =>
    if (kid <>? "") && (string_member jwk "kid" <>? kid) then true
    else match as_string (member jwk "alg") with
         | Some declared => (declared =? "") || (declared =? alg)
         | None => true
         end) jwks.

Definition json_strings (l : list json) : list string := omap (fun v => as_string (Some v)) l.

Definition audienceStrings (aud : option json) : list string :=
  match aud with
  | Some (JString v) => [v]
  | Some (JArray l) => json_strings l
  | _ => []
  end.

(** The loop over the array, with the resources so far, which are those seen. *)
Fixpoint distinct_strings (l : list json) (out : list string) : option (list string) :=
  match l with
  | [] => Some out
  | JString r :: l' => if (r =? "") || contains out r then None else distinct_strings l' (out ++ [r])%list
  | _ :: _ => None
  end.

Definition idJagResources (raw : option json) : option (list string) :=
  match raw with
  | None | Some JNull => Some []
  | Some (JString v) => if v <>? "" then Some [v] else None
  | Some (JArray []) => None
  | Some (JArray l) => distinct_strings l []
  | _ => None
  end.

(** The members are read in any order: each key occurs once. *)
Definition read_confirmation (c : IDJAGConfirmation) (entry : string * json) : IDJAGConfirmation :=
  let '(name, value) := entry in
  let text := default "" (as_string (Some value)) in
  if (name =? "jkt") && (text <>? "") then {| cnf_JKT := text; cnf_X5TS256 := cnf_X5TS256 c; cnf_Other := cnf_Other c |}
  else if (name =? "x5t#S256") && (text <>? "") then {| cnf_JKT := cnf_JKT c; cnf_X5TS256 := text; cnf_Other := cnf_Other c |}
  else {| cnf_JKT := cnf_JKT c; cnf_X5TS256 := cnf_X5TS256 c; cnf_Other := true |}.

Definition idJagConfirmation (cnf : json_object) : IDJAGConfirmation :=
  fold_left read_confirmation cnf {| cnf_JKT := ""; cnf_X5TS256 := ""; cnf_Other := false |}.

(** The protected header: the algorithm and the key it is checked with. *)
Definition id_jag_key (header : json_object) (jwks : list json_object) : result (jose_error E) (string * PublicKey) :=
  reject string_member header "typ" <>? IDJAGType with ErrIDJAGInvalid "typ" in
  let alg := string_member header "alg" in
  reject negb (contains ["RS256"; "ES256"; "PS256"] alg) with ErrIDJAGInvalid "alg" in
  let kid := string_member header "kid" in
  reject negb (jwkAllowsAlg jwks kid alg) with ErrIDJAGInvalid "alg of the key" in
  match pickJWK lib jwks kid with
  | None => Err (ErrIDJAGInvalid "key")
  | Some pub => Ok (alg, pub)
  end.

(** The times of issue and of expiry. *)
Definition id_jag_times (payload : json_object) (now : Time) : result (jose_error E) (Time * Time) :=
  match number_member payload "iat", number_member payload "exp" with
  | Some iatF, Some expF =>
      let iat := unix_time (int64_of lib iatF) in
      let exp := unix_time (int64_of lib expF) in
      reject After iat (Add now IDJAGClockSkew) with ErrIDJAGInvalid "iat in the future" in
      reject negb (After (Add exp IDJAGClockSkew) now) with ErrIDJAGInvalid "expired" in
      reject (IDJAGMaxLifetime <? Sub exp iat) || negb (After exp iat) with ErrIDJAGInvalid "lifetime" in
      Ok (iat, exp)
  | _, _ => Err (ErrIDJAGInvalid "iat or exp")
  end.

Definition id_jag_claims (payload : json_object) (issuer audience : string) (now : Time) : result (jose_error E) IDJAGClaims :=
  let iss := string_member payload "iss" in
  reject (iss =? "") || (iss <>? issuer) with ErrIDJAGInvalid "iss" in
  reject negb (audienceStrings (member payload "aud") =? [audience]) with ErrIDJAGInvalid "aud" in
  let sub := string_member payload "sub" in
  let clientID := string_member payload "client_id" in
  let jti := string_member payload "jti" in
  reject (sub =? "") || (clientID =? "") || (jti =? "") with ErrIDJAGInvalid "required claim" in
  let? times := id_jag_times payload now in
  match idJagResources (member payload "resource") with
  | None => Err (ErrIDJAGInvalid "resource")
  | Some resources =>
      let claims confirmation :=
        {| jc_Issuer := iss; jc_Subject := sub; jc_ClientID := clientID; jc_JTI := jti; jc_IssuedAt := times.1;
           jc_ExpiresAt := times.2; jc_Resources := resources; jc_Scope := string_member payload "scope";
           jc_AuthorizationDetails := match member payload "authorization_details" with Some raw => Marshal lib raw | None => "" end;
           jc_HasActor := is_some (member payload "act");
           jc_AuthTime := match number_member payload "auth_time" with Some f => int64_of lib f | None => 0%Z end;
           jc_AMR := match member payload "amr" with Some (JArray l) => json_strings l | _ => [] end;
           jc_ACR := string_member payload "acr"; jc_Confirmation := confirmation |} in
      match member payload "cnf" with
      | None => Ok (claims None)
      | Some (JObject cnf) => Ok (claims (Some (idJagConfirmation cnf)))
      | Some _ => Err (ErrIDJAGInvalid "cnf")
      end
  end.

Definition VerifyIDJAG (token : string) (jwks : list json_object) (issuer audience : string) (now : Time) :
    result (jose_error E) IDJAGClaims :=
  match Split token "." with
  | [h; p; sig] =>
      match DecodeString h ≫= Unmarshal lib with
      | None => Err (ErrIDJAGInvalid "header")
      | Some header =>
          let? key := id_jag_key (default [] header) jwks in
          reject negb (verifyJWTSignature lib h p sig key.1 key.2) with ErrIDJAGInvalid "signature" in
          match DecodeString p ≫= Unmarshal lib with
          | None => Err (ErrIDJAGInvalid "payload")
          | Some payload => id_jag_claims (default [] payload) issuer audience now
          end
      end
  | _ => Err (ErrIDJAGInvalid "malformed")
  end.
End id_jag.

(** ** What the memory of identifiers guarantees *)

(** An attempt to record an identifier, or a request that does not get that far. *)
Record replay_attempt := { ra_now : Time; ra_window : Z; ra_jti : option string }.

Definition attempt_run (a : replay_attempt) (s : replayStore) : bool * replayStore :=
  match ra_jti a with
  | None => (false, s)
  | Some jti => recordIfNew (ra_now a) jti (ra_window a) (ra_now a) s
  end.

Definition attempts_run (l : list replay_attempt) (s : replayStore) : replayStore :=
  fold_left (fun s a => (attempt_run a s).2) l s.

Lemma recordIfNew_now now jti w s : recordIfNew now jti w now s =
  match filter (fun e => Before now e.2 = true) s !! jti with
  | Some _ => (false, filter (fun e => Before now e.2 = true) s)
  | None => (true, <[jti := Add now (wrap64 (w * Second))]> (filter (fun e => Before now e.2 = true) s))
  end.
Proof. unfold recordIfNew. by destruct (IsZero now). Qed.

Lemma recordIfNew_fresh now jti w s s' : recordIfNew now jti w now s = (true, s') ->
  s' !! jti = Some (Add now (wrap64 (w * Second))).
Proof.
  rewrite recordIfNew_now. destruct (filter _ s !! jti); intros [= <-]. apply lookup_insert_eq.
Qed.

(** A record that is not over stays, and refuses its identifier. *)
Lemma recordIfNew_keeps now jti w (s : replayStore) j e : s !! j = Some e -> (now < e)%Z ->
  (recordIfNew now jti w now s).2 !! j = Some e /\ (j = jti -> (recordIfNew now jti w now s).1 = false).
Proof.
  intros Hj Hlt. rewrite recordIfNew_now.
  set (live := filter _ s).
  assert (Hlive : live !! j = Some e). { apply map_lookup_filter_Some. split; [done|]. unfold Before. simpl. by apply Z.ltb_lt. }
  clearbody live. destruct (live !! jti) eqn:Hjti.
  - split; [exact Hlive|done].
  - assert (j <> jti). { intros ->. assert (Hbad : Some e = None) by (rewrite <- Hlive; exact Hjti). done. }
    split; [|done]. refine (eq_trans (lookup_insert_ne (M := gmap string) live jti j _ _) Hlive). by intros ->.
Qed.

Lemma attempt_keeps a s j e : s !! j = Some e -> (ra_now a < e)%Z ->
  (attempt_run a s).2 !! j = Some e /\ (ra_jti a = Some j -> (attempt_run a s).1 = false).
Proof.
  intros Hj Hlt. unfold attempt_run. destruct (ra_jti a) as [jti|] eqn:Ha; [|by split].
  destruct (recordIfNew_keeps (ra_now a) jti (ra_window a) s j e Hj Hlt) as [H1 H2]. split; [done|]. intros [= ->]. by apply H2.
Qed.

Lemma attempts_keep l : forall s j e, s !! j = Some e -> Forall (fun a => (ra_now a < e)%Z) l -> attempts_run l s !! j = Some e.
Proof.
  induction l as [|a l IH]; intros s j e Hj Hl; [done|]. apply Forall_cons in Hl as [Ha Hl].
  unfold attempts_run. simpl. apply IH; [|done]. by apply attempt_keeps.
Qed.

(** In a sequence of attempts whose clock does not run backwards, an identifier
    that was recorded is fresh again only after its window. *)
Lemma attempts_gap a1 l a2 j s :
  ra_jti a1 = Some j -> ra_jti a2 = Some j -> StronglySorted Z.le (map ra_now (a1 :: l ++ [a2])) ->
  (attempt_run a1 s).1 = true -> (attempt_run a2 (attempts_run l (attempt_run a1 s).2)).1 = true ->
  (ra_now a1 + wrap64 (ra_window a1 * Second) <= ra_now a2)%Z.
Proof.
  intros H1 H2 Hsort Hr1 Hr2. destruct (Z.le_gt_cases (ra_now a1 + wrap64 (ra_window a1 * Second)) (ra_now a2)) as [|Hgt]; [done|].
  exfalso. simpl in Hsort. apply StronglySorted_inv in Hsort as [Hsort _]. rewrite map_app in Hsort.
  assert (Hl : Forall (fun a => (ra_now a <= ra_now a2)%Z) l).
  { clear -Hsort. induction l as [|a l IH]; [constructor|]. simpl in Hsort. apply StronglySorted_inv in Hsort as [Hs Hall].
    constructor; [|by apply IH]. apply Forall_app in Hall as [_ Hall]. by apply Forall_cons in Hall as [? _]. }
  assert (Hrec : (attempt_run a1 s).2 !! j = Some (ra_now a1 + wrap64 (ra_window a1 * Second))%Z).
  { revert Hr1. unfold attempt_run. rewrite H1. destruct (recordIfNew _ _ _ _ _) as [b s'] eqn:Hr. simpl. intros ->.
    by apply recordIfNew_fresh in Hr. }
  assert (Hkept : attempts_run l (attempt_run a1 s).2 !! j = Some (ra_now a1 + wrap64 (ra_window a1 * Second))%Z).
  { apply attempts_keep; [done|]. eapply Forall_impl; [exact Hl|]. intros a Ha. simpl in Ha. lia. }
  destruct (attempt_keeps a2 _ j _ Hkept Hgt) as [_ Hno]. rewrite (Hno H2) in Hr2. discriminate.
Qed.

(** ** Proofs of possession work once *)

(** The claims of a token, whatever its header and signature. *)
Definition payload_of (lib : Library) (token : string) : option json_object :=
  match Split token "." with
  | [_; p; _] => default [] <$> (DecodeString p ≫= Unmarshal lib)
  | _ => None
  end.

Lemma segment_Ok lib {E} s t1 t2 o : segment (E := E) lib s t1 t2 = Ok o ->
  default [] <$> (DecodeString s ≫= Unmarshal lib) = Some o.
Proof.
  unfold segment, or_invalid. destruct (DecodeString s) as [raw|]; [|done]. simpl. destruct (Unmarshal lib raw); [|done].
  simpl. by intros [= ->].
Qed.

Section dpop.
Context (lib : Library) {E : Type}.

(** A presentation of a proof: at an endpoint of tokens, or with an access
    token at a resource. *)
Record dpop_call := {
  dc_proof : string;
  dc_htm : string;
  dc_htu : string;
  dc_token : option string;
  dc_now : Time;
}.

Definition run_dpop (c : dpop_call) : eff replayStore unit (jose_error E) (option DPoPResult) :=
  match dc_token c with
  | None => VerifyDPoPForToken lib (dc_proof c) (dc_htm c) (dc_htu c) (dc_now c)
  | Some token => VerifyDPoPForResource lib (dc_proof c) (dc_htm c) (dc_htu c) token (dc_now c)
  end.

Definition dpop_accepted (c : dpop_call) (s : replayStore) : Prop := exists r, (run_dpop c s).1.1 = Ok (Some r).

Definition dpop_after (l : list dpop_call) (s : replayStore) : replayStore := fold_left (fun s c => (run_dpop c s).1.2) l s.

Definition dpop_attempt (c : dpop_call) : replay_attempt :=
  {| ra_now := dc_now c; ra_window := dpopJTIReplayWindowSeconds;
     ra_jti := if (dc_proof c =? "") || (dc_token c =? Some "") then None
               else match dpop_checks (E := E) lib (dc_proof c) (dc_htm c) (dc_htu c) (default "" (dc_token c)) (dc_now c) with
                    | Ok (jti, _) => Some jti
                    | Err _ => None
                    end |}.

Lemma verifyDPoP_attempt proof htm htu token now (s : replayStore) :
  match dpop_checks (E := E) lib proof htm htu token now with
  | Ok (jti, _) => (verifyDPoP (E := E) lib proof htm htu token now s).1.2 = (recordIfNew now jti dpopJTIReplayWindowSeconds now s).2 /\
      (forall r, (verifyDPoP (E := E) lib proof htm htu token now s).1.1 = Ok r ->
       (recordIfNew now jti dpopJTIReplayWindowSeconds now s).1 = true)
  | Err _ => (verifyDPoP (E := E) lib proof htm htu token now s).1.2 = s /\
      forall r, (verifyDPoP (E := E) lib proof htm htu token now s).1.1 <> Ok r
  end.
Proof.
  unfold verifyDPoP, eff_bind, lift, call. destruct (dpop_checks _ _ _ _ _ _) as [[jti jwk]|e]; [|done]. simpl.
  destruct (recordIfNew now jti dpopJTIReplayWindowSeconds now s) as [fresh s']. simpl. destruct fresh; simpl; [|done].
  by destruct (or_invalid _ _).
Qed.

Lemma run_dpop_attempt c s :
  (run_dpop c s).1.2 = (attempt_run (dpop_attempt c) s).2 /\
  (dpop_accepted c s -> (attempt_run (dpop_attempt c) s).1 = true).
Proof.
  unfold dpop_accepted, run_dpop, attempt_run, dpop_attempt. simpl.
  unfold VerifyDPoPForToken, VerifyDPoPForResource.
  pose proof (verifyDPoP_attempt (dc_proof c) (dc_htm c) (dc_htu c) (default "" (dc_token c)) (dc_now c) s) as Hv.
  destruct (dc_proof c =? "") eqn:Hp; simpl.
  { destruct (dc_token c); simpl; (split; [done|]); by intros (r & [=]). }
  destruct (dc_token c) as [token|]; simpl in *.
  - destruct (token =? "") eqn:Ht; go_bool.
    + subst token. rewrite bool_decide_true by done. split; [done|]. by intros (r & [=]).
    + rewrite bool_decide_false by congruence. unfold eff_bind.
      destruct (verifyDPoP lib _ _ _ _ _ s) as [[[r|e] s'] w]; destruct (dpop_checks _ _ _ _ _ _) as [[jti jwk]|e']; simpl in *;
        destruct Hv as [-> Hv]; (split; [done|]); try by intros (? & [=]).
      * intros _. by apply (Hv r).
      * by destruct (Hv r).
  - unfold eff_bind.
    destruct (verifyDPoP lib _ _ _ _ _ s) as [[[r|e] s'] w]; destruct (dpop_checks _ _ _ _ _ _) as [[jti jwk]|e']; simpl in *;
      destruct Hv as [-> Hv]; (split; [done|]); try by intros (? & [=]).
    + intros _. by apply (Hv r).
    + by destruct (Hv r).
Qed.

Lemma dpop_after_attempts l : forall s, dpop_after l s = attempts_run (map dpop_attempt l) s.
Proof.
  induction l as [|c l IH]; intros s; [done|]. unfold dpop_after, attempts_run in *. simpl.
  destruct (run_dpop_attempt c s) as [-> _]. apply IH.
Qed.

(** The claims that were checked are those of the proof. *)
Lemma dpop_checks_Ok proof htm htu token now jti jwk : dpop_checks (E := E) lib proof htm htu token now = Ok (jti, jwk) ->
  exists payload, payload_of lib proof = Some payload /\ dpop_claims (E := E) lib payload htm htu token now = Ok jti.
Proof.
  unfold dpop_checks, payload_of. destruct (Split proof ".") as [|h [|p [|sig [|? ?]]]]; try done.
  intros Hc. apply res_bind_Ok in Hc as (header & _ & Hc). destruct (_ <>? _); [done|]. destruct (_ && _)%bool; [done|].
  destruct (member header "jwk") as [[| | | | |jwk']|]; try done. apply res_bind_Ok in Hc as (pub & _ & Hc).
  destruct (negb _); [done|]. apply res_bind_Ok in Hc as (payload & Hp & Hc). apply res_bind_Ok in Hc as (jti' & Hj & [= -> ->]).
  exists payload. split; [|done]. exact (segment_Ok _ _ _ _ _ Hp).
Qed.

Definition iat_of (payload : json_object) : Z := match number_member payload "iat" with Some f => int64_of lib f | None => 0%Z end.

Lemma dpop_claims_Ok payload htm htu token now jti : dpop_claims (E := E) lib payload htm htu token now = Ok jti ->
  string_member payload "htm" = htm /\ string_member payload "htu" = htu /\ htu <> "" /\
  (token <> "" -> string_member payload "ath" = AccessTokenHash token) /\
  (- dpopClockSkewFutureSeconds <= wrap64 (Unix now - iat_of payload) <= dpopClockSkewPastSeconds)%Z /\
  string_member payload "jti" = jti /\ jti <> "" /\ (RuneCountInString jti <= LengthProtocolMessageID)%Z.
Proof.
  unfold dpop_claims. fold (iat_of payload). intros Hc.
  destruct (_ <>? htm) eqn:H1; [done|]. destruct (_ || _)%bool eqn:H2 in Hc; [done|]. destruct (_ && _)%bool eqn:H3 in Hc; [done|].
  destruct (_ && _)%bool eqn:H4 in Hc; [done|]. destruct (_ || _)%bool eqn:H5 in Hc; [done|]. destruct (_ =? "") eqn:H6 in Hc; [done|].
  unfold CheckKeyString, CheckMaxChars in Hc. destruct (_ <=? _) eqn:H7 in Hc; [|done]. simpl in Hc.
  unfold CheckMaxBytes in Hc. destruct (_ <=? _) in Hc; [|done]. injection Hc as <-. clear H3. go_bool.
  destruct H2 as [H2 H2']. split_and!; try done; try lia; try congruence.
  intros Ht. destruct H4 as [H4|H4]; [by rewrite H4 in Ht|done].
Qed.

(** The two instants at which the same claims are valid are close. *)
Lemma same_iat now1 now2 iat : (0 <= Unix now1)%Z -> (Unix now1 <= Unix now2)%Z -> (Unix now2 <= max_int64)%Z ->
  (- 5 <= wrap64 (Unix now1 - iat) <= 60)%Z -> (- 5 <= wrap64 (Unix now2 - iat) <= 60)%Z -> (Unix now2 - Unix now1 <= 65)%Z.
Proof.
  unfold wrap64, max_int64. generalize (Unix now1) as u1, (Unix now2) as u2. intros u1 u2 H1 H2 H3 H4 H5.
  Z.to_euclidean_division_equations. lia.
Qed.

Lemma Unix_le t1 t2 : (t1 <= t2)%Z -> (Unix t1 <= Unix t2)%Z.
Proof. intros H. unfold Unix, Second. pose proof (Z.div_le_mono t1 t2 1000000000). lia. Qed.

Lemma Unix_gap t1 t2 n : (Unix t2 - Unix t1 <= n)%Z -> (t2 < t1 + (n + 1) * Second)%Z.
Proof.
  unfold Unix, Second. intros H. pose proof (Z.mul_div_le t1 1000000000 ltac:(lia)).
  pose proof (Z.mul_succ_div_gt t2 1000000000 ltac:(lia)). lia.
Qed.

(** C22. A proof of possession is accepted at most once, wherever it is presented
    and however its header, its encoding or its signature is rewritten: as long
    as the clock does not run backwards, of two presentations of the same claims
    at most one is accepted, whatever is presented between them. *)
Theorem dpop_proof_once c1 l c2 s :
  payload_of lib (dc_proof c1) = payload_of lib (dc_proof c2) ->
  StronglySorted Z.le (map dc_now (c1 :: l ++ [c2])) ->
  (0 <= Unix (dc_now c1))%Z -> (Unix (dc_now c2) <= max_int64)%Z ->
  dpop_accepted c1 s -> ~ dpop_accepted c2 (dpop_after l (run_dpop c1 s).1.2).
Proof.
  intros Hp Hsort H1 H2 Ha1 Ha2. rewrite dpop_after_attempts in Ha2.
  destruct (run_dpop_attempt c1 s) as [Hs Hf1]. rewrite Hs in Ha2. specialize (Hf1 Ha1).
  destruct (run_dpop_attempt c2 (attempts_run (map dpop_attempt l) (attempt_run (dpop_attempt c1) s).2)) as [_ Hf2].
  specialize (Hf2 Ha2).
  assert (Hid : forall c s, (attempt_run (dpop_attempt c) s).1 = true -> exists payload, payload_of lib (dc_proof c) = Some payload /\
    ra_jti (dpop_attempt c) = Some (string_member payload "jti") /\ (- 5 <= wrap64 (Unix (dc_now c) - iat_of payload) <= 60)%Z).
  { intros c s0. unfold attempt_run, dpop_attempt. simpl. destruct (_ || _)%bool; [done|].
    destruct (dpop_checks _ _ _ _ _ _) as [[jti jwk]|e] eqn:Hc; [|done]. intros _.
    apply dpop_checks_Ok in Hc as (payload & Hpl & Hcl). apply dpop_claims_Ok in Hcl as (_ & _ & _ & _ & Hskew & <- & _).
    exists payload. done. }
  destruct (Hid _ _ Hf1) as (p1 & Hp1 & Hj1 & Hs1). destruct (Hid _ _ Hf2) as (p2 & Hp2 & Hj2 & Hs2).
  assert (p2 = p1) as -> by congruence.
  assert (Hgap : (dc_now c1 + wrap64 (600 * Second) <= dc_now c2)%Z).
  { refine (attempts_gap (dpop_attempt c1) (map dpop_attempt l) (dpop_attempt c2) _ s Hj1 Hj2 _ Hf1 Hf2).
    simpl. rewrite map_app, map_map. simpl in Hsort. rewrite map_app in Hsort. exact Hsort. }
  rewrite wrap64_id in Hgap by (vm_compute; split; discriminate).
  assert (Hle : (dc_now c1 <= dc_now c2)%Z) by (unfold Second in Hgap; lia).
  pose proof (Unix_gap _ _ _ (same_iat _ _ _ H1 (Unix_le _ _ Hle) H2 Hs1 Hs2)). unfold Second in *. lia.
Qed.
End dpop.

(** ** Client assertions work at most twice *)

Section assertions.
Context (lib : Library) {E : Type}.

Record assertion_call := {
  as_assertion : string;
  as_client : string;
  as_audiences : list string;
  as_keys : string -> result E (list json_object);
  as_now : Time;
}.

Definition run_assertion (c : assertion_call) : eff replayStore unit (jose_error E) ClientAssertionResult :=
  VerifyClientAssertion lib true (as_assertion c) (as_client c) (as_audiences c) (as_keys c) (as_now c).

Definition assertion_accepted (c : assertion_call) (s : replayStore) : Prop := exists r, (run_assertion c s).1.1 = Ok r.

Definition assertions_after (l : list assertion_call) (s : replayStore) : replayStore :=
  fold_left (fun s c => (run_assertion c s).1.2) l s.

Definition assertion_attempt (c : assertion_call) : replay_attempt :=
  {| ra_now := as_now c; ra_window := clientAssertionMaxLifetimeSeconds + clientAssertionClockSkewSeconds;
     ra_jti := match assertion_checks lib (as_assertion c) (as_client c) (as_audiences c) (as_keys c) (as_now c) with
               | Ok jti => Some jti
               | Err _ => None
               end |}.

Lemma run_assertion_attempt c s :
  (run_assertion c s).1.2 = (attempt_run (assertion_attempt c) s).2 /\
  (assertion_accepted c s -> (attempt_run (assertion_attempt c) s).1 = true).
Proof.
  unfold assertion_accepted, run_assertion, attempt_run, assertion_attempt, VerifyClientAssertion, eff_bind, lift, call.
  destruct (assertion_checks _ _ _ _ _ _) as [jti|e]; simpl; [|by split; [|intros (r & [=])]].
  destruct (recordIfNew _ _ _ _ s) as [fresh s']. simpl. destruct fresh; simpl; (split; [done|]); [done|by intros (r & [=])].
Qed.

Lemma assertions_after_attempts l : forall s, assertions_after l s = attempts_run (map assertion_attempt l) s.
Proof.
  induction l as [|c l IH]; intros s; [done|]. unfold assertions_after, attempts_run in *. simpl.
  destruct (run_assertion_attempt c s) as [-> _]. apply IH.
Qed.

(** What an accepted assertion says. *)
Definition assertion_valid (c : assertion_call) (payload : json_object) : Prop :=
  payload_of lib (as_assertion c) = Some payload /\
  string_member payload "iss" = as_client c /\ string_member payload "sub" = as_client c /\ as_client c <> "" /\
  verifyAudience (member payload "aud") (as_audiences c) = true /\
  exists exp, number_member payload "exp" = Some exp /\
    (Unix (as_now c) <= wrap64 (int64_of lib exp + 60))%Z /\ (wrap64 (int64_of lib exp - Unix (as_now c)) <= 360)%Z.

Lemma assertion_checks_Ok c jti :
  assertion_checks lib (as_assertion c) (as_client c) (as_audiences c) (as_keys c) (as_now c) = Ok jti ->
  exists payload, assertion_valid c payload /\ jti = string_member payload "jti" /\ jti <> "".
Proof.
  unfold assertion_checks, assertion_valid, payload_of. destruct (Split _ ".") as [|h [|p [|sig [|? ?]]]]; try done.
  intros Hc. apply res_bind_Ok in Hc as (header & _ & Hc). destruct (_ && _)%bool; [done|].
  apply res_bind_Ok in Hc as (payload & Hp & Hc). apply res_bind_Ok in Hc as (jti' & Hj & Hc).
  destruct (as_keys c _) as [jwks|]; [|done]. apply res_bind_Ok in Hc as (pub & _ & Hc). destruct (negb _); [done|].
  injection Hc as ->. exists payload. apply segment_Ok in Hp. unfold assertion_claims in Hj.
  destruct (_ || _)%bool eqn:H1 in Hj; [done|]. destruct (_ <>? as_client c) eqn:H2 in Hj; [done|].
  destruct (negb (verifyAudience _ _)) eqn:H3 in Hj; [done|]. destruct (number_member payload "exp") as [exp|]; [|done].
  destruct (_ <? Unix _) eqn:H4 in Hj; [done|]. destruct (_ <? wrap64 (int64_of lib exp - _)) eqn:H5 in Hj; [done|].
  match type of Hj with (if ?b then _ else _) = _ => destruct b; [done|] end. destruct (_ =? "") eqn:H6 in Hj; [done|].
  destruct (CheckKeyString _ _ _ _); [|done]. injection Hj as <-. go_bool. destruct H1 as [H1 H1'].
  unfold clientAssertionClockSkewSeconds, clientAssertionMaxLifetimeSeconds in *.
  split_and!; try done; try congruence. exists exp. split_and!; [done|lia|lia].
Qed.

Lemma valid_span t1 t2 exp : (min_int64 <= exp <= max_int64)%Z -> (0 <= t1)%Z -> (t1 <= t2)%Z -> (t2 <= max_int64 - 60)%Z ->
  (t1 <= wrap64 (exp + 60))%Z -> (wrap64 (exp - t1) <= 360)%Z -> (t2 <= wrap64 (exp + 60))%Z -> (t2 - t1 <= 420)%Z.
Proof.
  unfold wrap64, max_int64, min_int64. intros H0 H1 H2 H3 H4 H5 H6. Z.to_euclidean_division_equations. lia.
Qed.

Lemma sorted_pieces x a y b z : StronglySorted Z.le (x :: a ++ y :: b ++ [z]) ->
  StronglySorted Z.le (x :: a ++ [y]) /\ StronglySorted Z.le (y :: b ++ [z]).
Proof.
  intros H. apply StronglySorted_inv in H as [H Hx]. split.
  - constructor; [|rewrite !Forall_app, !Forall_cons in *; naive_solver].
    clear Hx. induction a as [|t a IH]; simpl; [by repeat constructor|]. simpl in H. apply StronglySorted_inv in H as [H Ht].
    constructor; [by apply IH|]. rewrite !Forall_app, !Forall_cons in *. naive_solver.
  - clear Hx. induction a as [|t a IH]; [done|]. simpl in H. apply StronglySorted_inv in H as [H _]. by apply IH.
Qed.

(** The claims of a client assertion are accepted at most twice: its record
    lasts six minutes and it is valid for seven at most.  That it can be twice
    is [client_assertion_replayed] below. *)
Theorem client_assertion_twice c1 l1 c2 l2 c3 s :
  payload_of lib (as_assertion c1) = payload_of lib (as_assertion c2) ->
  payload_of lib (as_assertion c1) = payload_of lib (as_assertion c3) ->
  StronglySorted Z.le (map as_now (c1 :: l1 ++ c2 :: l2 ++ [c3])) ->
  (0 <= Unix (as_now c1))%Z -> (Unix (as_now c3) <= max_int64 - 60)%Z ->
  let s1 := (run_assertion c1 s).1.2 in
  let s2 := (run_assertion c2 (assertions_after l1 s1)).1.2 in
  assertion_accepted c1 s -> assertion_accepted c2 (assertions_after l1 s1) -> ~ assertion_accepted c3 (assertions_after l2 s2).
Proof.
  intros Hp2 Hp3 Hsort H1 H3 s1 s2 Ha1 Ha2 Ha3.
  apply run_assertion_attempt in Ha1 as Hf1. apply run_assertion_attempt in Ha2 as Hf2. apply run_assertion_attempt in Ha3 as Hf3.
  assert (Hid : forall c s, (attempt_run (assertion_attempt c) s).1 = true ->
    exists payload, assertion_valid c payload /\ ra_jti (assertion_attempt c) = Some (string_member payload "jti")).
  { intros c s0. unfold attempt_run, assertion_attempt. simpl. destruct (assertion_checks _ _ _ _ _ _) as [jti|e] eqn:Hc; [|done].
    intros _. apply assertion_checks_Ok in Hc as (payload & Hv & -> & _). by exists payload. }
  destruct (Hid _ _ Hf1) as (p1 & Hv1 & Hj1), (Hid _ _ Hf2) as (p2 & Hv2 & Hj2), (Hid _ _ Hf3) as (p3 & Hv3 & Hj3).
  assert (p2 = p1 /\ p3 = p1) as [-> ->] by (destruct Hv1, Hv2, Hv3; split; congruence).
  destruct Hv1 as (_ & _ & _ & _ & _ & exp & He1 & Hb1 & Hc1), Hv3 as (_ & _ & _ & _ & _ & exp' & He3 & Hb3 & _).
  assert (exp' = exp) as -> by congruence.
  subst s1 s2. rewrite (proj1 (run_assertion_attempt c2 _)), assertions_after_attempts in Hf3.
  rewrite (proj1 (run_assertion_attempt c1 s)), assertions_after_attempts in Hf2, Hf3.
  simpl in Hsort. rewrite map_app in Hsort. simpl in Hsort. rewrite map_app in Hsort. apply sorted_pieces in Hsort as [Hs12 Hs2].
  assert (Hg1 : (as_now c1 + wrap64 (360 * Second) <= as_now c2)%Z).
  { refine (attempts_gap (assertion_attempt c1) (map assertion_attempt l1) (assertion_attempt c2) _ s Hj1 Hj2 _ Hf1 Hf2).
    simpl. by rewrite map_app, map_map. }
  assert (Hg2 : (as_now c2 + wrap64 (360 * Second) <= as_now c3)%Z).
  { refine (attempts_gap (assertion_attempt c2) (map assertion_attempt l2) (assertion_attempt c3) _ _ Hj2 Hj3 _ Hf2 Hf3).
    simpl. by rewrite map_app, map_map. }
  rewrite wrap64_id in Hg1, Hg2 by (vm_compute; split; discriminate).
  assert (Hle : (as_now c1 <= as_now c3)%Z) by (unfold Second in *; lia).
  pose proof (Unix_gap _ _ _ (valid_span _ _ _ (int64_of_range lib exp) H1 (Unix_le _ _ Hle) H3 Hb1 Hc1 Hb3)).
  unfold Second in *. lia.
Qed.
End assertions.

(** ** Examples *)

Definition demo_jwk : json_object := [("kty", JString "RSA"); ("n", JString "AQAB"); ("e", JString "AQAB")].

(** A decoder for three texts, and signatures that are always good. *)
Definition demo_unmarshal (raw : string) : option (option json_object) :=
  if raw =? "proof header" then
    Some (Some [("typ", JString "dpop+jwt"); ("alg", JString "PS256"); ("jwk", JObject demo_jwk)])
  else if raw =? "proof" then
    Some (Some [("htm", JString "POST"); ("htu", JString "https://mcp/rpc"); ("ath", JString (AccessTokenHash "token"));
                ("iat", JNumber (float64_of_int 1000)); ("jti", JString "j1")])
  else if raw =? "header" then Some (Some [("alg", JString "PS256")])
  else if raw =? "assertion" then
    Some (Some [("iss", JString "app"); ("sub", JString "app"); ("aud", JArray [JString "https://idp/token"]);
                ("exp", JNumber (float64_of_int 1360)); ("jti", JString "j1")])
  else None.

Definition demo_library : Library :=
  {| Unmarshal := demo_unmarshal; Marshal _ := "{}"; convert _ := min_int64; ParseUncompressedPublicKey _ := true;
     VerifyPSS _ _ _ _ := true; VerifyPKCS1v15 _ _ _ _ := true; ecdsa_Verify _ _ _ _ := true |}.

Definition demo_at (sec : Z) : Time := ((sec + unixToInternal) * Second)%Z.
Definition demo_jwt (header payload : string) : string := EncodeToString header ++ "." ++ EncodeToString payload ++ ".".

Definition demo_proof (sec : Z) : dpop_call :=
  {| dc_proof := demo_jwt "proof header" "proof"; dc_htm := "POST"; dc_htu := "https://mcp/rpc"; dc_token := Some "token";
     dc_now := demo_at sec |}.

Lemma demo_proof_accepted : dpop_accepted demo_library (E := string) (demo_proof 1000) ∅.
Proof. eexists. vm_compute. reflexivity. Qed.

Lemma dpop_proof_once_witness :
  dpop_accepted demo_library (E := string) (demo_proof 1000) ∅ /\
  ~ dpop_accepted demo_library (E := string) (demo_proof 1030)
      (dpop_after demo_library (E := string) [] (run_dpop demo_library (E := string) (demo_proof 1000) ∅).1.2).
Proof.
  split; [exact demo_proof_accepted|].
  apply (dpop_proof_once demo_library (demo_proof 1000) [] (demo_proof 1030) ∅ eq_refl).
  - repeat constructor. vm_compute. discriminate.
  - vm_compute. discriminate.
  - vm_compute. discriminate.
  - exact demo_proof_accepted.
Defined.

Definition demo_assertion (sec : Z) : assertion_call (E := string) :=
  {| as_assertion := demo_jwt "header" "assertion"; as_client := "app"; as_audiences := ["https://idp/token"];
     as_keys _ := Ok [demo_jwk]; as_now := demo_at sec |}.

Definition demo_once : replayStore := (run_assertion demo_library (demo_assertion 1000) ∅).1.2.
Definition demo_twice : replayStore := (run_assertion demo_library (demo_assertion 1360) demo_once).1.2.

Lemma demo_assertion_first : assertion_accepted demo_library (demo_assertion 1000) ∅.
Proof. eexists. vm_compute. reflexivity. Qed.

Lemma demo_assertion_second : assertion_accepted demo_library (demo_assertion 1360) demo_once.
Proof. eexists. vm_compute. reflexivity. Qed.

(** A bug, as a lemma.  The record of a client assertion lasts the longest
    lifetime and the skew of the clock, six minutes, from its first use.  The same
    assertion is valid from six minutes before its [exp] until one minute after
    it: an assertion used at the first moment is accepted again at its [exp]. *)
Lemma client_assertion_replayed :
  assertion_accepted demo_library (demo_assertion 1000) ∅ /\ assertion_accepted demo_library (demo_assertion 1360) demo_once.
Proof. split; [exact demo_assertion_first|exact demo_assertion_second]. Qed.

Lemma client_assertion_twice_witness :
  assertion_accepted demo_library (demo_assertion 1000) ∅ /\ assertion_accepted demo_library (demo_assertion 1360) demo_once /\
  ~ assertion_accepted demo_library (demo_assertion 1400) demo_twice.
Proof.
  split; [exact demo_assertion_first|]. split; [exact demo_assertion_second|].
  apply (client_assertion_twice demo_library (demo_assertion 1000) [] (demo_assertion 1360) [] (demo_assertion 1400) ∅ eq_refl eq_refl).
  - repeat constructor; vm_compute; discriminate.
  - vm_compute. discriminate.
  - vm_compute. discriminate.
  - exact demo_assertion_first.
  - exact demo_assertion_second.
Defined.
