(* ===== verification/Quote.v ===== *)
(** * Quoted strings: [strconv.Quote] and the verb [%q]

    The keys of counters and digests are built with [%q], so that identifiers
    that hold the separator cannot collide.  [Quote] is the function;
    [Quote_app_inj] is what the callers rely on: a quoted string can be read off
    the front of a text in one way only. *)

From Stdlib Require Import Ascii String ZArith NArith Lia.
From stdpp Require Import base strings list.
From S2P Require Import Prelude GoStrings.

Local Open Scope string_scope.

Definition hex_byte (n : N) : N := (if n <? 10 then 48 + n else 87 + n)%N.
Definition hex_bytes (digits : nat) (n : N) : list N :=
  map (fun i => hex_byte (n / 16 ^ N.of_nat i mod 16)%N) (rev (seq 0 digits)).

(** The escapes of one letter. *)
Definition letter_escapes : list (N * N) := [(7, 97); (8, 98); (12, 102); (10, 110); (13, 114); (9, 116); (11, 118)]%N.
Definition letter_escape (r : N) : option N := snd <$> List.find (fun e => N.eqb e.1 r) letter_escapes.
Definition letter_value (c : N) : option N := fst <$> List.find (fun e => N.eqb e.2 c) letter_escapes.

Section quote.
(** [unicode.IsPrint] above Latin-1, which is a table. *)
Context (printable : N -> bool).

Definition IsPrint (r : N) : bool :=
  if (r <=? 255)%N then in_range 32 126 r || (in_range 161 255 r && negb (N.eqb r 173)) else printable r.

(** A rune with the bytes it was read from. *)
Definition quote_rune (e : N * list N) : list N :=
  let '(r, bs) := e in
  match bs with
  | [b] => if N.eqb r rune_error then ([92; 120] ++ hex_bytes 2 b)%N%list
           else if N.eqb r 34 || N.eqb r 92 then [92; r]%N
           else if IsPrint r then bs
           else match letter_escape r with
                | Some c => [92; c]%N
                | None => ([92; 120] ++ hex_bytes 2 r)%N%list
                end
  | _ => if IsPrint r then bs
         else if (r <? 65536)%N then ([92; 117] ++ hex_bytes 4 r)%N%list
         else ([92; 85] ++ hex_bytes 8 r)%N%list
  end.

Definition quote_bytes (l : list N) : list N := (34 :: flat_map quote_rune (decode_runes l) ++ [34])%N%list.

Definition Quote (s : string) : string := string_of_bytes (quote_bytes (bytes_of s)).

(** ** Reading a quoted string *)

Definition hex_value (b : N) : N := (if b <? 58 then b - 48 else b - 87)%N.
Definition hex_number (l : list N) : N := fold_left (fun n b => n * 16 + hex_value b)%N l 0%N.

(** [utf8.AppendRune] of a valid rune. *)
Definition utf8_encode (r : N) : list N :=
  (if r <? 128 then [r]
   else if r <? 2048 then [192 + r / 64; 128 + r mod 64]
   else if r <? 65536 then [224 + r / 4096; 128 + r / 64 mod 64; 128 + r mod 64]
   else [240 + r / 262144; 128 + r / 4096 mod 64; 128 + r / 64 mod 64; 128 + r mod 64])%N.

Definition prepend (bs : list N) (o : option (list N * list N)) : option (list N * list N) :=
  (fun p => ((bs ++ p.1)%list, p.2)) <$> o.

(** The bytes up to the closing quotation mark and what follows it. *)
Fixpoint unquote (l : list N) : option (list N * list N) :=
  match l with
  | [] => None
  | c :: l' =>
      if N.eqb c 34 then Some ([], l')
      else if N.eqb c 92 then
        match l' with
        | [] => None
        | k :: t =>
            if N.eqb k 120 then match t with a :: b :: t' => prepend [hex_number [a; b]] (unquote t') | _ => None end
            else if N.eqb k 117 then
              match t with a :: b :: c1 :: d :: t' => prepend (utf8_encode (hex_number [a; b; c1; d])) (unquote t') | _ => None end
            else if N.eqb k 85 then
              match t with
              | a :: b :: c1 :: d :: e :: f :: g :: h :: t' => prepend (utf8_encode (hex_number [a; b; c1; d; e; f; g; h])) (unquote t')
              | _ => None
              end
            else prepend [default k (letter_value k)] (unquote t)
        end
      else prepend [c] (unquote l')
  end.

(** ** Quoting can be undone *)

Lemma hex_value_byte n : (n < 16)%N -> hex_value (hex_byte n) = n.
Proof.
  unfold hex_value, hex_byte. intros H. destruct (N.ltb_spec n 10).
  - destruct (N.ltb_spec (48 + n) 58); lia.
  - destruct (N.ltb_spec (87 + n) 58); lia.
Qed.

Lemma hex_bytes_succ d n : hex_bytes (S d) n = (hex_bytes d (n / 16) ++ [hex_byte (n mod 16)])%N%list.
Proof.
  unfold hex_bytes. simpl seq. simpl rev. rewrite map_app. f_equal.
  - rewrite <- seq_shift, <- map_rev, map_map. apply map_ext. intros i.
    rewrite Nat2N.inj_succ, N.pow_succ_r', N.Div0.div_div. done.
  - simpl. by rewrite N.div_1_r.
Qed.

Lemma hex_number_bytes d : forall n, (n < 16 ^ N.of_nat d)%N -> hex_number (hex_bytes d n) = n.
Proof.
  induction d as [|d IH]; intros n Hn; [simpl in Hn; unfold hex_number; simpl; lia|].
  rewrite hex_bytes_succ. unfold hex_number. rewrite fold_left_app. fold (hex_number (hex_bytes d (n / 16))).
  rewrite Nat2N.inj_succ, N.pow_succ_r' in Hn. rewrite IH by (apply N.Div0.div_lt_upper_bound; lia).
  simpl. rewrite hex_value_byte by (apply N.mod_lt; lia). pose proof (N.div_mod n 16). lia.
Qed.

(** What [decode_runes] yields: an ASCII byte, a byte that starts no rune, or
    the encoding of a rune. *)
Definition chunk_ok (e : N * list N) : Prop :=
  let '(r, bs) := e in
  (r < 128 /\ bs = [r])%N \/ (r = rune_error /\ exists b, (b < 256)%N /\ bs = [b]) \/
  (r < 4294967296 /\ utf8_encode r = bs /\ (1 < length bs)%nat /\ Forall (fun b => 128 <= b) bs)%N.

Lemma encode2 b0 b1 : (194 <= b0 <= 223)%N -> (128 <= b1 <= 191)%N ->
  utf8_encode (b0 mod 32 * 64 + b1 mod 64) = [b0; b1] /\ (b0 mod 32 * 64 + b1 mod 64 < 4294967296)%N.
Proof.
  intros H0 H1. assert (Hr : (128 <= b0 mod 32 * 64 + b1 mod 64 < 2048)%N) by N_bytes. split; [|lia]. unfold utf8_encode.
  destruct (N.ltb_spec (b0 mod 32 * 64 + b1 mod 64) 128); [lia|]. destruct (N.ltb_spec (b0 mod 32 * 64 + b1 mod 64) 2048); [|lia].
  repeat f_equal; N_bytes.
Qed.

Lemma encode3 b0 b1 b2 : (224 <= b0 <= 239)%N -> (128 <= b1 <= 191)%N -> (b0 = 224 -> 160 <= b1)%N -> (128 <= b2 <= 191)%N ->
  utf8_encode (b0 mod 16 * 4096 + b1 mod 64 * 64 + b2 mod 64) = [b0; b1; b2] /\
  (b0 mod 16 * 4096 + b1 mod 64 * 64 + b2 mod 64 < 4294967296)%N.
Proof.
  intros H0 H1 Hlo H2.
  assert (exists x y z, b0 = 224 + x /\ b1 = 128 + y /\ b2 = 128 + z /\ x < 16 /\ y < 64 /\ z < 64)%N as (x & y & z & -> & -> & -> & Hx & Hy & Hz)
    by (exists (b0 - 224)%N, (b1 - 128)%N, (b2 - 128)%N; lia).
  replace ((224 + x) mod 16)%N with x by N_bytes. replace ((128 + y) mod 64)%N with y by N_bytes.
  replace ((128 + z) mod 64)%N with z by N_bytes.
  assert (Hr : (2048 <= x * 4096 + y * 64 + z < 65536)%N) by lia. split; [|lia]. unfold utf8_encode.
  do 3 (match goal with |- context [N.ltb ?a ?b] => destruct (N.ltb_spec a b) end; try lia).
  repeat f_equal; N_bytes.
Qed.

Lemma encode4 b0 b1 b2 b3 : (240 <= b0 <= 244)%N -> (128 <= b1 <= 191)%N -> (b0 = 240 -> 144 <= b1)%N -> (128 <= b2 <= 191)%N ->
  (128 <= b3 <= 191)%N ->
  utf8_encode (b0 mod 8 * 262144 + b1 mod 64 * 4096 + b2 mod 64 * 64 + b3 mod 64) = [b0; b1; b2; b3] /\
  (b0 mod 8 * 262144 + b1 mod 64 * 4096 + b2 mod 64 * 64 + b3 mod 64 < 4294967296)%N.
Proof.
  intros H0 H1 Hlo H2 H3.
  assert (exists x y z t, b0 = 240 + x /\ b1 = 128 + y /\ b2 = 128 + z /\ b3 = 128 + t /\ x < 5 /\ y < 64 /\ z < 64 /\ t < 64)%N
    as (x & y & z & t & -> & -> & -> & -> & Hx & Hy & Hz & Ht)
    by (exists (b0 - 240)%N, (b1 - 128)%N, (b2 - 128)%N, (b3 - 128)%N; lia).
  replace ((240 + x) mod 8)%N with x by N_bytes. replace ((128 + y) mod 64)%N with y by N_bytes.
  replace ((128 + z) mod 64)%N with z by N_bytes. replace ((128 + t) mod 64)%N with t by N_bytes.
  assert (Hr : (65536 <= x * 262144 + y * 4096 + z * 64 + t < 4294967296)%N) by lia. split; [|lia]. unfold utf8_encode.
  do 3 (match goal with |- context [N.ltb ?a ?b] => destruct (N.ltb_spec a b) end; try lia).
  repeat f_equal; N_bytes.
Qed.

Lemma in_range_true lo hi b : in_range lo hi b = true <-> (lo <= b <= hi)%N.
Proof. unfold in_range. rewrite andb_true_iff, !N.leb_le. lia. Qed.

Lemma decode_runes_ok n : forall l, (length l <= n)%nat -> Forall (fun b => (b < 256)%N) l ->
  Forall chunk_ok (decode_runes l) /\ concat (map snd (decode_runes l)) = l.
Proof.
  induction n as [|n IH]; intros [|b0 r0] Hle Hl; try (simpl in Hle; lia); try by split.
  apply Forall_cons in Hl as [H0 Hl]. simpl in Hle.
  assert (Hput : forall r bs rest, chunk_ok (r, bs) -> (length rest <= n)%nat -> Forall (fun b => (b < 256)%N) rest ->
    Forall chunk_ok ((r, bs) :: decode_runes rest) /\ concat (map snd ((r, bs) :: decode_runes rest)) = (bs ++ rest)%list).
  { intros r bs rest Hok Hlen Hrest. destruct (IH rest Hlen Hrest) as [Hc Hcat]. split; [by constructor|]. simpl. by rewrite Hcat. }
  assert (Hinv : Forall chunk_ok ((rune_error, [b0]) :: decode_runes r0) /\
    concat (map snd ((rune_error, [b0]) :: decode_runes r0)) = b0 :: r0).
  { apply (Hput _ [b0]); [|lia|done]. right; left. split; [done|]. by exists b0. }
  cbn [decode_runes]. destruct (N.ltb_spec b0 128); [apply (Hput _ [b0]); [by left|lia|done]|].
  destruct (in_range 194 223 b0) eqn:H2; [|destruct (in_range 224 239 b0) eqn:H3; [|destruct (in_range 240 244 b0) eqn:H4; [|exact Hinv]]].
  - apply in_range_true in H2. destruct r0 as [|b1 r1]; [exact Hinv|].
    destruct (in_range 128 191 b1) eqn:Hb1; [|exact Hinv]. apply in_range_true in Hb1.
    apply Forall_cons in Hl as [_ Hl]. simpl in Hle. destruct (encode2 b0 b1 H2 Hb1) as [He Hr].
    apply (Hput _ [b0; b1]); [|lia|done]. right; right. split_and!; [done..|simpl; lia|repeat constructor; lia].
  - apply in_range_true in H3. destruct r0 as [|b1 [|b2 r2]]; [exact Hinv..|].
    destruct (_ && _)%bool eqn:Hb; [|exact Hinv]. rewrite andb_true_iff, !in_range_true in Hb. destruct Hb as [Hb1 Hb2].
    apply Forall_cons in Hl as [_ Hl]. apply Forall_cons in Hl as [_ Hl]. simpl in Hle.
    assert (Hb1' : (128 <= b1 <= 191)%N) by (destruct (N.eqb_spec b0 224), (N.eqb_spec b0 237); lia).
    destruct (encode3 b0 b1 b2 H3 Hb1') as [He Hr]; [intros ->; simpl in Hb1; lia|done|].
    apply (Hput _ [b0; b1; b2]); [|lia|done]. right; right. split_and!; [done..|simpl; lia|repeat constructor; lia].
  - apply in_range_true in H4. destruct r0 as [|b1 [|b2 [|b3 r3]]]; [exact Hinv..|].
    destruct (_ && _)%bool eqn:Hb; [|exact Hinv]. rewrite !andb_true_iff, !in_range_true in Hb. destruct Hb as [[Hb1 Hb2] Hb3].
    apply Forall_cons in Hl as [_ Hl]. apply Forall_cons in Hl as [_ Hl]. apply Forall_cons in Hl as [_ Hl]. simpl in Hle.
    assert (Hb1' : (128 <= b1 <= 191)%N) by (destruct (N.eqb_spec b0 240), (N.eqb_spec b0 244); lia).
    destruct (encode4 b0 b1 b2 b3 H4 Hb1') as [He Hr]; [intros ->; simpl in Hb1; lia|done..|].
    apply (Hput _ [b0; b1; b2; b3]); [|lia|done]. right; right. split_and!; [done..|simpl; lia|repeat constructor; lia].
Qed.

Lemma unquote_plain bs t : Forall (fun b => b <> 34 /\ b <> 92)%N bs -> unquote (bs ++ t) = prepend bs (unquote t).
Proof.
  induction 1 as [|b bs [H1 H2] _ IH].
  - simpl. unfold prepend. destruct (unquote t) as [[c r]|]; done.
  - simpl. apply N.eqb_neq in H1 as ->, H2 as ->. rewrite IH. unfold prepend. by destruct (unquote t) as [[c r]|].
Qed.

Lemma letter_escape_value r c : letter_escape r = Some c -> letter_value c = Some r /\ c <> 120%N /\ c <> 117%N /\ c <> 85%N.
Proof.
  unfold letter_escape, letter_value. cbn -[N.eqb].
  repeat match goal with |- context [N.eqb ?a r] => destruct (N.eqb_spec a r) as [<-|?]; [cbn; intros [= <-]; vm_compute; done|] end. done.
Qed.

(** Every chunk is read back, whatever follows it. *)
Lemma unquote_chunk e t : chunk_ok e -> unquote (quote_rune e ++ t) = prepend e.2 (unquote t).
Proof.
  assert (Hx : forall b u, (b < 256)%N -> unquote (([92; 120] ++ hex_bytes 2 b) ++ u)%N%list = prepend [b] (unquote u)).
  { intros b u Hb. pose proof (hex_number_bytes 2 b Hb) as He. unfold hex_bytes in *. simpl in He |- *. by rewrite He. }
  destruct e as [r bs]. simpl. intros [[Hr ->]|[(-> & b & Hb & ->)|(Hr & Henc & Hlen & Hall)]].
  - replace (r =? rune_error)%N with false by (symmetry; apply N.eqb_neq; unfold rune_error; lia).
    destruct (N.eqb_spec r 34) as [->|H34]; [done|]. destruct (N.eqb_spec r 92) as [->|H92]; [done|]. simpl orb.
    destruct (IsPrint r) eqn:Hp; [apply (unquote_plain [r]); by repeat constructor|].
    destruct (letter_escape r) as [c|] eqn:Hc.
    + apply letter_escape_value in Hc as (Hv & H1 & H2 & H3). simpl. apply N.eqb_neq in H1 as ->, H2 as ->, H3 as ->. by rewrite Hv.
    + apply Hx. lia.
  - rewrite N.eqb_refl. by apply Hx.
  - destruct bs as [|b1 [|b2 bs]]; [simpl in Hlen; lia..|].
    destruct (IsPrint r) eqn:Hp.
    { apply unquote_plain. eapply Forall_impl; [exact Hall|]. intros b Hb. simpl in Hb. lia. }
    destruct (N.ltb_spec r 65536) as [Hlt|Hge].
    + pose proof (hex_number_bytes 4 r Hlt) as He. unfold hex_bytes in *. simpl in He |- *. by rewrite He, Henc.
    + pose proof (hex_number_bytes 8 r Hr) as He. unfold hex_bytes in *. simpl in He |- *. by rewrite He, Henc.
Qed.

Lemma unquote_quote l t : Forall (fun b => (b < 256)%N) l -> unquote (flat_map quote_rune (decode_runes l) ++ 34%N :: t) = Some (l, t).
Proof.
  intros Hl. destruct (decode_runes_ok (length l) l (le_n _) Hl) as [Hok Hcat].
  enough (Hes : forall es, Forall chunk_ok es -> unquote (flat_map quote_rune es ++ 34%N :: t) = Some (concat (map snd es), t)).
  { rewrite Hes by done. by rewrite Hcat. }
  intros es. induction 1 as [|e es He _ IH]; [done|]. simpl. rewrite <- app_assoc, unquote_chunk by done.
  by rewrite IH.
Qed.

Lemma bytes_of_inj a b : bytes_of a = bytes_of b -> a = b.
Proof. intros H. rewrite <- (string_of_bytes_of_string a), <- (string_of_bytes_of_string b). by rewrite H. Qed.

Lemma hex_byte_lt n : (n < 16)%N -> (hex_byte n < 256)%N.
Proof. unfold hex_byte. destruct (n <? 10)%N; lia. Qed.

Lemma hex_bytes_lt d n : Forall (fun b => (b < 256)%N) (hex_bytes d n).
Proof.
  unfold hex_bytes. apply Forall_forall. intros b Hb. apply list_elem_of_In, in_map_iff in Hb as (i & <- & _).
  apply hex_byte_lt, N.mod_lt. lia.
Qed.

Lemma quote_rune_lt e : chunk_ok e -> Forall (fun b => (b < 256)%N) e.2 -> Forall (fun b => (b < 256)%N) (quote_rune e).
Proof.
  assert (Hx : forall k d n, (k < 256)%N -> Forall (fun b => (b < 256)%N) ([92; k] ++ hex_bytes d n)%N%list).
  { intros k d n Hk. constructor; [lia|]. constructor; [exact Hk|]. apply hex_bytes_lt. }
  destruct e as [r bs]. simpl. intros Hok Hbs. destruct bs as [|b [|b2 bs]].
  - destruct (IsPrint r), (r <? 65536)%N; [done..|by apply Hx|by apply Hx].
  - destruct (r =? rune_error)%N; [by apply Hx|]. destruct (_ || _)%bool eqn:Hq.
    + apply orb_true_iff in Hq as [->%N.eqb_eq| ->%N.eqb_eq]; by repeat constructor.
    + destruct (IsPrint r); [done|]. destruct (letter_escape r) as [c|] eqn:Hc; [|by apply Hx].
      constructor; [lia|]. constructor; [|done]. revert Hc. unfold letter_escape. cbn -[N.eqb].
      repeat match goal with |- context [N.eqb ?a r] => destruct (N.eqb a r); [cbn; intros [= <-]; lia|] end. done.
  - destruct (IsPrint r); [done|]. destruct (r <? 65536)%N; by apply Hx.
Qed.

Lemma bytes_of_Quote s : bytes_of (Quote s) = quote_bytes (bytes_of s).
Proof.
  unfold Quote. apply bytes_of_string_of_bytes. unfold quote_bytes. constructor; [lia|]. apply Forall_app. split; [|by repeat constructor].
  destruct (decode_runes_ok _ (bytes_of s) (le_n _) (bytes_of_lt s)) as [Hok Hcat]. pose proof (bytes_of_lt s) as Hlt.
  rewrite <- Hcat in Hlt. clear Hcat. induction Hok as [|e es He Hes IH]; [constructor|]. simpl in *. apply Forall_app in Hlt as [H1 H2].
  apply Forall_app. split; [by apply quote_rune_lt|by apply IH].
Qed.

(** A quoted string is read off the front of a text in one way only. *)
Lemma Quote_app_inj a u b v : Quote a ++ u = Quote b ++ v -> a = b /\ u = v.
Proof.
  intros H. apply (f_equal bytes_of) in H. rewrite !bytes_of_app, !bytes_of_Quote in H. unfold quote_bytes in H. simpl in H.
  injection H as H. rewrite <- !app_assoc in H. simpl in H. apply (f_equal unquote) in H.
  rewrite !unquote_quote in H by apply bytes_of_lt. injection H as H1 H2. split; by apply bytes_of_inj.
Qed.
End quote.

Example quote_examples : Quote (fun _ => true) "a:b" = String "034" "a:b" ++ String "034" "" /\
  Quote (fun _ => false) (String "010" (String "092" "")) = String "034" "\n\\" ++ String "034" "".
Proof. vm_compute. done. Qed.
