(* ===== verification/Guardrail.v ===== *)
(** * OAuth2: the guardrails of agents

    [backend/oauth2/domain/agent_guardrail.go], the issuer that enforces them
    ([internal/usecases/agent_guardrail.go]) with the issuer of the requesting
    agent ([agent_issuance.go]), and the memory repository of the policies
    ([internal/db_memory/agent_guardrail_policies.go]).

    The guarded issuer keeps, besides the stores it calls, the evaluation that
    passed and the lifetime it allows; both are part of the state here.  The
    rate limiter is the port [RatePort]; its memory implementation is the one of
    [Resilience].  [json.Marshal] of the limits is a parameter of the version.

    The theorems: what a signed token was checked against and how long it
    lives; what a refusal reveals and records; that nothing is counted before
    every check without an effect has passed, and never twice; the bound on the
    tokens of one agent in a window; and the compare-and-set of the policies. *)

From Stdlib Require Import Ascii String ZArith Lia.
From Stdlib Require Import Floats.SpecFloat.
From stdpp Require Import base strings list gmap sorting.
From S2P Require Import Prelude Effects GoStrings Crypto Rules Policy TokenDomain ActorChain RichAuthorization.
From S2P Require Import RefreshStore RefreshUsecase Approval Introspect Resilience.

Local Open Scope string_scope.
Local Open Scope go_scope.

(** ** Limits *)

Definition AgentGuardrailViolationAction := string.
Definition AgentGuardrailDeny : AgentGuardrailViolationAction := "deny".
Definition AgentGuardrailRequireApproval : AgentGuardrailViolationAction := "require_approval".

Definition AgentGuardrailReasonResource : string := "allowed_resources".
Definition AgentGuardrailReasonDetailType : string := "allowed_authorization_detail_types".
Definition AgentGuardrailReasonIssuanceRate : string := "issuance_rate".
Definition AgentGuardrailReasonExpired : string := "expires_at".
Definition AgentGuardrailReasonDelegationDepth : string := "max_delegation_depth".
Definition AgentGuardrailReasonApproval : string := "require_approval".
Definition AgentGuardrailReasonUnavailable : string := "guardrail_unavailable".

Record AgentGuardrailIssuanceRate := { MaxIssuances : Z; ir_WindowSeconds : Z }.

Record AgentGuardrailOnViolation := {
  ov_AllowedResources : AgentGuardrailViolationAction;
  ov_AllowedAuthorizationDetailTypes : AgentGuardrailViolationAction;
  ov_IssuanceRate : AgentGuardrailViolationAction;
  ov_ExpiresAt : AgentGuardrailViolationAction;
}.

(** A nil slice is [None], an empty one [Some []]. *)
Record AgentGuardrailLimits := {
  gl_AllowedResources : option (list string);
  gl_AllowedAuthorizationDetailTypes : option (list string);
  gl_IssuanceRate : option AgentGuardrailIssuanceRate;
  gl_MaxTokenTTLSeconds : option Z;
  gl_ExpiresAt : option Time;
  gl_MaxDelegationDepth : option Z;
  gl_RequireApproval : bool;
  gl_OnViolation : AgentGuardrailOnViolation;
}.

Record AgentGuardrailPolicy := {
  gp_TenantID : string;
  gp_AgentID : string;
  gp_Limits : AgentGuardrailLimits;
  gp_UpdatedAt : Time;
}.

Definition agentGuardrailMaxItems : Z := 100.
Definition agentGuardrailMaxWindowSeconds : Z := 86400.
Definition agentGuardrailMaxIssuances : Z := 1000000.
Definition agentGuardrailMaxDepth : Z := 16.

Definition ErrInvalidAgentGuardrail : string := "invalid agent guardrail".

Definition slice_of (l : option (list string)) : list string := default [] l.

Definition rate_out_of_range (r : AgentGuardrailIssuanceRate) : bool :=
  (MaxIssuances r <? 1) || (agentGuardrailMaxIssuances <? MaxIssuances r) ||
  (ir_WindowSeconds r <? 1) || (agentGuardrailMaxWindowSeconds <? ir_WindowSeconds r).

Definition unknown_action (action : AgentGuardrailViolationAction) : bool :=
  (action <>? "") && (action <>? AgentGuardrailDeny) && (action <>? AgentGuardrailRequireApproval).

Definition Limits_Validate (l : AgentGuardrailLimits) : result string unit :=
  let resources := slice_of (gl_AllowedResources l) in
  let types := slice_of (gl_AllowedAuthorizationDetailTypes l) in
  let ov := gl_OnViolation l in
  reject (agentGuardrailMaxItems <? Z.of_nat (List.length resources)) || (agentGuardrailMaxItems <? Z.of_nat (List.length types)) with
    ErrInvalidAgentGuardrail in
  reject contains resources "" || contains types "" with ErrInvalidAgentGuardrail in
  reject match gl_IssuanceRate l with Some r => rate_out_of_range r | None => false end with ErrInvalidAgentGuardrail in
  reject match gl_MaxTokenTTLSeconds l with Some t => (t <? 1) || (agentGuardrailMaxWindowSeconds <? t) | None => false end with
    ErrInvalidAgentGuardrail in
  reject match gl_MaxDelegationDepth l with Some d => (d <? 0) || (agentGuardrailMaxDepth <? d) | None => false end with
    ErrInvalidAgentGuardrail in
  reject existsb unknown_action
    [ov_AllowedResources ov; ov_AllowedAuthorizationDetailTypes ov; ov_IssuanceRate ov; ov_ExpiresAt ov] with
    ErrInvalidAgentGuardrail in
  Ok tt.

(** ** Evaluation of one layer *)

Record AgentGuardrailRequest := { gr_Resources : list string; gr_DetailTypes : list string; gr_DelegationDepth : Z }.
Record AgentGuardrailFinding := { gf_Reason : string; gf_Action : AgentGuardrailViolationAction }.

Definition effectiveAction (action : AgentGuardrailViolationAction) : AgentGuardrailViolationAction :=
  if action =? "" then AgentGuardrailDeny else action.

Definition allContained (values allowed : list string) (requireAny : bool) : bool :=
  if requireAny && (values =? []) then false else forallb (contains allowed) values.

Definition Limits_Evaluate (l : AgentGuardrailLimits) (req : AgentGuardrailRequest) (now : Time) : list AgentGuardrailFinding :=
  let ov := gl_OnViolation l in
  (match gl_AllowedResources l with
   | Some allowed =>
       if negb (allContained (gr_Resources req) allowed true)
       then [{| gf_Reason := AgentGuardrailReasonResource; gf_Action := effectiveAction (ov_AllowedResources ov) |}] else []
   | None => []
   end ++
   match gl_AllowedAuthorizationDetailTypes l with
   | Some allowed =>
       if negb (allContained (gr_DetailTypes req) allowed false)
       then [{| gf_Reason := AgentGuardrailReasonDetailType;
                gf_Action := effectiveAction (ov_AllowedAuthorizationDetailTypes ov) |}] else []
   | None => []
   end ++
   match gl_ExpiresAt l with
   | Some t =>
       if negb (Before now t)
       then [{| gf_Reason := AgentGuardrailReasonExpired; gf_Action := effectiveAction (ov_ExpiresAt ov) |}] else []
   | None => []
   end ++
   match gl_MaxDelegationDepth l with
   | Some depth =>
       if depth <? gr_DelegationDepth req
       then [{| gf_Reason := AgentGuardrailReasonDelegationDepth; gf_Action := AgentGuardrailDeny |}] else []
   | None => []
   end ++
   (if gl_RequireApproval l
    then [{| gf_Reason := AgentGuardrailReasonApproval; gf_Action := AgentGuardrailRequireApproval |}] else []))%list.

Definition TokenLifetimeSeconds (l : AgentGuardrailLimits) (defaultSeconds : Z) (now : Time) : Z :=
  let lifetime := match gl_MaxTokenTTLSeconds l with Some t => Z.min defaultSeconds t | None => defaultSeconds end in
  match gl_ExpiresAt l with
  | Some t => if Before now t then Z.min lifetime (Z.max 1 (trunc_int (SecondsOf (Sub t now)))) else lifetime
  | None => lifetime
  end.

Example trunc_examples : trunc_int (SecondsOf 1999999999%Z) = 1%Z /\ trunc_int (SecondsOf (3600 * Second)%Z) = 3600%Z.
Proof. vm_compute. done. Qed.

(** ** The memory repository *)

Section repository.
(** [json.Marshal]. *)
Context (marshal : AgentGuardrailLimits -> string).

Definition Limits_Version (l : AgentGuardrailLimits) : string :=
  hex_EncodeToString (take 16 (Sum256 (bytes_of (marshal l)))).

Definition AgentGuardrailPolicyRepository := gmap string AgentGuardrailPolicy.

Definition guardrailKey (tenantID agentID : string) : string := tenantID ++ String "000" agentID.

Definition ListEffective (tenantID : string) (agentIDs : list string) (r : AgentGuardrailPolicyRepository) : list AgentGuardrailPolicy :=
  omap (fun scope => r !! guardrailKey tenantID scope) ("" :: merge_sort String.le agentIDs).

Definition guardrail_Find (tenantID agentID : string) (r : AgentGuardrailPolicyRepository) : option AgentGuardrailPolicy :=
  r !! guardrailKey tenantID agentID.

Definition ErrAgentGuardrailConflict : string := "agent guardrail version conflict".

Definition guardrail_Save (policy : AgentGuardrailPolicy) (expectedVersion : string) (r : AgentGuardrailPolicyRepository) :
    result string unit * AgentGuardrailPolicyRepository :=
  let key := guardrailKey (gp_TenantID policy) (gp_AgentID policy) in
  let current := match r !! key with Some existing => Limits_Version (gp_Limits existing) | None => "" end in
  if current <>? expectedVersion then (Err ErrAgentGuardrailConflict, r) else (Ok tt, <[key := policy]> r).

Definition guardrail_Delete (tenantID agentID : string) (r : AgentGuardrailPolicyRepository) : AgentGuardrailPolicyRepository :=
  delete (guardrailKey tenantID agentID) r.
End repository.

(** ** The guarded issuer *)

Definition agentGuardrailRatePolicyID : string := "agent_guardrail_issuance".
Definition agentGuardrailAllowed : string := "allowed".
Definition agentGuardrailApproved : string := "approved".
Definition agentGuardrailApprovalRequired : string := "approval_required".
Definition agentGuardrailDenied : string := "denied".

Class RatePort (S E : Type) := {
  allow_within : string -> string -> RateLimitPolicyConfig -> Time -> S -> result E RateLimitResult * S;
}.

#[export] Instance memory_rate_port {E} : RatePort RateLimiter E := {
  allow_within p k config now l := let '(r, l') := AllowWithin p k config now l in (Ok r, l');
}.

Record agentGuardrailResult := {
  res_agentID : string;
  res_outcome : string;
  res_reasons : list string;
  res_versions : list string;
}.

Record AgentGuardrailEvaluated := {
  ge_At : Time;
  ge_TenantID : string;
  ge_AgentID : string;
  ge_ClientID : string;
  ge_GrantType : string;
  ge_Outcome : string;
  ge_Reasons : list string;
  ge_PolicyVersions : list string;
  ge_RequestID : string;
  ge_TokenID : string;
}.

Record agentGuardrailEvaluation := {
  ev_agentID : string;
  ev_layers : list AgentGuardrailPolicy;
  ev_denied : list string;
  ev_requiresApproval : list string;
  ev_waived : bool;
}.

(** The fields of [guardedIssuer] that change, and the stores that it calls. *)
Record guard_state (S : Type) := {
  gs_store : S;
  gs_tenantID : string;
  gs_checked : option (list agentGuardrailResult);
  gs_lifetimeSeconds : Z;
  gs_limited : Z;
}.
Arguments gs_store {S} g.
Arguments gs_tenantID {S} g.
Arguments gs_checked {S} g.
Arguments gs_lifetimeSeconds {S} g.
Arguments gs_limited {S} g.

(** [&guardedIssuer{TokenIssuer: issuer, deps: deps}]. *)
Definition new_guard {S} (s : S) : guard_state S :=
  {| gs_store := s; gs_tenantID := ""; gs_checked := None; gs_lifetimeSeconds := 0; gs_limited := 0 |}.

Definition guardrailLayers (policies : list AgentGuardrailPolicy) (agentID : string) : list AgentGuardrailPolicy :=
  List.filter (fun p => (gp_AgentID p =? "") || (gp_AgentID p =? agentID)) policies.

Definition guardrailRateKey (layer : AgentGuardrailPolicy) (agentID : string) : string :=
  if gp_AgentID layer =? "" then "default:" ++ agentID else "agent:" ++ agentID.

Section issuer.
Context {S E C U : Type} `{RatePort S E} `{UserView U}.
Notation flow := (eff (guard_state S) AgentGuardrailEvaluated (failure E)).

Record AgentGuardrailDeps := {
  gd_ListEffective : string -> list string -> result E (list AgentGuardrailPolicy);
  gd_has_Limiter : bool;
  gd_AgentRepo : option (AgentRepository E);
  gd_UserRepo : option (string -> result E (option U));
  gd_ClientID : string;
  gd_GrantType : string;
  gd_RequestID : string;
  gd_RequestingAgentID : string;
  gd_Now : Time;
}.

(** The issuer that is guarded, and [layer.Version()]. *)
Context (d : AgentGuardrailDeps) (version : AgentGuardrailLimits -> string).
Context (inner_sign : AccessTokenInput C -> result (failure E) (string * string)) (inner_ttl : Z).

Definition record_result (r : agentGuardrailResult) (tokenID : string) : flow unit := fun g =>
  emit {| ge_At := gd_Now d; ge_TenantID := gs_tenantID g; ge_AgentID := res_agentID r; ge_ClientID := gd_ClientID d;
          ge_GrantType := gd_GrantType d; ge_Outcome := res_outcome r; ge_Reasons := res_reasons r;
          ge_PolicyVersions := res_versions r; ge_RequestID := gd_RequestID d; ge_TokenID := tokenID |} g.

Definition with_outcome (outcome : string) (r : agentGuardrailResult) : agentGuardrailResult :=
  {| res_agentID := res_agentID r; res_outcome := outcome; res_reasons := res_reasons r; res_versions := res_versions r |}.

(** The answer to a client says only which of the two it is. *)
Definition guardrail_error (outcome : string) : failure E :=
  if outcome =? agentGuardrailApprovalRequired then NewOAuthError "unauthorized_client" "human approval is required"
  else NewOAuthError "access_denied" "The token request was denied.".

Definition guard_reject {A} (r : agentGuardrailResult) (outcome : string) : flow A :=
  do! record_result (with_outcome outcome r) "" in eff_fail (guardrail_error outcome).

(** [evaluation.result]; its outcome is set by the callers. *)
Definition evaluation_result (e : agentGuardrailEvaluation) (reasons : list string) : agentGuardrailResult :=
  {| res_agentID := ev_agentID e; res_outcome := ""; res_reasons := reasons;
     res_versions := map (fun p => version (gp_Limits p)) (ev_layers e) |}.

Definition is_deny (f : AgentGuardrailFinding) : bool := gf_Action f =? AgentGuardrailDeny.

Definition layer_findings (layers : list AgentGuardrailPolicy) (req : AgentGuardrailRequest) : list AgentGuardrailFinding :=
  concat (map (fun p => Limits_Evaluate (gp_Limits p) req (gd_Now d)) layers).

Definition evaluateLayers (agentID : string) (layers : list AgentGuardrailPolicy) (req : AgentGuardrailRequest) :
    agentGuardrailEvaluation :=
  let findings := layer_findings layers req in
  {| ev_agentID := agentID; ev_layers := layers; ev_denied := map gf_Reason (List.filter is_deny findings);
     ev_requiresApproval := map gf_Reason (List.filter (fun f => negb (is_deny f)) findings); ev_waived := false |}.

Definition approvedByOwner (tenantID agentID sub : string) : result (failure E) bool :=
  match gd_AgentRepo d with
  | Some repo =>
      if sub =? "" then Ok false
      else
        let? agent := lift_port (agent_FindByID repo tenantID agentID) in
        match agent with
        | Some a => if agent_OwnerUserID a <>? sub then Ok false else AgentOwnerIsActive tenantID (gd_UserRepo d) (Some a)
        | None => Ok false
        end
  | None => Ok false
  end.

Definition set_waived (e : agentGuardrailEvaluation) : agentGuardrailEvaluation :=
  {| ev_agentID := ev_agentID e; ev_layers := ev_layers e; ev_denied := ev_denied e;
     ev_requiresApproval := ev_requiresApproval e; ev_waived := true |}.

Definition add_approval (reason : string) (e : agentGuardrailEvaluation) : agentGuardrailEvaluation :=
  {| ev_agentID := ev_agentID e; ev_layers := ev_layers e; ev_denied := ev_denied e;
     ev_requiresApproval := (ev_requiresApproval e ++ [reason])%list; ev_waived := ev_waived e |}.

(** It returns the evaluation, which the code changes in place. *)
Definition requireWaiver (tenantID : string) (e : agentGuardrailEvaluation) (in_ : AccessTokenInput C) : flow agentGuardrailEvaluation :=
  if (ev_requiresApproval e =? []) || ev_waived e then eff_ret e
  else if at_ApprovalRequestID _ in_ =? "" then
    guard_reject (evaluation_result e (ev_requiresApproval e)) agentGuardrailApprovalRequired
  else
    match approvedByOwner tenantID (ev_agentID e) (at_Sub in_) with
    | Err _ => guard_reject (evaluation_result e [AgentGuardrailReasonUnavailable]) agentGuardrailDenied
    | Ok false => guard_reject (evaluation_result e (ev_requiresApproval e)) agentGuardrailDenied
    | Ok true => eff_ret (set_waived e)
    end.

Definition with_store (s : S) (g : guard_state S) : guard_state S :=
  {| gs_store := s; gs_tenantID := gs_tenantID g; gs_checked := gs_checked g; gs_lifetimeSeconds := gs_lifetimeSeconds g;
     gs_limited := gs_limited g |}.

Definition rate_config (rate : AgentGuardrailIssuanceRate) : RateLimitPolicyConfig :=
  {| MaxRequests := MaxIssuances rate; WindowSeconds := ir_WindowSeconds rate |}.

(** A call of the limiter; [None] is its error. *)
Definition ask_limiter (key : string) (rate : AgentGuardrailIssuanceRate) : flow (option RateLimitResult) := fun g =>
  let '(r, s) := allow_within agentGuardrailRatePolicyID key (rate_config rate) (gd_Now d) (gs_store g) in
  (Ok (match r with Ok v => Some v | Err _ => None end), with_store s g, []).

Fixpoint consume_layers (tenantID : string) (in_ : AccessTokenInput C) (layers : list AgentGuardrailPolicy)
    (e : agentGuardrailEvaluation) : flow agentGuardrailEvaluation :=
  match layers with
  | [] => eff_ret e
  | layer :: layers =>
      match gl_IssuanceRate (gp_Limits layer) with
      | None => consume_layers tenantID in_ layers e
      | Some rate =>
          if negb (gd_has_Limiter d) then
            guard_reject (evaluation_result e [AgentGuardrailReasonUnavailable]) agentGuardrailDenied
          else
            let! allowed := ask_limiter (guardrailRateKey layer (ev_agentID e)) rate in
            match allowed with
            | None => guard_reject (evaluation_result e [AgentGuardrailReasonUnavailable]) agentGuardrailDenied
            | Some allowed =>
                if rl_Allowed allowed then consume_layers tenantID in_ layers e
                else if ov_IssuanceRate (gl_OnViolation (gp_Limits layer)) <>? AgentGuardrailRequireApproval then
                  guard_reject (evaluation_result e [AgentGuardrailReasonIssuanceRate]) agentGuardrailDenied
                else
                  let! e := requireWaiver tenantID (add_approval AgentGuardrailReasonIssuanceRate e) in_ in
                  consume_layers tenantID in_ layers e
            end
      end
  end.

Definition consumeRates (tenantID : string) (e : agentGuardrailEvaluation) (in_ : AccessTokenInput C) : flow agentGuardrailEvaluation :=
  consume_layers tenantID in_ (ev_layers e) e.

(** The loops of [Precheck]. *)
Fixpoint reject_denied (evaluations : list agentGuardrailEvaluation) : flow unit :=
  match evaluations with
  | [] => eff_ret tt
  | e :: evaluations =>
      if negb (ev_denied e =? []) then guard_reject (evaluation_result e (ev_denied e)) agentGuardrailDenied
      else reject_denied evaluations
  end.

Fixpoint require_waivers (tenantID : string) (in_ : AccessTokenInput C) (evaluations : list agentGuardrailEvaluation) :
    flow (list agentGuardrailEvaluation) :=
  match evaluations with
  | [] => eff_ret []
  | e :: evaluations =>
      let! e := requireWaiver tenantID e in_ in
      let! rest := require_waivers tenantID in_ evaluations in
      eff_ret (e :: rest)
  end.

(** The shortest lifetime so far, 0 when there is none. *)
Definition shorten (limited : Z) (layer : AgentGuardrailPolicy) : Z :=
  let lifetime := TokenLifetimeSeconds (gp_Limits layer) inner_ttl (gd_Now d) in
  if Z.eqb limited 0 || (lifetime <? limited) then lifetime else limited.

Fixpoint consume_all (tenantID : string) (in_ : AccessTokenInput C) (evaluations : list agentGuardrailEvaluation)
    (results : list agentGuardrailResult) (limited : Z) : flow (list agentGuardrailResult * Z) :=
  match evaluations with
  | [] => eff_ret (results, limited)
  | e :: evaluations =>
      let! e := consumeRates tenantID e in_ in
      let outcome := if ev_waived e then agentGuardrailApproved else agentGuardrailAllowed in
      let result := with_outcome outcome (evaluation_result e (ev_requiresApproval e)) in
      consume_all tenantID in_ evaluations (results ++ [result])%list (fold_left shorten (ev_layers e) limited)
  end.

Definition guard_agents (in_ : AccessTokenInput C) : list string :=
  MergeAgentChain [[gd_RequestingAgentID d; at_AgentID _ in_]; at_AgentChain _ in_].

Definition guard_request (in_ : AccessTokenInput C) : AgentGuardrailRequest :=
  {| gr_Resources := at_Audiences _ in_; gr_DetailTypes := map detail_Type (at_AuthorizationDetails _ in_);
     gr_DelegationDepth := guardrailActDepth (at_Act _ in_) |}.

Definition guard_evaluations (agents : list string) (policies : list AgentGuardrailPolicy) (req : AgentGuardrailRequest) :
    list agentGuardrailEvaluation :=
  omap (fun agentID =>
    match guardrailLayers policies agentID with
    | [] => None
    | layers => Some (evaluateLayers agentID layers req)
    end) agents.

Definition set_checked (checked : option (list agentGuardrailResult)) (limited : Z) : flow unit := fun g =>
  (Ok tt, {| gs_store := gs_store g; gs_tenantID := gs_tenantID g; gs_checked := checked;
             gs_lifetimeSeconds := gs_lifetimeSeconds g; gs_limited := limited |}, []).

Definition set_tenant (tenantID : string) : flow unit := fun g =>
  (Ok tt, {| gs_store := gs_store g; gs_tenantID := tenantID; gs_checked := gs_checked g;
             gs_lifetimeSeconds := gs_lifetimeSeconds g; gs_limited := gs_limited g |}, []).

Definition get_guard : flow (guard_state S) := fun g => (Ok g, g, []).

(** The evaluation, when none has passed yet. *)
Definition evaluate_issuance (tenantID : string) (in_ : AccessTokenInput C) : flow unit :=
  let agents := guard_agents in_ in
  match agents with
  | [] => let! g := get_guard in set_checked (Some []) (gs_limited g)
  | first :: _ =>
      match gd_ListEffective d tenantID agents with
      | Err _ =>
          guard_reject {| res_agentID := first; res_outcome := ""; res_reasons := [AgentGuardrailReasonUnavailable]; res_versions := [] |}
            agentGuardrailDenied
      | Ok policies =>
          let evaluations := guard_evaluations agents policies (guard_request in_) in
          do! reject_denied evaluations in
          let! evaluations := require_waivers tenantID in_ evaluations in
          let! (results, limited) := consume_all tenantID in_ evaluations [] 0%Z in
          set_checked (Some results) limited
      end
  end.

Definition Precheck (tenantID : string) (in_ : AccessTokenInput C) : flow unit :=
  do! set_tenant tenantID in
  let! g := get_guard in
  if is_some (gs_checked g) then eff_ret tt else evaluate_issuance tenantID in_.

Definition guarded_AccessTokenTTLSeconds (g : guard_state S) : Z :=
  if 0 <? gs_lifetimeSeconds g then gs_lifetimeSeconds g else inner_ttl.

Definition Confirm (tokenID : string) : flow unit :=
  let! g := get_guard in
  do! eff_for_each (fun r => record_result r tokenID) (default [] (gs_checked g)) in
  set_checked None (gs_limited g).

Definition with_expiry (expiresAt : Z) (in_ : AccessTokenInput C) : AccessTokenInput C :=
  {| at_Client := at_Client _ in_; at_Sub := at_Sub in_; at_Scopes := at_Scopes in_; at_SenderConstraint := at_SenderConstraint in_;
     at_AuthTime := at_AuthTime _ in_; at_AMR := at_AMR _ in_; at_ACR := at_ACR _ in_; at_AgentID := at_AgentID _ in_;
     at_AgentChain := at_AgentChain _ in_; at_ApprovalRequestID := at_ApprovalRequestID _ in_; at_Audiences := at_Audiences _ in_;
     at_AuthorizationDetails := at_AuthorizationDetails _ in_; at_ExpiresAt := expiresAt; at_Managed := at_Managed _ in_;
     at_Act := at_Act _ in_ |}.

(** The input with the lifetime that the layers allow. *)
Definition limit_lifetime (in_ : AccessTokenInput C) : flow (AccessTokenInput C) := fun g =>
  if (0 <? gs_limited g) && (gs_limited g <? inner_ttl) then
    let expiresAt := wrap64 (Unix (gd_Now d) + gs_limited g) in
    if Z.eqb (at_ExpiresAt _ in_) 0 || (expiresAt <? at_ExpiresAt _ in_) then
      (Ok (with_expiry expiresAt in_),
       {| gs_store := gs_store g; gs_tenantID := gs_tenantID g; gs_checked := gs_checked g;
          gs_lifetimeSeconds := gs_limited g; gs_limited := gs_limited g |}, [])
    else (Ok in_, g, [])
  else (Ok in_, g, []).

Definition SignAccessToken (tenantID : string) (in_ : AccessTokenInput C) : flow (string * string) :=
  do! Precheck tenantID in_ in
  let! in_ := limit_lifetime in_ in
  let! signed := lift (inner_sign in_) in
  do! Confirm signed.2 in
  eff_ret signed.

(** [IssuerWithAgentGuardrail]: without policies the issuer itself. *)
Definition guarded_sign (has_policies : bool) (tenantID : string) (in_ : AccessTokenInput C) : flow (string * string) :=
  if has_policies then SignAccessToken tenantID in_ else lift (inner_sign in_).
End issuer.

(** [IssuerForRequestingAgent], for a signer. *)
Definition IssuerForRequestingAgent {C R} (sign : AccessTokenInput C -> R) (agentID : string) (in_ : AccessTokenInput C) : R :=
  if agentID =? "" then sign in_
  else
    sign {| at_Client := at_Client _ in_; at_Sub := at_Sub in_; at_Scopes := at_Scopes in_; at_SenderConstraint := at_SenderConstraint in_;
            at_AuthTime := at_AuthTime _ in_; at_AMR := at_AMR _ in_; at_ACR := at_ACR _ in_; at_AgentID := at_AgentID _ in_;
            at_AgentChain := MergeAgentChain [[agentID]; at_AgentChain _ in_]; at_ApprovalRequestID := at_ApprovalRequestID _ in_;
            at_Audiences := at_Audiences _ in_; at_AuthorizationDetails := at_AuthorizationDetails _ in_;
            at_ExpiresAt := at_ExpiresAt _ in_; at_Managed := at_Managed _ in_; at_Act := at_Act _ in_ |}.

(** [RequestingAgentID]. *)
Definition RequestingAgentID {E} (repo : option (AgentRepository E)) (tenantID clientID : string) : result E string :=
  match repo with
  | None => Ok ""
  | Some repo =>
      let? agent := agent_FindByClientID repo tenantID clientID in
      Ok (match agent with Some a => agent_ID a | None => "" end)
  end.

(** ** What a layer finds *)

(** The items of a layer that a request exceeds. *)
Definition exceeds (l : AgentGuardrailLimits) (req : AgentGuardrailRequest) (now : Time) (reason : string) : Prop :=
  (reason = AgentGuardrailReasonResource /\ exists allowed, gl_AllowedResources l = Some allowed /\
     (gr_Resources req = [] \/ exists x, x ∈ gr_Resources req /\ x ∉ allowed)) \/
  (reason = AgentGuardrailReasonDetailType /\ exists allowed, gl_AllowedAuthorizationDetailTypes l = Some allowed /\
     exists x, x ∈ gr_DetailTypes req /\ x ∉ allowed) \/
  (reason = AgentGuardrailReasonExpired /\ exists t, gl_ExpiresAt l = Some t /\ (t <= now)%Z) \/
  (reason = AgentGuardrailReasonDelegationDepth /\ exists n, gl_MaxDelegationDepth l = Some n /\ (n < gr_DelegationDepth req)%Z) \/
  (reason = AgentGuardrailReasonApproval /\ gl_RequireApproval l = true).

(** What the declaration says of an item; the depth is never waived and a
    declared approval always asks for one. *)
Definition declared_action (l : AgentGuardrailLimits) (reason : string) : AgentGuardrailViolationAction :=
  let ov := gl_OnViolation l in
  if reason =? AgentGuardrailReasonResource then effectiveAction (ov_AllowedResources ov)
  else if reason =? AgentGuardrailReasonDetailType then effectiveAction (ov_AllowedAuthorizationDetailTypes ov)
  else if reason =? AgentGuardrailReasonExpired then effectiveAction (ov_ExpiresAt ov)
  else if reason =? AgentGuardrailReasonApproval then AgentGuardrailRequireApproval
  else AgentGuardrailDeny.

Lemma allContained_false values allowed any :
  allContained values allowed any = false <-> (any = true /\ values = []) \/ exists x, x ∈ values /\ x ∉ allowed.
Proof.
  assert (Hf : forallb (contains allowed) values = false <-> exists x, x ∈ values /\ x ∉ allowed).
  { induction values as [|v values IH]; simpl; [split; [done|intros (x & Hx & _); by apply not_elem_of_nil in Hx]|].
    rewrite andb_false_iff, IH, contains_false. split.
    - intros [Hv|(x & Hx & Hn)]; [exists v; split; [by left|done]|exists x; split; [by right|done]].
    - intros (x & [-> |Hx]%elem_of_cons & Hn); [by left|right; by exists x]. }
  unfold allContained. destruct (any && (values =? [])) eqn:Hc.
  - split; [|done]. intros _. left. apply andb_true_iff in Hc as [-> Hc]. by go_bool.
  - rewrite Hf. split; [by right|]. intros [[-> ->]|Hx]; [done|done].
Qed.

(** A layer finds exactly the items that the request exceeds, each with the
    action declared for it: an item that is not declared limits nothing, one that
    is declared empty allows nothing, and a token without an audience is never
    within declared resources. *)
Theorem Limits_Evaluate_exact l req now f :
  f ∈ Limits_Evaluate l req now <-> exceeds l req now (gf_Reason f) /\ gf_Action f = declared_action l (gf_Reason f).
Proof.
  destruct f as [reason action]. unfold Limits_Evaluate, exceeds. cbn [gf_Reason gf_Action]. rewrite !elem_of_app.
  assert (Hone : forall (b : bool) r a,
    {| gf_Reason := reason; gf_Action := action |} ∈ (if b then [{| gf_Reason := r; gf_Action := a |}] else []) <->
    b = true /\ reason = r /\ action = a).
  { intros [] r a; [rewrite list_elem_of_singleton|rewrite elem_of_nil]; naive_solver. }
  assert (Hopt : forall A (o : option A) (k : A -> bool) r a,
    {| gf_Reason := reason; gf_Action := action |} ∈
      (match o with Some x => if k x then [{| gf_Reason := r; gf_Action := a |}] else [] | None => [] end) <->
    (exists x, o = Some x /\ k x = true) /\ reason = r /\ action = a).
  { intros A [x|] k r a; [rewrite Hone; naive_solver|rewrite elem_of_nil; naive_solver]. }
  rewrite !Hopt, Hone. unfold Before.
  setoid_rewrite negb_true_iff. setoid_rewrite allContained_false. setoid_rewrite Z.ltb_ge. setoid_rewrite Z.ltb_lt.
  unfold declared_action. split.
  - intros [[Hx [-> ->]]|[[Hx [-> ->]]|[[Hx [-> ->]]|[[Hx [-> ->]]|[Hx [-> ->]]]]]]; (split; [|reflexivity]); naive_solver.
  - intros [[[-> Hx]|[[-> Hx]|[[-> Hx]|[[-> Hx]|[-> Hx]]]]] ->]; cbn; naive_solver.
Qed.

(** ** Refusals *)

Section proofs.
Context {S E C U : Type} `{RatePort S E} `{UserView U}.
Context (d : AgentGuardrailDeps (E := E) (U := U)) (version : AgentGuardrailLimits -> string).
Context (inner_sign : AccessTokenInput C -> result (failure E) (string * string)) (inner_ttl : Z).
Notation flow := (eff (guard_state S) AgentGuardrailEvaluated (failure E)).

(** What a refusal says to the client, and what it leaves in the record. *)
Definition refusal (g : guard_state S) (e : failure E) (ev : AgentGuardrailEvaluated) : Prop :=
  ge_TokenID ev = "" /\ ge_TenantID ev = gs_tenantID g /\
  ((ge_Outcome ev = agentGuardrailDenied /\ e = NewOAuthError "access_denied" "The token request was denied.") \/
   (ge_Outcome ev = agentGuardrailApprovalRequired /\ e = NewOAuthError "unauthorized_client" "human approval is required")).

(** A step of the evaluation: it says nothing when it passes, once when it
    refuses, and keeps the fields of the issuer. *)
Definition evaluates {A} (m : flow A) : Prop := forall g r g' w, m g = (r, g', w) ->
  gs_checked g' = gs_checked g /\ gs_tenantID g' = gs_tenantID g /\ gs_limited g' = gs_limited g /\
  gs_lifetimeSeconds g' = gs_lifetimeSeconds g /\
  match r with Ok _ => w = [] | Err e => exists ev, w = [ev] /\ refusal g e ev end.

Lemma evaluates_ret {A} (a : A) : evaluates (eff_ret a).
Proof. intros g r g' w. unfold eff_ret. by intros [= <- <- <-]. Qed.

Lemma evaluates_reject {A} r outcome : outcome = agentGuardrailDenied \/ outcome = agentGuardrailApprovalRequired ->
  evaluates (guard_reject (A := A) d r outcome).
Proof.
  intros Ho g r0 g' w. unfold guard_reject, record_result, eff_bind, emit, eff_fail. intros [= <- <- <-].
  split_and!; [done..|]. eexists. split; [reflexivity|]. split_and!; [done..|]. cbn.
  destruct Ho as [-> | ->]; [by left|by right].
Qed.

Lemma evaluates_bind {A B} (m : flow A) (k : A -> flow B) : evaluates m -> (forall a, evaluates (k a)) -> evaluates (eff_bind m k).
Proof.
  intros Hm Hk g b g' w. unfold eff_bind. destruct (m g) as [[[a|e] g1] w1] eqn:H1; apply Hm in H1 as (Hc & Ht & Hl & Hs & Hw).
  - subst w1. destruct (k a g1) as [[r g2] w2] eqn:H2. intros [= <- <- <-].
    apply Hk in H2 as (Hc2 & Ht2 & Hl2 & Hs2 & Hw2). split_and!; [congruence..|]. destruct r as [x|e]; [done|].
    destruct Hw2 as (ev & -> & H1 & H2 & H3). exists ev. split; [done|]. split_and!; [done|congruence|done].
  - intros [= <- <- <-]. done.
Qed.

Lemma evaluates_ask key rate : evaluates (ask_limiter d key rate).
Proof. intros g r g' w. unfold ask_limiter. destruct (allow_within _ _ _ _ _) as [x s]. by intros [= <- <- <-]. Qed.

Lemma requireWaiver_evaluates tenantID e (in_ : AccessTokenInput C) : evaluates (requireWaiver d version tenantID e in_).
Proof.
  unfold requireWaiver. destruct (_ || _); [apply evaluates_ret|]. destruct (_ =? _); [apply evaluates_reject; by right|].
  destruct (approvedByOwner _ _ _ _) as [[]|]; [apply evaluates_ret|apply evaluates_reject; by left..].
Qed.

Lemma consume_layers_evaluates tenantID (in_ : AccessTokenInput C) layers : forall e,
  evaluates (consume_layers d version tenantID in_ layers e).
Proof.
  induction layers as [|layer layers IH]; intros e; cbn [consume_layers]; [apply evaluates_ret|].
  destruct (gl_IssuanceRate _) as [rate|]; [|apply IH]. destruct (negb _); [apply evaluates_reject; by left|].
  apply evaluates_bind; [apply evaluates_ask|]. intros [allowed|]; [|apply evaluates_reject; by left].
  destruct (rl_Allowed allowed); [apply IH|]. destruct (negb _); [apply evaluates_reject; by left|].
  apply evaluates_bind; [apply requireWaiver_evaluates|apply IH].
Qed.

Lemma reject_denied_evaluates es : evaluates (reject_denied d version es).
Proof.
  induction es as [|e es IH]; cbn [reject_denied]; [apply evaluates_ret|]. destruct (negb _); [apply evaluates_reject; by left|done].
Qed.

Lemma require_waivers_evaluates tenantID (in_ : AccessTokenInput C) es : evaluates (require_waivers d version tenantID in_ es).
Proof.
  induction es as [|e es IH]; cbn [require_waivers]; [apply evaluates_ret|].
  apply evaluates_bind; [apply requireWaiver_evaluates|intros e']. apply evaluates_bind; [done|intros es']. apply evaluates_ret.
Qed.

Lemma consume_all_evaluates tenantID (in_ : AccessTokenInput C) es : forall results limited,
  evaluates (consume_all d version inner_ttl tenantID in_ es results limited).
Proof.
  induction es as [|e es IH]; intros results limited; cbn [consume_all]; [apply evaluates_ret|].
  apply evaluates_bind; [apply consume_layers_evaluates|intros e']. apply IH.
Qed.

(** A refused issuance is recorded exactly once, without a token, and the
    client learns only whether a human could approve it: never which limit was
    reached, so that an agent cannot search for its limits.  The evaluation is
    not kept: the next attempt is evaluated again. *)
Theorem guardrail_refusal tenantID (in_ : AccessTokenInput C) g e g' w :
  Precheck d version inner_ttl tenantID in_ g = (Err e, g', w) ->
  gs_checked g = None /\ gs_checked g' = None /\
  exists ev, w = [ev] /\ ge_TokenID ev = "" /\ ge_TenantID ev = tenantID /\
    ((ge_Outcome ev = agentGuardrailDenied /\ e = NewOAuthError "access_denied" "The token request was denied.") \/
     (ge_Outcome ev = agentGuardrailApprovalRequired /\ e = NewOAuthError "unauthorized_client" "human approval is required")).
Proof.
  set (g0 := {| gs_store := gs_store g; gs_tenantID := tenantID; gs_checked := gs_checked g;
    gs_lifetimeSeconds := gs_lifetimeSeconds g; gs_limited := gs_limited g |}).
  unfold Precheck. rewrite (eff_bind_pure _ _ g tt g0) by done. rewrite (eff_bind_pure _ _ g0 g0 g0) by done.
  change (gs_checked g0) with (gs_checked g). destruct (gs_checked g) as [l|] eqn:Hc; [done|]. simpl. intros Hrun.
  assert (gs_checked g' = gs_checked g0 /\ exists ev, w = [ev] /\ refusal g0 e ev) as [H1 (ev & Hw & H2 & H3 & H4)].
  { unfold evaluate_issuance in Hrun. destruct (guard_agents d in_) as [|first rest]; [done|].
    destruct (gd_ListEffective _ _ _) as [policies|].
    - apply eff_bind_Err in Hrun as [H1|([] & g1 & w1 & w2 & H1 & Hrun & ->)]; apply reject_denied_evaluates in H1 as (Hk & Ht & _ & _ & Hw).
      { done. }
      apply eff_bind_Err in Hrun as [H2|(es & g2 & w3 & w4 & H2 & Hrun & ->)];
        apply require_waivers_evaluates in H2 as (Hk2 & Ht2 & _ & _ & Hw2).
      { destruct Hw2 as (ev & -> & Hr1 & Hr2 & Hr3). subst w1. split; [congruence|]. exists ev. split; [done|]. split_and!; [done|congruence|done]. }
      apply eff_bind_Err in Hrun as [H3|([res lim] & g3 & w5 & w6 & H3 & Hrun & ->)]; [|done].
      apply consume_all_evaluates in H3 as (Hk3 & Ht3 & _ & _ & (ev & -> & Hr1 & Hr2 & Hr3)). subst w1 w3.
      split; [congruence|]. exists ev. split; [done|]. split_and!; [done|congruence|done].
    - apply evaluates_reject in Hrun as (Hk & _ & _ & _ & Hw); [|by left]. done. }
  split_and!; [done|by rewrite H1|]. by exists ev.
Qed.

(** ** What passes *)

(** The layers of an agent. *)
Definition applies (p : AgentGuardrailPolicy) (agentID : string) : Prop := gp_AgentID p = "" \/ gp_AgentID p = agentID.

Lemma elem_of_guardrailLayers policies agentID p : p ∈ guardrailLayers policies agentID <-> p ∈ policies /\ applies p agentID.
Proof.
  unfold guardrailLayers, applies. rewrite list_elem_of_In, filter_In, <- list_elem_of_In, orb_true_iff, !bool_decide_eq_true. done.
Qed.

(** Excesses that a human may approve are approved by the owner. *)
Definition waived_by_owner (tenantID : string) (in_ : AccessTokenInput C) (agentID : string) : Prop :=
  at_ApprovalRequestID _ in_ <> "" /\ approvedByOwner d tenantID agentID (at_Sub in_) = Ok true.

Lemma requireWaiver_Ok tenantID e (in_ : AccessTokenInput C) (g : guard_state S) e' g' w :
  requireWaiver d version tenantID e in_ g = (Ok e', g', w) ->
  g' = g /\ ev_agentID e' = ev_agentID e /\ ev_layers e' = ev_layers e /\ ev_denied e' = ev_denied e /\
  ev_requiresApproval e' = ev_requiresApproval e /\
  (ev_waived e' = true -> ev_waived e = true \/ waived_by_owner tenantID in_ (ev_agentID e)) /\
  (ev_requiresApproval e <> [] -> ev_waived e' = true).
Proof.
  unfold requireWaiver. destruct ((ev_requiresApproval e =? []) || ev_waived e) eqn:Hc.
  - unfold eff_ret. intros [= <- <- <-]. split_and!; [done..|by left|]. intros Hne. apply orb_true_iff in Hc as [Hc|Hc]; [|done].
    by go_bool.
  - destruct (at_ApprovalRequestID C in_ =? "") eqn:Ha; [done|]. destruct (approvedByOwner _ _ _ _) as [[]|] eqn:Ho; [|done|done].
    unfold eff_ret. intros [= <- <- <-]. go_bool. split_and!; [done..|intros _; right; done|done].
Qed.

(** The parts of an evaluation that stay as the layers were read. *)
Definition same_layers (e e' : agentGuardrailEvaluation) : Prop :=
  ev_agentID e' = ev_agentID e /\ ev_layers e' = ev_layers e /\ ev_denied e' = ev_denied e.

(** An evaluation whose excesses, if any, its owner approved. *)
Definition settled (tenantID : string) (in_ : AccessTokenInput C) (e : agentGuardrailEvaluation) : Prop :=
  ev_requiresApproval e <> [] \/ ev_waived e = true -> waived_by_owner tenantID in_ (ev_agentID e).

Lemma require_waivers_Ok tenantID (in_ : AccessTokenInput C) es : forall (g : guard_state S) es' g' w,
  Forall (fun e => ev_waived e = false) es ->
  require_waivers d version tenantID in_ es g = (Ok es', g', w) ->
  g' = g /\ Forall2 (fun e e' => same_layers e e' /\ ev_requiresApproval e' = ev_requiresApproval e) es es' /\
  Forall (settled tenantID in_) es'.
Proof.
  induction es as [|e es IH]; intros g es' g' w Hw; cbn [require_waivers].
  - unfold eff_ret. intros [= <- <- <-]. done.
  - apply Forall_cons in Hw as [Hw Hws].
    intros (e1 & g1 & w1 & w2 & H1 & (es1 & g2 & w3 & w4 & H2 & H3 & ->)%eff_bind_Ok & ->)%eff_bind_Ok.
    apply requireWaiver_Ok in H1 as (-> & Ha & Hl & Hd & Hr & Hwv & Hne). apply IH in H2 as (-> & Hs & Hset); [|done].
    unfold eff_ret in H3. injection H3 as <- <- <-. split_and!; [done|constructor; [by split; [split_and!|]|done]|].
    constructor; [|done]. intros Hx. rewrite Ha. rewrite Hr in Hx.
    assert (ev_waived e1 = true) as Hx' by (destruct Hx as [Hx|Hx]; [by apply Hne|done]).
    destruct (Hwv Hx') as [Hy|]; [congruence|done].
Qed.

Lemma reject_denied_Ok es (g : guard_state S) g' w : reject_denied d version es g = (Ok tt, g', w) -> g' = g /\ Forall (fun e => ev_denied e = []) es.
Proof.
  induction es as [|e es IH]; cbn [reject_denied]; [unfold eff_ret; by intros [= <- <-]|].
  destruct (negb (ev_denied e =? [])) eqn:Hc; [done|]. intros Hrun. apply IH in Hrun as [-> Hes]. split; [done|].
  constructor; [|done]. by go_bool.
Qed.

(** The counting keeps the layers. *)
Lemma consume_layers_Ok tenantID (in_ : AccessTokenInput C) layers : forall e (g : guard_state S) e' g' w,
  consume_layers d version tenantID in_ layers e g = (Ok e', g', w) -> same_layers e e'.
Proof.
  induction layers as [|layer layers IH]; intros e g e' g' w; cbn [consume_layers].
  - unfold eff_ret. by intros [= <- _ _].
  - destruct (gl_IssuanceRate _) as [rate|]; [|apply IH]. destruct (negb (gd_has_Limiter d)); [done|].
    intros (allowed & g1 & w1 & w2 & _ & Hrun & ->)%eff_bind_Ok. destruct allowed as [allowed|]; [|done].
    destruct (rl_Allowed allowed); [by apply IH in Hrun|]. destruct (negb _); [done|].
    apply eff_bind_Ok in Hrun as (e1 & g2 & w3 & w4 & H1 & Hrun & ->).
    apply requireWaiver_Ok in H1 as (_ & Ha & Hl & Hd & _). apply IH in Hrun as (Ha2 & Hl2 & Hd2).
    unfold same_layers. cbn in *. by split_and!; congruence.
Qed.

(** ** Lifetimes *)

Definition lifetime (p : AgentGuardrailPolicy) : Z := TokenLifetimeSeconds (gp_Limits p) inner_ttl (gd_Now d).

Lemma shorten_min layers : forall limited, (0 <= limited)%Z -> Forall (fun p => 1 <= lifetime p)%Z layers ->
  let r := fold_left (shorten d inner_ttl) layers limited in
  (0 <= r)%Z /\ (limited <> 0 -> 0 < r <= limited)%Z /\ Forall (fun p => 0 < r <= lifetime p)%Z layers.
Proof.
  induction layers as [|p layers IH]; intros limited Hl Hall r; [simpl in r; split_and!; [done|unfold r; lia|constructor]|].
  apply Forall_cons in Hall as [Hp Hall]. simpl in r. fold (lifetime p) in *.
  assert (Hs : (1 <= shorten d inner_ttl limited p <= lifetime p)%Z /\ (limited <> 0 -> shorten d inner_ttl limited p <= limited)%Z).
  { unfold shorten. fold (lifetime p). destruct (Z.eqb_spec limited 0); simpl; [lia|]. destruct (Z.ltb_spec (lifetime p) limited); lia. }
  destruct (IH (shorten d inner_ttl limited p) ltac:(lia) Hall) as (H1 & H2 & H3). fold r in H1, H2, H3.
  specialize (H2 ltac:(lia)). split_and!; [lia|lia|]. constructor; [lia|done].
Qed.

Lemma lifetime_pos p : Limits_Validate (gp_Limits p) = Ok tt -> (1 <= inner_ttl)%Z -> (1 <= lifetime p)%Z.
Proof.
  unfold Limits_Validate, lifetime, TokenLifetimeSeconds. intros Hv Ht.
  repeat match type of Hv with (if ?b then _ else _) = _ => destruct b eqn:?; [done|] end.
  assert (1 <= match gl_MaxTokenTTLSeconds (gp_Limits p) with Some t => Z.min inner_ttl t | None => inner_ttl end)%Z.
  { destruct (gl_MaxTokenTTLSeconds _) as [t|]; [|done]. rewrite !orb_false_iff in *. go_bool. lia. }
  destruct (gl_ExpiresAt _) as [t|]; [|done]. destruct (Before _ _); lia.
Qed.

Lemma consume_all_Ok tenantID (in_ : AccessTokenInput C) es : forall results limited (g : guard_state S) results' limited' g' w,
  consume_all d version inner_ttl tenantID in_ es results limited g = (Ok (results', limited'), g', w) ->
  limited' = fold_left (shorten d inner_ttl) (concat (map ev_layers es)) limited.
Proof.
  induction es as [|e es IH]; intros results limited g results' limited' g' w; cbn [consume_all].
  - unfold eff_ret. by intros [= _ <- _ _].
  - intros (e1 & g1 & w1 & w2 & H1 & Hrun & ->)%eff_bind_Ok. apply consume_layers_Ok in H1 as (_ & Hl & _).
    apply IH in Hrun as ->. cbn [map concat]. by rewrite fold_left_app, Hl.
Qed.

Lemma elem_of_guard_evaluations agents policies req a p : a ∈ agents -> p ∈ policies -> applies p a ->
  evaluateLayers d a (guardrailLayers policies a) req ∈ guard_evaluations d agents policies req /\ p ∈ guardrailLayers policies a.
Proof.
  intros Ha Hp Happ. assert (Hl : p ∈ guardrailLayers policies a) by by apply elem_of_guardrailLayers.
  split; [|done]. unfold guard_evaluations. apply list_elem_of_omap. exists a. split; [done|].
  destruct (guardrailLayers policies a) as [|q l]; [by apply not_elem_of_nil in Hl|done].
Qed.

(** Every excess is one that a human may approve, and the owner approved. *)
Definition admissible (tenantID : string) (in_ : AccessTokenInput C) (policies : list AgentGuardrailPolicy) : Prop :=
  forall a p, a ∈ guard_agents d in_ -> p ∈ policies -> applies p a ->
    forall f, f ∈ Limits_Evaluate (gp_Limits p) (guard_request in_) (gd_Now d) ->
      gf_Action f <> AgentGuardrailDeny /\ waived_by_owner tenantID in_ a.

(** The checks without an effect. *)
Lemma checks_passed tenantID (in_ : AccessTokenInput C) policies (g g1 g2 : guard_state S) w1 es' w2
    (es := guard_evaluations d (guard_agents d in_) policies (guard_request in_)) :
  reject_denied d version es g = (Ok tt, g1, w1) -> require_waivers d version tenantID in_ es g1 = (Ok es', g2, w2) ->
  admissible tenantID in_ policies /\ map ev_layers es' = map ev_layers es /\ map ev_agentID es' = map ev_agentID es.
Proof.
  intros H1 H2. apply reject_denied_Ok in H1 as [-> Hden].
  assert (Hnew : Forall (fun e => ev_waived e = false) es).
  { apply Forall_forall. intros e He. apply list_elem_of_omap in He as (a & _ & Ha). by destruct (guardrailLayers policies a); [|injection Ha as <-]. }
  apply require_waivers_Ok in H2 as (-> & Hsame & Hset); [|done]. split.
  - intros a p Ha Hp Happ f Hf. destruct (elem_of_guard_evaluations (guard_agents d in_) policies (guard_request in_) a p Ha Hp Happ) as [He Hl].
    fold es in He. set (e := evaluateLayers d a (guardrailLayers policies a) (guard_request in_)) in *.
    assert (Hfe : f ∈ layer_findings d (guardrailLayers policies a) (guard_request in_)).
    { unfold layer_findings. apply list_elem_of_In, in_concat. eexists. split; [|by apply list_elem_of_In, Hf].
      apply in_map_iff. exists p. split; [done|]. by apply list_elem_of_In. }
    apply list_elem_of_lookup in He as [i Hi]. destruct (Forall2_lookup_l _ _ _ _ _ Hsame Hi) as (e' & Hi' & (Hid & _ & _) & Hreq).
    pose proof (Forall_lookup_1 _ _ _ _ Hden Hi) as Hd0. pose proof (Forall_lookup_1 _ _ _ _ Hset Hi') as Hs.
    assert (Hnd : is_deny f = false).
    { destruct (is_deny f) eqn:Hdeny; [|done]. exfalso. change (ev_denied e) with
        (map gf_Reason (List.filter is_deny (layer_findings d (guardrailLayers policies a) (guard_request in_)))) in Hd0.
      apply map_eq_nil in Hd0. apply (in_nil (a := f)). rewrite <- Hd0. apply filter_In. split; [by apply list_elem_of_In|done]. }
    split; [unfold is_deny in Hnd; by go_bool|]. rewrite <- (eq_refl : ev_agentID e = a), <- Hid. apply Hs. left.
    rewrite Hreq. change (ev_requiresApproval e) with
      (map gf_Reason (List.filter (fun f => negb (is_deny f)) (layer_findings d (guardrailLayers policies a) (guard_request in_)))).
    intros Hnil. apply map_eq_nil in Hnil. apply (in_nil (a := f)). rewrite <- Hnil. apply filter_In.
    split; [by apply list_elem_of_In|]. by rewrite Hnd.
  - clear - Hsame. clearbody es. induction Hsame as [|e e' l l' [(Hid & Hl & _) _] _ [IH1 IH2]]; [done|].
    cbn [map]. by rewrite Hl, Hid, IH1, IH2.
Qed.

(** What an evaluation that passed has established. *)
Lemma evaluate_issuance_Ok tenantID (in_ : AccessTokenInput C) (g : guard_state S) g' w :
  evaluate_issuance d version inner_ttl tenantID in_ g = (Ok tt, g', w) ->
  is_some (gs_checked g') = true /\
  (guard_agents d in_ <> [] -> exists policies, gd_ListEffective d tenantID (guard_agents d in_) = Ok policies /\
     admissible tenantID in_ policies /\
     gs_limited g' = fold_left (shorten d inner_ttl)
       (concat (map ev_layers (guard_evaluations d (guard_agents d in_) policies (guard_request in_)))) 0%Z).
Proof.
  unfold evaluate_issuance. destruct (guard_agents d in_) as [|first rest] eqn:Hag.
  { intros (g0 & g1 & w1 & w2 & H1 & H2 & _)%eff_bind_Ok. unfold set_checked in H2. injection H2 as <- _. split; [done|]. by intros []. }
  rewrite <- Hag. destruct (gd_ListEffective _ _ _) as [policies|]; [|done].
  intros ([] & g1 & w1 & w2 & H1 & (es' & g2 & w3 & w4 & H2 & ([res lim] & g3 & w5 & w6 & H3 & H4 & _)%eff_bind_Ok & _)%eff_bind_Ok & _)%eff_bind_Ok.
  destruct (checks_passed _ _ _ _ _ _ _ _ _ H1 H2) as (Hadm & Hl & _).
  unfold set_checked in H4. injection H4 as <- _. split; [done|]. intros _. exists policies. split_and!; [done|done|].
  apply consume_all_Ok in H3. cbn [gs_limited]. by rewrite H3, Hl.
Qed.

(** The checks keep the stores. *)
Lemma guard_reject_store {A} r outcome (g : guard_state S) : (guard_reject (A := A) d r outcome g).1.2 = g.
Proof. done. Qed.

Lemma requireWaiver_store tenantID e (in_ : AccessTokenInput C) (g : guard_state S) :
  (requireWaiver d version tenantID e in_ g).1.2 = g.
Proof. unfold requireWaiver. destruct (_ || _); [done|]. destruct (_ =? _); [done|]. by destruct (approvedByOwner _ _ _ _) as [[]|]. Qed.

Lemma require_waivers_store tenantID (in_ : AccessTokenInput C) es (g : guard_state S) :
  (require_waivers d version tenantID in_ es g).1.2 = g.
Proof.
  induction es as [|e es IH]; [done|]. cbn [require_waivers]. pose proof (requireWaiver_store tenantID e in_ g) as Hw. unfold eff_bind.
  destruct (requireWaiver _ _ _ _ _ _) as [[[e'|x] g1] w1]; simpl in Hw; subst g1; [|done].
  by destruct (require_waivers _ _ _ _ _ _) as [[[es'|x] g2] w2].
Qed.

Lemma reject_denied_store es (g : guard_state S) : (reject_denied d version es g).1.2 = g.
Proof. induction es as [|e es IH]; [done|]. cbn [reject_denied]. by destruct (negb _). Qed.

Lemma records_run tokenID rs (g : guard_state S) :
  eff_for_each (fun r => record_result (E := E) d r tokenID) rs g =
  (Ok tt, g, map (fun r => {| ge_At := gd_Now d; ge_TenantID := gs_tenantID g; ge_AgentID := res_agentID r;
     ge_ClientID := gd_ClientID d; ge_GrantType := gd_GrantType d; ge_Outcome := res_outcome r; ge_Reasons := res_reasons r;
     ge_PolicyVersions := res_versions r; ge_RequestID := gd_RequestID d; ge_TokenID := tokenID |}) rs).
Proof.
  induction rs as [|r rs IH]; [done|]. cbn [eff_for_each]. unfold record_result at 1.
  rewrite (eff_bind_run _ _ g tt g [_]) by reflexivity. by rewrite IH.
Qed.

(** What a confirmation leaves: the fields but the evaluation, and one record of
    the token for each agent. *)
Definition confirmed (g : guard_state S) : guard_state S :=
  {| gs_store := gs_store g; gs_tenantID := gs_tenantID g; gs_checked := None;
     gs_lifetimeSeconds := gs_lifetimeSeconds g; gs_limited := gs_limited g |}.

Lemma Confirm_run tokenID (g : guard_state S) : exists w, Confirm (E := E) d tokenID g = (Ok tt, confirmed g, w).
Proof.
  unfold Confirm. rewrite (eff_bind_pure _ _ g g g) by done. rewrite (eff_bind_run _ _ _ _ _ _ (records_run _ _ _)).
  unfold set_checked. by eexists.
Qed.

(** The evaluation keeps one state of the issuer: passed or not. *)
Lemma Precheck_run tenantID (in_ : AccessTokenInput C) (g : guard_state S) :
  Precheck d version inner_ttl tenantID in_ g =
  let g0 := {| gs_store := gs_store g; gs_tenantID := tenantID; gs_checked := gs_checked g;
               gs_lifetimeSeconds := gs_lifetimeSeconds g; gs_limited := gs_limited g |} in
  if is_some (gs_checked g) then (Ok tt, g0, []) else evaluate_issuance d version inner_ttl tenantID in_ g0.
Proof.
  cbv zeta. set (g0 := {| gs_store := _ |}). unfold Precheck. rewrite (eff_bind_pure _ _ g tt g0) by done. rewrite (eff_bind_pure _ _ g0 g0 g0) by done.
  change (gs_checked g0) with (gs_checked g). by destruct (gs_checked g).
Qed.

Lemma limit_lifetime_spec (in_ in2 : AccessTokenInput C) (g g' : guard_state S) w :
  limit_lifetime (E := E) d inner_ttl in_ g = (Ok in2, g', w) ->
  (0 <= Unix (gd_Now d))%Z -> (Unix (gd_Now d) + inner_ttl <= max_int64)%Z ->
  in2 = with_expiry (at_ExpiresAt _ in2) in_ /\ gs_checked g' = gs_checked g /\ gs_store g' = gs_store g /\
  (0 < gs_limited g < inner_ttl -> at_ExpiresAt _ in2 <> 0 /\ at_ExpiresAt _ in2 <= Unix (gd_Now d) + gs_limited g)%Z.
Proof.
  intros Hrun Hz Hmax. unfold limit_lifetime in Hrun.
  assert (Hsame : forall x : AccessTokenInput C, x = with_expiry (at_ExpiresAt _ x) x) by by intros [].
  destruct ((0 <? gs_limited g) && (gs_limited g <? inner_ttl)) eqn:Hc.
  - apply andb_true_iff in Hc as [H1 H2]. go_bool. rewrite wrap64_id in Hrun by (unfold min_int64; lia).
    destruct (Z.eqb (at_ExpiresAt _ in_) 0 || _) eqn:Ho; injection Hrun as <- <- _; cbn.
    + split_and!; [done..|]. intros _. lia.
    + apply orb_false_iff in Ho as [Ha Hb]. go_bool. split_and!; [apply Hsame|done|done|]. intros _. lia.
  - injection Hrun as <- <- _. split_and!; [apply Hsame|done|done|]. intros Hr. apply andb_false_iff in Hc. go_bool. lia.
Qed.

(** *** The counting of rates *)

(** Requests to the limiter one after another, at the time of the issuance: the
    key, the rate and whether it was within it. *)
Inductive asked : S -> list (string * AgentGuardrailIssuanceRate * bool) -> S -> Prop :=
| asked_none s : asked s [] s
| asked_one key rate v s s1 l s2 :
    allow_within agentGuardrailRatePolicyID key {| MaxRequests := MaxIssuances rate; WindowSeconds := ir_WindowSeconds rate |} (gd_Now d) s = (Ok v, s1) ->
    asked s1 l s2 -> asked s ((key, rate, rl_Allowed v) :: l) s2.

Lemma asked_app s1 l1 s2 l2 s3 : asked s1 l1 s2 -> asked s2 l2 s3 -> asked s1 (l1 ++ l2) s3.
Proof. induction 1; [done|]. intros H3. econstructor; [done|by auto]. Qed.

(** The layers of an agent that declare a rate. *)
Definition rated (policies : list AgentGuardrailPolicy) (a : string) : list (string * AgentGuardrailPolicy * AgentGuardrailIssuanceRate) :=
  omap (fun p => if bool_decide (gp_AgentID p = "" \/ gp_AgentID p = a) then pair (a, p) <$> gl_IssuanceRate (gp_Limits p) else None) policies.

(** The counter of a layer for an agent, which the default layer keeps for each
    agent by itself. *)
Definition rate_request (x : string * AgentGuardrailPolicy * AgentGuardrailIssuanceRate) : string * AgentGuardrailIssuanceRate :=
  ((if bool_decide (gp_AgentID x.1.2 = "") then "default:" else "agent:") ++ x.1.1, x.2).

(** A rate that was exceeded was waived, and may be. *)
Definition rate_kept (tenantID : string) (in_ : AccessTokenInput C) (x : string * AgentGuardrailPolicy * AgentGuardrailIssuanceRate) (allowed : bool) : Prop :=
  allowed = true \/ ov_IssuanceRate (gl_OnViolation (gp_Limits x.1.2)) = AgentGuardrailRequireApproval /\ waived_by_owner tenantID in_ x.1.1.

(** The counting of some layers: each is asked once, in order. *)
Definition counted_rates (tenantID : string) (in_ : AccessTokenInput C) (l : list (string * AgentGuardrailPolicy * AgentGuardrailIssuanceRate)) (s s' : S) : Prop :=
  (l <> [] -> gd_has_Limiter d = true) /\
  exists answers, asked s (zip_with pair (map rate_request l) answers) s' /\ Forall2 (rate_kept tenantID in_) l answers.

Lemma counted_none tenantID (in_ : AccessTokenInput C) s : counted_rates tenantID in_ [] s s.
Proof. split; [by intros []|]. exists []. split; [apply asked_none|constructor]. Qed.

Lemma counted_app tenantID (in_ : AccessTokenInput C) l1 l2 s1 s2 s3 :
  counted_rates tenantID in_ l1 s1 s2 -> counted_rates tenantID in_ l2 s2 s3 -> counted_rates tenantID in_ (l1 ++ l2) s1 s3.
Proof.
  intros [H1 (as1 & Ha1 & Hf1)] [H2 (as2 & Ha2 & Hf2)]. split.
  - destruct l1; [exact H2|]. intros _. by apply H1.
  - exists (as1 ++ as2)%list. split; [|by apply Forall2_app]. rewrite map_app, zip_with_app; [by eapply asked_app|].
    rewrite length_map. by eapply Forall2_length.
Qed.

Lemma consume_layers_counted tenantID (in_ : AccessTokenInput C) layers : forall e (g : guard_state S) e' g' w,
  Forall (fun p => applies p (ev_agentID e)) layers ->
  (ev_waived e = true -> waived_by_owner tenantID in_ (ev_agentID e)) ->
  consume_layers d version tenantID in_ layers e g = (Ok e', g', w) ->
  counted_rates tenantID in_ (rated layers (ev_agentID e)) (gs_store g) (gs_store g').
Proof.
  induction layers as [|layer layers IH]; intros e g e' g' w Happ Hw; cbn [consume_layers].
  - unfold eff_ret. intros [= _ <- _]. apply counted_none.
  - apply Forall_cons in Happ as [Hl Happ].
    assert (Hr : rated (layer :: layers) (ev_agentID e) =
      (match gl_IssuanceRate (gp_Limits layer) with Some r => [(ev_agentID e, layer, r)] | None => [] end ++ rated layers (ev_agentID e))%list).
    { unfold rated. cbn [omap list_omap]. rewrite bool_decide_true by exact Hl. by destruct (gl_IssuanceRate _). }
    rewrite Hr. clear Hr. destruct (gl_IssuanceRate (gp_Limits layer)) as [rate|]; [|by apply IH].
    destruct (negb (gd_has_Limiter d)) eqn:Hlim; [done|]. apply negb_false_iff in Hlim.
    intros (allowed & g1 & w1 & w2 & Hask & Hrun & ->)%eff_bind_Ok. unfold ask_limiter in Hask.
    destruct (allow_within _ _ _ _ _) as [v s1] eqn:Hv. destruct v as [v|]; injection Hask as <- <- _; [|done].
    assert (Hkey : guardrailRateKey layer (ev_agentID e) = (rate_request (ev_agentID e, layer, rate)).1).
    { unfold guardrailRateKey, rate_request. cbn [fst snd]. by destruct (gp_AgentID layer =? ""). }
    assert (Hone : forall ok, rl_Allowed v = ok -> rate_kept tenantID in_ (ev_agentID e, layer, rate) ok ->
      counted_rates tenantID in_ [(ev_agentID e, layer, rate)] (gs_store g) s1).
    { intros ok Hok Hk. split; [done|]. exists [ok]. split; [|by apply Forall2_cons]. cbn [map zip_with]. rewrite <- Hok.
      rewrite (surjective_pairing (rate_request _)), <- Hkey. eapply asked_one; [exact Hv|apply asked_none]. }
    destruct (rl_Allowed v) eqn:Hal.
    + apply counted_app with s1; [apply (Hone true); [done|by left]|]. by apply (IH _ _ _ _ _ Happ Hw Hrun).
    + destruct (_ <>? AgentGuardrailRequireApproval) eqn:Hov; [done|]. apply negb_false_iff, bool_decide_eq_true in Hov.
      apply eff_bind_Ok in Hrun as (e1 & g2 & w3 & w4 & H1 & Hrun & ->).
      apply requireWaiver_Ok in H1 as (-> & Ha & _ & _ & _ & Hwv & Hne). cbn [add_approval ev_agentID ev_waived ev_requiresApproval] in *.
      assert (Hown : waived_by_owner tenantID in_ (ev_agentID e)).
      { destruct Hwv as [Hold|]; [|by apply Hw|done]. apply Hne. by destruct (ev_requiresApproval e). }
      apply counted_app with s1; [apply (Hone false); [done|by right]|]. rewrite <- Ha. apply (IH e1 _ _ _ _) in Hrun; [exact Hrun|by rewrite Ha|].
      intros _. by rewrite Ha.
Qed.

Lemma consume_all_counted tenantID (in_ : AccessTokenInput C) es : forall results limited (g : guard_state S) r g' w,
  Forall (fun e => Forall (fun p => applies p (ev_agentID e)) (ev_layers e) /\ (ev_waived e = true -> waived_by_owner tenantID in_ (ev_agentID e))) es ->
  consume_all d version inner_ttl tenantID in_ es results limited g = (Ok r, g', w) ->
  counted_rates tenantID in_ (concat (map (fun e => rated (ev_layers e) (ev_agentID e)) es)) (gs_store g) (gs_store g').
Proof.
  induction es as [|e es IH]; intros results limited g r g' w Hes; cbn [consume_all].
  - unfold eff_ret. intros [= _ <- _]. apply counted_none.
  - apply Forall_cons in Hes as [[Hl Hw] Hes]. intros (e1 & g1 & w1 & w2 & H1 & Hrun & ->)%eff_bind_Ok.
    cbn [map concat]. apply counted_app with (gs_store g1); [by eapply consume_layers_counted|by eapply IH].
Qed.

(** The layers of an agent declare the rates that all policies declare for it. *)
Lemma rated_layers policies a : rated (guardrailLayers policies a) a = rated policies a.
Proof.
  unfold rated. induction policies as [|p policies IH]; [done|]. cbn [guardrailLayers List.filter].
  change (List.filter _ policies) with (guardrailLayers policies a).
  destruct ((gp_AgentID p =? "") || (gp_AgentID p =? a)) eqn:Hp; cbn [omap list_omap].
  - apply orb_true_iff in Hp. rewrite !bool_decide_eq_true in Hp. rewrite bool_decide_true by done.
    change (omap ?f) with (list_omap _ _ f). destruct (pair (a, p) <$> _); [f_equal|]; exact IH.
  - apply orb_false_iff in Hp as [H1 H2]. apply bool_decide_eq_false in H1, H2. rewrite (bool_decide_false (_ \/ _)) by (by intros [?|?]). exact IH.
Qed.

(** What an evaluation that passed has counted. *)
Lemma evaluate_issuance_counted tenantID (in_ : AccessTokenInput C) (g : guard_state S) g' w policies :
  evaluate_issuance d version inner_ttl tenantID in_ g = (Ok tt, g', w) -> guard_agents d in_ <> [] ->
  gd_ListEffective d tenantID (guard_agents d in_) = Ok policies ->
  counted_rates tenantID in_ (concat (map (rated policies) (guard_agents d in_))) (gs_store g) (gs_store g').
Proof.
  unfold evaluate_issuance. destruct (guard_agents d in_) as [|first rest] eqn:Hag; [done|]. intros Hrun _ Hlist. rewrite <- Hag in *. rewrite Hlist in Hrun.
  apply eff_bind_Ok in Hrun as ([] & g1 & w1 & w2 & H1 & Hrun & _). apply eff_bind_Ok in Hrun as (es' & g2 & w3 & w4 & H2 & Hrun & _).
  apply eff_bind_Ok in Hrun as ([res lim] & g3 & w5 & w6 & H3 & H4 & _). unfold set_checked in H4. injection H4 as <- _.
  destruct (checks_passed _ _ _ _ _ _ _ _ _ H1 H2) as (_ & Hl & Hids).
  apply reject_denied_Ok in H1 as [-> _]. set (es := guard_evaluations _ _ _ _) in *.
  assert (Hes : forall e, e ∈ es -> ev_waived e = false /\ ev_layers e = guardrailLayers policies (ev_agentID e)).
  { intros e He. apply list_elem_of_omap in He as (a & _ & Ha). by destruct (guardrailLayers policies a) eqn:Hgl; [|injection Ha as <-]. }
  apply require_waivers_Ok in H2 as (-> & Hsame & Hset); [|apply Forall_forall; intros e He; by apply Hes].
  cbn [gs_store]. apply consume_all_counted in H3.
  2:{ apply Forall_forall. intros e' He'. apply list_elem_of_lookup in He' as [i Hi].
      destruct (Forall2_lookup_r _ _ _ _ _ Hsame Hi) as (e & Hi0 & (Ha & Hla & _) & _). split.
      - rewrite Hla, Ha. rewrite (proj2 (Hes e (list_elem_of_lookup_2 _ _ _ Hi0))). apply Forall_forall. intros p [_ Hp]%elem_of_guardrailLayers. exact Hp.
      - intros Hw. apply (Forall_lookup_1 _ _ _ _ Hset Hi). by right. }
  replace (concat (map (rated policies) (guard_agents d in_))) with (concat (map (fun e => rated (ev_layers e) (ev_agentID e)) es')); [exact H3|].
  transitivity (concat (map (fun e => rated (ev_layers e) (ev_agentID e)) es)).
  - clear - Hl Hids. revert Hl Hids. generalize es. clear es. induction es' as [|e' es' IH]; intros [|e es]; try done. cbn [map concat].
    intros [= -> Hl] [= -> Hids]. f_equal. by apply IH.
  - unfold es, guard_evaluations. generalize (guard_agents d in_) as agents. clear. induction agents as [|a agents IH]; [done|]. cbn [omap list_omap map concat].
    rewrite <- IH. rewrite <- (rated_layers policies a). destruct (guardrailLayers policies a) as [|q l] eqn:Hgl; [done|].
    cbn [map concat ev_layers ev_agentID]. done.
Qed.

(** What the owner of the agent approved: the token carries the approval, and its
    subject owns the agent and is active in the tenant. *)
Definition owner_approved (tenantID : string) (in_ : AccessTokenInput C) (a : string) : Prop :=
  at_ApprovalRequestID _ in_ <> "" /\ at_Sub in_ <> "" /\
  exists repo agent, gd_AgentRepo d = Some repo /\ agent_FindByID repo tenantID a = Ok (Some agent) /\ agent_OwnerUserID agent = at_Sub in_ /\
    forall findUser, gd_UserRepo d = Some findUser ->
      exists owner, findUser (at_Sub in_) = Ok (Some owner) /\ user_TenantID owner = tenantID /\ user_IsActive owner = true.

Lemma waived_approved tenantID (in_ : AccessTokenInput C) a : waived_by_owner tenantID in_ a -> owner_approved tenantID in_ a.
Proof.
  intros [Hid Ha]. unfold approvedByOwner in Ha. destruct (gd_AgentRepo d) as [repo|] eqn:Hrepo; [|done].
  destruct (at_Sub in_ =? "") eqn:Hsub; [done|]. apply res_bind_Ok in Ha as (agent & Hf & Ha).
  destruct (agent_FindByID repo tenantID a) as [o|] eqn:Hfind; [|done]. injection Hf as ->. destruct agent as [agent|]; [|done].
  destruct (agent_OwnerUserID agent <>? at_Sub in_) eqn:Hown; [done|]. go_bool. split; [done|]. split; [done|]. exists repo, agent. split_and!; [done..|].
  intros findUser Hu. unfold AgentOwnerIsActive in Ha. rewrite Hu in Ha. apply res_bind_Ok in Ha as (owner & Ho & Ha).
  destruct (findUser (agent_OwnerUserID agent)) as [o|] eqn:Hfu; [|done]. injection Ho as ->. destruct owner as [owner|]; [|done].
  injection Ha as Ha. apply andb_true_iff in Ha as [Ht Hac]. go_bool. exists owner. rewrite <- Hown. by split_and!.
Qed.

(** What a token must satisfy for one layer of an agent: nothing it exceeds is
    denied, and what it exceeds was approved by the owner; it does not outlive the
    maximum of the layer, nor the layer itself while that is in force. *)
Record within_layer (tenantID : string) (in_ issued : AccessTokenInput C) (a : string) (l : AgentGuardrailLimits) : Prop := {
  wl_excess : forall reason,
    exceeds l {| gr_Resources := at_Audiences _ in_; gr_DetailTypes := map detail_Type (at_AuthorizationDetails _ in_);
                 gr_DelegationDepth := guardrailActDepth (at_Act _ in_) |} (gd_Now d) reason ->
    declared_action l reason <> AgentGuardrailDeny /\ owner_approved tenantID in_ a;
  wl_ttl : forall t, gl_MaxTokenTTLSeconds l = Some t -> (t < inner_ttl)%Z ->
    at_ExpiresAt _ issued <> 0%Z /\ (at_ExpiresAt _ issued <= Unix (gd_Now d) + t)%Z;
  wl_end : forall t, gl_ExpiresAt l = Some t -> (gd_Now d < t)%Z ->
    let left_ := Z.max 1 (trunc_int (SecondsOf (Sub t (gd_Now d)))) in
    (left_ < inner_ttl)%Z -> at_ExpiresAt _ issued <> 0%Z /\ (at_ExpiresAt _ issued <= Unix (gd_Now d) + left_)%Z;
}.

(** C21. A token that the guarded issuer signs was checked against every layer of
    every agent that takes part, the requesting one, the one that holds the token
    and those of its chain: nothing that a layer denies was exceeded (resources,
    detail types, expiry, depth of delegation, declared approval), what it leaves to
    a human was approved by the owner of that very agent, the token lives no longer
    than any of the layers allows, and every rate that a layer declares was asked
    once for each of its agents and was within its window, or may be waived and was.
    Nothing else of the input is changed. *)
Theorem guarded_token tenantID (in_ : AccessTokenInput C) (g : guard_state S) signed g' w :
  SignAccessToken d version inner_sign inner_ttl tenantID in_ g = (Ok signed, g', w) -> gs_checked g = None ->
  (1 <= inner_ttl)%Z -> (0 <= Unix (gd_Now d))%Z -> (Unix (gd_Now d) + inner_ttl <= max_int64)%Z ->
  (forall agents policies, gd_ListEffective d tenantID agents = Ok policies ->
     Forall (fun p => Limits_Validate (gp_Limits p) = Ok tt) policies) ->
  exists issued agents, inner_sign issued = Ok signed /\ issued = with_expiry (at_ExpiresAt _ issued) in_ /\
    NoDup agents /\ (forall a, a ∈ agents <-> a <> "" /\ (a = gd_RequestingAgentID d \/ a = at_AgentID _ in_ \/ a ∈ at_AgentChain _ in_)) /\
    (agents <> [] -> exists policies answers,
      gd_ListEffective d tenantID agents = Ok policies /\
      (forall a p, a ∈ agents -> p ∈ policies -> gp_AgentID p = "" \/ gp_AgentID p = a -> within_layer tenantID in_ issued a (gp_Limits p)) /\
      let rates := concat (map (rated policies) agents) in
      (rates <> [] -> gd_has_Limiter d = true) /\
      asked (gs_store g) (zip_with pair (map rate_request rates) answers) (gs_store g') /\
      Forall2 (fun x allowed => allowed = true \/
        ov_IssuanceRate (gl_OnViolation (gp_Limits x.1.2)) = AgentGuardrailRequireApproval /\ owner_approved tenantID in_ x.1.1) rates answers).
Proof.
  intros Hrun Hnone Httl Hnow Hmax Hvalid. unfold SignAccessToken in Hrun.
  apply eff_bind_Ok in Hrun as ([] & g1 & w1 & w2 & H1 & Hrun & ->). rewrite Precheck_run, Hnone in H1. simpl in H1.
  pose proof (evaluate_issuance_Ok _ _ _ _ _ H1) as [Hchk Heval].
  apply eff_bind_Ok in Hrun as (issued & g2 & w3 & w4 & H2 & Hrun & ->). apply limit_lifetime_spec in H2 as (Hin & _ & Hst & Hexp); [|done..].
  apply eff_bind_Ok in Hrun as (s & g3 & w5 & w6 & H3 & Hrun & ->). unfold lift in H3. injection H3 as H3 <- <-.
  apply eff_bind_Ok in Hrun as ([] & g4 & w7 & w8 & H4 & Hrun & ->). unfold eff_ret in Hrun. injection Hrun as -> <- _.
  destruct (Confirm_run signed.2 g2) as [w9 Hc]. rewrite Hc in H4. injection H4 as <- _.
  exists issued, (guard_agents d in_). split_and!; [done|done|apply MergeAgentChain_NoDup| |].
  { intros a. unfold guard_agents. rewrite MergeAgentChain_elem. split.
    - intros (Hne & l & Hl & Ha). split; [done|]. repeat (apply elem_of_cons in Hl as [->|Hl]; [set_solver|]). by apply elem_of_nil in Hl.
    - intros (Hne & Ha). split; [done|]. destruct Ha as [->|[->|Ha]].
      + eexists. split; [by left|by left].
      + eexists. split; [by left|by right; left].
      + eexists. split; [by right; left|done]. }
  intros Hne. destruct (Heval Hne) as (policies & Hp & Hall & Hlim).
  destruct (evaluate_issuance_counted _ _ _ _ _ _ H1 Hne Hp) as (Hhas & answers & Hasked & Hkept). cbn [gs_store] in Hasked.
  exists policies, answers. split; [done|]. cbv zeta. split; [|split; [done|split; [cbn [confirmed gs_store]; by rewrite Hst|]]].
  2:{ eapply Forall2_impl; [exact Hkept|]. intros x ok [?|[? Hw]]; [by left|right; split; [done|by apply waived_approved]]. }
  intros a p Hmem Hin2 Happ. specialize (Hvalid _ _ Hp).
  destruct (shorten_min (concat (map ev_layers (guard_evaluations d (guard_agents d in_) policies (guard_request in_)))) 0 ltac:(lia))
    as (_ & _ & Hle).
  { apply Forall_forall. intros q Hq. apply lifetime_pos; [|done]. rewrite Forall_forall in Hvalid. apply Hvalid.
    apply list_elem_of_In, in_concat in Hq as (l & Hl & Hq). apply in_map_iff in Hl as (e & <- & He).
    apply list_elem_of_In, list_elem_of_omap in He as (b & _ & Hb). apply list_elem_of_In in Hq.
    destruct (guardrailLayers policies b) as [|q0 l0] eqn:Hgl; [done|]. injection Hb as <-. simpl in Hq. rewrite <- Hgl in Hq.
    by apply elem_of_guardrailLayers in Hq as [? _]. }
  rewrite <- Hlim in Hle. rewrite Forall_forall in Hle. specialize (Hle p).
  destruct (elem_of_guard_evaluations _ _ (guard_request in_) _ _ Hmem Hin2 Happ) as [He Hl].
  destruct Hle as [Hpos Hle].
  { apply list_elem_of_In, in_concat. exists (guardrailLayers policies a). split; [|by apply list_elem_of_In].
    apply in_map_iff. eexists. split; [|by apply list_elem_of_In, He]. done. }
  assert (Hends : forall n, (lifetime p <= n < inner_ttl)%Z -> at_ExpiresAt _ issued <> 0%Z /\ (at_ExpiresAt _ issued <= Unix (gd_Now d) + n)%Z).
  { intros n Hn. destruct Hexp as [He0 He1]; [lia|]. split; [done|lia]. }
  constructor.
  - intros reason Hx. destruct (Hall a p Hmem Hin2 Happ {| gf_Reason := reason; gf_Action := declared_action (gp_Limits p) reason |}) as [Hd Hw].
    { apply Limits_Evaluate_exact. by split. }
    split; [exact Hd|by apply waived_approved].
  - intros t Ht Hlt. apply Hends. split; [|done]. unfold lifetime, TokenLifetimeSeconds. rewrite Ht. destruct (gl_ExpiresAt _) as [u|]; [|lia].
    destruct (Before _ _); lia.
  - intros t Ht Hbefore left_ Hlt. apply Hends. split; [|done]. unfold lifetime, TokenLifetimeSeconds. rewrite Ht. unfold Before.
    replace (gd_Now d <? t) with true by lia. fold left_. destruct (gl_MaxTokenTTLSeconds _); lia.
Qed.

Lemma limit_lifetime_store (in_ : AccessTokenInput C) (g : guard_state S) : exists in2 g2,
  limit_lifetime (E := E) d inner_ttl in_ g = (Ok in2, g2, []) /\ gs_store g2 = gs_store g.
Proof. unfold limit_lifetime. destruct (_ && _); [|by eexists _, _]. destruct (_ || _); by eexists _, _. Qed.

(** A signature after an evaluation that passed does not count. *)
Lemma sign_checked tenant2 (in2 : AccessTokenInput C) (g : guard_state S) : is_some (gs_checked g) = true ->
  (Precheck d version inner_ttl tenant2 in2 g).1.1 = Ok tt /\
  gs_store (SignAccessToken d version inner_sign inner_ttl tenant2 in2 g).1.2 = gs_store g.
Proof.
  intros Hc. pose proof (Precheck_run tenant2 in2 g) as Hp. rewrite Hc in Hp. simpl in Hp. split; [by rewrite Hp|].
  unfold SignAccessToken. rewrite (eff_bind_pure _ _ _ _ _ Hp).
  edestruct limit_lifetime_store as (in3 & g2 & Hl & Hs). rewrite (eff_bind_pure _ _ _ _ _ Hl).
  change (gs_store g) with (gs_store {| gs_store := gs_store g; gs_tenantID := tenant2; gs_checked := gs_checked g;
    gs_lifetimeSeconds := gs_lifetimeSeconds g; gs_limited := gs_limited g |}). rewrite <- Hs.
  destruct (inner_sign in3) as [signed|e].
  - rewrite (eff_bind_pure (lift _) _ g2 signed g2) by done.
    destruct (Confirm_run signed.2 g2) as [w3 Hcf]. rewrite (eff_bind_run _ _ _ _ _ _ Hcf). done.
  - rewrite (eff_bind_fails (lift _) _ g2 e g2 []) by done. done.
Qed.

(** Counting is the last thing an evaluation does, and it is done once: as
    long as a layer of any agent denies the request or lacks an approval, no limiter
    is touched, so that a refused agent does not use up the budget of another;
    and an evaluation that passed is used by the signature that follows, for
    whatever input, instead of being counted again. *)
Theorem counting_last_and_once tenantID (in_ : AccessTokenInput C) (g : guard_state S) :
  (gs_store (Precheck d version inner_ttl tenantID in_ g).1.2 = gs_store g \/
   gs_checked g = None /\ exists policies, gd_ListEffective d tenantID (guard_agents d in_) = Ok policies /\ admissible tenantID in_ policies) /\
  ((Precheck d version inner_ttl tenantID in_ g).1.1 = Ok tt ->
   forall tenant2 in2, let g1 := (Precheck d version inner_ttl tenantID in_ g).1.2 in
     (Precheck d version inner_ttl tenant2 in2 g1).1.1 = Ok tt /\
     gs_store (SignAccessToken d version inner_sign inner_ttl tenant2 in2 g1).1.2 = gs_store g1).
Proof.
  rewrite !Precheck_run. destruct (gs_checked g) as [l|] eqn:Hc; simpl is_some; cbv zeta iota.
  { split; [by left|]. intros _ tenant2 in2. cbv zeta. cbn [fst snd]. apply sign_checked. done. }
  set (g0 := {| gs_store := _ |}). split.
  - unfold evaluate_issuance. destruct (guard_agents d in_) as [|first rest] eqn:Hag; [by left|]. rewrite <- Hag.
    destruct (gd_ListEffective _ _ _) as [policies|]; [|by left].
    set (es := guard_evaluations d (guard_agents d in_) policies (guard_request in_)).
    pose proof (reject_denied_store es g0) as Hs1. unfold eff_bind at 1.
    destruct (reject_denied d version es g0) as [[[[]|e] g1] w1] eqn:H1; simpl in Hs1; subst g1; [|by left].
    pose proof (require_waivers_store tenantID in_ es g0) as Hs2. unfold eff_bind at 1.
    destruct (require_waivers d version tenantID in_ es g0) as [[[es'|e] g2] w2] eqn:H2; simpl in Hs2; subst g2; [|by left].
    right. split; [done|]. exists policies. split; [done|]. by apply (checks_passed _ _ _ _ _ _ _ _ _ H1 H2).
  - intros Hok tenant2 in2. destruct (evaluate_issuance d version inner_ttl tenantID in_ g0) as [[[[]|e] g1] w1] eqn:Hrun; [|done].
    cbv zeta. cbn [fst snd]. apply sign_checked. by apply evaluate_issuance_Ok in Hrun as [? _].
Qed.
End proofs.

(** ** The tokens of one agent in a window

    With the memory limiter, and as long as one declaration of a rate without
    approvals is in force for an agent. *)

Section rate.
Context (rate : AgentGuardrailIssuanceRate) (agentID scope : string).
Hypothesis Hagent : agentID <> "".
Hypothesis Hscope : scope = "" \/ scope = agentID.

Notation config := (rate_config rate).

(** The counter of the declaration, [scope] being the one of its layer. *)
Definition rate_key : string := if scope =? "" then "default:" ++ agentID else "agent:" ++ agentID.
Definition rate_counter (l : RateLimiter) : option counter := rl_counters l !! (agentGuardrailRatePolicyID ++ ":" ++ rate_key).

(** Requests to one counter at one time, with their verdicts. *)
Inductive ticks (now : Time) : option counter -> list bool -> option counter -> Prop :=
| ticks_none c : ticks now c [] c
| ticks_one c vs c' : ticks now (Some (tick config c now)) vs c' ->
    ticks now c (rl_Allowed (verdict config (tick config c now) now) :: vs) c'.

Lemma ticks_app now c1 vs1 c2 vs2 c3 : ticks now c1 vs1 c2 -> ticks now c2 vs2 c3 -> ticks now c1 (vs1 ++ vs2) c3.
Proof. induction 1; intros H2; [done|]. simpl. constructor. auto. Qed.

Lemma ticks_run now c vs c' : ticks now c vs c' -> forall ts,
  run_calls config c (repeat now (List.length vs) ++ ts) = (map (pair now) vs ++ run_calls config c' ts)%list.
Proof. induction 1 as [|c vs c' Ht IH]; intros ts; [done|]. simpl. by rewrite IH. Qed.

Context {E C U : Type} `{UserView U}.

(** One issuance, with an issuer of its own. *)
Record issuance := {
  is_deps : AgentGuardrailDeps (E := E) (U := U);
  is_version : AgentGuardrailLimits -> string;
  is_sign : AccessTokenInput C -> result (failure E) (string * string);
  is_ttl : Z;
  is_tenant : string;
  is_input : AccessTokenInput C;
}.

Definition issue (i : issuance) (l : RateLimiter) :=
  SignAccessToken (is_deps i) (is_version i) (is_sign i) (is_ttl i) (is_tenant i) (is_input i) (new_guard l).

Definition is_time (i : issuance) : Time := gd_Now (is_deps i).

(** The agent takes part. *)
Definition involves (i : issuance) : Prop := agentID ∈ guard_agents (is_deps i) (is_input i).

(** The declaration is the only one of its scope that the issuance sees. *)
Definition declared (policies : list AgentGuardrailPolicy) : Prop :=
  exists p, List.filter (fun q => gp_AgentID q =? scope) policies = [p] /\ gl_IssuanceRate (gp_Limits p) = Some rate /\
    ov_IssuanceRate (gl_OnViolation (gp_Limits p)) <> AgentGuardrailRequireApproval.

Definition governed (i : issuance) : Prop := forall policies,
  gd_ListEffective (is_deps i) (is_tenant i) (guard_agents (is_deps i) (is_input i)) = Ok policies -> declared policies.

(** The answers to a sequence of issuances: whether each gave a token in which
    the agent takes part. *)
Fixpoint tokens (calls : list issuance) (l : RateLimiter) : list (Time * bool) :=
  match calls with
  | [] => []
  | i :: calls =>
      let '(r, g, _) := issue i l in
      (is_time i, match r with Ok _ => contains (guard_agents (is_deps i) (is_input i)) agentID | Err _ => false end)
        :: tokens calls (gs_store g)
  end.

Lemma rate_key_inj layer b : applies layer b -> guardrailRateKey layer b = rate_key <-> b = agentID /\ gp_AgentID layer = scope.
Proof using Hagent Hscope.
  intros Happ. unfold guardrailRateKey, rate_key. split.
  - destruct (gp_AgentID layer =? "") eqn:H1; destruct (scope =? "") eqn:H2; go_bool; intros Heq; try done;
      simplify_eq; (split; [done|]); destruct Happ, Hscope; congruence.
  - intros [-> <-]. done.
Qed.

Section one.
Context (i : issuance).
Notation d := (is_deps i).
Notation now := (is_time i).
Notation flow := (eff (guard_state RateLimiter) AgentGuardrailEvaluated (failure E)).

Lemma ask_limiter_run key r (g : guard_state RateLimiter) : exists v g',
  ask_limiter (E := E) d key r g = (Ok (Some v), g', []) /\
  (key = rate_key -> r = rate -> ticks now (rate_counter (gs_store g)) [rl_Allowed v] (rate_counter (gs_store g'))) /\
  (key <> rate_key -> rate_counter (gs_store g') = rate_counter (gs_store g)).
Proof using Hagent Hscope.
  set (l' := AllowWithin agentGuardrailRatePolicyID key (rate_config r) now (gs_store g)).
  exists l'.1, (with_store l'.2 g). split; [reflexivity|]. unfold rate_counter, with_store. cbn [gs_store].
  unfold l', AllowWithin. cbn [fst snd rl_counters]. split.
  - intros -> ->. rewrite lookup_insert_eq. apply ticks_one. apply ticks_none.
  - intros Hne. rewrite lookup_insert_ne; [done|]. intros [= Heq]. done.
Qed.

Lemma requireWaiver_keeps e (in_ : AccessTokenInput C) (g : guard_state RateLimiter) r g' w :
  requireWaiver d (is_version i) (is_tenant i) e in_ g = (r, g', w) ->
  g' = g /\ match r with Ok e' => ev_agentID e' = ev_agentID e | Err _ => True end.
Proof.
  intros Hr. pose proof (requireWaiver_store d (is_version i) (is_tenant i) e in_ g) as Hs. rewrite Hr in Hs. simpl in Hs.
  split; [done|]. destruct r as [e'|]; [|done]. by apply requireWaiver_Ok in Hr as (_ & -> & _).
Qed.

(** The layers of the declaration. *)
Definition scoped (layers : list AgentGuardrailPolicy) : list AgentGuardrailPolicy :=
  List.filter (fun q => gp_AgentID q =? scope) layers.

Definition in_force (q : AgentGuardrailPolicy) : Prop := gp_AgentID q = scope ->
  gl_IssuanceRate (gp_Limits q) = Some rate /\ ov_IssuanceRate (gl_OnViolation (gp_Limits q)) <> AgentGuardrailRequireApproval.

(** What a part of the counting does to the counter: at most [n] requests, and
    one that was allowed when it passes although the declaration applies. *)
Definition counting {A} (n : nat) (must : Prop) (g : guard_state RateLimiter) (r : result (failure E) A) (g' : guard_state RateLimiter) : Prop :=
  exists vs, ticks now (rate_counter (gs_store g)) vs (rate_counter (gs_store g')) /\ (List.length vs <= n)%nat /\
    (forall a, r = Ok a -> must -> true ∈ vs).

Lemma counting_none {A} n (must : Prop) g (r : result (failure E) A) :
  (forall a, r = Ok a -> ~ must) -> counting n must g r g.
Proof. intros Hno. exists []. split_and!; [constructor|simpl; lia|]. intros a Ha Hm. by destruct (Hno a Ha). Qed.

Lemma counting_trans {A B} n1 n2 (m1 m2 must : Prop) (n : nat) g1 (r1 : result (failure E) A) g2 (r2 : result (failure E) B) g3 :
  counting n1 m1 g1 r1 g2 -> counting n2 m2 g2 r2 g3 -> (n1 + n2 <= n)%nat ->
  (forall b, r2 = Ok b -> must -> (exists a, r1 = Ok a /\ m1) \/ m2) -> counting n must g1 r2 g3.
Proof.
  intros (vs1 & Ht1 & Hn1 & Hm1) (vs2 & Ht2 & Hn2 & Hm2) Hn Hmust. exists (vs1 ++ vs2)%list.
  split_and!; [by eapply ticks_app|rewrite length_app; lia|]. intros b Hb Hm. apply elem_of_app.
  destruct (Hmust b Hb Hm) as [(a & Ha & Hma)|Hmb]; [left; by eapply Hm1|right; by eapply Hm2].
Qed.

Lemma counting_weaken {A} n1 n2 (m1 m2 : Prop) g (r : result (failure E) A) g' :
  counting n1 m1 g r g' -> (n1 <= n2)%nat -> (m2 -> m1) -> counting n2 m2 g r g'.
Proof. intros (vs & Ht & Hl & Hm) Hn Himp. exists vs. split_and!; [done|lia|]. intros a Ha Hm2. by apply (Hm a Ha), Himp. Qed.

Lemma ask_counting key r (g : guard_state RateLimiter) : exists v g',
  ask_limiter (E := E) d key r g = (Ok (Some v), g', []) /\
  ((key = rate_key -> r = rate) ->
   counting (if decide (key = rate_key) then 1 else 0) (key = rate_key) g
     (if rl_Allowed v then Ok tt else Err (NewOAuthError "" "")) g').
Proof using Hagent Hscope.
  destruct (ask_limiter_run key r g) as (v & g' & Hrun & H1 & H2). exists v, g'. split; [done|]. intros Hr.
  destruct (decide (key = rate_key)) as [Hk|Hk].
  - exists [rl_Allowed v]. split_and!; [by apply H1, Hr|done|]. intros a Ha _. destruct (rl_Allowed v); [by left|done].
  - exists []. rewrite (H2 Hk). split_and!; [constructor|done|]. done.
Qed.

Lemma consume_layers_ticks (in_ : AccessTokenInput C) layers : forall e (g : guard_state RateLimiter) r g' w,
  Forall (fun q => applies q (ev_agentID e)) layers -> (ev_agentID e = agentID -> Forall in_force layers) ->
  consume_layers d (is_version i) (is_tenant i) in_ layers e g = (r, g', w) ->
  counting (if decide (ev_agentID e = agentID) then List.length (scoped layers) else 0)
    (ev_agentID e = agentID /\ scoped layers <> []) g r g'.
Proof using Hagent Hscope.
  induction layers as [|q layers IH]; intros e g r g' w Happ Hf; cbn [consume_layers].
  { unfold eff_ret. intros [= <- <- <-]. apply counting_none. by intros a _ [_ []]. }
  apply Forall_cons in Happ as [Hq Happ]. pose proof (rate_key_inj q _ Hq) as Hkey.
  assert (Hfq : ev_agentID e = agentID -> in_force q) by (intros He; specialize (Hf He); by apply Forall_cons in Hf as [? _]).
  assert (Hfl : ev_agentID e = agentID -> Forall in_force layers) by (intros He; specialize (Hf He); by apply Forall_cons in Hf as [_ ?]).
  clear Hf. rename Hfl into Hf.
  assert (Hreject : forall (r0 : agentGuardrailResult) o n must,
    guard_reject (A := agentGuardrailEvaluation) d r0 o g = (r, g', w) -> counting n must g r g').
  { intros r0 o n must Hr. assert (g' = g /\ exists e0, r = Err e0) as [-> [e0 ->]].
    { revert Hr. unfold guard_reject, record_result, eff_bind, emit, eff_fail. intros [= <- <- <-]. by split; [|eexists]. }
    apply counting_none. done. }
  unfold scoped. cbn [List.filter]. fold (scoped layers).
  destruct (gl_IssuanceRate _) as [rate'|] eqn:Hrate.
  2:{ intros Hrun. apply IH in Hrun; [|done..]. destruct (decide (ev_agentID e = agentID)) as [He|He].
    - destruct (gp_AgentID q =? scope) eqn:Hs; go_bool; [|done]. destruct (Hfq He Hs); congruence.
    - eapply counting_weaken; [exact Hrun|lia|]. by intros [? _]. }
  destruct (negb (gd_has_Limiter d)); [apply Hreject|].
  intros Hrun. destruct (ask_counting (guardrailRateKey q (ev_agentID e)) rate' g) as (v & g1 & Hask & Hcount).
  rewrite (eff_bind_pure _ _ _ _ _ Hask) in Hrun.
  specialize (Hcount ltac:(intros Hk; apply Hkey in Hk as [He Hk]; destruct (Hfq He Hk) as [Hr _]; congruence)).
  set (key := guardrailRateKey q (ev_agentID e)) in *. set (own := if gp_AgentID q =? scope then q :: scoped layers else scoped layers).
  assert (Hn : ((if decide (key = rate_key) then 1 else 0) + (if decide (ev_agentID e = agentID) then List.length (scoped layers) else 0) <=
                if decide (ev_agentID e = agentID) then List.length own else 0)%nat).
  { unfold own. destruct (decide (key = rate_key)) as [Hk|Hk].
    - apply Hkey in Hk as [He Hk]. destruct (decide (ev_agentID e = agentID)); [|done]. rewrite bool_decide_true by done. simpl. lia.
    - destruct (decide (ev_agentID e = agentID)); [|lia]. destruct (gp_AgentID q =? scope); simpl; lia. }
  assert (Hmust : ev_agentID e = agentID /\ own <> [] -> key = rate_key \/ ev_agentID e = agentID /\ scoped layers <> []).
  { unfold own. intros [He Ho]. destruct (gp_AgentID q =? scope) eqn:Hs; go_bool; [left; by apply Hkey|by right]. }
  destruct (rl_Allowed v) eqn:Hv.
  { apply IH in Hrun; [|done..]. eapply counting_trans; [exact Hcount|exact Hrun|exact Hn|]. intros b _ Hm.
    destruct (Hmust Hm); [left; by exists tt|by right]. }
  assert (Hfail : forall n2 m2, (n2 <= if decide (ev_agentID e = agentID) then List.length (scoped layers) else 0)%nat ->
    counting n2 m2 g1 r g' -> (forall b, r = Ok b -> ev_agentID e = agentID /\ own <> [] -> m2) ->
    counting (if decide (ev_agentID e = agentID) then List.length own else 0) (ev_agentID e = agentID /\ own <> []) g r g').
  { intros n2 m2 Hle Hc2 Hm2. eapply counting_trans; [exact Hcount|exact Hc2|lia|]. intros b Hb Hm. right. by eapply Hm2. }
  destruct (negb (_ =? AgentGuardrailRequireApproval)) eqn:Hact.
  { assert (g' = g1 /\ exists e0, r = Err e0) as [-> [e0 ->]].
    { revert Hrun. unfold guard_reject, record_result, eff_bind, emit, eff_fail. intros [= <- <- <-]. by split; [|eexists]. }
    apply (Hfail 0%nat False); [lia|by apply counting_none|done]. }
  assert (Hk : key <> rate_key) by (intros Hk; apply Hkey in Hk as [He Hk]; destruct (Hfq He Hk) as [_ Hr]; go_bool; congruence).
  assert (Hm2 : ev_agentID e = agentID /\ own <> [] -> ev_agentID e = agentID /\ scoped layers <> []) by (intros Hm; by destruct (Hmust Hm)).
  unfold eff_bind in Hrun.
  destruct (requireWaiver _ _ _ _ _ _) as [[[e1|x] g2] w2] eqn:Hw; apply requireWaiver_keeps in Hw as [-> Hid].
  - destruct (consume_layers _ _ _ _ _ _ _) as [[r3 g3] w3] eqn:H3. injection Hrun as -> -> _.
    cbn in Hid. apply IH in H3; [|by rewrite Hid|by rewrite Hid]. rewrite Hid in H3.
    by apply (Hfail _ _ (le_n _) H3).
  - injection Hrun as <- <- _. apply (Hfail 0%nat False); [lia|by apply counting_none|done].
Qed.

(** An evaluation of one agent, as the policies have it. *)
Definition well_read (e : agentGuardrailEvaluation) : Prop :=
  Forall (fun q => applies q (ev_agentID e)) (ev_layers e) /\
  (ev_agentID e = agentID -> Forall in_force (ev_layers e) /\ (List.length (scoped (ev_layers e)) <= 1)%nat).

Lemma consume_all_ticks (in_ : AccessTokenInput C) es : forall results limited (g : guard_state RateLimiter) r g' w,
  Forall well_read es -> NoDup (map ev_agentID es) ->
  consume_all d (is_version i) (is_ttl i) (is_tenant i) in_ es results limited g = (r, g', w) ->
  counting (if decide (agentID ∈ map ev_agentID es) then 1 else 0)
    (exists e, e ∈ es /\ ev_agentID e = agentID /\ scoped (ev_layers e) <> []) g r g'.
Proof using Hagent Hscope.
  induction es as [|e es IH]; intros results limited g r g' w Hwr Hnd; cbn [consume_all].
  { unfold eff_ret. intros [= <- <- <-]. apply counting_none. intros a _ (e & He & _). by apply not_elem_of_nil in He. }
  apply Forall_cons in Hwr as [[Happ Hf] Hwr]. cbn [map] in Hnd. apply NoDup_cons in Hnd as [Hnin Hnd].
  intros Hrun. unfold eff_bind, consumeRates in Hrun.
  destruct (consume_layers _ _ _ _ _ _ _) as [[r1 g1] w1] eqn:H1. apply consume_layers_ticks in H1; [|done|by apply Hf].
  assert (Hn1 : ((if decide (ev_agentID e = agentID) then List.length (scoped (ev_layers e)) else 0) +
    (if decide (agentID ∈ map ev_agentID es) then 1 else 0) <= if decide (agentID ∈ map ev_agentID (e :: es)) then 1 else 0)%nat).
  { cbn [map]. destruct (decide (ev_agentID e = agentID)) as [He|He].
    - destruct (Hf He) as [_ Hle]. rewrite (decide_False (P := agentID ∈ map ev_agentID es)) by (by rewrite <- He).
      rewrite (decide_True (P := agentID ∈ _ :: _)) by (rewrite He; by left). lia.
    - destruct (decide (agentID ∈ map ev_agentID es)); [|lia]. rewrite decide_True by by right. lia. }
  destruct r1 as [e1|x].
  - destruct (consume_all _ _ _ _ _ _ _ _ _) as [[r2 g2] w2] eqn:H2. injection Hrun as <- <- _. apply IH in H2; [|done..].
    eapply counting_trans; [exact H1|exact H2|exact Hn1|]. intros b Hb (e0 & [-> |He0]%elem_of_cons & Hid & Hne).
    + left. by exists e1.
    + right. by exists e0.
  - injection Hrun as <- <- _. eapply counting_trans with (n2 := 0%nat) (m2 := False); [exact H1|by apply counting_none|lia|done].
Qed.
End one.

Lemma scoped_layers policies : scoped (guardrailLayers policies agentID) = scoped policies.
Proof using Hscope.
  unfold scoped, guardrailLayers. induction policies as [|q l IH]; [done|]. cbn [List.filter].
  destruct (gp_AgentID q =? scope) eqn:Hs; go_bool.
  - replace ((gp_AgentID q =? "") || (gp_AgentID q =? agentID)) with true.
    + cbn [List.filter]. by rewrite (bool_decide_true _ Hs), IH.
    + symmetry. apply orb_true_iff. rewrite !bool_decide_eq_true. rewrite Hs. by destruct Hscope; [left|right].
  - destruct (_ || _); [|done]. cbn [List.filter]. by rewrite (bool_decide_false _ Hs), IH.
Qed.

Lemma elem_of_scoped policies q : q ∈ scoped policies <-> q ∈ policies /\ gp_AgentID q = scope.
Proof. unfold scoped. rewrite list_elem_of_In, filter_In, <- list_elem_of_In, bool_decide_eq_true. done. Qed.

Lemma declared_layers policies : declared policies ->
  exists p, scoped policies = [p] /\ forall q, q ∈ policies -> in_force q.
Proof.
  intros (p & Hp & Hr & Ha). exists p. split; [done|]. intros q Hq Hs.
  assert (q ∈ scoped policies) as Hin by by apply elem_of_scoped. unfold scoped in Hin. rewrite Hp in Hin.
  by apply list_elem_of_singleton in Hin as ->.
Qed.

Lemma evaluations_agents i policies req agents :
  map ev_agentID (guard_evaluations (is_deps i) agents policies req) `sublist_of` agents.
Proof.
  unfold guard_evaluations. induction agents as [|a agents IH]; [done|]. cbn [omap list_omap].
  destruct (guardrailLayers policies a); [by apply sublist_cons|]. cbn. by apply sublist_skip.
Qed.

Lemma evaluations_layers i policies req agents e : e ∈ guard_evaluations (is_deps i) agents policies req ->
  ev_agentID e ∈ agents /\ ev_layers e = guardrailLayers policies (ev_agentID e).
Proof.
  unfold guard_evaluations. intros (a & Ha & He)%list_elem_of_omap.
  destruct (guardrailLayers policies a) as [|q l] eqn:Hl; [done|]. injection He as <-. cbn. by rewrite Hl.
Qed.

Lemma map_lookup {A B} (f : A -> B) (l : list A) k : map f l !! k = f <$> l !! k.
Proof. exact (list_lookup_fmap f l k). Qed.

Lemma evaluate_counts i (g : guard_state RateLimiter) r g' w : (involves i -> governed i) ->
  evaluate_issuance (is_deps i) (is_version i) (is_ttl i) (is_tenant i) (is_input i) g = (r, g', w) ->
  counting i 1 (involves i) g r g'.
Proof using Hagent Hscope.
  intros Hgov. unfold evaluate_issuance. destruct (guard_agents _ _) as [|first rest] eqn:Hag.
  { intros Hrun. assert (g' = {| gs_store := gs_store g; gs_tenantID := gs_tenantID g; gs_checked := Some []; 
      gs_lifetimeSeconds := gs_lifetimeSeconds g; gs_limited := gs_limited g |}) as -> by (revert Hrun; by intros [= _ <- _]).
    exists []. split_and!; [constructor|simpl; lia|]. intros a _ Hin. unfold involves in Hin. rewrite Hag in Hin. by apply not_elem_of_nil in Hin. }
  rewrite <- Hag. set (agents := guard_agents (is_deps i) (is_input i)) in *.
  destruct (gd_ListEffective _ _ _) as [policies|x] eqn:Hpol.
  2:{ intros Hrun. assert (g' = g /\ exists e, r = Err e) as [-> [e ->]] by (revert Hrun; intros [= <- <- _]; by split; [|eexists]).
    by apply counting_none. }
  set (es := guard_evaluations (is_deps i) agents policies (guard_request (is_input i))).
  unfold eff_bind at 1. pose proof (reject_denied_store (is_deps i) (is_version i) es g) as Hs1.
  destruct (reject_denied _ _ es g) as [[[[]|e] g1] w1] eqn:H1; simpl in Hs1; subst g1; [|intros [= <- <- _]; by apply counting_none].
  unfold eff_bind at 1. pose proof (require_waivers_store (is_deps i) (is_version i) (is_tenant i) (is_input i) es g) as Hs2.
  destruct (require_waivers _ _ _ _ es g) as [[[es'|e] g2] w2] eqn:H2; simpl in Hs2; subst g2; [|intros [= <- <- _]; by apply counting_none].
  destruct (checks_passed _ _ _ _ _ _ _ _ _ _ _ H1 H2) as (_ & Hlay & Hids).
  change (map ev_layers es' = map ev_layers es) in Hlay. change (map ev_agentID es' = map ev_agentID es) in Hids.
  assert (Hread : forall e, e ∈ es' -> ev_agentID e ∈ agents /\ ev_layers e = guardrailLayers policies (ev_agentID e)).
  { intros e [k Hk]%list_elem_of_lookup. assert (Hk1 := f_equal (lookup k) Hlay). assert (Hk2 := f_equal (lookup k) Hids).
    rewrite !map_lookup, Hk in Hk1. rewrite !map_lookup, Hk in Hk2. destruct (es !! k) as [e0|] eqn:He0; simpl in Hk1, Hk2; [|congruence].
    injection Hk1 as ->. injection Hk2 as ->. apply (evaluations_layers i policies (guard_request (is_input i))).
    by eapply list_elem_of_lookup_2. }
  assert (Hnd : NoDup (map ev_agentID es')).
  { rewrite Hids. eapply sublist_NoDup; [|apply evaluations_agents]. apply MergeAgentChain_NoDup. }
  assert (Hwr : Forall (well_read) es').
  { apply Forall_forall. intros e He. destruct (Hread e He) as [Hin Hl]. split.
    - apply Forall_forall. intros q Hq. rewrite Hl in Hq. by apply elem_of_guardrailLayers in Hq as [_ ?].
    - intros Hid. rewrite Hid in Hin. destruct (declared_layers policies) as (p & Hp & Hforce); [by apply Hgov|].
      rewrite Hl, Hid, scoped_layers, Hp. split; [|done]. apply Forall_forall. intros q Hq.
      apply elem_of_guardrailLayers in Hq as [Hq _]. by apply Hforce. }
  destruct (consume_all (is_deps i) (is_version i) (is_ttl i) (is_tenant i) (is_input i) es' [] 0%Z g) as [[r3 g3] w3] eqn:Hall.
  pose proof (consume_all_ticks i _ _ _ _ _ _ _ _ Hwr Hnd Hall) as H3.
  assert (Hdec : ((if decide (agentID ∈ map ev_agentID es') then 1 else 0) <= 1)%nat) by (destruct (decide _); lia).
  assert (Hmust : involves i -> exists e, e ∈ es' /\ ev_agentID e = agentID /\ scoped (ev_layers e) <> []).
  { intros Hin. destruct (declared_layers policies) as (p & Hp & _); [by apply Hgov|].
    assert (Hpl : p ∈ scoped policies) by (rewrite Hp; by left). apply elem_of_scoped in Hpl as [Hpl Hps].
    destruct (elem_of_guard_evaluations (is_deps i) agents policies (guard_request (is_input i)) agentID p) as [He _];
      [done|done|unfold applies; rewrite Hps; by destruct Hscope; [left|right]|].
    fold es in He. assert (agentID ∈ map ev_agentID es') as Hm.
    { rewrite Hids. apply list_elem_of_fmap. eexists. split; [|exact He]. done. }
    apply list_elem_of_fmap in Hm as (e & Hid & He'). exists e. split; [done|]. split; [done|].
    destruct (Hread e He') as [_ Hl]. assert (Hid2 : ev_agentID e = agentID) by done. by rewrite Hl, Hid2, scoped_layers, Hp. }
  intros Hrun. unfold eff_bind in Hrun. rewrite Hall in Hrun. destruct H3 as (vs & Ht & Hlen & Hm). exists vs.
  destruct r3 as [[res lim]|x]; [unfold set_checked in Hrun|]; injection Hrun as <- <- _; (split_and!; [done|lia|]);
    [|done]. intros [] _ Hin. eapply Hm; [done|]. by apply Hmust.
Qed.

(** An issuance asks the counter at most once, and a token of the agent is one
    that the counter allowed. *)
Lemma issue_counts i l r g w : (involves i -> governed i) -> issue i l = (r, g, w) ->
  exists vs, ticks (is_time i) (rate_counter l) vs (rate_counter (gs_store g)) /\ (List.length vs <= 1)%nat /\
    (forall a, r = Ok a -> involves i -> true ∈ vs).
Proof using Hagent Hscope.
  intros Hgov. unfold issue, SignAccessToken. unfold eff_bind at 1. rewrite Precheck_run. simpl is_some. cbv iota zeta.
  set (g0 := {| gs_store := _ |}).
  destruct (evaluate_issuance _ _ _ _ _ g0) as [[[[]|e] g1] w1] eqn:Hev.
  2:{ intros [= <- <- _]. apply evaluate_counts in Hev as (vs & Ht & Hl & Hm); [|done]. exists vs. split_and!; [done|done|done]. }
  pose proof Hev as Hchk. apply evaluate_issuance_Ok in Hchk as [Hchk _].
  apply evaluate_counts in Hev as (vs & Ht & Hl & Hm); [|done].
  destruct (limit_lifetime_store (E := E) (is_deps i) (is_ttl i) (is_input i) g1) as (in3 & g2 & Hll & Hs). rewrite (eff_bind_pure _ _ _ _ _ Hll).
  assert (Hdone : forall r2 g3, gs_store g3 = gs_store g2 -> r2 = r -> g3 = g -> exists vs0, ticks (is_time i) (rate_counter l) vs0 (rate_counter (gs_store g)) /\
    (List.length vs0 <= 1)%nat /\ (forall a, r = Ok a -> involves i -> true ∈ vs0)).
  { intros r2 g3 H3 _ <-. exists vs. rewrite H3, Hs. split_and!; [exact Ht|done|]. intros a _ Hin. by eapply Hm. }
  destruct (is_sign i in3) as [signed|e] eqn:Hi.
  - rewrite (eff_bind_pure (lift _) _ g2 signed g2) by done.
    destruct (Confirm_run (is_deps i) signed.2 g2) as [w3 Hcf]. rewrite (eff_bind_run _ _ _ _ _ _ Hcf).
    intros [= <- <- _]. by apply (Hdone (Ok signed) (confirmed g2)).
  - rewrite (eff_bind_fails (lift _) _ g2 e g2 []) by done. intros [= <- <- _]. by apply (Hdone (Err e) g2).
Qed.

(** The tokens are among the answers of one counter. *)
Lemma tokens_run calls : forall l, Forall (fun i => involves i -> governed i) calls ->
  exists ts, ts `sublist_of` map is_time calls /\
    forall t n, (allowed_in t n (tokens calls l) <= allowed_in t n (run_calls config (rate_counter l) ts))%Z.
Proof using Hagent Hscope.
  induction calls as [|i calls IH]; intros l Hgov; [exists []; split; [done|intros t n; unfold allowed_in; simpl; lia]|].
  apply Forall_cons in Hgov as [Hg Hgov]. cbn [tokens]. destruct (issue i l) as [[r g] w] eqn:Hi.
  destruct (issue_counts i l r g w Hg Hi) as (vs & Ht & Hl & Hm). destruct (IH (gs_store g) Hgov) as (ts & Hts & Hle).
  assert (Htok : match r with Ok _ => contains (guard_agents (is_deps i) (is_input i)) agentID | Err _ => false end = true -> true ∈ vs).
  { destruct r as [a|]; [|done]. intros Hc. apply contains_true in Hc. by eapply Hm. }
  exists (repeat (is_time i) (List.length vs) ++ ts)%list. split.
  - destruct vs as [|v [|]]; cbn in *; [by apply sublist_cons|by apply sublist_skip|lia].
  - intros t n. rewrite (ticks_run _ _ _ _ Ht), allowed_in_cons. specialize (Hle t n).
    destruct (match r with Ok _ => _ | Err _ => _ end) eqn:Hb.
    + specialize (Htok eq_refl). destruct vs as [|v [|]]; [by apply not_elem_of_nil in Htok| |simpl in Hl; lia].
      apply list_elem_of_singleton in Htok as <-. cbn [map app]. rewrite allowed_in_cons. cbn [fst snd andb]. lia.
    + cbn [andb]. destruct vs as [|v [|]]; [simpl; lia| |simpl in Hl; lia]. cbn [map app]. rewrite allowed_in_cons.
      destruct (v && (t <=? is_time i) && (is_time i <? t + n)%Z); lia.
Qed.

Lemma sublist_sorted (ts l : list Z) : ts `sublist_of` l -> Sorted Z.le l -> Sorted Z.le ts.
Proof.
  intros Hs Hl. apply StronglySorted_Sorted. apply Sorted_StronglySorted in Hl; [|intros x y z; lia].
  induction Hs as [|x l1 l2 Hs IH|x l1 l2 Hs IH]; [constructor|..]; apply StronglySorted_inv in Hl as [Hl Hx].
  - constructor; [by apply IH|]. apply Forall_forall. intros y Hy. rewrite Forall_forall in Hx. apply Hx.
    by eapply elem_of_sublist.
  - by apply IH.
Qed.

(** The rate of a guardrail bounds the tokens of its agent: however many
    issuances of whatever clients arrive, no interval as long as the window of the
    declaration sees more than twice its number of tokens in which the agent takes
    part, as requester, holder or in the chain, as long as this declaration, which
    no approval waives, is in force and the clock does not run backwards. *)
Theorem agent_issuance_bound calls configs t :
  Forall (fun i => involves i -> governed i) calls -> Sorted Z.le (map is_time calls) ->
  (0 < ir_WindowSeconds rate <= agentGuardrailMaxWindowSeconds)%Z -> (1 <= MaxIssuances rate)%Z ->
  (Z.of_nat (List.length calls) < max_int64)%Z ->
  (allowed_in t (ir_WindowSeconds rate * Second) (tokens calls (NewRateLimiter configs)) <= 2 * MaxIssuances rate)%Z.
Proof using Hagent Hscope.
  intros Hgov Hsort Hw Hm Hlen. destruct (tokens_run calls (NewRateLimiter configs) Hgov) as (ts & Hts & Hle).
  etrans; [apply Hle|]. assert (rate_counter (NewRateLimiter configs) = None) as -> by apply lookup_empty.
  apply (run_calls_bound config ts t).
  - unfold agentGuardrailMaxWindowSeconds in Hw. simpl. lia.
  - simpl. lia.
  - by eapply sublist_sorted.
  - apply sublist_length in Hts. rewrite length_map in Hts.
    eapply Z.le_lt_trans; [|exact Hlen]. apply inj_le. exact Hts.
Qed.
End rate.

(** ** Policies *)

(** Of two changes to the same version only the first is saved, unless it left the
    limits as they were. *)
Lemma second_save_conflicts marshal p q expected r : gp_TenantID q = gp_TenantID p -> gp_AgentID q = gp_AgentID p ->
  (guardrail_Save marshal p expected r).1 = Ok tt -> Limits_Version marshal (gp_Limits p) <> expected ->
  (guardrail_Save marshal q expected (guardrail_Save marshal p expected r).2).1 = Err ErrAgentGuardrailConflict.
Proof.
  intros Ht Ha. unfold guardrail_Save. rewrite Ht, Ha. destruct (_ <>? expected); [done|]. intros _ Hne. cbn [snd].
  unfold AgentGuardrailPolicyRepository in *. rewrite lookup_insert_eq. by rewrite bool_decide_false.
Qed.

(** ** Witnesses: an agent with a rate *)

#[local] Instance demo_owner_view : UserView string := {| user_ID u := u; user_TenantID _ := "acme"; user_IsActive _ := true |}.

Definition demo_actions : AgentGuardrailOnViolation :=
  {| ov_AllowedResources := ""; ov_AllowedAuthorizationDetailTypes := ""; ov_IssuanceRate := AgentGuardrailDeny; ov_ExpiresAt := "" |}.

Definition demo_rate : AgentGuardrailIssuanceRate := {| MaxIssuances := 1; ir_WindowSeconds := 60 |}.

Definition demo_guardrail : AgentGuardrailPolicy :=
  {| gp_TenantID := "acme"; gp_AgentID := "bot"; gp_UpdatedAt := 1%Z;
     gp_Limits := {| gl_AllowedResources := Some ["https://mail"]; gl_AllowedAuthorizationDetailTypes := None;
       gl_IssuanceRate := Some demo_rate; gl_MaxTokenTTLSeconds := Some 60%Z; gl_ExpiresAt := None; gl_MaxDelegationDepth := None;
       gl_RequireApproval := false; gl_OnViolation := demo_actions |} |}.

Definition demo_policies : AgentGuardrailPolicyRepository := {[guardrailKey "acme" "bot" := demo_guardrail]}.

Definition demo_guard_deps (now : Time) : AgentGuardrailDeps (E := string) (U := string) :=
  {| gd_ListEffective t agents := Ok (ListEffective t agents demo_policies); gd_has_Limiter := true; gd_AgentRepo := None;
     gd_UserRepo := None; gd_ClientID := "app"; gd_GrantType := "client_credentials"; gd_RequestID := "r"; gd_RequestingAgentID := "bot";
     gd_Now := now |}.

Definition demo_guard_input (resource : string) : AccessTokenInput string :=
  {| at_Client := "app"; at_Sub := "app"; at_Scopes := ["mail"]; at_SenderConstraint := None; at_AuthTime := 0; at_AMR := [];
     at_ACR := ""; at_AgentID := ""; at_AgentChain := []; at_ApprovalRequestID := ""; at_Audiences := [resource];
     at_AuthorizationDetails := []; at_ExpiresAt := 0; at_Managed := false; at_Act := None |}.

Definition demo_guard_sign : AccessTokenInput string -> result (failure string) (string * string) := fun inp => Ok (at_Sub inp, "jti").
Definition demo_version : AgentGuardrailLimits -> string := fun _ => "v1".

Definition demo_issue_at (resource : string) (now : Time) : issuance (E := string) (C := string) (U := string) :=
  {| is_deps := demo_guard_deps now; is_version := demo_version; is_sign := demo_guard_sign; is_ttl := 300; is_tenant := "acme";
     is_input := demo_guard_input resource |}.

Definition demo_now : Time := from_unix 1000.
Definition demo_signed := issue (demo_issue_at "https://mail" demo_now) (NewRateLimiter ∅).
Definition demo_refused :=
  Precheck (C := string) (demo_guard_deps demo_now) demo_version 300 "acme" (demo_guard_input "https://files")
    (new_guard (NewRateLimiter ∅)).

Lemma demo_signed_run : demo_signed = (Ok ("app", "jti"), demo_signed.1.2, demo_signed.2).
Proof. vm_compute. reflexivity. Qed.

Lemma demo_valid agents policies : gd_ListEffective (demo_guard_deps demo_now) "acme" agents = Ok policies ->
  Forall (fun p => Limits_Validate (gp_Limits p) = Ok tt) policies.
Proof.
  intros [= <-]. apply Forall_forall. intros p (scope & _ & Hp)%list_elem_of_omap.
  unfold demo_policies in Hp. apply lookup_singleton_Some in Hp as [_ <-]. vm_compute. reflexivity.
Qed.

Lemma guarded_token_witness : exists issued agents policies : _,
  demo_guard_sign issued = Ok ("app", "jti") /\ issued = with_expiry (at_ExpiresAt _ issued) (demo_guard_input "https://mail") /\
  gd_ListEffective (demo_guard_deps demo_now) "acme" agents = Ok policies /\
  (demo_guardrail ∈ policies -> at_ExpiresAt _ issued <= 1060)%Z.
Proof.
  destruct (guarded_token (demo_guard_deps demo_now) demo_version demo_guard_sign 300 "acme" (demo_guard_input "https://mail")
    (new_guard (NewRateLimiter ∅)) ("app", "jti") demo_signed.1.2 demo_signed.2 demo_signed_run eq_refl
    ltac:(lia) ltac:(vm_compute; discriminate) ltac:(vm_compute; discriminate) demo_valid) as (issued & agents & H1 & H2 & _ & Hin & Hrest).
  assert (Hbot : "bot" ∈ agents) by (apply Hin; split; [done|by left]).
  destruct Hrest as (policies & answers & Hp & Hlay & _); [intros ->; by apply elem_of_nil in Hbot|].
  exists issued, agents, policies. split_and!; [exact H1|exact H2|exact Hp|]. intros Hd.
  destruct (Hlay "bot" demo_guardrail Hbot Hd) as [_ Httl _]; [by right|]. destruct (Httl 60%Z) as [_ Hle]; [reflexivity|lia|]. exact Hle.
Defined.

Lemma demo_refused_run :
  demo_refused = (Err (NewOAuthError "access_denied" "The token request was denied."), demo_refused.1.2, demo_refused.2).
Proof. vm_compute. reflexivity. Qed.

Lemma guardrail_refusal_witness : gs_checked demo_refused.1.2 = None /\
  exists ev, demo_refused.2 = [ev] /\ ge_TokenID ev = "" /\ ge_TenantID ev = "acme".
Proof.
  destruct (guardrail_refusal (demo_guard_deps demo_now) demo_version 300 "acme" (demo_guard_input "https://files")
    (new_guard (NewRateLimiter ∅)) _ demo_refused.1.2 demo_refused.2 demo_refused_run) as (_ & H & ev & H1 & H2 & H3 & _).
  split; [exact H|]. exists ev. split; [exact H1|]. split; [exact H2|exact H3].
Defined.

(** The refused request left the limiter as it was. *)
Lemma counting_last_and_once_witness :
  gs_store demo_refused.1.2 = NewRateLimiter ∅ \/ gs_checked (new_guard (NewRateLimiter ∅)) = None /\
  exists policies, gd_ListEffective (demo_guard_deps demo_now) "acme" ["bot"] = Ok policies /\
    admissible (demo_guard_deps demo_now) "acme" (demo_guard_input "https://files") policies.
Proof.
  exact (proj1 (counting_last_and_once (demo_guard_deps demo_now) demo_version demo_guard_sign 300 "acme"
    (demo_guard_input "https://files") (new_guard (NewRateLimiter ∅)))).
Defined.

Definition demo_issuances : list (issuance (E := string) (C := string) (U := string)) :=
  map (fun s => demo_issue_at "https://mail" (from_unix s)) [1000; 1030; 1061]%Z.

Lemma demo_declared : declared demo_rate "bot" [demo_guardrail].
Proof. exists demo_guardrail. by split_and!. Qed.

(** One token, a refusal, and a token of the next window. *)
Lemma agent_issuance_bound_witness :
  map snd (tokens "bot" demo_issuances (NewRateLimiter ∅)) = [true; false; true] /\
  (allowed_in (from_unix 1001) (60 * Second) (tokens "bot" demo_issuances (NewRateLimiter ∅)) <= 2)%Z.
Proof.
  split; [vm_compute; reflexivity|].
  apply (agent_issuance_bound demo_rate "bot" "bot" ltac:(discriminate) ltac:(by right) demo_issuances ∅ (from_unix 1001)).
  - assert (Hg : forall s, governed demo_rate "bot" (demo_issue_at "https://mail" (from_unix s))).
    { intros s policies. unfold demo_issue_at. simpl. intros [= <-]. apply demo_declared. }
    repeat (apply Forall_cons; split; [intros _; apply Hg|]). apply Forall_nil_2.
  - apply (bool_decide_unpack _). vm_compute. exact I.
  - vm_compute. split; [reflexivity|discriminate].
  - vm_compute. discriminate.
  - vm_compute. reflexivity.
Defined.
