(* ===== verification/ResourceRules.v ===== *)
(** * OAuth2: the rules of a resource server

    [backend/oauth2/domain/resource_access.go], [resource_access_limit.go],
    [resource_access_condition.go], [resource_tool.go] and
    [mcp_resource_server.go]: the registration of a resource server with the
    operations it may ask about, each with its scopes, details, approval,
    condition and limits.

    The library of expressions (CEL), the parser of URLs and the encoder of JSON
    are parameters.  The theorems: the keys of two counters are equal only when
    they count the same thing, and a registration that passes its validation
    names every operation once. *)

From Stdlib Require Import Ascii String ZArith Lia.
From stdpp Require Import base strings list gmap sorting.
From S2P Require Import Prelude GoStrings Crypto Rules Urls AccessModel RichAuthorization Device Jose Quote.

Local Open Scope string_scope.
Local Open Scope go_scope.

(** ** Limits *)

Definition ResourceAccessLimitUnit := string.
Definition ResourceAccessLimitByAgent : ResourceAccessLimitUnit := "agent".
Definition ResourceAccessLimitByUser : ResourceAccessLimitUnit := "user".
Definition ResourceAccessLimitByResource : ResourceAccessLimitUnit := "resource".

Record ResourceAccessLimit := {
  By : list ResourceAccessLimitUnit;
  limit_MaxRequests : Z;
  limit_WindowSeconds : Z;
}.

Record ResourceAccessLimitSubject := { ls_AgentID : string; ls_UserID : string; ls_ResourceID : string }.

Definition MaxResourceAccessLimits : Z := 8.
Definition maxResourceAccessLimitCount : Z := 1000000000.
Definition maxResourceAccessLimitWindow : Z := 30 * 24 * 60 * 60.

Definition limit_units (subject : ResourceAccessLimitSubject) : list (ResourceAccessLimitUnit * string) :=
  [(ResourceAccessLimitByAgent, ls_AgentID subject); (ResourceAccessLimitByUser, ls_UserID subject);
   (ResourceAccessLimitByResource, ls_ResourceID subject)].

Definition unitsKey (l : ResourceAccessLimit) : string := Join (merge_sort String.le (By l)) ",".

(** The order of [slices.SortedFunc]: more units first, then the shorter
    window, then the text of the units. *)
Definition limit_before (a b : ResourceAccessLimit) : Prop :=
  (length (By b) < length (By a))%nat \/
  (length (By a) = length (By b) /\
   ((limit_WindowSeconds a < limit_WindowSeconds b)%Z \/
    (limit_WindowSeconds a = limit_WindowSeconds b /\ String.le (unitsKey a) (unitsKey b)))).

#[export] Instance limit_before_dec : RelDecision limit_before.
Proof. intros a b. unfold limit_before. apply _. Defined.

Definition limit_keys (l : ResourceAccessLimit) : string * Z := (unitsKey l, limit_WindowSeconds l).

(** The loop over the units of a limit, with those seen. *)
Fixpoint validate_units (seen units : list ResourceAccessLimitUnit) : result string unit :=
  match units with
  | [] => Ok tt
  | unit_ :: units =>
      reject negb (contains [ResourceAccessLimitByAgent; ResourceAccessLimitByUser; ResourceAccessLimitByResource] unit_) with
        "access_rules limits by must be agent, user or resource" in
      reject contains seen unit_ with "access_rules limits by must not repeat a unit" in
      validate_units (unit_ :: seen) units
  end.

(** The pairs seen are joined by a vertical bar in the code, which no unit has. *)
Fixpoint validate_limits (seen : list (string * Z)) (limits : list ResourceAccessLimit) : result string unit :=
  match limits with
  | [] => Ok tt
  | limit :: limits =>
      reject (limit_MaxRequests limit <? 1) || (maxResourceAccessLimitCount <? limit_MaxRequests limit) with
        "access_rules limits max_requests must be between 1 and %d" in
      reject (limit_WindowSeconds limit <? 1) || (maxResourceAccessLimitWindow <? limit_WindowSeconds limit) with
        "access_rules limits window_seconds must be between 1 and %d" in
      let? _ := validate_units [] (By limit) in
      reject contains seen (limit_keys limit) with
        "access_rules limits must not repeat a by and window_seconds pair" in
      validate_limits (limit_keys limit :: seen) limits
  end.

Definition validateResourceAccessLimits (limits : list ResourceAccessLimit) : result string unit :=
  reject MaxResourceAccessLimits <? Z.of_nat (length limits) with "access_rules limits must not exceed %d" in
  validate_limits [] limits.

Section bucket.
Context (printable : N -> bool).

(** The loop of [Bucket] over the units, after the text written so far. *)
Fixpoint write_units (by_ : list ResourceAccessLimitUnit) (units : list (ResourceAccessLimitUnit * string)) (bucket : string) :
    option string :=
  match units with
  | [] => Some bucket
  | (name, value) :: units =>
      if negb (contains by_ name) then write_units by_ units bucket
      else if value =? "" then None
      else write_units by_ units (bucket ++ ":" ++ name ++ "=" ++ Quote printable value)
  end.

Definition Bucket (l : ResourceAccessLimit) (subject : ResourceAccessLimitSubject) : option string :=
  write_units (By l) (limit_units subject) (FormatInt (limit_WindowSeconds l)).
End bucket.

(** ** Conditions *)

Definition MaxConditionExpressionBytes : Z := 1024.

Definition ConditionOutcome := string.
Definition ConditionAllow : ConditionOutcome := "allow".
Definition ConditionDeny : ConditionOutcome := "deny".
Definition ConditionRequireApproval : ConditionOutcome := "require_approval".
Definition ConditionIndeterminate : ConditionOutcome := "indeterminate".

(** A claim or an attribute that an expression reads. *)
Inductive condition_value :=
| CString (s : string)
| CStrings (l : list string)
| CInt (z : Z)
| CField (v : field_value).

Record ConditionInput := {
  ci_Token : gmap string condition_value;
  ci_Operation : gmap string condition_value;
  ci_Now : Time;
  ci_Attributes : gmap string field_value;
}.

(** The library of expressions: an environment that compiles an expression, the
    type of its result, the program with the bounded cost, and its evaluation,
    whose result is a truth value or something else. *)
Record Cel := {
  cel_ast : Type;
  cel_Compile : string -> option cel_ast;
  cel_is_bool : cel_ast -> bool;
  cel_Program : cel_ast -> option (ConditionInput -> option (option bool));
}.

Record ResourceAccessCondition := {
  DenyWhen : string;
  RequireApprovalWhen : string;
  ApprovalDetailType : string;
}.

Section conditions.
Context (lib : Library) (cel : Cel).

Definition Condition_Version (c : ResourceAccessCondition) : string :=
  hex_EncodeToString (Sum256 (bytes_of
    (Marshal lib (JArray [JString (DenyWhen c); JString (RequireApprovalWhen c); JString (ApprovalDetailType c)])))).

Definition compileCondition (expression : string) : option (ConditionInput -> option (option bool)) :=
  if MaxConditionExpressionBytes <? len expression then None
  else match cel_Compile cel expression with
  | None => None
  | Some ast => if negb (cel_is_bool cel ast) then None else cel_Program cel ast
  end.

Fixpoint validate_expressions (expressions : list string) : result string unit :=
  match expressions with
  | [] => Ok tt
  | expression :: rest =>
      if expression =? "" then validate_expressions rest
      else match compileCondition expression with
           | None => Err "access_rules condition: %w"
           | Some _ => validate_expressions rest
           end
  end.

Definition Condition_Validate (c : ResourceAccessCondition) : result string unit :=
  reject (DenyWhen c =? "") && (RequireApprovalWhen c =? "") with
    "access_rules condition needs deny_when or require_approval_when" in
  reject negb (bool_decide ((RequireApprovalWhen c =? "") = (ApprovalDetailType c =? ""))) with
    "access_rules condition require_approval_when and approval_detail_type must be set together" in
  validate_expressions [DenyWhen c; RequireApprovalWhen c].

Definition evaluateConditionExpression (expression : string) (vars : ConditionInput) : option bool :=
  if expression =? "" then Some false
  else match compileCondition expression with
  | None => None
  | Some program => mjoin (program vars)
  end.

Definition Condition_Evaluate (c : ResourceAccessCondition) (vars : ConditionInput) : ConditionOutcome :=
  match evaluateConditionExpression (DenyWhen c) vars with
  | None => ConditionIndeterminate
  | Some true => ConditionDeny
  | Some false =>
      match evaluateConditionExpression (RequireApprovalWhen c) vars with
      | None => ConditionIndeterminate
      | Some true => ConditionRequireApproval
      | Some false => ConditionAllow
      end
  end.
End conditions.

(** ** Rules *)

Record ResourceAccessTool := {
  tool_ID : string;
  AssignmentResourceID : string;
  tool_Name : string;
  DisplayName : string;
  ResourceIDArgument : string;
}.

Record ResourceAccessRule := {
  rule_Tool : option ResourceAccessTool;
  rule_ResourceType : string;
  rule_Relation : string;
  rule_Scopes : list string;
  AuthorizationDetailType : string;
  RequiresApprovedOperation : bool;
  rule_Condition : option ResourceAccessCondition;
  rule_Limits : list ResourceAccessLimit;
  TokenExchangeResources : list string;
}.

(** [ResourceAccessRule{}]. *)
Definition zero_rule : ResourceAccessRule :=
  {| rule_Tool := None; rule_ResourceType := ""; rule_Relation := ""; rule_Scopes := []; AuthorizationDetailType := "";
     RequiresApprovedOperation := false; rule_Condition := None; rule_Limits := []; TokenExchangeResources := [] |}.

Definition OrderedLimits (r : ResourceAccessRule) : list ResourceAccessLimit := merge_sort limit_before (rule_Limits r).

Definition PermitsTokenExchange (r : ResourceAccessRule) (resource : string) : bool := contains (TokenExchangeResources r) resource.

Definition PermitsDetails (r : ResourceAccessRule) (details : list AuthorizationDetail) (resource resourceID : string) : bool :=
  if AuthorizationDetailType r =? "" then true
  else existsb (fun d =>
    (detail_Type d =? AuthorizationDetailType r) && contains (Locations d) resource && contains (Actions d) (rule_Relation r) &&
    ((Identifier d =? "") || (Identifier d =? resourceID))) details.

(** The registration; what the token endpoints read of it is [srv_mcp]. *)
Record ResourceServer := {
  srv_mcp : McpResourceServer;
  srv_TenantID : string;
  srv_ID : string;
  srv_Name : string;
  srv_ClientID : string;
  AccessRules : list ResourceAccessRule;
  srv_CreatedAt : Time;
  srv_UpdatedAt : Time;
}.

Definition srv_Resource (m : ResourceServer) : string := mcp_Resource (srv_mcp m).
Definition srv_IsActive (m : ResourceServer) : bool := mcp_IsActive (srv_mcp m).

Definition McpResourceServerDisabled : string := "Disabled".
Definition McpResourceServerState_Valid (s : string) : bool := contains [McpResourceServerActive; McpResourceServerDisabled] s.

Definition RuleFor (m : ResourceServer) (resourceType relation : string) : option ResourceAccessRule :=
  List.find (fun r => negb (is_some (rule_Tool r)) && (rule_ResourceType r =? resourceType) && (rule_Relation r =? relation)) (AccessRules m).

Definition rule_named (name : string) (r : ResourceAccessRule) : bool :=
  match rule_Tool r with Some t => tool_Name t =? name | None => false end.

Definition ToolRuleFor (m : ResourceServer) (name : string) : option ResourceAccessRule := List.find (rule_named name) (AccessRules m).

(** A rule without a tool dereferences nil in the code; no caller passes one. *)
Definition OperationResourceID (m : ResourceServer) (r : ResourceAccessRule) : string :=
  srv_ID m ++ "/" ++ match rule_Tool r with Some t => tool_ID t | None => "" end.

Definition HasOnlyToolRules (m : ResourceServer) : bool :=
  negb (bool_decide (length (AccessRules m) = 0%nat)) && forallb (fun r => is_some (rule_Tool r)) (AccessRules m).

Definition McpTargetResourceID (operationResourceID targetID : string) : string := operationResourceID ++ "/" ++ targetID.

(** ** Validation *)

Definition MaxResourceAccessRules : Z := 100.
Definition maxResourceAccessNameLength : Z := 64.
Definition maxTokenExchangeResources : Z := 8.

(** [^[a-z][a-z0-9_]*$] within 64 bytes. *)
Definition validResourceAccessName (value : string) : bool :=
  (len value <=? maxResourceAccessNameLength) && AccessModel.nameRe value.

Definition validateTool (r : ResourceAccessRule) (tool : ResourceAccessTool) : result string unit :=
  reject (tool_ID tool =? "") || (tool_Name tool =? "") || (128 <? RuneCountInString (tool_Name tool)) ||
         ContainsAny (tool_Name tool) ":#" || (TrimSpace (DisplayName tool) =? "") ||
         (256 <? RuneCountInString (DisplayName tool)) || (128 <? RuneCountInString (ResourceIDArgument tool)) with
    "invalid tool name, display name or target argument" in
  if rule_ResourceType r =? AccessModel.ResourceTypeMcpOperation then
    reject rule_Relation r <>? AccessModel.RelationMcpInvoke with "built-in tool operations must use invoke" in Ok tt
  else
    reject ResourceIDArgument tool =? "" with "resource-specific tools require a target argument" in Ok tt.

(** The key under which a rule is seen. *)
Definition rule_key (r : ResourceAccessRule) : string * string * string :=
  match rule_Tool r with
  | Some t => ("tool", tool_Name t, "")
  | None => ("legacy", rule_ResourceType r, rule_Relation r)
  end.

Section validation.
Context (lib : Library) (cel : Cel) (url_Parse : string -> option URL).

Definition validateTokenExchangeResources (r : ResourceAccessRule) : result string unit :=
  if TokenExchangeResources r =? [] then Ok tt
  else
    reject maxTokenExchangeResources <? Z.of_nat (length (TokenExchangeResources r)) with
      "access_rules token_exchange_resources must not exceed %d" in
    reject RequiresApprovedOperation r ||
           match rule_Condition r with Some c => RequireApprovalWhen c <>? "" | None => false end with
      "access_rules token_exchange_resources must not be combined with an approval" in
    for_each (fun resource =>
      match url_Parse resource with
      | None => Err "access_rules token_exchange_resources must be https URLs"
      | Some parsed =>
          reject (url_Scheme parsed <>? "https") || (url_Host parsed =? "") with
            "access_rules token_exchange_resources must be https URLs" in Ok tt
      end) (TokenExchangeResources r).

(** The keys of the rules before this one, and the targets of their tools. *)
Definition validate_key (seen : list (string * string * string)) (toolTargets : list (string * string)) (r : ResourceAccessRule) :
    result string (list (string * string)) :=
  match rule_Tool r with
  | Some tool =>
      let? _ := validateTool r tool in
      reject contains seen ("legacy", rule_ResourceType r, rule_Relation r) with
        "legacy and tool rules must not share a resource type and relation" in
      Ok ((rule_ResourceType r, rule_Relation r) :: toolTargets)
  | None =>
      reject rule_ResourceType r =? AccessModel.ResourceTypeMcpOperation with "built-in operations require a tool" in
      reject contains toolTargets (rule_ResourceType r, rule_Relation r) with
        "legacy and tool rules must not share a resource type and relation" in
      Ok toolTargets
  end.

(** The rest of the body of the loop. *)
Definition validate_constraints (scopes : list string) (r : ResourceAccessRule) : result string unit :=
  reject RequiresApprovedOperation r && (AuthorizationDetailType r =? "") with
    "access_rules requires_approved_operation needs authorization_detail_type" in
  let? _ := match rule_Condition r with
            | None => Ok tt
            | Some c =>
                let? _ := Condition_Validate cel c in
                reject RequiresApprovedOperation r && (RequireApprovalWhen c <>? "") with
                  "access_rules require_approval_when must not be combined with requires_approved_operation" in Ok tt
            end in
  let? _ := validateResourceAccessLimits (rule_Limits r) in
  let? _ := validateTokenExchangeResources r in
  reject rule_Scopes r =? [] with "access_rules scopes must not be empty" in
  for_each (fun scope =>
    reject negb (contains scopes scope) with "access_rules scopes must be a subset of the resource server scopes" in Ok tt)
    (rule_Scopes r).

Fixpoint validate_rules (scopes : list string) (seen : list (string * string * string)) (toolTargets : list (string * string))
    (rules : list ResourceAccessRule) : result string unit :=
  match rules with
  | [] => Ok tt
  | r :: rules =>
      reject negb (validResourceAccessName (rule_ResourceType r)) || negb (validResourceAccessName (rule_Relation r)) with
        "access_rules resource_type and relation must match ^[a-z][a-z0-9_]*$ within 64 characters" in
      let? toolTargets := validate_key seen toolTargets r in
      reject contains seen (rule_key r) with "access_rules must not repeat a resource_type and relation pair" in
      let? _ := validate_constraints scopes r in
      validate_rules scopes (rule_key r :: seen) toolTargets rules
  end.

Definition validateAccessRules (m : ResourceServer) : result string unit :=
  reject MaxResourceAccessRules <? Z.of_nat (length (AccessRules m)) with "access_rules must not exceed %d" in
  validate_rules (mcp_Scopes (srv_mcp m)) [] [] (AccessRules m).

Definition LengthDisplayName : Z := 200.

Definition ResourceServer_Validate (m : ResourceServer) : result string unit :=
  match All
    [ Required "ID" (srv_ID m) [];
      Required "Resource" (srv_Resource m)
        [URL_rule url_Parse;
         Must (isAbsoluteURIWithoutFragment url_Parse) "resource must be an absolute URI without a fragment (RFC 8707 §2)"];
      Required "Name" (srv_Name m) [Chars 1 LengthDisplayName];
      NonEmpty "Scopes" (mcp_Scopes (srv_mcp m));
      Required "State" (mcp_State (srv_mcp m)) [Must McpResourceServerState_Valid "mcp resource server state is not in enum"];
      Required "CreatedAt" (srv_CreatedAt m) [];
      Required "UpdatedAt" (srv_UpdatedAt m) [] ] with
  | Err e => Err (error_text e)
  | Ok _ => validateAccessRules m
  end.
End validation.

(** ** Counters are kept apart *)

Lemma empty_uint_no_colon d : byte_in ":" (DecimalString.NilEmpty.string_of_uint d) = false.
Proof. induction d; simpl; done. Qed.

Lemma FormatInt_no_colon z : byte_in ":" (FormatInt z) = false.
Proof.
  unfold FormatInt, DecimalString.NilZero.string_of_int. destruct (Z.to_int z) as [d|d];
    unfold DecimalString.NilZero.string_of_uint; destruct d; try done; simpl; apply empty_uint_no_colon.
Qed.

Lemma FormatInt_inj a b : FormatInt a = FormatInt b -> a = b.
Proof.
  assert (Hv : forall z, option_map Z.of_int (DecimalString.NilZero.int_of_string (FormatInt z)) = Some z).
  { intros z. unfold FormatInt. destruct (to_int_not_nil z) as [H1 H2].
    rewrite DecimalString.NilZero.isi by done. simpl. by rewrite DecimalZ.of_to. }
  intros H. pose proof (Hv a) as Ha. rewrite H, Hv in Ha. by injection Ha.
Qed.

Section buckets.
Context (printable : N -> bool).

(** What a unit adds to the bucket. *)
Definition unit_text (by_ : list ResourceAccessLimitUnit) (u : ResourceAccessLimitUnit * string) : string :=
  if contains by_ u.1 then ":" ++ u.1 ++ "=" ++ Quote printable u.2 else "".

Lemma append_nil_r (s : string) : s ++ "" = s.
Proof. induction s as [|c s IH]; [done|]. by rewrite string_app_cons, IH. Qed.

Lemma write_units_spec by_ units : forall bucket out, write_units printable by_ units bucket = Some out <->
  Forall (fun u => contains by_ u.1 = true -> u.2 <> "") units /\
  out = bucket ++ fold_right (fun u rest => unit_text by_ u ++ rest) "" units.
Proof.
  induction units as [|[name value] units IH]; intros bucket out; simpl.
  - rewrite append_nil_r. split; [by intros [= <-]|by intros [_ ->]].
  - unfold unit_text at 1. simpl. rewrite Forall_cons. simpl. destruct (contains by_ name); simpl.
    + destruct (value =? "") eqn:Hv; go_bool.
      * split; [done|]. intros [[Hne _] _]. by destruct Hne.
      * rewrite IH. rewrite !string_app_assoc. naive_solver.
    + rewrite IH. naive_solver.
Qed.

(** The text from here on starts with a colon or is empty. *)
Definition tail_text (s : string) : Prop := s = "" \/ exists s', s = ":" ++ s'.

Lemma unit_text_tail by_ u rest : tail_text rest -> tail_text (unit_text by_ u ++ rest).
Proof.
  intros Hr. unfold unit_text. destruct (contains by_ u.1); [|done]. right. eexists. by rewrite string_app_assoc.
Qed.

Lemma append_cancel (p a b : string) : p ++ a = p ++ b -> a = b.
Proof. induction p as [|c p IH]; [done|]. rewrite !string_app_cons. intros [= H]. by apply IH. Qed.

(** The texts of the same unit, where what follows does not start with its name. *)
Lemma unit_text_inj by1 by2 name v1 v2 r1 r2 :
  (forall r, r1 <> ":" ++ name ++ "=" ++ r) -> (forall r, r2 <> ":" ++ name ++ "=" ++ r) ->
  unit_text by1 (name, v1) ++ r1 = unit_text by2 (name, v2) ++ r2 ->
  contains by1 name = contains by2 name /\ (contains by1 name = true -> v1 = v2) /\ r1 = r2.
Proof.
  intros H1 H2. unfold unit_text. simpl. destruct (contains by1 name), (contains by2 name); rewrite ?string_app_assoc; intros Heq.
  - apply append_cancel in Heq. apply append_cancel in Heq. apply append_cancel in Heq. apply Quote_app_inj in Heq as [-> ->]. done.
  - symmetry in Heq. by destruct (H2 _ Heq).
  - by destruct (H1 _ Heq).
  - done.
Qed.

Definition subject_value (s : ResourceAccessLimitSubject) (u : ResourceAccessLimitUnit) : string :=
  if u =? ResourceAccessLimitByAgent then ls_AgentID s else if u =? ResourceAccessLimitByUser then ls_UserID s else ls_ResourceID s.

Definition same_unit (l1 l2 : ResourceAccessLimit) (s1 s2 : ResourceAccessLimitSubject) (u : ResourceAccessLimitUnit) : Prop :=
  contains (By l1) u = contains (By l2) u /\ (contains (By l1) u = true -> subject_value s1 u = subject_value s2 u).

(** Two buckets are the same text only when the windows, the units and the
    values of the units are the same. *)
Lemma Bucket_inj l1 s1 l2 s2 b : Bucket printable l1 s1 = Some b -> Bucket printable l2 s2 = Some b ->
  limit_WindowSeconds l1 = limit_WindowSeconds l2 /\
  Forall (same_unit l1 l2 s1 s2) [ResourceAccessLimitByAgent; ResourceAccessLimitByUser; ResourceAccessLimitByResource].
Proof.
  unfold Bucket. rewrite !write_units_spec. intros [_ Hb1] [_ Hb2]. rewrite Hb1 in Hb2. simpl in Hb2.
  set (t1 := unit_text (By l1) (_, ls_AgentID s1) ++ _) in Hb2. set (t2 := unit_text (By l2) (_, ls_AgentID s2) ++ _) in Hb2.
  assert (Ht1 : tail_text t1) by (repeat apply unit_text_tail; by left).
  assert (Ht2 : tail_text t2) by (repeat apply unit_text_tail; by left).
  assert (Hw : FormatInt (limit_WindowSeconds l1) = FormatInt (limit_WindowSeconds l2) /\ t1 = t2).
  { destruct Ht1 as [->|[u1 ->]], Ht2 as [->|[u2 ->]]; rewrite ?append_nil_r in Hb2.
    - done.
    - exfalso. pose proof (FormatInt_no_colon (limit_WindowSeconds l1)) as H. rewrite Hb2, byte_in_app in H. simpl in H.
      by rewrite orb_true_r in H.
    - exfalso. pose proof (FormatInt_no_colon (limit_WindowSeconds l2)) as H. rewrite <- Hb2, byte_in_app in H. simpl in H.
      by rewrite orb_true_r in H.
    - apply app_sep_inj in Hb2 as [-> ->]; [done|apply FormatInt_no_colon..]. }
  destruct Hw as [Hw Ht]. split; [by apply FormatInt_inj|]. clear Hb1 Hb2 Hw Ht1 Ht2. subst t1 t2.
  assert (Hother : forall by_ u v (name : ResourceAccessLimitUnit) c1 c2 n1 n2 r, u = String c1 n1 -> name = String c2 n2 -> c1 <> c2 ->
    (forall r', r <> ":" ++ name ++ "=" ++ r') -> forall r', unit_text by_ (u, v) ++ r <> ":" ++ name ++ "=" ++ r').
  { intros by_ u v name c1 c2 n1 n2 r -> -> Hc Hr r'. unfold unit_text. simpl. destruct (contains by_ _); [|apply Hr].
    simpl. intros [= Heq]. done. }
  assert (Hnil : forall name : ResourceAccessLimitUnit, forall r', "" <> ":" ++ name ++ "=" ++ r') by done.
  apply unit_text_inj in Ht as (Ha & Hav & Ht);
    [|intros ?; repeat (eapply Hother; [reflexivity..|done|]; intros ?); apply Hnil..].
  apply unit_text_inj in Ht as (Hu & Huv & Ht);
    [|intros ?; repeat (eapply Hother; [reflexivity..|done|]; intros ?); apply Hnil..].
  apply unit_text_inj in Ht as (Hr & Hrv & _); [|apply Hnil..].
  repeat constructor; done.
Qed.
End buckets.

(** ** What a valid registration is *)

Section valid.
Context (cel : Cel) (url_Parse : string -> option URL).

Definition target (r : ResourceAccessRule) : string * string := (rule_ResourceType r, rule_Relation r).
Definition legacy_key (r : ResourceAccessRule) : string * string * string := ("legacy", rule_ResourceType r, rule_Relation r).

(** What the loop established for the rules it went through. *)
Record rules_ok (scopes : list string) (seen : list (string * string * string)) (targets : list (string * string))
    (rules : list ResourceAccessRule) : Prop := {
  ro_keys : NoDup (map rule_key rules);
  ro_fresh : Forall (fun r => rule_key r ∉ seen) rules;
  ro_constraints : Forall (fun r => validate_constraints cel url_Parse scopes r = Ok tt) rules;
  ro_legacy : Forall (fun r => rule_Tool r = None -> rule_ResourceType r <> ResourceTypeMcpOperation /\ target r ∉ targets) rules;
  ro_tools : Forall (fun r => forall t, rule_Tool r = Some t -> validateTool r t = Ok tt /\ legacy_key r ∉ seen) rules;
  ro_apart : forall r t, r ∈ rules -> t ∈ rules -> rule_Tool r = None -> rule_Tool t <> None -> target r <> target t;
}.

Lemma validate_key_Ok seen targets r targets' : validate_key seen targets r = Ok targets' ->
  match rule_Tool r with
  | Some t => validateTool r t = Ok tt /\ legacy_key r ∉ seen /\ targets' = target r :: targets
  | None => rule_ResourceType r <> ResourceTypeMcpOperation /\ target r ∉ targets /\ targets' = targets
  end.
Proof.
  unfold validate_key. destruct (rule_Tool r) as [t|].
  - intros H. apply res_bind_Ok in H as ([] & Ht & H). destruct (contains _ _) eqn:Hc; [done|]. injection H as <-. go_bool. done.
  - destruct (_ =? _) eqn:H1; [done|]. destruct (contains _ _) eqn:Hc; [done|]. intros [= <-]. go_bool. done.
Qed.

Lemma validate_rules_Ok scopes rules : forall seen targets,
  validate_rules cel url_Parse scopes seen targets rules = Ok tt -> rules_ok scopes seen targets rules.
Proof.
  induction rules as [|r rules IH]; intros seen targets H.
  { split; try constructor. intros r t Hr. by apply not_elem_of_nil in Hr. }
  simpl in H. destruct (_ || _)%bool; [done|]. apply res_bind_Ok in H as (targets' & Hk & H).
  destruct (contains seen _) eqn:Hs; [done|]. apply res_bind_Ok in H as ([] & Hc & H). apply IH in H as [K F C L T A]. go_bool.
  apply validate_key_Ok in Hk. split.
  - simpl. constructor; [|done]. intros Hin. apply list_elem_of_In, in_map_iff in Hin as (r' & He & Hin).
    apply list_elem_of_In in Hin. rewrite Forall_forall in F. apply (F _ Hin). rewrite He. by left.
  - constructor; [done|]. eapply Forall_impl; [exact F|]. intros x Hx Hin. apply Hx. by right.
  - by constructor.
  - constructor; [by destruct (rule_Tool r); [|naive_solver]|]. eapply Forall_impl; [exact L|]. intros x Hx Hn. destruct (Hx Hn) as [H1 H2].
    split; [done|]. destruct (rule_Tool r); [|by destruct Hk as (_ & _ & ->)]. destruct Hk as (_ & _ & ->). intros Hin. apply H2. by right.
  - constructor; [intros t Ht; rewrite Ht in Hk; naive_solver|]. eapply Forall_impl; [exact T|]. intros x Hx t Ht. destruct (Hx t Ht) as [H1 H2].
    split; [done|]. intros Hin. apply H2. by right.
  - rewrite Forall_forall in L, T. intros x y Hx Hy Hnx Hny. apply elem_of_cons in Hx as [->|Hx], Hy as [->|Hy]; [done|..|by apply A].
    + destruct (rule_Tool y) as [t|] eqn:Ht; [|done]. destruct (T _ Hy _ Ht) as [_ Hno]. intros [= H1 H2]. apply Hno.
      unfold legacy_key. rewrite <- H1, <- H2. unfold rule_key. rewrite Hnx. by left.
    + destruct (rule_Tool r) as [t|] eqn:Ht; [|done]. destruct Hk as (_ & _ & ->). destruct (L _ Hx Hnx) as [_ Hno].
      intros Heq. apply Hno. rewrite Heq. by left.
Qed.

Lemma validate_units_Ok units : forall seen, validate_units seen units = Ok tt ->
  NoDup units /\ Forall (fun u => u ∉ seen) units /\
  Forall (fun u => u ∈ [ResourceAccessLimitByAgent; ResourceAccessLimitByUser; ResourceAccessLimitByResource]) units.
Proof.
  induction units as [|u units IH]; intros seen H; [by repeat constructor|]. simpl in H.
  destruct (negb _) eqn:H1; [done|]. destruct (contains seen u) eqn:H2; [done|]. apply IH in H as (H3 & H4 & H5). go_bool.
  split_and!; (constructor; [|]); try done.
  - intros Hin. rewrite Forall_forall in H4. apply (H4 _ Hin). by left.
  - eapply Forall_impl; [exact H4|]. intros x Hx Hin. apply Hx. by right.
  - destruct H1 as [<-|[<-|[<-|?]]]; [set_solver..|done].
Qed.

Definition limit_ok (l : ResourceAccessLimit) : Prop :=
  (1 <= limit_MaxRequests l <= maxResourceAccessLimitCount)%Z /\ (1 <= limit_WindowSeconds l <= maxResourceAccessLimitWindow)%Z /\
  NoDup (By l) /\ Forall (fun u => u ∈ [ResourceAccessLimitByAgent; ResourceAccessLimitByUser; ResourceAccessLimitByResource]) (By l).

Lemma validate_limits_Ok limits : forall seen, validate_limits seen limits = Ok tt ->
  Forall limit_ok limits /\ NoDup (map limit_keys limits) /\ Forall (fun l => limit_keys l ∉ seen) limits.
Proof.
  induction limits as [|l limits IH]; intros seen H; [by repeat constructor|]. simpl in H.
  destruct (_ || _)%bool eqn:H1; [done|]. destruct (_ || _)%bool eqn:H2 in H; [done|]. apply res_bind_Ok in H as ([] & Hu & H).
  destruct (contains seen _) eqn:H3; [done|]. apply IH in H as (H4 & H5 & H6). apply validate_units_Ok in Hu as (U1 & _ & U2). go_bool.
  split_and!; (constructor; [|]); try done.
  - change (limit_keys l ∉ map limit_keys limits). intros Hin. apply list_elem_of_In, in_map_iff in Hin as (l' & He & Hin). apply list_elem_of_In in Hin.
    rewrite Forall_forall in H6. apply (H6 _ Hin). rewrite He. by left.
  - eapply Forall_impl; [exact H6|]. intros x Hx Hin. apply Hx. by right.
Qed.

Definition asks_approval (r : ResourceAccessRule) : Prop :=
  RequiresApprovedOperation r = true \/ exists c, rule_Condition r = Some c /\ RequireApprovalWhen c <> "".

(** What the constraints of a valid rule are. *)
Record constraints_ok (scopes : list string) (r : ResourceAccessRule) : Prop := {
  co_approved : RequiresApprovedOperation r = true -> AuthorizationDetailType r <> "";
  co_condition : forall c, rule_Condition r = Some c ->
    Condition_Validate cel c = Ok tt /\ (RequireApprovalWhen c <> "" -> RequiresApprovedOperation r = false);
  co_limits : Forall limit_ok (rule_Limits r) /\ NoDup (map limit_keys (rule_Limits r)) /\
    (Z.of_nat (length (rule_Limits r)) <= MaxResourceAccessLimits)%Z;
  co_exchange : TokenExchangeResources r <> [] -> ~ asks_approval r;
  co_scopes : rule_Scopes r <> [] /\ rule_Scopes r ⊆ scopes;
}.

Lemma validate_constraints_Ok scopes r : validate_constraints cel url_Parse scopes r = Ok tt -> constraints_ok scopes r.
Proof.
  unfold validate_constraints. destruct (_ && _)%bool eqn:H1; [done|]. intros H. apply res_bind_Ok in H as ([] & Hcond & H).
  apply res_bind_Ok in H as ([] & Hlim & H). apply res_bind_Ok in H as ([] & Hex & H). destruct (_ =? []) eqn:Hs; [done|].
  apply for_each_Ok in H. split.
  - intros Ha. rewrite Ha in H1. simpl in H1. by go_bool.
  - intros c Hc. rewrite Hc in Hcond. apply res_bind_Ok in Hcond as ([] & Hv & Hcond). split; [done|].
    intros Hr. destruct (RequiresApprovedOperation r); [|done]. simpl in Hcond. rewrite bool_decide_false in Hcond by done. done.
  - unfold validateResourceAccessLimits in Hlim. destruct (_ <? _) eqn:Hl; [done|]. apply validate_limits_Ok in Hlim as (L1 & L2 & _).
    go_bool. split_and!; done.
  - intros Hne. unfold validateTokenExchangeResources in Hex. rewrite bool_decide_false in Hex by done. destruct (_ <? _); [done|].
    destruct (_ || _)%bool eqn:Ha; [done|]. apply orb_false_iff in Ha as [Ha1 Ha2].
    intros [Ha|(c & Hc & Hr)]; [congruence|]. rewrite Hc in Ha2. by go_bool.
  - go_bool. split; [done|]. intros x Hx. rewrite Forall_forall in H. specialize (H x Hx). simpl in H.
    destruct (contains scopes x) eqn:Hin; [|done]. by go_bool.
Qed.

Lemma find_key {A} (f : A -> bool) (l : list A) a : a ∈ l -> f a = true -> (forall b, b ∈ l -> f b = true -> b = a) -> List.find f l = Some a.
Proof.
  intros Ha Hf Hu. destruct (List.find f l) as [b|] eqn:Hb.
  - apply List.find_some in Hb as [Hin Hfb]. apply list_elem_of_In in Hin. by rewrite (Hu b).
  - pose proof (List.find_none _ _ Hb a) as Hno. rewrite Hf in Hno. discriminate Hno. by apply list_elem_of_In.
Qed.

Lemma NoDup_map_inj {A B} (f : A -> B) (l : list A) a b : NoDup (map f l) -> a ∈ l -> b ∈ l -> f a = f b -> a = b.
Proof.
  induction l as [|x l IH]; intros Hn Ha Hb Heq; [by apply not_elem_of_nil in Ha|]. apply NoDup_cons in Hn as [Hx Hn].
  assert (Hin : forall y, y ∈ l -> f y ∈ map f l) by (intros y Hy; apply list_elem_of_In, in_map, list_elem_of_In; done).
  apply elem_of_cons in Ha as [->|Ha], Hb as [->|Hb]; [done|..|by apply IH]; exfalso; apply Hx.
  - rewrite Heq. by apply Hin.
  - rewrite <- Heq. by apply Hin.
Qed.

(** A registration that passes its validation names every operation once: each
    rule is the one that is found for its tool or for its type and relation, no
    type and relation is both a tool's and a plain rule's, and every rule asks
    for scopes of the server, has sound limits, and exchanges tokens only when it
    never asks for an approval. *)
Theorem validated_rules m : validateAccessRules cel url_Parse m = Ok tt ->
  (forall r, r ∈ AccessRules m ->
     constraints_ok (mcp_Scopes (srv_mcp m)) r /\
     match rule_Tool r with
     | Some t => ToolRuleFor m (tool_Name t) = Some r /\ RuleFor m (rule_ResourceType r) (rule_Relation r) = None
     | None => RuleFor m (rule_ResourceType r) (rule_Relation r) = Some r
     end) /\
  (Z.of_nat (length (AccessRules m)) <= MaxResourceAccessRules)%Z.
Proof.
  unfold validateAccessRules. destruct (_ <? _) eqn:Hlen; [done|]. intros H. apply validate_rules_Ok in H as [K _ C _ _ A]. go_bool.
  split; [|done]. intros r Hr. rewrite Forall_forall in C. split; [apply validate_constraints_Ok, C, Hr|].
  destruct (rule_Tool r) as [t|] eqn:Ht.
  - split.
    + apply find_key; [done|unfold rule_named; rewrite Ht; by apply bool_decide_eq_true|].
      intros b Hb Hn. unfold rule_named in Hn. destruct (rule_Tool b) as [t'|] eqn:Htb; [|done]. go_bool.
      apply (NoDup_map_inj rule_key _ _ _ K Hb Hr). unfold rule_key. by rewrite Ht, Htb, Hn.
    + unfold RuleFor. destruct (List.find _ _) as [b|] eqn:Hf; [|done]. apply List.find_some in Hf as [Hb Hf].
      apply list_elem_of_In in Hb. destruct (rule_Tool b) eqn:Htb; [done|]. simpl in Hf. go_bool. destruct Hf as [H1 H2].
      exfalso. apply (A b r Hb Hr Htb); [by rewrite Ht|]. unfold target. by rewrite H1, H2.
  - apply find_key; [done|rewrite Ht; simpl; by rewrite !bool_decide_true|].
    intros b Hb Hn. destruct (rule_Tool b) eqn:Htb; [done|]. simpl in Hn. go_bool. destruct Hn as [H1 H2].
    apply (NoDup_map_inj rule_key _ _ _ K Hb Hr). unfold rule_key. by rewrite Ht, Htb, H1, H2.
Qed.
End valid.

(** ** Example: a server of mail with a tool and a plain rule *)

(** Expressions that are texts for a truth value. *)
Definition demo_cel : Cel :=
  {| cel_ast := bool; cel_Compile s := if s =? "true" then Some true else if s =? "false" then Some false else None;
     cel_is_bool _ := true; cel_Program b := Some (fun _ => Some (Some b)) |}.

Definition demo_parse (s : string) : option URL :=
  if s =? "https://mail" then Some {| url_Scheme := "https"; url_Opaque := ""; url_User := None; url_Host := "mail"; url_Path := ""; url_Fragment := "" |}
  else if s =? "https://files" then Some {| url_Scheme := "https"; url_Opaque := ""; url_User := None; url_Host := "files"; url_Path := ""; url_Fragment := "" |}
  else if s =? "https://mail/rpc" then Some {| url_Scheme := "https"; url_Opaque := ""; url_User := None; url_Host := "mail"; url_Path := "/rpc"; url_Fragment := "" |}
  else None.

Definition demo_rule : ResourceAccessRule :=
  {| rule_Tool := None; rule_ResourceType := "mailbox"; rule_Relation := "read"; rule_Scopes := ["mail"];
     AuthorizationDetailType := ""; RequiresApprovedOperation := false;
     rule_Condition := Some {| DenyWhen := "false"; RequireApprovalWhen := ""; ApprovalDetailType := "" |};
     rule_Limits := [{| By := [ResourceAccessLimitByAgent]; limit_MaxRequests := 2; limit_WindowSeconds := 60 |}];
     TokenExchangeResources := ["https://files"] |}.

Definition demo_send : ResourceAccessRule :=
  {| rule_Tool := Some {| tool_ID := "t1"; AssignmentResourceID := ""; tool_Name := "send"; DisplayName := "Send";
                          ResourceIDArgument := "" |};
     rule_ResourceType := "idmagic_mcp_operation"; rule_Relation := "invoke"; rule_Scopes := ["mail"];
     AuthorizationDetailType := "mail_send"; RequiresApprovedOperation := true; rule_Condition := None;
     rule_Limits := []; TokenExchangeResources := [] |}.

Definition demo_mail_server : ResourceServer :=
  {| srv_mcp := {| mcp_Resource := "https://mail"; mcp_Scopes := ["mail"]; mcp_State := McpResourceServerActive |};
     srv_TenantID := "acme"; srv_ID := "srv"; srv_Name := "Mail"; srv_ClientID := "gateway";
     AccessRules := [demo_rule; demo_send]; srv_CreatedAt := 1%Z; srv_UpdatedAt := 1%Z |}.

Lemma demo_mail_valid : validateAccessRules demo_cel demo_parse demo_mail_server = Ok tt.
Proof. vm_compute. reflexivity. Qed.

Lemma validated_rules_witness :
  ToolRuleFor demo_mail_server "send" = Some demo_send /\ RuleFor demo_mail_server "mailbox" "read" = Some demo_rule.
Proof.
  destruct (validated_rules demo_cel demo_parse demo_mail_server demo_mail_valid) as [H _].
  split.
  - destruct (H demo_send) as (_ & H1 & _); [right; left|exact H1].
  - destruct (H demo_rule) as (_ & H1); [left|exact H1].
Defined.
