(* ===== verification/ResourceAccess.v ===== *)
(** * OAuth2: the decision on the access to a resource

    [backend/oauth2/internal/token/usecases/evaluate_resource_access.go] and
    [resource_operations.go]: a resource server asks whether the holder of an
    access token may carry out one of its registered operations on a resource.

    [evaluateForServer] is the conjunction of the checks in the order of the
    code; a stage denies with a reason or passes a value on.  The stores of
    approvals, counters, identifiers of proofs and grants of rebinding are the
    state; introspection and the check of relations are functions, which
    [Introspect] and [AccessUsecases] implement.

    The theorems: what a permitted access satisfies and consumes, on
    its own terms; that a denial spends
    nothing but counted attempts; that an operation which is not registered is
    answered alike whatever the relations are; and that a grant which an
    evaluation gives out is claimed by the token exchange until it expires,
    and once. *)

From Stdlib Require Import Ascii String ZArith Lia.
From stdpp Require Import base strings list gmap.
From S2P Require Import Prelude Effects GoStrings Crypto Urls AccessModel Policy AccessUsecases TokenDomain ActorChain.
From S2P Require Import RichAuthorization RefreshUsecase ExchangeCode Device ApprovalStore Approval Consents Introspect ExchangeToken.
From S2P Require Import StateMachines Resilience Jose Quote Guardrail ResourceRules.

Local Open Scope string_scope.
Local Open Scope go_scope.

(** ** Inputs, results and events *)

Definition ReasonTokenRejected : string := "token_rejected".
Definition ReasonOperationNotRegistered : string := "operation_not_registered".
Definition ReasonAuthorizationDetailMismatch : string := "authorization_detail_mismatch".
Definition ReasonPrincipalUnresolved : string := "principal_unresolved".
Definition ReasonSenderProofInvalid : string := "sender_proof_invalid".
Definition ReasonConditionDenied : string := "condition_denied".
Definition ReasonConditionIndeterminate : string := "condition_indeterminate".
Definition ReasonLimitExceeded : string := "limit_exceeded".
Definition ReasonTokenExchangeNotPermitted : string := "token_exchange_not_permitted".

Definition resourceAccessLimitPolicyID : string := "resource_access_rule_limit".

Record ResourceAccessRequest := {
  rr_TenantID : string;
  rr_ClientID : string;
  rr_Token : string;
  rr_ResourceType : string;
  rr_ResourceID : string;
  rr_Relation : string;
  rr_DPoPProof : string;
  rr_HTM : string;
  rr_HTU : string;
  rr_CertificateThumbprint : string;
  rr_OperationKey : string;
  rr_OperationParameters : string;
  rr_Attributes : string;
  rr_TokenExchangeResource : string;
  rr_RequestID : string;
}.

Record ResourceAccessDecision := {
  dec_Permitted : bool;
  dec_Reasons : list string;
  dec_Scope : string;
  dec_DelegationMode : DelegationMode;
  dec_AuthorizationDetails : list AuthorizationDetail;
  dec_ApprovedOperation : option ApprovedOperationUse;
  dec_TokenExchangeGrant : string;
}.

Definition denyReasons (reasons : list string) : ResourceAccessDecision :=
  {| dec_Permitted := false; dec_Reasons := reasons; dec_Scope := ""; dec_DelegationMode := ""; dec_AuthorizationDetails := [];
     dec_ApprovedOperation := None; dec_TokenExchangeGrant := "" |}.

Definition denyResourceAccess (reason : string) : ResourceAccessDecision := denyReasons [reason].

Record evaluationAudit := {
  tokenID : string;
  userID : string;
  agentID : string;
  actorChain : list string;
  conditionVersion : string;
  conditionOutcome : ConditionOutcome;
  attributesDigest : string;
  exceededLimit : option ResourceAccessLimit;
}.

Definition token_audit (id : string) : evaluationAudit :=
  {| tokenID := id; userID := ""; agentID := ""; actorChain := []; conditionVersion := ""; conditionOutcome := "";
     attributesDigest := ""; exceededLimit := None |}.

Definition newEvaluationAudit (id : string) (subject : Actor) (actors : list Actor) : evaluationAudit :=
  let chain := map act_ID actors in
  let is_agent := act_Type subject =? PrincipalTypeAgent in
  {| tokenID := id; userID := if is_agent then "" else act_ID subject;
     agentID := let own := if is_agent then act_ID subject else "" in
                if own =? "" then match chain with first :: _ => first | [] => "" end else own;
     actorChain := chain; conditionVersion := ""; conditionOutcome := ""; attributesDigest := ""; exceededLimit := None |}.

Definition with_condition (version outcome digest : string) (a : evaluationAudit) : evaluationAudit :=
  {| tokenID := tokenID a; userID := userID a; agentID := agentID a; actorChain := actorChain a; conditionVersion := version;
     conditionOutcome := outcome; attributesDigest := digest; exceededLimit := exceededLimit a |}.

Definition with_exceeded (limit : ResourceAccessLimit) (a : evaluationAudit) : evaluationAudit :=
  {| tokenID := tokenID a; userID := userID a; agentID := agentID a; actorChain := actorChain a;
     conditionVersion := conditionVersion a; conditionOutcome := conditionOutcome a; attributesDigest := attributesDigest a;
     exceededLimit := Some limit |}.

Record ResourceAccessEvaluated := {
  rae_At : Time;
  rae_TenantID : string;
  rae_RSClientID : string;
  rae_ResourceServerID : string;
  rae_TokenID : string;
  rae_UserID : string;
  rae_AgentID : string;
  rae_ActorChain : list string;
  rae_RequestID : string;
  rae_ResourceType : string;
  rae_Relation : string;
  rae_Permitted : bool;
  rae_Reasons : list string;
  rae_ApprovalRequestID : string;
  rae_OperationDigest : string;
  rae_Replayed : bool;
  rae_ConditionVersion : string;
  rae_ConditionOutcome : string;
  rae_DeclaredAttributesDigest : string;
  rae_ExceededLimitBy : list ResourceAccessLimitUnit;
  rae_ExceededLimitWindowSeconds : Z;
}.

Inductive evaluation_error (E : Type) :=
| ErrResourceServerNotRegistered
| ErrEvaluationNotConfigured
| ErrOperationKeyRequired
| EvaluationPort (e : E)
| ReplayStoreUnavailable (e : E).
Arguments ErrResourceServerNotRegistered {E}.
Arguments ErrEvaluationNotConfigured {E}.
Arguments ErrOperationKeyRequired {E}.
Arguments EvaluationPort {E} e.
Arguments ReplayStoreUnavailable {E} e.

(** Saving a grant of rebinding; the first argument is the tenant of the
    context. *)
Class SaveGrantPort (S E : Type) := { save_grant : string -> string -> TokenExchangeGrant -> S -> result E unit * S }.

(** ** The library that the evaluation calls *)

Record Evaluator := {
  ev_lib : Library;
  ev_cel : Cel;
  ev_printable : N -> bool;
  ev_url_Parse : string -> option URL;
  ev_EqualFold : string -> string -> bool;
  ev_DecodeStrictJSONObject : string -> option (gmap string field_value);
  ev_DigestOperationFields : gmap string field_value -> option string;
}.

Section usecase.
Context {S E C : Type} `{ApprovalPort S E} `{RatePort S E} `{ReplayPort S E} `{SaveGrantPort S E}.
Notation flow := (eff S ResourceAccessEvaluated (evaluation_error E)).

(** A port that is missing is [None] or a flag that is off. *)
Record ResourceAccessDeps := {
  rd_Servers : option (string -> string -> result E (option ResourceServer));
  rd_Tokens : option (string -> result E (option IntrospectionResult));
  rd_Clients : option (string -> string -> result E (option C));
  rd_Relations : option (RelationCheck -> result E RelationDecision);
  rd_has_Replay : bool;
  rd_has_Approvals : bool;
  rd_has_Limiter : bool;
  rd_has_Grants : bool;
  rd_has_Emit : bool;
}.

Context (ev : Evaluator) (d : ResourceAccessDeps).

Definition on_port {A} (r : result E A) : result (evaluation_error E) A :=
  match r with Ok a => Ok a | Err e => Err (EvaluationPort e) end.

(** ** Operations *)

Definition mcpMethodResourceType : string := "idmagic_mcp_method".

Record resourceOperation := {
  op_Rule : ResourceAccessRule;
  op_Request : ResourceAccessRequest;
  op_Registered : bool;
  op_Preparation : bool;
  op_Target : string;
}.

Definition unregistered (in_ : ResourceAccessRequest) : resourceOperation :=
  {| op_Rule := zero_rule; op_Request := in_; op_Registered := false; op_Preparation := false; op_Target := "" |}.

Definition with_target (resourceType resourceID relation : string) (in_ : ResourceAccessRequest) : ResourceAccessRequest :=
  {| rr_TenantID := rr_TenantID in_; rr_ClientID := rr_ClientID in_; rr_Token := rr_Token in_; rr_ResourceType := resourceType;
     rr_ResourceID := resourceID; rr_Relation := relation; rr_DPoPProof := rr_DPoPProof in_; rr_HTM := rr_HTM in_;
     rr_HTU := rr_HTU in_; rr_CertificateThumbprint := rr_CertificateThumbprint in_; rr_OperationKey := rr_OperationKey in_;
     rr_OperationParameters := rr_OperationParameters in_; rr_Attributes := rr_Attributes in_;
     rr_TokenExchangeResource := rr_TokenExchangeResource in_; rr_RequestID := rr_RequestID in_ |}.

Definition preparation_methods : list string := ["server/discover"; "initialize"; "notifications/initialized"; "ping"; "tools/list"].

(** The target that the arguments of a tool name; [None] when they name none. *)
Definition tool_target (tool : ResourceAccessTool) (parameters : string) : option string :=
  if ResourceIDArgument tool =? "" then Some ""
  else match ev_DecodeStrictJSONObject ev parameters with
  | None => None
  | Some args =>
      match args !! ResourceIDArgument tool with
      | Some (VString id) => if id =? "" then None else Some id
      | _ => None
      end
  end.

Definition resolve_tool (server : ResourceServer) (r : ResourceAccessRule) (tool : ResourceAccessTool) (in_ : ResourceAccessRequest) :
    resourceOperation :=
  match tool_target tool (rr_OperationParameters in_) with
  | None => unregistered in_
  | Some target =>
      let builtin := rule_ResourceType r =? ResourceTypeMcpOperation in
      let id := if builtin then OperationResourceID server r else target in
      {| op_Rule := r; op_Request := with_target (rule_ResourceType r) id (rule_Relation r) in_;
         op_Registered := tool_ID tool <>? ""; op_Preparation := false; op_Target := if builtin then target else "" |}
  end.

Definition resolveResourceOperation (server : ResourceServer) (in_ : ResourceAccessRequest) : resourceOperation :=
  if (rr_ResourceType in_ =? mcpMethodResourceType) && (rr_Relation in_ =? "access") then
    {| op_Rule := zero_rule; op_Request := in_;
       op_Registered := contains preparation_methods (rr_ResourceID in_) && existsb (fun r => is_some (rule_Tool r)) (AccessRules server);
       op_Preparation := true; op_Target := "" |}
  else if (rr_ResourceType in_ <>? ResourceTypeMcpOperation) || (rr_Relation in_ <>? RelationMcpInvoke) then
    match RuleFor server (rr_ResourceType in_) (rr_Relation in_) with
    | Some r => {| op_Rule := r; op_Request := in_; op_Registered := true; op_Preparation := false; op_Target := "" |}
    | None => unregistered in_
    end
  else
    match ToolRuleFor server (rr_ResourceID in_) with
    | None => unregistered in_
    | Some r =>
        match rule_Tool r with
        | Some tool => resolve_tool server r tool in_
        | None => unregistered in_
        end
    end.

Definition tool_check (server : ResourceServer) (id relation : string) (scopes : list string) (subject : Actor) (actors : list Actor)
    (granted : list string) : RelationCheck :=
  {| rc_TenantID := srv_TenantID server; rc_ResourceType := ResourceTypeMcpOperation; rc_ResourceID := id; rc_Relation := relation;
     rc_Subject := subject; rc_Actors := actors; rc_GrantedScopes := granted; rc_RequiredScopes := scopes |}.

Definition checkToolAssignment (checker : option (RelationCheck -> result E RelationDecision)) (server : ResourceServer)
    (r : ResourceAccessRule) (subject : Actor) (actors : list Actor) (scopes : list string) :
    result (evaluation_error E) RelationDecision :=
  match rule_Tool r with
  | None => Ok {| rd_Permitted := false; rd_Reasons := [ReasonOperationNotRegistered] |}
  | Some tool =>
      if tool_ID tool =? "" then Ok {| rd_Permitted := false; rd_Reasons := [ReasonOperationNotRegistered] |}
      else match checker with
      | None => Err ErrEvaluationNotConfigured
      | Some check =>
          on_port (check (tool_check server (OperationResourceID server r) RelationMcpInvoke (rule_Scopes r) subject actors scopes))
      end
  end.

Definition checkTargetRange (checker : RelationCheck -> result E RelationDecision) (server : ResourceServer)
    (operation : resourceOperation) (subject : Actor) (actors : list Actor) (scopes : list string) :
    result (evaluation_error E) RelationDecision :=
  let r := op_Rule operation in
  let operationID := OperationResourceID server r in
  let? decision := on_port (checker (tool_check server operationID RelationMcpInvokeAnyTarget (rule_Scopes r) subject actors scopes)) in
  if rd_Permitted decision || ContainsAny (op_Target operation) ":#" then Ok decision
  else on_port (checker (tool_check server (McpTargetResourceID operationID (op_Target operation)) RelationMcpInvoke (rule_Scopes r)
                           subject actors scopes)).

(** The loop of a preparation: any assignment of a tool will do. *)
Fixpoint any_assignment (checker : option (RelationCheck -> result E RelationDecision)) (server : ResourceServer)
    (rules : list ResourceAccessRule) (subject : Actor) (actors : list Actor) (scopes : list string) :
    result (evaluation_error E) RelationDecision :=
  match rules with
  | [] => Ok {| rd_Permitted := false; rd_Reasons := ["operation_assignment_required"] |}
  | r :: rules =>
      if negb (is_some (rule_Tool r)) then any_assignment checker server rules subject actors scopes
      else
        let? decision := checkToolAssignment checker server r subject actors scopes in
        if rd_Permitted decision then Ok decision else any_assignment checker server rules subject actors scopes
  end.

Definition operationPermission (checker : RelationCheck -> result E RelationDecision) (server : ResourceServer)
    (operation : resourceOperation) (subject : Actor) (actors : list Actor) (scopes : list string) :
    result (evaluation_error E) RelationDecision :=
  let r := op_Rule operation in
  let in_ := op_Request operation in
  let check := {| rc_TenantID := rr_TenantID in_; rc_ResourceType := rr_ResourceType in_; rc_ResourceID := rr_ResourceID in_;
                  rc_Relation := rr_Relation in_; rc_Subject := subject; rc_Actors := actors; rc_GrantedScopes := scopes;
                  rc_RequiredScopes := rule_Scopes r |} in
  if op_Preparation operation then any_assignment (Some checker) server (AccessRules server) subject actors scopes
  else match rule_Tool r with
  | None => on_port (checker check)
  | Some tool =>
      let? decision := checkToolAssignment (Some checker) server r subject actors scopes in
      if negb (rd_Permitted decision) then Ok decision
      else if rule_ResourceType r =? ResourceTypeMcpOperation then
        if ResourceIDArgument tool =? "" then Ok decision
        else checkTargetRange checker server operation subject actors scopes
      else on_port (checker check)
  end.

(** The loop over the scopes of a rule. *)
Definition add_scopes (allowed scopes : list string) : list string :=
  fold_left (fun allowed scope => if contains allowed scope then allowed else (allowed ++ [scope])%list) scopes allowed.

Fixpoint assigned_scopes (checker : option (RelationCheck -> result E RelationDecision)) (server : ResourceServer) (agent : Actor)
    (ceiling : list string) (rules : list ResourceAccessRule) (allowed : list string) : result (evaluation_error E) (list string) :=
  match rules with
  | [] => Ok allowed
  | r :: rules =>
      if negb (is_some (rule_Tool r)) then assigned_scopes checker server agent ceiling rules allowed
      else
        let? decision := checkToolAssignment checker server r agent [] ceiling in
        assigned_scopes checker server agent ceiling rules
          (if rd_Permitted decision then add_scopes allowed (rule_Scopes r) else allowed)
  end.

Definition AssignedToolScopes (checker : option (RelationCheck -> result E RelationDecision)) (server : ResourceServer)
    (agentID : string) (ceiling : list string) : result (evaluation_error E) (list string) :=
  assigned_scopes checker server {| act_Type := "agent"; act_ID := agentID |} ceiling (AccessRules server) [].

(** ** The holder of the token *)

Definition htuWithinResource (htu resource : string) : bool :=
  match ev_url_Parse ev htu, ev_url_Parse ev resource with
  | Some target, Some base =>
      if (url_Scheme target <>? url_Scheme base) || negb (ev_EqualFold ev (url_Host target) (url_Host base)) then false
      else let prefix := TrimSuffix (url_Path base) "/" in
           (url_Path target =? prefix) || HasPrefix (url_Path target) (prefix ++ "/")
  | _, _ => false
  end.

(** The verification of the proof: its key, [None] for a proof that is wrong,
    and an error only when the record cannot be reached. *)
Definition verified_key (in_ : ResourceAccessRequest) (now : Time) : flow (option string) := fun s =>
  let '(r, s', _) :=
    VerifyDPoPForResource (S := S) (E := E) (ev_lib ev) (rr_DPoPProof in_) (rr_HTM in_) (rr_HTU in_) (rr_Token in_) now s in
  (match r with
   | Ok verified => Ok (dpop_JKT <$> verified)
   | Err (ErrDPoPReplayStoreUnavailable e) => Err (ReplayStoreUnavailable e)
   | Err _ => Ok None
   end, s', []).

Definition senderProofHolds (server : ResourceServer) (token : IntrospectionResult) (in_ : ResourceAccessRequest) (now : Time) : flow bool :=
  match ir_SenderConstraint token with
  | None => eff_ret true
  | Some constraint =>
      if sender_Type constraint =? SenderConstraintDPoP then
        if (rr_DPoPProof in_ =? "") || negb (htuWithinResource (rr_HTU in_) (srv_Resource server)) then eff_ret false
        else if negb (rd_has_Replay d) then eff_fail ErrEvaluationNotConfigured
        else
          let! key := verified_key in_ now in
          eff_ret (match key with Some jkt => jkt =? sender_JKT constraint | None => false end)
      else if sender_Type constraint =? SenderConstraintMTLS then
        eff_ret ((rr_CertificateThumbprint in_ <>? "") && (rr_CertificateThumbprint in_ =? sender_X5TS256 constraint))
      else eff_ret false
  end.

(** [act["act"] != nil]. *)
Definition act_nests (a : act_claim) : bool :=
  let '(ActClaim _ nested others) := a in
  is_some nested || existsb (fun o => (o.1 =? "act") && (o.2 <>? "null")) others.

Definition actIsResourceServer (findByClientID : string -> string -> result E (option ResourceServer)) (tenantID : string)
    (subject : Actor) (act : act_claim) : result (evaluation_error E) bool :=
  if (act_Type subject <>? PrincipalTypeAgent) || (act_sub act =? "") || act_nests act then Ok false
  else
    let? server := on_port (findByClientID tenantID (act_sub act)) in
    Ok (match server with Some server => srv_IsActive server | None => false end).

Definition agent_actor (id : string) : Actor := {| act_Type := PrincipalTypeAgent; act_ID := id |}.

Definition principal_actors (subject : Actor) (agents : list string) : list Actor :=
  map agent_actor (List.filter (fun id => negb ((act_Type subject =? PrincipalTypeAgent) && (id =? act_ID subject))) agents).

(** The subject, when there is one. *)
Definition token_subject (tenantID : string) (token : IntrospectionResult) : result (evaluation_error E) (option Actor) :=
  if (ir_PrincipalType token =? PrincipalTypeAgent) && (ir_AgentID token <>? "") then Ok (Some (agent_actor (ir_AgentID token)))
  else
    let? user := on_port (isUserSubject (rd_Clients d) tenantID (ir_Sub token)) in
    Ok (if user then Some {| act_Type := "user"; act_ID := ir_Sub token |} else None).

(** The subject and the actors; [None] when they cannot be resolved. *)
Definition principalsFromToken (findByClientID : string -> string -> result E (option ResourceServer)) (tenantID : string)
    (token : IntrospectionResult) : result (evaluation_error E) (option (Actor * list Actor)) :=
  let agents := MergeAgentChain [[ir_AgentID token]; ir_AgentChain token] in
  let? subject := token_subject tenantID token in
  match subject with
  | None => Ok None
  | Some subject =>
      let actors := principal_actors subject agents in
      match ir_Act token, actors with
      | Some act, [] =>
          if (act_len act =? 0)%nat then Ok (Some (subject, actors))
          else
            let? intermediary := actIsResourceServer findByClientID tenantID subject act in
            Ok (if intermediary then Some (subject, actors) else None)
      | _, _ => Ok (Some (subject, actors))
      end
  end.

(** ** Conditions *)

Definition declaredAttributes (raw : string) : option (gmap string field_value) * string :=
  match ev_DecodeStrictJSONObject ev raw with
  | None => (None, hex_EncodeToString (Sum256 (bytes_of raw)))
  | Some attributes =>
      match ev_DigestOperationFields ev attributes with
      | None => (None, "")
      | Some digest => (Some attributes, digest)
      end
  end.

Definition delegation_mode (token : IntrospectionResult) : DelegationMode :=
  DeriveDelegationMode {| ds_Sub := ir_Sub token; ds_ClientID := ir_ClientID token; ds_PrincipalType := ir_PrincipalType token;
                          ds_Act := ir_Act token |}.

Definition set_claim (claims : gmap string condition_value) (entry : string * string) : gmap string condition_value :=
  let '(key, value) := entry in if value =? "" then claims else <[key := CString value]> claims.

Definition conditionInput (token : IntrospectionResult) (in_ : ResourceAccessRequest) (attributes : gmap string field_value) (now : Time) :
    ConditionInput :=
  let claims : gmap string condition_value :=
    <["scope" := CStrings (Fields (ir_Scope token))]> (<["aud" := CStrings (ir_Aud token)]> (<["iat" := CInt (ir_Iat token)]>
    (<["exp" := CInt (ir_Exp token)]> (<["delegation_mode" := CString (delegation_mode token)]> ∅)))) in
  let claims := fold_left set_claim [("sub", ir_Sub token); ("client_id", ir_ClientID token);
    ("principal_type", ir_PrincipalType token); ("agent_id", ir_AgentID token)] claims in
  {| ci_Token := if ir_AgentChain token =? [] then claims else <["agent_chain" := CStrings (ir_AgentChain token)]> claims;
     ci_Operation := <["resource_type" := CString (rr_ResourceType in_)]> (<["resource_id" := CString (rr_ResourceID in_)]>
       (<["relation" := CString (rr_Relation in_)]> ∅));
     ci_Now := now; ci_Attributes := attributes |}.

(** ** Limits *)

Definition resourceAccessLimitKey (server : ResourceServer) (r : ResourceAccessRule) (limit : ResourceAccessLimit)
    (subject : ResourceAccessLimitSubject) (tenantID : string) : option string :=
  let q := Quote (ev_printable ev) in
  (fun bucket => q tenantID ++ ":" ++ q (srv_ID server) ++ ":" ++ q (rule_ResourceType r) ++ ":" ++ q (rule_Relation r) ++ ":" ++ bucket)
    <$> Bucket (ev_printable ev) limit subject.

Definition limit_config (limit : ResourceAccessLimit) : RateLimitPolicyConfig :=
  {| MaxRequests := limit_MaxRequests limit; WindowSeconds := limit_WindowSeconds limit |}.

(** The loop over the limits: the one that was exceeded. *)
Fixpoint count_limits (server : ResourceServer) (r : ResourceAccessRule) (subject : ResourceAccessLimitSubject) (tenantID : string)
    (now : Time) (limits : list ResourceAccessLimit) : flow (option ResourceAccessLimit) :=
  match limits with
  | [] => eff_ret None
  | limit :: limits =>
      match resourceAccessLimitKey server r limit subject tenantID with
      | None => count_limits server r subject tenantID now limits
      | Some key =>
          let! result := call EvaluationPort (allow_within resourceAccessLimitPolicyID key (limit_config limit) now) in
          if rl_Allowed result then count_limits server r subject tenantID now limits else eff_ret (Some limit)
      end
  end.

Definition enforceResourceAccessLimits (server : ResourceServer) (r : ResourceAccessRule) (audit : evaluationAudit)
    (in_ : ResourceAccessRequest) (now : Time) : flow (option ResourceAccessLimit) :=
  if rule_Limits r =? [] then eff_ret None
  else if negb (rd_has_Limiter d) then eff_fail ErrEvaluationNotConfigured
  else count_limits server r {| ls_AgentID := agentID audit; ls_UserID := userID audit; ls_ResourceID := rr_ResourceID in_ |}
         (rr_TenantID in_) now (OrderedLimits r).

(** ** The evaluation *)

(** A stage passes a value on or ends the evaluation with a denial. *)
Inductive stage (A : Type) := Pass (a : A) | Deny (reasons : list string) (audit : evaluationAudit).
Arguments Pass {A} a.
Arguments Deny {A} reasons audit.

Definition stage_bind {A B} (m : flow (stage A)) (k : A -> flow (stage B)) : flow (stage B) :=
  let! r := m in
  match r with
  | Pass a => k a
  | Deny reasons audit => eff_ret (Deny reasons audit)
  end.

Notation "'let&' x ':=' m 'in' k" := (stage_bind m (fun x => k))
  (at level 10, x pattern, m at level 100, k at level 200).
Notation "'deny_if' b 'with' reason 'for' audit 'in' k" := (if b then eff_ret (Deny [reason] audit) else k)
  (at level 10, b at level 100, reason at level 9, audit at level 9, k at level 200).

Definition CanonicalizeOperationParameters (raw : string) : option string :=
  ev_DecodeStrictJSONObject ev raw ≫= ev_DigestOperationFields ev.

(** The functions of the approvals, which emit nothing. *)
Definition on_approvals {A} (m : eff S unit (operation_error E) A) : flow A := fun s =>
  let '(r, s', _) := m s in
  (match r with
   | Ok a => Ok a
   | Err ErrResourceAccessNotConfigured => Err ErrEvaluationNotConfigured
   | Err (AccessPortError e) => Err (EvaluationPort e)
   end, s', []).

(** The tenant of the context, the registration, the request as it was resolved
    and the grant that would be drawn. *)
Context (tenantID : string) (findByClientID : string -> string -> result E (option ResourceServer)).
Context (introspect : string -> result E (option IntrospectionResult)) (checker : RelationCheck -> result E RelationDecision).
Context (server : ResourceServer) (operation : resourceOperation) (now : Time) (grant : string).

Notation rule := (op_Rule operation).
Notation in_ := (op_Request operation).

(** [reasonFor]: an operation without a rule is told nothing else. *)
Definition reasonFor (reason : string) : string :=
  if op_Registered operation then reason else ReasonOperationNotRegistered.

Definition presented_token : flow (stage IntrospectionResult) :=
  let! token := lift (on_port (introspect (rr_Token in_))) in
  match token with
  | None => eff_ret (Deny [reasonFor ReasonTokenRejected] (token_audit ""))
  | Some token =>
      deny_if negb (ir_Active token) || negb (contains (ir_Aud token) (srv_Resource server))
        with (reasonFor ReasonTokenRejected) for (token_audit "") in
      eff_ret (Pass token)
  end.

(** The principals and what the audit says of them. *)
Definition resolved_principals (token : IntrospectionResult) : flow (stage (option (Actor * list Actor) * evaluationAudit)) :=
  let! proved := senderProofHolds server token in_ now in
  deny_if negb proved with (reasonFor ReasonSenderProofInvalid) for (token_audit (ir_JTI token)) in
  let! principals := lift (principalsFromToken findByClientID (rr_TenantID in_) token) in
  eff_ret (Pass (principals, match principals with
                             | Some (subject, actors) => newEvaluationAudit (ir_JTI token) subject actors
                             | None => token_audit (ir_JTI token)
                             end)).

(** The rule, its details and the relation. *)
Definition permitted_relation (token : IntrospectionResult) (principals : option (Actor * list Actor)) (audit : evaluationAudit) :
    flow (stage unit) :=
  deny_if negb (op_Registered operation) with ReasonOperationNotRegistered for audit in
  deny_if negb (PermitsDetails rule (ir_AuthorizationDetails token) (srv_Resource server) (rr_ResourceID in_))
    with ReasonAuthorizationDetailMismatch for audit in
  match principals with
  | None => eff_ret (Deny [ReasonPrincipalUnresolved] audit)
  | Some (subject, actors) =>
      let! relation := lift (operationPermission checker server operation subject actors (Fields (ir_Scope token))) in
      if negb (rd_Permitted relation) then eff_ret (Deny (rd_Reasons relation) audit) else eff_ret (Pass tt)
  end.

(** The rule of the approval that a condition asks for. *)
Definition approval_rule (detailType : string) : ResourceAccessRule :=
  {| rule_Tool := None; rule_ResourceType := ""; rule_Relation := rr_Relation in_; rule_Scopes := []; AuthorizationDetailType := detailType;
     RequiresApprovedOperation := false; rule_Condition := None; rule_Limits := []; TokenExchangeResources := [] |}.

Definition condition_outcome (c : ResourceAccessCondition) (token : IntrospectionResult) (attributes : option (gmap string field_value)) :
    ConditionOutcome :=
  match attributes with
  | Some attributes => Condition_Evaluate (ev_cel ev) c (conditionInput token in_ attributes now)
  | None => ConditionIndeterminate
  end.

(** The type of the detail that an approval must have, or none, and the audit. *)
Definition judged_condition (token : IntrospectionResult) (audit : evaluationAudit) : flow (stage (string * evaluationAudit)) :=
  let approvalDetailType := if RequiresApprovedOperation rule then AuthorizationDetailType rule else "" in
  match rule_Condition rule with
  | None => eff_ret (Pass (approvalDetailType, audit))
  | Some c =>
      let '(attributes, digest) := declaredAttributes (rr_Attributes in_) in
      let outcome := condition_outcome c token attributes in
      let audit := with_condition (Condition_Version (ev_lib ev) c) outcome digest audit in
      deny_if outcome =? ConditionDeny with ReasonConditionDenied for audit in
      deny_if outcome =? ConditionIndeterminate with ReasonConditionIndeterminate for audit in
      if outcome =? ConditionRequireApproval then
        deny_if (ir_ApprovalRequestID token =? "") ||
            negb (PermitsDetails (approval_rule (ApprovalDetailType c)) (ir_AuthorizationDetails token) (srv_Resource server) (rr_ResourceID in_))
          with ReasonApprovalRequired for audit in
        if rr_OperationKey in_ =? "" then eff_fail ErrOperationKeyRequired
        else eff_ret (Pass (ApprovalDetailType c, audit))
      else eff_ret (Pass (approvalDetailType, audit))
  end.

Definition token_view (token : IntrospectionResult) : TokenView :=
  {| tv_ApprovalRequestID := ir_ApprovalRequestID token; tv_Sub := ir_Sub token; tv_ClientID := ir_ClientID token |}.

Definition operation_request : OperationRequest :=
  {| or_ClientID := rr_ClientID in_; or_ResourceID := rr_ResourceID in_; or_Relation := rr_Relation in_;
     or_OperationKey := rr_OperationKey in_; or_OperationParameters := rr_OperationParameters in_ |}.

(** A reason of the approvals ends the evaluation. *)
Definition allowed_or_denied {A} (m : eff S unit (operation_error E) (allowance A)) (audit : evaluationAudit) : flow (stage A) :=
  let! r := on_approvals m in
  match r with
  | Allowed a => eff_ret (Pass a)
  | Denied reason => eff_ret (Deny [reason] audit)
  end.

Definition matched_approval (token : IntrospectionResult) (approvalDetailType : string) (audit : evaluationAudit) :
    flow (stage (option matchedApproval)) :=
  if approvalDetailType =? "" then eff_ret (Pass None)
  else
    let& matched := allowed_or_denied
      (matchApprovedOperation CanonicalizeOperationParameters (ev_DigestOperationFields ev) (rd_has_Approvals d) tenantID
         (srv_Resource server) approvalDetailType (token_view token) operation_request now) audit in
    eff_ret (Pass (Some matched)).

Definition counted_limits (audit : evaluationAudit) : flow (stage unit) :=
  let! exceeded := enforceResourceAccessLimits server rule audit in_ now in
  match exceeded with
  | Some limit => eff_ret (Deny [ReasonLimitExceeded] (with_exceeded limit audit))
  | None => eff_ret (Pass tt)
  end.

Definition claimed_approval (approval : option matchedApproval) (audit : evaluationAudit) : flow (stage (option ApprovedOperationUse)) :=
  match approval with
  | None => eff_ret (Pass None)
  | Some approval =>
      let& use := allowed_or_denied (claimApprovedOperation tenantID approval now) audit in
      eff_ret (Pass (Some use))
  end.

Definition issueTokenExchangeGrant (subjectTokenID : string) : flow string :=
  if rr_TokenExchangeResource in_ =? "" then eff_ret ""
  else if negb (rd_has_Grants d) then eff_fail ErrEvaluationNotConfigured
  else
    do! call EvaluationPort (save_grant tenantID (HashTokenExchangeGrant grant)
      {| tg_ClientID := rr_ClientID in_; tg_SubjectTokenID := subjectTokenID; tg_Resource := rr_TokenExchangeResource in_;
         tg_ExpiresAt := Add now TokenExchangeGrantTTL |}) in
    eff_ret grant.

(** The exchange that would follow is refused before anything is used up. *)
Definition exchange_refused (token : IntrospectionResult) (approvalDetailType : string) : bool :=
  (rr_TokenExchangeResource in_ <>? "") &&
  ((approvalDetailType <>? "") || negb (PermitsTokenExchange rule (rr_TokenExchangeResource in_)) || (ir_JTI token =? "")).

Definition evaluation_stages : flow (stage (ResourceAccessDecision * evaluationAudit)) :=
  let& token := presented_token in
  let& known := resolved_principals token in
  let& _ := permitted_relation token known.1 known.2 in
  let& judged := judged_condition token known.2 in
  deny_if exchange_refused token judged.1 with ReasonTokenExchangeNotPermitted for (judged.2) in
  let& approval := matched_approval token judged.1 judged.2 in
  let& _ := counted_limits judged.2 in
  let& approved := claimed_approval approval judged.2 in
  let! granted := issueTokenExchangeGrant (ir_JTI token) in
  eff_ret (Pass ({| dec_Permitted := true; dec_Reasons := []; dec_Scope := ir_Scope token; dec_DelegationMode := delegation_mode token;
                    dec_AuthorizationDetails := ir_AuthorizationDetails token; dec_ApprovedOperation := approved;
                    dec_TokenExchangeGrant := granted |}, judged.2)).

Definition evaluateForServer : flow (ResourceAccessDecision * evaluationAudit) :=
  if op_Registered operation && RequiresApprovedOperation rule && (rr_OperationKey in_ =? "") then eff_fail ErrOperationKeyRequired
  else
    let! r := evaluation_stages in
    match r with
    | Pass decided => eff_ret decided
    | Deny reasons audit => eff_ret (denyReasons reasons, audit)
    end.
End usecase.

Arguments Pass {A} a.
Arguments Deny {A} reasons audit.

(** ** The use case *)

Section entry.
Context {S E C : Type} `{ApprovalPort S E} `{RatePort S E} `{ReplayPort S E} `{SaveGrantPort S E}.
Notation flow := (eff S ResourceAccessEvaluated (evaluation_error E)).

Definition evaluation_event (server : ResourceServer) (in_ : ResourceAccessRequest) (now : Time) (decision : ResourceAccessDecision)
    (audit : evaluationAudit) : ResourceAccessEvaluated :=
  let use := dec_ApprovedOperation decision in
  {| rae_At := now; rae_TenantID := rr_TenantID in_; rae_RSClientID := rr_ClientID in_; rae_ResourceServerID := srv_ID server;
     rae_TokenID := tokenID audit; rae_UserID := userID audit; rae_AgentID := agentID audit; rae_ActorChain := actorChain audit;
     rae_RequestID := rr_RequestID in_; rae_ResourceType := rr_ResourceType in_; rae_Relation := rr_Relation in_;
     rae_Permitted := dec_Permitted decision; rae_Reasons := dec_Reasons decision;
     rae_ApprovalRequestID := match use with Some u => use_ApprovalRequestID u | None => "" end;
     rae_OperationDigest := match use with Some u => OperationDigest u | None => "" end;
     rae_Replayed := match use with Some u => Replayed u | None => false end;
     rae_ConditionVersion := conditionVersion audit; rae_ConditionOutcome := conditionOutcome audit;
     rae_DeclaredAttributesDigest := attributesDigest audit;
     rae_ExceededLimitBy := match exceededLimit audit with Some l => By l | None => [] end;
     rae_ExceededLimitWindowSeconds := match exceededLimit audit with Some l => limit_WindowSeconds l | None => 0%Z end |}.

(** [tenantID] is the tenant of the context and [grant] what [rand.Text] would
    draw. *)
Definition EvaluateResourceAccess (ev : Evaluator) (d : ResourceAccessDeps (E := E) (C := C)) (tenantID : string)
    (in_ : ResourceAccessRequest) (now : Time) (grant : string) : flow ResourceAccessDecision :=
  match rd_Servers d, rd_Tokens d, rd_Relations d with
  | Some findByClientID, Some introspect, Some checker =>
      let! server := lift (on_port (findByClientID (rr_TenantID in_) (rr_ClientID in_))) in
      match server with
      | None => eff_fail ErrResourceServerNotRegistered
      | Some server =>
          if negb (srv_IsActive server) then eff_fail ErrResourceServerNotRegistered
          else
            let! decided := evaluateForServer ev d tenantID findByClientID introspect checker server
                              (resolveResourceOperation ev server in_) now grant in
            do! (if rd_has_Emit d then emit (evaluation_event server in_ now decided.1 decided.2) else eff_ret tt) in
            eff_ret decided.1
      end
  | _, _, _ => eff_fail ErrEvaluationNotConfigured
  end.
End entry.

Arguments ResourceAccessDeps : clear implicits.

(** ** The memory stores together *)

Record AccessStore := {
  as_approvals : ApprovalRequestStore;
  as_limits : RateLimiter;
  as_proofs : replayStore;
  as_grants : TokenExchangeGrantStore;
}.

Definition on_requests {A} (op : ApprovalRequestStore -> A * ApprovalRequestStore) (s : AccessStore) : A * AccessStore :=
  let '(r, approvals) := op (as_approvals s) in
  (r, {| as_approvals := approvals; as_limits := as_limits s; as_proofs := as_proofs s; as_grants := as_grants s |}).

#[export] Instance access_approvals : ApprovalPort AccessStore transition_error := {
  save_approval t r := on_requests (save_approval t r);
  find_approval t id := on_requests (find_approval t id);
  find_approval_hash t h := on_requests (find_approval_hash t h);
  poll_approval t h now := on_requests (poll_approval t h now);
  expire_approval t h now := on_requests (expire_approval t h now);
  decide_approval t id u e now := on_requests (decide_approval t id u e now);
  consume_approval t h now := on_requests (consume_approval t h now);
  claim_approval t id use now := on_requests (claim_approval t id use now);
}.

#[export] Instance access_limits : RatePort AccessStore transition_error := {
  allow_within p k config now s :=
    let '(r, l) := AllowWithin p k config now (as_limits s) in
    (Ok r, {| as_approvals := as_approvals s; as_limits := l; as_proofs := as_proofs s; as_grants := as_grants s |});
}.

#[export] Instance access_proofs : ReplayPort AccessStore transition_error := {
  record_if_new jti w now s :=
    let '(fresh, p) := recordIfNew now jti w now (as_proofs s) in
    (Ok fresh, {| as_approvals := as_approvals s; as_limits := as_limits s; as_proofs := p; as_grants := as_grants s |});
}.

#[export] Instance access_grants : SaveGrantPort AccessStore transition_error := {
  save_grant t h g s :=
    (Ok tt, {| as_approvals := as_approvals s; as_limits := as_limits s; as_proofs := as_proofs s;
               as_grants := grant_Save t h g (as_grants s) |});
}.

(** ** Stages *)

Section proofs.
Context {C : Type} (ev : Evaluator) (d : ResourceAccessDeps transition_error C).
Context (tenantID : string) (findByClientID : string -> string -> result transition_error (option ResourceServer)).
Context (introspect : string -> result transition_error (option IntrospectionResult)).
Context (checker : RelationCheck -> result transition_error RelationDecision).
Context (server : ResourceServer) (operation : resourceOperation) (now : Time) (grant : string).
Notation flow := (eff AccessStore ResourceAccessEvaluated (evaluation_error transition_error)).
Notation in_ := (op_Request operation).
Implicit Types (s : AccessStore).

Lemma stage_Pass {A B} (m : flow (stage A)) (k : A -> flow (stage B)) s b s' w : stage_bind m k s = (Ok (Pass b), s', w) ->
  exists a s1 w1 w2, m s = (Ok (Pass a), s1, w1) /\ k a s1 = (Ok (Pass b), s', w2).
Proof.
  unfold stage_bind. intros (r & s1 & w1 & w2 & Hm & Hk & _)%eff_bind_Ok. destruct r as [a|]; [|done].
  by exists a, s1, w1, w2.
Qed.

Lemma stage_Deny {A B} (m : flow (stage A)) (k : A -> flow (stage B)) s reasons audit s' w :
  stage_bind m k s = (Ok (Deny reasons audit), s', w) ->
  (exists w1, m s = (Ok (Deny reasons audit), s', w1)) \/
  exists a s1 w1 w2, m s = (Ok (Pass a), s1, w1) /\ k a s1 = (Ok (Deny reasons audit), s', w2).
Proof.
  unfold stage_bind. intros (r & s1 & w1 & w2 & Hm & Hk & _)%eff_bind_Ok. destruct r as [a|reasons' audit'].
  - right. by exists a, s1, w1, w2.
  - left. unfold eff_ret in Hk. injection Hk as <- <- <- <-. by exists w1.
Qed.

Lemma keeps_stage {A B} (P : AccessStore -> Prop) (m : flow (stage A)) (k : A -> flow (stage B)) :
  keeps P m -> (forall a, keeps P (k a)) -> keeps P (stage_bind m k).
Proof. intros Hm Hk. apply keeps_bind; [done|]. intros [a|r a]; [apply Hk|apply keeps_ret]. Qed.

(** What only a permitted access may spend. *)
Definition unspent (approvals : ApprovalRequestStore) (grants : TokenExchangeGrantStore) (s : AccessStore) : Prop :=
  as_approvals s = approvals /\ as_grants s = grants.

(** And what only the counting of limits may spend besides. *)
Definition uncounted (approvals : ApprovalRequestStore) (grants : TokenExchangeGrantStore) (limits : RateLimiter) (s : AccessStore) : Prop :=
  unspent approvals grants s /\ as_limits s = limits.

Lemma verified_key_keeps approvals grants limits : keeps (uncounted approvals grants limits) (verified_key (S := AccessStore) ev in_ now).
Proof.
  intros s Hs. unfold verified_key, VerifyDPoPForResource. destruct (rr_DPoPProof in_ =? ""); [done|].
  destruct (rr_Token in_ =? ""); [done|].
  unfold verifyDPoP, eff_bind, lift, call. destruct (dpop_checks _ _ _ _ _ _) as [[jti jwk]|e]; [|done]. simpl.
  destruct (recordIfNew _ _ _ _ _) as [fresh p]. simpl. destruct fresh; simpl; [|done]. by destruct (or_invalid _ _).
Qed.

Lemma presented_token_keeps P : keeps P (presented_token (S := AccessStore) introspect server operation).
Proof. unfold presented_token. keeps_steps. Qed.

Lemma resolved_principals_keeps approvals grants limits token :
  keeps (uncounted approvals grants limits) (resolved_principals (S := AccessStore) ev d findByClientID server operation now token).
Proof.
  unfold resolved_principals, senderProofHolds. keeps_steps. apply verified_key_keeps.
Qed.

Lemma permitted_relation_keeps P token principals audit :
  keeps P (permitted_relation (S := AccessStore) checker server operation token principals audit).
Proof. unfold permitted_relation. keeps_steps. Qed.

Lemma judged_condition_keeps P token audit : keeps P (judged_condition (S := AccessStore) (E := transition_error) ev server operation now token audit).
Proof. unfold judged_condition. keeps_steps. Qed.

Lemma matched_approval_reads token ty audit s r s' w :
  matched_approval (S := AccessStore) ev d tenantID server operation now token ty audit s = (r, s', w) -> s' = s.
Proof.
  unfold matched_approval. destruct (ty =? ""); [by intros [= <- <- <-]|].
  unfold stage_bind, allowed_or_denied, on_approvals, eff_bind.
  enough (Hm : forall s, (matchApprovedOperation (S := AccessStore) (E := transition_error) (CanonicalizeOperationParameters ev)
            (ev_DigestOperationFields ev) (rd_has_Approvals d) tenantID (srv_Resource server) ty (token_view token) (operation_request operation) now s).1.2 = s).
  { specialize (Hm s). destruct (matchApprovedOperation _ _ _ _ _ _ _ _ _ s) as [[r1 s1] w1]. simpl in Hm. subst s1.
    destruct r1 as [[a|reason]|[|e]]; unfold eff_ret; by intros [= <- <- <-]. }
  intros s0. unfold matchApprovedOperation. destruct (negb _); [done|]. destruct (tv_ApprovalRequestID _ =? ""); [done|].
  unfold eff_bind, call, find_approval. simpl. destruct s0 as [a l p g]. unfold on_requests. simpl.
  destruct (approval_FindByID _ _ _) as [rec|]; [|done]. destruct (_ || _); [done|]. destruct (CanonicalizeOperationParameters _ _); [|done].
  destruct (MatchApprovedOperation _ _ _ _ _); try done. destruct (ap_Use rec) as [use|]; [|done]. by destruct (KeyHash use <>? _).
Qed.

Lemma matched_approval_keeps P token ty audit :
  keeps P (matched_approval (S := AccessStore) ev d tenantID server operation now token ty audit).
Proof.
  apply keeps_pure. intros s. destruct (matched_approval _ _ _ _ _ _ _ _ _ s) as [[r s'] w] eqn:Hm. simpl.
  by apply matched_approval_reads in Hm.
Qed.

Lemma count_limits_keeps approvals grants r subject tenant limits :
  keeps (unspent approvals grants) (count_limits (S := AccessStore) (E := transition_error) ev server r subject tenant now limits).
Proof.
  induction limits as [|limit limits IH]; [apply keeps_ret|]. simpl. destruct (resourceAccessLimitKey _ _ _ _ _ _) as [key|]; [|done].
  apply keeps_bind; [|intros a; by destruct (rl_Allowed a); [|apply keeps_ret]]. apply keeps_call. intros s Hs.
  done.
Qed.

Lemma counted_limits_keeps approvals grants audit :
  keeps (unspent approvals grants) (counted_limits (S := AccessStore) (E := transition_error) ev d server operation now audit).
Proof.
  unfold counted_limits, enforceResourceAccessLimits. keeps_steps. apply count_limits_keeps.
Qed.

(** A claim that is denied, or was not asked for, changes nothing. *)
Lemma claimed_approval_Deny approval audit s reasons audit' s' w :
  claimed_approval (S := AccessStore) (E := transition_error) tenantID now approval audit s = (Ok (Deny reasons audit'), s', w) -> s' = s.
Proof.
  unfold claimed_approval. destruct approval as [a|]; [|done]. intros [[w1 Hc]|(u & s1 & w1 & w2 & _ & Hk)]%stage_Deny; [|done].
  revert Hc. unfold allowed_or_denied, on_approvals, eff_bind, claimApprovedOperation. unfold eff_bind, call, claim_approval. simpl.
  unfold on_requests. destruct s as [ap l p g]. simpl.
  destruct (ClaimUse_cases tenantID (requestID a) {| KeyHash := keyHash a; ClaimedAt := now |} now ap)
    as [(o & -> & _)|(q & r & _ & _ & _ & _ & _ & ->)]; simpl.
  - destruct (o ≫= ap_Use) as [use|]; [destruct (KeyHash use <>? keyHash a)|]; unfold eff_ret; simpl; congruence.
  - rewrite bool_decide_true by done. simpl. unfold eff_ret. simpl. congruence.
Qed.

(** A stage that fails or denies ends the evaluation there. *)
Lemma stage_run {A B} (m : flow (stage A)) (k : A -> flow (stage B)) s r s' w : stage_bind m k s = (r, s', w) ->
  (exists r1 w1, m s = (r1, s', w1) /\ forall a, r1 <> Ok (Pass a)) \/
  exists a s1 w1 w2, m s = (Ok (Pass a), s1, w1) /\ k a s1 = (r, s', w2).
Proof.
  unfold stage_bind, eff_bind. destruct (m s) as [[[[a|reasons audit]|e] s1] w1] eqn:Hm.
  - destruct (k a s1) as [[r2 s2] w2] eqn:Hk. intros [= <- <- <-]. right. by exists a, s1, w1, w2.
  - unfold eff_ret. intros [= <- <- <-]. left. by eexists _, _.
  - intros [= <- <- <-]. left. by eexists _, _.
Qed.

Lemma keeps_run {A} (P : AccessStore -> Prop) (m : flow A) s r s' w : keeps P m -> P s -> m s = (r, s', w) -> P s'.
Proof. intros Hm Hs Hr. specialize (Hm s Hs). by rewrite Hr in Hm. Qed.

Lemma stage_return {A B} (m : flow (stage A)) (f : A -> B) s r s' w :
  stage_bind m (fun a => eff_ret (Pass (f a))) s = (r, s', w) -> (forall b, r <> Ok (Pass b)) ->
  exists r1 w1, m s = (r1, s', w1) /\ forall a, r1 <> Ok (Pass a).
Proof.
  intros H Hr. apply stage_run in H as [H|(a & s1 & w1 & w2 & _ & H)]; [done|].
  unfold eff_ret in H. injection H as <- _ _. by destruct (Hr (f a)).
Qed.

(** A claim that gives no right changes nothing; with the memory store it does
    not fail. *)
Lemma claimed_approval_fruitless approval audit s r s' w :
  claimed_approval (S := AccessStore) (E := transition_error) tenantID now approval audit s = (r, s', w) ->
  (forall use, r <> Ok (Pass use)) -> s' = s.
Proof.
  intros Hc Hr. destruct r as [[use|reasons audit']|e]; [by destruct (Hr use)|by eapply claimed_approval_Deny|].
  exfalso. revert Hc. unfold claimed_approval. destruct approval as [a|]; [|done].
  unfold stage_bind, allowed_or_denied, on_approvals, claimApprovedOperation, eff_bind, call, claim_approval. simpl. unfold on_requests.
  simpl. destruct (ClaimUse tenantID (requestID a) _ now (as_approvals s)) as [[o recorded] ap]. simpl.
  destruct (o ≫= ap_Use) as [use|]; [destruct (KeyHash use <>? keyHash a)|]; done.
Qed.

Lemma claimed_approval_None audit s r s' w :
  claimed_approval (S := AccessStore) (E := transition_error) tenantID now None audit s = (r, s', w) -> r = Ok (Pass None) /\ s' = s.
Proof. unfold claimed_approval, eff_ret. by intros [= <- <- _]. Qed.

Lemma matched_approval_None token ty audit s approval s' w :
  matched_approval (S := AccessStore) ev d tenantID server operation now token ty audit s = (Ok (Pass approval), s', w) ->
  ty = "" -> approval = None.
Proof. intros H ->. unfold matched_approval, eff_ret in H. simpl in H. by injection H as <- _ _. Qed.

(** An evaluation that does not permit has spent neither an approval nor a
    grant. *)
Lemma stages_fruitless s r s' w :
  evaluation_stages ev d tenantID findByClientID introspect checker server operation now grant s = (r, s', w) ->
  (forall p, r <> Ok (Pass p)) -> unspent (as_approvals s) (as_grants s) s'.
Proof.
  set (P := uncounted (as_approvals s) (as_grants s) (as_limits s)). assert (HP : P s) by done. intros H Hr. unfold evaluation_stages in H.
  apply stage_run in H as [(? & ? & H & _)|(token & s1 & ? & w1 & H1 & H)].
  { by apply (keeps_run P _ _ _ _ _ (presented_token_keeps P) HP) in H as []. }
  apply (keeps_run P _ _ _ _ _ (presented_token_keeps P) HP) in H1.
  apply stage_run in H as [(? & ? & H & _)|(known & s2 & ? & w2 & H2 & H)].
  { by apply (keeps_run P _ _ _ _ _ (resolved_principals_keeps _ _ _ _) H1) in H as []. }
  apply (keeps_run P _ _ _ _ _ (resolved_principals_keeps _ _ _ _) H1) in H2.
  apply stage_run in H as [(? & ? & H & _)|([] & s3 & ? & w3 & H3 & H)].
  { by apply (keeps_run P _ _ _ _ _ (permitted_relation_keeps P _ _ _) H2) in H as []. }
  apply (keeps_run P _ _ _ _ _ (permitted_relation_keeps P _ _ _) H2) in H3.
  apply stage_run in H as [(? & ? & H & _)|(judged & s4 & ? & w4 & H4 & H)].
  { by apply (keeps_run P _ _ _ _ _ (judged_condition_keeps P _ _) H3) in H as []. }
  apply (keeps_run P _ _ _ _ _ (judged_condition_keeps P _ _) H3) in H4 as [H4 _].
  destruct (exchange_refused _ _ _) eqn:Hx. { unfold eff_ret in H. by injection H as <- <- _. }
  apply stage_run in H as [(? & ? & H & _)|(approval & s5 & ? & w5 & H5 & H)].
  { apply matched_approval_reads in H. by subst. }
  pose proof (matched_approval_None _ _ _ _ _ _ _ H5) as Hnone. apply matched_approval_reads in H5. subst s5.
  apply stage_run in H as [(? & ? & H & _)|([] & s6 & ? & w6 & H6 & H)].
  { by apply (keeps_run _ _ _ _ _ _ (counted_limits_keeps _ _ _) H4) in H. }
  apply (keeps_run _ _ _ _ _ _ (counted_limits_keeps _ _ _) H4) in H6.
  apply stage_run in H as [(r1 & ? & H & Hp)|(approved & s7 & ? & w7 & H7 & H)].
  { apply claimed_approval_fruitless in H; [|done]. by subst. }
  revert H. unfold eff_bind, issueTokenExchangeGrant. destruct (rr_TokenExchangeResource in_ =? "") eqn:He.
  { unfold eff_ret. intros [= <- _ _]. by destruct (Hr _ eq_refl). }
  unfold exchange_refused in Hx. rewrite He in Hx. simpl in Hx. apply orb_false_iff in Hx as [Hx _]. apply orb_false_iff in Hx as [Hx _].
  go_bool. rewrite (Hnone Hx) in H7. apply claimed_approval_None in H7 as [_ ->].
  destruct (negb (rd_has_Grants d)); [by intros [= _ <- _]|].
  unfold eff_bind, call, save_grant. simpl. unfold eff_ret. intros [= <- _ _]. by destruct (Hr _ eq_refl).
Qed.

Lemma stages_permit s decision audit s' w :
  evaluation_stages ev d tenantID findByClientID introspect checker server operation now grant s = (Ok (Pass (decision, audit)), s', w) ->
  dec_Permitted decision = true.
Proof.
  unfold evaluation_stages. do 7 (intros H; apply stage_Pass in H as (? & ? & ? & ? & _ & H); revert H; try (destruct (exchange_refused _ _ _); [done|])).
  intros (granted & s1 & w1 & w2 & _ & H & _)%eff_bind_Ok. unfold eff_ret in H. by injection H as <- _ _ _.
Qed.

Lemma refusal_for_server s r s' w :
  evaluateForServer ev d tenantID findByClientID introspect checker server operation now grant s = (r, s', w) ->
  (forall decision audit, r = Ok (decision, audit) -> dec_Permitted decision = false) ->
  as_approvals s' = as_approvals s /\ as_grants s' = as_grants s /\
  forall decision audit, r = Ok (decision, audit) -> decision = denyReasons (dec_Reasons decision).
Proof.
  intros H Hr. unfold evaluateForServer in H. destruct (_ && _)%bool. { unfold eff_fail in H. by injection H as <- <- _. }
  unfold eff_bind in H.
  destruct (evaluation_stages _ _ _ _ _ _ _ _ _ _ s) as [[[[[decision audit]|reasons audit]|e] s1] w1] eqn:Hs; unfold eff_ret in H; simplify_eq/=.
  - apply stages_permit in Hs. by rewrite (Hr _ _ eq_refl) in Hs.
  - apply stages_fruitless in Hs as [H1 H2]; [|done]. split_and!; [done..|]. by intros ? ? [= <- <-].
  - apply stages_fruitless in Hs as [H1 H2]; [|done]. split_and!; done.
Qed.

(** ** What a permitted access satisfies *)

Notation rule := (op_Rule operation).

Lemma presented_token_Pass s token s' w :
  presented_token (S := AccessStore) introspect server operation s = (Ok (Pass token), s', w) ->
  introspect (rr_Token in_) = Ok (Some token) /\ ir_Active token = true /\ srv_Resource server ∈ ir_Aud token.
Proof.
  unfold presented_token. intros (r & s1 & w1 & w2 & H1 & H & _)%eff_bind_Ok. unfold lift in H1.
  destruct (introspect (rr_Token in_)) as [x|e]; [|done]. simpl in H1. injection H1 as -> _ _.
  destruct r as [t|]; [|done]. destruct (_ || _)%bool eqn:Hb; [done|]. unfold eff_ret in H. injection H as -> _ _. by go_bool.
Qed.

(** The holder of a bound token proved the key it is bound to. *)
Definition holder_proved (token : IntrospectionResult) : Prop :=
  forall c, ir_SenderConstraint token = Some c ->
  (sender_Type c = SenderConstraintDPoP /\ htuWithinResource ev (rr_HTU in_) (srv_Resource server) = true /\
   exists payload jwk, payload_of (ev_lib ev) (rr_DPoPProof in_) = Some payload /\
     string_member payload "htm" = rr_HTM in_ /\ string_member payload "htu" = rr_HTU in_ /\
     string_member payload "ath" = AccessTokenHash (rr_Token in_) /\ jwkThumbprint (ev_lib ev) jwk = Some (sender_JKT c)) \/
  (sender_Type c = SenderConstraintMTLS /\ rr_CertificateThumbprint in_ <> "" /\ rr_CertificateThumbprint in_ = sender_X5TS256 c).

Lemma verified_key_Some s key s' w : verified_key (S := AccessStore) ev in_ now s = (Ok (Some key), s', w) ->
  exists payload jwk, payload_of (ev_lib ev) (rr_DPoPProof in_) = Some payload /\
     string_member payload "htm" = rr_HTM in_ /\ string_member payload "htu" = rr_HTU in_ /\
     string_member payload "ath" = AccessTokenHash (rr_Token in_) /\ jwkThumbprint (ev_lib ev) jwk = Some key.
Proof.
  unfold verified_key, VerifyDPoPForResource. destruct (rr_DPoPProof in_ =? ""); [done|].
  destruct (rr_Token in_ =? "") eqn:Ht; [done|]. unfold verifyDPoP, eff_bind, lift, call.
  destruct (dpop_checks _ _ _ _ _ _) as [[jti jwk]|[]] eqn:Hc; [|done..].
  destruct (record_if_new _ _ _ s) as [[fresh|e] s1]; [|done]. destruct fresh; simpl; [|done].
  destruct (jwkThumbprint (ev_lib ev) jwk) as [jkt|] eqn:Hj; [|done]. simpl. intros [= -> _ _].
  apply dpop_checks_Ok in Hc as (payload & Hp & Hcl). apply dpop_claims_Ok in Hcl as (H1 & H2 & _ & H3 & _). go_bool.
  exists payload, jwk. split_and!; try done. by apply H3.
Qed.

Lemma resolved_principals_Pass s token principals audit s' w :
  resolved_principals (S := AccessStore) ev d findByClientID server operation now token s = (Ok (Pass (principals, audit)), s', w) ->
  holder_proved token /\ principalsFromToken d findByClientID (rr_TenantID in_) token = Ok principals /\
  audit = match principals with Some (subject, actors) => newEvaluationAudit (ir_JTI token) subject actors | None => token_audit (ir_JTI token) end.
Proof.
  unfold resolved_principals. intros (proved & s1 & w1 & w2 & Hp & H & _)%eff_bind_Ok. destruct proved; [|done]. simpl in H.
  apply eff_bind_Ok in H as (r & s2 & w3 & w4 & H1 & H & _). unfold lift in H1.
  injection H1 as Hpr _ _. unfold eff_ret in H. injection H as Hr Ha _ _. subst r. split_and!; [|exact Hpr|done].
  intros c Hc. revert Hp. unfold senderProofHolds. rewrite Hc. destruct (sender_Type c =? SenderConstraintDPoP) eqn:Ht.
  - destruct (_ || _)%bool eqn:Hb; [done|]. destruct (negb (rd_has_Replay d)); [done|].
    intros (key & s3 & w5 & w6 & Hk & Hp & _)%eff_bind_Ok. unfold eff_ret in Hp. destruct key as [jkt|]; [|done]. injection Hp as Hj _ _.
    apply verified_key_Some in Hk. go_bool. subst jkt. left. by destruct Hb.
  - destruct (sender_Type c =? SenderConstraintMTLS) eqn:Ht2; [|done]. unfold eff_ret. intros [= Hb _ _]. right. go_bool. naive_solver.
Qed.

Lemma permitted_relation_Pass s token principals audit s' w :
  permitted_relation (S := AccessStore) checker server operation token principals audit s = (Ok (Pass tt), s', w) ->
  op_Registered operation = true /\
  PermitsDetails rule (ir_AuthorizationDetails token) (srv_Resource server) (rr_ResourceID in_) = true /\
  exists subject actors relation, principals = Some (subject, actors) /\
    operationPermission checker server operation subject actors (Fields (ir_Scope token)) = Ok relation /\ rd_Permitted relation = true.
Proof.
  unfold permitted_relation. destruct (op_Registered operation) eqn:Hr; [|done]. simpl.
  destruct (PermitsDetails _ _ _ _); [|done]. simpl. destruct principals as [[subject actors]|]; [|done].
  intros (relation & s1 & w1 & w2 & H1 & H & _)%eff_bind_Ok. unfold lift in H1. injection H1 as H1 _ _.
  destruct (rd_Permitted relation) eqn:Hp; [|done]. split_and!; try done. by exists subject, actors, relation.
Qed.

(** The type of the detail that an approval must have: none when the operation
    needs no approval. *)
Definition required_detail (token : IntrospectionResult) : string :=
  let base := if RequiresApprovedOperation rule then AuthorizationDetailType rule else "" in
  match rule_Condition rule with
  | None => base
  | Some c =>
      if condition_outcome ev operation now c token (declaredAttributes ev (rr_Attributes in_)).1 =? ConditionRequireApproval
      then ApprovalDetailType c else base
  end.

(** The condition was decided, for or against an approval. *)
Definition condition_holds (token : IntrospectionResult) : Prop :=
  forall c, rule_Condition rule = Some c ->
  exists attributes, (declaredAttributes ev (rr_Attributes in_)).1 = Some attributes /\
    (Condition_Evaluate (ev_cel ev) c (conditionInput token in_ attributes now) = ConditionAllow \/
     Condition_Evaluate (ev_cel ev) c (conditionInput token in_ attributes now) = ConditionRequireApproval /\ rr_OperationKey in_ <> "").

Lemma Condition_Evaluate_cases cel c vars :
  Condition_Evaluate cel c vars = ConditionAllow \/ Condition_Evaluate cel c vars = ConditionDeny \/
  Condition_Evaluate cel c vars = ConditionRequireApproval \/ Condition_Evaluate cel c vars = ConditionIndeterminate.
Proof.
  unfold Condition_Evaluate. destruct (evaluateConditionExpression cel (DenyWhen c) vars) as [[]|]; [naive_solver| |naive_solver].
  destruct (evaluateConditionExpression cel (RequireApprovalWhen c) vars) as [[]|]; naive_solver.
Qed.

Lemma judged_condition_Pass s token audit ty audit' s' w :
  judged_condition (S := AccessStore) (E := transition_error) ev server operation now token audit s = (Ok (Pass (ty, audit')), s', w) ->
  condition_holds token /\ ty = required_detail token /\ agentID audit' = agentID audit /\ userID audit' = userID audit.
Proof.
  unfold judged_condition, condition_holds, required_detail. destruct (rule_Condition rule) as [c|] eqn:Hc.
  2:{ unfold eff_ret. by intros [= -> -> _ _]. }
  destruct (declaredAttributes ev (rr_Attributes in_)) as [attributes digest]. simpl. set (outcome := condition_outcome _ _ _ _ _ _).
  destruct (outcome =? ConditionDeny) eqn:H1; [done|]. destruct (outcome =? ConditionIndeterminate) eqn:H2; [done|]. go_bool.
  destruct attributes as [attributes|]; [|by destruct H2].
  assert (Hout : outcome = Condition_Evaluate (ev_cel ev) c (conditionInput token in_ attributes now)) by done.
  destruct (Condition_Evaluate_cases (ev_cel ev) c (conditionInput token in_ attributes now)) as [Ho|[Ho|[Ho|Ho]]];
    rewrite Ho in Hout; [|congruence| |congruence]; rewrite Hout; simpl.
  - unfold eff_ret. intros [= <- <- _ _]. split_and!; try done. intros c' [= <-]. exists attributes. split; [done|]. by left.
  - destruct (_ || _)%bool; [done|]. destruct (rr_OperationKey in_ =? "") eqn:Hk; [done|]. unfold eff_ret. intros [= <- <- _ _]. go_bool.
    split_and!; try done. intros c' [= <-]. exists attributes. split; [done|]. by right.
Qed.

Definition operation_key : string := HashOperationKey (rr_ClientID in_) (rr_OperationKey in_).
Definition actual_operation (ty : string) : OperationBinding :=
  {| DetailType := ty; Location := srv_Resource server; Action := rr_Relation in_; op_Identifier := rr_ResourceID in_ |}.

(** The approval of the token approves this operation with these arguments, and
    no other key holds the right. *)
Definition approves (token : IntrospectionResult) (ty : string) (approvals : ApprovalRequestStore) (r : ApprovalRequest) (dg : string) : Prop :=
  (exists p, by_id (ir_ApprovalRequestID token) approvals = Some (p, r)) /\ ap_TenantID r = tenantID /\
  ap_UserID r = ir_Sub token /\ ap_ClientID r = ir_ClientID token /\
  CanonicalizeOperationParameters ev (rr_OperationParameters in_) = Some dg /\
  MatchApprovedOperation (ev_DigestOperationFields ev) r (actual_operation ty) dg now = ApprovedOperationMatched /\
  (forall u, ap_Use r = Some u -> KeyHash u = operation_key).

Lemma matched_approval_Pass s token ty audit approval s' w :
  matched_approval (S := AccessStore) ev d tenantID server operation now token ty audit s = (Ok (Pass approval), s', w) ->
  s' = s /\ (ty = "" /\ approval = None \/
   ty <> "" /\ exists r dg, approves token ty (as_approvals s) r dg /\
     approval = Some {| requestID := ap_ID r; digest := dg; keyHash := operation_key |}).
Proof.
  intros H. split; [by apply matched_approval_reads in H|]. revert H. unfold matched_approval.
  destruct (ty =? "") eqn:Hty; go_bool. { unfold eff_ret. intros [= <- _ _]. by left. }
  intros (m & s1 & w1 & w2 & H & Hr)%stage_Pass. right. split; [done|]. unfold eff_ret in Hr. injection Hr as <- _ _.
  revert H. unfold allowed_or_denied, on_approvals. unfold eff_bind at 1.
  destruct (matchApprovedOperation _ _ _ _ _ _ _ _ _ s) as [[[[a|reason]|[|e]] s2] w3] eqn:Hm; unfold eff_ret; try done. intros [= -> _ _].
  revert Hm. unfold matchApprovedOperation. destruct (negb _); [done|]. destruct (tv_ApprovalRequestID _ =? ""); [done|].
  unfold eff_bind, call, find_approval. simpl. unfold on_requests. simpl.
  destruct (approval_FindByID _ _ _) as [r|] eqn:Hf; [|done]. apply FindByID_Some in Hf as (p & Hp & Ht).
  destruct (_ || _)%bool eqn:Ho; [done|]. destruct (CanonicalizeOperationParameters _ _) as [dg|] eqn:Hd; [|done].
  destruct (MatchApprovedOperation _ _ _ _ _) eqn:Hma; try done.
  intros Hm. assert (Hkey : (forall u, ap_Use r = Some u -> KeyHash u = operation_key) /\
    m = {| requestID := ap_ID r; digest := dg; keyHash := operation_key |}).
  { revert Hm. destruct (ap_Use r) as [u|] eqn:Hu.
    - fold operation_key. unfold eff_ret. destruct (KeyHash u <>? operation_key) eqn:Hk; simpl; [discriminate|]. intros [= <- _ _]. go_bool.
      split; [|done]. by intros u' [= <-].
    - unfold eff_ret. simpl. intros [= <- _ _]. done. }
  exists r, dg. destruct Hkey as [Hkey ->]. split; [|done]. unfold approves. go_bool. destruct Ho as [Ho1 Ho2].
  split_and!; try done. by exists p.
Qed.

(** What the claim of the right found and did. *)
Definition claimed (a : matchedApproval) (use : ApprovedOperationUse) (before after : ApprovalRequestStore) : Prop :=
  use_ApprovalRequestID use = requestID a /\ OperationDigest use = digest a /\
  exists p r, by_id (requestID a) before = Some (p, r) /\ ap_TenantID r = tenantID /\ ap_State r = ApprovalConsumed /\
    (now < ap_ExpiresAt r)%Z /\
    ((ap_Use r = None /\ Replayed use = false /\
      after = set_at p (used_request {| KeyHash := keyHash a; ClaimedAt := now |} r) before) \/
     (exists u, ap_Use r = Some u /\ KeyHash u = keyHash a /\ Replayed use = true /\ after = before)).

Lemma claimed_approval_Pass s a audit approved s' w :
  claimed_approval (S := AccessStore) (E := transition_error) tenantID now (Some a) audit s = (Ok (Pass approved), s', w) ->
  as_limits s' = as_limits s /\ as_grants s' = as_grants s /\
  exists use, approved = Some use /\ claimed a use (as_approvals s) (as_approvals s').
Proof.
  unfold claimed_approval. intros (use & s1 & w1 & w2 & H & Hr)%stage_Pass. unfold eff_ret in Hr. injection Hr as <- <- _.
  revert H. unfold allowed_or_denied, on_approvals, claimApprovedOperation, eff_bind, call, claim_approval. simpl. unfold on_requests. simpl.
  unfold claimed. destruct (ClaimUse_cases tenantID (requestID a) {| KeyHash := keyHash a; ClaimedAt := now |} now (as_approvals s))
    as [(o & -> & Ho)|(p & r & Hf & Ht & Hs & Hlt & Hu & ->)]; simpl.
  - destruct o as [r|]; [|done]. destruct (Ho r eq_refl) as ([u Hu] & p & Hf & Ht & Hs & Hlt). simpl. rewrite Hu.
    destruct (KeyHash u <>? keyHash a) eqn:Hk; [done|]. unfold eff_ret. simpl. intros [= <- <- _]. go_bool. split_and!; try done.
    eexists. split; [done|]. simpl. split_and!; try done. exists p, r. split_and!; try done. right. by exists u.
  - rewrite bool_decide_true by done. unfold eff_ret. simpl. intros [= <- <- _]. split_and!; try done.
    eexists. split; [done|]. simpl. split_and!; try done. exists p, r. split_and!; try done. by left.
Qed.

(** The counting of the limits that apply; [None] when one is exceeded. *)
Fixpoint count_run (subject : ResourceAccessLimitSubject) (limits : list ResourceAccessLimit) (l : RateLimiter) : option RateLimiter :=
  match limits with
  | [] => Some l
  | limit :: limits =>
      match resourceAccessLimitKey ev server rule limit subject (rr_TenantID in_) with
      | None => count_run subject limits l
      | Some key =>
          let '(result, l') := AllowWithin resourceAccessLimitPolicyID key (limit_config limit) now l in
          if rl_Allowed result then count_run subject limits l' else None
      end
  end.

Definition limit_subject (audit : evaluationAudit) : ResourceAccessLimitSubject :=
  {| ls_AgentID := agentID audit; ls_UserID := userID audit; ls_ResourceID := rr_ResourceID in_ |}.

Lemma count_limits_None subject limits : forall s s' w,
  count_limits (S := AccessStore) (E := transition_error) ev server rule subject (rr_TenantID in_) now limits s = (Ok None, s', w) ->
  count_run subject limits (as_limits s) = Some (as_limits s') /\ as_approvals s' = as_approvals s /\ as_grants s' = as_grants s.
Proof.
  induction limits as [|limit limits IH]; intros s s' w; simpl.
  - unfold eff_ret. by intros [= <- _].
  - destruct (resourceAccessLimitKey _ _ _ _ _ _) as [key|]; [|apply IH].
    intros (result & s1 & w1 & w2 & H1 & H & _)%eff_bind_Ok. unfold call in H1. simpl in H1.
    destruct (verdict _ _ _) as [ok retry] eqn:Hv. injection H1 as <- <- _. simpl in H |- *.
    destruct ok; [|done]. apply IH in H. exact H.
Qed.

Lemma counted_limits_Pass s audit s' w :
  counted_limits (S := AccessStore) (E := transition_error) ev d server operation now audit s = (Ok (Pass tt), s', w) ->
  count_run (limit_subject audit) (OrderedLimits rule) (as_limits s) = Some (as_limits s') /\
  as_approvals s' = as_approvals s /\ as_grants s' = as_grants s.
Proof.
  unfold counted_limits. intros (exceeded & s1 & w1 & w2 & H1 & H & _)%eff_bind_Ok. destruct exceeded as [limit|]; [done|].
  unfold eff_ret in H. injection H as <- _. revert H1. unfold enforceResourceAccessLimits.
  destruct (rule_Limits rule =? []) eqn:Hl.
  - unfold eff_ret. intros [= <- _]. go_bool. unfold OrderedLimits. by rewrite Hl.
  - destruct (negb _); [done|]. apply count_limits_None.
Qed.

Lemma issue_grant_Ok s id g s' w :
  issueTokenExchangeGrant (S := AccessStore) (E := transition_error) d tenantID operation now grant id s = (Ok g, s', w) ->
  as_approvals s' = as_approvals s /\ as_limits s' = as_limits s /\
  ((rr_TokenExchangeResource in_ = "" /\ g = "" /\ as_grants s' = as_grants s) \/
   (rr_TokenExchangeResource in_ <> "" /\ g = grant /\
    as_grants s' = grant_Save tenantID (HashTokenExchangeGrant grant)
      {| tg_ClientID := rr_ClientID in_; tg_SubjectTokenID := id; tg_Resource := rr_TokenExchangeResource in_;
         tg_ExpiresAt := Add now TokenExchangeGrantTTL |} (as_grants s))).
Proof.
  unfold issueTokenExchangeGrant. destruct (rr_TokenExchangeResource in_ =? "") eqn:He; go_bool.
  - unfold eff_ret. intros [= <- <- _]. split_and!; try done. by left.
  - destruct (negb _); [done|]. unfold eff_bind, call, save_grant. simpl. unfold eff_ret. intros [= <- <- _]. split_and!; try done. by right.
Qed.

(** What the exchange of the token afterwards needs. *)
Definition grant_given (token : IntrospectionResult) (decision : ResourceAccessDecision) (before after : TokenExchangeGrantStore) : Prop :=
  (rr_TokenExchangeResource in_ = "" /\ dec_TokenExchangeGrant decision = "" /\ after = before) \/
  (rr_TokenExchangeResource in_ <> "" /\ rr_TokenExchangeResource in_ ∈ TokenExchangeResources rule /\ ir_JTI token <> "" /\
   required_detail token = "" /\ dec_TokenExchangeGrant decision = grant /\
   after = grant_Save tenantID (HashTokenExchangeGrant grant)
     {| tg_ClientID := rr_ClientID in_; tg_SubjectTokenID := ir_JTI token; tg_Resource := rr_TokenExchangeResource in_;
        tg_ExpiresAt := Add now TokenExchangeGrantTTL |} before).

(** The approval that the operation needed, and its use. *)
Definition approval_used (token : IntrospectionResult) (decision : ResourceAccessDecision) (before after : ApprovalRequestStore) : Prop :=
  (required_detail token = "" /\ dec_ApprovedOperation decision = None /\ after = before) \/
  (required_detail token <> "" /\ exists r dg use, approves token (required_detail token) before r dg /\
   dec_ApprovedOperation decision = Some use /\
   claimed {| requestID := ap_ID r; digest := dg; keyHash := operation_key |} use before after).

(** The conjunction that a permitted access satisfies. *)
Definition all_hold (decision : ResourceAccessDecision) s s' : Prop :=
  exists token subject actors relation,
    introspect (rr_Token in_) = Ok (Some token) /\ ir_Active token = true /\ srv_Resource server ∈ ir_Aud token /\
    holder_proved token /\
    op_Registered operation = true /\
    PermitsDetails rule (ir_AuthorizationDetails token) (srv_Resource server) (rr_ResourceID in_) = true /\
    principalsFromToken d findByClientID (rr_TenantID in_) token = Ok (Some (subject, actors)) /\
    operationPermission checker server operation subject actors (Fields (ir_Scope token)) = Ok relation /\ rd_Permitted relation = true /\
    condition_holds token /\
    approval_used token decision (as_approvals s) (as_approvals s') /\
    count_run (limit_subject (newEvaluationAudit (ir_JTI token) subject actors)) (OrderedLimits rule) (as_limits s) = Some (as_limits s') /\
    grant_given token decision (as_grants s) (as_grants s').

Lemma permitted_for_server s decision audit s' w :
  evaluateForServer ev d tenantID findByClientID introspect checker server operation now grant s = (Ok (decision, audit), s', w) ->
  dec_Permitted decision = true ->
  all_hold decision s s'.
Proof.
  unfold evaluateForServer. destruct (_ && _)%bool; [done|]. intros (r & s1 & w1 & w2 & H & Hr & _)%eff_bind_Ok Hperm.
  destruct r as [decided|reasons audit0]; unfold eff_ret in Hr; [|by injection Hr as <- _ _ _]. injection Hr as -> -> _.
  unfold evaluation_stages in H.
  apply stage_Pass in H as (token & t1 & ? & ? & H1 & H). apply stage_Pass in H as ([principals audit1] & t2 & ? & ? & H2 & H).
  simpl in H. apply stage_Pass in H as ([] & t3 & ? & ? & H3 & H). apply stage_Pass in H as ([ty audit2] & t4 & ? & ? & H4 & H). simpl in H.
  destruct (exchange_refused _ _ _) eqn:Hx; [done|]. apply stage_Pass in H as (approval & t5 & ? & ? & H5 & H).
  apply stage_Pass in H as ([] & t6 & ? & ? & H6 & H). apply stage_Pass in H as (approved & t7 & ? & ? & H7 & H).
  apply eff_bind_Ok in H as (granted & t8 & ? & ? & H8 & H & _). unfold eff_ret in H. injection H as <- <- <- _.
  set (P := uncounted (as_approvals s) (as_grants s) (as_limits s)). assert (HP : P s) by done.
  pose proof (keeps_run P _ _ _ _ _ (presented_token_keeps P) HP H1) as K1. apply presented_token_Pass in H1 as (Hi & Ha & Haud).
  pose proof (keeps_run P _ _ _ _ _ (resolved_principals_keeps _ _ _ _) K1 H2) as K2. apply resolved_principals_Pass in H2 as (Hh & Hp & Haudit).
  pose proof (keeps_run P _ _ _ _ _ (permitted_relation_keeps P _ _ _) K2 H3) as K3.
  apply permitted_relation_Pass in H3 as (Hreg & Hdet & subject & actors & relation & -> & Hrel & Hok). simpl in Haudit.
  pose proof (keeps_run P _ _ _ _ _ (judged_condition_keeps P _ _) K3 H4) as [[K4a K4g] K4l].
  apply judged_condition_Pass in H4 as (Hcond & -> & Hag & Hus). apply matched_approval_Pass in H5 as [-> Hmatch].
  apply counted_limits_Pass in H6 as (Hcount & K6a & K6g). apply issue_grant_Ok in H8 as (K8a & K8l & Hgrant).
  assert (Hsubj : limit_subject audit2 = limit_subject (newEvaluationAudit (ir_JTI token) subject actors)).
  { unfold limit_subject. by rewrite Hag, Hus, Haudit. }
  exists token, subject, actors, relation. split_and!; try done.
  - unfold approval_used. simpl. rewrite K8a, <- K4a. destruct Hmatch as [[Hnone ->]|[Hsome (r & dg & Happ & ->)]].
    + apply claimed_approval_None in H7 as [Hr7 ->]. injection Hr7 as ->. left. by rewrite K6a.
    + apply claimed_approval_Pass in H7 as (_ & _ & use & -> & Hcl). right. split; [done|]. exists r, dg, use.
      split_and!; try done. by rewrite <- K6a.
  - rewrite <- Hsubj, K8l. rewrite <- K4l, Hcount. f_equal.
    destruct Hmatch as [[_ ->]|[_ (r & dg & _ & ->)]]; [by apply claimed_approval_None in H7 as [_ ->]|by apply claimed_approval_Pass in H7 as (? & _)].
  - assert (K7g : as_grants t7 = as_grants t6).
    { destruct Hmatch as [[_ ->]|[_ (r & dg & _ & ->)]]; [by apply claimed_approval_None in H7 as [_ ->]|by apply claimed_approval_Pass in H7 as (_ & ? & _)]. }
    unfold grant_given. simpl. rewrite K7g, K6g, K4g in Hgrant. destruct Hgrant as [(He & -> & Hg)|(He & -> & Hg)]; [by left|right].
    unfold exchange_refused, PermitsTokenExchange in Hx. rewrite (bool_decide_false _ He) in Hx. simpl in Hx. go_bool. naive_solver.
Qed.

(** *** The same in terms of the registration, the token and the stores *)

(** The checker permits what it is asked. *)
Definition permits (check : RelationCheck) : Prop := exists relation, checker check = Ok relation /\ rd_Permitted relation = true.

(** A question about an operation of the registration, or one of its targets. *)
Definition operation_question (r : ResourceAccessRule) (id relation : string) (subject : Actor) (actors : list Actor) (scopes : list string) : RelationCheck :=
  {| rc_TenantID := srv_TenantID server; rc_ResourceType := ResourceTypeMcpOperation; rc_ResourceID := id; rc_Relation := relation;
     rc_Subject := subject; rc_Actors := actors; rc_GrantedScopes := scopes; rc_RequiredScopes := rule_Scopes r |}.

(** The tool of a rule is assigned to the principals. *)
Definition assigned (r : ResourceAccessRule) (subject : Actor) (actors : list Actor) (scopes : list string) : Prop :=
  exists tool, rule_Tool r = Some tool /\ tool_ID tool <> "" /\
    permits (operation_question r (srv_ID server ++ "/" ++ tool_ID tool) RelationMcpInvoke subject actors scopes).

(** The relations that the operation needs: any assigned tool for a preparation; the
    relation of the request for a rule without a tool; and for a tool its assignment,
    with the range of its target when the arguments name one, or with the relation of
    the resource when the tool belongs to another type. *)
Definition related (subject : Actor) (actors : list Actor) (scopes : list string) : Prop :=
  let request := {| rc_TenantID := rr_TenantID in_; rc_ResourceType := rr_ResourceType in_; rc_ResourceID := rr_ResourceID in_;
                    rc_Relation := rr_Relation in_; rc_Subject := subject; rc_Actors := actors; rc_GrantedScopes := scopes;
                    rc_RequiredScopes := rule_Scopes rule |} in
  if op_Preparation operation then exists r, r ∈ AccessRules server /\ assigned r subject actors scopes
  else match rule_Tool rule with
  | None => permits request
  | Some tool => assigned rule subject actors scopes /\
      if bool_decide (rule_ResourceType rule = ResourceTypeMcpOperation) then
        let id := srv_ID server ++ "/" ++ tool_ID tool in
        ResourceIDArgument tool = "" \/
        permits (operation_question rule id RelationMcpInvokeAnyTarget subject actors scopes) \/
        ContainsAny (op_Target operation) ":#" = false /\
          permits (operation_question rule (id ++ "/" ++ op_Target operation) RelationMcpInvoke subject actors scopes)
      else permits request
  end.

Lemma on_port_Ok {A} (r : result transition_error A) a : on_port r = Ok a -> r = Ok a.
Proof. by destruct r as [b|e]; [intros [= ->]|]. Qed.

Lemma checkToolAssignment_permits r subject actors scopes relation :
  checkToolAssignment (Some checker) server r subject actors scopes = Ok relation -> rd_Permitted relation = true ->
  assigned r subject actors scopes.
Proof.
  unfold checkToolAssignment, assigned, permits, tool_check. destruct (rule_Tool r) as [tool|] eqn:Ht; [|by intros [= <-]].
  destruct (tool_ID tool =? "") eqn:Hid; [by intros [= <-]|]. go_bool. intros Hc%on_port_Ok Hp. exists tool. split_and!; [done..|].
  exists relation. split; [|done]. unfold OperationResourceID in Hc. by rewrite Ht in Hc.
Qed.

Lemma any_assignment_permits subject actors scopes relation rules :
  any_assignment (Some checker) server rules subject actors scopes = Ok relation -> rd_Permitted relation = true ->
  exists r, r ∈ rules /\ assigned r subject actors scopes.
Proof.
  induction rules as [|r rules IH]; cbn [any_assignment]; [by intros [= <-]|]. destruct (negb (is_some (rule_Tool r))).
  { intros Hc Hp. destruct (IH Hc Hp) as (r' & Hin & Ha). exists r'. split; [by right|done]. }
  intros (relation' & Hc & H)%res_bind_Ok Hp. destruct (rd_Permitted relation') eqn:Hp'.
  - exists r. split; [by left|by eapply checkToolAssignment_permits].
  - destruct (IH H Hp) as (r' & Hin & Ha). exists r'. split; [by right|done].
Qed.

Lemma operationPermission_related subject actors scopes relation :
  operationPermission checker server operation subject actors scopes = Ok relation -> rd_Permitted relation = true ->
  related subject actors scopes.
Proof.
  unfold operationPermission, related. destruct (op_Preparation operation); [by apply any_assignment_permits|].
  destruct (rule_Tool rule) as [tool|] eqn:Ht; [|intros Hc%on_port_Ok Hp; by exists relation].
  intros (first & Hfirst & H)%res_bind_Ok Hp. destruct (rd_Permitted first) eqn:Hpf; [|injection H as ->; congruence]. cbn [negb] in H.
  split; [by eapply checkToolAssignment_permits|]. destruct (rule_ResourceType rule =? ResourceTypeMcpOperation); [|apply on_port_Ok in H; by exists relation].
  destruct (ResourceIDArgument tool =? "") eqn:Ha; [left; by go_bool|right]. unfold checkTargetRange in H.
  assert (Hid : OperationResourceID server rule = srv_ID server ++ "/" ++ tool_ID tool) by (unfold OperationResourceID; by rewrite Ht).
  rewrite Hid in H. apply res_bind_Ok in H as (any & Hany%on_port_Ok & H). destruct (rd_Permitted any) eqn:Hpa; [left; by exists any|]. cbn [orb] in H.
  destruct (ContainsAny (op_Target operation) ":#") eqn:Hc; [injection H as ->; congruence|]. right. split; [done|]. apply on_port_Ok in H. by exists relation.
Qed.

(** The principals of a token: the agent it was issued to, or the user it is about
    when the subject is no client; the other agents of the token are the actors; and
    an actor claim without such agents names an active registration that acts between
    the agent and the resource. *)
Record principals_of (tenant : string) (token : IntrospectionResult) (subject : Actor) (actors : list Actor) : Prop := {
  po_subject :
    (ir_PrincipalType token = PrincipalTypeAgent /\ ir_AgentID token <> "" /\ subject = {| act_Type := PrincipalTypeAgent; act_ID := ir_AgentID token |}) \/
    (~ (ir_PrincipalType token = PrincipalTypeAgent /\ ir_AgentID token <> "") /\ subject = {| act_Type := "user"; act_ID := ir_Sub token |} /\
     ir_Sub token <> "" /\ forall find, rd_Clients d = Some find -> find tenant (ir_Sub token) = Ok None);
  po_distinct : NoDup actors;
  po_actors : forall a, a ∈ actors <->
    act_Type a = PrincipalTypeAgent /\ act_ID a <> "" /\ (act_ID a = ir_AgentID token \/ act_ID a ∈ ir_AgentChain token) /\
    ~ (act_Type subject = PrincipalTypeAgent /\ act_ID a = act_ID subject);
  po_between : forall act, ir_Act token = Some act -> act_len act <> 0%nat -> actors = [] ->
    act_Type subject = PrincipalTypeAgent /\ act_sub act <> "" /\ act_nests act = false /\
    exists between, findByClientID tenant (act_sub act) = Ok (Some between) /\ srv_IsActive between = true;
}.

Lemma token_subject_Some tenant token subject : token_subject d tenant token = Ok (Some subject) ->
  (ir_PrincipalType token = PrincipalTypeAgent /\ ir_AgentID token <> "" /\ subject = {| act_Type := PrincipalTypeAgent; act_ID := ir_AgentID token |}) \/
  (~ (ir_PrincipalType token = PrincipalTypeAgent /\ ir_AgentID token <> "") /\ subject = {| act_Type := "user"; act_ID := ir_Sub token |} /\
   ir_Sub token <> "" /\ forall find, rd_Clients d = Some find -> find tenant (ir_Sub token) = Ok None).
Proof.
  unfold token_subject. destruct ((ir_PrincipalType token =? PrincipalTypeAgent) && (ir_AgentID token <>? "")) eqn:Ha.
  - apply andb_true_iff in Ha as [H1 H2]. go_bool. intros [= <-]. by left.
  - intros (user & Hu%on_port_Ok & H)%res_bind_Ok. destruct user; [|done]. injection H as <-. right. split_and!; [|done|..].
    + intros [H1 H2]. rewrite H1 in Ha. rewrite (bool_decide_false _ H2) in Ha. done.
    + unfold isUserSubject in Hu. destruct (ir_Sub token =? "") eqn:Hs; [done|]. by apply bool_decide_eq_false in Hs.
    + intros find Hf. unfold isUserSubject in Hu. rewrite Hf in Hu. destruct (ir_Sub token =? ""); [discriminate Hu|]. apply res_bind_Ok in Hu as (client & -> & Hc).
      by destruct client.
Qed.

Lemma principalsFromToken_Some tenant token subject actors :
  principalsFromToken d findByClientID tenant token = Ok (Some (subject, actors)) -> principals_of tenant token subject actors.
Proof.
  unfold principalsFromToken. intros (osub & Hsub & H)%res_bind_Ok. destruct osub as [sub|]; [|done].
  set (agents := MergeAgentChain _) in *. set (acts := principal_actors sub agents) in *.
  assert (Heq : subject = sub /\ actors = acts /\ forall act, ir_Act token = Some act -> act_len act <> 0%nat -> acts = [] ->
    actIsResourceServer findByClientID tenant sub act = Ok true).
  { destruct (ir_Act token) as [act|]; [|injection H as <- <-; split_and!; done]. destruct acts as [|a0 l0].
    - destruct (act_len act =? 0)%nat eqn:Hl; [injection H as <- <-; split_and!; [done..|]; intros act' [= <-] Hne; by apply Nat.eqb_eq in Hl|].
      apply res_bind_Ok in H as ([] & Hi & H); [|done]. injection H as <- <-. split_and!; [done..|]. by intros act' [= <-].
    - injection H as <- <-. split_and!; done. }
  destruct Heq as (-> & -> & Hbetween). apply token_subject_Some in Hsub.
  assert (Hin : forall id, id ∈ agents <-> id <> "" /\ (id = ir_AgentID token \/ id ∈ ir_AgentChain token)).
  { intros id. unfold agents. rewrite MergeAgentChain_elem. split.
    - intros [Hne (g & Hg & Hid)]. split; [done|]. repeat (apply elem_of_cons in Hg as [->|Hg]; [set_solver|]). by apply elem_of_nil in Hg.
    - intros [Hne [->|Hid]]; (split; [done|]); [by exists [ir_AgentID token]; split; [left|left]|by exists (ir_AgentChain token); split; [right; left|]]. }
  constructor; [done| | |].
  - unfold acts, principal_actors. apply NoDup_ListNoDup. apply Finite.Injective_map_NoDup; [by intros x y [=]|]. apply List.NoDup_filter, NoDup_ListNoDup, MergeAgentChain_NoDup.
  - intros a. unfold acts, principal_actors. rewrite list_elem_of_In, in_map_iff. setoid_rewrite filter_In. setoid_rewrite <- list_elem_of_In.
    setoid_rewrite Hin. setoid_rewrite negb_true_iff. setoid_rewrite andb_false_iff. setoid_rewrite bool_decide_eq_false. split.
    + intros (id & <- & (Hne & Hid) & Hno). cbn [agent_actor act_Type act_ID]. split_and!; [done..|]. intros [? ?]. by destruct Hno.
    + intros (Ht & Hne & Hid & Hno). exists (act_ID a). split; [destruct a; cbn in *; by rewrite Ht|]. split; [done|].
      destruct (decide (act_Type sub = PrincipalTypeAgent)); [right|by left]. naive_solver.
  - intros act Hact Hl Hnil. specialize (Hbetween act Hact Hl Hnil). unfold actIsResourceServer in Hbetween.
    destruct (_ || _) eqn:Hc; [done|]. rewrite !orb_false_iff in Hc. destruct Hc as [[H1 H2] H3]. apply negb_false_iff in H1. go_bool. split_and!; [done..|].
    apply res_bind_Ok in Hbetween as (srv & Hf%on_port_Ok & Hb). destruct srv as [srv|]; [|done]. injection Hb as Hb. by exists srv.
Qed.

(** A rule that names a type of details asks for one that covers the operation. *)
Definition detail_covers (details : list AuthorizationDetail) : Prop :=
  AuthorizationDetailType rule = "" \/
  exists detail, detail ∈ details /\ detail_Type detail = AuthorizationDetailType rule /\ srv_Resource server ∈ Locations detail /\
    rule_Relation rule ∈ Actions detail /\ (Identifier detail = "" \/ Identifier detail = rr_ResourceID in_).

Lemma PermitsDetails_covers details : PermitsDetails rule details (srv_Resource server) (rr_ResourceID in_) = true -> detail_covers details.
Proof.
  unfold PermitsDetails, detail_covers. destruct (_ =? "") eqn:He; [left; by go_bool|]. intros (x & Hin & Hx)%existsb_exists. right. exists x.
  apply list_elem_of_In in Hin. go_bool. naive_solver.
Qed.

(** What the condition of the rule says of the request: neither part is undecided, it
    does not deny, and [asks] when it wants an approval. *)
Definition condition_says (token : IntrospectionResult) (c : ResourceAccessCondition) (asks : bool) : Prop :=
  exists attributes, (declaredAttributes ev (rr_Attributes in_)).1 = Some attributes /\
    evaluateConditionExpression (ev_cel ev) (DenyWhen c) (conditionInput token in_ attributes now) = Some false /\
    evaluateConditionExpression (ev_cel ev) (RequireApprovalWhen c) (conditionInput token in_ attributes now) = Some asks.

(** The type of the detail that the approval of the operation must have, if one is
    needed: by the condition, or by the rule itself. *)
Definition needs_approval (token : IntrospectionResult) (ty : string) : Prop :=
  let own := if RequiresApprovedOperation rule then AuthorizationDetailType rule else "" in
  match rule_Condition rule with
  | None => ty = own
  | Some c => (condition_says token c false /\ ty = own) \/ (condition_says token c true /\ rr_OperationKey in_ <> "" /\ ty = ApprovalDetailType c)
  end.

Lemma condition_needs token : condition_holds token -> needs_approval token (required_detail token).
Proof.
  unfold condition_holds, needs_approval, required_detail. destruct (rule_Condition rule) as [c|]; [|done].
  intros H. destruct (H c eq_refl) as (attributes & Hattr & Hcases). unfold condition_outcome, condition_says. rewrite Hattr.
  unfold Condition_Evaluate in *. destruct (evaluateConditionExpression _ (DenyWhen c) _) as [[]|] eqn:Hdeny; [naive_solver| |naive_solver].
  destruct (evaluateConditionExpression _ (RequireApprovalWhen c) _) as [[]|] eqn:Hask; [|left|naive_solver].
  - right. split; [by exists attributes|]. split; [naive_solver|done].
  - split; [by exists attributes|done].
Qed.

(** The use of an approval: the token names one of this tenant, user and client,
    with a detail of the type that names this target, location and action and has
    the digest of these parameters, unexpired; and what the store holds under its
    identifier has been exchanged, and its right goes to this client and operation
    key, or went to them before. *)
Definition approval_spent (token : IntrospectionResult) (ty : string) (use : ApprovedOperationUse) (before after : ApprovalRequestStore) : Prop :=
  let key := HashOperationKey (rr_ClientID in_) (rr_OperationKey in_) in
  exists r dg p held, (exists q, by_id (ir_ApprovalRequestID token) before = Some (q, r)) /\
    ap_TenantID r = tenantID /\ ap_UserID r = ir_Sub token /\ ap_ClientID r = ir_ClientID token /\ (now < ap_ExpiresAt r)%Z /\
    CanonicalizeOperationParameters ev (rr_OperationParameters in_) = Some dg /\
    (exists detail, detail ∈ ap_AuthorizationDetails r /\ detail_Type detail = ty /\ Identifier detail = rr_ResourceID in_ /\ rr_ResourceID in_ <> "" /\
       srv_Resource server ∈ Locations detail /\ rr_Relation in_ ∈ Actions detail /\ ev_DigestOperationFields ev (detail_Fields detail) = Some dg) /\
    use_ApprovalRequestID use = ap_ID r /\ OperationDigest use = dg /\
    by_id (ap_ID r) before = Some (p, held) /\ ap_TenantID held = tenantID /\ ap_State held = ApprovalConsumed /\ (now < ap_ExpiresAt held)%Z /\
    match ap_Use held with
    | None => Replayed use = false /\ after = set_at p (used_request {| KeyHash := key; ClaimedAt := now |} held) before
    | Some u => KeyHash u = key /\ Replayed use = true /\ after = before
    end.

Lemma approval_used_spent token decision before after : approval_used token decision before after ->
  (required_detail token = "" /\ dec_ApprovedOperation decision = None /\ after = before) \/
  exists use, required_detail token <> "" /\ dec_ApprovedOperation decision = Some use /\ approval_spent token (required_detail token) use before after.
Proof.
  intros [?|(Hne & r & dg & use & Happ & Hdec & Hcl)]; [by left|right]. exists use. split_and!; [done..|].
  destruct Happ as (Hp & Ht & Hu & Hc & Hdg & Hm & _). destruct Hcl as (Hid & Hd & p & held & Hheld & Hht & Hst & Hhlt & Hcl). cbn [requestID digest keyHash] in *.
  apply MatchApprovedOperation_exact in Hm as (Hlt & detail & H1 & H2 & H3 & H4 & H5 & H6 & H7). cbn in *.
  exists r, dg, p, held. split_and!; try done. { exists detail. by split_and!. }
  destruct Hcl as [(-> & Hr & ->)|(u & -> & Hk & Hr & ->)]; by split_and!.
Qed.

(** The identifiers of proofs: that of the proof of a bound token was not among those
    still kept, and is kept from now on for ten minutes; without such a token they
    stay as they are. *)
Definition proof_kept (token : IntrospectionResult) (before after : replayStore) : Prop :=
  match ir_SenderConstraint token with
  | Some c =>
      if bool_decide (sender_Type c = SenderConstraintDPoP) then
        exists payload, payload_of (ev_lib ev) (rr_DPoPProof in_) = Some payload /\
          let jti := string_member payload "jti" in
          jti <> "" /\ (forall t, (before : gmap string Time) !! jti = Some t -> (t <= now)%Z) /\
          after = <[jti := (now + 600 * Second)%Z]> (filter (fun e => Before now e.2 = true) before)
      else after = before
  | None => after = before
  end.

Lemma recorded_proof jti (p p' : replayStore) : recordIfNew now jti dpopJTIReplayWindowSeconds now p = (true, p') ->
  (forall t, (p : gmap string Time) !! jti = Some t -> (t <= now)%Z) /\ p' = <[jti := (now + 600 * Second)%Z]> (filter (fun e => Before now e.2 = true) p).
Proof.
  rewrite recordIfNew_now. destruct (filter _ p !! jti) as [t|] eqn:Hl; intros [= <-]. split; [|done].
  intros t Ht. destruct (Z.lt_ge_cases now t); [|done]. exfalso. apply (map_lookup_filter_None_1 _ _ _) in Hl as [Hl|Hl]; [discriminate (eq_trans (eq_sym Ht) Hl)|].
  refine (Hl t Ht _). unfold Before. simpl. lia.
Qed.

Lemma verified_key_proof s key s' w : verified_key (S := AccessStore) ev in_ now s = (Ok (Some key), s', w) ->
  exists payload, payload_of (ev_lib ev) (rr_DPoPProof in_) = Some payload /\
    let jti := string_member payload "jti" in
    jti <> "" /\ (forall t, (as_proofs s : gmap string Time) !! jti = Some t -> (t <= now)%Z) /\
    as_proofs s' = <[jti := (now + 600 * Second)%Z]> (filter (fun e => Before now e.2 = true) (as_proofs s)).
Proof.
  unfold verified_key, VerifyDPoPForResource. destruct (rr_DPoPProof in_ =? ""); [done|].
  destruct (rr_Token in_ =? "") eqn:Ht; [done|]. unfold verifyDPoP, eff_bind, lift, call.
  destruct (dpop_checks _ _ _ _ _ _) as [[jti jwk]|[]] eqn:Hc; [|done..]. cbn [record_if_new access_proofs].
  destruct (recordIfNew now jti dpopJTIReplayWindowSeconds now (as_proofs s)) as [fresh p] eqn:Hr. cbn iota beta. destruct fresh; simpl; [|done].
  destruct (jwkThumbprint (ev_lib ev) jwk) as [jkt|] eqn:Hj; [|done]. simpl. intros [= _ <- _]. cbn [as_proofs].
  apply dpop_checks_Ok in Hc as (payload & Hp & Hcl). apply dpop_claims_Ok in Hcl as (_ & _ & _ & _ & _ & Hjti & Hne & _).
  apply recorded_proof in Hr as [Hfresh ->]. exists payload. split; [done|]. cbv zeta. rewrite Hjti. by split_and!.
Qed.

Lemma resolved_principals_proofs s token r s' w :
  resolved_principals (S := AccessStore) ev d findByClientID server operation now token s = (Ok (Pass r), s', w) ->
  proof_kept token (as_proofs s) (as_proofs s').
Proof.
  unfold resolved_principals, proof_kept. intros (proved & s1 & w1 & w2 & Hp & H & _)%eff_bind_Ok. destruct proved; [|done]. simpl in H.
  apply eff_bind_Ok in H as (r0 & s2 & w3 & w4 & H1 & H & _). unfold lift in H1. injection H1 as _ <- _. unfold eff_ret in H. injection H as _ <- _.
  revert Hp. unfold senderProofHolds. destruct (ir_SenderConstraint token) as [c|]; [|unfold eff_ret; by intros [= <- _]].
  destruct (sender_Type c =? SenderConstraintDPoP).
  - destruct (_ || _)%bool; [done|]. destruct (negb (rd_has_Replay d)); [done|].
    intros (key & s3 & w5 & w6 & Hk & Hp & _)%eff_bind_Ok. unfold eff_ret in Hp. destruct key as [jkt|]; [|done]. injection Hp as _ <- _.
    by apply verified_key_proof in Hk.
  - destruct (sender_Type c =? SenderConstraintMTLS); [|done]. unfold eff_ret. by intros [= _ <- _].
Qed.

(** The stages after that leave the identifiers alone. *)
Definition proofs_are (p : replayStore) (s : AccessStore) : Prop := as_proofs s = p.

Lemma count_limits_proofs p r subject tenant limits :
  keeps (proofs_are p) (count_limits (S := AccessStore) (E := transition_error) ev server r subject tenant now limits).
Proof.
  induction limits as [|limit limits IH]; [apply keeps_ret|]. simpl. destruct (resourceAccessLimitKey _ _ _ _ _ _) as [key|]; [|done].
  apply keeps_bind; [|intros a; by destruct (rl_Allowed a); [|apply keeps_ret]]. apply keeps_call. intros s Hs.
  done.
Qed.

Lemma counted_limits_proofs p audit : keeps (proofs_are p) (counted_limits (S := AccessStore) (E := transition_error) ev d server operation now audit).
Proof. unfold counted_limits, enforceResourceAccessLimits. keeps_steps. apply count_limits_proofs. Qed.

Lemma claimed_approval_proofs p approval audit : keeps (proofs_are p) (claimed_approval (S := AccessStore) (E := transition_error) tenantID now approval audit).
Proof.
  destruct approval as [a|]; [|apply keeps_ret]. intros s Hs. unfold claimed_approval, stage_bind, allowed_or_denied, on_approvals, claimApprovedOperation, eff_bind, call, claim_approval.
  cbn. unfold on_requests. cbn.
  destruct (ClaimUse _ _ _ _ _) as [[o recorded] t]. cbn. destruct o as [r|]; cbn; [|done].
  destruct (ap_Use r) as [u|]; [|done]. by destruct (KeyHash u <>? _).
Qed.

Lemma issue_grant_proofs p id : keeps (proofs_are p) (issueTokenExchangeGrant (S := AccessStore) (E := transition_error) d tenantID operation now grant id).
Proof. unfold issueTokenExchangeGrant. keeps_steps. by intros s Hs. Qed.

Lemma proofs_for_server s decision audit s' w :
  evaluateForServer ev d tenantID findByClientID introspect checker server operation now grant s = (Ok (decision, audit), s', w) ->
  dec_Permitted decision = true ->
  exists token, introspect (rr_Token in_) = Ok (Some token) /\ proof_kept token (as_proofs s) (as_proofs s').
Proof.
  unfold evaluateForServer. destruct (_ && _)%bool; [done|]. intros (r & s1 & w1 & w2 & H & Hr & _)%eff_bind_Ok Hperm.
  destruct r as [decided|reasons audit0]; unfold eff_ret in Hr; [|by injection Hr as <- _ _ _]. injection Hr as -> -> _.
  unfold evaluation_stages in H.
  apply stage_Pass in H as (token & t1 & ? & ? & H1 & H). pose proof (keeps_run (proofs_are (as_proofs s)) _ _ _ _ _ (presented_token_keeps _) eq_refl H1) as K1.
  apply presented_token_Pass in H1 as (Hi & _). exists token. split; [done|].
  apply stage_Pass in H as ([principals audit1] & t2 & ? & ? & H2 & H). apply resolved_principals_proofs in H2. unfold proofs_are in K1. rewrite K1 in H2.
  enough (Hrest : as_proofs s' = as_proofs t2) by by rewrite Hrest.
  revert H. match goal with |- ?m t2 = _ -> _ => assert (Hk : keeps (proofs_are (as_proofs t2)) m) end; [|intros H; exact (keeps_run _ _ _ _ _ _ Hk eq_refl H)].
  apply keeps_stage; [apply permitted_relation_keeps|intros _]. apply keeps_stage; [apply judged_condition_keeps|intros judged].
  destruct (exchange_refused _ _ _); [apply keeps_ret|]. apply keeps_stage; [apply matched_approval_keeps|intros approval].
  apply keeps_stage; [apply counted_limits_proofs|intros _]. apply keeps_stage; [apply claimed_approval_proofs|intros approved].
  apply keeps_bind; [apply issue_grant_proofs|intros g]. apply keeps_ret.
Qed.

(** The answer for an operation without a rule does not depend on the
    relations. *)
Lemma stage_bind_ext {A B} (m : flow (stage A)) (k1 k2 : A -> flow (stage B)) s :
  (forall a s, k1 a s = k2 a s) -> stage_bind m k1 s = stage_bind m k2 s.
Proof.
  intros Hk. unfold stage_bind, eff_bind. destruct (m s) as [[[[a|r a]|e] s1] w1]; [by rewrite Hk|done..].
Qed.

Lemma unregistered_stages checker' s : op_Registered operation = false ->
  evaluation_stages ev d tenantID findByClientID introspect checker server operation now grant s =
  evaluation_stages ev d tenantID findByClientID introspect checker' server operation now grant s.
Proof.
  intros Hr. unfold evaluation_stages. apply stage_bind_ext. intros token s1. apply stage_bind_ext. intros known s2.
  unfold permitted_relation. by rewrite Hr.
Qed.

Lemma unregistered_denied s r s' w : op_Registered operation = false ->
  evaluation_stages ev d tenantID findByClientID introspect checker server operation now grant s = (Ok r, s', w) ->
  exists audit, r = Deny [ReasonOperationNotRegistered] audit.
Proof.
  intros Hr H. destruct r as [p|reasons audit].
  { unfold evaluation_stages in H. apply stage_Pass in H as (token & ? & ? & ? & _ & H). apply stage_Pass in H as (known & ? & ? & ? & _ & H).
    apply stage_Pass in H as ([] & ? & ? & ? & H & _). by apply permitted_relation_Pass in H as [H _]; rewrite Hr in H. }
  exists audit. f_equal. unfold evaluation_stages in H. apply stage_Deny in H as [[? H]|(token & s1 & ? & ? & _ & H)].
  { revert H. unfold presented_token, reasonFor. rewrite Hr. intros (t & ? & ? & ? & _ & H & _)%eff_bind_Ok. unfold eff_ret in H.
    destruct t as [t|]; [destruct (_ || _)%bool|]; simplify_eq/=; done. }
  apply stage_Deny in H as [[? H]|(known & s2 & ? & ? & _ & H)].
  { revert H. unfold resolved_principals, reasonFor. rewrite Hr. intros (t & ? & ? & ? & _ & H & _)%eff_bind_Ok. unfold eff_ret in H.
    destruct t; simpl in H; [|simplify_eq/=; done]. by apply eff_bind_Ok in H as (? & ? & ? & ? & _ & H & _). }
  apply stage_Deny in H as [[? H]|([] & s3 & ? & ? & H & _)].
  - unfold permitted_relation, eff_ret in H. rewrite Hr in H. simpl in H. by simplify_eq.
  - by apply permitted_relation_Pass in H as [H _]; rewrite Hr in H.
Qed.
End proofs.

(** ** The use case *)

Notation evaluate := (EvaluateResourceAccess (S := AccessStore) (E := transition_error)).

Lemma EvaluateResourceAccess_run {C} (ev : Evaluator) (d : ResourceAccessDeps transition_error C) tenantID in_ now grant s r s' w :
  evaluate ev d tenantID in_ now grant s = (r, s', w) ->
  (s' = s /\ w = [] /\ exists e, r = Err e) \/
  exists findByClientID introspect checker server, rd_Servers d = Some findByClientID /\ rd_Tokens d = Some introspect /\
    rd_Relations d = Some checker /\ findByClientID (rr_TenantID in_) (rr_ClientID in_) = Ok (Some server) /\ srv_IsActive server = true /\
    let run := evaluateForServer ev d tenantID findByClientID introspect checker server (resolveResourceOperation ev server in_) now grant s in
    match r with
    | Ok decision => exists audit w1, run = (Ok (decision, audit), s', w1) /\
        w = (w1 ++ if rd_has_Emit d then [evaluation_event server in_ now decision audit] else [])%list
    | Err e => exists w1, run = (Err e, s', w1)
    end.
Proof.
  unfold EvaluateResourceAccess.
  destruct (rd_Servers d) as [find|], (rd_Tokens d) as [introspect|], (rd_Relations d) as [checker|];
    try (unfold eff_fail; intros [= <- <- <-]; left; split_and!; try done; by eexists).
  unfold eff_bind at 1, lift. destruct (find _ _) as [[server|]|e] eqn:Hf; simpl;
    try (unfold eff_fail; intros [= <- <- <-]; left; split_and!; try done; by eexists).
  destruct (srv_IsActive server) eqn:Ha; simpl; [|unfold eff_fail; intros [= <- <- <-]; left; split_and!; try done; by eexists].
  unfold eff_bind at 1. destruct (evaluateForServer _ _ _ _ _ _ _ _ _ _ s) as [[[[decision audit]|e] s1] w1] eqn:Hrun.
  - intros H. right. exists find, introspect, checker, server. split_and!; try done. cbv zeta. rewrite Hrun.
    destruct (rd_has_Emit d); unfold eff_bind, emit, eff_ret in H; simpl in H; injection H as <- <- <-; exists audit, w1; split; done.
  - intros [= <- <- <-]. right. exists find, introspect, checker, server. split_and!; try done. cbv zeta. rewrite Hrun. by exists w1.
Qed.

Lemma EvaluateResourceAccess_permits {C} (ev : Evaluator) (d : ResourceAccessDeps transition_error C) tenantID in_ now grant s decision s' w :
  evaluate ev d tenantID in_ now grant s = (Ok decision, s', w) -> dec_Permitted decision = true ->
  exists findByClientID introspect checker server, rd_Servers d = Some findByClientID /\ rd_Tokens d = Some introspect /\
    rd_Relations d = Some checker /\ findByClientID (rr_TenantID in_) (rr_ClientID in_) = Ok (Some server) /\ srv_IsActive server = true /\
    all_hold ev d tenantID findByClientID introspect checker server (resolveResourceOperation ev server in_) now grant decision s s'.
Proof.
  intros [(_ & _ & e & [=])|(find & introspect & checker & server & H1 & H2 & H3 & H4 & H5 & audit & w1 & Hrun & _)]%EvaluateResourceAccess_run Hp.
  exists find, introspect, checker, server. split_and!; try done. by eapply permitted_for_server.
Qed.

Lemma EvaluateResourceAccess_refuses {C} (ev : Evaluator) (d : ResourceAccessDeps transition_error C) tenantID in_ now grant s r s' w :
  evaluate ev d tenantID in_ now grant s = (r, s', w) -> (forall decision, r = Ok decision -> dec_Permitted decision = false) ->
  as_approvals s' = as_approvals s /\ as_grants s' = as_grants s /\ forall decision, r = Ok decision -> decision = denyReasons (dec_Reasons decision).
Proof.
  intros [(-> & _ & e & ->)|(find & introspect & checker & server & _ & _ & _ & _ & _ & Hrun)]%EvaluateResourceAccess_run Hr; [done|].
  cbv zeta in Hrun. destruct r as [decision|e].
  - destruct Hrun as (audit & w1 & Hrun & _). apply refusal_for_server in Hrun as (H1 & H2 & H3); [|intros ? ? [= <- <-]; by apply Hr].
    split_and!; try done. intros ? [= <-]. by eapply H3.
  - destruct Hrun as (w1 & Hrun). by apply refusal_for_server in Hrun as (H1 & H2 & _).
Qed.

(** ** Theorems *)

Lemma resolved_request ev server in_ : let q := op_Request (resolveResourceOperation ev server in_) in
  rr_ClientID q = rr_ClientID in_ /\ rr_OperationKey q = rr_OperationKey in_ /\
  rr_TokenExchangeResource q = rr_TokenExchangeResource in_ /\ rr_Token q = rr_Token in_ /\
  rr_TenantID q = rr_TenantID in_.
Proof.
  unfold resolveResourceOperation, resolve_tool. repeat (case_match; try done).
Qed.

(** What a request asks for.  A method that prepares the use of tools, when the
    registration has a tool; the rule without a tool for the type and the relation
    of the request; or the rule whose tool the request names, with the target that
    its arguments name.  An operation of the built-in type is a resource itself and
    keeps the target aside. *)
Definition asked_operation (ev : Evaluator) (server : ResourceServer) (in_ : ResourceAccessRequest) (op : resourceOperation) : Prop :=
  (op_Preparation op = true /\ op_Rule op = zero_rule /\ op_Request op = in_ /\
   rr_ResourceType in_ = mcpMethodResourceType /\ rr_Relation in_ = "access" /\
   rr_ResourceID in_ ∈ ["server/discover"; "initialize"; "notifications/initialized"; "ping"; "tools/list"] /\
   exists r, r ∈ AccessRules server /\ is_Some (rule_Tool r)) \/
  (op_Preparation op = false /\ op_Rule op ∈ AccessRules server /\ rule_Tool (op_Rule op) = None /\ op_Request op = in_ /\
   rule_ResourceType (op_Rule op) = rr_ResourceType in_ /\ rule_Relation (op_Rule op) = rr_Relation in_) \/
  (op_Preparation op = false /\ op_Rule op ∈ AccessRules server /\
   rr_ResourceType in_ = ResourceTypeMcpOperation /\ rr_Relation in_ = RelationMcpInvoke /\
   exists tool target, rule_Tool (op_Rule op) = Some tool /\ tool_Name tool = rr_ResourceID in_ /\ tool_ID tool <> "" /\
     (ResourceIDArgument tool = "" /\ target = "" \/
      ResourceIDArgument tool <> "" /\ target <> "" /\
      exists args, ev_DecodeStrictJSONObject ev (rr_OperationParameters in_) = Some args /\ args !! ResourceIDArgument tool = Some (VString target)) /\
     if bool_decide (rule_ResourceType (op_Rule op) = ResourceTypeMcpOperation)
     then op_Target op = target /\ op_Request op = with_target ResourceTypeMcpOperation (srv_ID server ++ "/" ++ tool_ID tool) (rule_Relation (op_Rule op)) in_
     else op_Target op = "" /\ op_Request op = with_target (rule_ResourceType (op_Rule op)) target (rule_Relation (op_Rule op)) in_).

Lemma resolved_asked ev server in_ : let op := resolveResourceOperation ev server in_ in
  op_Registered op = true -> asked_operation ev server in_ op.
Proof.
  cbv zeta. unfold resolveResourceOperation, asked_operation. destruct ((rr_ResourceType in_ =? mcpMethodResourceType) && (rr_Relation in_ =? "access")) eqn:Hm.
  { apply andb_true_iff in Hm as [H1 H2]. apply bool_decide_eq_true in H1, H2.
    cbn [op_Registered op_Preparation op_Rule op_Request op_Target]. intros [Hc Hx]%andb_true_iff. left. split_and!; [done..| |].
    - by apply contains_true in Hc.
    - apply existsb_exists in Hx as (r & Hin & Hr). exists r. split; [by apply list_elem_of_In|by apply is_some_true]. }
  destruct ((rr_ResourceType in_ <>? ResourceTypeMcpOperation) || (rr_Relation in_ <>? RelationMcpInvoke)) eqn:Hk.
  { destruct (RuleFor server _ _) as [r|] eqn:Hr; [|done]. intros _. right; left. unfold RuleFor in Hr. apply find_some in Hr as [Hin Hr].
    cbn [op_Registered op_Preparation op_Rule op_Request op_Target].
    rewrite !andb_true_iff in Hr. destruct Hr as [[H1 H2] H3]. apply bool_decide_eq_true in H2, H3. split_and!; try done; [by apply list_elem_of_In|by destruct (rule_Tool r)]. }
  apply orb_false_iff in Hk as [Hk1 Hk2]. apply negb_false_iff, bool_decide_eq_true in Hk1, Hk2.
  destruct (ToolRuleFor server _) as [r|] eqn:Hr; [|done]. unfold ToolRuleFor in Hr. apply find_some in Hr as [Hin Hn]. unfold rule_named in Hn.
  destruct (rule_Tool r) as [tool|] eqn:Ht; [|done]. apply bool_decide_eq_true in Hn. unfold resolve_tool.
  destruct (tool_target ev tool _) as [target|] eqn:Htg; [|done]. cbn [op_Registered op_Preparation op_Rule op_Request op_Target]. intros Hid.
  apply negb_true_iff, bool_decide_eq_false in Hid. right; right. split_and!; [done|by apply list_elem_of_In|done..|]. exists tool, target. split_and!; [done..| |].
  - unfold tool_target in Htg. destruct (ResourceIDArgument tool =? "") eqn:Ha; [injection Htg as <-; left; split; [by apply bool_decide_eq_true in Ha|done]|].
    apply bool_decide_eq_false in Ha. right. split; [done|]. destruct (ev_DecodeStrictJSONObject _ _) as [args|]; [|done].
    destruct (args !! ResourceIDArgument tool) as [v|] eqn:Hargs; [|done]. destruct v as [|id| | | | | | |]; try done. destruct (id =? "") eqn:Hne; [done|]. injection Htg as <-.
    apply bool_decide_eq_false in Hne. split; [done|]. by exists args.
  - destruct (rule_ResourceType r =? ResourceTypeMcpOperation) eqn:Hb; [|done]. apply bool_decide_eq_true in Hb. split; [done|].
    unfold OperationResourceID. by rewrite Ht, Hb.
Qed.


(** C24. An evaluation that does not permit the access, whether it denies it or
    fails, leaves every approval and every grant as it was, and a denial carries
    nothing but its reasons: no scope, no details, no approval and no grant. *)
Theorem refusal_spends_nothing {C} (ev : Evaluator) (d : ResourceAccessDeps transition_error C) tenantID in_ now grant s r s' w :
  evaluate ev d tenantID in_ now grant s = (r, s', w) -> (forall decision, r = Ok decision -> dec_Permitted decision = false) ->
  as_approvals s' = as_approvals s /\ as_grants s' = as_grants s /\ forall decision, r = Ok decision -> decision = denyReasons (dec_Reasons decision).
Proof. apply EvaluateResourceAccess_refuses. Qed.

Definition with_relations {C} (check : RelationCheck -> result transition_error RelationDecision) (d : ResourceAccessDeps transition_error C) :
    ResourceAccessDeps transition_error C :=
  {| rd_Servers := rd_Servers d; rd_Tokens := rd_Tokens d; rd_Clients := rd_Clients d; rd_Relations := Some check;
     rd_has_Replay := rd_has_Replay d; rd_has_Approvals := rd_has_Approvals d; rd_has_Limiter := rd_has_Limiter d;
     rd_has_Grants := rd_has_Grants d; rd_has_Emit := rd_has_Emit d |}.

Lemma with_relations_stages {C} ev check (d : ResourceAccessDeps transition_error C) tenantID find introspect checker server operation now grant
    (s : AccessStore) :
  evaluation_stages ev (with_relations check d) tenantID find introspect checker server operation now grant s =
  evaluation_stages ev d tenantID find introspect checker server operation now grant s.
Proof. destruct d. reflexivity. Qed.

(** A registered server learns nothing from an operation that it did not
    register: whatever the token, the holder and the relations are, every answer
    is the one denial [operation_not_registered], and the whole run, its events
    included, is the same for all states of the relations. *)
Theorem unregistered_tells_nothing {C} (ev : Evaluator) (d : ResourceAccessDeps transition_error C) tenantID in_ now grant
    find checker check server s :
  rd_Servers d = Some find -> rd_Relations d = Some checker -> find (rr_TenantID in_) (rr_ClientID in_) = Ok (Some server) ->
  op_Registered (resolveResourceOperation ev server in_) = false ->
  (forall decision, (evaluate ev d tenantID in_ now grant s).1.1 = Ok decision -> decision = denyResourceAccess ReasonOperationNotRegistered) /\
  evaluate ev (with_relations check d) tenantID in_ now grant s = evaluate ev d tenantID in_ now grant s.
Proof.
  intros Hf Hc Hs Hr. split.
  - intros decision. destruct (evaluate _ _ _ _ _ _ s) as [[r s'] w] eqn:Hrun. simpl. intros ->.
    apply EvaluateResourceAccess_run in Hrun as [(_ & _ & e & [=])|(find' & introspect & checker' & server' & E1 & _ & _ & E2 & _ & audit & w1 & Hrun & _)].
    rewrite Hf in E1. injection E1 as <-. rewrite Hs in E2. injection E2 as <-.
    unfold evaluateForServer in Hrun. rewrite Hr in Hrun. simpl in Hrun. apply eff_bind_Ok in Hrun as (x & s1 & w2 & w3 & Hst & Hx & _).
    apply unregistered_denied in Hst as [audit' ->]; [|done]. unfold eff_ret in Hx. by injection Hx as <- _ _ _.
  - unfold EvaluateResourceAccess. simpl. rewrite Hf, Hc. destruct (rd_Tokens d) as [introspect|]; [|done].
    unfold eff_bind at 1, lift. symmetry. unfold eff_bind at 1, lift. rewrite Hs. simpl. destruct (srv_IsActive server); [|done]. simpl.
    unfold eff_bind at 1. symmetry. unfold eff_bind at 1.
    replace (evaluateForServer ev (with_relations check d) tenantID find introspect check server (resolveResourceOperation ev server in_) now grant s)
      with (evaluateForServer ev d tenantID find introspect checker server (resolveResourceOperation ev server in_) now grant s); [done|].
    unfold evaluateForServer. rewrite Hr. simpl. unfold eff_bind.
    by rewrite with_relations_stages, (unregistered_stages _ _ _ _ _ checker _ _ _ _ check s Hr).
Qed.

(** ** Sequences of evaluations *)

Inductive evaluated : AccessStore -> AccessStore -> Prop :=
| evaluated_one {C} (ev : Evaluator) (d : ResourceAccessDeps transition_error C) tenantID in_ now grant s r s' w :
    evaluate ev d tenantID in_ now grant s = (r, s', w) -> evaluated s s'.

(** The request of the operation differs in its target only. *)

(** The key that holds the right of an approval. *)
Definition right_held (id key : string) (s : AccessStore) : Prop :=
  exists p r u, by_id id (as_approvals s) = Some (p, r) /\ ap_Use r = Some u /\ KeyHash u = key.

Lemma claimed_keeps tenantID now a use before after id p r u :
  claimed tenantID now a use before after -> by_id id before = Some (p, r) -> ap_Use r = Some u ->
  by_id id after = Some (p, r).
Proof.
  intros (_ & _ & q & r0 & H0 & _ & _ & _ & [(Hn & _ & ->)|(? & _ & _ & _ & ->)]) Hid Hu; [|done].
  apply by_id_Some in H0 as [_ H0]. apply by_id_Some in Hid as [Hi Hp]. apply by_id_Some. split; [done|].
  rewrite <- Hp. apply lookup_insert_ne. intros ->. congruence.
Qed.

Lemma evaluated_keeps_right id key s s' : evaluated s s' -> right_held id key s -> right_held id key s'.
Proof.
  intros [C ev d tenantID in_ now grant s0 res s1 w Hrun] (p & r & u & Hid & Hu & Hk).
  destruct res as [decision|e].
  2:{ apply EvaluateResourceAccess_refuses in Hrun as (E & _); [|done]. exists p, r, u. by rewrite E. }
  destruct (dec_Permitted decision) eqn:Hd.
  2:{ apply EvaluateResourceAccess_refuses in Hrun as (E & _); [|by intros ? [= <-]]. exists p, r, u. by rewrite E. }
  apply EvaluateResourceAccess_permits in Hrun as (find & introspect & checker & server & _ & _ & _ & _ & _ & Hall); [|done].
  destruct Hall as (token & subject & actors & relation & _ & _ & _ & _ & _ & _ & _ & _ & _ & _ & Happ & _).
  exists p, r, u. split_and!; [|done..]. destruct Happ as [(_ & _ & ->)|(_ & r1 & dg & use & _ & _ & Hcl)]; [done|].
  by eapply claimed_keeps.
Qed.

Lemma permitted_holds {C} (ev : Evaluator) (d : ResourceAccessDeps transition_error C) tenantID in_ now grant s decision use s' w server find :
  evaluate ev d tenantID in_ now grant s = (Ok decision, s', w) -> dec_Permitted decision = true ->
  rd_Servers d = Some find -> find (rr_TenantID in_) (rr_ClientID in_) = Ok (Some server) ->
  dec_ApprovedOperation decision = Some use ->
  let key := operation_key (resolveResourceOperation ev server in_) in
  right_held (use_ApprovalRequestID use) key s' /\
  (forall other, right_held (use_ApprovalRequestID use) other s -> other = key /\ Replayed use = true).
Proof.
  intros Hrun Hp Hf Hs Hu. apply EvaluateResourceAccess_permits in Hrun as (find' & introspect & checker & server' & E1 & _ & _ & E2 & _ & Hall); [|done].
  rewrite Hf in E1. injection E1 as <-. rewrite Hs in E2. injection E2 as <-.
  destruct Hall as (token & subject & actors & relation & _ & _ & _ & _ & _ & _ & _ & _ & _ & _ & Happ & _).
  destruct Happ as [(_ & E & _)|(_ & r1 & dg & use' & _ & E & Hcl)]; [congruence|]. rewrite Hu in E. injection E as <-.
  destruct Hcl as (-> & _ & p & r & Hid & _ & _ & _ & Hcl). simpl in *. unfold right_held.
  destruct Hcl as [(Hn & Hr & ->)|(u & Hru & Hk & Hr & ->)].
  - split.
    + set (key := operation_key _).
      exists p, (used_request {| KeyHash := key; ClaimedAt := now |} r), {| KeyHash := key; ClaimedAt := now |}. split_and!; [|done..]. apply by_id_Some in Hid as [Hi _]. apply by_id_Some. split; [done|apply lookup_insert_eq].
    + intros other (q & r' & u & Hq & Hu' & _). congruence.
  - split; [by exists p, r, u|]. intros other (q & r' & u' & Hq & Hu' & Hk'). split; [|done]. congruence.
Qed.

(** The right of an approval belongs to one operation key.  After an access
    that was permitted by an approval, any later evaluation, whatever evaluations
    came between and with whatever settings, that is permitted by the same
    approval carries the same hash of its client and operation key, and is marked
    as a replay. *)
Theorem approved_operation_exclusive {C1 C2} (ev1 ev2 : Evaluator) (d1 : ResourceAccessDeps transition_error C1)
    (d2 : ResourceAccessDeps transition_error C2) t1 t2 in1 in2 now1 now2 g1 g2 s s1 s2 s3 w1 w2 dec1 dec2 use1 use2
    find1 find2 server1 server2 :
  evaluate ev1 d1 t1 in1 now1 g1 s = (Ok dec1, s1, w1) -> dec_Permitted dec1 = true -> dec_ApprovedOperation dec1 = Some use1 ->
  rtc evaluated s1 s2 ->
  evaluate ev2 d2 t2 in2 now2 g2 s2 = (Ok dec2, s3, w2) -> dec_Permitted dec2 = true -> dec_ApprovedOperation dec2 = Some use2 ->
  use_ApprovalRequestID use2 = use_ApprovalRequestID use1 ->
  rd_Servers d1 = Some find1 -> find1 (rr_TenantID in1) (rr_ClientID in1) = Ok (Some server1) ->
  rd_Servers d2 = Some find2 -> find2 (rr_TenantID in2) (rr_ClientID in2) = Ok (Some server2) ->
  let key in_ := HashOperationKey (rr_ClientID in_) (rr_OperationKey in_) in
  key in2 = key in1 /\ Replayed use2 = true.
Proof.
  intros H1 P1 U1 Hsteps H2 P2 U2 Hid F1 S1 F2 S2. cbv zeta.
  destruct (permitted_holds _ _ _ _ _ _ _ _ _ _ _ _ _ H1 P1 F1 S1 U1) as [Hheld _].
  destruct (permitted_holds _ _ _ _ _ _ _ _ _ _ _ _ _ H2 P2 F2 S2 U2) as [_ Hsame].
  assert (Hkeep : forall key, right_held (use_ApprovalRequestID use1) key s1 -> right_held (use_ApprovalRequestID use1) key s2).
  { clear -Hsteps. induction Hsteps as [|a b c Hab _ IH]; [done|]. intros key Hk. apply IH. by eapply evaluated_keeps_right. }
  rewrite Hid in Hsame. destruct (Hsame _ (Hkeep _ Hheld)) as [Hk Hr]. split; [|done]. unfold operation_key in Hk.
  destruct (resolved_request ev1 server1 in1) as (E1 & E2 & _), (resolved_request ev2 server2 in2) as (E3 & E4 & _). by rewrite E1, E2, E3, E4 in Hk.
Qed.

(** Two counters meet only for the same limit and the same subject: equal
    keys come from the same tenant, registration, resource type, relation and
    window, and agree on the units that are counted and on the value of each. *)
Theorem resourceAccessLimitKey_inj ev server1 server2 r1 r2 l1 l2 s1 s2 t1 t2 key :
  resourceAccessLimitKey ev server1 r1 l1 s1 t1 = Some key -> resourceAccessLimitKey ev server2 r2 l2 s2 t2 = Some key ->
  t1 = t2 /\ srv_ID server1 = srv_ID server2 /\ rule_ResourceType r1 = rule_ResourceType r2 /\ rule_Relation r1 = rule_Relation r2 /\
  limit_WindowSeconds l1 = limit_WindowSeconds l2 /\
  Forall (same_unit l1 l2 s1 s2) [ResourceAccessLimitByAgent; ResourceAccessLimitByUser; ResourceAccessLimitByResource].
Proof.
  unfold resourceAccessLimitKey. destruct (Bucket _ l1 s1) as [b1|] eqn:H1; [|done]. destruct (Bucket _ l2 s2) as [b2|] eqn:H2; [|done].
  rewrite !fmap_Some. intros (c1 & Hc1 & ->) (c2 & Hc2 & Heq). injection Hc1 as <-. injection Hc2 as <-.
  repeat (apply Quote_app_inj in Heq as [? Heq]; apply append_cancel in Heq). simpl in Heq. subst b2.
  destruct (Bucket_inj _ _ _ _ _ _ H1 H2) as [Hw Hu]. split_and!; done.
Qed.

(** C25. The grant of a permitted access is what the token exchange claims.  A claim
    of it succeeds exactly for the tenant of the access, the client that asked, the
    token that was evaluated and the resource that was named, until sixty seconds
    later; it takes the grant, so that no second claim of it succeeds; and the step of
    the token exchange that claims it passes.  An operation that needed an approval
    gives no grant. *)
Theorem grant_redeemable {C} (ev : Evaluator) (d : ResourceAccessDeps transition_error C) tenantID in_ now grant s decision s' w :
  evaluate ev d tenantID in_ now grant s = (Ok decision, s', w) -> dec_Permitted decision = true ->
  rr_TokenExchangeResource in_ <> "" ->
  dec_TokenExchangeGrant decision = grant /\ dec_ApprovedOperation decision = None /\
  exists introspect token, rd_Tokens d = Some introspect /\ introspect (rr_Token in_) = Ok (Some token) /\ ir_JTI token <> "" /\
  let entry := HashTokenExchangeGrant grant in
  let left_ : TokenExchangeGrantStore := delete entry (as_grants s' : gmap string (string * TokenExchangeGrant)) in
  (forall tenant claim later, grant_Claim tenant entry claim later (as_grants s') =
     if decide (tenant = tenantID /\ (later < now + 60 * Second)%Z /\ tg_ClientID claim = rr_ClientID in_ /\
                tg_SubjectTokenID claim = ir_JTI token /\ tg_Resource claim = rr_TokenExchangeResource in_)
     then (true, left_) else (false, as_grants s')) /\
  (forall tenant claim later, grant_Claim tenant entry claim later left_ = (false, left_)) /\
  forall E2 C2 (d2 : ExchangeTokenDeps E2 C2) (x : ExchangeTokenInput) consents later,
    xd_has_Grants d2 = true -> xi_ClientID x = rr_ClientID in_ -> xi_TokenExchangeGrant x = dec_TokenExchangeGrant decision ->
    (later < now + 60 * Second)%Z ->
    claimTokenExchangeGrant d2 tenantID x later (ir_JTI token) (rr_TokenExchangeResource in_) {| xs_consents := consents; xs_grants := as_grants s' |}
    = (Ok true, {| xs_consents := consents; xs_grants := left_ |}, []).
Proof.
  intros Hrun Hp Hne.
  apply EvaluateResourceAccess_permits in Hrun as (find & introspect & checker & server & _ & Ht & _ & _ & _ & Hall); [|done].
  destruct Hall as (token & subject & actors & relation & Hi & _ & _ & _ & _ & _ & _ & _ & _ & _ & Happ & _ & Hgrant).
  destruct (resolved_request ev server in_) as (E1 & _ & E3 & E4 & _). unfold grant_given in Hgrant. rewrite E1, E3 in Hgrant.
  destruct Hgrant as [(? & _)|(_ & _ & Hj & Hd & Hgr & Has)]; [done|]. split_and!; [done| |].
  { destruct Happ as [(_ & ? & _)|(Hn & _)]; [done|by rewrite Hd in Hn]. }
  exists introspect, token. rewrite E4 in Hi. split_and!; [done..|]. cbv zeta.
  set (entry := HashTokenExchangeGrant grant) in *. set (left_ := delete entry _).
  assert (Hclaim : forall tenant claim later, grant_Claim tenant entry claim later (as_grants s') =
     if decide (tenant = tenantID /\ (later < now + 60 * Second)%Z /\ tg_ClientID claim = rr_ClientID in_ /\
                tg_SubjectTokenID claim = ir_JTI token /\ tg_Resource claim = rr_TokenExchangeResource in_)
     then (true, left_) else (false, as_grants s')).
  { intros tenant claim later. unfold grant_Claim.
    assert (Hl : (as_grants s' : gmap string (string * TokenExchangeGrant)) !! entry = Some (tenantID,
      {| tg_ClientID := rr_ClientID in_; tg_SubjectTokenID := ir_JTI token; tg_Resource := rr_TokenExchangeResource in_; tg_ExpiresAt := Add now TokenExchangeGrantTTL |}))
      by (rewrite Has; exact (lookup_insert_eq (M := gmap string) _ _ _)).
    match goal with |- match ?o with _ => _ end = _ => change o with ((as_grants s' : gmap string (string * TokenExchangeGrant)) !! entry) end.
    rewrite Hl. cbn [tg_ClientID tg_SubjectTokenID tg_Resource tg_ExpiresAt].
    match goal with |- (if ?b then _ else _) = _ => destruct b eqn:Hb end.
    - rewrite decide_False; [done|]. intros (-> & Hlt & Hc1 & Hc2 & Hc3). rewrite Hc1, Hc2, Hc3, !bool_decide_true in Hb by done. cbn [negb orb] in Hb.
      unfold After, Add, TokenExchangeGrantTTL in Hb. replace (later <? _) with true in Hb by (unfold Second in *; lia). done.
    - rewrite !orb_false_iff in Hb. destruct Hb as [[[[B1 B2] B3] B4] B5]. apply negb_false_iff in B1, B2, B3, B4, B5.
      apply bool_decide_eq_true in B1, B3, B4, B5. rewrite decide_True; [done|]. unfold After, Add, TokenExchangeGrantTTL in B2.
      split_and!; try done. lia. }
  split_and!; [exact Hclaim| |].
  - intros tenant claim later. unfold grant_Claim. match goal with |- match ?o with _ => _ end = _ => assert (o = None) as -> end; [|done].
    exact (lookup_delete_eq (M := gmap string) _ _).
  - intros E2 C2 d2 x consents later Hhas Hc Hg Hlt. unfold claimTokenExchangeGrant. rewrite Hhas, (bool_decide_false _ Hj). cbn [negb orb].
    unfold call. cbn. rewrite Hg, Hgr, Hc. fold entry. rewrite Hclaim, decide_True by (by split_and!). done.
Qed.

(** ** Witnesses: a bank and a mail server ask *)

(** Decoding and digests by hand: the one text stands for no members. *)
Definition demo_evaluator : Evaluator :=
  {| ev_lib := demo_library; ev_cel := demo_cel; ev_printable _ := true; ev_url_Parse := demo_parse;
     ev_EqualFold a b := a =? b; ev_DecodeStrictJSONObject raw := if raw =? "{}" then Some ∅ else None;
     ev_DigestOperationFields fields := if decide (fields = ∅) then Some "digest" else None |}.

Definition demo_pay : ResourceAccessRule :=
  {| rule_Tool := None; rule_ResourceType := "account"; rule_Relation := "pay"; rule_Scopes := ["payments"];
     AuthorizationDetailType := "payment"; RequiresApprovedOperation := true; rule_Condition := None;
     rule_Limits := [{| By := [ResourceAccessLimitByUser]; limit_MaxRequests := 2; limit_WindowSeconds := 60 |}];
     TokenExchangeResources := [] |}.

Definition demo_bank_server : ResourceServer :=
  {| srv_mcp := {| mcp_Resource := "https://bank.example"; mcp_Scopes := ["payments"]; mcp_State := McpResourceServerActive |};
     srv_TenantID := "acme"; srv_ID := "bank"; srv_Name := "Bank"; srv_ClientID := "bank-client";
     AccessRules := [demo_pay]; srv_CreatedAt := 1%Z; srv_UpdatedAt := 1%Z |}.

Definition demo_access_token (client aud scope approval : string) (details : list AuthorizationDetail) : IntrospectionResult :=
  {| ir_Active := true; ir_JTI := "jti-1"; ir_ClientID := client; ir_Sub := "alice"; ir_Scope := scope; ir_Exp := 2000%Z;
     ir_Iat := 1%Z; ir_Managed := false; ir_SenderConstraint := None; ir_Aud := [aud]; ir_Act := None; ir_MayAct := None;
     ir_AuthorizationDetails := details; ir_PrincipalType := ""; ir_AgentID := "agent"; ir_AgentChain := [];
     ir_ApprovalRequestID := approval |}.

Definition demo_introspect (raw : string) : result transition_error (option IntrospectionResult) :=
  Ok (if raw =? "payment" then Some (demo_access_token "client" "https://bank.example" "openid payments" demo_uuid [demo_detail])
      else Some (demo_access_token "app" "https://mail" "mail" "" [])).

Definition demo_access_deps : ResourceAccessDeps transition_error string :=
  {| rd_Servers := Some (fun _ c => Ok (if c =? "bank-client" then Some demo_bank_server
                                        else if c =? "gateway" then Some demo_mail_server else None));
     rd_Tokens := Some demo_introspect;
     rd_Clients := Some (fun _ c => Ok (if c =? "alice" then None else Some c));
     rd_Relations := Some (fun check => Ok {| rd_Permitted := contains (rc_GrantedScopes check) "mail" || contains (rc_GrantedScopes check) "payments";
                                              rd_Reasons := [] |});
     rd_has_Replay := true; rd_has_Approvals := true; rd_has_Limiter := true; rd_has_Grants := true; rd_has_Emit := true |}.

Definition demo_request (client token type id relation key exchange : string) : ResourceAccessRequest :=
  {| rr_TenantID := "acme"; rr_ClientID := client; rr_Token := token; rr_ResourceType := type; rr_ResourceID := id; rr_Relation := relation;
     rr_DPoPProof := ""; rr_HTM := ""; rr_HTU := ""; rr_CertificateThumbprint := ""; rr_OperationKey := key; rr_OperationParameters := "{}";
     rr_Attributes := "{}"; rr_TokenExchangeResource := exchange; rr_RequestID := "r" |}.

Definition demo_payment (key : string) : ResourceAccessRequest :=
  demo_request "bank-client" "payment" "account" "account-1" "pay" key "".
Definition demo_reading : ResourceAccessRequest := demo_request "gateway" "mail" "mailbox" "box" "read" "" "https://files".

Definition demo_access_store : AccessStore :=
  {| as_approvals := demo_exchanged; as_limits := NewRateLimiter ∅; as_proofs := ∅; as_grants := ∅ |}.

Definition demo_evaluate (in_ : ResourceAccessRequest) (now : Time) (s : AccessStore) :=
  evaluate demo_evaluator demo_access_deps "acme" in_ now "g" s.

Definition demo_decision (approved : option ApprovedOperationUse) (details : list AuthorizationDetail) (scope g : string) :
    ResourceAccessDecision :=
  {| dec_Permitted := true; dec_Reasons := []; dec_Scope := scope; dec_DelegationMode := "direct"; dec_AuthorizationDetails := details;
     dec_ApprovedOperation := approved; dec_TokenExchangeGrant := g |}.

Definition paid := demo_evaluate (demo_payment "k1") 4%Z demo_access_store.
Definition paid_again := demo_evaluate (demo_payment "k1") 5%Z paid.1.2.
Definition stolen := demo_evaluate (demo_payment "k2") 5%Z paid.1.2.
Definition mailed := demo_evaluate demo_reading 4%Z demo_access_store.

Definition demo_right_used (replayed : bool) : ApprovedOperationUse :=
  {| use_ApprovalRequestID := demo_uuid; OperationDigest := "digest"; Replayed := replayed |}.
Definition demo_paid (replayed : bool) : ResourceAccessDecision :=
  demo_decision (Some (demo_right_used replayed)) [demo_detail] "openid payments" "".
Definition demo_mailed : ResourceAccessDecision := demo_decision None [] "mail" "g".

Lemma paid_run : paid = (Ok (demo_paid false), paid.1.2, paid.2).
Proof. vm_compute. reflexivity. Qed.
Lemma paid_again_run : paid_again = (Ok (demo_paid true), paid_again.1.2, paid_again.2).
Proof. vm_compute. reflexivity. Qed.
Lemma stolen_run : stolen = (Ok (denyResourceAccess ReasonApprovalAlreadyUsed), stolen.1.2, stolen.2).
Proof. vm_compute. reflexivity. Qed.
Lemma mailed_run : mailed = (Ok demo_mailed, mailed.1.2, mailed.2).
Proof. vm_compute. reflexivity. Qed.


Lemma refusal_spends_nothing_witness :
  stolen.1.1 = Ok (denyResourceAccess ReasonApprovalAlreadyUsed) /\ as_approvals stolen.1.2 = as_approvals paid.1.2.
Proof.
  split; [exact (f_equal (fun r => r.1.1) stolen_run)|].
  destruct (refusal_spends_nothing demo_evaluator demo_access_deps "acme" (demo_payment "k2") 5%Z "g" paid.1.2 _ stolen.1.2 stolen.2 stolen_run)
    as [H _]; [intros decision H; injection H as <-; reflexivity|exact H].
Defined.

(** An operation that the bank did not register. *)
Definition demo_unknown : ResourceAccessRequest := demo_request "bank-client" "payment" "account" "account-1" "close" "k1" "".

Lemma unregistered_tells_nothing_witness :
  (evaluate demo_evaluator (with_relations (fun _ => Ok {| rd_Permitted := true; rd_Reasons := [] |}) demo_access_deps) "acme" demo_unknown 4%Z "g" demo_access_store).1.1 =
    Ok (denyResourceAccess ReasonOperationNotRegistered).
Proof.
  refine (eq_trans (f_equal (fun r => r.1.1) (proj2 (unregistered_tells_nothing demo_evaluator demo_access_deps "acme" demo_unknown 4%Z "g" _ _
    (fun _ => Ok {| rd_Permitted := true; rd_Reasons := [] |}) demo_bank_server demo_access_store eq_refl eq_refl eq_refl eq_refl))) _).
  vm_compute. reflexivity.
Defined.

Lemma approved_operation_exclusive_witness :
  HashOperationKey "bank-client" "k1" = HashOperationKey "bank-client" "k1" /\ Replayed (demo_right_used true) = true.
Proof.
  exact (approved_operation_exclusive demo_evaluator demo_evaluator demo_access_deps demo_access_deps "acme" "acme" (demo_payment "k1")
    (demo_payment "k1") 4%Z 5%Z "g" "g" demo_access_store paid.1.2 paid.1.2 paid_again.1.2 paid.2 paid_again.2 (demo_paid false) (demo_paid true)
    (demo_right_used false) (demo_right_used true) _ _ demo_bank_server demo_bank_server paid_run eq_refl eq_refl (rtc_refl _ _)
    paid_again_run eq_refl eq_refl eq_refl eq_refl eq_refl eq_refl eq_refl).
Defined.

Definition demo_limit_key (user : string) : option string :=
  resourceAccessLimitKey demo_evaluator demo_bank_server demo_pay
    {| By := [ResourceAccessLimitByUser]; limit_MaxRequests := 2; limit_WindowSeconds := 60 |}
    {| ls_AgentID := "agent"; ls_UserID := user; ls_ResourceID := "account-1" |} "acme".

Lemma resourceAccessLimitKey_inj_witness : demo_limit_key "alice" <> None /\ demo_limit_key "alice" <> demo_limit_key "bob".
Proof.
  split; [vm_compute; discriminate|]. intros H.
  destruct (demo_limit_key "alice") as [key|] eqn:Ha; [|vm_compute in Ha; discriminate Ha].
  destruct (resourceAccessLimitKey_inj _ _ _ _ _ _ _ _ _ _ _ key Ha (eq_sym H)) as (_ & _ & _ & _ & _ & Hu).
  apply Forall_inv_tail, Forall_inv in Hu. destruct Hu as [_ Hu]. specialize (Hu eq_refl). vm_compute in Hu. discriminate Hu.
Defined.

Definition demo_redeem : ExchangeTokenInput :=
  {| xi_ClientID := "gateway"; xi_SubjectToken := "mail"; xi_SubjectTokenType := ""; xi_ActorToken := ""; xi_ActorTokenType := "";
     xi_Resource := ["https://files"]; xi_Audience := []; xi_Scope := ""; xi_RequestedTokenType := ""; xi_ProofJKT := "";
     xi_ProofX5TS256 := ""; xi_AuthorizationDetails := []; xi_TokenExchangeGrant := "g" |}.

Lemma grant_redeemable_witness : exists token, demo_introspect "mail" = Ok (Some token) /\
  (grant_Claim "acme" (HashTokenExchangeGrant "g")
    {| tg_ClientID := "gateway"; tg_SubjectTokenID := ir_JTI token; tg_Resource := "https://files"; tg_ExpiresAt := 0%Z |} 5%Z (as_grants mailed.1.2)).1 = true.
Proof.
  destruct (grant_redeemable demo_evaluator demo_access_deps "acme" demo_reading 4%Z "g" demo_access_store demo_mailed mailed.1.2 mailed.2
    mailed_run eq_refl ltac:(discriminate)) as (_ & _ & introspect & token & H1 & H2 & _ & Hclaim & _).
  injection H1 as <-. exists token. split; [exact H2|]. rewrite Hclaim. rewrite decide_True; [reflexivity|].
  split; [reflexivity|]. split; [reflexivity|]. split; [reflexivity|]. split; reflexivity.
Defined.
