(* ===== verification/IdJag.v ===== *)
(** * OAuth2: assertions of identity across applications (ID-JAG)

    [backend/oauth2/internal/token/usecases/issue_id_jag.go] and
    [redeem_id_jag.go] with the policies of [domain/cross_app_access.go] and their
    memory repository [internal/db_memory/cross_app_access.go].

    [IssueIDJAG] turns an ID token of this server into an assertion for the
    authorization server of another application, [RedeemIDJAG] turns an assertion
    of a trusted issuer into an access token.  Both are their checks in the order
    of the code; a refusal of [reject] reports itself.  The signers, the verifier
    of ID tokens, the trust in issuers and the repositories that are only read are
    functions; the delegations and the identifiers of assertions are the store.

    The theorems: what an issued and what a redeemed assertion satisfies, and that
    an assertion is redeemed once, for as long as it is valid. *)

From Stdlib Require Import Ascii String ZArith Lia.
From stdpp Require Import base strings list gmap sorting.
From S2P Require Import Prelude Effects GoStrings Crypto Rules Urls Policy TokenDomain ActorChain RichAuthorization.
From S2P Require Import RefreshStore RefreshUsecase ExchangeCode Device Keyset Quota Approval Consents Introspect ExchangeToken.
From S2P Require Import Resilience Doubles Jose.

Local Open Scope string_scope.
Local Open Scope go_scope.

(** ** Policies *)

Record CrossAppAccessIssuePolicy := {
  ip_TenantID : string;
  ip_ID : string;
  ip_ClientID : string;
  ip_Audience : string;
  ip_RelyingPartyClientID : string;
  ip_TargetClientID : string;
  ip_Resources : list string;
  ip_Scopes : list string;
  ip_AuthorizationDetailTypes : list string;
  ip_ReleaseEmail : bool;
  ip_CreatedAt : Time;
}.

Record CrossAppAccessRedeemPolicy := {
  dp_TenantID : string;
  dp_ID : string;
  dp_ProviderID : string;
  dp_ClientID : string;
  dp_Scopes : list string;
  dp_CreatedAt : Time;
}.

(** The validity of a policy: [false] is [ErrInvalidCrossAppAccessPolicy]. *)
Section validation.
Context (url_Parse : string -> option URL).

Definition IssuePolicy_Validate (p : CrossAppAccessIssuePolicy) : bool :=
  if (ip_TenantID p =? "") || (ip_ID p =? "") || (ip_ClientID p =? "") || (ip_RelyingPartyClientID p =? "") ||
     (ip_TargetClientID p =? "") then false
  else if negb (isAbsoluteHTTPSURI url_Parse (ip_Audience p)) then false
  else if (ip_Resources p =? []) || (ip_Scopes p =? []) then false
  else if existsb (fun resource => negb (isAbsoluteURIWithoutFragment url_Parse resource)) (ip_Resources p) then false
  else negb (contains (ip_Scopes p) "").
End validation.

Definition RedeemPolicy_Validate (p : CrossAppAccessRedeemPolicy) : bool :=
  negb ((dp_TenantID p =? "") || (dp_ID p =? "") || (dp_ProviderID p =? "") || (dp_ClientID p =? "") ||
        (dp_Scopes p =? []) || contains (dp_Scopes p) "").

(** The scopes are added one by one to those granted so far. *)
Definition add_granted (allowed granted : list string) (scope : string) : list string :=
  if contains allowed scope && negb (contains granted scope) then (granted ++ [scope])%list else granted.

Definition CrossAppAccessGrantedScopes (requested allowed : list string) : list string :=
  if requested =? [] then allowed else fold_left (add_granted allowed) requested [].

(** The memory repository. *)
Record CrossAppAccessPolicyRepository := {
  cr_issue : list CrossAppAccessIssuePolicy;
  cr_redeem : list CrossAppAccessRedeemPolicy;
}.

Definition NewCrossAppAccessPolicyRepository : CrossAppAccessPolicyRepository := {| cr_issue := []; cr_redeem := [] |}.

(** The order of the listing; a client and an audience are joined by a zero
    byte, which no identifier has. *)
Definition issue_key (p : CrossAppAccessIssuePolicy) : string := ip_ClientID p ++ String Ascii.zero (ip_Audience p).
Definition redeem_key (p : CrossAppAccessRedeemPolicy) : string := dp_ProviderID p ++ String Ascii.zero (dp_ClientID p).
Definition issue_before (p q : CrossAppAccessIssuePolicy) : Prop := String.le (issue_key p) (issue_key q).
Definition redeem_before (p q : CrossAppAccessRedeemPolicy) : Prop := String.le (redeem_key p) (redeem_key q).

#[export] Instance issue_before_dec : RelDecision issue_before.
Proof. intros p q. unfold issue_before. apply _. Defined.
#[export] Instance redeem_before_dec : RelDecision redeem_before.
Proof. intros p q. unfold redeem_before. apply _. Defined.

Definition ListIssuePolicies (tenantID : string) (r : CrossAppAccessPolicyRepository) : list CrossAppAccessIssuePolicy :=
  merge_sort issue_before (List.filter (fun p => ip_TenantID p =? tenantID) (cr_issue r)).

Definition FindIssuePolicy (tenantID id : string) (r : CrossAppAccessPolicyRepository) : option CrossAppAccessIssuePolicy :=
  List.find (fun p => (ip_TenantID p =? tenantID) && (ip_ID p =? id)) (cr_issue r).

(** [None] is [ErrCrossAppAccessPolicyExists]. *)
Definition CreateIssuePolicy (policy : CrossAppAccessIssuePolicy) (r : CrossAppAccessPolicyRepository) :
    option CrossAppAccessPolicyRepository :=
  if existsb (fun p => (ip_TenantID p =? ip_TenantID policy) && (ip_ClientID p =? ip_ClientID policy) &&
                       (ip_Audience p =? ip_Audience policy)) (cr_issue r)
  then None else Some {| cr_issue := (cr_issue r ++ [policy])%list; cr_redeem := cr_redeem r |}.

Definition DeleteIssuePolicy (tenantID id : string) (r : CrossAppAccessPolicyRepository) : CrossAppAccessPolicyRepository :=
  {| cr_issue := List.filter (fun p => negb ((ip_TenantID p =? tenantID) && (ip_ID p =? id))) (cr_issue r); cr_redeem := cr_redeem r |}.

Definition ListRedeemPolicies (tenantID : string) (r : CrossAppAccessPolicyRepository) : list CrossAppAccessRedeemPolicy :=
  merge_sort redeem_before (List.filter (fun p => dp_TenantID p =? tenantID) (cr_redeem r)).

Definition FindRedeemPolicy (tenantID id : string) (r : CrossAppAccessPolicyRepository) : option CrossAppAccessRedeemPolicy :=
  List.find (fun p => (dp_TenantID p =? tenantID) && (dp_ID p =? id)) (cr_redeem r).

Definition FindRedeemPolicyFor (tenantID providerID clientID : string) (r : CrossAppAccessPolicyRepository) :
    option CrossAppAccessRedeemPolicy :=
  List.find (fun p => (dp_TenantID p =? tenantID) && (dp_ProviderID p =? providerID) && (dp_ClientID p =? clientID)) (cr_redeem r).

Definition CreateRedeemPolicy (policy : CrossAppAccessRedeemPolicy) (r : CrossAppAccessPolicyRepository) :
    option CrossAppAccessPolicyRepository :=
  if existsb (fun p => (dp_TenantID p =? dp_TenantID policy) && (dp_ProviderID p =? dp_ProviderID policy) &&
                       (dp_ClientID p =? dp_ClientID policy)) (cr_redeem r)
  then None else Some {| cr_issue := cr_issue r; cr_redeem := (cr_redeem r ++ [policy])%list |}.

Definition DeleteRedeemPolicy (tenantID id : string) (r : CrossAppAccessPolicyRepository) : CrossAppAccessPolicyRepository :=
  {| cr_issue := cr_issue r; cr_redeem := List.filter (fun p => negb ((dp_TenantID p =? tenantID) && (dp_ID p =? id))) (cr_redeem r) |}.

(** ** Inputs, results and events *)

Definition TokenTypeIDJAGURN : string := "urn:ietf:params:oauth:token-type:id-jag".
Definition tokenTypeIDTokenURN : string := "urn:ietf:params:oauth:token-type:id_token".
Definition idJagStageIssue : string := "issue".
Definition idJagStageRedeem : string := "redeem".
Definition idJagTokenTypeNA : string := "N_A".

Record IDTokenAssertion := {
  ida_Subject : string;
  ida_Audiences : list string;
  ida_IssuedAt : Time;
  ida_AuthTime : Z;
  ida_AMR : list string;
  ida_ACR : string;
}.

Record IDJAGInput := {
  ji_Subject : string;
  ji_Audience : string;
  ji_ClientID : string;
  ji_Resources : list string;
  ji_Scopes : list string;
  ji_AuthorizationDetails : list AuthorizationDetail;
  ji_AuthTime : Z;
  ji_AMR : list string;
  ji_ACR : string;
  ji_Email : string;
  ji_SenderConstraint : option SenderConstraint;
}.

Record IssueIDJAGInput := {
  ii_ClientID : string;
  ii_SubjectToken : string;
  ii_SubjectTokenType : string;
  ii_HasActorToken : bool;
  ii_Audiences : list string;
  ii_Resources : list string;
  ii_Scope : string;
  ii_AuthorizationDetails : list AuthorizationDetail;
  ii_ProofJKT : string;
  ii_ProofX5TS256 : string;
}.

Record RedeemIDJAGInput := {
  ri_ClientID : string;
  ri_GrantType : GrantType;
  ri_Assertion : string;
  ri_SelfIssuer : string;
  ri_ProofJKT : string;
  ri_ProofX5TS256 : string;
}.

Record RedeemIDJAGResult := {
  rj_AccessToken : string;
  rj_TokenType : string;
  rj_ExpiresIn : Z;
  rj_Scope : string;
  rj_AuthorizationDetails : list AuthorizationDetail;
}.

Record IDJAGTrustedIssuer := { ti_ProviderID : string; ti_JWKS : list json_object }.

Inductive idjag_event :=
| IdJagIssued (at_ : Time) (tenantID clientID userID audience : string) (resources scopes : list string) (jti : string)
| IdJagRedeemed (at_ : Time) (tenantID issuer clientID userID jti : string)
| IdJagRejected (at_ : Time) (tenantID clientID stage reason : string)
| IdJagTokenIssued (at_ : Time) (tenantID jti clientID userID : string) (scopes : list string) (senderConstraint : string)
| ResourceScopedTokenIssued (at_ : Time) (tenantID clientID resource : string) (scopes : list string)
| IdJagAgentEvent (e : exchange_event).

(** What the issue reads of a user besides. *)
Class EmailView (U : Type) := { user_email : U -> option string; user_EmailVerified : U -> bool }.

(** ** Bindings and scopes *)

Definition idJagBinding (jkt x5t : string) : option SenderConstraint :=
  if jkt <>? "" then Some {| sender_Type := SenderConstraintDPoP; sender_JKT := jkt; sender_X5TS256 := "" |}
  else if x5t <>? "" then Some {| sender_Type := SenderConstraintMTLS; sender_JKT := ""; sender_X5TS256 := x5t |}
  else None.

(** The constraint, or the code of the refusal. *)
Definition decideIDJAGBinding (cnf : option IDJAGConfirmation) (grant : GrantType) (jkt x5t : string) :
    option SenderConstraint + string :=
  match cnf with
  | None => if grant =? GrantJWTDPoP then inr "invalid_grant" else inl (idJagBinding jkt x5t)
  | Some c =>
      if cnf_Other c || ((cnf_JKT c <>? "") && (cnf_X5TS256 c <>? "")) then inr "invalid_grant"
      else if cnf_JKT c <>? "" then
        if grant <>? GrantJWTDPoP then inr "invalid_grant"
        else if jkt =? "" then inr "invalid_dpop_proof"
        else if jkt <>? cnf_JKT c then inr "invalid_grant"
        else inl (Some {| sender_Type := SenderConstraintDPoP; sender_JKT := jkt; sender_X5TS256 := "" |})
      else if cnf_X5TS256 c <>? "" then
        if (grant <>? GrantJWTBearer) || (x5t <>? cnf_X5TS256 c) then inr "invalid_grant"
        else inl (Some {| sender_Type := SenderConstraintMTLS; sender_JKT := ""; sender_X5TS256 := x5t |})
      else inr "invalid_grant"
  end.

Definition filterAuthorizationDetailsByType (details : list AuthorizationDetail) (allowed : list string) : list AuthorizationDetail :=
  List.filter (fun detail => contains allowed (detail_Type detail)) details.

Definition idJagAccessTokenScopes (requested policy client resources : list string) : list string :=
  fold_left (fun out scope =>
    if contains policy scope && contains client scope && contains resources scope && negb (contains out scope)
    then (out ++ [scope])%list else out) requested [].

Definition idJagReplayKey (issuer jti : string) : string :=
  hex_EncodeToString (Sum256 (bytes_of (issuer ++ String Ascii.zero jti))).

(** ** The use cases *)

Section usecases.
Context {S E C U : Type} `{ConsentPort S E} `{ReplayPort S E} `{ClientView C} `{!ClientPolicyView C} `{UserView U} `{!EmailView U}.
Notation flow := (eff S idjag_event (failure E)).

(** The agents, for both hops; [AgentRepo] is [None] when there is none. *)
Record idJagAgentDeps := { ja_AgentRepo : option (AgentRepository E); ja_has_Consents : bool }.

(** The events of the exchange are handed on. *)
Definition with_agent_events {A} (m : eff S exchange_event (failure E) A) : flow A := fun s =>
  let '(r, s', w) := m s in (r, s', map IdJagAgentEvent w).

(** [ExchangeTokenDeps{AgentRepo: ..., Emit: ...}]. *)
Definition agents_only (a : idJagAgentDeps) : ExchangeTokenDeps E C :=
  {| xd_ClientRepo _ _ := Ok None; xd_Introspect _ := Ok None; xd_SignAccessToken _ := Err (NewOAuthError "" "");
     xd_AccessTokenTTLSeconds := 0; xd_Authorizer := None; xd_AuthzDetailTypeRepo := None; xd_McpResourceServerRepo := None;
     xd_AgentRepo := ja_AgentRepo a; xd_has_Consents := ja_has_Consents a; xd_WorkloadVerifier := None; xd_DelegationPolicy := None;
     xd_has_Grants := false; xd_clock := 0%Z; xd_detail_error _ := "" |}.

Definition client_only (clientID : string) : ExchangeTokenInput :=
  {| xi_ClientID := clientID; xi_SubjectToken := ""; xi_SubjectTokenType := ""; xi_ActorToken := ""; xi_ActorTokenType := "";
     xi_Resource := []; xi_Audience := []; xi_Scope := ""; xi_RequestedTokenType := ""; xi_ProofJKT := ""; xi_ProofX5TS256 := "";
     xi_AuthorizationDetails := []; xi_TokenExchangeGrant := "" |}.

(** The subject that is nil names no agent. *)
Definition checkIDJAGAgent (a : idJagAgentDeps) (tenantID clientID sub : string) (scopes : list string) (now : Time) : flow unit :=
  match ja_AgentRepo a with
  | None => eff_ret tt
  | Some _ =>
      let! acting := with_agent_events (rejectSupervisedAgents (agents_only a) tenantID (client_only clientID) now (zero_introspection false) None) in
      if acting =? "" then eff_ret tt
      else
        let! granted := with_agent_events (delegationsPermit (agents_only a) tenantID now sub [acting] scopes) in
        if negb granted then eff_fail (NewOAuthError "access_denied" "The user has not granted delegation to the agent.")
        else call PortError (touch_delegation tenantID sub acting now)
  end.

Section rejections.
Context (tenantID clientID stage : string) (now : Time).

Definition jag_reject {A} (code description : string) : flow A :=
  do! emit (IdJagRejected now tenantID clientID stage code) in eff_fail (NewOAuthError code description).

(** An error of the protocol is rejected, another one passed on. *)
Definition jag_rejecting {A} (m : flow A) : flow A := fun s =>
  match m s with
  | (Err (OAuthError code text), s1, w1) => let '(r, s2, w2) := jag_reject (A := A) code text s1 in (r, s2, (w1 ++ w2)%list)
  | other => other
  end.
End rejections.

(** *** Issue *)

(** What the guard of an agent reads, and its two operations: [Precheck] and
    [Confirm] on its own state. *)
Record IssuanceGuard := {
  ig_Precheck : string -> list string -> list string -> list AuthorizationDetail -> S -> result (failure E) unit * S;
  ig_Confirm : string -> S -> S;
}.

Record IssueIDJAGDeps := {
  ii_Guard : option IssuanceGuard;
  ii_ClientRepo : string -> string -> result E (option C);
  ii_FindBySub : string -> result E (option U);
  ii_ListIssuePolicies : string -> result E (list CrossAppAccessIssuePolicy);
  ii_VerifyIDToken : string -> option IDTokenAssertion;
  ii_SignIDJAG : IDJAGInput -> result E (string * string);
  ii_TTLSeconds : Z;
  ii_ApplicationAccess : option (string -> IDTokenAssertion -> result E bool);
  ii_UserEpochs : option (string -> string -> result E (option Time));
  ii_Agents : idJagAgentDeps;
}.

Section issue.
Context (d : IssueIDJAGDeps) (tenantID : string) (in_ : IssueIDJAGInput) (now : Time).

Notation rejecting := (jag_reject tenantID (ii_ClientID in_) idJagStageIssue now).
Notation "'reject_if' b 'with' code ',' text 'in' k" := (if b then rejecting code text else k)
  (at level 10, b at level 100, code at level 9, text at level 9, k at level 200).

(** The loop over the policies: whether one has the audience, and the last one
    that the client has too. *)
Definition match_policy (audience : string) (acc : bool * option CrossAppAccessIssuePolicy) (candidate : CrossAppAccessIssuePolicy) :
    bool * option CrossAppAccessIssuePolicy :=
  if ip_Audience candidate <>? audience then acc
  else (true, if ip_ClientID candidate =? ii_ClientID in_ then Some candidate else acc.2).

(** The request, up to its audience. *)
Definition issue_request : flow string :=
  let! client := lift (lift_port (ii_ClientRepo d tenantID (ii_ClientID in_))) in
  reject_if match client with Some c => client_ClientType c <>? ClientConfidential | None => true end with
    "invalid_client", "A confidential client is required." in
  reject_if ii_HasActorToken in_ with "invalid_request", "actor_token is not supported for this requested_token_type." in
  reject_if ii_SubjectTokenType in_ <>? tokenTypeIDTokenURN with "invalid_request", "unsupported subject_token_type" in
  match nonEmpty (ii_Audiences in_) with
  | [audience] => eff_ret audience
  | _ => rejecting "invalid_request" "exactly one audience is required"
  end.

Definition issue_assertion : flow IDTokenAssertion :=
  match ii_VerifyIDToken d (ii_SubjectToken in_) with
  | Some assertion =>
      reject_if negb (ida_Audiences assertion =? [ii_ClientID in_]) with "invalid_grant", "The subject_token is invalid." in
      eff_ret assertion
  | None => rejecting "invalid_grant" "The subject_token is invalid."
  end.

Definition issue_policy (audience : string) : flow CrossAppAccessIssuePolicy :=
  let! policies := lift (lift_port (ii_ListIssuePolicies d tenantID)) in
  match fold_left (match_policy audience) policies (false, None) with
  | (false, _) => rejecting "invalid_target" "The audience is not a trusted authorization server."
  | (true, None) => rejecting "access_denied" "The client is not authorized for the audience."
  | (true, Some policy) => eff_ret policy
  end.

(** The resources and the scopes. *)
Definition issue_target (policy : CrossAppAccessIssuePolicy) : flow (list string * list string) :=
  let resources := nonEmpty (ii_Resources in_) in
  reject_if resources =? [] with "invalid_target", "resource is required" in
  reject_if negb (forallb (contains (ip_Resources policy)) resources) with
    "invalid_target", "The resource is not governed by the audience." in
  let scopes := CrossAppAccessGrantedScopes (Fields (ii_Scope in_)) (ip_Scopes policy) in
  reject_if scopes =? [] with "access_denied", "No requested scope is permitted." in
  eff_ret (resources, scopes).

(** The user, its revocation and its access to the application. *)
Definition issue_user (policy : CrossAppAccessIssuePolicy) (assertion : IDTokenAssertion) : flow U :=
  let denied {A} : flow A := rejecting "access_denied" "The access is not permitted." in
  let! user := lift (lift_port (ii_FindBySub d (ida_Subject assertion))) in
  match user with
  | None => denied
  | Some user =>
      if (user_TenantID user <>? tenantID) || negb (user_IsActive user) then denied
      else
        let! superseded := match ii_UserEpochs d with
                           | None => eff_ret false
                           | Some findByUser =>
                               let! epoch := lift (lift_port (findByUser tenantID (ida_Subject assertion))) in
                               eff_ret (match epoch with Some e => Supersedes e (ida_IssuedAt assertion) | None => false end)
                           end in
        reject_if superseded with "invalid_grant", "The subject_token is invalid." in
        match ii_ApplicationAccess d with
        | None => denied
        | Some access =>
            let! permitted := lift (lift_port (access (ip_RelyingPartyClientID policy) assertion)) in
            if negb permitted then denied else eff_ret user
        end
  end.

Definition issue_precheck (sub : string) (scopes resources : list string) (details : list AuthorizationDetail) : flow unit :=
  match ii_Guard d with
  | None => eff_ret tt
  | Some guard =>
      jag_rejecting tenantID (ii_ClientID in_) idJagStageIssue now
        (fun s => let '(r, s') := ig_Precheck guard sub scopes resources details s in (r, s', []))
  end.

Definition issue_confirm (jti : string) : flow unit :=
  match ii_Guard d with
  | None => eff_ret tt
  | Some guard => fun s => (Ok tt, ig_Confirm guard jti s, [])
  end.

Definition issue_input (policy : CrossAppAccessIssuePolicy) (assertion : IDTokenAssertion) (user : U) (resources scopes : list string)
    (details : list AuthorizationDetail) : IDJAGInput :=
  {| ji_Subject := ida_Subject assertion; ji_Audience := ip_Audience policy; ji_ClientID := ip_TargetClientID policy;
     ji_Resources := resources; ji_Scopes := scopes; ji_AuthorizationDetails := details; ji_AuthTime := ida_AuthTime assertion;
     ji_AMR := ida_AMR assertion; ji_ACR := ida_ACR assertion;
     ji_Email := match user_email user with
                 | Some email => if ip_ReleaseEmail policy && user_EmailVerified user then email else ""
                 | None => ""
                 end;
     ji_SenderConstraint := idJagBinding (ii_ProofJKT in_) (ii_ProofX5TS256 in_) |}.

Definition IssueIDJAG : flow ExchangeTokenResult :=
  let! audience := issue_request in
  let! assertion := issue_assertion in
  let! policy := issue_policy audience in
  let! (resources, scopes) := issue_target policy in
  let! user := issue_user policy assertion in
  do! jag_rejecting tenantID (ii_ClientID in_) idJagStageIssue now
        (checkIDJAGAgent (ii_Agents d) tenantID (ii_ClientID in_) (ida_Subject assertion) [] now) in
  let details := filterAuthorizationDetailsByType (ii_AuthorizationDetails in_) (ip_AuthorizationDetailTypes policy) in
  do! issue_precheck (ida_Subject assertion) scopes resources details in
  let! signed := lift (lift_port (ii_SignIDJAG d (issue_input policy assertion user resources scopes details))) in
  do! issue_confirm signed.2 in
  do! emit (IdJagIssued now tenantID (ii_ClientID in_) (ida_Subject assertion) (ip_Audience policy) resources scopes signed.2) in
  eff_ret {| xr_AccessToken := signed.1; xr_IssuedTokenType := TokenTypeIDJAGURN; xr_TokenType := idJagTokenTypeNA;
             xr_ExpiresIn := ii_TTLSeconds d; xr_Scope := Join scopes " "; xr_AuthorizationDetails := details |}.
End issue.

(** *** Redemption *)

Record RedeemIDJAGDeps := {
  rd_ClientRepo : string -> string -> result E (option C);
  rd_FindBySub : string -> result E (option U);
  rd_FindRedeemPolicyFor : string -> string -> string -> result E (option CrossAppAccessRedeemPolicy);
  (** [ResolveIssuer] and [ResolveSubject] of the trust in issuers. *)
  rd_Trust : option ((string -> string -> result E (option IDJAGTrustedIssuer)) * (string -> string -> string -> result E string));
  rd_ResourceServers : string -> string -> result E (option McpResourceServer);
  rd_AuthzDetailTypeRepo : option (string -> string -> result E (option AuthorizationDetailType));
  rd_SignAccessToken : AccessTokenInput C -> result (failure E) (string * string);
  rd_AccessTokenTTLSeconds : Z;
  rd_Agents : idJagAgentDeps;
  rd_lib : Library;
  rd_unmarshal_details : string -> option (list AuthorizationDetail);
}.

Section redeem.
Context (d : RedeemIDJAGDeps) (tenantID : string) (in_ : RedeemIDJAGInput) (now : Time).

Notation rejecting := (jag_reject tenantID (ri_ClientID in_) idJagStageRedeem now).
Definition invalid_assertion {A} : flow A := rejecting "invalid_grant" "The assertion is invalid.".
Definition denied_access {A} : flow A := rejecting "access_denied" "The access is not permitted.".

Definition redeem_client : flow C :=
  let! client := lift (lift_port (rd_ClientRepo d tenantID (ri_ClientID in_))) in
  match client with
  | None => rejecting "invalid_client" "A confidential client is required."
  | Some client =>
      if client_ClientType client <>? ClientConfidential then rejecting "invalid_client" "A confidential client is required."
      else if ri_Assertion in_ =? "" then rejecting "invalid_request" "assertion is required"
      else eff_ret client
  end.

(** The issuer as the tenant trusts it, the resolver of its subjects, and the
    claims. *)
Definition redeem_claims : flow (string * IDJAGTrustedIssuer * (string -> string -> string -> result E string) * IDJAGClaims) :=
  match rd_Trust d with
  | None => invalid_assertion
  | Some (resolveIssuer, resolveSubject) =>
      match UnverifiedIDJAGIssuer (rd_lib d) (ri_Assertion in_) with
      | None => invalid_assertion
      | Some issuer =>
          if issuer =? ri_SelfIssuer in_ then invalid_assertion
          else
            let! trusted := lift (lift_port (resolveIssuer tenantID issuer)) in
            match trusted with
            | None => invalid_assertion
            | Some trusted =>
                match VerifyIDJAG (E := E) (rd_lib d) (ri_Assertion in_) (ti_JWKS trusted) issuer (ri_SelfIssuer in_) now with
                | Err _ => invalid_assertion
                | Ok claims =>
                    if (jc_ClientID claims <>? ri_ClientID in_) || jc_HasActor claims then invalid_assertion
                    else eff_ret (issuer, trusted, resolveSubject, claims)
                end
            end
      end
  end.

Definition redeem_binding (claims : IDJAGClaims) : flow (option SenderConstraint) :=
  match decideIDJAGBinding (jc_Confirmation claims) (ri_GrantType in_) (ri_ProofJKT in_) (ri_ProofX5TS256 in_) with
  | inl sc => eff_ret sc
  | inr code => rejecting code "The proof of possession does not satisfy the assertion."
  end.

(** The loop over the resources: their scopes. *)
Fixpoint resource_scopes (resources : list string) : flow (list string) :=
  match resources with
  | [] => eff_ret []
  | resource :: resources =>
      let! server := lift (lift_port (rd_ResourceServers d tenantID resource)) in
      match server with
      | None => invalid_assertion
      | Some server =>
          if negb (mcp_IsActive server) then invalid_assertion
          else let! rest := resource_scopes resources in eff_ret (mcp_Scopes server ++ rest)%list
      end
  end.

(** The user and the scopes. *)
Definition redeem_grant (client : C) (trusted : IDJAGTrustedIssuer) (resolveSubject : string -> string -> string -> result E string)
    (claims : IDJAGClaims) (resourceScopes : list string) : flow (string * list string) :=
  let! policy := lift (lift_port (rd_FindRedeemPolicyFor d tenantID (ti_ProviderID trusted) (ri_ClientID in_))) in
  match policy with
  | None => denied_access
  | Some policy =>
      let! userID := lift (lift_port (resolveSubject tenantID (ti_ProviderID trusted) (jc_Subject claims))) in
      if userID =? "" then denied_access
      else
        let! user := lift (lift_port (rd_FindBySub d userID)) in
        match user with
        | None => denied_access
        | Some user =>
            if (user_TenantID user <>? tenantID) || negb (user_IsActive user) then denied_access
            else
              let scopes := idJagAccessTokenScopes (Fields (jc_Scope claims)) (dp_Scopes policy) (Fields (client_Scope client)) resourceScopes in
              if scopes =? [] then denied_access else eff_ret (userID, scopes)
        end
  end.

(** The loop of [registeredAuthorizationDetails]. *)
Fixpoint registered_details (details : list AuthorizationDetail) : result (failure E) (list AuthorizationDetail) :=
  match details with
  | [] => Ok []
  | detail :: details =>
      match ValidateAuthorizationDetails (rd_AuthzDetailTypeRepo d) tenantID [detail] with
      | Ok _ => let? rest := registered_details details in Ok (detail :: rest)
      | Err (OAuthError _ _) => registered_details details
      | Err e => Err e
      end
  end.

Definition registeredAuthorizationDetails (raw : string) : result (failure E) (list AuthorizationDetail) :=
  if (raw =? "") || negb (is_some (rd_AuthzDetailTypeRepo d)) then Ok []
  else match rd_unmarshal_details d raw with
  | None => Ok []
  | Some details => registered_details details
  end.

Definition replay_window (claims : IDJAGClaims) : Z :=
  wrap64 (trunc_int (SecondsOf (Sub (Add (jc_ExpiresAt claims) IDJAGClockSkew) now)) + 1).

Definition redeem_input (client : C) (userID : string) (scopes : list string) (sc : option SenderConstraint) (claims : IDJAGClaims)
    (details : list AuthorizationDetail) : AccessTokenInput C :=
  {| at_Client := client; at_Sub := userID; at_Scopes := scopes; at_SenderConstraint := sc;
     at_AuthTime := if jc_AuthTime claims =? 0%Z then Unix now else jc_AuthTime claims; at_AMR := jc_AMR claims; at_ACR := jc_ACR claims;
     at_AgentID := ""; at_AgentChain := []; at_ApprovalRequestID := ""; at_Audiences := jc_Resources claims;
     at_AuthorizationDetails := details; at_ExpiresAt := 0%Z; at_Managed := false; at_Act := None |}.

(** The record of the assertion, and the token. *)
Definition redeem_issue (client : C) (issuer : string) (claims : IDJAGClaims) (userID : string) (scopes : list string)
    (sc : option SenderConstraint) (details : list AuthorizationDetail) : flow RedeemIDJAGResult :=
  let! fresh := call PortError (record_if_new (idJagReplayKey issuer (jc_JTI claims)) (replay_window claims) now) in
  if negb fresh then invalid_assertion
  else
    let! signed := lift (rd_SignAccessToken d (redeem_input client userID scopes sc claims details)) in
    do! emit (IdJagTokenIssued now tenantID signed.2 (client_ClientID client) userID scopes (senderConstraintTag sc)) in
    do! eff_for_each (fun resource => emit (ResourceScopedTokenIssued now tenantID (client_ClientID client) resource scopes)) (jc_Resources claims) in
    do! emit (IdJagRedeemed now tenantID issuer (client_ClientID client) userID (jc_JTI claims)) in
    eff_ret {| rj_AccessToken := signed.1; rj_TokenType := PresentationTokenType sc; rj_ExpiresIn := rd_AccessTokenTTLSeconds d;
               rj_Scope := Join scopes " "; rj_AuthorizationDetails := details |}.

Definition RedeemIDJAG : flow RedeemIDJAGResult :=
  let! client := redeem_client in
  let! (issuer, trusted, resolveSubject, claims) := redeem_claims in
  let! sc := redeem_binding claims in
  if jc_Resources claims =? [] then invalid_assertion
  else
    let! resourceScopes := resource_scopes (jc_Resources claims) in
    let! (userID, scopes) := redeem_grant client trusted resolveSubject claims resourceScopes in
    do! jag_rejecting tenantID (ri_ClientID in_) idJagStageRedeem now
          (checkIDJAGAgent (rd_Agents d) tenantID (ri_ClientID in_) userID scopes now) in
    let! details := lift (registeredAuthorizationDetails (jc_AuthorizationDetails claims)) in
    redeem_issue client issuer claims userID scopes sc details.
End redeem.
End usecases.

Arguments idJagAgentDeps : clear implicits.
Arguments IssuanceGuard : clear implicits.
Arguments IssueIDJAGDeps : clear implicits.
Arguments RedeemIDJAGDeps : clear implicits.

(** ** The memory stores together *)

Record IdJagStore := { is_consents : ConsentRepository; is_replays : replayStore }.

Definition on_consents {A E} (op : ConsentRepository -> A * ConsentRepository) (s : IdJagStore) : result E A * IdJagStore :=
  let '(a, r) := op (is_consents s) in (Ok a, {| is_consents := r; is_replays := is_replays s |}).

#[export] Instance idjag_consents {E} : ConsentPort IdJagStore E := {
  find_consent t sub c := on_consents (fun r => (consent_Find r t sub c, r));
  find_all_consents t := on_consents (fun r => (consent_FindAll r t, r));
  save_consent t c := on_consents (fun r => (tt, consent_Save t c r));
  revoke_consent t sub c now := on_consents (fun r => (tt, consent_Revoke t sub c now r));
  find_delegation t sub a := on_consents (fun r => (FindAgentDelegation r t sub a, r));
  list_delegations t sub := on_consents (fun r => (ListAgentDelegations r t sub, r));
  save_delegation t c := on_consents (fun r => (tt, SaveAgentDelegation t c r));
  revoke_delegation t sub a now := on_consents (fun r => (tt, mem_RevokeAgentDelegation t sub a now r));
  touch_delegation t sub a at_ := on_consents (fun r => (tt, TouchAgentDelegation t sub a at_ r));
}.

#[export] Instance idjag_replays {E} : ReplayPort IdJagStore E := {
  record_if_new jti w now s :=
    let '(fresh, p) := recordIfNew now jti w now (is_replays s) in
    (Ok fresh, {| is_consents := is_consents s; is_replays := p |});
}.

(** ** Steps *)

Section proofs.
Context {E C U : Type} `{ClientView C} `{!ClientPolicyView C} `{UserView U} `{!EmailView U}.
Notation flow := (eff IdJagStore idjag_event (failure E)).
Implicit Types (s : IdJagStore).

Lemma jag_reject_Ok {A} t c st now code text s (a : A) s' w :
  jag_reject (S := IdJagStore) (E := E) t c st now code text s = (Ok a, s', w) -> False.
Proof. done. Qed.

Lemma jag_rejecting_Ok {A} t c st now (m : flow A) s a s' w : jag_rejecting t c st now m s = (Ok a, s', w) -> m s = (Ok a, s', w).
Proof. unfold jag_rejecting. destruct (m s) as [[[x|[]] s1] w1]; try done. Qed.

Lemma with_agent_events_run {A} (m : eff IdJagStore exchange_event (failure E) A) s :
  (with_agent_events m s).1 = (m s).1.
Proof. unfold with_agent_events. by destruct (m s) as [[r s'] w]. Qed.

(** The delegation of a user to an agent, as the store has it. *)
Definition delegates (tenantID sub agentID : string) (scopes : list string) (now : Time) s : Prop :=
  exists g, FindAgentDelegation (is_consents s) tenantID sub agentID = Some g /\ PermitsDelegation g scopes now = true.

(** The agent of a client may act for a user. *)
Definition agent_may_act (a : idJagAgentDeps E) (tenantID clientID sub : string) (scopes : list string) (now : Time) s : Prop :=
  forall repo, ja_AgentRepo a = Some repo ->
  exists acting, agent_FindByClientID repo tenantID clientID = Ok acting /\
    forall x, acting = Some x -> agent_Kind x = AgentKindAutonomous /\ (agent_ID x <> "" -> delegates tenantID sub (agent_ID x) scopes now s).

Lemma acting_agent (a : idJagAgentDeps E) tenantID clientID now s repo acting s' w : ja_AgentRepo a = Some repo ->
  rejectSupervisedAgents (S := IdJagStore) (C := C) (agents_only a) tenantID (client_only clientID) now (zero_introspection false) None s =
    (Ok acting, s', w) ->
  s' = s /\ exists agent, agent_FindByClientID repo tenantID clientID = Ok agent /\
    acting = match agent with Some x => agent_ID x | None => "" end /\
    forall x, agent = Some x -> agent_Kind x = AgentKindAutonomous.
Proof.
  intros Ha. unfold rejectSupervisedAgents. simpl. rewrite Ha. rewrite eff_bind_ret.
  unfold check_agent_id. simpl. rewrite eff_bind_ret.
  destruct (agent_FindByClientID repo tenantID clientID) as [agent|e]; [|done]. unfold check_agent_kind.
  destruct agent as [x|]; simpl.
  - unfold RejectAgentIssuanceWithoutApproval, AgentRequiresHumanApproval. destruct (agent_Kind x =? AgentKindAutonomous) eqn:Hk; simpl; [|done].
    unfold eff_bind, eff_ret. intros [= <- <- <-]. split; [done|]. exists (Some x). go_bool. split_and!; try done. by intros ? [= <-].
  - unfold eff_bind, eff_ret. intros [= <- <- <-]. split; [done|]. by exists None.
Qed.

Lemma checkIDJAGAgent_Ok (a : idJagAgentDeps E) tenantID clientID sub scopes now s s' w :
  checkIDJAGAgent (C := C) a tenantID clientID sub scopes now s = (Ok tt, s', w) ->
  is_replays s' = is_replays s /\ agent_may_act a tenantID clientID sub scopes now s.
Proof.
  unfold checkIDJAGAgent, agent_may_act. destruct (ja_AgentRepo a) as [repo|] eqn:Ha; [|by intros [= <- _]].
  intros (acting & s1 & w1 & w2 & H1 & H2 & _)%eff_bind_Ok. apply (f_equal fst) in H1. rewrite with_agent_events_run in H1. simpl in H1.
  destruct (rejectSupervisedAgents _ _ _ _ _ _ s) as [[r1 t1] v1] eqn:Hr. simpl in H1. injection H1 as -> ->.
  apply (acting_agent _ _ _ _ _ repo) in Hr as (-> & agent & Hf & -> & Hk); [|done].
  destruct agent as [x|].
  2:{ simpl in H2. unfold eff_ret in H2. injection H2 as <- _. split; [done|]. intros ? [= <-]. by exists None. }
  destruct (agent_ID x =? "") eqn:Hid; go_bool.
  { unfold eff_ret in H2. injection H2 as <- _. split; [done|]. intros ? [= <-]. exists (Some x). split; [done|]. intros ? [= <-]. split; [by apply Hk|done]. }
  apply eff_bind_Ok in H2 as (granted & s2 & w3 & w4 & H2 & H3 & _). apply (f_equal fst) in H2. rewrite with_agent_events_run in H2. simpl in H2.
  unfold delegationsPermit in H2. simpl in H2. destruct (ja_has_Consents a); simpl in H2.
  - unfold eff_bind at 1, call in H2. simpl in H2. destruct (FindAgentDelegation (is_consents s) tenantID sub (agent_ID x)) as [g|] eqn:Hg.
    + destruct (PermitsDelegation g scopes now) eqn:Hp; unfold eff_ret in H2; simpl in H2; destruct s as [cs rs]; simpl in *.
      * injection H2 as <- <-. simpl in H3. unfold call, touch_delegation in H3. simpl in H3. injection H3 as <- _. split; [done|].
        intros ? [= <-]. exists (Some x). split; [done|]. intros ? [= <-]. split; [by apply Hk|]. intros _. by exists g.
      * injection H2 as <- <-. done.
    + unfold eff_ret in H2; simpl in H2. injection H2 as <- <-. done.
  - unfold eff_ret in H2. simpl in H2. injection H2 as <- <-. done.
Qed.

Section redemption.
Context (d : RedeemIDJAGDeps E C U) (tenantID : string) (in_ : RedeemIDJAGInput) (now : Time).

Lemma redeem_client_Ok s client s' w : redeem_client (S := IdJagStore) d tenantID in_ now s = (Ok client, s', w) ->
  s' = s /\ rd_ClientRepo d tenantID (ri_ClientID in_) = Ok (Some client) /\ client_ClientType client = ClientConfidential.
Proof.
  unfold redeem_client. intros (o & s1 & w1 & w2 & H1 & H2 & _)%eff_bind_Ok. unfold lift in H1.
  destruct (rd_ClientRepo d tenantID (ri_ClientID in_)) as [o'|e]; [|done]. simpl in H1. injection H1 as -> <- _.
  destruct o as [c|]; [|done]. destruct (client_ClientType c <>? ClientConfidential) eqn:Hc; [done|].
  destruct (ri_Assertion in_ =? ""); [done|]. unfold eff_ret in H2. injection H2 as -> <- _. by go_bool.
Qed.

(** The issuer is trusted by the tenant and is not this server; the assertion is
    its, for this server and this client. *)
Definition vouched (issuer : string) (trusted : IDJAGTrustedIssuer) (resolveSubject : string -> string -> string -> result E string)
    (claims : IDJAGClaims) : Prop :=
  exists resolveIssuer, rd_Trust d = Some (resolveIssuer, resolveSubject) /\
    UnverifiedIDJAGIssuer (rd_lib d) (ri_Assertion in_) = Some issuer /\ issuer <> ri_SelfIssuer in_ /\
    resolveIssuer tenantID issuer = Ok (Some trusted) /\
    VerifyIDJAG (E := E) (rd_lib d) (ri_Assertion in_) (ti_JWKS trusted) issuer (ri_SelfIssuer in_) now = Ok claims /\
    jc_ClientID claims = ri_ClientID in_ /\ jc_HasActor claims = false.

Lemma redeem_claims_Ok s issuer trusted resolveSubject claims s' w :
  redeem_claims (S := IdJagStore) d tenantID in_ now s = (Ok (issuer, trusted, resolveSubject, claims), s', w) ->
  s' = s /\ vouched issuer trusted resolveSubject claims.
Proof.
  unfold redeem_claims, vouched. destruct (rd_Trust d) as [[resolveIssuer resolveSubject']|]; [|done].
  destruct (UnverifiedIDJAGIssuer _ _) as [iss|]; [|done]. destruct (iss =? ri_SelfIssuer in_) eqn:Hself; [done|].
  intros (t & s1 & w1 & w2 & H1 & H2 & _)%eff_bind_Ok. unfold lift in H1.
  destruct (resolveIssuer tenantID iss) as [t'|e] eqn:Ht; [|done]. simpl in H1. injection H1 as -> <- _.
  destruct t as [t|]; [|done]. destruct (VerifyIDJAG _ _ _ _ _ _) as [c|e] eqn:Hv; [|done].
  destruct (_ || _)%bool eqn:Hb; [done|]. unfold eff_ret in H2. injection H2 as -> -> -> -> <- _. go_bool.
  split; [done|]. exists resolveIssuer. naive_solver.
Qed.

(** Every resource is a registered, active server of the tenant, and the scopes
    are theirs. *)
Lemma resource_scopes_Ok resources : forall s scopes s' w,
  resource_scopes (S := IdJagStore) d tenantID in_ now resources s = (Ok scopes, s', w) ->
  s' = s /\ exists servers, Forall2 (fun r m => rd_ResourceServers d tenantID r = Ok (Some m) /\ mcp_IsActive m = true) resources servers /\
    scopes = concat (map mcp_Scopes servers).
Proof.
  induction resources as [|r resources IH]; intros s scopes s' w; simpl.
  - unfold eff_ret. intros [= <- <- _]. split; [done|]. by exists [].
  - intros (o & s1 & w1 & w2 & H1 & H2 & _)%eff_bind_Ok. unfold lift in H1.
    destruct (rd_ResourceServers d tenantID r) as [o'|e] eqn:Hr; [|done]. simpl in H1. injection H1 as -> <- _.
    destruct o as [m|]; [|done]. destruct (mcp_IsActive m) eqn:Ha; [|done]. simpl in H2.
    apply eff_bind_Ok in H2 as (rest & s2 & w3 & w4 & H2 & H3 & _). apply IH in H2 as (-> & servers & Hs & ->).
    unfold eff_ret in H3. injection H3 as <- <- _. split; [done|]. exists (m :: servers). split; [|done]. by constructor.
Qed.

Lemma idJagAccessTokenScopes_spec requested policy client resources x :
  x ∈ idJagAccessTokenScopes requested policy client resources ->
  x ∈ requested /\ x ∈ policy /\ x ∈ client /\ x ∈ resources.
Proof.
  unfold idJagAccessTokenScopes. set (f := fun out scope => _).
  enough (Hf : forall l out, x ∈ fold_left f l out -> x ∈ out \/ (x ∈ l /\ x ∈ policy /\ x ∈ client /\ x ∈ resources)).
  { intros Hx. destruct (Hf _ _ Hx) as [Hx'|?]; [by apply not_elem_of_nil in Hx'|done]. }
  induction l as [|y l IH]; intros out Hx; [by left|]. simpl in Hx. apply IH in Hx as [Hx|Hx]; [|set_solver].
  unfold f in Hx. destruct (_ && _)%bool eqn:Hb; [|by left]. go_bool. apply elem_of_app in Hx as [Hx|Hx]; [by left|].
  apply list_elem_of_singleton in Hx as ->. right. set_solver.
Qed.

Lemma redeem_grant_Ok s client trusted resolveSubject claims resourceScopes userID scopes s' w :
  redeem_grant (S := IdJagStore) d tenantID in_ now client trusted resolveSubject claims resourceScopes s = (Ok (userID, scopes), s', w) ->
  s' = s /\ exists policy user,
    rd_FindRedeemPolicyFor d tenantID (ti_ProviderID trusted) (ri_ClientID in_) = Ok (Some policy) /\
    resolveSubject tenantID (ti_ProviderID trusted) (jc_Subject claims) = Ok userID /\ userID <> "" /\
    rd_FindBySub d userID = Ok (Some user) /\ user_TenantID user = tenantID /\ user_IsActive user = true /\
    scopes = idJagAccessTokenScopes (Fields (jc_Scope claims)) (dp_Scopes policy) (Fields (client_Scope client)) resourceScopes /\ scopes <> [].
Proof.
  unfold redeem_grant. intros (p & s1 & w1 & w2 & H1 & H2 & _)%eff_bind_Ok. unfold lift in H1.
  destruct (rd_FindRedeemPolicyFor _ _ _ _) as [p'|e]; [|done]. simpl in H1. injection H1 as -> <- _. destruct p as [policy|]; [|done].
  apply eff_bind_Ok in H2 as (u & s2 & w3 & w4 & H1 & H2 & _). unfold lift in H1.
  destruct (resolveSubject _ _ _) as [u'|e]; [|done]. simpl in H1. injection H1 as -> <- _. destruct (u =? "") eqn:Hu; [done|].
  apply eff_bind_Ok in H2 as (o & s3 & w5 & w6 & H1 & H2 & _). unfold lift in H1.
  destruct (rd_FindBySub d u) as [o'|e] eqn:Hf; [|done]. simpl in H1. injection H1 as -> <- _. destruct o as [user|]; [|done].
  destruct (_ || _)%bool eqn:Hb in H2; [done|]. destruct (_ =? []) eqn:Hs in H2; [done|]. unfold eff_ret in H2. injection H2 as -> <- <- _.
  go_bool. split; [done|]. exists policy, user. destruct Hb as [Hb1 Hb2]. split_and!; done.
Qed.

Lemma redeem_issue_Ok s client issuer claims userID scopes sc details r s' w :
  redeem_issue (S := IdJagStore) d tenantID in_ now client issuer claims userID scopes sc details s = (Ok r, s', w) ->
  let record := recordIfNew now (idJagReplayKey issuer (jc_JTI claims)) (replay_window now claims) now (is_replays s) in
  record.1 = true /\ is_replays s' = record.2 /\ is_consents s' = is_consents s /\
  exists token jti, rd_SignAccessToken d (redeem_input now client userID scopes sc claims details) = Ok (token, jti) /\
    r = {| rj_AccessToken := token; rj_TokenType := PresentationTokenType sc; rj_ExpiresIn := rd_AccessTokenTTLSeconds d;
           rj_Scope := Join scopes " "; rj_AuthorizationDetails := details |}.
Proof.
  unfold redeem_issue. intros (fresh & s1 & w1 & w2 & H1 & H2 & _)%eff_bind_Ok. unfold call in H1. simpl in H1.
  destruct (recordIfNew _ _ _ _ _) as [f p] eqn:Hr. simpl in H1. injection H1 as -> <- _. destruct fresh; [|done]. simpl in H2.
  apply eff_bind_Ok in H2 as ([token jti] & s2 & w3 & w4 & H1 & H2 & _). unfold lift in H1. injection H1 as Hsign <- _.
  apply eff_bind_Ok in H2 as ([] & s3 & w5 & w6 & H1 & H2 & _). unfold emit in H1. injection H1 as <- _.
  apply eff_bind_Ok in H2 as ([] & s4 & w7 & w8 & H1 & H2 & _). rewrite eff_for_each_emit in H1. injection H1 as <- _.
  apply eff_bind_Ok in H2 as ([] & s5 & w9 & w10 & H1 & H2 & _). unfold emit in H1. injection H1 as <- _.
  unfold eff_ret in H2. injection H2 as <- <- _. simpl. split_and!; try done. exists token, jti. done.
Qed.

(** A confirmation of the assertion is the binding of the token, and the request
    proved its key. *)
Definition binding_kept (cnf : option IDJAGConfirmation) (sc : option SenderConstraint) : Prop :=
  forall c, cnf = Some c -> cnf_Other c = false /\ exists k, sc = Some k /\
    ((sender_Type k = SenderConstraintDPoP /\ sender_JKT k = cnf_JKT c /\ ri_ProofJKT in_ = cnf_JKT c /\ cnf_JKT c <> "" /\
      cnf_X5TS256 c = "" /\ ri_GrantType in_ = GrantJWTDPoP) \/
     (sender_Type k = SenderConstraintMTLS /\ sender_X5TS256 k = cnf_X5TS256 c /\ ri_ProofX5TS256 in_ = cnf_X5TS256 c /\
      cnf_X5TS256 c <> "" /\ cnf_JKT c = "" /\ ri_GrantType in_ = GrantJWTBearer)).

Lemma decideIDJAGBinding_keeps cnf sc :
  decideIDJAGBinding cnf (ri_GrantType in_) (ri_ProofJKT in_) (ri_ProofX5TS256 in_) = inl sc -> binding_kept cnf sc.
Proof.
  unfold decideIDJAGBinding, binding_kept. destruct cnf as [c|]; [|done]. intros Hd ? [= <-].
  destruct (_ || _)%bool eqn:H1 in Hd; [done|]. destruct (cnf_JKT c <>? "") eqn:H2.
  - destruct (ri_GrantType in_ <>? GrantJWTDPoP) eqn:H3; [done|]. destruct (ri_ProofJKT in_ =? "") eqn:H4; [done|].
    destruct (ri_ProofJKT in_ <>? cnf_JKT c) eqn:H5; [done|]. injection Hd as <-. go_bool. destruct H1 as [H1 H1']. split; [done|].
    eexists. split; [reflexivity|]. left. simpl. destruct H1'; naive_solver.
  - destruct (cnf_X5TS256 c <>? "") eqn:H3; [|done]. destruct (_ || _)%bool eqn:H4 in Hd; [done|]. injection Hd as <-. go_bool.
    destruct H1 as [H1 _]. split; [done|]. eexists. split; [reflexivity|]. right. simpl. naive_solver.
Qed.

(** Everything that a redemption has checked. *)
Definition redemption (r : RedeemIDJAGResult) s s' : Prop :=
  exists client issuer trusted resolveSubject claims sc servers policy user userID scopes details token jti,
    rd_ClientRepo d tenantID (ri_ClientID in_) = Ok (Some client) /\ client_ClientType client = ClientConfidential /\
    vouched issuer trusted resolveSubject claims /\
    decideIDJAGBinding (jc_Confirmation claims) (ri_GrantType in_) (ri_ProofJKT in_) (ri_ProofX5TS256 in_) = inl sc /\
    binding_kept (jc_Confirmation claims) sc /\ jc_Resources claims <> [] /\
    Forall2 (fun r m => rd_ResourceServers d tenantID r = Ok (Some m) /\ mcp_IsActive m = true) (jc_Resources claims) servers /\
    rd_FindRedeemPolicyFor d tenantID (ti_ProviderID trusted) (ri_ClientID in_) = Ok (Some policy) /\
    resolveSubject tenantID (ti_ProviderID trusted) (jc_Subject claims) = Ok userID /\
    rd_FindBySub d userID = Ok (Some user) /\ user_TenantID user = tenantID /\ user_IsActive user = true /\
    (scopes <> [] /\ forall x, x ∈ scopes -> x ∈ Fields (jc_Scope claims) /\ x ∈ dp_Scopes policy /\ x ∈ Fields (client_Scope client) /\
       exists m, m ∈ servers /\ x ∈ mcp_Scopes m) /\
    agent_may_act (rd_Agents d) tenantID (ri_ClientID in_) userID scopes now s /\
    registeredAuthorizationDetails d tenantID (jc_AuthorizationDetails claims) = Ok details /\
    rd_SignAccessToken d (redeem_input now client userID scopes sc claims details) = Ok (token, jti) /\
    r = {| rj_AccessToken := token; rj_TokenType := PresentationTokenType sc; rj_ExpiresIn := rd_AccessTokenTTLSeconds d;
           rj_Scope := Join scopes " "; rj_AuthorizationDetails := details |} /\
    let record := recordIfNew now (idJagReplayKey issuer (jc_JTI claims)) (replay_window now claims) now (is_replays s) in
    record.1 = true /\ is_replays s' = record.2.

Lemma RedeemIDJAG_Ok s r s' w : RedeemIDJAG d tenantID in_ now s = (Ok r, s', w) -> redemption r s s'.
Proof.
  unfold RedeemIDJAG. intros (client & s1 & ? & ? & H1 & Hrun & _)%eff_bind_Ok. apply redeem_client_Ok in H1 as (-> & Hc & Hct).
  apply eff_bind_Ok in Hrun as ([[[issuer trusted] resolveSubject] claims] & s2 & ? & ? & H1 & Hrun & _). apply redeem_claims_Ok in H1 as (-> & Hv).
  apply eff_bind_Ok in Hrun as (sc & s3 & ? & ? & H1 & Hrun & _). unfold redeem_binding in H1.
  destruct (decideIDJAGBinding _ _ _ _) as [sc'|] eqn:Hb; [|done]. unfold eff_ret in H1. injection H1 as -> <- _.
  destruct (jc_Resources claims =? []) eqn:Hr; [done|]. go_bool.
  apply eff_bind_Ok in Hrun as (rscopes & s4 & ? & ? & H1 & Hrun & _). apply resource_scopes_Ok in H1 as (-> & servers & Hservers & ->).
  apply eff_bind_Ok in Hrun as ([userID scopes] & s5 & ? & ? & H1 & Hrun & _).
  apply redeem_grant_Ok in H1 as (-> & policy & user & Hp & Hsub & _ & Hu & Hut & Hua & Hsc & Hne).
  apply eff_bind_Ok in Hrun as ([] & s6 & ? & ? & H1 & Hrun & _). apply jag_rejecting_Ok, checkIDJAGAgent_Ok in H1 as (Hrep & Hagent).
  apply eff_bind_Ok in Hrun as (details & s7 & ? & ? & H1 & Hrun & _). unfold lift in H1. injection H1 as Hdet <- _.
  apply redeem_issue_Ok in Hrun as (Hfresh & Hafter & _ & token & jti & Hsign & Hres). rewrite Hrep in Hfresh, Hafter.
  exists client, issuer, trusted, resolveSubject, claims, sc, servers, policy, user, userID, scopes, details, token, jti.
  split_and!; try done; [by apply decideIDJAGBinding_keeps|]. intros sco Hx. rewrite Hsc in Hx. apply idJagAccessTokenScopes_spec in Hx as (X1 & X2 & X3 & X4).
  split_and!; try done. apply list_elem_of_In, in_concat in X4 as (l & Hl & Hx). apply in_map_iff in Hl as (m & <- & Hm).
  exists m. split; by apply list_elem_of_In.
Qed.
End redemption.

(** The claims of an assertion, whatever its header and signature. *)
Lemma VerifyIDJAG_payload lib token jwks issuer audience now claims :
  VerifyIDJAG (E := E) lib token jwks issuer audience now = Ok claims ->
  exists payload, payload_of lib token = Some payload /\ string_member payload "iss" = issuer /\
    jc_JTI claims = string_member payload "jti" /\
    exists expF, number_member payload "exp" = Some expF /\ jc_ExpiresAt claims = unix_time (int64_of lib expF) /\
      (now < jc_ExpiresAt claims + 60 * Second)%Z /\ (jc_ExpiresAt claims <= now + 660 * Second)%Z.
Proof.
  unfold VerifyIDJAG, payload_of. destruct (Split token ".") as [|h [|p [|sig [|? ?]]]]; try done.
  destruct (DecodeString h ≫= Unmarshal lib) as [header|]; [|done]. intros Hv. apply res_bind_Ok in Hv as (key & _ & Hv).
  destruct (negb _) in Hv; [done|]. destruct (DecodeString p) as [raw|]; [|done]. simpl in Hv |- *.
  destruct (Unmarshal lib raw) as [payload|]; [|done]. exists (default [] payload). split; [done|]. generalize dependent (default [] payload). clear. intros o Hv.
  unfold id_jag_claims in Hv. destruct (_ || _)%bool eqn:Hiss in Hv; [done|]. destruct (negb _) in Hv; [done|].
  destruct (_ || _)%bool in Hv; [done|]. apply res_bind_Ok in Hv as ([iat exp] & Ht & Hv). simpl in Hv.
  unfold id_jag_times in Ht. destruct (number_member o "iat") as [iatF|]; [|done]. destruct (number_member o "exp") as [expF|]; [|done].
  destruct (After (unix_time _) (Add now IDJAGClockSkew)) eqn:H1 in Ht; [done|]. destruct (negb (After _ now)) eqn:H2 in Ht; [done|].
  destruct (_ || _)%bool eqn:H3 in Ht; [done|]. injection Ht as Hi He. go_bool.
  destruct (idJagResources _) as [resources|]; [|done].
  assert (Hc : jc_JTI claims = string_member o "jti" /\ jc_ExpiresAt claims = exp).
  { destruct (member o "cnf") as [[]|]; try done; by injection Hv as <-. }
  destruct Hc as [-> ->]. split_and!; [by destruct Hiss|done|]. exists expF. split_and!; [done|done|..];
    unfold After, Add, IDJAGClockSkew, IDJAGMaxLifetime, Sub, Second in *; destruct H3 as [H3 H4]; go_bool; unfold min_int64, max_int64 in *; lia.
Qed.

Lemma issuer_payload lib token payload : payload_of lib token = Some payload ->
  UnverifiedIDJAGIssuer lib token = match as_string (member payload "iss") with Some iss => if iss =? "" then None else Some iss | None => None end.
Proof.
  unfold payload_of, UnverifiedIDJAGIssuer. destruct (Split token ".") as [|h [|p [|sig [|? ?]]]]; try done.
  destruct (DecodeString p) as [raw|]; [|done]. simpl. destruct (Unmarshal lib raw) as [o|]; [|done]. simpl. by intros [= <-].
Qed.

(** The record of an assertion outlives it. *)
Lemma replay_window_covers claims now :
  (now < jc_ExpiresAt claims + 60 * Second)%Z -> (jc_ExpiresAt claims <= now + 660 * Second)%Z ->
  (jc_ExpiresAt claims + 60 * Second < now + wrap64 (replay_window now claims * Second))%Z.
Proof.
  intros H1 H2. unfold replay_window. set (left_ := Sub (Add (jc_ExpiresAt claims) IDJAGClockSkew) now).
  assert (Hleft : (left_ = jc_ExpiresAt claims + 60 * Second - now)%Z) by (unfold left_, Sub, Add, IDJAGClockSkew, Second, min_int64, max_int64 in *; lia).
  clearbody left_. destruct (trunc_SecondsOf left_) as [Hlow Hhigh]; [unfold Second in *; lia|].
  assert (Hfloor : (left_ < (left_ / Second + 1) * Second)%Z).
  { unfold Second. pose proof (Z.mul_succ_div_gt left_ 1000000000 ltac:(lia)). lia. }
  assert (Hdiv : (0 <= left_ / Second)%Z) by (apply Z.div_pos; unfold Second in *; lia).
  rewrite (wrap64_id (trunc_int (SecondsOf left_) + 1)) by (unfold min_int64, max_int64; lia).
  rewrite wrap64_id by (unfold min_int64, max_int64, Second; lia). unfold Second in *. nia.
Qed.

(** C26. An assertion is redeemed once.  After a redemption no assertion with the
    same claims is redeemed, however its header, its encoding or its signature is
    rewritten, at whichever tenant and with whatever settings, and whatever
    identifiers the store recorded between, as long as the clock does not run
    backwards. *)
Theorem redeem_once (d1 d2 : RedeemIDJAGDeps E C U) t1 t2 in1 in2 now1 now2 s1 s1' s2 r1 w1 (l : list replay_attempt) :
  RedeemIDJAG d1 t1 in1 now1 s1 = (Ok r1, s1', w1) ->
  is_replays s2 = attempts_run l (is_replays s1') ->
  rd_lib d2 = rd_lib d1 -> payload_of (rd_lib d1) (ri_Assertion in2) = payload_of (rd_lib d1) (ri_Assertion in1) ->
  StronglySorted Z.le (now1 :: map ra_now l ++ [now2]) ->
  forall r2 s2' w2, RedeemIDJAG d2 t2 in2 now2 s2 <> (Ok r2, s2', w2).
Proof.
  intros Hrun1 Hl Hlib Hpay Hsort r2 s2' w2 Hrun2.
  apply RedeemIDJAG_Ok in Hrun1 as (c1 & iss1 & tr1 & rs1 & cl1 & sc1 & sv1 & po1 & us1 & id1 & sco1 & de1 & to1 & j1 &
    _ & _ & (ri1 & _ & Hi1 & _ & _ & Hv1 & _) & _ & _ & _ & _ & _ & _ & _ & _ & _ & _ & _ & _ & _ & _ & Hf1 & Ha1).
  apply RedeemIDJAG_Ok in Hrun2 as (c2 & iss2 & tr2 & rs2 & cl2 & sc2 & sv2 & po2 & us2 & id2 & sco2 & de2 & to2 & j2 &
    _ & _ & (ri2 & _ & Hi2 & _ & _ & Hv2 & _) & _ & _ & _ & _ & _ & _ & _ & _ & _ & _ & _ & _ & _ & _ & Hf2 & _).
  rewrite Hlib in Hi2, Hv2.
  apply VerifyIDJAG_payload in Hv1 as (p1 & Hp1 & _ & Hj1 & e1 & He1 & Hx1 & Hlo1 & Hhi1).
  apply VerifyIDJAG_payload in Hv2 as (p2 & Hp2 & _ & Hj2 & e2 & He2 & Hx2 & Hlo2 & Hhi2).
  assert (p2 = p1) as -> by congruence. rewrite (issuer_payload _ _ _ Hp1) in Hi1. rewrite (issuer_payload _ _ _ Hp2) in Hi2.
  assert (iss2 = iss1) as -> by congruence. assert (Hjti : jc_JTI cl2 = jc_JTI cl1) by congruence.
  assert (Hexp : jc_ExpiresAt cl2 = jc_ExpiresAt cl1) by congruence.
  set (key := idJagReplayKey iss1 (jc_JTI cl1)) in *. rewrite Hjti in Hf2. fold key in Hf2.
  set (a1 := {| ra_now := now1; ra_window := replay_window now1 cl1; ra_jti := Some key |}).
  set (a2 := {| ra_now := now2; ra_window := replay_window now2 cl2; ra_jti := Some key |}).
  assert (Hgap : (now1 + wrap64 (replay_window now1 cl1 * Second) <= now2)%Z).
  { apply (attempts_gap a1 l a2 key (is_replays s1)); [done|done| |exact Hf1|].
    - simpl. rewrite map_app. exact Hsort.
    - unfold a1, attempt_run at 2. simpl. rewrite <- Ha1, <- Hl. exact Hf2. }
  pose proof (replay_window_covers _ _ Hlo1 Hhi1). rewrite Hexp in Hlo2. lia.
Qed.

(** A redemption succeeds only for a confidential client with an assertion
    that an issuer other than this server, trusted by the tenant, made for this
    server and this client; when its confirmation, if it has one, is proved and is
    the binding of the token; when its resources are active servers of the tenant;
    and for the active user that the issuer's subject is linked to.  The scopes are
    in the assertion, in the policy of the tenant, in the client and in a
    resource, the agent of the client has the user's delegation for them, and the
    token is signed for exactly that. *)
Theorem redeemed_assertion (d : RedeemIDJAGDeps E C U) tenantID in_ now s r s' w :
  RedeemIDJAG d tenantID in_ now s = (Ok r, s', w) -> redemption d tenantID in_ now r s s'.
Proof. apply RedeemIDJAG_Ok. Qed.

(** ** Issue *)

Section issue_proofs.
Context (d : IssueIDJAGDeps IdJagStore E C U) (tenantID : string) (in_ : IssueIDJAGInput) (now : Time).

Lemma issue_request_Ok s audience s' w : issue_request d tenantID in_ now s = (Ok audience, s', w) ->
  s' = s /\ (exists client, ii_ClientRepo d tenantID (ii_ClientID in_) = Ok (Some client) /\ client_ClientType client = ClientConfidential) /\
  ii_HasActorToken in_ = false /\ ii_SubjectTokenType in_ = tokenTypeIDTokenURN /\ nonEmpty (ii_Audiences in_) = [audience].
Proof.
  unfold issue_request. intros (client & s1 & w1 & w2 & H1 & H2 & _)%eff_bind_Ok. unfold lift in H1.
  destruct (ii_ClientRepo d tenantID (ii_ClientID in_)) as [c|e]; [|done]. simpl in H1. injection H1 as -> <- _.
  destruct client as [client|]; [|done]. destruct (client_ClientType client <>? ClientConfidential) eqn:Hc; [done|].
  destruct (ii_HasActorToken in_); [done|]. destruct (ii_SubjectTokenType in_ <>? tokenTypeIDTokenURN) eqn:Ht; [done|]. go_bool.
  destruct (nonEmpty (ii_Audiences in_)) as [|a [|? ?]]; [done| |done]. unfold eff_ret in H2. injection H2 as -> <- _.
  split_and!; try done. by exists client.
Qed.

Lemma match_policies audience policies q : forall acc, (fold_left (match_policy in_ audience) policies acc).2 = Some q ->
  acc.2 = Some q \/ (q ∈ policies /\ ip_Audience q = audience /\ ip_ClientID q = ii_ClientID in_).
Proof.
  induction policies as [|p policies IH]; intros acc Hq; [by left|]. simpl in Hq.
  apply IH in Hq as [Hq|(? & ? & ?)]; [|right; split; [by right|done]].
  unfold match_policy in Hq. destruct (ip_Audience p =? audience) eqn:Ha; simpl in Hq; [|by left].
  destruct (ip_ClientID p =? ii_ClientID in_) eqn:Hc; simpl in Hq; [|by left]. go_bool.
  right. injection Hq as <-. split; [by left|done].
Qed.

Lemma issue_policy_Ok audience s policy s' w : issue_policy d tenantID in_ now audience s = (Ok policy, s', w) ->
  s' = s /\ exists policies, ii_ListIssuePolicies d tenantID = Ok policies /\ policy ∈ policies /\
    ip_Audience policy = audience /\ ip_ClientID policy = ii_ClientID in_.
Proof.
  unfold issue_policy. intros (policies & s1 & w1 & w2 & H1 & H2 & _)%eff_bind_Ok. unfold lift in H1.
  destruct (ii_ListIssuePolicies d tenantID) as [l|e]; [|done]. simpl in H1. injection H1 as -> <- _.
  destruct (fold_left _ policies _) as [[] [p|]] eqn:Hf; try done. unfold eff_ret in H2. injection H2 as -> <- _.
  split; [done|]. exists policies. split; [done|].
  destruct (match_policies audience policies policy (false, None)) as [?|?]; [by rewrite Hf|done|done].
Qed.

Lemma add_granted_spec allowed l : forall granted x, x ∈ fold_left (add_granted allowed) l granted -> x ∈ granted \/ (x ∈ allowed /\ x ∈ l).
Proof.
  induction l as [|y l IH]; intros granted x Hx; [by left|]. simpl in Hx. apply IH in Hx as [Hx|[? ?]]; [|right; split; [done|by right]].
  unfold add_granted in Hx. destruct (_ && _)%bool eqn:Hb; [|by left]. go_bool. apply elem_of_app in Hx as [Hx|Hx]; [by left|].
  apply list_elem_of_singleton in Hx as ->. right. split; [by destruct Hb|by left].
Qed.

Lemma granted_scopes_spec requested allowed x : x ∈ CrossAppAccessGrantedScopes requested allowed ->
  x ∈ allowed /\ (requested <> [] -> x ∈ requested).
Proof.
  unfold CrossAppAccessGrantedScopes. destruct (requested =? []) eqn:Hr; go_bool; [by subst|].
  intros Hx. apply add_granted_spec in Hx as [Hx|[? ?]]; [by apply not_elem_of_nil in Hx|done].
Qed.

Lemma issue_target_Ok policy s resources scopes s' w : issue_target (S := IdJagStore) (E := E) tenantID in_ now policy s = (Ok (resources, scopes), s', w) ->
  s' = s /\ resources = nonEmpty (ii_Resources in_) /\ resources <> [] /\ Forall (fun r => r ∈ ip_Resources policy) resources /\
  scopes <> [] /\ forall x, x ∈ scopes -> x ∈ ip_Scopes policy /\ (Fields (ii_Scope in_) <> [] -> x ∈ Fields (ii_Scope in_)).
Proof.
  unfold issue_target. destruct (_ =? []) eqn:H1; [done|]. destruct (negb _) eqn:H2; [done|]. destruct (_ =? []) eqn:H3 in |- *; [done|].
  unfold eff_ret. intros [= <- <- <- _]. go_bool. split_and!; try done.
  - rewrite Forall_forall. intros r Hr. rewrite forallb_forall in H2. apply list_elem_of_In in Hr. specialize (H2 r Hr). by go_bool.
  - intros x Hx. by apply granted_scopes_spec.
Qed.

Lemma issue_user_Ok policy assertion s user s' w : issue_user d tenantID in_ now policy assertion s = (Ok user, s', w) ->
  s' = s /\ ii_FindBySub d (ida_Subject assertion) = Ok (Some user) /\ user_TenantID user = tenantID /\ user_IsActive user = true /\
  (forall findByUser, ii_UserEpochs d = Some findByUser -> exists epoch, findByUser tenantID (ida_Subject assertion) = Ok epoch /\
     forall e, epoch = Some e -> (e <= ida_IssuedAt assertion)%Z) /\
  exists access, ii_ApplicationAccess d = Some access /\ access (ip_RelyingPartyClientID policy) assertion = Ok true.
Proof.
  unfold issue_user. intros (o & s1 & w1 & w2 & H1 & H2 & _)%eff_bind_Ok. unfold lift in H1.
  destruct (ii_FindBySub d (ida_Subject assertion)) as [o'|e]; [|done]. simpl in H1. injection H1 as -> <- _.
  destruct o as [u|]; [|done]. destruct (_ || _)%bool eqn:Hb in H2; [done|]. go_bool.
  apply eff_bind_Ok in H2 as (sup & s2 & w3 & w4 & H1 & H2 & _). destruct sup; [done|].
  assert (Hep : s2 = s /\ forall findByUser, ii_UserEpochs d = Some findByUser -> exists epoch, findByUser tenantID (ida_Subject assertion) = Ok epoch /\
     forall e, epoch = Some e -> (e <= ida_IssuedAt assertion)%Z).
  { destruct (ii_UserEpochs d) as [find|]; [|unfold eff_ret in H1; by injection H1 as <- _].
    apply eff_bind_Ok in H1 as (epoch & s3 & w5 & w6 & H1 & H3 & _). unfold lift in H1.
    destruct (find tenantID (ida_Subject assertion)) as [ep|e] eqn:Hf; [|done]. simpl in H1. injection H1 as -> <- _.
    unfold eff_ret in H3. injection H3 as H3 <- _. split; [done|]. intros ? [= <-]. exists epoch. split; [done|].
    intros e ->. unfold Supersedes, Before in H3. by apply Z.ltb_ge in H3. }
  destruct Hep as [-> Hep]. destruct (ii_ApplicationAccess d) as [access|]; [|done].
  apply eff_bind_Ok in H2 as (ok & s4 & w7 & w8 & H1' & H2 & _). unfold lift in H1'.
  destruct (access (ip_RelyingPartyClientID policy) assertion) as [b|e] eqn:Hacc; [|done]. simpl in H1'. injection H1' as -> <- _.
  destruct ok; [|done]. unfold eff_ret in H2. simpl in H2. injection H2 as -> <- _. destruct Hb as [Hb1 Hb2].
  split_and!; try done. by exists access.
Qed.

(** An assertion is issued only to a confidential client, for an ID token of
    this server that was made for this client alone and that no revocation of its
    user supersedes; under a policy of the tenant for this client and the one
    audience that is named, which has every resource and every scope; for an
    active user of the tenant who may reach the application and who delegates to
    the agent of the client.  It is signed with exactly these resources and
    scopes, with details of the types of the policy, and with the address of the
    user only when the policy releases it and it is verified. *)
Theorem issued_assertion s r s' w : IssueIDJAG d tenantID in_ now s = (Ok r, s', w) ->
  exists client assertion policy policies user resources scopes details token jti s1,
    ii_ClientRepo d tenantID (ii_ClientID in_) = Ok (Some client) /\ client_ClientType client = ClientConfidential /\
    ii_VerifyIDToken d (ii_SubjectToken in_) = Some assertion /\ ida_Audiences assertion = [ii_ClientID in_] /\
    ii_ListIssuePolicies d tenantID = Ok policies /\ policy ∈ policies /\ nonEmpty (ii_Audiences in_) = [ip_Audience policy] /\
    ip_ClientID policy = ii_ClientID in_ /\
    (resources <> [] /\ Forall (fun r => r ∈ ip_Resources policy) resources) /\
    (scopes <> [] /\ forall x, x ∈ scopes -> x ∈ ip_Scopes policy /\ (Fields (ii_Scope in_) <> [] -> x ∈ Fields (ii_Scope in_))) /\
    ii_FindBySub d (ida_Subject assertion) = Ok (Some user) /\ user_TenantID user = tenantID /\ user_IsActive user = true /\
    (forall findByUser, ii_UserEpochs d = Some findByUser -> exists epoch, findByUser tenantID (ida_Subject assertion) = Ok epoch /\
       forall e, epoch = Some e -> (e <= ida_IssuedAt assertion)%Z) /\
    (exists access, ii_ApplicationAccess d = Some access /\ access (ip_RelyingPartyClientID policy) assertion = Ok true) /\
    agent_may_act (ii_Agents d) tenantID (ii_ClientID in_) (ida_Subject assertion) [] now s /\
    (forall x, x ∈ details -> x ∈ ii_AuthorizationDetails in_ /\ detail_Type x ∈ ip_AuthorizationDetailTypes policy) /\
    (forall guard, ii_Guard d = Some guard -> (ig_Precheck guard (ida_Subject assertion) scopes resources details s1).1 = Ok tt) /\
    (let input := issue_input in_ policy assertion user resources scopes details in
     ii_SignIDJAG d input = Ok (token, jti) /\
     (ji_Email input <> "" -> user_email user = Some (ji_Email input) /\ ip_ReleaseEmail policy = true /\ user_EmailVerified user = true)) /\
    r = {| xr_AccessToken := token; xr_IssuedTokenType := TokenTypeIDJAGURN; xr_TokenType := idJagTokenTypeNA;
           xr_ExpiresIn := ii_TTLSeconds d; xr_Scope := Join scopes " "; xr_AuthorizationDetails := details |}.
Proof.
  unfold IssueIDJAG. intros (audience & t1 & ? & ? & H1 & Hrun & _)%eff_bind_Ok. apply issue_request_Ok in H1 as (-> & (client & Hc & Hct) & _ & _ & Haud).
  apply eff_bind_Ok in Hrun as (assertion & t2 & ? & ? & H1 & Hrun & _). unfold issue_assertion in H1.
  destruct (ii_VerifyIDToken d (ii_SubjectToken in_)) as [a|] eqn:Hv; [|done]. destruct (negb _) eqn:Hone in H1; [done|].
  unfold eff_ret in H1. injection H1 as -> <- _. go_bool.
  apply eff_bind_Ok in Hrun as (policy & t3 & ? & ? & H1 & Hrun & _). apply issue_policy_Ok in H1 as (-> & policies & Hpol & Hin & <- & Hpc).
  apply eff_bind_Ok in Hrun as ([resources scopes] & t4 & ? & ? & H1 & Hrun & _).
  apply issue_target_Ok in H1 as (-> & _ & Hres & Hresin & Hsc & Hscin).
  apply eff_bind_Ok in Hrun as (user & t5 & ? & ? & H1 & Hrun & _). apply issue_user_Ok in H1 as (-> & Hu & Hut & Hua & Hep & Happ).
  apply eff_bind_Ok in Hrun as ([] & t6 & ? & ? & H1 & Hrun & _). apply jag_rejecting_Ok, checkIDJAGAgent_Ok in H1 as (_ & Hagent).
  apply eff_bind_Ok in Hrun as ([] & t7 & ? & ? & H1 & Hrun & _).
  apply eff_bind_Ok in Hrun as ([token jti] & t8 & ? & ? & H2 & Hrun & _). unfold lift in H2.
  set (details := filterAuthorizationDetailsByType _ _) in *.
  destruct (ii_SignIDJAG d (issue_input in_ policy assertion user resources scopes details)) as [[tk jt]|e] eqn:Hsign; [|done].
  simpl in H2. injection H2 as -> -> _ _.
  apply eff_bind_Ok in Hrun as ([] & t9 & ? & ? & _ & Hrun & _). apply eff_bind_Ok in Hrun as ([] & t10 & ? & ? & _ & Hrun & _).
  unfold eff_ret in Hrun. injection Hrun as <- _ _.
  exists client, assertion, policy, policies, user, resources, scopes, details, token, jti, t6. split_and!; try done.
  - intros y Hy. unfold details, filterAuthorizationDetailsByType in Hy. apply list_elem_of_In, filter_In in Hy as [Hy1 Hy2]. go_bool.
    split; [by apply list_elem_of_In|done].
  - intros guard Hg. unfold issue_precheck in H1. rewrite Hg in H1. apply jag_rejecting_Ok in H1.
    destruct (ig_Precheck guard _ _ _ _ t6) as [r0 t0]. simpl. congruence.
  - unfold issue_input in *. simpl in *. destruct (user_email user) as [email|]; [|done].
    destruct (ip_ReleaseEmail policy); [|done]. by destruct (user_EmailVerified user).
Qed.
End issue_proofs.
End proofs.

(** ** Examples: an assistant that reads alice's mail *)

#[local] Instance jag_client : ClientView string := {| client_ClientID c := c; client_GrantTypes _ := [GrantJWTBearer] |}.
#[local] Instance jag_client_policy : ClientPolicyView string :=
  {| client_ClientType _ := ClientConfidential; client_Scope _ := "mail calendar" |}.
#[local] Instance jag_user : UserView string := {| user_ID u := u; user_TenantID _ := "acme"; user_IsActive _ := true |}.
#[local] Instance jag_email : EmailView string := {| user_email u := Some (u ++ "@acme"); user_EmailVerified _ := true |}.

Definition jag_payload : json_object :=
  [("iss", JString "https://idp"); ("aud", JString "https://self"); ("sub", JString "ext-alice"); ("client_id", JString "assistant");
   ("jti", JString "j1"); ("iat", JNumber (float64_of_int 1000)); ("exp", JNumber (float64_of_int 1300));
   ("resource", JString "https://mail"); ("scope", JString "mail files")].

Definition jag_library : Library :=
  {| Unmarshal raw := if raw =? "header" then Some (Some [("typ", JString IDJAGType); ("alg", JString "PS256"); ("kid", JString "k")])
                      else if raw =? "payload" then Some (Some jag_payload) else None;
     Marshal _ := "{}"; convert _ := min_int64; ParseUncompressedPublicKey _ := true;
     VerifyPSS _ _ _ _ := true; VerifyPKCS1v15 _ _ _ _ := true; ecdsa_Verify _ _ _ _ := true |}.

Definition jag_bot : Agent :=
  {| agent_ID := "bot"; agent_TenantID := "acme"; agent_Name := "Bot"; agent_Description := None;
     agent_Kind := AgentKindAutonomous; agent_OwnerUserID := "bob"; agent_Status := AgentStatusActive; agent_CreatedAt := 1%Z;
     agent_UpdatedAt := 1%Z; agent_DisabledAt := None; agent_KilledAt := None |}.

Definition jag_agents : idJagAgentDeps string :=
  {| ja_AgentRepo := Some {| agent_FindByID _ _ := Ok (Some jag_bot); agent_FindByClientID _ _ := Ok (Some jag_bot) |};
     ja_has_Consents := true |}.

Definition jag_deps : RedeemIDJAGDeps string string string :=
  {| rd_ClientRepo _ c := Ok (Some c); rd_FindBySub u := Ok (Some u);
     rd_FindRedeemPolicyFor t p c := Ok (Some {| dp_ID := "p1"; dp_TenantID := t; dp_ProviderID := p; dp_ClientID := c;
                                                 dp_Scopes := ["mail"]; dp_CreatedAt := 1%Z |});
     rd_Trust := Some (fun _ iss => Ok (Some {| ti_ProviderID := "idp";
                         ti_JWKS := [[("kty", JString "RSA"); ("kid", JString "k"); ("n", JString "AQAB"); ("e", JString "AQAB")]] |}),
                       fun _ _ sub => Ok "alice");
     rd_ResourceServers _ r := Ok (Some {| mcp_Resource := r; mcp_Scopes := ["mail"; "files"]; mcp_State := McpResourceServerActive |});
     rd_AuthzDetailTypeRepo := None; rd_SignAccessToken inp := Ok ("for." ++ at_Sub inp, "jti-2"); rd_AccessTokenTTLSeconds := 300;
     rd_Agents := jag_agents; rd_lib := jag_library; rd_unmarshal_details _ := None |}.

Definition jag_request (signature : string) : RedeemIDJAGInput :=
  {| ri_ClientID := "assistant"; ri_GrantType := GrantJWTBearer;
     ri_Assertion := EncodeToString "header" ++ "." ++ EncodeToString "payload" ++ "." ++ EncodeToString signature;
     ri_SelfIssuer := "https://self"; ri_ProofJKT := ""; ri_ProofX5TS256 := "" |}.

Definition jag_store : IdJagStore :=
  {| is_consents := SaveAgentDelegation "acme"
       {| con_UserID := "alice"; con_ClientID := ""; con_AgentID := "bot"; con_Scopes := ["mail"]; con_State := ConsentGranted;
          con_GrantedAt := 1%Z; con_ExpiresAt := from_unix 5000; con_RevokedAt := None; con_LastUsedAt := None;
          con_AuthorizationDetails := [] |} NewConsentRepository;
     is_replays := ∅ |}.

Definition jag_first := RedeemIDJAG jag_deps "acme" (jag_request "s1") (from_unix 1010) jag_store.
Definition jag_second := RedeemIDJAG jag_deps "acme" (jag_request "s2") (from_unix 1359) jag_first.1.2.

Definition jag_result : RedeemIDJAGResult :=
  {| rj_AccessToken := "for.alice"; rj_TokenType := "Bearer"; rj_ExpiresIn := 300; rj_Scope := "mail"; rj_AuthorizationDetails := [] |}.

Lemma jag_first_run : jag_first = (Ok jag_result, jag_first.1.2, jag_first.2).
Proof. vm_compute. reflexivity. Qed.

(** In the last second of its validity, under another signature. *)
Lemma redeem_once_witness : jag_first.1.1 = Ok jag_result /\ forall r s w, jag_second <> (Ok r, s, w).
Proof.
  split; [by rewrite jag_first_run|].
  apply (redeem_once jag_deps jag_deps "acme" "acme" (jag_request "s1") (jag_request "s2") (from_unix 1010) (from_unix 1359)
    jag_store jag_first.1.2 jag_first.1.2 jag_result jag_first.2 []).
  - exact jag_first_run.
  - reflexivity.
  - reflexivity.
  - vm_compute. reflexivity.
  - repeat constructor; vm_compute; discriminate.
Defined.

Lemma redeemed_assertion_witness : jag_first.1.1 = Ok jag_result /\
  redemption jag_deps "acme" (jag_request "s1") (from_unix 1010) jag_result jag_store jag_first.1.2.
Proof. split; [by rewrite jag_first_run|]. exact (redeemed_assertion _ _ _ _ _ _ _ _ jag_first_run). Defined.

(** The other hop: the assistant asks for an assertion for the mail server. *)
Definition jag_policy : CrossAppAccessIssuePolicy :=
  {| ip_TenantID := "acme"; ip_ID := "p1"; ip_ClientID := "assistant"; ip_Audience := "https://other"; ip_RelyingPartyClientID := "assistant";
     ip_TargetClientID := "assistant-there"; ip_Resources := ["https://mail"]; ip_Scopes := ["mail"]; ip_AuthorizationDetailTypes := [];
     ip_ReleaseEmail := true; ip_CreatedAt := 1%Z |}.

Definition jag_issue_deps : IssueIDJAGDeps IdJagStore string string string :=
  {| ii_Guard := Some {| ig_Precheck _ _ _ _ s := (Ok tt, s); ig_Confirm _ s := s |}; ii_ClientRepo _ c := Ok (Some c);
     ii_FindBySub u := Ok (Some u); ii_ListIssuePolicies _ := Ok [jag_policy];
     ii_VerifyIDToken token := if token =? "id" then
       Some {| ida_Subject := "alice"; ida_Audiences := ["assistant"]; ida_IssuedAt := from_unix 900; ida_AuthTime := 890;
               ida_AMR := ["pwd"]; ida_ACR := "" |} else None;
     ii_SignIDJAG inp := Ok ("jag." ++ ji_Subject inp ++ "." ++ ji_Email inp, "jti-1"); ii_TTLSeconds := 300;
     ii_ApplicationAccess := Some (fun _ _ => Ok true); ii_UserEpochs := Some (fun _ _ => Ok (Some (from_unix 900)));
     ii_Agents := jag_agents |}.

Definition jag_exchange : IssueIDJAGInput :=
  {| ii_ClientID := "assistant"; ii_SubjectToken := "id"; ii_SubjectTokenType := tokenTypeIDTokenURN; ii_HasActorToken := false;
     ii_Audiences := ["https://other"]; ii_Resources := ["https://mail"]; ii_Scope := "mail files"; ii_AuthorizationDetails := [];
     ii_ProofJKT := ""; ii_ProofX5TS256 := "" |}.

Definition jag_issued := IssueIDJAG jag_issue_deps "acme" jag_exchange (from_unix 1000) jag_store.
Definition jag_issued_result : ExchangeTokenResult :=
  {| xr_AccessToken := "jag.alice.alice@acme"; xr_IssuedTokenType := TokenTypeIDJAGURN; xr_TokenType := idJagTokenTypeNA;
     xr_ExpiresIn := 300; xr_Scope := "mail"; xr_AuthorizationDetails := [] |}.

Lemma jag_issued_run : jag_issued = (Ok jag_issued_result, jag_issued.1.2, jag_issued.2).
Proof. vm_compute. reflexivity. Qed.

Lemma issued_assertion_witness : jag_issued.1.1 = Ok jag_issued_result /\
  exists assertion : IDTokenAssertion, ii_VerifyIDToken jag_issue_deps (ii_SubjectToken jag_exchange) = Some assertion /\
    ida_Audiences assertion = [ii_ClientID jag_exchange].
Proof.
  split; [by rewrite jag_issued_run|].
  destruct (issued_assertion jag_issue_deps "acme" jag_exchange (from_unix 1000) jag_store jag_issued_result _ _ jag_issued_run)
    as (client & assertion & policy & policies & user & resources & scopes & details & token & jti & s1 & H1 & H2 & H3 & H4 & _).
  exists assertion. split; [exact H3|exact H4].
Defined.
