(* ===== verification/RedirectUri.v ===== *)
(** * OAuth2: redirect addresses and prompts

    [backend/oauth2/internal/authorization/domain/redirect_uri.go] and
    [authorization_request.go].  A redirect address is one that the client
    registered, byte by byte, save that the port of a literal loopback address is
    left to the client.  [url.Parse] is a parameter: the code asks it to agree with
    the split of the text.

    The theorems: exactly which addresses are accepted, for whatever parser; that
    an address on another host is none of them; and when a session has to be
    renewed, with the combination of prompts that the code overlooks. *)

From Stdlib Require Import Ascii String ZArith Lia.
From stdpp Require Import base strings list.
From S2P Require Import Prelude GoStrings Urls Quote.

Local Open Scope string_scope.
Local Open Scope go_scope.

(** ** Redirect addresses *)

Definition RedirectURIAllowed (registered : list string) (presented : string) : bool :=
  if presented =? "" then false else contains registered presented.

Definition loopbackHosts : list string := ["127.0.0.1"; "[::1]"].

(** The text before the first of some characters, as [strings.IndexAny] finds it,
    and the rest from there on. *)
Fixpoint span_any (s chars : string) : string * string :=
  match s with
  | EmptyString => ("", "")
  | String c s' => if byte_in c chars then ("", s) else let '(a, b) := span_any s' chars in (String c a, b)
  end.

(** [strings.Trim] for a set of ASCII characters. *)
Fixpoint TrimLeft (s chars : string) : string :=
  match s with
  | String c s' => if byte_in c chars then TrimLeft s' chars else s
  | EmptyString => ""
  end.
Fixpoint TrimRight (s chars : string) : string :=
  match s with
  | EmptyString => ""
  | String c s' => match TrimRight s' chars with
                   | EmptyString => if byte_in c chars then "" else String c ""
                   | r => String c r
                   end
  end.
Definition Trim (s chars : string) : string := TrimRight (TrimLeft s chars) chars.

Definition validPort (port : string) : bool :=
  match port with
  | EmptyString => false
  | String c _ =>
      if (5 <? len port) || bool_decide (c = "0"%char) then false
      else if negb (all_digits port) then false
      else match ParseInt port with Some n => (1 <=? n) && (n <=? 65535) | None => false end
  end.

Section redirects.
Context (url_Parse : string -> option URL).

Definition parsedAsLoopback (raw host port : string) : bool :=
  match url_Parse raw with
  | None => false
  | Some parsed =>
      (url_Scheme parsed =? "http") && negb (is_some (url_User parsed)) && (url_Opaque parsed =? "") && (url_Fragment parsed =? "") &&
      (Hostname parsed =? Trim host "[]") && (Port parsed =? port)
  end.

(** What comes before a slash or a question mark, or the end. *)
Definition rest_ok (rest : string) : bool :=
  match rest with
  | EmptyString => true
  | String c _ => bool_decide (c = "/"%char) || bool_decide (c = "?"%char)
  end.

(** The body of the loop after the prefix was found; [None] is the port of none. *)
Definition split_after (raw host after : string) : option (string * string) :=
  match CutPrefix after ":" with
  | Some afterColon =>
      let '(port, rest) := span_any afterColon "/?" in
      if negb (validPort port) then None
      else if negb (rest_ok rest) then None
      else if negb (parsedAsLoopback raw host port) then None
      else Some (host, rest)
  | None =>
      if negb (rest_ok after) then None
      else if negb (parsedAsLoopback raw host "") then None
      else Some (host, after)
  end.

Fixpoint split_hosts (raw text : string) (hosts : list string) : option (string * string) :=
  match hosts with
  | [] => None
  | candidate :: hosts =>
      match CutPrefix text candidate with
      | None => split_hosts raw text hosts
      | Some after => split_after raw candidate after
      end
  end.

Definition splitLoopbackRedirectURI (raw : string) : option (string * string) :=
  match CutPrefix raw "http://" with
  | None => None
  | Some text => if Contains raw "#" then None else split_hosts raw text loopbackHosts
  end.

Definition AuthorizationRedirectURIAllowed (registered : list string) (presented : string) : bool :=
  if RedirectURIAllowed registered presented then true
  else match splitLoopbackRedirectURI presented with
  | None => false
  | Some split => existsb (fun candidate => splitLoopbackRedirectURI candidate =? Some split) registered
  end.

Definition ResolveRedirectURI (registered : list string) (presented : string) (openID : bool) : result string string :=
  if presented <>? "" then
    if negb (AuthorizationRedirectURIAllowed registered presented) then Err "redirect_uri is not a registered URI" else Ok presented
  else if openID then Err "redirect_uri is required for OpenID Connect requests"
  else match registered with
  | [only] => Ok only
  | _ => Err "redirect_uri is required unless exactly one redirect URI is registered"
  end.
End redirects.

(** ** Prompts *)

Record PromptTokens := { pt_Login : bool; pt_Consent : bool; pt_None : bool }.
Definition no_prompt : PromptTokens := {| pt_Login := false; pt_Consent := false; pt_None := false |}.

Section prompts.
Context (printable : N -> bool).

(** The switch in the loop. *)
Definition add_prompt (tokens : PromptTokens) (token : string) : result string PromptTokens :=
  if token =? "login" then
    if pt_Login tokens then Err "prompt token login is duplicated"
    else Ok {| pt_Login := true; pt_Consent := pt_Consent tokens; pt_None := pt_None tokens |}
  else if token =? "consent" then
    if pt_Consent tokens then Err "prompt token consent is duplicated"
    else Ok {| pt_Login := pt_Login tokens; pt_Consent := true; pt_None := pt_None tokens |}
  else if token =? "none" then
    if pt_None tokens then Err "prompt token none is duplicated"
    else Ok {| pt_Login := pt_Login tokens; pt_Consent := pt_Consent tokens; pt_None := true |}
  else Err ("unsupported prompt token " ++ Quote printable token).

Fixpoint add_prompts (tokens : PromptTokens) (l : list string) : result string PromptTokens :=
  match l with
  | [] => Ok tokens
  | token :: l => let? tokens := add_prompt tokens token in add_prompts tokens l
  end.

Definition ParsePromptTokens (value : string) : result string PromptTokens :=
  let? tokens := add_prompts no_prompt (Fields value) in
  reject pt_None tokens && (pt_Login tokens || pt_Consent tokens) with "prompt none must not be combined with other tokens" in
  Ok tokens.
End prompts.

Definition Canonical (p : PromptTokens) : string :=
  Join ((if pt_Login p then ["login"] else []) ++ (if pt_Consent p then ["consent"] else []) ++ (if pt_None p then ["none"] else []))%list " ".

(** No hint of the user is read. *)
Record AuthorizationRequestPolicy := { pol_Prompt : option string; pol_MaxAge : option Z }.

Definition max_age_exceeded (p : AuthorizationRequestPolicy) (authTime now : Time) : bool :=
  match pol_MaxAge p with
  | None => false
  | Some maxAge => (wrap64 (maxAge * Second) <=? Sub now authTime)
  end.

Definition NeedsReauthentication (p : AuthorizationRequestPolicy) (authTime now : Time) (promptLoginSatisfied : bool) : bool :=
  match pol_Prompt p with
  | Some prompt =>
      if prompt =? "login" then negb promptLoginSatisfied
      else if prompt =? "none" then false
      else max_age_exceeded p authTime now
  | None => max_age_exceeded p authTime now
  end.

(** The scopes of the first text that are in the second. *)
Definition ScopeIntersection (requested allowed : string) : list string :=
  List.filter (fun s => contains (Fields allowed) s) (Fields requested).

(** ** The split of an address *)

Lemma CutPrefix_spec p : forall s r, CutPrefix s p = Some r <-> s = p ++ r.
Proof.
  induction p as [|c p IH]; intros s r; [change ("" ++ r) with r; destruct s; simpl; naive_solver|]. destruct s as [|d s]; simpl; [done|].
  rewrite string_app_cons. destruct (bool_decide_reflect (d = c)) as [->|Hne]; [rewrite IH; split; [by intros ->|by intros [= ->]]|].
  split; [done|]. by intros [= -> _].
Qed.

Lemma span_any_spec chars s a b : span_any s chars = (a, b) ->
  s = a ++ b /\ (forall c, byte_in c a = true -> byte_in c chars = false) /\
  match b with EmptyString => True | String c _ => byte_in c chars = true end.
Proof.
  revert a b. induction s as [|c s IH]; intros a b; simpl; [by intros [= <- <-]|].
  destruct (byte_in c chars) eqn:Hc; [by intros [= <- <-]|]. destruct (span_any s chars) as [a' b'].
  destruct (IH a' b' eq_refl) as (-> & Ha & Hb). intros [= <- <-]. split_and!; [done| |done].
  intros d. simpl. destruct (bool_decide_reflect (c = d)) as [<-|]; [done|]. apply Ha.
Qed.

Lemma span_any_app chars a b : (forall c, byte_in c a = true -> byte_in c chars = false) ->
  match b with EmptyString => True | String c _ => byte_in c chars = true end -> span_any (a ++ b) chars = (a, b).
Proof.
  intros Ha Hb. induction a as [|c a IH].
  - destruct b as [|c b]; simpl; [done|]. by rewrite Hb.
  - rewrite string_app_cons. simpl. rewrite Ha by (simpl; by rewrite bool_decide_true). rewrite IH; [done|].
    intros d Hd. apply Ha. simpl. by rewrite Hd, orb_true_r.
Qed.

Lemma all_digits_bytes s c : all_digits s = true -> byte_in c s = true -> is_digit c = true.
Proof.
  unfold all_digits. induction s as [|d s IH]; simpl; [done|]. rewrite andb_true_iff, orb_true_iff. intros [Hd Hs] [Hc|Hc].
  - apply bool_decide_eq_true in Hc as <-. done.
  - by apply IH.
Qed.

Lemma validPort_digits port : validPort port = true -> all_digits port = true.
Proof.
  unfold validPort. destruct port as [|c port]; [done|]. destruct (_ || _)%bool; [done|]. by destruct (all_digits _).
Qed.

Section splits.
Context (url_Parse : string -> option URL).

(** A literal loopback address with its port, as text. *)
Definition loopback_text (host port rest : string) : string :=
  "http://" ++ host ++ (if port =? "" then "" else ":" ++ port) ++ rest.

(** The code and the parser read it alike. *)
Definition loopback_address (raw host port rest : string) : Prop :=
  host ∈ loopbackHosts /\ raw = loopback_text host port rest /\ (port = "" \/ validPort port = true) /\
  rest_ok rest = true /\ Contains raw "#" = false /\ parsedAsLoopback url_Parse raw host port = true.

Lemma rest_ok_colon rest : rest_ok rest = true -> CutPrefix rest ":" = None.
Proof.
  destruct rest as [|c rest]; simpl; [done|]. destruct (bool_decide_reflect (c = ":"%char)) as [->|]; [|done]. by vm_compute.
Qed.

Lemma split_after_spec raw host after r : split_after url_Parse raw host after = Some r <->
  exists port rest, r = (host, rest) /\ after = (if port =? "" then "" else ":" ++ port) ++ rest /\
    (port = "" \/ validPort port = true) /\ rest_ok rest = true /\ parsedAsLoopback url_Parse raw host port = true.
Proof.
  unfold split_after. split.
  - destruct (CutPrefix after ":") as [afterColon|] eqn:Hc.
    + apply CutPrefix_spec in Hc as ->. destruct (span_any afterColon "/?") as [port rest] eqn:Hs.
      apply span_any_spec in Hs as (-> & _ & _). destruct (validPort port) eqn:Hp; [|done]. simpl.
      destruct (rest_ok rest) eqn:Hr; [|done]. destruct (parsedAsLoopback _ _ _ _) eqn:Hl; [|done]. simpl. intros [= <-].
      exists port, rest. split_and!; [done| |by right|done..]. rewrite bool_decide_false by (intros ->; done). by rewrite string_app_assoc.
    + destruct (rest_ok after) eqn:Hr; [|done]. simpl. destruct (parsedAsLoopback _ _ _ _) eqn:Hl; [|done]. intros [= <-].
      exists "", after. split_and!; [done|done|by left|done..].
  - intros (port & rest & -> & -> & Hp & Hr & Hl). destruct (port =? "") eqn:He.
    + apply bool_decide_eq_true in He as ->. change ("" ++ rest) with rest. rewrite (rest_ok_colon _ Hr), Hr, Hl. done.
    + apply bool_decide_eq_false in He. destruct Hp as [?|Hp]; [done|].
      assert (CutPrefix ((":" ++ port) ++ rest) ":" = Some (port ++ rest)) as ->.
      { apply CutPrefix_spec. by rewrite string_app_assoc. }
      rewrite span_any_app.
      * by rewrite Hp, Hr, Hl.
      * intros c Hc. apply (all_digits_bytes port) in Hc; [|by apply validPort_digits]. unfold is_digit in Hc. simpl.
        destruct (bool_decide_reflect ("/"%char = c)) as [<-|]; [by vm_compute in Hc|].
        destruct (bool_decide_reflect ("?"%char = c)) as [<-|]; [by vm_compute in Hc|]. done.
      * destruct rest as [|c rest]; [done|]. simpl in Hr |- *. apply orb_true_iff in Hr as [Hr|Hr]; apply bool_decide_eq_true in Hr as ->; done.
Qed.

(** The split finds the host and the rest of a loopback address, and nothing else. *)
Lemma split_exact raw host rest : splitLoopbackRedirectURI url_Parse raw = Some (host, rest) <->
  exists port, loopback_address raw host port rest.
Proof.
  unfold splitLoopbackRedirectURI, loopback_address, loopback_text. split.
  - destruct (CutPrefix raw "http://") as [text|] eqn:Hc; [|done]. apply CutPrefix_spec in Hc.
    destruct (Contains raw "#") eqn:Hf; [done|].
    assert (Hh : forall hosts, split_hosts url_Parse raw text hosts = Some (host, rest) ->
      exists port, host ∈ hosts /\ text = host ++ (if port =? "" then "" else ":" ++ port) ++ rest /\ (port = "" \/ validPort port = true) /\
        rest_ok rest = true /\ parsedAsLoopback url_Parse raw host port = true).
    { induction hosts as [|h hosts IH]; simpl; [done|]. destruct (CutPrefix text h) as [after|] eqn:Ha.
      - intros (port & r & [= -> ->] & -> & Hp & Hr & Hl)%split_after_spec. apply CutPrefix_spec in Ha as ->. exists port.
        split_and!; [by left|done..].
      - intros (port & ? & ?)%IH. exists port. split; [by right|done]. }
    intros (port & ? & -> & ? & ? & ?)%Hh. exists port. split_and!; done.
  - intros (port & Hin & Heq & Hp & Hr & Hf & Hl).
    assert (CutPrefix raw "http://" = Some (host ++ (if port =? "" then "" else ":" ++ port) ++ rest)) as Hcut by by apply CutPrefix_spec.
    rewrite Hcut, Hf. set (text := host ++ _) in *. unfold loopbackHosts in *. cbn [split_hosts].
    assert (Hafter : split_after url_Parse raw host ((if port =? "" then "" else ":" ++ port) ++ rest) = Some (host, rest)).
    { apply split_after_spec. by exists port, rest. }
    repeat setoid_rewrite elem_of_cons in Hin. destruct Hin as [->|[->|Hin]]; [| |by apply not_elem_of_nil in Hin].
    + assert (CutPrefix text "127.0.0.1" = Some ((if port =? "" then "" else ":" ++ port) ++ rest)) as -> by by apply CutPrefix_spec.
      done.
    + assert (CutPrefix text "[::1]" = Some ((if port =? "" then "" else ":" ++ port) ++ rest)) as Hc2 by by apply CutPrefix_spec.
      assert (CutPrefix text "127.0.0.1" = None) as -> by done. by rewrite Hc2.
Qed.

(** C29. Exactly the registered addresses are accepted, and those that differ from
    a registered address only in the port of a literal loopback host: the text is
    the same up to the port, the port is a number from 1 to 65535 or missing, and
    the parser reads the same host and port.  So no accepted address is on a host
    that the client did not register. *)
Theorem redirect_exact registered presented :
  AuthorizationRedirectURIAllowed url_Parse registered presented = true <->
  (presented <> "" /\ presented ∈ registered) \/
  exists candidate host port port' rest, candidate ∈ registered /\
    loopback_address presented host port rest /\ loopback_address candidate host port' rest.
Proof.
  unfold AuthorizationRedirectURIAllowed, RedirectURIAllowed. split.
  - destruct (if presented =? "" then false else contains registered presented) eqn:He.
    { intros _. left. destruct (presented =? "") eqn:Hp; go_bool; done. }
    destruct (splitLoopbackRedirectURI url_Parse presented) as [[host rest]|] eqn:Hs; [|done].
    intros (candidate & Hin & Hc)%existsb_exists. apply list_elem_of_In in Hin. go_bool.
    apply split_exact in Hs as [port Hs], Hc as [port' Hc]. right. by exists candidate, host, port, port', rest.
  - intros [[Hne Hin]|(candidate & host & port & port' & rest & Hin & Hp & Hc)].
    + rewrite bool_decide_false by done. apply contains_true in Hin. by rewrite Hin.
    + destruct (if presented =? "" then false else contains registered presented); [done|].
      assert (splitLoopbackRedirectURI url_Parse presented = Some (host, rest)) as -> by (apply split_exact; by exists port).
      apply existsb_exists. exists candidate. split; [by apply list_elem_of_In|]. apply bool_decide_eq_true, split_exact. by exists port'.
Qed.
End splits.

(** ** When a session has to be renewed *)

Section renewal.
Context (printable : N -> bool).
Notation parse := (ParsePromptTokens printable).

(** The text that is stored reads back as the tokens it was made of. *)
Lemma prompt_round_trip value p : parse value = Ok p -> parse (Canonical p) = Ok p.
Proof.
  unfold ParsePromptTokens at 1. destruct (add_prompts _ _ _) as [tokens|e]; [|done]. cbn [res_bind].
  destruct tokens as [[] [] []]; cbn [pt_Login pt_Consent pt_None andb orb res_bind]; intros H; try discriminate H; injection H as <-; reflexivity.
Qed.

(** Login asked for alone renews every session until the user has just
    authenticated; [none] never does, not even for a session that is too old. *)
Lemma login_alone value p maxAge authTime now satisfied : parse value = Ok p -> pt_Login p = true -> pt_Consent p = false ->
  NeedsReauthentication {| pol_Prompt := Some (Canonical p); pol_MaxAge := maxAge |} authTime now satisfied = negb satisfied.
Proof.
  unfold ParsePromptTokens. destruct (add_prompts _ _ _) as [tokens|e]; [|done]. cbn [res_bind].
  destruct tokens as [[] [] []]; cbn [pt_Login pt_Consent pt_None andb orb res_bind]; intros H; try discriminate H; injection H as <-; try done; by destruct satisfied.
Qed.

Lemma none_ignores_max_age maxAge authTime now satisfied :
  NeedsReauthentication {| pol_Prompt := Some "none"; pol_MaxAge := maxAge |} authTime now satisfied = false.
Proof. done. Qed.

(** Login asked for together with consent is overlooked: the stored text is
    [login consent], which the switch does not know. *)
Lemma login_prompt_overlooked value p authTime now satisfied : parse value = Ok p -> pt_Login p = true -> pt_Consent p = true ->
  NeedsReauthentication {| pol_Prompt := Some (Canonical p); pol_MaxAge := None |} authTime now satisfied = false.
Proof.
  unfold ParsePromptTokens. destruct (add_prompts _ _ _) as [tokens|e]; [|done]. cbn [res_bind].
  destruct tokens as [[] [] []]; cbn [pt_Login pt_Consent pt_None andb orb res_bind]; intros H; try discriminate H; injection H as <-; try done; by destruct satisfied.
Qed.
End renewal.

Example login_overlooked :
  ParsePromptTokens (fun _ => true) "consent login" = Ok {| pt_Login := true; pt_Consent := true; pt_None := false |} /\
  NeedsReauthentication {| pol_Prompt := Some "login consent"; pol_MaxAge := None |} 0%Z (365 * 86400 * Second)%Z false = false.
Proof. split; by vm_compute. Qed.
