(* ===== verification/Authorize.v ===== *)
(** * OAuth2: the authorization endpoint's use cases

    [backend/oauth2/internal/authorization/usecases]: [Authorize] (authorize.go)
    accepts and stores a request, [PushAuthorizationRequest]
    (push_authorization_request.go) stores one beforehand, [CompleteLogin]
    (complete_login.go) turns an accepted request into a code for the user who
    authenticated.  The records are those of [CodeStore]; their [Validate] methods
    (authorization/domain/token.go) are here, with the parser of addresses as a
    parameter.  Readings of the clock and draws of randomness are arguments.

    [CompleteLogin] is also cut at its calls of the store, so that several of them
    interleave.  The theorems: what an accepted request and an issued code have
    been checked for; that the code carries the request; and that under every
    interleaving a request gives at most one code. *)

From Stdlib Require Import Ascii String ZArith Lia.
From stdpp Require Import base strings list gmap relations.
From S2P Require Import Prelude Effects GoStrings Words Crypto Rules Urls Policy TokenDomain ActorChain StateMachines RichAuthorization.
From S2P Require Import RefreshStore RefreshUsecase CodeStore ExchangeCode Device Approval Jose RedirectUri.

Local Open Scope string_scope.
Local Open Scope go_scope.

(** ** Validation of the records *)

Section validation.
Context (url_Parse : string -> option URL).

Definition AuthorizationRequest_Validate (a : AuthorizationRequest) : result rule_error unit :=
  All [ Required "ID" (ar_ID a) [UUID];
        Required "State" (ar_State a) [Must AuthorizationCodeFlowState_Valid "state is not in enum"];
        Required "ClientID" (ar_ClientID a) [];
        Required "RedirectURI" (ar_RedirectURI a) [URL_rule url_Parse];
        Required "ResponseType" (ar_ResponseType a) [WithMessage (OneOf [ResponseTypeCode]) "response_type must be code"];
        Required "CodeChallenge" (ar_CodeChallenge a) [];
        Required "CodeChallengeMethod" (ar_CodeChallengeMethod a)
          [WithMessage (OneOf [CodeChallengeMethodS256]) "code_challenge_method must be S256"];
        OptionalPtr "MaxAge" (ar_MaxAge a) [AtLeast 0];
        Required "CreatedAt" (ar_CreatedAt a) [];
        Required "ExpiresAt" (ar_ExpiresAt a) [] ].

Definition AuthorizationCodeRecord_Validate (a : AuthorizationCodeRecord) : result rule_error unit :=
  All [ Required "Code" (code_Code a) [];
        Required "AuthorizationRequestID" (code_AuthorizationRequestID a) [UUID];
        Required "ClientID" (code_ClientID a) [];
        Required "UserID" (code_UserID a) [];
        Required "RedirectURI" (code_RedirectURI a) [URL_rule url_Parse];
        Required "CodeChallenge" (code_CodeChallenge a) [];
        Required "CodeChallengeMethod" (code_CodeChallengeMethod a)
          [WithMessage (OneOf [CodeChallengeMethodS256]) "code_challenge_method must be S256"];
        Required "State" (code_State a) [Must AuthorizationCodeRecordState_Valid "state is not in enum"];
        Required "IssuedAt" (code_IssuedAt a) [];
        Required "ExpiresAt" (code_ExpiresAt a) [] ].
End validation.

Definition PARRecord_Validate (p : PARRecord) : result rule_error unit :=
  All [ Required "RequestURI" (par_RequestURI p) []; Required "ClientID" (par_ClientID p) [];
        Required "IssuedAt" (par_IssuedAt p) []; Required "ExpiresAt" (par_ExpiresAt p) [] ].

(** ** Ports, inputs and events *)

Class AuthorizationPort (S E : Type) := {
  save_request : AuthorizationRequest -> S -> result E unit * S;
  find_request : string -> S -> result E (option AuthorizationRequest) * S;
  attach_authentication : string -> string -> Z -> list string -> string -> string -> S -> result E unit * S;
  save_code : AuthorizationCodeRecord -> S -> result E unit * S;
}.
Class PARPort (S E : Type) := {
  save_par : PARRecord -> S -> result E unit * S;
  consume_par : string -> Time -> S -> result E (option PARRecord) * S;
}.

(** What the endpoint reads of a client besides. *)
Class RedirectView (C : Type) := {
  client_RedirectURIs : C -> list string;
  client_MustUsePushedAuthorizationRequests : C -> bool;
}.

Record AuthorizeRequestInput := {
  ai_ClientID : string;
  ai_RedirectURI : string;
  ai_ResponseType : string;
  ai_Scope : string;
  ai_StateParam : string;
  ai_Nonce : string;
  ai_CodeChallenge : string;
  ai_CodeChallengeMethod : string;
  ai_Prompt : string;
  ai_MaxAge : option Z;
  ai_ACRValues : string;
  ai_ParUsed : bool;
  ai_ParRequestURI : string;
  ai_AuthorizationDetailsRaw : string;
  ai_Resource : list string;
}.

Record PARInput := { pi_ClientID : string; pi_Parameters : gmap string string; pi_Resource : list string }.
Record PARResult := { pr_RequestURI : string; pr_ExpiresIn : Z }.

Record CompleteLoginInput := {
  li_RequestID : string;
  li_Sub : string;
  li_AuthTime : Time;
  li_AMR : list string;
  li_ACR : string;
  li_Sid : string;
}.

Inductive authorize_event :=
| AuthorizationDetailsRejected (at_ : Time) (tenantID clientID reason : string)
| ResourceAudienceRejected (at_ : Time) (tenantID clientID reason : string)
| PARStored (at_ : Time) (tenantID requestURI clientID : string).

(** What the checks of a request come to. *)
Inductive login_check (E : Type) :=
| Login_refused (e : failure E)
| Login_expired (req : AuthorizationRequest)
| Login_accepted (req : AuthorizationRequest).
Arguments Login_refused {E}.
Arguments Login_expired {E}.
Arguments Login_accepted {E}.

Definition defaultScope (s : string) : string := if TrimSpace s =? "" then "openid" else s.
Definition optional (s : string) : option string := if s =? "" then None else Some s.

Definition ParsePrompt (req : AuthorizationRequest) : AuthorizationRequestPolicy :=
  {| pol_Prompt := ar_Prompt req; pol_MaxAge := ar_MaxAge req |}.

Section usecases.
Context {S E C : Type} `{AuthorizationPort S E} `{!AuthorizationRequestPort S E} `{ClientView C} `{!ClientPolicyView C} `{!RedirectView C}.
Context (url_Parse : string -> option URL) (printable : N -> bool).
Notation flow := (eff S authorize_event (failure E)).

(** What the use cases share; [unmarshal] decodes the details. *)
Record AuthorizeDeps := {
  az_ClientRepo : string -> string -> result E (option C);
  az_AuthzDetailTypeRepo : option (string -> string -> result E (option AuthorizationDetailType));
  az_McpResourceServerRepo : option (string -> string -> result E (option McpResourceServer));
  az_unmarshal : string -> option (list AuthorizationDetail);
}.

Definition acceptAuthorizationDetails {S'} (d : AuthorizeDeps) (tenantID clientID raw : string) (now : Time) :
    eff S' authorize_event (failure E) (list AuthorizationDetail) := fun s =>
  let accepted := let? details := ParseAuthorizationDetails (az_unmarshal d) raw in
                  let? _ := ValidateAuthorizationDetails (az_AuthzDetailTypeRepo d) tenantID details in
                  Ok details in
  match accepted with
  | Ok details => (Ok details, s, [])
  | Err e => (Err e, s, if errorCode e =? "invalid_authorization_details"
                        then [AuthorizationDetailsRejected now tenantID clientID (errorCode e)] else [])
  end.

(** [ResolveResourceIndicator], whose refusals are reported. *)
Definition resource_indicator {S'} (d : AuthorizeDeps) (tenantID clientID : string) (resources scopes : list string) (now : Time) :
    eff S' authorize_event (failure E) (option McpResourceServer) := fun s =>
  match ResolveResourceIndicator (az_McpResourceServerRepo d) tenantID resources scopes with
  | Ok mcp => (Ok mcp, s, [])
  | Err e => (Err e, s, [ResourceAudienceRejected now tenantID clientID (errorCode e)])
  end.

(** The checks of the client, up to the prompt; the address to answer to and the
    prompt in its canonical form. *)
Definition authorize_client (d : AuthorizeDeps) (tenantID : string) (in_ : AuthorizeRequestInput) (requestedScopes : list string) :
    result (failure E) (C * string * string) :=
  let? client := lift_port (az_ClientRepo d tenantID (ai_ClientID in_)) in
  match client with
  | None => Err (NewOAuthError "invalid_client" "unknown client_id")
  | Some client =>
      match ResolveRedirectURI url_Parse (client_RedirectURIs client) (ai_RedirectURI in_) (contains requestedScopes "openid") with
      | Err text => Err (NewOAuthError "invalid_request" text)
      | Ok redirectURI =>
          reject negb (contains (client_GrantTypes client) GrantAuthorizationCode) with
            NewOAuthError "unauthorized_client" "authorization_code grant is not declared" in
          reject negb (forallb (contains (Fields (client_Scope client))) requestedScopes) with
            NewOAuthError "invalid_scope" "contains undeclared scope" in
          reject client_MustUsePushedAuthorizationRequests client && negb (ai_ParUsed in_) with
            NewOAuthError "invalid_request" "this client requires PAR" in
          if ai_Prompt in_ =? "" then Ok (client, redirectURI, "")
          else match ParsePromptTokens printable (ai_Prompt in_) with
               | Err text => Err (NewOAuthError "invalid_request" text)
               | Ok prompt => Ok (client, redirectURI, Canonical prompt)
               end
      end
  end.

(** The record that is stored. *)
Definition new_request (tenantID id : string) (in_ : AuthorizeRequestInput) (redirectURI prompt : string) (scopes : list string)
    (details : list AuthorizationDetail) (resource : option string) (now : Time) : AuthorizationRequest :=
  {| ar_ID := id; ar_TenantID := tenantID; ar_State := AuthFlowReceived; ar_ClientID := ai_ClientID in_;
     ar_RedirectURI := redirectURI; ar_RedirectURIOmitted := ai_RedirectURI in_ =? "";
     ar_ResponseType := ResponseTypeCode; ar_Scope := Join scopes " "; ar_StateParam := optional (ai_StateParam in_);
     ar_Nonce := optional (ai_Nonce in_); ar_CodeChallenge := ai_CodeChallenge in_;
     ar_CodeChallengeMethod := CodeChallengeMethodS256; ar_Prompt := optional prompt; ar_MaxAge := ai_MaxAge in_;
     ar_ParRequestURI := optional (ai_ParRequestURI in_); ar_UserID := None; ar_AuthTime := None; ar_AMR := [];
     ar_ACR := None; ar_ACRValues := optional (ai_ACRValues in_); ar_Sid := None; ar_AuthorizationDetails := details;
     ar_Resource := resource; ar_CreatedAt := now; ar_ExpiresAt := Add now (10 * 60 * Second)%Z |}.

(** [id] is drawn; [clock] is read for the details, [now] after them. *)
Definition Authorize (d : AuthorizeDeps) (tenantID : string) (in_ : AuthorizeRequestInput) (id : result E string) (clock now : Time) :
    flow (AuthorizationRequest * C) :=
  refuse ai_ClientID in_ =? "" with NewOAuthError "invalid_request" "client_id is required" in
  refuse ai_ResponseType in_ <>? "code" with NewOAuthError "unsupported_response_type" "only code is supported" in
  refuse ai_CodeChallenge in_ =? "" with NewOAuthError "invalid_request" "code_challenge is required" in
  refuse ai_CodeChallengeMethod in_ <>? "S256" with NewOAuthError "invalid_request" "code_challenge_method must be S256" in
  let requestedScopes := Fields (defaultScope (ai_Scope in_)) in
  let! (client, redirectURI, prompt) := lift (authorize_client d tenantID in_ requestedScopes) in
  let! details := acceptAuthorizationDetails d tenantID (ai_ClientID in_) (ai_AuthorizationDetailsRaw in_) clock in
  let! mcp := resource_indicator d tenantID (ai_ClientID in_) (ai_Resource in_) requestedScopes now in
  let! id := lift (lift_port id) in
  let req := new_request tenantID id in_ redirectURI prompt requestedScopes details (mcp_Resource <$> mcp) now in
  match AuthorizationRequest_Validate url_Parse req with
  | Err e => eff_fail (NewOAuthError "invalid_request" (error_text e))
  | Ok _ =>
      do! call PortError (save_request req) in
      eff_ret (req, client)
  end.

(** *** The completion of a login *)

Definition new_code (value : string) (req : AuthorizationRequest) (in_ : CompleteLoginInput) (now : Time) : AuthorizationCodeRecord :=
  {| code_Code := value; code_TenantID := ar_TenantID req; code_AuthorizationRequestID := ar_ID req;
     code_ClientID := ar_ClientID req; code_UserID := li_Sub in_; code_Scopes := Fields (ar_Scope req);
     code_RedirectURI := ar_RedirectURI req; code_RedirectURIOmitted := ar_RedirectURIOmitted req;
     code_CodeChallenge := ar_CodeChallenge req; code_CodeChallengeMethod := ar_CodeChallengeMethod req;
     code_Nonce := ar_Nonce req; code_AuthTime := Unix (li_AuthTime in_); code_AMR := li_AMR in_;
     code_ACR := optional (li_ACR in_); code_Sid := optional (li_Sid in_);
     code_AuthorizationDetails := ar_AuthorizationDetails req; code_Resource := ar_Resource req;
     code_State := AuthCodeRecordIssued; code_IssuedAt := now; code_ExpiresAt := Add now (60 * Second)%Z;
     code_RedeemedAt := None; code_IssuedFamilyID := None |}.

Definition generateOpaqueToken {E} (random : result E (list N)) : result E string :=
  let? b := random in Ok (EncodeToString (string_of_bytes b)).

(** The checks of the request, with [clock] the first reading. *)
Definition check_login (tenantID : string) (in_ : CompleteLoginInput) (clock : Time) (req : option AuthorizationRequest) : login_check E :=
  match req with
  | None => Login_refused (NewOAuthError "invalid_request" "unknown authorization request")
  | Some req =>
      if ar_TenantID req <>? tenantID then Login_refused (NewOAuthError "invalid_request" "unknown authorization request")
      else if After clock (ar_ExpiresAt req) then Login_expired req
      else if ar_State req <>? AuthFlowReceived then
        Login_refused (NewOAuthError "invalid_request"
          "The authorization request has already been processed. Restart authorization from the client.")
      else Login_accepted req
  end.

Definition login_expired : failure E := NewOAuthError "invalid_request" "authorization request expired".

Definition login_request (tenantID : string) (in_ : CompleteLoginInput) (clock : Time) : flow AuthorizationRequest :=
  let! req := call PortError (find_request (li_RequestID in_)) in
  match check_login tenantID in_ clock req with
  | Login_refused e => eff_fail e
  | Login_expired req =>
      let! _ := ignore (update_state (ar_ID req) AuthFlowExpired) in
      eff_fail login_expired
  | Login_accepted req => eff_ret req
  end.

(** The record, validated and stored. *)
Definition issue_code (req : AuthorizationRequest) (in_ : CompleteLoginInput) (random : result E (list N)) (now : Time) :
    flow AuthorizationCodeRecord :=
  let! value := lift (lift_port (generateOpaqueToken random)) in
  let record := new_code value req in_ now in
  let! _ := lift (lift_rules (AuthorizationCodeRecord_Validate url_Parse record)) in
  do! call PortError (save_code record) in
  eff_ret record.

(** The request it returns is the record as it was read; in Go it is the stored one,
    of which the caller reads only what the completion does not change. *)
Definition CompleteLogin (tenantID : string) (in_ : CompleteLoginInput) (random : result E (list N)) (clock now : Time) :
    flow (AuthorizationRequest * AuthorizationCodeRecord) :=
  let! req := login_request tenantID in_ clock in
  do! call PortError (update_state (ar_ID req) AuthFlowAuthenticationPending) in
  do! call PortError (update_state (ar_ID req) AuthFlowAuthenticated) in
  do! call PortError (attach_authentication (ar_ID req) (li_Sub in_) (Unix (li_AuthTime in_)) (li_AMR in_) (li_ACR in_) (li_Sid in_)) in
  do! call PortError (update_state (ar_ID req) AuthFlowCodeIssued) in
  let! record := issue_code req in_ random now in
  eff_ret (req, record).
End usecases.

Arguments AuthorizeDeps : clear implicits.

(** *** Pushed requests *)

Section push.
Context {S E C : Type} `{PARPort S E}.

(** A time that is zero is replaced by a reading of the clock. *)
Definition PushAuthorizationRequest (d : AuthorizeDeps E C) (tenantID : string) (in_ : PARInput) (random : result E (list N)) (clock now : Time) :
    eff S authorize_event (failure E) PARResult :=
  let now := if IsZero now then clock else now in
  let! client := lift (lift_port (az_ClientRepo d tenantID (pi_ClientID in_))) in
  match client with
  | None => eff_fail (NewOAuthError "invalid_client" "unknown client_id")
  | Some _ =>
      let! _ := acceptAuthorizationDetails d tenantID (pi_ClientID in_) (default "" (pi_Parameters in_ !! "authorization_details")) now in
      let! _ := resource_indicator d tenantID (pi_ClientID in_) (pi_Resource in_) (Fields (default "" (pi_Parameters in_ !! "scope"))) now in
      let! id := lift (lift_port (generateOpaqueToken random)) in
      let requestURI := "urn:ietf:params:oauth:request_uri:" ++ id in
      let rec_ := {| par_RequestURI := requestURI; par_TenantID := tenantID; par_ClientID := pi_ClientID in_;
                     par_Parameters := pi_Parameters in_; par_IssuedAt := now; par_ExpiresAt := Add now (90 * Second)%Z; par_Used := false |} in
      let! _ := lift (lift_rules (PARRecord_Validate rec_)) in
      do! call PortError (save_par rec_) in
      do! emit (PARStored now tenantID requestURI (pi_ClientID in_)) in
      eff_ret {| pr_RequestURI := requestURI; pr_ExpiresIn := 90 |}
  end.
End push.

(** ** The memory stores *)

#[export] Instance memory_authorization_port : AuthorizationPort OAuthStore memory_error := {
  save_request r := on_requests (fun s => (Ok tt, request_Save r s));
  find_request id := on_requests (fun s => (Ok (request_Find id s), s));
  attach_authentication id sub t amr acr sid := on_requests (AttachAuthentication id sub t amr acr sid);
  save_code c := on_codes (fun s => (Ok tt, code_Save c s));
}.

#[export] Instance memory_par_port {E} : PARPort PARStore E := {
  save_par r s := (Ok tt, par_Save r s);
  consume_par uri clock s := let '(r, s') := Consume uri clock s in (Ok r, s');
}.

(** ** Steps of the store *)

Definition with_state (st : AuthorizationCodeFlowState) (req : AuthorizationRequest) : AuthorizationRequest :=
  request_with (ar_TenantID req) st (ar_UserID req) (ar_AuthTime req) (ar_AMR req) (ar_ACR req) (ar_Sid req) req.

Definition with_requests (q : AuthorizationRequestStore) (s : OAuthStore) : OAuthStore :=
  {| st_codes := st_codes s; st_requests := q; st_refresh := st_refresh s; st_sessions := st_sessions s |}.

Definition with_codes (c : AuthorizationCodeStore) (s : OAuthStore) : OAuthStore :=
  {| st_codes := c; st_requests := st_requests s; st_refresh := st_refresh s; st_sessions := st_sessions s |}.

Lemma stored_after id r s : st_requests (with_requests (<[id := r]> (st_requests s)) s) !! id = Some r.
Proof. apply (lookup_insert_eq (M := gmap string)). Qed.

Lemma UpdateState_cases id st s :
  (exists e, UpdateState id st s = (Err e, s)) \/
  exists req next, s !! id = Some req /\ TransitionAuthorizationCodeFlow (ar_State req) (eventForTargetState st) = Ok next /\
    UpdateState id st s = (Ok tt, <[id := with_state next req]> s).
Proof.
  unfold UpdateState. destruct (s !! id) as [req|]; [|left; by eexists].
  destruct (TransitionAuthorizationCodeFlow _ _) as [next|e] eqn:Ht; [|left; by eexists]. right. by exists req, next.
Qed.

Lemma AttachAuthentication_cases id sub t amr acr sid s :
  (exists e, AttachAuthentication id sub t amr acr sid s = (Err e, s)) \/
  exists req, s !! id = Some req /\ AttachAuthentication id sub t amr acr sid s =
    (Ok tt, <[id := request_with (ar_TenantID req) (ar_State req) (Some sub) (Some t) amr (Some acr)
                      (if sid <>? "" then Some sid else ar_Sid req) req]> s).
Proof. unfold AttachAuthentication. destruct (s !! id) as [req|]; [right; by exists req|left; by eexists]. Qed.

Section stores.
Notation flow := (eff OAuthStore authorize_event (failure memory_error)).

Lemma update_run id st s a s' w : (call PortError (update_state id st) : flow unit) s = (Ok a, s', w) ->
  exists req next, st_requests s !! id = Some req /\ TransitionAuthorizationCodeFlow (ar_State req) (eventForTargetState st) = Ok next /\
    s' = with_requests (<[id := with_state next req]> (st_requests s)) s /\ w = [].
Proof.
  unfold call. simpl. unfold on_requests. destruct (UpdateState_cases id st (st_requests s)) as [[e ->]|(req & next & Hr & Ht & ->)]; [done|].
  intros [= _ <- <-]. by exists req, next.
Qed.

Lemma attach_run id sub t amr acr sid s a s' w :
  (call PortError (attach_authentication id sub t amr acr sid) : flow unit) s = (Ok a, s', w) ->
  exists req, st_requests s !! id = Some req /\ w = [] /\
    s' = with_requests (<[id := request_with (ar_TenantID req) (ar_State req) (Some sub) (Some t) amr (Some acr)
                                  (if sid <>? "" then Some sid else ar_Sid req) req]> (st_requests s)) s.
Proof.
  unfold call. simpl. unfold on_requests.
  destruct (AttachAuthentication_cases id sub t amr acr sid (st_requests s)) as [[e ->]|(req & Hr & ->)]; [done|].
  intros [= _ <- <-]. by exists req.
Qed.

(** The state that a request is in when its code has been issued. *)
Definition completed_request (in_ : CompleteLoginInput) (req : AuthorizationRequest) : AuthorizationRequest :=
  request_with (ar_TenantID req) AuthFlowCodeIssued (Some (li_Sub in_)) (Some (Unix (li_AuthTime in_))) (li_AMR in_)
    (Some (li_ACR in_)) (if li_Sid in_ <>? "" then Some (li_Sid in_) else ar_Sid req) req.

(** Every request is stored under its own identifier. *)
Definition requests_keyed (s : OAuthStore) : Prop := forall id req, st_requests s !! id = Some req -> ar_ID req = id.

Lemma login_request_Ok tenantID in_ clock s req s' w : login_request (S := OAuthStore) (E := memory_error) tenantID in_ clock s = (Ok req, s', w) ->
  s' = s /\ w = [] /\ st_requests s !! li_RequestID in_ = Some req /\ ar_TenantID req = tenantID /\ (clock <= ar_ExpiresAt req)%Z /\
  ar_State req = AuthFlowReceived.
Proof.
  unfold login_request. intros (o & s1 & w1 & w2 & H1 & H2 & ->)%eff_bind_Ok.
  unfold call in H1. simpl in H1. injection H1 as <- <- <-. unfold request_Find in H2.
  unfold check_login in H2. destruct (st_requests s !! li_RequestID in_) as [r|]; [|done].
  destruct (ar_TenantID r <>? tenantID) eqn:Ht; [done|]. destruct (After clock (ar_ExpiresAt r)) eqn:Ha.
  { apply eff_bind_Ok in H2 as (? & ? & ? & ? & _ & H2 & _). done. }
  destruct (ar_State r <>? AuthFlowReceived) eqn:Hs; [done|]. unfold eff_ret in H2. injection H2 as -> <- <-.
  go_bool. unfold After in Ha. apply Z.ltb_ge in Ha. destruct s. done.
Qed.

Lemma issue_code_Ok url_Parse req in_ random now s code s' w :
  issue_code (S := OAuthStore) (E := memory_error) url_Parse req in_ random now s = (Ok code, s', w) ->
  w = [] /\ s' = with_codes (code_Save code (st_codes s)) s /\ AuthorizationCodeRecord_Validate url_Parse code = Ok tt /\
  exists b, random = Ok b /\ code = new_code (EncodeToString (string_of_bytes b)) req in_ now.
Proof.
  unfold issue_code. intros (v & s1 & w1 & w2 & H1 & H2 & ->)%eff_bind_Ok. unfold lift, generateOpaqueToken in H1.
  destruct random as [b|e]; [|done]. simpl in H1. injection H1 as <- <- <-.
  apply eff_bind_Ok in H2 as ([] & s2 & w3 & w4 & H1 & H2 & ->). unfold lift in H1.
  destruct (AuthorizationCodeRecord_Validate url_Parse _) as [[]|e] eqn:Hv; [|done]. simpl in H1. injection H1 as <- <-.
  apply eff_bind_Ok in H2 as ([] & s3 & w5 & w6 & H1 & H2 & ->). unfold call in H1. simpl in H1. injection H1 as <- <-.
  unfold eff_ret in H2. injection H2 as <- <- <-. split_and!; [done..|]. by exists b.
Qed.

(** What a completion has checked, and all that it changes. *)
Lemma CompleteLogin_Ok url_Parse tenantID in_ random clock now s req code s' w : requests_keyed s ->
  CompleteLogin (E := memory_error) url_Parse tenantID in_ random clock now s = (Ok (req, code), s', w) ->
  st_requests s !! li_RequestID in_ = Some req /\ ar_TenantID req = tenantID /\ (clock <= ar_ExpiresAt req)%Z /\
  ar_State req = AuthFlowReceived /\ (exists b, random = Ok b /\ code = new_code (EncodeToString (string_of_bytes b)) req in_ now) /\
  s' = with_codes (code_Save code (st_codes s))
         (with_requests (<[li_RequestID in_ := completed_request in_ req]> (st_requests s)) s) /\ w = [].
Proof.
  intros Hk (r & t1 & ? & ? & H1 & Hrun & ->)%eff_bind_Ok.
  apply login_request_Ok in H1 as (-> & -> & Hreq & Ht & Hexp & Hst). pose proof (Hk _ _ Hreq) as Hid.
  apply eff_bind_Ok in Hrun as ([] & t2 & ? & ? & H1 & Hrun & ->). apply update_run in H1 as (r1 & n1 & Hr1 & Hn1 & -> & ->).
  rewrite Hid, Hreq in Hr1. injection Hr1 as <-. rewrite Hst in Hn1. vm_compute in Hn1. injection Hn1 as <-.
  apply eff_bind_Ok in Hrun as ([] & t3 & ? & ? & H1 & Hrun & ->). apply update_run in H1 as (r2 & n2 & Hr2 & Hn2 & -> & ->).
  rewrite stored_after in Hr2. injection Hr2 as <-. vm_compute in Hn2. injection Hn2 as <-.
  apply eff_bind_Ok in Hrun as ([] & t4 & ? & ? & H1 & Hrun & ->). apply attach_run in H1 as (r3 & Hr3 & -> & ->).
  rewrite stored_after in Hr3. injection Hr3 as <-.
  apply eff_bind_Ok in Hrun as ([] & t5 & ? & ? & H1 & Hrun & ->). apply update_run in H1 as (r4 & n4 & Hr4 & Hn4 & -> & ->).
  rewrite stored_after in Hr4. injection Hr4 as <-. vm_compute in Hn4. injection Hn4 as <-.
  apply eff_bind_Ok in Hrun as (c & t6 & ? & ? & H1 & Hrun & ->). apply issue_code_Ok in H1 as (-> & -> & _ & Hcode).
  unfold eff_ret in Hrun. injection Hrun as <- <- <- <-. split_and!; try done.
  simpl. unfold with_codes, with_requests. simpl. rewrite Hid. f_equal.
  repeat (etransitivity; [apply (insert_insert_eq (M := gmap string))|]). done.
Qed.
End stores.

(** ** The requests under any use *)

(** What anybody may do with the requests: store a new one, move one along, attach
    a user, or nothing. *)
Inductive request_step : AuthorizationRequestStore -> AuthorizationRequestStore -> Prop :=
| request_same q : request_step q q
| request_new req q : q !! ar_ID req = None -> request_step q (request_Save req q)
| request_update id st q : request_step q (UpdateState id st q).2
| request_attach id sub t amr acr sid q : request_step q (AttachAuthentication id sub t amr acr sid q).2.

(** The requests keep their identifier and never return to their first state. *)
Definition same_request (r r' : AuthorizationRequest) : Prop :=
  exists tenant st user authTime amr acr sid, r' = request_with tenant st user authTime amr acr sid r.

Lemma same_request_refl r : same_request r r.
Proof. exists (ar_TenantID r), (ar_State r), (ar_UserID r), (ar_AuthTime r), (ar_AMR r), (ar_ACR r), (ar_Sid r). by destruct r. Qed.

Lemma moved_same_request tenant st user authTime amr acr sid r : same_request r (request_with tenant st user authTime amr acr sid r).
Proof. by do 7 eexists. Qed.

Lemma same_request_trans r1 r2 r3 : same_request r1 r2 -> same_request r2 r3 -> same_request r1 r3.
Proof. intros (?&?&?&?&?&?&?&->) (?&?&?&?&?&?&?&->). by do 7 eexists. Qed.

Definition keyed (q : gmap string AuthorizationRequest) : Prop := forall id req, q !! id = Some req -> ar_ID req = id.

Lemma transition_in from ev next : TransitionAuthorizationCodeFlow from ev = Ok next ->
  {| From := from; Event := ev; To := next |} ∈ authCodeFlowTransitions.
Proof.
  unfold TransitionAuthorizationCodeFlow, lookup_transition. destruct (search _ from ev) as [to|] eqn:Hs; [|done].
  intros [= <-]. by apply search_in.
Qed.

Lemma transition_leaves st ev next : TransitionAuthorizationCodeFlow st ev = Ok next -> next <> AuthFlowReceived.
Proof.
  intros Ht%transition_in. assert (H : Forall (fun t => To t <> AuthFlowReceived) authCodeFlowTransitions) by by repeat constructor.
  rewrite Forall_forall in H. exact (H _ Ht).
Qed.

Lemma start_from_received st next : TransitionAuthorizationCodeFlow st EventStartAuthentication = Ok next -> st = AuthFlowReceived.
Proof.
  intros Ht%transition_in.
  assert (H : Forall (fun t => Event t = EventStartAuthentication -> From t = AuthFlowReceived) authCodeFlowTransitions) by by repeat constructor.
  rewrite Forall_forall in H. exact (H _ Ht eq_refl).
Qed.

Definition onward (q q' : gmap string AuthorizationRequest) : Prop :=
  (keyed q -> keyed q') /\ forall id r, q !! id = Some r -> exists r', q' !! id = Some r' /\ same_request r r' /\
    (ar_State r <> AuthFlowReceived -> ar_State r' <> AuthFlowReceived).

Lemma onward_insert (q : gmap string AuthorizationRequest) id r r' : q !! id = Some r -> same_request r r' ->
  (ar_State r <> AuthFlowReceived -> ar_State r' <> AuthFlowReceived) -> onward q (<[id := r']> q).
Proof.
  intros Hr Hs Hst. split.
  - intros Hk i x [[<- <-]|[Hne Hx]]%lookup_insert_Some; [|by apply Hk].
    destruct Hs as (?&?&?&?&?&?&?&->). simpl. by apply Hk.
  - intros i x Hx. destruct (decide (id = i)) as [<-|Hne].
    + rewrite Hr in Hx. injection Hx as <-. exists r'. by rewrite lookup_insert_eq.
    + exists x. rewrite lookup_insert_ne by done. split_and!; [done|apply same_request_refl|done].
Qed.

Lemma onward_new (q : gmap string AuthorizationRequest) r : q !! ar_ID r = None -> onward q (<[ar_ID r := r]> q).
Proof.
  intros Hnew. split.
  - intros Hk i x [[<- <-]|[Hne Hx]]%lookup_insert_Some; [done|by apply Hk].
  - intros i x Hx. exists x. rewrite lookup_insert_ne by naive_solver. split_and!; [done|apply same_request_refl|done].
Qed.

Lemma onward_refl q : onward q q.
Proof. split; [done|]. intros id r Hr. exists r. split_and!; [done|apply same_request_refl|done]. Qed.

Lemma request_step_onward q q' : request_step q q' -> onward q q'.
Proof.
  destruct 1 as [q|req q Hnew|id st q|id sub t amr acr sid q].
  - apply onward_refl.
  - by apply (onward_new q (request_with _ _ _ _ _ _ _ req)).
  - destruct (UpdateState_cases id st q) as [[e ->]|(r & next & Hr & Ht & ->)]; [apply onward_refl|].
    apply (onward_insert _ _ r); [done|apply moved_same_request|]. intros _. simpl. by eapply transition_leaves.
  - destruct (AttachAuthentication_cases id sub t amr acr sid q) as [[e ->]|(r & Hr & ->)]; [apply onward_refl|].
    apply (onward_insert _ _ r); [done|apply moved_same_request|done].
Qed.

Lemma keyed_empty : keyed ∅.
Proof. by intros id req Hr%lookup_empty_Some. Qed.

Lemma keyed_Save r (q : gmap string AuthorizationRequest) : keyed q -> keyed (request_Save r q).
Proof.
  intros Hk id x Hx. unfold request_Save in Hx. apply (lookup_insert_Some q) in Hx as [[<- <-]|[_ Hx]]; [done|by apply Hk].
Qed.

Lemma onward_trans q1 q2 q3 : onward q1 q2 -> onward q2 q3 -> onward q1 q3.
Proof.
  intros [Hk12 H12] [Hk23 H23]. split; [auto|]. intros id r Hr. destruct (H12 id r Hr) as (r2 & Hr2 & Hs2 & Hst2).
  destruct (H23 id r2 Hr2) as (r3 & Hr3 & Hs3 & Hst3). exists r3. split_and!; [done|by eapply same_request_trans|auto].
Qed.

Lemma rtc_onward q q' : rtc request_step q q' -> onward q q'.
Proof. induction 1 as [q|q1 q2 q3 H12 _ IH]; [apply onward_refl|]. eapply onward_trans; [apply request_step_onward; exact H12|exact IH]. Qed.

(** ** Completions that interleave

    A completion is cut at its calls of the store.  [Login_done] is a completion
    that returned its code. *)

Record login_call := {
  lc_tenantID : string;
  lc_in : CompleteLoginInput;
  lc_random : result memory_error (list N);
  lc_clock : Time;
  lc_now : Time;
}.

Inductive login_pc :=
| Login_start
| Login_expiring (req : AuthorizationRequest)
| Login_checked (req : AuthorizationRequest)
| Login_pending (req : AuthorizationRequest)
| Login_authenticated (req : AuthorizationRequest)
| Login_attached (req : AuthorizationRequest)
| Login_issuing (req : AuthorizationRequest)
| Login_done (req : AuthorizationRequest) (code : AuthorizationCodeRecord)
| Login_failed (e : failure memory_error).

Section interleaving.
Context (url_Parse : string -> option URL).

Definition after_call {A} (r : result memory_error A * OAuthStore) (k : A -> login_pc) : login_pc * OAuthStore :=
  match r with
  | (Ok a, s) => (k a, s)
  | (Err e, s) => (Login_failed (PortError e), s)
  end.

Definition login_step (c : login_call) (pc : login_pc) (s : OAuthStore) : login_pc * OAuthStore :=
  match pc with
  | Login_start =>
      after_call (find_request (li_RequestID (lc_in c)) s) (fun o =>
        match check_login (lc_tenantID c) (lc_in c) (lc_clock c) o with
        | Login_refused e => Login_failed e
        | Login_expired req => Login_expiring req
        | Login_accepted req => Login_checked req
        end)
  | Login_expiring req => (Login_failed login_expired, (update_state (E := memory_error) (ar_ID req) AuthFlowExpired s).2)
  | Login_checked req => after_call (update_state (ar_ID req) AuthFlowAuthenticationPending s) (fun _ => Login_pending req)
  | Login_pending req => after_call (update_state (ar_ID req) AuthFlowAuthenticated s) (fun _ => Login_authenticated req)
  | Login_authenticated req =>
      after_call (attach_authentication (ar_ID req) (li_Sub (lc_in c)) (Unix (li_AuthTime (lc_in c))) (li_AMR (lc_in c))
                    (li_ACR (lc_in c)) (li_Sid (lc_in c)) s) (fun _ => Login_attached req)
  | Login_attached req => after_call (update_state (ar_ID req) AuthFlowCodeIssued s) (fun _ => Login_issuing req)
  | Login_issuing req =>
      match issue_code (S := OAuthStore) (E := memory_error) url_Parse req (lc_in c) (lc_random c) (lc_now c) s with
      | (Ok code, s', _) => (Login_done req code, s')
      | (Err e, s', _) => (Login_failed e, s')
      end
  | Login_done _ _ | Login_failed _ => (pc, s)
  end.

Fixpoint login_run (n : nat) (c : login_call) (pc : login_pc) (s : OAuthStore) : login_pc * OAuthStore :=
  match n with
  | O => (pc, s)
  | S n => let '(pc, s) := login_step c pc s in login_run n c pc s
  end.

(** Undisturbed, the steps are the use case. *)
Lemma login_run_complete c s :
  login_run 6 c Login_start s =
  match CompleteLogin (E := memory_error) url_Parse (lc_tenantID c) (lc_in c) (lc_random c) (lc_clock c) (lc_now c) s with
  | (Ok (req, code), s', _) => (Login_done req code, s')
  | (Err e, s', _) => (Login_failed e, s')
  end.
Proof.
  unfold CompleteLogin, login_request, eff_bind, call, ignore, eff_fail, eff_ret. cbn [login_run login_step].
  destruct (find_request (li_RequestID (lc_in c)) s) as [[o|e] s1]; cbn [after_call]; [|done].
  destruct (check_login _ _ _ o) as [e|req|req]; cbn [login_step after_call]; [done| |].
  { by destruct (update_state _ _ s1) as [[]]. }
  destruct (update_state _ AuthFlowAuthenticationPending s1) as [[[]|e] s2]; cbn [login_step after_call]; [|done].
  destruct (update_state _ AuthFlowAuthenticated s2) as [[[]|e] s3]; cbn [login_step after_call]; [|done].
  destruct (attach_authentication _ _ _ _ _ _ s3) as [[[]|e] s4]; cbn [login_step after_call]; [|done].
  destruct (update_state _ AuthFlowCodeIssued s4) as [[[]|e] s5]; cbn [login_step after_call]; [|done].
  destruct (issue_code _ _ _ _ _ s5) as [[[code|e] s6] w6]; done.
Qed.

Definition login_config := (gmap nat (login_call * login_pc) * OAuthStore)%type.

(** The other stores change in any way. *)
Inductive login_config_step : login_config -> login_config -> Prop :=
| login_begins i c calls s : calls !! i = None -> login_config_step (calls, s) (<[i := (c, Login_start)]> calls, s)
| login_moves i c pc calls s : calls !! i = Some (c, pc) ->
    login_config_step (calls, s) (<[i := (c, (login_step c pc s).1)]> calls, (login_step c pc s).2)
| login_others calls s s' : request_step (st_requests s) (st_requests s') -> login_config_step (calls, s) (calls, s').

Lemma login_step_request c pc s : request_step (st_requests s) (st_requests (login_step c pc s).2).
Proof.
  assert (Hq : forall {A} (op : AuthorizationRequestStore -> result store_error A * AuthorizationRequestStore) (k : A -> login_pc),
    st_requests (after_call (on_requests op s) k).2 = (op (st_requests s)).2).
  { intros A op k. unfold on_requests, after_call. by destruct (op (st_requests s)) as [[a|e] q]. }
  assert (Hu : forall id st, st_requests (on_requests (UpdateState id st) s).2 = (UpdateState id st (st_requests s)).2).
  { intros id st. unfold on_requests. by destruct (UpdateState id st (st_requests s)). }
  destruct pc as [|req|req|req|req|req|req|req code|e]; cbn [login_step snd].
  - cbn [find_request memory_authorization_port]. rewrite Hq. constructor.
  - cbn [update_state memory_request_port]. rewrite Hu. constructor.
  - cbn [update_state memory_request_port]. rewrite Hq. constructor.
  - cbn [update_state memory_request_port]. rewrite Hq. constructor.
  - cbn [attach_authentication memory_authorization_port]. rewrite Hq. constructor.
  - cbn [update_state memory_request_port]. rewrite Hq. constructor.
  - destruct (issue_code (S := OAuthStore) (E := memory_error) url_Parse req (lc_in c) (lc_random c) (lc_now c) s)
      as [[[code|e] s'] w] eqn:Hi; cbn [snd].
    + apply issue_code_Ok in Hi as (_ & -> & _). constructor.
    + revert Hi. unfold issue_code, eff_bind, lift, call, eff_ret. simpl.
      destruct (lift_port (generateOpaqueToken (lc_random c))) as [v|e1]; [|intros [= _ <- _]; constructor].
      destruct (lift_rules _) as [u|e1]; [|intros [= _ <- _]; constructor]. done.
  - constructor.
  - constructor.
Qed.

(** The request that a completion has taken, once it has moved it on. *)
Definition taken (pc : login_pc) : option AuthorizationRequest :=
  match pc with
  | Login_pending req | Login_authenticated req | Login_attached req | Login_issuing req | Login_done req _ => Some req
  | _ => None
  end.

Definition login_ok (x : login_config) : Prop :=
  keyed (st_requests x.2) /\
  (forall i c pc req, x.1 !! i = Some (c, pc) -> taken pc = Some req ->
     exists r, st_requests x.2 !! ar_ID req = Some r /\ ar_State r <> AuthFlowReceived) /\
  (forall i j c c' pc pc' req req', i <> j -> x.1 !! i = Some (c, pc) -> x.1 !! j = Some (c', pc') ->
     taken pc = Some req -> taken pc' = Some req' -> ar_ID req <> ar_ID req') /\
  (forall i c req code, x.1 !! i = Some (c, Login_done req code) -> code_AuthorizationRequestID code = ar_ID req).

(** A step either keeps what the completion has taken or takes a request that was
    in its first state. *)
Lemma login_step_taken c pc s req : taken (login_step c pc s).1 = Some req ->
  taken pc = Some req \/
  exists r, st_requests s !! ar_ID req = Some r /\ ar_State r = AuthFlowReceived /\
    exists r', st_requests (login_step c pc s).2 !! ar_ID req = Some r' /\ ar_State r' <> AuthFlowReceived.
Proof.
  destruct pc as [|r0|r0|r0|r0|r0|r0|r0 code|e]; cbn [login_step taken fst]; intros Ht; try discriminate.
  - simpl in Ht. destruct (check_login _ _ _ _); discriminate Ht.
  - right. simpl in Ht |- *. unfold on_requests in *.
    destruct (UpdateState_cases (ar_ID r0) AuthFlowAuthenticationPending (st_requests s)) as [[e He]|(r & next & Hr & Hn & Hu)].
    + rewrite He in Ht. discriminate Ht.
    + rewrite Hu in Ht |- *. simpl in Ht |- *. injection Ht as <-. exists r. split; [done|]. split; [by eapply start_from_received|].
      exists (with_state next r). split; [apply (lookup_insert_eq (M := gmap string))|]. simpl. by eapply transition_leaves.
  - left. simpl in Ht. unfold on_requests in Ht. destruct (UpdateState _ _ _) as [[?|?] ?]; simpl in Ht; [done|discriminate Ht].
  - left. simpl in Ht. unfold on_requests in Ht. destruct (AttachAuthentication _ _ _ _ _ _ _) as [[?|?] ?]; simpl in Ht; [done|discriminate Ht].
  - left. simpl in Ht. unfold on_requests in Ht. destruct (UpdateState _ _ _) as [[?|?] ?]; simpl in Ht; [done|discriminate Ht].
  - left. destruct (issue_code (S := OAuthStore) (E := memory_error) url_Parse r0 (lc_in c) (lc_random c) (lc_now c) s)
      as [[[code|e] s'] w]; [done|discriminate Ht].
  - by left.
Qed.

Lemma login_step_done c pc s req code : (login_step c pc s).1 = Login_done req code ->
  pc = Login_done req code \/ code_AuthorizationRequestID code = ar_ID req.
Proof.
  destruct pc as [|r0|r0|r0|r0|r0|r0|r0 k|e]; cbn [login_step fst]; intros Hd; try discriminate.
  - simpl in Hd. destruct (check_login _ _ _ _); discriminate Hd.
  - simpl in Hd. unfold on_requests in Hd. destruct (UpdateState _ _ _) as [[?|?] ?]; discriminate Hd.
  - simpl in Hd. unfold on_requests in Hd. destruct (UpdateState _ _ _) as [[?|?] ?]; discriminate Hd.
  - simpl in Hd. unfold on_requests in Hd. destruct (AttachAuthentication _ _ _ _ _ _ _) as [[?|?] ?]; discriminate Hd.
  - simpl in Hd. unfold on_requests in Hd. destruct (UpdateState _ _ _) as [[?|?] ?]; discriminate Hd.
  - right. destruct (issue_code (S := OAuthStore) (E := memory_error) url_Parse r0 (lc_in c) (lc_random c) (lc_now c) s)
      as [[[k|e] s'] w] eqn:Hi; [|discriminate Hd]. injection Hd as <- <-.
    by apply issue_code_Ok in Hi as (_ & _ & _ & b & _ & ->).
  - by left.
Qed.

Lemma login_config_step_ok x y : login_ok x -> login_config_step x y -> login_ok y.
Proof.
  intros (Hk & Htaken & Hone & Hdone) Hstep. destruct Hstep as [i c calls s Hnew|i c pc calls s Hi|calls s s' Hs]; unfold login_ok in *; cbn [fst snd] in *.
  - split_and!; [done| | |].
    + intros j c' pc' req [[_ [= <- <-]]|[_ Hj]]%lookup_insert_Some Ht; [discriminate Ht|]. by eapply Htaken.
    + intros j k c1 c2 pc1 pc2 r1 r2 Hjk [[_ [= <- <-]]|[_ Hj]]%lookup_insert_Some [[_ [= <- <-]]|[_ Hk2]]%lookup_insert_Some H1 H2;
        [discriminate H1|discriminate H1|discriminate H2|]. by eapply (Hone j k).
    + intros j c' req code [[_ [=]]|[_ Hj]]%lookup_insert_Some. by eapply Hdone.
  - pose proof (request_step_onward _ _ (login_step_request c pc s)) as [Hkeep Honward].
    assert (Hstay : forall req, (exists r, st_requests s !! ar_ID req = Some r /\ ar_State r <> AuthFlowReceived) ->
      exists r, st_requests (login_step c pc s).2 !! ar_ID req = Some r /\ ar_State r <> AuthFlowReceived).
    { intros req (r & Hr & Hst). destruct (Honward _ _ Hr) as (r' & Hr' & _ & Hst'). exists r'. auto. }
    assert (Hmine : forall req j c' pc' req', i <> j -> calls !! j = Some (c', pc') -> taken pc' = Some req' ->
      taken (login_step c pc s).1 = Some req -> ar_ID req <> ar_ID req').
    { intros req j c' pc' req' Hij Hj Ht' Ht. apply login_step_taken in Ht as [Ht|(r & Hr & Hst & _)].
      - by eapply (Hone i j).
      - intros Heq. destruct (Htaken _ _ _ _ Hj Ht') as (r' & Hr' & Hst'). rewrite <- Heq, Hr in Hr'. by injection Hr' as <-. }
    split_and!; [by apply Hkeep| | |].
    + intros j c' pc' req [[_ [= <- <-]]|[_ Hj]]%lookup_insert_Some Ht.
      * apply login_step_taken in Ht as [Ht|(r & _ & _ & Hr)]; [by eapply Hstay, Htaken|done].
      * by eapply Hstay, Htaken.
    + intros j k c1 c2 pc1 pc2 r1 r2 Hjk [[<- [= <- <-]]|[Hij Hj]]%lookup_insert_Some [[<- [= <- <-]]|[Hik Hk2]]%lookup_insert_Some H1 H2.
      * done.
      * by eapply (Hmine r1 k).
      * apply not_eq_sym. by eapply (Hmine r2 j).
      * by eapply (Hone j k).
    + intros j c' req code [[_ [= <- Hd]]|[_ Hj]]%lookup_insert_Some; [|by eapply Hdone].
      apply login_step_done in Hd as [->|Hd]; [by eapply Hdone|done].
  - pose proof (request_step_onward _ _ Hs) as [Hkeep Honward]. split_and!; [by apply Hkeep| |done|done].
    intros j c' pc' req Hj Ht. destruct (Htaken _ _ _ _ Hj Ht) as (r & Hr & Hst).
    destruct (Honward _ _ Hr) as (r' & Hr' & _ & Hst'). exists r'. auto.
Qed.

(** C28. Under every interleaving of the steps of any number of completed logins,
    and of whatever else is done to the requests meanwhile, an authorization
    request gives at most one code: two completions that returned codes had
    different requests. *)
Theorem one_code_per_request s calls s' i j c c' req req' code code' : keyed (st_requests s) ->
  rtc login_config_step (∅, s) (calls, s') -> i <> j ->
  calls !! i = Some (c, Login_done req code) -> calls !! j = Some (c', Login_done req' code') ->
  code_AuthorizationRequestID code <> code_AuthorizationRequestID code'.
Proof.
  intros Hk Hrun Hij Hi Hj. assert (Hok : login_ok (calls, s')).
  { assert (H0 : login_ok (∅, s)) by (split_and!; unfold fst; [done|intros; simplify_map_eq..]).
    revert H0 Hrun. generalize (∅ : gmap nat (login_call * login_pc), s) as x. intros x H0 Hrun.
    induction Hrun as [|x y z Hxy _ IH]; [done|]. apply IH. by eapply login_config_step_ok. }
  destruct Hok as (_ & _ & Hone & Hdone). rewrite (Hdone _ _ _ _ Hi), (Hdone _ _ _ _ Hj). by eapply (Hone i j).
Qed.
End interleaving.

(** ** Accepted requests *)

Section acceptance.
Context {S E C : Type} `{AuthorizationPort S E} `{!AuthorizationRequestPort S E} `{ClientView C} `{!ClientPolicyView C} `{!RedirectView C}.
Context (url_Parse : string -> option URL) (printable : N -> bool).

(** Where a client may be answered. *)
Definition redirect_accepted (client : C) (presented : string) (scopes : list string) (uri : string) : Prop :=
  (presented <> "" /\ uri = presented /\ AuthorizationRedirectURIAllowed url_Parse (client_RedirectURIs client) presented = true) \/
  (presented = "" /\ "openid" ∉ scopes /\ client_RedirectURIs client = [uri]).

(** The details are of registered types and fit them. *)
Definition details_registered (d : AuthorizeDeps E C) (tenantID : string) (details : list AuthorizationDetail) : Prop :=
  forall x, x ∈ details -> exists find ty, az_AuthzDetailTypeRepo d = Some find /\ find tenantID (detail_Type x) = Ok (Some ty) /\
    ValidateAgainstType x ty = Ok tt.

(** The resource is an active server of the tenant that has the scopes. *)
Definition resource_registered (d : AuthorizeDeps E C) (tenantID : string) (scopes : list string) (resource : option string) : Prop :=
  forall r, resource = Some r -> exists find name m, az_McpResourceServerRepo d = Some find /\ find tenantID name = Ok (Some m) /\
    mcp_IsActive m = true /\ mcp_Resource m = r /\ forall x, x ∈ scopes -> x ∈ mcp_Scopes m.

Record accepted (d : AuthorizeDeps E C) (tenantID : string) (in_ : AuthorizeRequestInput) (now : Time) (req : AuthorizationRequest)
    (client : C) : Prop := {
  acc_client : az_ClientRepo d tenantID (ai_ClientID in_) = Ok (Some client);
  acc_grant : GrantAuthorizationCode ∈ client_GrantTypes client;
  acc_par : client_MustUsePushedAuthorizationRequests client = true -> ai_ParUsed in_ = true;
  acc_challenge : ai_CodeChallenge in_ <> "" /\ ai_CodeChallengeMethod in_ = "S256" /\ ai_ResponseType in_ = "code";
  acc_scopes : forall x, x ∈ Fields (defaultScope (ai_Scope in_)) -> x ∈ Fields (client_Scope client);
  acc_redirect : redirect_accepted client (ai_RedirectURI in_) (Fields (defaultScope (ai_Scope in_))) (ar_RedirectURI req);
  acc_details : details_registered d tenantID (ar_AuthorizationDetails req);
  acc_resource : resource_registered d tenantID (Fields (defaultScope (ai_Scope in_))) (ar_Resource req);
  acc_record : exists id prompt, req = new_request tenantID id in_ (ar_RedirectURI req) prompt (Fields (defaultScope (ai_Scope in_)))
                 (ar_AuthorizationDetails req) (ar_Resource req) now /\
               (ai_Prompt in_ = "" /\ prompt = "" \/
                exists p, ParsePromptTokens printable (ai_Prompt in_) = Ok p /\ prompt = Canonical p);
  acc_valid : AuthorizationRequest_Validate url_Parse req = Ok tt;
}.

Lemma ResolveResourceIndicator_Ok (repo : option (string -> string -> result E (option McpResourceServer))) tenantID resources scopes m :
  ResolveResourceIndicator repo tenantID resources scopes = Ok (Some m) ->
  exists find name, repo = Some find /\ find tenantID name = Ok (Some m) /\ mcp_IsActive m = true /\ forall x, x ∈ scopes -> x ∈ mcp_Scopes m.
Proof.
  unfold ResolveResourceIndicator. destruct (indicator_values resources) as [|r [|? ?]]; [done| |done].
  destruct repo as [find|]; [|done]. destruct (find tenantID r) as [[m'|]|e] eqn:Hf; [|done|done]. simpl.
  destruct (mcp_IsActive m') eqn:Ha; [|done]. simpl. destruct (forallb _ scopes) eqn:Hs; [|done]. simpl. intros [= ->].
  exists find, r. split_and!; [done..|]. intros x Hx. rewrite forallb_forall in Hs. apply list_elem_of_In in Hx. by apply contains_true, Hs.
Qed.

Lemma authorize_client_Ok (d : AuthorizeDeps E C) tenantID in_ scopes client uri prompt :
  authorize_client url_Parse printable d tenantID in_ scopes = Ok (client, uri, prompt) ->
  az_ClientRepo d tenantID (ai_ClientID in_) = Ok (Some client) /\ redirect_accepted client (ai_RedirectURI in_) scopes uri /\
  GrantAuthorizationCode ∈ client_GrantTypes client /\ (forall x, x ∈ scopes -> x ∈ Fields (client_Scope client)) /\
  (client_MustUsePushedAuthorizationRequests client = true -> ai_ParUsed in_ = true) /\
  (ai_Prompt in_ = "" /\ prompt = "" \/ exists p, ParsePromptTokens printable (ai_Prompt in_) = Ok p /\ prompt = Canonical p).
Proof.
  unfold authorize_client. destruct (az_ClientRepo d tenantID (ai_ClientID in_)) as [[c|]|e]; [|done|done]. simpl.
  destruct (ResolveRedirectURI _ _ _ _) as [u|e] eqn:Hu; [|done].
  destruct (contains (client_GrantTypes c) _) eqn:Hg; [|done]. simpl. destruct (forallb _ scopes) eqn:Hs; [|done]. simpl.
  destruct (_ && _)%bool eqn:Hp; [done|].
  assert (Hred : redirect_accepted c (ai_RedirectURI in_) scopes u).
  { unfold ResolveRedirectURI in Hu. destruct (ai_RedirectURI in_ =? "") eqn:He; simpl in Hu.
    - destruct (contains scopes "openid") eqn:Ho; [done|]. destruct (client_RedirectURIs c) as [|only [|? ?]] eqn:Hc; [done| |done].
      injection Hu as <-. right. go_bool. done.
    - destruct (AuthorizationRedirectURIAllowed _ _ _) eqn:Ha; [|done]. injection Hu as <-. left. go_bool. done. }
  assert (Hscopes : forall x, x ∈ scopes -> x ∈ Fields (client_Scope c)).
  { intros x Hx. rewrite forallb_forall in Hs. apply list_elem_of_In in Hx. by apply contains_true, Hs. }
  assert (Hpar : client_MustUsePushedAuthorizationRequests c = true -> ai_ParUsed in_ = true).
  { intros Hm. rewrite Hm in Hp. by destruct (ai_ParUsed in_). }
  apply contains_true in Hg. destruct (ai_Prompt in_ =? "") eqn:Hpr; go_bool.
  - intros [= <- <- <-]. split_and!; try done. by left.
  - destruct (ParsePromptTokens printable (ai_Prompt in_)) as [p|e]; [|done]. intros [= <- <- <-]. split_and!; try done. right. by exists p.
Qed.

Lemma Authorize_Ok (d : AuthorizeDeps E C) tenantID in_ id clock now (s : S) req client s' w :
  Authorize url_Parse printable d tenantID in_ id clock now s = (Ok (req, client), s', w) ->
  accepted d tenantID in_ now req client /\ save_request req s = (Ok tt, s').
Proof.
  unfold Authorize. destruct (ai_ClientID in_ =? "") eqn:H1; [done|]. destruct (ai_ResponseType in_ <>? "code") eqn:H2; [done|].
  destruct (ai_CodeChallenge in_ =? "") eqn:H3; [done|]. destruct (ai_CodeChallengeMethod in_ <>? "S256") eqn:H4; [done|].
  intros ([[c uri] prompt] & s1 & w1 & w2 & Hc & Hrun & _)%eff_bind_Ok. unfold lift in Hc.
  destruct (authorize_client _ _ d tenantID in_ _) as [x|e] eqn:Hx; [|done]. injection Hc as -> <- _.
  apply authorize_client_Ok in Hx as (Hclient & Hred & Hgrant & Hscopes & Hpar & Hprompt).
  apply eff_bind_Ok in Hrun as (details & s2 & w3 & w4 & Hd & Hrun & _). unfold acceptAuthorizationDetails in Hd.
  destruct (ParseAuthorizationDetails _ _) as [ds|e]; [|done]. simpl in Hd.
  destruct (ValidateAuthorizationDetails _ tenantID ds) as [[]|e] eqn:Hv; [|done]. simpl in Hd. injection Hd as <- <- _.
  apply eff_bind_Ok in Hrun as (mcp & s3 & w5 & w6 & Hm & Hrun & _). unfold resource_indicator in Hm.
  destruct (ResolveResourceIndicator _ _ _ _) as [m|e] eqn:Hres; [|done]. injection Hm as <- <- _.
  apply eff_bind_Ok in Hrun as (i & s4 & w7 & w8 & Hi & Hrun & _). unfold lift in Hi.
  destruct id as [i'|e]; [|done]. simpl in Hi. injection Hi as -> <- _.
  destruct (AuthorizationRequest_Validate url_Parse _) as [[]|e] eqn:Hval; [|done].
  apply eff_bind_Ok in Hrun as ([] & s5 & w9 & w10 & Hsave & Hrun & _). unfold call in Hsave.
  destruct (save_request _ s) as [[[]|e] t] eqn:Hst; [|done]. injection Hsave as -> _.
  unfold eff_ret in Hrun. injection Hrun as <- <- <- _. split; [|done]. go_bool. constructor; try done.
  - intros x Hx. by eapply ValidateAuthorizationDetails_Ok.
  - intros r Hr. simpl in Hr. destruct m as [m|]; [|done]. injection Hr as <-.
    apply ResolveResourceIndicator_Ok in Hres as (find & name & ? & ? & ? & ?). by exists find, name, m.
  - exists i, prompt. by split.
Qed.
End acceptance.

(** ** The flow from the request to the token *)

Section flow.
Context {C U : Type} `{ClientView C} `{!ClientPolicyView C} `{!RedirectView C} `{UserView U}.
Context (url_Parse : string -> option URL) (printable : N -> bool).

(** The request that a completion finds is the one that was accepted. *)
Lemma completed_accepted (d : AuthorizeDeps memory_error C) tenantID in_ id clock now s1 req client s2 w1 s3 tenant2 in2 random clock2 now2 r
    code s4 w2 : keyed (st_requests s1) -> tenantID <> "" ->
  Authorize url_Parse printable d tenantID in_ id clock now s1 = (Ok (req, client), s2, w1) ->
  rtc request_step (st_requests s2) (st_requests s3) -> li_RequestID in2 = ar_ID req ->
  CompleteLogin url_Parse tenant2 in2 random clock2 now2 s3 = (Ok (r, code), s4, w2) ->
  accepted url_Parse printable d tenantID in_ now req client /\ same_request req r /\ ar_TenantID r = tenant2 /\
  (clock2 <= ar_ExpiresAt req)%Z /\ exists value, code = new_code value r in2 now2.
Proof.
  intros Hk Ht (Hacc & Hsave)%Authorize_Ok Hsteps Hid Hlogin. simpl in Hsave. unfold on_requests in Hsave. injection Hsave as <-.
  set (stored := request_with (DefaultScope (ar_TenantID req) DefaultTenantID) (ar_State req) (ar_UserID req) (ar_AuthTime req)
                   (ar_AMR req) (ar_ACR req) (ar_Sid req) req) in *.
  apply rtc_onward in Hsteps as [Hkeep Honward].
  assert (Hstored : forall q : gmap string AuthorizationRequest, request_Save req q !! ar_ID req = Some stored)
    by (intros q; apply (lookup_insert_eq (M := gmap string))).
  destruct (Honward (ar_ID req) stored (Hstored _)) as (r3 & Hr3 & Hsame & _).
  assert (Hk3 : requests_keyed s3).
  { by apply Hkeep, keyed_Save. }
  apply CompleteLogin_Ok in Hlogin as (Hr & Htr & Hexp & _ & (b & _ & Hcode) & _); [|done].
  rewrite Hid in Hr. assert (r = r3) as -> by (apply (inj Some); etransitivity; [symmetry; exact Hr|exact Hr3]).
  assert (Hs : same_request req r3) by (eapply same_request_trans; [apply moved_same_request|exact Hsame]).
  split_and!; [done|done|done| |by eexists]. destruct Hs as (?&?&?&?&?&?&?&->). exact Hexp.
Qed.

(** C27. A token that comes out of a code was asked for by the client that
    exchanges it.  When [Authorize] accepted a request, the login for it was
    completed, whatever else happened to the stored request in between, and the
    code is then exchanged: the request passed every check; its address is
    registered for the client and is the one that the exchange names, unless the
    request named none; the verifier hashes to the challenge of the request; the
    code was made within ten minutes of the request and exchanged within a minute,
    and carries the user who logged in with exactly the scopes, the details and the
    resource of the request. *)
Theorem authorization_code_flow (d : AuthorizeDeps memory_error C) (d2 : ExchangeCodeDeps memory_error C U) tenantID in_ id clock now s1 req
    client s2 w1 s3 tenant2 in2 random clock2 now2 r code s4 w2 s5 tenant state redeemed family tenant3 in3 now3 draws out s6 w3 :
  keyed (st_requests s1) -> tenantID <> "" ->
  Authorize url_Parse printable d tenantID in_ id clock now s1 = (Ok (req, client), s2, w1) ->
  rtc request_step (st_requests s2) (st_requests s3) -> li_RequestID in2 = ar_ID req ->
  CompleteLogin url_Parse tenant2 in2 random clock2 now2 s3 = (Ok (r, code), s4, w2) ->
  st_codes s5 !! code_Code code = Some (code_with tenant state redeemed family code) -> ei_Code in3 = code_Code code ->
  ExchangeCodeForToken d2 tenant3 in3 now3 draws s5 = (Ok out, s6, w3) ->
  accepted url_Parse printable d tenantID in_ now req client /\
  ei_ClientID in3 = ai_ClientID in_ /\ VerifyPKCES256 (ei_CodeVerifier in3) (ai_CodeChallenge in_) = true /\
  (ei_RedirectURI in3 = ar_RedirectURI req \/ (ei_RedirectURI in3 = "" /\ ai_RedirectURI in_ = "")) /\
  (clock2 <= now + 600 * Second)%Z /\ (now3 < now2 + 60 * Second)%Z /\
  code_UserID code = li_Sub in2 /\ code_Scopes code = Fields (defaultScope (ai_Scope in_)) /\
  code_AuthorizationDetails code = ar_AuthorizationDetails req /\ code_Resource code = ar_Resource req.
Proof.
  intros Hk Ht Hauth Hsteps Hid Hlogin Hstored Hcode Hex.
  destruct (completed_accepted _ _ _ _ _ _ _ _ _ _ _ _ _ _ _ _ _ _ _ _ _ Hk Ht Hauth Hsteps Hid Hlogin) as (Hacc & Hsame & _ & Hexp & value & ->).
  unfold ExchangeCodeForToken in Hex. apply eff_bind_Ok in Hex as ([[rec cl] user] & s & ? & ? & Hchecks & _ & _).
  apply exchange_checks_Ok in Hchecks as (_ & _ & _ & Hrec & Hexch & _). rewrite Hcode, Hstored in Hrec. injection Hrec as <-.
  destruct (acc_record _ _ _ _ _ _ _ _ Hacc) as (i & prompt & Hreq & _). destruct Hsame as (?&?&?&?&?&?&?&->).
  destruct Hexch as [_ _ Hfresh Hclient Hredirect Hpkce _]. simpl in *. rewrite Hreq in Hclient, Hpkce, Hexp.
  rewrite Hreq at 3. simpl in *. split_and!; try done.
  - apply bool_decide_eq_true. exact Hpkce.
  - destruct Hredirect as [->|[? Hom]]; [by left|]. right. split; [done|]. rewrite Hreq in Hom. simpl in Hom. by go_bool.
  - apply Fields_Join_Fields.
Qed.
End flow.

(** ** Examples *)

#[local] Instance az_client : ClientView string := {| client_ClientID c := c; client_GrantTypes _ := [GrantAuthorizationCode] |}.
#[local] Instance az_client_policy : ClientPolicyView string :=
  {| client_ClientType _ := ClientPublic; client_Scope _ := "openid mail" |}.
#[local] Instance az_client_redirects : RedirectView string :=
  {| client_RedirectURIs _ := ["http://127.0.0.1/cb"]; client_MustUsePushedAuthorizationRequests _ := false |}.
#[local] Instance az_user : UserView string := {| user_ID u := u; user_TenantID _ := "acme"; user_IsActive _ := true |}.

(** A parser that knows the loopback address with its ports. *)
Definition az_parse (raw : string) : option URL :=
  match CutPrefix raw "http://" with
  | Some text => let '(host, path) := span_any text "/" in
                 Some {| url_Scheme := "http"; url_Opaque := ""; url_User := None; url_Host := host; url_Path := path; url_Fragment := "" |}
  | None => None
  end.

Definition az_deps : AuthorizeDeps memory_error string :=
  {| az_ClientRepo _ c := Ok (Some c); az_AuthzDetailTypeRepo := None; az_McpResourceServerRepo := None; az_unmarshal _ := None |}.

Definition az_challenge : string := Eval vm_compute in EncodeToString (sha256_string "verifier").

Definition az_input : AuthorizeRequestInput :=
  {| ai_ClientID := "app"; ai_RedirectURI := "http://127.0.0.1:49152/cb"; ai_ResponseType := "code"; ai_Scope := "openid  mail";
     ai_StateParam := "xyz"; ai_Nonce := ""; ai_CodeChallenge := az_challenge; ai_CodeChallengeMethod := "S256";
     ai_Prompt := "consent login"; ai_MaxAge := None; ai_ACRValues := ""; ai_ParUsed := false; ai_ParRequestURI := "";
     ai_AuthorizationDetailsRaw := ""; ai_Resource := [] |}.

Definition az_id (n : string) : string := "00000000-0000-4000-8000-00000000000" ++ n.

Definition az_store : OAuthStore :=
  {| st_codes := ∅; st_requests := ∅; st_refresh := NewRefreshTokenStore; st_sessions := ∅ |}.

Definition az_first := Authorize az_parse (fun _ => true) az_deps "acme" az_input (Ok (az_id "1")) (demo_at 100) (demo_at 100) az_store.

Definition az_login (n : string) : CompleteLoginInput :=
  {| li_RequestID := az_id n; li_Sub := "alice"; li_AuthTime := demo_at 90; li_AMR := ["pwd"]; li_ACR := ""; li_Sid := "sid" |}.

Definition az_code := CompleteLogin az_parse "acme" (az_login "1") (Ok [1%N; 2%N; 3%N]) (demo_at 110) (demo_at 110) az_first.1.2.

Definition az_code_value : string := Eval vm_compute in EncodeToString (string_of_bytes [1%N; 2%N; 3%N]).

Definition az_exchange_deps : ExchangeCodeDeps memory_error string string :=
  {| ex_ClientRepo _ c := Ok (Some c); ex_UserRepo u := Ok (Some u); has_RequestStore := true; has_RefreshStore := false;
     has_ClientSessionStore := true;
     ex_SignAccessToken _ := Ok ("at", "jti"); ex_SignIDToken _ := Ok "idt"; ex_AccessTokenTTLSeconds := 300 |}.

Definition az_token_request : ExchangeCodeInput :=
  {| ei_ClientID := "app"; ei_Code := az_code_value; ei_CodeVerifier := "verifier"; ei_RedirectURI := "http://127.0.0.1:49152/cb";
     ei_DpopJKT := ""; ei_MTLSX5TS256 := ""; ei_Resource := [] |}.

Definition az_request : AuthorizationRequest := Eval vm_compute in
  match az_first.1.1 with Ok p => p.1 | Err _ => new_request "" "" az_input "" "" [] [] None 0%Z end.
Definition az_issued : AuthorizationCodeRecord := Eval vm_compute in
  match az_code.1.1 with Ok p => p.2 | Err _ => new_code "" az_request (az_login "1") 0%Z end.

Lemma az_first_run : az_first = (Ok (az_request, "app"), az_first.1.2, az_first.2).
Proof. vm_compute. reflexivity. Qed.

Lemma az_code_run : az_code = (Ok (az_request, az_issued), az_code.1.2, az_code.2).
Proof. vm_compute. reflexivity. Qed.

Definition az_exchange :=
  ExchangeCodeForToken az_exchange_deps "acme" az_token_request (demo_at 120) (Ok (draws_of 1 "1" "f")) az_code.1.2.
Definition az_output : ExchangeCodeOutput :=
  {| eo_AccessToken := "at"; eo_IDToken := "idt"; eo_RefreshToken := ""; eo_TokenType := "Bearer"; eo_ExpiresIn := 300;
     eo_Scope := "openid mail" |}.

Lemma az_exchange_run : az_exchange = (Ok az_output, az_exchange.1.2, az_exchange.2).
Proof. vm_compute. reflexivity. Qed.

Lemma authorization_code_flow_witness :
  VerifyPKCES256 "verifier" az_challenge = true /\ code_Scopes az_issued = ["openid"; "mail"] /\ ar_RedirectURI az_request = "http://127.0.0.1:49152/cb".
Proof.
  destruct (authorization_code_flow az_parse (fun _ => true) az_deps az_exchange_deps "acme" az_input (Ok (az_id "1")) (demo_at 100)
    (demo_at 100) az_store az_request "app" az_first.1.2 az_first.2 az_first.1.2 "acme" (az_login "1") (Ok [1%N; 2%N; 3%N]) (demo_at 110)
    (demo_at 110) az_request az_issued az_code.1.2 az_code.2 az_code.1.2 "acme" AuthCodeRecordIssued None None "acme" az_token_request
    (demo_at 120) (Ok (draws_of 1 "1" "f")) az_output az_exchange.1.2 az_exchange.2) as (_ & _ & Hp & _ & _ & _ & _ & Hs & _).
  - apply keyed_empty.
  - discriminate.
  - exact az_first_run.
  - apply rtc_refl.
  - reflexivity.
  - exact az_code_run.
  - vm_compute. reflexivity.
  - reflexivity.
  - exact az_exchange_run.
  - split; [exact Hp|]. split; [exact Hs|reflexivity].
Defined.

(** Two requests and two logins, step by step in turn. *)
Definition az_second := Authorize az_parse (fun _ => true) az_deps "acme" az_input (Ok (az_id "2")) (demo_at 100) (demo_at 100) az_first.1.2.

Definition az_request2 : AuthorizationRequest := Eval vm_compute in
  match az_second.1.1 with Ok p => p.1 | Err _ => az_request end.

Definition az_call (n : string) (b : N) : login_call :=
  {| lc_tenantID := "acme"; lc_in := az_login n; lc_random := Ok [b]; lc_clock := demo_at 110; lc_now := demo_at 110 |}.

(** A schedule: the completion with this number takes a step. *)
Fixpoint schedule (l : list nat) (x : login_config) : login_config :=
  match l with
  | [] => x
  | i :: l =>
      match x.1 !! i with
      | Some (c, pc) => schedule l (<[i := (c, (login_step az_parse c pc x.2).1)]> x.1, (login_step az_parse c pc x.2).2)
      | None => schedule l x
      end
  end.

Lemma schedule_steps l x : rtc (login_config_step az_parse) x (schedule l x).
Proof.
  revert x. induction l as [|i l IH]; intros [calls s]; cbn [schedule fst snd]; [apply rtc_refl|].
  destruct (calls !! i) as [[c pc]|] eqn:Hi; [|apply IH]. eapply rtc_l; [by apply login_moves|apply IH].
Qed.

Definition az_calls : login_config :=
  (<[1%nat := (az_call "2" 2, Login_start)]> (<[0%nat := (az_call "1" 1, Login_start)]> ∅), az_second.1.2).
Definition az_end : login_config := schedule [0; 1; 1; 0; 1; 0; 0; 1; 0; 1; 1; 0]%nat az_calls.

Definition az_record (n : string) (b : N) : AuthorizationRequest * AuthorizationCodeRecord :=
  match CompleteLogin (E := memory_error) az_parse "acme" (az_login n) (Ok [b]) (demo_at 110) (demo_at 110) az_second.1.2 with
  | (Ok p, _, _) => p
  | _ => (az_request, az_issued)
  end.

Lemma one_code_per_request_witness :
  code_AuthorizationRequestID (az_record "1" 1).2 <> code_AuthorizationRequestID (az_record "2" 2).2.
Proof.
  apply (one_code_per_request az_parse az_second.1.2 az_end.1 az_end.2 0 1 (az_call "1" 1) (az_call "2" 2)
    (az_record "1" 1).1 (az_record "2" 2).1).
  - assert (st_requests az_second.1.2 = request_Save az_request2 (request_Save az_request ∅)) as -> by (vm_compute; reflexivity).
    apply keyed_Save, keyed_Save, keyed_empty.
  - eapply rtc_l; [by apply (login_begins _ 0 (az_call "1" 1))|]. eapply rtc_l; [by apply (login_begins _ 1 (az_call "2" 2))|].
    rewrite <- surjective_pairing. exact (schedule_steps _ az_calls).
  - discriminate.
  - vm_compute. reflexivity.
  - vm_compute. reflexivity.
Defined.
