(* ===== verification/Netip.v ===== *)
(** * Addresses and networks

    What the code uses of [net/netip]: an address is a number of 128 bits, an IPv4
    address the one of its IPv4-mapped IPv6 form, with the family beside it; a
    prefix is an address and a count of bits.  Reading them from text is a parameter
    of the definitions that do so.

    The theorem: the comparison of bits is membership in an interval of addresses. *)

From Stdlib Require Import String ZArith Lia.
From stdpp Require Import base strings list.
From S2P Require Import Prelude.

Local Open Scope Z_scope.

Inductive family := V4 | V6.

Record Addr := { ip_family : family; ip_addr : Z; ip_Zone : string }.

Definition mapped_prefix : Z := Z.shiftl 65535 32.

(** [Addr.BitLen], [Addr.Is4In6], [Addr.Unmap]. *)
Definition BitLen (f : family) : Z := match f with V4 => 32 | V6 => 128 end.
Definition Is4In6 (ip : Addr) : bool :=
  match ip_family ip with V6 => Z.eqb (Z.shiftr (ip_addr ip) 32) 65535 | V4 => false end.
Definition Unmap (ip : Addr) : Addr :=
  if Is4In6 ip then {| ip_family := V4; ip_addr := ip_addr ip; ip_Zone := "" |} else ip.

(** The mask of the first [n] of 128 bits. *)
Definition mask6 (n : Z) : Z := Z.shiftl (Z.ones n) (128 - n).

(** A prefix; [-1] bits are those of an invalid one. *)
Record Prefix := { px_ip : Addr; px_Bits : Z }.

Definition withoutZone (ip : Addr) : Addr := {| ip_family := ip_family ip; ip_addr := ip_addr ip; ip_Zone := "" |}.

Definition PrefixFrom (ip : Addr) (bits : Z) : Prefix :=
  {| px_ip := withoutZone ip; px_Bits := if (0 <=? bits) && (bits <=? BitLen (ip_family ip)) then bits else -1 |}.

Definition effective_bits (f : family) (bits : Z) : Z := match f with V4 => bits + 96 | V6 => bits end.

(** [Prefix.Masked] of a valid prefix. *)
Definition Masked (p : Prefix) : Prefix :=
  let ip := px_ip p in
  PrefixFrom {| ip_family := ip_family ip; ip_addr := Z.land (ip_addr ip) (mask6 (effective_bits (ip_family ip) (px_Bits p))); ip_Zone := "" |}
    (px_Bits p).

Definition lo (z : Z) : Z := Z.land z (Z.ones 64).

Definition Contains (p : Prefix) (ip : Addr) : bool :=
  if (px_Bits p <? 0) || negb (String.eqb (ip_Zone ip) "") then false
  else match ip_family (px_ip p), ip_family ip with
       | V4, V4 => Z.eqb (Z.land (Z.shiftr (Z.lxor (lo (ip_addr ip)) (lo (ip_addr (px_ip p)))) (32 - px_Bits p)) (Z.ones 32)) 0
       | V6, V6 => Z.eqb (Z.land (Z.lxor (ip_addr ip) (ip_addr (px_ip p))) (mask6 (px_Bits p))) 0
       | _, _ => false
       end.

(** ** Networks as intervals *)

(** An address as the parser makes it. *)
Definition addr_ok (ip : Addr) : Prop :=
  0 <= ip_addr ip < 2 ^ 128 /\ (ip_family ip = V4 -> Z.shiftr (ip_addr ip) 32 = 65535 /\ ip_Zone ip = "").
Definition prefix_ok (p : Prefix) : Prop :=
  addr_ok (px_ip p) /\ ip_Zone (px_ip p) = "" /\ 0 <= px_Bits p <= BitLen (ip_family (px_ip p)).

Definition is_mapped (z : Z) : bool := Z.eqb (Z.shiftr z 32) 65535.

(** The first address of the network of a prefix, and how many there are. *)
Definition host_bits (p : Prefix) : Z := BitLen (ip_family (px_ip p)) - px_Bits p.
Definition network_base (p : Prefix) : Z := ip_addr (px_ip p) / 2 ^ host_bits p * 2 ^ host_bits p.
Definition network_size (p : Prefix) : Z := 2 ^ host_bits p.

Definition in_network (z : Z) (p : Prefix) : Prop := network_base p <= z < network_base p + network_size p.

Lemma land_mask x n : 0 <= x < 2 ^ 128 -> 0 <= n <= 128 -> Z.land x (mask6 n) = x / 2 ^ (128 - n) * 2 ^ (128 - n).
Proof.
  intros Hx Hn. unfold mask6. rewrite <- Z.shiftr_div_pow2, <- Z.shiftl_mul_pow2 by lia. apply Z.bits_inj'. intros i Hi.
  rewrite Z.land_spec, !Z.shiftl_spec by done. destruct (Z.ltb_spec i (128 - n)).
  - rewrite !(Z.testbit_neg_r _ (i - (128 - n))) by lia. apply andb_false_r.
  - rewrite Z.shiftr_spec by lia. replace (i - (128 - n) + (128 - n)) with i by lia.
    destruct (Z.ltb_spec i 128).
    + rewrite Z.ones_spec_low by lia. apply andb_true_r.
    + assert (Hb : Z.testbit x i = false); [|by rewrite Hb].
      destruct (decide (x = 0)) as [->|]; [apply Z.bits_0|]. apply Z.bits_above_log2; [lia|].
      apply Z.log2_lt_pow2; [lia|]. apply Z.lt_le_trans with (2 ^ 128); [lia|]. apply Z.pow_le_mono_r; lia.
Qed.

(** Equal quotients are equal intervals. *)
Lemma div_interval x y k : 0 <= k -> x / 2 ^ k = y / 2 ^ k <-> y / 2 ^ k * 2 ^ k <= x < y / 2 ^ k * 2 ^ k + 2 ^ k.
Proof.
  intros Hk. assert (Hp : 0 < 2 ^ k) by (by apply Z.pow_pos_nonneg). pose proof (Z.div_mod x (2 ^ k) ltac:(lia)).
  pose proof (Z.mod_pos_bound x (2 ^ k) Hp). split; [intros <-; nia|]. intros H1. nia.
Qed.

Lemma masked_xor x y n : 0 <= x < 2 ^ 128 -> 0 <= y < 2 ^ 128 -> 0 <= n <= 128 ->
  Z.land (Z.lxor x y) (mask6 n) = 0 <-> x / 2 ^ (128 - n) = y / 2 ^ (128 - n).
Proof.
  intros Hx Hy Hn. assert (Hxy : 0 <= Z.lxor x y < 2 ^ 128).
  { split; [apply Z.lxor_nonneg; lia|]. destruct (decide (Z.lxor x y = 0)) as [->|]; [lia|]. apply Z.log2_lt_pow2; [|].
    - assert (0 <= Z.lxor x y) by (apply Z.lxor_nonneg; lia). lia.
    - pose proof (Z.log2_lxor x y ltac:(lia) ltac:(lia)).
      assert (Hl : forall z, 0 <= z < 2 ^ 128 -> Z.log2 z < 128).
      { intros z Hz. destruct (decide (z = 0)) as [->|]; [done|]. apply Z.log2_lt_pow2; lia. }
      pose proof (Hl x Hx). pose proof (Hl y Hy). lia. }
  rewrite (land_mask _ _ Hxy Hn), <- !Z.shiftr_div_pow2, Z.shiftr_lxor by lia.
  assert (Hp : 0 < 2 ^ (128 - n)) by (apply Z.pow_pos_nonneg; lia).
  rewrite <- (Z.lxor_eq_0_iff (Z.shiftr x _)). split; [|by intros ->]. intros [?|?]%Z.mul_eq_0; [done|lia].
Qed.

Lemma shiftr_base x h n : 0 <= h <= n -> Z.shiftr (x / 2 ^ h * 2 ^ h) n = Z.shiftr x n.
Proof.
  intros Hh. rewrite <- (Z.shiftr_div_pow2 x h), <- (Z.shiftl_mul_pow2 _ h) by lia. apply Z.bits_inj'. intros i Hi.
  rewrite Z.shiftr_spec, Z.shiftl_spec, Z.shiftr_spec, Z.shiftr_spec by lia. f_equal. lia.
Qed.

(** ** The comparison of bits *)

Lemma Masked_ok p : prefix_ok p -> prefix_ok (Masked p) /\ px_Bits (Masked p) = px_Bits p /\
  ip_family (px_ip (Masked p)) = ip_family (px_ip p) /\ ip_addr (px_ip (Masked p)) = network_base p.
Proof.
  intros ((Hr & H4) & _ & Hb). set (f := ip_family (px_ip p)) in *.
  assert (Hf : 0 <= effective_bits f (px_Bits p) <= 128 /\ 128 - effective_bits f (px_Bits p) = BitLen f - px_Bits p)
    by (destruct f; simpl in *; lia).
  destruct Hf as [Hf He]. unfold Masked, PrefixFrom, withoutZone. cbn [px_Bits px_ip ip_family ip_addr]. fold f.
  assert (Hbits : (0 <=? px_Bits p) && (px_Bits p <=? BitLen f) = true) by (apply andb_true_iff; split; apply Z.leb_le; lia).
  rewrite Hbits, (land_mask _ _ Hr Hf), He. fold (host_bits p). fold (network_base p). split; [|done].
  split; [|by split]. cbn [px_ip px_Bits ip_family ip_addr ip_Zone]. split.
  - unfold addr_ok, network_base. cbn [ip_addr]. assert (0 < 2 ^ host_bits p) by (apply Z.pow_pos_nonneg; unfold host_bits; fold f; lia).
    assert (Hle : 2 ^ host_bits p * (ip_addr (px_ip p) / 2 ^ host_bits p) <= ip_addr (px_ip p)) by (by apply Z.mul_div_le).
    assert (0 <= ip_addr (px_ip p) / 2 ^ host_bits p) by (apply Z.div_pos; [apply Hr|done]).
    destruct Hr as [Hr1 Hr2]. rewrite (Z.mul_comm (_ / _)). split; [apply Z.mul_nonneg_nonneg; [by apply Z.lt_le_incl|done]|by eapply Z.le_lt_trans].
  - cbn [ip_family ip_addr ip_Zone]. intros Hv. split; [|done]. destruct (H4 Hv) as [Hm _]. rewrite <- Hm.
    assert (Hh : 0 <= host_bits p <= 32) by (unfold host_bits; fold f; rewrite Hv in *; simpl in *; lia).
    unfold network_base. by apply shiftr_base.
Qed.

Lemma div_base x h : 0 <= h -> x / 2 ^ h * 2 ^ h / 2 ^ h = x / 2 ^ h.
Proof. intros Hh. apply Z.div_mul. apply Z.pow_nonzero; lia. Qed.

Lemma in_network_div z p : 0 <= host_bits p -> in_network z p <-> z / 2 ^ host_bits p = ip_addr (px_ip p) / 2 ^ host_bits p.
Proof. intros Hh. unfold in_network, network_base, network_size. by rewrite div_interval. Qed.

Lemma mapped_small x : 0 <= x < 2 ^ 128 -> Z.shiftr x 32 = 65535 -> 65535 * 2 ^ 32 <= x < 65536 * 2 ^ 32.
Proof.
  intros Hx. rewrite Z.shiftr_div_pow2 by done. intros Hd. pose proof (Z.div_mod x (2 ^ 32) ltac:(done)).
  pose proof (Z.mod_pos_bound x (2 ^ 32) ltac:(done)). lia.
Qed.

Lemma lo_small x : 0 <= x < 65536 * 2 ^ 32 -> lo x = x.
Proof. intros Hx. unfold lo. rewrite Z.land_ones, Z.mod_small by lia. done. Qed.

Lemma low_xor x y k : 0 <= x < 2 ^ 128 -> 0 <= y < 2 ^ 128 -> Z.shiftr x 32 = 65535 -> Z.shiftr y 32 = 65535 -> 0 <= k ->
  Z.land (Z.shiftr (Z.lxor (lo x) (lo y)) k) (Z.ones 32) = 0 <-> x / 2 ^ k = y / 2 ^ k.
Proof.
  intros Hx Hy Mx My Hk. pose proof (mapped_small x Hx Mx). pose proof (mapped_small y Hy My). rewrite !lo_small by lia.
  set (d := Z.lxor x y). assert (Hd0 : 0 <= d) by (apply Z.lxor_nonneg; lia).
  assert (Hd : d < 2 ^ 32).
  { assert (Hs : Z.shiftr d 32 = 0) by (unfold d; by rewrite Z.shiftr_lxor, Mx, My). rewrite Z.shiftr_div_pow2 in Hs by done.
    apply Z.div_small_iff in Hs; [lia|done]. }
  assert (Hsh : 0 <= Z.shiftr d k < 2 ^ 32).
  { split; [by apply Z.shiftr_nonneg|]. rewrite Z.shiftr_div_pow2 by done. assert (Hp : 0 < 2 ^ k) by (by apply Z.pow_pos_nonneg).
    eapply Z.le_lt_trans; [|exact Hd]. apply Z.div_le_upper_bound; [done|]. nia. }
  rewrite Z.land_ones, Z.mod_small by lia. rewrite <- !Z.shiftr_div_pow2 by done. unfold d. rewrite Z.shiftr_lxor.
  apply Z.lxor_eq_0_iff.
Qed.

Lemma Contains_exact p ip : prefix_ok p -> addr_ok ip -> ip_Zone ip = "" ->
  Contains p ip = true <-> ip_family (px_ip p) = ip_family ip /\ in_network (ip_addr ip) p.
Proof.
  intros ((Hr & H4) & _ & Hb) (Hi & Hi4) Hz. unfold Contains. rewrite Hz.
  assert (Hneg : (px_Bits p <? 0) = false) by (apply Z.ltb_ge; lia). rewrite Hneg. cbn [orb negb].
  change (negb (String.eqb "" "")) with false. cbn iota.
  rewrite in_network_div by (unfold host_bits; lia). unfold host_bits.
  destruct (ip_family (px_ip p)) eqn:Hf, (ip_family ip) eqn:Hg; cbn [BitLen] in *; rewrite ?Z.eqb_eq; try (split; [done|by intros [? _]]).
  - rewrite low_xor; [tauto|done|done|by apply Hi4|by apply H4|lia].
  - rewrite masked_xor by lia. tauto.
Qed.

(** ** Clients and their networks *)

(** The prefix that the address of a client is compared with: one of mapped
    addresses is that of its IPv4 part. *)
Definition compared (p : Prefix) : Prefix :=
  if Is4In6 (px_ip p) then PrefixFrom (Unmap (px_ip p)) (px_Bits p - 96) else p.

Lemma Unmap_ok ip : addr_ok ip -> ip_Zone ip = "" ->
  addr_ok (Unmap ip) /\ ip_Zone (Unmap ip) = "" /\ ip_addr (Unmap ip) = ip_addr ip /\
  (ip_family (Unmap ip) = V4 <-> is_mapped (ip_addr ip) = true).
Proof.
  intros (Hr & H4) Hz. unfold Unmap, Is4In6, is_mapped. destruct (ip_family ip) eqn:Hf.
  - destruct (H4 eq_refl) as [Hm _]. split_and!; try done. by rewrite Hm.
  - destruct (Z.eqb_spec (Z.shiftr (ip_addr ip) 32) 65535) as [Hm|Hm]; cbn [ip_family ip_Zone ip_addr].
    + split; [by split|]. split; [done|]. split; [done|]. by split.
    + split; [split; [done|by rewrite Hf]|]. split; [done|]. split; [done|]. rewrite Hf. by split.
Qed.

Lemma mapped_bits p : prefix_ok p -> ip_family (px_ip p) = V6 -> is_mapped (network_base p) = true -> 96 <= px_Bits p.
Proof.
  intros (_ & _ & Hb) Hf Hm. rewrite Hf in Hb. cbn in Hb. apply Z.eqb_eq in Hm. destruct (Z.le_gt_cases 96 (px_Bits p)) as [|Hlt]; [done|].
  assert (Hbit : Z.testbit (Z.shiftr (network_base p) 32) 0 = true) by (by rewrite Hm).
  assert (Hh : 32 < host_bits p) by (unfold host_bits; rewrite Hf; simpl; lia).
  rewrite Z.shiftr_spec in Hbit by done. unfold network_base in Hbit. rewrite <- Z.shiftl_mul_pow2, Z.shiftl_spec, Z.testbit_neg_r in Hbit by lia. done.
Qed.

Lemma network_mapped z p : prefix_ok p -> host_bits p <= 32 -> in_network z p -> is_mapped z = is_mapped (network_base p).
Proof.
  intros (_ & _ & Hb) Hh Hin. assert (H0 : 0 <= host_bits p) by (unfold host_bits; lia). apply in_network_div in Hin; [|done].
  unfold is_mapped. f_equal. unfold network_base. rewrite <- Hin. symmetry. apply shiftr_base. lia.
Qed.

(** A client is in a network when its address is one of it, and an IPv4 client only
    in a network of IPv4 addresses. *)
Lemma compared_exact p ip : prefix_ok p -> addr_ok ip -> ip_Zone ip = "" ->
  Contains (compared (Masked p)) (Unmap ip) = true <->
  in_network (ip_addr ip) p /\ (is_mapped (ip_addr ip) = true -> is_mapped (network_base p) = true).
Proof.
  intros Hp Hip Hz. destruct (Masked_ok p Hp) as (Hm & Hbits & Hfam & Hbase). destruct (Unmap_ok ip Hip Hz) as (Hu & Huz & Hua & Huf).
  assert (Hb := Hp). destruct Hb as (Hb1 & _ & Hb). 
  assert (Hhost : host_bits (Masked p) = host_bits p) by (unfold host_bits; by rewrite Hfam, Hbits).
  assert (H0 : 0 <= host_bits p) by (unfold host_bits; lia).
  assert (Hnet : forall z q, host_bits q = host_bits p -> ip_addr (px_ip q) = network_base p -> in_network z q <-> in_network z p).
  { intros z q Hq Hqb. rewrite !in_network_div, Hq, Hqb by lia. unfold network_base. by rewrite div_base. }
  destruct (ip_family (px_ip p)) eqn:Hf.
  - assert (Hc : compared (Masked p) = Masked p) by (unfold compared, Is4In6; by rewrite Hfam).
    rewrite Hc, (Contains_exact _ _ Hm Hu Huz), Hfam, Hua, (Hnet _ (Masked p) Hhost Hbase).
    assert (Hmb : is_mapped (network_base p) = true).
    { rewrite <- Hbase. apply Z.eqb_eq. apply Hm. by rewrite Hfam. }
    assert (Hh : host_bits p <= 32) by (unfold host_bits; rewrite Hf; simpl in *; lia).
    rewrite Hmb. split; [by intros [_ ?]|]. intros [Hin _]. split; [|done]. symmetry. apply Huf. by rewrite (network_mapped _ _ Hp Hh Hin).
  - destruct (is_mapped (network_base p)) eqn:Hmb.
    + pose proof (mapped_bits p Hp Hf Hmb) as H96.
      set (q := compared (Masked p)). assert (Hq : q = PrefixFrom (Unmap (px_ip (Masked p))) (px_Bits p - 96)).
      { unfold q, compared, Is4In6. rewrite Hfam, Hbase. unfold is_mapped in Hmb. by rewrite Hmb, Hbits. }
      assert (Hqa : px_ip q = {| ip_family := V4; ip_addr := network_base p; ip_Zone := "" |}).
      { rewrite Hq. unfold PrefixFrom, withoutZone, Unmap, Is4In6. rewrite Hfam, Hbase. unfold is_mapped in Hmb. by rewrite Hmb. }
      assert (Hqb : px_Bits q = px_Bits p - 96).
      { rewrite Hq. unfold PrefixFrom, Unmap, Is4In6. rewrite Hfam, Hbase. unfold is_mapped in Hmb. rewrite Hmb. cbn.
        simpl in Hb. destruct (Z.leb_spec 0 (px_Bits p - 96)), (Z.leb_spec (px_Bits p - 96) 32); simpl; try lia. }
      assert (Hqok : prefix_ok q).
      { destruct Hm as ((Hr & _) & _). rewrite Hbase in Hr. simpl in Hb. unfold prefix_ok. rewrite Hqa, Hqb. cbn. split_and!; try done; try lia.
        split; [done|]. cbn. intros _. split; [by apply Z.eqb_eq|done]. }
      assert (Hqh : host_bits q = host_bits p) by (unfold host_bits; rewrite Hqa, Hqb, Hf; simpl; lia).
      rewrite (Contains_exact _ _ Hqok Hu Huz), Hua, (Hnet _ q Hqh) by (by rewrite Hqa). rewrite Hqa. cbn [ip_family].
      assert (Hh : host_bits p <= 32) by (unfold host_bits; rewrite Hf; simpl; lia).
      split; [by intros [_ ?]|]. intros [Hin _]. split; [|done]. symmetry. apply Huf. by rewrite (network_mapped _ _ Hp Hh Hin).
    + assert (Hc : compared (Masked p) = Masked p).
      { unfold compared, Is4In6. rewrite Hfam, Hbase. unfold is_mapped in Hmb. by rewrite Hmb. }
      rewrite Hc, (Contains_exact _ _ Hm Hu Huz), Hfam, Hua, (Hnet _ (Masked p) Hhost Hbase).
      destruct (ip_family (Unmap ip)) eqn:Hg.
      * split; [by intros [? _]|]. intros [_ Hx]. by specialize (Hx (proj1 Huf eq_refl)).
      * split; [|by intros [? _]]. intros [_ ?]. split; [done|]. intros Hx. by apply Huf in Hx.
Qed.
