(* ===== verification/Authn.v ===== *)
(** * What is known of an authentication

    [backend/authentication/domain]: the vocabulary of methods (amr.go), the class
    that they reach (acr.go) and the context that an authentication leaves
    (authentication_context.go). *)

From Stdlib Require Import Ascii String ZArith Lia.
From stdpp Require Import base strings list.
From S2P Require Import Prelude GoStrings.

Local Open Scope string_scope.
Local Open Scope go_scope.

Definition AMRPassword : string := "pwd".
Definition AMROTP : string := "otp".
Definition AMRWebAuthn : string := "webauthn".
Definition AMRHardwareKey : string := "hwk".
Definition AMRSoftwareKey : string := "swk".
Definition AMRRecoveryCode : string := "rc".
Definition AMRTrustedDevice : string := "tdev".
Definition AMRFederated : string := "federated".
Definition AMRKerberos : string := "wia".

Definition amrVocabulary : list string :=
  [AMRPassword; AMROTP; AMRWebAuthn; AMRHardwareKey; AMRSoftwareKey; AMRRecoveryCode; AMRTrustedDevice; AMRFederated; AMRKerberos].
Definition mfaAMRValues : list string := [AMROTP; AMRWebAuthn; AMRHardwareKey; AMRSoftwareKey; AMRRecoveryCode; AMRTrustedDevice].

Definition IsMfaAMR (value : string) : bool := contains mfaAMRValues value.
Definition UnknownAMRValues (amr : list string) : list string := List.filter (fun value => negb (contains amrVocabulary value)) amr.

Definition ACRPassword : string := "urn:idmagic:acr:pwd".
Definition ACRMFA : string := "urn:idmagic:acr:mfa".

Definition DeriveACR (amr : list string) : string := if existsb IsMfaAMR amr then ACRMFA else ACRPassword.

Definition ACRSatisfies (current requested : string) : bool :=
  existsb (fun value => (value =? current) || ((current =? ACRMFA) && (value =? ACRPassword))) (Fields requested).

Definition LoginPendingPurpose := string.
Definition LoginPendingNone : LoginPendingPurpose := "None".
Definition LoginPendingChallenge : LoginPendingPurpose := "Challenge".
Definition LoginPendingEnrollment : LoginPendingPurpose := "Enrollment".
Definition Purpose_Valid (p : LoginPendingPurpose) : bool := contains [LoginPendingNone; LoginPendingChallenge; LoginPendingEnrollment] p.

Record AuthenticationContext := {
  ac_UserID : string;
  ac_AuthTime : Z;
  ac_AMR : list string;
  ac_ACR : string;
  ac_SessionID : string;
  ac_Pending : bool;
  ac_PendingPurpose : LoginPendingPurpose;
  ac_EnrollmentDeadline : option Time;
  ac_EnrollmentBypassID : string;
  ac_StepUpAt : Z;
}.

Definition context_MFAAuthenticated (a : AuthenticationContext) : bool := ACRSatisfies (ac_ACR a) ACRMFA.
Definition context_SecondFactor (a : AuthenticationContext) : bool :=
  existsb (fun method => (method <>? AMRTrustedDevice) && IsMfaAMR method) (ac_AMR a).

(** What only the subject and the time of an access token tell. *)
Definition token_context (subject : string) (authenticatedAt : Z) : AuthenticationContext :=
  {| ac_UserID := subject; ac_AuthTime := authenticatedAt; ac_AMR := []; ac_ACR := ""; ac_SessionID := ""; ac_Pending := false;
     ac_PendingPurpose := ""; ac_EnrollmentDeadline := None; ac_EnrollmentBypassID := ""; ac_StepUpAt := 0%Z |}.

Lemma ACRSatisfies_mfa acr : ACRSatisfies acr ACRMFA = true <-> acr = ACRMFA.
Proof.
  unfold ACRSatisfies. assert (Hf : Fields ACRMFA = [ACRMFA]) by (by vm_compute). rewrite Hf. cbn [existsb]. rewrite orb_false_r.
  destruct (decide (acr = ACRMFA)) as [->|Hne]; [done|]. rewrite (bool_decide_false (ACRMFA = acr)) by congruence.
  rewrite (bool_decide_false (acr = ACRMFA)) by done. by split.
Qed.

Lemma DeriveACR_mfa amr : DeriveACR amr = ACRMFA <-> exists method, method ∈ amr /\ IsMfaAMR method = true.
Proof.
  unfold DeriveACR. destruct (existsb IsMfaAMR amr) eqn:He.
  - split; [intros _|done]. apply existsb_exists in He as (x & Hx & Hm). exists x. by rewrite list_elem_of_In.
  - split; [done|]. intros (x & Hx & Hm). assert (Ht : existsb IsMfaAMR amr = true); [|congruence].
    apply existsb_exists. exists x. by rewrite <- list_elem_of_In.
Qed.
