(* ===== verification/SignInPolicy.v ===== *)
(** * Sign-in policies

    [backend/signinpolicy]: the rules that a tenant or an application sets for
    signing in ([domain/models.go]), their evaluation and the choice between them
    ([domain/sign_in_policy.go]), the administrative use cases
    ([usecases/sign_in_policy.go]) and the memory repositories
    ([internal/db_memory/policies.go]).  The facts of an authentication are a class:
    the evaluator reads nothing else of it.  [netip.ParseAddr], [netip.ParsePrefix]
    and [Prefix.String] are parameters.

    The theorems: a client is allowed exactly when its address lies in one of the
    networks; the evaluator allows exactly when every enabled rule is met, and the
    first one that is not met decides; the warning that an application's policy is
    weaker is complete for policies of one rule that begin together; the use cases
    accept exactly well-formed rules, store them as they were given but for their
    normal form, and what is stored is read until it is replaced or deleted. *)

From Stdlib Require Import Ascii String ZArith Lia.
From stdpp Require Import base strings list gmap.
From S2P Require Import Prelude Effects GoStrings Keyset Policy TokenDomain Netip Authn.

Local Open Scope string_scope.
Local Open Scope go_scope.

(** ** Rules *)

Definition RequiredAuthnStrength := string.
Definition RequiredAuthnPassword : RequiredAuthnStrength := "Password".
Definition RequiredAuthnMfa : RequiredAuthnStrength := "Mfa".
Definition Strength_Valid (s : RequiredAuthnStrength) : bool := contains [RequiredAuthnPassword; RequiredAuthnMfa] s.

Record AccessCondition := { NetworkAllowCIDRs : list string; ReauthMaxAgeSeconds : option Z }.

Record MfaEnrollmentPolicy := {
  EnforcementStartAt : option Time;
  GracePeriodSeconds : option Z;
  AllowAdminBypass : bool;
}.

Record SignInRule := {
  RuleID : string;
  rule_Name : string;
  Enabled : bool;
  Strength : RequiredAuthnStrength;
  Condition : AccessCondition;
  MfaEnrollment : option MfaEnrollmentPolicy;
  AllowTrustedDevice : option bool;
}.

Definition TrustedDeviceAllowed (r : SignInRule) : bool := match AllowTrustedDevice r with None => true | Some b => b end.

Record AppSignInPolicy := {
  asp_TenantID : string;
  asp_ApplicationID : string;
  asp_Rules : list SignInRule;
  asp_CreatedAt : Time;
  asp_UpdatedAt : Time;
}.

Record TenantDefaultSignInPolicy := {
  dp_TenantID : string;
  dp_Rules : list SignInRule;
  dp_CreatedAt : Time;
  dp_UpdatedAt : Time;
}.

(** ** Evaluation *)

(** The facts of an authentication; [None] is the absence of one. *)
Class SignInAuthentication (A : Type) := {
  Pending : A -> bool;
  MFAAuthenticated : A -> bool;
  SecondFactorAuthenticated : A -> bool;
  AuthenticatedAt : A -> Z;
  SteppedUpAt : A -> Z;
}.

Definition PolicyDecision := string.
Definition PolicyAllow : PolicyDecision := "allow".
Definition PolicyDeny : PolicyDecision := "deny".
Definition PolicyStepUpRequired : PolicyDecision := "step_up_required".

Record PolicyEvaluation := { Decision : PolicyDecision; Reason : string }.

Definition any_enabled (rules : list SignInRule) : bool := existsb Enabled rules.

Definition Configured (p : option AppSignInPolicy) : bool :=
  match p with None => false | Some p => any_enabled (asp_Rules p) end.

Definition EffectiveSignInRules (def : option TenantDefaultSignInPolicy) (app : option AppSignInPolicy) : list SignInRule :=
  match app with
  | Some p => if Configured app then asp_Rules p else match def with Some d => dp_Rules d | None => [] end
  | None => match def with Some d => dp_Rules d | None => [] end
  end.

Definition EffectivePolicyForEvaluation (def : option TenantDefaultSignInPolicy) (app : option AppSignInPolicy) : option AppSignInPolicy :=
  let rules := EffectiveSignInRules def app in
  match rules with
  | [] => None
  | _ => Some {| asp_TenantID := match app with Some p => asp_TenantID p | None => "" end;
                 asp_ApplicationID := match app with Some p => asp_ApplicationID p | None => "" end;
                 asp_Rules := rules; asp_CreatedAt := 0%Z; asp_UpdatedAt := 0%Z |}
  end.

Definition TrustedDeviceAllowedByRules (rules : list SignInRule) : bool :=
  forallb (fun rule => negb (Enabled rule && (Strength rule =? RequiredAuthnMfa) && negb (TrustedDeviceAllowed rule))) rules.

Fixpoint MfaEnrollmentPolicyFromRules (rules : list SignInRule) : option MfaEnrollmentPolicy :=
  match rules with
  | [] => None
  | rule :: rules => if Enabled rule && (Strength rule =? RequiredAuthnMfa) then MfaEnrollment rule else MfaEnrollmentPolicyFromRules rules
  end.

Definition UpcomingMfaEnforcementStart (rules : list SignInRule) (now : Time) : option Time :=
  match MfaEnrollmentPolicyFromRules rules with
  | None => None
  | Some policy =>
      match EnforcementStartAt policy with
      | None => None
      | Some start => if negb (Before now start) then None else Some start
      end
  end.

Section evaluation.
Context (ParseAddr : string -> option Addr) (ParsePrefix : string -> option Prefix).

Fixpoint in_cidrs (addr : Addr) (cidrs : list string) : bool :=
  match cidrs with
  | [] => false
  | entry :: cidrs =>
      match ParsePrefix entry with
      | None => in_cidrs addr cidrs
      | Some prefix => if Contains (compared (Masked prefix)) addr then true else in_cidrs addr cidrs
      end
  end.

Definition ClientIPAllowed (clientIP : string) (cidrs : list string) : bool :=
  match ParseAddr (TrimSpace clientIP) with
  | None => false
  | Some addr => if ip_Zone addr <>? "" then false else in_cidrs (Unmap addr) cidrs
  end.

Context {A : Type} `{SignInAuthentication A}.

Definition mfaSatisfied (rule : SignInRule) (authn : A) : bool :=
  if negb (MFAAuthenticated authn) then false
  else if TrustedDeviceAllowed rule then true
  else SecondFactorAuthenticated authn.

Definition mfaEnforced (rule : SignInRule) (now : Time) : bool :=
  match MfaEnrollment rule with
  | None => true
  | Some m => match EnforcementStartAt m with None => true | Some start => negb (Before now start) end
  end.

Definition reauth_exceeded (maxAge : Z) (authn : A) (now : Time) : bool :=
  let recent := Z.max (AuthenticatedAt authn) (SteppedUpAt authn) in
  (recent <=? 0) || (maxAge <? wrap64 (Unix now - recent)).

(** The returns of one round of the loop. *)
Definition rule_verdict (rule : SignInRule) (authn : A) (clientIP : string) (now : Time) : option PolicyEvaluation :=
  if negb (Enabled rule) then None
  else if (0 <? Z.of_nat (length (NetworkAllowCIDRs (Condition rule)))) && negb (ClientIPAllowed clientIP (NetworkAllowCIDRs (Condition rule))) then
    Some {| Decision := PolicyDeny; Reason := "client network is not allowed" |}
  else if (Strength rule =? RequiredAuthnMfa) && mfaEnforced rule now && negb (mfaSatisfied rule authn) then
    Some {| Decision := PolicyStepUpRequired; Reason := "mfa requirement is not satisfied" |}
  else match ReauthMaxAgeSeconds (Condition rule) with
       | Some maxAge =>
           if reauth_exceeded maxAge authn now then Some {| Decision := PolicyStepUpRequired; Reason := "reauth max age exceeded" |} else None
       | None => None
       end.

Fixpoint evaluate_rules (rules : list SignInRule) (authn : A) (clientIP : string) (now : Time) : PolicyEvaluation :=
  match rules with
  | [] => {| Decision := PolicyAllow; Reason := "" |}
  | rule :: rules =>
      match rule_verdict rule authn clientIP now with
      | Some v => v
      | None => evaluate_rules rules authn clientIP now
      end
  end.

Definition EvaluateSignInPolicy (policy : option AppSignInPolicy) (authn : option A) (clientIP : string) (now : Time) : PolicyEvaluation :=
  match policy with
  | None => {| Decision := PolicyAllow; Reason := "" |}
  | Some policy =>
      match asp_Rules policy with
      | [] => {| Decision := PolicyAllow; Reason := "" |}
      | rules =>
          match authn with
          | None => {| Decision := PolicyDeny; Reason := "authentication context is unavailable" |}
          | Some authn =>
              if Pending authn then {| Decision := PolicyDeny; Reason := "authentication context is unavailable" |}
              else evaluate_rules rules authn clientIP now
          end
      end
  end.

(** The use case's function of the same name: a zero time is the clock's. *)
Definition EvaluateSignInPolicyAt (clock : Time) (policy : option AppSignInPolicy) (authn : option A) (clientIP : string) (now : Time) : PolicyEvaluation :=
  EvaluateSignInPolicy policy authn clientIP (if IsZero now then clock else now).
End evaluation.

#[export] Instance context_facts : SignInAuthentication AuthenticationContext := {
  Pending := ac_Pending;
  MFAAuthenticated := context_MFAAuthenticated;
  SecondFactorAuthenticated := context_SecondFactor;
  AuthenticatedAt := ac_AuthTime;
  SteppedUpAt := ac_StepUpAt;
}.

(** ** The warning of a weaker policy *)

Record signInSettings := {
  requireMfa : bool;
  allowTrustedDevice : bool;
  reauth : option Z;
  cidrs : list string;
}.

Definition no_settings : signInSettings := {| requireMfa := false; allowTrustedDevice := false; reauth := None; cidrs := [] |}.

Fixpoint settingsFromRules (rules : list SignInRule) : signInSettings :=
  match rules with
  | [] => no_settings
  | rule :: rules =>
      if negb (Enabled rule) then settingsFromRules rules
      else {| requireMfa := Strength rule =? RequiredAuthnMfa; allowTrustedDevice := TrustedDeviceAllowed rule;
              reauth := ReauthMaxAgeSeconds (Condition rule); cidrs := NetworkAllowCIDRs (Condition rule) |}
  end.

Definition AppPolicyWeakerThanDefault (def : option TenantDefaultSignInPolicy) (app : option AppSignInPolicy) : bool :=
  match app with
  | None => false
  | Some p =>
      if negb (Configured app) then false
      else
        let defSettings := match def with Some d => settingsFromRules (dp_Rules d) | None => no_settings end in
        let appSettings := settingsFromRules (asp_Rules p) in
        if requireMfa defSettings && negb (requireMfa appSettings) then true
        else if requireMfa defSettings && requireMfa appSettings && negb (allowTrustedDevice defSettings) && allowTrustedDevice appSettings then true
        else if match reauth defSettings with
                | Some limit => match reauth appSettings with None => true | Some own => (limit <? own)%Z end
                | None => false
                end then true
        else match cidrs defSettings with
             | [] => false
             | allowed => match cidrs appSettings with
                          | [] => true
                          | own => negb (forallb (contains allowed) own)
                          end
             end
  end.

(** ** Validation *)

Inductive policy_failure (E : Type) :=
| ErrApplicationNotFound
| ErrInvalidSignInPolicy
| PolicyPortError (e : E).
Arguments ErrApplicationNotFound {E}.
Arguments ErrInvalidSignInPolicy {E}.
Arguments PolicyPortError {E} e.

Definition adminNow (clock now : Time) : Time := if IsZero now then clock else now.

Section validation.
Context {E : Type} (ParsePrefix : string -> option Prefix) (Prefix_String : Prefix -> string).

Fixpoint normalizeCIDRs (raw : list string) : result (policy_failure E) (list string) :=
  match raw with
  | [] => Ok []
  | entry :: raw =>
      let entry := TrimSpace entry in
      if entry =? "" then normalizeCIDRs raw
      else match ParsePrefix entry with
           | None => Err ErrInvalidSignInPolicy
           | Some prefix => let? rest := normalizeCIDRs raw in Ok (Prefix_String (Masked prefix) :: rest)
           end
  end.

(** What is wrong with the enrollment of a rule. *)
Definition enrollment_invalid (strength : RequiredAuthnStrength) (m : MfaEnrollmentPolicy) (now : Time) : bool :=
  (strength <>? RequiredAuthnMfa) || negb (is_some (EnforcementStartAt m)) || negb (is_some (GracePeriodSeconds m)) ||
  match GracePeriodSeconds m with Some g => g <=? 0 | None => false end ||
  (negb (IsZero now) && match EnforcementStartAt m with Some start => Before start now | None => false end).

(** One round of the loop: the rule as it is written back, and the identifiers seen.
    [uuid] is the drawn identifier. *)
Definition validate_rule (uuid : result E string) (now : Time) (seen : list string) (r : SignInRule)
  : result (policy_failure E) (SignInRule * list string) :=
  let name := TrimSpace (rule_Name r) in
  let strength := if Strength r =? "" then RequiredAuthnPassword else Strength r in
  let? id := (let id := TrimSpace (RuleID r) in
              if id =? "" then match uuid with Ok id => Ok id | Err e => Err (PolicyPortError e) end else Ok id) in
  reject contains seen id with ErrInvalidSignInPolicy in
  reject name =? "" with ErrInvalidSignInPolicy in
  reject negb (Strength_Valid strength) with ErrInvalidSignInPolicy in
  let? cidrs := normalizeCIDRs (NetworkAllowCIDRs (Condition r)) in
  let maxAge := ReauthMaxAgeSeconds (Condition r) in
  reject match maxAge with Some a => a <=? 0 | None => false end with ErrInvalidSignInPolicy in
  reject match MfaEnrollment r with Some m => enrollment_invalid strength m now | None => false end with ErrInvalidSignInPolicy in
  Ok ({| RuleID := id; rule_Name := name; Enabled := Enabled r; Strength := strength;
         Condition := {| NetworkAllowCIDRs := cidrs; ReauthMaxAgeSeconds := maxAge |};
         MfaEnrollment := MfaEnrollment r; AllowTrustedDevice := AllowTrustedDevice r |}, id :: seen).

(** The draw of the [i]-th rule is [uuids i]. *)
Fixpoint validate_rules (uuids : nat -> result E string) (now : Time) (i : nat) (seen : list string) (rules : list SignInRule)
  : result (policy_failure E) (list SignInRule) :=
  match rules with
  | [] => Ok []
  | r :: rules =>
      let? (r, seen) := validate_rule (uuids i) now seen r in
      let? rest := validate_rules uuids now (S i) seen rules in
      Ok (r :: rest)
  end.

Definition ValidateSignInPolicyRulesAt (uuids : nat -> result E string) (rules : list SignInRule) (now : Time)
  : result (policy_failure E) (list SignInRule) := validate_rules uuids now 0 [] rules.
Definition ValidateSignInPolicyRules (uuids : nat -> result E string) (rules : list SignInRule) := ValidateSignInPolicyRulesAt uuids rules 0%Z.
End validation.

(** ** Use cases *)

Class PolicyPort (S E : Type) := {
  get_policy : string -> string -> S -> result E (option AppSignInPolicy) * S;
  save_policy : AppSignInPolicy -> S -> result E unit * S;
  get_default : string -> S -> result E (option TenantDefaultSignInPolicy) * S;
  save_default : TenantDefaultSignInPolicy -> S -> result E unit * S;
}.

Inductive policy_event :=
| AppSignInPolicyUpdated (at_ : Time) (tenantID actorUserID applicationID : string)
| TenantDefaultSignInPolicyUpdated (at_ : Time) (tenantID actorUserID : string).

Record UpdateSignInPolicyInput := {
  up_ActorUserID : string;
  up_ApplicationID : string;
  up_Rules : list SignInRule;
  up_Now : Time;
}.

Record UpdateDefaultSignInPolicyInput := { ud_ActorUserID : string; ud_Rules : list SignInRule; ud_Now : Time }.

Definition EmptySignInPolicy (tenantID applicationID : string) (at_ : Time) : AppSignInPolicy :=
  {| asp_TenantID := tenantID; asp_ApplicationID := applicationID; asp_Rules := []; asp_CreatedAt := at_; asp_UpdatedAt := at_ |}.
Definition EmptyDefaultSignInPolicy (tenantID : string) (at_ : Time) : TenantDefaultSignInPolicy :=
  {| dp_TenantID := tenantID; dp_Rules := []; dp_CreatedAt := at_; dp_UpdatedAt := at_ |}.

Section usecases.
Context {S E : Type} `{PolicyPort S E}.
Notation flow := (eff S policy_event (policy_failure E)).
(** The lookup of applications, when there is one, and the repositories that are not nil. *)
Context (ApplicationExists : option (string -> string -> result E bool)) (has_PolicyRepo has_DefaultRepo : bool).
Context (ParsePrefix : string -> option Prefix) (Prefix_String : Prefix -> string).

Definition ensureApplicationExists (tenantID applicationID : string) : flow unit :=
  match ApplicationExists with
  | None => eff_fail ErrApplicationNotFound
  | Some lookup =>
      match lookup tenantID applicationID with
      | Err e => eff_fail (PolicyPortError e)
      | Ok exists_ => refuse negb exists_ with ErrApplicationNotFound in eff_ret tt
      end
  end.

Definition GetSignInPolicy (tenantID applicationID : string) (clock : Time) : flow AppSignInPolicy :=
  do! ensureApplicationExists tenantID applicationID in
  if negb has_PolicyRepo then eff_ret (EmptySignInPolicy tenantID applicationID clock)
  else
    let! policy := call PolicyPortError (get_policy tenantID applicationID) in
    eff_ret (match policy with None => EmptySignInPolicy tenantID applicationID clock | Some p => p end).

Definition dated_policy (created : Time) (p : AppSignInPolicy) : AppSignInPolicy :=
  {| asp_TenantID := asp_TenantID p; asp_ApplicationID := asp_ApplicationID p; asp_Rules := asp_Rules p;
     asp_CreatedAt := created; asp_UpdatedAt := asp_UpdatedAt p |}.
Definition dated_default (created : Time) (p : TenantDefaultSignInPolicy) : TenantDefaultSignInPolicy :=
  {| dp_TenantID := dp_TenantID p; dp_Rules := dp_Rules p; dp_CreatedAt := created; dp_UpdatedAt := dp_UpdatedAt p |}.

Definition UpdateSignInPolicy (tenantID : string) (uuids : nat -> result E string) (clock : Time) (in_ : UpdateSignInPolicyInput)
  : flow AppSignInPolicy :=
  do! ensureApplicationExists tenantID (up_ApplicationID in_) in
  let! rules := lift (ValidateSignInPolicyRulesAt ParsePrefix Prefix_String uuids (up_Rules in_) (up_Now in_)) in
  let now := adminNow clock (up_Now in_) in
  let policy := {| asp_TenantID := tenantID; asp_ApplicationID := up_ApplicationID in_; asp_Rules := rules;
                   asp_CreatedAt := now; asp_UpdatedAt := now |} in
  let! policy :=
    (if has_PolicyRepo then
       let! existing := call PolicyPortError (get_policy tenantID (up_ApplicationID in_)) in
       let policy := match existing with
                     | Some old => if negb (IsZero (asp_CreatedAt old)) then dated_policy (asp_CreatedAt old) policy else policy
                     | None => policy
                     end in
       do! call PolicyPortError (save_policy policy) in
       eff_ret policy
     else eff_ret policy) in
  do! emit (AppSignInPolicyUpdated (asp_UpdatedAt policy) tenantID (up_ActorUserID in_) (up_ApplicationID in_)) in
  eff_ret policy.

Definition GetDefaultSignInPolicy (tenantID : string) (clock : Time) : flow TenantDefaultSignInPolicy :=
  if negb has_DefaultRepo then eff_ret (EmptyDefaultSignInPolicy tenantID clock)
  else
    let! policy := call PolicyPortError (get_default tenantID) in
    eff_ret (match policy with None => EmptyDefaultSignInPolicy tenantID clock | Some p => p end).

Definition UpdateDefaultSignInPolicy (tenantID : string) (uuids : nat -> result E string) (clock : Time) (in_ : UpdateDefaultSignInPolicyInput)
  : flow TenantDefaultSignInPolicy :=
  let! rules := lift (ValidateSignInPolicyRulesAt ParsePrefix Prefix_String uuids (ud_Rules in_) (ud_Now in_)) in
  let now := adminNow clock (ud_Now in_) in
  let policy := {| dp_TenantID := tenantID; dp_Rules := rules; dp_CreatedAt := now; dp_UpdatedAt := now |} in
  let! policy :=
    (if has_DefaultRepo then
       let! existing := call PolicyPortError (get_default tenantID) in
       let policy := match existing with
                     | Some old => if negb (IsZero (dp_CreatedAt old)) then dated_default (dp_CreatedAt old) policy else policy
                     | None => policy
                     end in
       do! call PolicyPortError (save_default policy) in
       eff_ret policy
     else eff_ret policy) in
  do! emit (TenantDefaultSignInPolicyUpdated (dp_UpdatedAt policy) tenantID (ud_ActorUserID in_)) in
  eff_ret policy.
End usecases.

(** ** The memory repositories *)

Record PolicyStore := {
  app_policies : gmap string AppSignInPolicy;
  default_policies : gmap string TenantDefaultSignInPolicy;
}.

Definition NewPolicyStore : PolicyStore := {| app_policies := ∅; default_policies := ∅ |}.

Definition policy_key (tenantID applicationID : string) : string := ScopedKey tenantID applicationID DefaultTenantID.

Definition Get_policy (tenantID applicationID : string) (s : PolicyStore) : option AppSignInPolicy :=
  app_policies s !! policy_key tenantID applicationID.

Definition ListAll_policies (tenantID : string) (order : list string) (s : PolicyStore) : list AppSignInPolicy :=
  List.filter (fun p => asp_TenantID p =? tenantID) (omap (fun key => app_policies s !! key) order).

Definition Save_policy (policy : AppSignInPolicy) (s : PolicyStore) : PolicyStore :=
  let key := policy_key (asp_TenantID policy) (asp_ApplicationID policy) in
  let cloned := match app_policies s !! key with
                | Some existing => if negb (IsZero (asp_CreatedAt existing)) then dated_policy (asp_CreatedAt existing) policy else policy
                | None => policy
                end in
  {| app_policies := <[key := cloned]> (app_policies s); default_policies := default_policies s |}.

Definition Delete_policy (tenantID applicationID : string) (s : PolicyStore) : PolicyStore :=
  {| app_policies := delete (policy_key tenantID applicationID) (app_policies s); default_policies := default_policies s |}.

Definition Get_default (tenantID : string) (s : PolicyStore) : option TenantDefaultSignInPolicy := default_policies s !! tenantID.

Definition Save_default (policy : TenantDefaultSignInPolicy) (s : PolicyStore) : PolicyStore :=
  let cloned := match default_policies s !! dp_TenantID policy with
                | Some existing => if negb (IsZero (dp_CreatedAt existing)) then dated_default (dp_CreatedAt existing) policy else policy
                | None => policy
                end in
  {| app_policies := app_policies s; default_policies := <[dp_TenantID policy := cloned]> (default_policies s) |}.

#[export] Instance memory_policies {E} : PolicyPort PolicyStore E := {
  get_policy t a s := (Ok (Get_policy t a s), s);
  save_policy p s := (Ok tt, Save_policy p s);
  get_default t s := (Ok (Get_default t s), s);
  save_default p s := (Ok tt, Save_default p s);
}.

(** ** Networks *)

Section exactness.
Context (ParseAddr : string -> option Addr) (ParsePrefix : string -> option Prefix).

(** The parsers make addresses and prefixes of the bits that their family has. *)
Context (Haddr : forall s ip, ParseAddr s = Some ip -> addr_ok ip) (Hprefix : forall s p, ParsePrefix s = Some p -> prefix_ok p).

Lemma in_cidrs_true addr l :
  in_cidrs ParsePrefix addr l = true <-> exists entry p, entry ∈ l /\ ParsePrefix entry = Some p /\ Contains (compared (Masked p)) addr = true.
Proof.
  induction l as [|entry l IH]; cbn [in_cidrs].
  - split; [done|]. by intros (e & p & He%elem_of_nil & _).
  - destruct (ParsePrefix entry) as [p|] eqn:Hp; [destruct (Contains _ addr) eqn:Hc|].
    + split; [|done]. intros _. exists entry, p. split; [by left|done].
    + rewrite IH. split; intros (e & q & He & Hq & Hin); exists e, q; (split; [|done]); [by right|].
      apply elem_of_cons in He as [->|He]; [congruence|done].
    + rewrite IH. split; intros (e & q & He & Hq & Hin); exists e, q; (split; [|done]); [by right|].
      apply elem_of_cons in He as [->|He]; [congruence|done].
Qed.

Lemma in_cidrs_mono addr own allowed : forallb (contains allowed) own = true ->
  in_cidrs ParsePrefix addr own = true -> in_cidrs ParsePrefix addr allowed = true.
Proof.
  rewrite forallb_forall, !in_cidrs_true. intros Hsub (e & p & He & Hp). exists e, p. split; [|done].
  apply contains_true, Hsub. by apply list_elem_of_In.
Qed.

(** C33. A client is allowed exactly when its address, read without a zone, lies in
    the network of one of the entries, an IPv4 client only in a network of IPv4
    addresses, whichever of its two forms the address and the network are written in. *)
Theorem ClientIPAllowed_exact clientIP cidrs :
  ClientIPAllowed ParseAddr ParsePrefix clientIP cidrs = true <->
  exists ip entry p, ParseAddr (TrimSpace clientIP) = Some ip /\ ip_Zone ip = "" /\ entry ∈ cidrs /\ ParsePrefix entry = Some p /\
    in_network (ip_addr ip) p /\ (is_mapped (ip_addr ip) = true -> is_mapped (network_base p) = true).
Proof.
  unfold ClientIPAllowed. destruct (ParseAddr (TrimSpace clientIP)) as [ip|] eqn:Hip; [|split; [done|by intros (? & ? & ? & ? & _)]].
  destruct (decide (ip_Zone ip = "")) as [Hz|Hz]; cycle 1.
  { rewrite bool_decide_false by done. split; [done|]. intros (? & ? & ? & [= <-] & ? & _). done. }
  rewrite bool_decide_true by done. cbn [negb]. rewrite in_cidrs_true. split.
  - intros (entry & p & He & Hp & Hc). apply compared_exact in Hc; [|by eapply Hprefix|by eapply Haddr|done]. by exists ip, entry, p.
  - intros (ip' & entry & p & [= <-] & _ & He & Hp & Hin). exists entry, p. split; [done|]. split; [done|].
    apply compared_exact; [by eapply Hprefix|by eapply Haddr|done|done].
Qed.

(** ** The evaluator *)

Context {A : Type} `{SignInAuthentication A}.
Notation Evaluate := (EvaluateSignInPolicy ParseAddr ParsePrefix).
Notation verdict := (rule_verdict ParseAddr ParsePrefix).

Definition latest (authn : A) : Z := Z.max (AuthenticatedAt authn) (SteppedUpAt authn).

(** The clock is past 1970, and the times are of 64 bits. *)
Definition sane_times (authn : A) (now : Time) : Prop := (0 <= Unix now <= max_int64)%Z /\ (latest authn <= max_int64)%Z.

Definition network_met (rule : SignInRule) (clientIP : string) : Prop :=
  NetworkAllowCIDRs (Condition rule) = [] \/ ClientIPAllowed ParseAddr ParsePrefix clientIP (NetworkAllowCIDRs (Condition rule)) = true.

Definition enforced_at (rule : SignInRule) (now : Time) : Prop :=
  forall m start, MfaEnrollment rule = Some m -> EnforcementStartAt m = Some start -> (start <= now)%Z.

Definition mfa_met (rule : SignInRule) (authn : A) (now : Time) : Prop :=
  Strength rule = RequiredAuthnMfa -> enforced_at rule now ->
  MFAAuthenticated authn = true /\ (TrustedDeviceAllowed rule = true \/ SecondFactorAuthenticated authn = true).

Definition recent_met (rule : SignInRule) (authn : A) (now : Time) : Prop :=
  forall maxAge, ReauthMaxAgeSeconds (Condition rule) = Some maxAge -> (0 < latest authn)%Z /\ (Unix now - latest authn <= maxAge)%Z.

Definition rule_met (rule : SignInRule) (authn : A) (clientIP : string) (now : Time) : Prop :=
  Enabled rule = true -> network_met rule clientIP /\ mfa_met rule authn now /\ recent_met rule authn now.

Lemma mfaEnforced_spec rule now : mfaEnforced rule now = true <-> enforced_at rule now.
Proof.
  unfold mfaEnforced, enforced_at. destruct (MfaEnrollment rule) as [m|]; [|by split].
  destruct (EnforcementStartAt m) as [start|] eqn:Hs; cycle 1.
  { split; [|done]. intros _ m' st [= <-]. congruence. }
  unfold Before. destruct (Z.ltb_spec now start); simpl; split; try done.
  - intros Hx. specialize (Hx m start eq_refl Hs). lia.
  - intros _ m' st [= <-]. rewrite Hs. by intros [= <-].
Qed.

Lemma mfaSatisfied_spec rule authn : mfaSatisfied rule authn = true <->
  MFAAuthenticated authn = true /\ (TrustedDeviceAllowed rule = true \/ SecondFactorAuthenticated authn = true).
Proof.
  unfold mfaSatisfied. destruct (MFAAuthenticated authn), (TrustedDeviceAllowed rule), (SecondFactorAuthenticated authn); simpl; naive_solver.
Qed.

Lemma reauth_spec maxAge authn now : sane_times authn now ->
  reauth_exceeded maxAge authn now = false <-> (0 < latest authn)%Z /\ (Unix now - latest authn <= maxAge)%Z.
Proof.
  intros [Hn Hl]. unfold reauth_exceeded. fold (latest authn). rewrite orb_false_iff, Z.leb_gt, Z.ltb_ge. split; intros [H1 H2]; split; try done.
  - rewrite wrap64_id in H2; [done|]. unfold min_int64, max_int64 in *. lia.
  - rewrite wrap64_id; [done|]. unfold min_int64, max_int64 in *. lia.
Qed.

(** What a rule answers. *)
Lemma verdict_spec rule authn clientIP now : sane_times authn now ->
  match verdict rule authn clientIP now with
  | None => rule_met rule authn clientIP now
  | Some v => Enabled rule = true /\ ~ rule_met rule authn clientIP now /\
      (Decision v = PolicyDeny /\ ~ network_met rule clientIP \/ Decision v = PolicyStepUpRequired /\ network_met rule clientIP)
  end.
Proof.
  intros Ht. unfold rule_verdict, rule_met. destruct (Enabled rule); [|done]. cbn [negb].
  assert (Hnet : (0 <? Z.of_nat (length (NetworkAllowCIDRs (Condition rule)))) &&
      negb (ClientIPAllowed ParseAddr ParsePrefix clientIP (NetworkAllowCIDRs (Condition rule))) = false <-> network_met rule clientIP).
  { unfold network_met. destruct (NetworkAllowCIDRs (Condition rule)) as [|c l]; [split; [by left|done]|].
    destruct (Z.ltb_spec 0 (Z.of_nat (length (c :: l)))) as [_|Hl]; [|simpl in Hl; lia]. rewrite andb_true_l, negb_false_iff.
    split; [by right|by intros [?|?]]. }
  destruct (_ && negb (ClientIPAllowed _ _ _ _)) eqn:Hn.
  { assert (Hnot : ~ network_met rule clientIP) by (intros Hx; apply Hnet in Hx; done).
    split; [done|]. split; [intros Hx; by destruct (Hx eq_refl)|by left]. }
  assert (Hyes : network_met rule clientIP) by (by apply Hnet).
  assert (Hmfa : (Strength rule =? RequiredAuthnMfa) && mfaEnforced rule now && negb (mfaSatisfied rule authn) = false <-> mfa_met rule authn now).
  { unfold mfa_met. rewrite <- mfaEnforced_spec, <- mfaSatisfied_spec. destruct (decide (Strength rule = RequiredAuthnMfa)) as [Hs|Hs].
    - rewrite bool_decide_true by done. destruct (mfaEnforced rule now), (mfaSatisfied rule authn); simpl; naive_solver.
    - rewrite bool_decide_false by done. simpl. by split. }
  destruct (_ && negb (mfaSatisfied _ _)) eqn:Hm.
  { assert (Hnot : ~ mfa_met rule authn now) by (intros Hx; apply Hmfa in Hx; done).
    split; [done|]. split; [intros Hx; by destruct (Hx eq_refl) as (_ & ? & _)|by right]. }
  assert (Hmy : mfa_met rule authn now) by (by apply Hmfa).
  unfold recent_met. destruct (ReauthMaxAgeSeconds (Condition rule)) as [maxAge|]; [|done].
  destruct (reauth_exceeded maxAge authn now) eqn:Hr.
  - assert (Hnot : ~ ((0 < latest authn)%Z /\ (Unix now - latest authn <= maxAge)%Z)) by (rewrite <- (reauth_spec _ _ _ Ht); congruence).
    split; [done|]. split; [|by right]. intros Hx. destruct (Hx eq_refl) as (_ & _ & Hy). by apply Hnot, Hy.
  - intros _. split; [done|]. split; [done|]. intros a [= <-]. by apply reauth_spec.
Qed.

Definition has_rules (policy : option AppSignInPolicy) : list SignInRule := match policy with Some p => asp_Rules p | None => [] end.

Lemma Evaluate_unfold policy authn clientIP now : Evaluate policy authn clientIP now =
  match has_rules policy with
  | [] => {| Decision := PolicyAllow; Reason := "" |}
  | rules =>
      match authn with
      | Some a => if Pending a then {| Decision := PolicyDeny; Reason := "authentication context is unavailable" |}
                  else evaluate_rules ParseAddr ParsePrefix rules a clientIP now
      | None => {| Decision := PolicyDeny; Reason := "authentication context is unavailable" |}
      end
  end.
Proof. unfold EvaluateSignInPolicy, has_rules. by destruct policy as [p|]; [destruct (asp_Rules p)|]. Qed.

Lemma rules_first pre rule post authn clientIP now : sane_times authn now ->
  (forall r, r ∈ pre -> rule_met r authn clientIP now) -> ~ rule_met rule authn clientIP now ->
  exists v, evaluate_rules ParseAddr ParsePrefix (pre ++ rule :: post) authn clientIP now = v /\ Enabled rule = true /\
    (Decision v = PolicyDeny /\ ~ network_met rule clientIP \/ Decision v = PolicyStepUpRequired /\ network_met rule clientIP).
Proof.
  intros Ht Hpre Hnot. induction pre as [|r pre IH]; cbn [app evaluate_rules].
  - pose proof (verdict_spec rule authn clientIP now Ht) as Hv. destruct (verdict rule authn clientIP now) as [v|]; [|done].
    destruct Hv as (He & _ & Hv). by exists v.
  - pose proof (verdict_spec r authn clientIP now Ht) as Hv. destruct (verdict r authn clientIP now) as [v|].
    + destruct Hv as (_ & Hx & _). destruct Hx. apply Hpre. by left.
    + apply IH. intros r' Hr. apply Hpre. by right.
Qed.

Lemma rules_all rules authn clientIP now : sane_times authn now ->
  Decision (evaluate_rules ParseAddr ParsePrefix rules authn clientIP now) = PolicyAllow <-> forall r, r ∈ rules -> rule_met r authn clientIP now.
Proof.
  intros Ht. induction rules as [|r rules IH]; cbn [evaluate_rules].
  - split; [|done]. intros _ r Hr. by apply elem_of_nil in Hr.
  - pose proof (verdict_spec r authn clientIP now Ht) as Hv. destruct (verdict r authn clientIP now) as [v|].
    + destruct Hv as (_ & Hnot & Hd). split.
      * intros Ha. rewrite Ha in Hd. by destruct Hd as [[? _]|[? _]].
      * intros Hall. destruct Hnot. apply Hall. by left.
    + rewrite IH. split.
      * intros Hall r' [->|Hr]%elem_of_cons; [done|by apply Hall].
      * intros Hall r' Hr. apply Hall. by right.
Qed.

(** C32. A policy allows exactly when it has no rules, or the authentication is
    complete and meets every enabled rule: the network, the second factor once it is
    enforced, a genuine one where the rule asks for it every time, and the age of the
    latest authentication.  Otherwise the first rule that is not met decides, by a
    denial when it is the network; without an authentication it is a denial. *)
Theorem EvaluateSignInPolicy_exact policy authn clientIP now :
  (forall a, authn = Some a -> sane_times a now) ->
  let decision := Decision (Evaluate policy authn clientIP now) in
  (decision = PolicyAllow <-> has_rules policy = [] \/
     exists a, authn = Some a /\ Pending a = false /\ forall rule, rule ∈ has_rules policy -> rule_met rule a clientIP now) /\
  (has_rules policy <> [] -> (forall a, authn = Some a -> Pending a = true) -> decision = PolicyDeny) /\
  (forall a pre rule post, authn = Some a -> Pending a = false -> has_rules policy = (pre ++ rule :: post)%list ->
     (forall r, r ∈ pre -> rule_met r a clientIP now) -> ~ rule_met rule a clientIP now ->
     Enabled rule = true /\
     (decision = PolicyDeny /\ ~ network_met rule clientIP \/ decision = PolicyStepUpRequired /\ network_met rule clientIP)).
Proof.
  intros Ht decision. unfold decision. rewrite Evaluate_unfold. destruct (has_rules policy) as [|r0 rules] eqn:Hr.
  { split; [split; [by left|done]|]. split; [done|]. intros a pre rule post _ _ Hx. by destruct pre. }
  destruct authn as [a|]; cycle 1.
  { split; [|by split]. split; [done|]. intros [?|(a & ? & _)]; done. }
  destruct (Pending a) eqn:Hp.
  { split; [|split; [done|]].
    - split; [done|]. intros [?|(a' & [= <-] & ? & _)]; [done|congruence].
    - intros a' pre rule post [= <-]. congruence. }
  split; [|split].
  - rewrite rules_all by (by apply Ht). split.
    + intros Hall. right. exists a. by split.
    + by intros [?|(a' & [= <-] & _ & Hall)].
  - intros _ Hx. specialize (Hx a eq_refl). congruence.
  - intros a' pre rule post [= <-] _ Heq Hpre Hnot. rewrite Heq.
    destruct (rules_first pre rule post a clientIP now (Ht a eq_refl) Hpre Hnot) as (v & -> & Hv). done.
Qed.
End exactness.

(** ** The warning *)

Section warning.
Context (ParseAddr : string -> option Addr) (ParsePrefix : string -> option Prefix) {A : Type} `{SignInAuthentication A}.
Notation Evaluate := (EvaluateSignInPolicy ParseAddr ParsePrefix).
Notation verdict := (rule_verdict ParseAddr ParsePrefix).

Definition enabled_rules (rules : list SignInRule) : list SignInRule := List.filter Enabled rules.

Lemma rules_enabled rules authn clientIP now :
  evaluate_rules ParseAddr ParsePrefix rules authn clientIP now = evaluate_rules ParseAddr ParsePrefix (enabled_rules rules) authn clientIP now.
Proof.
  induction rules as [|r rules IH]; [done|]. unfold enabled_rules. cbn [List.filter]. destruct (Enabled r) eqn:He; cbn [evaluate_rules].
  - by rewrite IH.
  - unfold rule_verdict. rewrite He. apply IH.
Qed.

Definition settings_of (rule : SignInRule) : signInSettings :=
  {| requireMfa := Strength rule =? RequiredAuthnMfa; allowTrustedDevice := TrustedDeviceAllowed rule;
     reauth := ReauthMaxAgeSeconds (Condition rule); cidrs := NetworkAllowCIDRs (Condition rule) |}.

Lemma settings_first rules : settingsFromRules rules = match enabled_rules rules with r :: _ => settings_of r | [] => no_settings end.
Proof. unfold enabled_rules. induction rules as [|r rules IH]; [done|]. cbn [settingsFromRules List.filter]. by destruct (Enabled r). Qed.

Lemma any_enabled_rules rules : any_enabled rules = true <-> exists r l, enabled_rules rules = r :: l.
Proof.
  unfold any_enabled, enabled_rules. induction rules as [|r rules IH]; cbn [existsb List.filter]; [split; [done|by intros (?&?&?)]|].
  destruct (Enabled r); [|exact IH]. split; [intros _; by exists r, (List.filter Enabled rules)|done].
Qed.

(** Rule [own] asks for no less than rule [def] does at a time. *)
Definition no_weaker (def own : SignInRule) (now : Time) : Prop :=
  (Strength def = RequiredAuthnMfa -> mfaEnforced def now = true ->
     Strength own = RequiredAuthnMfa /\ mfaEnforced own now = true /\ (TrustedDeviceAllowed own = true -> TrustedDeviceAllowed def = true)) /\
  (forall limit, ReauthMaxAgeSeconds (Condition def) = Some limit ->
     exists own_limit, ReauthMaxAgeSeconds (Condition own) = Some own_limit /\ (own_limit <= limit)%Z) /\
  (NetworkAllowCIDRs (Condition def) <> [] -> NetworkAllowCIDRs (Condition own) <> [] /\
     forallb (contains (NetworkAllowCIDRs (Condition def))) (NetworkAllowCIDRs (Condition own)) = true).

Lemma no_weaker_verdict def own authn clientIP now : no_weaker def own now -> Enabled own = true ->
  verdict own authn clientIP now = None -> verdict def authn clientIP now = None.
Proof.
  intros (Hm & Hr & Hn) Ho. unfold rule_verdict. rewrite Ho. cbn [negb]. destruct (Enabled def); [|done]. cbn [negb].
  destruct (_ && negb (ClientIPAllowed _ _ _ (NetworkAllowCIDRs (Condition own)))) eqn:Hno; [done|].
  destruct (_ && negb (mfaSatisfied own authn)) eqn:Hmo; [done|]. intros Hro.
  assert (Hnd : (0 <? Z.of_nat (length (NetworkAllowCIDRs (Condition def)))) &&
      negb (ClientIPAllowed ParseAddr ParsePrefix clientIP (NetworkAllowCIDRs (Condition def))) = false).
  { destruct (NetworkAllowCIDRs (Condition def)) as [|c l] eqn:Hc; [done|]. destruct (Hn ltac:(done)) as [Hne Hsub].
    destruct (NetworkAllowCIDRs (Condition own)) as [|c' l'] eqn:Hc'; [done|]. apply andb_false_iff. right. apply negb_false_iff.
    assert (Hall : ClientIPAllowed ParseAddr ParsePrefix clientIP (c' :: l') = true).
    { apply andb_false_iff in Hno as [Hno|Hno]; [by apply Z.ltb_ge in Hno; simpl in Hno; lia|]. by apply negb_false_iff in Hno. }
    revert Hall. unfold ClientIPAllowed. destruct (ParseAddr _) as [ip|]; [|done].
    destruct (ip_Zone ip <>? ""); [done|]. by apply in_cidrs_mono. }
  rewrite Hnd.
  assert (Hmd : (Strength def =? RequiredAuthnMfa) && mfaEnforced def now && negb (mfaSatisfied def authn) = false).
  { destruct (decide (Strength def = RequiredAuthnMfa)) as [Hs|Hs]; [|by rewrite bool_decide_false]. rewrite bool_decide_true by done.
    destruct (mfaEnforced def now) eqn:He; [|done]. destruct (Hm Hs eq_refl) as (Hso & Heo & Htd).
    rewrite bool_decide_true, Heo in Hmo by done. revert Hmo. unfold mfaSatisfied. destruct (MFAAuthenticated authn); [|done]. cbn [negb andb].
    destruct (TrustedDeviceAllowed own); [by rewrite Htd|]. destruct (TrustedDeviceAllowed def); [done|]. by destruct (SecondFactorAuthenticated authn). }
  rewrite Hmd. destruct (ReauthMaxAgeSeconds (Condition def)) as [limit|]; [|done]. destruct (Hr limit eq_refl) as (own_limit & Hol & Hle).
  rewrite Hol in Hro. destruct (reauth_exceeded own_limit authn now) eqn:Hx; [done|]. revert Hx. unfold reauth_exceeded.
  rewrite !orb_false_iff, !Z.ltb_ge. intros [H1 H2]. assert (Hy : (Z.max (AuthenticatedAt authn) (SteppedUpAt authn) <=? 0) ||
    (limit <? wrap64 (Unix now - Z.max (AuthenticatedAt authn) (SteppedUpAt authn))) = false) by (rewrite orb_false_iff, Z.ltb_ge; split; [done|lia]).
  by rewrite Hy.
Qed.

Lemma verdict_decision r authn clientIP now :
  match verdict r authn clientIP now with Some v => Decision v <> PolicyAllow | None => True end.
Proof.
  unfold rule_verdict. destruct (negb (Enabled r)); [done|]. destruct (_ && negb (ClientIPAllowed _ _ _ _)); [done|].
  destruct (_ && negb (mfaSatisfied _ _)); [done|]. destruct (ReauthMaxAgeSeconds _); [|done]. by destruct (reauth_exceeded _ _ _).
Qed.

(** Without the warning the first rule is no weaker, but for when it begins. *)
Lemma unwarned def app r l d : Configured (Some app) = true -> enabled_rules (asp_Rules app) = r :: l -> enabled_rules (dp_Rules def) = [d] ->
  AppPolicyWeakerThanDefault (Some def) (Some app) = false -> forall now,
  (Strength d = RequiredAuthnMfa -> mfaEnforced d now = true -> mfaEnforced r now = true) -> no_weaker d r now.
Proof.
  intros Hc Hr Hd. unfold AppPolicyWeakerThanDefault. rewrite Hc, !settings_first, Hr, Hd. cbn [negb settings_of requireMfa allowTrustedDevice reauth cidrs].
  intros Hw now Hstart.
  destruct ((Strength d =? RequiredAuthnMfa) && negb (Strength r =? RequiredAuthnMfa)) eqn:H1; [done|].
  destruct ((Strength d =? RequiredAuthnMfa) && (Strength r =? RequiredAuthnMfa) && negb (TrustedDeviceAllowed d) && TrustedDeviceAllowed r) eqn:H2; [done|].
  destruct (match ReauthMaxAgeSeconds (Condition d) with Some limit => _ | None => false end) eqn:H3; [done|].
  split; [|split].
  - intros Hs He. rewrite bool_decide_true in H1, H2 by done. simpl in H1. apply negb_false_iff, bool_decide_eq_true in H1.
    split; [done|]. split; [by apply Hstart|]. intros Ht. rewrite bool_decide_true, Ht in H2 by done. simpl in H2. rewrite andb_true_r in H2.
    by apply negb_false_iff.
  - intros limit Hlim. rewrite Hlim in H3. destruct (ReauthMaxAgeSeconds (Condition r)) as [own|]; [|done]. exists own. split; [done|].
    by apply Z.ltb_ge in H3.
  - intros Hne. destruct (NetworkAllowCIDRs (Condition d)) as [|c cs]; [done|]. destruct (NetworkAllowCIDRs (Condition r)) as [|c' cs']; [done|].
    split; [done|]. by apply negb_false_iff in Hw.
Qed.

(** C34. When no warning is shown for an application's own policy, and the tenant's
    default has at most one enabled rule, then whoever signs in under the policy, from
    wherever and whenever, would have been allowed by the default, provided that a
    second factor which the default enforces at the time is enforced by the
    application's first rule too. *)
Theorem warning_complete def app authn clientIP now :
  Configured (Some app) = true -> (length (enabled_rules (dp_Rules def)) <= 1)%nat ->
  (forall r l d, enabled_rules (asp_Rules app) = r :: l -> enabled_rules (dp_Rules def) = [d] ->
     Strength d = RequiredAuthnMfa -> mfaEnforced d now = true -> mfaEnforced r now = true) ->
  AppPolicyWeakerThanDefault (Some def) (Some app) = false ->
  Decision (Evaluate (EffectivePolicyForEvaluation (Some def) (Some app)) authn clientIP now) = PolicyAllow ->
  Decision (Evaluate (EffectivePolicyForEvaluation (Some def) None) authn clientIP now) = PolicyAllow.
Proof.
  intros Hc Hone Hstart Hw. pose proof Hc as Hr. apply any_enabled_rules in Hr as (r & l & Hr).
  unfold EffectivePolicyForEvaluation, EffectiveSignInRules. rewrite Hc, !Evaluate_unfold.
  destruct (asp_Rules app) as [|r0 rs] eqn:Hrs; [done|]. cbn [has_rules asp_Rules].
  destruct (dp_Rules def) as [|d0 ds] eqn:Hds; [done|]. cbn [has_rules asp_Rules].
  destruct authn as [a|]; [|done]. destruct (Pending a); [done|]. rewrite (rules_enabled (d0 :: ds)), (rules_enabled (r0 :: rs)), Hr.
  destruct (enabled_rules (d0 :: ds)) as [|d [|]] eqn:Hd; [done| |simpl in Hone; lia]. cbn [evaluate_rules].
  assert (Hnw : no_weaker d r now).
  { apply (unwarned def app r l d Hc); [by rewrite Hrs|by rewrite Hds|done|]. by apply (Hstart r l). }
  assert (He : Enabled r = true).
  { assert (Hin : r ∈ enabled_rules (r0 :: rs)) by (rewrite Hr; by left). apply list_elem_of_In, filter_In in Hin. apply Hin. }
  pose proof (no_weaker_verdict d r a clientIP now Hnw He) as Hv.
  pose proof (verdict_decision r a clientIP now) as Hvd.
  destruct (verdict r a clientIP now) as [v|]; [by intros Hx; apply Hvd in Hx|]. by rewrite Hv.
Qed.
End warning.

(** The warning looks at the strength of a rule and not at when it is enforced: an
    application may put off the second factor that the default asks for. *)
Definition plain_rule (strength : RequiredAuthnStrength) (m : option MfaEnrollmentPolicy) : SignInRule :=
  {| RuleID := "r"; rule_Name := "rule"; Enabled := true; Strength := strength;
     Condition := {| NetworkAllowCIDRs := []; ReauthMaxAgeSeconds := None |}; MfaEnrollment := m; AllowTrustedDevice := None |}.
Definition policy_of (rules : list SignInRule) : AppSignInPolicy :=
  {| asp_TenantID := "acme"; asp_ApplicationID := "app"; asp_Rules := rules; asp_CreatedAt := 1%Z; asp_UpdatedAt := 1%Z |}.
Definition default_of (rules : list SignInRule) : TenantDefaultSignInPolicy :=
  {| dp_TenantID := "acme"; dp_Rules := rules; dp_CreatedAt := 1%Z; dp_UpdatedAt := 1%Z |}.
Definition by_password (at_ : Z) : AuthenticationContext :=
  {| ac_UserID := "alice"; ac_AuthTime := at_; ac_AMR := [AMRPassword]; ac_ACR := DeriveACR [AMRPassword]; ac_SessionID := "s"; ac_Pending := false;
     ac_PendingPurpose := LoginPendingNone; ac_EnrollmentDeadline := None; ac_EnrollmentBypassID := ""; ac_StepUpAt := 0%Z |}.

Lemma postponed_enforcement_unwarned ParseAddr ParsePrefix now :
  let def := default_of [plain_rule RequiredAuthnMfa None] in
  let app := policy_of [plain_rule RequiredAuthnMfa (Some {| EnforcementStartAt := Some (now + Second)%Z; GracePeriodSeconds := Some 60%Z;
                                                            AllowAdminBypass := false |})] in
  AppPolicyWeakerThanDefault (Some def) (Some app) = false /\
  Decision (EvaluateSignInPolicy ParseAddr ParsePrefix (EffectivePolicyForEvaluation (Some def) (Some app)) (Some (by_password 1)) "" now) = PolicyAllow /\
  Decision (EvaluateSignInPolicy ParseAddr ParsePrefix (EffectivePolicyForEvaluation (Some def) None) (Some (by_password 1)) "" now) = PolicyStepUpRequired.
Proof.
  split; [done|]. split; [|done]. unfold EvaluateSignInPolicy. cbn -[Z.add Z.ltb Before Second]. unfold rule_verdict, mfaEnforced, Before. cbn -[Z.add Z.ltb Second].
  destruct (Z.ltb_spec now (now + Second)%Z) as [|Hx]; [done|]. unfold Second in Hx. lia.
Qed.

(** Nor at the rules behind the first. *)
Lemma later_rules_unwarned ParseAddr ParsePrefix :
  let def := default_of [plain_rule RequiredAuthnPassword None; plain_rule RequiredAuthnMfa None] in
  let app := policy_of [plain_rule RequiredAuthnPassword None] in
  AppPolicyWeakerThanDefault (Some def) (Some app) = false /\
  Decision (EvaluateSignInPolicy ParseAddr ParsePrefix (EffectivePolicyForEvaluation (Some def) (Some app)) (Some (by_password 1)) "" 0%Z) = PolicyAllow /\
  Decision (EvaluateSignInPolicy ParseAddr ParsePrefix (EffectivePolicyForEvaluation (Some def) None) (Some (by_password 1)) "" 0%Z) = PolicyStepUpRequired.
Proof. done. Qed.

(** ** What is stored *)

Section stored.
Context {E : Type} (lookup : option (string -> string -> result E bool)).
Context (ParsePrefix : string -> option Prefix) (Prefix_String : Prefix -> string).
Notation update := (UpdateSignInPolicy (S := PolicyStore) (E := E) lookup true ParsePrefix Prefix_String).
Notation update_default := (UpdateDefaultSignInPolicy (S := PolicyStore) (E := E) true ParsePrefix Prefix_String).

Record rule_valid (r : SignInRule) : Prop := {
  rv_id : RuleID r <> "";
  rv_name : rule_Name r <> "";
  rv_strength : Strength_Valid (Strength r) = true;
  rv_cidrs : forall c, c ∈ NetworkAllowCIDRs (Condition r) -> exists entry p, ParsePrefix entry = Some p /\ c = Prefix_String (Masked p);
  rv_reauth : forall a, ReauthMaxAgeSeconds (Condition r) = Some a -> (0 < a)%Z;
  rv_enrollment : forall m, MfaEnrollment r = Some m -> Strength r = RequiredAuthnMfa /\ is_Some (EnforcementStartAt m) /\
    exists g, GracePeriodSeconds m = Some g /\ (0 < g)%Z;
}.

Definition rules_valid (rules : list SignInRule) : Prop := Forall rule_valid rules /\ NoDup (map RuleID rules).

(** What is stored for a rule that is given: the same rule, with its texts trimmed,
    the strength filled in, each network in its normal form and, for a rule without
    an identifier, the drawn one. *)
Record rule_kept (uuid : result E string) (now : Time) (given stored : SignInRule) : Prop := {
  rk_id : if decide (TrimSpace (RuleID given) = "") then uuid = Ok (RuleID stored) else RuleID stored = TrimSpace (RuleID given);
  rk_name : rule_Name stored = TrimSpace (rule_Name given);
  rk_enabled : Enabled stored = Enabled given;
  rk_strength : Strength stored = if decide (Strength given = "") then RequiredAuthnPassword else Strength given;
  rk_cidrs : Forall2 (fun entry c => exists p, ParsePrefix (TrimSpace entry) = Some p /\ c = Prefix_String (Masked p))
    (filter (fun entry => TrimSpace entry <> "") (NetworkAllowCIDRs (Condition given))) (NetworkAllowCIDRs (Condition stored));
  rk_reauth : ReauthMaxAgeSeconds (Condition stored) = ReauthMaxAgeSeconds (Condition given);
  rk_enrollment : MfaEnrollment stored = MfaEnrollment given;
  rk_device : AllowTrustedDevice stored = AllowTrustedDevice given;
  (* an enforcement does not begin in the past of the call *)
  rk_start : forall m start, MfaEnrollment given = Some m -> EnforcementStartAt m = Some start -> IsZero now = false -> (now <= start)%Z;
}.

(** A list of rules is stored as another one. *)
Definition rules_kept (uuids : nat -> result E string) (now : Time) (given stored : list SignInRule) : Prop :=
  length stored = length given /\
  forall i r r', given !! i = Some r -> stored !! i = Some r' -> rule_kept (uuids i) now r r'.

Lemma normalizeCIDRs_exact raw out : normalizeCIDRs (E := E) ParsePrefix Prefix_String raw = Ok out <->
  Forall2 (fun entry c => exists p, ParsePrefix (TrimSpace entry) = Some p /\ c = Prefix_String (Masked p))
    (filter (fun entry => TrimSpace entry <> "") raw) out.
Proof.
  revert out. induction raw as [|entry raw IH]; intros out; cbn [normalizeCIDRs].
  - split; [by intros [= <-]|by intros ->%Forall2_nil_inv_l].
  - destruct (decide (TrimSpace entry = "")) as [Ht|Ht].
    + rewrite bool_decide_true, filter_cons_False by (try done; by intros Hx). apply IH.
    + rewrite bool_decide_false, filter_cons_True by done. destruct (ParsePrefix (TrimSpace entry)) as [p|] eqn:Hp; split.
      * intros (rest & Hrest & [= <-])%res_bind_Ok. constructor; [by exists p|by apply IH].
      * intros (c & rest & (p' & Hp' & ->) & Hrest & ->)%Forall2_cons_inv_l. rewrite Hp in Hp'. injection Hp' as <-.
        apply IH in Hrest. by rewrite Hrest.
      * done.
      * intros (c & rest & (p' & Hp' & _) & _)%Forall2_cons_inv_l. by rewrite Hp in Hp'.
Qed.

Lemma kept_networks raw out : Forall2 (fun entry c => exists p, ParsePrefix (TrimSpace entry) = Some p /\ c = Prefix_String (Masked p)) raw out ->
  forall c, c ∈ out -> exists entry p, ParsePrefix entry = Some p /\ c = Prefix_String (Masked p).
Proof. induction 1 as [|e c raw out (p & Hp & Hc) _ IH]; intros c' Hin; [by apply elem_of_nil in Hin|]. apply elem_of_cons in Hin as [->|Hin]; [by exists (TrimSpace e), p|by apply IH]. Qed.

Lemma enrollment_accepted strength m now : enrollment_invalid strength m now = false <->
  (strength = RequiredAuthnMfa /\ is_Some (EnforcementStartAt m) /\ exists g, GracePeriodSeconds m = Some g /\ (0 < g)%Z) /\
  forall start, EnforcementStartAt m = Some start -> IsZero now = false -> (now <= start)%Z.
Proof.
  unfold enrollment_invalid. rewrite !orb_false_iff, !negb_false_iff, bool_decide_eq_true, !is_some_true, andb_false_iff, negb_false_iff. unfold Before. split.
  - intros ((((H1 & H2) & [g Hg]) & H4) & H5). rewrite Hg, Z.leb_gt in H4. split; [split_and!; eauto|]. intros start Hs Hz.
    rewrite Hs, Hz, Z.ltb_ge in H5. by destruct H5.
  - intros ((H1 & H2 & g & Hg & Hpos) & H5). rewrite Hg, Z.leb_gt. split_and!; [done|done|by exists g|done|].
    destruct (IsZero now); [by left|right]. destruct (EnforcementStartAt m) as [start|]; [|done]. apply Z.ltb_ge. by apply H5.
Qed.

Lemma validate_rule_exact uuid now seen r r' seen' : (forall id, uuid = Ok id -> id <> "") ->
  validate_rule (E := E) ParsePrefix Prefix_String uuid now seen r = Ok (r', seen') <->
  rule_kept uuid now r r' /\ rule_valid r' /\ RuleID r' ∉ seen /\ seen' = RuleID r' :: seen.
Proof.
  intros Hu. unfold validate_rule. split.
  - intros (id & Hid & Hr)%res_bind_Ok.
    assert (Hkeep : id <> "" /\ if decide (TrimSpace (RuleID r) = "") then uuid = Ok id else id = TrimSpace (RuleID r)).
    { destruct (decide (TrimSpace (RuleID r) = "")) as [Ht|Ht].
      - rewrite bool_decide_true in Hid by done. destruct uuid as [i|]; [|done]. injection Hid as <-. split; [by apply Hu|done].
      - rewrite bool_decide_false in Hid by done. by injection Hid as <-. }
    destruct Hkeep as [Hne Hkeep]. destruct (contains seen id) eqn:Hseen; [done|]. apply contains_false in Hseen.
    destruct (decide (TrimSpace (rule_Name r) = "")) as [Hn|Hn]; [by rewrite bool_decide_true in Hr|]. rewrite bool_decide_false in Hr by done.
    set (strength := if Strength r =? "" then RequiredAuthnPassword else Strength r) in *.
    assert (Hst : strength = if decide (Strength r = "") then RequiredAuthnPassword else Strength r).
    { unfold strength. by destruct (decide (Strength r = "")); [rewrite bool_decide_true|rewrite bool_decide_false]. }
    destruct (Strength_Valid strength) eqn:Hs; [|done]. cbn [negb] in Hr. apply res_bind_Ok in Hr as (out & Hout & Hr).
    apply normalizeCIDRs_exact in Hout.
    destruct (match ReauthMaxAgeSeconds (Condition r) with Some a => _ | None => false end) eqn:Ha; [done|].
    destruct (match MfaEnrollment r with Some m => _ | None => false end) eqn:Hm; [done|]. injection Hr as <- <-. cbn [RuleID].
    split; [|split; [|by split]].
    + split; try done. intros m start Hx. rewrite Hx in Hm. apply enrollment_accepted in Hm as [_ Hm]. by apply Hm.
    + split; cbn [RuleID rule_Name Strength Condition NetworkAllowCIDRs ReauthMaxAgeSeconds MfaEnrollment]; try done.
      * by eapply kept_networks.
      * intros a Hx. rewrite Hx in Ha. by apply Z.leb_gt in Ha.
      * intros m Hx. rewrite Hx in Hm. by apply enrollment_accepted in Hm as [Hm _].
  - intros (Hk & Hv & Hnew & ->). destruct Hk as [Kid Kname Ken Kst Kc Kre Kenr Kdev Kstart]. destruct Hv as [Vid Vname Vst Vc Vre Venr].
    destruct r' as [id name en st [cs age] enr dev]. cbn [RuleID rule_Name Enabled Strength Condition NetworkAllowCIDRs ReauthMaxAgeSeconds MfaEnrollment AllowTrustedDevice] in *.
    subst name en age enr dev.
    cbv zeta.
    assert (Hid : (if TrimSpace (RuleID r) =? "" then match uuid with Ok id => Ok id | Err e => Err (PolicyPortError e) end
                   else Ok (TrimSpace (RuleID r))) = Ok id).
    { destruct (decide (TrimSpace (RuleID r) = "")) as [Ht|Ht]; [rewrite bool_decide_true by done; by rewrite Kid|rewrite bool_decide_false by done; by rewrite Kid]. }
    rewrite Hid. cbn [res_bind]. apply contains_false in Hnew. rewrite Hnew, (bool_decide_false (TrimSpace (rule_Name r) = "")) by done.
    assert (Hst : (if Strength r =? "" then RequiredAuthnPassword else Strength r) = st).
    { subst st. by destruct (decide (Strength r = "")); [rewrite bool_decide_true|rewrite bool_decide_false]. }
    rewrite Hst, Vst. cbn [negb]. apply normalizeCIDRs_exact in Kc. rewrite Kc. cbn [res_bind].
    assert (Hage : match ReauthMaxAgeSeconds (Condition r) with Some a => (a <=? 0)%Z | None => false end = false).
    { destruct (ReauthMaxAgeSeconds (Condition r)) as [a|]; [|done]. by apply Z.leb_gt, Vre. }
    assert (Henr : match MfaEnrollment r with Some m => enrollment_invalid st m now | None => false end = false).
    { destruct (MfaEnrollment r) as [m|]; [|done]. apply enrollment_accepted. split; [by apply Venr|by intros start; apply Kstart]. }
    by rewrite Hage, Henr.
Qed.

(** The rules are accepted exactly when there is a valid list that they are stored as,
    and it is the result. *)
Lemma validate_rules_exact uuids now rules : (forall i id, uuids i = Ok id -> id <> "") -> forall i seen out,
  validate_rules (E := E) ParsePrefix Prefix_String uuids now i seen rules = Ok out <->
  rules_kept (fun j => uuids (i + j)) now rules out /\ rules_valid out /\ forall id, id ∈ seen -> id ∉ map RuleID out.
Proof.
  intros Hu. induction rules as [|r rules IH]; intros i seen out; cbn [validate_rules].
  - split.
    + intros [= <-]. split; [by split|]. split; [by split; [|constructor]|]. intros id _ Hx. by apply elem_of_nil in Hx.
    + intros ([Hlen _] & _). by destruct out.
  - assert (Hshift : forall r' rest, rules_kept (fun j => uuids (i + j)) now (r :: rules) (r' :: rest) <->
      rule_kept (uuids i) now r r' /\ rules_kept (fun j => uuids (S i + j)) now rules rest).
    { intros r' rest. unfold rules_kept. cbn [length]. split.
      - intros [Hlen Hk]. split; [rewrite <- (Nat.add_0_r i); by apply (Hk 0)|]. split; [lia|]. intros j x y Hx Hy.
        replace (S i + j) with (i + S j) by lia. by apply (Hk (S j)).
      - intros (Hr & Hlen & Hk). split; [lia|]. intros [|j] x y Hx Hy; [injection Hx as <-; injection Hy as <-; by rewrite Nat.add_0_r|].
        replace (i + S j) with (S i + j) by lia. by apply Hk. }
    split.
    + intros ([r' seen'] & Hr & (rest & Hrest & [= <-])%res_bind_Ok)%res_bind_Ok.
      apply validate_rule_exact in Hr as (Hk & Hv & Hnew & ->); [|apply Hu]. apply IH in Hrest as (Hks & (Hall & Hnd) & Hdis).
      split; [by apply Hshift|]. split; [split|].
      * by constructor.
      * cbn [map]. constructor; [|done]. apply Hdis. by left.
      * intros id Hid [->|Hin]%elem_of_cons; [done|]. apply (Hdis id); [by right|done].
    + intros (Hk & [Hall Hnd] & Hdis). destruct out as [|r' rest]; [by destruct Hk|]. apply Hshift in Hk as [Hr Hk].
      apply Forall_cons in Hall as [Hv Hall]. cbn [map] in Hnd, Hdis. apply NoDup_cons in Hnd as [Hnew Hnd].
      assert (Hone : validate_rule (E := E) ParsePrefix Prefix_String (uuids i) now seen r = Ok (r', RuleID r' :: seen)).
      { apply validate_rule_exact; [apply Hu|]. split_and!; try done. intros Hin. destruct (Hdis _ Hin). by left. }
      assert (Hrest : validate_rules (E := E) ParsePrefix Prefix_String uuids now (S i) (RuleID r' :: seen) rules = Ok rest).
      { apply IH. split; [done|]. split; [by split|]. intros id [->|Hin]%elem_of_cons; [done|]. intros Hx. apply (Hdis id Hin). by right. }
      rewrite Hone. cbn [res_bind]. by rewrite Hrest.
Qed.

Record policies_ok (s : PolicyStore) : Prop := {
  ok_apps : forall key p, app_policies s !! key = Some p -> plain (asp_TenantID p) /\
    key = policy_key (asp_TenantID p) (asp_ApplicationID p) /\ rules_valid (asp_Rules p);
  ok_defaults : forall t d, default_policies s !! t = Some d -> dp_TenantID d = t /\ rules_valid (dp_Rules d);
}.

Definition draws (uuids : nat -> result E string) : Prop := forall i id, uuids i = Ok id -> id <> "".

Lemma ensure_run t a (s : PolicyStore) : exists r, (ensureApplicationExists lookup t a : eff PolicyStore policy_event (policy_failure E) unit) s = (r, s, []).
Proof.
  unfold ensureApplicationExists. destruct lookup as [f|]; [|by exists (Err ErrApplicationNotFound)].
  destruct (f t a) as [[]|e]; [by exists (Ok tt)|by exists (Err ErrApplicationNotFound)|by exists (Err (PolicyPortError e))].
Qed.

(** The application is there for the administrators of the tenant. *)
Definition known (t a : string) : Prop := exists f, lookup = Some f /\ f t a = Ok true.

Lemma ensure_known t a (s : PolicyStore) :
  (ensureApplicationExists lookup t a : eff PolicyStore policy_event (policy_failure E) unit) s = (Ok tt, s, []) <-> known t a.
Proof.
  unfold ensureApplicationExists, known. split.
  - destruct lookup as [f|] eqn:Hf; [|done]. destruct (f t a) as [[]|e] eqn:Ha; [|done|done]. by exists f.
  - intros (f & -> & ->). done.
Qed.

(** The rules are well formed, and [stored] is how they are kept. *)
Definition accepted_as (uuids : nat -> result E string) (now : Time) (given stored : list SignInRule) : Prop :=
  rules_kept uuids now given stored /\ rules_valid stored.

Lemma validated uuids now given stored : draws uuids ->
  ValidateSignInPolicyRulesAt (E := E) ParsePrefix Prefix_String uuids given now = Ok stored <-> accepted_as uuids now given stored.
Proof.
  intros Hu. unfold ValidateSignInPolicyRulesAt, accepted_as. rewrite (validate_rules_exact _ _ _ Hu). cbn [Nat.add].
  split; [by intros (? & ? & _)|]. intros [Hk Hv]. split; [done|split; [done|]]. intros id Hid. by apply elem_of_nil in Hid.
Qed.

(** When the policy that is replaced was created, or the time of the call. *)
Definition created_from (old : option Time) (now : Time) : Time :=
  match old with Some created => if IsZero created then now else created | None => now end.

(** An update either is refused, and changes nothing, or stores what it returns. *)
Lemma policy_update_run t uuids clock in_ s : draws uuids ->
  match update t uuids clock in_ s with
  | (Err _, s', w) => s' = s /\ w = [] /\
      ~ (known t (up_ApplicationID in_) /\ exists stored, accepted_as uuids (up_Now in_) (up_Rules in_) stored)
  | (Ok p, s', w) =>
      known t (up_ApplicationID in_) /\ accepted_as uuids (up_Now in_) (up_Rules in_) (asp_Rules p) /\
      asp_TenantID p = t /\ asp_ApplicationID p = up_ApplicationID in_ /\ asp_UpdatedAt p = adminNow clock (up_Now in_) /\
      asp_CreatedAt p = created_from (asp_CreatedAt <$> Get_policy t (up_ApplicationID in_) s) (asp_UpdatedAt p) /\
      s' = {| app_policies := <[policy_key t (up_ApplicationID in_) := p]> (app_policies s); default_policies := default_policies s |} /\
      w = [AppSignInPolicyUpdated (adminNow clock (up_Now in_)) t (up_ActorUserID in_) (up_ApplicationID in_)]
  end.
Proof.
  intros Hu. unfold UpdateSignInPolicy. destruct (ensure_run t (up_ApplicationID in_) s) as [r Hr]. unfold eff_bind at 1. rewrite Hr.
  destruct r as [[]|e]; [|split_and!; [done|done|intros [Hk _]; apply (ensure_known _ _ s) in Hk; by rewrite Hr in Hk]].
  apply ensure_known in Hr. unfold eff_bind at 1, lift.
  destruct (ValidateSignInPolicyRulesAt _ _ _ _ _) as [rules|e] eqn:Hv.
  2: { split_and!; [done|done|]. intros [_ [stored Hs]]. apply (validated _ _ _ _ Hu) in Hs. by rewrite Hv in Hs. }
  apply (validated _ _ _ _ Hu) in Hv. unfold eff_bind, call, emit, eff_ret. cbn [get_policy save_policy memory_policies].
  unfold Get_policy, Save_policy. cbn [app].
  destruct (app_policies s !! policy_key t (up_ApplicationID in_)) as [old|] eqn:Hold; cbn [asp_TenantID asp_ApplicationID].
  - destruct (IsZero (asp_CreatedAt old)) eqn:Hz; cbn [negb dated_policy asp_TenantID asp_ApplicationID asp_Rules asp_UpdatedAt asp_CreatedAt fmap option_fmap option_map created_from];
      rewrite Hold, Hz; cbn [negb dated_policy asp_TenantID asp_ApplicationID asp_Rules asp_UpdatedAt asp_CreatedAt]; by split_and!.
  - rewrite Hold. by split_and!.
Qed.

Lemma update_default_run t uuids clock in_ s : draws uuids ->
  match update_default t uuids clock in_ s with
  | (Err _, s', w) => s' = s /\ w = [] /\ ~ exists stored, accepted_as uuids (ud_Now in_) (ud_Rules in_) stored
  | (Ok d, s', w) =>
      accepted_as uuids (ud_Now in_) (ud_Rules in_) (dp_Rules d) /\
      dp_TenantID d = t /\ dp_UpdatedAt d = adminNow clock (ud_Now in_) /\
      dp_CreatedAt d = created_from (dp_CreatedAt <$> Get_default t s) (dp_UpdatedAt d) /\
      s' = {| app_policies := app_policies s; default_policies := <[t := d]> (default_policies s) |} /\
      w = [TenantDefaultSignInPolicyUpdated (adminNow clock (ud_Now in_)) t (ud_ActorUserID in_)]
  end.
Proof.
  intros Hu. unfold UpdateDefaultSignInPolicy. unfold eff_bind at 1, lift.
  destruct (ValidateSignInPolicyRulesAt _ _ _ _ _) as [rules|e] eqn:Hv.
  2: { split_and!; [done|done|]. intros [stored Hs]. apply (validated _ _ _ _ Hu) in Hs. by rewrite Hv in Hs. }
  apply (validated _ _ _ _ Hu) in Hv. unfold eff_bind, call, emit, eff_ret. cbn [get_default save_default memory_policies].
  unfold Get_default, Save_default. cbn [app].
  destruct (default_policies s !! t) as [old|] eqn:Hold; cbn [dp_TenantID].
  - destruct (IsZero (dp_CreatedAt old)) eqn:Hz; cbn [negb dated_default dp_TenantID dp_Rules dp_UpdatedAt dp_CreatedAt fmap option_fmap option_map created_from];
      rewrite Hold, Hz; cbn [negb dated_default dp_TenantID dp_Rules dp_UpdatedAt dp_CreatedAt]; by split_and!.
  - rewrite Hold. by split_and!.
Qed.

(** ** Sequences of administrative calls *)

Inductive policy_use :=
| Use_update (tenantID : string) (uuids : nat -> result E string) (clock : Time) (in_ : UpdateSignInPolicyInput)
| Use_default (tenantID : string) (uuids : nat -> result E string) (clock : Time) (in_ : UpdateDefaultSignInPolicyInput)
| Use_delete (tenantID applicationID : string).

Definition policy_apply (u : policy_use) (s : PolicyStore) : PolicyStore :=
  match u with
  | Use_update t uuids clock in_ => (update t uuids clock in_ s).1.2
  | Use_default t uuids clock in_ => (update_default t uuids clock in_ s).1.2
  | Use_delete t a => Delete_policy t a s
  end.

(** The application, or the tenant's default, that a call is about. *)
Definition about_app (u : policy_use) : option (string * string) :=
  match u with Use_update t _ _ in_ => Some (t, up_ApplicationID in_) | Use_default _ _ _ _ => None | Use_delete t a => Some (t, a) end.
Definition about_default (u : policy_use) : option string :=
  match u with Use_default t _ _ _ => Some t | _ => None end.

Definition policy_admissible (u : policy_use) : Prop :=
  match u with
  | Use_update t uuids _ _ => plain t /\ draws uuids
  | Use_default _ uuids _ _ => draws uuids
  | Use_delete t _ => plain t
  end.

Fixpoint policies_run (l : list policy_use) (s : PolicyStore) : PolicyStore :=
  match l with [] => s | u :: l => policies_run l (policy_apply u s) end.

Lemma policy_apply_ok u s : policies_ok s -> policy_admissible u -> policies_ok (policy_apply u s).
Proof.
  intros Hs. destruct u as [t uuids clock in_|t uuids clock in_|t a]; cbn [policy_admissible policy_apply].
  - intros [Ht Hu]. pose proof (policy_update_run t uuids clock in_ s Hu) as Hr. destruct (update t uuids clock in_ s) as [[[p|e] s'] w]; cbn [fst snd].
    + destruct Hr as (_ & [_ Hv] & Htp & Hap & _ & _ & -> & _). destruct Hs as [Ha Hd]. split; [|exact Hd]. cbn [app_policies]. intros key q.
      rewrite lookup_insert_Some. intros [[<- <-]|[_ Hq]]; [|by apply Ha]. by rewrite Htp, Hap.
    + by destruct Hr as [-> _].
  - intros Hu. pose proof (update_default_run t uuids clock in_ s Hu) as Hr.
    destruct (update_default t uuids clock in_ s) as [[[p|e] s'] w]; cbn [fst snd].
    + destruct Hr as ([_ Hv] & Htp & _ & _ & -> & _). destruct Hs as [Ha Hd]. split; [exact Ha|]. cbn [default_policies]. intros t' q.
      rewrite lookup_insert_Some. intros [[<- <-]|[_ Hq]]; [by split|by apply Hd].
    + by destruct Hr as [-> _].
  - intros _. destruct Hs as [Ha Hd]. split; [|exact Hd]. cbn [Delete_policy app_policies]. intros key q. rewrite lookup_delete_Some.
    intros [_ Hq]. by apply Ha.
Qed.

Lemma policies_run_ok l : forall s, policies_ok s -> Forall policy_admissible l -> policies_ok (policies_run l s).
Proof.
  induction l as [|u l IH]; intros s Hs; [done|]. intros [Hu Hl]%Forall_cons. cbn [policies_run]. apply IH; [by apply policy_apply_ok|done].
Qed.

Lemma no_policies_ok : policies_ok NewPolicyStore.
Proof. by split. Qed.

Lemma policy_key_ne t a t' a' : plain t -> plain t' -> (t', a') <> (t, a) -> policy_key t a <> policy_key t' a'.
Proof. intros Ht Ht' Hne Heq. apply ScopedKey_inj in Heq as [<- <-]; done. Qed.

(** A call leaves what it is not about. *)
Lemma apply_other_app u s t a : policy_admissible u -> plain t -> about_app u <> Some (t, a) -> Get_policy t a (policy_apply u s) = Get_policy t a s.
Proof.
  destruct u as [t' uuids clock in_|t' uuids clock in_|t' a']; cbn [policy_admissible policy_apply about_app]; unfold Get_policy.
  - intros [Ht' Hu] Ht Hne. pose proof (policy_update_run t' uuids clock in_ s Hu) as Hr.
    destruct (update t' uuids clock in_ s) as [[[p|e] s'] w]; cbn [fst snd]; [|by destruct Hr as [-> _]].
    destruct Hr as (_ & _ & _ & _ & _ & _ & -> & _). cbn [app_policies]. apply lookup_insert_ne, policy_key_ne; [done|done|congruence].
  - intros Hu _ _. pose proof (update_default_run t' uuids clock in_ s Hu) as Hr.
    destruct (update_default t' uuids clock in_ s) as [[[p|e] s'] w]; cbn [fst snd]; [|by destruct Hr as [-> _]].
    by destruct Hr as (_ & _ & _ & _ & -> & _).
  - intros Ht' Ht Hne. cbn [Delete_policy app_policies]. apply lookup_delete_ne, policy_key_ne; [done|done|congruence].
Qed.

Lemma apply_other_default u s t : policy_admissible u -> about_default u <> Some t -> Get_default t (policy_apply u s) = Get_default t s.
Proof.
  destruct u as [t' uuids clock in_|t' uuids clock in_|t' a']; cbn [policy_admissible policy_apply about_default]; unfold Get_default; [| |done].
  - intros [_ Hu] _. pose proof (policy_update_run t' uuids clock in_ s Hu) as Hr.
    destruct (update t' uuids clock in_ s) as [[[p|e] s'] w]; cbn [fst snd]; [|by destruct Hr as [-> _]].
    by destruct Hr as (_ & _ & _ & _ & _ & _ & -> & _).
  - intros Hu Hne. pose proof (update_default_run t' uuids clock in_ s Hu) as Hr.
    destruct (update_default t' uuids clock in_ s) as [[[p|e] s'] w]; cbn [fst snd]; [|by destruct Hr as [-> _]].
    destruct Hr as (_ & _ & _ & _ & -> & _). cbn [default_policies]. apply lookup_insert_ne. congruence.
Qed.

Lemma run_others l : forall s, Forall policy_admissible l ->
  (forall t a, plain t -> Forall (fun u => about_app u <> Some (t, a)) l -> Get_policy t a (policies_run l s) = Get_policy t a s) /\
  (forall t, Forall (fun u => about_default u <> Some t) l -> Get_default t (policies_run l s) = Get_default t s).
Proof.
  induction l as [|u l IH]; intros s; [by split|]. intros [Hu Hl]%Forall_cons. cbn [policies_run]. destruct (IH (policy_apply u s) Hl) as [Ha Hd]. split.
  - intros t a Ht [Hn Hns]%Forall_cons. rewrite Ha by done. by apply apply_other_app.
  - intros t [Hn Hns]%Forall_cons. rewrite Hd by done. by apply apply_other_default.
Qed.

(** What a call does to what it is about, and which event it leaves. *)
Definition policy_effect (u : policy_use) (s : PolicyStore) : Prop :=
  match u with
  | Use_update t uuids clock in_ =>
      match update t uuids clock in_ s with
      | (Err _, s', w) => s' = s /\ w = [] /\
          ~ (known t (up_ApplicationID in_) /\ exists stored, accepted_as uuids (up_Now in_) (up_Rules in_) stored)
      | (Ok p, s', w) =>
          known t (up_ApplicationID in_) /\ accepted_as uuids (up_Now in_) (up_Rules in_) (asp_Rules p) /\
          asp_UpdatedAt p = adminNow clock (up_Now in_) /\
          asp_CreatedAt p = created_from (asp_CreatedAt <$> Get_policy t (up_ApplicationID in_) s) (asp_UpdatedAt p) /\
          Get_policy t (up_ApplicationID in_) s' = Some p /\
          w = [AppSignInPolicyUpdated (asp_UpdatedAt p) t (up_ActorUserID in_) (up_ApplicationID in_)]
      end
  | Use_default t uuids clock in_ =>
      match update_default t uuids clock in_ s with
      | (Err _, s', w) => s' = s /\ w = [] /\ ~ exists stored, accepted_as uuids (ud_Now in_) (ud_Rules in_) stored
      | (Ok d, s', w) =>
          accepted_as uuids (ud_Now in_) (ud_Rules in_) (dp_Rules d) /\
          dp_UpdatedAt d = adminNow clock (ud_Now in_) /\
          dp_CreatedAt d = created_from (dp_CreatedAt <$> Get_default t s) (dp_UpdatedAt d) /\
          Get_default t s' = Some d /\
          w = [TenantDefaultSignInPolicyUpdated (dp_UpdatedAt d) t (ud_ActorUserID in_)]
      end
  | Use_delete t a => Get_policy t a (Delete_policy t a s) = None
  end.

Lemma policy_effects u s : policy_admissible u -> policy_effect u s.
Proof.
  destruct u as [t uuids clock in_|t uuids clock in_|t a]; cbn [policy_admissible policy_effect].
  - intros [_ Hu]. pose proof (policy_update_run t uuids clock in_ s Hu) as Hr. destruct (update t uuids clock in_ s) as [[[p|e] s'] w]; [|done].
    destruct Hr as (Hk & Ha & _ & _ & Hup & Hcr & -> & ->). split_and!; try done; [apply lookup_insert_eq|by rewrite Hup].
  - intros Hu. pose proof (update_default_run t uuids clock in_ s Hu) as Hr. destruct (update_default t uuids clock in_ s) as [[[p|e] s'] w]; [|done].
    destruct Hr as (Ha & _ & Hup & Hcr & -> & ->). split_and!; try done; [apply lookup_insert_eq|by rewrite Hup].
  - intros _. apply lookup_delete_eq.
Qed.

(** C35. Whatever administrators update and delete: (1, 2) what is read for a tenant
    and an application is theirs and well formed, with rules of distinct identifiers
    and networks in their normal form, and so is the default of a tenant.  (3) An
    update is accepted exactly when the application is known, for an application, and
    the rules are well formed; then what is read is the new policy, with the given
    rules as they are kept, dated, and the event is left.  A refused update changes
    nothing.  What is deleted is not read any more.  (4) And it stays so: calls about
    other applications, other tenants or defaults change nothing of what is read for
    an application, nor do calls about applications or other tenants change the
    default of a tenant. *)
Theorem stored_policies_valid l : Forall policy_admissible l ->
  let s := policies_run l NewPolicyStore in
  (forall t a p, plain t -> Get_policy t a s = Some p -> asp_TenantID p = t /\ asp_ApplicationID p = a /\ rules_valid (asp_Rules p)) /\
  (forall t d, Get_default t s = Some d -> dp_TenantID d = t /\ rules_valid (dp_Rules d)) /\
  (forall u, policy_admissible u -> policy_effect u s) /\
  (forall later, Forall policy_admissible later ->
     (forall t a, plain t -> Forall (fun u => about_app u <> Some (t, a)) later -> Get_policy t a (policies_run later s) = Get_policy t a s) /\
     (forall t, Forall (fun u => about_default u <> Some t) later -> Get_default t (policies_run later s) = Get_default t s)).
Proof.
  intros Hl s. pose proof (policies_run_ok l _ no_policies_ok Hl) as Hs. fold s in Hs. split_and!.
  - intros t a p Ht Hp. destruct (ok_apps _ Hs _ _ Hp) as (Htp & Hk & Hv). apply ScopedKey_inj in Hk as [<- <-]; [by split_and!|done|done].
  - intros t d Hd. by apply (ok_defaults _ Hs).
  - intros u. apply policy_effects.
  - intros later. apply run_others.
Qed.
End stored.

(** ** Examples *)

(** A table of texts for the parsers. *)
Definition ipv4 (z : Z) : Addr := {| ip_family := V4; ip_addr := mapped_prefix + z; ip_Zone := "" |}.
Definition demo_ParseAddr (s : string) : option Addr :=
  if s =? "10.1.2.3" then Some (ipv4 167838211)
  else if s =? "::ffff:10.1.2.3" then Some {| ip_family := V6; ip_addr := mapped_prefix + 167838211; ip_Zone := "" |}
  else if s =? "fe80::1%eth0" then Some {| ip_family := V6; ip_addr := Z.shiftl 65152 112 + 1; ip_Zone := "eth0" |}
  else None.
Definition demo_ParsePrefix (s : string) : option Prefix :=
  if s =? "10.0.0.0/8" then Some {| px_ip := ipv4 167772160; px_Bits := 8 |}
  else if s =? "::/0" then Some {| px_ip := {| ip_family := V6; ip_addr := 0; ip_Zone := "" |}; px_Bits := 0 |}
  else None.

Lemma demo_addr_ok s ip : demo_ParseAddr s = Some ip -> addr_ok ip.
Proof.
  unfold demo_ParseAddr. destruct (s =? "10.1.2.3"); [|destruct (s =? _); [|destruct (s =? _); [|done]]]; intros [= <-];
    (split; [by vm_compute|intros Hv; first [discriminate Hv|by vm_compute]]).
Qed.

Lemma demo_prefix_ok s p : demo_ParsePrefix s = Some p -> prefix_ok p.
Proof.
  unfold demo_ParsePrefix. destruct (s =? "10.0.0.0/8"); [|destruct (s =? _); [|done]]; intros [= <-];
    (split; [split; [by vm_compute|intros Hv; first [discriminate Hv|by vm_compute]]|split; [done|by vm_compute]]).
Qed.

Lemma ClientIPAllowed_exact_witness :
  (exists p, demo_ParsePrefix "10.0.0.0/8" = Some p /\ in_network (mapped_prefix + 167838211) p) /\
  ClientIPAllowed demo_ParseAddr demo_ParsePrefix "10.1.2.3" ["::/0"] = false.
Proof.
  split.
  - destruct (proj1 (ClientIPAllowed_exact demo_ParseAddr demo_ParsePrefix demo_addr_ok demo_prefix_ok " ::ffff:10.1.2.3" ["bad"; "10.0.0.0/8"]) ltac:(by vm_compute))
      as (ip & entry & p & Hip & _ & He & Hp & Hin & _).
    apply elem_of_cons in He as [->|He]; [done|]. apply elem_of_cons in He as [->|He]; [|by apply elem_of_nil in He].
    exists p. split; [done|]. vm_compute in Hip. injection Hip as <-. exact Hin.
  - by vm_compute.
Defined.

Definition demo_now : Time := ((62135596800 + 1000) * Second)%Z.
Definition reauth_rule : SignInRule :=
  {| RuleID := "r"; rule_Name := "recent"; Enabled := true; Strength := RequiredAuthnPassword;
     Condition := {| NetworkAllowCIDRs := []; ReauthMaxAgeSeconds := Some 300%Z |}; MfaEnrollment := None; AllowTrustedDevice := None |}.

Lemma EvaluateSignInPolicy_exact_witness :
  Decision (EvaluateSignInPolicy demo_ParseAddr demo_ParsePrefix (Some (policy_of [reauth_rule])) (Some (by_password 700)) "" demo_now) = PolicyAllow /\
  Decision (EvaluateSignInPolicy demo_ParseAddr demo_ParsePrefix (Some (policy_of [reauth_rule])) (Some (by_password 699)) "" demo_now) = PolicyStepUpRequired.
Proof.
  assert (Ht : forall z, (0 <= z <= 1000)%Z -> forall a, Some (by_password z) = Some a -> sane_times a demo_now).
  { intros z Hz a [= <-]. split; [by vm_compute|]. unfold latest, max_int64. cbn. lia. }
  split.
  - destruct (EvaluateSignInPolicy_exact demo_ParseAddr demo_ParsePrefix (Some (policy_of [reauth_rule])) (Some (by_password 700)) "" demo_now) as ([_ H] & _);
      [apply Ht; lia|]. apply H. right. exists (by_password 700). split; [done|]. split; [done|]. intros rule [->|Hr]%elem_of_cons; [|by apply elem_of_nil in Hr].
    intros _. split; [by left|]. split; [done|]. intros a [= <-]. by vm_compute.
  - destruct (EvaluateSignInPolicy_exact demo_ParseAddr demo_ParsePrefix (Some (policy_of [reauth_rule])) (Some (by_password 699)) "" demo_now) as (_ & _ & H);
      [apply Ht; lia|]. destruct (H (by_password 699) [] reauth_rule [] eq_refl eq_refl eq_refl) as (_ & [[_ Hn]|[Hd _]]).
    + intros r Hr. by apply elem_of_nil in Hr.
    + intros Hm. destruct (Hm eq_refl) as (_ & _ & Hr). by destruct (Hr 300%Z eq_refl).
    + destruct Hn. by left.
    + exact Hd.
Defined.

Lemma warning_complete_witness :
  let def := default_of [reauth_rule] in
  let app := policy_of [reauth_rule; plain_rule RequiredAuthnMfa None] in
  let authn := {| ac_UserID := "alice"; ac_AuthTime := 700%Z; ac_AMR := [AMRPassword; AMROTP]; ac_ACR := ACRMFA; ac_SessionID := "s"; ac_Pending := false;
                  ac_PendingPurpose := LoginPendingNone; ac_EnrollmentDeadline := None; ac_EnrollmentBypassID := ""; ac_StepUpAt := 0%Z |} in
  Decision (EvaluateSignInPolicy demo_ParseAddr demo_ParsePrefix (EffectivePolicyForEvaluation (Some def) None) (Some authn) "" demo_now) = PolicyAllow.
Proof.
  intros def app authn.
  apply (warning_complete demo_ParseAddr demo_ParsePrefix def app (Some authn) "" demo_now); [done|by vm_compute|..|done|by vm_compute].
  intros r l d _ [= <-]. done.
Defined.

Definition demo_uuids : nat -> result string string := fun _ => Ok "00000000-0000-4000-8000-0000000000aa".
Definition demo_update (rules : list SignInRule) : UpdateSignInPolicyInput :=
  {| up_ActorUserID := "admin"; up_ApplicationID := "app"; up_Rules := rules; up_Now := 5%Z |}.
Definition known_app : option (string -> string -> result string bool) := Some (fun _ a => Ok (a =? "app")).

(** A policy and a default are stored, and the policy of another application is
    deleted: both are still read; once the policy is deleted, only the default is. *)
Definition demo_default : UpdateDefaultSignInPolicyInput := {| ud_ActorUserID := "admin"; ud_Rules := [reauth_rule]; ud_Now := 5%Z |}.
Definition demo_stored : PolicyStore :=
  policies_run known_app demo_ParsePrefix (fun _ => "10.0.0.0/8")
    [Use_update "acme" demo_uuids 9%Z (demo_update [reauth_rule]); Use_default "acme" demo_uuids 9%Z demo_default] NewPolicyStore.

Lemma stored_policies_valid_witness : exists p,
  Get_policy "acme" "app" (Delete_policy "acme" "other" demo_stored) = Some p /\ asp_TenantID p = "acme" /\
  rules_valid demo_ParsePrefix (fun _ => "10.0.0.0/8") (asp_Rules p) /\
  Get_policy "acme" "app" (Delete_policy "acme" "app" demo_stored) = None /\
  is_Some (Get_default "acme" (Delete_policy "acme" "app" demo_stored)).
Proof.
  assert (Ht : plain "acme") by (split; [done|]; intros Hin; simpl in Hin; by repeat destruct Hin as [Hin|Hin]).
  assert (Hu : draws demo_uuids) by (by intros i id [= <-]).
  destruct (stored_policies_valid known_app demo_ParsePrefix (fun _ => "10.0.0.0/8")
    [Use_update "acme" demo_uuids 9%Z (demo_update [reauth_rule]); Use_default "acme" demo_uuids 9%Z demo_default])
    as (Hp & _ & He & Hlater); [constructor; [by split|constructor; [done|constructor]]|]. fold demo_stored in Hp, He, Hlater.
  destruct (Get_policy "acme" "app" demo_stored) as [p|] eqn:Hread; [|by vm_compute in Hread].
  destruct (Hp "acme" "app" p Ht Hread) as (Hten & _ & Hv).
  destruct (Hlater [Use_delete "acme" "other"]) as [Happ _]; [by constructor|].
  destruct (Hlater [Use_delete "acme" "app"]) as [_ Hdef]; [by constructor|].
  exists p. split_and!; [|done|done| |].
  - rewrite <- Hread. apply (Happ "acme" "app" Ht). by constructor.
  - by apply (He (Use_delete "acme" "app")).
  - replace (Get_default "acme" (Delete_policy "acme" "app" demo_stored)) with (Get_default "acme" demo_stored);
      [vm_compute; by eexists|]. symmetry. apply (Hdef "acme"). by constructor.
Defined.
