(* ===== verification/LoginThrottle.v ===== *)
(** * Authentication by password

    [backend/authentication]: the limits on attempts
    (internal/session/db_memory/login_attempt_throttle.go), the buckets of failures
    (internal/db_memory/auth_event_bucket_store.go), the policy of passwords
    (password/domain/password_policy.go, password_policy_resolver.go) and the
    operation that puts them together
    (internal/usecases/password_authentication.go).  The repository of users, the
    verification of a hash and [strings.ToLower] are functions; the readings of the
    clock are inputs, in their order.

    The theorems: an unknown name and a wrong password are told apart by nothing;
    while the limit of a name or of an address is reached neither the users nor the
    password are looked at; how many passwords can be
    tried for an account in a stretch of time. *)

From Stdlib Require Import Ascii String ZArith Lia.
From stdpp Require Import base strings list gmap.
From S2P Require Import Prelude Effects GoStrings Crypto Resilience.

Local Open Scope string_scope.
Local Open Scope go_scope.

(** ** The limits *)

Definition LoginThrottleKind := string.
Definition LoginThrottleAccount : LoginThrottleKind := "account".
Definition LoginThrottleIP : LoginThrottleKind := "ip".

Record LoginThrottleResult := { Allowed : bool; Locked : bool; RetryAfter : Z }.
Record LoginThrottleConfig := { MaxFailures : Z; WindowSeconds : Z; LockoutSeconds : Z }.
Record LoginThrottleConfigs := { cfg_Account : LoginThrottleConfig; cfg_IP : LoginThrottleConfig }.

Record loginCounter := { failures : Z; counter_expiresAt : Time }.

Record LoginAttemptThrottle := {
  configs : LoginThrottleConfigs;
  counters : gmap string loginCounter;
  locks : gmap string Time;
}.

Definition NewLoginAttemptThrottle (c : LoginThrottleConfigs) : LoginAttemptThrottle := {| configs := c; counters := ∅; locks := ∅ |}.

Definition throttle_with (c : gmap string loginCounter) (l : gmap string Time) (t : LoginAttemptThrottle) : LoginAttemptThrottle :=
  {| configs := configs t; counters := c; locks := l |}.

Definition throttleKey (kind : LoginThrottleKind) (key : string) : string := kind ++ ":" ++ key.

Definition config (kind : LoginThrottleKind) (t : LoginAttemptThrottle) : LoginThrottleConfig :=
  if kind =? LoginThrottleIP then cfg_IP (configs t) else cfg_Account (configs t).

Definition allowed : LoginThrottleResult := {| Allowed := true; Locked := false; RetryAfter := 0%Z |}.

Definition seconds (n : Z) : Duration := wrap64 (n * Second).

Definition TryAcquire (kind : LoginThrottleKind) (key : string) (now : Time) (t : LoginAttemptThrottle) : LoginThrottleResult * LoginAttemptThrottle :=
  let lockKey := throttleKey kind key in
  match locks t !! lockKey with
  | None => (allowed, t)
  | Some expiresAt =>
      let remaining := Sub expiresAt now in
      if remaining <=? 0 then (allowed, throttle_with (counters t) (delete lockKey (locks t)) t)
      else ({| Allowed := false; Locked := true; RetryAfter := ceil_int (SecondsOf remaining) |}, t)
  end.

Definition RecordFailure (kind : LoginThrottleKind) (key : string) (now : Time) (t : LoginAttemptThrottle) : LoginThrottleResult * LoginAttemptThrottle :=
  let config := config kind t in
  let counterKey := throttleKey kind key in
  let fresh := {| failures := 1%Z; counter_expiresAt := Add now (seconds (WindowSeconds config)) |} in
  let counter := match counters t !! counterKey with
                 | None => fresh
                 | Some c => if negb (Before now (counter_expiresAt c)) then fresh
                             else {| failures := (failures c + 1)%Z; counter_expiresAt := counter_expiresAt c |}
                 end in
  if failures counter <? MaxFailures config then (allowed, throttle_with (<[counterKey := counter]> (counters t)) (locks t) t)
  else ({| Allowed := false; Locked := true; RetryAfter := LockoutSeconds config |},
        throttle_with (delete counterKey (counters t)) (<[counterKey := Add now (seconds (LockoutSeconds config))]> (locks t)) t).

Definition RecordSuccess (kind : LoginThrottleKind) (key : string) (t : LoginAttemptThrottle) : LoginAttemptThrottle :=
  let key := throttleKey kind key in throttle_with (delete key (counters t)) (delete key (locks t)) t.

(** ** Buckets of failures *)

Definition AuthEventBucketWindow : Duration := (5 * 60 * Second)%Z.
Definition AuthEventBucketKind := string.
Definition AuthEventBucketFailedLogin : AuthEventBucketKind := "failed_login".
Definition authEventBucketMaxBuckets : Z := 10000.

Record AuthEventBucket := {
  bk_TenantID : string;
  bk_Kind : AuthEventBucketKind;
  bk_KeyHash : string;
  bk_WindowStart : Time;
  bk_Count : Z;
  bk_FirstSeen : Time;
  bk_LastSeen : Time;
}.

(** Tenant, kind, hash and the start of the window in seconds. *)
Notation bucket_key := (string * string * string * Z)%type.
Notation AuthEventBucketStore := (gmap bucket_key AuthEventBucket).

Definition older_key (s : AuthEventBucketStore) (best : option bucket_key) (k : bucket_key) : option bucket_key :=
  match s !! k, best with
  | None, _ => best
  | Some _, None => Some k
  | Some _, Some b => if (k.2 <? b.2)%Z then Some k else best
  end.

(** The keys in the order of the iteration. *)
Definition evictOldest (order : list bucket_key) (s : AuthEventBucketStore) : AuthEventBucketStore :=
  if Z.of_nat (size s) <=? authEventBucketMaxBuckets then s
  else match fold_left (older_key s) order None with Some k => delete k s | None => s end.

(** [Time.Truncate]. *)
Definition Truncate (t : Time) (d : Duration) : Time := if d <=? 0 then t else (t - t mod d)%Z.

Definition counted (now : Time) (b : AuthEventBucket) : AuthEventBucket :=
  {| bk_TenantID := bk_TenantID b; bk_Kind := bk_Kind b; bk_KeyHash := bk_KeyHash b; bk_WindowStart := bk_WindowStart b;
     bk_Count := (bk_Count b + 1)%Z; bk_FirstSeen := bk_FirstSeen b; bk_LastSeen := now |}.

(** The bucket after the record, and whether it is the first of its window.  A new
    bucket that is evicted at once is counted all the same, outside the map. *)
Definition Record_bucket (kind : AuthEventBucketKind) (tenantID keyHash : string) (now : Time) (order : list bucket_key) (s : AuthEventBucketStore)
  : AuthEventBucket * bool * AuthEventBucketStore :=
  let windowStart := Truncate now AuthEventBucketWindow in
  let key := (tenantID, kind, keyHash, Unix windowStart) in
  match s !! key with
  | Some b => (counted now b, false, <[key := counted now b]> s)
  | None =>
      let b := {| bk_TenantID := tenantID; bk_Kind := kind; bk_KeyHash := keyHash; bk_WindowStart := windowStart; bk_Count := 0%Z;
                  bk_FirstSeen := now; bk_LastSeen := 0%Z |} in
      let s := evictOldest order (<[key := b]> s) in
      (counted now b, true, match s !! key with Some _ => <[key := counted now b]> s | None => s end)
  end.

(** How many buckets are deleted, and the rest. *)
Definition DeleteOlderThan (before : Time) (s : AuthEventBucketStore) : Z * AuthEventBucketStore :=
  (Z.of_nat (size (filter (fun e => Before (bk_WindowStart e.2) before = true) s)),
   filter (fun e => Before (bk_WindowStart e.2) before = false) s).

(** ** The policy of passwords *)

Definition PasswordPolicyViolation := string.
Definition ViolationTooShort : PasswordPolicyViolation := "too_short".
Definition ViolationTooLong : PasswordPolicyViolation := "too_long".

Record PasswordPolicySnapshot := {
  MinLength : Z;
  MaxLength : Z;
  HistoryDepth : Z;
  MaxAgeDays : Z;
  PolicyUpdatedAt : option Time;
}.

Definition DefaultPasswordPolicySnapshot : PasswordPolicySnapshot :=
  {| MinLength := 12%Z; MaxLength := 128%Z; HistoryDepth := 5%Z; MaxAgeDays := 0%Z; PolicyUpdatedAt := None |}.

Record PasswordPolicyOverride := {
  po_MinLength : option Z;
  po_MaxLength : option Z;
  po_HistoryDepth : option Z;
  po_MaxAgeDays : option Z;
}.

(** What is read of a tenant. *)
Record tenant_policy := { PasswordPolicyUpdatedAt : option Time; tp_Override : option PasswordPolicyOverride }.

Definition overridden (o : option Z) (d : Z) : Z := match o with Some v => if 0 <? v then v else d | None => d end.

Definition ResolvePasswordPolicy (tenant : option tenant_policy) (defaults : PasswordPolicySnapshot) : PasswordPolicySnapshot :=
  match tenant with
  | None => defaults
  | Some t =>
      let at_ := PasswordPolicyUpdatedAt t in
      match tp_Override t with
      | None => {| MinLength := MinLength defaults; MaxLength := MaxLength defaults; HistoryDepth := HistoryDepth defaults;
                   MaxAgeDays := MaxAgeDays defaults; PolicyUpdatedAt := at_ |}
      | Some o => {| MinLength := overridden (po_MinLength o) (MinLength defaults); MaxLength := overridden (po_MaxLength o) (MaxLength defaults);
                     HistoryDepth := overridden (po_HistoryDepth o) (HistoryDepth defaults);
                     MaxAgeDays := overridden (po_MaxAgeDays o) (MaxAgeDays defaults); PolicyUpdatedAt := at_ |}
      end
  end.

Definition PolicyForTenant (tenant : option tenant_policy) : PasswordPolicySnapshot := ResolvePasswordPolicy tenant DefaultPasswordPolicySnapshot.

Definition ValidatePasswordWith (plain : string) (snap : PasswordPolicySnapshot) : list PasswordPolicyViolation :=
  let length := RuneCountInString plain in
  ((if (plain =? "") || (length <? MinLength snap) then [ViolationTooShort] else []) ++
   (if (plain <>? "") && (MaxLength snap <? length) then [ViolationTooLong] else []))%list.
Definition ValidatePassword (plain : string) : list PasswordPolicyViolation := ValidatePasswordWith plain DefaultPasswordPolicySnapshot.

Definition expiryReference (policyUpdatedAt passwordChangedAt : option Time) : option Time :=
  match policyUpdatedAt, passwordChangedAt with
  | None, None => None
  | None, Some c => Some c
  | Some p, None => Some p
  | Some p, Some c => if After c p then Some c else Some p
  end.

Definition PasswordExpired (snap : PasswordPolicySnapshot) (passwordChangedAt : option Time) (now : Time) : bool :=
  if MaxAgeDays snap <=? 0 then false
  else match expiryReference (PolicyUpdatedAt snap) passwordChangedAt with
       | None => false
       | Some since => After now (since + MaxAgeDays snap * 86400 * Second)%Z
       end.

(** ** An attempt *)

(** What is read of a user. *)
Record login_user := {
  lu_ID : string;
  lu_PasswordHash : string;
  lu_Status : string;
  lu_RequiredActions : list string;
  lu_PasswordChangedAt : option Time;
}.

Definition UserStatusActive : string := "active".
Definition EffectiveStatus (u : login_user) : string := if lu_Status u =? "" then UserStatusActive else lu_Status u.
Definition IsActive (u : login_user) : bool := EffectiveStatus u =? UserStatusActive.

Record PasswordAttempt := { pa_Username : string; pa_Password : string; pa_ClientIP : string; pa_UserAgent : string }.

Definition PasswordRefusal := string.
Definition PasswordRefusalNone : PasswordRefusal := "".
Definition PasswordRefusalThrottled : PasswordRefusal := "throttled".
Definition PasswordRefusalInvalidCredentials : PasswordRefusal := "invalid_credentials".
Definition PasswordRefusalAccountDisabled : PasswordRefusal := "account_disabled".
Definition PasswordRefusalPasswordPolicy : PasswordRefusal := "password_policy".

Record PasswordOutcome := {
  po_User : option login_user;
  Refusal : PasswordRefusal;
  po_RetryAfterSeconds : Z;
  PasswordChangeRequired : bool;
}.

Definition refused (reason : PasswordRefusal) : PasswordOutcome :=
  {| po_User := None; Refusal := reason; po_RetryAfterSeconds := 0%Z; PasswordChangeRequired := false |}.
Definition throttled (r : LoginThrottleResult) : PasswordOutcome :=
  {| po_User := None; Refusal := PasswordRefusalThrottled; po_RetryAfterSeconds := RetryAfter r; PasswordChangeRequired := false |}.

(** Events, and what the metrics record. *)
Inductive login_event :=
| AuthenticationFailed (at_ : Time) (tenantID username reason ip userAgent : string)
| LoginThrottled (at_ : Time) (tenantID kind keyHash : string) (retryAfterSeconds : Z)
| AuthenticationEventAggregated (at_ : Time) (tenantID kind bucketKey keyHash : string) (count : Z) (firstSeen lastSeen : Time) (topKeys : list string)
| RecordLoginThrottle (policy outcome : string).

(** What an attempt asks of the stores.  The tenant is that of the context. *)
Class LoginPort (S E : Type) := {
  try_acquire : string -> LoginThrottleKind -> string -> Time -> S -> result E LoginThrottleResult * S;
  record_failure : string -> LoginThrottleKind -> string -> Time -> S -> result E LoginThrottleResult * S;
  record_success : string -> LoginThrottleKind -> string -> S -> result E unit * S;
  record_bucket : AuthEventBucketKind -> string -> string -> Time -> S -> result E (AuthEventBucket * bool) * S;
}.

(** An error, with the refusal when that was settled before. *)
Inductive login_error (E : Type) :=
| LoginError (e : E)
| RefusedWithError (reason : PasswordRefusal) (e : E).
Arguments LoginError {E} e.
Arguments RefusedWithError {E} reason e.

(** The readings of the clock, in their order. *)
Record readings := {
  at_account : Time;
  at_ip : Time;
  at_record : Time;
  at_emit : Time;
  at_expiry : Time;
}.

Section attempts.
Context {S E : Type} `{LoginPort S E}.
Notation flow := (eff S login_event (login_error E)).

(** The fields of [PasswordAuthentication]: functions of repositories, and whether
    the optional ones are there. *)
Context (FindByUsername : string -> string -> result E (option login_user)) (Verify : string -> string -> result E bool).
Context (SentinelPasswordHash : string) (has_Throttle has_Buckets : bool) (GetSalt : option (string -> result E (list N))).
Context (ToLower : string -> string).

Definition acquireLoginThrottle (tenantID : string) (kind : LoginThrottleKind) (key : string) (now : Time) : flow LoginThrottleResult :=
  if negb has_Throttle then eff_ret allowed
  else fun s =>
    let '(result, s) := try_acquire tenantID kind key now s in
    let outcome := match result with Err _ => "store_unavailable" | Ok r => if negb (Allowed r) then "throttled" else "allowed" end in
    (match result with Ok r => Ok r | Err e => Err (LoginError e) end, s, [RecordLoginThrottle kind outcome]).

Definition hashThrottleKey (key : string) : string := hex_EncodeToString (Sum256 (bytes_of key)).
Definition SaltedHash (salt : list N) (value : string) : string := hex_EncodeToString (Sum256 (salt ++ bytes_of value)%list).

Definition correlationHash (tenantID value : string) : string :=
  match GetSalt with
  | Some get => match get tenantID with Ok salt => SaltedHash salt value | Err _ => hashThrottleKey value end
  | None => hashThrottleKey value
  end.

Definition failedLoginBucketKey (b : AuthEventBucket) : string :=
  bk_Kind b ++ ":" ++ bk_KeyHash b ++ ":" ++ FormatInt (Unix (bk_WindowStart b)).

Definition recordFailedLoginBucket (tenantID keyHash : string) (now : Time) : flow bool :=
  if negb has_Buckets then eff_ret false
  else
    let! result := ignore (record_bucket AuthEventBucketFailedLogin tenantID keyHash now) in
    match result with
    | None => eff_ret false
    | Some (bucket, first) =>
        do! (if (first : bool) then
               emit (AuthenticationEventAggregated now (bk_TenantID bucket) (bk_Kind bucket) (failedLoginBucketKey bucket) (bk_KeyHash bucket)
                 (bk_Count bucket) (bk_FirstSeen bucket) (bk_LastSeen bucket) [bk_KeyHash bucket])
             else eff_ret tt) in
        eff_ret true
    end.

(** One round of the loop over the axes. *)
Definition record_axis (tenantID : string) (kind : LoginThrottleKind) (key : string) (now : Time) : flow bool :=
  if key =? "" then eff_ret false
  else
    let! result := call (RefusedWithError PasswordRefusalInvalidCredentials) (record_failure tenantID kind key now) in
    if negb (Locked result) then eff_ret false
    else
      let keyHash := correlationHash tenantID key in
      do! emit (LoginThrottled now tenantID kind keyHash (RetryAfter result)) in
      recordFailedLoginBucket tenantID keyHash now.

Definition recordLoginFailure (tenantID username clientIP : string) (now : Time) : flow bool :=
  if negb has_Throttle then eff_ret false
  else
    let! a := record_axis tenantID LoginThrottleAccount username now in
    let! b := record_axis tenantID LoginThrottleIP clientIP now in
    eff_ret (a || b).

Definition emitAuthenticationFailure (tenantID : string) (in_ : PasswordAttempt) (reason : string) (now : Time) : flow unit :=
  emit (AuthenticationFailed now tenantID (pa_Username in_) reason (pa_ClientIP in_) (pa_UserAgent in_)).

Definition passwordChangeRequired (tenant : option tenant_policy) (user : login_user) (now : Time) : bool :=
  if contains (lu_RequiredActions user) "update_password" then true
  else if lu_PasswordHash user =? "" then false
  else PasswordExpired (PolicyForTenant tenant) (lu_PasswordChangedAt user) now.

(** The comparison of the password; an error of it is a failure. *)
Definition password_matches (user : option login_user) (password : string) : bool :=
  let hashToVerify := match user with Some u => lu_PasswordHash u | None => SentinelPasswordHash end in
  let ok := if hashToVerify =? "" then Ok false else Verify password hashToVerify in
  match user, ok with Some _, Ok true => true | _, _ => false end.

(** A failure, and what is left to do for the right password. *)
Definition reject_credentials (tenantID : string) (in_ : PasswordAttempt) (r : readings) : flow PasswordOutcome :=
  let! aggregated := recordLoginFailure tenantID (ToLower (pa_Username in_)) (pa_ClientIP in_) (at_record r) in
  do! (if (aggregated : bool) then eff_ret tt else emitAuthenticationFailure tenantID in_ "invalid_credentials" (at_emit r)) in
  eff_ret (refused PasswordRefusalInvalidCredentials).

Definition accept_user (tenantID : string) (tenant : option tenant_policy) (in_ : PasswordAttempt) (r : readings) (user : login_user) : flow PasswordOutcome :=
  if negb (IsActive user) then
    do! emitAuthenticationFailure tenantID in_ "account_disabled" (at_emit r) in
    eff_ret (refused PasswordRefusalAccountDisabled)
  else if negb (bool_decide (ValidatePassword (pa_Password in_) = [])) then eff_ret (refused PasswordRefusalPasswordPolicy)
  else
    do! (if has_Throttle then call LoginError (record_success tenantID LoginThrottleAccount (ToLower (pa_Username in_))) else eff_ret tt) in
    eff_ret {| po_User := Some user; Refusal := PasswordRefusalNone; po_RetryAfterSeconds := 0%Z;
               PasswordChangeRequired := passwordChangeRequired tenant user (at_expiry r) |}.

Definition AuthenticatePassword (tenantID : string) (tenant : option tenant_policy) (in_ : PasswordAttempt) (r : readings) : flow PasswordOutcome :=
  let normalizedUsername := ToLower (pa_Username in_) in
  let! account := acquireLoginThrottle tenantID LoginThrottleAccount normalizedUsername (at_account r) in
  if negb (Allowed account) then eff_ret (throttled account)
  else
    let! ip := (if pa_ClientIP in_ <>? "" then acquireLoginThrottle tenantID LoginThrottleIP (pa_ClientIP in_) (at_ip r) else eff_ret allowed) in
    if negb (Allowed ip) then eff_ret (throttled ip)
    else
      let! user := lift (match FindByUsername tenantID (pa_Username in_) with Ok u => Ok u | Err e => Err (LoginError e) end) in
      match user with
      | Some u => if password_matches user (pa_Password in_) then accept_user tenantID tenant in_ r u else reject_credentials tenantID in_ r
      | None => reject_credentials tenantID in_ r
      end.
End attempts.

(** ** The memory stores *)

Record LoginState := { ls_throttle : LoginAttemptThrottle; ls_buckets : AuthEventBucketStore }.

Definition on_throttle {E A : Type} (op : LoginAttemptThrottle -> A * LoginAttemptThrottle) (s : LoginState) : result E A * LoginState :=
  let '(a, t) := op (ls_throttle s) in (Ok a, {| ls_throttle := t; ls_buckets := ls_buckets s |}).
Definition on_buckets {E A : Type} (op : AuthEventBucketStore -> A * AuthEventBucketStore) (s : LoginState) : result E A * LoginState :=
  let '(a, b) := op (ls_buckets s) in (Ok a, {| ls_throttle := ls_throttle s; ls_buckets := b |}).

(** They do not look at the tenant of an attempt.  [orders] are the iterations over
    the buckets, by the hash that is recorded. *)
Definition memory_login {E : Type} (orders : string -> list bucket_key) : LoginPort LoginState E := {|
  try_acquire _ kind key now := on_throttle (TryAcquire kind key now);
  record_failure _ kind key now := on_throttle (RecordFailure kind key now);
  record_success _ kind key := on_throttle (fun t => (tt, RecordSuccess kind key t));
  record_bucket kind tenantID keyHash now := on_buckets (Record_bucket kind tenantID keyHash now (orders keyHash));
|}.

(** ** What an attempt tells *)

Section attempt.
Context {S E : Type} `{LoginPort S E}.
Context (Verify : string -> string -> result E bool) (Sentinel : string) (has_Throttle has_Buckets : bool) (GetSalt : option (string -> result E (list N))).
Context (ToLower : string -> string).
Notation Authenticate users := (AuthenticatePassword users Verify Sentinel has_Throttle has_Buckets GetSalt ToLower).

Lemma bind_cong {W F A B} (m : eff S W F A) (k1 k2 : A -> eff S W F B) s :
  (forall a s' w, m s = (Ok a, s', w) -> k1 a s' = k2 a s') -> eff_bind m k1 s = eff_bind m k2 s.
Proof. intros Hk. unfold eff_bind. destruct (m s) as [[[a|e] s1] w1] eqn:Hm; [|done]. by rewrite (Hk a s1 w1 eq_refl). Qed.

(** The limits come before the users are looked at. *)
Lemma account_refused users tenantID tenant in_ r s account s1 : has_Throttle = true ->
  try_acquire tenantID LoginThrottleAccount (ToLower (pa_Username in_)) (at_account r) s = (Ok account, s1) -> Allowed account = false ->
  Authenticate users tenantID tenant in_ r s = (Ok (throttled account), s1, [RecordLoginThrottle LoginThrottleAccount "throttled"]).
Proof. intros -> Hacq Hden. unfold AuthenticatePassword, acquireLoginThrottle, eff_bind. cbn [negb]. by rewrite Hacq, Hden. Qed.

Lemma address_refused users tenantID tenant in_ r s account s1 ip s2 : has_Throttle = true ->
  try_acquire tenantID LoginThrottleAccount (ToLower (pa_Username in_)) (at_account r) s = (Ok account, s1) -> Allowed account = true ->
  pa_ClientIP in_ <> "" -> try_acquire tenantID LoginThrottleIP (pa_ClientIP in_) (at_ip r) s1 = (Ok ip, s2) -> Allowed ip = false ->
  Authenticate users tenantID tenant in_ r s =
    (Ok (throttled ip), s2, [RecordLoginThrottle LoginThrottleAccount "allowed"; RecordLoginThrottle LoginThrottleIP "throttled"]).
Proof.
  intros -> Hacq Hall Hne Hacq2 Hden. unfold AuthenticatePassword, acquireLoginThrottle, eff_bind. cbn [negb].
  rewrite Hacq, Hall. cbn [negb]. rewrite (bool_decide_false (pa_ClientIP in_ = "")) by done. cbn [negb]. by rewrite Hacq2, Hden.
Qed.

(** C37. Nothing tells a name that no user has from a user with another password, or
    from one without: the outcome, the events and the stores are the same, whatever
    the stores are and whether or not they fail.  And while a limit is reached, be it
    that of the name or that of the address, every attempt on that name from that
    address has the same outcome, stores and record of the refusal, whoever the users
    are and whatever the password is. *)
Theorem attempts_tell_nothing users1 users2 tenantID tenant in1 in2 r s :
  pa_Username in1 = pa_Username in2 -> pa_ClientIP in1 = pa_ClientIP in2 -> pa_UserAgent in1 = pa_UserAgent in2 ->
  (users1 tenantID (pa_Username in1) = Ok None ->
   (exists u, users2 tenantID (pa_Username in2) = Ok (Some u) /\ password_matches Verify Sentinel (Some u) (pa_Password in2) = false) ->
   Authenticate users1 tenantID tenant in1 r s = Authenticate users2 tenantID tenant in2 r s) /\
  (forall account s1, has_Throttle = true ->
   try_acquire tenantID LoginThrottleAccount (ToLower (pa_Username in1)) (at_account r) s = (Ok account, s1) ->
   (Allowed account = false ->
    let refusal := (Ok (throttled account), s1, [RecordLoginThrottle LoginThrottleAccount "throttled"]) in
    Authenticate users1 tenantID tenant in1 r s = refusal /\ Authenticate users2 tenantID tenant in2 r s = refusal) /\
   (forall ip s2, Allowed account = true -> pa_ClientIP in1 <> "" ->
    try_acquire tenantID LoginThrottleIP (pa_ClientIP in1) (at_ip r) s1 = (Ok ip, s2) -> Allowed ip = false ->
    let refusal := (Ok (throttled ip), s2, [RecordLoginThrottle LoginThrottleAccount "allowed"; RecordLoginThrottle LoginThrottleIP "throttled"]) in
    Authenticate users1 tenantID tenant in1 r s = refusal /\ Authenticate users2 tenantID tenant in2 r s = refusal)).
Proof.
  intros Hn Hip Hua. split.
  - intros H1 (u & H2 & Hu). unfold AuthenticatePassword. rewrite <- Hn, <- Hip in *. apply bind_cong. intros a s1 w1 _.
    destruct (negb (Allowed a)); [done|]. apply bind_cong. intros b s2 w2 _. destruct (negb (Allowed b)); [done|].
    rewrite H1, H2. change (lift (Ok ?x)) with (eff_ret (S := S) (W := login_event) (F := login_error E) x). rewrite !eff_bind_ret, Hu. unfold reject_credentials, emitAuthenticationFailure. by rewrite <- Hn, <- Hip, <- Hua.
  - intros account s1 Hthr Hacq. split.
    + intros Hden. split; [|rewrite Hn in Hacq]; by apply account_refused.
    + intros ip s2 Hall Hne Hacq2 Hden. split; [|rewrite Hn in Hacq; rewrite Hip in Hne, Hacq2]; by eapply address_refused.
Qed.
End attempt.

(** ** How many passwords can be tried *)

Section limits.
Context (K : string) (limit window lockout : Z) (t0 end_ : Time).

(** The stretch is no longer than the window and the lockout. *)
Context (Hw : (end_ <= t0 + window * Second)%Z) (Hl : (end_ <= t0 + lockout * Second)%Z) (Hlim : (1 <= limit)%Z).

(** How many failures can still be counted for the key before the end. *)
Definition left_over (t : LoginAttemptThrottle) : Z :=
  let open :=
    match counters t !! K with
    | None => limit
    | Some c => if (end_ <=? counter_expiresAt c)%Z then (limit - failures c)%Z else (2 * limit - 1 - failures c)%Z
    end in
  match (locks t !! K : option Time) with
  | Some l => if (end_ <=? l)%Z then 0%Z else open
  | None => open
  end.

Definition counter_ok (t : LoginAttemptThrottle) : Prop := forall c, counters t !! K = Some c -> (1 <= failures c < limit)%Z.

Lemma left_over_bounds t : counter_ok t -> (0 <= left_over t <= Z.max limit (2 * limit - 2))%Z.
Proof.
  intros Hc. unfold left_over. unfold counter_ok in Hc. destruct (counters t !! K) as [c|].
  - specialize (Hc c eq_refl). destruct (locks t !! K) as [l|]; repeat destruct (_ <=? _)%Z; lia.
  - destruct (locks t !! K) as [l|]; repeat destruct (_ <=? _)%Z; lia.
Qed.

(** The lock of the key, if there is one, ends before. *)
Definition unlocked (t : LoginAttemptThrottle) : Prop := forall l : Time, locks t !! K = Some l -> (l < end_)%Z.

Lemma Sub_sign a b : (Sub a b <= 0)%Z <-> (a <= b)%Z.
Proof. unfold Sub, min_int64, max_int64. lia. Qed.

Lemma acquire_left kind key now t : (now < end_)%Z ->
  let '(res, t') := TryAcquire kind key now t in
  left_over t' = left_over t /\ (counter_ok t -> counter_ok t') /\ (unlocked t -> unlocked t') /\ configs t' = configs t /\
  (throttleKey kind key = K -> Allowed res = true -> unlocked t').
Proof.
  intros Hnow. unfold TryAcquire. destruct (locks t !! throttleKey kind key) as [l|] eqn:Hlock; cycle 1.
  { split_and!; try done. intros Heq _ l' Hl'. rewrite Heq in Hlock. congruence. }
  destruct (Z.leb_spec (Sub l now) 0) as [Hexp|]; [|done]. apply (proj1 (Sub_sign _ _)) in Hexp. cbn [fst snd].
  assert (Hun : unlocked (throttle_with (counters t) (delete (throttleKey kind key) (locks t)) t) \/ throttleKey kind key <> K).
  { destruct (decide (throttleKey kind key = K)) as [->|]; [left|by right]. intros l'. cbn [locks throttle_with]. by rewrite lookup_delete_eq. }
  split_and!; try done.
  - unfold left_over. cbn [locks counters throttle_with]. destruct (decide (throttleKey kind key = K)) as [Heq|Hne].
    + rewrite Heq in *. rewrite lookup_delete_eq, Hlock. destruct (Z.leb_spec end_ l); [lia|done].
    + by rewrite lookup_delete_ne.
  - intros Hu l'. cbn [locks throttle_with]. rewrite lookup_delete_Some. intros [_ Hl']. by apply Hu.
  - intros Heq _. by destruct Hun.
Qed.

Lemma failure_left kind key now t : (t0 <= now < end_)%Z -> counter_ok t ->
  (throttleKey kind key = K -> unlocked t /\ MaxFailures (config kind t) = limit /\
     seconds (WindowSeconds (config kind t)) = (window * Second)%Z /\ seconds (LockoutSeconds (config kind t)) = (lockout * Second)%Z) ->
  let '(res, t') := RecordFailure kind key now t in
  (left_over t' + Prelude.one (bool_decide (throttleKey kind key = K)) <= left_over t)%Z /\ counter_ok t' /\ configs t' = configs t.
Proof.
  intros Hnow Hok Hkey. unfold RecordFailure. destruct (decide (throttleKey kind key = K)) as [Heq|Hne]; cycle 1.
  { rewrite (bool_decide_false (_ = K)) by done.
    destruct (_ <? _)%Z; split_and!; try done; unfold left_over, counter_ok in *; cbn [counters locks throttle_with Prelude.one];
      rewrite ?lookup_insert_ne, ?lookup_delete_ne by done; try done; rewrite Z.add_0_r; reflexivity. }
  rewrite (bool_decide_true (_ = K)) by done. destruct (Hkey Heq) as (Hun & Hmax & Hwin & Hlock). rewrite Hmax, Hwin, Hlock, Heq.
  assert (Hopen : left_over t = match counters t !! K with None => limit
      | Some c => if (end_ <=? counter_expiresAt c)%Z then (limit - failures c)%Z else (2 * limit - 1 - failures c)%Z end).
  { unfold left_over. destruct (locks t !! K) as [l|] eqn:Hk; [|done]. specialize (Hun l Hk). destruct (Z.leb_spec end_ l); [lia|done]. }
  rewrite Hopen.
  set (fresh := {| failures := 1; counter_expiresAt := Add now (window * Second)%Z |}).
  set (counter := match counters t !! K with None => fresh | Some c => _ end).
  assert (Hcount : (1 <= failures counter)%Z /\
    (failures counter < limit ->
     (if (end_ <=? counter_expiresAt counter) then limit - failures counter else 2 * limit - 1 - failures counter) + 1 <=
     match counters t !! K with None => limit | Some c => if (end_ <=? counter_expiresAt c) then limit - failures c else 2 * limit - 1 - failures c end)%Z /\
    (1 <= match counters t !! K with None => limit | Some c => if (end_ <=? counter_expiresAt c) then limit - failures c else 2 * limit - 1 - failures c end)%Z).
  { unfold counter. destruct (counters t !! K) as [c|] eqn:Hc.
    - specialize (Hok c Hc). unfold Before. destruct (Z.ltb_spec now (counter_expiresAt c)); cbn [negb failures counter_expiresAt fresh];
        unfold Add; destruct (Z.leb_spec end_ (counter_expiresAt c)), (Z.leb_spec end_ (now + window * Second)); lia.
    - cbn [failures counter_expiresAt fresh]. unfold Add. destruct (Z.leb_spec end_ (now + window * Second)); lia. }
  destruct Hcount as (H1 & H2 & H3). destruct (Z.ltb_spec (failures counter) limit) as [Hlt|Hge].
  - split_and!; [|intros c; cbn [counters throttle_with]; rewrite lookup_insert_eq; intros [= <-]; lia|done].
    unfold left_over. cbn [counters locks throttle_with Prelude.one]. rewrite lookup_insert_eq. specialize (H2 Hlt).
    destruct (locks t !! K) as [l|] eqn:Hk; [|lia]. specialize (Hun l Hk). destruct (Z.leb_spec end_ l); lia.
  - split_and!; [|intros c; cbn [counters throttle_with]; by rewrite lookup_delete_eq|done].
    unfold left_over. cbn [counters locks throttle_with Prelude.one]. rewrite lookup_insert_eq. unfold Add.
    destruct (Z.leb_spec end_ (now + lockout * Second)); lia.
Qed.

Lemma success_left kind key t : throttleKey kind key <> K ->
  let t' := RecordSuccess kind key t in left_over t' = left_over t /\ (counter_ok t -> counter_ok t') /\ configs t' = configs t.
Proof.
  intros Hne. unfold RecordSuccess, left_over, counter_ok. cbn [counters locks throttle_with configs]. by rewrite !lookup_delete_ne.
Qed.
End limits.

(** ** Sequences of attempts *)

Lemma throttleKey_inj kind k1 k2 : throttleKey kind k1 = throttleKey kind k2 -> k1 = k2.
Proof. unfold throttleKey. induction kind as [|c kind IH]; simpl; [by intros [=]|]. intros [= Heq]. by apply IH. Qed.

Lemma axes_apart k1 k2 : throttleKey LoginThrottleAccount k1 <> throttleKey LoginThrottleIP k2.
Proof. done. Qed.

Section runs.
Context {E : Type} (users : string -> string -> result E (option login_user)) (Verify : string -> string -> result E bool).
Context (Sentinel : string) (has_Buckets : bool) (GetSalt : option (string -> result E (list N))) (ToLower : string -> string).

Record login_call := {
  lc_TenantID : string;
  lc_Tenant : option tenant_policy;
  lc_in : PasswordAttempt;
  lc_at : readings;
  lc_orders : string -> list bucket_key;
}.

Definition login_serve (c : login_call) : eff LoginState login_event (login_error E) PasswordOutcome :=
  @AuthenticatePassword LoginState E (memory_login (lc_orders c)) users Verify Sentinel true has_Buckets GetSalt ToLower
    (lc_TenantID c) (lc_Tenant c) (lc_in c) (lc_at c).

(** The failures that the attempt records. *)
Definition record_on (kind : LoginThrottleKind) (key : string) (now : Time) (t : LoginAttemptThrottle) : LoginAttemptThrottle :=
  if key =? "" then t else (RecordFailure kind key now t).2.

Definition acquired (key : string) (now : Time) (t : LoginAttemptThrottle) : LoginThrottleResult * LoginAttemptThrottle :=
  if key <>? "" then TryAcquire LoginThrottleIP key now t else (allowed, t).

Lemma axis_run orders tenantID kind key now (s : LoginState) : exists b s' w,
  @record_axis LoginState E (memory_login orders) has_Buckets GetSalt tenantID kind key now s = (Ok b, s', w) /\
  ls_throttle s' = record_on kind key now (ls_throttle s).
Proof.
  unfold record_axis, record_on. destruct (key =? ""); [by exists false, s, []|]. unfold eff_bind at 1, call. cbn [record_failure memory_login].
  unfold on_throttle. destruct (RecordFailure kind key now (ls_throttle s)) as [res t'] eqn:Hr. cbn [snd].
  destruct (negb (Locked res)); [by eexists _, _, _|]. unfold eff_bind at 1, emit. unfold recordFailedLoginBucket.
  destruct (negb has_Buckets); [by eexists _, _, _|]. unfold eff_bind at 1, ignore. cbn [record_bucket memory_login]. unfold on_buckets. cbn [ls_buckets ls_throttle].
  destruct (Record_bucket _ _ _ _ _ _) as [[bucket first] bs]. destruct first; by eexists _, _, _.
Qed.

(** What an attempt does to the limits, and what it answers. *)
Lemma serve_throttle c s res s' w : login_serve c s = (res, s', w) ->
  let U := ToLower (pa_Username (lc_in c)) in let A := pa_ClientIP (lc_in c) in let at_ := lc_at c in
  let t1 := TryAcquire LoginThrottleAccount U (at_account at_) (ls_throttle s) in
  let t2 := acquired A (at_ip at_) t1.2 in
  let refusal := match res with Ok o => Some (Refusal o) | Err _ => None end in
  (ls_throttle s' = t1.2 /\ Allowed t1.1 = false /\ refusal = Some PasswordRefusalThrottled) \/
  (Allowed t1.1 = true /\ ls_throttle s' = t2.2 /\ refusal <> Some PasswordRefusalInvalidCredentials /\ refusal <> Some PasswordRefusalNone) \/
  (Allowed t1.1 = true /\ Allowed t2.1 = true /\ refusal = Some PasswordRefusalNone /\
     ls_throttle s' = RecordSuccess LoginThrottleAccount U t2.2) \/
  (Allowed t1.1 = true /\ Allowed t2.1 = true /\ refusal = Some PasswordRefusalInvalidCredentials /\
     ls_throttle s' = record_on LoginThrottleIP A (at_record at_) (record_on LoginThrottleAccount U (at_record at_) t2.2)).
Proof.
  cbv zeta. set (U := ToLower (pa_Username (lc_in c))). set (A := pa_ClientIP (lc_in c)). unfold login_serve, AuthenticatePassword. fold U A.
  unfold eff_bind at 1. unfold acquireLoginThrottle at 1. cbn [negb try_acquire memory_login]. unfold on_throttle at 1.
  destruct (TryAcquire LoginThrottleAccount U (at_account (lc_at c)) (ls_throttle s)) as [r1 t1] eqn:H1. cbn [fst snd].
  destruct (Allowed r1) eqn:Ha; [|intros [= <- <- _]; by left]. cbn [negb].
  set (s1 := {| ls_throttle := t1; ls_buckets := ls_buckets s |}).
  assert (Hip : exists w, (if A <>? "" then @acquireLoginThrottle LoginState E (memory_login (lc_orders c)) true (lc_TenantID c) LoginThrottleIP A (at_ip (lc_at c))
      else eff_ret allowed) s1 = (Ok (acquired A (at_ip (lc_at c)) t1).1, {| ls_throttle := (acquired A (at_ip (lc_at c)) t1).2; ls_buckets := ls_buckets s |}, w)).
  { unfold acquired. destruct (A <>? ""); [|by exists []]. unfold acquireLoginThrottle. cbn [negb try_acquire memory_login]. unfold on_throttle, s1.
    cbn [ls_throttle ls_buckets]. destruct (TryAcquire LoginThrottleIP A (at_ip (lc_at c)) t1) as [r2 t2]. by eexists. }
  destruct Hip as [w1 Hip]. unfold eff_bind at 1. rewrite Hip. clear Hip.
  destruct (acquired A (at_ip (lc_at c)) t1) as [r2 t2] eqn:H2. cbn [fst snd].
  destruct (Allowed r2) eqn:Ha2; cbn [negb]; [|intros [= <- <- _]; right; by left].
  set (s2 := {| ls_throttle := t2; ls_buckets := ls_buckets s |}).
  assert (Hrej : exists w s', @reject_credentials LoginState E (memory_login (lc_orders c)) true has_Buckets GetSalt ToLower (lc_TenantID c) (lc_in c) (lc_at c) s2
      = (Ok (refused PasswordRefusalInvalidCredentials), s', w) /\
      ls_throttle s' = record_on LoginThrottleIP A (at_record (lc_at c)) (record_on LoginThrottleAccount U (at_record (lc_at c)) t2)).
  { unfold reject_credentials, recordLoginFailure. cbn [negb]. fold U A.
    destruct (axis_run (lc_orders c) (lc_TenantID c) LoginThrottleAccount U (at_record (lc_at c)) s2) as (b1 & s3 & w3 & Hr3 & Ht3).
    destruct (axis_run (lc_orders c) (lc_TenantID c) LoginThrottleIP A (at_record (lc_at c)) s3) as (b2 & s4 & w4 & Hr4 & Ht4).
    assert (Ht : ls_throttle s4 = record_on LoginThrottleIP A (at_record (lc_at c)) (record_on LoginThrottleAccount U (at_record (lc_at c)) t2)) by (by rewrite Ht4, Ht3).
    unfold eff_bind, eff_ret. rewrite Hr3, Hr4. destruct (b1 || b2); by eexists _, _. }
  destruct Hrej as (wr & sr & Hrej & Htr). unfold eff_bind at 1, lift.
  destruct (users (lc_TenantID c) (pa_Username (lc_in c))) as [[u|]|e]; cycle 1.
  { rewrite Hrej. intros [= <- <- _]. right. right. right. by split_and!. }
  { intros [= <- <- _]. right. by left. }
  destruct (password_matches Verify Sentinel (Some u) (pa_Password (lc_in c))); cycle 1.
  { rewrite Hrej. intros [= <- <- _]. right. right. right. by split_and!. }
  unfold accept_user. destruct (negb (IsActive u)); [intros [= <- <- _]; right; by left|].
  destruct (negb (bool_decide _)); [intros [= <- <- _]; right; by left|]. intros [= <- <- _]. right. right. left. by split_and!.
Qed.

Fixpoint login_run (l : list login_call) (s : LoginState) : LoginState :=
  match l with [] => s | c :: l => login_run l (login_serve c s).1.2 end.

Fixpoint login_answers (l : list login_call) (s : LoginState) : list (login_call * result (login_error E) PasswordOutcome) :=
  match l with [] => [] | c :: l => (c, (login_serve c s).1.1) :: login_answers l (login_serve c s).1.2 end.

(** The attempts for one account, or from one address. *)
Definition concerns (kind : LoginThrottleKind) (key : string) (c : login_call) : bool :=
  if kind =? LoginThrottleIP then pa_ClientIP (lc_in c) =? key else ToLower (pa_Username (lc_in c)) =? key.

Definition answered (reason : PasswordRefusal) (a : login_call * result (login_error E) PasswordOutcome) : bool :=
  match a.2 with Ok o => Refusal o =? reason | Err _ => false end.

(** How many of the answers reject a password that was looked at. *)
Definition guesses (kind : LoginThrottleKind) (key : string) (answers : list (login_call * result (login_error E) PasswordOutcome)) : Z :=
  Z.of_nat (length (List.filter (fun a => concerns kind key a.1 && answered PasswordRefusalInvalidCredentials a) answers)).

(** The account signs in nowhere: a success ends the count of its failures. *)
Definition no_success (key : string) (answers : list (login_call * result (login_error E) PasswordOutcome)) : bool :=
  forallb (fun a => negb (concerns LoginThrottleAccount key a.1 && answered PasswordRefusalNone a)) answers.

(** Before the end of a stretch, which begins before the failures are recorded. *)
Definition within (t0 end_ : Time) (c : login_call) : Prop :=
  (at_account (lc_at c) < end_ /\ at_ip (lc_at c) < end_ /\ t0 <= at_record (lc_at c) < end_)%Z.

(** One key, whose limits are [cfg]'s, over a stretch. *)
Context (cfgs : LoginThrottleConfigs) (kd : LoginThrottleKind) (key : string).
Context (Hkd : kd = LoginThrottleAccount \/ kd = LoginThrottleIP) (Hkey : key <> "").
Notation K := (throttleKey kd key).
Notation cfg := (if kd =? LoginThrottleIP then cfg_IP cfgs else cfg_Account cfgs).
Notation ok := (counter_ok K (MaxFailures cfg)).
Context (Hlim : (1 <= MaxFailures cfg)%Z).

Lemma same_axis k k' : k = LoginThrottleAccount \/ k = LoginThrottleIP -> throttleKey k k' = K <-> k = kd /\ k' = key.
Proof.
  intros Hk. split; [|by intros [-> ->]].
  destruct Hk as [->| ->], Hkd as [->| ->]; intros Heq; try done; (split; [done|exact (throttleKey_inj _ _ _ Heq)]).
Qed.

(** The invariant, under any sequence of attempts at any times. *)
Definition kept (t : LoginAttemptThrottle) : Prop := ok t /\ configs t = cfgs.

Lemma acquire_kept k k' now t : kept t -> kept (TryAcquire k k' now t).2.
Proof.
  intros [Hok Hc]. unfold TryAcquire. destruct (locks t !! _); [|by split]. destruct (_ <=? _)%Z; by split.
Qed.

Lemma acquired_kept k' now t : kept t -> kept (acquired k' now t).2.
Proof. unfold acquired. destruct (k' <>? ""); [apply acquire_kept|done]. Qed.

Lemma failure_kept k k' now t : k = LoginThrottleAccount \/ k = LoginThrottleIP -> kept t -> kept (record_on k k' now t).
Proof.
  intros Hk [Hok Hc]. unfold record_on. destruct (k' =? ""); [by split|]. unfold RecordFailure, kept, counter_ok in *.
  set (c' := match counters t !! throttleKey k k' with None => _ | Some c => _ end).
  assert (Hone : throttleKey k k' = K -> (1 <= failures c')%Z).
  { intros Heq. unfold c'. rewrite Heq. destruct (counters t !! K) as [c|]; [|simpl; lia]. specialize (Hok c eq_refl). destruct (negb _); simpl; lia. }
  destruct (Z.ltb_spec (failures c') (MaxFailures (config k t))) as [Hlt|]; cbn [snd counters configs throttle_with]; (split; [|done]); intros c.
  - rewrite lookup_insert_Some. intros [[Heq <-]|[_ Hl]]; [|by apply Hok].
    specialize (Hone Heq). apply same_axis in Heq as [-> ->]; [|done]. unfold config in Hlt. rewrite Hc in Hlt. lia.
  - rewrite lookup_delete_Some. intros [_ Hl]. by apply Hok.
Qed.

Lemma success_kept k k' t : kept t -> kept (RecordSuccess k k' t).
Proof.
  intros [Hok Hc]. split; [|done]. intros c. cbn [RecordSuccess counters throttle_with]. rewrite lookup_delete_Some. intros [_ Hl]. by apply Hok.
Qed.

Lemma serve_kept c s : kept (ls_throttle s) -> kept (ls_throttle (login_serve c s).1.2).
Proof.
  intros Hk. destruct (login_serve c s) as [[res s'] w] eqn:Hs. apply serve_throttle in Hs. cbv zeta in Hs.
  pose proof (acquire_kept LoginThrottleAccount (ToLower (pa_Username (lc_in c))) (at_account (lc_at c)) _ Hk) as H1.
  pose proof (acquired_kept (pa_ClientIP (lc_in c)) (at_ip (lc_at c)) _ H1) as H2.
  destruct Hs as [(Ht & _)|[(_ & Ht & _)|[(_ & _ & _ & Ht)|(_ & _ & _ & Ht)]]]; cbn [fst snd]; rewrite Ht; [done|done|by apply success_kept|].
  apply failure_kept; [by right|]. apply failure_kept; [by left|done].
Qed.

Lemma run_kept l s : kept (ls_throttle s) -> kept (ls_throttle (login_run l s)).
Proof. revert s. induction l as [|c l IH]; intros s Hk; [done|]. by apply IH, serve_kept. Qed.

(** A stretch no longer than the window and the lockout. *)
Context (t0 : Time) (Hwin : (0 <= WindowSeconds cfg <= 9223372036)%Z) (Hlock : (0 <= LockoutSeconds cfg <= 9223372036)%Z).
Notation end_ := (t0 + Z.min (WindowSeconds cfg) (LockoutSeconds cfg) * Second)%Z.
Notation left := (left_over K (MaxFailures cfg) end_).

Lemma seconds_small n : (0 <= n <= 9223372036)%Z -> seconds n = (n * Second)%Z.
Proof. intros Hn. apply wrap64_id. unfold min_int64, max_int64, Second. lia. Qed.

Lemma record_left k k' now t : k = LoginThrottleAccount \/ k = LoginThrottleIP -> (t0 <= now < end_)%Z -> kept t ->
  (throttleKey k k' = K -> unlocked K end_ t) ->
  (left (record_on k k' now t) + Prelude.one (bool_decide (throttleKey k k' = K)) <= left t)%Z /\
  (throttleKey k k' <> K -> unlocked K end_ t -> unlocked K end_ (record_on k k' now t)).
Proof.
  intros Hk Hnow [Hok Hc] Hun. unfold record_on. destruct (decide (k' = "")) as [->|Hne].
  { rewrite (bool_decide_false (_ = K)); [simpl; split; [lia|done]|]. intros [_ <-]%same_axis; [by apply Hkey|done]. }
  rewrite (bool_decide_false (k' = "")) by done.
  pose proof (failure_left K (MaxFailures cfg) (WindowSeconds cfg) (LockoutSeconds cfg) t0 end_) as Hf.
  assert (Hm : forall x, (Z.min (WindowSeconds cfg) (LockoutSeconds cfg) <= x)%Z -> (end_ <= t0 + x * Second)%Z).
  { intros x Hx. unfold Second. lia. }
  specialize (Hf (Hm _ (Z.le_min_l _ _)) (Hm _ (Z.le_min_r _ _)) Hlim k k' now t Hnow Hok).
  assert (Hcfg : throttleKey k k' = K -> config k t = cfg).
  { intros [-> ->]%same_axis; [|done]. unfold config. by rewrite Hc. }
  split.
  - destruct (RecordFailure k k' now t) as [res t']. apply Hf. intros Heq. rewrite (Hcfg Heq), !seconds_small by done. by split; [apply Hun|].
  - intros Hother Hu l. unfold RecordFailure. destruct (_ <? _)%Z; cbn [snd locks throttle_with]; [apply Hu|]. rewrite lookup_insert_ne by done. apply Hu.
Qed.

Lemma acquired_left A now t : (now < end_)%Z ->
  left (acquired A now t).2 = left t /\ (unlocked K end_ t -> unlocked K end_ (acquired A now t).2) /\
  (kd = LoginThrottleIP -> A = key -> Allowed (acquired A now t).1 = true -> unlocked K end_ (acquired A now t).2).
Proof.
  intros Hnow. unfold acquired. destruct (decide (A = "")) as [Heq|Hne].
  - rewrite (bool_decide_true (A = "")) by done. split_and!; try done. intros _ Hkk. by rewrite Hkk in Heq.
  - rewrite (bool_decide_false (A = "")) by done. cbn [negb].
    pose proof (acquire_left K (MaxFailures cfg) end_ LoginThrottleIP A now t Hnow) as H2.
    destruct (TryAcquire LoginThrottleIP A _ _) as [r2 t2]. destruct H2 as (Hl2 & _ & Hu2 & _ & Hu2'). split_and!; [done|done|].
    intros -> HA. apply Hu2'. by rewrite HA.
Qed.

Lemma one_axis c b :
  let U := ToLower (pa_Username (lc_in c)) in let A := pa_ClientIP (lc_in c) in
  (Prelude.one (concerns kd key c && b) <=
   Prelude.one (bool_decide (throttleKey LoginThrottleAccount U = K)) + Prelude.one (bool_decide (throttleKey LoginThrottleIP A = K)))%Z.
Proof.
  cbv zeta. set (U := ToLower (pa_Username (lc_in c))). set (A := pa_ClientIP (lc_in c)).
  pose proof (one_range (bool_decide (throttleKey LoginThrottleAccount U = K))) as Hb1.
  pose proof (one_range (bool_decide (throttleKey LoginThrottleIP A = K))) as Hb2. pose proof (one_range b) as Hb3.
  destruct (concerns kd key c) eqn:Hcon; cbn [andb]; [|change (Prelude.one false) with 0%Z; lia].
  enough (throttleKey LoginThrottleAccount U = K \/ throttleKey LoginThrottleIP A = K) as [Hq|Hq];
    [rewrite (bool_decide_true _ Hq); change (Prelude.one true) with 1%Z; lia..|].
  unfold concerns in Hcon. destruct (bool_decide_reflect (kd = LoginThrottleIP)) as [Hq|Hq]; apply bool_decide_eq_true in Hcon.
  - right. by rewrite Hq, <- Hcon.
  - left. destruct Hkd as [Hq'|]; [|done]. by rewrite Hq', <- Hcon.
Qed.

(** An attempt and what is left to be tried. *)
Lemma serve_left c s : within t0 end_ c -> kept (ls_throttle s) ->
  let a := (c, (login_serve c s).1.1) in
  (kd = LoginThrottleAccount -> concerns LoginThrottleAccount key c && answered PasswordRefusalNone a = false) ->
  (left (ls_throttle (login_serve c s).1.2) + Prelude.one (concerns kd key c && answered PasswordRefusalInvalidCredentials a) <= left (ls_throttle s))%Z.
Proof.
  intros (Hnow1 & Hnow2 & Hnow3) Hk. destruct (login_serve c s) as [[res s'] w] eqn:Hs. apply serve_throttle in Hs. cbv zeta in *. cbn [fst snd].
  intros Hsucc. unfold answered in *. cbn [snd] in *.
  set (U := ToLower (pa_Username (lc_in c))) in *. set (A := pa_ClientIP (lc_in c)) in *.
  pose proof (acquire_left K (MaxFailures cfg) end_ LoginThrottleAccount U (at_account (lc_at c)) (ls_throttle s) Hnow1) as H1.
  pose proof (acquire_kept LoginThrottleAccount U (at_account (lc_at c)) _ Hk) as Hk1.
  destruct (TryAcquire LoginThrottleAccount U _ _) as [r1 t1]. destruct H1 as (Hl1 & _ & _ & _ & Hu1). cbn [fst snd] in *.
  pose proof (acquired_left A (at_ip (lc_at c)) t1 Hnow2) as H2.
  pose proof (acquired_kept A (at_ip (lc_at c)) _ Hk1) as Hk2.
  destruct (acquired A _ t1) as [r2 t2]. destruct H2 as (Hl2 & Hu2 & Hu2'). cbn [fst snd] in *.
  assert (Hno : forall reason, reason <> PasswordRefusalInvalidCredentials ->
    (match res with Ok o => Some (Refusal o) | Err _ => None end) = Some reason \/ (match res with Ok o => Some (Refusal o) | Err _ => None end) <> Some PasswordRefusalInvalidCredentials ->
    (match res with Ok o => Refusal o =? PasswordRefusalInvalidCredentials | Err _ => false end) = false).
  { intros reason Hr. destruct res as [o|]; [|done]. intros [[= Hq]|Hq]; apply bool_decide_eq_false_2; congruence. }
  destruct Hs as [(Ht & _ & Href)|[(_ & Ht & Href & _)|[(_ & _ & Href & Ht)|(Ha1 & Ha2 & Href & Ht)]]]; rewrite Ht.
  - rewrite (Hno PasswordRefusalThrottled) by (done || by left). rewrite andb_false_r. simpl. lia.
  - rewrite (Hno PasswordRefusalThrottled) by (done || by right). rewrite andb_false_r. simpl. lia.
  - rewrite (Hno PasswordRefusalNone) by (done || by left). rewrite andb_false_r.
    destruct (success_left K (MaxFailures cfg) end_ LoginThrottleAccount U t2) as [Hl3 _]; [|simpl; lia].
    intros [Hq HU]%same_axis; [|by left]. destruct res as [o|]; [|done]. injection Href as Href. specialize (Hsucc (eq_sym Hq)).
    rewrite Href, (bool_decide_true (_ = _)), andb_true_r in Hsucc by done. unfold concerns in Hsucc. cbn [bool_decide] in Hsucc.
    rewrite (bool_decide_false (LoginThrottleAccount = LoginThrottleIP)), bool_decide_eq_false in Hsucc by done. by apply Hsucc.
  - pose proof (record_left LoginThrottleAccount U (at_record (lc_at c)) t2 (or_introl eq_refl) Hnow3 Hk2) as [Hf1 Hf1'].
    { intros [<- HU]%same_axis; [|by left]. apply Hu2, Hu1; [by rewrite HU|done]. }
    pose proof (failure_kept LoginThrottleAccount U (at_record (lc_at c)) t2 (or_introl eq_refl) Hk2) as Hk3.
    pose proof (record_left LoginThrottleIP A (at_record (lc_at c)) _ (or_intror eq_refl) Hnow3 Hk3) as [Hf2 _].
    { intros [Hq HA]%same_axis; [|by right]. apply Hf1'; [|by apply Hu2']. intros [Hq' _]%same_axis; [|by left]. by rewrite <- Hq in Hq'. }
    pose proof (one_axis c (answered PasswordRefusalInvalidCredentials (c, res))) as Hone. cbv zeta in Hone. fold U A in Hone.
    unfold answered in Hone. cbn [snd] in Hone. lia.
Qed.

Lemma answers_left l s : Forall (within t0 end_) l -> kept (ls_throttle s) ->
  (kd = LoginThrottleAccount -> no_success key (login_answers l s) = true) ->
  (guesses kd key (login_answers l s) <= left (ls_throttle s))%Z.
Proof.
  revert s. induction l as [|c l IH]; intros s Hall Hk Hno.
  { apply left_over_bounds; [done|]. by apply Hk. }
  apply Forall_cons in Hall as [Hc Hall]. cbn [login_answers] in *. unfold no_success in *. cbn [forallb fst] in Hno.
  pose proof (serve_left c s Hc Hk) as Hs. cbv zeta in Hs.
  specialize (IH (login_serve c s).1.2 Hall (serve_kept c s Hk)).
  assert (Hstep : forall a rest, guesses kd key (a :: rest) = (Prelude.one (concerns kd key a.1 && answered PasswordRefusalInvalidCredentials a) + guesses kd key rest)%Z).
  { intros a rest. unfold guesses. cbn [List.filter]. destruct (concerns kd key a.1 && _); unfold Prelude.one; cbn [length]; lia. }
  rewrite Hstep. cbn [fst].
  assert (Hrest : kd = LoginThrottleAccount -> _) by (intros Hq; exact (proj2 (proj1 (andb_true_iff _ _) (Hno Hq)))).
  assert (Hfirst : kd = LoginThrottleAccount -> _) by (intros Hq; exact (proj1 (negb_true_iff _) (proj1 (proj1 (andb_true_iff _ _) (Hno Hq))))).
  specialize (IH Hrest). specialize (Hs Hfirst). lia.
Qed.
End runs.

(** C36. However attempts follow each other, and whatever was done before, in a stretch
    of time as long as the window and the lockout no more than [2 * MaxFailures - 2]
    passwords (one, when [MaxFailures] is one) are rejected for an account that nobody
    signs in to, and no more from an address: the rest is not looked at. *)
Theorem guesses_bounded {E : Type} users Verify Sentinel has_Buckets (GetSalt : option (string -> result E (list N))) ToLower
    cfgs kd key (l1 l2 : list login_call) (t0 : Time) :
  let cfg := if kd =? LoginThrottleIP then cfg_IP cfgs else cfg_Account cfgs in
  let fresh := {| ls_throttle := NewLoginAttemptThrottle cfgs; ls_buckets := ∅ |} in
  let answers := login_answers users Verify Sentinel has_Buckets GetSalt ToLower l2 (login_run users Verify Sentinel has_Buckets GetSalt ToLower l1 fresh) in
  kd = LoginThrottleAccount \/ kd = LoginThrottleIP -> key <> "" -> (1 <= MaxFailures cfg)%Z ->
  (0 <= WindowSeconds cfg <= 9223372036)%Z -> (0 <= LockoutSeconds cfg <= 9223372036)%Z ->
  Forall (within t0 (t0 + Z.min (WindowSeconds cfg) (LockoutSeconds cfg) * Second)%Z) l2 ->
  (kd = LoginThrottleAccount -> no_success ToLower key answers = true) ->
  (guesses ToLower kd key answers <= Z.max (MaxFailures cfg) (2 * MaxFailures cfg - 2))%Z.
Proof.
  cbv zeta. intros Hkd Hkey Hlim Hwin Hlock Hall Hno.
  match type of Hno with context [login_run _ _ _ _ _ _ l1 ?f] => assert (Hk : kept cfgs kd key (ls_throttle f)) end.
  { split; [|done]. intros c. cbn [NewLoginAttemptThrottle counters ls_throttle]. by rewrite lookup_empty. }
  apply (run_kept users Verify Sentinel has_Buckets GetSalt ToLower cfgs kd key Hkd Hlim l1) in Hk.
  etransitivity; [apply (answers_left users Verify Sentinel has_Buckets GetSalt ToLower cfgs kd key Hkd Hkey Hlim t0 Hwin Hlock _ _ Hall Hk Hno)|].
  apply left_over_bounds; [done|]. apply Hk.
Qed.

(** ** Examples *)

Module login_examples.
(** [acme] has a user [alice]; [beta] has one too, with another password. *)
Definition users (tenantID name : string) : result unit (option login_user) :=
  Ok (if name =? "alice" then Some {| lu_ID := tenantID ++ "/u1"; lu_PasswordHash := tenantID; lu_Status := ""; lu_RequiredActions := []; lu_PasswordChangedAt := None |} else None).
Definition Verify (password hash : string) : result unit bool := Ok (password =? hash ++ "-right-password").
Definition cfgs : LoginThrottleConfigs :=
  {| cfg_Account := {| MaxFailures := 10; WindowSeconds := 900; LockoutSeconds := 900 |};
     cfg_IP := {| MaxFailures := 30; WindowSeconds := 900; LockoutSeconds := 900 |} |}.
Definition attempt_at (now : Time) (tenantID name password : string) : login_call :=
  {| lc_TenantID := tenantID; lc_Tenant := None; lc_in := {| pa_Username := name; pa_Password := password; pa_ClientIP := ""; pa_UserAgent := "" |};
     lc_at := {| at_account := now; at_ip := now; at_record := now; at_emit := now; at_expiry := now |}; lc_orders := fun _ => [] |}.
Definition fresh : LoginState := {| ls_throttle := NewLoginAttemptThrottle cfgs; ls_buckets := ∅ |}.
Notation answers := (login_answers users Verify "" true None (fun s => s)).
Notation run := (login_run users Verify "" true None (fun s => s)).
Definition at_second (n : Z) : Time := ((62135596800 + n) * Second)%Z.

Definition wrong_guess : login_call := attempt_at (at_second 100) "acme" "bob" "wrong".
(** What the sentinel's hash would accept. *)
Definition dummy_guess : login_call := attempt_at (at_second 100) "acme" "bob" "dummy-right-password".

(** The right password and a wrong one, from an address that is locked out. *)
Definition from_locked (name password : string) : PasswordAttempt :=
  {| pa_Username := name; pa_Password := password; pa_ClientIP := "10.0.0.1"; pa_UserAgent := "" |}.
Definition locked_address : LoginState :=
  {| ls_throttle := throttle_with ∅ {["ip:10.0.0.1" := at_second 500]} (NewLoginAttemptThrottle cfgs); ls_buckets := ∅ |}.

(** One failure at second 100, eight right after it, and many more after the window. *)
Definition before_ : list login_call := [attempt_at (at_second 100) "acme" "alice" "wrong"].
Definition burst : list login_call :=
  (replicate 8 (attempt_at (at_second 101) "acme" "alice" "wrong") ++ replicate 40 (attempt_at (at_second 1000) "acme" "alice" "wrong"))%list.
End login_examples.

Lemma guesses_bounded_witness :
  (guesses (fun s => s) LoginThrottleAccount "alice" (login_answers login_examples.users login_examples.Verify "" true None (fun s => s) login_examples.burst
    (login_run login_examples.users login_examples.Verify "" true None (fun s => s) login_examples.before_ login_examples.fresh)) <= 18)%Z.
Proof.
  apply (guesses_bounded login_examples.users login_examples.Verify "" true None (fun s => s) login_examples.cfgs LoginThrottleAccount "alice"
    login_examples.before_ login_examples.burst (login_examples.at_second 101)); [by left|done|vm_compute; by intros|vm_compute; by split|vm_compute; by split| |].
  - apply Forall_app. split; apply Forall_replicate; by split_and!.
  - intros _. by vm_compute.
Defined.

(** The bound is reached, with nine tenths of the failures after the window. *)
Lemma guesses_reached :
  guesses (fun s => s) LoginThrottleAccount "alice" (login_answers login_examples.users login_examples.Verify "" true None (fun s => s) login_examples.burst
    (login_run login_examples.users login_examples.Verify "" true None (fun s => s) login_examples.before_ login_examples.fresh)) = 18%Z.
Proof. by vm_compute. Qed.

Lemma attempts_tell_nothing_witness :
  let run users in_ s := @AuthenticatePassword LoginState unit (memory_login (fun _ => [])) users login_examples.Verify "dummy" true true None (fun s => s) "acme" None in_
    (lc_at login_examples.wrong_guess) s in
  run (fun _ _ => Ok None) (lc_in login_examples.dummy_guess) login_examples.fresh =
    run (fun _ _ => login_examples.users "acme" "alice") (lc_in login_examples.wrong_guess) login_examples.fresh /\
  run login_examples.users (login_examples.from_locked "alice" "acme-right-password") login_examples.locked_address =
    run (fun _ _ => Ok None) (login_examples.from_locked "alice" "wrong") login_examples.locked_address.
Proof.
  cbv zeta. split.
  - refine (proj1 (@attempts_tell_nothing LoginState unit (memory_login (fun _ => [])) login_examples.Verify "dummy" true true None (fun s => s)
      (fun _ _ => Ok None) (fun _ _ => login_examples.users "acme" "alice") "acme" None (lc_in login_examples.dummy_guess) (lc_in login_examples.wrong_guess)
      (lc_at login_examples.wrong_guess) login_examples.fresh eq_refl eq_refl eq_refl) eq_refl _).
    eexists. split; [vm_compute; reflexivity|by vm_compute].
  - destruct (@attempts_tell_nothing LoginState unit (memory_login (fun _ => [])) login_examples.Verify "dummy" true true None (fun s => s)
      login_examples.users (fun _ _ => Ok None) "acme" None (login_examples.from_locked "alice" "acme-right-password") (login_examples.from_locked "alice" "wrong")
      (lc_at login_examples.wrong_guess) login_examples.locked_address eq_refl eq_refl eq_refl) as [_ H].
    destruct (H allowed login_examples.locked_address eq_refl ltac:(by vm_compute)) as [_ Hip].
    destruct (Hip {| Allowed := false; Locked := true; RetryAfter := 400%Z |} login_examples.locked_address eq_refl ltac:(done) ltac:(by vm_compute) eq_refl) as [-> ->].
    reflexivity.
Defined.

(** The limits of the memory store are not those of a tenant: ten failures for a name
    of one tenant lock the user of that name in another one out, who has the right
    password and signs in before. *)
Lemma cross_tenant_lockout :
  let failures := replicate 10 (login_examples.attempt_at (login_examples.at_second 100) "acme" "alice" "wrong") in
  let visit := login_examples.attempt_at (login_examples.at_second 101) "beta" "alice" "beta-right-password" in
  let answer l := map (answered PasswordRefusalNone) (login_answers login_examples.users login_examples.Verify "" true None (fun s => s) [visit]
    (login_run login_examples.users login_examples.Verify "" true None (fun s => s) l login_examples.fresh)) in
  answer [] = [true] /\ answer failures = [false] /\
  map (answered PasswordRefusalThrottled) (login_answers login_examples.users login_examples.Verify "" true None (fun s => s) [visit]
    (login_run login_examples.users login_examples.Verify "" true None (fun s => s) failures login_examples.fresh)) = [true].
Proof. by vm_compute. Qed.

(** An attempt that a limit refuses emits no event, in any store. *)
Lemma throttled_attempt_silent {S E : Type} `{LoginPort S E} users Verify Sentinel has_Buckets (GetSalt : option (string -> result E (list N))) ToLower
    tenantID tenant in_ r s res s' :
  try_acquire tenantID LoginThrottleAccount (ToLower (pa_Username in_)) (at_account r) s = (Ok res, s') -> Allowed res = false ->
  (AuthenticatePassword users Verify Sentinel true has_Buckets GetSalt ToLower tenantID tenant in_ r s).2 = [RecordLoginThrottle LoginThrottleAccount "throttled"].
Proof. intros Hacq Hden. unfold AuthenticatePassword, acquireLoginThrottle, eff_bind. cbn [negb]. by rewrite Hacq, Hden. Qed.
