(* ===== verification/Sessions.v ===== *)
(** * Login sessions: the record, the cookie and the memory store

    [backend/authentication/session/domain/login_session.go], the memory store
    (internal/session/db_memory/sessions.go) and the choice of a session by a cookie
    (sessionIDFromCookieHeader of internal/session/usecases/session_manager.go).  The
    store hands out pointers to its records: the model has the heap of records and
    the map of pointers.  [records] is what the store stands for, a map of records,
    and the lemmas say what each method does to it. *)

From Stdlib Require Import Ascii String ZArith Lia.
From stdpp Require Import base strings list gmap.
From S2P Require Import Prelude GoStrings Rules Policy Keyset Authn.

Local Open Scope string_scope.
Local Open Scope go_scope.

(** ** The record *)

Definition SessionEndReason := string.
Definition SessionEndLogout : SessionEndReason := "logout".
Definition SessionEndSelfRevoke : SessionEndReason := "self_revoke".
Definition SessionEndAdminRevoke : SessionEndReason := "admin_revoke".

Record LoginSession := {
  se_ID : string;
  se_TenantID : string;
  se_UserID : string;
  se_AuthTime : Z;
  se_AMR : list string;
  se_ACR : string;
  se_Pending : bool;
  se_PendingPurpose : LoginPendingPurpose;
  se_EnrollmentDeadline : option Time;
  se_EnrollmentBypassID : string;
  se_ExpiresAt : Time;
  se_StepUpAt : Z;
  se_LastSeenAt : Time;
  se_RevokedAt : option Time;
  se_RevokeReason : option SessionEndReason;
}.

Definition LoginSessionTouchInterval : Duration := (5 * 60 * Second)%Z.

Definition session_Active (x : LoginSession) (now : Time) : bool :=
  match se_RevokedAt x with None => Before now (se_ExpiresAt x) | Some _ => false end.

(** The same session with other methods and pending step. *)
Definition with_factor (amr : list string) (acr : string) (pending : bool) (purpose : LoginPendingPurpose) (deadline : option Time) (bypass : string)
    (x : LoginSession) : LoginSession :=
  {| se_ID := se_ID x; se_TenantID := se_TenantID x; se_UserID := se_UserID x; se_AuthTime := se_AuthTime x; se_AMR := amr; se_ACR := acr;
     se_Pending := pending; se_PendingPurpose := purpose; se_EnrollmentDeadline := deadline; se_EnrollmentBypassID := bypass;
     se_ExpiresAt := se_ExpiresAt x; se_StepUpAt := se_StepUpAt x; se_LastSeenAt := se_LastSeenAt x;
     se_RevokedAt := se_RevokedAt x; se_RevokeReason := se_RevokeReason x |}.

(** The same session with other marks. *)
Definition with_marks (tenantID : string) (stepUp : Z) (seen : Time) (revoked : option Time) (reason : option SessionEndReason) (x : LoginSession) : LoginSession :=
  {| se_ID := se_ID x; se_TenantID := tenantID; se_UserID := se_UserID x; se_AuthTime := se_AuthTime x; se_AMR := se_AMR x; se_ACR := se_ACR x;
     se_Pending := se_Pending x; se_PendingPurpose := se_PendingPurpose x; se_EnrollmentDeadline := se_EnrollmentDeadline x;
     se_EnrollmentBypassID := se_EnrollmentBypassID x; se_ExpiresAt := se_ExpiresAt x; se_StepUpAt := stepUp; se_LastSeenAt := seen;
     se_RevokedAt := revoked; se_RevokeReason := reason |}.

Definition session_Revoke (reason : SessionEndReason) (now : Time) (x : LoginSession) : LoginSession :=
  match se_RevokedAt x with
  | Some _ => x
  | None => with_marks (se_TenantID x) (se_StepUpAt x) (se_LastSeenAt x) (Some now) (Some reason) x
  end.

(** The record, and whether it was changed. *)
Definition session_Touch (now : Time) (x : LoginSession) : LoginSession * bool :=
  if negb (IsZero (se_LastSeenAt x)) && (Sub now (se_LastSeenAt x) <? LoginSessionTouchInterval) then (x, false)
  else (with_marks (se_TenantID x) (se_StepUpAt x) now (se_RevokedAt x) (se_RevokeReason x) x, true).

Inductive session_invalid :=
| UnknownAMR (unknown : list string)
| SessionIssues (e : rule_error).

Definition session_Validate (x : LoginSession) : result session_invalid unit :=
  let unknown := UnknownAMRValues (se_AMR x) in
  reject negb (bool_decide (unknown = [])) with UnknownAMR unknown in
  match All [
    Required "ID" (se_ID x) [UUID];
    Required "UserID" (se_UserID x) [];
    NonEmpty "AMR" (se_AMR x);
    Required "ACR" (se_ACR x) [];
    Required (T := Z) "ExpiresAt" (se_ExpiresAt x) [];
    Condition (eqb (negb (is_some (se_RevokedAt x))) (negb (is_some (se_RevokeReason x)))) "revoked_at and revoke_reason must be set together"] with
  | Ok u => Ok u
  | Err e => Err (SessionIssues e)
  end.

(** ** The memory store *)

Record SessionStore := {
  session_heap : gmap nat LoginSession;
  session_next : nat;
  session_map : gmap string nat;
}.

Definition NewSessionStore : SessionStore := {| session_heap := ∅; session_next := 0; session_map := ∅ |}.

(** [&LoginSession{...}], and an assignment through a pointer. *)
Definition new_session (x : LoginSession) (s : SessionStore) : nat * SessionStore :=
  (session_next s, {| session_heap := <[session_next s := x]> (session_heap s); session_next := S (session_next s); session_map := session_map s |}).
Definition set_session (p : nat) (x : LoginSession) (s : SessionStore) : SessionStore :=
  {| session_heap := <[p := x]> (session_heap s); session_next := session_next s; session_map := session_map s |}.

Definition scoped (x : LoginSession) : LoginSession :=
  with_marks (DefaultScope (se_TenantID x) DefaultTenantID) (se_StepUpAt x) (se_LastSeenAt x) (se_RevokedAt x) (se_RevokeReason x) x.

Definition Save_session (p : nat) (s : SessionStore) : SessionStore :=
  match session_heap s !! p with
  | None => s
  | Some x => {| session_heap := <[p := scoped x]> (session_heap s); session_next := session_next s; session_map := <[se_ID x := p]> (session_map s) |}
  end.

Definition inTenant (tenantID : string) (x : LoginSession) : bool := DefaultScope (se_TenantID x) DefaultTenantID =? tenantID.

(** A pointer of the map, with what it points to. *)
Definition session_at (id : string) (s : SessionStore) : option (nat * LoginSession) :=
  match session_map s !! id with
  | Some p => match session_heap s !! p with Some x => Some (p, x) | None => None end
  | None => None
  end.

(** [now] is the reading of the store's clock. *)
Definition Find_session (tenantID id : string) (now : Time) (s : SessionStore) : option (nat * LoginSession) :=
  match session_at id s with
  | Some (p, x) => if negb (inTenant tenantID x) || negb (session_Active x now) then None else Some (p, x)
  | None => None
  end.

Definition FindOwned_session (tenantID id userID : string) (s : SessionStore) : option (nat * LoginSession) :=
  match session_at id s with
  | Some (p, x) => if negb (inTenant tenantID x) || (se_UserID x <>? userID) then None else Some (p, x)
  | None => None
  end.

Definition Revoke_session (tenantID id : string) (reason : SessionEndReason) (now : Time) (s : SessionStore) : SessionStore :=
  match session_at id s with
  | Some (p, x) => if inTenant tenantID x then set_session p (session_Revoke reason now x) s else s
  | None => s
  end.

Definition Touch_session (tenantID id : string) (now : Time) (s : SessionStore) : SessionStore :=
  match session_at id s with
  | Some (p, x) => if inTenant tenantID x then set_session p (session_Touch now x).1 s else s
  | None => s
  end.

Definition listed (tenantID sub : string) (now : Time) (x : LoginSession) : bool :=
  inTenant tenantID x && (se_UserID x =? sub) && negb (se_Pending x) && session_Active x now.

(** The identifiers in the order of the iteration. *)
Definition ListBySub (order : list string) (tenantID sub : string) (now : Time) (s : SessionStore) : list LoginSession :=
  List.filter (listed tenantID sub now) (omap (fun id => snd <$> session_at id s) order).

Definition with_session_map (m : gmap string nat) (s : SessionStore) : SessionStore :=
  {| session_heap := session_heap s; session_next := session_next s; session_map := m |}.

Definition of_user (tenantID sub : string) (s : SessionStore) (p : nat) : bool :=
  match session_heap s !! p with Some x => inTenant tenantID x && (se_UserID x =? sub) | None => false end.

Definition DeleteAllForSub (tenantID sub : string) (s : SessionStore) : SessionStore :=
  with_session_map (filter (fun e => of_user tenantID sub s e.2 = false) (session_map s)) s.

(** One round: the count and the store. *)
Definition delete_expired (cutoff : Time) (limit : Z) (acc : Z * SessionStore) (id : string) : Z * SessionStore :=
  let '(deleted, s) := acc in
  if limit <=? deleted then acc
  else match session_at id s with
       | Some (_, x) => if Before (se_ExpiresAt x) cutoff then ((deleted + 1)%Z, with_session_map (delete id (session_map s)) s) else acc
       | None => acc
       end.
Definition DeleteExpiredBatch (order : list string) (cutoff : Time) (limit : Z) (s : SessionStore) : Z * SessionStore :=
  fold_left (delete_expired cutoff limit) order (0%Z, s).

(** ** The cookie *)

Definition SessionCookie : string := "idmagic_session".

Definition unhex (c : ascii) : option N :=
  let n := N_of_ascii c in
  if in_range 48 57 n then Some (n - 48)%N else if in_range 97 102 n then Some (n - 87)%N else if in_range 65 70 n then Some (n - 55)%N else None.

(** [url.QueryUnescape]. *)
Fixpoint QueryUnescape (s : string) : option string :=
  match s with
  | EmptyString => Some ""
  | String c r =>
      if c =? "%"%char then
        match r with
        | String a (String b r') =>
            match unhex a, unhex b with
            | Some x, Some y => String (ascii_of_N (16 * x + y)) <$> QueryUnescape r'
            | _, _ => None
            end
        | _ => None
        end
      else String (if c =? "+"%char then " "%char else c) <$> QueryUnescape r
  end.

Definition cookie_part (out : gmap string string) (part : string) : gmap string string :=
  match cut (TrimSpace part) "=" with
  | None => out
  | Some (name, value) =>
      if name =? "" then out
      else <[name := match QueryUnescape value with Some dec => dec | None => value end]> out
  end.

Definition parseCookies (header : string) : gmap string string :=
  if header =? "" then ∅ else fold_left cookie_part (Split header ";") ∅.

Definition sessionIDFromCookieHeader (cookieHeader : string) : string :=
  let cookies := parseCookies cookieHeader in
  let sid := default "" (cookies !! ("__Host-" ++ SessionCookie)) in
  if sid <>? "" then sid else default "" (cookies !! SessionCookie).

(** ** What the store stands for *)

Definition records (s : SessionStore) : gmap string LoginSession := omap (fun p => session_heap s !! p) (session_map s).

Record session_wf (s : SessionStore) : Prop := {
  wf_pointer : forall id p, session_map s !! id = Some p ->
    (p < session_next s)%nat /\ exists x, session_heap s !! p = Some x /\ se_ID x = id /\ se_TenantID x <> "";
}.

Lemma session_records_lookup s id : records s !! id = session_map s !! id ≫= fun p => session_heap s !! p.
Proof. unfold records. by rewrite lookup_omap. Qed.

Lemma records_at s id : records s !! id = snd <$> session_at id s.
Proof. rewrite session_records_lookup. unfold session_at. destruct (session_map s !! id) as [p|]; [|done]. simpl. by destruct (session_heap s !! p). Qed.

Lemma session_at_Some s id p x : session_at id s = Some (p, x) <-> session_map s !! id = Some p /\ session_heap s !! p = Some x.
Proof.
  unfold session_at. destruct (session_map s !! id) as [q|]; [|naive_solver]. destruct (session_heap s !! q) eqn:Hq; naive_solver.
Qed.

Lemma at_shape s id p x : session_wf s -> session_at id s = Some (p, x) -> se_ID x = id /\ se_TenantID x <> "" /\ (p < session_next s)%nat.
Proof. intros Hwf [Hm Hh]%session_at_Some. destruct (wf_pointer s Hwf id p Hm) as (Hp & x' & Hx & Hid & Ht). by simplify_eq. Qed.

Lemma at_unique s id1 id2 p x1 x2 : session_wf s -> session_at id1 s = Some (p, x1) -> session_at id2 s = Some (p, x2) -> id1 = id2.
Proof.
  intros Hwf H1 H2. destruct (at_shape _ _ _ _ Hwf H1) as [<- _]. destruct (at_shape _ _ _ _ Hwf H2) as [<- _].
  apply session_at_Some in H1 as [_ H1]. apply session_at_Some in H2 as [_ H2]. congruence.
Qed.

Lemma scoped_id x : se_TenantID x <> "" -> scoped x = x.
Proof. intros Ht. unfold scoped, with_marks, DefaultScope. rewrite bool_decide_false by done. by destruct x. Qed.

Lemma scoped_tenant x : se_TenantID (scoped x) <> "".
Proof. unfold scoped, DefaultScope. simpl. by destruct (bool_decide_reflect (se_TenantID x = "")). Qed.

Lemma new_wf : session_wf NewSessionStore /\ records NewSessionStore = ∅.
Proof. split; [constructor; intros id p; simpl; by rewrite lookup_empty|done]. Qed.

Lemma insert_session_wf x s : session_wf s ->
  let s' := Save_session (new_session x s).1 (new_session x s).2 in session_wf s' /\ records s' = <[se_ID x := scoped x]> (records s).
Proof.
  intros Hwf. cbv zeta. unfold Save_session, new_session. cbn [fst snd session_heap]. rewrite lookup_insert_eq. cbn [session_next session_map].
  rewrite insert_insert_eq. split.
  - constructor. intros id p. cbn [session_map session_heap session_next]. rewrite lookup_insert_Some. intros [[<- <-]|[Hne Hm]].
    + split; [lia|]. exists (scoped x). rewrite lookup_insert_eq. split_and!; [done|done|apply scoped_tenant].
    + destruct (wf_pointer s Hwf id p Hm) as (Hp & y & Hy & Hid & Ht). split; [lia|]. exists y. rewrite lookup_insert_ne by lia. done.
  - apply map_eq. intros id. rewrite session_records_lookup. cbn [session_map session_heap]. destruct (decide (id = se_ID x)) as [->|Hne].
    + rewrite !lookup_insert_eq. simpl. by rewrite lookup_insert_eq.
    + rewrite !lookup_insert_ne by done. rewrite session_records_lookup. destruct (session_map s !! id) as [p|] eqn:Hm; [|done]. simpl.
      destruct (wf_pointer s Hwf id p Hm) as (Hp & _). by rewrite lookup_insert_ne by lia.
Qed.

Lemma set_session_wf id p x y s : session_wf s -> session_at id s = Some (p, x) -> se_ID y = id -> se_TenantID y <> "" ->
  session_wf (set_session p y s) /\ records (set_session p y s) = <[id := y]> (records s).
Proof.
  intros Hwf Hat Hid Ht. pose proof Hat as Hat'. apply session_at_Some in Hat' as [Hm Hh]. split.
  - constructor. intros id' q Hq. cbn [session_map set_session session_heap session_next] in *. destruct (wf_pointer s Hwf id' q Hq) as (Hlt & z & Hz & Hidz & Htz).
    split; [done|]. destruct (decide (q = p)) as [->|Hne].
    + exists y. rewrite lookup_insert_eq. split_and!; [done| |done]. rewrite Hid. apply (at_unique s id id' p x z Hwf Hat). by apply session_at_Some.
    + exists z. by rewrite lookup_insert_ne.
  - apply map_eq. intros id'. rewrite session_records_lookup. cbn [session_map set_session session_heap]. destruct (decide (id' = id)) as [->|Hne].
    + rewrite lookup_insert_eq, Hm. simpl. by rewrite lookup_insert_eq.
    + rewrite lookup_insert_ne, session_records_lookup by done. destruct (session_map s !! id') as [q|] eqn:Hq; [|done]. simpl.
      rewrite lookup_insert_ne; [done|]. intros ->. apply Hne. symmetry. destruct (wf_pointer s Hwf id' q Hq) as (_ & z & Hz & _).
      apply (at_unique s id id' q x z Hwf Hat). by apply session_at_Some.
Qed.

Lemma Save_same id p x s : session_wf s -> session_at id s = Some (p, x) -> Save_session p s = s.
Proof.
  intros Hwf Hat. destruct (at_shape _ _ _ _ Hwf Hat) as (Hid & Ht & _). apply session_at_Some in Hat as [Hm Hh].
  unfold Save_session. rewrite Hh, scoped_id, Hid by done. rewrite !insert_id by done. by destruct s.
Qed.

(** A change of one record of the tenant. *)
Definition altered (tenantID id : string) (f : LoginSession -> LoginSession) (m : gmap string LoginSession) : gmap string LoginSession :=
  alter (fun x => if inTenant tenantID x then f x else x) id m.

Lemma altered_at (op : SessionStore -> SessionStore) tenantID id f s : session_wf s ->
  (forall x, se_ID (f x) = se_ID x /\ se_TenantID (f x) = se_TenantID x) ->
  op s = match session_at id s with Some (p, x) => if inTenant tenantID x then set_session p (f x) s else s | None => s end ->
  session_wf (op s) /\ records (op s) = altered tenantID id f (records s).
Proof.
  intros Hwf Hf ->. unfold altered. destruct (session_at id s) as [[p x]|] eqn:Hat; cycle 1.
  { split; [done|]. symmetry. apply alter_id. intros x. by rewrite records_at, Hat. }
  assert (Hr : records s !! id = Some x) by (by rewrite records_at, Hat).
  destruct (at_shape _ _ _ _ Hwf Hat) as (Hid & Ht & _). destruct (Hf x) as [Hf1 Hf2]. destruct (inTenant tenantID x) eqn:Hin.
  - destruct (set_session_wf id p x (f x) s Hwf Hat) as [Hwf' Hrec]; [by rewrite Hf1|by rewrite Hf2|]. split; [done|]. rewrite Hrec.
    apply map_eq. intros i. destruct (decide (i = id)) as [->|]; [rewrite lookup_insert_eq, lookup_alter_eq, Hr; simpl; by rewrite Hin|].
    by rewrite lookup_insert_ne, lookup_alter_ne.
  - split; [done|]. symmetry. apply alter_id. intros y. rewrite Hr. intros [= <-]. by rewrite Hin.
Qed.

Lemma Revoke_wf tenantID id reason now s : session_wf s ->
  session_wf (Revoke_session tenantID id reason now s) /\
  records (Revoke_session tenantID id reason now s) = altered tenantID id (session_Revoke reason now) (records s).
Proof.
  intros Hwf. apply (altered_at (Revoke_session tenantID id reason now)); [done| |done].
  intros x. unfold session_Revoke. by destruct (se_RevokedAt x).
Qed.

Lemma Touch_wf tenantID id now s : session_wf s ->
  session_wf (Touch_session tenantID id now s) /\
  records (Touch_session tenantID id now s) = altered tenantID id (fun x => (session_Touch now x).1) (records s).
Proof.
  intros Hwf. apply (altered_at (Touch_session tenantID id now)); [done| |done].
  intros x. unfold session_Touch. by destruct (_ && _).
Qed.

Lemma Find_records tenantID id now s :
  snd <$> Find_session tenantID id now s =
  match records s !! id with Some x => if inTenant tenantID x && session_Active x now then Some x else None | None => None end.
Proof.
  unfold Find_session. rewrite records_at. destruct (session_at id s) as [[p x]|]; [|done]. simpl.
  by destruct (inTenant tenantID x), (session_Active x now).
Qed.

Lemma Find_at tenantID id now s p x : Find_session tenantID id now s = Some (p, x) ->
  session_at id s = Some (p, x) /\ inTenant tenantID x = true /\ session_Active x now = true.
Proof.
  unfold Find_session. destruct (session_at id s) as [[q y]|]; [|done]. destruct (inTenant tenantID y) eqn:Ht; [|done].
  destruct (session_Active y now) eqn:Ha; [|done]. by intros [= -> ->].
Qed.

Lemma FindOwned_at tenantID id sub s p x : FindOwned_session tenantID id sub s = Some (p, x) ->
  session_at id s = Some (p, x) /\ inTenant tenantID x = true /\ se_UserID x = sub.
Proof.
  unfold FindOwned_session. destruct (session_at id s) as [[q y]|]; [|done]. destruct (inTenant tenantID y) eqn:Ht; [|done].
  cbn [negb orb]. destruct (bool_decide_reflect (se_UserID y = sub)); [|done]. by intros [= -> ->].
Qed.

Lemma ListBySub_records order tenantID sub now s :
  ListBySub order tenantID sub now s = List.filter (listed tenantID sub now) (omap (fun id => records s !! id) order).
Proof. unfold ListBySub. f_equal. apply list_omap_ext, Forall_Forall2_diag, Forall_true. intros id. by rewrite records_at. Qed.

(** A map of pointers that only loses entries. *)
Lemma submap_wf m s : session_wf s -> m ⊆ session_map s ->
  session_wf (with_session_map m s) /\ forall id, records (with_session_map m s) !! id = if m !! id then records s !! id else None.
Proof.
  intros Hwf Hsub. assert (Hm : forall id p, m !! id = Some p -> session_map s !! id = Some p) by (intros; by eapply lookup_weaken).
  split; [constructor; intros id p Hp; by apply (wf_pointer s Hwf), Hm|].
  intros id. rewrite !session_records_lookup. cbn [session_map with_session_map session_heap]. destruct (m !! id) as [p|] eqn:Hp; [|done]. by rewrite (Hm _ _ Hp).
Qed.

Lemma DeleteAll_wf tenantID sub s : session_wf s ->
  session_wf (DeleteAllForSub tenantID sub s) /\
  records (DeleteAllForSub tenantID sub s) = filter (fun e => inTenant tenantID e.2 && (se_UserID e.2 =? sub) = false) (records s).
Proof.
  intros Hwf. destruct (submap_wf (filter (fun e => of_user tenantID sub s e.2 = false) (session_map s)) s Hwf (map_filter_subseteq _ _)) as [Hwf' Hrec].
  split; [done|]. apply map_eq. intros id. unfold DeleteAllForSub. rewrite Hrec, !map_lookup_filter, session_records_lookup.
  destruct (session_map s !! id) as [p|] eqn:Hm; [|done]. simpl. unfold of_user. destruct (session_heap s !! p) as [x|] eqn:Hx.
  - simpl. repeat case_guard; naive_solver.
  - destruct (wf_pointer s Hwf id p Hm) as (_ & x & Hx' & _). congruence.
Qed.

(** Only expired ones are lost, and the rest stays as it is. *)
Lemma DeleteExpired_wf order cutoff limit s : session_wf s ->
  let s' := (DeleteExpiredBatch order cutoff limit s).2 in
  session_wf s' /\ forall id, records s' !! id = records s !! id \/
    (records s' !! id = None /\ exists x, records s !! id = Some x /\ Before (se_ExpiresAt x) cutoff = true).
Proof.
  unfold DeleteExpiredBatch. generalize 0%Z. revert s. induction order as [|i order IH]; intros s n Hwf; [split; [done|by left]|].
  cbn [fold_left]. destruct (delete_expired cutoff limit (n, s) i) as [n1 s1] eqn:Hd. unfold delete_expired in Hd.
  destruct (limit <=? n); [simplify_eq; by apply IH|].
  destruct (session_at i s) as [[p x]|] eqn:Hat; [|simplify_eq; by apply IH].
  destruct (Before (se_ExpiresAt x) cutoff) eqn:Hb; [|simplify_eq; by apply IH]. injection Hd as <- <-.
  destruct (submap_wf (delete i (session_map s)) s Hwf (delete_subseteq _ _)) as [Hwf1 Hr1]. destruct (IH _ (n + 1)%Z Hwf1) as [Hwf2 Hr2].
  split; [done|]. intros id. specialize (Hr1 id). specialize (Hr2 id). destruct (decide (id = i)) as [->|Hne].
  - rewrite lookup_delete_eq in Hr1. right. split; [destruct Hr2 as [->|[-> _]]; [done|done]|]. exists x. split; [by rewrite records_at, Hat|done].
  - rewrite lookup_delete_ne in Hr1 by done. assert (Hr : records (with_session_map (delete i (session_map s)) s) !! id = records s !! id).
    { rewrite Hr1, session_records_lookup. by destruct (session_map s !! id). }
    rewrite Hr in Hr2. done.
Qed.

Example cookie_example :
  sessionIDFromCookieHeader "theme=dark; idmagic_session=old; __Host-idmagic_session=s%2B1" = "s+1" /\
  sessionIDFromCookieHeader "idmagic_session = a ;; idmagic_session=b%zz; =c" = "b%zz" /\ sessionIDFromCookieHeader "" = "".
Proof. by vm_compute. Qed.
