(* ===== verification/SessionUsecases.v ===== *)
(** * Login sessions: their manager and the use cases

    [backend/authentication/internal/session/usecases]: the creation, completion and
    resolution of sessions (session_manager.go), their listing and revocation by the
    user, an administrator and a logout (sessions.go), over the memory store and the
    quotas of the tenant.

    The theorems: what a session tells is what created it and completed it; one that
    has ended never comes back; a pending one does not pass before its factor; the
    use of the quota covers the sessions that stand.  Five lemmas state what the code
    does not intend. *)

From Stdlib Require Import Ascii String ZArith Lia.
From stdpp Require Import base strings list gmap sorting.
From S2P Require Import Prelude Effects GoStrings Rules Policy Keyset Quota Authn Sessions.

Local Open Scope string_scope.
Local Open Scope go_scope.

Definition SessionTTLSeconds : Z := 3600.

Record SessionState := { ss_store : SessionStore; ss_quota : QuotaRepository }.

Inductive session_event :=
| QuotaExceeded (at_ : Time) (tenantID resource : string) (hardLimit : bool)
| SessionEnded (at_ : Time) (tenantID userID sessionID actorUserID : string) (reason : SessionEndReason) (allSessions : bool).

Inductive session_error :=
| SessionQuota (e : quota_error)
| SessionInvalid (e : session_invalid)
| IDNotDrawn
| ErrInvalidMfaEnrollmentBypass
| ErrSessionNotFound.

Notation session_flow := (eff SessionState session_event session_error).

(** A method of the store; it has no errors. *)
Definition from_store {A} (f : SessionStore -> A) : session_flow A := fun s => (Ok (f (ss_store s)), s, []).
Definition on_store (f : SessionStore -> SessionStore) : session_flow unit :=
  fun s => (Ok tt, {| ss_store := f (ss_store s); ss_quota := ss_quota s |}, []).
Definition on_session_quota {A} (op : QuotaRepository -> result quota_error A * QuotaRepository) (s : SessionState) : result quota_error A * SessionState :=
  let '(r, q) := op (ss_quota s) in (r, {| ss_store := ss_store s; ss_quota := q |}).

#[export] Instance session_quota_port : QuotaPort SessionState quota_error := {
  check_quota t res d := on_session_quota (CheckAndIncrement t res d);
  free_quota t res d := on_session_quota (Decrement t res d);
  exceeded e := match e with QuotaExceededError _ res => Some res | QuotaError _ _ => None end;
}.

(** Another session, saved. *)
Definition save_new (x : LoginSession) : session_flow unit := on_store (fun s => let '(p, s) := new_session x s in Save_session p s).
(** Assignments through the pointer that was found, and its [Save]. *)
Definition save_found (p : nat) (x : LoginSession) : session_flow unit := do! on_store (set_session p x) in on_store (Save_session p).

Record SessionView := { sv_ID : string; sv_Current : bool; sv_AMR : list string; sv_ACR : string; sv_StartedAt : Z; sv_ExpiresAt : Time }.
Record AdminSessionView := { av_ID : string; av_UserID : string; av_AMR : list string; av_ACR : string; av_StartedAt : Z; av_LastSeenAt : Time; av_ExpiresAt : Time }.

(** [StartedAt.After], turned around. *)
Definition later_view (a b : SessionView) : Prop := (sv_StartedAt b <= sv_StartedAt a)%Z.
Definition later_admin_view (a b : AdminSessionView) : Prop := (av_StartedAt b <= av_StartedAt a)%Z.

#[export] Instance later_view_dec : RelDecision later_view.
Proof. intros a b. unfold later_view. apply _. Defined.
#[export] Instance later_admin_view_dec : RelDecision later_admin_view.
Proof. intros a b. unfold later_admin_view. apply _. Defined.

(** ** The manager *)

Section manager.
(** Whether there is a quota, and the reading of the store's clock. *)
Context (has_QuotaRepo : bool) (clock : Time).

Definition take_slot (tenantID : string) (now : Time) : session_flow unit :=
  if has_QuotaRepo then fun s =>
    match check_quota tenantID ResourceActiveSessions 1 s with
    | (Ok _, s') => (Ok tt, s', [])
    | (Err e, s') => (Err (SessionQuota e), s', match exceeded (S := SessionState) e with Some resource => [QuotaExceeded now tenantID resource true] | None => [] end)
    end
  else eff_ret tt.

Definition created_session (tenantID id sub : string) (amr : list string) (now : Time) (pending : bool) : LoginSession :=
  {| se_ID := id; se_TenantID := tenantID; se_UserID := sub; se_AuthTime := Unix now; se_AMR := amr; se_ACR := DeriveACR amr;
     se_Pending := pending; se_PendingPurpose := LoginPendingNone; se_EnrollmentDeadline := None; se_EnrollmentBypassID := "";
     se_ExpiresAt := Add now (SessionTTLSeconds * Second)%Z; se_StepUpAt := 0%Z; se_LastSeenAt := 0%Z; se_RevokedAt := None; se_RevokeReason := None |}.

(** [timeNow] is the clock of the manager, [id] what the generator returns. *)
Definition CreateWithPending (tenantID sub : string) (amr : list string) (now timeNow : Time) (pending : bool) (id : option string) : session_flow AuthenticationContext :=
  let now := if IsZero now then timeNow else now in
  do! take_slot tenantID now in
  match id with
  | None => eff_fail IDNotDrawn
  | Some id =>
      let sess := created_session tenantID id sub amr now pending in
      do! lift (match session_Validate sess with Ok u => Ok u | Err e => Err (SessionInvalid e) end) in
      do! save_new sess in
      eff_ret {| ac_UserID := sub; ac_AuthTime := se_AuthTime sess; ac_AMR := amr; ac_ACR := se_ACR sess; ac_SessionID := id;
                 ac_Pending := se_Pending sess; ac_PendingPurpose := se_PendingPurpose sess; ac_EnrollmentDeadline := None;
                 ac_EnrollmentBypassID := ""; ac_StepUpAt := 0%Z |}
  end.

Definition Create_session (tenantID sub : string) (amr : list string) (now timeNow : Time) (id : option string) : session_flow AuthenticationContext :=
  CreateWithPending tenantID sub amr now timeNow false id.

(** [store.Find], without the sessions of other tenants. *)
Definition found_session (tenantID sessionID : string) : session_flow (option (nat * LoginSession)) :=
  let! found := from_store (Find_session tenantID sessionID clock) in
  eff_ret (match found with Some (p, sess) => if se_TenantID sess <>? tenantID then None else Some (p, sess) | None => None end).

Definition merged_AMR (amr additionalAMR : list string) : list string :=
  fold_left (fun merged method => if negb (contains merged method) then (merged ++ [method])%list else merged) additionalAMR amr.

Definition candidate_session (sess : LoginSession) (additionalAMR : list string) : LoginSession :=
  let merged := merged_AMR (se_AMR sess) additionalAMR in with_factor merged (DeriveACR merged) false LoginPendingNone None "" sess.

Definition completed_context (x : LoginSession) : AuthenticationContext :=
  {| ac_UserID := se_UserID x; ac_AuthTime := se_AuthTime x; ac_AMR := se_AMR x; ac_ACR := se_ACR x; ac_SessionID := se_ID x;
     ac_Pending := se_Pending x; ac_PendingPurpose := se_PendingPurpose x; ac_EnrollmentDeadline := None; ac_EnrollmentBypassID := "";
     ac_StepUpAt := se_StepUpAt x |}.
(** The context that [RequireFactor] and [RecordStepUp] return names no purpose. *)
Definition unnamed_context (x : LoginSession) : AuthenticationContext :=
  {| ac_UserID := se_UserID x; ac_AuthTime := se_AuthTime x; ac_AMR := se_AMR x; ac_ACR := se_ACR x; ac_SessionID := se_ID x;
     ac_Pending := se_Pending x; ac_PendingPurpose := ""; ac_EnrollmentDeadline := None; ac_EnrollmentBypassID := ""; ac_StepUpAt := se_StepUpAt x |}.
Definition authenticationContextFromSession (x : LoginSession) : AuthenticationContext :=
  {| ac_UserID := se_UserID x; ac_AuthTime := se_AuthTime x; ac_AMR := se_AMR x; ac_ACR := se_ACR x; ac_SessionID := se_ID x;
     ac_Pending := se_Pending x; ac_PendingPurpose := se_PendingPurpose x; ac_EnrollmentDeadline := se_EnrollmentDeadline x;
     ac_EnrollmentBypassID := se_EnrollmentBypassID x; ac_StepUpAt := se_StepUpAt x |}.

(** The candidate, read and validated; then its [Save]. *)
Definition complete_candidate (tenantID sessionID : string) (additionalAMR : list string) : session_flow (option LoginSession) :=
  let! found := found_session tenantID sessionID in
  match found with
  | None => eff_ret None
  | Some (_, sess) =>
      let candidate := candidate_session sess additionalAMR in
      do! lift (match session_Validate candidate with Ok u => Ok u | Err e => Err (SessionInvalid e) end) in
      eff_ret (Some candidate)
  end.
Definition CompleteFactor (tenantID sessionID : string) (additionalAMR : list string) : session_flow (option AuthenticationContext) :=
  let! candidate := complete_candidate tenantID sessionID additionalAMR in
  match candidate with
  | None => eff_ret None
  | Some candidate => do! save_new candidate in eff_ret (Some (completed_context candidate))
  end.

Definition RequireFactor (tenantID sessionID : string) : session_flow (option AuthenticationContext) :=
  let! found := found_session tenantID sessionID in
  match found with
  | None => eff_ret None
  | Some (p, sess) =>
      let sess := with_factor (se_AMR sess) (se_ACR sess) true LoginPendingChallenge (se_EnrollmentDeadline sess) (se_EnrollmentBypassID sess) sess in
      do! save_found p sess in
      eff_ret (Some (unnamed_context sess))
  end.

Definition RequireEnrollment (tenantID sessionID : string) (deadline : Time) (bypassID : string) : session_flow (option AuthenticationContext) :=
  refuse IsZero deadline || (bypassID =? "") with ErrInvalidMfaEnrollmentBypass in
  let! found := found_session tenantID sessionID in
  match found with
  | None => eff_ret None
  | Some (p, sess) =>
      let sess := with_factor (se_AMR sess) (se_ACR sess) true LoginPendingEnrollment (Some deadline) bypassID sess in
      do! save_found p sess in
      eff_ret (Some (authenticationContextFromSession sess))
  end.

Definition RecordStepUp (tenantID sessionID : string) (now timeNow : Time) : session_flow (option AuthenticationContext) :=
  let now := if IsZero now then timeNow else now in
  let! found := found_session tenantID sessionID in
  match found with
  | None => eff_ret None
  | Some (p, sess) =>
      if se_Pending sess then eff_ret None
      else
        let sess := with_marks (se_TenantID sess) (Unix now) (se_LastSeenAt sess) (se_RevokedAt sess) (se_RevokeReason sess) sess in
        do! save_found p sess in
        eff_ret (Some (unnamed_context sess))
  end.

Definition Resolve_session (tenantID cookie : string) (timeNow : Time) : session_flow (option AuthenticationContext) :=
  let sid := sessionIDFromCookieHeader cookie in
  if sid =? "" then eff_ret None
  else
    let! found := found_session tenantID sid in
    match found with
    | None => eff_ret None
    | Some (_, sess) =>
        do! on_store (Touch_session tenantID (se_ID sess) timeNow) in
        eff_ret (Some (authenticationContextFromSession sess))
    end.

Definition Revoke_cookie (tenantID cookie : string) (timeNow : Time) : session_flow unit :=
  let sid := sessionIDFromCookieHeader cookie in
  if sid =? "" then eff_ret tt else on_store (Revoke_session tenantID sid SessionEndLogout timeNow).

(** ** Listing and revocation *)

Definition decrementSessionQuota (sess : LoginSession) : session_flow unit :=
  if has_QuotaRepo then call SessionQuota (free_quota (se_TenantID sess) ResourceActiveSessions 1) else eff_ret tt.

(** [timeNow] is the reading of the clock for the session that has ended. *)
Definition emitSessionEnded (sess : LoginSession) (actorUserID : string) (reason : SessionEndReason) (allSessions : bool) (now : Time) (timeNow : string -> Time)
  : session_flow unit :=
  emit (SessionEnded (if IsZero now then timeNow (se_ID sess) else now) (se_TenantID sess) (se_UserID sess) (se_ID sess) actorUserID reason allSessions).

Definition end_session (tenantID : string) (sess : LoginSession) (actor : string) (reason : SessionEndReason) (allSessions : bool) (now : Time) (timeNow : string -> Time)
  : session_flow unit :=
  do! on_store (Revoke_session tenantID (se_ID sess) reason now) in
  do! decrementSessionQuota sess in
  emitSessionEnded sess actor reason allSessions now timeNow.

(** The latest first; views of the same second come in the order of the iteration. *)
Definition ListSessions (has_store : bool) (order : list string) (tenantID sub currentSessionID : string) : session_flow (list SessionView) :=
  if negb has_store then eff_ret []
  else
    let! sessions := from_store (ListBySub order tenantID sub clock) in
    eff_ret (merge_sort later_view
      (map (fun sess => {| sv_ID := se_ID sess; sv_Current := se_ID sess =? currentSessionID; sv_AMR := se_AMR sess; sv_ACR := se_ACR sess;
                           sv_StartedAt := se_AuthTime sess; sv_ExpiresAt := se_ExpiresAt sess |}) sessions)).

Definition AdminListSessions (has_store : bool) (order : list string) (tenantID targetUserID : string) : session_flow (list AdminSessionView) :=
  if negb has_store then eff_ret []
  else
    let! sessions := from_store (ListBySub order tenantID targetUserID clock) in
    eff_ret (merge_sort later_admin_view
      (map (fun sess => {| av_ID := se_ID sess; av_UserID := se_UserID sess; av_AMR := se_AMR sess; av_ACR := se_ACR sess;
                           av_StartedAt := se_AuthTime sess; av_LastSeenAt := se_LastSeenAt sess; av_ExpiresAt := se_ExpiresAt sess |}) sessions)).

(** [RevokeOwnSession] and [AdminRevokeSession]: the actor and the reason differ. *)
Definition revoke_owned (tenantID owner actor sessionID : string) (reason : SessionEndReason) (now : Time) (timeNow : string -> Time) : session_flow unit :=
  let! found := from_store (FindOwned_session tenantID sessionID owner) in
  match found with
  | None => eff_fail ErrSessionNotFound
  | Some (_, sess) =>
      let alreadyRevoked := is_some (se_RevokedAt sess) in
      do! on_store (Revoke_session tenantID sessionID reason now) in
      if alreadyRevoked then eff_ret tt
      else do! decrementSessionQuota sess in emitSessionEnded sess actor reason false now timeNow
  end.
Definition RevokeOwnSession (tenantID sub sessionID : string) (now : Time) (timeNow : string -> Time) : session_flow unit :=
  revoke_owned tenantID sub sub sessionID SessionEndSelfRevoke now timeNow.
Definition AdminRevokeSession (tenantID actorUserID targetUserID sessionID : string) (now : Time) (timeNow : string -> Time) : session_flow unit :=
  revoke_owned tenantID targetUserID actorUserID sessionID SessionEndAdminRevoke now timeNow.

(** The loop over the listed sessions, and the identifiers of those it ended. *)
Fixpoint end_listed (tenantID : string) (keep : option string) (actor : string) (reason : SessionEndReason) (allSessions : bool) (now : Time) (timeNow : string -> Time) (l : list LoginSession)
  : session_flow (list string) :=
  match l with
  | [] => eff_ret []
  | sess :: l =>
      if Some (se_ID sess) =? keep then end_listed tenantID keep actor reason allSessions now timeNow l
      else
        do! end_session tenantID sess actor reason allSessions now timeNow in
        let! ids := end_listed tenantID keep actor reason allSessions now timeNow l in
        eff_ret (se_ID sess :: ids)
  end.

Definition RevokeOtherSessions (order : list string) (tenantID sub keepSessionID : string) (now : Time) (timeNow : string -> Time) : session_flow (list string) :=
  let! sessions := from_store (ListBySub order tenantID sub clock) in
  end_listed tenantID (Some keepSessionID) sub SessionEndSelfRevoke false now timeNow sessions.

Definition AdminRevokeUserSessions (order : list string) (tenantID actorUserID targetUserID : string) (now : Time) (timeNow : string -> Time) : session_flow (list string) :=
  let! sessions := from_store (ListBySub order tenantID targetUserID clock) in
  end_listed tenantID None actorUserID SessionEndAdminRevoke true now timeNow sessions.

Definition EndSession (tenantID sid : string) (now : Time) (timeNow : string -> Time) : session_flow unit :=
  if sid =? "" then eff_ret tt
  else
    let! found := found_session tenantID sid in
    match found with
    | None => eff_ret tt
    | Some (_, sess) =>
        do! on_store (Revoke_session tenantID sid SessionEndLogout now) in
        do! decrementSessionQuota sess in
        emitSessionEnded sess (se_UserID sess) SessionEndLogout false now timeNow
    end.

(** The operations that a logout of OAuth2 asks for. *)
Definition logout_Owner (has_store : bool) (tenantID sid : string) : session_flow (string * bool) :=
  if negb has_store then eff_ret ("", false)
  else
    let! found := from_store (Find_session tenantID sid clock) in
    eff_ret (match found with Some (_, sess) => (se_UserID sess, true) | None => ("", false) end).

Definition logout_End (tenantID sid : string) (now : Time) (timeNow : string -> Time) : session_flow (string * bool) :=
  let! found := from_store (Find_session tenantID sid clock) in
  match found with
  | None => eff_ret ("", false)
  | Some (_, sess) => do! EndSession tenantID sid now timeNow in eff_ret (se_UserID sess, true)
  end.
End manager.

(** ** Sequences of operations *)

(** The operations, each with the reading of the store's clock. *)
Inductive session_call :=
| CallCreate (tenantID sub : string) (amr : list string) (now timeNow : Time) (pending : bool) (id : option string)
| CallComplete (tenantID sessionID : string) (amr : list string)
| CallRequireFactor (tenantID sessionID : string)
| CallRequireEnrollment (tenantID sessionID : string) (deadline : Time) (bypassID : string)
| CallStepUp (tenantID sessionID : string) (now timeNow : Time)
| CallResolve (tenantID cookie : string) (timeNow : Time)
| CallRevokeCookie (tenantID cookie : string) (timeNow : Time)
| CallRevokeOwned (tenantID owner actor sessionID : string) (reason : SessionEndReason) (now : Time) (timeNow : string -> Time)
| CallRevokeOthers (order : list string) (tenantID sub keep : string) (now : Time) (timeNow : string -> Time)
| CallRevokeUser (order : list string) (tenantID actor target : string) (now : Time) (timeNow : string -> Time)
| CallEnd (tenantID sid : string) (now : Time) (timeNow : string -> Time)
| CallDeleteAll (tenantID sub : string)
| CallDeleteExpired (order : list string) (cutoff : Time) (limit : Z).

Definition state_of {A} (m : session_flow A) (s : SessionState) : SessionState := (m s).1.2.

Definition session_serve (has_QuotaRepo : bool) (clock : Time) (c : session_call) : SessionState -> SessionState :=
  match c with
  | CallCreate t sub amr now timeNow pending id => state_of (CreateWithPending has_QuotaRepo t sub amr now timeNow pending id)
  | CallComplete t sid amr => state_of (CompleteFactor clock t sid amr)
  | CallRequireFactor t sid => state_of (RequireFactor clock t sid)
  | CallRequireEnrollment t sid deadline bypass => state_of (RequireEnrollment clock t sid deadline bypass)
  | CallStepUp t sid now timeNow => state_of (RecordStepUp clock t sid now timeNow)
  | CallResolve t cookie timeNow => state_of (Resolve_session clock t cookie timeNow)
  | CallRevokeCookie t cookie timeNow => state_of (Revoke_cookie t cookie timeNow)
  | CallRevokeOwned t owner actor sid reason now timeNow => state_of (revoke_owned has_QuotaRepo t owner actor sid reason now timeNow)
  | CallRevokeOthers order t sub keep now timeNow => state_of (RevokeOtherSessions has_QuotaRepo clock order t sub keep now timeNow)
  | CallRevokeUser order t actor target now timeNow => state_of (AdminRevokeUserSessions has_QuotaRepo clock order t actor target now timeNow)
  | CallEnd t sid now timeNow => state_of (EndSession has_QuotaRepo clock t sid now timeNow)
  | CallDeleteAll t sub => state_of (on_store (DeleteAllForSub t sub))
  | CallDeleteExpired order cutoff limit => state_of (on_store (fun s => (DeleteExpiredBatch order cutoff limit s).2))
  end.

Definition session_run (has_QuotaRepo : bool) (l : list (Time * session_call)) (s : SessionState) : SessionState :=
  fold_left (fun s e => session_serve has_QuotaRepo e.1 e.2 s) l s.

(** ** What an operation does to a session *)

(** Only its marks have changed, and a revocation stays. *)
Record same_session (x y : LoginSession) : Prop := {
  same_identity : se_ID y = se_ID x /\ se_TenantID y = se_TenantID x /\ se_UserID y = se_UserID x /\ se_AuthTime y = se_AuthTime x /\ se_ExpiresAt y = se_ExpiresAt x;
  same_methods : se_AMR y = se_AMR x /\ se_ACR y = se_ACR x /\ se_Pending y = se_Pending x;
  same_end : se_RevokedAt x <> None -> se_RevokedAt y = se_RevokedAt x /\ se_RevokeReason y = se_RevokeReason x;
}.

#[export] Instance same_session_preorder : PreOrder same_session.
Proof.
  split; [intros x; by constructor|]. intros x y z [Hid1 Hm1 He1] [Hid2 Hm2 He2].
  constructor; [destruct_and!; split_and!; congruence|destruct_and!; split_and!; congruence|]. intros Hr. destruct (He1 Hr) as [H1 H2]. rewrite <- H1 in Hr. destruct (He2 Hr) as [H3 H4]. by rewrite H3, H4.
Qed.

(** The sessions of [m'] are those of [m], in that sense. *)
Definition only_marks (m m' : gmap string LoginSession) : Prop := forall id y, m' !! id = Some y -> exists x, m !! id = Some x /\ same_session x y.

#[export] Instance only_marks_preorder : PreOrder only_marks.
Proof.
  split; [intros m id y Hy; by exists y|]. intros m1 m2 m3 H1 H2 id z Hz. destruct (H2 id z Hz) as (y & Hy & Hyz). destruct (H1 id y Hy) as (x & Hx & Hxy).
  exists x. split; [done|by etransitivity].
Qed.

Lemma altered_marks tenantID id f m : (forall x, same_session x (f x)) -> only_marks m (altered tenantID id f m).
Proof.
  intros Hf i y. unfold altered. destruct (decide (i = id)) as [->|Hne].
  - rewrite lookup_alter_eq. destruct (m !! id) as [x|]; [|done]. simpl. intros [= <-]. exists x. split; [done|]. by destruct (inTenant tenantID x).
  - rewrite lookup_alter_ne by done. intros Hy. by exists y.
Qed.

Lemma Revoke_same reason now x : same_session x (session_Revoke reason now x).
Proof. unfold session_Revoke. destruct (se_RevokedAt x) eqn:Hr; [done|]. constructor; [done|done|]. by rewrite Hr. Qed.

Lemma Touch_same now x : same_session x (session_Touch now x).1.
Proof. unfold session_Touch. destruct (_ && _); [done|]. by constructor. Qed.

Lemma insert_marks id x y m : m !! id = Some x -> same_session x y -> only_marks m (<[id := y]> m).
Proof.
  intros Hx Hxy i z. rewrite lookup_insert_Some. intros [[<- <-]|[_ Hz]]; [by exists x|by exists z].
Qed.

Lemma filter_marks (P : string * LoginSession -> Prop) `{!forall e, Decision (P e)} m : only_marks m (filter P m).
Proof. intros id y [Hy _]%map_lookup_filter_Some. by exists y. Qed.

(** What the call may do to a session. *)
Record evolves (c : session_call) (x y : LoginSession) : Prop := {
  ev_identity : se_ID y = se_ID x /\ se_TenantID y = se_TenantID x /\ se_UserID y = se_UserID x /\ se_AuthTime y = se_AuthTime x /\ se_ExpiresAt y = se_ExpiresAt x;
  ev_end : se_RevokedAt x <> None -> se_RevokedAt y = se_RevokedAt x /\ se_RevokeReason y = se_RevokeReason x;
  ev_methods : (se_AMR y = se_AMR x /\ se_ACR y = se_ACR x /\ (se_Pending x = true -> se_Pending y = true)) \/
    exists amr, c = CallComplete (se_TenantID x) (se_ID x) amr /\ se_AMR y = merged_AMR (se_AMR x) amr /\ se_ACR y = DeriveACR (se_AMR y) /\
      session_Validate y = Ok tt;
}.

Definition created_by (c : session_call) (y : LoginSession) : Prop :=
  exists t sub amr now timeNow pending id, c = CallCreate t sub amr now timeNow pending (Some id) /\
    session_Validate y = Ok tt /\ y = scoped (created_session t id sub amr (if IsZero now then timeNow else now) pending).

Lemma marks_evolve c x y : same_session x y -> evolves c x y.
Proof. intros [Hid (Ha & Hb & Hc) He]. constructor; [done|done|]. left. by rewrite Ha, Hb, Hc. Qed.

(** Runs of the primitives. *)
Lemma save_new_run x s : session_wf (ss_store s) ->
  let s' := (save_new x s).1.2 in
  session_wf (ss_store s') /\ records (ss_store s') = <[se_ID x := scoped x]> (records (ss_store s)) /\ ss_quota s' = ss_quota s.
Proof. intros Hwf. cbv zeta. destruct (insert_session_wf x _ Hwf). by split_and!. Qed.

Lemma save_found_run p x y s : session_wf (ss_store s) -> session_at (se_ID y) (ss_store s) = Some (p, x) -> se_TenantID y <> "" ->
  exists s', save_found p y s = (Ok tt, s', []) /\ session_wf (ss_store s') /\
    records (ss_store s') = <[se_ID y := y]> (records (ss_store s)) /\ ss_quota s' = ss_quota s.
Proof.
  intros Hwf Hat Ht. destruct (set_session_wf _ p x y _ Hwf Hat eq_refl Ht) as [Hwf' Hrec].
  eexists. split; [reflexivity|]. cbn [ss_store ss_quota]. assert (Hat' : session_at (se_ID y) (set_session p y (ss_store s)) = Some (p, y)).
  { apply session_at_Some in Hat as [Hm _]. apply session_at_Some. split; [done|]. apply lookup_insert_eq. }
  by rewrite (Save_same _ _ _ _ Hwf' Hat').
Qed.

Lemma found_run clock tenantID id s : session_wf (ss_store s) ->
  found_session clock tenantID id s = (Ok (Find_session tenantID id clock (ss_store s)), s, []).
Proof.
  intros Hwf. unfold found_session, eff_bind, from_store, eff_ret. destruct (Find_session tenantID id clock (ss_store s)) as [[p x]|] eqn:Hf; [|done].
  destruct (Find_at _ _ _ _ _ _ Hf) as (Hat & Hin & _). destruct (at_shape _ _ _ _ Hwf Hat) as (_ & Ht & _).
  unfold inTenant, DefaultScope in Hin. rewrite (bool_decide_false (se_TenantID x = "")) in Hin by done. apply bool_decide_eq_true in Hin.
  by rewrite bool_decide_true.
Qed.

(** What was found. *)
Lemma found_shape clock tenantID id s p x : session_wf s -> Find_session tenantID id clock s = Some (p, x) ->
  session_at id s = Some (p, x) /\ records s !! id = Some x /\ se_ID x = id /\ se_TenantID x = tenantID /\ tenantID <> "" /\
  se_RevokedAt x = None /\ (clock < se_ExpiresAt x)%Z.
Proof.
  intros Hwf Hf. destruct (Find_at _ _ _ _ _ _ Hf) as (Hat & Hin & Ha). destruct (at_shape _ _ _ _ Hwf Hat) as (Hid & Ht & _).
  unfold inTenant, DefaultScope in Hin. rewrite (bool_decide_false (se_TenantID x = "")) in Hin by done. apply bool_decide_eq_true in Hin.
  unfold session_Active in Ha. destruct (se_RevokedAt x); [done|]. apply Z.ltb_lt in Ha. split_and!; try done; [by rewrite records_at, Hat|by rewrite <- Hin].
Qed.

(** ** Runs *)

Definition slot_freed (has : bool) (tenantID : string) (q : QuotaRepository) : QuotaRepository :=
  if has then (Decrement tenantID ResourceActiveSessions 1 q).2 else q.

Lemma Decrement_sessions tenantID q : exists q', Decrement tenantID ResourceActiveSessions 1 q = (Ok tt, q').
Proof. unfold Decrement. cbn [andb]. destruct (usages q !! tenantID); by eexists. Qed.

Lemma decrement_session_run has x s :
  decrementSessionQuota has x s = (Ok tt, {| ss_store := ss_store s; ss_quota := slot_freed has (se_TenantID x) (ss_quota s) |}, []).
Proof.
  unfold decrementSessionQuota, slot_freed. destruct has; [|by destruct s]. unfold call. cbn [free_quota session_quota_port]. unfold on_session_quota.
  by destruct (Decrement_sessions (se_TenantID x) (ss_quota s)) as [q' ->].
Qed.

(** The state after the revocation of one session and the release of its slot. *)
Definition ended (has : bool) (tenantID : string) (x : LoginSession) (reason : SessionEndReason) (now : Time) (s : SessionState) : SessionState :=
  {| ss_store := Revoke_session tenantID (se_ID x) reason now (ss_store s); ss_quota := slot_freed has (se_TenantID x) (ss_quota s) |}.

Lemma end_session_run has tenantID x actor reason all now timeNow s :
  end_session has tenantID x actor reason all now timeNow s =
  (Ok tt, ended has tenantID x reason now s,
   [SessionEnded (if IsZero now then timeNow (se_ID x) else now) (se_TenantID x) (se_UserID x) (se_ID x) actor reason all]).
Proof. unfold end_session, eff_bind, on_store. by rewrite decrement_session_run. Qed.

Definition kept_session (keep : option string) (x : LoginSession) : bool := Some (se_ID x) =? keep.

Lemma end_listed_run has tenantID keep actor reason all now timeNow l s :
  let l' := List.filter (fun x => negb (kept_session keep x)) l in
  end_listed has tenantID keep actor reason all now timeNow l s =
  (Ok (map se_ID l'), fold_left (fun s x => ended has tenantID x reason now s) l' s,
   map (fun x => SessionEnded (if IsZero now then timeNow (se_ID x) else now) (se_TenantID x) (se_UserID x) (se_ID x) actor reason all) l').
Proof.
  cbv zeta. revert s. induction l as [|x l IH]; intros s; [done|]. cbn [end_listed List.filter]. fold (kept_session keep x).
  destruct (kept_session keep x); cbn [negb]; [apply IH|]. unfold eff_bind. rewrite end_session_run. cbn beta iota. rewrite IH. unfold eff_ret. cbn. by rewrite app_nil_r.
Qed.

Lemma ended_marks has tenantID x reason now s : session_wf (ss_store s) ->
  session_wf (ss_store (ended has tenantID x reason now s)) /\ only_marks (records (ss_store s)) (records (ss_store (ended has tenantID x reason now s))).
Proof.
  intros Hwf. destruct (Revoke_wf tenantID (se_ID x) reason now _ Hwf) as [Hwf' Hrec]. split; [done|]. cbn [ended ss_store]. rewrite Hrec.
  apply altered_marks. intros y. apply Revoke_same.
Qed.

Lemma ended_all_marks has tenantID reason now l s : session_wf (ss_store s) ->
  let s' := fold_left (fun s x => ended has tenantID x reason now s) l s in
  session_wf (ss_store s') /\ only_marks (records (ss_store s)) (records (ss_store s')).
Proof.
  cbv zeta. revert s. induction l as [|x l IH]; intros s Hwf; [done|]. cbn [fold_left]. destruct (ended_marks has tenantID x reason now s Hwf) as [Hwf1 Hm1].
  destruct (IH _ Hwf1) as [Hwf2 Hm2]. split; [done|]. by etransitivity.
Qed.

Lemma merged_AMR_app amr extra : exists new, merged_AMR amr extra = (amr ++ new)%list /\ Forall (fun m => m ∈ extra) new.
Proof.
  unfold merged_AMR. revert amr. induction extra as [|m extra IH]; intros amr; [exists []; by rewrite app_nil_r|]. cbn [fold_left].
  destruct (negb (contains amr m)).
  - destruct (IH (amr ++ [m])%list) as (new & -> & Hnew). exists (m :: new). rewrite <- app_assoc. split; [done|]. constructor; [by left|].
    eapply Forall_impl; [exact Hnew|]. intros z Hz. by right.
  - destruct (IH amr) as (new & -> & Hnew). exists new. split; [done|]. eapply Forall_impl; [exact Hnew|]. intros z Hz. by right.
Qed.

Lemma take_slot_store has tenantID now s : ss_store (take_slot has tenantID now s).1.2 = ss_store s.
Proof.
  unfold take_slot. destruct has; [|done]. cbn [check_quota session_quota_port]. unfold on_session_quota.
  by destruct (CheckAndIncrement tenantID ResourceActiveSessions 1 (ss_quota s)) as [[u|e] q].
Qed.

(** The creation, by its two outcomes. *)
Lemma create_run has tenantID sub amr now timeNow pending id s s' : session_wf (ss_store s) ->
  state_of (CreateWithPending has tenantID sub amr now timeNow pending id) s = s' ->
  let n := if IsZero now then timeNow else now in
  let s1 := (take_slot has tenantID n s).1.2 in
  s' = s1 \/
  exists i, id = Some i /\ session_Validate (created_session tenantID i sub amr n pending) = Ok tt /\ (take_slot has tenantID n s).1.1 = Ok tt /\
    session_wf (ss_store s') /\ records (ss_store s') = <[i := scoped (created_session tenantID i sub amr n pending)]> (records (ss_store s)) /\
    ss_quota s' = ss_quota s1.
Proof.
  intros Hwf Hs'. cbv zeta. unfold state_of, CreateWithPending in Hs'. set (n := if IsZero now then timeNow else now) in *.
  pose proof (take_slot_store has tenantID n s) as Hst. unfold eff_bind at 1 in Hs'.
  destruct (take_slot has tenantID n s) as [[[[]|e] s1] w1]; cbn [fst snd] in *; [|by left].
  destruct id as [i|]; [|by left]. unfold eff_bind at 1, lift in Hs'.
  destruct (session_Validate (created_session tenantID i sub amr n pending)) as [[]|e] eqn:Hv; [|by left].
  right. exists i. rewrite <- Hst in *. destruct (save_new_run (created_session tenantID i sub amr n pending) s1 Hwf) as (Hwf' & Hrec & Hq).
  subst s'. by split_and!.
Qed.

(** Nothing is changed, or one session that stands. *)
Definition one_changed (tenantID id : string) (P : LoginSession -> Prop) (f : LoginSession -> LoginSession) (s s' : SessionState) : Prop :=
  s' = s \/
  exists x, records (ss_store s) !! id = Some x /\ se_ID x = id /\ se_TenantID x = tenantID /\ se_RevokedAt x = None /\ P x /\
    session_wf (ss_store s') /\ records (ss_store s') = <[id := f x]> (records (ss_store s)) /\ ss_quota s' = ss_quota s.

Lemma complete_factor_run clock tenantID id amr s s' : session_wf (ss_store s) -> state_of (CompleteFactor clock tenantID id amr) s = s' ->
  one_changed tenantID id (fun x => session_Validate (candidate_session x amr) = Ok tt) (fun x => candidate_session x amr) s s'.
Proof.
  intros Hwf Hs'. unfold state_of, CompleteFactor, complete_candidate in Hs'. unfold eff_bind in Hs'. rewrite found_run in Hs' by done.
  destruct (Find_session tenantID id clock (ss_store s)) as [[p x]|] eqn:Hf; [|by left].
  destruct (found_shape _ _ _ _ _ _ Hwf Hf) as (Hat & Hr & Hid & Ht & Hne & Hrev & _). unfold lift in Hs'.
  destruct (session_Validate (candidate_session x amr)) as [[]|e] eqn:Hv; [|by left]. right. exists x.
  destruct (save_new_run (candidate_session x amr) s Hwf) as (Hwf' & Hrec & Hq).
  rewrite scoped_id in Hrec by (cbn; by rewrite Ht). cbn [candidate_session with_factor se_ID] in Hrec. rewrite Hid in Hrec.
  subst s'. by split_and!.
Qed.

Lemma found_change_run {B} clock tenantID id (skip : LoginSession -> bool) (f : LoginSession -> LoginSession) (g : LoginSession -> B) s s' : session_wf (ss_store s) ->
  (forall x, se_ID (f x) = se_ID x /\ se_TenantID (f x) = se_TenantID x) ->
  state_of (let! found := found_session clock tenantID id in
            match found with
            | None => eff_ret None
            | Some (p, sess) => if skip sess then eff_ret None else do! save_found p (f sess) in eff_ret (Some (g (f sess)))
            end) s = s' ->
  one_changed tenantID id (fun x => skip x = false) f s s'.
Proof.
  intros Hwf Hkeep Hs'. unfold state_of, eff_bind in Hs'. rewrite found_run in Hs' by done.
  destruct (Find_session tenantID id clock (ss_store s)) as [[p x]|] eqn:Hf; [|by left].
  destruct (found_shape _ _ _ _ _ _ Hwf Hf) as (Hat & Hr & Hid & Ht & Hne & Hrev & _). destruct (skip x) eqn:Hskip; [by left|].
  destruct (Hkeep x) as [Hid' Ht']. rewrite <- Hid, <- Hid' in Hat.
  destruct (save_found_run p x (f x) s Hwf Hat) as (s1 & Hrun & Hwf' & Hrec & Hq); [by rewrite Ht', Ht|]. rewrite Hrun in Hs'. cbn in Hs'.
  right. exists x. subst s'. rewrite Hid', Hid in Hrec. by split_and!.
Qed.

Definition challenged (x : LoginSession) : LoginSession :=
  with_factor (se_AMR x) (se_ACR x) true LoginPendingChallenge (se_EnrollmentDeadline x) (se_EnrollmentBypassID x) x.
Definition enrolling (deadline : Time) (bypassID : string) (x : LoginSession) : LoginSession :=
  with_factor (se_AMR x) (se_ACR x) true LoginPendingEnrollment (Some deadline) bypassID x.
Definition stepped_up (now : Time) (x : LoginSession) : LoginSession :=
  with_marks (se_TenantID x) (Unix now) (se_LastSeenAt x) (se_RevokedAt x) (se_RevokeReason x) x.

Lemma require_factor_run clock tenantID id s s' : session_wf (ss_store s) -> state_of (RequireFactor clock tenantID id) s = s' ->
  one_changed tenantID id (fun _ => True) challenged s s'.
Proof.
  intros Hwf Hs'. destruct (found_change_run clock tenantID id (fun _ => false) challenged unnamed_context s s' Hwf) as [->|(x & ?)]; [done|exact Hs'|by left|].
  right. exists x. naive_solver.
Qed.

Lemma require_enrollment_run clock tenantID id deadline bypass s s' : session_wf (ss_store s) ->
  state_of (RequireEnrollment clock tenantID id deadline bypass) s = s' -> one_changed tenantID id (fun _ => True) (enrolling deadline bypass) s s'.
Proof.
  intros Hwf Hs'. unfold RequireEnrollment in Hs'. destruct (IsZero deadline || (bypass =? "")); [by left|].
  destruct (found_change_run clock tenantID id (fun _ => false) (enrolling deadline bypass) authenticationContextFromSession s s' Hwf) as [->|(x & ?)];
    [done|exact Hs'|by left|].
  right. exists x. naive_solver.
Qed.

Lemma step_up_run clock tenantID id now timeNow s s' : session_wf (ss_store s) -> state_of (RecordStepUp clock tenantID id now timeNow) s = s' ->
  one_changed tenantID id (fun x => se_Pending x = false) (stepped_up (if IsZero now then timeNow else now)) s s'.
Proof. intros Hwf Hs'. by apply (found_change_run clock tenantID id se_Pending _ unnamed_context). Qed.

Lemma resolve_run clock tenantID cookie timeNow s s' : session_wf (ss_store s) -> state_of (Resolve_session clock tenantID cookie timeNow) s = s' ->
  s' = s \/ exists id, s' = {| ss_store := Touch_session tenantID id timeNow (ss_store s); ss_quota := ss_quota s |}.
Proof.
  intros Hwf Hs'. unfold state_of, Resolve_session in Hs'. destruct (_ =? ""); [by left|]. unfold eff_bind in Hs'. rewrite found_run in Hs' by done.
  destruct (Find_session _ _ _ _) as [[p x]|]; [|by left]. right. by exists (se_ID x).
Qed.

Lemma FindOwned_shape tenantID id sub s p x : session_wf s -> FindOwned_session tenantID id sub s = Some (p, x) ->
  records s !! id = Some x /\ se_ID x = id /\ se_TenantID x = tenantID /\ se_UserID x = sub.
Proof.
  intros Hwf Hf. destruct (FindOwned_at _ _ _ _ _ _ Hf) as (Hat & Hin & Hu). destruct (at_shape _ _ _ _ Hwf Hat) as (Hid & Ht & _).
  unfold inTenant, DefaultScope in Hin. rewrite (bool_decide_false (se_TenantID x = "")) in Hin by done. apply bool_decide_eq_true in Hin.
  split_and!; [by rewrite records_at, Hat|done|done|done].
Qed.

Lemma revoke_owned_run has tenantID owner actor id reason now timeNow s s' : session_wf (ss_store s) ->
  state_of (revoke_owned has tenantID owner actor id reason now timeNow) s = s' ->
  s' = s \/ exists x, records (ss_store s) !! id = Some x /\ se_ID x = id /\ se_TenantID x = tenantID /\ se_UserID x = owner /\
    (if se_RevokedAt x then s' = {| ss_store := Revoke_session tenantID id reason now (ss_store s); ss_quota := ss_quota s |}
     else s' = ended has tenantID x reason now s).
Proof.
  intros Hwf Hs'. unfold state_of, revoke_owned in Hs'. unfold eff_bind, from_store in Hs'.
  destruct (FindOwned_session tenantID id owner (ss_store s)) as [[p x]|] eqn:Hf; [|by left].
  destruct (FindOwned_shape _ _ _ _ _ _ Hwf Hf) as (Hr & Hid & Ht & Hu). right. exists x. split_and!; try done. unfold on_store in Hs'. subst s'.
  destruct (se_RevokedAt x); [done|]. cbn [is_some]. rewrite decrement_session_run. cbn. unfold ended. by rewrite Hid.
Qed.

Lemma end_run has clock tenantID id now timeNow s s' : session_wf (ss_store s) -> state_of (EndSession has clock tenantID id now timeNow) s = s' ->
  s' = s \/ exists x, records (ss_store s) !! id = Some x /\ se_ID x = id /\ se_TenantID x = tenantID /\ se_RevokedAt x = None /\
    s' = ended has tenantID x SessionEndLogout now s.
Proof.
  intros Hwf Hs'. unfold state_of, EndSession in Hs'. destruct (id =? ""); [by left|]. unfold eff_bind in Hs'. rewrite found_run in Hs' by done.
  destruct (Find_session tenantID id clock (ss_store s)) as [[p x]|] eqn:Hf; [|by left].
  destruct (found_shape _ _ _ _ _ _ Hwf Hf) as (_ & Hr & Hid & Ht & _ & Hrev & _). right. exists x. split_and!; try done. unfold on_store in Hs'. subst s'.
  rewrite decrement_session_run. cbn. unfold ended. by rewrite Hid.
Qed.

Lemma end_listed_state has tenantID keep actor reason all now timeNow (find : SessionStore -> list LoginSession) s s' :
  state_of (let! sessions := from_store find in end_listed has tenantID keep actor reason all now timeNow sessions) s = s' ->
  s' = fold_left (fun s x => ended has tenantID x reason now s) (List.filter (fun x => negb (kept_session keep x)) (find (ss_store s))) s.
Proof. unfold state_of, eff_bind, from_store. rewrite end_listed_run. by intros <-. Qed.

(** *** Every operation *)

Lemma one_changed_evolves c tenantID id P f s s' : session_wf (ss_store s) -> one_changed tenantID id P f s s' ->
  (forall x, se_ID x = id -> se_TenantID x = tenantID -> P x -> evolves c x (f x)) ->
  session_wf (ss_store s') /\ forall i y, records (ss_store s') !! i = Some y -> exists x, records (ss_store s) !! i = Some x /\ evolves c x y.
Proof.
  intros Hwf Hch Hev. assert (Hrefl : forall i y, records (ss_store s) !! i = Some y -> exists x, records (ss_store s) !! i = Some x /\ evolves c x y).
  { intros i y Hy. exists y. split; [done|]. by apply marks_evolve. }
  destruct Hch as [->|(x & Hx & Hid & Ht & _ & HP & Hwf' & Hrec & _)]; [done|]. split; [done|]. intros i y. rewrite Hrec, lookup_insert_Some.
  intros [[<- <-]|[_ Hy]]; [|by apply Hrefl]. exists x. split; [done|]. by apply Hev.
Qed.

Lemma marks_evolves c s s' : session_wf (ss_store s') -> only_marks (records (ss_store s)) (records (ss_store s')) ->
  session_wf (ss_store s') /\ forall i y, records (ss_store s') !! i = Some y -> exists x, records (ss_store s) !! i = Some x /\ evolves c x y.
Proof. intros Hwf Hm. split; [done|]. intros i y Hy. destruct (Hm i y Hy) as (x & Hx & Hs). exists x. split; [done|]. by apply marks_evolve. Qed.

Lemma candidate_evolves tenantID id amr x : se_ID x = id -> se_TenantID x = tenantID -> session_Validate (candidate_session x amr) = Ok tt ->
  evolves (CallComplete tenantID id amr) x (candidate_session x amr).
Proof. intros <- <- Hv. constructor; [done|done|]. right. by exists amr. Qed.

Lemma pending_evolves c x purpose deadline bypass : evolves c x (with_factor (se_AMR x) (se_ACR x) true purpose deadline bypass x).
Proof. constructor; [done|done|]. by left. Qed.

Lemma other_calls_mark has clock c s : session_wf (ss_store s) ->
  match c with
  | CallResolve _ _ _ | CallRevokeCookie _ _ _ | CallRevokeOwned _ _ _ _ _ _ _ | CallRevokeOthers _ _ _ _ _ _ | CallRevokeUser _ _ _ _ _ _
  | CallEnd _ _ _ _ | CallDeleteAll _ _ | CallDeleteExpired _ _ _ => True
  | _ => False
  end ->
  let s' := session_serve has clock c s in session_wf (ss_store s') /\ only_marks (records (ss_store s)) (records (ss_store s')).
Proof.
  assert (Hrev : forall t id reason now q, session_wf (ss_store s) -> let s' := {| ss_store := Revoke_session t id reason now (ss_store s); ss_quota := q |} in
    session_wf (ss_store s') /\ only_marks (records (ss_store s)) (records (ss_store s'))).
  { intros t id reason now q Hwf. destruct (Revoke_wf t id reason now _ Hwf) as [Hwf' Hrec]. split; [done|]. cbn [ss_store]. rewrite Hrec.
    apply altered_marks. intros y. apply Revoke_same. }
  intros Hwf Hc. cbv zeta. destruct c; try done; unfold session_serve.
  - remember (state_of _ s) as s' eqn:Hs'. destruct (resolve_run _ _ _ _ _ _ Hwf (eq_sym Hs')) as [->|[id ->]]; [done|].
    destruct (Touch_wf tenantID id timeNow _ Hwf) as [Hwf' Hrec]. split; [done|]. cbn [ss_store]. rewrite Hrec. apply altered_marks. intros y. apply Touch_same.
  - unfold state_of, Revoke_cookie. destruct (_ =? ""); [done|]. by apply Hrev.
  - remember (state_of _ s) as s' eqn:Hs'. destruct (revoke_owned_run _ _ _ _ _ _ _ _ _ _ Hwf (eq_sym Hs')) as [->|(x & _ & _ & _ & _ & Hx)]; [done|].
    destruct (se_RevokedAt x); rewrite Hx; by apply Hrev.
  - unfold RevokeOtherSessions. remember (state_of _ s) as s' eqn:Hs'. rewrite (end_listed_state _ _ _ _ _ _ _ _ _ _ _ (eq_sym Hs')). by apply ended_all_marks.
  - unfold AdminRevokeUserSessions. remember (state_of _ s) as s' eqn:Hs'. rewrite (end_listed_state _ _ _ _ _ _ _ _ _ _ _ (eq_sym Hs')). by apply ended_all_marks.
  - remember (state_of _ s) as s' eqn:Hs'. destruct (end_run _ _ _ _ _ _ _ _ Hwf (eq_sym Hs')) as [->|(x & _ & _ & _ & _ & ->)]; [done|]. by apply Hrev.
  - cbn [state_of on_store fst snd ss_store]. destruct (DeleteAll_wf tenantID sub _ Hwf) as [Hwf' Hrec]. split; [done|]. rewrite Hrec. apply filter_marks.
  - cbn [state_of on_store fst snd ss_store]. destruct (DeleteExpired_wf order cutoff limit _ Hwf) as [Hwf' Hrec]. split; [done|].
    intros id y Hy. exists y. destruct (Hrec id) as [<-|[Hnone _]]; [done|congruence].
Qed.

Lemma serve_evolves has clock c s : session_wf (ss_store s) ->
  let s' := session_serve has clock c s in
  session_wf (ss_store s') /\
  forall id y, records (ss_store s') !! id = Some y -> (exists x, records (ss_store s) !! id = Some x /\ evolves c x y) \/ (created_by c y /\ se_ID y = id).
Proof.
  intros Hwf. cbv zeta. remember (session_serve has clock c s) as s' eqn:Hs'.
  assert (Hsome : (session_wf (ss_store s') /\ forall i y, records (ss_store s') !! i = Some y -> exists x, records (ss_store s) !! i = Some x /\ evolves c x y) ->
    session_wf (ss_store s') /\ forall id y, records (ss_store s') !! id = Some y ->
    (exists x, records (ss_store s) !! id = Some x /\ evolves c x y) \/ (created_by c y /\ se_ID y = id)).
  { intros [Hwf' Hr]. split; [done|]. intros id y Hy. left. by apply Hr. }
  pose proof (other_calls_mark has clock c s Hwf) as Ho. destruct c; cbn [session_serve] in Hs'.
  2: { apply Hsome, (one_changed_evolves _ _ _ _ _ _ _ Hwf (complete_factor_run _ _ _ _ _ _ Hwf (eq_sym Hs'))). intros x. apply candidate_evolves. }
  2: { apply Hsome, (one_changed_evolves _ _ _ _ _ _ _ Hwf (require_factor_run _ _ _ _ _ Hwf (eq_sym Hs'))). intros x _ _ _. apply pending_evolves. }
  2: { apply Hsome, (one_changed_evolves _ _ _ _ _ _ _ Hwf (require_enrollment_run _ _ _ _ _ _ _ Hwf (eq_sym Hs'))). intros x _ _ _. apply pending_evolves. }
  2: { apply Hsome, (one_changed_evolves _ _ _ _ _ _ _ Hwf (step_up_run _ _ _ _ _ _ _ Hwf (eq_sym Hs'))). intros x _ _ _. apply marks_evolve. by constructor. }
  2-9: destruct (Ho I) as [Hwf' Hm]; apply Hsome; rewrite Hs'; by apply marks_evolves.
  destruct (create_run _ _ _ _ _ _ _ _ _ _ Hwf (eq_sym Hs')) as [->|(i & -> & Hv & _ & Hwf' & Hrec & _)].
  - apply Hsome. apply marks_evolves; rewrite take_slot_store; done.
  - split; [done|]. intros id' y. rewrite Hrec, lookup_insert_Some. intros [[<- <-]|[_ Hy]].
    + right. split; [|done]. by eexists _, _, _, _, _, _, _.
    + left. exists y. split; [done|]. by apply marks_evolve.
Qed.

(** ** Sessions in a sequence of operations *)

Lemma session_records_ID s id x : session_wf s -> records s !! id = Some x -> se_ID x = id /\ se_TenantID x <> "".
Proof.
  intros Hwf. rewrite records_at. destruct (session_at id s) as [[p y]|] eqn:Hat; [|done]. intros [= <-].
  destruct (at_shape _ _ _ _ Hwf Hat) as (? & ? & _). done.
Qed.

Lemma run_wf has l s : session_wf (ss_store s) -> session_wf (ss_store (session_run has l s)).
Proof.
  revert s. induction l as [|e l IH]; intros s Hwf; [done|]. apply (IH (session_serve has e.1 e.2 s)). by apply serve_evolves.
Qed.

Definition creates (c : session_call) : option string := match c with CallCreate _ _ _ _ _ _ id => id | _ => None end.
Definition completes (c : session_call) : option string := match c with CallComplete _ id _ => Some id | _ => None end.

(** What every operation keeps of one session, while it is not created again. *)
Lemma run_keeps (P : LoginSession -> Prop) has id l s : session_wf (ss_store s) ->
  (forall x, records (ss_store s) !! id = Some x -> P x) ->
  Forall (fun e => creates e.2 <> Some id) l ->
  (forall e x y, e ∈ l -> se_ID x = id -> P x -> evolves e.2 x y -> P y) ->
  forall x, records (ss_store (session_run has l s)) !! id = Some x -> P x.
Proof.
  revert s. induction l as [|e l IH]; intros s Hwf HP Hcr Hstep; [done|]. apply Forall_cons in Hcr as [Hc Hcr].
  destruct (serve_evolves has e.1 e.2 s Hwf) as [Hwf' Hev].
  apply (IH (session_serve has e.1 e.2 s)); [done| |done|intros e' x y He'; apply Hstep; by right].
  intros y Hy. destruct (Hev id y Hy) as [(x & Hx & Hxy)|[(t & sub & amr & now & timeNow & pending & i & He & _ & ->) Hid]].
  - apply (Hstep e x y); [by left|exact (proj1 (session_records_ID _ _ _ Hwf Hx))|by apply HP|done].
  - exfalso. apply Hc. rewrite He. cbn in Hid. by rewrite Hid.
Qed.

Definition fresh_sessions (q : QuotaRepository) : SessionState := {| ss_store := NewSessionStore; ss_quota := q |}.

Lemma resolve_exact clock tenantID cookie timeNow s : session_wf (ss_store s) -> sessionIDFromCookieHeader cookie <> "" ->
  match Find_session tenantID (sessionIDFromCookieHeader cookie) clock (ss_store s) with
  | Some (_, x) => (Resolve_session clock tenantID cookie timeNow s).1.1 = Ok (Some (authenticationContextFromSession x))
  | None => Resolve_session clock tenantID cookie timeNow s = (Ok None, s, [])
  end.
Proof.
  intros Hwf Hne. unfold Resolve_session. rewrite bool_decide_false by done. unfold eff_bind. rewrite found_run by done.
  by destruct (Find_session _ _ _ _) as [[p x]|].
Qed.

Lemma not_found tenantID id now s : (forall x, records s !! id = Some x -> session_Active x now = false) -> Find_session tenantID id now s = None.
Proof.
  intros Hx. pose proof (Find_records tenantID id now s) as Hf. destruct (records s !! id) as [x|]; [rewrite (Hx x eq_refl), andb_false_r in Hf|];
    by destruct (Find_session tenantID id now s) as [[p y]|].
Qed.

(** C38. A session that has ended, by a revocation, its expiry or its deletion, stays
    ended whatever operations follow: nobody is authenticated by it again and no factor
    completes it, as long as its identifier is not drawn a second time.  And a session
    that waits for a factor authenticates nobody as more than waiting before a factor
    completes it. *)
Theorem sessions_end has q l1 l2 id (T : Time) tenantID cookie (now timeNow : Time) :
  let s1 := session_run has l1 (fresh_sessions q) in
  let s2 := session_run has l2 s1 in
  Forall (fun e => creates e.2 <> Some id) l2 -> sessionIDFromCookieHeader cookie = id -> id <> "" ->
  ((forall x, records (ss_store s1) !! id = Some x -> session_Active x T = false) -> (T <= now)%Z ->
   Resolve_session now tenantID cookie timeNow s2 = (Ok None, s2, []) /\ forall amr, CompleteFactor now tenantID id amr s2 = (Ok None, s2, [])) /\
  ((forall x, records (ss_store s1) !! id = Some x -> se_Pending x = true) -> Forall (fun e => completes e.2 <> Some id) l2 ->
   forall ctx s3 w, Resolve_session now tenantID cookie timeNow s2 = (Ok (Some ctx), s3, w) -> ac_Pending ctx = true).
Proof.
  intros s1 s2 Hcr Hck Hne. assert (Hwf1 : session_wf (ss_store s1)) by (apply run_wf; apply new_wf).
  assert (Hwf2 : session_wf (ss_store s2)) by (by apply run_wf).
  pose proof (resolve_exact now tenantID cookie timeNow s2 Hwf2) as Hres. rewrite Hck in Hres. specialize (Hres Hne). split.
  - intros Hend HT. assert (Hnone : Find_session tenantID id now (ss_store s2) = None).
    { apply not_found. intros x Hx. enough (Hp : session_Active x T = false).
      { revert Hp. unfold session_Active. destruct (se_RevokedAt x); [done|]. unfold Before. rewrite !Z.ltb_ge. lia. }
      revert x Hx. apply (run_keeps (fun x => session_Active x T = false) has id l2 s1 Hwf1 Hend Hcr). intros e x y _ _ Hx [Hid He _].
      revert Hx. unfold session_Active. destruct (se_RevokedAt x) eqn:Hr.
      - by destruct He as [-> _].
      - destruct Hid as (_ & _ & _ & _ & ->). by destruct (se_RevokedAt y). }
    rewrite Hnone in Hres. split; [done|]. intros amr. unfold CompleteFactor, complete_candidate, eff_bind. rewrite found_run by done. by rewrite Hnone.
  - intros Hpend Hco ctx s3 w Hrun. rewrite Hrun in Hres. destruct (Find_session tenantID id now (ss_store s2)) as [[p x]|] eqn:Hf; [|done].
    injection Hres as ->. destruct (found_shape _ _ _ _ _ _ Hwf2 Hf) as (_ & Hx & _). cbn. clear Hf Hrun. revert x Hx.
    apply (run_keeps (fun x => se_Pending x = true) has id l2 s1 Hwf1 Hpend Hcr). intros e x y He Hid Hx [_ _ [(_ & _ & Hp)|(amr & Hc & _)]]; [by apply Hp|].
    rewrite Forall_forall in Hco. destruct (Hco e He). rewrite Hc. cbn. by rewrite Hid.
Qed.

(** What creations and completions have made of a session. *)
Definition authorized (l : list (Time * session_call)) (x : LoginSession) : Prop :=
  exists clock tenantID sub amr now timeNow pending added,
    let n : Time := if IsZero now then timeNow else now in
    (clock, CallCreate tenantID sub amr now timeNow pending (Some (se_ID x))) ∈ l /\ se_TenantID x = DefaultScope tenantID DefaultTenantID /\
    se_UserID x = sub /\ se_AuthTime x = Unix n /\ se_ExpiresAt x = (n + 3600 * Second)%Z /\
    se_AMR x = (amr ++ added)%list /\
    Forall (fun m => exists c amr', (c, CallComplete (se_TenantID x) (se_ID x) amr') ∈ l /\ m ∈ amr') added /\
    se_ACR x = DeriveACR (se_AMR x) /\ UnknownAMRValues (se_AMR x) = [] /\
    (se_Pending x = false -> pending = false \/ exists c amr', (c, CallComplete (se_TenantID x) (se_ID x) amr') ∈ l).

Lemma valid_methods x : session_Validate x = Ok tt -> UnknownAMRValues (se_AMR x) = [].
Proof. unfold session_Validate. by destruct (bool_decide_reflect (UnknownAMRValues (se_AMR x) = [])). Qed.

Lemma authorized_created l clock c y : created_by c y -> authorized (l ++ [(clock, c)]) y.
Proof.
  intros (t & sub & amr & now & timeNow & pending & id & -> & Hv & ->). apply valid_methods in Hv.
  exists clock, t, sub, amr, now, timeNow, pending, []. cbv zeta. split_and!; try done; [|by rewrite app_nil_r|by left].
  apply elem_of_app. right. by apply list_elem_of_singleton.
Qed.

Lemma authorized_step l clock c x y : authorized l x -> evolves c x y -> authorized (l ++ [(clock, c)]) y.
Proof.
  intros (clk & t & sub & amr & now & timeNow & pending & added & Hcr & Ht & Hu & Ha & He & Hm & Hadd & Hacr & Hunk & Hp) [(Hid1 & Hid2 & Hid3 & Hid4 & Hid5) _ Hev].
  assert (Hin : forall e, e ∈ l -> e ∈ (l ++ [(clock, c)])%list) by (intros; apply elem_of_app; by left).
  assert (Hlast : (clock, c) ∈ (l ++ [(clock, c)])%list) by (apply elem_of_app; right; by apply list_elem_of_singleton).
  assert (Hadd' : Forall (fun m => exists k amr', (k, CallComplete (se_TenantID y) (se_ID y) amr') ∈ (l ++ [(clock, c)])%list /\ m ∈ amr') added).
  { eapply Forall_impl; [exact Hadd|]. intros m (k & amr' & Hk & Hma). exists k, amr'. rewrite Hid1, Hid2. split; [by apply Hin|done]. }
  destruct Hev as [(Hm1 & Hm2 & Hm3)|(amr' & Hc & Hm1 & Hm2 & Hv)].
  - exists clk, t, sub, amr, now, timeNow, pending, added. cbv zeta in *. rewrite Hid1, Hid2, Hid3, Hid4, Hid5, Hm1, Hm2 in *.
    split_and!; try done; [by apply Hin|]. intros Hpy. destruct (se_Pending x); [by rewrite Hm3 in Hpy|]. destruct (Hp eq_refl) as [->|(k & amr' & Hk)]; [by left|].
    right. exists k, amr'. by apply Hin.
  - destruct (merged_AMR_app (se_AMR x) amr') as (new & Hnew & Hfor). exists clk, t, sub, amr, now, timeNow, pending, (added ++ new)%list. cbv zeta in *.
    split_and!; try congruence; [rewrite Hid1; by apply Hin|rewrite Hm1, Hnew, Hm; by rewrite app_assoc| |by apply valid_methods|].
    + apply Forall_app. split; [done|]. eapply Forall_impl; [exact Hfor|]. intros m Hma. exists clock, amr'. by rewrite Hid1, Hid2, <- Hc.
    + intros _. right. exists clock, amr'. by rewrite Hid1, Hid2, <- Hc.
Qed.

Lemma run_authorized has l q id x : records (ss_store (session_run has l (fresh_sessions q))) !! id = Some x -> authorized l x.
Proof.
  revert id x. induction l as [|[clock c] l IH] using rev_ind; intros id x; [change (records NewSessionStore !! id = Some x -> authorized [] x); by rewrite (proj2 new_wf), lookup_empty|].
  unfold session_run. rewrite fold_left_app. cbn [fold_left fst snd]. fold (session_run has l (fresh_sessions q)).
  assert (Hwf : session_wf (ss_store (session_run has l (fresh_sessions q)))) by (apply run_wf, new_wf).
  destruct (serve_evolves has clock c _ Hwf) as [_ Hev]. intros Hx. destruct (Hev id x Hx) as [(y & Hy & Hyx)|[Hc _]].
  - by apply (authorized_step l clock c y); [apply (IH id)|].
  - by apply authorized_created.
Qed.

(** C39. Whoever is authenticated by a cookie has a session that was created for this
    user and tenant less than an hour ago and not revoked since.  Its methods are those
    of its creation and of the factors that completed it, all of the declared
    vocabulary; its class is that of multiple factors exactly when one of them is a
    second factor; and it is not pending only when it was not created so or a factor
    completed it. *)
Theorem session_authority has q l clock tenantID cookie timeNow ctx s' w :
  Resolve_session clock tenantID cookie timeNow (session_run has l (fresh_sessions q)) = (Ok (Some ctx), s', w) ->
  exists x, authorized l x /\ se_ID x = sessionIDFromCookieHeader cookie /\ se_TenantID x = tenantID /\
    se_RevokedAt x = None /\ (clock < se_ExpiresAt x)%Z /\ ctx = authenticationContextFromSession x /\
    (ac_ACR ctx = ACRMFA <-> exists method, method ∈ ac_AMR ctx /\ IsMfaAMR method = true).
Proof.
  intros Hres. assert (Hwf : session_wf (ss_store (session_run has l (fresh_sessions q)))) by (apply run_wf, new_wf).
  assert (Hne : sessionIDFromCookieHeader cookie <> "").
  { intros Heq. unfold Resolve_session in Hres. by rewrite bool_decide_true in Hres. }
  pose proof (resolve_exact clock tenantID cookie timeNow _ Hwf Hne) as Hx. rewrite Hres in Hx.
  destruct (Find_session tenantID _ clock _) as [[p x]|] eqn:Hf; [|done]. injection Hx as ->.
  destruct (found_shape _ _ _ _ _ _ Hwf Hf) as (_ & Hr & Hid & Ht & _ & Hrev & Hexp). apply run_authorized in Hr as Hau. exists x. split_and!; try done.
  destruct Hau as (? & ? & ? & ? & ? & ? & ? & ? & _ & _ & _ & _ & _ & _ & _ & Hacr & _). cbn [authenticationContextFromSession ac_ACR ac_AMR]. rewrite Hacr.
  apply DeriveACR_mfa.
Qed.

(** ** The quota of sessions *)

(** The sessions of a tenant that nothing has revoked, also the expired ones. *)
Definition standing (t : string) (x : LoginSession) : bool := (se_TenantID x =? t) && negb (is_some (se_RevokedAt x)).

(** The counter covers them, and has grown only within the limit. *)
Record covered (q0 : QuotaRepository) (s : SessionState) : Prop := {
  cov_wf : session_wf (ss_store s);
  cov_quota : quota_ok (ss_quota s);
  cov_limits : quotas (ss_quota s) = quotas q0;
  cov_count : forall t, (count_of (standing t) (records (ss_store s)) <= used (ss_quota s) t ResourceActiveSessions)%Z;
  cov_used : forall t, (used (ss_quota s) t ResourceActiveSessions <= Z.max (used q0 t ResourceActiveSessions) (limit_of q0 t ResourceActiveSessions))%Z;
}.

Definition no_more (m m' : gmap string LoginSession) : Prop := forall t key, holds_at (standing t) m' key = true -> holds_at (standing t) m key = true.

Lemma marks_no_more m m' : only_marks m m' -> no_more m m'.
Proof.
  intros Hm t key. unfold holds_at. destruct (m' !! key) as [y|] eqn:Hy; [|done]. destruct (Hm key y Hy) as (x & -> & [(_ & Ht & _) _ He]). unfold standing. rewrite Ht.
  destruct (se_RevokedAt x); [|cbn; by rewrite andb_true_r; intros [-> _]%andb_true_iff]. destruct He as [-> _]; [done|]. cbn. by rewrite andb_false_r.
Qed.

Lemma changed_no_more tenantID id P f s s' : (forall x, se_TenantID (f x) = se_TenantID x /\ se_RevokedAt (f x) = se_RevokedAt x) ->
  one_changed tenantID id P f s s' -> no_more (records (ss_store s)) (records (ss_store s')) /\ (session_wf (ss_store s) -> session_wf (ss_store s')) /\ ss_quota s' = ss_quota s.
Proof.
  intros Hf [->|(x & Hx & _ & _ & _ & _ & Hwf & Hrec & Hq)]; [split_and!; [by intros t key|done|done]|]. split_and!; [|done|done]. intros t key. rewrite Hrec. unfold holds_at.
  destruct (decide (key = id)) as [->|]; [|by rewrite lookup_insert_ne]. rewrite lookup_insert_eq, Hx. unfold standing. by destruct (Hf x) as [-> ->].
Qed.

Lemma covered_less q0 s s' : covered q0 s -> session_wf (ss_store s') -> no_more (records (ss_store s)) (records (ss_store s')) -> ss_quota s' = ss_quota s -> covered q0 s'.
Proof.
  intros [Hwf Hq Hl Hc Hu] Hwf' Hm Heq. constructor; rewrite ?Heq; try done. intros t. etransitivity; [|apply Hc]. apply count_of_mono, Hm.
Qed.

Lemma freed_used q t : quota_ok q ->
  quota_ok (slot_freed true t q) /\ quotas (slot_freed true t q) = quotas q /\
  forall t', used (slot_freed true t q) t' ResourceActiveSessions = if decide (t' = t) then Z.max 0 (used q t ResourceActiveSessions - 1) else used q t' ResourceActiveSessions.
Proof.
  intros Hq. split; [apply (quota_step_ok (Free t ResourceActiveSessions 1) q Hq); unfold small_call, small; lia|].
  pose proof (Decrement_hard t ResourceActiveSessions 1 q eq_refl eq_refl (usage_ok q Hq t ResourceActiveSessions eq_refl eq_refl)) as Hd.
  unfold slot_freed. destruct (Decrement t ResourceActiveSessions 1 q) as [res q']. destruct Hd as (_ & Hl & Hu); [unfold small; lia|]. split; [done|].
  intros t'. rewrite Hu. destruct (decide (t' = t)) as [->|Hne]; [by rewrite decide_True|]. rewrite decide_False; [done|naive_solver].
Qed.

Lemma ended_records has tenantID x reason now s : session_wf (ss_store s) -> records (ss_store s) !! se_ID x = Some x -> se_TenantID x = tenantID ->
  records (ss_store (ended has tenantID x reason now s)) = <[se_ID x := session_Revoke reason now x]> (records (ss_store s)).
Proof.
  intros Hwf Hx Ht. destruct (session_records_ID _ _ _ Hwf Hx) as [_ Hne]. destruct (Revoke_wf tenantID (se_ID x) reason now _ Hwf) as [_ Hrec]. cbn [ended ss_store]. rewrite Hrec.
  unfold altered. apply map_eq. intros i. destruct (decide (i = se_ID x)) as [->|]; [|by rewrite lookup_alter_ne, lookup_insert_ne].
  rewrite lookup_alter_eq, lookup_insert_eq, Hx. simpl. unfold inTenant, DefaultScope. rewrite (bool_decide_false (se_TenantID x = "")) by done. by rewrite bool_decide_true.
Qed.

Lemma covered_ended q0 tenantID x reason now s : covered q0 s -> records (ss_store s) !! se_ID x = Some x -> se_TenantID x = tenantID -> se_RevokedAt x = None ->
  covered q0 (ended true tenantID x reason now s).
Proof.
  intros [Hwf Hq Hl Hc Hu] Hx Ht Hr. destruct (freed_used (ss_quota s) (se_TenantID x) Hq) as (Hq' & Hl' & Hu').
  constructor; [by apply ended_marks|done|exact (eq_trans Hl' Hl)| |].
  - intros t. rewrite (ended_records _ _ _ _ _ _ Hwf Hx Ht), count_of_insert. unfold holds_at. rewrite Hx. cbn [ended ss_quota]. rewrite Hu'.
    assert (Hrev : standing t (session_Revoke reason now x) = false) by (unfold standing, session_Revoke; rewrite Hr; cbn; by rewrite andb_false_r).
    rewrite Hrev. unfold standing at 2. rewrite Hr, andb_true_r. specialize (Hc t). destruct (decide (t = se_TenantID x)) as [->|Hne].
    + rewrite bool_decide_true by done. simpl. lia.
    + rewrite bool_decide_false by done. simpl. lia.
  - intros t. cbn [ended ss_quota]. rewrite Hu'. specialize (Hu t). pose proof (limit_small q0 t ResourceActiveSessions) as Hsm.
    destruct (decide (t = se_TenantID x)) as [->|]; [|done]. assert (0 <= limit_of q0 (se_TenantID x) ResourceActiveSessions)%Z; [|lia].
    apply Hsm. intros q l Hq1 Hl1. rewrite <- Hl in Hq1. by apply (limits_ok _ Hq (se_TenantID x) q ResourceActiveSessions l).
Qed.

Lemma covered_all_ended q0 tenantID reason now l s : covered q0 s -> NoDup (map se_ID l) ->
  Forall (fun x => records (ss_store s) !! se_ID x = Some x /\ se_TenantID x = tenantID /\ se_RevokedAt x = None) l ->
  covered q0 (fold_left (fun s x => ended true tenantID x reason now s) l s).
Proof.
  revert s. induction l as [|x l IH]; intros s Hc Hnd Hall; [done|]. cbn [fold_left]. cbn [map] in Hnd. apply NoDup_cons in Hnd as [Hni Hnd].
  apply Forall_cons in Hall as [(Hx & Ht & Hr) Hall]. apply IH; [by apply covered_ended|done|].
  rewrite Forall_forall in Hall |- *. intros y Hy. destruct (Hall y Hy) as (Hy1 & Hy2 & Hy3). split_and!; [|done|done].
  rewrite ended_records; [|apply Hc|done|done]. rewrite lookup_insert_ne; [done|]. intros Heq. apply Hni. rewrite Heq.
  apply list_elem_of_fmap. by exists y.
Qed.

Lemma list_shape order tenantID sub now s : session_wf s -> NoDup order ->
  NoDup (map se_ID (ListBySub order tenantID sub now s)) /\
  Forall (fun x => records s !! se_ID x = Some x /\ se_TenantID x = tenantID /\ se_RevokedAt x = None) (ListBySub order tenantID sub now s).
Proof.
  intros Hwf. rewrite ListBySub_records. induction order as [|id order IH]; intros Hnd; [split; constructor|].
  apply NoDup_cons in Hnd as [Hni Hnd]. destruct (IH Hnd) as [IH1 IH2]. simpl. destruct (records s !! id) as [x|] eqn:Hx; [|done].
  destruct (session_records_ID _ _ _ Hwf Hx) as [Hid Hne]. simpl. destruct (listed tenantID sub now x) eqn:Hlist; [|done]. simpl. split.
  - constructor; [|done]. rewrite Hid. intros (y & Hy & Hin)%list_elem_of_fmap. apply list_elem_of_In, filter_In in Hin as [Hin _].
    apply list_elem_of_In, list_elem_of_omap in Hin as (id' & Hin & Hr). destruct (session_records_ID _ _ _ Hwf Hr) as [Hid' _]. apply Hni. congruence.
  - constructor; [|done]. rewrite Hid. unfold listed, inTenant, DefaultScope, session_Active in Hlist. rewrite (bool_decide_false (se_TenantID x = "")) in Hlist by done.
    destruct (se_RevokedAt x); [by rewrite andb_false_r in Hlist|]. split_and!; [done| |done].
    by apply andb_true_iff in Hlist as [[[Ht%bool_decide_eq_true _]%andb_true_iff _]%andb_true_iff _].
Qed.

Lemma filtered_shape (m : gmap string LoginSession) keep tenantID l : NoDup (map se_ID l) ->
  Forall (fun x => m !! se_ID x = Some x /\ se_TenantID x = tenantID /\ se_RevokedAt x = None) l ->
  let l' := List.filter (fun x => negb (kept_session keep x)) l in
  NoDup (map se_ID l') /\ Forall (fun x => m !! se_ID x = Some x /\ se_TenantID x = tenantID /\ se_RevokedAt x = None) l'.
Proof.
  cbv zeta. induction l as [|x l IH]; intros Hnd Hall; [by split|]. cbn [map] in Hnd. apply NoDup_cons in Hnd as [Hni Hnd]. apply Forall_cons in Hall as [Hx Hall].
  destruct (IH Hnd Hall) as [IH1 IH2]. cbn [List.filter]. destruct (negb _); [|done]. cbn [map]. split; [|by constructor]. constructor; [|done].
  intros (y & Hy & Hin)%list_elem_of_fmap. apply list_elem_of_In, filter_In in Hin as [Hin _]. apply Hni. rewrite Hy. apply list_elem_of_fmap. exists y.
  by rewrite list_elem_of_In.
Qed.

(** The iteration over a map visits a key once, and no request is without a tenant. *)
Definition well_called (c : session_call) : Prop :=
  match c with
  | CallCreate tenantID _ _ _ _ _ _ => tenantID <> ""
  | CallRevokeOthers order _ _ _ _ _ | CallRevokeUser order _ _ _ _ _ => NoDup order
  | _ => True
  end.

Lemma covered_taken q0 tenantID now s : covered q0 s ->
  let s1 := (take_slot true tenantID now s).1.2 in
  covered q0 s1 /\ ((take_slot true tenantID now s).1.1 = Ok tt ->
    forall t, (count_of (standing t) (records (ss_store s1)) + Prelude.one (bool_decide (tenantID = t)) <= used (ss_quota s1) t ResourceActiveSessions)%Z).
Proof.
  intros [Hwf Hq Hl Hc Hu]. unfold take_slot. cbn [check_quota session_quota_port]. unfold on_session_quota.
  pose proof (CheckAndIncrement_hard tenantID ResourceActiveSessions 1 (ss_quota s) eq_refl eq_refl (usage_ok _ Hq tenantID ResourceActiveSessions eq_refl eq_refl)) as Hd.
  assert (Hq' : quota_ok (CheckAndIncrement tenantID ResourceActiveSessions 1 (ss_quota s)).2).
  { apply (quota_step_ok (Increment tenantID ResourceActiveSessions 1) _ Hq). unfold small_call, small. lia. }
  destruct (CheckAndIncrement tenantID ResourceActiveSessions 1 (ss_quota s)) as [[[]|e] q']; cbn [fst snd] in *; destruct Hd as [Hl' Hd]; try (unfold small; lia).
  - destruct Hd as [Hle Hd].
    assert (Hused : forall t, used q' t ResourceActiveSessions = (used (ss_quota s) t ResourceActiveSessions + Prelude.one (bool_decide (tenantID = t)))%Z).
    { intros t. rewrite Hd. destruct (bool_decide_reflect (tenantID = t)) as [->|Hne]; [by rewrite decide_True|].
      rewrite decide_False by naive_solver. simpl. lia. }
    split; [constructor; cbn [ss_store ss_quota]; [done|done|by rewrite Hl'| |]|].
    + intros t. rewrite Hused. specialize (Hc t). destruct (bool_decide _); simpl; lia.
    + intros t. rewrite Hused. specialize (Hu t). destruct (bool_decide_reflect (tenantID = t)) as [<-|]; [|simpl; lia].
      assert (Hlim : limit_of (ss_quota s) tenantID ResourceActiveSessions = limit_of q0 tenantID ResourceActiveSessions) by (unfold limit_of, quota_of; by rewrite Hl).
      simpl. lia.
    + intros _ t. cbn [ss_store ss_quota]. rewrite Hused. specialize (Hc t). lia.
  - split; [|done]. destruct Hd as (_ & _ & Hd). constructor; cbn [ss_store ss_quota]; [done|done|by rewrite Hl'| |]; intros t; rewrite Hd; auto.
Qed.

Lemma serve_covered q0 clock c s : covered q0 s -> well_called c -> covered q0 (session_serve true clock c s).
Proof.
  intros Hcov Hit. pose proof (cov_wf _ _ Hcov) as Hwf. destruct (serve_evolves true clock c s Hwf) as [Hwf' _].
  assert (Hchanged : forall s' t id P f, (forall x, se_TenantID (f x) = se_TenantID x /\ se_RevokedAt (f x) = se_RevokedAt x) -> one_changed t id P f s s' -> covered q0 s').
  { intros s' t id P f Hf Hch. destruct (changed_no_more _ _ _ _ _ _ Hf Hch) as (Hm & Hw & Hq). apply (covered_less q0 s s'); auto. }
  remember (session_serve true clock c s) as s' eqn:Hs'. pose proof (other_calls_mark true clock c s Hwf) as Hother.
  destruct c; cbn [session_serve] in *; try (destruct (Hother I) as [_ Hm]; rewrite <- Hs' in Hm; apply marks_no_more in Hm); clear Hother.
  - destruct (covered_taken q0 tenantID (if IsZero now then timeNow else now) s Hcov) as [Hc1 Hroom].
    destruct (create_run _ _ _ _ _ _ _ _ _ _ Hwf (eq_sym Hs')) as [->|(i & -> & Hv & Htake & _ & Hrec & Hq)]; [done|].
    specialize (Hroom Htake). destruct Hc1 as [Hwf1 Hq1 Hl1 Hcount1 Hu1]. rewrite take_slot_store in Hroom. constructor; rewrite ?Hq; try done. intros t.
    rewrite Hrec, count_of_insert. specialize (Hroom t).
    assert (Hst : (Prelude.one (standing t (scoped (created_session tenantID i sub amr (if IsZero now then timeNow else now) pending))) <= Prelude.one (bool_decide (tenantID = t)))%Z).
    { rewrite scoped_id by done. unfold standing. cbn [created_session se_TenantID se_RevokedAt is_some negb]. by rewrite andb_true_r. }
    match goal with |- context [holds_at ?P ?m ?k] => pose proof (one_range (holds_at P m k)) end. lia.
  - refine (Hchanged s' _ _ _ _ _ (complete_factor_run _ _ _ _ _ _ Hwf (eq_sym Hs'))); done.
  - refine (Hchanged s' _ _ _ _ _ (require_factor_run _ _ _ _ _ Hwf (eq_sym Hs'))); done.
  - refine (Hchanged s' _ _ _ _ _ (require_enrollment_run _ _ _ _ _ _ _ Hwf (eq_sym Hs'))); done.
  - refine (Hchanged s' _ _ _ _ _ (step_up_run _ _ _ _ _ _ _ Hwf (eq_sym Hs'))); done.
  - apply (covered_less q0 s s' Hcov Hwf' Hm). destruct (resolve_run _ _ _ _ _ _ Hwf (eq_sym Hs')) as [->|[id ->]]; done.
  - apply (covered_less q0 s s' Hcov Hwf' Hm). rewrite Hs'. unfold state_of, Revoke_cookie. by destruct (_ =? "").
  - destruct (revoke_owned_run _ _ _ _ _ _ _ _ _ _ Hwf (eq_sym Hs')) as [->|(x & Hx & Hid & Ht & _ & Hcase)]; [done|].
    destruct (se_RevokedAt x) eqn:Hr; [apply (covered_less q0 s s' Hcov Hwf' Hm); by rewrite Hcase|]. rewrite Hcase. apply covered_ended; [done|by rewrite Hid|done|done].
  - unfold RevokeOtherSessions in Hs'. rewrite (end_listed_state _ _ _ _ _ _ _ _ _ _ _ (eq_sym Hs')). destruct (list_shape order tenantID sub clock _ Hwf Hit) as [H1 H2].
    destruct (filtered_shape _ (Some keep) tenantID _ H1 H2). by apply covered_all_ended.
  - unfold AdminRevokeUserSessions in Hs'. rewrite (end_listed_state _ _ _ _ _ _ _ _ _ _ _ (eq_sym Hs')). destruct (list_shape order tenantID target clock _ Hwf Hit) as [H1 H2].
    destruct (filtered_shape _ None tenantID _ H1 H2). by apply covered_all_ended.
  - destruct (end_run _ _ _ _ _ _ _ _ Hwf (eq_sym Hs')) as [->|(x & Hx & Hid & Ht & Hr & ->)]; [done|]. apply covered_ended; [done|by rewrite Hid|done|done].
  - apply (covered_less q0 s s' Hcov Hwf' Hm). by rewrite Hs'.
  - apply (covered_less q0 s s' Hcov Hwf' Hm). by rewrite Hs'.
Qed.

(** C40. Under any sequence of operations the counter of a tenant covers its sessions
    that nobody has revoked, and it grows only within the limit: a tenant never has
    more sessions than that. *)
Theorem active_sessions_bounded q l t :
  quota_ok q -> Forall (fun e => well_called e.2) l ->
  let s := session_run true l (fresh_sessions q) in
  (count_of (standing t) (records (ss_store s)) <= used (ss_quota s) t ResourceActiveSessions)%Z /\
  (used (ss_quota s) t ResourceActiveSessions <= Z.max (used q t ResourceActiveSessions) (limit_of q t ResourceActiveSessions))%Z.
Proof.
  intros Hq Hall. assert (Hcov : covered q (fresh_sessions q)).
  { constructor; [apply new_wf|done|done| |intros t'; cbn; lia]. intros t'. cbn [fresh_sessions ss_store ss_quota]. rewrite (proj2 new_wf).
    unfold count_of. rewrite map_filter_empty, map_size_empty. pose proof (usage_ok _ Hq t' ResourceActiveSessions eq_refl eq_refl) as [H0 _]. done. }
  assert (Hrun : forall s0, covered q s0 -> covered q (session_run true l s0)).
  { induction Hall as [|e l He Hall IH]; intros s0 Hs0; [done|]. apply (IH (session_serve true e.1 e.2 s0)). by apply serve_covered. }
  specialize (Hrun _ Hcov). split; [apply (cov_count _ _ Hrun)|apply (cov_used _ _ Hrun)].
Qed.

(** ** Examples *)

Module session_examples.
Definition acme : string := "7a0c2f6e-1111-4000-8000-000000000000".
Definition first : string := "7a0c2f6e-2222-4000-8000-000000000001".
Definition second : string := "7a0c2f6e-2222-4000-8000-000000000002".
Definition at_second (n : Z) : Time := ((62135596800 + n) * Second)%Z.
(** One session at a time. *)
Definition one_session : QuotaRepository := SetQuota acme {[ResourceActiveSessions := 1%Z]} NewQuotaRepository.
Definition login (n : Z) (amr : list string) (id : string) : Time * session_call :=
  (at_second n, CallCreate acme "alice" amr (at_second n) (at_second n) false (Some id)).
Definition cookie (id : string) : string := "theme=dark; idmagic_session=" ++ id.
Definition who (n : Z) (id : string) (s : SessionState) : option (string * list string * bool) :=
  match (Resolve_session (at_second n) acme (cookie id) (at_second n) s).1.1 with
  | Ok (Some ctx) => Some (ac_UserID ctx, ac_AMR ctx, ac_Pending ctx)
  | _ => None
  end.
Definition otp : Time * session_call := (at_second 20, CallComplete acme first ["otp"]).
Definition challenge : Time * session_call := (at_second 10, CallRequireFactor acme first).
Definition revoke : Time * session_call :=
  (at_second 30, CallRevokeOwned acme "alice" "admin" first SessionEndAdminRevoke (at_second 30) (fun _ => at_second 30)).
Definition revoke_all : Time * session_call := (at_second 15, CallRevokeUser [first; second] acme "admin" "alice" (at_second 15) (fun _ => at_second 15)).
Notation run l := (session_run true l (fresh_sessions one_session)).
End session_examples.

Example two_factors : session_examples.who 40 session_examples.first (session_run true [session_examples.login 0 ["pwd"] session_examples.first; session_examples.challenge; session_examples.otp]
  (fresh_sessions session_examples.one_session)) = Some ("alice", ["pwd"; "otp"], false).
Proof. by vm_compute. Qed.

Lemma sessions_end_witness :
  let s1 := session_run true [session_examples.login 0 ["pwd"] session_examples.first; session_examples.revoke] (fresh_sessions session_examples.one_session) in
  let s2 := session_run true [session_examples.otp; session_examples.challenge] s1 in
  Resolve_session (session_examples.at_second 40) session_examples.acme (session_examples.cookie session_examples.first) (session_examples.at_second 40) s2 = (Ok None, s2, []).
Proof.
  apply (sessions_end true session_examples.one_session [session_examples.login 0 ["pwd"] session_examples.first; session_examples.revoke]
    [session_examples.otp; session_examples.challenge] session_examples.first (session_examples.at_second 35)
    session_examples.acme (session_examples.cookie session_examples.first) (session_examples.at_second 40) (session_examples.at_second 40)).
  - repeat constructor; done.
  - by vm_compute.
  - done.
  - vm_compute. by intros x [= <-].
  - by vm_compute.
Defined.

Lemma session_authority_witness :
  exists x, authorized [session_examples.login 0 ["pwd"] session_examples.first; session_examples.challenge; session_examples.otp] x /\
    se_ID x = session_examples.first /\ se_ACR x = ACRMFA.
Proof.
  pose (s := session_run true [session_examples.login 0 ["pwd"] session_examples.first; session_examples.challenge; session_examples.otp] (fresh_sessions session_examples.one_session)).
  destruct (Resolve_session (session_examples.at_second 40) session_examples.acme (session_examples.cookie session_examples.first) (session_examples.at_second 40) s)
    as [[[[ctx|]|e] s'] w] eqn:Hres; [|vm_compute in Hres; discriminate Hres|vm_compute in Hres; discriminate Hres].
  destruct (session_authority true session_examples.one_session [session_examples.login 0 ["pwd"] session_examples.first; session_examples.challenge; session_examples.otp]
    (session_examples.at_second 40) session_examples.acme (session_examples.cookie session_examples.first) (session_examples.at_second 40) ctx s' w Hres)
    as (x & Hau & Hid & _ & _ & _ & Hctx & Hacr). exists x. split; [exact Hau|]. split; [rewrite Hid; vm_compute; reflexivity|].
  change (se_ACR x) with (ac_ACR (authenticationContextFromSession x)). rewrite <- Hctx. apply Hacr. exists "otp".
  vm_compute in Hres. injection Hres as <- _ _. split; [|vm_compute; reflexivity]. right. left.
Defined.

Lemma active_sessions_bounded_witness :
  (count_of (standing session_examples.acme) (records (ss_store (session_run true
    [session_examples.login 0 ["pwd"] session_examples.first; session_examples.login 1 ["pwd"] session_examples.second] (fresh_sessions session_examples.one_session)))) <= 1)%Z.
Proof.
  assert (Hq : quota_ok session_examples.one_session).
  { apply (quota_step_ok (Limit session_examples.acme {[ResourceActiveSessions := 1%Z]}) NewQuotaRepository).
    - constructor; [intros t q res l; cbn; by rewrite lookup_empty|]. intros t res _ _. unfold used, usage_of. cbn. rewrite lookup_empty. vm_compute. by split.
    - intros res l [_ <-]%lookup_singleton_Some. vm_compute. by split. }
  destruct (active_sessions_bounded session_examples.one_session [session_examples.login 0 ["pwd"] session_examples.first; session_examples.login 1 ["pwd"] session_examples.second]
    session_examples.acme Hq) as [H1 H2]; [repeat constructor; done|].
  etransitivity; [exact H1|]. etransitivity; [exact H2|]. vm_compute. done.
Defined.

(** *** Behaviour that the code does not intend *)

(** The slot of a session that expires is never freed, not even when the row is
    deleted: later nobody of the tenant can sign in. *)
Lemma expired_sessions_keep_slots :
  let s := session_run true [session_examples.login 0 ["pwd"] session_examples.first;
    (session_examples.at_second 90000, CallDeleteExpired [session_examples.first] (session_examples.at_second 90000) 100)] (fresh_sessions session_examples.one_session) in
  records (ss_store s) = ∅ /\
  (Create_session true session_examples.acme "bob" ["pwd"] (session_examples.at_second 90001) (session_examples.at_second 90001) (Some session_examples.second) s).1.1
    = Err (SessionQuota (QuotaExceededError session_examples.acme ResourceActiveSessions)).
Proof. by vm_compute. Qed.

(** Nor that of a session that a SAML or WS-Federation logout revokes. *)
Lemma logout_keeps_slot :
  let s := session_run true [session_examples.login 0 ["pwd"] session_examples.first;
    (session_examples.at_second 10, CallRevokeCookie session_examples.acme (session_examples.cookie session_examples.first) (session_examples.at_second 10))]
    (fresh_sessions session_examples.one_session) in
  session_examples.who 11 session_examples.first s = None /\
  (Create_session true session_examples.acme "alice" ["pwd"] (session_examples.at_second 20) (session_examples.at_second 20) (Some session_examples.second) s).1.1
    = Err (SessionQuota (QuotaExceededError session_examples.acme ResourceActiveSessions)).
Proof. by vm_compute. Qed.

(** A refused creation has taken the slot. *)
Lemma refused_creation_keeps_slot :
  let s := session_run true [session_examples.login 0 ["sms"] session_examples.first] (fresh_sessions session_examples.one_session) in
  records (ss_store s) = ∅ /\
  (Create_session true session_examples.acme "alice" ["pwd"] (session_examples.at_second 20) (session_examples.at_second 20) (Some session_examples.second) s).1.1
    = Err (SessionQuota (QuotaExceededError session_examples.acme ResourceActiveSessions)).
Proof. by vm_compute. Qed.

(** The revocation of all sessions of a user passes over those that wait for a factor,
    which the factor completes afterwards. *)
Lemma pending_sessions_survive :
  session_examples.who 40 session_examples.first (session_run true
    [session_examples.login 0 ["pwd"] session_examples.first; session_examples.challenge; session_examples.revoke_all; session_examples.otp] (fresh_sessions session_examples.one_session))
  = Some ("alice", ["pwd"; "otp"], false).
Proof. by vm_compute. Qed.

(** A completion that has read the session before it is revoked writes it back as it
    was: the memory store forgets the revocation. *)
Lemma revocation_lost :
  let s := session_run true [session_examples.login 0 ["pwd"] session_examples.first; session_examples.challenge] (fresh_sessions session_examples.one_session) in
  match (complete_candidate (session_examples.at_second 20) session_examples.acme session_examples.first ["otp"] s).1.1 with
  | Ok (Some candidate) =>
      let revoked := session_run true [session_examples.revoke] s in
      session_examples.who 40 session_examples.first revoked = None /\
      session_examples.who 40 session_examples.first (save_new candidate revoked).1.2 = Some ("alice", ["pwd"; "otp"], false)
  | _ => False
  end.
Proof. by vm_compute. Qed.
