(* ===== verification/ScimFilter.v ===== *)
(** * Sourcing: the SCIM filter language

    [backend/sourcing/internal/scim/domain/filter.go]: lexer, recursive descent
    parser with its resource limits, and the evaluation of a parsed filter.

    Text is a list of runes, as in the lexer.  The Unicode classes and case
    mapping are exact on ASCII; beyond it they are functions of the model, as
    is [time.Parse] for RFC 3339.  The parser's loops and recursion share a
    fuel, which the length of the input bounds; running out of it is an error
    of its own, and a theorem shows that it does not happen. *)

From Stdlib Require Import Ascii String ZArith Lia.
From stdpp Require Import base strings list gmap.
From S2P Require Import Prelude GoStrings.

Local Open Scope string_scope.
Local Open Scope go_scope.

Definition text := list N.
Definition runes (s : string) : text := map fst (decode_runes (bytes_of s)).

Definition MaxFilterLength : Z := 1000.
Definition MaxFilterDepth : nat := 10.

(** ** Runes *)

Definition rune (c : ascii) : N := N_of_ascii c.
Definition quote : N := 34.
Definition backslash : N := 92.
Definition lparen : N := 40.
Definition rparen : N := 41.
Definition space : N := 32.
Definition tab : N := 9.
Definition dot : N := 46.
Definition colon : N := 58.
Definition underscore : N := 95.
Definition minus : N := 45.

Definition ascii_letter (r : N) : bool := in_range 65 90 r || in_range 97 122 r.
Definition ascii_digit (r : N) : bool := in_range 48 57 r.
Definition ascii_lower (r : N) : N := if in_range 65 90 r then (r + 32)%N else r.

(** ** Data *)

Inductive AttributeKind := AttrString | AttrBoolean | AttrDateTime.
#[export] Instance AttributeKind_eq_dec : EqDecision AttributeKind.
Proof. solve_decision. Defined.

Record AttributeSpec := { Kind : AttributeKind; Ops : list text }.
Definition AttributeAllowlist := gmap text AttributeSpec.

Definition stringAttr (ops : list string) : AttributeSpec := {| Kind := AttrString; Ops := map runes ops |}.
Definition boolAttr (ops : list string) : AttributeSpec := {| Kind := AttrBoolean; Ops := map runes ops |}.
Definition dateTimeAttr (ops : list string) : AttributeSpec := {| Kind := AttrDateTime; Ops := map runes ops |}.

Definition allowlist (l : list (string * AttributeSpec)) : AttributeAllowlist :=
  list_to_map (map (fun e => (runes e.1, e.2)) l).

Definition UserFilterAttributes : AttributeAllowlist := allowlist
  [ ("username", stringAttr ["eq"; "ne"; "co"; "sw"; "ew"]);
    ("active", boolAttr ["eq"; "ne"]);
    ("name.formatted", stringAttr ["eq"; "ne"; "co"; "sw"; "ew"]);
    ("name.givenname", stringAttr ["eq"; "ne"; "co"; "sw"; "ew"]);
    ("name.familyname", stringAttr ["eq"; "ne"; "co"; "sw"; "ew"]);
    ("emails.value", stringAttr ["eq"; "ne"; "co"; "sw"; "ew"]);
    ("id", stringAttr ["eq"; "ne"]);
    ("meta.created", dateTimeAttr ["eq"; "ne"; "gt"; "ge"; "lt"; "le"]);
    ("meta.lastmodified", dateTimeAttr ["eq"; "ne"; "gt"; "ge"; "lt"; "le"]) ].

Definition GroupFilterAttributes : AttributeAllowlist := allowlist
  [ ("displayname", stringAttr ["eq"; "ne"; "co"; "sw"; "ew"]);
    ("id", stringAttr ["eq"; "ne"]);
    ("meta.created", dateTimeAttr ["eq"; "ne"; "gt"; "ge"; "lt"; "le"]);
    ("meta.lastmodified", dateTimeAttr ["eq"; "ne"; "gt"; "ge"; "lt"; "le"]) ].

(** A comparison keeps the value of its kind; the other fields are zero. *)
Inductive FilterExpr :=
| andExpr (left right : FilterExpr)
| orExpr (left right : FilterExpr)
| notExpr (inner : FilterExpr)
| presenceExpr (attr : text)
| compareExpr (attr op : text) (kind : AttributeKind) (str : text) (b : bool) (t : Time).

(** A value of the attribute map of a resource. *)
Inductive attr_value := AVNil | AVStr (s : text) | AVBool (b : bool) | AVOther.

Inductive filter_error :=
| FilterError (format : string) (args : list text)
| OutOfFuel.

Definition newFilterError (format : string) (args : list text) : filter_error := FilterError format args.

Inductive tokenKind := tokEOF | tokLParen | tokRParen | tokIdent | tokString | tokNumber.
#[export] Instance tokenKind_eq_dec : EqDecision tokenKind.
Proof. solve_decision. Defined.

Record token := { kind : tokenKind; tok_text : text }.
Definition tok (k : tokenKind) : token := {| kind := k; tok_text := [] |}.

(** ** The lexer: the input is what is left of the runes *)

Fixpoint skipSpace (l : text) : text :=
  match l with
  | c :: l' => if (c =? space) || (c =? tab) then skipSpace l' else l
  | [] => []
  end.

Fixpoint span (p : N -> bool) (l : text) : text * text :=
  match l with
  | c :: l' => if p c then let '(a, b) := span p l' in (c :: a, b) else ([], l)
  | [] => ([], [])
  end.

(** [strconv.ParseInt(hex, 16, 32)] of four runes: an optional sign and
    hexadecimal digits; then [WriteRune], which writes U+FFFD for what is no
    Unicode scalar value. *)
Definition hex_digit (r : N) : option Z :=
  if in_range 48 57 r then Some (Z.of_N r - 48)%Z
  else if in_range 97 102 r then Some (Z.of_N r - 87)%Z
  else if in_range 65 70 r then Some (Z.of_N r - 55)%Z
  else None.

Fixpoint hex_value (acc : Z) (l : text) : option Z :=
  match l with
  | [] => Some acc
  | c :: l' => match hex_digit c with Some d => hex_value (acc * 16 + d)%Z l' | None => None end
  end.

Definition parse_hex (l : text) : option Z :=
  match l with
  | c :: (_ :: _) as digits =>
      if c =? 43%N then hex_value 0 (tl l)
      else if c =? minus then option_map Z.opp (hex_value 0 (tl l))
      else hex_value 0 l
  | _ => hex_value 0 l
  end.

Definition written_rune (n : Z) : N :=
  if ((n <? 0) || ((55296 <=? n) && (n <=? 57343)))%Z then rune_error else Z.to_N n.

Definition simple_escape (esc : N) : option N :=
  if esc =? quote then Some quote
  else if esc =? backslash then Some backslash
  else if esc =? 47%N then Some 47%N
  else if esc =? rune "b" then Some 8%N
  else if esc =? rune "f" then Some 12%N
  else if esc =? rune "n" then Some 10%N
  else if esc =? rune "r" then Some 13%N
  else if esc =? rune "t" then Some 9%N
  else None.

(** The loop of [lexString], after the opening quote; [sb] is the builder. *)
Fixpoint lexString (l sb : text) {struct l} : result filter_error (token * text) :=
  match l with
  | [] => Err (newFilterError "unterminated string literal in filter" [])
  | c :: l' =>
      if c =? quote then Ok ({| kind := tokString; tok_text := sb |}, l')
      else if c =? backslash then
        match l' with
        | [] => Err (newFilterError "unterminated escape sequence in filter" [])
        | esc :: l1 =>
            if esc =? rune "u" then
              match l1 with
              | h1 :: h2 :: h3 :: h4 :: l2 =>
                  match parse_hex [h1; h2; h3; h4] with
                  | Some n => lexString l2 (sb ++ [written_rune n])
                  | None => Err (newFilterError "invalid unicode escape in filter" [])
                  end
              | _ => Err (newFilterError "invalid unicode escape in filter" [])
              end
            else match simple_escape esc with
            | Some r => lexString l1 (sb ++ [r])
            | None => Err (newFilterError "invalid escape sequence \%c in filter" [[esc]])
            end
        end
      else lexString l' (sb ++ [c])
  end%list.

Section parser.
(** [unicode.IsLetter], [unicode.IsDigit] and [unicode.ToLower] beyond ASCII,
    and [time.Parse(time.RFC3339, _)]. *)
Context (letter_beyond digit_beyond : N -> bool) (lower_beyond : N -> N) (parse_time : text -> option Time).

Definition IsLetter (r : N) : bool := if (r <? 128)%N then ascii_letter r else letter_beyond r.
Definition IsDigit (r : N) : bool := if (r <? 128)%N then ascii_digit r else digit_beyond r.
Definition lower_rune (r : N) : N := if (r <? 128)%N then ascii_lower r else lower_beyond r.
Definition to_lower (l : text) : text := map lower_rune l.

Definition isIdentStart (c : N) : bool := IsLetter c || (c =? underscore).
Definition isIdentPart (c : N) : bool := IsLetter c || IsDigit c || (c =? underscore) || (c =? dot) || (c =? colon).

Definition lexIdent (l : text) : token * text :=
  let '(a, b) := span isIdentPart l in ({| kind := tokIdent; tok_text := a |}, b).

Definition lexNumber (l : text) : token * text :=
  let '(sign, l) := match l with c :: l' => if c =? minus then ([c], l') else ([], l) | [] => ([], []) end in
  let '(a, b) := span (fun c => IsDigit c || (c =? dot)) l in
  ({| kind := tokNumber; tok_text := (sign ++ a)%list |}, b).

Definition next (l : text) : result filter_error (token * text) :=
  match skipSpace l with
  | [] => Ok (tok tokEOF, [])
  | (c :: l') as l =>
      if c =? lparen then Ok (tok tokLParen, l')
      else if c =? rparen then Ok (tok tokRParen, l')
      else if c =? quote then lexString l' []
      else if isIdentStart c then Ok (lexIdent l)
      else if (c =? minus) || IsDigit c then Ok (lexNumber l)
      else Err (newFilterError "unexpected character %q in filter" [[c]])
  end.

(** ** The parser *)

Record parser := { cur : token; lex : text }.

Definition advance (p : parser) : result filter_error parser :=
  let? (t, l) := next (lex p) in Ok {| cur := t; lex := l |}.

(** The letter that a rune folds to: besides the cases of ASCII only the long
    s and the Kelvin sign fold to an ASCII letter. *)
Definition fold_rune (r : N) : N :=
  if r =? 383%N then rune "s" else if r =? 8490%N then rune "k" else ascii_lower r.

(** [strings.EqualFold] with a keyword in lower-case ASCII letters. *)
Definition isKeyword (p : parser) (kw : string) : bool :=
  (kind (cur p) =? tokIdent) && (map fold_rune (tok_text (cur p)) =? runes kw).

Definition isComparisonOp (op : text) : bool :=
  contains (map runes ["eq"; "ne"; "co"; "sw"; "ew"; "gt"; "ge"; "lt"; "le"]) op.

Definition scimURNPrefixes : list text :=
  map runes ["urn:ietf:params:scim:schemas:core:2.0:user:"; "urn:ietf:params:scim:schemas:core:2.0:group:"].

Fixpoint CutPrefix (l prefix : text) : option text :=
  match prefix, l with
  | [], _ => Some l
  | c :: prefix', d :: l' => if c =? d then CutPrefix l' prefix' else None
  | _ :: _, [] => None
  end.

Definition stripSchemaURNPrefix (attr : text) : option text :=
  if negb (contains attr colon) then Some attr
  else match omap (CutPrefix attr) scimURNPrefixes with
  | stripped :: _ => Some stripped
  | [] => None
  end.

(** [strings.Split(attr, ".")]. *)
Fixpoint split_dots (l : text) : list text :=
  match l with
  | [] => [[]]
  | c :: l' =>
      if c =? dot then [] :: split_dots l'
      else match split_dots l' with part :: parts => (c :: part) :: parts | [] => [[c]] end
  end.

Definition isValidAttrPath (attr : text) : bool :=
  let parts := split_dots attr in
  (length parts <=? 2)%nat && negb (contains parts []).

Context (allow : AttributeAllowlist).

(** The attribute that a name refers to. *)
Definition resolve_attr (attrRaw : text) : result filter_error (text * AttributeSpec) :=
  match stripSchemaURNPrefix (to_lower attrRaw) with
  | None => Err (newFilterError "unknown schema URN prefix in attribute path %q" [attrRaw])
  | Some attr =>
      reject negb (isValidAttrPath attr) with newFilterError "invalid attribute path %q" [attrRaw] in
      match allow !! attr with
      | None => Err (newFilterError "attribute %q is not filterable" [attrRaw])
      | Some spec => Ok (attr, spec)
      end
  end.

(** The value after an operator. *)
Definition parseValue (attrRaw attr op : text) (spec : AttributeSpec) (p : parser) : result filter_error (FilterExpr * parser) :=
  match Kind spec with
  | AttrBoolean =>
      reject negb (isKeyword p "true") && negb (isKeyword p "false") with
        newFilterError "expected boolean value for attribute %q" [attrRaw] in
      let b := isKeyword p "true" in
      let? p := advance p in
      Ok (compareExpr attr op AttrBoolean [] b 0%Z, p)
  | AttrDateTime =>
      reject kind (cur p) <>? tokString with
        newFilterError "expected quoted dateTime value for attribute %q" [attrRaw] in
      let val := tok_text (cur p) in
      match parse_time val with
      | None => Err (newFilterError "invalid dateTime literal %q for attribute %q" [val; attrRaw])
      | Some t =>
          let? p := advance p in
          Ok (compareExpr attr op AttrDateTime [] false t, p)
      end
  | AttrString =>
      reject kind (cur p) <>? tokString with
        newFilterError "expected quoted string value for attribute %q" [attrRaw] in
      let val := tok_text (cur p) in
      let? p := advance p in
      Ok (compareExpr attr op AttrString val false 0%Z, p)
  end.

Definition parseAttrExpr (p : parser) : result filter_error (FilterExpr * parser) :=
  reject kind (cur p) <>? tokIdent with newFilterError "expected attribute name in filter" [] in
  let attrRaw := tok_text (cur p) in
  let? (attr, spec) := resolve_attr attrRaw in
  let? p := advance p in
  if isKeyword p "pr" then
    let? p := advance p in
    Ok (presenceExpr attr, p)
  else
    reject kind (cur p) <>? tokIdent with
      newFilterError "expected comparison operator after attribute %q" [attrRaw] in
    let op := to_lower (tok_text (cur p)) in
    reject negb (isComparisonOp op) with newFilterError "unknown operator %q" [tok_text (cur p)] in
    reject negb (contains (Ops spec) op) with
      newFilterError "operator %q is not supported for attribute %q" [op; attrRaw] in
    let? p := advance p in
    parseValue attrRaw attr op spec p.

Definition too_deep (depth : nat) : bool := (MaxFilterDepth <? depth)%nat.
Definition depth_error : filter_error :=
  newFilterError "filter exceeds maximum nesting depth of %d" [runes (FormatInt (Z.of_nat MaxFilterDepth))].

Definition dq : string := String (ascii_of_nat 34) "".

(** The recursive descent; the loops of [parseOr] and [parseAnd] are functions. *)
Fixpoint parseOr (fuel depth : nat) (p : parser) {struct fuel} : result filter_error (FilterExpr * parser) :=
  match fuel with
  | O => Err OutOfFuel
  | S fuel =>
      reject too_deep depth with depth_error in
      let? (lhs, p) := parseAnd fuel (depth + 1) p in
      or_loop fuel depth lhs p
  end
with or_loop (fuel depth : nat) (lhs : FilterExpr) (p : parser) {struct fuel} : result filter_error (FilterExpr * parser) :=
  match fuel with
  | O => Err OutOfFuel
  | S fuel =>
      if isKeyword p "or" then
        let? p := advance p in
        let? (rhs, p) := parseAnd fuel (depth + 1) p in
        or_loop fuel depth (orExpr lhs rhs) p
      else Ok (lhs, p)
  end
with parseAnd (fuel depth : nat) (p : parser) {struct fuel} : result filter_error (FilterExpr * parser) :=
  match fuel with
  | O => Err OutOfFuel
  | S fuel =>
      reject too_deep depth with depth_error in
      let? (lhs, p) := parseNot fuel (depth + 1) p in
      and_loop fuel depth lhs p
  end
with and_loop (fuel depth : nat) (lhs : FilterExpr) (p : parser) {struct fuel} : result filter_error (FilterExpr * parser) :=
  match fuel with
  | O => Err OutOfFuel
  | S fuel =>
      if isKeyword p "and" then
        let? p := advance p in
        let? (rhs, p) := parseNot fuel (depth + 1) p in
        and_loop fuel depth (andExpr lhs rhs) p
      else Ok (lhs, p)
  end
with parseNot (fuel depth : nat) (p : parser) {struct fuel} : result filter_error (FilterExpr * parser) :=
  match fuel with
  | O => Err OutOfFuel
  | S fuel =>
      reject too_deep depth with depth_error in
      if isKeyword p "not" then
        let? p := advance p in
        reject kind (cur p) <>? tokLParen with
          newFilterError (dq ++ "not" ++ dq ++ " must be followed by " ++ dq ++ "(" ++ dq ++ " per RFC 7644 §3.4.2.2") [] in
        let? p := advance p in
        let? (inner, p) := parseOr fuel (depth + 1) p in
        reject kind (cur p) <>? tokRParen with newFilterError ("expected closing " ++ dq ++ ")" ++ dq) [] in
        let? p := advance p in
        Ok (notExpr inner, p)
      else parsePrimary fuel depth p
  end
with parsePrimary (fuel depth : nat) (p : parser) {struct fuel} : result filter_error (FilterExpr * parser) :=
  match fuel with
  | O => Err OutOfFuel
  | S fuel =>
      if kind (cur p) =? tokLParen then
        let? p := advance p in
        let? (expr, p) := parseOr fuel (depth + 1) p in
        reject kind (cur p) <>? tokRParen with newFilterError ("expected closing " ++ dq ++ ")" ++ dq) [] in
        let? p := advance p in
        Ok (expr, p)
      else parseAttrExpr p
  end.

(** What the parser still has to consume. *)
Definition size (p : parser) : nat := length (lex p) + if kind (cur p) =? tokEOF then 0 else 1.

Definition parse_fuel (p : parser) : nat := 5 * size p + 5.

Definition ParseFilter (filter : string) : result filter_error FilterExpr :=
  reject filter =? "" with newFilterError "filter must not be empty" [] in
  reject MaxFilterLength <? len filter with
    newFilterError "filter exceeds maximum length of %d" [runes (FormatInt MaxFilterLength)] in
  let? p := advance {| cur := tok tokEOF; lex := runes filter |} in
  let? (expr, p) := parseOr (parse_fuel p) 0 p in
  reject kind (cur p) <>? tokEOF with newFilterError "unexpected trailing input in filter" [] in
  Ok expr.

(** ** Evaluation *)

Fixpoint contains_run (l sub : text) : bool :=
  is_some (CutPrefix l sub) || match l with [] => false | _ :: l' => contains_run l' sub end.

Definition has_suffix (l sub : text) : bool := is_some (CutPrefix (rev l) (rev sub)).

Definition is_op (op : text) (name : string) : bool := op =? runes name.

Fixpoint Matches (e : FilterExpr) (attrs : gmap text attr_value) : bool :=
  match e with
  | andExpr l r => Matches l attrs && Matches r attrs
  | orExpr l r => Matches l attrs || Matches r attrs
  | notExpr inner => negb (Matches inner attrs)
  | presenceExpr attr =>
      match attrs !! attr with
      | None | Some AVNil => false
      | Some (AVStr s) => s <>? []
      | Some _ => true
      end
  | compareExpr attr op kind str b t =>
      match kind, attrs !! attr with
      | AttrBoolean, Some (AVBool bv) =>
          if is_op op "eq" then bv =? b else if is_op op "ne" then bv <>? b else false
      | AttrDateTime, Some (AVStr sv) =>
          match parse_time sv with
          | None => false
          | Some tv =>
              if is_op op "eq" then Z.eqb tv t
              else if is_op op "ne" then negb (Z.eqb tv t)
              else if is_op op "gt" then After tv t
              else if is_op op "ge" then negb (Before tv t)
              else if is_op op "lt" then Before tv t
              else if is_op op "le" then negb (After tv t)
              else false
          end
      | AttrString, Some (AVStr sv) =>
          let lsv := to_lower sv in
          let lref := to_lower str in
          if is_op op "eq" then lsv =? lref
          else if is_op op "ne" then lsv <>? lref
          else if is_op op "co" then contains_run lsv lref
          else if is_op op "sw" then is_some (CutPrefix lsv lref)
          else if is_op op "ew" then has_suffix lsv lref
          else false
      | _, _ => false
      end
  end.

(** ** The parser consumes its input *)

Lemma span_app f l a b : span f l = (a, b) -> l = (a ++ b)%list /\ Forall (fun c => f c = true) a.
Proof.
  revert a b. induction l as [|c l IH]; simpl; intros a b; [intros [= <- <-]; by split; [|constructor]|].
  destruct (f c) eqn:Hc; [|intros [= <- <-]; by split; [|constructor]].
  destruct (span f l) as [a' b'] eqn:Hs. intros [= <- <-]. destruct (IH _ _ eq_refl) as [-> Ha].
  split; [done|by constructor].
Qed.

Lemma skipSpace_le l : length (skipSpace l) <= length l.
Proof. induction l as [|c l IH]; simpl; [done|]. destruct (_ || _); simpl; lia. Qed.

Lemma lexString_length n l sb r : length l <= n -> lexString l sb = r ->
  match r with Ok (t, l') => kind t = tokString /\ length l' < length l | Err e => e <> OutOfFuel end.
Proof.
  revert l sb r. induction n as [|n IH]; intros [|c l] sb r Hn; cbn [lexString length] in *; try (intros <-; done); try lia.
  destruct (c =? quote); [intros <-; simpl; split; [done|lia]|].
  destruct (c =? backslash).
  - destruct l as [|esc l1]; [intros <-; done|]. cbn [length] in *. destruct (esc =? rune "u").
    + destruct l1 as [|h1 [|h2 [|h3 [|h4 l2]]]]; try (intros <-; done). cbn [length] in Hn |- *.
      destruct (parse_hex [h1; h2; h3; h4]); [|intros <-; done]. intros Hr. apply IH in Hr; [|lia].
      destruct r as [[t l']|]; [|done]. destruct Hr. split; [done|lia].
    + destruct (simple_escape esc); [|intros <-; done]. intros Hr. apply IH in Hr; [|lia].
      destruct r as [[t l']|]; [|done]. destruct Hr. split; [done|lia].
  - intros Hr. apply IH in Hr; [|lia]. destruct r as [[t l']|]; [|done]. destruct Hr. split; [done|lia].
Qed.

Lemma next_length l :
  match next l with
  | Ok (t, l') => if kind t =? tokEOF then l' = [] else length l' < length l
  | Err e => e <> OutOfFuel
  end.
Proof.
  unfold next. pose proof (skipSpace_le l) as Hs. destruct (skipSpace l) as [|c l1]; [done|]. simpl in Hs.
  destruct (c =? lparen); [simpl; lia|]. destruct (c =? rparen); [simpl; lia|].
  destruct (c =? quote).
  { destruct (lexString l1 []) as [[t l']|e] eqn:Hx;
      pose proof (lexString_length _ _ _ _ (le_n _) Hx) as Hl; simpl in Hl; [|done].
    destruct Hl as [-> Hl]. simpl. lia. }
  destruct (isIdentStart c) eqn:Hi.
  { assert (Hp : isIdentPart c = true) by (unfold isIdentStart, isIdentPart in *; destruct (IsLetter c), (IsDigit c), (c =? underscore); done).
    unfold lexIdent. simpl. rewrite Hp. destruct (span isIdentPart l1) as [a b] eqn:Hsp. simpl.
    apply span_app in Hsp as [-> _]. rewrite length_app in Hs. lia. }
  destruct ((c =? minus) || IsDigit c) eqn:Hm; [|done]. unfold lexNumber.
  destruct (c =? minus); simpl in Hm |- *.
  - destruct (span _ l1) as [a b] eqn:Hsp. simpl. apply span_app in Hsp as [-> _]. rewrite length_app in Hs. lia.
  - rewrite Hm. simpl. destruct (span _ l1) as [a b] eqn:Hsp. simpl. apply span_app in Hsp as [-> _].
    rewrite length_app in Hs. lia.
Qed.

Lemma advance_size p :
  match advance p with
  | Ok p' => size p' <= length (lex p) /\ (kind (cur p) <> tokEOF -> size p' < size p) /\ size p' <= size p
  | Err e => e <> OutOfFuel
  end.
Proof.
  unfold advance. pose proof (next_length (lex p)) as Hn. destruct (next (lex p)) as [[t l]|e]; simpl; [|done].
  unfold size. simpl. destruct (kind t =? tokEOF); [subst l|]; simpl; destruct (kind (cur p) =? tokEOF) eqn:Hc; go_bool;
    split_and!; intros; try done; lia.
Qed.

(** A parse consumes input and does not run out of fuel. *)
Definition consumes (p : parser) (r : result filter_error (FilterExpr * parser)) : Prop :=
  match r with Ok (_, p') => size p' <= size p | Err e => e <> OutOfFuel end.

Lemma consumes_bind {A} (p : parser) (r : result filter_error A) k :
  match r with Ok a => consumes p (k a) | Err e => e <> OutOfFuel end -> consumes p (res_bind r k).
Proof. by destruct r. Qed.

Lemma consumes_le p p' r : size p' <= size p -> consumes p' r -> consumes p r.
Proof. intros Hle. unfold consumes. destruct r as [[e p2]|]; [lia|done]. Qed.

Lemma advance_consumes p k :
  (forall p', size p' <= size p -> (kind (cur p) <> tokEOF -> size p' < size p) -> consumes p (k p')) ->
  consumes p (res_bind (advance p) k).
Proof.
  intros Hk. apply consumes_bind. pose proof (advance_size p) as Ha. destruct (advance p) as [p'|e]; [|done].
  destruct Ha as (_ & Hlt & Hle). by apply Hk.
Qed.

Lemma parse_consumes p r k :
  consumes p r -> (forall e p', size p' <= size p -> consumes p (k (e, p'))) -> consumes p (res_bind r k).
Proof. intros Hr Hk. apply consumes_bind. destruct r as [[e p']|e]; [by apply Hk|done]. Qed.

Lemma keyword_ident p kw : isKeyword p kw = true -> kind (cur p) <> tokEOF.
Proof. unfold isKeyword. intros Hk. apply andb_true_iff in Hk as [Hk _]. apply bool_decide_eq_true in Hk. by rewrite Hk. Qed.

Lemma parseValue_consumes attrRaw attr op spec p : consumes p (parseValue attrRaw attr op spec p).
Proof.
  unfold parseValue. destruct (Kind spec).
  - destruct (negb _); [done|]. apply advance_consumes. intros p' Hle _. done.
  - destruct (_ && _); [done|]. apply advance_consumes. intros p' Hle _. done.
  - destruct (negb _); [done|]. destruct (parse_time _); [|done]. apply advance_consumes. intros p' Hle _. done.
Qed.

Lemma resolve_attr_error attrRaw e : resolve_attr attrRaw = Err e -> e <> OutOfFuel.
Proof.
  unfold resolve_attr. destruct (stripSchemaURNPrefix _) as [attr|]; [|by intros [= <-]].
  destruct (negb _); [by intros [= <-]|]. destruct (allow !! attr); [done|by intros [= <-]].
Qed.

Lemma parseAttrExpr_consumes p : consumes p (parseAttrExpr p).
Proof.
  unfold parseAttrExpr. destruct (kind (cur p) <>? tokIdent); [done|]. apply consumes_bind.
  destruct (resolve_attr (tok_text (cur p))) as [[attr spec]|e] eqn:Hr; [|by eapply resolve_attr_error].
  apply advance_consumes. intros p1 H1 _. destruct (isKeyword p1 "pr").
  - apply (consumes_le _ p1); [done|]. apply advance_consumes. intros p2 H2 _. done.
  - destruct (kind (cur p1) <>? tokIdent); [done|]. destruct (negb _); [done|]. destruct (negb _); [done|].
    apply (consumes_le _ p1); [done|]. apply advance_consumes. intros p2 H2 _.
    eapply consumes_le; [|apply parseValue_consumes]. done.
Qed.

(** Enough fuel for what is left of the input. *)
Lemma parser_consumes fuel :
  (forall depth p, 5 * size p + 5 <= fuel -> consumes p (parseOr fuel depth p)) /\
  (forall depth lhs p, 5 * size p + 1 <= fuel -> consumes p (or_loop fuel depth lhs p)) /\
  (forall depth p, 5 * size p + 4 <= fuel -> consumes p (parseAnd fuel depth p)) /\
  (forall depth lhs p, 5 * size p + 1 <= fuel -> consumes p (and_loop fuel depth lhs p)) /\
  (forall depth p, 5 * size p + 3 <= fuel -> consumes p (parseNot fuel depth p)) /\
  (forall depth p, 5 * size p + 2 <= fuel -> consumes p (parsePrimary fuel depth p)).
Proof.
  induction fuel as [|fuel (IHor & IHol & IHand & IHal & IHnot & IHprim)]; [split_and!; intros; lia|].
  split_and!; intros; cbn [parseOr or_loop parseAnd and_loop parseNot parsePrimary].
  - destruct (too_deep depth); [done|]. apply parse_consumes; [apply IHand; lia|]. intros e p' Hp'.
    eapply consumes_le; [exact Hp'|]. apply IHol. lia.
  - destruct (isKeyword p "or") eqn:Hk; [|exact (le_n (size p))]. apply keyword_ident in Hk. apply advance_consumes. intros p1 _ H1.
    specialize (H1 Hk). apply (consumes_le _ p1); [lia|]. apply parse_consumes; [apply IHand; lia|]. intros e p' Hp'.
    eapply consumes_le; [exact Hp'|]. apply IHol. lia.
  - destruct (too_deep depth); [done|]. apply parse_consumes; [apply IHnot; lia|]. intros e p' Hp'.
    eapply consumes_le; [exact Hp'|]. apply IHal. lia.
  - destruct (isKeyword p "and") eqn:Hk; [|exact (le_n (size p))]. apply keyword_ident in Hk. apply advance_consumes. intros p1 _ H1.
    specialize (H1 Hk). apply (consumes_le _ p1); [lia|]. apply parse_consumes; [apply IHnot; lia|]. intros e p' Hp'.
    eapply consumes_le; [exact Hp'|]. apply IHal. lia.
  - destruct (too_deep depth); [done|]. destruct (isKeyword p "not") eqn:Hk; [|apply IHprim; lia].
    apply keyword_ident in Hk. apply advance_consumes. intros p1 _ H1. specialize (H1 Hk).
    destruct (kind (cur p1) <>? tokLParen); [done|]. apply (consumes_le _ p1); [lia|].
    apply advance_consumes. intros p2 H2 _. apply (consumes_le _ p2); [lia|].
    apply parse_consumes; [apply IHor; lia|]. intros e p3 H3. destruct (kind (cur p3) <>? tokRParen); [done|].
    apply (consumes_le _ p3); [done|]. apply advance_consumes. intros p4 H4 _. done.
  - destruct (kind (cur p) =? tokLParen) eqn:Hk; [|apply parseAttrExpr_consumes].
    assert (Hne : kind (cur p) <> tokEOF) by (apply bool_decide_eq_true in Hk; by rewrite Hk).
    apply advance_consumes. intros p1 _ H1. specialize (H1 Hne). apply (consumes_le _ p1); [lia|].
    apply parse_consumes; [apply IHor; lia|]. intros e p3 H3. destruct (kind (cur p3) <>? tokRParen); [done|].
    apply (consumes_le _ p3); [done|]. apply advance_consumes. intros p4 H4 _. done.
Qed.

(** C16. The parser always returns: on every input the fuel, which is linear in
    its length, suffices, so that the result is an expression or a filter error. *)
Theorem ParseFilter_total filter : ParseFilter filter <> Err OutOfFuel.
Proof.
  unfold ParseFilter. destruct (filter =? ""); [done|]. destruct (_ <? _); [done|].
  pose proof (advance_size {| cur := tok tokEOF; lex := runes filter |}) as Ha.
  destruct (advance _) as [p|e]; simpl; [|congruence].
  pose proof (proj1 (parser_consumes (parse_fuel p)) 0 p (le_n _)) as Hp. unfold consumes in Hp.
  destruct (parseOr (parse_fuel p) 0 p) as [[e p']|e]; simpl; [|congruence].
  by destruct (kind (cur p') <>? tokEOF).
Qed.

(** ** What the parser accepts is well typed *)

(** The attribute is filterable, the operator is one of those it supports and
    the value is of its kind. *)
Fixpoint well_typed (e : FilterExpr) : Prop :=
  match e with
  | andExpr l r | orExpr l r => well_typed l /\ well_typed r
  | notExpr inner => well_typed inner
  | presenceExpr attr => is_Some (allow !! attr)
  | compareExpr attr op kind str b t => exists spec,
      allow !! attr = Some spec /\ op ∈ Ops spec /\ isComparisonOp op = true /\ Kind spec = kind /\
      match kind with
      | AttrString => b = false /\ t = 0%Z
      | AttrBoolean => str = [] /\ t = 0%Z
      | AttrDateTime => str = [] /\ b = false
      end
  end.

Lemma resolve_attr_allow attrRaw attr spec : resolve_attr attrRaw = Ok (attr, spec) -> allow !! attr = Some spec.
Proof.
  unfold resolve_attr. destruct (stripSchemaURNPrefix _) as [a|]; [|done]. destruct (negb _); [done|].
  destruct (allow !! a) eqn:Ha; [|done]. by intros [= <- <-].
Qed.

Lemma parseAttrExpr_typed p e p' : parseAttrExpr p = Ok (e, p') -> well_typed e.
Proof.
  unfold parseAttrExpr. destruct (kind (cur p) <>? tokIdent); [done|].
  intros ([attr spec] & Hr & H1)%res_bind_Ok. apply resolve_attr_allow in Hr.
  apply res_bind_Ok in H1 as (p1 & _ & H1). destruct (isKeyword p1 "pr").
  { apply res_bind_Ok in H1 as (p2 & _ & H1). injection H1 as <- _. by exists spec. }
  destruct (kind (cur p1) <>? tokIdent); [done|]. destruct (negb (isComparisonOp _)) eqn:Hop; [done|].
  destruct (negb (contains (Ops spec) _)) eqn:Hin; [done|]. apply res_bind_Ok in H1 as (p2 & _ & H1). go_bool.
  unfold parseValue in H1. destruct (Kind spec) eqn:Hk.
  - destruct (negb _); [done|]. apply res_bind_Ok in H1 as (p3 & _ & H1). injection H1 as <- _. by exists spec.
  - destruct (_ && _); [done|]. apply res_bind_Ok in H1 as (p3 & _ & H1). injection H1 as <- _. by exists spec.
  - destruct (negb _); [done|]. destruct (parse_time _); [|done]. apply res_bind_Ok in H1 as (p3 & _ & H1).
    injection H1 as <- _. by exists spec.
Qed.

(** A property of expressions that the constructors keep holds of all results. *)
Definition yields (P : FilterExpr -> Prop) (r : result filter_error (FilterExpr * parser)) : Prop :=
  match r with Ok (e, _) => P e | Err _ => True end.

Lemma yields_bind {A} P (r : result filter_error A) k :
  (forall a, r = Ok a -> yields P (k a)) -> yields P (res_bind r k).
Proof. destruct r; [|done]. intros Hk. by apply Hk. Qed.

Lemma yields_parse P r k : yields P r -> (forall e p, P e -> yields P (k (e, p))) -> yields P (res_bind r k).
Proof. destruct r as [[e p]|]; [|done]. intros He Hk. by apply Hk. Qed.

Ltac yield IH :=
  repeat match goal with
  | |- yields _ (if ?b then _ else _) => destruct b; [try exact I|try exact I]
  | |- yields _ (res_bind (advance _) _) => apply yields_bind; intros ? _
  | |- yields _ (res_bind _ _) => apply yields_parse; [|intros ? ? ?]
  | |- yields _ _ => by apply IH
  end.

Lemma parser_yields (P : FilterExpr -> Prop) :
  (forall l r, P l -> P r -> P (andExpr l r)) -> (forall l r, P l -> P r -> P (orExpr l r)) ->
  (forall e, P e -> P (notExpr e)) -> (forall p, yields P (parseAttrExpr p)) -> forall fuel,
  (forall depth p, yields P (parseOr fuel depth p)) /\
  (forall depth lhs p, P lhs -> yields P (or_loop fuel depth lhs p)) /\
  (forall depth p, yields P (parseAnd fuel depth p)) /\
  (forall depth lhs p, P lhs -> yields P (and_loop fuel depth lhs p)) /\
  (forall depth p, yields P (parseNot fuel depth p)) /\
  (forall depth p, yields P (parsePrimary fuel depth p)).
Proof.
  intros Hand Hor Hnot Hattr fuel. induction fuel as [|fuel (IHor & IHol & IHand & IHal & IHnot & IHprim)]; [by split_and!|].
  split_and!; intros; cbn [parseOr or_loop parseAnd and_loop parseNot parsePrimary].
  - yield IHor; [by apply IHand|by apply IHol].
  - destruct (isKeyword p "or"); [|done]. yield IHor; [by apply IHand|apply IHol; by apply Hor].
  - yield IHor; [by apply IHnot|by apply IHal].
  - destruct (isKeyword p "and"); [|done]. yield IHor; [by apply IHnot|apply IHal; by apply Hand].
  - destruct (too_deep depth); [exact I|]. destruct (isKeyword p "not"); [|by apply IHprim]. yield IHor; by apply Hnot.
  - destruct (kind (cur p) =? tokLParen); [|by apply Hattr]. yield IHor; done.
Qed.

(** C15. Whatever the parser accepts is well typed: it asks only for attributes
    of the allowlist, with operators that they support and values of their kind. *)
Theorem ParseFilter_typed filter e : ParseFilter filter = Ok e -> well_typed e.
Proof.
  unfold ParseFilter. destruct (filter =? ""); [done|]. destruct (_ <? _); [done|].
  intros (p & _ & Hp)%res_bind_Ok. apply res_bind_Ok in Hp as ([e' p'] & Hp & He).
  destruct (kind (cur p') <>? tokEOF); [done|]. injection He as ->.
  destruct (parser_yields well_typed ltac:(done) ltac:(done) ltac:(done)
    ltac:(intros q; destruct (parseAttrExpr q) as [[x q']|] eqn:Hq; [by eapply parseAttrExpr_typed|exact I]) (parse_fuel p))
    as [Hor _]. specialize (Hor 0 p). by rewrite Hp in Hor.
Qed.

(** ** Printing a filter *)

Definition ident (s : text) : token := {| kind := tokIdent; tok_text := s |}.
Definition str_tok (s : text) : token := {| kind := tokString; tok_text := s |}.
Definition kw (s : string) : token := ident (runes s).

(** How an instant is written. *)
Context (show_time : Time -> text).

Definition value_token (kind : AttributeKind) (str : text) (b : bool) (t : Time) : token :=
  match kind with
  | AttrString => str_tok str
  | AttrBoolean => kw (if b then "true" else "false")
  | AttrDateTime => str_tok (show_time t)
  end.

Definition prec (e : FilterExpr) : nat := match e with orExpr _ _ => 0 | andExpr _ _ => 1 | _ => 2 end.

Definition parens (b : bool) (ts : list token) : list token :=
  if b then (tok tokLParen :: ts ++ [tok tokRParen])%list else ts.

(** The tokens of an expression where one of precedence [lvl] is expected. *)
Fixpoint tokens (lvl : nat) (e : FilterExpr) : list token :=
  parens (prec e <? lvl)%nat
    match e with
    | orExpr l r => (tokens 0 l ++ kw "or" :: tokens 1 r)%list
    | andExpr l r => (tokens 1 l ++ kw "and" :: tokens 2 r)%list
    | notExpr inner => (kw "not" :: tok tokLParen :: tokens 0 inner ++ [tok tokRParen])%list
    | presenceExpr attr => [ident attr; kw "pr"]
    | compareExpr attr op kind str b t => [ident attr; ident op; value_token kind str b t]
    end.

(** How many groups, parenthesised or negated, lie inside one another. *)
Fixpoint groups (lvl : nat) (e : FilterExpr) : nat :=
  (if (prec e <? lvl)%nat then 1 else 0) +
    match e with
    | orExpr l r => Nat.max (groups 0 l) (groups 1 r)
    | andExpr l r => Nat.max (groups 1 l) (groups 2 r)
    | notExpr inner => S (groups 0 inner)
    | _ => 0
    end.

Definition escape (s : text) : text :=
  flat_map (fun c => if (c =? quote) || (c =? backslash) then [backslash; c] else [c]) s.

Definition render (t : token) : text :=
  match kind t with
  | tokLParen => [lparen]
  | tokRParen => [rparen]
  | tokString => (quote :: escape (tok_text t) ++ [quote])%list
  | _ => tok_text t
  end.

Definition print_tokens (ts : list token) : text := flat_map (fun t => render t ++ [space])%list ts.
Definition print (e : FilterExpr) : text := print_tokens (tokens 0 e).

(** What an expression must be to be written: its attributes are identifiers
    that name themselves, and its values are as the parser makes them. *)
Definition identifier (s : text) : Prop :=
  exists c s', s = c :: s' /\ isIdentStart c = true /\ Forall (fun c => isIdentPart c = true) s'.

Fixpoint printable (e : FilterExpr) : Prop :=
  match e with
  | andExpr l r | orExpr l r => printable l /\ printable r
  | notExpr inner => printable inner
  | presenceExpr attr =>
      identifier attr /\ map fold_rune attr <> runes "not" /\ exists spec, resolve_attr attr = Ok (attr, spec)
  | compareExpr attr op kind str b t =>
      identifier attr /\ map fold_rune attr <> runes "not" /\ isComparisonOp op = true /\
      exists spec, resolve_attr attr = Ok (attr, spec) /\ op ∈ Ops spec /\ Kind spec = kind /\
      match kind with
      | AttrString => b = false /\ t = 0%Z
      | AttrBoolean => str = [] /\ t = 0%Z
      | AttrDateTime => str = [] /\ b = false /\ parse_time (show_time t) = Some t
      end
  end.

(** ** Lexing what was printed *)

Inductive lexes : text -> list token -> Prop :=
| lexes_end l : skipSpace l = [] -> lexes l []
| lexes_tok l t l' ts : next l = Ok (t, l') -> kind t <> tokEOF -> lexes l' ts -> lexes l (t :: ts).

(** The parser stands before these tokens. *)
Definition reads (p : parser) (ts : list token) : Prop :=
  match ts with
  | [] => kind (cur p) = tokEOF
  | t :: ts' => cur p = t /\ lexes (lex p) ts'
  end.

Lemma advance_reads p t ts : reads p (t :: ts) -> exists p', advance p = Ok p' /\ reads p' ts.
Proof.
  intros [_ Hl]. unfold advance. destruct Hl as [l Hs|l t' l' ts' Hn Hk Hl].
  - unfold next. rewrite Hs. by eexists.
  - rewrite Hn. by eexists.
Qed.

Lemma advance_lexes l ts : lexes l ts -> exists p, advance {| cur := tok tokEOF; lex := l |} = Ok p /\ reads p ts.
Proof. intros Hl. by apply (advance_reads _ (tok tokEOF)). Qed.

Lemma ident_part c : isIdentPart c = true -> c <> space /\ c <> tab /\ c <> lparen /\ c <> rparen /\ c <> quote.
Proof. intros Hc. by split_and!; intros ->. Qed.

Lemma ident_start c : isIdentStart c = true -> isIdentPart c = true.
Proof. unfold isIdentStart, isIdentPart. by destruct (IsLetter c), (IsDigit c), (c =? underscore). Qed.

Lemma span_all f a b : Forall (fun c => f c = true) a -> match b with c :: _ => f c = false | [] => True end ->
  span f (a ++ b)%list = (a, b).
Proof.
  intros Ha Hb. induction Ha as [|c a Hc Ha IH]; simpl; [|by rewrite Hc, IH].
  destruct b as [|c b]; simpl; [done|]. by rewrite Hb.
Qed.

Lemma lexString_escape s sb rest : lexString (escape s ++ quote :: rest)%list sb = Ok (str_tok (sb ++ s)%list, rest).
Proof.
  revert sb. induction s as [|c s IH]; intros sb; [by rewrite app_nil_r|].
  change (escape (c :: s)) with ((if (c =? quote) || (c =? backslash) then [backslash; c] else [c]) ++ escape s)%list.
  replace (sb ++ c :: s)%list with ((sb ++ [c]) ++ s)%list by (by rewrite <- app_assoc).
  destruct ((c =? quote) || (c =? backslash)) eqn:Hc.
  - apply orb_true_iff in Hc. rewrite !bool_decide_eq_true in Hc.
    destruct Hc as [-> | ->]; exact (IH _).
  - apply orb_false_iff in Hc as [Hq Hb]. cbn [app lexString]. rewrite Hq, Hb. exact (IH _).
Qed.

(** The tokens that are written. *)
Definition token_ok (t : token) : Prop :=
  match kind t with
  | tokLParen | tokRParen => tok_text t = []
  | tokIdent => identifier (tok_text t)
  | tokString => True
  | _ => False
  end.

Lemma next_render t rest : token_ok t -> next (render t ++ space :: rest)%list = Ok (t, space :: rest).
Proof.
  destruct t as [k s]. unfold token_ok, render. simpl. destruct k; try done.
  - by intros ->.
  - by intros ->.
  - intros (c & s' & -> & Hc & Hs). destruct (ident_part c (ident_start c Hc)) as (H1 & H2 & H3 & H4 & H5).
    unfold next. cbn [app skipSpace]. rewrite !bool_decide_false by done. cbn [orb]. rewrite !bool_decide_false by done.
    rewrite Hc. unfold lexIdent. change (c :: s' ++ space :: rest)%list with ((c :: s') ++ space :: rest)%list.
    rewrite span_all; [done| |done]. constructor; [by apply ident_start|done].
  - intros _. cbn [app]. rewrite <- app_assoc. cbn [app].
    trans (lexString (escape s ++ quote :: space :: rest)%list []); [reflexivity|]. apply (lexString_escape s []).
Qed.

Lemma next_space rest : next (space :: rest) = next rest.
Proof. reflexivity. Qed.

Lemma lexes_space rest ts : lexes rest ts -> lexes (space :: rest) ts.
Proof. intros Hl. destruct Hl as [l Hl|l t l' ts Hn Hk Hl]; [by constructor|]. by eapply lexes_tok. Qed.

Lemma lexes_print ts : Forall token_ok ts -> lexes (print_tokens ts) ts.
Proof.
  induction 1 as [|t ts Ht Hts IH]; [by constructor|]. change (print_tokens (t :: ts)) with ((render t ++ [space]) ++ print_tokens ts)%list.
  rewrite <- app_assoc. eapply lexes_tok; [by apply next_render| |by apply lexes_space].
  intros Hk. unfold token_ok in Ht. by rewrite Hk in Ht.
Qed.

(** ** Parsing what was printed *)

(** True for all large enough fuels. *)
Definition ev (P : nat -> Prop) : Prop := exists f0, forall f, f0 <= f -> P f.

Lemma ev_S (P : nat -> Prop) : ev (fun f => P (S f)) -> ev P.
Proof. intros [f0 Hf]. exists (S f0). intros [|f] Hle; [lia|]. apply Hf. lia. Qed.

Lemma ev_both (P Q R : nat -> Prop) : ev P -> ev Q -> (forall f, P f -> Q f -> R f) -> ev R.
Proof. intros [f0 H0] [f1 H1] Himp. exists (f0 + f1). intros f Hf. apply Himp; [apply H0|apply H1]; lia. Qed.

Lemma ev_mono (P Q : nat -> Prop) : ev P -> (forall f, P f -> Q f) -> ev Q.
Proof. intros [f0 H0] Himp. exists f0. auto. Qed.

(** The next token is not this keyword. *)
Definition stops (k : string) (ts : list token) : Prop :=
  match ts with t :: _ => kind t = tokIdent -> map fold_rune (tok_text t) <> runes k | [] => True end.

Lemma stops_keyword k ts p : reads p ts -> stops k ts -> isKeyword p k = false.
Proof.
  unfold isKeyword. destruct ts as [|t ts]; simpl; [by intros ->|]. intros [-> _] Hs.
  destruct (kind t =? tokIdent) eqn:Hk; [|done]. apply bool_decide_eq_true in Hk. simpl. apply bool_decide_false. auto.
Qed.

Lemma keyword_reads k ts p : reads p (kw k :: ts) -> map fold_rune (runes k) = runes k -> isKeyword p k = true.
Proof. intros [Hc _] Hk. unfold isKeyword. rewrite Hc. simpl. by apply bool_decide_true. Qed.

Lemma reads_kind p t ts : reads p (t :: ts) -> kind (cur p) = kind t.
Proof. by intros [-> _]. Qed.

Section chains.
Context (d : nat).

(** The three levels: an operand, a chain of conjunctions, one of disjunctions;
    the last two go on with their loop. *)
Definition operand (p : parser) (e : FilterExpr) (p' : parser) : Prop :=
  ev (fun f => parseNot f (d + 1 + 1) p = Ok (e, p')).
Definition conjunction (p : parser) (e : FilterExpr) (p' : parser) : Prop :=
  forall r, ev (fun f => and_loop f (d + 1) e p' = r) -> ev (fun f => parseAnd f (d + 1) p = r).
Definition disjunction (p : parser) (e : FilterExpr) (p' : parser) : Prop :=
  forall r, ev (fun f => or_loop f d e p' = r) -> ev (fun f => parseOr f d p = r).

Hypothesis Hd : d + 2 <= 10.

Lemma shallow k : k <= 2 -> too_deep (d + k) = false.
Proof. intros Hk. apply Nat.ltb_ge. unfold MaxFilterDepth. lia. Qed.

Lemma conjunction_of_operand p e p' : operand p e p' -> conjunction p e p'.
Proof.
  intros Ho r Hr. apply ev_S. eapply ev_both; [exact Ho|exact Hr|]. intros f Hn Hl. cbn [parseAnd].
  rewrite shallow by lia. rewrite Hn. exact Hl.
Qed.

Lemma conjunction_stop p e p' k : conjunction p e p' -> reads p' k -> stops "and" k -> ev (fun f => parseAnd f (d + 1) p = Ok (e, p')).
Proof.
  intros Hc Hr Hs. apply Hc, ev_S. exists 0. intros f _. cbn [and_loop]. by rewrite (stops_keyword "and" k).
Qed.

Lemma disjunction_of_conjunction p e p' k : conjunction p e p' -> reads p' k -> stops "and" k -> disjunction p e p'.
Proof.
  intros Hc Hk Hs r Hr. apply ev_S. eapply ev_both; [by eapply conjunction_stop|exact Hr|]. intros f Ha Hl. cbn [parseOr].
  rewrite <- (Nat.add_0_r d) at 1. rewrite shallow by lia. rewrite Ha. exact Hl.
Qed.

Lemma disjunction_stop p e p' k : disjunction p e p' -> reads p' k -> stops "or" k -> ev (fun f => parseOr f d p = Ok (e, p')).
Proof.
  intros Hc Hr Hs. apply Hc, ev_S. exists 0. intros f _. cbn [or_loop]. by rewrite (stops_keyword "or" k).
Qed.

(** One more conjunct or disjunct. *)
Lemma conjunction_and p l p1 p2 r p3 k :
  conjunction p l p1 -> reads p1 (kw "and" :: k) -> advance p1 = Ok p2 -> operand p2 r p3 -> conjunction p (andExpr l r) p3.
Proof.
  intros Hl Hk Ha Hr res Hres. apply Hl, ev_S. eapply ev_both; [exact Hr|exact Hres|]. intros f Hn Hloop. cbn [and_loop].
  rewrite (keyword_reads "and" k) by done. rewrite Ha. cbn [res_bind]. rewrite Hn. exact Hloop.
Qed.

Lemma disjunction_or p l p1 p2 r p3 k k' :
  disjunction p l p1 -> reads p1 (kw "or" :: k) -> advance p1 = Ok p2 -> conjunction p2 r p3 -> reads p3 k' ->
  stops "and" k' -> disjunction p (orExpr l r) p3.
Proof.
  intros Hl Hk Ha Hr Hk' Hs res Hres. apply Hl, ev_S. eapply ev_both; [by eapply conjunction_stop|exact Hres|].
  intros f Hn Hloop. cbn [or_loop]. rewrite (keyword_reads "or" k) by done. rewrite Ha. cbn [res_bind]. rewrite Hn. exact Hloop.
Qed.
End chains.

(** A group: what is inside is parsed three levels deeper. *)
Lemma operand_group d p p1 e p2 p3 k k1 :
  d + 5 <= 10 -> reads p (tok tokLParen :: k1) -> advance p = Ok p1 -> disjunction (d + 1 + 1 + 1) p1 e p2 ->
  reads p2 (tok tokRParen :: k) -> advance p2 = Ok p3 -> operand d p e p3.
Proof.
  intros Hd Hp Ha Hdis Hr Ha2. apply ev_S, ev_S.
  eapply ev_mono; [by eapply disjunction_stop|]. intros f Hf. cbn [parseNot parsePrimary].
  rewrite <- Nat.add_assoc, (shallow d) by lia. rewrite Nat.add_assoc. rewrite (stops_keyword "not" _ _ Hp) by done.
  rewrite (reads_kind _ _ _ Hp). cbn [kind tok]. rewrite Ha. simpl. rewrite Hf. simpl.
  rewrite (reads_kind _ _ _ Hr). simpl. by rewrite Ha2.
Qed.

Lemma operand_not d p p1 p2 e p3 p4 k k1 :
  d + 5 <= 10 -> reads p (kw "not" :: tok tokLParen :: k1) -> advance p = Ok p1 -> reads p1 (tok tokLParen :: k1) ->
  advance p1 = Ok p2 -> disjunction (d + 1 + 1 + 1) p2 e p3 -> reads p3 (tok tokRParen :: k) -> advance p3 = Ok p4 ->
  operand d p (notExpr e) p4.
Proof.
  intros Hd Hp Ha Hp1 Ha1 Hdis Hr Ha2. apply ev_S.
  eapply ev_mono; [by eapply disjunction_stop|]. intros f Hf. cbn [parseNot].
  rewrite <- Nat.add_assoc, (shallow d) by lia. rewrite Nat.add_assoc. rewrite (keyword_reads "not" _ _ Hp) by done.
  rewrite Ha. simpl. rewrite (reads_kind _ _ _ Hp1). simpl. rewrite Ha1. simpl. rewrite Hf. simpl.
  rewrite (reads_kind _ _ _ Hr). simpl. by rewrite Ha2.
Qed.

Lemma operand_attr d p attr ts e p' :
  d + 2 <= 10 -> reads p (ident attr :: ts) -> map fold_rune attr <> runes "not" -> parseAttrExpr p = Ok (e, p') ->
  operand d p e p'.
Proof.
  intros Hd Hp Hn Hpa. apply ev_S, ev_S. exists 0. intros f _. cbn [parseNot parsePrimary].
  rewrite <- Nat.add_assoc, (shallow d) by lia.
  rewrite (stops_keyword "not" _ _ Hp) by (intros _; exact Hn). rewrite (reads_kind _ _ _ Hp). exact Hpa.
Qed.

Lemma isComparisonOp_cases op : isComparisonOp op = true ->
  op ∈ map runes ["eq"; "ne"; "co"; "sw"; "ew"; "gt"; "ge"; "lt"; "le"].
Proof. unfold isComparisonOp. by rewrite contains_true. Qed.

(** The operators are lower-case identifiers other than [pr]. *)
Lemma comparison_op op : isComparisonOp op = true ->
  to_lower op = op /\ map fold_rune op <> runes "pr" /\ identifier op.
Proof.
  intros Hop%isComparisonOp_cases. cbn [map] in Hop.
  repeat (apply elem_of_cons in Hop as [-> |Hop];
    [split; [reflexivity|]; split; [discriminate|]; eexists _, _; split; [reflexivity|]; split; [reflexivity|by repeat constructor]|]).
  by apply elem_of_nil in Hop.
Qed.

Lemma parseValue_ok attrRaw attr op spec p kind str b t k :
  reads p (value_token kind str b t :: k) -> Kind spec = kind ->
  match kind with
  | AttrString => b = false /\ t = 0%Z
  | AttrBoolean => str = [] /\ t = 0%Z
  | AttrDateTime => str = [] /\ b = false /\ parse_time (show_time t) = Some t
  end ->
  exists p', parseValue attrRaw attr op spec p = Ok (compareExpr attr op kind str b t, p') /\ reads p' k.
Proof.
  intros Hp Hk Hv. destruct (advance_reads _ _ _ Hp) as (p' & Ha & Hr). exists p'. split; [|done].
  unfold parseValue. rewrite Hk. destruct kind; unfold value_token in Hp.
  - destruct Hv as [-> ->]. rewrite (reads_kind _ _ _ Hp), (proj1 Hp). simpl. by rewrite Ha.
  - destruct Hv as [-> ->]. destruct b.
    + rewrite (keyword_reads "true" _ _ Hp) by done. simpl. by rewrite Ha.
    + rewrite (stops_keyword "true" _ _ Hp) by (by intros _). rewrite (keyword_reads "false" _ _ Hp) by done. simpl. by rewrite Ha.
  - destruct Hv as (-> & -> & Ht). rewrite (reads_kind _ _ _ Hp), (proj1 Hp). simpl. rewrite Ht. simpl. by rewrite Ha.
Qed.

Lemma parseAttr_presence p attr spec k :
  reads p (ident attr :: kw "pr" :: k) -> resolve_attr attr = Ok (attr, spec) ->
  exists p', parseAttrExpr p = Ok (presenceExpr attr, p') /\ reads p' k.
Proof.
  intros Hp Hr. destruct (advance_reads _ _ _ Hp) as (p1 & Ha1 & Hp1). destruct (advance_reads _ _ _ Hp1) as (p2 & Ha2 & Hp2).
  exists p2. split; [|done]. unfold parseAttrExpr. rewrite (reads_kind _ _ _ Hp), (proj1 Hp). simpl.
  rewrite Hr. simpl. rewrite Ha1. simpl. rewrite (keyword_reads "pr" _ _ Hp1) by done. by rewrite Ha2.
Qed.

Lemma parseAttr_compare p attr op kind str b t spec k :
  reads p (ident attr :: ident op :: value_token kind str b t :: k) -> resolve_attr attr = Ok (attr, spec) ->
  isComparisonOp op = true -> op ∈ Ops spec -> Kind spec = kind ->
  match kind with
  | AttrString => b = false /\ t = 0%Z
  | AttrBoolean => str = [] /\ t = 0%Z
  | AttrDateTime => str = [] /\ b = false /\ parse_time (show_time t) = Some t
  end ->
  exists p', parseAttrExpr p = Ok (compareExpr attr op kind str b t, p') /\ reads p' k.
Proof.
  intros Hp Hr Hop Hin Hk Hv. destruct (comparison_op op Hop) as (Hl & Hpr & _).
  destruct (advance_reads _ _ _ Hp) as (p1 & Ha1 & Hp1). destruct (advance_reads _ _ _ Hp1) as (p2 & Ha2 & Hp2).
  destruct (parseValue_ok attr attr op spec p2 kind str b t k Hp2 Hk Hv) as (p3 & Hval & Hp3). exists p3. split; [|done].
  unfold parseAttrExpr. rewrite (reads_kind _ _ _ Hp), (proj1 Hp). simpl.
  rewrite Hr. simpl. rewrite Ha1. simpl. rewrite (stops_keyword "pr" _ _ Hp1) by (by intros _).
  rewrite (reads_kind _ _ _ Hp1), (proj1 Hp1). simpl. rewrite Hl, Hop. simpl.
  rewrite (proj2 (contains_true (Ops spec) op) Hin). simpl. by rewrite Ha2.
Qed.

(** An expression at the level of an operand, of a conjunction, of a
    disjunction: its tokens parse to it, whatever follows. *)
Definition parses (d lvl : nat) (e : FilterExpr) : Prop :=
  forall k p, reads p (tokens lvl e ++ k) -> (lvl = 0 -> stops "and" k) -> exists p', reads p' k /\
    match lvl with
    | O => disjunction d p e p'
    | 1 => conjunction d p e p'
    | _ => operand d p e p'
    end.

Lemma parses_1_of_2 d e : d + 2 <= 10 -> tokens 1 e = tokens 2 e -> parses d 2 e -> parses d 1 e.
Proof.
  intros Hd Ht He k p Hp _. rewrite Ht in Hp. destruct (He k p Hp) as (p' & Hr & Ho); [done|].
  exists p'. split; [done|]. by apply conjunction_of_operand.
Qed.

Lemma parses_0_of_1 d e : d + 2 <= 10 -> tokens 0 e = tokens 1 e -> parses d 1 e -> parses d 0 e.
Proof.
  intros Hd Ht He k p Hp Hs. rewrite Ht in Hp. destruct (He k p Hp) as (p' & Hr & Ho); [done|].
  exists p'. split; [done|]. eapply disjunction_of_conjunction; [done..|]. by apply Hs.
Qed.

Lemma parses_group d e : d + 5 <= 10 -> tokens 2 e = parens true (tokens 0 e) -> parses (d + 1 + 1 + 1) 0 e -> parses d 2 e.
Proof.
  intros Hd Ht He k p Hp _. rewrite Ht in Hp. simpl in Hp. rewrite <- app_assoc in Hp.
  destruct (advance_reads _ _ _ Hp) as (p1 & Ha & Hp1). destruct (He _ p1 Hp1) as (p2 & Hp2 & Hdis); [done|].
  destruct (advance_reads _ _ _ Hp2) as (p3 & Ha3 & Hp3). exists p3. split; [done|]. by eapply operand_group.
Qed.

Lemma parses_all e : printable e -> forall d lvl, d + 3 * groups lvl e + 2 <= 10 -> lvl <= 2 -> parses d lvl e.
Proof.
  induction e as [l IHl r IHr|l IHl r IHr|inner IH|attr|attr op kind str b t]; intros Hpr.
  - destruct Hpr as [Hl Hr].
    assert (H1 : forall d, d + 3 * groups 1 (andExpr l r) + 2 <= 10 -> parses d 1 (andExpr l r)).
    { intros d Hd k p Hp _. simpl in Hd, Hp. rewrite <- app_assoc in Hp.
      destruct (IHl Hl d 1 ltac:(lia) ltac:(lia) _ p Hp) as (p1 & Hp1 & Hc1); [done|].
      destruct (advance_reads _ _ _ Hp1) as (p2 & Ha & Hp2).
      destruct (IHr Hr d 2 ltac:(lia) ltac:(lia) _ p2 Hp2) as (p3 & Hp3 & Ho); [done|].
      exists p3. split; [done|]. eapply conjunction_and; [done|exact Hp1|done|done]. }
    assert (H0 : forall d, d + 3 * groups 0 (andExpr l r) + 2 <= 10 -> parses d 0 (andExpr l r)).
    { intros d Hd. apply parses_0_of_1; [simpl in Hd; lia|done|]. by apply H1. }
    intros d [|[|[|lvl]]] Hd Hle; [by apply H0|by apply H1| |lia].
    simpl in Hd. apply parses_group; [lia|done|]. apply H0. simpl. lia.
  - destruct Hpr as [Hl Hr].
    assert (H0 : forall d, d + 3 * groups 0 (orExpr l r) + 2 <= 10 -> parses d 0 (orExpr l r)).
    { intros d Hd k p Hp Hs. simpl in Hd, Hp. rewrite <- app_assoc in Hp.
      destruct (IHl Hl d 0 ltac:(lia) ltac:(lia) _ p Hp) as (p1 & Hp1 & Hc1); [by intros _ _|].
      destruct (advance_reads _ _ _ Hp1) as (p2 & Ha & Hp2).
      destruct (IHr Hr d 1 ltac:(lia) ltac:(lia) _ p2 Hp2) as (p3 & Hp3 & Ho); [done|].
      exists p3. split; [done|]. eapply disjunction_or; [done|exact Hp1|done|done|done|by apply Hs]. }
    assert (H2 : forall d, d + 3 * groups 2 (orExpr l r) + 2 <= 10 -> parses d 2 (orExpr l r)).
    { intros d Hd. simpl in Hd. apply parses_group; [lia|done|]. apply H0. simpl. lia. }
    intros d [|[|[|lvl]]] Hd Hle; [by apply H0| |by apply H2|lia].
    apply parses_1_of_2; [simpl in Hd; lia|done|]. by apply H2.
  - assert (H2 : forall d, d + 3 * groups 2 (notExpr inner) + 2 <= 10 -> parses d 2 (notExpr inner)).
    { intros d Hd k p Hp _. simpl in Hd, Hp. rewrite <- app_assoc in Hp.
      destruct (advance_reads _ _ _ Hp) as (p1 & Ha & Hp1). destruct (advance_reads _ _ _ Hp1) as (p2 & Ha1 & Hp2).
      destruct (IH Hpr (d + 1 + 1 + 1) 0 ltac:(lia) ltac:(lia) _ p2 Hp2) as (p3 & Hp3 & Hdis); [done|].
      destruct (advance_reads _ _ _ Hp3) as (p4 & Ha3 & Hp4). exists p4. split; [done|].
      eapply operand_not; [lia|exact Hp|done|done|done|exact Hdis|exact Hp3|done]. }
    intros d [|[|[|lvl]]] Hd Hle; [| |by apply H2|lia]; simpl in Hd.
    + apply parses_0_of_1; [lia|done|]. apply parses_1_of_2; [lia|done|]. apply H2. simpl. lia.
    + apply parses_1_of_2; [lia|done|]. apply H2. simpl. lia.
  - destruct Hpr as (Hid & Hn & spec & Hr).
    assert (H2 : forall d, d + 2 <= 10 -> parses d 2 (presenceExpr attr)).
    { intros d Hd k p Hp _. destruct (parseAttr_presence p attr spec k Hp Hr) as (p' & Hpa & Hp').
      exists p'. split; [done|]. eapply operand_attr; [lia|exact Hp|exact Hn|exact Hpa]. }
    intros d [|[|[|lvl]]] Hd Hle; simpl in Hd; [| |apply H2; lia|lia].
    + apply parses_0_of_1; [lia|done|]. apply parses_1_of_2; [lia|done|]. apply H2. lia.
    + apply parses_1_of_2; [lia|done|]. apply H2. lia.
  - destruct Hpr as (Hid & Hn & Hop & spec & Hr & Hin & Hk & Hv).
    assert (H2 : forall d, d + 2 <= 10 -> parses d 2 (compareExpr attr op kind str b t)).
    { intros d Hd k p Hp _. destruct (parseAttr_compare p attr op kind str b t spec k Hp Hr Hop Hin Hk Hv) as (p' & Hpa & Hp').
      exists p'. split; [done|]. eapply operand_attr; [lia|exact Hp|exact Hn|exact Hpa]. }
    intros d [|[|[|lvl]]] Hd Hle; simpl in Hd; [| |apply H2; lia|lia].
    + apply parses_0_of_1; [lia|done|]. apply parses_1_of_2; [lia|done|]. apply H2. lia.
    + apply parses_1_of_2; [lia|done|]. apply H2. lia.
Qed.

(** ** More fuel changes nothing *)

Definition agrees {A} (r r' : result filter_error A) : Prop := r = Err OutOfFuel \/ r' = r.

Lemma agrees_refl {A} (r : result filter_error A) : agrees r r.
Proof. by right. Qed.

Lemma agrees_bind {A B} (r r' : result filter_error A) (k k' : A -> result filter_error B) :
  agrees r r' -> (forall a, agrees (k a) (k' a)) -> agrees (res_bind r k) (res_bind r' k').
Proof. intros [-> | ->] Hk; [by left|]. destruct r as [a|e]; [apply Hk|by right]. Qed.

Ltac agree :=
  repeat first
    [ apply agrees_refl
    | match goal with
      | H : context [agrees] |- _ => apply H; lia
      | |- agrees (if ?b then _ else _) (if ?b then _ else _) => destruct b
      | |- agrees (res_bind _ _) (res_bind _ _) => apply agrees_bind; [|intros]
      | |- agrees (let '(_, _) := ?a in _) _ => destruct a
      end ].

Lemma fuel_agrees f : forall g, f <= g ->
  (forall depth p, agrees (parseOr f depth p) (parseOr g depth p)) /\
  (forall depth lhs p, agrees (or_loop f depth lhs p) (or_loop g depth lhs p)) /\
  (forall depth p, agrees (parseAnd f depth p) (parseAnd g depth p)) /\
  (forall depth lhs p, agrees (and_loop f depth lhs p) (and_loop g depth lhs p)) /\
  (forall depth p, agrees (parseNot f depth p) (parseNot g depth p)) /\
  (forall depth p, agrees (parsePrimary f depth p) (parsePrimary g depth p)).
Proof.
  induction f as [|f IH]; intros g Hle; [split_and!; intros; by left|].
  destruct g as [|g]; [lia|]. destruct (IH g ltac:(lia)) as (IHor & IHol & IHand & IHal & IHnot & IHprim). clear IH.
  split_and!; intros; cbn [parseOr or_loop parseAnd and_loop parseNot parsePrimary]; agree.
Qed.

(** What holds for all large fuels holds for that of [ParseFilter]. *)
Lemma enough_fuel depth p r : ev (fun f => parseOr f depth p = r) -> parseOr (parse_fuel p) depth p = r.
Proof.
  intros [f0 Hf]. pose proof (proj1 (parser_consumes (parse_fuel p)) depth p (le_n _)) as Hc.
  destruct (proj1 (fuel_agrees (parse_fuel p) (f0 + parse_fuel p) ltac:(lia)) depth p) as [Ho|Ho].
  - rewrite Ho in Hc. by destruct Hc.
  - rewrite <- Ho. apply Hf. lia.
Qed.

Lemma keywords_identifiers :
  Forall (fun k => identifier (runes k)) ["or"; "and"; "not"; "pr"; "true"; "false"].
Proof.
  repeat (constructor; [eexists _, _; split; [reflexivity|]; split; [reflexivity|by repeat constructor]|]). constructor.
Qed.

Lemma parens_ok b ts : Forall token_ok ts -> Forall token_ok (parens b ts).
Proof.
  intros Hts. destruct b; [|done]. constructor; [done|]. apply Forall_app. split; [done|]. by repeat constructor.
Qed.

Lemma tokens_ok e : printable e -> forall lvl, Forall token_ok (tokens lvl e).
Proof.
  pose proof keywords_identifiers as Hk. rewrite !Forall_cons in Hk. destruct Hk as (Hor & Hand & Hnot & Hpr & Ht & Hf & _).
  induction e as [l IHl r IHr|l IHl r IHr|inner IH|attr|attr op kind str b t]; intros Hp lvl; apply parens_ok.
  - destruct Hp as [Hl Hr]. apply Forall_app. split; [by apply IHl|]. constructor; [done|by apply IHr].
  - destruct Hp as [Hl Hr]. apply Forall_app. split; [by apply IHl|]. constructor; [done|by apply IHr].
  - constructor; [done|]. apply (parens_ok true). by apply IH.
  - by repeat (constructor; [first [done|apply Hp]|]).
  - destruct Hp as (Hid & _ & Hop & _). repeat (constructor; [first [done|by apply comparison_op]|]).
    constructor; [|done]. by destruct kind; [|destruct b|].
Qed.

(** C14. Round trip: a well-formed expression with at most two groups inside one
    another, written as a filter, is parsed back to itself. *)
Theorem ParseFilter_print filter e :
  printable e -> groups 0 e <= 2 -> runes filter = print e -> filter <> "" -> (len filter <= MaxFilterLength)%Z ->
  ParseFilter filter = Ok e.
Proof.
  intros Hp Hg Hr Hne Hlen. destruct (advance_lexes _ _ (lexes_print _ (tokens_ok e Hp 0))) as (p & Ha & Hread).
  destruct (parses_all e Hp 0 0 ltac:(lia) ltac:(lia) [] p) as (p' & Hp' & Hdis); [by rewrite app_nil_r|done|].
  unfold ParseFilter. rewrite (bool_decide_false _ Hne). replace (MaxFilterLength <? len filter) with false by (symmetry; lia).
  rewrite Hr. fold (print e) in Ha. rewrite Ha. cbn [res_bind].
  rewrite (enough_fuel 0 p (Ok (e, p'))); [|by eapply disjunction_stop]. cbn [res_bind reads] in Hp' |- *.
  by rewrite Hp'.
Qed.

(** ** Nesting *)

(** No parse of a disjunction at this depth succeeds. *)
Definition refused (depth : nat) (p : parser) : Prop := forall fuel, exists e, parseOr fuel depth p = Err e.

Lemma refused_deep p : refused 9 p.
Proof. intros [|[|[|fuel]]]; by eexists. Qed.

Lemma refused_group depth p p1 :
  kind (cur p) = tokLParen -> advance p = Ok p1 -> refused (depth + 1 + 1 + 1) p1 -> refused depth p.
Proof.
  intros Hk Ha Hr [|[|[|[|fuel]]]]; cbn [parseOr parseAnd parseNot parsePrimary];
    repeat (destruct (too_deep _); [by eexists|]); try (by eexists); unfold isKeyword; rewrite Hk, bool_decide_false by done;
    cbn [andb res_bind]; [by eexists|].
  rewrite bool_decide_true, Ha by done. cbn [res_bind]. destruct (Hr fuel) as [e ->]. by eexists.
Qed.

(** The depth counts the levels of the grammar, three to a group: a filter
    with three groups inside one another is refused whatever follows. *)
Theorem three_groups_refused filter l :
  runes filter = (lparen :: lparen :: lparen :: l)%list -> exists e, ParseFilter filter = Err e.
Proof.
  intros Hr. unfold ParseFilter. destruct (filter =? ""); [by eexists|]. destruct (_ <? _); [by eexists|].
  rewrite Hr. set (p := {| cur := tok tokLParen; lex := lparen :: lparen :: l |}).
  change (advance _) with (@Ok filter_error _ p). cbn [res_bind].
  assert (Hp : refused 0 p).
  { eapply refused_group; [done|reflexivity|]. eapply refused_group; [done|reflexivity|].
    destruct (next l) as [[t l']|e] eqn:Hn.
    - eapply refused_group; [done|unfold advance; simpl; by rewrite Hn|apply refused_deep].
    - intros [|[|[|[|fuel]]]]; try (by eexists). cbn. unfold advance. simpl. rewrite Hn. by eexists. }
  destruct (Hp (parse_fuel p)) as [e He]. rewrite He. by eexists.
Qed.
End parser.

(** ** Witnesses *)

Definition no_rune (_ : N) : bool := false.
Definition same_rune (r : N) : N := r.
Definition no_time (_ : text) : option Time := None.
Definition no_date (_ : Time) : text := [].

Definition sample : FilterExpr :=
  andExpr (orExpr (compareExpr (runes "username") (runes "sw") AttrString (runes "a") false 0%Z)
                  (notExpr (presenceExpr (runes "emails.value"))))
          (compareExpr (runes "active") (runes "eq") AttrBoolean [] true 0%Z).

Definition quoted (s : string) : string := dq ++ s ++ dq.
Definition sample_filter : string :=
  "( username sw " ++ quoted "a" ++ " or not ( emails.value pr ) ) and active eq true ".

Lemma sample_parse :
  ParseFilter no_rune no_rune same_rune no_time UserFilterAttributes sample_filter = Ok sample.
Proof. vm_compute. reflexivity. Qed.

Ltac identify := eexists _, _; split; [vm_compute; reflexivity|]; split; [reflexivity|by repeat constructor].

Lemma sample_printable : printable no_rune no_rune same_rune no_time UserFilterAttributes no_date sample.
Proof.
  cbn [printable sample]. split_and!. all: try identify. all: try discriminate. all: try reflexivity.
  - exists (stringAttr ["eq"; "ne"; "co"; "sw"; "ew"]). split; [vm_compute; reflexivity|]. split; [by apply contains_true|done].
  - exists (stringAttr ["eq"; "ne"; "co"; "sw"; "ew"]). vm_compute. reflexivity.
  - exists (boolAttr ["eq"; "ne"]). split; [vm_compute; reflexivity|]. split; [by apply contains_true|done].
Qed.

Lemma ParseFilter_print_witness :
  ParseFilter no_rune no_rune same_rune no_time UserFilterAttributes sample_filter = Ok sample.
Proof.
  apply (ParseFilter_print no_rune no_rune same_rune no_time UserFilterAttributes no_date sample_filter sample).
  - exact sample_printable.
  - simpl. lia.
  - vm_compute. reflexivity.
  - discriminate.
  - vm_compute. discriminate.
Defined.

Lemma ParseFilter_typed_witness : well_typed UserFilterAttributes sample.
Proof. exact (ParseFilter_typed no_rune no_rune same_rune no_time UserFilterAttributes sample_filter sample sample_parse). Defined.

Lemma three_groups_refused_witness :
  exists e, ParseFilter no_rune no_rune same_rune no_time UserFilterAttributes "(((active pr)))" = Err e.
Proof.
  apply (three_groups_refused no_rune no_rune same_rune no_time UserFilterAttributes _ (runes "active pr)))")).
  vm_compute. reflexivity.
Defined.
